(* ===== verification/_CoqProject ===== *)
-Q . S2P
Prelude.v
Text.v
Decimal.v
Pricing.v
JsDate.v
Cadence.v
Windows.v
Balances.v
MeterLimits.v
MeterScope.v
Wallet.v
WalletStore.v
RateLimit.v
Promotions.v
CommercialPricing.v
Corrections.v
KeptLevels.v
Workers.v
Controls.v
AutoTopup.v
UsageAlerts.v
Json.v
UsageOperations.v
Metering.v
PlanGrants.v
CarryReplay.v
CarryOver.v
SubscriptionChanges.v
SubscriptionGrants.v
SubscriptionWindows.v
Adjustments.v
AdjustmentLedger.v
AdjustmentReplay.v
