(* ===== verification/Prelude.v ===== *)
(** * Quotum billing: a verification library

    Quotum is a billing and metering service: a TypeScript program over PostgreSQL that
    keeps wallets of metered credit, meter limits, spend and usage controls, prices and
    promotions for the accounts of a project.  These files model the part of it that decides
    what an account may use and what it is charged, and prove what those decisions promise.
    Paths are relative to [src/src/].

    ** How the program is put together

    A request for usage goes to the metering service ([billing/metering.ts]), which runs one
    database transaction of [db/repository/metering.ts].  A feature is either under a meter
    limit, and then counts in a usage window, or a wallet, and then spends allocations at the
    price of a rate card.  Both ask the customer's controls first, and both can be done in two
    steps, a reservation that holds quantity and a confirmation or release that settles it.
    Corrections give back part of a recorded event.  Plan changes keep the level of a
    non-consumable meter, and carry unused balance and used quantity from the outgoing
    allowances to the incoming ones; a return to the old version takes them back.  Support
    staff grant credit, revoke a grant and debit allocations, each once per key.  Prices, proration and promotion discounts are pure functions.
    After a write the same transaction evaluates the account's usage alerts and opens a top-up
    job when the balance fell below the policy's threshold; a worker buys the pack later.
    A caller that retries sends the same operation id, and a claim table answers the retry
    with the first result.  Workers retry what failed, under a lease, and a limiter guards the
    HTTP surface.

    ** Files

    - [Prelude]: errors and the error monad ([InvalidRequestError], [BillingError] and
      internal errors), folds that may throw, a stable sort, sums, shared tactics.
    - [Text], [JsDate]: the parts of JavaScript the program relies on: strings as lists of
      UTF-16 units ([trim], [padEnd], [BigInt] of digits) and [Date] in UTC, where [None] is
      an invalid date.
    - [Decimal] ([billing/decimal.ts]): decimal strings and units of a scale.
    - [Pricing] ([billing/pricing.ts]): rate cards, usage charges, proration, plan changes.
    - [Cadence] ([shared/cadence.ts], [billing/cadence.ts]) and [Windows]
      ([db/repository/meter-limit-windows.ts]): calendar arithmetic and every usage window.
    - [Balances]: the rows, balances, decisions and receipts the operations exchange.
    - [MeterLimits] ([db/repository/meter-limit-sources.ts], [metering-persistence.ts]):
      which limit applies, what it admits, what overage costs and what a reservation quotes.
    - [MeterScope] ([meter-limit-scope.ts], [metering.ts]): the usage windows of a limit and
      the writes on them.
    - [Wallet] ([metering-persistence.ts]): balances, deduction plans and confirmation plans
      on rows as the database returns them, decimal text included.
    - [WalletStore] ([metering.ts], [metering-persistence.ts], [allocation-order.ts]): the
      wallet's tables and the transactions that consume, reserve, confirm, release and expire.
    - [Corrections] ([metering.ts]), [KeptLevels] ([kept-levels.ts]) and [Controls]
      ([controls-runtime.ts], [controls-enterprise.ts]).
    - [Promotions] ([billing/promotions.ts]) and [CommercialPricing]
      ([billing/commercial-pricing.ts]).
    - [RateLimit] ([http/rate-limit.ts]) and [Workers] ([workers/backoff.ts],
      [workers/job-leases.ts]).
    - [AutoTopup] ([controls-runtime.ts], [auto-topup-jobs.ts], [auto-topup-repairs.ts],
      [workers/auto-topup.ts]): the policy, its jobs, attempts and purchases, and every step
      of a job from the write that schedules it to the review of a failed charge.
    - [UsageAlerts] ([controls-runtime.ts], [controls-enterprise.ts]): alerts evaluated over
      the log of usage events by the writes and corrections that record them.
    - [Json] ([billing/decimal.ts]): values, [stableJson] and its older form.
    - [UsageOperations] ([usage-operations.ts]): claims of operation ids, their fingerprints,
      replay, conflict and retention.
    - [Metering] ([metering.ts], [metering-persistence.ts], [controls-runtime.ts]): the whole
      transactions of a wallet's feature, which compose the files above: consume, reserve,
      confirm, release and expiry, with the usage events, control entries and rollups they
      record and the alerts and top-ups they set off.

    - [PlanGrants] ([plan-grant-windows.ts], [default-plan-grants.ts], [default-plan-sql.ts],
      [plan-grants.ts], [promotion-plan-grants.ts], [cadence-sql.ts]): an account's plan grants,
      the allowances of their windows, what a read counts of them and what a write opens.
    - [CarryReplay] ([carry-over.ts]): the replay of recorded carries, which tells whose use an
      allowance holds, what two allowances share, and what a correction takes from each.
    - [CarryOver] ([carry-over.ts], [catalog-allocations.ts], [metering.ts]): a subscription's
      allocations and recorded carries, and the transactions that end an outgoing version's
      allowances, carry its balances and its use, reopen it, and correct use that was copied.
    - [SubscriptionChanges] ([recurring-pricing.ts], [recurring-retry.ts],
      [workers/recurring-billing.ts], [catalog-allocations.ts]): the queue of requested changes
      of subscriptions, what its worker does with one, and which version a synced subscription
      carries ([resolveSubscriptionPlanVersion]).
    - [SubscriptionGrants] ([catalog-allocations.ts], [subscription-allocation-periods.ts],
      [cadence-sql.ts]): the sync of a provider's snapshot, whole, and the worker that opens
      reset windows; [SubscriptionWindows]: the histories of both.
    - [Adjustments] ([billing/balance-adjustments.ts], [balance-adjustments.ts],
      [metering-persistence.ts]): an account's wallets with its operator grants and
      administrative debits, the three transactions that change them and the two lists;
      [AdjustmentLedger]: their histories together with the use of the wallets, and
      [AdjustmentReplay]: keys sent again, and readers of the lists.

    [Wallet] is the detailed level of [WalletStore]: its functions read and write decimal
    text, [Wallet.represents] relates a row to integer units, and the theorems of
    [WalletStore] are about tables of integer units whose transactions call those functions.
    [MeterScope] calls [MeterLimits] for every admission in the same way.  [Metering] calls
    the functions of [Wallet], [WalletStore], [UsageAlerts] and [AutoTopup], and the controls
    through the class [ControlGate]: its theorems need the laws [GateLaws], which [Controls]
    fulfils ([controls_gate], [controls_laws]).  [SubscriptionGrants] calls the switch of
    [CarryOver], the levels of [KeptLevels], the superseded grants of [PlanGrants], the windows
    of [Windows] and the resolution of [SubscriptionChanges], in the order the code does; a sync
    is a sequence of the steps of [CarryOver]'s histories.  [Adjustments] writes the tables of
    [WalletStore] that wallet transactions settle: an operator allocation's units, and the
    [revoked_quantity] a settlement of a revoked grant adds to ([settleHeldQuantity]).

    ** What the theorems show

    - Conservation under any interleaving: a wallet is never oversold, a hard cap is never
      exceeded, no write takes a control's window past its limit (a lifetime window may be
      past it from usage recorded elsewhere, which every write catches it up with), and what
      is held is what the open reservations hold ([wallet_never_oversold], [hard_cap_never_exceeded],
      [control_limit_never_exceeded]); corrections give back at most what was charged
      ([corrections_bounded]).
    - Progress: what a decision approves can be deducted, what a reservation holds can be
      confirmed, an allowed correction is accepted, rating never misses a tier
      ([approved_quantity_is_deducted], [confirmation_within_hold_settles],
      [correction_accepted], [tiered_charge_covers_usage]).
    - Functional behaviour: spend order, the reverse of a reservation, combined limits,
      winning controls, levels kept and shrunk, previews and discounts.
    - Windows: every usage window contains its instant and windows never overlap.
    - Money: charges against reference definitions, rounding bounds, and when splitting a
      request can and cannot pay ([flat_rate_split_never_cheaper],
      [graduated_rate_split_can_be_cheaper]); a reservation's quote covers its confirmation.
    - The limiter and the workers: who is refused, who owns a job, when a retry runs.
    - Top-ups: the rows stay well formed, at most one job of a policy is open, a period's
      purchases never exceed the policy's budget, and the transactions refine an account that
      only knows what was bought ([topup_refines_account]).
    - Alerts: what an alert reports is the usage of its window, and its crossings and
      recoveries alternate.
    - Whole requests: within the limits of wallet and controls at once
      ([metering_within_limits]); what is charged is what is recorded, in events, rollups and,
      catching up apart, control entries ([metering_adds_up]); a reservation is charged once and its answer is
      repeatable ([reservation_charged_once], [confirmation_is_final]); a refusal records
      nothing; the balance a write answers with and hands to the top-ups is the one it leaves;
      and exactly the requests that record usage evaluate the alerts, once, with what they
      record ([metering_refines_alerts]).
    - Plan grants: a read counts exactly what the next write will find, whatever that write has
      to catch up with ([reads_answer_as_writes]), and over every history the allowances of a
      grant never overlap and a feature has one live allowance at most
      ([history_keeps_allowances_apart]); [fallback_refills_window] is the case its one
      assumption leaves out.
    - Carry-over: the replay refines sets of units of use ([replay_refines_units]), and a
      correction leaves what replaying the corrected carries gives
      ([corrected_carries_replay]); over every history of a subscription that applies changes in
      their order and whose switches race no use, the recorded carries account for the consumption of its allowances ([carries_account_for_use]), a switch
      charges the incoming allowance with the carried use once ([switch_counts_use_once]),
      a correction takes the copies back as well ([correction_takes_copies_back]), and a
      carried balance returns less what the carry spent, holds and had debited
      ([carried_balance_returns]).
    - Subscriptions: at most one change of a subscription is in flight, and an applied one is
      final ([one_change_in_flight], [applied_change_is_final]); a sync moves the version only
      when a change or the provider's product says so ([sync_moves_only_when_told]); a sync is
      a history of the subscription's allowances ([sync_refines_history]), and the same snapshot
      again changes nothing ([redelivered_snapshot_changes_nothing]); over every history two
      allowances of an item cover one instant only where two reported periods do
      ([one_allowance_at_a_time]; [google_renewal_overlaps] is a provider whose periods do), and
      where they do not a pass of the worker opens the window of every item and leaves nothing
      due until one ends ([pass_opens_every_window]).
    - Operator grants and debits: over every history in which use, grants, revocations and
      debits interleave, what was reversed of a grant is what its debits and its revocation
      took ([operator_grant_adds_up]); once revoked it gives nothing more, whatever open
      reservations still settle ([revoked_grant_stays_closed]); a debit takes each of its lines
      or none, and takes them exactly when each names a live allocation that no provider sold
      and that has the quantity ([debit_all_or_none]); a key is
      bound to its first terms ([adjustment_keys_replay]); and a reader that follows the cursors
      misses no row and repeats none, on an account that moves meanwhile ([lists_page_through]).
    - Retries: equal stable JSON means equal values, a request is applied once however often
      it is sent, and the claim table refines a ledger of answered operations.

    ** Conventions

    - Numbers: a JavaScript [bigint] or a [numeric] column is [Z], in units of its scale
      where the column has one; a [number] is [Z] where the code checks it is a safe integer,
      and [jsnumber] where it may be fractional.  Instants are milliseconds.
    - Identifiers: a row's id and its [String(id)] are one [Z].
    - Transactions: a transaction takes its row locks (or the customer's controls lock, or the
      feature's spend lock) before it reads and keeps them until it commits, so a history is a
      sequence of whole transactions; statements issued together touch distinct rows.
    - Errors keep their class, code and status; of messages only what names a field is kept,
      and the details object is not.
    - Nothing is assumed of code outside [src]: what a transaction asks another component is
      an argument ([controlsDeny], the purchase actions, the price rows, the usage already
      recorded in a control's window), as are the clock and generated ids.  The one numeric
      function the database evaluates, the rounded share of a correction, is a parameter with
      the property that it is not negative.
    - Loops are structural recursions on the list the code loops over; fuel
      is used by [Text.digitsFuel], with the bits of the number printed, which are at least
      its digits, by [Workers.retrySchedule], with at least the attempts allowed, and by
      [AdjustmentReplay.readAll], with more pages than the list has rows.  Facts
      about dates are for the years 1970 to 9999 ([Cadence.modern]).
    - Alerts are evaluated at the application's clock and dated by the database's: their
      theorems are about writes whose two clocks lie in the same window of each alert, which
      fails across a boundary ([straddled_boundary_miscounts]).  Theorems about retries are about claims and answers still retained.
    - A transaction of [Metering] reads each of its clocks once ([ck_now], [ck_clock],
      [ck_app]); months of rollups are in UTC, the time zone of the database.
    - A history of [CarryOver] applies plan changes in the order they were created, a switch
      starts after the use it carries was recorded, and a version has one item per feature; three
      findings of the manifest are the cases these leave out.  [Date] and the database's clock
      are one clock there.
    - What a write reads as recorded in a control's window ([recorded]) is an argument: of a
      calendar window it is read once, when the window opens; of a lifetime window by every
      write, and it may exceed what the window counts.
    - A history of [PlanGrants] is of default plans whose allocations reset, and a fall back
      hands over allowances that start where their reset's window does ([resume_aligned]).
    - A history of [SubscriptionWindows] is of one subscription, and its items are those of
      published versions, which do not change; the periods the provider reports may overlap,
      and a stale snapshot leaves the stored one.
    - The product a subscription had before ([sn_previous]) is part of a snapshot: the Stripe
      handler reads it from the stored subscription, so a redelivery after a product change
      has the new product there, which moves nothing.
    - A history of [AdjustmentLedger] starts from an account without adjustments and is of that
      account's locked row, which every one of its transactions holds; generated ids are new.  A
      grant's [created_at] and id order the lists, and a cursor is such a position.
    - The hash of a fingerprint, the collation that sorts keys and the size the database
      gives a [jsonb] value are parameters.
    - Text that is upper-cased or sorted (currency codes) is ASCII.

    ** Not modelled

    Projections, invoice adjustments and the domain-event outbox a usage write also records;
    rollover, which adds allocations (a history of [Metering] may add any new allocation between
    requests, [ReqGrant]; the ones of plan grants are those of [PlanGrants], the ones of a
    subscription those of [SubscriptionGrants]); the price items of a subscription, and what a
    purchase or a period grants and a refund reverses; the promotion and the catalog migration a
    subscription change may carry; the levels
    of kept meters a wallet's confirmation or release shrinks ([shrinkKeptLevels], in
    [KeptLevels] on its own); add-on grants, and the worker's pass that applies
    the default plan to every account of a project; the transactions of a meter limit composed
    with controls, events and alerts; controls replaced in the middle of a window, and the
    control entries a correction reverses; what a paid top-up job writes outside its own
    tables; the schema, the queries that only read, HTTP routes, authentication, provider
    calls, the SDK and the administration surface.  Next in line:
    rollover, receipts, redemption
    counters of promotions, refunds and the catalog's publication rules. *)
From Stdlib Require Export ZArith Lia.
From stdpp Require Export base list gmap strings pretty sorting.

#[global] Open Scope Z_scope.

(** ** Errors and the error monad *)

(** The exceptions the modelled code throws: [InvalidRequestError] (always
    [400 INVALID_REQUEST]), [BillingError] with its code and status, and any
    other [Error] or [RangeError], which is an internal failure. *)
Inductive error :=
  | InvalidRequest (message : string)
  | BillingErr (message code : string) (status : Z)
  | InternalError (message : string).

Inductive result (A : Type) :=
  | Ok (a : A)
  | Err (e : error).
Arguments Ok {A} _.
Arguments Err {A} _.

#[export] Instance result_ret : MRet result := @Ok.
#[export] Instance result_bind : MBind result := fun _ _ f m =>
  match m with Ok a => f a | Err e => Err e end.
#[export] Instance result_fmap : FMap result := fun _ _ f m =>
  match m with Ok a => Ok (f a) | Err e => Err e end.

#[export] Instance error_eq_dec : EqDecision error.
Proof. solve_decision. Defined.
#[export] Instance result_eq_dec `{EqDecision A} : EqDecision (result A).
Proof. solve_decision. Defined.

(** [throwWhen c e] is [if (c) throw e]. *)
Definition throwWhen (c : bool) (e : error) : result unit :=
  if c then Err e else Ok tt.

Definition is_ok {A} (r : result A) : bool :=
  match r with Ok _ => true | Err _ => false end.

(** A [for ... of] loop whose body may throw. *)
Fixpoint foldM {A B} (f : B -> A -> result B) (l : list A) (b : B) : result B :=
  match l with
  | [] => Ok b
  | a :: l' => b' ← f b a; foldM f l' b'
  end.

Section ResultLemmas.
Context {A B : Type}.

Lemma bind_Ok (m : result A) (f : A -> result B) b :
  (m ≫= f) = Ok b <-> exists a, m = Ok a /\ f a = Ok b.
Proof.
  destruct m as [a|e]; cbn; split; intros H.
  - eauto.
  - destruct H as (a' & [= ->] & H). exact H.
  - discriminate.
  - destruct H as (a' & [=] & _).
Qed.

Lemma bind_Err (m : result A) (f : A -> result B) e :
  (m ≫= f) = Err e <-> m = Err e \/ exists a, m = Ok a /\ f a = Err e.
Proof.
  destruct m as [a|e']; cbn; split; intros H.
  - eauto.
  - by destruct H as [[=]|(a' & [= ->] & H)].
  - by left; injection H as ->.
  - by destruct H as [[= ->]|(a' & [=] & _)].
Qed.

Lemma throwWhen_Ok (c : bool) e u : throwWhen c e = Ok u <-> c = false.
Proof. destruct c, u; cbn; split; congruence. Qed.

Lemma throwWhen_Err (c : bool) e e' : throwWhen c e = Err e' <-> c = true /\ e = e'.
Proof. destruct c; cbn; split; intuition congruence. Qed.
End ResultLemmas.

Lemma mapM_Ok_Forall2 {A B} (f : A -> result B) (l : list A) (k : list B) :
  mapM f l = Ok k <-> Forall2 (fun x y => f x = Ok y) l k.
Proof.
  revert k. induction l as [|x l IH]; intros k; cbn.
  - split; [intros [= <-]; constructor | intros H; inversion H; reflexivity].
  - rewrite bind_Ok. setoid_rewrite bind_Ok. split.
    + intros (y & Hy & k' & Hk & [= <-]). constructor; [done | by apply IH].
    + intros H. inversion H; subst. eexists; split; [eassumption|].
      eexists; split; [by apply IH|reflexivity].
Qed.

Lemma Forall2_elem_l {A B} (P : A -> B -> Prop) l k x : Forall2 P l k -> x ∈ l -> exists y, y ∈ k /\ P x y.
Proof.
  induction 1 as [|a b l k Hab _ IH]; intros Hx; [by apply elem_of_nil in Hx|]. apply elem_of_cons in Hx as [->|Hx].
  - exists b. split; [by constructor|done].
  - destruct (IH Hx) as (y & Hy & HP). exists y. split; [by constructor|done].
Qed.

Lemma Forall2_elem_r {A B} (P : A -> B -> Prop) l k y : Forall2 P l k -> y ∈ k -> exists x, x ∈ l /\ P x y.
Proof. intros H Hy. apply (Forall2_elem_l (flip P) k l y); [by apply Forall2_flip|done]. Qed.

Lemma mapM_ext {A B} (f g : A -> result B) l : (forall x, f x = g x) -> mapM f l = mapM g l.
Proof. intros H. induction l as [|x l IH]; [done|]. cbn. by rewrite H, IH. Qed.

Lemma mapM_Ok_map {A B} (f : A -> result B) (g : A -> B) l :
  Forall (fun x => f x = Ok (g x)) l -> mapM f l = Ok (map g l).
Proof.
  intros H. apply mapM_Ok_Forall2. induction H; cbn; constructor; auto.
Qed.

Lemma foldM_app {A B} (f : B -> A -> result B) l1 l2 b :
  foldM f (l1 ++ l2) b = (b' ← foldM f l1 b; foldM f l2 b').
Proof.
  revert b. induction l1 as [|a l1 IH]; intros b; cbn; [done|].
  destruct (f b a); cbn; auto.
Qed.

(** [foldM] of a body that never throws on the states it meets is a plain fold. *)
Lemma foldM_total {A B} (f : B -> A -> result B) (g : B -> A -> B) l b :
  (forall x b', x ∈ l -> f b' x = Ok (g b' x)) -> foldM f l b = Ok (fold_left g l b).
Proof.
  revert b. induction l as [|a l IH]; intros b H; cbn; [done|].
  rewrite H by constructor. cbn. apply IH. intros. apply H. by constructor.
Qed.

(** [String.prototype.toUpperCase] on ASCII text, as currency codes are. *)
Definition upperAscii (c : Ascii.ascii) : Ascii.ascii :=
  let n := Ascii.nat_of_ascii c in
  if (97 <=? n)%nat && (n <=? 122)%nat then Ascii.ascii_of_nat (n - 32) else c.
Fixpoint toUpperCase (s : string) : string :=
  match s with
  | EmptyString => EmptyString
  | String c s' => String (upperAscii c) (toUpperCase s')
  end.

(** ** Automation *)

(** Splits every [Ok] equation about a bind or a guard in the context. *)
Ltac inv_result :=
  repeat match goal with
  | H : (_ ≫= _) = Ok _ |- _ =>
      apply bind_Ok in H; let x := fresh "x" in let E := fresh "E" in
      destruct H as (x & E & H)
  | H : throwWhen _ _ = Ok ?u |- _ => apply throwWhen_Ok in H; try clear u
  | H : Ok _ = Ok _ |- _ => injection H as H
  | H : Err _ = Ok _ |- _ => discriminate H
  | H : Ok _ = Err _ |- _ => discriminate H
  end.

(** Turns boolean comparisons into propositions before arithmetic. *)
Ltac bool_to_prop :=
  repeat match goal with
  | H : andb _ _ = true |- _ => apply andb_prop in H; destruct H
  | H : orb _ _ = false |- _ => apply orb_false_elim in H; destruct H
  | H : negb _ = true |- _ => apply negb_true_iff in H
  | H : negb _ = false |- _ => apply negb_false_iff in H
  | H : (_ <? _) = true |- _ => apply Z.ltb_lt in H
  | H : (_ <? _) = false |- _ => apply Z.ltb_ge in H
  | H : (_ <=? _) = true |- _ => apply Z.leb_le in H
  | H : (_ <=? _) = false |- _ => apply Z.leb_gt in H
  | H : (_ =? _) = true |- _ => apply Z.eqb_eq in H
  | H : (_ =? _) = false |- _ => apply Z.eqb_neq in H
  end.

Ltac cases_if :=
  match goal with
  | |- context [if ?b then _ else _] => destruct b eqn:?
  | H : context [if ?b then _ else _] |- _ => destruct b eqn:?
  end.

(** Case analysis on boolean tests, then linear arithmetic. *)
Ltac blia := repeat cases_if; bool_to_prop; lia.

Create HintDb quotum.
Create Rewrite HintDb units.

(** ** Sums over lists *)

Fixpoint sumZ (l : list Z) : Z :=
  match l with [] => 0 | x :: l' => x + sumZ l' end.

Lemma sumZ_app l1 l2 : sumZ (l1 ++ l2) = sumZ l1 + sumZ l2.
Proof. induction l1; cbn; lia. Qed.

Lemma sumZ_nonneg l : Forall (fun x => 0 <= x) l -> 0 <= sumZ l.
Proof. induction 1; cbn; lia. Qed.

Lemma sumZ_perm l1 l2 : l1 ≡ₚ l2 -> sumZ l1 = sumZ l2.
Proof. induction 1; cbn; lia. Qed.

Lemma sumZ_map_le {A} (f g : A -> Z) l :
  (forall x, x ∈ l -> f x <= g x) -> sumZ (map f l) <= sumZ (map g l).
Proof.
  induction l as [|a l IH]; intros H; cbn; [lia|].
  assert (f a <= g a) by (apply H; constructor).
  assert (sumZ (map f l) <= sumZ (map g l)) by (apply IH; intros; apply H; by constructor).
  lia.
Qed.

Lemma sumZ_map_add {A} (f g : A -> Z) l :
  sumZ (map (fun x => f x + g x) l) = sumZ (map f l) + sumZ (map g l).
Proof. induction l; cbn; lia. Qed.

Lemma fold_left_add_sumZ {A} (f : A -> Z) l b :
  fold_left (fun acc x => acc + f x) l b = b + sumZ (map f l).
Proof. revert b. induction l as [|a l IH]; intros b; cbn; [lia|]. rewrite IH. lia. Qed.

Lemma sumZ_member_le {A} (f : A -> Z) l x :
  Forall (fun y => 0 <= f y) l -> x ∈ l -> f x <= sumZ (map f l).
Proof.
  induction 1 as [|a l Ha Hl IH]; intros Hx; [by apply elem_of_nil in Hx|]; cbn.
  assert (0 <= sumZ (map f l)).
  { apply sumZ_nonneg, Forall_map. exact Hl. }
  apply elem_of_cons in Hx as [->|Hx]; [lia|]. specialize (IH Hx). lia.
Qed.

(** ** Filters and keys *)

Lemma NoDup_filter_key {A B} (key : A -> B) (p : A -> bool) (l : list A) : NoDup (map key l) -> NoDup (map key (List.filter p l)).
Proof.
  induction l as [|c l IH]; intros Hnd; [constructor|]. cbn [map List.filter] in *. apply NoDup_cons in Hnd as [Hc Hnd].
  destruct (p c); [|by apply IH]. cbn [map]. apply NoDup_cons. split; [|by apply IH].
  intros (x & Hx & Hin)%list_elem_of_fmap. apply list_elem_of_In, filter_In in Hin as [Hin _]. apply Hc. rewrite Hx.
  apply list_elem_of_fmap_2. by apply list_elem_of_In.
Qed.

Lemma filter_none {A} (p : A -> bool) l : (forall x, x ∈ l -> p x = false) -> List.filter p l = [].
Proof.
  induction l as [|x l IH]; intros H; [done|]. cbn. rewrite H by constructor. apply IH.
  intros y Hy. apply H. by constructor.
Qed.

Lemma filter_all {A} (p : A -> bool) l : (forall x, x ∈ l -> p x = true) -> List.filter p l = l.
Proof.
  induction l as [|x l IH]; intros H; [done|]. cbn. rewrite H by constructor. f_equal. apply IH.
  intros y Hy. apply H. by constructor.
Qed.

Lemma find_filter {A} (p : A -> bool) l : List.find p l = head (List.filter p l).
Proof. induction l as [|x l IH]; [done|]. cbn. by destruct (p x). Qed.

Lemma existsb_filter_head {A} (p : A -> bool) l : existsb p l = bool_decide (List.filter p l <> []).
Proof. induction l as [|x l IH]; [done|]. cbn. destruct (p x); [by rewrite bool_decide_true|]. cbn. done. Qed.

(** A filter whose rows a map leaves alone. *)
Lemma filter_map_same {A} (p : A -> bool) (k : A -> A) l :
  (forall x, x ∈ l -> p (k x) = p x /\ (p x = true -> k x = x)) -> List.filter p (map k l) = List.filter p l.
Proof.
  induction l as [|x l IH]; [done|]. intros H. destruct (H x ltac:(constructor)) as [E1 E2]. cbn. rewrite E1.
  rewrite IH by (intros; apply H; by constructor). destruct (p x); [by rewrite E2|done].
Qed.

Lemma filter_map_comm {A B} (p : B -> bool) (k : A -> B) l : List.filter p (map k l) = map k (List.filter (fun x => p (k x)) l).
Proof. induction l as [|x l IH]; [done|]. cbn. rewrite IH. by destruct (p (k x)). Qed.

(** ... or whose rows it changes only in what is not asked of them. *)
Lemma filter_map_content {A B} (c : A -> B) (p q : A -> bool) (k : A -> A) l :
  (forall x, x ∈ l -> q (k x) = p x /\ (p x = true -> c (k x) = c x)) -> map c (List.filter q (map k l)) = map c (List.filter p l).
Proof.
  induction l as [|x l IH]; [done|]. intros H. destruct (H x ltac:(constructor)) as [E1 E2]. cbn. rewrite E1.
  specialize (IH ltac:(intros; apply H; by constructor)). destruct (p x); [|done]. cbn. by rewrite E2, IH.
Qed.

Lemma existsb_none {A} (p : A -> bool) l : (forall x, x ∈ l -> p x = false) -> existsb p l = false.
Proof. intros H. rewrite existsb_filter_head, filter_none by done. done. Qed.

Lemma existsb_false_in {A} (p : A -> bool) l x : existsb p l = false -> x ∈ l -> p x = false.
Proof.
  intros H Hx. apply not_true_iff_false. intros Hp. apply not_true_iff_false in H. apply H, existsb_exists. exists x.
  split; [by apply list_elem_of_In|done].
Qed.

(** A filter that holds of one row at most keeps none or that one. *)
Lemma filter_unique {A} (p : A -> bool) l : NoDup l ->
  (forall x y, x ∈ l -> y ∈ l -> p x = true -> p y = true -> x = y) ->
  List.filter p l = [] \/ exists x, x ∈ l /\ p x = true /\ List.filter p l = [x].
Proof.
  induction l as [|x l IH]; [by left|]. intros [Hx Hnd]%NoDup_cons Hu. cbn. destruct (p x) eqn:E.
  - right. exists x. split; [by constructor|]. split; [done|]. f_equal. apply filter_none. intros y Hy.
    destruct (p y) eqn:Ey; [|done]. destruct Hx. rewrite (Hu x y); [done|by constructor|by constructor|done|done].
  - destruct IH as [->|(y & Hy & Ey & ->)]; [done| |by left|right].
    + intros y z Hy Hz. apply Hu; by constructor.
    + exists y. split; [by constructor|done].
Qed.

Lemma filter_only {A} `{EqDecision A} (p : A -> bool) l x (b : bool) : NoDup l -> x ∈ l ->
  (forall y, y ∈ l -> p y = bool_decide (y = x) && b) -> List.filter p l = if b then [x] else [].
Proof.
  intros Hnd Hx H. destruct (filter_unique p l Hnd) as [E|(y & Hy & Ey & ->)].
  - intros a c Ha Hc. rewrite (H a Ha), (H c Hc), !andb_true_iff, !bool_decide_eq_true. by intros [-> _] [-> _].
  - destruct b; [|done]. exfalso. assert (Hin : x ∈ List.filter p l).
    { apply list_elem_of_In, filter_In. split; [by apply list_elem_of_In|]. by rewrite (H x Hx), bool_decide_true. }
    rewrite E in Hin. by apply elem_of_nil in Hin.
  - rewrite (H y Hy), andb_true_iff, bool_decide_eq_true in Ey. by destruct Ey as [-> ->].
Qed.

(** In a table, a key determines its row. *)
Lemma NoDup_key_inj {A B} (f : A -> B) l x y : NoDup (map f l) -> x ∈ l -> y ∈ l -> f x = f y -> x = y.
Proof.
  induction l as [|z l IH]; [by intros _ []%elem_of_nil|]. cbn. intros [Hz Hnd]%NoDup_cons Hx Hy Hxy.
  apply elem_of_cons in Hx as [->|Hx]; apply elem_of_cons in Hy as [->|Hy]; [done| | |auto];
    exfalso; apply Hz; apply list_elem_of_fmap; [exists y|exists x]; split; auto.
Qed.

(** ** Rounded division *)

(** [ceil(a / b)] written as the code writes it for nonnegative bigints. *)
Lemma ceil_div_bounds a b : 0 < b ->
  let q := (a + b - 1) / b in (q - 1) * b < a /\ a <= q * b.
Proof.
  intros Hb q. subst q. pose proof (Z.div_mod (a + b - 1) b ltac:(lia)).
  pose proof (Z.mod_pos_bound (a + b - 1) b Hb). nia.
Qed.

Lemma ceil_div_mono a a' b : 0 < b -> a <= a' -> (a + b - 1) / b <= (a' + b - 1) / b.
Proof. intros. apply Z.div_le_mono; lia. Qed.

Lemma ceil_div_subadd a a' b : 0 < b ->
  (a + a' + b - 1) / b <= (a + b - 1) / b + (a' + b - 1) / b.
Proof.
  intros Hb. pose proof (ceil_div_bounds a b Hb). pose proof (ceil_div_bounds a' b Hb).
  pose proof (ceil_div_bounds (a + a') b Hb). cbv zeta in *. nia.
Qed.

(** Rounding half up, as [(a + b / 2) / b], is within half a unit. *)
Lemma half_up_bounds a b : 0 < b ->
  let q := (a + b / 2) / b in 2 * a - b < 2 * (q * b) <= 2 * a + b.
Proof.
  intros Hb q. subst q. pose proof (Z.div_mod (a + b / 2) b ltac:(lia)).
  pose proof (Z.mod_pos_bound (a + b / 2) b Hb).
  pose proof (Z.div_mod b 2 ltac:(lia)). pose proof (Z.mod_pos_bound b 2 ltac:(lia)). nia.
Qed.

(** ** Stable sorting by a comparator

    [lt x y] is [compare(x, y) < 0]; the array's [sort] is stable. *)
Section Sorting.
Context {A : Type} (lt : A -> A -> bool).

Fixpoint insertBy (x : A) (l : list A) : list A :=
  match l with
  | [] => [x]
  | y :: l' => if lt y x then y :: insertBy x l' else x :: l
  end.
Definition sortBy (l : list A) : list A := fold_right insertBy [] l.

(** [x] may stand before [y]. *)
Definition inOrder (x y : A) : Prop := lt y x = false.

Lemma insertBy_perm x l : insertBy x l ≡ₚ x :: l.
Proof. induction l as [|y l IH]; cbn; [done|]. destruct (lt y x); [|done]. rewrite IH. apply perm_swap. Qed.

Lemma sortBy_perm l : sortBy l ≡ₚ l.
Proof. induction l as [|x l IH]; cbn; [done|]. by rewrite insertBy_perm, IH. Qed.

Lemma sortBy_sorted l : (forall x y, lt x y = true -> lt y x = false) ->
  (forall x y z, inOrder x y -> inOrder y z -> inOrder x z) -> StronglySorted inOrder (sortBy l).
Proof.
  intros Hasym Htrans. assert (Hins : forall x k, StronglySorted inOrder k -> StronglySorted inOrder (insertBy x k)).
  { intros x k. induction 1 as [|y k Hk IH Hy]; cbn; [repeat constructor|]. destruct (lt y x) eqn:E.
    - constructor; [exact IH|]. rewrite insertBy_perm. constructor; [by apply Hasym|exact Hy].
    - constructor; [by constructor|]. constructor; [exact E|]. eapply Forall_impl; [exact Hy|].
      intros z Hz. eapply Htrans; [exact E|exact Hz]. }
  induction l; cbn; [constructor|by apply Hins].
Qed.

Lemma sortBy_id l : StronglySorted inOrder l -> sortBy l = l.
Proof.
  induction 1 as [|x l _ IH Hx]; [done|]. change (sortBy (x :: l)) with (insertBy x (sortBy l)). rewrite IH. destruct l as [|y l]; cbn; [done|].
  apply Forall_cons in Hx as [Hx _]. unfold inOrder in Hx. by rewrite Hx.
Qed.
End Sorting.

(** A map that keeps the comparison commutes with the sort. *)
Lemma sortBy_map {A B} (lt : A -> A -> bool) (lt' : B -> B -> bool) (f : A -> B) l : (forall x y, lt' (f x) (f y) = lt x y) ->
  sortBy lt' (map f l) = map f (sortBy lt l).
Proof.
  intros H. assert (Hins : forall x k, insertBy lt' (f x) (map f k) = map f (insertBy lt x k)).
  { intros x k. induction k as [|y k IH]; cbn; [done|]. rewrite H. destruct (lt y x); cbn; [by rewrite IH|done]. }
  unfold sortBy. induction l as [|x l IH]; cbn; [done|]. by rewrite IH, Hins.
Qed.

(** The first of the rows a query orders is one it selects. *)
Lemma head_sortBy {A} (lt : A -> A -> bool) (p : A -> bool) l x : head (sortBy lt (List.filter p l)) = Some x -> x ∈ l /\ p x = true.
Proof.
  intros H. assert (Hx : x ∈ sortBy lt (List.filter p l)) by (destruct (sortBy _ _); simplify_eq/=; constructor).
  rewrite sortBy_perm in Hx. apply list_elem_of_In, filter_In in Hx as [Hx%list_elem_of_In Hp]. done.
Qed.
