(* ===== verification/Text.v ===== *)
(** * JavaScript text and bigint digits

    Strings the program inspects are lists of UTF-16 code units ([text]), as in
    JavaScript; [js] writes one as a literal.  The file holds the parts of the
    string library the modelled code calls ([trim], [startsWith], [padStart],
    [padEnd], trailing-zero removal), and the decimal rendering and parsing of a
    nonnegative [bigint] with its round trips. *)
From S2P Require Import Prelude.

Abbreviation text := (list Z).

Definition js (s : string) : text :=
  map (fun a => Z.of_N (Ascii.N_of_ascii a)) (String.list_ascii_of_string s).

(** ** Library functions *)

(** [WhiteSpace] and [LineTerminator] of ECMAScript, which [trim] removes. *)
Definition isWhiteSpace (c : Z) : bool :=
  ((9 <=? c) && (c <=? 13)) || (c =? 32) || (c =? 160) || (c =? 0x1680)
  || ((0x2000 <=? c) && (c <=? 0x200a)) || (c =? 0x2028) || (c =? 0x2029)
  || (c =? 0x202f) || (c =? 0x205f) || (c =? 0x3000) || (c =? 0xfeff).

Fixpoint dropWhile {A} (p : A -> bool) (l : list A) : list A :=
  match l with
  | [] => []
  | x :: l' => if p x then dropWhile p l' else l
  end.

Definition dropWhileEnd {A} (p : A -> bool) (l : list A) : list A :=
  reverse (dropWhile p (reverse l)).

Definition trim (t : text) : text := dropWhileEnd isWhiteSpace (dropWhile isWhiteSpace t).

Definition isDigit (c : Z) : bool := (48 <=? c) && (c <=? 57).
Definition isZeroChar (c : Z) : bool := c =? 48.

(** [s.replace(/0+$/, "")] *)
Definition stripTrailingZeros (t : text) : text := dropWhileEnd isZeroChar t.

(** [s.padStart(n, "0")] and [s.padEnd(n, "0")] *)
Definition padStart (t : text) (n : Z) : text := replicate (Z.to_nat n - length t) 48 ++ t.
Definition padEnd (t : text) (n : Z) : text := t ++ replicate (Z.to_nat n - length t) 48.

(** The text before the first [c] and, when there is one, the text after it. *)
Fixpoint splitAt (c : Z) (t : text) : text * option text :=
  match t with
  | [] => ([], None)
  | x :: t' =>
      if x =? c then ([], Some t')
      else let '(w, r) := splitAt c t' in (x :: w, r)
  end.

(** [BigInt(s)] of a text of digits; [BigInt("")] is zero. *)
Definition parseDigits (t : text) : Z := fold_left (fun n c => n * 10 + (c - 48)) t 0.

Fixpoint digitsFuel (fuel : nat) (n : Z) : text :=
  match fuel with
  | O => []
  | S fuel' =>
      if n <? 10 then [48 + n] else digitsFuel fuel' (n / 10) ++ [48 + n mod 10]
  end.

(** [n.toString()] of a nonnegative bigint. *)
Definition digits (n : Z) : text := digitsFuel (S (Z.to_nat (Z.log2 n))) n.

(** [String(n)] of a bigint or of an integer number below [2^53]. *)
Definition integerText (n : Z) : text := if n <? 0 then 45 :: digits (- n) else digits n.

#[global] Arguments digits : simpl never.
#[global] Arguments parseDigits : simpl never.

(** ** Digits *)

Abbreviation all_digits t := (Forall (fun c => isDigit c = true) t).

Lemma isDigit_spec c : isDigit c = true <-> 48 <= c <= 57.
Proof. unfold isDigit. rewrite andb_true_iff, !Z.leb_le. lia. Qed.

Lemma all_digits_snoc t c : all_digits (t ++ [c]) <-> all_digits t /\ isDigit c = true.
Proof. by rewrite Forall_app, Forall_singleton. Qed.

Lemma digitsFuel_mono f g n :
  0 <= n < 2 ^ Z.of_nat f -> (f <= g)%nat -> f <> O -> digitsFuel g n = digitsFuel f n.
Proof.
  revert g n. induction f as [|f IH]; intros g n Hn Hg Hf; [done|].
  destruct g as [|g]; [lia|]. cbn. destruct (n <? 10) eqn:E; [done|]. bool_to_prop.
  rewrite Nat2Z.inj_succ, Z.pow_succ_r in Hn by lia.
  f_equal. apply IH; [|lia|].
  - split; [apply Z.div_pos; lia|]. apply Z.div_lt_upper_bound; lia.
  - intros ->. cbn in Hn. lia.
Qed.

Lemma digits_eq n : 0 <= n ->
  digits n = if n <? 10 then [48 + n] else digits (n / 10) ++ [48 + n mod 10].
Proof.
  intros Hn. unfold digits at 1. cbn [digitsFuel].
  destruct (n <? 10) eqn:E; [done|]. bool_to_prop. f_equal.
  assert (Hd : 0 <= n / 10 < n) by (split; [apply Z.div_pos | apply Z.div_lt]; lia).
  assert (Hl : Z.log2 (n / 10) < Z.log2 n).
  { apply Z.log2_lt_pow2; [|apply Z.div_lt_upper_bound; [lia|]].
    - apply Z.div_str_pos; lia.
    - pose proof (Z.log2_spec n ltac:(lia)) as [_ H]. rewrite Z.pow_succ_r in H by apply Z.log2_nonneg. lia. }
  unfold digits. apply digitsFuel_mono; [|pose proof (Z.log2_nonneg (n / 10)); lia|lia].
  split; [lia|]. rewrite Nat2Z.inj_succ, Z2Nat.id by apply Z.log2_nonneg.
  apply Z.log2_spec. apply Z.div_str_pos; lia.
Qed.

(** Induction over the digits of a nonnegative integer. *)
Lemma digits_ind (P : Z -> Prop) :
  (forall n, 0 <= n < 10 -> P n) ->
  (forall n, 10 <= n -> P (n / 10) -> P n) ->
  forall n, 0 <= n -> P n.
Proof.
  intros Hb Hs. apply (Zlt_0_ind P). intros n IH Hn.
  destruct (Z.lt_ge_cases n 10); [apply Hb; lia|].
  apply Hs; [lia|]. apply IH. split; [apply Z.div_pos | apply Z.div_lt]; lia.
Qed.

Ltac digits_induction n H :=
  revert n H; apply digits_ind;
  [ intros n Hn; rewrite (digits_eq n) by lia;
    replace (n <? 10) with true by (symmetry; apply Z.ltb_lt; lia)
  | intros n Hn IH; rewrite (digits_eq n) by lia;
    replace (n <? 10) with false by (symmetry; apply Z.ltb_ge; lia)].

Lemma digits_all n : 0 <= n -> all_digits (digits n).
Proof.
  intros H. digits_induction n H.
  - repeat constructor. apply isDigit_spec. lia.
  - apply Forall_app. split; [done|]. repeat constructor. apply isDigit_spec.
    pose proof (Z.mod_pos_bound n 10). lia.
Qed.

Lemma parseDigits_app t u : parseDigits (t ++ u) = parseDigits t * 10 ^ Z.of_nat (length u) + parseDigits u.
Proof.
  unfold parseDigits. rewrite fold_left_app. generalize (fold_left (fun n c => n * 10 + (c - 48)) t 0).
  induction u as [|c u IH] using rev_ind; intros b; cbn; [lia|].
  rewrite !fold_left_app, IH. cbn. rewrite length_app. cbn.
  replace (Z.of_nat (length u + 1)) with (Z.succ (Z.of_nat (length u))) by lia.
  rewrite Z.pow_succ_r by lia. lia.
Qed.

Lemma parseDigits_snoc t c : parseDigits (t ++ [c]) = parseDigits t * 10 + (c - 48).
Proof. rewrite parseDigits_app. cbn. unfold parseDigits. cbn. lia. Qed.

Lemma parse_digits n : 0 <= n -> parseDigits (digits n) = n.
Proof.
  intros H. digits_induction n H.
  - unfold parseDigits. cbn. lia.
  - rewrite parseDigits_snoc, IH. pose proof (Z.div_mod n 10). lia.
Qed.

Lemma parseDigits_bounds t : all_digits t -> 0 <= parseDigits t < 10 ^ Z.of_nat (length t).
Proof.
  induction t as [|c t IH] using rev_ind; intros H; [unfold parseDigits; cbn; lia|].
  apply all_digits_snoc in H as [Ht Hc%isDigit_spec]. specialize (IH Ht).
  rewrite parseDigits_snoc, length_app. cbn.
  replace (Z.of_nat (length t + 1)) with (Z.succ (Z.of_nat (length t))) by lia.
  rewrite Z.pow_succ_r by lia. lia.
Qed.

Lemma parseDigits_zeros k : parseDigits (replicate k 48) = 0.
Proof. induction k as [|k IH]; [done|]. rewrite replicate_S_end, parseDigits_snoc, IH. lia. Qed.

Lemma parseDigits_inj t u :
  all_digits t -> all_digits u -> length t = length u -> parseDigits t = parseDigits u -> t = u.
Proof.
  revert u. induction t as [|c t IH] using rev_ind; intros u Ht Hu Hl Hp.
  - by destruct u.
  - destruct u as [|d u _] using rev_ind; [rewrite length_app in Hl; cbn in Hl; lia|].
    rewrite !length_app in Hl. cbn in Hl. rewrite !parseDigits_snoc in Hp.
    apply all_digits_snoc in Ht as [Ht Hc%isDigit_spec].
    apply all_digits_snoc in Hu as [Hu Hd%isDigit_spec].
    assert (parseDigits t = parseDigits u /\ c = d) as [Hp' ->] by lia.
    f_equal. apply IH; auto. lia.
Qed.

Lemma digits_nonempty n : 0 <= n -> digits n <> [].
Proof.
  intros H. digits_induction n H; [done|]. intros Hn'. apply app_eq_nil in Hn' as [_ [=]].
Qed.

Lemma digits_length n k : 0 <= n < 10 ^ Z.of_nat k -> k <> O -> (length (digits n) <= k)%nat.
Proof.
  intros Hn Hk. assert (H0 : 0 <= n) by lia. revert k Hn Hk.
  apply (digits_ind (fun n => forall k, 0 <= n < 10 ^ Z.of_nat k -> k <> O -> (length (digits n) <= k)%nat)).
  - intros m Hm k _ Hk. rewrite digits_eq by lia.
    replace (m <? 10) with true by (symmetry; apply Z.ltb_lt; lia). cbn. lia.
  - intros m Hm IH k Hmk Hk. rewrite digits_eq by lia.
    replace (m <? 10) with false by (symmetry; apply Z.ltb_ge; lia).
    rewrite length_app. cbn. destruct k as [|k]; [done|].
    rewrite Nat2Z.inj_succ, Z.pow_succ_r in Hmk by lia.
    assert (k <> O) by (intros ->; cbn in Hmk; lia).
    assert (length (digits (m / 10)) <= k)%nat; [|lia].
    apply IH; [|done]. split; [apply Z.div_pos; lia|]. apply Z.div_lt_upper_bound; lia.
  - done.
Qed.

(** The texts [toString] produces: no leading zero unless the text is ["0"]. *)
Definition canonicalInteger (t : text) : bool :=
  match t with
  | [] => false
  | c :: t' => forallb isDigit t && (negb (c =? 48) || match t' with [] => true | _ => false end)
  end.

Lemma canonicalInteger_all t : canonicalInteger t = true -> all_digits t /\ t <> [].
Proof.
  destruct t as [|c t]; [done|]. cbn. intros H. apply andb_prop in H as [H _].
  split; [|done]. apply Forall_forall. intros x Hx%list_elem_of_In.
  change (isDigit c && forallb isDigit t = true) with (forallb isDigit (c :: t) = true) in H.
  rewrite forallb_forall in H. auto.
Qed.

Lemma forallb_all_digits t : all_digits t <-> forallb isDigit t = true.
Proof. rewrite forallb_forall, Forall_forall. by setoid_rewrite list_elem_of_In. Qed.

Lemma canonicalInteger_snoc t c :
  t <> [] -> isDigit c = true ->
  canonicalInteger (t ++ [c]) = true <-> canonicalInteger t = true /\ 0 < parseDigits t.
Proof.
  destruct t as [|x t]; [done|]. intros _ Hc. cbn. rewrite forallb_app. cbn. rewrite Hc.
  destruct (isDigit x) eqn:Hx; cbn; [|intuition discriminate].
  destruct (forallb isDigit t) eqn:Ht; cbn; [|intuition discriminate].
  pose proof (proj2 (forallb_all_digits t) Ht) as Had.
  apply isDigit_spec in Hx.
  assert (Hp : parseDigits (x :: t) = (x - 48) * 10 ^ Z.of_nat (length t) + parseDigits t).
  { change (x :: t) with ([x] ++ t). by rewrite parseDigits_app. }
  rewrite Hp. pose proof (parseDigits_bounds t Had).
  assert (Hne : match t ++ [c] with [] => true | _ => false end = false) by by destruct t.
  rewrite Hne. destruct (x =? 48) eqn:E; cbn; bool_to_prop.
  - subst x. destruct t; [|split; [discriminate|intros [[=] _]]].
    unfold parseDigits. cbn. split; [discriminate | lia].
  - split; [intros _; split; [done|nia] | done].
Qed.

Lemma digits_canonical n : 0 <= n -> canonicalInteger (digits n) = true.
Proof.
  intros H. digits_induction n H.
  - cbn. rewrite (proj2 (isDigit_spec _)) by lia. cbn. by rewrite orb_true_r.
  - assert (0 < n / 10) by (apply Z.div_str_pos; lia).
    apply canonicalInteger_snoc; [apply digits_nonempty; lia| |].
    + apply isDigit_spec. pose proof (Z.mod_pos_bound n 10). lia.
    + split; [done|]. rewrite parse_digits; lia.
Qed.

Lemma digits_parse t : canonicalInteger t = true -> digits (parseDigits t) = t.
Proof.
  induction t as [|c t IH] using rev_ind; [done|]. intros H.
  pose proof (canonicalInteger_all _ H) as [Had _].
  apply all_digits_snoc in Had as [Ht Hc].
  rewrite parseDigits_snoc. pose proof (proj1 (isDigit_spec c) Hc).
  pose proof (parseDigits_bounds t Ht).
  destruct (decide (t = [])) as [->|Hne].
  - change (parseDigits []) with 0. rewrite digits_eq by lia.
    replace (0 * 10 + (c - 48) <? 10) with true by (symmetry; apply Z.ltb_lt; lia).
    cbn. f_equal. lia.
  - apply canonicalInteger_snoc in H as [H Hpos]; [|done|done].
    rewrite digits_eq by lia.
    replace (parseDigits t * 10 + (c - 48) <? 10) with false by (symmetry; apply Z.ltb_ge; lia).
    replace ((parseDigits t * 10 + (c - 48)) / 10) with (parseDigits t)
      by (apply (Z.div_unique _ _ _ (c - 48)); lia).
    replace ((parseDigits t * 10 + (c - 48)) mod 10) with (c - 48)
      by (apply (Z.mod_unique _ _ (parseDigits t)); lia).
    rewrite IH by done. do 2 f_equal. lia.
Qed.

(** ** Padding and trailing zeros *)

Lemma padStart_length t n : Z.of_nat (length t) <= n -> Z.of_nat (length (padStart t n)) = n.
Proof. intros H. unfold padStart. rewrite length_app, length_replicate. lia. Qed.

Lemma padEnd_length t n : Z.of_nat (length t) <= n -> Z.of_nat (length (padEnd t n)) = n.
Proof. intros H. unfold padEnd. rewrite length_app, length_replicate. lia. Qed.

Lemma zeros_all_digits k : all_digits (replicate k 48).
Proof. apply Forall_replicate. done. Qed.

Lemma padStart_digits t n : all_digits t -> all_digits (padStart t n).
Proof. intros. unfold padStart. apply Forall_app; auto using zeros_all_digits. Qed.

Lemma padEnd_digits t n : all_digits t -> all_digits (padEnd t n).
Proof. intros. unfold padEnd. apply Forall_app; auto using zeros_all_digits. Qed.

Lemma parse_padStart t n : parseDigits (padStart t n) = parseDigits t.
Proof. unfold padStart. rewrite parseDigits_app, parseDigits_zeros. lia. Qed.

Lemma dropWhile_replicate {A} (p : A -> bool) x k l :
  p x = true -> dropWhile p (replicate k x ++ l) = dropWhile p l.
Proof. intros Hx. induction k; cbn; [done|]. by rewrite Hx. Qed.

Lemma strip_app_zeros t k : stripTrailingZeros (t ++ replicate k 48) = stripTrailingZeros t.
Proof.
  unfold stripTrailingZeros, dropWhileEnd. rewrite reverse_app, reverse_replicate.
  by rewrite dropWhile_replicate.
Qed.

Lemma dropWhile_split {A} (p : A -> bool) l :
  exists d, l = d ++ dropWhile p l /\ Forall (fun x => p x = true) d.
Proof.
  induction l as [|x l (d & IH & Hd)]; cbn; [by exists []|].
  destruct (p x) eqn:E; [|by exists []].
  exists (x :: d). split; [cbn; by rewrite <- IH | by constructor].
Qed.

Lemma dropWhile_idemp {A} (p : A -> bool) l : dropWhile p (dropWhile p l) = dropWhile p l.
Proof. induction l as [|x l IH]; cbn; [done|]. destruct (p x) eqn:E; [done|]. cbn. by rewrite E. Qed.

Lemma strip_idemp t : stripTrailingZeros (stripTrailingZeros t) = stripTrailingZeros t.
Proof. unfold stripTrailingZeros, dropWhileEnd. by rewrite reverse_involutive, dropWhile_idemp. Qed.

(** A text is its stripped form followed by zeros. *)
Lemma strip_split t : exists k, t = stripTrailingZeros t ++ replicate k 48.
Proof.
  destruct (dropWhile_split isZeroChar (reverse t)) as (d & Hd & Hz).
  assert (Hrep : d = replicate (length d) 48).
  { clear Hd. induction Hz as [|x d Hx Hz IH]; cbn; [done|]. unfold isZeroChar in Hx.
    bool_to_prop. subst x. by f_equal. }
  exists (length d). unfold stripTrailingZeros, dropWhileEnd.
  rewrite <- (reverse_involutive t) at 1. rewrite Hd at 1. rewrite reverse_app. f_equal.
  rewrite Hrep at 1. by rewrite reverse_replicate.
Qed.

Lemma strip_digits t : all_digits t -> all_digits (stripTrailingZeros t).
Proof. destruct (strip_split t) as [k Hk]. rewrite Hk at 1. intros H. by apply Forall_app in H as [H _]. Qed.

Lemma splitAt_spec c t :
  match splitAt c t with
  | (w, None) => t = w /\ c ∉ w
  | (w, Some r) => t = w ++ c :: r /\ c ∉ w
  end.
Proof.
  induction t as [|x t IH]; cbn; [split; [done|apply not_elem_of_nil]|].
  destruct (x =? c) eqn:E; bool_to_prop.
  - subst x. split; [done|apply not_elem_of_nil].
  - destruct (splitAt c t) as [w [r|]]; destruct IH as [-> Hw];
      (split; [done|]); rewrite not_elem_of_cons; split; auto.
Qed.

Lemma splitAt_none c t : c ∉ t -> splitAt c t = (t, None).
Proof.
  induction t as [|x t IH]; cbn; [done|]. rewrite not_elem_of_cons. intros [Hx Ht].
  destruct (x =? c) eqn:E; bool_to_prop; [congruence|]. by rewrite IH.
Qed.

Lemma splitAt_some c w r : c ∉ w -> splitAt c (w ++ c :: r) = (w, Some r).
Proof.
  induction w as [|x w IH]; cbn; [by rewrite Z.eqb_refl|]. rewrite not_elem_of_cons. intros [Hx Hw].
  destruct (x =? c) eqn:E; bool_to_prop; [congruence|]. by rewrite IH.
Qed.

Lemma digits_no c t : all_digits t -> isDigit c = false -> c ∉ t.
Proof. intros H Hc Hin. rewrite Forall_forall in H. rewrite H in Hc by done. done. Qed.

(** Text without white space at either end is left alone by [trim]. *)
Lemma trim_noop t :
  Forall (fun c => isWhiteSpace c = false) t -> trim t = t.
Proof.
  intros H. unfold trim, dropWhileEnd.
  assert (Hd : forall l : text, Forall (fun c => isWhiteSpace c = false) l -> dropWhile isWhiteSpace l = l).
  { intros l Hl. destruct Hl as [|x l Hx Hl]; cbn; [done|]. by rewrite Hx. }
  rewrite (Hd t) by done. rewrite Hd by (by apply Forall_reverse). apply reverse_involutive.
Qed.

Lemma digit_not_space c : isDigit c = true -> isWhiteSpace c = false.
Proof.
  intros H%isDigit_spec. unfold isWhiteSpace.
  repeat match goal with |- context [?a =? ?b] => destruct (Z.eqb_spec a b); [lia|] end.
  repeat match goal with |- context [?a <=? ?b] => destruct (Z.leb_spec a b) end; cbn; done || lia.
Qed.

#[export] Hint Resolve digits_all parseDigits_bounds strip_digits padEnd_digits padStart_digits : quotum.
