(* ===== verification/Decimal.v ===== *)
(** * Decimal quantities ([src/billing/decimal.ts])

    Quantities travel as decimal text and are computed on as integer units at a
    scale.  The file models the parsers, the renderer and their errors, and
    proves the round trips every other component relies on. *)
From S2P Require Import Prelude Text.

(** ** Model *)

(** [unsignedDecimalPattern]: ['0'] or a digit string without a leading zero, then
    optionally a point and at least one digit. *)
Definition unsignedDecimalPattern (t : text) : bool :=
  let '(whole, fraction) := splitAt 46 t in
  canonicalInteger whole &&
  match fraction with
  | None => true
  | Some f => match f with [] => false | _ => forallb isDigit f end
  end.

Definition maxInputIntegerDigits : Z := 19.

(** [value.split(".")] of a text that matched the pattern, absent parts defaulted. *)
Definition wholePart (t : text) : text := fst (splitAt 46 t).
Definition fractionPart (t : text) : text := default [] (snd (splitAt 46 t)).

Definition unboundedDecimal (value : text) (field : string) (maxScale : Z) : result text :=
  let trimmed := trim value in
  _ ← throwWhen (negb (unsignedDecimalPattern trimmed))
        (InvalidRequest (field ++ " must be a non-negative decimal string"));
  let whole := wholePart trimmed in
  let canonicalFraction := stripTrailingZeros (fractionPart trimmed) in
  _ ← throwWhen (maxScale <? Z.of_nat (length canonicalFraction))
        (InvalidRequest (field ++ " supports at most " ++ pretty maxScale ++ " decimal places"));
  Ok (match canonicalFraction with [] => whole | _ => whole ++ [46] ++ canonicalFraction end).

Definition canonicalDecimal (value : text) (field : string) (maxScale : Z) : result text :=
  canonical ← unboundedDecimal value field maxScale;
  _ ← throwWhen (maxInputIntegerDigits <? Z.of_nat (length (wholePart canonical)))
        (InvalidRequest (field ++ " supports at most " ++ pretty maxInputIntegerDigits
                         ++ " digits before the decimal point"));
  Ok canonical.

(** [value.startsWith("-")] and [value.slice(1)] *)
Definition startsWithMinus (t : text) : bool := match t with c :: _ => c =? 45 | [] => false end.

Definition text_eqb (a b : text) : bool := bool_decide (a = b).

Definition canonicalSignedDecimal (value : text) (field : string) (maxScale : Z) : result text :=
  let trimmed := trim value in
  if negb (startsWithMinus trimmed) then canonicalDecimal trimmed field maxScale
  else
    magnitude ← canonicalDecimal (tail trimmed) field maxScale;
    Ok (if text_eqb magnitude (js "0") then magnitude else 45 :: magnitude).

(** [t || "0"] *)
Definition orZero (t : text) : text := match t with [] => js "0" | _ => t end.

Definition decimalToUnits (value : text) (scale : Z) : result Z :=
  canonical ← unboundedDecimal value "decimal" scale;
  let whole := wholePart canonical in
  let fraction := fractionPart canonical in
  Ok (parseDigits whole * 10 ^ scale + parseDigits (orZero (padEnd fraction scale))).

Definition positiveDecimal (value : text) (field : string) (maxScale : Z) : result text :=
  canonical ← canonicalDecimal value field maxScale;
  units ← decimalToUnits canonical maxScale;
  _ ← throwWhen (units <=? 0) (InvalidRequest (field ++ " must be greater than zero"));
  Ok canonical.

Definition unitsToDecimal (value : Z) (scale : Z) : text :=
  let negative := value <? 0 in
  let absolute := if negative then - value else value in
  if scale =? 0 then (if negative then js "-" else []) ++ digits absolute
  else
    let divisor := 10 ^ scale in
    let whole := absolute / divisor in
    let fraction := stripTrailingZeros (padStart (digits (absolute mod divisor)) scale) in
    let rendered := match fraction with [] => digits whole | _ => digits whole ++ [46] ++ fraction end in
    if negative then 45 :: rendered else rendered.

(** A value read back from a driver: text, an integer-valued number, anything else. *)
Inductive dbvalue :=
  | DbText (t : text)
  | DbNumber (n : Z)
  | DbOther.

Definition maxSafeInteger : Z := 9007199254740991.
Definition isSafeInteger (n : Z) : bool := (- maxSafeInteger <=? n) && (n <=? maxSafeInteger).

Definition databaseDecimal (value : dbvalue) (field : string) (maxScale : Z) : result text :=
  match value with
  | DbText t => unboundedDecimal t field maxScale
  | DbNumber n =>
      if isSafeInteger n && (0 <=? n) then Ok (digits n)
      else Err (InternalError ("Invalid database decimal for " ++ field))
  | DbOther => Err (InternalError ("Invalid database decimal for " ++ field))
  end.

(** The units of a stored quantity: [decimalToUnits(databaseDecimal(value, field, scale), scale)]. *)
Definition databaseUnits (value : dbvalue) (field : string) (scale : Z) : result Z :=
  t ← databaseDecimal value field scale; decimalToUnits t scale.

Definition signedDecimalToUnits (value : text) (scale : Z) : result Z :=
  if startsWithMinus value then u ← decimalToUnits (tail value) scale; Ok (- u)
  else decimalToUnits value scale.

#[global] Arguments decimalToUnits : simpl never.
#[global] Arguments unitsToDecimal : simpl never.
#[global] Arguments unboundedDecimal : simpl never.
#[global] Arguments canonicalDecimal : simpl never.

(** ** The shape of canonical decimals *)

(** Whole part and stripped fraction of a canonical decimal. *)
Definition render (whole fraction : text) : text :=
  match fraction with [] => whole | _ => whole ++ [46] ++ fraction end.

Section Shape.
Context (whole fraction : text).
Hypothesis Hw : canonicalInteger whole = true.
Hypothesis Hf : all_digits fraction.

Lemma whole_no_dot : 46 ∉ whole.
Proof. apply digits_no; [by apply canonicalInteger_all|done]. Qed.

Lemma splitAt_render :
  splitAt 46 (render whole fraction)
  = (whole, match fraction with [] => None | _ => Some fraction end).
Proof.
  destruct fraction as [|c f]; cbn.
  - apply splitAt_none, whole_no_dot.
  - apply (splitAt_some 46 whole (c :: f)), whole_no_dot.
Qed.

Lemma pattern_render : unsignedDecimalPattern (render whole fraction) = true.
Proof.
  unfold unsignedDecimalPattern. rewrite splitAt_render, Hw.
  destruct fraction as [|c f]; [done|]. by apply forallb_all_digits.
Qed.

Lemma trim_render : trim (render whole fraction) = render whole fraction.
Proof.
  apply trim_noop.
  assert (Hd : forall t, all_digits t -> Forall (fun c => isWhiteSpace c = false) t).
  { intros t Ht. eapply Forall_impl; [exact Ht|]. cbn. apply digit_not_space. }
  apply canonicalInteger_all in Hw as [Hw' _].
  destruct fraction as [|c f]; cbn; [auto|]. apply Forall_app. split; [auto|].
  constructor; [done|auto].
Qed.

Lemma whole_render : wholePart (render whole fraction) = whole.
Proof. unfold wholePart. by rewrite splitAt_render. Qed.

Lemma fraction_render : fractionPart (render whole fraction) = fraction.
Proof. unfold fractionPart. rewrite splitAt_render. by destruct fraction. Qed.
End Shape.

(** What a successful parse says of the trimmed text. *)
Lemma pattern_parts t :
  unsignedDecimalPattern t = true ->
  canonicalInteger (wholePart t) = true /\ all_digits (fractionPart t).
Proof.
  unfold unsignedDecimalPattern, wholePart, fractionPart.
  destruct (splitAt 46 t) as [w [f|]]; cbn; intros [Hw H]%andb_prop; split; auto.
  destruct f; [done|]. by apply forallb_all_digits.
Qed.

Lemma unboundedDecimal_Ok v field s c :
  unboundedDecimal v field s = Ok c <->
  unsignedDecimalPattern (trim v) = true /\
  Z.of_nat (length (stripTrailingZeros (fractionPart (trim v)))) <= s /\
  c = render (wholePart (trim v)) (stripTrailingZeros (fractionPart (trim v))).
Proof.
  unfold unboundedDecimal. split.
  - intros H. inv_result. bool_to_prop. subst. auto.
  - intros (Hp & Hl & ->). rewrite Hp. cbn.
    replace (s <? _) with false by (symmetry; apply Z.ltb_ge; lia). done.
Qed.

(** Units of a whole part and a stripped fraction. *)
Definition unitsOf (whole fraction : text) (scale : Z) : Z :=
  parseDigits whole * 10 ^ scale + parseDigits (padEnd fraction scale).

Lemma unboundedDecimal_render w f field s :
  canonicalInteger w = true -> all_digits f -> stripTrailingZeros f = f ->
  Z.of_nat (length f) <= s ->
  unboundedDecimal (render w f) field s = Ok (render w f).
Proof.
  intros Hw Hf Hs Hl. apply unboundedDecimal_Ok.
  rewrite trim_render, whole_render, fraction_render, Hs by done.
  auto using pattern_render.
Qed.

Lemma parse_orZero t : parseDigits (orZero t) = parseDigits t.
Proof. by destruct t. Qed.

Lemma decimalToUnits_render w f s :
  canonicalInteger w = true -> all_digits f -> stripTrailingZeros f = f ->
  Z.of_nat (length f) <= s ->
  decimalToUnits (render w f) s = Ok (unitsOf w f s).
Proof.
  intros Hw Hf Hs Hl. unfold decimalToUnits. rewrite unboundedDecimal_render by done. cbn.
  by rewrite whole_render, fraction_render, parse_orZero by done.
Qed.

Lemma decimalToUnits_Ok v s n :
  decimalToUnits v s = Ok n <->
  exists c, unboundedDecimal v "decimal" s = Ok c /\ decimalToUnits c s = Ok n.
Proof.
  split.
  - intros H. pose proof H as H0. unfold decimalToUnits in H. inv_result.
    exists x. split; [done|]. rewrite <- H.
    apply unboundedDecimal_Ok in E as (Hp & Hl & ->).
    apply pattern_parts in Hp as [Hw Hf].
    rewrite whole_render, fraction_render, parse_orZero by auto with quotum.
    by rewrite decimalToUnits_render by auto using strip_idemp with quotum.
  - intros (c & Hc & Hn).
    unfold decimalToUnits at 1. rewrite Hc. cbn. pose proof Hc as Hc'.
    apply unboundedDecimal_Ok in Hc as (Hp & Hl & ->).
    apply pattern_parts in Hp as [Hw Hf].
    rewrite decimalToUnits_render in Hn by auto using strip_idemp with quotum.
    rewrite whole_render, fraction_render, parse_orZero by auto with quotum.
    by injection Hn as <-.
Qed.

(** ** Rendering *)

Lemma unitsToDecimal_render n s :
  0 <= n -> 0 <= s ->
  exists w f,
    unitsToDecimal n s = render w f /\ canonicalInteger w = true /\ all_digits f /\
    stripTrailingZeros f = f /\ Z.of_nat (length f) <= s /\ unitsOf w f s = n /\
    parseDigits w = n / 10 ^ s.
Proof.
  intros Hn Hs. unfold unitsToDecimal.
  replace (n <? 0) with false by (symmetry; apply Z.ltb_ge; lia).
  assert (Hp : 0 < 10 ^ s) by (apply Z.pow_pos_nonneg; lia).
  destruct (s =? 0) eqn:E; bool_to_prop.
  - subst s. exists (digits n), []. cbn [render app].
    split; [done|]. split; [by apply digits_canonical|]. split; [constructor|].
    split; [done|]. split; [cbn; lia|]. unfold unitsOf.
    change (padEnd [] 0) with (@nil Z). change (parseDigits []) with 0.
    change (10 ^ 0) with 1. rewrite Z.div_1_r, parse_digits by lia. lia.
  - pose proof (Z.mod_pos_bound n (10 ^ s) Hp) as Hm.
    set (p := padStart (digits (n mod 10 ^ s)) s).
    assert (Hd : all_digits p) by (apply padStart_digits, digits_all; lia).
    assert (Hl : Z.of_nat (length p) = s).
    { apply padStart_length.
      pose proof (digits_length (n mod 10 ^ s) (Z.to_nat s)) as H.
      rewrite Z2Nat.id in H by lia. specialize (H Hm ltac:(lia)). lia. }
    exists (digits (n / 10 ^ s)), (stripTrailingZeros p).
    assert (0 <= n / 10 ^ s) by (apply Z.div_pos; lia).
    split; [done|]. split; [by apply digits_canonical|]. split; [by apply strip_digits|].
    split; [apply strip_idemp|].
    destruct (strip_split p) as [k Hk].
    assert (Hlen : Z.of_nat (length (stripTrailingZeros p)) + Z.of_nat k = s).
    { pose proof (f_equal length Hk) as Hlk. rewrite length_app, length_replicate in Hlk. lia. }
    split; [lia|].
    assert (Hpad : padEnd (stripTrailingZeros p) s = p).
    { etransitivity; [|symmetry; exact Hk]. unfold padEnd. do 2 f_equal. lia. }
    unfold unitsOf. rewrite Hpad, parse_digits by lia. unfold p. rewrite parse_padStart, parse_digits by lia.
    pose proof (Z.div_mod n (10 ^ s)). lia.
Qed.

Lemma units_roundtrip n s :
  0 <= n -> 0 <= s -> decimalToUnits (unitsToDecimal n s) s = Ok n.
Proof.
  intros Hn Hs. destruct (unitsToDecimal_render n s Hn Hs) as (w & f & -> & Hw & Hf & Hst & Hl & Hu & _).
  by rewrite decimalToUnits_render, Hu.
Qed.

Lemma unboundedDecimal_units n s field :
  0 <= n -> 0 <= s -> unboundedDecimal (unitsToDecimal n s) field s = Ok (unitsToDecimal n s).
Proof.
  intros Hn Hs. destruct (unitsToDecimal_render n s Hn Hs) as (w & f & -> & Hw & Hf & Hst & Hl & Hu & _).
  by apply unboundedDecimal_render.
Qed.

Lemma databaseUnits_units n s field :
  0 <= n -> 0 <= s -> databaseUnits (DbText (unitsToDecimal n s)) field s = Ok n.
Proof.
  intros. unfold databaseUnits. cbn. rewrite unboundedDecimal_units by done. by apply units_roundtrip.
Qed.

Lemma wholePart_units n s :
  0 <= n -> 0 <= s -> parseDigits (wholePart (unitsToDecimal n s)) = n / 10 ^ s /\
  canonicalInteger (wholePart (unitsToDecimal n s)) = true.
Proof.
  intros Hn Hs. destruct (unitsToDecimal_render n s Hn Hs) as (w & f & -> & Hw & Hf & _ & _ & _ & Hd).
  by rewrite whole_render.
Qed.

(** A canonical text is the rendering of its units: canonicalisation loses nothing. *)
Lemma unboundedDecimal_is_units v field s c :
  0 <= s -> unboundedDecimal v field s = Ok c ->
  exists n, 0 <= n /\ decimalToUnits v s = Ok n /\ c = unitsToDecimal n s.
Proof.
  intros Hs Hc. pose proof Hc as (Hp & Hl & Hcr)%unboundedDecimal_Ok.
  apply pattern_parts in Hp as [Hw Hf].
  set (w := wholePart (trim v)) in *. set (f := stripTrailingZeros (fractionPart (trim v))) in *.
  assert (Hfd : all_digits f) by (unfold f; auto with quotum).
  assert (Hfs : stripTrailingZeros f = f) by apply strip_idemp.
  assert (Hpd : all_digits (padEnd f s)) by auto with quotum.
  pose proof (parseDigits_bounds _ Hpd) as Hb. rewrite padEnd_length in Hb by done.
  pose proof (canonicalInteger_all _ Hw) as [Hwd _].
  pose proof (parseDigits_bounds _ Hwd) as Hbw.
  exists (unitsOf w f s). subst c. unfold unitsOf at 1. split; [nia|]. split.
  - apply decimalToUnits_Ok. exists (render w f).
    split; [|by rewrite decimalToUnits_render].
    apply unboundedDecimal_Ok. apply unboundedDecimal_Ok in Hc. tauto.
  - unfold unitsToDecimal.
    set (n := unitsOf w f s). assert (Hn : 0 <= n) by (unfold n, unitsOf; nia).
    replace (n <? 0) with false by (symmetry; apply Z.ltb_ge; lia).
    assert (Hdiv : n / 10 ^ s = parseDigits w)
      by (symmetry; apply (Z.div_unique _ _ _ (parseDigits (padEnd f s))); unfold n, unitsOf; lia).
    assert (Hmod : n mod 10 ^ s = parseDigits (padEnd f s))
      by (symmetry; apply (Z.mod_unique _ _ (parseDigits w)); unfold n, unitsOf; lia).
    rewrite Hdiv, Hmod. destruct (s =? 0) eqn:E; bool_to_prop.
    + destruct f; [|cbn in Hl; lia]. cbn.
      replace n with (parseDigits w)
        by (unfold n, unitsOf; subst s; change (padEnd [] 0) with (@nil Z); change (parseDigits []) with 0; lia).
      by rewrite digits_parse.
    + rewrite (digits_parse w) by done.
      assert (Hpad : padStart (digits (parseDigits (padEnd f s))) s = padEnd f s).
      { assert (Hlen : (length (digits (parseDigits (padEnd f s))) <= Z.to_nat s)%nat)
          by (apply digits_length; [rewrite Z2Nat.id; lia | lia]).
        apply parseDigits_inj; [apply padStart_digits, digits_all; lia | done | |].
        - assert (Hz : Z.of_nat (length (padStart (digits (parseDigits (padEnd f s))) s)) = s)
            by (apply padStart_length; lia).
          pose proof (padEnd_length f s Hl). lia.
        - rewrite parse_padStart, parse_digits; lia. }
      rewrite Hpad. unfold padEnd. rewrite strip_app_zeros, Hfs. done.
Qed.

Lemma decimalToUnits_nonneg v s n : 0 <= s -> decimalToUnits v s = Ok n -> 0 <= n.
Proof.
  intros Hs H. pose proof H as H'. apply decimalToUnits_Ok in H as (c & Hc & _).
  apply (unboundedDecimal_is_units _ _ _ _ Hs) in Hc as (m & Hm & Hd & _). congruence.
Qed.

(** A negative scale accepts nothing. *)
Lemma decimalToUnits_scale v s n : decimalToUnits v s = Ok n -> 0 <= s.
Proof.
  intros H. apply decimalToUnits_Ok in H as (c & (_ & Hl & _)%unboundedDecimal_Ok & _). lia.
Qed.

Lemma databaseDecimal_is_units v field s c :
  0 <= s -> databaseDecimal v field s = Ok c ->
  exists n, 0 <= n /\ databaseUnits v field s = Ok n /\ decimalToUnits c s = Ok n.
Proof.
  intros Hs H. pose proof H as H0. unfold databaseUnits. rewrite H0. cbn. destruct v as [t|n|]; cbn in H.
  - apply (unboundedDecimal_is_units _ _ _ _ Hs) in H as (n & Hn & Hd & ->).
    exists n. rewrite units_roundtrip; auto.
  - cases_if; [|done]. bool_to_prop. injection H as <-. exists (n * 10 ^ s).
    assert (0 < 10 ^ s) by (apply Z.pow_pos_nonneg; lia).
    split; [nia|]. change (digits n) with (render (digits n) []).
    rewrite decimalToUnits_render; [|by apply digits_canonical|constructor|done|cbn; lia].
    unfold unitsOf, padEnd. cbn. rewrite parseDigits_zeros, parse_digits by done.
    rewrite Z.add_0_r. done.
  - done.
Qed.

Lemma databaseUnits_nonneg v field s n : 0 <= s -> databaseUnits v field s = Ok n -> 0 <= n.
Proof. unfold databaseUnits. intros Hs H. inv_result. eapply decimalToUnits_nonneg; eauto. Qed.

Lemma canonicalDecimal_Ok v field s c :
  canonicalDecimal v field s = Ok c <->
  unboundedDecimal v field s = Ok c /\ Z.of_nat (length (wholePart c)) <= maxInputIntegerDigits.
Proof.
  unfold canonicalDecimal. split.
  - intros H. inv_result. bool_to_prop. subst. auto.
  - intros [-> H]. cbn. replace (_ <? _) with false by (symmetry; apply Z.ltb_ge; lia). done.
Qed.

(** [canonicalDecimal] then [decimalToUnits], as every price input is read. *)
Definition canonicalUnits (t : text) (field : string) (scale : Z) : result Z :=
  c ← canonicalDecimal t field scale; decimalToUnits c scale.

Lemma canonicalUnits_nonneg t field s n : 0 <= s -> canonicalUnits t field s = Ok n -> 0 <= n.
Proof. unfold canonicalUnits. intros Hs H. inv_result. eapply decimalToUnits_nonneg; eauto. Qed.

Lemma canonicalUnits_scale t field s n : canonicalUnits t field s = Ok n -> 0 <= s.
Proof. unfold canonicalUnits. intros H. inv_result. eapply decimalToUnits_scale; eauto. Qed.

(** Input decimals hold at most 19 digits before the point. *)
Lemma canonicalUnits_bound t field s n :
  canonicalUnits t field s = Ok n -> 0 <= n < 10 ^ (maxInputIntegerDigits + s).
Proof.
  intros H. pose proof (canonicalUnits_scale _ _ _ _ H) as Hs.
  pose proof (canonicalUnits_nonneg _ _ _ _ Hs H) as Hn. split; [done|].
  unfold canonicalUnits in H. inv_result. apply canonicalDecimal_Ok in E as [E Hl].
  apply (unboundedDecimal_is_units _ _ _ _ Hs) in E as (m & Hm & _ & ->).
  rewrite units_roundtrip in H by done. injection H as ->.
  destruct (wholePart_units n s Hn Hs) as [Hd [Hall _]%canonicalInteger_all].
  pose proof (parseDigits_bounds _ Hall) as Hb. rewrite Hd in Hb.
  assert (Hp : 0 < 10 ^ s) by (apply Z.pow_pos_nonneg; lia).
  assert (10 ^ Z.of_nat (length (wholePart (unitsToDecimal n s))) <= 10 ^ maxInputIntegerDigits)
    by (apply Z.pow_le_mono_r; lia).
  rewrite Z.pow_add_r by (unfold maxInputIntegerDigits; lia).
  pose proof (Z.div_mod n (10 ^ s) ltac:(lia)). pose proof (Z.mod_pos_bound n (10 ^ s) Hp). nia.
Qed.

Lemma canonicalUnits_units n s field :
  0 <= s -> 0 <= n < 10 ^ (maxInputIntegerDigits + s) ->
  canonicalUnits (unitsToDecimal n s) field s = Ok n.
Proof.
  intros Hs Hn. unfold canonicalUnits.
  assert (Hc : canonicalDecimal (unitsToDecimal n s) field s = Ok (unitsToDecimal n s)).
  { apply canonicalDecimal_Ok. split; [apply unboundedDecimal_units; lia|].
    destruct (wholePart_units n s ltac:(lia) Hs) as [Hd Hc].
    rewrite <- (digits_parse _ Hc), Hd.
    rewrite Z.pow_add_r in Hn by (unfold maxInputIntegerDigits; lia).
    assert (Hp : 0 < 10 ^ s) by (apply Z.pow_pos_nonneg; lia).
    assert (n / 10 ^ s < 10 ^ maxInputIntegerDigits) by (apply Z.div_lt_upper_bound; lia).
    pose proof (digits_length (n / 10 ^ s) 19) as Hl.
    assert ((length (digits (n / 10 ^ s)) <= 19)%nat); [|unfold maxInputIntegerDigits; lia].
    apply Hl; [|done]. split; [apply Z.div_pos; lia | done]. }
  rewrite Hc. cbn. apply units_roundtrip; lia.
Qed.

Lemma positiveDecimal_units t field s q : positiveDecimal t field s = Ok q ->
  exists n, decimalToUnits q s = Ok n /\ 0 < n.
Proof. unfold positiveDecimal. intros H. inv_result. bool_to_prop. subst. eauto. Qed.

#[export] Hint Rewrite units_roundtrip databaseUnits_units unboundedDecimal_units using lia : units.
#[export] Hint Resolve decimalToUnits_nonneg databaseUnits_nonneg canonicalUnits_nonneg : quotum.

(** A decimal read at a finer scale than it was rendered at. *)
Lemma units_rescale n s t : 0 <= n -> 0 <= s <= t ->
  decimalToUnits (unitsToDecimal n s) t = Ok (n * 10 ^ (t - s)).
Proof.
  intros Hn [Hs Ht]. destruct (unitsToDecimal_render n s Hn Hs) as (w & f & -> & Hw & Hf & Hst & Hl & <- & _).
  rewrite decimalToUnits_render by (done || lia). f_equal. unfold unitsOf, padEnd.
  rewrite !parseDigits_app, !parseDigits_zeros, !length_replicate, !Z.add_0_r, Z.mul_add_distr_r, <- !Z.mul_assoc.
  rewrite <- !Z.pow_add_r by lia. f_equal; do 2 f_equal; lia.
Qed.

(** [`-${value}`] of a nonzero quantity reads back negated. *)
Lemma signedUnits_minus n s : 0 <= n -> 0 <= s -> signedDecimalToUnits (45 :: unitsToDecimal n s) s = Ok (- n).
Proof. intros. unfold signedDecimalToUnits. cbn [startsWithMinus tail]. by rewrite Z.eqb_refl, units_roundtrip. Qed.

(** Canonical text is accepted as it is, whatever field it is read for. *)
Lemma render_unsigned w f : canonicalInteger w = true -> startsWithMinus (render w f) = false.
Proof.
  intros Hw. pose proof (canonicalInteger_all _ Hw) as Hd. destruct w as [|c w]; [done|].
  assert (Hc : c <> 45). { intros ->. by inversion Hd. }
  unfold render. destruct f; cbn; by apply Z.eqb_neq.
Qed.

(** A canonical decimal has no sign, so both readers agree on it. *)
Lemma canonical_unsigned v field s c k : canonicalDecimal v field s = Ok c -> signedDecimalToUnits c k = decimalToUnits c k.
Proof.
  intros [Hc _]%canonicalDecimal_Ok. apply unboundedDecimal_Ok in Hc as (Hp & _ & ->). apply pattern_parts in Hp as [Hw _].
  unfold signedDecimalToUnits. by rewrite render_unsigned.
Qed.

Lemma positive_unsigned v field s q k : positiveDecimal v field s = Ok q -> signedDecimalToUnits q k = decimalToUnits q k.
Proof. unfold positiveDecimal. intros H. inv_result. subst. by eapply canonical_unsigned. Qed.

Lemma canonicalDecimal_again v field field' s c : canonicalDecimal v field s = Ok c -> canonicalDecimal c field' s = Ok c.
Proof.
  intros [Hu Hl]%canonicalDecimal_Ok. pose proof Hu as (_ & Hs & _)%unboundedDecimal_Ok.
  assert (Hs0 : 0 <= s) by lia. destruct (unboundedDecimal_is_units _ _ _ _ Hs0 Hu) as (n & Hn & _ & ->).
  apply canonicalDecimal_Ok. split; [by apply unboundedDecimal_units|done].
Qed.

(** Canonicalising a decimal keeps its value and forgets everything else: the result is
    the rendering of the value's units, is canonical itself, is the same for every text of
    that value, and an accepted input has at most 19 digits before the point. *)
Theorem canonical_decimal_form v field s c : canonicalDecimal v field s = Ok c ->
  exists n, decimalToUnits v s = Ok n /\ 0 <= n < 10 ^ (maxInputIntegerDigits + s) /\
    c = unitsToDecimal n s /\ decimalToUnits c s = Ok n /\ canonicalDecimal c field s = Ok c /\
    (forall v' c', canonicalDecimal v' field s = Ok c' -> decimalToUnits v' s = Ok n -> c' = c).
Proof.
  intros H. pose proof H as [Hu Hl]%canonicalDecimal_Ok. pose proof Hu as (_ & Hs & _)%unboundedDecimal_Ok.
  assert (Hs0 : 0 <= s) by lia. destruct (unboundedDecimal_is_units _ _ _ _ Hs0 Hu) as (n & Hn & Hd & ->).
  assert (Hr : decimalToUnits (unitsToDecimal n s) s = Ok n) by (by apply units_roundtrip).
  exists n. split; [done|]. split.
  - apply (canonicalUnits_bound v field s). unfold canonicalUnits. by rewrite H.
  - split; [done|]. split; [done|]. split.
    + apply canonicalDecimal_Ok. split; [by apply unboundedDecimal_units|done].
    + intros v' c' [Hu' _]%canonicalDecimal_Ok Hd'.
      destruct (unboundedDecimal_is_units _ _ _ _ Hs0 Hu') as (m & _ & Hm & ->). congruence.
Qed.

Lemma canonical_decimal_form_witness :
  exists n, decimalToUnits (js " 12.5000 ") 9 = Ok n /\ 0 <= n < 10 ^ (maxInputIntegerDigits + 9) /\
    js "12.5" = unitsToDecimal n 9 /\ decimalToUnits (js "12.5") 9 = Ok n /\
    canonicalDecimal (js "12.5") "q" 9 = Ok (js "12.5") /\
    (forall v' c', canonicalDecimal v' "q" 9 = Ok c' -> decimalToUnits v' 9 = Ok n -> c' = js "12.5").
Proof. apply (canonical_decimal_form (js " 12.5000 ")). vm_compute. reflexivity. Defined.
