(* ===== verification/Pricing.v ===== *)
(** * Prices and proration ([src/billing/pricing.ts])

    Rate cards convert metered quantities into wallet quantities, rounding up;
    usage charges convert billable usage into minor currency units, rounding half
    up; both support graduated tiers.  The tier loops are proved equal to a
    reference sum over tier spans. *)
From S2P Require Import Prelude Text Decimal.

(** ** Change billing policies *)

Inductive StripeProrationBehavior := always_invoice | create_prorations | proration_none.
#[export] Instance proration_eq_dec : EqDecision StripeProrationBehavior.
Proof. solve_decision. Defined.

Inductive ChangeBillingMode := prorated | full_price | billing_none.
Inductive ChangeCollectionTiming := collection_immediate | next_renewal.
#[export] Instance billing_mode_eq_dec : EqDecision ChangeBillingMode.
Proof. solve_decision. Defined.
#[export] Instance collection_eq_dec : EqDecision ChangeCollectionTiming.
Proof. solve_decision. Defined.

Record ChangeBillingPolicy := {
  policy_billing : ChangeBillingMode;
  policy_collection : ChangeCollectionTiming }.

Definition stripeProrationBehaviors : list StripeProrationBehavior :=
  [always_invoice; create_prorations; proration_none].

(** The [stripeChangeBillingPolicies] table.  The code's [hasOwn] guard only
    rejects strings outside the type, which the inductive excludes. *)
Definition changeBillingPolicyFromStripe (b : StripeProrationBehavior) : ChangeBillingPolicy :=
  match b with
  | always_invoice => {| policy_billing := prorated; policy_collection := collection_immediate |}
  | create_prorations => {| policy_billing := prorated; policy_collection := next_renewal |}
  | proration_none => {| policy_billing := billing_none; policy_collection := next_renewal |}
  end.

Definition stripeProrationFor (policy : ChangeBillingPolicy) : option StripeProrationBehavior :=
  List.find (fun b =>
    let expressed := changeBillingPolicyFromStripe b in
    bool_decide (policy_billing expressed = policy_billing policy) &&
    bool_decide (policy_collection expressed = policy_collection policy)) stripeProrationBehaviors.

Inductive ChangeKind := upgrade | downgrade | quantity_change.
Inductive EffectiveMode := immediate | period_end.

Record ClassifyInput := {
  fromPlanVersionId : string; toPlanVersionId : string;
  fromTierRank : Z; toTierRank : Z; quantitiesChanged : bool }.

Definition classifySubscriptionChange (i : ClassifyInput) : result ChangeKind :=
  if String.eqb (fromPlanVersionId i) (toPlanVersionId i) then
    _ ← throwWhen (negb (quantitiesChanged i))
          (InvalidRequest "A subscription change must alter its plan or quantities");
    Ok quantity_change
  else Ok (if fromTierRank i <=? toTierRank i then upgrade else downgrade).

Definition defaultChangeTiming (k : ChangeKind) : EffectiveMode :=
  match k with downgrade => period_end | _ => immediate end.

Definition stripeProrationForChange (k : ChangeKind) (up down : StripeProrationBehavior) :=
  match k with downgrade => down | _ => up end.

(** ** Rate cards *)

Record RateCardTier := { rt_upToQuantity : option text; rt_ratePerUnit : text }.

Inductive RatePricingModel := RateFlat | RateGraduated.

Record RateCardInput := {
  rc_quantity : text;
  rc_pricingModel : RatePricingModel;
  rc_ratePerUnit : text;
  rc_tiers : list RateCardTier;      (** [tiers ?? []] *)
  rc_meterScale : option Z;
  rc_walletScale : option Z }.

Definition is_none {A} (o : option A) : bool := match o with None => true | _ => false end.

(** A nullable decimal bound in units. *)
Definition boundUnits (q : option text) (field : string) (scale : Z) : result (option Z) :=
  match q with
  | None => Ok None
  | Some t => u ← canonicalUnits t field scale; Ok (Some u)
  end.

(** [upTo !== null && upTo <= previous] *)
Definition notIncreasing (upTo : option Z) (previous : Z) : bool :=
  match upTo with Some u => u <=? previous | None => false end.

Fixpoint normalizeRateCardTiersFrom (previous : Z) (tiers : list RateCardTier) (meterScale : Z)
  : result (list (option Z * Z)) :=
  match tiers with
  | [] => Ok []
  | tier :: rest =>
      let isLast := match rest with [] => true | _ => false end in
      upTo ← boundUnits (rt_upToQuantity tier) "tier upToQuantity" meterScale;
      _ ← throwWhen (is_none upTo && negb isLast)
            (InvalidRequest "Only the final rate-card tier can be unbounded");
      _ ← throwWhen (notIncreasing upTo previous)
            (InvalidRequest "Rate-card tier boundaries must be strictly increasing");
      let previous' := default previous upTo in
      _ ← throwWhen (isLast && negb (is_none upTo))
            (InvalidRequest "The final rate-card tier must be unbounded");
      ratePerUnit ← canonicalUnits (rt_ratePerUnit tier) "tier ratePerUnit" 18;
      _ ← throwWhen (ratePerUnit <=? 0)
            (InvalidRequest "Tier ratePerUnit must be greater than zero");
      rest' ← normalizeRateCardTiersFrom previous' rest meterScale;
      Ok ((upTo, ratePerUnit) :: rest')
  end.

Definition normalizeRateCardTiers (tiers : list RateCardTier) (meterScale : Z) :=
  _ ← throwWhen (match tiers with [] => true | _ => false end)
        (InvalidRequest "Graduated rate-card pricing requires tiers");
  normalizeRateCardTiersFrom 0 tiers meterScale.

(** [10n ** BigInt(e)] throws a [RangeError] for a negative exponent. *)
Definition bigPow10 (e : Z) : result Z :=
  if e <? 0 then Err (InternalError "RangeError: Exponent must be non-negative") else Ok (10 ^ e).

Definition rateNumeratorToQuantity (numerator meterScale walletScale : Z) : result text :=
  denominator ← bigPow10 (meterScale + 18 - walletScale);
  Ok (unitsToDecimal ((numerator + denominator - 1) / denominator) walletScale).

(** [upTo === null || upTo > bound ? bound : upTo] *)
Definition tierUpperBound (upTo : option Z) (bound : Z) : Z :=
  match upTo with None => bound | Some u => if bound <? u then bound else u end.

Definition tierSpan (upperBound lowerBound : Z) : Z :=
  if lowerBound <? upperBound then upperBound - lowerBound else 0.

(** The graduated loop, with its early [break]. *)
Fixpoint rateCardNumerator (quantity lowerBound numerator : Z) (tiers : list (option Z * Z)) : Z :=
  match tiers with
  | [] => numerator
  | (upTo, rate) :: rest =>
      let upperBound := tierUpperBound upTo quantity in
      let tierQuantity := tierSpan upperBound lowerBound in
      let numerator' := if 0 <? tierQuantity then numerator + tierQuantity * rate else numerator in
      if upperBound =? quantity then numerator'
      else rateCardNumerator quantity upperBound numerator' rest
  end.

Definition calculateRateCardQuantity (i : RateCardInput) : result text :=
  let meterScale := default 9 (rc_meterScale i) in
  let walletScale := default 9 (rc_walletScale i) in
  quantity ← canonicalUnits (rc_quantity i) "quantity" meterScale;
  match rc_pricingModel i with
  | RateFlat =>
      _ ← throwWhen (match rc_tiers i with [] => false | _ => true end)
            (InvalidRequest "Flat rate-card pricing cannot use tiers");
      rate ← canonicalUnits (rc_ratePerUnit i) "ratePerUnit" 18;
      rateNumeratorToQuantity (quantity * rate) meterScale walletScale
  | RateGraduated =>
      tiers ← normalizeRateCardTiers (rc_tiers i) meterScale;
      rateNumeratorToQuantity (rateCardNumerator quantity 0 0 tiers) meterScale walletScale
  end.

(** ** Usage charges *)

Record UsageCharge := {
  uc_usageQuantity : text; uc_includedQuantity : text;
  uc_billableQuantity : text; uc_amountMinor : Z }.

Record PriceTier := {
  pt_upToQuantity : option text; pt_unitAmountMinor : Z; pt_flatAmountMinor : option Z }.

Inductive PricingModel := Flat | Graduated | Volume.

Record UsageChargeInput := {
  ui_usageQuantity : text; ui_includedQuantity : text; ui_billingUnits : text;
  ui_unitAmountMinor : Z; ui_scale : option Z }.

Definition roundHalfUp (numerator denominator : Z) : Z := (numerator + denominator / 2) / denominator.

Definition calculateUsageCharge (i : UsageChargeInput) : result UsageCharge :=
  let scale := default 9 (ui_scale i) in
  usage ← canonicalUnits (ui_usageQuantity i) "usageQuantity" scale;
  included ← canonicalUnits (ui_includedQuantity i) "includedQuantity" scale;
  billingUnits ← canonicalUnits (ui_billingUnits i) "billingUnits" scale;
  _ ← throwWhen (billingUnits <=? 0) (InvalidRequest "billingUnits must be greater than zero");
  _ ← throwWhen (ui_unitAmountMinor i <? 0) (InvalidRequest "unitAmountMinor must be nonnegative");
  let billable := if included <? usage then usage - included else 0 in
  let numerator := billable * ui_unitAmountMinor i in
  Ok {| uc_usageQuantity := unitsToDecimal usage scale;
        uc_includedQuantity := unitsToDecimal included scale;
        uc_billableQuantity := unitsToDecimal billable scale;
        uc_amountMinor := roundHalfUp numerator billingUnits |}.

Record Tier := { t_upTo : option Z; t_unit : Z; t_flat : Z }.

Fixpoint normalizeTiersFrom (previous : Z) (tiers : list PriceTier) (scale : Z) : result (list Tier) :=
  match tiers with
  | [] => Ok []
  | tier :: rest =>
      let isLast := match rest with [] => true | _ => false end in
      _ ← throwWhen ((pt_unitAmountMinor tier <? 0) || (default 0 (pt_flatAmountMinor tier) <? 0))
            (InvalidRequest "Tier amounts must be nonnegative");
      upTo ← boundUnits (pt_upToQuantity tier) "tier upToQuantity" scale;
      _ ← throwWhen (is_none upTo && negb isLast)
            (InvalidRequest "Only the final pricing tier can be unbounded");
      _ ← throwWhen (notIncreasing upTo previous)
            (InvalidRequest "Pricing tier boundaries must be strictly increasing");
      let previous' := default previous upTo in
      _ ← throwWhen (isLast && negb (is_none upTo))
            (InvalidRequest "The final pricing tier must be unbounded");
      rest' ← normalizeTiersFrom previous' rest scale;
      Ok ({| t_upTo := upTo; t_unit := pt_unitAmountMinor tier;
             t_flat := default 0 (pt_flatAmountMinor tier) |} :: rest')
  end.

Definition normalizeTiers (tiers : list PriceTier) (scale : Z) : result (list Tier) :=
  _ ← throwWhen (match tiers with [] => true | _ => false end)
        (InvalidRequest "Tiered pricing requires at least one tier");
  normalizeTiersFrom 0 tiers scale.

(** [tiers.find(({ upTo }) => upTo === null || billable <= upTo)] *)
Definition coversBillable (billable : Z) (t : Tier) : bool :=
  match t_upTo t with None => true | Some u => billable <=? u end.

Fixpoint graduatedNumerator (billable billingUnits lowerBound numerator : Z) (tiers : list Tier) : Z :=
  match tiers with
  | [] => numerator
  | tier :: rest =>
      let upperBound := tierUpperBound (t_upTo tier) billable in
      let tierQuantity := tierSpan upperBound lowerBound in
      let numerator' :=
        if 0 <? tierQuantity
        then numerator + (tierQuantity * t_unit tier + t_flat tier * billingUnits) else numerator in
      if upperBound =? billable then numerator'
      else graduatedNumerator billable billingUnits upperBound numerator' rest
  end.

Inductive TieredModel := TGraduated | TVolume.

Record TieredChargeInput := {
  ti_usageQuantity : text; ti_includedQuantity : text; ti_billingUnits : text;
  ti_pricingModel : TieredModel; ti_tiers : list PriceTier; ti_scale : option Z }.

Definition tieredNumerator (m : TieredModel) (billable billingUnits : Z) (tiers : list Tier) : result Z :=
  if 0 <? billable then
    match m with
    | TVolume =>
        match List.find (coversBillable billable) tiers with
        | None => Err (InvalidRequest "Tier table does not cover usage")
        | Some tier => Ok (billable * t_unit tier + t_flat tier * billingUnits)
        end
    | TGraduated => Ok (graduatedNumerator billable billingUnits 0 0 tiers)
    end
  else Ok 0.

Definition calculateTieredUsageCharge (i : TieredChargeInput) : result UsageCharge :=
  let scale := default 9 (ti_scale i) in
  usage ← canonicalUnits (ti_usageQuantity i) "usageQuantity" scale;
  included ← canonicalUnits (ti_includedQuantity i) "includedQuantity" scale;
  billingUnits ← canonicalUnits (ti_billingUnits i) "billingUnits" scale;
  _ ← throwWhen (billingUnits <=? 0) (InvalidRequest "billingUnits must be greater than zero");
  tiers ← normalizeTiers (ti_tiers i) scale;
  let billable := if included <? usage then usage - included else 0 in
  numerator ← tieredNumerator (ti_pricingModel i) billable billingUnits tiers;
  Ok {| uc_usageQuantity := unitsToDecimal usage scale;
        uc_includedQuantity := unitsToDecimal included scale;
        uc_billableQuantity := unitsToDecimal billable scale;
        uc_amountMinor := roundHalfUp numerator billingUnits |}.

Example rate_card_half_cent :
  calculateRateCardQuantity {| rc_quantity := js "0.0001"; rc_pricingModel := RateFlat;
    rc_ratePerUnit := js "0.5"; rc_tiers := []; rc_meterScale := Some 4; rc_walletScale := Some 2 |}
  = Ok (js "0.01").
Proof. vm_compute. reflexivity. Qed.

(** ** Normalised tier tables *)

(** Bounds after [previous]: strictly increasing, every one finite but the last. *)
Fixpoint increasingFrom (previous : Z) (bounds : list (option Z)) : Prop :=
  match bounds with
  | [] => False
  | None :: rest => rest = []
  | Some u :: rest => previous < u /\ increasingFrom u rest
  end.

Lemma normalizeRateCardTiersFrom_wf previous tiers ms l :
  tiers <> [] -> normalizeRateCardTiersFrom previous tiers ms = Ok l ->
  increasingFrom previous (map fst l) /\ Forall (fun t => 0 < snd t) l.
Proof.
  revert previous l. induction tiers as [|tier rest IH]; intros previous l Hne H; [done|].
  cbn in H. inv_result. subst l. cbn. bool_to_prop.
  destruct rest as [|tier' rest'].
  - cbn in *. destruct x as [u|]; [done|]. inv_result. subst. cbn. repeat constructor. cbn. lia.
  - specialize (IH _ _ ltac:(done) E5) as [IHb IHr].
    destruct x as [u|]; cbn in *; [|done]. bool_to_prop. repeat split; auto.
Qed.

Lemma normalizeRateCardTiers_wf tiers ms l :
  normalizeRateCardTiers tiers ms = Ok l ->
  increasingFrom 0 (map fst l) /\ Forall (fun t => 0 < snd t) l.
Proof.
  unfold normalizeRateCardTiers. intros H. inv_result.
  apply (normalizeRateCardTiersFrom_wf 0 tiers ms); [by destruct tiers|done].
Qed.

Definition tier_nonneg (t : Tier) : Prop := 0 <= t_unit t /\ 0 <= t_flat t.

Lemma normalizeTiersFrom_wf previous tiers s l :
  tiers <> [] -> normalizeTiersFrom previous tiers s = Ok l ->
  increasingFrom previous (map t_upTo l) /\ Forall tier_nonneg l.
Proof.
  revert previous l. induction tiers as [|tier rest IH]; intros previous l Hne H; [done|].
  cbn in H. inv_result. subst l. cbn. bool_to_prop.
  destruct rest as [|tier' rest'].
  - cbn in *. destruct x0 as [u|]; [done|]. inv_result. subst. cbn. repeat constructor; cbn; lia.
  - specialize (IH _ _ ltac:(done) E4) as [IHb IHr].
    destruct x0 as [u|]; cbn in *; [|done]. bool_to_prop.
    split; [auto|]. constructor; [split; cbn; lia | done].
Qed.

Lemma normalizeTiers_wf tiers s l :
  normalizeTiers tiers s = Ok l -> increasingFrom 0 (map t_upTo l) /\ Forall tier_nonneg l.
Proof.
  unfold normalizeTiers. intros H. inv_result.
  apply (normalizeTiersFrom_wf 0 tiers s); [by destruct tiers|done].
Qed.

(** ** The reference sum over tier spans *)

(** What the tiers after [lower] charge for [q]: each tier's share of [q], plus
    its flat fee once [q] reaches past its lower bound. *)
Fixpoint graduatedReference (q billingUnits lower : Z) (tiers : list Tier) : Z :=
  match tiers with
  | [] => 0
  | t :: rest =>
      let upper := match t_upTo t with None => q | Some u => Z.min q u end in
      (upper - Z.min q lower) * t_unit t + (if lower <? q then t_flat t * billingUnits else 0)
      + match t_upTo t with None => 0 | Some u => graduatedReference q billingUnits u rest end
  end.

Lemma graduatedReference_past q bu lower tiers :
  q <= lower -> increasingFrom lower (map t_upTo tiers) -> graduatedReference q bu lower tiers = 0.
Proof.
  revert lower. induction tiers as [|t rest IH]; intros lower Hq Hi; [done|]. cbn in *.
  replace (lower <? q) with false by (symmetry; apply Z.ltb_ge; lia).
  destruct (t_upTo t) as [u|]; [destruct Hi as [Hu Hi]; rewrite IH by (auto; lia)|];
    rewrite !Z.min_l by lia; lia.
Qed.

Lemma graduatedNumerator_reference q bu lower n tiers :
  lower <= q -> increasingFrom lower (map t_upTo tiers) ->
  graduatedNumerator q bu lower n tiers = n + graduatedReference q bu lower tiers.
Proof.
  revert lower n. induction tiers as [|t rest IH]; intros lower n Hq Hi; [done|]. cbn in *.
  unfold tierUpperBound, tierSpan. destruct (t_upTo t) as [u|].
  - destruct Hi as [Hu Hi]. destruct (Z.ltb_spec q u).
    + rewrite (graduatedReference_past q bu u) by (auto; lia).
      rewrite (Z.min_l q u), Z.min_r, Z.eqb_refl by lia.
      destruct (Z.ltb_spec lower q).
      * replace (0 <? q - lower) with true by (symmetry; apply Z.ltb_lt; lia). lia.
      * replace lower with q by lia. cbn. lia.
    + rewrite (Z.min_r q u), (Z.min_r q lower) by lia.
      replace (lower <? u) with true by (symmetry; apply Z.ltb_lt; lia).
      replace (lower <? q) with true by (symmetry; apply Z.ltb_lt; lia).
      replace (0 <? u - lower) with true by (symmetry; apply Z.ltb_lt; lia).
      destruct (Z.eqb_spec u q).
      * rewrite graduatedReference_past by (auto; lia). lia.
      * rewrite IH by (auto; lia). lia.
  - rewrite Z.eqb_refl, Z.min_r by lia. destruct (Z.ltb_spec lower q).
    + replace (0 <? q - lower) with true by (symmetry; apply Z.ltb_lt; lia). lia.
    + replace lower with q by lia. cbn. lia.
Qed.

(** A rate card's tiers as price tiers without flat fees. *)
Definition rateTier (t : option Z * Z) : Tier := {| t_upTo := fst t; t_unit := snd t; t_flat := 0 |}.

Lemma rateCardNumerator_graduated q lower n tiers :
  rateCardNumerator q lower n tiers = graduatedNumerator q 0 lower n (map rateTier tiers).
Proof.
  revert lower n. induction tiers as [|[upTo rate] rest IH]; intros lower n; cbn; [done|].
  rewrite IH, Z.add_0_r. done.
Qed.

Lemma rateCardNumerator_reference q tiers :
  0 <= q -> increasingFrom 0 (map fst tiers) ->
  rateCardNumerator q 0 0 tiers = graduatedReference q 0 0 (map rateTier tiers).
Proof.
  intros Hq Hi. rewrite rateCardNumerator_graduated, graduatedNumerator_reference; [lia|done|].
  by rewrite map_map.
Qed.

Lemma graduatedReference_mono q q' bu lower tiers :
  0 <= bu -> q <= q' -> increasingFrom lower (map t_upTo tiers) -> Forall tier_nonneg tiers ->
  graduatedReference q bu lower tiers <= graduatedReference q' bu lower tiers.
Proof.
  intros Hbu Hq. revert lower. induction tiers as [|t rest IH]; intros lower Hi Hf; [done|].
  inversion Hf as [|? ? [Hu Hfl] Hf']; subst. cbn in *.
  assert ((if lower <? q then t_flat t * bu else 0) <= (if lower <? q' then t_flat t * bu else 0)).
  { destruct (Z.ltb_spec lower q), (Z.ltb_spec lower q'); nia. }
  destruct (t_upTo t) as [u|].
  - destruct Hi as [Hlu Hi]. specialize (IH u Hi Hf').
    assert (Z.min q u - Z.min q lower <= Z.min q' u - Z.min q' lower) by lia. nia.
  - assert (q - Z.min q lower <= q' - Z.min q' lower) by lia. nia.
Qed.

Lemma graduatedReference_nonneg q bu lower tiers :
  0 <= bu -> increasingFrom lower (map t_upTo tiers) -> Forall tier_nonneg tiers ->
  0 <= graduatedReference q bu lower tiers.
Proof.
  intros Hbu Hi Hf. destruct (Z.le_gt_cases q lower).
  - by rewrite graduatedReference_past.
  - rewrite <- (graduatedReference_past lower bu lower tiers) by (done || lia).
    apply graduatedReference_mono; auto; lia.
Qed.

(** ** Rounding *)

Lemma roundHalfUp_spec n d : 0 < d -> 2 * n - d < 2 * (roundHalfUp n d * d) <= 2 * n + d.
Proof. intros Hd. apply (half_up_bounds n d Hd). Qed.

Lemma roundHalfUp_mono n n' d : 0 < d -> n <= n' -> roundHalfUp n d <= roundHalfUp n' d.
Proof. intros. apply Z.div_le_mono; lia. Qed.

Lemma roundHalfUp_0 d : 0 < d -> roundHalfUp 0 d = 0.
Proof.
  intros Hd. unfold roundHalfUp. apply Z.div_small. cbn.
  split; [apply Z.div_pos; lia | apply Z.div_lt; lia].
Qed.

Lemma roundHalfUp_nonneg n d : 0 < d -> 0 <= n -> 0 <= roundHalfUp n d.
Proof. intros. rewrite <- (roundHalfUp_0 d) by done. by apply roundHalfUp_mono. Qed.

(** ** Rate-card quantities *)

Lemma bigPow10_Ok e d : bigPow10 e = Ok d <-> 0 <= e /\ d = 10 ^ e.
Proof.
  unfold bigPow10. destruct (Z.ltb_spec e 0); split; intros H1.
  - done.
  - lia.
  - injection H1 as <-. auto.
  - destruct H1 as [_ ->]. done.
Qed.

(** The charge text stands for the numerator over the denominator, rounded up. *)
Lemma rateNumeratorToQuantity_units n ms ws w :
  0 <= n -> 0 <= ws -> rateNumeratorToQuantity n ms ws = Ok w ->
  exists d, 0 < d /\ d = 10 ^ (ms + 18 - ws) /\ decimalToUnits w ws = Ok ((n + d - 1) / d).
Proof.
  unfold rateNumeratorToQuantity. intros Hn Hws H. inv_result. apply bigPow10_Ok in E as [He ->].
  assert (Hd : 0 < 10 ^ (ms + 18 - ws)) by (apply Z.pow_pos_nonneg; lia).
  eexists. split; [exact Hd|]. split; [done|]. subst w.
  apply units_roundtrip; [|done]. apply Z.div_pos; lia.
Qed.

Definition flatRateInput (quantity rate : text) (ms ws : Z) : RateCardInput :=
  {| rc_quantity := quantity; rc_pricingModel := RateFlat; rc_ratePerUnit := rate;
     rc_tiers := []; rc_meterScale := Some ms; rc_walletScale := Some ws |}.

Definition graduatedRateInput (quantity rate : text) (tiers : list RateCardTier) (ms ws : Z) :=
  {| rc_quantity := quantity; rc_pricingModel := RateGraduated; rc_ratePerUnit := rate;
     rc_tiers := tiers; rc_meterScale := Some ms; rc_walletScale := Some ws |}.

Lemma flat_rate_units q rate ms ws w :
  0 <= ws -> calculateRateCardQuantity (flatRateInput q rate ms ws) = Ok w ->
  exists n r d, canonicalUnits q "quantity" ms = Ok n /\ canonicalUnits rate "ratePerUnit" 18 = Ok r /\
    0 < d /\ d = 10 ^ (ms + 18 - ws) /\ decimalToUnits w ws = Ok ((n * r + d - 1) / d).
Proof.
  unfold calculateRateCardQuantity, flatRateInput. cbn. intros Hws H. inv_result.
  pose proof (canonicalUnits_scale _ _ _ _ E).
  apply rateNumeratorToQuantity_units in H as (d & Hd & -> & Hu); [|apply Z.mul_nonneg_nonneg|done].
  - eauto 10.
  - eapply canonicalUnits_nonneg; [|done]. lia.
  - eapply canonicalUnits_nonneg; [|done]. lia.
Qed.

(** on a flat rate card, splitting usage into two requests never charges the
    wallet less than one request for the combined quantity, because every
    request's charge rounds up. *)
Theorem flat_rate_split_never_cheaper q1 q2 q rate ms ws n1 n2 w1 w2 w :
  0 <= ws ->
  canonicalUnits q1 "quantity" ms = Ok n1 -> canonicalUnits q2 "quantity" ms = Ok n2 ->
  canonicalUnits q "quantity" ms = Ok (n1 + n2) ->
  calculateRateCardQuantity (flatRateInput q1 rate ms ws) = Ok w1 ->
  calculateRateCardQuantity (flatRateInput q2 rate ms ws) = Ok w2 ->
  calculateRateCardQuantity (flatRateInput q rate ms ws) = Ok w ->
  exists u1 u2 u, decimalToUnits w1 ws = Ok u1 /\ decimalToUnits w2 ws = Ok u2 /\
    decimalToUnits w ws = Ok u /\ u <= u1 + u2.
Proof.
  intros Hws Hn1 Hn2 Hn H1 H2 H.
  apply flat_rate_units in H1 as (m1 & r1 & d1 & Hm1 & Hr1 & Hd1 & -> & Hu1); [|done].
  apply flat_rate_units in H2 as (m2 & r2 & d2 & Hm2 & Hr2 & Hd2 & -> & Hu2); [|done].
  apply flat_rate_units in H as (m & r & d & Hm & Hr & Hd & -> & Hu); [|done].
  assert (m1 = n1) as -> by congruence. assert (m2 = n2) as -> by congruence.
  assert (m = n1 + n2) as -> by congruence.
  assert (r1 = r) as -> by congruence. assert (r2 = r) as -> by congruence.
  do 3 eexists. do 3 (split; [eassumption|]).
  rewrite Z.mul_add_distr_r. by apply ceil_div_subadd.
Qed.

Lemma flat_rate_split_never_cheaper_witness :
  exists u1 u2 u, decimalToUnits (js "0.01") 2 = Ok u1 /\ decimalToUnits (js "0.01") 2 = Ok u2 /\
    decimalToUnits (js "0.01") 2 = Ok u /\ u <= u1 + u2.
Proof.
  apply (flat_rate_split_never_cheaper (js "0.0001") (js "0.0002") (js "0.0003") (js "0.5") 4 2 1 2);
    vm_compute; congruence.
Defined.

(** a rate-card charge never decreases with the quantity, and a positive flat
    rate charges any positive quantity at least one wallet unit. *)
Theorem flat_rate_charge_monotone q q' rate ms ws n n' r w w' :
  0 <= ws -> canonicalUnits rate "ratePerUnit" 18 = Ok r ->
  canonicalUnits q "quantity" ms = Ok n -> canonicalUnits q' "quantity" ms = Ok n' -> n <= n' ->
  calculateRateCardQuantity (flatRateInput q rate ms ws) = Ok w ->
  calculateRateCardQuantity (flatRateInput q' rate ms ws) = Ok w' ->
  exists u u', decimalToUnits w ws = Ok u /\ decimalToUnits w' ws = Ok u' /\ u <= u' /\
    (0 < n -> 0 < r -> 1 <= u).
Proof.
  intros Hws Hr Hn Hn' Hle H H'.
  apply flat_rate_units in H as (m & r1 & d & Hm & Hr1 & Hd & -> & Hu); [|done].
  apply flat_rate_units in H' as (m' & r' & d' & Hm' & Hr' & Hd' & -> & Hu'); [|done].
  assert (m = n) as -> by congruence. assert (m' = n') as -> by congruence.
  assert (r1 = r) as -> by congruence. assert (r' = r) as -> by congruence.
  assert (0 <= r) by (eapply canonicalUnits_nonneg; [|exact Hr]; lia).
  do 2 eexists. do 2 (split; [eassumption|]). split; [apply ceil_div_mono; nia|].
  intros. pose proof (ceil_div_bounds (n * r) _ Hd). cbv zeta in *. nia.
Qed.

Lemma flat_rate_charge_monotone_witness :
  exists u u', decimalToUnits (js "0.01") 2 = Ok u /\ decimalToUnits (js "0.51") 2 = Ok u' /\ u <= u' /\
    (0 < 1 -> 0 < 500000000000000000 -> 1 <= u).
Proof.
  apply (flat_rate_charge_monotone (js "0.0001") (js "1.0001") (js "0.5") 4 2 1 10001);
    vm_compute; congruence.
Defined.

Lemma graduated_rate_units q rate tiers ms ws w :
  0 <= ws -> calculateRateCardQuantity (graduatedRateInput q rate tiers ms ws) = Ok w ->
  exists n table d, canonicalUnits q "quantity" ms = Ok n /\ 0 <= n /\
    normalizeRateCardTiers tiers ms = Ok table /\
    increasingFrom 0 (map t_upTo (map rateTier table)) /\ Forall tier_nonneg (map rateTier table) /\
    0 < d /\ d = 10 ^ (ms + 18 - ws) /\
    decimalToUnits w ws = Ok ((graduatedReference n 0 0 (map rateTier table) + d - 1) / d).
Proof.
  unfold calculateRateCardQuantity, graduatedRateInput. cbn. intros Hws H. inv_result.
  pose proof (canonicalUnits_scale _ _ _ _ E) as Hms.
  pose proof (canonicalUnits_nonneg _ _ _ _ Hms E) as Hx.
  pose proof (normalizeRateCardTiers_wf _ _ _ E0) as [Hi Hr].
  rewrite rateCardNumerator_reference in H by done.
  assert (Hi' : increasingFrom 0 (map t_upTo (map rateTier x0))) by by rewrite map_map.
  assert (Hf : Forall tier_nonneg (map rateTier x0)).
  { apply Forall_map. eapply Forall_impl; [exact Hr|]. intros t Ht. split; cbn in *; lia. }
  apply rateNumeratorToQuantity_units in H as (d & Hd & -> & Hu);
    [|by apply graduatedReference_nonneg|done].
  eauto 20.
Qed.

(** a graduated rate card charges the sum, over the tiers, of the part of the
    quantity in the tier at the tier's rate, rounded up to the wallet scale; and
    a larger quantity is never charged less. *)
Theorem graduated_rate_charge q q' rate tiers ms ws w w' :
  0 <= ws ->
  calculateRateCardQuantity (graduatedRateInput q rate tiers ms ws) = Ok w ->
  calculateRateCardQuantity (graduatedRateInput q' rate tiers ms ws) = Ok w' ->
  exists n n' table d u u',
    canonicalUnits q "quantity" ms = Ok n /\ canonicalUnits q' "quantity" ms = Ok n' /\
    normalizeRateCardTiers tiers ms = Ok table /\ d = 10 ^ (ms + 18 - ws) /\
    decimalToUnits w ws = Ok u /\ decimalToUnits w' ws = Ok u' /\
    (u - 1) * d < graduatedReference n 0 0 (map rateTier table) <= u * d /\
    (n <= n' -> u <= u').
Proof.
  intros Hws H H'.
  apply graduated_rate_units in H as (n & table & d & Hn & Hn0 & Ht & Hi & Hf & Hd & -> & Hu); [|done].
  apply graduated_rate_units in H' as (n' & table' & d' & Hn' & _ & Ht' & _ & _ & _ & -> & Hu'); [|done].
  assert (table' = table) as -> by congruence.
  do 6 eexists. do 6 (split; [eassumption || reflexivity|]).
  split; [by apply (ceil_div_bounds _ _ Hd)|].
  intros Hle. apply ceil_div_mono; [done|]. by apply graduatedReference_mono.
Qed.

Definition twoStepTiers : list RateCardTier :=
  [ {| rt_upToQuantity := Some (js "10"); rt_ratePerUnit := js "1" |};
    {| rt_upToQuantity := None; rt_ratePerUnit := js "2" |} ].

Lemma graduated_rate_charge_witness :
  exists n n' table d u u',
    canonicalUnits (js "20") "quantity" 0 = Ok n /\ canonicalUnits (js "25") "quantity" 0 = Ok n' /\
    normalizeRateCardTiers twoStepTiers 0 = Ok table /\ d = 10 ^ (0 + 18 - 2) /\
    decimalToUnits (js "30") 2 = Ok u /\ decimalToUnits (js "40") 2 = Ok u' /\
    (u - 1) * d < graduatedReference n 0 0 (map rateTier table) <= u * d /\
    (n <= n' -> u <= u').
Proof.
  apply (graduated_rate_charge (js "20") (js "25") (js "1") twoStepTiers 0 2); vm_compute; congruence.
Defined.

(** with a rate that rises between tiers, the guarantee of flat rates fails:
    two requests for 10 units cost 20 wallet units, one request for 20 costs 30,
    because every request is rated from the first tier. *)
Theorem graduated_rate_split_can_be_cheaper :
  calculateRateCardQuantity (graduatedRateInput (js "10") (js "1") twoStepTiers 0 0) = Ok (js "10") /\
  calculateRateCardQuantity (graduatedRateInput (js "20") (js "1") twoStepTiers 0 0) = Ok (js "30").
Proof. split; vm_compute; reflexivity. Qed.

(** ** Usage charges *)

Lemma calculateUsageCharge_Ok i c :
  calculateUsageCharge i = Ok c <->
  exists usage included bu, let scale := default 9 (ui_scale i) in
    canonicalUnits (ui_usageQuantity i) "usageQuantity" scale = Ok usage /\
    canonicalUnits (ui_includedQuantity i) "includedQuantity" scale = Ok included /\
    canonicalUnits (ui_billingUnits i) "billingUnits" scale = Ok bu /\
    0 < bu /\ 0 <= ui_unitAmountMinor i /\
    c = {| uc_usageQuantity := unitsToDecimal usage scale;
           uc_includedQuantity := unitsToDecimal included scale;
           uc_billableQuantity := unitsToDecimal (Z.max 0 (usage - included)) scale;
           uc_amountMinor := roundHalfUp (Z.max 0 (usage - included) * ui_unitAmountMinor i) bu |}.
Proof.
  assert (Hmax : forall a b, (if b <? a then a - b else 0) = Z.max 0 (a - b)) by (intros; blia).
  unfold calculateUsageCharge. split.
  - intros H. inv_result. bool_to_prop. subst c. rewrite Hmax. eauto 15.
  - intros (usage & included & bu & Hu & Hi & Hb & Hpos & Hunit & ->).
    rewrite Hu, Hi, Hb. cbn.
    replace (bu <=? 0) with false by (symmetry; apply Z.leb_gt; lia).
    replace (ui_unitAmountMinor i <? 0) with false by (symmetry; apply Z.ltb_ge; lia).
    cbn. by rewrite Hmax.
Qed.

(** a flat usage charge bills the usage above the included quantity, and its
    amount is the billable quantity times the unit amount per billing unit,
    rounded half up to a minor unit (within half a unit of the exact product);
    usage within the included quantity is free. *)
Theorem usage_charge_amount i c :
  calculateUsageCharge i = Ok c ->
  exists usage included bu billable,
    canonicalUnits (ui_usageQuantity i) "usageQuantity" (default 9 (ui_scale i)) = Ok usage /\
    canonicalUnits (ui_includedQuantity i) "includedQuantity" (default 9 (ui_scale i)) = Ok included /\
    canonicalUnits (ui_billingUnits i) "billingUnits" (default 9 (ui_scale i)) = Ok bu /\
    billable = Z.max 0 (usage - included) /\
    decimalToUnits (uc_billableQuantity c) (default 9 (ui_scale i)) = Ok billable /\
    2 * (billable * ui_unitAmountMinor i) - bu < 2 * (uc_amountMinor c * bu)
      <= 2 * (billable * ui_unitAmountMinor i) + bu /\
    0 <= uc_amountMinor c /\ (usage <= included -> uc_amountMinor c = 0).
Proof.
  intros (usage & included & bu & Hu & Hi & Hb & Hpos & Hunit & ->)%calculateUsageCharge_Ok. cbn.
  pose proof (canonicalUnits_scale _ _ _ _ Hu).
  exists usage, included, bu, (Z.max 0 (usage - included)). repeat (split; [done|]).
  split; [apply units_roundtrip; lia|]. split; [by apply roundHalfUp_spec|].
  split; [apply roundHalfUp_nonneg; [lia|nia]|].
  intros Hle. rewrite Z.max_l, Z.mul_0_l by lia. by apply roundHalfUp_0.
Qed.

Lemma usage_charge_amount_witness :
  exists usage included bu billable,
    canonicalUnits (js "1500") "usageQuantity" 0 = Ok usage /\
    canonicalUnits (js "1000") "includedQuantity" 0 = Ok included /\
    canonicalUnits (js "100") "billingUnits" 0 = Ok bu /\
    billable = Z.max 0 (usage - included) /\
    decimalToUnits (js "500") 0 = Ok billable /\
    2 * (billable * 25) - bu < 2 * (125 * bu) <= 2 * (billable * 25) + bu /\
    0 <= 125 /\ (usage <= included -> 125 = 0).
Proof.
  apply (usage_charge_amount
    {| ui_usageQuantity := js "1500"; ui_includedQuantity := js "1000"; ui_billingUnits := js "100";
       ui_unitAmountMinor := 25; ui_scale := Some 0 |}
    {| uc_usageQuantity := js "1500"; uc_includedQuantity := js "1000";
       uc_billableQuantity := js "500"; uc_amountMinor := 125 |}).
  vm_compute. reflexivity.
Defined.

(** The final tier of a normalised table is unbounded, so every quantity is covered. *)
Lemma normalised_covers q lower tiers :
  increasingFrom lower (map t_upTo tiers) -> exists t, List.find (coversBillable q) tiers = Some t.
Proof.
  revert lower. induction tiers as [|t rest IH]; intros lower Hi; [done|]. cbn in *.
  unfold coversBillable at 1. destruct (t_upTo t) as [u|]; [|eauto].
  destruct Hi as [_ Hi]. destruct (q <=? u); eauto.
Qed.

Lemma tieredNumerator_total m q bu tiers :
  increasingFrom 0 (map t_upTo tiers) -> is_ok (tieredNumerator m q bu tiers) = true.
Proof.
  intros Hi. unfold tieredNumerator. destruct (0 <? q); [|done]. destruct m; [done|].
  destruct (normalised_covers q 0 tiers Hi) as [t ->]. done.
Qed.

Lemma tieredNumerator_nonneg m q bu tiers n :
  0 < bu -> increasingFrom 0 (map t_upTo tiers) -> Forall tier_nonneg tiers ->
  tieredNumerator m q bu tiers = Ok n -> 0 <= n.
Proof.
  intros Hbu Hi Hf. unfold tieredNumerator. destruct (Z.ltb_spec 0 q); [|intros [= <-]; lia].
  destruct m.
  - intros [= <-]. rewrite graduatedNumerator_reference by (auto; lia).
    pose proof (graduatedReference_nonneg q bu 0 tiers ltac:(lia) Hi Hf). lia.
  - destruct (List.find _ _) as [t|] eqn:E; [|done]. intros [= <-].
    apply find_some in E as [Ht%list_elem_of_In _]. rewrite Forall_forall in Hf.
    destruct (Hf _ Ht). nia.
Qed.

(** The error of a tier table that has no tier for a quantity. *)
Definition uncovered : error := InvalidRequest "Tier table does not cover usage".

Lemma decimal_error_field (t : text) (field : string) s e :
  unboundedDecimal t field s = Err e -> exists m, e = InvalidRequest (field ++ m).
Proof.
  unfold unboundedDecimal. destruct (unsignedDecimalPattern (trim t)); cbn; [|intros [= <-]; eauto].
  destruct (s <? _); cbn; [intros [= <-]; eauto | done].
Qed.

Lemma canonicalUnits_not_uncovered (t : text) field s :
  (forall m, (field ++ m)%string <> "Tier table does not cover usage") ->
  canonicalUnits t field s <> Err uncovered.
Proof.
  intros Hm. unfold canonicalUnits, canonicalDecimal, uncovered.
  destruct (unboundedDecimal t field s) as [c|e] eqn:E; cbn.
  - destruct (throwWhen _ _) eqn:E2; cbn.
    + unfold decimalToUnits. destruct (unboundedDecimal c "decimal" s) eqn:E3; cbn; [done|].
      apply decimal_error_field in E3 as [m ->]. done.
    + apply throwWhen_Err in E2 as [_ <-]. intros [= Heq]. by eapply Hm.
  - apply decimal_error_field in E as [m ->]. intros [= Heq]. by eapply Hm.
Qed.

Ltac not_uncovered E :=
  exfalso; revert E; apply canonicalUnits_not_uncovered; intros ? Heq; discriminate Heq.

Lemma normalizeTiersFrom_not_uncovered previous tiers s :
  normalizeTiersFrom previous tiers s <> Err uncovered.
Proof.
  revert previous. induction tiers as [|tier rest IH]; intros previous H; [done|].
  cbn [normalizeTiersFrom] in H.
  apply bind_Err in H as [[_ [=]]%throwWhen_Err | (? & _ & H)].
  apply bind_Err in H as [H | (b & _ & H)].
  { unfold boundUnits in H. destruct (pt_upToQuantity tier) as [t|]; [|done].
    apply bind_Err in H as [H | (? & _ & [=])]. not_uncovered H. }
  do 3 (apply bind_Err in H as [[_ [=]]%throwWhen_Err | (? & _ & H)]).
  apply bind_Err in H as [H | (? & _ & [=])]. by apply IH in H.
Qed.

(** rating tiered usage never fails because the tier table misses a quantity:
    whatever the input, the error is about the input itself, since a normalised
    table ends with an unbounded tier. *)
Theorem tiered_charge_covers_usage i :
  calculateTieredUsageCharge i <> Err uncovered.
Proof.
  unfold calculateTieredUsageCharge. set (s := default 9 (ti_scale i)). intros H.
  do 3 (apply bind_Err in H as [H | (? & _ & H)]; [not_uncovered H|]).
  apply bind_Err in H as [[_ [=]]%throwWhen_Err | (? & _ & H)].
  apply bind_Err in H as [H | (l & Hl & H)].
  - unfold normalizeTiers in H.
    apply bind_Err in H as [[_ [=]]%throwWhen_Err | (? & _ & H)].
    by apply normalizeTiersFrom_not_uncovered in H.
  - apply normalizeTiers_wf in Hl as [Hi _].
    apply bind_Err in H as [H | (? & _ & [=])].
    apply (f_equal is_ok) in H. by rewrite tieredNumerator_total in H.
Qed.

Lemma calculateTieredUsageCharge_Ok i c :
  calculateTieredUsageCharge i = Ok c ->
  exists usage included bu tiers n, let scale := default 9 (ti_scale i) in
    canonicalUnits (ti_usageQuantity i) "usageQuantity" scale = Ok usage /\
    canonicalUnits (ti_includedQuantity i) "includedQuantity" scale = Ok included /\
    canonicalUnits (ti_billingUnits i) "billingUnits" scale = Ok bu /\ 0 < bu /\
    normalizeTiers (ti_tiers i) scale = Ok tiers /\
    tieredNumerator (ti_pricingModel i) (Z.max 0 (usage - included)) bu tiers = Ok n /\
    c = {| uc_usageQuantity := unitsToDecimal usage scale;
           uc_includedQuantity := unitsToDecimal included scale;
           uc_billableQuantity := unitsToDecimal (Z.max 0 (usage - included)) scale;
           uc_amountMinor := roundHalfUp n bu |}.
Proof.
  assert (Hmax : forall a b, (if b <? a then a - b else 0) = Z.max 0 (a - b)) by (intros; blia).
  unfold calculateTieredUsageCharge. intros H. inv_result. bool_to_prop. subst c.
  rewrite Hmax in *. eauto 15.
Qed.

(** The price tier a volume price applies: the first whose bound reaches the quantity. *)
Definition volumeReference (q bu : Z) (tiers : list Tier) : Z :=
  match List.find (coversBillable q) tiers with
  | Some t => if 0 <? q then q * t_unit t + t_flat t * bu else 0
  | None => 0
  end.

(** C40: a tiered charge is the reference numerator over the billing units, rounded
    half up: it lies less than half a minor unit below the exact quotient and at
    most half a unit above it, so a tie goes up. Here the reference is the sum over tier spans with the flat fee of
    each tier reached (graduated) or the covering tier's unit and flat amounts
    (volume); usage within the included quantity is free. *)
Theorem tiered_charge_amount i c :
  calculateTieredUsageCharge i = Ok c ->
  exists usage included bu tiers n,
    canonicalUnits (ti_usageQuantity i) "usageQuantity" (default 9 (ti_scale i)) = Ok usage /\
    canonicalUnits (ti_includedQuantity i) "includedQuantity" (default 9 (ti_scale i)) = Ok included /\
    canonicalUnits (ti_billingUnits i) "billingUnits" (default 9 (ti_scale i)) = Ok bu /\
    normalizeTiers (ti_tiers i) (default 9 (ti_scale i)) = Ok tiers /\
    n = (let billable := Z.max 0 (usage - included) in
         match ti_pricingModel i with
         | TGraduated => graduatedReference billable bu 0 tiers
         | TVolume => volumeReference billable bu tiers
         end) /\
    0 <= n /\ 2 * n - bu < 2 * (uc_amountMinor c * bu) <= 2 * n + bu /\
    (usage <= included -> uc_amountMinor c = 0).
Proof.
  intros (usage & included & bu & tiers & n & Hu & Hi & Hb & Hpos & Ht & Hn & ->)%calculateTieredUsageCharge_Ok.
  cbn. destruct (normalizeTiers_wf _ _ _ Ht) as [Hinc Hf].
  pose proof (tieredNumerator_nonneg _ _ _ _ _ Hpos Hinc Hf Hn).
  exists usage, included, bu, tiers, n. repeat (split; [done|]).
  split; [|split; [done|split; [by apply roundHalfUp_spec|]]].
  - unfold tieredNumerator in Hn. destruct (Z.ltb_spec 0 (Z.max 0 (usage - included))).
    + destruct (ti_pricingModel i).
      * injection Hn as <-. rewrite graduatedNumerator_reference; [lia|lia|done].
      * unfold volumeReference. destruct (List.find _ _); [|done]. injection Hn as <-.
        replace (0 <? _) with true by (symmetry; by apply Z.ltb_lt). done.
    + injection Hn as <-. replace (Z.max 0 (usage - included)) with 0 by lia.
      destruct (ti_pricingModel i).
      * by rewrite graduatedReference_past.
      * unfold volumeReference. by destruct (List.find _ _).
  - intros Hle. replace n with 0; [by apply roundHalfUp_0|].
    unfold tieredNumerator in Hn. rewrite Z.max_l in Hn by lia. by injection Hn.
Qed.

Definition volumeTiers : list PriceTier :=
  [ {| pt_upToQuantity := Some (js "100"); pt_unitAmountMinor := 5; pt_flatAmountMinor := None |};
    {| pt_upToQuantity := None; pt_unitAmountMinor := 3; pt_flatAmountMinor := Some 10 |} ].

Lemma tiered_charge_amount_witness :
  exists usage included bu tiers n,
    canonicalUnits (js "150") "usageQuantity" 0 = Ok usage /\
    canonicalUnits (js "0") "includedQuantity" 0 = Ok included /\
    canonicalUnits (js "1") "billingUnits" 0 = Ok bu /\
    normalizeTiers volumeTiers 0 = Ok tiers /\
    n = volumeReference (Z.max 0 (usage - included)) bu tiers /\
    0 <= n /\ 2 * n - bu < 2 * (460 * bu) <= 2 * n + bu /\
    (usage <= included -> 460 = 0).
Proof.
  apply (tiered_charge_amount
    {| ti_usageQuantity := js "150"; ti_includedQuantity := js "0"; ti_billingUnits := js "1";
       ti_pricingModel := TVolume; ti_tiers := volumeTiers; ti_scale := Some 0 |}
    {| uc_usageQuantity := js "150"; uc_includedQuantity := js "0";
       uc_billableQuantity := js "150"; uc_amountMinor := 460 |}).
  vm_compute. reflexivity.
Defined.

(** ** Proration policies *)

(** a Stripe proration behaviour is recovered from the provider-neutral policy
    it expresses, and a policy is expressed by a behaviour only when it is that
    behaviour's policy. *)
Theorem proration_roundtrip policy b :
  stripeProrationFor policy = Some b <-> changeBillingPolicyFromStripe b = policy.
Proof.
  destruct policy as [m c]. unfold stripeProrationFor.
  destruct m, c, b; cbn; (split; [intros H|intros H]); try discriminate H; reflexivity.
Qed.
