(* ===== verification/JsDate.v ===== *)
(** * JavaScript dates in UTC

    The parts of [Date] the program uses, written from ECMAScript's own
    definitions (DayFromYear, MonthFromTime, MakeDay, TimeClip): a date is a
    time value in milliseconds, and an operation that leaves the range of a
    [Date] gives [None], the Invalid Date.  The file proves the calendar facts
    the cadence and window components need: months tile the days, are 28 to 31
    days long, and every day lies in exactly one month. *)
From S2P Require Import Prelude.

(** ** Calendar *)

Definition msPerDay : Z := 86400000.
Definition maxTime : Z := 8640000000000000.

Lemma msPerDay_val : msPerDay = 86400000. Proof. reflexivity. Qed.
Lemma maxTime_val : maxTime = 8640000000000000. Proof. reflexivity. Qed.

(** [None] is an Invalid Date. *)
Abbreviation jsdate := (option Z).

Definition timeClip (t : Z) : jsdate := if Z.abs t <=? maxTime then Some t else None.

Definition dayFromYear (y : Z) : Z :=
  365 * (y - 1970) + (y - 1969) / 4 - (y - 1901) / 100 + (y - 1601) / 400.

Definition leapDay (y : Z) : Z :=
  if negb (y mod 4 =? 0) then 0
  else if negb (y mod 100 =? 0) then 1
  else if negb (y mod 400 =? 0) then 0 else 1.

(** Days of the year before month [m] (0 to 11). *)
Definition daysBeforeMonth (leap m : Z) : Z :=
  if m <=? 0 then 0
  else if m =? 1 then 31
  else if m =? 2 then 59 + leap
  else if m =? 3 then 90 + leap
  else if m =? 4 then 120 + leap
  else if m =? 5 then 151 + leap
  else if m =? 6 then 181 + leap
  else if m =? 7 then 212 + leap
  else if m =? 8 then 243 + leap
  else if m =? 9 then 273 + leap
  else if m =? 10 then 304 + leap
  else if m =? 11 then 334 + leap
  else 365 + leap.

(** The largest year that starts on or before day [d]. *)
Definition yearFromDay (d : Z) : Z :=
  let y := 1970 + d * 400 / 146097 in
  if d <? dayFromYear y then y - 1
  else if dayFromYear (y + 1) <=? d then y + 1 else y.

Definition monthFromDayInYear (leap k : Z) : Z :=
  if k <? 31 then 0
  else if k <? 59 + leap then 1
  else if k <? 90 + leap then 2
  else if k <? 120 + leap then 3
  else if k <? 151 + leap then 4
  else if k <? 181 + leap then 5
  else if k <? 212 + leap then 6
  else if k <? 243 + leap then 7
  else if k <? 273 + leap then 8
  else if k <? 304 + leap then 9
  else if k <? 334 + leap then 10
  else 11.

(** Months are counted from January 1970. *)
Definition monthStart (mi : Z) : Z :=
  let y := 1970 + mi / 12 in dayFromYear y + daysBeforeMonth (leapDay y) (mi mod 12).

Definition monthOfDay (d : Z) : Z :=
  let y := yearFromDay d in
  (y - 1970) * 12 + monthFromDayInYear (leapDay y) (d - dayFromYear y).

Definition monthLength (mi : Z) : Z := monthStart (mi + 1) - monthStart mi.

(** ** The methods of a valid date *)

Definition dayOf (t : Z) : Z := t / msPerDay.
Definition timeInDay (t : Z) : Z := t mod msPerDay.
Definition monthIndexOf (t : Z) : Z := monthOfDay (dayOf t).

Definition getUTCFullYear (t : Z) : Z := 1970 + monthIndexOf t / 12.
Definition getUTCMonth (t : Z) : Z := monthIndexOf t mod 12.
Definition getUTCDate (t : Z) : Z := dayOf t - monthStart (monthIndexOf t) + 1.

(** MakeDay: month overflow carries into the year, day overflow into the month. *)
Definition makeDay (y m date : Z) : Z := monthStart ((y - 1970) * 12 + m) + date - 1.

Definition setUTCDate (t date : Z) : jsdate :=
  timeClip (makeDay (getUTCFullYear t) (getUTCMonth t) date * msPerDay + timeInDay t).

Definition setUTCMonth (t month : Z) : jsdate :=
  timeClip (makeDay (getUTCFullYear t) month (getUTCDate t) * msPerDay + timeInDay t).

(** [Date.UTC] reads a year from 0 to 99 as 1900 to 1999. *)
Definition dateUTC (y m date : Z) : jsdate :=
  let y' := if (0 <=? y) && (y <=? 99) then 1900 + y else y in
  timeClip (makeDay y' m date * msPerDay).

(** Comparisons of dates are false when either side is an Invalid Date. *)
Definition dateLt (a b : jsdate) : bool :=
  match a, b with Some x, Some y => x <? y | _, _ => false end.

(** ** Years *)

Lemma leapDay_01 y : leapDay y = 0 \/ leapDay y = 1.
Proof. unfold leapDay. repeat cases_if; auto. Qed.

Ltac Zify.zify_post_hook ::= Z.div_mod_to_equations.

Lemma dayFromYear_succ y : dayFromYear (y + 1) = dayFromYear y + 365 + leapDay y.
Proof.
  assert (H4 : (y + 1 - 1969) / 4 = (y - 1969) / 4 + (if y mod 4 =? 0 then 1 else 0))
    by (destruct (Z.eqb_spec (y mod 4) 0); lia).
  assert (H100 : (y + 1 - 1901) / 100 = (y - 1901) / 100 + (if y mod 100 =? 0 then 1 else 0))
    by (destruct (Z.eqb_spec (y mod 100) 0); lia).
  assert (H400 : (y + 1 - 1601) / 400 = (y - 1601) / 400 + (if y mod 400 =? 0 then 1 else 0))
    by (destruct (Z.eqb_spec (y mod 400) 0); lia).
  assert (y mod 100 = 0 -> y mod 4 = 0) by lia. assert (y mod 400 = 0 -> y mod 100 = 0) by lia.
  unfold dayFromYear, leapDay. rewrite H4, H100, H400.
  generalize ((y - 1969) / 4) ((y - 1901) / 100) ((y - 1601) / 400). intros.
  destruct (Z.eqb_spec (y mod 4) 0), (Z.eqb_spec (y mod 100) 0), (Z.eqb_spec (y mod 400) 0);
    cbn [negb]; tauto || lia.
Qed.

Lemma dayFromYear_drift y :
  -146097 < 400 * dayFromYear y - 146097 * (y - 1970) < 146097.
Proof. unfold dayFromYear. lia. Qed.

Lemma yearFromDay_spec d :
  dayFromYear (yearFromDay d) <= d < dayFromYear (yearFromDay d + 1).
Proof.
  unfold yearFromDay. set (y := 1970 + d * 400 / 146097).
  pose proof (dayFromYear_drift y). pose proof (dayFromYear_drift (y - 1)).
  pose proof (dayFromYear_drift (y + 1)). pose proof (dayFromYear_drift (y + 2)).
  assert (146097 * (y - 1970) <= 400 * d < 146097 * (y - 1970) + 146097) by (unfold y; lia).
  clearbody y. repeat cases_if; bool_to_prop.
  - replace (y - 1 + 1) with y by lia. lia.
  - replace (y + 1 + 1) with (y + 2) by lia. lia.
  - lia.
Qed.

(** ** Months *)

Lemma daysBeforeMonth_step leap m :
  0 <= leap <= 1 -> 0 <= m < 12 ->
  28 <= daysBeforeMonth leap (m + 1) - daysBeforeMonth leap m <= 31.
Proof. intros. unfold daysBeforeMonth. repeat cases_if; bool_to_prop; lia. Qed.

Lemma monthFromDayInYear_spec leap k :
  0 <= leap <= 1 -> 0 <= k < 365 + leap ->
  let m := monthFromDayInYear leap k in
  0 <= m < 12 /\ daysBeforeMonth leap m <= k < daysBeforeMonth leap (m + 1).
Proof.
  intros Hl Hk m. subst m. unfold monthFromDayInYear.
  repeat cases_if; bool_to_prop; unfold daysBeforeMonth;
    repeat match goal with
    | |- context [if ?b then _ else _] => let v := eval vm_compute in b in change b with v; cbv iota
    end; lia.
Qed.

Lemma monthStart_split y m : 0 <= m < 12 ->
  monthStart ((y - 1970) * 12 + m) = dayFromYear y + daysBeforeMonth (leapDay y) m.
Proof.
  intros Hm. unfold monthStart.
  replace (((y - 1970) * 12 + m) / 12) with (y - 1970) by lia.
  replace (((y - 1970) * 12 + m) mod 12) with m by lia.
  by replace (1970 + (y - 1970)) with y by lia.
Qed.

Lemma monthStart_succ mi :
  monthStart (mi + 1)
  = dayFromYear (1970 + mi / 12) + daysBeforeMonth (leapDay (1970 + mi / 12)) (mi mod 12 + 1).
Proof.
  destruct (Z.eq_dec (mi mod 12) 11) as [E|E].
  - unfold monthStart. replace ((mi + 1) mod 12) with 0 by lia.
    replace ((mi + 1) / 12) with (mi / 12 + 1) by lia. rewrite E.
    replace (1970 + (mi / 12 + 1)) with (1970 + mi / 12 + 1) by lia.
    rewrite dayFromYear_succ.
    change (daysBeforeMonth (leapDay (1970 + mi / 12 + 1)) 0) with 0.
    change (daysBeforeMonth (leapDay (1970 + mi / 12)) (11 + 1)) with (365 + leapDay (1970 + mi / 12)).
    lia.
  - unfold monthStart. replace ((mi + 1) mod 12) with (mi mod 12 + 1) by lia.
    by replace ((mi + 1) / 12) with (mi / 12) by lia.
Qed.

Lemma monthLength_bounds mi : 28 <= monthLength mi <= 31.
Proof.
  unfold monthLength. rewrite monthStart_succ. unfold monthStart.
  destruct (leapDay_01 (1970 + mi / 12)) as [E|E];
    pose proof (daysBeforeMonth_step (leapDay (1970 + mi / 12)) (mi mod 12)) as H;
    rewrite E in *; specialize (H ltac:(lia) ltac:(lia)); lia.
Qed.

Lemma monthStart_next mi : monthStart (mi + 1) = monthStart mi + monthLength mi.
Proof. unfold monthLength. lia. Qed.

Lemma monthStart_add mi n : 0 <= n ->
  monthStart mi + 28 * n <= monthStart (mi + n) <= monthStart mi + 31 * n.
Proof.
  intros Hn. pattern n. apply natlike_ind; [| |done].
  - replace (mi + 0) with mi by lia. lia.
  - intros k Hk IH. replace (mi + Z.succ k) with (mi + k + 1) by lia.
    rewrite monthStart_next. pose proof (monthLength_bounds (mi + k)). lia.
Qed.

Lemma monthStart_mono a b : a <= b -> monthStart a <= monthStart b.
Proof.
  intros H. pose proof (monthStart_add a (b - a) ltac:(lia)) as Hs.
  replace (a + (b - a)) with b in Hs by lia. lia.
Qed.

Lemma monthStart_lt a b : a < b -> monthStart a + 28 <= monthStart b.
Proof.
  intros H. pose proof (monthStart_add a (b - a) ltac:(lia)) as Hs.
  replace (a + (b - a)) with b in Hs by lia. lia.
Qed.

Lemma monthOfDay_spec d : monthStart (monthOfDay d) <= d < monthStart (monthOfDay d + 1).
Proof.
  unfold monthOfDay. set (y := yearFromDay d).
  pose proof (yearFromDay_spec d) as Hy. fold y in Hy. rewrite dayFromYear_succ in Hy.
  destruct (monthFromDayInYear_spec (leapDay y) (d - dayFromYear y)) as [Hm Hd];
    [destruct (leapDay_01 y); lia|lia|].
  rewrite monthStart_succ, monthStart_split by done.
  set (m := monthFromDayInYear _ _) in *.
  replace (1970 + ((y - 1970) * 12 + m) / 12) with y by lia.
  replace (((y - 1970) * 12 + m) mod 12) with m by lia. lia.
Qed.

Lemma monthOfDay_unique d mi : monthStart mi <= d < monthStart (mi + 1) -> monthOfDay d = mi.
Proof.
  intros H. pose proof (monthOfDay_spec d) as Hs.
  destruct (Z.lt_trichotomy (monthOfDay d) mi) as [Hlt|[->|Hlt]]; [|done|].
  - pose proof (monthStart_mono (monthOfDay d + 1) mi). lia.
  - pose proof (monthStart_mono (mi + 1) (monthOfDay d)). lia.
Qed.

Lemma monthOfDay_mono d d' : d <= d' -> monthOfDay d <= monthOfDay d'.
Proof.
  intros H. pose proof (monthOfDay_spec d). pose proof (monthOfDay_spec d').
  destruct (Z.le_gt_cases (monthOfDay d) (monthOfDay d')) as [|Hlt]; [done|].
  pose proof (monthStart_mono (monthOfDay d' + 1) (monthOfDay d)). lia.
Qed.

(** ** Dates *)

Lemma day_time t : t = dayOf t * msPerDay + timeInDay t /\ 0 <= timeInDay t < msPerDay.
Proof. unfold dayOf, timeInDay, msPerDay. lia. Qed.

Lemma dayOf_make d r : 0 <= r < msPerDay -> dayOf (d * msPerDay + r) = d /\ timeInDay (d * msPerDay + r) = r.
Proof. unfold dayOf, timeInDay, msPerDay. lia. Qed.

Lemma getUTCDate_bounds t : 1 <= getUTCDate t <= monthLength (monthIndexOf t).
Proof. unfold getUTCDate, monthIndexOf, monthLength. pose proof (monthOfDay_spec (dayOf t)). lia. Qed.

Lemma dayOf_month t : dayOf t = monthStart (monthIndexOf t) + getUTCDate t - 1.
Proof. unfold getUTCDate. lia. Qed.

Lemma makeDay_self t m date :
  makeDay (getUTCFullYear t) (getUTCMonth t + m) date = monthStart (monthIndexOf t + m) + date - 1.
Proof.
  unfold makeDay, getUTCFullYear, getUTCMonth.
  replace ((1970 + monthIndexOf t / 12 - 1970) * 12 + (monthIndexOf t mod 12 + m)) with (monthIndexOf t + m)
    by lia. done.
Qed.

(** The fields of a date built from a month, a day of that month and a time of day. *)
Lemma built_date mi date r t :
  t = (monthStart mi + date - 1) * msPerDay + r -> 0 <= r < msPerDay -> 1 <= date <= monthLength mi ->
  monthIndexOf t = mi /\ getUTCDate t = date /\ timeInDay t = r /\ dayOf t = monthStart mi + date - 1.
Proof.
  intros -> Hr Hd. destruct (dayOf_make (monthStart mi + date - 1) r Hr) as [Hday Ht].
  assert (Hmi : monthIndexOf ((monthStart mi + date - 1) * msPerDay + r) = mi).
  { unfold monthIndexOf. rewrite Hday. apply monthOfDay_unique. unfold monthLength in Hd. lia. }
  repeat split; auto. unfold getUTCDate. rewrite Hmi, Hday. lia.
Qed.

Ltac Zify.zify_post_hook ::= idtac.

Lemma timeClip_Some t u : timeClip t = Some u <-> Z.abs t <= maxTime /\ u = t.
Proof.
  unfold timeClip. split.
  - destruct (_ <=? _) eqn:E; [|done]. intros [= <-]. bool_to_prop. auto.
  - intros [H ->]. replace (_ <=? _) with true by (symmetry; by apply Z.leb_le). done.
Qed.

Lemma monthIndexOf_mono t t' : t <= t' -> monthIndexOf t <= monthIndexOf t'.
Proof. intros. apply monthOfDay_mono. by apply Z.div_le_mono. Qed.

Lemma date_bind {A} (a : Z) (f : Z -> option A) : (Some a ≫= f) = f a.
Proof. reflexivity. Qed.

(** Range goals: replaces the constants by their values, then arithmetic. *)
Ltac ms_lia := repeat rewrite msPerDay_val in *; repeat rewrite maxTime_val in *; lia.

#[export] Hint Resolve monthLength_bounds monthOfDay_spec : quotum.

#[global] Opaque monthStart monthOfDay msPerDay maxTime timeClip.
