(* ===== verification/Cadence.v ===== *)
(** * Cadences ([src/shared/cadence.ts], [src/billing/cadence.ts])

    The unit-and-count vocabulary shared by resets, usage windows, controls and
    billing intervals: canonical forms, month arithmetic with an anchor day, the
    comparison of window lengths, and the calendar window of an instant. *)
From S2P Require Import Prelude JsDate.

(** ** Units *)

Inductive CadenceUnit := hour | day | week | month | quarter | semi_annual | year.
#[export] Instance unit_eq_dec : EqDecision CadenceUnit.
Proof. solve_decision. Defined.

Definition cadenceUnits : list CadenceUnit := [hour; day; week; month; quarter; semi_annual; year].

Definition unitName (u : CadenceUnit) : string :=
  match u with
  | hour => "hour" | day => "day" | week => "week" | month => "month"
  | quarter => "quarter" | semi_annual => "semi_annual" | year => "year"
  end.

(** The unit a string names; [isCadenceUnit] is that there is one. *)
Definition unitNamed (s : string) : option CadenceUnit :=
  List.find (fun u => String.eqb s (unitName u)) cadenceUnits.
Definition isCadenceUnit (s : string) : bool :=
  match unitNamed s with Some _ => true | None => false end.

Record Cadence := { c_unit : CadenceUnit; c_count : Z }.

Definition maxCadenceCount : Z := 1000.
Definition maxExpirySeconds : Z := 3653 * 24 * 60 * 60.
Definition hourMs : Z := 3600000.
Definition hoursPerWeek : Z := 168.

(** The [calendarUnitMonths] and [fixedUnitHours] tables. *)
Definition unitMonths (u : CadenceUnit) : option Z :=
  match u with month => Some 1 | quarter => Some 3 | semi_annual => Some 6 | year => Some 12 | _ => None end.
Definition unitHours (u : CadenceUnit) : option Z :=
  match u with hour => Some 1 | day => Some 24 | week => Some 168 | _ => None end.

Definition isCalendarUnit (u : CadenceUnit) : bool :=
  match unitMonths u with Some _ => true | None => false end.

Inductive CanonicalCadence := Months (months : Z) | Hours (hours : Z).
#[export] Instance canonical_eq_dec : EqDecision CanonicalCadence.
Proof. solve_decision. Defined.

Definition canonicalCadence (c : Cadence) : CanonicalCadence :=
  match unitMonths (c_unit c) with
  | Some m => Months (m * c_count c)
  | None => Hours (default 0 (unitHours (c_unit c)) * c_count c)
  end.

Definition cadenceKey (c : Cadence) : string :=
  match canonicalCadence c with
  | Months m => "months:" ++ pretty m
  | Hours h => "hours:" ++ pretty h
  end.

Definition sameCadence (l r : Cadence) : bool := String.eqb (cadenceKey l) (cadenceKey r).

(** ** Adding cadences *)

(** Adds whole months, keeping the time of day; the day is [anchorDay] clamped to
    the target month. *)
Definition addUtcMonths (value months anchorDay : Z) : jsdate :=
  first ← setUTCDate value 1;
  moved ← setUTCMonth first (getUTCMonth first + months);
  monthEnd ← dateUTC (getUTCFullYear moved) (getUTCMonth moved + 1) 0;
  setUTCDate moved (Z.min anchorDay (getUTCDate monthEnd)).

Definition addCadence (value : Z) (c : Cadence) (steps anchorDay : Z) : jsdate :=
  match canonicalCadence c with
  | Months m => addUtcMonths value (m * steps) anchorDay
  | Hours h => timeClip (value + h * steps * hourMs)
  end.

Definition utcMonthIndexDifference (from to : Z) : Z :=
  (getUTCFullYear to - getUTCFullYear from) * 12 + (getUTCMonth to - getUTCMonth from).

Definition cadenceMilliseconds (c : Cadence) : option Z :=
  match canonicalCadence c with Hours h => Some (h * hourMs) | Months _ => None end.

(** ** Comparing spans *)

Definition commonYearMonthDays : list Z := [31; 28; 31; 30; 31; 30; 31; 31; 30; 31; 30; 31].

(** The inner loop of [minCalendarSpanHours], from [offset]. *)
Fixpoint spanDays (first offset : Z) (months : nat) (days : Z) : Z :=
  match months with
  | O => days
  | S n =>
      spanDays first (offset + 1) n
        (days + default 0 (commonYearMonthDays !! Z.to_nat ((first + offset) mod 12)))
  end.

(** The minimum over the twelve first months ([shortest] starts at infinity). *)
Fixpoint shortestSpan (first : Z) (n : nat) (months : nat) (shortest : option Z) : option Z :=
  match n with
  | O => shortest
  | S n' =>
      let days := spanDays first 0 months 0 in
      shortestSpan (first + 1) n' months
        (Some (match shortest with None => days | Some s => Z.min s days end))
  end.

Definition minCalendarSpanHours (months : Z) : Z :=
  default 0 (shortestSpan 0 12 (Z.to_nat months) None) * 24.

Definition cadenceFitsWithin (inner outer : Cadence) : bool :=
  match canonicalCadence inner, canonicalCadence outer with
  | Months i, Months o => i <=? o
  | Months _, Hours _ => false
  | Hours i, Hours o => i <=? o
  | Hours i, Months o => i <=? minCalendarSpanHours o
  end.

Definition cadenceSplits (reset : Cadence) (billing : option Cadence) : bool :=
  match billing with
  | None => false
  | Some b =>
      match canonicalCadence reset, canonicalCadence b with
      | Months r, Months m => r <? m
      | Months _, Hours _ => false
      | Hours _, Months _ => true
      | Hours r, Hours h => r <? h
      end
  end.

Definition describeCadence (c : Cadence) : string :=
  if c_count c =? 1 then unitName (c_unit c)
  else pretty (c_count c) ++ " × " ++ unitName (c_unit c).

(** [Date.UTC(1970, 0, 5)] *)
Definition firstMondayMs : Z := 4 * msPerDay.

(** The calendar window that contains [now], in milliseconds or Invalid Dates. *)
Definition calendarWindow (c : Cadence) (now : Z) : jsdate * jsdate :=
  match canonicalCadence c with
  | Months m =>
      let monthIndex := (getUTCFullYear now - 1970) * 12 + getUTCMonth now in
      let first := monthIndex / m * m in
      (dateUTC 1970 first 1, dateUTC 1970 (first + m) 1)
  | Hours h =>
      let span := h * hourMs in
      let origin := if h mod hoursPerWeek =? 0 then firstMondayMs else 0 in
      let start := origin + (now - origin) / span * span in
      (timeClip start, timeClip (start + span))
  end.

(** ** Accepting a cadence ([src/billing/cadence.ts]) *)

(** A number as a caller sends it. *)
Inductive jsnumber := JInt (n : Z) | JNonInteger.

Record RawCadence := { raw_unit : string; raw_count : jsnumber }.

Definition maxWindowSpan : Cadence := {| c_unit := year; c_count := 3 |}.

Inductive CadenceUse := use_window | use_grant | use_billing.

Definition countError (label : string) : error :=
  InvalidRequest (label ++ " count must be a whole number from 1 to " ++ pretty maxCadenceCount).

Definition assertCadence (c : RawCadence) (label : string) (use : CadenceUse) (maxSpan : Cadence)
  : result unit :=
  match unitNamed (raw_unit c) with
  | None => Err (InvalidRequest (label ++ " has an unknown interval"))
  | Some u =>
      _ ← throwWhen (bool_decide (u = hour) && match use with use_window => false | _ => true end)
            (InvalidRequest (label ++ " cannot be hourly: allocations are granted by periodic maintenance"));
      match raw_count c with
      | JNonInteger => Err (countError label)
      | JInt n =>
          _ ← throwWhen ((n <? 1) || (maxCadenceCount <? n)) (countError label);
          throwWhen (negb (cadenceFitsWithin {| c_unit := u; c_count := n |} maxSpan))
            (InvalidRequest (label ++ " cannot span more than " ++ describeCadence maxSpan))
      end
  end.

(** A control or alert window: [None] is [lifetime], which takes no count. *)
Definition controlCadence (interval : string) (intervalCount : option jsnumber) (label : string)
  : result (option RawCadence) :=
  if String.eqb interval "lifetime" then
    match intervalCount with
    | Some _ => Err (InvalidRequest (label ++ " with a lifetime interval takes no intervalCount"))
    | None => Ok None
    end
  else
    let c := {| raw_unit := interval; raw_count := default (JInt 1) intervalCount |} in
    _ ← assertCadence c label use_window maxWindowSpan;
    Ok (Some c).

#[global] Arguments minCalendarSpanHours : simpl never.

Example quarter_is_three_months :
  sameCadence {| c_unit := quarter; c_count := 1 |} {| c_unit := month; c_count := 3 |} = true.
Proof. reflexivity. Qed.
Example jan31_plus_month : addUtcMonths (dayFromYear 2026 * msPerDay + 30 * msPerDay) 1 31
  = dateUTC 2026 1 28.
Proof. vm_compute. reflexivity. Qed.
Example leap_feb : addUtcMonths (dayFromYear 2028 * msPerDay + 30 * msPerDay) 1 31 = dateUTC 2028 1 29.
Proof. vm_compute. reflexivity. Qed.
Example min_month_hours : minCalendarSpanHours 1 = 672. Proof. vm_compute. reflexivity. Qed.

(** ** Canonical forms *)

Lemma cadenceKey_inj a b : cadenceKey a = cadenceKey b <-> canonicalCadence a = canonicalCadence b.
Proof.
  unfold cadenceKey. split; [|intros H; by rewrite H].
  destruct (canonicalCadence a) as [m|h], (canonicalCadence b) as [m'|h']; intros H; try discriminate H;
    apply (inj (String.append _)), (inj pretty) in H; by subst.
Qed.

(** two cadences have the same key exactly when they span the same number of
    calendar months, or the same number of hours: [sameCadence] is equality of
    canonical forms, so a quarter equals three months and never 90 days. *)
Theorem sameCadence_canonical a b :
  sameCadence a b = true <-> canonicalCadence a = canonicalCadence b.
Proof. unfold sameCadence. rewrite String.eqb_eq. apply cadenceKey_inj. Qed.

Lemma unitNamed_spec s u : unitNamed s = Some u <-> s = unitName u.
Proof.
  unfold unitNamed. split.
  - intros [_ H]%find_some. by apply String.eqb_eq in H.
  - intros ->. by destruct u.
Qed.

(** ** Month arithmetic *)

(** A time that leaves room for the month steps of [addUtcMonths]. *)
Definition roomy (t : Z) : Prop := Z.abs t <= maxTime - 64 * msPerDay.

(** [Date.UTC] reads the years 0 to 99 differently; month indices from this one on
    are in the year 100 or later. *)
Definition firstPlainMonth : Z := -22440.

Lemma dateUTC_plain_next mi : firstPlainMonth <= mi ->
  dateUTC (1970 + mi / 12) (mi mod 12 + 1) 0 = timeClip ((monthStart (mi + 1) - 1) * msPerDay).
Proof.
  intros H. unfold dateUTC, firstPlainMonth in *.
  assert (100 <= 1970 + mi / 12) by (pose proof (Z.div_le_mono (-22440) mi 12 ltac:(lia) H) as Hd;
    change (-22440 / 12) with (-1870) in Hd; lia).
  replace ((0 <=? 1970 + mi / 12) && (1970 + mi / 12 <=? 99)) with false
    by (symmetry; apply andb_false_iff; right; apply Z.leb_gt; lia).
  unfold makeDay. f_equal.
  replace ((1970 + mi / 12 - 1970) * 12 + (mi mod 12 + 1)) with (mi + 1)
    by (pose proof (Z.div_mod mi 12); lia).
  lia.
Qed.

(** The instant of an anchored day: [anchor] clamped to the month, at a time of day. *)
Definition anchoredDay (mi anchor : Z) : Z := monthStart mi + Z.min anchor (monthLength mi) - 1.
Definition anchoredTime (mi anchor r : Z) : Z := anchoredDay mi anchor * msPerDay + r.

Lemma setUTCDate_eq t date :
  setUTCDate t date = timeClip ((monthStart (monthIndexOf t) + date - 1) * msPerDay + timeInDay t).
Proof.
  unfold setUTCDate. pose proof (makeDay_self t 0 date) as H. rewrite !Z.add_0_r in H. by rewrite H.
Qed.

(** The first instant of a month at time of day [r], and its fields. *)
Definition monthTime (mi r : Z) : Z := monthStart mi * msPerDay + r.

Lemma monthTime_fields mi r : 0 <= r < msPerDay ->
  monthIndexOf (monthTime mi r) = mi /\ getUTCDate (monthTime mi r) = 1 /\ timeInDay (monthTime mi r) = r.
Proof.
  intros Hr. pose proof (monthLength_bounds mi).
  destruct (built_date mi 1 r (monthTime mi r)) as (? & ? & ? & _); auto; [|lia].
  unfold monthTime. lia.
Qed.

Lemma clip_near mi date r :
  0 <= r < msPerDay -> roomy (monthStart mi * msPerDay) -> -1 <= date <= 62 ->
  timeClip ((monthStart mi + date) * msPerDay + r) = Some ((monthStart mi + date) * msPerDay + r).
Proof. intros. apply timeClip_Some. split; [unfold roomy in *; ms_lia|done]. Qed.

Lemma setUTCDate_first t : roomy t ->
  setUTCDate t 1 = Some (monthTime (monthIndexOf t) (timeInDay t)).
Proof.
  intros Ht. rewrite setUTCDate_eq. pose proof (day_time t) as [Hday Hr].
  pose proof (dayOf_month t). pose proof (getUTCDate_bounds t). pose proof (monthLength_bounds (monthIndexOf t)).
  unfold monthTime. replace (monthStart (monthIndexOf t) + 1 - 1) with (monthStart (monthIndexOf t)) by lia.
  apply timeClip_Some. split; [|done]. unfold roomy in *. ms_lia.
Qed.

Lemma setUTCMonth_move mi m r : 0 <= r < msPerDay -> roomy (monthStart (mi + m) * msPerDay) ->
  setUTCMonth (monthTime mi r) (getUTCMonth (monthTime mi r) + m) = Some (monthTime (mi + m) r).
Proof.
  intros Hr Hm. destruct (monthTime_fields mi r Hr) as (Hmi & Hd & Ht).
  unfold setUTCMonth. rewrite makeDay_self, Hmi, Hd, Ht.
  replace (monthStart (mi + m) + 1 - 1) with (monthStart (mi + m) + 0) by lia.
  rewrite clip_near by (done || lia). unfold monthTime. do 2 f_equal. lia.
Qed.

(** [Date.UTC(year, month + 1, 0)] is the last day of the month. *)
Lemma dateUTC_monthEnd mi r : 0 <= r < msPerDay -> roomy (monthStart mi * msPerDay) ->
  firstPlainMonth <= mi ->
  exists e, dateUTC (getUTCFullYear (monthTime mi r)) (getUTCMonth (monthTime mi r) + 1) 0 = Some e /\
    getUTCDate e = monthLength mi.
Proof.
  intros Hr Hm Hf. destruct (monthTime_fields mi r Hr) as (Hmi & _ & _).
  unfold getUTCFullYear, getUTCMonth. rewrite Hmi, dateUTC_plain_next by done.
  pose proof (monthLength_bounds mi) as Hl. rewrite monthStart_next.
  replace ((monthStart mi + monthLength mi - 1) * msPerDay)
    with ((monthStart mi + (monthLength mi - 1)) * msPerDay + 0) by lia.
  assert (0 <= 0 < msPerDay) by ms_lia.
  rewrite clip_near by (done || lia). eexists. split; [done|].
  destruct (built_date mi (monthLength mi) 0 ((monthStart mi + (monthLength mi - 1)) * msPerDay + 0))
    as (_ & Hd & _ & _); [f_equal; lia|done|lia|done].
Qed.

Lemma setUTCDate_clamped mi date r : 0 <= r < msPerDay -> roomy (monthStart mi * msPerDay) ->
  1 <= date <= monthLength mi ->
  setUTCDate (monthTime mi r) date = Some ((monthStart mi + date - 1) * msPerDay + r).
Proof.
  intros Hr Hm Hd. destruct (monthTime_fields mi r Hr) as (Hmi & _ & Ht).
  rewrite setUTCDate_eq, Hmi, Ht. pose proof (monthLength_bounds mi).
  replace (monthStart mi + date - 1) with (monthStart mi + (date - 1)) by lia.
  rewrite clip_near by (done || lia). done.
Qed.

Lemma addUtcMonths_anchored t months anchor :
  roomy t -> roomy (monthStart (monthIndexOf t + months) * msPerDay) ->
  firstPlainMonth <= monthIndexOf t + months -> 1 <= anchor ->
  addUtcMonths t months anchor = Some (anchoredTime (monthIndexOf t + months) anchor (timeInDay t)).
Proof.
  intros Ht Hm Hfirst Ha. destruct (day_time t) as [_ Hr].
  pose proof (monthLength_bounds (monthIndexOf t + months)).
  unfold addUtcMonths. rewrite setUTCDate_first by done.
  rewrite date_bind, setUTCMonth_move, date_bind by done.
  destruct (dateUTC_monthEnd _ _ Hr Hm Hfirst) as (e & He & Hd). rewrite He.
  rewrite date_bind, Hd, setUTCDate_clamped by (done || lia). done.
Qed.

Lemma anchoredDay_bounds mi anchor : 1 <= anchor ->
  monthStart mi <= anchoredDay mi anchor < monthStart (mi + 1).
Proof. intros. unfold anchoredDay. rewrite monthStart_next. pose proof (monthLength_bounds mi). lia. Qed.

Lemma anchoredTime_fields mi anchor r : 1 <= anchor -> 0 <= r < msPerDay ->
  monthIndexOf (anchoredTime mi anchor r) = mi /\ timeInDay (anchoredTime mi anchor r) = r /\
  getUTCDate (anchoredTime mi anchor r) = Z.min anchor (monthLength mi).
Proof.
  intros Ha Hr. pose proof (monthLength_bounds mi).
  destruct (built_date mi (Z.min anchor (monthLength mi)) r (anchoredTime mi anchor r)) as (H1 & H2 & H3 & _);
    [reflexivity|done|lia|auto].
Qed.

Lemma anchoredTime_mono mi mi' anchor r : 1 <= anchor -> mi < mi' ->
  anchoredTime mi anchor r < anchoredTime mi' anchor r.
Proof.
  intros Ha Hlt. pose proof (anchoredDay_bounds mi anchor Ha). pose proof (anchoredDay_bounds mi' anchor Ha).
  pose proof (monthStart_mono (mi + 1) mi'). unfold anchoredTime. ms_lia.
Qed.

Lemma anchoredTime_mono_le mi mi' anchor r : 1 <= anchor -> mi <= mi' ->
  anchoredTime mi anchor r <= anchoredTime mi' anchor r.
Proof.
  intros Ha Hle. destruct (Z.eq_dec mi mi') as [->|]; [lia|].
  pose proof (anchoredTime_mono mi mi' anchor r). lia.
Qed.

(** Any date is the anchored time of its own month with its own day as anchor. *)
Lemma anchoredTime_self t : anchoredTime (monthIndexOf t) (getUTCDate t) (timeInDay t) = t.
Proof.
  unfold anchoredTime, anchoredDay. pose proof (getUTCDate_bounds t).
  rewrite Z.min_l by lia. rewrite <- dayOf_month. by destruct (day_time t).
Qed.

(** adding whole months keeps the time of day and lands in the month that many
    months later, on the anchor day or on the last day of a shorter month; so a
    31st that clamped to February recovers the 31st in March. *)
Theorem addUtcMonths_spec t months anchor :
  roomy t -> roomy (monthStart (monthIndexOf t + months) * msPerDay) ->
  firstPlainMonth <= monthIndexOf t + months -> 1 <= anchor ->
  exists r, addUtcMonths t months anchor = Some r /\
    monthIndexOf r = monthIndexOf t + months /\ timeInDay r = timeInDay t /\
    getUTCDate r = Z.min anchor (monthLength (monthIndexOf t + months)).
Proof.
  intros Ht Hm Hf Ha. eexists. split; [by apply addUtcMonths_anchored|].
  by apply anchoredTime_fields; [|apply day_time].
Qed.

Lemma addUtcMonths_spec_witness :
  exists r, addUtcMonths (30 * msPerDay) 1 31 = Some r /\
    monthIndexOf r = monthIndexOf (30 * msPerDay) + 1 /\ timeInDay r = timeInDay (30 * msPerDay) /\
    getUTCDate r = Z.min 31 (monthLength (monthIndexOf (30 * msPerDay) + 1)).
Proof. apply (addUtcMonths_spec (30 * msPerDay) 1 31); unfold roomy; vm_compute; congruence. Defined.

(** ** Window lengths *)

(** Days of month [m] (0 to 11) in a year without a leap day. *)
Definition commonDays (m : Z) : Z := default 0 (commonYearMonthDays !! Z.to_nat m).

Lemma mod12_cases mi :
  mi mod 12 = 0 \/ mi mod 12 = 1 \/ mi mod 12 = 2 \/ mi mod 12 = 3 \/ mi mod 12 = 4 \/ mi mod 12 = 5
  \/ mi mod 12 = 6 \/ mi mod 12 = 7 \/ mi mod 12 = 8 \/ mi mod 12 = 9 \/ mi mod 12 = 10 \/ mi mod 12 = 11.
Proof. pose proof (Z.mod_pos_bound mi 12). lia. Qed.

Lemma monthLength_table mi :
  monthLength mi = daysBeforeMonth (leapDay (1970 + mi / 12)) (mi mod 12 + 1)
    - daysBeforeMonth (leapDay (1970 + mi / 12)) (mi mod 12).
Proof.
  unfold monthLength. rewrite monthStart_succ.
  pose proof (monthStart_split (1970 + mi / 12) (mi mod 12)) as H.
  replace ((1970 + mi / 12 - 1970) * 12 + mi mod 12) with mi in H by (pose proof (Z.div_mod mi 12); lia).
  rewrite H by (pose proof (Z.mod_pos_bound mi 12); lia). lia.
Qed.

Lemma monthLength_common mi : commonDays (mi mod 12) <= monthLength mi.
Proof.
  rewrite monthLength_table. destruct (leapDay_01 (1970 + mi / 12)) as [-> | ->];
    destruct (mod12_cases mi) as [-> | [-> | [-> | [-> | [-> | [-> | [-> | [-> | [-> | [-> | [-> | -> ] ] ] ] ] ] ] ] ] ] ];
    vm_compute; congruence.
Qed.

Lemma spanDays_start first offset n days : spanDays first offset n days = days + spanDays first offset n 0.
Proof.
  revert offset days. induction n as [|n IH]; intros offset days; cbn [spanDays]; [lia|].
  rewrite IH, (IH _ (0 + _)). lia.
Qed.

(** The table's span never exceeds the real calendar's. *)
Lemma spanDays_real mi first n : first mod 12 = mi mod 12 ->
  spanDays first 0 n 0 <= monthStart (mi + Z.of_nat n) - monthStart mi.
Proof.
  intros Hf. enough (H : forall offset, 0 <= offset ->
    spanDays first offset n 0 <= monthStart (mi + offset + Z.of_nat n) - monthStart (mi + offset)).
  { specialize (H 0 ltac:(lia)). by rewrite Z.add_0_r in H. }
  induction n as [|n IH]; intros offset Ho.
  - cbn [spanDays]. replace (mi + offset + Z.of_nat 0) with (mi + offset) by lia. lia.
  - cbn [spanDays]. rewrite spanDays_start. specialize (IH (offset + 1) ltac:(lia)).
    replace (mi + offset + Z.of_nat (S n)) with (mi + (offset + 1) + Z.of_nat n) by lia.
    pose proof (monthLength_common (mi + offset)) as Hc. unfold commonDays in Hc.
    replace ((first + offset) mod 12) with ((mi + offset) mod 12)
      by (rewrite (Z.add_mod mi), (Z.add_mod first), Hf by lia; done).
    pose proof (monthStart_next (mi + offset)). replace (mi + (offset + 1)) with (mi + offset + 1) in * by lia.
    lia.
Qed.

Lemma shortestSpan_le k first n months s :
  first <= k < first + Z.of_nat n ->
  exists r, shortestSpan first n months s = Some r /\ r <= spanDays k 0 months 0.
Proof.
  assert (Hmono : forall n first s x, s = Some x ->
    exists r, shortestSpan first n months s = Some r /\ r <= x).
  { clear. induction n as [|n IH]; intros first s x ->; cbn [shortestSpan]; [eauto with lia|].
    edestruct IH as (r & Hr & Hle); [reflexivity|]. exists r. split; [exact Hr|]. lia. }
  revert first s. induction n as [|n IH]; intros first s Hk; [lia|]. cbn [shortestSpan].
  destruct (Z.eq_dec k first) as [->|Hne]; [|apply IH; lia].
  edestruct Hmono as (r & Hr & Hle); [reflexivity|]. exists r. split; [exact Hr|].
  destruct s; lia.
Qed.

(** Any run of [months] calendar months lasts at least [minCalendarSpanHours]. *)
Lemma minCalendarSpan_sound mi months : 0 <= months ->
  minCalendarSpanHours months <= 24 * (monthStart (mi + months) - monthStart mi).
Proof.
  intros Hm. unfold minCalendarSpanHours.
  destruct (shortestSpan_le (mi mod 12) 0 12 (Z.to_nat months) None) as (r & -> & Hr);
    [pose proof (Z.mod_pos_bound mi 12); lia|].
  pose proof (spanDays_real mi (mi mod 12) (Z.to_nat months)) as H.
  rewrite Z.mod_mod, Z2Nat.id in H by lia. specialize (H eq_refl). change (default 0 (Some r)) with r. lia.
Qed.

(** The same for a window anchored on any day: clamping at either end moves the
    window by at most a month, and the shorter of the two neighbours bounds it. *)
Lemma anchored_span mi months anchor : 0 <= months -> 1 <= anchor ->
  minCalendarSpanHours months <= 24 * (anchoredDay (mi + months) anchor - anchoredDay mi anchor).
Proof.
  intros Hm Ha. pose proof (minCalendarSpan_sound mi months Hm) as H0.
  pose proof (minCalendarSpan_sound (mi + 1) months Hm) as H1.
  replace (mi + 1 + months) with (mi + months + 1) in H1 by lia.
  rewrite !monthStart_next in H1. unfold anchoredDay. lia.
Qed.

(** when [cadenceFitsWithin] says that one cadence fits within another, every
    window of the outer cadence, whatever day it is anchored on, lasts at least as
    long as any window of the inner one. *)
Theorem cadenceFitsWithin_sound inner outer mi mi' anchor anchor' :
  cadenceFitsWithin inner outer = true -> 0 <= c_count inner -> 0 <= c_count outer ->
  1 <= anchor -> 1 <= anchor' ->
  match canonicalCadence inner, canonicalCadence outer with
  | Months i, Months o => anchoredDay (mi + i) anchor <= anchoredDay (mi + o) anchor
  | Hours i, Hours o => i <= o
  | Hours i, Months o => i * hourMs <= (anchoredDay (mi' + o) anchor' - anchoredDay mi' anchor') * msPerDay
  | Months _, Hours _ => False
  end.
Proof.
  unfold cadenceFitsWithin. intros H Hi Ho Ha Ha'.
  assert (Hnn : forall m, canonicalCadence outer = Months m -> 0 <= m).
  { intros m. unfold canonicalCadence. destruct (c_unit outer); cbn; intros [= <-]; lia. }
  destruct (canonicalCadence inner) as [i|i], (canonicalCadence outer) as [o|o]; bool_to_prop; try done.
  - destruct (Z.eq_dec i o) as [->|]; [lia|].
    pose proof (anchoredDay_bounds (mi + i) anchor Ha). pose proof (anchoredDay_bounds (mi + o) anchor Ha).
    pose proof (monthStart_mono (mi + i + 1) (mi + o)). lia.
  - pose proof (anchored_span mi' o anchor' (Hnn _ eq_refl) Ha'). rewrite msPerDay_val. unfold hourMs. lia.
Qed.

Lemma cadenceFitsWithin_sound_witness :
  28 * 24 * hourMs <= (anchoredDay (1 + 1) 31 - anchoredDay 1 31) * msPerDay.
Proof.
  apply (cadenceFitsWithin_sound {| c_unit := week; c_count := 4 |} {| c_unit := month; c_count := 1 |}
    0 1 1 31); vm_compute; congruence.
Defined.

(** ** Calendar windows *)

Lemma floor_multiple a n : 0 < n -> a / n * n <= a < a / n * n + n.
Proof. intros. pose proof (Z.div_mod a n). pose proof (Z.mod_pos_bound a n). lia. Qed.

Lemma floor_multiple_same a b n : 0 < n -> a / n * n <= b < a / n * n + n -> b / n = a / n.
Proof. intros Hn H. symmetry. apply (Z.div_unique _ _ _ (b - a / n * n)); lia. Qed.

Definition window_contains (w : jsdate * jsdate) (t : Z) : Prop :=
  exists s e, w = (Some s, Some e) /\ s <= t < e.

(** Instants from 1970 to the end of the year 9999. *)
Definition modern (t : Z) : Prop := 0 <= t <= 253402300799999.

Definition cadence_ok (c : Cadence) : Prop := 1 <= c_count c <= maxCadenceCount.

Lemma monthStart_0 : monthStart 0 = 0. Proof. reflexivity. Qed.

Lemma monthStart_nonneg n : 0 <= n -> 28 * n <= monthStart n <= 31 * n.
Proof. intros Hn. exact (monthStart_add 0 n Hn). Qed.

Lemma modern_month t : modern t -> 0 <= monthIndexOf t <= 104746.
Proof.
  intros [H0 H1]. unfold monthIndexOf. pose proof (monthOfDay_spec (dayOf t)) as Hs.
  assert (Hd : 0 <= dayOf t <= 2932896).
  { destruct (day_time t) as [Ht Hr]. ms_lia. }
  split.
  - destruct (Z.le_gt_cases 0 (monthOfDay (dayOf t))) as [|Hlt]; [done|].
    pose proof (monthStart_mono (monthOfDay (dayOf t) + 1) 0). rewrite monthStart_0 in *. lia.
  - destruct (Z.le_gt_cases (monthOfDay (dayOf t)) 104746) as [|Hlt]; [done|].
    pose proof (monthStart_nonneg (monthOfDay (dayOf t))). lia.
Qed.

Lemma canonical_bounds c : cadence_ok c ->
  match canonicalCadence c with
  | Months m => 1 <= m <= 12000
  | Hours h => 1 <= h <= 168000
  end.
Proof.
  unfold cadence_ok, maxCadenceCount, canonicalCadence. destruct (c_unit c); cbn; lia.
Qed.

Lemma month_roomy mi : -22440 <= mi <= 200000 -> roomy (monthStart mi * msPerDay).
Proof.
  intros H. unfold roomy. assert (-700000 <= monthStart mi <= 6200000).
  { destruct (Z.le_gt_cases 0 mi).
    - pose proof (monthStart_nonneg mi). lia.
    - pose proof (monthStart_add mi (- mi) ltac:(lia)) as Ha. replace (mi + - mi) with 0 in Ha by lia.
      rewrite monthStart_0 in Ha. lia. }
  ms_lia.
Qed.

Lemma dateUTC_epoch_month m : -22440 <= m <= 200000 ->
  dateUTC 1970 m 1 = Some (monthTime m 0).
Proof.
  intros H. unfold dateUTC.
  change ((0 <=? 1970) && (1970 <=? 99)) with false. cbv iota zeta. unfold makeDay, monthTime.
  replace ((1970 - 1970) * 12 + m) with m by lia.
  replace ((monthStart m + 1 - 1) * msPerDay) with ((monthStart m + 0) * msPerDay + 0) by lia.
  assert (0 <= 0 < msPerDay) by ms_lia.
  rewrite clip_near by (lia || by apply month_roomy || done). do 2 f_equal. lia.
Qed.

Lemma monthTime_month t mi : monthTime mi 0 <= t < monthTime (mi + 1) 0 <-> monthIndexOf t = mi.
Proof.
  destruct (day_time t) as [Ht Hr]. unfold monthTime. split.
  - intros H. unfold monthIndexOf. apply monthOfDay_unique. rewrite msPerDay_val in *. lia.
  - intros <-. pose proof (monthOfDay_spec (dayOf t)). unfold monthIndexOf. rewrite msPerDay_val in *. lia.
Qed.

Lemma monthTime_between t a b : monthTime a 0 <= t < monthTime b 0 <-> a <= monthIndexOf t < b.
Proof.
  pose proof (proj2 (monthTime_month t _) eq_refl) as Hm. unfold monthTime in *. split; intros H.
  - rewrite msPerDay_val in *. split.
    + destruct (Z.le_gt_cases a (monthIndexOf t)); [done|].
      pose proof (monthStart_mono (monthIndexOf t + 1) a). lia.
    + destruct (Z.le_gt_cases b (monthIndexOf t)); [|done].
      pose proof (monthStart_mono b (monthIndexOf t)). lia.
  - pose proof (monthStart_mono a (monthIndexOf t)). pose proof (monthStart_mono (monthIndexOf t + 1) b).
    rewrite msPerDay_val in *. lia.
Qed.

Lemma month_number t : (getUTCFullYear t - 1970) * 12 + getUTCMonth t = monthIndexOf t.
Proof. unfold getUTCFullYear, getUTCMonth. pose proof (Z.div_mod (monthIndexOf t) 12). lia. Qed.

(** The epoch-aligned windows of [calendarWindow] as a pair of instants. *)
Definition calendarWindowAt (c : Cadence) (now : Z) : Z * Z :=
  match canonicalCadence c with
  | Months m => let k := monthIndexOf now / m * m in (monthTime k 0, monthTime (k + m) 0)
  | Hours h =>
      let span := h * hourMs in
      let origin := if h mod hoursPerWeek =? 0 then firstMondayMs else 0 in
      let start := origin + (now - origin) / span * span in (start, start + span)
  end.

Lemma calendarWindow_at c now : cadence_ok c -> modern now ->
  calendarWindow c now = (Some (calendarWindowAt c now).1, Some (calendarWindowAt c now).2).
Proof.
  intros Hc Hn. unfold calendarWindow, calendarWindowAt. pose proof (canonical_bounds c Hc).
  pose proof (modern_month now Hn). destruct (canonicalCadence c) as [m|h]; cbn [fst snd].
  - rewrite month_number. pose proof (floor_multiple (monthIndexOf now) m).
    rewrite !dateUTC_epoch_month by lia. done.
  - set (origin := if h mod hoursPerWeek =? 0 then firstMondayMs else 0). assert (0 <= origin <= firstMondayMs) by (unfold origin, firstMondayMs; destruct (_ =? _); ms_lia).
    pose proof (floor_multiple (now - origin) (h * hourMs)) as Hf. unfold hourMs in *. specialize (Hf ltac:(lia)).
    unfold modern, firstMondayMs in *.
    assert (Hs : forall x, -1000000000000 <= x <= 300000000000000 -> timeClip x = Some x)
      by (intros x Hx; apply timeClip_Some; split; [ms_lia|done]).
    rewrite !Hs by (rewrite ?msPerDay_val in *; lia). done.
Qed.

Lemma calendarWindowAt_contains c now : cadence_ok c ->
  (calendarWindowAt c now).1 <= now < (calendarWindowAt c now).2.
Proof.
  intros Hc. unfold calendarWindowAt. pose proof (canonical_bounds c Hc).
  destruct (canonicalCadence c) as [m|h]; cbn [fst snd].
  - apply monthTime_between. apply floor_multiple. lia.
  - set (origin := if h mod hoursPerWeek =? 0 then firstMondayMs else 0).
    pose proof (floor_multiple (now - origin) (h * hourMs)). unfold hourMs in *. lia.
Qed.

Lemma calendarWindowAt_same c now t : cadence_ok c ->
  (calendarWindowAt c now).1 <= t < (calendarWindowAt c now).2 ->
  calendarWindowAt c t = calendarWindowAt c now.
Proof.
  intros Hc. unfold calendarWindowAt. pose proof (canonical_bounds c Hc).
  destruct (canonicalCadence c) as [m|h]; cbn [fst snd].
  - intros Ht%monthTime_between. by rewrite (floor_multiple_same (monthIndexOf now)) by lia.
  - set (origin := if h mod hoursPerWeek =? 0 then firstMondayMs else 0). intros Ht.
    rewrite (floor_multiple_same (now - origin) (t - origin)) by (unfold hourMs in *; lia). done.
Qed.

(** calendar windows partition time: the window of an instant contains it, every
    instant inside a window has that same window, and the window that follows
    starts where it ends; so usage counted per window is counted exactly once. *)
Theorem calendarWindow_partition c now t :
  cadence_ok c -> modern now -> modern t ->
  exists s e, calendarWindow c now = (Some s, Some e) /\ s <= now < e /\
    (s <= t < e -> calendarWindow c t = (Some s, Some e)) /\
    (t = e -> exists e', calendarWindow c t = (Some e, Some e')).
Proof.
  intros Hc Hn Ht. rewrite calendarWindow_at by done.
  do 2 eexists. split; [reflexivity|]. split; [by apply calendarWindowAt_contains|]. split.
  - intros Hin. rewrite calendarWindow_at, (calendarWindowAt_same c now t) by done. done.
  - intros ->. rewrite calendarWindow_at by done. eexists. do 2 f_equal.
    pose proof (calendarWindowAt_contains c now Hc) as Hnow.
    set (e := (calendarWindowAt c now).2) in *.
    pose proof (calendarWindowAt_contains c e Hc) as He.
    destruct (Z.eq_dec (calendarWindowAt c e).1 e) as [->|Hne]; [done|]. exfalso.
    assert (Hin : (calendarWindowAt c e).1 <= e - 1 < (calendarWindowAt c e).2) by lia.
    assert (Hin' : (calendarWindowAt c now).1 <= e - 1 < (calendarWindowAt c now).2) by (unfold e in *; lia).
    apply calendarWindowAt_same in Hin; [|done]. apply calendarWindowAt_same in Hin'; [|done].
    rewrite Hin' in Hin. rewrite <- Hin in He. unfold e in He. lia.
Qed.

Lemma calendarWindow_partition_witness :
  exists s e, calendarWindow {| c_unit := quarter; c_count := 1 |} 1000 = (Some s, Some e) /\
    s <= 1000 < e /\
    (s <= 7776000000 < e -> calendarWindow {| c_unit := quarter; c_count := 1 |} 7776000000 = (Some s, Some e)) /\
    (7776000000 = e -> exists e',
       calendarWindow {| c_unit := quarter; c_count := 1 |} 7776000000 = (Some e, Some e')).
Proof.
  apply (calendarWindow_partition {| c_unit := quarter; c_count := 1 |} 1000 7776000000);
    unfold cadence_ok, modern, maxCadenceCount; cbn; lia.
Defined.
