(* ===== verification/Windows.v ===== *)
(** * Usage windows of meter limits ([src/db/repository/meter-limit-windows.ts])

    Which window a limit counts in now: the provider period, a reset sub-window
    of it, a window of a plan grant, or a window rolled forward from the period's
    end.  Every window is shown to be a cell of a grid of anchored boundaries, so
    windows contain the instant they are asked for and never overlap. *)
From S2P Require Import Prelude JsDate Cadence.

(** ** Model *)

Definition periodBoundsError : error :=
  BillingErr "Meter-limit subscription has invalid period bounds" "METERING_CONFIGURATION_ERROR" 409.

(** The valid instants of a period whose start is before its end. *)
Definition assertPeriodBounds (start endAt : jsdate) : result (Z * Z) :=
  match start, endAt with
  | Some s, Some e => if e <=? s then Err periodBoundsError else Ok (s, e)
  | _, _ => Err periodBoundsError
  end.

(** [addCadence(value, cadence)] with the default anchor, the value's own day. *)
Definition addCadenceOwnDay (value : jsdate) (c : Cadence) : jsdate :=
  t ← value; addCadence t c 1 (getUTCDate t).

Definition periodSplits (reset : Cadence) (billing : option Cadence) (start endAt : jsdate) : bool :=
  match billing with
  | None => dateLt (addCadenceOwnDay start reset) endAt
  | Some _ => cadenceSplits reset billing
  end.

Definition calendarMonths (c : Cadence) : result Z :=
  match canonicalCadence c with
  | Months m => Ok m
  | Hours _ => Err (InternalError "Expected a calendar cadence")
  end.

(** How many whole resets the code estimates between two instants: months apart
    over months, or milliseconds over milliseconds. *)
Definition wholeSteps (reset : Cadence) (s instant : Z) : result Z :=
  match cadenceMilliseconds reset with
  | None => m ← calendarMonths reset; Ok (utcMonthIndexDifference s instant / m)
  | Some ms => Ok ((instant - s) / ms)
  end.

Definition resetSubWindowBounds (start endAt : jsdate) (reset : Cadence) (now : Z)
  : result (jsdate * jsdate) :=
  '(s, e) ← assertPeriodBounds start endAt;
  let instant := if now <? s then s else if e <=? now then e - 1 else now in
  let anchorDay := getUTCDate s in
  steps ← wholeSteps reset s instant;
  let windowStart := addCadence s reset steps anchorDay in
  let back := dateLt (Some instant) windowStart in
  let steps' := if back then steps - 1 else steps in
  let windowStart' := if back then addCadence s reset steps' anchorDay else windowStart in
  let next := addCadence s reset (steps' + 1) anchorDay in
  Ok (windowStart', if dateLt next (Some e) then next else Some e).

Definition rollWindowBounds (start endAt : jsdate) (reset : Cadence) (now : Z)
  : result (jsdate * jsdate) :=
  '(s, e) ← assertPeriodBounds start endAt;
  if now <? e then Ok (Some s, Some e)
  else
    match cadenceMilliseconds reset with
    | Some ms =>
        let steps := (now - e) / ms in
        let windowStart := timeClip (e + steps * ms) in
        Ok (windowStart, w ← windowStart; timeClip (w + ms))
    | None =>
        let anchorDay :=
          if bool_decide (Some e = addCadence s reset 1 (getUTCDate s))
          then getUTCDate s else getUTCDate e in
        m ← calendarMonths reset;
        let steps := utcMonthIndexDifference e now / m in
        let boundary := addCadence e reset steps anchorDay in
        Ok (if dateLt (Some now) boundary
            then (addCadence e reset (steps - 1) anchorDay, boundary)
            else (boundary, addCadence e reset (steps + 1) anchorDay))
    end.

(** [periodEndAt] is [None] for a subscription that recorded no end. *)
Definition meterLimitWindowBounds (periodStartAt : jsdate) (periodEndAt : option jsdate)
  (reset : Cadence) (now : Z) (billing : option Cadence) : result (jsdate * jsdate) :=
  let start := periodStartAt in
  let endAt := match periodEndAt with None => addCadenceOwnDay start reset | Some e => e end in
  if match periodEndAt with None => false | Some _ => periodSplits reset billing start endAt end then
    if dateLt (Some now) endAt then resetSubWindowBounds start endAt reset now
    else
      _ ← assertPeriodBounds start endAt;
      rollWindowBounds endAt (addCadenceOwnDay endAt reset) reset now
  else rollWindowBounds start endAt reset now.

(** The latest instant a [Date] holds. *)
Definition openEnd : jsdate := Some maxTime.

Definition planGrantWindowBounds (startsAt : jsdate) (endsAt : option jsdate) (reset : Cadence) (now : Z)
  : result (jsdate * jsdate) :=
  resetSubWindowBounds startsAt (default openEnd endsAt) reset now.

Definition storedCadence (u : CadenceUnit) (count : option Z) : Cadence :=
  {| c_unit := u; c_count := default 1 count |}.

Definition optionalStoredCadence (u : option CadenceUnit) (count : option Z) : option Cadence :=
  match u with None => None | Some u => Some (storedCadence u count) end.

Definition startOfUtcMonth (t : Z) : jsdate := dateUTC (getUTCFullYear t) (getUTCMonth t) 1.

(** ** The grid of boundaries *)

(** The [k]-th boundary counted from [t0] with an anchor day. *)
Definition gridBoundary (t0 : Z) (c : Cadence) (anchor k : Z) : Z :=
  match canonicalCadence c with
  | Months m => anchoredTime (monthIndexOf t0 + m * k) anchor (timeInDay t0)
  | Hours h => t0 + h * k * hourMs
  end.

Lemma gridBoundary_mono t0 c anchor j k :
  cadence_ok c -> 1 <= anchor -> j < k -> gridBoundary t0 c anchor j < gridBoundary t0 c anchor k.
Proof.
  intros Hc Ha Hjk. unfold gridBoundary. pose proof (canonical_bounds c Hc) as Hb.
  destruct (canonicalCadence c) as [m|h].
  - apply anchoredTime_mono; nia.
  - unfold hourMs. nia.
Qed.

Lemma gridBoundary_mono_le t0 c anchor j k :
  cadence_ok c -> 1 <= anchor -> j <= k -> gridBoundary t0 c anchor j <= gridBoundary t0 c anchor k.
Proof.
  intros Hc Ha Hjk. destruct (Z.eq_dec j k) as [->|]; [lia|].
  pose proof (gridBoundary_mono t0 c anchor j k Hc Ha ltac:(lia)). lia.
Qed.

(** The cell of an instant is unique. *)
Lemma gridBoundary_cell t0 c anchor j k t :
  cadence_ok c -> 1 <= anchor ->
  gridBoundary t0 c anchor j <= t < gridBoundary t0 c anchor (j + 1) ->
  gridBoundary t0 c anchor k <= t < gridBoundary t0 c anchor (k + 1) -> j = k.
Proof.
  intros Hc Ha Hj Hk. destruct (Z.lt_trichotomy j k) as [H|[H|H]]; [|done|].
  - pose proof (gridBoundary_mono_le t0 c anchor (j + 1) k Hc Ha ltac:(lia)). lia.
  - pose proof (gridBoundary_mono_le t0 c anchor (k + 1) j Hc Ha ltac:(lia)). lia.
Qed.

(** Anchors that bring the grid back to [t0] itself: its own day, or the day of an
    earlier date that was clamped to it. *)
Definition anchor_ok (t0 anchor : Z) : Prop :=
  1 <= anchor /\ Z.min anchor (monthLength (monthIndexOf t0)) = getUTCDate t0.

Lemma anchor_own t : anchor_ok t (getUTCDate t).
Proof. pose proof (getUTCDate_bounds t). split; lia. Qed.

Lemma gridBoundary_0 t0 c anchor : anchor_ok t0 anchor -> gridBoundary t0 c anchor 0 = t0.
Proof.
  intros [Ha Hd]. unfold gridBoundary. destruct (canonicalCadence c) as [m|h]; [|lia].
  rewrite Z.mul_0_r, Z.add_0_r. unfold anchoredTime, anchoredDay. rewrite Hd, <- dayOf_month.
  by destruct (day_time t0).
Qed.

Lemma clip_modern t : -1000000000000 <= t <= 300000000000000 -> timeClip t = Some t.
Proof. intros H. apply timeClip_Some. split; [ms_lia|done]. Qed.

Lemma modern_roomy t : modern t -> roomy t.
Proof. unfold modern, roomy. intros. ms_lia. Qed.

(** Every step up to one past the cell of a modern instant stays within [Date]. *)
Lemma addCadence_grid t0 c k anchor t :
  cadence_ok c -> modern t0 -> modern t -> 1 <= anchor -> 0 <= k ->
  match canonicalCadence c with
  | Months m => monthIndexOf t0 + m * k <= monthIndexOf t + 12000
  | Hours h => t0 + h * k * hourMs <= t + 168000 * hourMs
  end ->
  addCadence t0 c k anchor = Some (gridBoundary t0 c anchor k).
Proof.
  intros Hc H0 Ht Ha Hk Hb. unfold addCadence, gridBoundary.
  pose proof (canonical_bounds c Hc). pose proof (modern_month t Ht). pose proof (modern_month t0 H0).
  destruct (canonicalCadence c) as [m|h].
  - apply addUtcMonths_anchored; [by apply modern_roomy| |unfold firstPlainMonth; nia|done].
    apply month_roomy. nia.
  - apply clip_modern. unfold modern, hourMs in *. nia.
Qed.

Lemma monthDifference a b : utcMonthIndexDifference a b = monthIndexOf b - monthIndexOf a.
Proof. unfold utcMonthIndexDifference. rewrite <- !month_number. lia. Qed.

(** The cell of [t], found from the month or hour distance as the code does. *)
Lemma grid_find t0 c anchor t :
  cadence_ok c -> modern t0 -> modern t -> t0 <= t -> anchor_ok t0 anchor ->
  exists steps k,
    wholeSteps c t0 t = Ok steps /\
    addCadence t0 c steps anchor = Some (gridBoundary t0 c anchor steps) /\
    0 <= k /\ k = (if t <? gridBoundary t0 c anchor steps then steps - 1 else steps) /\
    gridBoundary t0 c anchor k <= t < gridBoundary t0 c anchor (k + 1) /\
    addCadence t0 c k anchor = Some (gridBoundary t0 c anchor k) /\
    addCadence t0 c (k + 1) anchor = Some (gridBoundary t0 c anchor (k + 1)).
Proof.
  intros Hc H0 Ht Hle Hanchor. pose proof (gridBoundary_0 t0 c anchor Hanchor) as Hg0.
  destruct Hanchor as [Ha _]. pose proof (canonical_bounds c Hc) as Hb.
  pose proof (monthIndexOf_mono t0 t Hle) as Hmi.
  pose proof (fun k => addCadence_grid t0 c k anchor t Hc H0 Ht Ha) as Hadd.
  pose proof (fun j k => gridBoundary_mono t0 c anchor j k Hc Ha) as Hmono.
  unfold wholeSteps, cadenceMilliseconds, calendarMonths, gridBoundary in *.
  destruct (canonicalCadence c) as [m|h]; cbn [mbind result_bind].
  - rewrite monthDifference. set (steps := (monthIndexOf t - monthIndexOf t0) / m).
    pose proof (floor_multiple (monthIndexOf t - monthIndexOf t0) m ltac:(lia)) as Hf. fold steps in Hf.
    assert (Hs : 0 <= steps) by (apply Z.div_pos; lia).
    pose proof (anchoredTime_self t) as Hself. pose proof (getUTCDate_bounds t) as Hdt.
    destruct (day_time t) as [_ Hr]. destruct (day_time t0) as [_ Hr0].
    assert (Hbefore : forall mi, mi < monthIndexOf t -> anchoredTime mi anchor (timeInDay t0) <= t).
    { intros mi Hlt. pose proof (proj2 (monthTime_month t _) eq_refl) as Hm.
      pose proof (anchoredDay_bounds mi anchor Ha). pose proof (monthStart_mono (mi + 1) (monthIndexOf t)).
      unfold anchoredTime, monthTime in *. rewrite msPerDay_val in *. lia. }
    assert (Hafter : forall mi, monthIndexOf t < mi -> t < anchoredTime mi anchor (timeInDay t0)).
    { intros mi Hlt. pose proof (proj2 (monthTime_month t _) eq_refl) as Hm.
      pose proof (anchoredDay_bounds mi anchor Ha). pose proof (monthStart_mono (monthIndexOf t + 1) mi).
      unfold anchoredTime, monthTime in *. rewrite msPerDay_val in *. lia. }
    exists steps. destruct (Z.ltb_spec t (anchoredTime (monthIndexOf t0 + m * steps) anchor (timeInDay t0))) as [Hlt|Hge].
    + assert (1 <= steps).
      { destruct (Z.eq_dec steps 0) as [Hz|]; [|lia]. rewrite Hz in Hlt. lia. }
      exists (steps - 1). split; [done|]. split; [apply Hadd; lia|]. split; [lia|]. split; [done|].
      split; [|split; apply Hadd; lia]. replace (steps - 1 + 1) with steps by lia.
      split; [|done]. apply Hbefore. lia.
    + exists steps. split; [done|]. split; [apply Hadd; lia|]. split; [done|]. split; [done|].
      split; [|split; apply Hadd; lia]. split; [done|]. apply Hafter. lia.
  - set (steps := (t - t0) / (h * hourMs)). unfold hourMs in *.
    pose proof (floor_multiple (t - t0) (h * 3600000) ltac:(lia)) as Hf. fold steps in Hf.
    assert (Hs : 0 <= steps) by (apply Z.div_pos; lia).
    exists steps, steps. replace (t <? _) with false by (symmetry; apply Z.ltb_ge; lia).
    split; [done|]. split; [apply Hadd; lia|]. split; [done|]. split; [done|].
    split; [lia|]. split; apply Hadd; lia.
Qed.

(** ** Reset sub-windows *)

(** The instant a sub-window is looked up for: [now] moved into the period. *)
Definition clampInto (s e now : Z) : Z := if now <? s then s else if e <=? now then e - 1 else now.

Lemma clampInto_bounds s e now : s < e -> s <= clampInto s e now < e.
Proof. intros H. unfold clampInto. repeat cases_if; bool_to_prop; lia. Qed.

Lemma clampInto_modern s e now : s < e -> modern s -> modern now -> modern (clampInto s e now).
Proof. unfold clampInto, modern. intros H Hs Hn. repeat cases_if; bool_to_prop; lia. Qed.

Lemma resetSub_cell s e c now :
  s < e -> cadence_ok c -> modern s -> modern now ->
  exists k, 0 <= k /\
    gridBoundary s c (getUTCDate s) k <= clampInto s e now < gridBoundary s c (getUTCDate s) (k + 1) /\
    resetSubWindowBounds (Some s) (Some e) c now =
      Ok (Some (gridBoundary s c (getUTCDate s) k),
          Some (Z.min (gridBoundary s c (getUTCDate s) (k + 1)) e)).
Proof.
  intros Hse Hc Hs Hn. pose proof (clampInto_bounds s e now Hse) as Hin.
  destruct (grid_find s c (getUTCDate s) (clampInto s e now) Hc Hs) as
    (steps & k & Hsteps & Hw & Hk & Hkdef & Hcell & Hadd & Hadd1);
    [by apply clampInto_modern|lia|apply anchor_own|].
  exists k. split; [done|]. split; [done|].
  unfold resetSubWindowBounds. cbn [assertPeriodBounds].
  replace (e <=? s) with false by (symmetry; apply Z.leb_gt; lia).
  cbn [mbind result_bind]. fold (clampInto s e now).
  rewrite Hsteps. cbn [mbind result_bind]. rewrite Hw. cbn [dateLt]. rewrite <- Hkdef, Hadd1.
  replace (if clampInto s e now <? gridBoundary s c (getUTCDate s) steps
    then addCadence s c k (getUTCDate s) else Some (gridBoundary s c (getUTCDate s) steps))
    with (Some (gridBoundary s c (getUTCDate s) k)).
  2:{ destruct (_ <? _); [done|]. by rewrite Hkdef. }
  cbn [dateLt]. do 2 f_equal. destruct (Z.ltb_spec (gridBoundary s c (getUTCDate s) (k + 1)) e); f_equal; lia.
Qed.

Lemma resetSub_window s e c now :
  s < e -> cadence_ok c -> modern s -> modern now ->
  exists a b, resetSubWindowBounds (Some s) (Some e) c now = Ok (Some a, Some b) /\
    s <= a < b /\ b <= e /\ a <= clampInto s e now < b /\
    (forall t, modern t -> a <= clampInto s e t < b ->
       resetSubWindowBounds (Some s) (Some e) c t = Ok (Some a, Some b)).
Proof.
  intros Hse Hc Hs Hn. destruct (resetSub_cell s e c now Hse Hc Hs Hn) as (k & Hk & Hcell & Hr).
  pose proof (clampInto_bounds s e now Hse). pose proof (anchor_own s) as Hanchor.
  pose proof (gridBoundary_0 s c _ Hanchor) as Hg0.
  pose proof (gridBoundary_mono_le s c (getUTCDate s) 0 k Hc (proj1 Hanchor) Hk).
  do 2 eexists. split; [exact Hr|]. split; [lia|]. split; [lia|]. split; [lia|].
  intros t Ht Hin. destruct (resetSub_cell s e c t Hse Hc Hs Ht) as (k' & _ & Hcell' & ->).
  pose proof (clampInto_bounds s e t Hse).
  assert (k' = k) as -> by (eapply (gridBoundary_cell s c (getUTCDate s)); eauto; [apply Hanchor|lia]).
  done.
Qed.

(** the window of a plan grant lies inside the grant, contains the current instant while
    the grant runs (the first or last window is returned outside it), is the same
    for every instant inside it, and never ends after the grant does. *)
Theorem planGrantWindow_cell s e c now t :
  s < e -> cadence_ok c -> modern s -> modern now -> modern t ->
  exists a b, planGrantWindowBounds (Some s) (Some (Some e)) c now = Ok (Some a, Some b) /\
    s <= a < b /\ b <= e /\
    (s <= now < e -> a <= now < b) /\ (now < s -> a = s) /\ (e <= now -> b = e) /\
    (a <= t < b -> planGrantWindowBounds (Some s) (Some (Some e)) c t = Ok (Some a, Some b)).
Proof.
  intros Hse Hc Hs Hn Ht. unfold planGrantWindowBounds. cbn [default].
  destruct (resetSub_window s e c now Hse Hc Hs Hn) as (a & b & Hr & Ha & Hb & Hcell & Hsame).
  exists a, b. split; [exact Hr|]. split; [done|]. split; [done|]. unfold clampInto in *.
  repeat split.
  1-4: intros; repeat cases_if; bool_to_prop; lia.
  intros Hin. apply Hsame; [done|]. blia.
Qed.

(** A window that is the whole period: no reset falls inside it. *)
Lemma planGrantWindow_whole s e c now : s < e -> cadence_ok c -> modern s -> modern now ->
  planGrantWindowBounds (Some s) (Some (Some e)) c now = Ok (Some s, Some e) -> dateLt (addCadenceOwnDay (Some s) c) (Some e) = false.
Proof.
  intros Hse Hc Hs Hn H. change (resetSubWindowBounds (Some s) (Some e) c now = Ok (Some s, Some e)) in H. destruct (resetSub_cell s e c now Hse Hc Hs Hn) as (k & Hk & _ & E).
  rewrite H in E. injection E as E1 E2. pose proof (anchor_own s) as Hanchor. pose proof (gridBoundary_0 s c _ Hanchor) as Hg.
  assert (k = 0) as ->. { destruct (Z.eq_dec k 0); [done|]. pose proof (gridBoundary_mono s c (getUTCDate s) 0 k Hc (proj1 Hanchor) ltac:(lia)). lia. }
  unfold addCadenceOwnDay. cbn [mbind option_bind]. rewrite (addCadence_grid s c 1 (getUTCDate s) s); [|done|done|done|apply Hanchor|done|].
  - cbn [dateLt]. apply Z.ltb_ge. rewrite Z.add_0_l in E2. lia.
  - pose proof (canonical_bounds c Hc). unfold hourMs. destruct (canonicalCadence c); lia.
Qed.

Lemma planGrantWindow_cell_witness :
  exists a b, planGrantWindowBounds (Some 0) (Some (Some 10000000000)) {| c_unit := week; c_count := 1 |} 700000000
    = Ok (Some a, Some b) /\ 0 <= a < b /\ b <= 10000000000 /\
    (0 <= 700000000 < 10000000000 -> a <= 700000000 < b) /\ (700000000 < 0 -> a = 0) /\
    (10000000000 <= 700000000 -> b = 10000000000) /\
    (a <= 800000000 < b -> planGrantWindowBounds (Some 0) (Some (Some 10000000000))
       {| c_unit := week; c_count := 1 |} 800000000 = Ok (Some a, Some b)).
Proof.
  apply (planGrantWindow_cell 0 10000000000 {| c_unit := week; c_count := 1 |} 700000000 800000000);
    unfold cadence_ok, modern, maxCadenceCount; cbn; lia.
Defined.

(** ** Rolled windows *)

(** The anchor of windows rolling on from the end: the start's day when the period is
    one interval long, so a clamped month end recovers, and else the end's own. *)
Definition rollAnchor (s e : Z) (c : Cadence) : Z :=
  if bool_decide (Some e = addCadence s c 1 (getUTCDate s)) then getUTCDate s else getUTCDate e.

Lemma rollAnchor_ok s e c m : cadence_ok c -> modern s -> canonicalCadence c = Months m ->
  anchor_ok e (rollAnchor s e c).
Proof.
  intros Hc Hs Hm. unfold rollAnchor. case_bool_decide as Heq; [|apply anchor_own].
  pose proof (getUTCDate_bounds s) as Hd. split; [lia|].
  pose proof (canonical_bounds c Hc) as Hb. pose proof (modern_month s Hs). rewrite Hm in Hb.
  rewrite (addCadence_grid s c 1 (getUTCDate s) s) in Heq; [|done|done|done|lia|lia|rewrite Hm; lia].
  injection Heq as ->. unfold gridBoundary. rewrite Hm.
  destruct (day_time s) as [_ Hr].
  destruct (anchoredTime_fields (monthIndexOf s + m * 1) (getUTCDate s) (timeInDay s)) as (-> & _ & ->);
    [lia|done|done].
Qed.

(** The anchor of the rolled grid; hours have no anchor day, so any will do. *)
Definition gridAnchor (s e : Z) (c : Cadence) : Z :=
  match canonicalCadence c with Months _ => rollAnchor s e c | Hours _ => getUTCDate e end.

Lemma gridAnchor_ok s e c : cadence_ok c -> modern s -> anchor_ok e (gridAnchor s e c).
Proof.
  intros Hc Hs. unfold gridAnchor. destruct (canonicalCadence c) eqn:Hm; [|apply anchor_own].
  eapply rollAnchor_ok; eauto.
Qed.

(** Past the end, the rolled window is the cell of the grid anchored at the end. *)
Lemma roll_cell s e c now : s < e -> cadence_ok c -> modern s -> modern now -> modern e -> e <= now ->
  exists k, 0 <= k /\
    gridBoundary e c (gridAnchor s e c) k <= now < gridBoundary e c (gridAnchor s e c) (k + 1) /\
    rollWindowBounds (Some s) (Some e) c now =
      Ok (Some (gridBoundary e c (gridAnchor s e c) k), Some (gridBoundary e c (gridAnchor s e c) (k + 1))).
Proof.
  intros Hse Hc Hs Hn He Hle.
  destruct (grid_find e c (gridAnchor s e c) now Hc He Hn Hle) as
    (steps & k & Hsteps & Hw & Hk & Hkdef & Hcell & Hadd & Hadd1); [by apply gridAnchor_ok|].
  exists k. split; [done|]. split; [done|].
  unfold rollWindowBounds, wholeSteps, cadenceMilliseconds, calendarMonths in *. cbn [assertPeriodBounds].
  replace (e <=? s) with false by (symmetry; apply Z.leb_gt; lia). cbn [mbind result_bind].
  replace (now <? e) with false by (symmetry; apply Z.ltb_ge; lia).
  unfold gridAnchor, rollAnchor in *. pose proof (canonical_bounds c Hc) as Hb.
  destruct (canonicalCadence c) as [m|h] eqn:Hm; cbn [mbind result_bind] in *.
  - injection Hsteps as Hsteps. rewrite Hsteps, Hw. cbn [dateLt]. destruct (now <? _) eqn:Hlt.
    + subst k. replace (steps - 1 + 1) with steps in * by lia. by rewrite Hadd.
    + subst k. by rewrite Hadd1.
  - injection Hsteps as Hsteps. rewrite Hsteps. unfold addCadence, gridBoundary in *. rewrite Hm in *.
    unfold hourMs in *. pose proof (floor_multiple (now - e) (h * 3600000) ltac:(lia)) as Hf. rewrite Hsteps in Hf.
    replace (now <? e + h * steps * 3600000) with false in Hkdef by (symmetry; apply Z.ltb_ge; lia).
    subst k. replace (e + steps * (h * 3600000)) with (e + h * steps * 3600000) by lia.
    rewrite Hw. cbn [mbind option_bind]. rewrite <- Hadd1. do 3 f_equal. lia.
Qed.

Lemma roll_window s e c now : s < e -> cadence_ok c -> modern s -> modern now -> s <= now ->
  exists a b, rollWindowBounds (Some s) (Some e) c now = Ok (Some a, Some b) /\ a <= now < b /\
    (now < e \/ e <= a) /\
    (forall t, modern t -> a <= t < b -> rollWindowBounds (Some s) (Some e) c t = Ok (Some a, Some b)).
Proof.
  intros Hse Hc Hs Hn Hle. destruct (Z.lt_ge_cases now e) as [Hlt|Hge].
  - assert (H : forall t, t < e -> rollWindowBounds (Some s) (Some e) c t = Ok (Some s, Some e)).
    { intros t Ht. unfold rollWindowBounds. cbn [assertPeriodBounds].
      replace (e <=? s) with false by (symmetry; apply Z.leb_gt; lia). cbn [mbind result_bind].
      by replace (t <? e) with true by (symmetry; apply Z.ltb_lt; lia). }
    exists s, e. repeat split; try lia; [by apply H|]. intros t _ Ht. apply H. lia.
  - assert (He : modern e) by (unfold modern in *; lia).
    pose proof (gridAnchor_ok s e c Hc Hs) as Hanchor.
    destruct (roll_cell s e c now Hse Hc Hs Hn He Hge) as (k & Hk & Hcell & Hr).
    pose proof (gridBoundary_mono_le e c _ 0 k Hc (proj1 Hanchor) Hk) as Hmono.
    rewrite (gridBoundary_0 e c _ Hanchor) in Hmono.
    do 2 eexists. split; [exact Hr|]. split; [done|]. split; [lia|].
    intros t Ht Hin. destruct (roll_cell s e c t Hse Hc Hs Ht He ltac:(lia)) as (k' & _ & Hcell' & ->).
    by assert (k' = k) as -> by (eapply (gridBoundary_cell e c _); eauto; apply Hanchor).
Qed.

(** ** The window of a limit *)

Lemma addCadenceOwnDay_Some t c : cadence_ok c -> modern t ->
  exists e, addCadenceOwnDay (Some t) c = Some e /\ t < e.
Proof.
  intros Hc Ht. unfold addCadenceOwnDay. rewrite date_bind. pose proof (canonical_bounds c Hc).
  pose proof (anchor_own t) as Hanchor.
  rewrite (addCadence_grid t c 1 (getUTCDate t) t); [|done|done|done|apply Hanchor|lia|destruct (canonicalCadence c); unfold hourMs; lia].
  eexists. split; [done|]. pose proof (gridBoundary_mono t c (getUTCDate t) 0 1 Hc (proj1 Hanchor) ltac:(lia)).
  by rewrite (gridBoundary_0 t c _ Hanchor) in *.
Qed.

(** the usage window of a meter limit contains the instant it is asked for, and
    every other instant inside it is counted in that same window: windows of one
    subscription period, its reset sub-windows and the windows rolled on after it
    never overlap, whatever its recorded end and its billing cadence. *)
Theorem meterLimitWindow_partition s periodEnd reset billing now t :
  cadence_ok reset -> modern s -> modern now -> modern t -> s <= now ->
  (forall e, periodEnd = Some e -> s < e) ->
  exists a b,
    meterLimitWindowBounds (Some s) (option_map Some periodEnd) reset now billing = Ok (Some a, Some b) /\
    a <= now < b /\
    (a <= t < b ->
     meterLimitWindowBounds (Some s) (option_map Some periodEnd) reset t billing = Ok (Some a, Some b)).
Proof.
  intros Hc Hs Hn Ht Hle He. unfold meterLimitWindowBounds.
  destruct periodEnd as [e|]; cbn [option_map].
  2:{ destruct (addCadenceOwnDay_Some s reset Hc Hs) as (e & -> & Hlt).
      destruct (roll_window s e reset now Hlt Hc Hs Hn Hle) as (a & b & Hr & Hin & _ & Hsame).
      exists a, b. auto. }
  specialize (He e eq_refl). destruct (periodSplits reset billing (Some s) (Some e)).
  2:{ destruct (roll_window s e reset now He Hc Hs Hn Hle) as (a & b & Hr & Hin & _ & Hsame).
      exists a, b. auto. }
  cbn [dateLt assertPeriodBounds]. replace (e <=? s) with false by (symmetry; apply Z.leb_gt; lia).
  destruct (Z.ltb_spec now e) as [Hlt|Hge].
  - destruct (resetSub_window s e reset now He Hc Hs Hn) as (a & b & Hr & Ha & Hb & Hcell & Hsame).
    exists a, b. split; [exact Hr|]. unfold clampInto in *. split; [blia|]. intros Hin.
    replace (t <? e) with true by (symmetry; apply Z.ltb_lt; lia). apply Hsame; [done|]. blia.
  - assert (Hem : modern e) by (unfold modern in *; lia).
    destruct (addCadenceOwnDay_Some e reset Hc Hem) as (e' & -> & Hlt).
    destruct (roll_window e e' reset now Hlt Hc Hem Hn Hge) as (a & b & Hr & Hin & Hpast & Hsame).
    exists a, b. cbn [mbind result_bind]. split; [exact Hr|]. split; [done|]. intros Hint.
    assert (e <= a) by (destruct Hpast; [|lia];
      revert Hr; unfold rollWindowBounds; cbn [assertPeriodBounds];
      replace (e' <=? e) with false by (symmetry; apply Z.leb_gt; lia); cbn [mbind result_bind];
      replace (now <? e') with true by (symmetry; apply Z.ltb_lt; lia); intros [= -> ->]; lia).
    replace (t <? e) with false by (symmetry; apply Z.ltb_ge; lia). by apply Hsame.
Qed.

Lemma meterLimitWindow_partition_witness :
  exists a b,
    meterLimitWindowBounds (Some 0) (option_map Some (Some 31536000000)) {| c_unit := month; c_count := 1 |}
      40000000000 (Some {| c_unit := year; c_count := 1 |}) = Ok (Some a, Some b) /\
    a <= 40000000000 < b /\
    (a <= 40000000001 < b ->
     meterLimitWindowBounds (Some 0) (option_map Some (Some 31536000000)) {| c_unit := month; c_count := 1 |}
      40000000001 (Some {| c_unit := year; c_count := 1 |}) = Ok (Some a, Some b)).
Proof.
  apply (meterLimitWindow_partition 0 (Some 31536000000) {| c_unit := month; c_count := 1 |}
    (Some {| c_unit := year; c_count := 1 |}) 40000000000 40000000001);
    unfold cadence_ok, modern, maxCadenceCount; cbn; try lia.
  intros e [= <-]. lia.
Defined.

(** A month-end period that was clamped rolls on to the month's own end again. *)
Example clamped_month_recovers :
  meterLimitWindowBounds (dateUTC 2026 0 31) (Some (dateUTC 2026 1 28)) {| c_unit := month; c_count := 1 |}
    (default 0 (dateUTC 2026 2 15)) None = Ok (dateUTC 2026 1 28, dateUTC 2026 2 31).
Proof. vm_compute. reflexivity. Qed.
