(* ===== verification/Balances.v ===== *)
(** * Shared metering types ([src/billing/metering.ts], [src/db/repository/metering-persistence.ts])

    Features, rates, balances and decisions, as the meter-limit and wallet files
    use them.  Database ids are integers: [String(id)] is identified with the id. *)
From S2P Require Import Prelude Text Decimal Pricing JsDate.

Inductive FeatureKind := fk_boolean | fk_metered.
Inductive MeterKind := mk_consumable | mk_non_consumable.

Record FeatureRow := {
  f_id : Z; f_key : string; f_unit : string; credit_scale : Z;
  f_kind : FeatureKind; f_meter_kind : option MeterKind; f_filter_dimensions : list string }.

Inductive RateCardPath := path_direct | path_pinned | path_additive.

Record RateDecision := {
  r_meter : FeatureRow; r_wallet : FeatureRow; r_path : RateCardPath;
  r_revision : option Z; r_revisionId : option string; r_entryId : option string;
  r_pricingModel : RatePricingModel; r_ratePerUnit : text; r_tiers : list RateCardTier }.

Definition directRate (feature : FeatureRow) : RateDecision :=
  {| r_meter := feature; r_wallet := feature; r_path := path_direct; r_revision := None;
     r_revisionId := None; r_entryId := None; r_pricingModel := RateFlat;
     r_ratePerUnit := js "1"; r_tiers := [] |}.

Record RateCardReceipt := {
  rr_path : RateCardPath; rr_revision : option Z; rr_revisionId : option string; rr_entryId : option string;
  rr_meterFeatureKey : string; rr_walletFeatureKey : string; rr_pricingModel : RatePricingModel;
  rr_ratePerUnit : text; rr_tiers : list RateCardTier }.

Definition rateReceipt (rate : RateDecision) : RateCardReceipt :=
  {| rr_path := r_path rate; rr_revision := r_revision rate; rr_revisionId := r_revisionId rate;
     rr_entryId := r_entryId rate; rr_meterFeatureKey := f_key (r_meter rate);
     rr_walletFeatureKey := f_key (r_wallet rate); rr_pricingModel := r_pricingModel rate;
     rr_ratePerUnit := r_ratePerUnit rate; rr_tiers := r_tiers rate |}.

Inductive MeterLimitScope := scope_account | scope_entity.
#[export] Instance scope_eq_dec : EqDecision MeterLimitScope.
Proof. solve_decision. Defined.

Inductive OveragePolicy := overage_blocked | overage_allowed.
#[export] Instance overage_eq_dec : EqDecision OveragePolicy.
Proof. solve_decision. Defined.

(** One allocation of a balance; dates are the instants of the ISO strings. *)
Record BalanceAllocationBreakdown := {
  bb_allocationId : Z; bb_entityId : option string; bb_sourceKind : string; bb_sourceKey : string;
  bb_rolloverOriginAllocationId : option Z; bb_carryOverOriginAllocationId : option Z;
  bb_rolloverPolicyRevision : option Z;
  bb_quantity : text; bb_reversed : text; bb_consumed : text; bb_held : text; bb_available : text;
  bb_periodStartAt : option Z; bb_periodEndAt : option Z; bb_expiresAt : option Z; bb_createdAt : Z }.

(** [granted] and [available] are [None] on an unlimited balance. *)
Record MeteringBalance := {
  b_featureKey : string; b_unit : string; b_scale : Z;
  b_granted : option text; b_consumed : text; b_held : text; b_available : option text;
  b_unlimited : bool; b_breakdown : list BalanceAllocationBreakdown;
  b_scope : option MeterLimitScope; b_windowStartAt : option Z; b_windowEndAt : option Z }.

Inductive DecisionReason :=
  reason_allowed | reason_insufficient_balance | reason_control_limit_exceeded | reason_configuration_error.

Inductive ReservationStatus := st_active | st_confirmed | st_released | st_expired.
#[export] Instance reservation_status_eq_dec : EqDecision ReservationStatus.
Proof. solve_decision. Defined.

Inductive ControlKind := spend_limit | usage_limit.
Inductive ControlSource := source_plan_default | source_contract | source_account | source_entity.

Record ControlDenial := {
  cd_kind : ControlKind; cd_source : ControlSource; cd_revision : Z; cd_policyId : string;
  cd_limitValue : text; cd_currentValue : text; cd_requestedValue : text; cd_remainingValue : text }.

(** [purchaseActions] is a catalog query; its answer is a list of provider actions. *)
Record MeteringDecision := {
  d_allowed : bool; d_reason : DecisionReason; d_requestedQuantity : text; d_walletQuantity : text;
  d_balance : MeteringBalance; d_rateCard : RateCardReceipt;
  d_eligiblePurchaseActions : list string; d_control : option ControlDenial }.

Definition controlDeniedDecision (decision : MeteringDecision) (denial : ControlDenial) : MeteringDecision :=
  {| d_allowed := false; d_reason := reason_control_limit_exceeded;
     d_requestedQuantity := d_requestedQuantity decision; d_walletQuantity := d_walletQuantity decision;
     d_balance := d_balance decision; d_rateCard := d_rateCard decision;
     d_eligiblePurchaseActions := []; d_control := Some denial |}.

(** [Date.prototype.toISOString], identified with the instant it prints. *)
Definition toISOString (d : jsdate) : result Z :=
  match d with Some t => Ok t | None => Err (InternalError "Invalid time value") end.

(** [granted > consumed + held ? granted - consumed - held : 0n] *)
Definition availableUnits (granted consumed held : Z) : Z :=
  if consumed + held <? granted then granted - consumed - held else 0.

Lemma availableUnits_max g c h : availableUnits g c h = Z.max 0 (g - c - h).
Proof. unfold availableUnits. blia. Qed.
