(* ===== verification/MeterLimits.v ===== *)
(** * Meter limits ([src/db/repository/meter-limit-sources.ts], and the limit functions of
    [src/db/repository/metering-persistence.ts])

    Which sources make up the limit of a feature, what the limit allows, and what its
    postpaid overage costs: the decision, its balance, the spend of a consume and the
    budget quoted for a reservation. *)
From S2P Require Import Prelude Text Decimal Pricing JsDate Cadence Windows Balances.

(** ** Sources *)

Inductive ItemKind := meter_limit | unlimited_usage.
Inductive PlanKind := base | addon.
#[export] Instance item_kind_eq_dec : EqDecision ItemKind. Proof. solve_decision. Defined.
#[export] Instance plan_kind_eq_dec : EqDecision PlanKind. Proof. solve_decision. Defined.

Record MeterLimitRow := {
  ml_plan_item_id : Z;
  ml_item_kind : ItemKind;
  ml_subscription_id : option string;
  ml_plan_grant_id : option string;
  ml_quantity : dbvalue;
  ml_overage_policy : OveragePolicy;
  ml_reset_interval : CadenceUnit;
  ml_reset_interval_count : Z;
  ml_billing_interval : option CadenceUnit;
  ml_billing_interval_count : Z;
  ml_period_start_at : jsdate;
  ml_period_end_at : option jsdate;
  ml_plan_kind : PlanKind;
  ml_allocation_scope : MeterLimitScope;
  ml_plan_key : string;
  ml_plan_version : Z;
  ml_sort_at : Z }.

Definition is_some {A} (o : option A) : bool := match o with Some _ => true | None => false end.
Definition isPaid (r : MeterLimitRow) : bool := is_some (ml_subscription_id r).
Definition isMeterLimit (r : MeterLimitRow) : bool := bool_decide (ml_item_kind r = meter_limit).
Definition isBase (r : MeterLimitRow) : bool := bool_decide (ml_plan_kind r = base).
Definition isAddon (r : MeterLimitRow) : bool := bool_decide (ml_plan_kind r = addon).

Definition resetOf (r : MeterLimitRow) : Cadence :=
  {| c_unit := ml_reset_interval r; c_count := ml_reset_interval_count r |}.

Definition meterLimitsJoin (l r : MeterLimitRow) : bool :=
  bool_decide (ml_overage_policy l = overage_blocked) &&
  bool_decide (ml_overage_policy r = overage_blocked) &&
  sameCadence (resetOf l) (resetOf r) &&
  bool_decide (ml_allocation_scope l = ml_allocation_scope r).

(** The stable [Array.prototype.sort] with [right.sort_at - left.sort_at]. *)
Fixpoint insertNewest (r : nat * MeterLimitRow) (l : list (nat * MeterLimitRow)) :=
  match l with
  | [] => [r]
  | x :: l' => if ml_sort_at (snd x) <? ml_sort_at (snd r) then r :: l else x :: insertNewest r l'
  end.
Definition newestFirst (rows : list (nat * MeterLimitRow)) : list (nat * MeterLimitRow) :=
  fold_left (fun sorted r => insertNewest r sorted) rows [].

(** Rows are objects: [row === anchor] compares identities, kept as the position in
    the paid list. *)
Definition combineMeterLimits (sources : list MeterLimitRow) (scale : Z)
  : result (option (MeterLimitRow * text)) :=
  let candidates := List.filter isMeterLimit sources in
  let paid := imap pair (List.filter isPaid candidates) in
  match paid with
  | [] =>
      match candidates with
      | [] => Ok None
      | first :: _ =>
          quantity ← databaseDecimal (ml_quantity first) "meter limit" scale;
          Ok (Some (first, quantity))
      end
  | _ =>
      let newest := newestFirst paid in
      match (match List.find (fun r => isBase (snd r)) newest with Some r => Some r | None => head newest end) with
      | None => Ok None
      | Some anchor =>
          units ← foldM (fun units row =>
              if (fst row =? fst anchor)%nat || (isAddon (snd row) && meterLimitsJoin (snd anchor) (snd row))
              then u ← databaseUnits (ml_quantity (snd row)) "meter limit" scale; Ok (units + u)
              else Ok units) paid 0;
          Ok (Some (snd anchor, unitsToDecimal units scale))
      end
  end.

Definition unlimitedLiftsCap (sources : list MeterLimitRow) (anchor : option MeterLimitRow) : bool :=
  let unlimited := List.filter (fun row =>
    bool_decide (ml_item_kind row = unlimited_usage) &&
    match anchor with
    | None => true
    | Some a => bool_decide (ml_allocation_scope row = ml_allocation_scope a)
    end) sources in
  let paying := existsb isPaid sources in
  let counted := if paying then List.filter isPaid unlimited else unlimited in
  (0 <? length counted)%nat &&
  match anchor with None => true | Some a => bool_decide (ml_overage_policy a = overage_blocked) end.

Definition mixedScopeSources (candidates : list MeterLimitRow) (anchor : MeterLimitRow) : list MeterLimitRow :=
  let paid := List.filter isPaid candidates in
  if forallb (fun row => bool_decide (ml_allocation_scope row = ml_allocation_scope anchor)) paid then []
  else paid.

Definition meterLimitBounds (anchor : MeterLimitRow) (now : Z) : result (jsdate * jsdate) :=
  let reset := storedCadence (ml_reset_interval anchor) (Some (ml_reset_interval_count anchor)) in
  if is_some (ml_plan_grant_id anchor) || negb (isPaid anchor)
  then planGrantWindowBounds (ml_period_start_at anchor) (ml_period_end_at anchor) reset now
  else meterLimitWindowBounds (ml_period_start_at anchor) (ml_period_end_at anchor) reset now
         (optionalStoredCadence (ml_billing_interval anchor) (Some (ml_billing_interval_count anchor))).

(** ** The limit decided for a feature *)

Record MeteredOveragePrice := {
  op_priceComponentId : string; op_pricingModel : PricingModel; op_billingUnits : text;
  op_unitAmountMinor : Z; op_currency : string; op_tiers : list PriceTier }.

Record MixedScopeSource := {
  ms_plan : string; ms_version : Z; ms_scope : MeterLimitScope; ms_subscriptionId : option string }.

Record MeterLimitDecision := {
  l_feature : FeatureRow; l_subscriptionId : option string; l_planItemId : option Z;
  l_limit : text; l_overagePolicy : OveragePolicy; l_overagePrice : option MeteredOveragePrice;
  l_unlimited : bool; l_windowStartAt : jsdate; l_windowEndAt : jsdate;
  l_scope : MeterLimitScope; l_mixedScope : option (list MixedScopeSource) }.

Definition mixedSource (row : MeterLimitRow) : MixedScopeSource :=
  {| ms_plan := ml_plan_key row; ms_version := ml_plan_version row;
     ms_scope := ml_allocation_scope row; ms_subscriptionId := ml_subscription_id row |}.

(** The stored row of a metered price; the tiers are those of [readMeteredPriceTiers]. *)
Record OveragePriceRow := {
  opr_id : string; opr_pricing_model : PricingModel; opr_billing_units : dbvalue;
  opr_unit_amount_minor : Z; opr_currency : string; opr_tiers : list PriceTier }.

Definition resolveMeteredOveragePrice (row : option OveragePriceRow) : result MeteredOveragePrice :=
  match row with
  | None => Err (BillingErr "Allowed overage has no published metered price" "METERING_CONFIGURATION_ERROR" 409)
  | Some r =>
      billingUnits ← databaseDecimal (opr_billing_units r) "overage billing units" 9;
      Ok {| op_priceComponentId := opr_id r; op_pricingModel := opr_pricing_model r;
            op_billingUnits := billingUnits; op_unitAmountMinor := opr_unit_amount_minor r;
            op_currency := toUpperCase (opr_currency r);
            op_tiers := match opr_pricing_model r with Flat => [] | _ => opr_tiers r end |}
  end.

Section Decision.
(** The price row stored for a plan item, and the accounting clock. *)
Variable priceRow : Z -> option OveragePriceRow.
Variable clock : Z.

Definition meterLimitDecision (feature : FeatureRow) (candidates : list MeterLimitRow) (configured : bool)
  : result (option MeterLimitDecision) :=
  combined ← combineMeterLimits candidates (credit_scale feature);
  let unlimited := unlimitedLiftsCap candidates (fst <$> combined) in
  match combined with
  | Some (anchor, quantity) =>
      '(start, endAt) ← meterLimitBounds anchor clock;
      overagePrice ← match ml_overage_policy anchor with
                     | overage_allowed =>
                         p ← resolveMeteredOveragePrice (priceRow (ml_plan_item_id anchor)); Ok (Some p)
                     | overage_blocked => Ok None
                     end;
      let mixed := mixedScopeSources candidates anchor in
      Ok (Some {| l_feature := feature; l_subscriptionId := ml_subscription_id anchor;
                  l_planItemId := Some (ml_plan_item_id anchor); l_limit := quantity;
                  l_overagePolicy := ml_overage_policy anchor; l_overagePrice := overagePrice;
                  l_unlimited := unlimited; l_windowStartAt := start; l_windowEndAt := endAt;
                  l_scope := ml_allocation_scope anchor;
                  l_mixedScope := match mixed with [] => None | _ => Some (map mixedSource mixed) end |})
  | None =>
      if negb (unlimited || configured) then Ok None
      else
        let start := startOfUtcMonth clock in
        Ok (Some {| l_feature := feature; l_subscriptionId := None; l_planItemId := None;
                    l_limit := js "0"; l_overagePolicy := overage_blocked; l_overagePrice := None;
                    l_unlimited := unlimited; l_windowStartAt := start;
                    l_windowEndAt := t ← start; addUtcMonths t 1 (getUTCDate t);
                    l_scope := scope_account; l_mixedScope := None |})
  end.
End Decision.

Definition mixedScopeError (featureKey : string) : error :=
  BillingErr ("Meter limits on " ++ featureKey ++ " mix account and entity scopes")
    "METERING_CONFIGURATION_ERROR" 409.

(** The message's list of sources is left out of the error. *)
Definition assertMeterLimitScopeResolved (ml : MeterLimitDecision) : result unit :=
  match l_mixedScope ml with
  | None => Ok tt
  | Some _ => Err (mixedScopeError (f_key (l_feature ml)))
  end.

(** ** Overage charges *)

Definition l_scale (ml : MeterLimitDecision) : Z := credit_scale (l_feature ml).

Definition calculateMeteredOverageCharge (ml : MeterLimitDecision) (usageQuantity : text) : result UsageCharge :=
  match l_overagePrice ml with
  | None =>
      calculateUsageCharge {| ui_usageQuantity := usageQuantity; ui_includedQuantity := l_limit ml;
        ui_billingUnits := js "1"; ui_unitAmountMinor := 0; ui_scale := Some (l_scale ml) |}
  | Some price =>
      let tiered model :=
        calculateTieredUsageCharge {| ti_usageQuantity := usageQuantity; ti_includedQuantity := l_limit ml;
          ti_billingUnits := op_billingUnits price; ti_pricingModel := model;
          ti_tiers := op_tiers price; ti_scale := Some (l_scale ml) |} in
      match op_pricingModel price with
      | Flat =>
          calculateUsageCharge {| ui_usageQuantity := usageQuantity; ui_includedQuantity := l_limit ml;
            ui_billingUnits := op_billingUnits price; ui_unitAmountMinor := op_unitAmountMinor price;
            ui_scale := Some (l_scale ml) |}
      | Graduated => tiered TGraduated
      | Volume => tiered TVolume
      end
  end.

(** A spend in minor units with its currency; the code prints the amount. *)
Record SpendDelta := { sd_spendMinorDelta : Z; sd_currency : option string }.

Definition meterLimitSpendDelta (ml : MeterLimitDecision) (consumed quantity : text) : result SpendDelta :=
  match l_overagePrice ml with
  | None => Ok {| sd_spendMinorDelta := 0; sd_currency := None |}
  | Some price =>
      let scale := l_scale ml in
      currentUnits ← decimalToUnits consumed scale;
      added ← decimalToUnits quantity scale;
      let nextUnits := currentUnits + added in
      current ← calculateMeteredOverageCharge ml (unitsToDecimal currentUnits scale);
      next ← calculateMeteredOverageCharge ml (unitsToDecimal nextUnits scale);
      Ok {| sd_spendMinorDelta := uc_amountMinor next - uc_amountMinor current;
            sd_currency := Some (op_currency price) |}
  end.

(** The tier boundaries strictly between the current and the last quantity. *)
Definition boundaryCandidates (includedUnits currentUnits lastUnits scale : Z) (tiers : list PriceTier)
  : result (list Z) :=
  foldM (fun candidates tier =>
    match pt_upToQuantity tier with
    | None => Ok candidates
    | Some t =>
        u ← decimalToUnits t scale;
        let boundary := includedUnits + u in
        Ok (if (currentUnits <? boundary) && (boundary <? lastUnits) then candidates ++ [boundary] else candidates)
    end) tiers [lastUnits].

Definition meterLimitReservationSpend (ml : MeterLimitDecision) (consumed held quantity : text)
  : result SpendDelta :=
  let scale := l_scale ml in
  let next :=
    c ← decimalToUnits consumed scale; h ← decimalToUnits held scale;
    meterLimitSpendDelta ml (unitsToDecimal (c + h) scale) quantity in
  match l_overagePrice ml with
  | None => next
  | Some price =>
      match op_pricingModel price with
      | Volume =>
          currentUnits ← decimalToUnits consumed scale;
          added ← decimalToUnits quantity scale;
          let lastUnits := currentUnits + added in
          includedUnits ← decimalToUnits (l_limit ml) scale;
          current ← calculateMeteredOverageCharge ml consumed;
          candidates ← boundaryCandidates includedUnits currentUnits lastUnits scale (op_tiers price);
          maximum ← foldM (fun maximum candidate =>
              charge ← calculateMeteredOverageCharge ml (unitsToDecimal candidate scale);
              Ok (if maximum <? uc_amountMinor charge then uc_amountMinor charge else maximum))
            candidates (uc_amountMinor current);
          Ok {| sd_spendMinorDelta := maximum - uc_amountMinor current; sd_currency := Some (op_currency price) |}
      | _ => next
      end
  end.

(** ** Balances and admission *)

Definition meterLimitBalance (ml : MeterLimitDecision) (rawUsage rawHeld : dbvalue)
  (scope : MeterLimitScope) : result MeteringBalance :=
  let scale := l_scale ml in
  let feature := l_feature ml in
  limit ← decimalToUnits (l_limit ml) scale;
  usage ← databaseUnits rawUsage "window usage" scale;
  held ← databaseUnits rawHeld "window holds" scale;
  if l_unlimited ml then
    Ok {| b_featureKey := f_key feature; b_unit := f_unit feature; b_scale := scale;
          b_granted := None; b_consumed := unitsToDecimal usage scale; b_held := unitsToDecimal held scale;
          b_available := None; b_unlimited := true; b_breakdown := []; b_scope := Some scope;
          b_windowStartAt := None; b_windowEndAt := None |}
  else
    let balance scope' start endAt :=
      {| b_featureKey := f_key feature; b_unit := f_unit feature; b_scale := scale;
         b_granted := Some (unitsToDecimal limit scale); b_consumed := unitsToDecimal usage scale;
         b_held := unitsToDecimal held scale;
         b_available := Some (unitsToDecimal (if usage + held <? limit then limit - usage - held else 0) scale);
         b_unlimited := false; b_breakdown := []; b_scope := scope';
         b_windowStartAt := start; b_windowEndAt := endAt |} in
    match l_planItemId ml with
    | None => Ok (balance None None None)
    | Some _ =>
        start ← toISOString (l_windowStartAt ml);
        endAt ← toISOString (l_windowEndAt ml);
        Ok (balance (Some scope) (Some start) (Some endAt))
    end.

Definition meterLimitAllows (ml : MeterLimitDecision) (balance : MeteringBalance) (quantity : text) : result bool :=
  if bool_decide (l_overagePolicy ml = overage_allowed) || l_unlimited ml then Ok true
  else
    available ← decimalToUnits (default (js "0") (b_available balance)) (b_scale balance);
    requested ← decimalToUnits quantity (b_scale balance);
    Ok (requested <=? available).

Definition checkMeterLimitFromBalance (actions : list string) (ml : MeterLimitDecision) (quantity : text)
  (balance : MeteringBalance) : result MeteringDecision :=
  allowed ← meterLimitAllows ml balance quantity;
  Ok {| d_allowed := allowed;
        d_reason := if allowed then reason_allowed else reason_insufficient_balance;
        d_requestedQuantity := quantity; d_walletQuantity := quantity; d_balance := balance;
        d_rateCard := rateReceipt (directRate (l_feature ml));
        d_eligiblePurchaseActions := if allowed then [] else actions; d_control := None |}.

(** ** What an overage price charges *)

Lemma canonicalUnits_decimal t field s n : canonicalUnits t field s = Ok n -> decimalToUnits t s = Ok n.
Proof.
  unfold canonicalUnits. intros H. inv_result. apply canonicalDecimal_Ok in E as [E _].
  apply decimalToUnits_Ok. exists x. split; [|done].
  apply unboundedDecimal_Ok in E. by apply unboundedDecimal_Ok.
Qed.

Lemma canonicalUnits_smaller n m s field : canonicalUnits (unitsToDecimal n s) field s = Ok n -> 0 <= m <= n ->
  canonicalUnits (unitsToDecimal m s) field s = Ok m.
Proof.
  intros H Hm. pose proof (canonicalUnits_scale _ _ _ _ H). apply canonicalUnits_bound in H.
  apply canonicalUnits_units; lia.
Qed.

(** The numerator a price charges for billable units; the volume price alone is not
    monotone. *)
Definition monotone_from_0 (f : Z -> Z) : Prop := forall a b, 0 <= a <= b -> f a <= f b.

Definition overage_shape (ml : MeterLimitDecision) (bu : Z) (numer : Z -> Z) : Prop :=
  numer 0 = 0 /\ (forall b, 0 <= b -> 0 <= numer b) /\
  (monotone_from_0 numer \/
   exists price tiers, l_overagePrice ml = Some price /\ op_pricingModel price = Volume /\
     normalizeTiers (op_tiers price) (l_scale ml) = Ok tiers /\
     numer = fun b => volumeReference b bu tiers).

(** [calculateMeteredOverageCharge] as a function of the usage in units. *)
Definition overage_of (ml : MeterLimitDecision) (included bu : Z) (numer : Z -> Z) : Prop :=
  forall t u, canonicalUnits t "usageQuantity" (l_scale ml) = Ok u ->
    exists c, calculateMeteredOverageCharge ml t = Ok c /\
      uc_amountMinor c = roundHalfUp (numer (Z.max 0 (u - included))) bu.

Lemma usage_charge_total i t u included bu :
  ui_scale i = Some (t : Z) ->
  canonicalUnits (ui_usageQuantity i) "usageQuantity" t = Ok u ->
  canonicalUnits (ui_includedQuantity i) "includedQuantity" t = Ok included ->
  canonicalUnits (ui_billingUnits i) "billingUnits" t = Ok bu -> 0 < bu -> 0 <= ui_unitAmountMinor i ->
  exists c, calculateUsageCharge i = Ok c /\
    uc_amountMinor c = roundHalfUp (Z.max 0 (u - included) * ui_unitAmountMinor i) bu.
Proof.
  intros Hs Hu Hi Hb Hpos Hunit. eexists. split; [|shelve]. apply calculateUsageCharge_Ok.
  exists u, included, bu. rewrite Hs. cbn. auto 10. Unshelve. reflexivity.
Qed.

Lemma volumeReference_0 bu tiers : volumeReference 0 bu tiers = 0.
Proof. unfold volumeReference. by destruct (List.find _ _). Qed.

Lemma volumeReference_nonneg b bu tiers : 0 < bu -> 0 <= b -> Forall tier_nonneg tiers ->
  0 <= volumeReference b bu tiers.
Proof.
  intros Hbu Hb Hf. unfold volumeReference. destruct (List.find _ _) as [t|] eqn:E; [|done].
  apply find_some in E as [Ht%list_elem_of_In _]. rewrite Forall_forall in Hf.
  destruct (Hf _ Ht). destruct (0 <? b); nia.
Qed.

(** The numerator of a tiered price, whatever its model. *)
Definition tieredReference (m : TieredModel) (bu : Z) (tiers : list Tier) (b : Z) : Z :=
  match m with TGraduated => graduatedReference b bu 0 tiers | TVolume => volumeReference b bu tiers end.

Lemma tieredNumerator_reference m b bu tiers : 0 <= b -> increasingFrom 0 (map t_upTo tiers) ->
  tieredNumerator m b bu tiers = Ok (tieredReference m bu tiers b).
Proof.
  intros Hb Hi. unfold tieredNumerator, tieredReference. destruct (Z.ltb_spec 0 b).
  - destruct m; [by rewrite graduatedNumerator_reference|].
    unfold volumeReference. destruct (normalised_covers b 0 tiers Hi) as [t ->].
    by replace (0 <? b) with true by (symmetry; apply Z.ltb_lt; lia).
  - replace b with 0 by lia. destruct m; [by rewrite graduatedReference_past|].
    by rewrite volumeReference_0.
Qed.

Lemma tiered_charge_total i s u included bu tiers :
  ti_scale i = Some s ->
  canonicalUnits (ti_usageQuantity i) "usageQuantity" s = Ok u ->
  canonicalUnits (ti_includedQuantity i) "includedQuantity" s = Ok included ->
  canonicalUnits (ti_billingUnits i) "billingUnits" s = Ok bu -> 0 < bu ->
  normalizeTiers (ti_tiers i) s = Ok tiers ->
  exists c, calculateTieredUsageCharge i = Ok c /\
    uc_amountMinor c = roundHalfUp (tieredReference (ti_pricingModel i) bu tiers (Z.max 0 (u - included))) bu.
Proof.
  intros Hs Hu Hi Hb Hpos Ht. unfold calculateTieredUsageCharge. rewrite Hs. cbv zeta. cbn [from_option id].
  rewrite Hu, Hi, Hb. cbn [mbind result_bind].
  replace (bu <=? 0) with false by (symmetry; apply Z.leb_gt; lia). cbn [throwWhen mbind result_bind].
  rewrite Ht. cbn [mbind result_bind].
  replace (if included <? u then u - included else 0) with (Z.max 0 (u - included)) by blia.
  rewrite tieredNumerator_reference by (lia || apply (normalizeTiers_wf _ _ _ Ht)).
  cbn. eauto.
Qed.

Lemma tieredReference_shape ml price bu tiers m :
  l_overagePrice ml = Some price ->
  op_pricingModel price = match m with TGraduated => Graduated | TVolume => Volume end ->
  normalizeTiers (op_tiers price) (l_scale ml) = Ok tiers -> 0 < bu ->
  overage_shape ml bu (tieredReference m bu tiers).
Proof.
  intros Hp Hm Ht Hbu. destruct (normalizeTiers_wf _ _ _ Ht) as [Hi Hf].
  unfold overage_shape, tieredReference. destruct m.
  - split; [by rewrite graduatedReference_past|]. split.
    + intros b Hb. apply graduatedReference_nonneg; [lia|done|done].
    + left. intros a b Hab. apply graduatedReference_mono; [lia|lia|done|done].
  - split; [apply volumeReference_0|]. split.
    + intros b Hb. by apply volumeReference_nonneg.
    + right. exists price, tiers. auto.
Qed.

(** Once one charge could be computed, the price charges every quantity. *)
Lemma overage_price ml t c :
  calculateMeteredOverageCharge ml t = Ok c ->
  exists u included bu numer,
    canonicalUnits t "usageQuantity" (l_scale ml) = Ok u /\
    decimalToUnits (l_limit ml) (l_scale ml) = Ok included /\ 0 <= included /\ 0 < bu /\
    overage_shape ml bu numer /\ overage_of ml included bu numer.
Proof.
  unfold calculateMeteredOverageCharge at 1. destruct (l_overagePrice ml) as [price|] eqn:Hp.
  2:{ intros (u & inc & bu & Hu & Hi & Hb & Hpos & Hunit & ->)%calculateUsageCharge_Ok. cbn in *.
      exists u, inc, bu, (fun b => b * 0). split; [done|]. split; [by eapply canonicalUnits_decimal|].
      split; [eapply canonicalUnits_nonneg, Hi; by eapply canonicalUnits_scale|]. split; [done|].
      split.
      - split; [lia|]. split; [lia|]. left. intros a b H. lia.
      - intros t' u' Hu'. unfold calculateMeteredOverageCharge. rewrite Hp.
        exact (usage_charge_total {| ui_usageQuantity := t'; ui_includedQuantity := l_limit ml;
          ui_billingUnits := js "1"; ui_unitAmountMinor := 0; ui_scale := Some (l_scale ml) |}
          _ u' inc bu eq_refl Hu' Hi Hb Hpos Hunit). }
  destruct (op_pricingModel price) eqn:Hm.
  - intros (u & inc & bu & Hu & Hi & Hb & Hpos & Hunit & ->)%calculateUsageCharge_Ok. cbn in *.
    exists u, inc, bu, (fun b => b * op_unitAmountMinor price).
    split; [done|]. split; [by eapply canonicalUnits_decimal|].
    split; [eapply canonicalUnits_nonneg, Hi; by eapply canonicalUnits_scale|]. split; [done|]. split.
    + split; [lia|]. split; [intros; nia|]. left. intros a b H. nia.
    + intros t' u' Hu'. unfold calculateMeteredOverageCharge. rewrite Hp, Hm.
      exact (usage_charge_total {| ui_usageQuantity := t'; ui_includedQuantity := l_limit ml;
        ui_billingUnits := op_billingUnits price; ui_unitAmountMinor := op_unitAmountMinor price;
        ui_scale := Some (l_scale ml) |} _ u' inc bu eq_refl Hu' Hi Hb Hpos Hunit).
  - intros (u & inc & bu & tiers & n & Hu & Hi & Hb & Hpos & Ht & _)%calculateTieredUsageCharge_Ok. cbn in *.
    exists u, inc, bu, (tieredReference TGraduated bu tiers).
    split; [done|]. split; [by eapply canonicalUnits_decimal|].
    split; [eapply canonicalUnits_nonneg, Hi; by eapply canonicalUnits_scale|]. split; [done|].
    split; [by eapply tieredReference_shape|].
    intros t' u' Hu'. unfold calculateMeteredOverageCharge. rewrite Hp, Hm.
    exact (tiered_charge_total {| ti_usageQuantity := t'; ti_includedQuantity := l_limit ml;
      ti_billingUnits := op_billingUnits price; ti_pricingModel := TGraduated;
      ti_tiers := op_tiers price; ti_scale := Some (l_scale ml) |}
      _ u' inc bu tiers eq_refl Hu' Hi Hb Hpos Ht).
  - intros (u & inc & bu & tiers & n & Hu & Hi & Hb & Hpos & Ht & _)%calculateTieredUsageCharge_Ok. cbn in *.
    exists u, inc, bu, (tieredReference TVolume bu tiers).
    split; [done|]. split; [by eapply canonicalUnits_decimal|].
    split; [eapply canonicalUnits_nonneg, Hi; by eapply canonicalUnits_scale|]. split; [done|].
    split; [by eapply tieredReference_shape|].
    intros t' u' Hu'. unfold calculateMeteredOverageCharge. rewrite Hp, Hm.
    exact (tiered_charge_total {| ti_usageQuantity := t'; ti_includedQuantity := l_limit ml;
      ti_billingUnits := op_billingUnits price; ti_pricingModel := TVolume;
      ti_tiers := op_tiers price; ti_scale := Some (l_scale ml) |}
      _ u' inc bu tiers eq_refl Hu' Hi Hb Hpos Ht).
Qed.

Lemma overage_at ml included bu numer u field :
  overage_of ml included bu numer ->
  canonicalUnits (unitsToDecimal u (l_scale ml)) field (l_scale ml) = Ok u ->
  exists c, calculateMeteredOverageCharge ml (unitsToDecimal u (l_scale ml)) = Ok c /\
    uc_amountMinor c = roundHalfUp (numer (Z.max 0 (u - included))) bu.
Proof.
  intros H Hu. apply H. pose proof (canonicalUnits_scale _ _ _ _ Hu).
  apply canonicalUnits_bound in Hu. apply canonicalUnits_units; lia.
Qed.

(** A charge computed for one quantity determines the charge of every smaller one. *)
Lemma overage_up_to ml u c :
  0 <= u -> calculateMeteredOverageCharge ml (unitsToDecimal u (l_scale ml)) = Ok c ->
  exists included bu numer,
    decimalToUnits (l_limit ml) (l_scale ml) = Ok included /\ 0 <= included /\ 0 < bu /\
    overage_shape ml bu numer /\
    overage_of ml included bu numer /\
    forall v, 0 <= v <= u -> exists c', calculateMeteredOverageCharge ml (unitsToDecimal v (l_scale ml)) = Ok c' /\
      uc_amountMinor c' = roundHalfUp (numer (Z.max 0 (v - included))) bu.
Proof.
  intros Hu0 H. destruct (overage_price _ _ _ H) as (u' & inc & bu & numer & Hu & Hi & Hinc & Hbu & Hshape & Hof).
  exists inc, bu, numer. repeat (split; [done|]). intros v Hv.
  pose proof (canonicalUnits_scale _ _ _ _ Hu) as Hs.
  assert (u' = u) as ->.
  { apply canonicalUnits_decimal in Hu. rewrite units_roundtrip in Hu by done. by injection Hu. }
  apply (overage_at ml inc bu numer v "usageQuantity"); [done|]. by apply (canonicalUnits_smaller u).
Qed.

Lemma foldM_member {A B} (f : B -> A -> result B) l b r x :
  foldM f l b = Ok r -> x ∈ l -> exists b1 b2 l2, f b1 x = Ok b2 /\ foldM f l2 b2 = Ok r.
Proof.
  revert b. induction l as [|a l IH]; intros b H Hx; [by apply elem_of_nil in Hx|].
  cbn in H. inv_result. apply elem_of_cons in Hx as [->|Hx]; eauto.
Qed.

(** A running maximum over charges bounds its start and every charge. *)
Section Maximum.
Context {A : Type} (charge : A -> result UsageCharge).

Definition runMaximum (l : list A) (m : Z) : result Z :=
  foldM (fun maximum a =>
    c ← charge a; Ok (if maximum <? uc_amountMinor c then uc_amountMinor c else maximum)) l m.

Lemma runMaximum_start l m r : runMaximum l m = Ok r -> m <= r.
Proof.
  revert m. induction l as [|a l IH]; intros m H; cbn in H; inv_result; [subst; lia|].
  apply IH in H. subst x. blia.
Qed.

Lemma runMaximum_member l m r a : runMaximum l m = Ok r -> a ∈ l ->
  exists c, charge a = Ok c /\ uc_amountMinor c <= r.
Proof.
  intros H Ha. destruct (foldM_member _ _ _ _ _ H Ha) as (b1 & b2 & l2 & Hstep & Hrest).
  inv_result. exists x. split; [done|]. apply runMaximum_start in Hrest. subst b2. blia.
Qed.
End Maximum.

Lemma boundaryCandidates_spec inc cur last s tiers cs :
  boundaryCandidates inc cur last s tiers = Ok cs ->
  last ∈ cs /\
  forall tier t, tier ∈ tiers -> pt_upToQuantity tier = Some t ->
    exists u, decimalToUnits t s = Ok u /\ (cur < inc + u < last -> inc + u ∈ cs).
Proof.
  unfold boundaryCandidates. assert (Hgen : forall l,
    foldM (fun candidates tier =>
      match pt_upToQuantity tier with
      | None => Ok candidates
      | Some t => u ← decimalToUnits t s; let boundary := inc + u in
          Ok (if (cur <? boundary) && (boundary <? last) then candidates ++ [boundary] else candidates)
      end) tiers l = Ok cs ->
    (forall x, x ∈ l -> x ∈ cs) /\
    forall tier t, tier ∈ tiers -> pt_upToQuantity tier = Some t ->
      exists u, decimalToUnits t s = Ok u /\ (cur < inc + u < last -> inc + u ∈ cs)).
  { induction tiers as [|p tiers IH]; intros l H; cbn in H.
    - injection H as ->. split; [done|]. intros ? ? []%elem_of_nil.
    - inv_result. destruct (IH _ H) as [Hl Ht]. destruct (pt_upToQuantity p) as [t|] eqn:Hp.
      + inv_result. split.
        * intros y Hy. apply Hl. subst x. destruct (_ && _); [|done]. apply elem_of_app. by left.
        * intros tier t' Hin Hq. apply elem_of_cons in Hin as [->|Hin]; [|eauto].
          exists x0. assert (t' = t) as -> by congruence. split; [done|]. intros Hb. apply Hl. subst x.
          replace (cur <? inc + x0) with true by (symmetry; apply Z.ltb_lt; lia).
          replace (inc + x0 <? last) with true by (symmetry; apply Z.ltb_lt; lia). apply elem_of_app. right. constructor.
      + injection E as <-. split; [done|]. intros tier t' Hin Hq.
        apply elem_of_cons in Hin as [->|Hin]; [congruence|eauto]. }
  intros H. destruct (Hgen _ H) as [Hl Ht]. split; [|done]. apply Hl. constructor.
Qed.

Lemma boundUnits_Some q field s u : boundUnits q field s = Ok (Some u) ->
  exists t, q = Some t /\ decimalToUnits t s = Ok u.
Proof.
  unfold boundUnits. destruct q as [t|]; [|done]. intros H. inv_result. subst.
  exists t. split; [done|]. by eapply canonicalUnits_decimal.
Qed.

Lemma normalizeTiers_bounds tiers s l :
  normalizeTiers tiers s = Ok l ->
  forall t u, t ∈ l -> t_upTo t = Some u ->
    exists tier q, tier ∈ tiers /\ pt_upToQuantity tier = Some q /\ decimalToUnits q s = Ok u.
Proof.
  unfold normalizeTiers. intros H. inv_result. clear E. revert H. generalize 0 as previous.
  revert l. induction tiers as [|p tiers IH]; intros l previous H t u Ht Hu; cbn in H; inv_result.
  - subst l. by apply elem_of_nil in Ht.
  - subst l. apply elem_of_cons in Ht as [->|Ht].
    + cbn in Hu. subst. destruct (boundUnits_Some _ _ _ _ E0) as (q & Hq & Hd).
      exists p, q. split; [constructor|]. done.
    + edestruct IH as (tier & q & Hin & Hq & Hd); eauto. exists tier, q. split; [by constructor|done].
Qed.

Lemma find_covers_more b b' tiers t :
  List.find (coversBillable b) tiers = Some t -> b <= b' -> coversBillable b' t = true ->
  List.find (coversBillable b') tiers = Some t.
Proof.
  induction tiers as [|x tiers IH]; cbn; [done|]. intros H Hle Hc.
  destruct (coversBillable b x) eqn:Hx.
  - injection H as ->. by rewrite Hc.
  - replace (coversBillable b' x) with false; [auto|]. symmetry. unfold coversBillable in *.
    destruct (t_upTo x); [|done]. bool_to_prop. apply Z.leb_gt. lia.
Qed.

Lemma volumeReference_same_tier b b' bu tiers t : Forall tier_nonneg tiers -> 0 < bu ->
  List.find (coversBillable b) tiers = Some t -> 0 < b <= b' -> coversBillable b' t = true ->
  volumeReference b bu tiers <= volumeReference b' bu tiers.
Proof.
  intros Hf Hbu Hfind Hb Hc. unfold volumeReference.
  rewrite Hfind, (find_covers_more b b' tiers t Hfind ltac:(lia) Hc).
  replace (0 <? b) with true by (symmetry; apply Z.ltb_lt; lia).
  replace (0 <? b') with true by (symmetry; apply Z.ltb_lt; lia).
  apply find_some in Hfind as [Ht%list_elem_of_In _]. rewrite Forall_forall in Hf.
  destruct (Hf _ Ht). nia.
Qed.

(** Between two quantities a volume price peaks at the later one or at a tier
    boundary in between. *)
Lemma volume_peak inc u0 u last bu tiers :
  increasingFrom 0 (map t_upTo tiers) -> Forall tier_nonneg tiers -> 0 < bu -> u0 < u <= last -> inc < u ->
  exists v, volumeReference (u - inc) bu tiers <= volumeReference (v - inc) bu tiers /\ inc < v /\
    (v = last \/ (u0 < v < last /\ exists t, t ∈ tiers /\ t_upTo t = Some (v - inc))).
Proof.
  intros Hi Hf Hbu Hu Hinc. destruct (normalised_covers (u - inc) 0 tiers Hi) as [t Ht].
  destruct (coversBillable (last - inc) t) eqn:Hlast.
  - exists last. split; [|lia]. eapply volumeReference_same_tier; eauto. lia.
  - pose proof (find_some _ _ Ht) as [Hin Hcov]. unfold coversBillable in Hlast, Hcov.
    destruct (t_upTo t) as [b|] eqn:Hb; [|done]. bool_to_prop.
    exists (inc + b). split.
    + eapply volumeReference_same_tier; eauto; [lia|]. unfold coversBillable. rewrite Hb. apply Z.leb_le. lia.
    + split; [lia|]. destruct (Z.eq_dec (inc + b) last); [by left|]. right. split; [lia|].
      exists t. split; [by apply list_elem_of_In|]. rewrite Hb. f_equal. lia.
Qed.

(** Where a confirmation of the held quantity is rated: a volume price at the committed
    quantity, a monotone one after the quantities already held. *)
Definition quoteBase (ml : MeterLimitDecision) (u0 h : Z) : Z :=
  match l_overagePrice ml with
  | Some price => match op_pricingModel price with Volume => u0 | _ => u0 + h end
  | None => u0 + h
  end.

Lemma spendDelta_at ml price u n c d :
  l_overagePrice ml = Some price -> 0 <= u -> 0 <= n ->
  0 <= l_scale ml ->
  calculateMeteredOverageCharge ml (unitsToDecimal u (l_scale ml)) = Ok c ->
  calculateMeteredOverageCharge ml (unitsToDecimal (u + n) (l_scale ml)) = Ok d ->
  forall t, decimalToUnits t (l_scale ml) = Ok n ->
  meterLimitSpendDelta ml (unitsToDecimal u (l_scale ml)) t =
    Ok {| sd_spendMinorDelta := uc_amountMinor d - uc_amountMinor c; sd_currency := Some (op_currency price) |}.
Proof.
  intros Hp Hu Hn Hs Hc Hd t Ht. unfold meterLimitSpendDelta. rewrite Hp. cbv zeta.
  rewrite units_roundtrip by done. cbn [mbind result_bind]. rewrite Ht. cbn [mbind result_bind].
  rewrite Hc. cbn [mbind result_bind]. rewrite Hd. done.
Qed.

(** A quote at a monotone price covers every smaller quantity. *)
Lemma monotone_quote_covers ml price u n p q t spend :
  l_overagePrice ml = Some price -> op_pricingModel price <> Volume ->
  0 <= u -> 0 <= p <= n -> 0 <= l_scale ml ->
  decimalToUnits q (l_scale ml) = Ok n -> decimalToUnits t (l_scale ml) = Ok p ->
  meterLimitSpendDelta ml (unitsToDecimal u (l_scale ml)) q = Ok spend ->
  0 <= sd_spendMinorDelta spend /\
  exists d, meterLimitSpendDelta ml (unitsToDecimal u (l_scale ml)) t = Ok d /\
    sd_spendMinorDelta d <= sd_spendMinorDelta spend /\ sd_currency d = sd_currency spend.
Proof.
  intros Hp Hm Hu Hpn Hs Hq Ht H. pose proof H as H'. unfold meterLimitSpendDelta in H'. rewrite Hp in H'.
  inv_result. rewrite units_roundtrip in E by done. injection E as <-.
  rewrite Hq in E0. injection E0 as <-.
  destruct (overage_up_to ml (u + n) x2 ltac:(lia) E2) as (inc & bu & numer & Hinc & Hi0 & Hbu & Hshape & _ & Hup).
  destruct Hshape as (H0 & Hnn & [Hmono|(price' & ? & Hp' & Hv & _)]); [|congruence].
  destruct (Hup u ltac:(lia)) as (c0 & Hc0 & Ha0). destruct (Hup (u + n) ltac:(lia)) as (cn & Hcn & Han).
  destruct (Hup (u + p) ltac:(lia)) as (cp & Hcp & Hap).
  rewrite (spendDelta_at ml price u n c0 cn Hp Hu ltac:(lia) Hs Hc0 Hcn q Hq) in H. injection H as <-.
  rewrite (spendDelta_at ml price u p c0 cp Hp Hu ltac:(lia) Hs Hc0 Hcp t Ht). cbn.
  rewrite Ha0, Han, Hap.
  assert (Hle : forall a b, 0 <= a <= b ->
    roundHalfUp (numer (Z.max 0 (a - inc))) bu <= roundHalfUp (numer (Z.max 0 (b - inc))) bu).
  { intros a b Hab. apply roundHalfUp_mono; [done|]. apply Hmono. lia. }
  pose proof (Hle u (u + n) ltac:(lia)). pose proof (Hle (u + p) (u + n) ltac:(lia)).
  split; [lia|]. eexists. split; [done|]. split; [cbn; lia|done].
Qed.

(** Every charge up to the last quantity stays below the maximum of the candidates. *)
Lemma volume_maximum ml price u n inc bu tiers cs maximum current :
  l_overagePrice ml = Some price -> 0 <= u -> 0 <= n -> 0 <= inc -> 0 < bu -> 0 <= l_scale ml ->
  normalizeTiers (op_tiers price) (l_scale ml) = Ok tiers ->
  let charge v := roundHalfUp (volumeReference (Z.max 0 (v - inc)) bu tiers) bu in
  (forall v, 0 <= v <= u + n -> exists c, calculateMeteredOverageCharge ml (unitsToDecimal v (l_scale ml)) = Ok c /\
     uc_amountMinor c = charge v) ->
  boundaryCandidates inc u (u + n) (l_scale ml) (op_tiers price) = Ok cs ->
  runMaximum (fun v => calculateMeteredOverageCharge ml (unitsToDecimal v (l_scale ml))) cs current = Ok maximum ->
  charge u = current ->
  forall p, 0 <= p <= n -> charge (u + p) <= maximum.
Proof.
  intros Hp Hu Hn Hi0 Hbu Hs Ht charge Hup Hcs Hmax Hcur p Hpn.
  destruct (normalizeTiers_wf _ _ _ Ht) as [Hinc Hf]. pose proof (runMaximum_start _ _ _ _ Hmax) as Hstart.
  assert (Hcs' : forall v, v ∈ cs -> 0 <= v <= u + n -> charge v <= maximum).
  { intros v Hv Hr. destruct (runMaximum_member _ _ _ _ _ Hmax Hv) as (c & Hc & Hle).
    destruct (Hup v Hr) as (c' & Hc' & Ha). rewrite Hc in Hc'. injection Hc' as <-. lia. }
  destruct (boundaryCandidates_spec _ _ _ _ _ _ Hcs) as [Hlast Hbnd].
  destruct (Z.eq_dec p 0) as [->|Hp0]; [rewrite Z.add_0_r; lia|].
  destruct (Z.le_gt_cases (u + p) inc) as [Hfree|Hover].
  - assert (Hz : forall v, v <= inc -> charge v = 0).
    { intros v Hv. unfold charge. rewrite Z.max_l by lia. rewrite volumeReference_0. by apply roundHalfUp_0. }
    rewrite Hz by done. rewrite <- (Hz u) by lia. lia.
  - destruct (volume_peak inc u (u + p) (u + n) bu tiers Hinc Hf Hbu ltac:(lia) ltac:(lia))
      as (v & Hle & Hv & Hwhere).
    assert (Hcv : charge (u + p) <= charge v).
    { unfold charge. rewrite !Z.max_r by lia. by apply roundHalfUp_mono. }
    destruct Hwhere as [->|(Hbetween & t & Ht' & Hupto)].
    + specialize (Hcs' _ Hlast). lia.
    + destruct (normalizeTiers_bounds _ _ _ Ht t _ Ht' Hupto) as (tier & q & Hin & Hq & Hd).
      destruct (Hbnd tier q Hin Hq) as (b & Hb & Hmem). assert (b = v - inc) as -> by congruence.
      replace (inc + (v - inc)) with v in Hmem by lia. specialize (Hcs' v (Hmem ltac:(lia))). lia.
Qed.

Lemma volume_quote_covers ml price u n p h q t spend :
  l_overagePrice ml = Some price -> op_pricingModel price = Volume ->
  0 <= u -> 0 <= p <= n -> 0 <= l_scale ml ->
  decimalToUnits q (l_scale ml) = Ok n -> decimalToUnits t (l_scale ml) = Ok p ->
  meterLimitReservationSpend ml (unitsToDecimal u (l_scale ml)) h q = Ok spend ->
  0 <= sd_spendMinorDelta spend /\
  exists d, meterLimitSpendDelta ml (unitsToDecimal u (l_scale ml)) t = Ok d /\
    sd_spendMinorDelta d <= sd_spendMinorDelta spend /\ sd_currency d = sd_currency spend.
Proof.
  intros Hp Hv Hu Hpn Hs Hq Ht H. unfold meterLimitReservationSpend in H. rewrite Hp, Hv in H. inv_result. subst spend.
  rewrite units_roundtrip in E by done. injection E as <-. rewrite Hq in E0. injection E0 as <-.
  fold (runMaximum (fun v => calculateMeteredOverageCharge ml (unitsToDecimal v (l_scale ml))) x3 (uc_amountMinor x2)) in E4.
  destruct (boundaryCandidates_spec _ _ _ _ _ _ E3) as [Hlast _].
  destruct (runMaximum_member _ _ _ _ _ E4 Hlast) as (cl & Hcl & _).
  destruct (overage_up_to ml (u + n) cl ltac:(lia) Hcl) as (inc & bu & numer & Hinc & Hi0 & Hbu & Hshape & _ & Hup).
  rewrite E1 in Hinc. injection Hinc as ->.
  pose proof (runMaximum_start _ _ _ _ E4) as Hstart.
  destruct (Hup u ltac:(lia)) as (c0 & Hc0 & Ha0). rewrite E2 in Hc0. injection Hc0 as <-.
  destruct (Hup (u + p) ltac:(lia)) as (cp & Hcp & Hap).
  cbn. split; [lia|].
  rewrite (spendDelta_at ml price u p x2 cp Hp Hu ltac:(lia) Hs E2 Hcp t Ht). eexists. split; [done|].
  cbn. split; [|done]. enough (uc_amountMinor cp <= x4) by lia.
  destruct Hshape as (_ & _ & [Hmono|(price' & tiers & Hp' & _ & Hn & ->)]).
  - destruct (runMaximum_member _ _ _ _ _ E4 Hlast) as (c & Hc & Hle). rewrite Hcl in Hc. injection Hc as <-.
    destruct (Hup (u + n) ltac:(lia)) as (cn & Hcn & Han). rewrite Hcl in Hcn. injection Hcn as <-.
    rewrite Hap. etransitivity; [|exact Hle]. rewrite Han. apply roundHalfUp_mono; [done|]. apply Hmono. lia.
  - assert (price' = price) as -> by congruence. rewrite Hap.
    eapply (volume_maximum ml price u n inc bu tiers); eauto. lia.
Qed.

(** C36: the budget quoted for a reservation is never negative and covers every partial
    confirmation: at the quantity the quote is made for, confirming any part of
    the held quantity never spends more than was quoted, for flat, graduated and
    volume prices alike, even when a volume tier lowers the price of everything
    used. *)
Theorem reservation_quote_covers_confirmation ml price u0 h0 held n p q t spend :
  l_overagePrice ml = Some price -> 0 <= u0 -> 0 <= p <= n ->
  decimalToUnits held (l_scale ml) = Ok h0 ->
  decimalToUnits q (l_scale ml) = Ok n -> decimalToUnits t (l_scale ml) = Ok p ->
  meterLimitReservationSpend ml (unitsToDecimal u0 (l_scale ml)) held q = Ok spend ->
  0 <= sd_spendMinorDelta spend /\
  exists d,
    meterLimitSpendDelta ml (unitsToDecimal (quoteBase ml u0 h0) (l_scale ml)) t = Ok d /\
    sd_spendMinorDelta d <= sd_spendMinorDelta spend /\ sd_currency d = sd_currency spend.
Proof.
  intros Hp Hu Hpn Hh Hq Ht H. pose proof (decimalToUnits_scale _ _ _ Hq) as Hs.
  pose proof (decimalToUnits_nonneg _ _ _ Hs Hh). unfold quoteBase. rewrite Hp.
  destruct (op_pricingModel price) eqn:Hm.
  1-2: unfold meterLimitReservationSpend in H; rewrite Hp, Hm, units_roundtrip, Hh in H by done;
    cbn [mbind result_bind] in H;
    eapply (monotone_quote_covers ml price (u0 + h0) n p); eauto; [congruence|lia].
  eapply volume_quote_covers; eauto.
Qed.

Definition exampleFeature : FeatureRow :=
  {| f_id := 1; f_key := "tokens"; f_unit := "token"; credit_scale := 0; f_kind := fk_metered;
     f_meter_kind := Some mk_consumable; f_filter_dimensions := [] |}.

Definition exampleLimit (unlimited : bool) (policy : OveragePolicy) (price : option MeteredOveragePrice) : MeterLimitDecision :=
  {| l_feature := exampleFeature; l_subscriptionId := Some "s"; l_planItemId := Some 1; l_limit := js "10";
     l_overagePolicy := policy; l_overagePrice := price; l_unlimited := unlimited;
     l_windowStartAt := Some 0; l_windowEndAt := Some 1000; l_scope := scope_account; l_mixedScope := None |}.

Definition exampleVolumePrice : MeteredOveragePrice :=
  {| op_priceComponentId := "p"; op_pricingModel := Volume; op_billingUnits := js "1";
     op_unitAmountMinor := 0; op_currency := "USD"; op_tiers := volumeTiers |}.

(** 105 units past the allowance cost less than 100: the quote is the charge at 100. *)
Lemma reservation_quote_covers_confirmation_witness :
  0 <= 500 /\
  exists d, meterLimitSpendDelta (exampleLimit false overage_allowed (Some exampleVolumePrice))
              (js "10") (js "100") = Ok d /\
    sd_spendMinorDelta d <= 500 /\ sd_currency d = Some "USD"%string.
Proof.
  apply (reservation_quote_covers_confirmation (exampleLimit false overage_allowed (Some exampleVolumePrice))
    exampleVolumePrice 10 0 (js "0") 105 100 (js "105") (js "100")
    {| sd_spendMinorDelta := 500; sd_currency := Some "USD"%string |}); try reflexivity; lia || (vm_compute; congruence).
Defined.

(** ** The combined limit *)

Lemma insertNewest_perm r l : insertNewest r l ≡ₚ r :: l.
Proof.
  induction l as [|x l IH]; cbn; [done|]. destruct (_ <? _); [done|]. rewrite IH. apply Permutation_swap.
Qed.

Definition newerOrEqual (a b : nat * MeterLimitRow) : Prop := ml_sort_at (snd b) <= ml_sort_at (snd a).

Lemma insertNewest_sorted r l : StronglySorted newerOrEqual l -> StronglySorted newerOrEqual (insertNewest r l).
Proof.
  induction 1 as [|x l Hs IH Hx]; cbn; [by repeat constructor|].
  destruct (Z.ltb_spec (ml_sort_at (snd x)) (ml_sort_at (snd r))).
  - constructor; [by constructor|]. constructor; [unfold newerOrEqual; lia|].
    eapply Forall_impl; [exact Hx|]. unfold newerOrEqual. cbn. intros; lia.
  - constructor; [exact IH|]. rewrite insertNewest_perm. constructor; [unfold newerOrEqual; lia|exact Hx].
Qed.

Lemma newestFirst_spec l : newestFirst l ≡ₚ l /\ StronglySorted newerOrEqual (newestFirst l).
Proof.
  unfold newestFirst. assert (H : forall acc, StronglySorted newerOrEqual acc ->
    fold_left (fun sorted r => insertNewest r sorted) l acc ≡ₚ l ++ acc /\
    StronglySorted newerOrEqual (fold_left (fun sorted r => insertNewest r sorted) l acc)).
  { induction l as [|x l IH]; intros acc Hs; cbn; [done|].
    destruct (IH (insertNewest x acc) (insertNewest_sorted _ _ Hs)) as [Hp Hs']. split; [|done].
    rewrite Hp, insertNewest_perm. symmetry. apply Permutation_middle. }
  destruct (H [] (SSorted_nil _)) as [Hp Hs]. rewrite app_nil_r in Hp. done.
Qed.

Lemma find_sorted_first (p : nat * MeterLimitRow -> bool) l a :
  StronglySorted newerOrEqual l -> List.find p l = Some a ->
  forall b, b ∈ l -> p b = true -> newerOrEqual a b.
Proof.
  induction 1 as [|x l Hs IH Hx]; cbn; [done|]. destruct (p x) eqn:Hp.
  - intros [= ->] b [->|Hb]%elem_of_cons _; [unfold newerOrEqual; lia|].
    rewrite Forall_forall in Hx. by apply Hx.
  - intros Hf b [->|Hb]%elem_of_cons Hb'; [congruence|]. by apply IH.
Qed.

(** [newestFirst.find(base) ?? newestFirst[0]] *)
Definition chooseAnchor (paid : list (nat * MeterLimitRow)) : option (nat * MeterLimitRow) :=
  match List.find (fun r => isBase (snd r)) (newestFirst paid) with
  | Some r => Some r
  | None => head (newestFirst paid)
  end.

Lemma chooseAnchor_spec paid a : chooseAnchor paid = Some a ->
  a ∈ paid /\
  (isBase (snd a) = true \/ forall r, r ∈ paid -> isBase (snd r) = false) /\
  (forall r, r ∈ paid -> isBase (snd r) = isBase (snd a) -> newerOrEqual a r).
Proof.
  destruct (newestFirst_spec paid) as [Hp Hs]. unfold chooseAnchor.
  destruct (List.find _ _) as [r|] eqn:Hf.
  - intros [= ->]. pose proof (find_some _ _ Hf) as [Hin Hb]. split; [|split].
    + rewrite <- Hp. by apply list_elem_of_In.
    + by left.
    + intros r Hr Hrb. apply (find_sorted_first _ _ _ Hs Hf r); [by rewrite Hp|]. by rewrite Hrb.
  - intros Hh. assert (Hnone : forall r, r ∈ paid -> isBase (snd r) = false).
    { intros r Hr. apply (find_none _ _ Hf). apply list_elem_of_In. by rewrite Hp. }
    destruct (newestFirst paid) as [|x l] eqn:E; [done|]. injection Hh as ->.
    split; [rewrite <- Hp; constructor|]. split; [by right|].
    intros r Hr _. rewrite <- Hp in Hr. inversion Hs as [|? ? Hs' Hx]; subst.
    apply elem_of_cons in Hr as [->|Hr]; [unfold newerOrEqual; lia|].
    rewrite Forall_forall in Hx. by apply Hx.
Qed.

(** A loop that adds the quantities of the rows a test selects. *)
Lemma foldM_selected {A} (p : A -> bool) (f : A -> result Z) l b r :
  foldM (fun units row => if p row then u ← f row; Ok (units + u) else Ok units) l b = Ok r ->
  exists us, mapM f (List.filter p l) = Ok us /\ r = b + sumZ us.
Proof.
  revert b. induction l as [|a l IH]; intros b H; cbn in *.
  - inv_result. exists []. split; [done|]. cbn. lia.
  - apply bind_Ok in H as (b' & E & H). destruct (IH _ H) as (us & Hus & ->). destruct (p a).
    + apply bind_Ok in E as (u & Hu & E). injection E as <-. exists (u :: us). cbn. rewrite Hu, Hus. cbn.
      split; [done|]. lia.
    + injection E as <-. by exists us.
Qed.

Lemma filter_other_positions (q : MeterLimitRow -> bool) (k : nat) l (start : nat) :
  (k < start \/ start + length l <= k)%nat ->
  map snd (List.filter (fun r => (fst r =? k)%nat || q (snd r)) (imap (fun i x => (start + i, x)%nat) l))
  = List.filter q l.
Proof.
  revert start. induction l as [|x l IH]; intros start Hk; [done|].
  rewrite imap_cons. cbn [List.filter fst snd]. rewrite Nat.add_0_r.
  replace (start =? k)%nat with false by (symmetry; apply Nat.eqb_neq; cbn in *; lia). cbn [orb].
  assert (IH' : map snd (List.filter (fun r => (fst r =? k)%nat || q (snd r))
      (imap ((fun i x0 => (start + i, x0)%nat) ∘ S) l)) = List.filter q l).
  { rewrite <- (IH (S start)) by (cbn in *; lia). do 2 f_equal. apply imap_ext. intros. cbn. f_equal. lia. }
  destruct (q x); cbn [map]; by rewrite IH'.
Qed.

Lemma elem_of_positions {A} (l : list A) i x : (i, x) ∈ imap pair l -> l !! i = Some x.
Proof.
  intros (j & Hj)%list_elem_of_lookup. rewrite list_lookup_imap in Hj.
  destruct (l !! j) eqn:E; [|done]. by injection Hj as <- <-.
Qed.

Lemma positions_split {A} (pre post : list A) x :
  imap pair (pre ++ x :: post) =
  imap (fun i y => (0 + i, y)%nat) pre ++ (length pre, x) :: imap (fun i y => (S (length pre) + i, y)%nat) post.
Proof.
  rewrite imap_app, imap_cons, Nat.add_0_r. f_equal.
  f_equal. apply imap_ext. intros. cbn. f_equal. lia.
Qed.

Lemma mapM_snd (f : MeterLimitRow -> result Z) (l : list (nat * MeterLimitRow)) :
  mapM (fun r => f (snd r)) l = mapM f (map snd l).
Proof. induction l as [|a l IH]; cbn; [done|]. by rewrite IH. Qed.

(** a limit made of paying sources takes its window, policy and price from the
    newest base plan (or the newest source when no base plan limits the feature),
    and allows that source's quantity plus the quantity of each other add-on that
    can join it; a source with postpaid overage never sums. *)
Theorem combined_limit_quantity sources scale anchor q :
  existsb (fun r => isMeterLimit r && isPaid r) sources = true ->
  combineMeterLimits sources scale = Ok (Some (anchor, q)) ->
  exists pre post u us,
    List.filter isPaid (List.filter isMeterLimit sources) = pre ++ anchor :: post /\
    (isBase anchor = true \/ forall r, r ∈ pre ++ post -> isBase r = false) /\
    (forall r, r ∈ pre ++ post -> isBase r = isBase anchor -> ml_sort_at r <= ml_sort_at anchor) /\
    databaseUnits (ml_quantity anchor) "meter limit" scale = Ok u /\
    mapM (fun r => databaseUnits (ml_quantity r) "meter limit" scale)
      (List.filter (fun r => isAddon r && meterLimitsJoin anchor r) (pre ++ post)) = Ok us /\
    q = unitsToDecimal (u + sumZ us) scale /\
    (ml_overage_policy anchor = overage_allowed -> us = []).
Proof.
  intros Hpaid H. unfold combineMeterLimits in H.
  set (paid := List.filter isPaid (List.filter isMeterLimit sources)) in *.
  assert (Hne : imap pair paid <> []).
  { apply existsb_exists in Hpaid as (r & Hin & Hr). apply andb_prop in Hr as [Hm Hp].
    assert (In r paid) by (unfold paid; rewrite !filter_In; auto).
    destruct paid; [done|]. by rewrite imap_cons. }
  destruct (imap pair paid) as [|p0 ps] eqn:Eps; [done|]. rewrite <- Eps in H.
  fold (chooseAnchor (imap pair paid)) in H. destruct (chooseAnchor (imap pair paid)) as [[k a]|] eqn:Ha; [|done].
  cbn [fst snd] in H. apply bind_Ok in H as (units & E & H). injection H as <- <-.
  destruct (chooseAnchor_spec _ _ Ha) as (Hin & Hbase & Hnew). cbn in Hbase, Hnew.
  pose proof (elem_of_positions _ _ _ Hin) as Hk.
  apply list_elem_of_split_length in Hk as (pre & post & Hsplit & ->).
  apply foldM_selected in E as (us & Hus & ->).
  rewrite (mapM_snd (fun r => databaseUnits (ml_quantity r) "meter limit" scale)) in Hus.
  rewrite Hsplit, positions_split, List.filter_app, map_app in Hus. cbn [List.filter fst snd] in Hus.
  rewrite Nat.eqb_refl in Hus. cbn [orb map snd] in Hus.
  rewrite (filter_other_positions (fun r => isAddon r && meterLimitsJoin a r)) in Hus by lia.
  rewrite (filter_other_positions (fun r => isAddon r && meterLimitsJoin a r)) in Hus by lia.
  apply mapM_Ok_Forall2 in Hus. apply Forall2_app_inv_l in Hus as (us1 & us' & H1 & H2 & ->).
  inversion H2 as [|? u ? us2 Hu H2']; subst. clear H2.
  assert (Hin' : forall r, r ∈ pre ++ post -> exists i, (i, r) ∈ imap pair paid).
  { intros r Hr. assert (r ∈ paid) as (i & Hi)%list_elem_of_lookup.
    { rewrite Hsplit. apply elem_of_app. apply elem_of_app in Hr as [|]; [by left|right; by constructor]. }
    exists i. apply list_elem_of_lookup. exists i. by rewrite list_lookup_imap, Hi. }
  exists pre, post, u, (us1 ++ us2). split; [exact Hsplit|]. split; [|split; [|split; [|split; [|split]]]].
  - destruct Hbase as [|Hbase]; [by left|]. right. intros r Hr. destruct (Hin' r Hr) as [i Hi].
    by apply (Hbase (i, r)).
  - intros r Hr Hb. destruct (Hin' r Hr) as [i Hi]. by apply (Hnew (i, r)).
  - done.
  - apply mapM_Ok_Forall2. rewrite List.filter_app. by apply Forall2_app.
  - f_equal. rewrite !sumZ_app. cbn. lia.
  - intros Hov. assert (Hnil : forall l, List.filter (fun r => isAddon r && meterLimitsJoin a r) l = []).
    { clear -Hov. induction l as [|r l IH]; [done|]. cbn. unfold meterLimitsJoin at 1. rewrite Hov.
      rewrite bool_decide_eq_false_2 by done. by rewrite andb_false_r. }
    rewrite Hnil in H1, H2'. inversion H1. by inversion H2'.
Qed.

Definition exampleRow (sub : string) (kind : PlanKind) (quantity sortAt : Z) : MeterLimitRow :=
  {| ml_plan_item_id := 1; ml_item_kind := meter_limit; ml_subscription_id := Some sub;
     ml_plan_grant_id := None; ml_quantity := DbNumber quantity; ml_overage_policy := overage_blocked;
     ml_reset_interval := month; ml_reset_interval_count := 1; ml_billing_interval := Some month;
     ml_billing_interval_count := 1; ml_period_start_at := Some 0; ml_period_end_at := None;
     ml_plan_kind := kind; ml_allocation_scope := scope_account; ml_plan_key := sub; ml_plan_version := 1;
     ml_sort_at := sortAt |}.

Lemma combined_limit_quantity_witness :
  exists pre post u us,
    [exampleRow "a" addon 5 30; exampleRow "b" base 100 20; exampleRow "c" base 7 10]
      = pre ++ exampleRow "b" base 100 20 :: post /\
    (isBase (exampleRow "b" base 100 20) = true \/ forall r, r ∈ pre ++ post -> isBase r = false) /\
    (forall r, r ∈ pre ++ post -> isBase r = isBase (exampleRow "b" base 100 20) -> ml_sort_at r <= 20) /\
    databaseUnits (DbNumber 100) "meter limit" 0 = Ok u /\
    mapM (fun r => databaseUnits (ml_quantity r) "meter limit" 0)
      (List.filter (fun r => isAddon r && meterLimitsJoin (exampleRow "b" base 100 20) r) (pre ++ post)) = Ok us /\
    js "105" = unitsToDecimal (u + sumZ us) 0 /\
    (overage_blocked = overage_allowed -> us = []).
Proof.
  apply (combined_limit_quantity
    [exampleRow "a" addon 5 30; exampleRow "b" base 100 20; exampleRow "c" base 7 10] 0
    (exampleRow "b" base 100 20) (js "105")); vm_compute; reflexivity.
Defined.

(** ** Admission *)

Lemma meterLimitAllows_spec ml usage held scope balance quantity limit u h n :
  decimalToUnits (l_limit ml) (l_scale ml) = Ok limit ->
  databaseUnits usage "window usage" (l_scale ml) = Ok u ->
  databaseUnits held "window holds" (l_scale ml) = Ok h ->
  decimalToUnits quantity (l_scale ml) = Ok n -> 0 < n ->
  meterLimitBalance ml usage held scope = Ok balance ->
  exists allowed, meterLimitAllows ml balance quantity = Ok allowed /\
    (allowed = true <-> l_overagePolicy ml = overage_allowed \/ l_unlimited ml = true \/ u + h + n <= limit).
Proof.
  intros Hl Hu Hh Hn Hpos H. pose proof (decimalToUnits_scale _ _ _ Hl) as Hs.
  unfold meterLimitBalance in H. rewrite Hl, Hu, Hh in H. cbn [mbind result_bind] in H.
  unfold meterLimitAllows. destruct (l_unlimited ml) eqn:Hun.
  - rewrite orb_true_r. exists true. split; [done|]. tauto.
  - rewrite orb_false_r. case_bool_decide; [exists true; split; [done|tauto]|].
    assert (Hb : b_scale balance = l_scale ml /\
      b_available balance = Some (unitsToDecimal (availableUnits limit u h) (l_scale ml))).
    { destruct (l_planItemId ml); inv_result; by subst. }
    destruct Hb as [-> ->]. cbn [from_option id]. rewrite availableUnits_max, units_roundtrip by lia.
    cbn [mbind result_bind]. rewrite Hn. cbn [mbind result_bind]. eexists. split; [done|].
    rewrite Z.leb_le. split; [intros; right; right; lia|]. intros [|[|]]; [done|done|lia].
Qed.

(** the decision on a quantity against the balance of its window: a hard cap admits
    it exactly when it fits beside the usage and the holds, postpaid overage and
    unlimited usage admit every quantity, a refusal is [insufficient_balance] with the
    purchase actions offered, and the available quantity reported is what the cap
    leaves, never negative, even with usage past the cap. *)
Theorem meterLimit_admission ml usage held scope balance quantity actions limit u h n :
  decimalToUnits (l_limit ml) (l_scale ml) = Ok limit ->
  databaseUnits usage "window usage" (l_scale ml) = Ok u ->
  databaseUnits held "window holds" (l_scale ml) = Ok h ->
  decimalToUnits quantity (l_scale ml) = Ok n -> 0 < n ->
  meterLimitBalance ml usage held scope = Ok balance ->
  exists decision, checkMeterLimitFromBalance actions ml quantity balance = Ok decision /\
    (d_allowed decision = true <-> l_overagePolicy ml = overage_allowed \/ l_unlimited ml = true \/ u + h + n <= limit) /\
    (d_allowed decision = false ->
       d_reason decision = reason_insufficient_balance /\ d_eligiblePurchaseActions decision = actions) /\
    (l_unlimited ml = false ->
       b_available balance = Some (unitsToDecimal (Z.max 0 (limit - u - h)) (l_scale ml))).
Proof.
  intros Hl Hu Hh Hn Hpos Hb.
  destruct (meterLimitAllows_spec ml usage held scope balance quantity limit u h n Hl Hu Hh Hn Hpos Hb) as (al & Hal & Hiff).
  unfold checkMeterLimitFromBalance. rewrite Hal. eexists. split; [done|]. cbn [d_allowed d_reason d_eligiblePurchaseActions].
  split; [exact Hiff|]. split; [by destruct al|]. intros Hun. unfold meterLimitBalance in Hb.
  rewrite Hl, Hu, Hh, Hun in Hb. cbn [mbind result_bind] in Hb. rewrite <- availableUnits_max.
  destruct (l_planItemId ml); inv_result; by subst.
Qed.

Definition exampleLimitBalance : MeteringBalance :=
  {| b_featureKey := "tokens"; b_unit := "token"; b_scale := 0; b_granted := Some (js "10");
     b_consumed := js "4"; b_held := js "3"; b_available := Some (js "3"); b_unlimited := false;
     b_breakdown := []; b_scope := Some scope_account; b_windowStartAt := Some 0;
     b_windowEndAt := Some 1000 |}.

Lemma meterLimit_admission_witness :
  exists decision,
    checkMeterLimitFromBalance ["buy"%string] (exampleLimit false overage_blocked None) (js "4") exampleLimitBalance
      = Ok decision /\
    (d_allowed decision = true <-> overage_blocked = overage_allowed \/ false = true \/ 4 + 3 + 4 <= 10) /\
    (d_allowed decision = false ->
       d_reason decision = reason_insufficient_balance /\ d_eligiblePurchaseActions decision = ["buy"%string]) /\
    (false = false -> Some (js "3") = Some (unitsToDecimal (Z.max 0 (10 - 4 - 3)) 0)).
Proof.
  apply (meterLimit_admission (exampleLimit false overage_blocked None) (DbNumber 4) (DbText (js "3"))
    scope_account exampleLimitBalance (js "4") ["buy"%string] 10 4 3 4); [reflexivity ..|lia|vm_compute; reflexivity].
Defined.
