(* ===== verification/MeterScope.v ===== *)
(** * Usage windows of a meter limit ([src/db/repository/meter-limit-scope.ts],
    [metering-persistence.ts])

    The rows of [usage_windows] of one customer, feature and window bounds, the holds
    open reservations keep on them, and the writes that consume, reserve, confirm and
    release under a limit.  Every write holds the feature's spend lock until it
    commits, so a history is a sequence of whole writes; the database clock never
    runs back. *)
From S2P Require Import Prelude Text Decimal Pricing JsDate Cadence Windows Balances MeterLimits.

Record UsageWindow := { w_id : Z; w_entity : option Z; w_scope : option MeterLimitScope; w_usage : Z }.

Record LimitHold := {
  lh_id : Z; lh_window : Z; lh_entity : option Z; lh_requested : Z; lh_held : Z;
  lh_confirmed : option text; lh_status : ReservationStatus; lh_expires_at : Z }.

Record WindowStore := { ws_rows : list UsageWindow; ws_holds : list LimitHold; ws_clock : Z }.

(** ** Scope sets *)

Record MeterLimitScopeSelector := { sel_scope : MeterLimitScope; sel_entity : option Z }.

Definition meterLimitScopeSelector (scope : MeterLimitScope) (entity : option Z) : MeterLimitScopeSelector :=
  {| sel_scope := scope; sel_entity := match scope with scope_entity => entity | scope_account => None end |}.

(** [scopeSetSql] *)
Definition inScopeSet (sel : MeterLimitScopeSelector) (row : UsageWindow) : bool :=
  match sel_scope sel with
  | scope_account => true
  | scope_entity =>
      match sel_entity sel with
      | Some e => bool_decide (w_entity row = Some e)
      | None => bool_decide (w_entity row = None) &&
                match w_scope row with None => true | Some s => bool_decide (s = scope_entity) end
      end
  end.

Definition openHold (now : Z) (exclude : option Z) (h : LimitHold) : bool :=
  bool_decide (lh_status h = st_active) && (now <? lh_expires_at h) && negb (bool_decide (exclude = Some (lh_id h))).

Definition heldOn (s : WindowStore) (now : Z) (exclude : option Z) (row : UsageWindow) : Z :=
  sumZ (map lh_held (List.filter (fun h => openHold now exclude h && (lh_window h =? w_id row)) (ws_holds s))).

Definition governingMeterLimitScope (s : WindowStore) (now : Z) (declared : MeterLimitScope) : MeterLimitScope :=
  match declared with
  | scope_account => scope_account
  | scope_entity =>
      if existsb (fun row => bool_decide (w_scope row = Some scope_account) &&
            ((0 <? w_usage row) || existsb (fun h => openHold now None h && (lh_window h =? w_id row)) (ws_holds s)))
           (ws_rows s)
      then scope_account else scope_entity
  end.

(** The usage and the open holds a scope set counts. *)
Definition scopeUsage (s : WindowStore) (sel : MeterLimitScopeSelector) : Z :=
  sumZ (map w_usage (List.filter (inScopeSet sel) (ws_rows s))).
Definition scopeHeld (s : WindowStore) (sel : MeterLimitScopeSelector) (exclude : option Z) (now : Z) : Z :=
  sumZ (map (heldOn s now exclude) (List.filter (inScopeSet sel) (ws_rows s))).

Section Writes.
Context (ml : MeterLimitDecision).
Local Abbreviation scale := (l_scale ml).

(** [readScopeSetExposure]: the sums as the database prints them. *)
Definition readScopeSetExposure (s : WindowStore) (sel : MeterLimitScopeSelector) (exclude : option Z) (now : Z)
  : text * text :=
  (unitsToDecimal (scopeUsage s sel) scale, unitsToDecimal (scopeHeld s sel exclude now) scale).

Definition set_rows (s : WindowStore) (rows : list UsageWindow) : WindowStore :=
  {| ws_rows := rows; ws_holds := ws_holds s; ws_clock := ws_clock s |}.

Definition writeRow (sel : MeterLimitScopeSelector) (row : UsageWindow) : bool :=
  bool_decide (w_entity row = sel_entity sel) && bool_decide (w_scope row = Some (sel_scope sel)).

(** [upsertUsageWindow]; [fresh] is the id the database would generate. *)
Definition upsertUsageWindow (s : WindowStore) (sel : MeterLimitScopeSelector) (fresh : Z) : WindowStore * UsageWindow :=
  match List.find (writeRow sel) (ws_rows s) with
  | Some row => (s, row)
  | None =>
      let row := {| w_id := fresh; w_entity := sel_entity sel; w_scope := Some (sel_scope sel); w_usage := 0 |} in
      (set_rows s (ws_rows s ++ [row]), row)
  end.

Record LockedMeterLimitWindow := {
  lk_store : WindowStore; lk_window : UsageWindow; lk_selector : MeterLimitScopeSelector;
  lk_usage : text; lk_held : text; lk_decision : MeteringDecision }.

(** [lockMeterLimitWindow] *)
Definition lockMeterLimitWindow (s : WindowStore) (entity : option Z) (quantity : text) (fresh now : Z)
  : result LockedMeterLimitWindow :=
  _ ← assertMeterLimitScopeResolved ml;
  let sel := meterLimitScopeSelector (governingMeterLimitScope s now (l_scope ml)) entity in
  let '(s', window) := upsertUsageWindow s sel fresh in
  let '(usage, held) := readScopeSetExposure s' sel None now in
  balance ← meterLimitBalance ml (DbText usage) (DbText held) (sel_scope sel);
  decision ← checkMeterLimitFromBalance [] ml quantity balance;
  Ok {| lk_store := s'; lk_window := window; lk_selector := sel; lk_usage := usage; lk_held := held;
        lk_decision := decision |}.

Inductive WindowOutcome :=
  | WDenied (reason : DecisionReason)
  | WConsumed
  | WReserved (id : Z)
  | WFinalized (status : ReservationStatus).

Definition addUsage (id n : Z) (s : WindowStore) : WindowStore :=
  set_rows s (map (fun row => if w_id row =? id
    then {| w_id := w_id row; w_entity := w_entity row; w_scope := w_scope row; w_usage := w_usage row + n |}
    else row) (ws_rows s)).

(** The [WHERE] guard of the consuming [UPDATE], on the locked row alone. *)
Definition updateGuard (row : UsageWindow) (n limit : Z) : bool :=
  bool_decide (l_overagePolicy ml = overage_allowed) || l_unlimited ml || (w_usage row + n <=? limit).

(** The limit path of [consumeWithinTransaction]: a denied write still commits the row
    it upserted. *)
Definition consumeLimit (entity : option Z) (input : text) (controlsDeny : bool) (fresh now : Z) (s : WindowStore)
  : result (WindowStore * WindowOutcome) :=
  quantity ← positiveDecimal input "quantity" scale;
  locked ← lockMeterLimitWindow s entity quantity fresh now;
  let s' := lk_store locked in
  if negb (d_allowed (lk_decision locked)) then Ok (s', WDenied (d_reason (lk_decision locked)))
  else if controlsDeny then Ok (s', WDenied reason_control_limit_exceeded)
  else
    n ← decimalToUnits quantity scale;
    limit ← decimalToUnits (l_limit ml) scale;
    if updateGuard (lk_window locked) n limit then Ok (addUsage (w_id (lk_window locked)) n s', WConsumed)
    else Err (InternalError "Usage-window deduction lost its scope lock").

Definition set_limit_holds (s : WindowStore) (holds : list LimitHold) : WindowStore :=
  {| ws_rows := ws_rows s; ws_holds := holds; ws_clock := ws_clock s |}.

(** [reserveMeterLimit] *)
Definition reserveLimit (rid : Z) (entity : option Z) (input : text) (controlsDeny : bool) (expiresAt fresh now : Z)
  (s : WindowStore) : result (WindowStore * WindowOutcome) :=
  quantity ← positiveDecimal input "quantity" scale;
  locked ← lockMeterLimitWindow s entity quantity fresh now;
  let s' := lk_store locked in
  if negb (d_allowed (lk_decision locked)) then Ok (s', WDenied (d_reason (lk_decision locked)))
  else if controlsDeny then Ok (s', WDenied reason_control_limit_exceeded)
  else
    n ← decimalToUnits quantity scale;
    Ok (set_limit_holds s' (ws_holds s' ++
          [ {| lh_id := rid; lh_window := w_id (lk_window locked); lh_entity := entity; lh_requested := n;
               lh_held := n; lh_confirmed := None; lh_status := st_active; lh_expires_at := expiresAt |} ]),
        WReserved rid).

Definition findHold (s : WindowStore) (rid : Z) : option LimitHold :=
  List.find (fun h => lh_id h =? rid) (ws_holds s).

(** [UPDATE reservations SET status = ... WHERE id = ... AND status = 'active']. *)
Definition closeHold (rid : Z) (status : ReservationStatus) (confirmed : option text) (s : WindowStore) : WindowStore :=
  set_limit_holds s (map (fun h =>
    if (lh_id h =? rid) && bool_decide (lh_status h = st_active)
    then {| lh_id := lh_id h; lh_window := lh_window h; lh_entity := lh_entity h; lh_requested := lh_requested h;
            lh_held := lh_held h; lh_confirmed := confirmed; lh_status := status;
            lh_expires_at := lh_expires_at h |}
    else h) (ws_holds s)).

(** Whether a confirmation beyond its hold is refused. *)
Definition confirmBeyondHold (reserved confirmed : Z) (usage held : text) : result bool :=
  if reserved <? confirmed then
    used ← decimalToUnits usage scale;
    others ← decimalToUnits held scale;
    limit ← decimalToUnits (l_limit ml) scale;
    Ok (bool_decide (l_overagePolicy ml = overage_blocked) && negb (l_unlimited ml) &&
        (limit <? used + others + confirmed))
  else Ok false.

(** [confirmMeterLimitReservation], of a reservation whose window row keeps its bounds:
    a confirmation up to its hold settles, one beyond it is checked against everything
    else its scope set counts. *)
Definition confirmMeterLimitReservation (h : LimitHold) (quantity : text) (controlsDeny : bool) (now : Z)
  (s : WindowStore) : result (WindowStore * WindowOutcome) :=
  _ ← assertMeterLimitScopeResolved ml;
  let reserved := lh_held h in
  confirmed ← decimalToUnits quantity scale;
  let sel := meterLimitScopeSelector (governingMeterLimitScope s now (l_scope ml)) (lh_entity h) in
  let '(usage, held) := readScopeSetExposure s sel (Some (lh_id h)) now in
  beyond ← confirmBeyondHold reserved confirmed usage held;
  if (beyond : bool) then Ok (s, WDenied reason_insufficient_balance)
  else if controlsDeny then Ok (s, WDenied reason_control_limit_exceeded)
  else Ok (closeHold (lh_id h) st_confirmed (Some quantity) (addUsage (lh_window h) confirmed s), WFinalized st_confirmed).

(** [confirmWithinTransaction] on a reservation of a limit. *)
Definition confirmLimit (rid : Z) (input : text) (controlsDeny : bool) (now : Z) (s : WindowStore)
  : result (WindowStore * WindowOutcome) :=
  match findHold s rid with
  | None => Err (BillingErr "Reservation was not found" "RESERVATION_NOT_FOUND" 404)
  | Some h =>
      quantity ← positiveDecimal input "quantity" scale;
      match lh_status h with
      | st_confirmed =>
          if bool_decide (lh_confirmed h = Some quantity) then Ok (s, WFinalized st_confirmed)
          else Err (BillingErr "Reservation was confirmed with different usage facts" "RESERVATION_ALREADY_CONFIRMED" 409)
      | st_expired => Ok (s, WFinalized st_expired)
      | st_released => Err (BillingErr "Reservation has been released" "RESERVATION_RELEASED" 409)
      | st_active =>
          if lh_expires_at h <=? now then Ok (closeHold rid st_expired None s, WFinalized st_expired)
          else
            wanted ← decimalToUnits quantity scale;
            _ ← throwWhen (lh_requested h <? wanted)
                  (BillingErr "Confirmed quantity exceeds the reserved authorization" "RESERVATION_QUANTITY_EXCEEDED" 409);
            confirmMeterLimitReservation h quantity controlsDeny now s
      end
  end.

(** [releaseWithinTransaction] on a reservation of a limit, which has no allocation
    rows to give back: its hold stops counting. *)
Definition releaseLimit (rid now : Z) (s : WindowStore) : result (WindowStore * WindowOutcome) :=
  match findHold s rid with
  | None => Err (BillingErr "Reservation was not found" "RESERVATION_NOT_FOUND" 404)
  | Some h =>
      match lh_status h with
      | st_active =>
          let status := if lh_expires_at h <=? now then st_expired else st_released in
          Ok (closeHold rid status None s, WFinalized status)
      | other => Ok (s, WFinalized other)
      end
  end.
End Writes.

(** ** Exposure *)

(** What a scope set counts now: usage and open holds. *)
Definition exposure (s : WindowStore) (sel : MeterLimitScopeSelector) (exclude : option Z) (now : Z) : Z :=
  scopeUsage s sel + scopeHeld s sel exclude now.

Definition rowExposure (s : WindowStore) (exclude : option Z) (now : Z) (row : UsageWindow) : Z :=
  w_usage row + heldOn s now exclude row.

Lemma exposure_rows s sel exclude now :
  exposure s sel exclude now = sumZ (map (rowExposure s exclude now) (List.filter (inScopeSet sel) (ws_rows s))).
Proof. unfold exposure, scopeUsage, scopeHeld, rowExposure. by rewrite sumZ_map_add. Qed.

(** A scope set whose rows each count more by what one row gained. *)
Lemma sum_bump (f : UsageWindow -> Z) (p : UsageWindow -> bool) rows row n :
  NoDup (map w_id rows) -> row ∈ rows ->
  sumZ (map (fun r => f r + (if w_id r =? w_id row then n else 0)) (List.filter p rows))
    = sumZ (map f (List.filter p rows)) + (if p row then n else 0).
Proof.
  intros Hnd Hrow. rewrite sumZ_map_add. f_equal. revert Hnd Hrow.
  induction rows as [|r rows IH]; intros Hnd Hrow; [by apply elem_of_nil in Hrow|].
  cbn in Hnd. apply NoDup_cons in Hnd as [Hr Hnd]. cbn [List.filter].
  apply elem_of_cons in Hrow as [<-|Hrow].
  - assert (Hz : sumZ (map (fun r => if w_id r =? w_id row then n else 0) (List.filter p rows)) = 0).
    { clear IH Hnd. induction rows as [|x rows IH]; [done|]. cbn in *. apply not_elem_of_cons in Hr as [Hx Hr].
      specialize (IH Hr). destruct (p x); cbn; [|done].
      replace (w_id x =? w_id row) with false by (symmetry; apply Z.eqb_neq; congruence). done. }
    destruct (p row); cbn; [rewrite Z.eqb_refl, Hz; lia|done].
  - specialize (IH Hnd Hrow). assert (Hne : (w_id r =? w_id row) = false).
    { apply Z.eqb_neq. intros Heq. apply Hr. rewrite Heq. by apply list_elem_of_fmap_2. }
    destruct (p r); cbn; [rewrite Hne; lia|done].
Qed.

Lemma openHold_later now now' exclude h : now <= now' -> openHold now' exclude h = true -> openHold now exclude h = true.
Proof.
  unfold openHold. intros Hle H. bool_to_prop. repeat match goal with H : _ = true |- _ => rewrite H end.
  rewrite (proj2 (Z.ltb_lt _ _)) by lia. by rewrite H0.
Qed.

Lemma openHold_exclude now rid h : openHold now (Some rid) h = openHold now None h && negb (lh_id h =? rid).
Proof.
  unfold openHold. rewrite (bool_decide_eq_false_2 (None = _)) by done. rewrite andb_true_r. f_equal. f_equal.
  destruct (Z.eqb_spec (lh_id h) rid) as [->|]; [by rewrite bool_decide_eq_true_2|].
  by rewrite bool_decide_eq_false_2 by congruence.
Qed.

Lemma heldOn_later s now now' exclude row : now <= now' -> Forall (fun h => 0 <= lh_held h) (ws_holds s) ->
  heldOn s now' exclude row <= heldOn s now exclude row.
Proof.
  intros Hle. unfold heldOn. induction 1 as [|h l Hh _ IH]; cbn; [lia|].
  pose proof (openHold_later now now' exclude h Hle) as Hopen.
  destruct (openHold now' exclude h), (openHold now exclude h), (lh_window h =? w_id row); cbn; try lia;
    by specialize (Hopen eq_refl).
Qed.

Lemma exposure_later s sel now now' : now <= now' -> Forall (fun h => 0 <= lh_held h) (ws_holds s) ->
  exposure s sel None now' <= exposure s sel None now.
Proof.
  intros Hle Hh. rewrite !exposure_rows. apply sumZ_map_le. intros row _.
  unfold rowExposure. pose proof (heldOn_later s now now' None row Hle Hh). lia.
Qed.

(** Closing a reservation leaves what the others count. *)
Lemma heldOn_closed rid status confirmed s now row : status <> st_active ->
  heldOn (closeHold rid status confirmed s) now None row = heldOn s now (Some rid) row.
Proof.
  intros Hst. unfold heldOn, closeHold, set_limit_holds. cbn. induction (ws_holds s) as [|h l IH]; [done|]. cbn.
  rewrite openHold_exclude. destruct (Z.eqb_spec (lh_id h) rid) as [Heq|Hne]; cbn [andb negb].
  - rewrite andb_false_r. cbn [andb]. destruct (decide (lh_status h = st_active)) as [Ha|Ha].
    + rewrite (bool_decide_eq_true_2 _ Ha). unfold openHold at 1. cbn [lh_status].
      rewrite (bool_decide_eq_false_2 (status = st_active)) by done. exact IH.
    + rewrite (bool_decide_eq_false_2 _ Ha). unfold openHold at 1.
      rewrite (bool_decide_eq_false_2 _ Ha). exact IH.
  - rewrite andb_true_r. destruct (openHold now None h && (lh_window h =? w_id row)); cbn; by rewrite IH.
Qed.

Lemma heldOn_excluded s now rid row : Forall (fun h => 0 <= lh_held h) (ws_holds s) ->
  heldOn s now (Some rid) row <= heldOn s now None row.
Proof.
  unfold heldOn. induction 1 as [|h l Hh _ IH]; cbn; [lia|]. rewrite openHold_exclude.
  destruct (openHold now None h), (lh_id h =? rid), (lh_window h =? w_id row); cbn; lia.
Qed.

Lemma heldOn_exclude s now rid h row : Forall (fun h => 0 <= lh_held h) (ws_holds s) ->
  findHold s rid = Some h -> lh_status h = st_active -> now < lh_expires_at h ->
  heldOn s now (Some rid) row + (if lh_window h =? w_id row then lh_held h else 0) <= heldOn s now None row.
Proof.
  intros Hall Hf Hact Hexp. pose proof (heldOn_excluded s now rid row Hall) as Hle. revert Hall Hf Hle.
  unfold heldOn, findHold. induction (ws_holds s) as [|x l IH]; [done|]. intros Hall Hf Hle.
  apply Forall_cons in Hall as [Hx Hl]. cbn in Hf. cbn [List.filter]. rewrite openHold_exclude.
  assert (Hrest : sumZ (map lh_held (List.filter (fun h => openHold now (Some rid) h && (lh_window h =? w_id row)) l))
    <= sumZ (map lh_held (List.filter (fun h => openHold now None h && (lh_window h =? w_id row)) l)))
    by exact (heldOn_excluded {| ws_rows := []; ws_holds := l; ws_clock := 0 |} now rid row Hl).
  destruct (Z.eqb_spec (lh_id x) rid) as [Heq|Hne].
  - injection Hf as ->. assert (Hopen : openHold now None h = true).
    { unfold openHold. rewrite (bool_decide_eq_true_2 _ Hact), (proj2 (Z.ltb_lt _ _) Hexp). by rewrite bool_decide_eq_false_2. }
    rewrite Hopen. cbn. destruct (lh_window h =? w_id row); cbn; lia.
  - specialize (IH Hl Hf Hrest). rewrite andb_true_r.
    destruct (openHold now None x && (lh_window x =? w_id row)); cbn; lia.
Qed.

(** ** A hard cap *)

Section HardCap.
Context (ml : MeterLimitDecision) (limit : Z).
Local Abbreviation scale := (l_scale ml).
Hypothesis Hblocked : l_overagePolicy ml = overage_blocked.
Hypothesis Hfinite : l_unlimited ml = false.
Hypothesis Hlimit : decimalToUnits (l_limit ml) scale = Ok limit.

(** The scope set usage of an entity counts in. *)
Definition setOf (entity : option Z) : MeterLimitScopeSelector := meterLimitScopeSelector (l_scope ml) entity.

Definition row_ok (row : UsageWindow) : Prop :=
  0 <= w_usage row /\ w_scope row = Some (l_scope ml) /\ (l_scope ml = scope_account -> w_entity row = None).

Record cap_inv (s : WindowStore) (now : Z) : Prop := {
  cap_ids : NoDup (map w_id (ws_rows s));
  cap_rows : Forall row_ok (ws_rows s);
  cap_holds : Forall (fun h => 0 <= lh_held h /\ exists row, row ∈ ws_rows s /\ w_id row = lh_window h /\
                               w_entity row = sel_entity (setOf (lh_entity h))) (ws_holds s);
  cap_limit : forall entity, exposure s (setOf entity) None now <= limit }.

Lemma cap_held s now : cap_inv s now -> Forall (fun h => 0 <= lh_held h) (ws_holds s).
Proof. intros H. eapply Forall_impl; [exact (cap_holds s now H)|]. by intros h [? _]. Qed.

Lemma inScopeSet_row entity row : row_ok row ->
  inScopeSet (setOf entity) row = bool_decide (w_entity row = sel_entity (setOf entity)).
Proof.
  intros (_ & Hs & Ha). unfold inScopeSet, setOf, meterLimitScopeSelector. cbn.
  destruct (l_scope ml); [by rewrite Ha, bool_decide_eq_true_2|].
  destruct entity; [done|]. rewrite Hs, (bool_decide_eq_true_2 (scope_entity = scope_entity)) by done.
  rewrite andb_true_r. by apply bool_decide_ext.
Qed.

Lemma governing_declared s now : Forall row_ok (ws_rows s) -> governingMeterLimitScope s now (l_scope ml) = l_scope ml.
Proof.
  unfold governingMeterLimitScope. destruct (l_scope ml) eqn:Hd; [done|]. intros Hrows.
  replace (existsb _ (ws_rows s)) with false; [done|]. symmetry.
  induction Hrows as [|row rows (_ & Hs & _) _ IH]; [done|]. cbn. rewrite Hs, Hd.
  rewrite (bool_decide_eq_false_2 (Some scope_entity = _)) by done. exact IH.
Qed.

Lemma cap_later s now now' : now <= now' -> cap_inv s now -> cap_inv s now'.
Proof.
  intros Hle H. pose proof (cap_held s now H) as Hh. destruct H as [H1 H2 H3 H4]. constructor; try done.
  intros entity. pose proof (exposure_later s (setOf entity) now now' Hle Hh). specialize (H4 entity). lia.
Qed.

Lemma setOf_same e e' row : row_ok row -> w_entity row = sel_entity (setOf e) ->
  inScopeSet (setOf e') row = true -> setOf e' = setOf e.
Proof.
  intros Hok He. rewrite inScopeSet_row by done. intros H%bool_decide_eq_true_1. unfold setOf, meterLimitScopeSelector in *.
  cbn in *. destruct (l_scope ml); [done|]. congruence.
Qed.

(** The upserted row counts nothing yet. *)
Lemma upsert_spec s now entity fresh s' row : cap_inv s now -> fresh ∉ map w_id (ws_rows s) ->
  upsertUsageWindow s (setOf entity) fresh = (s', row) ->
  cap_inv s' now /\ row ∈ ws_rows s' /\ w_entity row = sel_entity (setOf entity) /\ ws_clock s' = ws_clock s.
Proof.
  intros Hinv Hfresh H. unfold upsertUsageWindow in H. destruct (List.find _ _) as [r|] eqn:Hf.
  - injection H as <- <-. pose proof (find_some _ _ Hf) as [Hin Hw]. unfold writeRow in Hw.
    apply andb_prop in Hw as [Hw _]. split; [done|]. split; [by apply list_elem_of_In|].
    by apply bool_decide_eq_true_1 in Hw.
  - pose proof Hinv as [H1 H2 H3 H4].
    match type of H with (set_rows _ (_ ++ [?r]), _) = _ => set (row0 := r) in H end.
    assert (Hnew : w_id row0 = fresh /\ w_usage row0 = 0 /\ w_entity row0 = sel_entity (setOf entity) /\
      w_scope row0 = Some (l_scope ml)) by done.
    clearbody row0. destruct Hnew as (Hid0 & Hu0 & He0 & Hs0). injection H as <- <-. rename row0 into row.
    assert (Hok : row_ok row).
    { unfold row_ok. split; [lia|]. split; [done|]. intros Hd. rewrite He0. unfold setOf, meterLimitScopeSelector. by rewrite Hd. }
    split; [|split; [apply elem_of_app; right; constructor|done] ]. constructor; [cbn|cbn|cbn|].
    + rewrite map_app. apply NoDup_app. split; [done|]. split; [|apply NoDup_singleton].
      intros i Hi Hin%list_elem_of_singleton. subst i. by rewrite Hid0 in Hi.
    + apply Forall_app. split; [done|]. by constructor.
    + eapply Forall_impl; [exact H3|]. intros h (Hh & r & Hr & Hrest). split; [done|]. exists r.
      split; [apply elem_of_app; by left|done].
    + intros e. rewrite exposure_rows. change (ws_rows (set_rows s (ws_rows s ++ [row]))) with (ws_rows s ++ [row]).
      rewrite List.filter_app, map_app, sumZ_app.
      specialize (H4 e). rewrite exposure_rows in H4.
      assert (Hz : sumZ (map (rowExposure (set_rows s (ws_rows s ++ [row])) None now)
                      (List.filter (inScopeSet (setOf e)) [row])) = 0).
      { cbn. destruct (inScopeSet (setOf e) row); [|done]. cbn. unfold rowExposure, heldOn. rewrite Hu0. cbn.
        rewrite (filter_none _ (ws_holds s)); [done|]. intros h Hh. rewrite Forall_forall in H3.
        destruct (H3 h Hh) as (_ & r & Hr & Hid & _).
        rewrite Hid0. replace (lh_window h =? fresh) with false; [by rewrite andb_false_r|].
        symmetry. apply Z.eqb_neq. intros <-. apply Hfresh. rewrite <- Hid. by apply list_elem_of_fmap_2. }
      etransitivity; [|exact H4]. rewrite Hz, Z.add_0_r. done.
Qed.

Lemma scale_nonneg : 0 <= scale.
Proof. exact (decimalToUnits_scale _ _ _ Hlimit). Qed.

Lemma exposure_nonneg s now entity : cap_inv s now ->
  0 <= scopeUsage s (setOf entity) /\ 0 <= scopeHeld s (setOf entity) None now.
Proof.
  intros [_ Hr Hh _]. split; apply sumZ_nonneg, Forall_map, Forall_forall.
  - intros row Hrow. apply list_elem_of_In, filter_In in Hrow as [Hin%list_elem_of_In _].
    rewrite Forall_forall in Hr. exact (proj1 (Hr row Hin)).
  - intros row _. apply sumZ_nonneg, Forall_map, Forall_forall. intros h Hin.
    apply list_elem_of_In, filter_In in Hin as [Hin%list_elem_of_In _].
    rewrite Forall_forall in Hh. by destruct (Hh h Hin).
Qed.

(** What the lock decides: exactly whether the quantity fits under the cap. *)
Lemma lock_spec s now entity quantity n fresh lk : cap_inv s now -> fresh ∉ map w_id (ws_rows s) ->
  decimalToUnits quantity scale = Ok n -> 0 < n ->
  lockMeterLimitWindow ml s entity quantity fresh now = Ok lk ->
  cap_inv (lk_store lk) now /\ lk_window lk ∈ ws_rows (lk_store lk) /\
  w_entity (lk_window lk) = sel_entity (setOf entity) /\ ws_clock (lk_store lk) = ws_clock s /\
  (d_allowed (lk_decision lk) = true <-> exposure (lk_store lk) (setOf entity) None now + n <= limit).
Proof.
  intros Hinv Hfresh Hn Hpos H. unfold lockMeterLimitWindow in H. apply bind_Ok in H as (u & _ & H).
  rewrite governing_declared in H by exact (cap_rows s now Hinv). fold (setOf entity) in H.
  destruct (upsertUsageWindow s (setOf entity) fresh) as [s' row] eqn:Hup.
  destruct (upsert_spec s now entity fresh s' row Hinv Hfresh Hup) as (Hinv' & Hrow & He & Hclock).
  unfold readScopeSetExposure in H. apply bind_Ok in H as (balance & Hb & H).
  apply bind_Ok in H as (decision & Hd & H). injection H as <-. cbn.
  repeat (split; [done|]). destruct (exposure_nonneg s' now entity Hinv') as [H1 H2].
  pose proof scale_nonneg as Hsc.
  destruct (meterLimitAllows_spec ml _ _ _ balance quantity limit (scopeUsage s' (setOf entity))
    (scopeHeld s' (setOf entity) None now) n Hlimit
    (databaseUnits_units _ _ _ H1 Hsc) (databaseUnits_units _ _ _ H2 Hsc) Hn Hpos Hb) as (allowed & Hal & Hiff).
  unfold checkMeterLimitFromBalance in Hd. rewrite Hal in Hd. injection Hd as <-. cbn [d_allowed].
  rewrite Hiff, Hblocked, Hfinite. unfold exposure.
  split; [intros [|[|]]; [done|done|lia]|intros; right; right; lia].
Qed.

Lemma addUsage_rows id n s rows : ws_rows s = rows -> Forall row_ok rows -> 0 <= n ->
  map w_id (ws_rows (addUsage id n s)) = map w_id rows /\ Forall row_ok (ws_rows (addUsage id n s)).
Proof.
  intros Hrows Hok Hn. unfold addUsage. cbn. rewrite Hrows. split.
  - rewrite map_map. apply map_ext. intros r. by destruct (_ =? _).
  - apply Forall_map, Forall_forall. intros r Hr. rewrite Forall_forall in Hok. specialize (Hok r Hr).
    destruct (_ =? _); [|done]. destruct Hok as (? & ? & ?). unfold row_ok. cbn. split; [lia|done].
Qed.

Lemma filter_addUsage sel id n s :
  List.filter (inScopeSet sel) (ws_rows (addUsage id n s)) =
  map (fun r => if w_id r =? id
    then {| w_id := w_id r; w_entity := w_entity r; w_scope := w_scope r; w_usage := w_usage r + n |} else r)
    (List.filter (inScopeSet sel) (ws_rows s)).
Proof.
  unfold addUsage. cbn. induction (ws_rows s) as [|r l IH]; [done|]. cbn.
  destruct (w_id r =? id) eqn:E; [change (inScopeSet sel {| w_id := w_id r; w_entity := w_entity r; w_scope := w_scope r; w_usage := w_usage r + n |}) with (inScopeSet sel r)|];
    destruct (inScopeSet sel r); cbn; rewrite ?E, IH; done.
Qed.

(** Usage added to a row counts in the scope sets the row is in. *)
Lemma exposure_addUsage s now sel exclude row n : NoDup (map w_id (ws_rows s)) -> row ∈ ws_rows s ->
  exposure (addUsage (w_id row) n s) sel exclude now
    = exposure s sel exclude now + (if inScopeSet sel row then n else 0).
Proof.
  intros Hnd Hrow. rewrite !exposure_rows, filter_addUsage, map_map.
  rewrite <- (sum_bump (rowExposure s exclude now) (inScopeSet sel) _ row n Hnd Hrow). f_equal. apply map_ext.
  intros r. unfold rowExposure, heldOn. cbn. destruct (w_id r =? w_id row); cbn; lia.
Qed.

(** What of the invariant does not mention the cap. *)
Definition store_ok (s : WindowStore) : Prop :=
  NoDup (map w_id (ws_rows s)) /\ Forall row_ok (ws_rows s) /\
  Forall (fun h => 0 <= lh_held h /\ exists row, row ∈ ws_rows s /\ w_id row = lh_window h /\
                   w_entity row = sel_entity (setOf (lh_entity h))) (ws_holds s).

Lemma cap_store s now : cap_inv s now -> store_ok s.
Proof. by intros []. Qed.

Lemma store_addUsage s id n : store_ok s -> 0 <= n -> store_ok (addUsage id n s).
Proof.
  intros (H1 & H2 & H3) Hn. destruct (addUsage_rows id n s _ eq_refl H2 Hn) as [Hids Hok].
  split; [by rewrite Hids|]. split; [done|].
  eapply Forall_impl; [exact H3|]. intros h (Hh & r & Hr & Hid & Hre). split; [done|].
  eexists. split; [unfold addUsage; cbn; by apply list_elem_of_fmap_2, Hr|]. by destruct (w_id r =? _).
Qed.

Lemma exposure_closed rid status confirmed s sel now : status <> st_active ->
  exposure (closeHold rid status confirmed s) sel None now = exposure s sel (Some rid) now.
Proof.
  intros Hst. rewrite !exposure_rows. f_equal. apply map_ext. intros row. unfold rowExposure. by rewrite heldOn_closed.
Qed.

Lemma store_closed rid status confirmed s now : status <> st_active -> store_ok s ->
  (forall e, exposure s (setOf e) (Some rid) now <= limit) -> cap_inv (closeHold rid status confirmed s) now.
Proof.
  intros Hst (H1 & H2 & H3) H4. constructor; [done|done| |intros e; by rewrite exposure_closed].
  cbn. apply Forall_map. eapply Forall_impl; [exact H3|]. intros h Hh. by destruct (_ && _).
Qed.

Lemma close_cap rid status confirmed s now : status <> st_active -> cap_inv s now ->
  cap_inv (closeHold rid status confirmed s) now.
Proof.
  intros Hst H. apply store_closed; [done|exact (cap_store s now H)|]. intros e.
  transitivity (exposure s (setOf e) None now); [|apply (cap_limit s now H)].
  rewrite !exposure_rows. apply sumZ_map_le. intros row _. unfold rowExposure.
  pose proof (heldOn_excluded s now rid row (cap_held s now H)). lia.
Qed.

Lemma consume_cap s now entity input deny fresh s' out : cap_inv s now -> fresh ∉ map w_id (ws_rows s) ->
  consumeLimit ml entity input deny fresh now s = Ok (s', out) -> cap_inv s' now /\ ws_clock s' = ws_clock s.
Proof.
  intros Hinv Hfresh H. unfold consumeLimit in H. apply bind_Ok in H as (q & Hq & H).
  apply bind_Ok in H as (lk & Hlk & H).
  destruct (positiveDecimal_units _ _ _ _ Hq) as (n & Hn & Hpos).
  destruct (lock_spec s now entity q n fresh lk Hinv Hfresh Hn Hpos Hlk) as (Hinv' & Hrow & He & Hclock & Hiff).
  destruct (d_allowed (lk_decision lk)) eqn:Hal; cbn [negb] in H; [|by injection H as <- _].
  destruct deny; [by injection H as <- _|]. rewrite Hn in H. cbn [mbind result_bind] in H.
  apply bind_Ok in H as (l & _ & H). destruct (updateGuard _ _ _ _); [|done]. injection H as <- _.
  split; [|exact Hclock].
  destruct (store_addUsage _ (w_id (lk_window lk)) n (cap_store _ _ Hinv') ltac:(lia)) as (H1 & H2 & H3).
  constructor; [done|done|done|]. intros e. rewrite exposure_addUsage by (exact (cap_ids _ _ Hinv') || done).
  pose proof (cap_limit _ _ Hinv' e). destruct (inScopeSet (setOf e) (lk_window lk)) eqn:Hin; [|lia].
  rewrite (setOf_same entity e (lk_window lk)); [by apply Hiff| |done|done].
  pose proof (cap_rows _ _ Hinv') as Hok. rewrite Forall_forall in Hok. by apply Hok.
Qed.

(** A new hold counts on its own row. *)
Lemma heldOn_append s now holds h row :
  heldOn (set_limit_holds s (holds ++ [h])) now None row
    <= heldOn (set_limit_holds s holds) now None row + (if w_id row =? lh_window h then Z.max 0 (lh_held h) else 0).
Proof.
  unfold heldOn, set_limit_holds. cbn. rewrite List.filter_app, map_app, sumZ_app. cbn.
  rewrite (Z.eqb_sym (lh_window h)). destruct (openHold now None h), (w_id row =? lh_window h);
    cbn [andb map sumZ]; lia.
Qed.

Lemma reserve_cap rid s now entity input deny expires fresh s' out :
  cap_inv s now -> fresh ∉ map w_id (ws_rows s) ->
  reserveLimit ml rid entity input deny expires fresh now s = Ok (s', out) -> cap_inv s' now /\ ws_clock s' = ws_clock s.
Proof.
  intros Hinv Hfresh H. unfold reserveLimit in H. apply bind_Ok in H as (q & Hq & H).
  apply bind_Ok in H as (lk & Hlk & H).
  destruct (positiveDecimal_units _ _ _ _ Hq) as (n & Hn & Hpos).
  destruct (lock_spec s now entity q n fresh lk Hinv Hfresh Hn Hpos Hlk) as (Hinv' & Hrow & He & Hclock & Hiff).
  destruct (d_allowed (lk_decision lk)) eqn:Hal; cbn [negb] in H; [|by injection H as <- _].
  destruct deny; [by injection H as <- _|]. rewrite Hn in H. cbn [mbind result_bind] in H. injection H as <- _.
  split; [|exact Hclock]. destruct lk as [st win sel us hd dec]. cbn in *.
  pose proof Hinv' as [H1 H2 H3 H4]. constructor; [done|done| |].
  - cbn. apply Forall_app. split; [done|]. apply Forall_singleton. cbn. split; [lia|]. by exists win.
  - intros e. specialize (H4 e). rewrite exposure_rows in H4 |- *. cbn [ws_rows set_limit_holds].
    match goal with |- context [_ ++ [?h] ] => set (hold := h) in *; assert (Hw : lh_window hold = w_id win) by done;
      assert (Hheld : lh_held hold = n) by done end. clearbody hold.
    etransitivity; [apply (sumZ_map_le _ (fun r => rowExposure st None now r + (if w_id r =? w_id win then n else 0)))|].
    + intros row _. unfold rowExposure. pose proof (heldOn_append st now (ws_holds st) hold row) as Ha.
      rewrite Hw, Hheld, Z.max_r in Ha by lia. destruct st. cbn in Ha |- *. lia.
    + rewrite sum_bump by done. destruct (inScopeSet (setOf e) win) eqn:Hin; [|lia].
      rewrite Forall_forall in H2. rewrite <- exposure_rows, (setOf_same entity e win); auto.
      by apply Hiff.
Qed.

Lemma findHold_ok s now rid h : cap_inv s now -> findHold s rid = Some h ->
  lh_id h = rid /\ 0 <= lh_held h /\
  exists row, row ∈ ws_rows s /\ w_id row = lh_window h /\ w_entity row = sel_entity (setOf (lh_entity h)).
Proof.
  intros Hinv Hf. unfold findHold in Hf. apply find_some in Hf as [Hin Hid%Z.eqb_eq].
  pose proof (cap_holds _ _ Hinv) as Hall. rewrite Forall_forall in Hall.
  split; [done|]. exact (Hall h (proj2 (list_elem_of_In _ _) Hin)).
Qed.

(** Without an open reservation its set counts at most what it counted, less the hold. *)
Lemma exposure_without s now rid h row sel : cap_inv s now -> findHold s rid = Some h ->
  lh_status h = st_active -> now < lh_expires_at h -> row ∈ ws_rows s -> w_id row = lh_window h ->
  exposure s sel (Some rid) now + (if inScopeSet sel row then lh_held h else 0) <= exposure s sel None now.
Proof.
  intros Hinv Hf Hst Hexp Hrow Hid. rewrite !exposure_rows, <- (sum_bump _ _ (ws_rows s)) by (done || apply Hinv).
  apply sumZ_map_le. intros r _. unfold rowExposure.
  pose proof (heldOn_exclude s now rid h r (cap_held s now Hinv) Hf Hst Hexp) as H.
  rewrite <- Hid in H. rewrite (Z.eqb_sym (w_id r)). lia.
Qed.

Lemma exposure_excluded_nonneg s now rid entity : cap_inv s now ->
  0 <= scopeUsage s (setOf entity) /\ 0 <= scopeHeld s (setOf entity) (Some rid) now.
Proof.
  intros Hinv. split; [exact (proj1 (exposure_nonneg s now entity Hinv))|].
  apply sumZ_nonneg, Forall_map, Forall_forall. intros row _. apply sumZ_nonneg, Forall_map, Forall_forall.
  intros h Hin. apply list_elem_of_In, filter_In in Hin as [Hin%list_elem_of_In _].
  pose proof (cap_held s now Hinv) as Hh. rewrite Forall_forall in Hh. by apply Hh.
Qed.

(** What a confirmation that goes through adds fits under the cap. *)
Lemma confirm_fits s now h quantity n : cap_inv s now -> findHold s (lh_id h) = Some h ->
  lh_status h = st_active -> now < lh_expires_at h ->
  confirmBeyondHold ml (lh_held h) n
    (fst (readScopeSetExposure ml s (setOf (lh_entity h)) (Some (lh_id h)) now))
    (snd (readScopeSetExposure ml s (setOf (lh_entity h)) (Some (lh_id h)) now)) = Ok false ->
  decimalToUnits quantity scale = Ok n ->
  exposure s (setOf (lh_entity h)) (Some (lh_id h)) now + n <= limit.
Proof.
  intros Hinv Hf Hst Hexp H Hn. destruct (findHold_ok s now _ h Hinv Hf) as (_ & Hheld & row & Hrow & Hid & He).
  destruct (exposure_excluded_nonneg s now (lh_id h) (lh_entity h) Hinv) as [H1 H2]. pose proof scale_nonneg.
  unfold confirmBeyondHold in H. destruct (Z.ltb_spec (lh_held h) n) as [Hlt|Hle].
  - cbn [fst snd readScopeSetExposure] in H. rewrite !units_roundtrip, Hlimit in H by lia. cbn [mbind result_bind] in H.
    rewrite (bool_decide_eq_true_2 _ Hblocked), Hfinite in H. injection H as H. cbn in H.
    apply Z.ltb_ge in H. unfold exposure. lia.
  - pose proof (exposure_without s now _ h row (setOf (lh_entity h)) Hinv Hf Hst Hexp Hrow Hid) as Hw.
    pose proof (cap_limit _ _ Hinv (lh_entity h)). rewrite inScopeSet_row, (bool_decide_eq_true_2 _ He) in Hw; [lia|].
    pose proof (cap_rows _ _ Hinv) as Hok. rewrite Forall_forall in Hok. by apply Hok.
Qed.

Lemma confirm_cap rid s now input deny s' out : cap_inv s now ->
  confirmLimit ml rid input deny now s = Ok (s', out) -> cap_inv s' now /\ ws_clock s' = ws_clock s.
Proof.
  intros Hinv H. unfold confirmLimit in H. destruct (findHold s rid) as [h|] eqn:Hf; [|done].
  destruct (findHold_ok s now rid h Hinv Hf) as (<- & _ & row & Hrow & Hid & He).
  apply bind_Ok in H as (q & Hq & H). destruct (positiveDecimal_units _ _ _ _ Hq) as (n & Hn & Hpos).
  destruct (lh_status h) eqn:Hst; [|destruct (bool_decide _); [by injection H as <- _|done]|done|by injection H as <- _].
  destruct (Z.leb_spec (lh_expires_at h) now) as [_|Hexp]; [injection H as <- _; split; [by apply close_cap|done]|].
  rewrite Hn in H. cbn [mbind result_bind] in H. apply bind_Ok in H as (u & _ & H).
  unfold confirmMeterLimitReservation in H. apply bind_Ok in H as (u' & _ & H). rewrite Hn in H. cbn [mbind result_bind] in H.
  rewrite governing_declared in H by exact (cap_rows _ _ Hinv). fold (setOf (lh_entity h)) in H.
  destruct (readScopeSetExposure ml s _ _ now) as [us hd] eqn:Hread. apply bind_Ok in H as (beyond & Hb & H).
  destruct beyond; [by injection H as <- _|]. destruct deny; injection H as <- _; [done|]. split; [|done].
  apply store_closed; [done|apply store_addUsage; [exact (cap_store _ _ Hinv)|lia]|].
  intros e. rewrite <- Hid, exposure_addUsage by (done || apply Hinv).
  pose proof (exposure_without s now _ h row (setOf e) Hinv Hf Hst Hexp Hrow Hid) as Hw.
  pose proof (cap_limit _ _ Hinv e). pose proof (cap_holds _ _ Hinv) as Hh.
  pose proof (cap_rows _ _ Hinv) as Hok. rewrite Forall_forall in Hok.
  destruct (inScopeSet (setOf e) row) eqn:Hin; [|lia].
  rewrite (setOf_same (lh_entity h) e row) by auto. apply (confirm_fits s now h q n); auto.
  by rewrite Hread.
Qed.

Lemma release_cap rid s now s' out : cap_inv s now ->
  releaseLimit rid now s = Ok (s', out) -> cap_inv s' now /\ ws_clock s' = ws_clock s.
Proof.
  intros Hinv H. unfold releaseLimit in H. destruct (findHold s rid) as [h|]; [|done].
  destruct (lh_status h); injection H as <- _; split; try done. apply close_cap; [|done]. by destruct (_ <=? _).
Qed.
End HardCap.

(** ** Histories *)

(** One write at the database clock [now], which never runs back.  A row or a
    reservation a write inserts has an id no row of its table has. *)
Inductive window_step (ml : MeterLimitDecision) : WindowStore -> WindowStore -> Prop :=
  | step_consume s s' out entity input deny fresh now : ws_clock s <= now -> fresh ∉ map w_id (ws_rows s) ->
      consumeLimit ml entity input deny fresh now s = Ok (s', out) ->
      window_step ml s {| ws_rows := ws_rows s'; ws_holds := ws_holds s'; ws_clock := now |}
  | step_reserve s s' out rid entity input deny expires fresh now : ws_clock s <= now -> fresh ∉ map w_id (ws_rows s) ->
      rid ∉ map lh_id (ws_holds s) ->
      reserveLimit ml rid entity input deny expires fresh now s = Ok (s', out) ->
      window_step ml s {| ws_rows := ws_rows s'; ws_holds := ws_holds s'; ws_clock := now |}
  | step_confirm s s' out rid input deny now : ws_clock s <= now ->
      confirmLimit ml rid input deny now s = Ok (s', out) ->
      window_step ml s {| ws_rows := ws_rows s'; ws_holds := ws_holds s'; ws_clock := now |}
  | step_release s s' out rid now : ws_clock s <= now ->
      releaseLimit rid now s = Ok (s', out) ->
      window_step ml s {| ws_rows := ws_rows s'; ws_holds := ws_holds s'; ws_clock := now |}.

(** A window nothing was counted in yet. *)
Definition openedWindow (clock : Z) : WindowStore := {| ws_rows := []; ws_holds := []; ws_clock := clock |}.

Lemma window_step_cap ml limit s s' :
  l_overagePolicy ml = overage_blocked -> l_unlimited ml = false -> decimalToUnits (l_limit ml) (l_scale ml) = Ok limit ->
  window_step ml s s' -> cap_inv ml limit s (ws_clock s) -> cap_inv ml limit s' (ws_clock s').
Proof.
  intros Hb Hf Hl Hstep Hinv.
  assert (Hset : forall t now, cap_inv ml limit t now ->
    cap_inv ml limit {| ws_rows := ws_rows t; ws_holds := ws_holds t; ws_clock := now |} now) by (intros [] now' []; by constructor).
  destruct Hstep as [s t out entity input deny fresh now Hle Hfresh H|s t out rid entity input deny ex fresh now Hle Hfresh _ H
    |s t out rid input deny now Hle H|s t out rid now Hle H]; cbn [ws_clock]; apply Hset;
    apply (cap_later ml limit s _ now Hle) in Hinv.
  - by apply (consume_cap ml limit Hb Hf Hl s now entity input deny fresh t out).
  - by apply (reserve_cap ml limit Hb Hf Hl rid s now entity input deny ex fresh t out).
  - by apply (confirm_cap ml limit Hb Hf Hl rid s now input deny t out).
  - by apply (release_cap ml limit rid s now t out).
Qed.

(** C5: A blocking limit is a hard cap: from an empty window, over any interleaving of
    consumptions, reservations, confirmations and releases at a clock that never runs
    back, the recorded usage of every entity's scope set and the holds open on it
    together never exceed the limit. *)
Theorem hard_cap_never_exceeded ml limit clock s entity :
  l_overagePolicy ml = overage_blocked -> l_unlimited ml = false ->
  decimalToUnits (l_limit ml) (l_scale ml) = Ok limit -> 0 <= limit ->
  rtc (window_step ml) (openedWindow clock) s ->
  0 <= scopeUsage s (setOf ml entity) /\
  scopeUsage s (setOf ml entity) + scopeHeld s (setOf ml entity) None (ws_clock s) <= limit.
Proof.
  intros Hb Hf Hl Hpos Hsteps. assert (Hinv : cap_inv ml limit s (ws_clock s)).
  { assert (H0 : cap_inv ml limit (openedWindow clock) clock) by (constructor; cbn; try constructor; done).
    remember (openedWindow clock) as s0 eqn:E. replace clock with (ws_clock s0) in H0 by by rewrite E. clear E.
    induction Hsteps as [|x y z Hxy _ IH]; [done|]. apply IH. by apply (window_step_cap ml limit x y). }
  split; [exact (proj1 (exposure_nonneg ml limit s _ entity Hinv))|]. exact (cap_limit _ _ _ _ Hinv entity).
Qed.

Definition exampleEntityLimit : MeterLimitDecision :=
  {| l_feature := exampleFeature; l_subscriptionId := Some "s"; l_planItemId := Some 1; l_limit := js "10";
     l_overagePolicy := overage_blocked; l_overagePrice := None; l_unlimited := false;
     l_windowStartAt := Some 0; l_windowEndAt := Some 1000; l_scope := scope_entity; l_mixedScope := None |}.

(** Six held for entity 1, three consumed, four refused, five of the hold confirmed. *)
Definition exampleWindows : WindowStore :=
  {| ws_rows := [ {| w_id := 1; w_entity := Some 1; w_scope := Some scope_entity; w_usage := 8 |} ];
     ws_holds := [ {| lh_id := 7; lh_window := 1; lh_entity := Some 1; lh_requested := 6; lh_held := 6;
                      lh_confirmed := Some (js "5"); lh_status := st_confirmed; lh_expires_at := 100 |} ];
     ws_clock := 8 |}.

Lemma hard_cap_never_exceeded_witness :
  rtc (window_step exampleEntityLimit) (openedWindow 0) exampleWindows /\
  0 <= scopeUsage exampleWindows (setOf exampleEntityLimit (Some 1)) /\
  scopeUsage exampleWindows (setOf exampleEntityLimit (Some 1)) +
    scopeHeld exampleWindows (setOf exampleEntityLimit (Some 1)) None 8 <= 10.
Proof.
  assert (Hsteps : rtc (window_step exampleEntityLimit) (openedWindow 0) exampleWindows).
  { eapply rtc_l; [eapply (step_reserve _ _ _ (WReserved 7) 7 (Some 1) (js "6") false 100 1 5);
      [vm_compute; done|apply not_elem_of_nil ..|vm_compute; reflexivity]|].
    eapply rtc_l; [eapply (step_consume _ _ _ WConsumed (Some 1) (js "3") false 2 6);
      [vm_compute; done|by apply (bool_decide_unpack _); vm_compute|vm_compute; reflexivity]|].
    eapply rtc_l; [eapply (step_consume _ _ _ (WDenied reason_insufficient_balance) (Some 1) (js "4") false 3 7);
      [vm_compute; done|by apply (bool_decide_unpack _); vm_compute|vm_compute; reflexivity]|].
    eapply rtc_l; [eapply (step_confirm _ _ _ (WFinalized st_confirmed) 7 (js "5") false 8);
      [vm_compute; done|vm_compute; reflexivity]|].
    apply rtc_refl. }
  split; [exact Hsteps|].
  apply (hard_cap_never_exceeded exampleEntityLimit 10 0 exampleWindows (Some 1) eq_refl eq_refl);
    [vm_compute; reflexivity|lia|exact Hsteps].
Defined.
