(* ===== verification/Wallet.v ===== *)
(** * Wallet balances and deductions ([src/db/repository/metering-persistence.ts])

    Allocation rows as the database returns them, the balance they add up to, which
    allocations a quantity is taken from, and how a confirmation settles against held
    and free quantity.  Quantities are decimal strings, as in the code; the lemmas
    relate them to integer units. *)
From S2P Require Import Prelude Text Decimal Pricing JsDate Balances.

(** ** Rows *)

Record AllocationRow := {
  a_id : Z;
  a_quantity : dbvalue; a_reversed_quantity : dbvalue; a_consumed_quantity : dbvalue; a_held_quantity : dbvalue;
  a_source_kind : string; a_source_key : string;
  a_expires_at : option Z; a_created_at : Z; a_reversed_at : option Z;
  a_entity_external_id : option string;
  a_rollover_origin_allocation_id : option Z; a_carry_over_origin_allocation_id : option Z;
  a_rollover_policy_revision : option Z;
  a_period_start_at : option Z; a_period_end_at : option Z;
  a_closed : bool }.

Record AllocationDeduction := {
  de_allocationId : Z; de_quantity : text; de_sourceKind : string; de_sourceKey : string;
  de_expiresAt : option Z }.

Definition allocationDeduction (row : AllocationRow) (quantity : text) : AllocationDeduction :=
  {| de_allocationId := a_id row; de_quantity := quantity; de_sourceKind := a_source_kind row;
     de_sourceKey := a_source_key row; de_expiresAt := a_expires_at row |}.

Definition finiteBalance (feature : FeatureRow) (granted consumed held available : text)
  (breakdown : list BalanceAllocationBreakdown) : MeteringBalance :=
  {| b_featureKey := f_key feature; b_unit := f_unit feature; b_scale := credit_scale feature;
     b_granted := Some granted; b_consumed := consumed; b_held := held; b_available := Some available;
     b_unlimited := false; b_breakdown := breakdown; b_scope := None; b_windowStartAt := None;
     b_windowEndAt := None |}.

Definition emptyBalance (feature : FeatureRow) : MeteringBalance :=
  finiteBalance feature (js "0") (js "0") (js "0") (js "0") [].

(** [quantity - reversed - consumed - held] of a row, read in the code's order. *)
Definition freeUnits (row : AllocationRow) (scale : Z) : result Z :=
  quantity ← databaseUnits (a_quantity row) "allocation quantity" scale;
  reversed ← databaseUnits (a_reversed_quantity row) "allocation reversed" scale;
  consumed ← databaseUnits (a_consumed_quantity row) "allocation consumed" scale;
  held ← databaseUnits (a_held_quantity row) "allocation held" scale;
  Ok (quantity - reversed - consumed - held).

Record Totals := { tot_granted : Z; tot_consumed : Z; tot_held : Z }.

Definition addRow (scale : Z) (t : Totals) (row : AllocationRow) : result Totals :=
  rowHeld ← databaseUnits (a_held_quantity row) "allocation held" scale;
  if a_closed row then
    Ok {| tot_granted := tot_granted t + rowHeld; tot_consumed := tot_consumed t;
          tot_held := tot_held t + rowHeld |}
  else
    quantity ← databaseUnits (a_quantity row) "allocation quantity" scale;
    reversed ← databaseUnits (a_reversed_quantity row) "allocation reversed" scale;
    consumed ← databaseUnits (a_consumed_quantity row) "allocation consumed" scale;
    Ok {| tot_granted := tot_granted t + (quantity - reversed); tot_consumed := tot_consumed t + consumed;
          tot_held := tot_held t + rowHeld |}.

Definition breakdownOf (scale : Z) (row : AllocationRow) : result BalanceAllocationBreakdown :=
  quantity ← databaseUnits (a_quantity row) "allocation quantity" scale;
  reversed ← databaseUnits (a_reversed_quantity row) "allocation reversed" scale;
  rowConsumed ← databaseUnits (a_consumed_quantity row) "allocation consumed" scale;
  rowHeld ← databaseUnits (a_held_quantity row) "allocation held" scale;
  let available := if a_closed row then 0 else quantity - reversed - rowConsumed - rowHeld in
  Ok {| bb_allocationId := a_id row; bb_entityId := a_entity_external_id row;
        bb_sourceKind := a_source_kind row; bb_sourceKey := a_source_key row;
        bb_rolloverOriginAllocationId := a_rollover_origin_allocation_id row;
        bb_carryOverOriginAllocationId := a_carry_over_origin_allocation_id row;
        bb_rolloverPolicyRevision := a_rollover_policy_revision row;
        bb_quantity := unitsToDecimal quantity scale; bb_reversed := unitsToDecimal reversed scale;
        bb_consumed := unitsToDecimal rowConsumed scale; bb_held := unitsToDecimal rowHeld scale;
        bb_available := unitsToDecimal (if 0 <? available then available else 0) scale;
        bb_periodStartAt := a_period_start_at row; bb_periodEndAt := a_period_end_at row;
        bb_expiresAt := a_expires_at row; bb_createdAt := a_created_at row |}.

Definition noTotals : Totals := {| tot_granted := 0; tot_consumed := 0; tot_held := 0 |}.

Definition balanceFromRows (feature : FeatureRow) (rows : list AllocationRow) : result MeteringBalance :=
  let scale := credit_scale feature in
  t ← foldM (addRow scale) rows noTotals;
  breakdown ← mapM (breakdownOf scale) rows;
  Ok (finiteBalance feature (unitsToDecimal (tot_granted t) scale) (unitsToDecimal (tot_consumed t) scale)
        (unitsToDecimal (tot_held t) scale)
        (unitsToDecimal (availableUnits (tot_granted t) (tot_consumed t) (tot_held t)) scale) breakdown).

(** ** Pending allowances *)

Record PendingAllowance := {
  pa_quantity : text; pa_reversed : text; pa_consumed : text; pa_held : text;
  pa_expiresAt : option Z; pa_reopens : option Z }.

(** [new Map(...)] keeps the last entry of a key. *)
Definition reopeningOf (pending : list PendingAllowance) (id : Z) : option PendingAllowance :=
  List.find (fun p => bool_decide (pa_reopens p = Some id)) (rev pending).

Definition reopenRow (pending : list PendingAllowance) (row : AllocationRow) : AllocationRow :=
  match reopeningOf pending (a_id row) with
  | None => row
  | Some allowance =>
      {| a_id := a_id row; a_quantity := a_quantity row; a_reversed_quantity := a_reversed_quantity row;
         a_consumed_quantity := a_consumed_quantity row; a_held_quantity := a_held_quantity row;
         a_source_kind := a_source_kind row; a_source_key := a_source_key row;
         a_expires_at := pa_expiresAt allowance; a_created_at := a_created_at row;
         a_reversed_at := a_reversed_at row; a_entity_external_id := a_entity_external_id row;
         a_rollover_origin_allocation_id := a_rollover_origin_allocation_id row;
         a_carry_over_origin_allocation_id := a_carry_over_origin_allocation_id row;
         a_rollover_policy_revision := a_rollover_policy_revision row;
         a_period_start_at := a_period_start_at row; a_period_end_at := a_period_end_at row;
         a_closed := false |}
  end.

Definition reopenListedAllowances (listed : list AllocationRow) (pending : list PendingAllowance)
  : list AllocationRow * list PendingAllowance :=
  let reopened := filter (fun id => is_Some (reopeningOf pending id)) (map a_id listed) in
  (map (reopenRow pending) listed,
   List.filter (fun p => match pa_reopens p with
                         | None => true
                         | Some id => negb (bool_decide (id ∈ reopened))
                         end) pending).

(** The pending loop's running [granted], [consumed] and [held]. *)
Definition addPending (scale : Z) (t : Totals) (p : PendingAllowance) : result Totals :=
  quantity ← databaseUnits (DbText (pa_quantity p)) "pending allowance" scale;
  reversed ← databaseUnits (DbText (pa_reversed p)) "pending allowance reversed" scale;
  consumed ← databaseUnits (DbText (pa_consumed p)) "pending allowance consumed" scale;
  held ← databaseUnits (DbText (pa_held p)) "pending allowance held" scale;
  Ok {| tot_granted := tot_granted t + (quantity - reversed); tot_consumed := tot_consumed t + consumed;
        tot_held := tot_held t + held |}.

Definition withPendingAllowances (balance : MeteringBalance) (scale : Z) (pending : list PendingAllowance)
  : result MeteringBalance :=
  match pending with
  | [] => Ok balance
  | _ =>
      granted ← databaseUnits (DbText (default (js "0") (b_granted balance))) "balance granted" scale;
      consumed ← databaseUnits (DbText (b_consumed balance)) "balance consumed" scale;
      held ← databaseUnits (DbText (b_held balance)) "balance held" scale;
      t ← foldM (addPending scale) pending
            {| tot_granted := granted; tot_consumed := consumed; tot_held := held |};
      Ok {| b_featureKey := b_featureKey balance; b_unit := b_unit balance; b_scale := b_scale balance;
            b_granted := Some (unitsToDecimal (tot_granted t) scale);
            b_consumed := unitsToDecimal (tot_consumed t) scale; b_held := unitsToDecimal (tot_held t) scale;
            b_available := Some (unitsToDecimal (availableUnits (tot_granted t) (tot_consumed t) (tot_held t)) scale);
            b_unlimited := b_unlimited balance; b_breakdown := b_breakdown balance; b_scope := b_scope balance;
            b_windowStartAt := b_windowStartAt balance; b_windowEndAt := b_windowEndAt balance |}
  end.

(** ** Deductions *)

Definition uncoveredDeduction : error :=
  InternalError "Allocation deduction did not cover the approved quantity".

(** The loop over rows, with its [break] and [continue]; the rest of the quantity
    is returned beside the deductions. *)
Fixpoint deductFrom (rows : list AllocationRow) (scale remaining : Z) : result (list AllocationDeduction * Z) :=
  match rows with
  | [] => Ok ([], remaining)
  | row :: rest =>
      if remaining =? 0 then Ok ([], remaining)
      else
        available ← freeUnits row scale;
        let taken := if available <? remaining then available else remaining in
        if taken <=? 0 then deductFrom rest scale remaining
        else
          '(ds, r) ← deductFrom rest scale (remaining - taken);
          Ok (allocationDeduction row (unitsToDecimal taken scale) :: ds, r)
  end.

Definition planDeductions (rows : list AllocationRow) (scale : Z) (quantity : text)
  : result (list AllocationDeduction) :=
  units ← decimalToUnits quantity scale;
  '(deductions, remaining) ← deductFrom rows scale units;
  if remaining =? 0 then Ok deductions else Err uncoveredDeduction.

Inductive DeductionColumn := consumed_quantity | held_quantity.

Definition columnOf (column : DeductionColumn) (row : AllocationRow) : dbvalue :=
  match column with consumed_quantity => a_consumed_quantity row | held_quantity => a_held_quantity row end.
Definition columnField (column : DeductionColumn) : string :=
  match column with
  | consumed_quantity => "allocation consumed_quantity"
  | held_quantity => "allocation held_quantity"
  end.

Definition withColumns (row : AllocationRow) (consumed held : dbvalue) : AllocationRow :=
  {| a_id := a_id row; a_quantity := a_quantity row; a_reversed_quantity := a_reversed_quantity row;
     a_consumed_quantity := consumed; a_held_quantity := held;
     a_source_kind := a_source_kind row; a_source_key := a_source_key row;
     a_expires_at := a_expires_at row; a_created_at := a_created_at row;
     a_reversed_at := a_reversed_at row; a_entity_external_id := a_entity_external_id row;
     a_rollover_origin_allocation_id := a_rollover_origin_allocation_id row;
     a_carry_over_origin_allocation_id := a_carry_over_origin_allocation_id row;
     a_rollover_policy_revision := a_rollover_policy_revision row;
     a_period_start_at := a_period_start_at row; a_period_end_at := a_period_end_at row;
     a_closed := a_closed row |}.

(** [taken.get(id)]: a map built from the deductions keeps the last of a key. *)
Definition takenFrom (deductions : list AllocationDeduction) (id : Z) : option text :=
  option_map de_quantity (List.find (fun d => de_allocationId d =? id) (rev deductions)).

Definition deductedRow (deductions : list AllocationDeduction) (scale : Z) (column : DeductionColumn)
  (row : AllocationRow) : result AllocationRow :=
  match takenFrom deductions (a_id row) with
  | None => Ok row
  | Some quantity =>
      current ← databaseUnits (columnOf column row) (columnField column) scale;
      units ← decimalToUnits quantity scale;
      let updated := DbText (unitsToDecimal (current + units) scale) in
      Ok match column with
         | consumed_quantity => withColumns row updated (a_held_quantity row)
         | held_quantity => withColumns row (a_consumed_quantity row) updated
         end
  end.

Definition deductedRows (rows : list AllocationRow) (deductions : list AllocationDeduction) (scale : Z)
  (column : DeductionColumn) : result (list AllocationRow) :=
  mapM (deductedRow deductions scale column) rows.

(** An automatic top-up policy; [None] is the account's, which covers the pool. *)
Record AutoTopupPolicyRow := { tp_id : Z; tp_entity_id : option Z }.

Definition autoTopupTriggers (policies : list AutoTopupPolicyRow) (entityId : option Z) (wallet : FeatureRow)
  (rows : list AllocationRow) (deductions : list AllocationDeduction)
  : result (list (AutoTopupPolicyRow * option text)) :=
  let pool := List.filter (fun row => match a_entity_external_id row with None => true | _ => false end) rows in
  let spentFromPool :=
    match entityId with
    | None => true
    | Some _ => existsb (fun d => existsb (fun row => a_id row =? de_allocationId d) pool) deductions
    end in
  triggers ← mapM (fun policy =>
    match tp_entity_id policy with
    | Some _ => b ← balanceFromRows wallet rows; Ok [(policy, b_available b)]
    | None =>
        if spentFromPool then b ← balanceFromRows wallet pool; Ok [(policy, b_available b)] else Ok []
    end) policies;
  Ok (concat triggers).

Definition buildDecision (actions : list string) (rate : RateDecision) (requestedQuantity walletQuantity : text)
  (balance : MeteringBalance) : result MeteringDecision :=
  available ← decimalToUnits (default (js "0") (b_available balance)) (b_scale balance);
  wanted ← decimalToUnits walletQuantity (b_scale balance);
  let allowed := wanted <=? available in
  Ok {| d_allowed := allowed;
        d_reason := if allowed then reason_allowed else reason_insufficient_balance;
        d_requestedQuantity := requestedQuantity; d_walletQuantity := walletQuantity; d_balance := balance;
        d_rateCard := rateReceipt rate;
        d_eligiblePurchaseActions := if allowed then [] else actions; d_control := None |}.

(** ** Confirmations *)

Record ReservationAllocationRow := { ra_allocation_id : Z; ra_held_quantity : dbvalue; ra_consumed_quantity : dbvalue }.

Record Change := { ch_consume : Z; ch_release : Z; ch_row : AllocationRow }.

Record PlannedChange := { pc_allocationId : Z; pc_consume : Z; pc_release : Z; pc_hasHold : bool }.

Record ConfirmationPlan := { cp_changes : list PlannedChange; cp_deductions : list AllocationDeduction }.

Definition readHolds (reservationAllocations : list ReservationAllocationRow) (scale : Z) : result (list (Z * Z)) :=
  mapM (fun row => h ← databaseUnits (ra_held_quantity row) "reservation hold" scale; Ok (ra_allocation_id row, h))
    reservationAllocations.

Definition holdOf (holds : list (Z * Z)) (id : Z) : option Z :=
  option_map snd (List.find (fun h => fst h =? id) (rev holds)).

(** The first loop: what each row's own hold pays for.  The changes are kept in row
    order; row ids are the primary key, so no row overwrites another's change. *)
Fixpoint settleHolds (holds : list (Z * Z)) (rows : list AllocationRow) (remaining : Z) : list Change * Z :=
  match rows with
  | [] => ([], remaining)
  | row :: rest =>
      let held := default 0 (holdOf holds (a_id row)) in
      let consumed := if held <? remaining then held else remaining in
      let '(changes, r) := settleHolds holds rest (remaining - consumed) in
      ({| ch_consume := consumed; ch_release := held; ch_row := row |} :: changes, r)
  end.

Definition endedBy (row : AllocationRow) (now : Z) : bool :=
  match a_reversed_at row with
  | Some _ => true
  | None => match a_expires_at row with Some e => e <=? now | None => false end
  end.

(** The second loop: what live rows pay for beyond the holds. *)
Fixpoint settleFree (changes : list Change) (scale now remaining : Z) : result (list Change * Z) :=
  match changes with
  | [] => Ok ([], remaining)
  | change :: rest =>
      if remaining =? 0 then Ok (change :: rest, remaining)
      else if endedBy (ch_row change) now then
        '(cs, r) ← settleFree rest scale now remaining; Ok (change :: cs, r)
      else
        free ← freeUnits (ch_row change) scale;
        let extra := if free <? remaining then free else remaining in
        if extra <=? 0 then '(cs, r) ← settleFree rest scale now remaining; Ok (change :: cs, r)
        else
          '(cs, r) ← settleFree rest scale now (remaining - extra);
          Ok ({| ch_consume := ch_consume change + extra; ch_release := ch_release change;
                 ch_row := ch_row change |} :: cs, r)
  end.

Definition insufficientBalance : error :=
  BillingErr "Insufficient balance to confirm reservation" "INSUFFICIENT_BALANCE" 409.

Definition nonEmptyChange (c : Change) : bool := negb ((ch_consume c =? 0) && (ch_release c =? 0)).

Definition plannedChange (holds : list (Z * Z)) (c : Change) : PlannedChange :=
  {| pc_allocationId := a_id (ch_row c); pc_consume := ch_consume c; pc_release := ch_release c;
     pc_hasHold := match holdOf holds (a_id (ch_row c)) with Some _ => true | None => false end |}.

Definition planConfirmation (allocations : list AllocationRow)
  (reservationAllocations : list ReservationAllocationRow) (scale : Z) (walletQuantity : text) (now : Z)
  : result ConfirmationPlan :=
  holds ← readHolds reservationAllocations scale;
  units ← decimalToUnits walletQuantity scale;
  let '(changes, remaining) := settleHolds holds allocations units in
  '(changes', remaining') ←
    (if 0 <? remaining then settleFree changes scale now remaining else Ok (changes, remaining));
  _ ← throwWhen (0 <? remaining') insufficientBalance;
  let kept := List.filter nonEmptyChange changes' in
  Ok {| cp_changes := map (plannedChange holds) kept;
        cp_deductions := map (fun c => allocationDeduction (ch_row c) (unitsToDecimal (ch_consume c) scale))
                           (List.filter (fun c => 0 <? ch_consume c) kept) |}.

(** [changes.get(id)] of the plan. *)
Definition changeOf (plan : ConfirmationPlan) (id : Z) : option PlannedChange :=
  List.find (fun c => pc_allocationId c =? id) (rev (cp_changes plan)).

Definition confirmedRow (plan : ConfirmationPlan) (scale : Z) (row : AllocationRow) : result AllocationRow :=
  match changeOf plan (a_id row) with
  | None => Ok row
  | Some change =>
      consumed ← databaseUnits (a_consumed_quantity row) "allocation consumed" scale;
      held ← databaseUnits (a_held_quantity row) "allocation held" scale;
      Ok (withColumns row (DbText (unitsToDecimal (consumed + pc_consume change) scale))
            (DbText (unitsToDecimal (held - pc_release change) scale)))
  end.

Definition confirmedRows (rows : list AllocationRow) (plan : ConfirmationPlan) (scale now : Z)
  : result (list AllocationRow) :=
  mapM (confirmedRow plan scale) (List.filter (fun row => negb (endedBy row now)) rows).

(** ** Rows in units *)

Record Units := { u_quantity : Z; u_reversed : Z; u_consumed : Z; u_held : Z }.

Definition u_free (u : Units) : Z := u_quantity u - u_reversed u - u_consumed u - u_held u.

(** The table's CHECK constraints. *)
Definition units_ok (u : Units) : Prop :=
  0 <= u_reversed u <= u_quantity u /\ 0 <= u_consumed u /\ 0 <= u_held u /\
  u_consumed u + u_held u <= u_quantity u.

(** A row whose numeric columns hold these units. *)
Definition represents (scale : Z) (row : AllocationRow) (u : Units) : Prop :=
  (forall field, databaseUnits (a_quantity row) field scale = Ok (u_quantity u)) /\
  (forall field, databaseUnits (a_reversed_quantity row) field scale = Ok (u_reversed u)) /\
  (forall field, databaseUnits (a_consumed_quantity row) field scale = Ok (u_consumed u)) /\
  (forall field, databaseUnits (a_held_quantity row) field scale = Ok (u_held u)).

Lemma freeUnits_represents scale row u : represents scale row u -> freeUnits row scale = Ok (u_free u).
Proof. intros (Hq & Hr & Hc & Hh). unfold freeUnits. by rewrite Hq, Hr, Hc, Hh. Qed.

(** What rows with these free quantities give to a quantity, in order. *)
Fixpoint takes (frees : list Z) (n : Z) : list Z :=
  match frees with
  | [] => []
  | f :: fs => let t := Z.max 0 (Z.min f n) in t :: takes fs (n - t)
  end.

Lemma takes_length frees n : length (takes frees n) = length frees.
Proof. revert n. induction frees; intros; cbn; auto. Qed.

Lemma takes_0 frees n : n <= 0 -> takes frees n = repeat 0 (length frees).
Proof.
  revert n. induction frees as [|f fs IH]; intros n Hn; cbn; [done|].
  rewrite Z.max_l by lia. f_equal. apply IH. lia.
Qed.

Lemma sum_repeat_0 k : sumZ (repeat 0 k) = 0.
Proof. induction k; cbn; lia. Qed.

Lemma takes_bounds frees n : 0 <= n ->
  Forall2 (fun t f => 0 <= t /\ (t <= f \/ t = 0)) (takes frees n) frees /\ 0 <= sumZ (takes frees n) <= n.
Proof.
  revert n. induction frees as [|f fs IH]; intros n Hn; cbn; [split; [constructor|lia]|].
  destruct (IH (n - Z.max 0 (Z.min f n)) ltac:(lia)) as [Hf Hs].
  split; [constructor; [lia|exact Hf]|lia].
Qed.

Lemma take_step f n total : 0 <= n -> 0 <= total ->
  Z.max 0 (Z.min f n) + Z.min (n - Z.max 0 (Z.min f n)) total = Z.min n (Z.max 0 f + total).
Proof.
  intros. destruct (Z.le_gt_cases f 0); [|destruct (Z.le_gt_cases f n)].
  - rewrite (Z.max_l 0 f), Z.max_l by lia. lia.
  - rewrite (Z.min_l f), !Z.max_r by lia. lia.
  - rewrite (Z.min_r f), !Z.max_r by lia. lia.
Qed.

(** The rows cover a quantity exactly when their free quantities add up to it, rows
    in debt not counting against the others. *)
Lemma takes_covers frees n : 0 <= n ->
  sumZ (takes frees n) = Z.min n (sumZ (map (Z.max 0) frees)).
Proof.
  revert n. induction frees as [|f fs IH]; intros n Hn; cbn [takes sumZ map]; [lia|].
  rewrite IH by lia. assert (0 <= sumZ (map (Z.max 0) fs)).
  { apply sumZ_nonneg, Forall_map. apply Forall_true. intros. lia. }
  by apply take_step.
Qed.

Lemma sum_max_0 l : sumZ l <= sumZ (map (Z.max 0) l).
Proof. induction l as [|a l IH]; cbn [sumZ map]; [done|]. apply Z.add_le_mono; [lia|exact IH]. Qed.

(** The deductions that take these quantities from these rows. *)
Fixpoint deductionsOf (rows : list AllocationRow) (ts : list Z) (scale : Z) : list AllocationDeduction :=
  match rows, ts with
  | row :: rows', t :: ts' =>
      (if 0 <? t then [allocationDeduction row (unitsToDecimal t scale)] else []) ++ deductionsOf rows' ts' scale
  | _, _ => []
  end.

Lemma deductionsOf_0 rows k scale : deductionsOf rows (repeat 0 k) scale = [].
Proof. revert k. induction rows as [|r rows IH]; intros [|k]; cbn; auto. Qed.

(** [deductFrom] is [takes] over the rows' free quantities. *)
Lemma deductFrom_takes rows us scale n :
  Forall2 (represents scale) rows us -> 0 <= n ->
  deductFrom rows scale n =
    Ok (deductionsOf rows (takes (map u_free us) n) scale, n - sumZ (takes (map u_free us) n)).
Proof.
  intros H. revert n. induction H as [|row u rows us Hr Hrs IH]; intros n Hn; cbn.
  { do 2 f_equal. lia. }
  destruct (Z.eqb_spec n 0) as [->|Hn0].
  - rewrite Z.max_l by lia. cbn. rewrite takes_0, deductionsOf_0, sum_repeat_0 by lia. done.
  - rewrite (freeUnits_represents _ _ _ Hr). cbn [mbind result_bind].
    set (f := u_free u). replace (if f <? n then f else n) with (Z.min f n) by blia.
    destruct (Z.leb_spec (Z.min f n) 0).
    + rewrite IH by done. rewrite Z.max_l by lia. cbn. rewrite Z.sub_0_r. done.
    + rewrite IH by lia. rewrite Z.max_r by lia. cbn [mbind result_bind].
      replace (0 <? Z.min f n) with true by (symmetry; apply Z.ltb_lt; lia).
      cbn. do 2 f_equal. lia.
Qed.

Lemma planDeductions_takes rows us scale quantity n :
  Forall2 (represents scale) rows us -> decimalToUnits quantity scale = Ok n ->
  planDeductions rows scale quantity =
    if n <=? sumZ (map (Z.max 0) (map u_free us))
    then Ok (deductionsOf rows (takes (map u_free us) n) scale) else Err uncoveredDeduction.
Proof.
  intros H Hn. pose proof (decimalToUnits_scale _ _ _ Hn) as Hs.
  pose proof (decimalToUnits_nonneg _ _ _ Hs Hn) as Hn0.
  unfold planDeductions. rewrite Hn. cbn [mbind result_bind].
  rewrite (deductFrom_takes _ us) by done. cbn [mbind result_bind].
  rewrite takes_covers by done. destruct (Z.leb_spec n (sumZ (map (Z.max 0) (map u_free us)))).
  - by replace (n - _ =? 0) with true by (symmetry; apply Z.eqb_eq; lia).
  - by replace (n - _ =? 0) with false by (symmetry; apply Z.eqb_neq; lia).
Qed.

(** ** Balances in units *)

(** What an allocation adds to the granted, consumed and held totals. *)
Definition granted_of (closed : bool) (u : Units) : Z := if closed then u_held u else u_quantity u - u_reversed u.
Definition consumed_of (closed : bool) (u : Units) : Z := if closed then 0 else u_consumed u.

Lemma addRow_represents scale t row u : represents scale row u ->
  addRow scale t row =
    Ok {| tot_granted := tot_granted t + granted_of (a_closed row) u;
          tot_consumed := tot_consumed t + consumed_of (a_closed row) u; tot_held := tot_held t + u_held u |}.
Proof.
  intros (Hq & Hrev & Hc & Hh). unfold addRow, granted_of, consumed_of. rewrite Hh. cbn [mbind result_bind].
  destruct (a_closed row); [by rewrite Z.add_0_r|]. by rewrite Hq, Hrev, Hc.
Qed.

Lemma balance_totals rows us scale t :
  Forall2 (represents scale) rows us ->
  foldM (addRow scale) rows t =
    Ok {| tot_granted := tot_granted t + sumZ (zip_with (fun r u => granted_of (a_closed r) u) rows us);
          tot_consumed := tot_consumed t + sumZ (zip_with (fun r u => consumed_of (a_closed r) u) rows us);
          tot_held := tot_held t + sumZ (map u_held us) |}.
Proof.
  intros H. revert t. induction H as [|row u rows us Hr Hrs IH]; intros t; cbn.
  { rewrite !Z.add_0_r. by destruct t. }
  rewrite (addRow_represents _ _ _ _ Hr). cbn [mbind result_bind]. rewrite IH. cbn [tot_granted tot_consumed tot_held].
  do 2 f_equal; lia.
Qed.

Lemma breakdownOf_represents scale row u : represents scale row u ->
  exists b, breakdownOf scale row = Ok b /\ bb_allocationId b = a_id row.
Proof. intros (Hq & Hrev & Hc & Hh). unfold breakdownOf. rewrite Hq, Hrev, Hc, Hh. by eexists. Qed.

Lemma breakdown_total rows us scale : Forall2 (represents scale) rows us ->
  exists bs, mapM (breakdownOf scale) rows = Ok bs /\ map bb_allocationId bs = map a_id rows.
Proof.
  induction 1 as [|row u rows us Hr Hrs (bs & IH & Hids)]; cbn; [by exists []|].
  destruct (breakdownOf_represents _ _ _ Hr) as (b & -> & Hid). cbn [mbind result_bind]. rewrite IH.
  exists (b :: bs). split; [done|]. cbn. by rewrite Hid, Hids.
Qed.

Lemma balanceFromRows_units feature rows us :
  Forall2 (represents (credit_scale feature)) rows us ->
  let granted := sumZ (zip_with (fun r u => granted_of (a_closed r) u) rows us) in
  let consumed := sumZ (zip_with (fun r u => consumed_of (a_closed r) u) rows us) in
  let held := sumZ (map u_held us) in
  exists b, balanceFromRows feature rows = Ok b /\ b_scale b = credit_scale feature /\
    b_granted b = Some (unitsToDecimal granted (credit_scale feature)) /\
    b_consumed b = unitsToDecimal consumed (credit_scale feature) /\
    b_held b = unitsToDecimal held (credit_scale feature) /\
    b_available b = Some (unitsToDecimal (Z.max 0 (granted - consumed - held)) (credit_scale feature)) /\
    map bb_allocationId (b_breakdown b) = map a_id rows.
Proof.
  intros H granted consumed held. unfold balanceFromRows.
  rewrite (balance_totals _ us) by done. cbn [mbind result_bind].
  destruct (breakdown_total _ _ _ H) as (bs & -> & Hids). cbn [mbind result_bind tot_granted tot_consumed tot_held noTotals].
  rewrite availableUnits_max, !Z.add_0_l. eexists. split; [reflexivity|]. cbn. auto 10.
Qed.

(** Over open rows the total is the sum of the free quantities, debts included. *)
Lemma open_total rows us scale :
  Forall2 (represents scale) rows us -> Forall (fun r => a_closed r = false) rows ->
  sumZ (zip_with (fun r u => granted_of (a_closed r) u) rows us)
  - sumZ (zip_with (fun r u => consumed_of (a_closed r) u) rows us) - sumZ (map u_held us)
  = sumZ (map u_free us).
Proof.
  intros H Hc. induction H as [|row u rows us Hr Hrs IH]; cbn; [done|].
  inversion Hc as [|? ? Hopen Hc']; subst. specialize (IH Hc'). rewrite Hopen. cbn. unfold u_free at 1. lia.
Qed.

(** a quantity that the wallet's decision approves is always covered: planning its
    deductions over the same rows never fails, takes the quantity exactly, in the
    rows' spending order, and never more than a row has free. *)
Theorem approved_quantity_is_deducted actions rate feature rows us requested quantity n b d :
  Forall2 (represents (credit_scale feature)) rows us -> Forall (fun r => a_closed r = false) rows ->
  decimalToUnits quantity (credit_scale feature) = Ok n ->
  balanceFromRows feature rows = Ok b ->
  buildDecision actions rate requested quantity b = Ok d -> d_allowed d = true ->
  exists ts, planDeductions rows (credit_scale feature) quantity
      = Ok (deductionsOf rows ts (credit_scale feature)) /\
    length ts = length rows /\ sumZ ts = n /\
    Forall2 (fun t u => 0 <= t /\ (t <= u_free u \/ t = 0)) ts us.
Proof.
  intros Hr Hopen Hn Hb Hd Hallowed. set (s := credit_scale feature) in *.
  pose proof (decimalToUnits_scale _ _ _ Hn) as Hs. pose proof (decimalToUnits_nonneg _ _ _ Hs Hn) as Hn0.
  destruct (balanceFromRows_units feature rows us Hr) as (b' & Hb' & Hscale & _ & _ & _ & Hav & _).
  rewrite Hb in Hb'. injection Hb' as <-. fold s in Hscale, Hav.
  rewrite (open_total rows us s Hr Hopen) in Hav.
  unfold buildDecision in Hd. rewrite Hscale, Hav in Hd. cbn [from_option id] in Hd.
  rewrite units_roundtrip, Hn in Hd by lia. cbn [mbind result_bind] in Hd. injection Hd as <-.
  cbn in Hallowed. apply Z.leb_le in Hallowed.
  assert (Hle : n <= sumZ (map (Z.max 0) (map u_free us))).
  { destruct (Z.eq_dec n 0) as [->|]; [|etransitivity; [|apply sum_max_0]; lia].
    apply sumZ_nonneg, Forall_map, Forall_true. intros. lia. }
  exists (takes (map u_free us) n).
  destruct (takes_bounds (map u_free us) n Hn0) as [Hf _].
  rewrite (planDeductions_takes _ us _ _ n) by done.
  replace (n <=? _) with true by (symmetry; by apply Z.leb_le). split; [done|].
  split; [by rewrite takes_length, length_map, (Forall2_length _ _ _ Hr)|].
  split; [rewrite takes_covers by done; by apply Z.min_l|]. by rewrite Forall2_fmap_r in Hf.
Qed.

Definition exampleAllocation (id quantity consumed held : Z) (expires : option Z) : AllocationRow :=
  {| a_id := id; a_quantity := DbNumber quantity; a_reversed_quantity := DbNumber 0;
     a_consumed_quantity := DbNumber consumed; a_held_quantity := DbNumber held;
     a_source_kind := "purchase"; a_source_key := "k"; a_expires_at := expires; a_created_at := 0;
     a_reversed_at := None; a_entity_external_id := None; a_rollover_origin_allocation_id := None;
     a_carry_over_origin_allocation_id := None; a_rollover_policy_revision := None;
     a_period_start_at := None; a_period_end_at := None; a_closed := false |}.

Definition exampleWallet : FeatureRow :=
  {| f_id := 1; f_key := "credits"; f_unit := "credit"; credit_scale := 0; f_kind := fk_metered;
     f_meter_kind := Some mk_consumable; f_filter_dimensions := [] |}.

Definition exampleBalance : MeteringBalance :=
  match balanceFromRows exampleWallet [exampleAllocation 1 5 1 0 (Some 10); exampleAllocation 2 9 0 2 None] with
  | Ok b => b | Err _ => emptyBalance exampleWallet end.
Definition exampleDecision : MeteringDecision :=
  match buildDecision [] (directRate exampleWallet) (js "8") (js "8") exampleBalance with
  | Ok d => d | Err _ => {| d_allowed := false; d_reason := reason_configuration_error; d_requestedQuantity := [];
      d_walletQuantity := []; d_balance := exampleBalance; d_rateCard := rateReceipt (directRate exampleWallet);
      d_eligiblePurchaseActions := []; d_control := None |} end.

Lemma approved_quantity_is_deducted_witness :
  exists ts,
    planDeductions [exampleAllocation 1 5 1 0 (Some 10); exampleAllocation 2 9 0 2 None] 0 (js "8")
      = Ok (deductionsOf [exampleAllocation 1 5 1 0 (Some 10); exampleAllocation 2 9 0 2 None] ts 0) /\
    length ts = 2%nat /\ sumZ ts = 8 /\
    Forall2 (fun t u => 0 <= t /\ (t <= u_free u \/ t = 0)) ts
      [ {| u_quantity := 5; u_reversed := 0; u_consumed := 1; u_held := 0 |};
        {| u_quantity := 9; u_reversed := 0; u_consumed := 0; u_held := 2 |} ].
Proof.
  apply (approved_quantity_is_deducted [] (directRate exampleWallet) exampleWallet
    [exampleAllocation 1 5 1 0 (Some 10); exampleAllocation 2 9 0 2 None]
    [ {| u_quantity := 5; u_reversed := 0; u_consumed := 1; u_held := 0 |};
      {| u_quantity := 9; u_reversed := 0; u_consumed := 0; u_held := 2 |} ]
    (js "8") (js "8") 8 exampleBalance exampleDecision);
    [ apply Forall2_cons; split; [|apply Forall2_cons; split; [|by apply Forall2_nil] ];
        (split; [|split; [|split]]; intros field; vm_compute; reflexivity)
    | repeat constructor | vm_compute; reflexivity .. ].
Defined.

(** ** Confirmation plans in units *)

(** Changes that consume [cs] and release [hs] of the rows. *)
Fixpoint changesOf (rows : list AllocationRow) (cs hs : list Z) : list Change :=
  match rows, cs, hs with
  | row :: rows', c :: cs', h :: hs' =>
      {| ch_consume := c; ch_release := h; ch_row := row |} :: changesOf rows' cs' hs'
  | _, _, _ => []
  end.

(** The quantity a row can give beyond the holds: nothing once it has ended. *)
Definition liveFree (now : Z) (row : AllocationRow) (u : Units) : Z := if endedBy row now then 0 else u_free u.

Lemma settleHolds_takes holds rows n :
  0 <= n -> Forall (fun r => 0 <= default 0 (holdOf holds (a_id r))) rows ->
  let hs := map (fun r => default 0 (holdOf holds (a_id r))) rows in
  settleHolds holds rows n = (changesOf rows (takes hs n) hs, n - sumZ (takes hs n)).
Proof.
  intros Hn H. revert n Hn. induction H as [|row rows Hr Hrs IH]; intros n Hn; cbn.
  { f_equal. lia. }
  set (h := default 0 (holdOf holds (a_id row))) in *.
  replace (if h <? n then h else n) with (Z.min h n) by blia.
  rewrite IH by lia. rewrite Z.max_r by lia. cbn. f_equal. lia.
Qed.

Lemma changesOf_add_0 rows cs hs k :
  length cs = length rows -> length hs = length rows -> k = length rows ->
  changesOf rows (zip_with Z.add cs (repeat 0 k)) hs = changesOf rows cs hs.
Proof.
  revert cs hs k. induction rows as [|row rows IH]; intros [|c cs] [|h hs] [|k] Hc Hh Hk; try done.
  cbn in *. rewrite Z.add_0_r. f_equal. apply IH; lia.
Qed.

Lemma settleFree_takes rows us cs hs scale now n :
  Forall2 (represents scale) rows us -> length cs = length rows -> length hs = length rows -> 0 <= n ->
  let frees := zip_with (liveFree now) rows us in
  settleFree (changesOf rows cs hs) scale now n =
    Ok (changesOf rows (zip_with Z.add cs (takes frees n)) hs, n - sumZ (takes frees n)).
Proof.
  intros H. revert cs hs n. induction H as [|row u rows us Hr Hrs IH]; intros [|c cs] [|h hs] n Hc Hh Hn; try done.
  { cbn. do 2 f_equal. lia. }
  cbn in Hc, Hh. pose proof (Forall2_length _ _ _ Hrs) as Hlen.
  assert (Hz : length (zip_with (liveFree now) rows us) = length rows) by (rewrite length_zip_with; lia).
  cbn [changesOf settleFree zip_with takes sumZ ch_row ch_consume ch_release].
  destruct (Z.eqb_spec n 0) as [->|Hn0].
  - replace (Z.max 0 (Z.min (liveFree now row u) 0)) with 0 by lia.
    rewrite takes_0, sum_repeat_0, Z.add_0_r, changesOf_add_0 by lia. done.
  - remember (liveFree now row u) as f eqn:Hf. unfold liveFree in Hf. destruct (endedBy row now).
    + rewrite IH by lia. cbn [mbind result_bind]. replace (Z.max 0 (Z.min f n)) with 0 by lia.
      rewrite !Z.sub_0_r, Z.add_0_r. done.
    + rewrite (freeUnits_represents _ _ _ Hr), <- Hf. cbn [mbind result_bind].
      replace (if f <? n then f else n) with (Z.min f n) by blia.
      destruct (Z.leb_spec (Z.min f n) 0).
      * rewrite IH by lia. cbn [mbind result_bind]. rewrite Z.max_l by lia. by rewrite !Z.sub_0_r, Z.add_0_r.
      * rewrite IH by lia. cbn [mbind result_bind]. rewrite Z.max_r by lia. do 2 f_equal. lia.
Qed.
