(* ===== verification/WalletStore.v ===== *)
(** * The wallet's tables and operations ([src/db/repository/metering.ts],
    [metering-persistence.ts], [allocation-order.ts])

    One customer's allocations of one wallet feature with the reservations that hold
    them, as the tables [balance_allocations], [reservations], [reservation_allocations]
    and [operator_grants], and the transactions that consume, reserve, confirm and
    release.  Each transaction holds the row locks it takes until it commits, so a
    history is a sequence of whole transactions. *)
From S2P Require Import Prelude Text Decimal Pricing JsDate Balances Wallet.

(** ** Tables *)

Record Alloc := {
  al_id : Z; al_units : Units; al_operator : bool; al_operator_grant_id : option Z;
  al_reversed_at : option Z; al_expires_at : option Z; al_created_at : Z;
  al_entity : option Z; al_source_kind : string; al_source_key : string }.

Record Reservation := {
  rs_id : Z; rs_entity : option Z; rs_requested : text; rs_held : text;
  rs_confirmed : option text; rs_status : ReservationStatus; rs_expires_at : Z }.

Record HoldRow := { h_reservation : Z; h_allocation : Z; h_held : Z; h_consumed : Z }.

Record OperatorGrant := { og_id : Z; og_revoked_quantity : Z; og_revoked_at : option Z }.

Record Store := {
  s_allocs : list Alloc; s_reservations : list Reservation; s_holds : list HoldRow;
  s_grants : list OperatorGrant }.

Definition with_units (a : Alloc) (u : Units) : Alloc :=
  {| al_id := al_id a; al_units := u; al_operator := al_operator a;
     al_operator_grant_id := al_operator_grant_id a; al_reversed_at := al_reversed_at a;
     al_expires_at := al_expires_at a; al_created_at := al_created_at a; al_entity := al_entity a;
     al_source_kind := al_source_kind a; al_source_key := al_source_key a |}.

(** ** The spend order ([allocationSpendOrderSql]) *)

(** [NULLS LAST] on an ascending column. *)
Definition compareNullsLast (a b : option Z) : comparison :=
  match a, b with
  | Some x, Some y => x ?= y
  | Some _, None => Lt
  | None, Some _ => Gt
  | None, None => Eq
  end.
(** [false] before [true]: an entity's own allocations before the pool. *)
Definition comparePool (a b : option Z) : comparison :=
  match a, b with
  | Some _, None => Lt
  | None, Some _ => Gt
  | _, _ => Eq
  end.
Definition thenCompare (c d : comparison) : comparison := match c with Eq => d | _ => c end.

Definition spendCompare (a b : Alloc) : comparison :=
  thenCompare (compareNullsLast (al_expires_at a) (al_expires_at b))
    (thenCompare (comparePool (al_entity a) (al_entity b))
      (thenCompare (al_created_at a ?= al_created_at b) (al_id a ?= al_id b))).

Fixpoint insertSpend (a : Alloc) (l : list Alloc) : list Alloc :=
  match l with
  | [] => [a]
  | b :: l' => match spendCompare a b with Gt => b :: insertSpend a l' | _ => a :: l end
  end.
Definition spendSorted (l : list Alloc) : list Alloc := fold_right insertSpend [] l.

(** ** Reading rows *)

Definition readRow (scale : Z) (a : Alloc) : AllocationRow :=
  let u := al_units a in
  {| a_id := al_id a; a_quantity := DbText (unitsToDecimal (u_quantity u) scale);
     a_reversed_quantity := DbText (unitsToDecimal (u_reversed u) scale);
     a_consumed_quantity := DbText (unitsToDecimal (u_consumed u) scale);
     a_held_quantity := DbText (unitsToDecimal (u_held u) scale);
     a_source_kind := al_source_kind a; a_source_key := al_source_key a;
     a_expires_at := al_expires_at a; a_created_at := al_created_at a; a_reversed_at := al_reversed_at a;
     a_entity_external_id := option_map pretty (al_entity a);
     a_rollover_origin_allocation_id := None; a_carry_over_origin_allocation_id := None;
     a_rollover_policy_revision := None; a_period_start_at := None; a_period_end_at := None;
     a_closed := false |}.

Definition sharedWith (entity : option Z) (a : Alloc) : bool :=
  match al_entity a with None => true | Some e => bool_decide (entity = Some e) end.
Definition liveAt (now : Z) (a : Alloc) : bool :=
  match al_reversed_at a with Some _ => false | None =>
    match al_expires_at a with None => true | Some e => now <? e end end.

(** What a write for an entity may spend now. *)
Definition spendable (entity : option Z) (now : Z) (a : Alloc) : bool := sharedWith entity a && liveAt now a.

(** [lockAllocations] and [lockAllAllocationRows]. *)
Definition lockAllocations (s : Store) (entity : option Z) (now : Z) : list Alloc :=
  spendSorted (List.filter (spendable entity now) (s_allocs s)).
Definition lockAllAllocationRows (s : Store) (entity : option Z) : list Alloc :=
  spendSorted (List.filter (sharedWith entity) (s_allocs s)).

(** ** Writing *)

Definition set_allocs (s : Store) (l : list Alloc) : Store :=
  {| s_allocs := l; s_reservations := s_reservations s; s_holds := s_holds s; s_grants := s_grants s |}.

Definition addColumn (column : DeductionColumn) (n : Z) (u : Units) : Units :=
  match column with
  | consumed_quantity => {| u_quantity := u_quantity u; u_reversed := u_reversed u;
                            u_consumed := u_consumed u + n; u_held := u_held u |}
  | held_quantity => {| u_quantity := u_quantity u; u_reversed := u_reversed u;
                        u_consumed := u_consumed u; u_held := u_held u + n |}
  end.

(** One [UPDATE ... WHERE id = ...] per planned deduction. *)
Definition updateAlloc (id : Z) (f : Alloc -> Alloc) (s : Store) : Store :=
  set_allocs s (map (fun a => if al_id a =? id then f a else a) (s_allocs s)).

Definition applyDeductions (scale : Z) (column : DeductionColumn) (deductions : list AllocationDeduction)
  (s : Store) : result Store :=
  foldM (fun s d =>
    n ← decimalToUnits (de_quantity d) scale;
    Ok (updateAlloc (de_allocationId d) (fun a => with_units a (addColumn column n (al_units a))) s))
    deductions s.

(** [settleHeldQuantitySql]: both updates of the statement. *)
Definition revokedOperator (a : Alloc) : bool :=
  al_operator a && match al_reversed_at a with Some _ => true | None => false end.

Definition settleUnits (consume release : Z) (a : Alloc) : Units :=
  let u := al_units a in
  {| u_quantity := u_quantity u;
     u_reversed := u_reversed u + (if revokedOperator a then Z.max (release - consume) 0 else 0);
     u_consumed := u_consumed u + consume; u_held := u_held u - release |}.

Definition revokeGrant (consume release : Z) (a : Alloc) (g : OperatorGrant) : OperatorGrant :=
  if revokedOperator a && (consume <? release) && bool_decide (al_operator_grant_id a = Some (og_id g))
     && match og_revoked_at g with Some _ => true | None => false end
  then {| og_id := og_id g; og_revoked_quantity := og_revoked_quantity g + Z.max (release - consume) 0;
          og_revoked_at := og_revoked_at g |}
  else g.

Definition settleHeldQuantity (id consume release : Z) (s : Store) : Store :=
  let grants := fold_left (fun gs a => if al_id a =? id then map (revokeGrant consume release a) gs else gs)
                  (s_allocs s) (s_grants s) in
  let s' := updateAlloc id (fun a => with_units a (settleUnits consume release a)) s in
  {| s_allocs := s_allocs s'; s_reservations := s_reservations s; s_holds := s_holds s; s_grants := grants |}.

Definition set_holds (s : Store) (l : list HoldRow) : Store :=
  {| s_allocs := s_allocs s; s_reservations := s_reservations s; s_holds := l; s_grants := s_grants s |}.
Definition set_reservations (s : Store) (l : list Reservation) : Store :=
  {| s_allocs := s_allocs s; s_reservations := l; s_holds := s_holds s; s_grants := s_grants s |}.

Definition setConsumed (rid aid consumed : Z) (s : Store) : Store :=
  set_holds s (map (fun h => if (h_reservation h =? rid) && (h_allocation h =? aid)
    then {| h_reservation := rid; h_allocation := aid; h_held := h_held h; h_consumed := consumed |} else h)
    (s_holds s)).

Definition applyChange (rid : Z) (s : Store) (c : PlannedChange) : Store :=
  let s' := settleHeldQuantity (pc_allocationId c) (pc_consume c) (pc_release c) s in
  if pc_hasHold c
  then setConsumed rid (pc_allocationId c)
         (if pc_release c <? pc_consume c then pc_release c else pc_consume c) s'
  else s'.

(** The writes of [applyConfirmation]; [shrinkKeptLevels] lowers quantities of kept
    non-consumable levels and is modelled on its own. *)
Definition applyConfirmation (rid : Z) (plan : ConfirmationPlan) (s : Store) : Store :=
  fold_left (applyChange rid) (cp_changes plan) s.

Definition holdsOf (s : Store) (rid : Z) : list HoldRow :=
  List.filter (fun h => h_reservation h =? rid) (s_holds s).

Definition readHold (scale : Z) (h : HoldRow) : ReservationAllocationRow :=
  {| ra_allocation_id := h_allocation h; ra_held_quantity := DbText (unitsToDecimal (h_held h) scale);
     ra_consumed_quantity := DbText (unitsToDecimal (h_consumed h) scale) |}.

(** [UPDATE reservations SET status = ... WHERE id = ...], of active ones. *)
Definition finalize (rid : Z) (status : ReservationStatus) (confirmed : option text) (s : Store) : Store :=
  set_reservations s (map (fun r =>
    if (rs_id r =? rid) && bool_decide (rs_status r = st_active)
    then {| rs_id := rs_id r; rs_entity := rs_entity r; rs_requested := rs_requested r; rs_held := rs_held r;
            rs_confirmed := match confirmed with Some q => Some q | None => rs_confirmed r end;
            rs_status := status; rs_expires_at := rs_expires_at r |}
    else r) (s_reservations s)).

Definition findReservation (s : Store) (rid : Z) : option Reservation :=
  List.find (fun r => rs_id r =? rid) (s_reservations s).

(** ** Transactions *)

Inductive Outcome :=
  | Denied (reason : DecisionReason)
  | Consumed (deductions : list AllocationDeduction)
  | Reserved (rid : Z) (deductions : list AllocationDeduction)
  | Confirmed (deductions : list AllocationDeduction)
  | Finalized (status : ReservationStatus).

Section Transactions.
Context (feature : FeatureRow) (rate : RateDecision).
Local Abbreviation scale := (credit_scale feature).
Local Abbreviation meterScale := (credit_scale (r_meter rate)).

(** The wallet path of [consumeWithinTransaction]; [controlsDeny] is the answer of
    [consumeControls]. *)
Definition consumeWallet (entity : option Z) (requested walletQuantity : text) (controlsDeny : bool) (now : Z)
  (s : Store) : result (Store * Outcome) :=
  let rows := map (readRow scale) (lockAllocations s entity now) in
  balance ← balanceFromRows feature rows;
  decision ← buildDecision [] rate requested walletQuantity balance;
  if negb (d_allowed decision) then Ok (s, Denied (d_reason decision))
  else if controlsDeny then Ok (s, Denied reason_control_limit_exceeded)
  else
    deductions ← planDeductions rows scale walletQuantity;
    s' ← applyDeductions scale consumed_quantity deductions s;
    Ok (s', Consumed deductions).

(** [insertReservationAllocations]. *)
Definition insertHolds (rid : Z) (deductions : list AllocationDeduction) (s : Store) : result Store :=
  holds ← mapM (fun d => n ← decimalToUnits (de_quantity d) scale;
                 Ok {| h_reservation := rid; h_allocation := de_allocationId d; h_held := n; h_consumed := 0 |})
            deductions;
  Ok (set_holds s (s_holds s ++ holds)).

(** The wallet path of [reserveWithinTransaction]; [rid] is the id the database
    generates.  A control denial deletes the reservation it inserted. *)
Definition reserveWallet (rid : Z) (entity : option Z) (requested walletQuantity : text) (controlsDeny : bool)
  (expiresAt now : Z) (s : Store) : result (Store * Outcome) :=
  let rows := map (readRow scale) (lockAllocations s entity now) in
  balance ← balanceFromRows feature rows;
  decision ← buildDecision [] rate requested walletQuantity balance;
  if negb (d_allowed decision) then Ok (s, Denied (d_reason decision))
  else if controlsDeny then Ok (s, Denied reason_control_limit_exceeded)
  else
    deductions ← planDeductions rows scale walletQuantity;
    let inserted := set_reservations s (s_reservations s ++
      [ {| rs_id := rid; rs_entity := entity; rs_requested := requested; rs_held := walletQuantity;
           rs_confirmed := None; rs_status := st_active; rs_expires_at := expiresAt |} ]) in
    s1 ← applyDeductions scale held_quantity deductions inserted;
    s2 ← insertHolds rid deductions s1;
    Ok (s2, Reserved rid deductions).

(** [releaseReservationHolds]. *)
Definition releaseHolds (rid : Z) (status : ReservationStatus) (s : Store) : result Store :=
  s' ← foldM (fun s h =>
      held ← databaseUnits (ra_held_quantity h) "reservation held" scale;
      consumed ← databaseUnits (ra_consumed_quantity h) "reservation consumed" scale;
      let remaining := held - consumed in
      Ok (if remaining <=? 0 then s else settleHeldQuantity (ra_allocation_id h) 0 remaining s))
    (map (readHold scale) (holdsOf s rid)) s;
  Ok (finalize rid status None s').

(** [releaseWithinTransaction] on a wallet reservation. *)
Definition releaseWallet (rid now : Z) (s : Store) : result (Store * Outcome) :=
  match findReservation s rid with
  | None => Err (BillingErr "Reservation was not found" "RESERVATION_NOT_FOUND" 404)
  | Some r =>
      match rs_status r with
      | st_active =>
          let status := if rs_expires_at r <=? now then st_expired else st_released in
          s' ← releaseHolds rid status s; Ok (s', Finalized status)
      | other => Ok (s, Finalized other)
      end
  end.

(** The wallet path of [confirmWithinTransaction]: the checks in the code's order,
    then the plan and its writes. *)
Definition confirmWallet (rid : Z) (input walletQuantity : text) (controlsDeny : bool) (now : Z) (s : Store)
  : result (Store * Outcome) :=
  match findReservation s rid with
  | None => Err (BillingErr "Reservation was not found" "RESERVATION_NOT_FOUND" 404)
  | Some r =>
      quantity ← positiveDecimal input "quantity" meterScale;
      match rs_status r with
      | st_confirmed =>
          if bool_decide (rs_confirmed r = Some quantity) then Ok (s, Finalized st_confirmed)
          else Err (BillingErr "Reservation was confirmed with different usage facts" "RESERVATION_ALREADY_CONFIRMED" 409)
      | st_expired => Ok (s, Finalized st_expired)
      | st_released => Err (BillingErr "Reservation has been released" "RESERVATION_RELEASED" 409)
      | st_active =>
          if rs_expires_at r <=? now then
            s' ← releaseHolds rid st_expired s; Ok (s', Finalized st_expired)
          else
            wanted ← decimalToUnits quantity meterScale;
            authorized ← databaseUnits (DbText (rs_requested r)) "reserved quantity" meterScale;
            _ ← throwWhen (authorized <? wanted)
                  (BillingErr "Confirmed quantity exceeds the reserved authorization" "RESERVATION_QUANTITY_EXCEEDED" 409);
            let rows := map (readRow scale) (lockAllAllocationRows s (rs_entity r)) in
            match planConfirmation rows (map (readHold scale) (holdsOf s rid)) scale walletQuantity now with
            | Err e => if bool_decide (e = insufficientBalance) then Ok (s, Denied reason_insufficient_balance) else Err e
            | Ok plan =>
                if controlsDeny then Ok (s, Denied reason_control_limit_exceeded)
                else Ok (finalize rid st_confirmed (Some quantity) (applyConfirmation rid plan s),
                         Confirmed (cp_deductions plan))
            end
      end
  end.
End Transactions.

(** ** Amounts by id *)

Definition amountFor (l : list (Z * Z)) (id : Z) : Z :=
  sumZ (map (fun p => if fst p =? id then snd p else 0) l).

Lemma amountFor_cons k n l id : amountFor ((k, n) :: l) id = (if k =? id then n else 0) + amountFor l id.
Proof. done. Qed.

Lemma amountFor_app l1 l2 id : amountFor (l1 ++ l2) id = amountFor l1 id + amountFor l2 id.
Proof. unfold amountFor. by rewrite map_app, sumZ_app. Qed.

Lemma amountFor_notin l id : id ∉ map fst l -> amountFor l id = 0.
Proof.
  unfold amountFor. induction l as [|[k n] l IH]; intros H; cbn; [done|].
  cbn in H. apply not_elem_of_cons in H as [Hk H]. rewrite IH by done.
  by replace (k =? id) with false by (symmetry; apply Z.eqb_neq; congruence).
Qed.

Lemma amountFor_unique l id n : NoDup (map fst l) -> (id, n) ∈ l -> amountFor l id = n.
Proof.
  induction l as [|[k m] l IH]; intros Hnd H; [by apply elem_of_nil in H|].
  cbn in Hnd. apply NoDup_cons in Hnd as [Hk Hnd]. unfold amountFor. cbn. fold (amountFor l id).
  apply elem_of_cons in H as [[= -> ->]|H].
  - rewrite Z.eqb_refl, amountFor_notin by done. lia.
  - rewrite (IH Hnd H). replace (k =? id) with false; [done|]. symmetry. apply Z.eqb_neq. intros ->.
    apply Hk. apply list_elem_of_fmap. exists (id, n). done.
Qed.

Lemma amountFor_nonneg l id : Forall (fun p => 0 <= snd p) l -> 0 <= amountFor l id.
Proof.
  intros H. apply sumZ_nonneg, Forall_map. eapply Forall_impl; [exact H|]. intros [k n] Hn; cbn in *.
  destruct (k =? id); lia.
Qed.

Lemma sum_indicator k n ids : NoDup ids -> k ∈ ids -> sumZ (map (fun i => if k =? i then n else 0) ids) = n.
Proof.
  induction ids as [|i ids IH]; intros Hnd Hk; [by apply elem_of_nil in Hk|]. cbn.
  apply NoDup_cons in Hnd as [Hi Hnd]. apply elem_of_cons in Hk as [->|Hk].
  - rewrite Z.eqb_refl. enough (sumZ (map (fun j => if i =? j then n else 0) ids) = 0) by lia.
    clear IH Hnd. induction ids as [|j ids IH]; [done|]. cbn. apply not_elem_of_cons in Hi as [Hij Hi].
    rewrite IH by done. by replace (i =? j) with false by (symmetry; apply Z.eqb_neq; congruence).
  - rewrite IH by done. replace (k =? i) with false; [lia|]. symmetry. apply Z.eqb_neq. congruence.
Qed.

(** Summed over all ids the amounts are all there. *)
Lemma amountFor_total l ids : NoDup ids -> (forall i, i ∈ map fst l -> i ∈ ids) ->
  sumZ (map (amountFor l) ids) = sumZ (map snd l).
Proof.
  intros Hnd. induction l as [|[k n] l IH]; intros H.
  - cbn. clear. induction ids; cbn; lia.
  - unfold amountFor. cbn [map sumZ fst snd].
    rewrite (sumZ_map_add (fun i => if k =? i then n else 0) (amountFor l)).
    rewrite sum_indicator by (done || (apply H; constructor)).
    rewrite IH; [lia|]. intros i Hi. apply H. by constructor.
Qed.

(** Each row's own amount, for rows paired with amounts. *)
Lemma amountFor_zip {A} (key : A -> Z) (l : list A) (ts : list Z) (P : Z -> A -> Prop) x :
  NoDup (map key l) -> Forall2 P ts l -> x ∈ l ->
  P (amountFor (zip (map key l) ts) (key x)) x.
Proof.
  intros Hnd HP Hx. apply list_elem_of_lookup in Hx as [i Hi].
  destruct (Forall2_lookup_r _ _ _ _ _ HP Hi) as (t & Ht & Hp).
  rewrite (amountFor_unique _ _ t); [done| |].
  - change (map fst (zip (map key l) ts)) with ((zip (map key l) ts).*1). rewrite fst_zip; [done|].
    rewrite length_map. apply Forall2_length in HP. lia.
  - apply list_elem_of_lookup. exists i. apply lookup_zip_with_Some. exists (key x), t.
    split; [done|]. split; [|done]. by rewrite list_lookup_fmap, Hi.
Qed.

Lemma fst_zip_subset {A B} (l : list A) (k : list B) i : i ∈ map fst (zip l k) -> i ∈ l.
Proof.
  revert k. induction l as [|x l IH]; intros [|y k] H; cbn in *; try by apply elem_of_nil in H.
  apply elem_of_cons in H as [->|H]; [constructor|]. constructor. eauto.
Qed.

Lemma snd_zip_sum {A} (l : list A) (k : list Z) : length k = length l -> sumZ (map snd (zip l k)) = sumZ k.
Proof. revert k. induction l as [|x l IH]; intros [|y k] H; cbn in *; try done. rewrite IH; lia. Qed.

(** ** What the writes do to every allocation *)

Lemma addColumn_0 column u : addColumn column 0 u = u.
Proof. destruct u, column; unfold addColumn; cbn; f_equal; lia. Qed.

Lemma with_units_self a : with_units a (al_units a) = a.
Proof. by destruct a. Qed.

Definition addAmounts (column : DeductionColumn) (l : list (Z * Z)) (a : Alloc) : Alloc :=
  with_units a (addColumn column (amountFor l (al_id a)) (al_units a)).

(** The deductions read as amounts by allocation id. *)
Definition amountsOf (scale : Z) (ds : list AllocationDeduction) : result (list (Z * Z)) :=
  mapM (fun d => n ← decimalToUnits (de_quantity d) scale; Ok (de_allocationId d, n)) ds.

Lemma applyDeductions_amounts scale column ds l s :
  amountsOf scale ds = Ok l ->
  applyDeductions scale column ds s = Ok (set_allocs s (map (addAmounts column l) (s_allocs s))).
Proof.
  revert l s. induction ds as [|d ds IH]; intros l s H; unfold amountsOf in H; cbn in H.
  - injection H as <-. cbn. f_equal. unfold set_allocs, addAmounts. destruct s; cbn. f_equal.
    rewrite <- (map_id s_allocs0) at 1. apply map_ext. intros a.
    unfold amountFor. cbn. by rewrite addColumn_0, with_units_self.
  - apply bind_Ok in H as ([k n] & Hd & H). apply bind_Ok in Hd as (n' & Hn & Hd). injection Hd as <- <-.
    apply bind_Ok in H as (l' & Hl & H). injection H as <-.
    cbn [applyDeductions foldM]. rewrite Hn. cbn [mbind result_bind].
    change (foldM _ ds ?x) with (applyDeductions scale column ds x). rewrite (IH l') by exact Hl.
    do 2 f_equal. unfold updateAlloc, set_allocs. cbn. rewrite map_map. apply map_ext. intros a.
    unfold addAmounts, amountFor. cbn. rewrite (Z.eqb_sym (al_id a)). destruct (de_allocationId d =? al_id a); cbn.
    + fold (amountFor l' (al_id a)). destruct a, al_units0, column; unfold with_units, addColumn; cbn; do 2 f_equal; lia.
    + by rewrite Z.add_0_l.
Qed.

(** The planned deductions are positive amounts of the rows' own. *)
Lemma deductionsOf_amounts scale (L : list Alloc) ts :
  0 <= scale -> Forall (fun t => 0 <= t) ts ->
  amountsOf scale (deductionsOf (map (readRow scale) L) ts scale) =
    Ok (filter (fun p => 0 < snd p) (zip (map al_id L) ts)).
Proof.
  intros Hs H. unfold amountsOf. revert ts H. induction L as [|a L IH]; intros ts H; [done|].
  destruct ts as [|t ts]; [done|]. inversion H as [|? ? Ht Hts]; subst. cbn [map deductionsOf zip zip_with].
  specialize (IH ts Hts). destruct (Z.ltb_spec 0 t) as [Hpos|Hzero].
  - rewrite filter_cons_True by done. cbn [app mapM]. cbn [de_quantity de_allocationId allocationDeduction].
    rewrite units_roundtrip by lia. cbn [mbind result_bind]. rewrite IH. done.
  - rewrite filter_cons_False by (cbn; lia). exact IH.
Qed.

Lemma amountFor_filter_pos l id : Forall (fun p => 0 <= snd p) l ->
  amountFor (filter (fun p => 0 < snd p) l) id = amountFor l id.
Proof.
  induction 1 as [|[k n] l Hn Hl IH]; [done|]. cbn in Hn. destruct (decide (0 < n)).
  - rewrite filter_cons_True by done. unfold amountFor in *. cbn. by rewrite IH.
  - rewrite filter_cons_False by done. rewrite IH. unfold amountFor. cbn. replace n with 0 by lia.
    by destruct (k =? id).
Qed.

Lemma sum_filter_pos l : Forall (fun p : Z * Z => 0 <= snd p) l ->
  sumZ (map snd (filter (fun p => 0 < snd p) l)) = sumZ (map snd l).
Proof.
  induction 1 as [|[k n] l Hn Hl IH]; [done|]. cbn in Hn. destruct (decide (0 < n)).
  - rewrite filter_cons_True by done. cbn. by rewrite IH.
  - rewrite filter_cons_False by done. rewrite IH. cbn. lia.
Qed.

(** ** Locked rows *)

Lemma insertSpend_perm a l : insertSpend a l ≡ₚ a :: l.
Proof.
  induction l as [|b l IH]; cbn; [done|]. destruct (spendCompare a b); try done.
  rewrite IH. apply Permutation_swap.
Qed.

Lemma spendSorted_perm l : spendSorted l ≡ₚ l.
Proof. induction l as [|a l IH]; cbn; [done|]. by rewrite insertSpend_perm, IH. Qed.

Lemma sublist_filter_NoDup {A} (f : A -> Z) (p : A -> bool) l :
  NoDup (map f l) -> NoDup (map f (List.filter p l)).
Proof.
  induction l as [|a l IH]; cbn; [done|]. intros [Ha Hnd]%NoDup_cons. destruct (p a); cbn; [|auto].
  apply NoDup_cons. split; [|auto]. intros Hin. apply Ha.
  apply list_elem_of_fmap in Hin as (x & -> & Hx). apply list_elem_of_fmap. exists x. split; [done|].
  apply list_elem_of_In. apply list_elem_of_In in Hx. by apply filter_In in Hx as [? _].
Qed.

Lemma locked_spec (p : Alloc -> bool) s : NoDup (map al_id (s_allocs s)) ->
  let L := spendSorted (List.filter p (s_allocs s)) in
  NoDup (map al_id L) /\ (forall a, a ∈ L <-> a ∈ s_allocs s /\ p a = true).
Proof.
  intros Hnd L. pose proof (spendSorted_perm (List.filter p (s_allocs s))) as Hp. split.
  - eapply NoDup_Permutation_proper; [by apply Permutation_map|]. by apply sublist_filter_NoDup.
  - intros a. unfold L. rewrite Hp, list_elem_of_In, filter_In, <- list_elem_of_In. done.
Qed.

Definition nonneg_units (u : Units) : Prop :=
  0 <= u_quantity u /\ 0 <= u_reversed u /\ 0 <= u_consumed u /\ 0 <= u_held u.

Lemma readRow_represents scale L : 0 <= scale -> Forall (fun a => nonneg_units (al_units a)) L ->
  Forall2 (represents scale) (map (readRow scale) L) (map al_units L).
Proof.
  intros Hs. induction 1 as [|a L (H1 & H2 & H3 & H4) HL IH]; cbn; constructor; [|done].
  split; [|split; [|split]]; intros field; by apply databaseUnits_units.
Qed.

Lemma readRow_open scale L : Forall (fun r => a_closed r = false) (map (readRow scale) L).
Proof. induction L; constructor; done. Qed.

(** ** The tables' invariant *)

Definition isActive (s : Store) (rid : Z) : bool :=
  existsb (fun r => (rs_id r =? rid) && bool_decide (rs_status r = st_active)) (s_reservations s).

#[global] Arguments isActive : simpl never.

(** The quantity open reservations hold of an allocation. *)
Definition openHolds (s : Store) : list (Z * Z) :=
  map (fun h => (h_allocation h, if isActive s (h_reservation h) then h_held h else 0)) (s_holds s).

(** The CHECK constraints, and that a revoked operator grant leaves nothing free. *)
Definition alloc_ok (a : Alloc) : Prop :=
  units_ok (al_units a) /\
  (revokedOperator a = true ->
   u_reversed (al_units a) + u_consumed (al_units a) + u_held (al_units a) <= u_quantity (al_units a)).

Definition hold_ok (s : Store) (h : HoldRow) : Prop :=
  0 < h_held h /\ 0 <= h_consumed h <= h_held h /\
  (isActive s (h_reservation h) = true -> h_consumed h = 0) /\
  h_allocation h ∈ map al_id (s_allocs s) /\ h_reservation h ∈ map rs_id (s_reservations s).

(** Every allocation within its quantity, and holding exactly what the open
    reservations hold of it. *)
Definition heldBy (s : Store) (rid : Z) : Z := sumZ (map h_held (holdsOf s rid)).

Record wallet_inv (scale : Z) (s : Store) : Prop := {
  inv_ids : NoDup (map al_id (s_allocs s));
  inv_allocs : Forall alloc_ok (s_allocs s);
  inv_ledger : forall a, a ∈ s_allocs s -> u_held (al_units a) = amountFor (openHolds s) (al_id a);
  inv_reservations : NoDup (map rs_id (s_reservations s));
  inv_holds : Forall (hold_ok s) (s_holds s);
  inv_keys : NoDup (map (fun h => (h_reservation h, h_allocation h)) (s_holds s));
  inv_scope : forall h a r, h ∈ s_holds s -> a ∈ s_allocs s -> r ∈ s_reservations s ->
    al_id a = h_allocation h -> rs_id r = h_reservation h -> sharedWith (rs_entity r) a = true;
  inv_backed : forall r, r ∈ s_reservations s -> rs_status r = st_active ->
    decimalToUnits (rs_held r) scale = Ok (heldBy s (rs_id r)) }.



Lemma alloc_ok_nonneg a : alloc_ok a -> nonneg_units (al_units a).
Proof. intros [(? & ? & ? & ?) _]. unfold nonneg_units. lia. Qed.

Lemma addAmounts_ids column l allocs : map al_id (map (addAmounts column l) allocs) = map al_id allocs.
Proof. rewrite map_map. by apply map_ext. Qed.

Lemma filter_fst_NoDup (l : list (Z * Z)) : NoDup (map fst l) -> NoDup (map fst (filter (fun q => 0 < snd q) l)).
Proof.
  induction l as [|q l IH]; [done|]. cbn [map]. intros [Hq Hnd]%NoDup_cons. destruct (decide (0 < snd q)).
  - rewrite filter_cons_True by done. cbn. apply NoDup_cons. split; [|auto]. intros Hin. apply Hq.
    apply list_elem_of_fmap in Hin as (x & -> & Hx). apply list_elem_of_filter in Hx as [_ Hx].
    by apply list_elem_of_fmap_2.
  - rewrite filter_cons_False by done. auto.
Qed.

(** The rows of a locked, live wallet with what was planned to be taken from them. *)
Lemma planned_amounts scale s (p : Alloc -> bool) quantity n ds :
  wallet_inv scale s -> decimalToUnits quantity scale = Ok n ->
  planDeductions (map (readRow scale) (spendSorted (List.filter p (s_allocs s)))) scale quantity = Ok ds ->
  exists l, amountsOf scale ds = Ok l /\ Forall (fun q => 0 < snd q) l /\
    NoDup (map fst l) /\ (forall i, i ∈ map fst l -> i ∈ map al_id (s_allocs s)) /\
    sumZ (map snd l) = n /\
    forall a, a ∈ s_allocs s ->
      amountFor l (al_id a) = 0 \/
      (p a = true /\ 0 <= amountFor l (al_id a) <= u_free (al_units a)).
Proof.
  intros Hinv Hn Hds. pose proof (decimalToUnits_scale _ _ _ Hn) as Hs.
  pose proof (decimalToUnits_nonneg _ _ _ Hs Hn) as Hn0.
  destruct (locked_spec p s (inv_ids _ s Hinv)) as [Hnd Hmem].
  set (L := spendSorted (List.filter p (s_allocs s))) in *.
  assert (HL : Forall (fun a => nonneg_units (al_units a)) L).
  { apply Forall_forall. intros a Ha. apply alloc_ok_nonneg.
    pose proof (inv_allocs _ s Hinv) as Hall. rewrite Forall_forall in Hall. apply Hall. by apply Hmem. }
  rewrite (planDeductions_takes _ (map al_units L) _ _ n) in Hds by (done || by apply readRow_represents).
  destruct (Z.leb_spec n (sumZ (map (Z.max 0) (map u_free (map al_units L))))) as [Hle|]; [|done].
  injection Hds as <-. set (ts := takes (map u_free (map al_units L)) n).
  destruct (takes_bounds (map u_free (map al_units L)) n Hn0) as [Hb _]. fold ts in Hb.
  rewrite map_map in Hb. rewrite Forall2_fmap_r in Hb.
  assert (Hts : Forall (fun t => 0 <= t) ts).
  { eapply Forall2_Forall_l; [exact Hb|]. apply Forall_true. by intros ? ? []. }
  assert (Hlen : length ts = length (map al_id L)) by (rewrite length_map; by apply Forall2_length in Hb).
  assert (Hz : Forall (fun q => 0 <= snd q) (zip (map al_id L) ts)).
  { apply Forall_forall. intros [k t] Hk. apply elem_of_zip_r in Hk. rewrite Forall_forall in Hts. by apply Hts. }
  assert (Hfst : map fst (zip (map al_id L) ts) = map al_id L).
  { change ((zip (map al_id L) ts).*1 = map al_id L). apply fst_zip. lia. }
  exists (filter (fun q => 0 < snd q) (zip (map al_id L) ts)).
  split; [by apply deductionsOf_amounts|]. split; [|split; [|split; [|split]]].
  - apply Forall_forall. intros q Hq. by apply list_elem_of_filter in Hq as [? _].
  - apply filter_fst_NoDup. by rewrite Hfst.
  - intros i Hi. apply list_elem_of_fmap in Hi as (q & -> & Hq). apply list_elem_of_filter in Hq as [_ Hq].
    assert (Hin : fst q ∈ map al_id L) by (rewrite <- Hfst; by apply list_elem_of_fmap_2).
    apply list_elem_of_fmap in Hin as (a & -> & Ha). apply Hmem in Ha as [Ha _]. by apply list_elem_of_fmap_2.
  - rewrite sum_filter_pos, snd_zip_sum by done. unfold ts. rewrite takes_covers by done. by apply Z.min_l.
  - intros a Ha. rewrite amountFor_filter_pos by done. destruct (p a) eqn:Hp.
    + assert (HaL : a ∈ L) by (by apply Hmem).
      pose proof (amountFor_zip al_id L ts (fun t b => 0 <= t /\ (t <= u_free (al_units b) \/ t = 0)) a Hnd Hb HaL) as [H0 Hle'].
      destruct Hle' as [Hle'| ->]; [right; split; [done|lia]|by left].
    + left. apply amountFor_notin. rewrite Hfst. intros Hin. apply list_elem_of_fmap in Hin as (b & Hid & Hb').
      apply Hmem in Hb' as [Hbs Hpb].
      assert (a = b) as -> by (eapply NoDup_key_inj; [apply (inv_ids _ s Hinv)|done|done|done]). congruence.
Qed.

Lemma live_not_revoked now a : liveAt now a = true -> revokedOperator a = false.
Proof. unfold liveAt, revokedOperator. destruct (al_reversed_at a); [done|]. by rewrite andb_false_r. Qed.

(** Amounts within what live rows have free keep every allocation within bounds. *)
Lemma addAmounts_ok entity now column l a :
  alloc_ok a ->
  amountFor l (al_id a) = 0 \/ (spendable entity now a = true /\ 0 <= amountFor l (al_id a) <= u_free (al_units a)) ->
  alloc_ok (addAmounts column l a).
Proof.
  intros [(Hr & Hc & Hh & Hcap) Hop] Hl. unfold alloc_ok, addAmounts.
  set (n := amountFor l (al_id a)) in *.
  assert (Hsame : revokedOperator (with_units a (addColumn column n (al_units a))) = revokedOperator a) by done.
  rewrite Hsame. cbn [al_units with_units]. destruct Hl as [Hn|[[_ Hlive]%andb_prop [Hn0 Hn]]].
  - rewrite Hn, addColumn_0. done.
  - rewrite (live_not_revoked _ _ Hlive) in *. unfold u_free in Hn.
    split; [|done]. unfold units_ok. destruct column; cbn; lia.
Qed.

Lemma addAmounts_allocs scale entity now column s l : wallet_inv scale s ->
  (forall a, a ∈ s_allocs s -> amountFor l (al_id a) = 0 \/
     (spendable entity now a = true /\ 0 <= amountFor l (al_id a) <= u_free (al_units a))) ->
  Forall alloc_ok (map (addAmounts column l) (s_allocs s)).
Proof.
  intros Hinv Hl. apply Forall_map, Forall_forall. intros a Ha. apply (addAmounts_ok entity now); [|auto].
  pose proof (inv_allocs _ s Hinv) as Hall. rewrite Forall_forall in Hall. auto.
Qed.

Section Preservation.
Context (feature : FeatureRow) (rate : RateDecision).
Local Abbreviation scale := (credit_scale feature).

(** Consumed units of a wallet. *)
Definition totalConsumed (s : Store) : Z := sumZ (map (fun a => u_consumed (al_units a)) (s_allocs s)).
Definition totalHeld (s : Store) : Z := sumZ (map (fun a => u_held (al_units a)) (s_allocs s)).

Lemma planned_live entity now s quantity n ds :
  wallet_inv scale s -> decimalToUnits quantity scale = Ok n ->
  planDeductions (map (readRow scale) (lockAllocations s entity now)) scale quantity = Ok ds ->
  exists l, amountsOf scale ds = Ok l /\ Forall (fun q => 0 < snd q) l /\
    NoDup (map fst l) /\ (forall i, i ∈ map fst l -> i ∈ map al_id (s_allocs s)) /\
    sumZ (map snd l) = n /\
    forall a, a ∈ s_allocs s ->
      amountFor l (al_id a) = 0 \/
      (spendable entity now a = true /\ 0 <= amountFor l (al_id a) <= u_free (al_units a)).
Proof.
  intros Hinv Hn Hds. exact (planned_amounts _ _ _ _ _ _ Hinv Hn Hds).
Qed.

Lemma consume_spec entity requested quantity deny now s s' out :
  wallet_inv scale s -> consumeWallet feature rate entity requested quantity deny now s = Ok (s', out) ->
  (s' = s /\ exists reason, out = Denied reason) \/
  (exists ds l n, out = Consumed ds /\ decimalToUnits quantity scale = Ok n /\ amountsOf scale ds = Ok l /\
    sumZ (map snd l) = n /\ (forall i, i ∈ map fst l -> i ∈ map al_id (s_allocs s)) /\
    (forall a, a ∈ s_allocs s -> amountFor l (al_id a) = 0 \/
      (spendable entity now a = true /\ 0 <= amountFor l (al_id a) <= u_free (al_units a))) /\
    s' = set_allocs s (map (addAmounts consumed_quantity l) (s_allocs s))).
Proof.
  intros Hinv H. unfold consumeWallet in H.
  apply bind_Ok in H as (b & _ & H). apply bind_Ok in H as (d & _ & H).
  destruct (negb (d_allowed d)); [injection H as <- <-; left; eauto|].
  destruct deny; [injection H as <- <-; left; eauto|]. right.
  apply bind_Ok in H as (ds & Hplan & H). apply bind_Ok in H as (s1 & Happ & H). injection H as <- <-.
  destruct (decimalToUnits quantity scale) as [n|e] eqn:Hn; [|unfold planDeductions in Hplan; by rewrite Hn in Hplan].
  destruct (planned_live _ _ _ _ _ _ Hinv Hn Hplan) as (l & Hl & _ & _ & Hids & Hsum & Hfree).
  exists ds, l, n. rewrite (applyDeductions_amounts _ _ _ _ _ Hl) in Happ. injection Happ as <-.
  auto 10.
Qed.

Lemma addAmounts_total column l s (f : Units -> Z) :
  (forall n u, f (addColumn column n u) = f u + n) ->
  wallet_inv scale s -> (forall i, i ∈ map fst l -> i ∈ map al_id (s_allocs s)) ->
  sumZ (map (fun a => f (al_units a)) (map (addAmounts column l) (s_allocs s)))
    = sumZ (map (fun a => f (al_units a)) (s_allocs s)) + sumZ (map snd l).
Proof.
  intros Hf Hinv Hids. rewrite map_map. cbn.
  rewrite (map_ext _ (fun a => f (al_units a) + amountFor l (al_id a))) by (intros a; cbn; apply Hf).
  rewrite sumZ_map_add. f_equal. rewrite <- (map_map al_id (amountFor l)).
  apply amountFor_total; [apply (inv_ids _ s Hinv)|done].
Qed.

(** Consuming keeps the tables' invariant and consumes exactly what was asked. *)
Lemma consume_preserves entity requested quantity deny now s s' out :
  wallet_inv scale s -> consumeWallet feature rate entity requested quantity deny now s = Ok (s', out) ->
  wallet_inv scale s' /\ totalHeld s' = totalHeld s /\
  forall ds, out = Consumed ds -> exists n, decimalToUnits quantity scale = Ok n /\
    totalConsumed s' = totalConsumed s + n.
Proof.
  intros Hinv H. destruct (consume_spec _ _ _ _ _ _ _ _ Hinv H) as
    [[-> [r ->] ]|(ds & l & n & -> & Hn & Hl & Hsum & Hids & Hfree & ->)]; [done|].
  split; [|split].
  - destruct Hinv as [Hi Ha Hled Hres Hh Hk Hsc Hback]. constructor; cbn.
    + by rewrite addAmounts_ids.
    + by apply (addAmounts_allocs scale entity now).
    + intros a Hin. apply list_elem_of_fmap in Hin as (b & -> & Hb). cbn. by apply Hled.
    + done.
    + eapply Forall_impl; [exact Hh|]. intros h (? & ? & ? & ? & ?). unfold hold_ok. cbn.
      rewrite addAmounts_ids. auto.
    + done.
    + intros h a r Hin Ha' Hr Hid Hrid. apply list_elem_of_fmap in Ha' as (b & -> & Hb). by apply (Hsc h b r).
    + done.
  - unfold totalHeld. cbn. rewrite map_map. by apply f_equal, map_ext.
  - intros _ _. exists n. split; [done|]. unfold totalConsumed. cbn. rewrite <- Hsum.
    by apply (addAmounts_total consumed_quantity l s u_consumed).
Qed.

(** The hold row of an amount. *)
Definition heldRow (rid : Z) (p : Z * Z) : HoldRow :=
  {| h_reservation := rid; h_allocation := fst p; h_held := snd p; h_consumed := 0 |}.

Lemma insertHolds_amounts rid ds l s :
  amountsOf scale ds = Ok l ->
  insertHolds feature rid ds s = Ok (set_holds s (s_holds s ++ map (heldRow rid) l)).
Proof.
  intros H. unfold insertHolds.
  assert (Hm : mapM (fun d => n ← decimalToUnits (de_quantity d) scale;
      Ok {| h_reservation := rid; h_allocation := de_allocationId d; h_held := n; h_consumed := 0 |}) ds
    = Ok (map (heldRow rid) l)).
  { revert l H. induction ds as [|d ds IH]; intros l H; unfold amountsOf in H; cbn in *; [by injection H as <-|].
    apply bind_Ok in H as (q & Hq & H). apply bind_Ok in Hq as (n & Hn & Hq). injection Hq as <-.
    apply bind_Ok in H as (l' & Hl & H). injection H as <-. rewrite Hn. cbn.
    by rewrite (IH l'). }
  by rewrite Hm.
Qed.

Definition newReservation (rid : Z) (entity : option Z) (requested quantity : text) (expiresAt : Z) : Reservation :=
  {| rs_id := rid; rs_entity := entity; rs_requested := requested; rs_held := quantity;
     rs_confirmed := None; rs_status := st_active; rs_expires_at := expiresAt |}.

Lemma reserve_spec rid entity requested quantity deny expiresAt now s s' out :
  wallet_inv scale s -> reserveWallet feature rate rid entity requested quantity deny expiresAt now s = Ok (s', out) ->
  (s' = s /\ exists reason, out = Denied reason) \/
  (exists ds l n, out = Reserved rid ds /\ decimalToUnits quantity scale = Ok n /\ amountsOf scale ds = Ok l /\
    Forall (fun q => 0 < snd q) l /\ NoDup (map fst l) /\
    sumZ (map snd l) = n /\ (forall i, i ∈ map fst l -> i ∈ map al_id (s_allocs s)) /\
    (forall a, a ∈ s_allocs s -> amountFor l (al_id a) = 0 \/
      (spendable entity now a = true /\ 0 <= amountFor l (al_id a) <= u_free (al_units a))) /\
    s' = {| s_allocs := map (addAmounts held_quantity l) (s_allocs s);
            s_reservations := s_reservations s ++ [newReservation rid entity requested quantity expiresAt];
            s_holds := s_holds s ++ map (heldRow rid) l; s_grants := s_grants s |}).
Proof.
  intros Hinv H. unfold reserveWallet in H.
  apply bind_Ok in H as (b & _ & H). apply bind_Ok in H as (d & _ & H).
  destruct (negb (d_allowed d)); [injection H as <- <-; left; eauto|].
  destruct deny; [injection H as <- <-; left; eauto|]. right.
  apply bind_Ok in H as (ds & Hplan & H). apply bind_Ok in H as (s1 & Happ & H).
  apply bind_Ok in H as (s2 & Hins & H). injection H as <- <-.
  destruct (decimalToUnits quantity scale) as [n|e] eqn:Hn; [|unfold planDeductions in Hplan; by rewrite Hn in Hplan].
  destruct (planned_live _ _ _ _ _ _ Hinv Hn Hplan) as (l & Hl & Hpos & Hnd & Hids & Hsum & Hfree).
  exists ds, l, n. rewrite (applyDeductions_amounts _ _ _ _ _ Hl) in Happ. injection Happ as <-.
  rewrite (insertHolds_amounts _ _ _ _ Hl) in Hins. injection Hins as <-. auto 12.
Qed.

Lemma isActive_insert s t r rid : s_reservations t = s_reservations s ++ [r] -> rs_id r <> rid ->
  isActive t rid = isActive s rid.
Proof.
  intros Ht Hne. unfold isActive. rewrite Ht, existsb_app. cbn.
  replace (rs_id r =? rid) with false by (symmetry; by apply Z.eqb_neq). by rewrite orb_false_r.
Qed.

Lemma isActive_new s t r : s_reservations t = s_reservations s ++ [r] -> rs_status r = st_active ->
  isActive t (rs_id r) = true.
Proof.
  intros Ht Hst. unfold isActive. rewrite Ht, existsb_app. cbn. rewrite Z.eqb_refl, Hst.
  rewrite bool_decide_eq_true_2 by done. by rewrite !orb_true_r.
Qed.

(** Reads [isActive] of an older reservation before the insert. *)
Local Ltac inserted_active s Hne :=
  match goal with
  | |- context [isActive (Build_Store ?a (_ ++ [?r]) ?c ?d) ?i] =>
      rewrite (isActive_insert s (Build_Store a (s_reservations s ++ [r]) c d) r i)
        by (reflexivity || (cbn; intros Heq; by apply Hne))
  end.

(** Reserving keeps the tables' invariant and holds exactly what was asked. *)
Lemma reserve_preserves rid entity requested quantity deny expiresAt now s s' out :
  wallet_inv scale s -> rid ∉ map rs_id (s_reservations s) ->
  reserveWallet feature rate rid entity requested quantity deny expiresAt now s = Ok (s', out) ->
  wallet_inv scale s' /\ totalConsumed s' = totalConsumed s /\
  forall r ds, out = Reserved r ds -> exists n, decimalToUnits quantity scale = Ok n /\
    totalHeld s' = totalHeld s + n.
Proof.
  intros Hinv Hfresh H. destruct (reserve_spec _ _ _ _ _ _ _ _ _ _ Hinv H) as
    [[-> [r ->] ]|(ds & l & n & -> & Hn & Hl & Hpos & Hnd & Hsum & Hids & Hfree & ->)]; [done|].
  assert (Hne : forall h, h ∈ s_holds s -> h_reservation h <> rid).
  { intros h Hh Heq. subst rid. pose proof (inv_holds _ s Hinv) as Hall. rewrite Forall_forall in Hall.
    by destruct (Hall h Hh) as (_ & _ & _ & _ & ?). }
  split; [|split].
  - destruct Hinv as [Hi Ha Hled Hres Hh Hk Hsc Hback]. constructor; cbn [s_allocs s_reservations s_holds].
    + by rewrite addAmounts_ids.
    + by apply (addAmounts_allocs scale entity now).
    + intros a Hin. apply list_elem_of_fmap in Hin as (b & -> & Hb). cbn [al_id addAmounts with_units al_units addColumn u_held].
      unfold openHolds. cbn [s_holds]. rewrite map_app, amountFor_app, (Hled b Hb). f_equal.
      * unfold openHolds. f_equal. apply map_ext_in. intros h Hin%list_elem_of_In.
        inserted_active s (Hne h Hin). done.
      * rewrite map_map. unfold amountFor. rewrite map_map. f_equal. apply map_ext. intros q. cbn.
        change rid with (rs_id (newReservation rid entity requested quantity expiresAt)) at 2.
        by rewrite (isActive_new s _ (newReservation rid entity requested quantity expiresAt)).
    + rewrite map_app. apply NoDup_app. split; [done|]. split; [|apply NoDup_singleton].
      intros i Hin Hnew. apply list_elem_of_singleton in Hnew as ->. done.
    + apply Forall_app. split.
      * apply Forall_forall. intros h Hin. rewrite Forall_forall in Hh.
        destruct (Hh h Hin) as (? & ? & ? & ? & ?). unfold hold_ok. cbn [s_allocs s_reservations].
        rewrite addAmounts_ids, map_app.
        inserted_active s (Hne h Hin).
        split; [done|]. split; [done|]. split; [done|]. split; [done|]. apply elem_of_app. by left.
      * apply Forall_map, Forall_forall. intros q Hq. rewrite Forall_forall in Hpos. specialize (Hpos q Hq).
        unfold hold_ok, heldRow. cbn [h_held h_consumed h_allocation h_reservation s_allocs s_reservations].
        rewrite addAmounts_ids, map_app. split; [done|]. split; [lia|]. split; [done|].
        split; [apply Hids; by apply list_elem_of_fmap_2|]. apply elem_of_app. right. constructor.
    + rewrite map_app, map_map. apply NoDup_app. split; [done|]. split.
      * intros k Hold Hnew. apply list_elem_of_fmap in Hold as (h & -> & Hin).
        apply list_elem_of_fmap in Hnew as (q & [= Heq _] & _). by apply (Hne h).
      * cbn. rewrite <- (map_map fst (pair rid)). by apply NoDup_fmap_2; [intros ? ? [=]|].
    + intros h a r Hin Ha' Hr Hid Hrid. apply list_elem_of_fmap in Ha' as (b & -> & Hb). cbn in Hid.
      change (sharedWith (rs_entity r) b = true).
      apply elem_of_app in Hin as [Hin|Hin]; apply elem_of_app in Hr as [Hr|Hr].
      * by apply (Hsc h b r).
      * apply list_elem_of_singleton in Hr as ->. exfalso. by apply (Hne h).
      * apply list_elem_of_fmap in Hin as (q & -> & _). cbn in Hrid. subst rid.
        exfalso. apply Hfresh. by apply list_elem_of_fmap_2.
      * apply list_elem_of_singleton in Hr as ->. apply list_elem_of_fmap in Hin as (q & -> & Hq). cbn in Hid.
        assert (Hamt : amountFor l (al_id b) = snd q) by (rewrite Hid; apply amountFor_unique; [done|by destruct q]).
        rewrite Forall_forall in Hpos. specialize (Hpos q Hq).
        destruct (Hfree b Hb) as [Hz|[[Hs _]%andb_prop _] ]; [lia|exact Hs].
    + intros r Hr Hact. unfold heldBy, holdsOf. cbn [s_holds]. rewrite List.filter_app, map_app, sumZ_app.
      apply elem_of_app in Hr as [Hr|Hr].
      * rewrite (Hback r Hr Hact). unfold heldBy, holdsOf. f_equal.
        rewrite (filter_none _ (map (heldRow rid) l)); [cbn; lia|].
        intros h Hin. apply list_elem_of_fmap in Hin as (q & -> & _). cbn. apply Z.eqb_neq.
        intros ->. apply Hfresh. by apply list_elem_of_fmap_2.
      * apply list_elem_of_singleton in Hr as ->. cbn [rs_held rs_id newReservation].
        rewrite (filter_none _ (s_holds s)) by (intros h Hin; apply Z.eqb_neq; by apply Hne).
        rewrite (filter_all _ (map (heldRow rid) l)).
        -- rewrite map_map. cbn. rewrite Hn, <- Hsum. reflexivity.
        -- intros h Hin. apply list_elem_of_fmap in Hin as (q & -> & _). apply Z.eqb_refl.
  - unfold totalConsumed. cbn [s_allocs]. rewrite map_map. by apply f_equal, map_ext.
  - intros _ _ _. exists n. split; [done|]. unfold totalHeld. cbn [s_allocs]. rewrite <- Hsum.
    by apply (addAmounts_total held_quantity l s u_held).
Qed.
End Preservation.

(** ** Settling holds *)

(** Settlements by allocation id: what each consumes and releases. *)
Definition settleList (cs : list (Z * (Z * Z))) (s : Store) : Store :=
  fold_left (fun s p => settleHeldQuantity (fst p) (fst (snd p)) (snd (snd p)) s) cs s.

Definition consumes (cs : list (Z * (Z * Z))) : list (Z * Z) := map (fun p => (fst p, fst (snd p))) cs.
Definition releases (cs : list (Z * (Z * Z))) : list (Z * Z) := map (fun p => (fst p, snd (snd p))) cs.

Definition settled (consume release : Z -> Z) (a : Alloc) : Alloc :=
  with_units a (settleUnits (consume (al_id a)) (release (al_id a)) a).

Lemma settleUnits_0 a : settleUnits 0 0 a = al_units a.
Proof.
  unfold settleUnits. destruct (al_units a), (revokedOperator a); cbn; f_equal; lia.
Qed.

Lemma settleHeldQuantity_allocs id c r s :
  s_allocs (settleHeldQuantity id c r s) =
    map (fun a => if al_id a =? id then with_units a (settleUnits c r a) else a) (s_allocs s).
Proof. reflexivity. Qed.

(** With at most one settlement per allocation, the writes settle each allocation by
    its own. *)
Lemma settleList_allocs cs s : NoDup (map fst cs) ->
  s_allocs (settleList cs s) = map (settled (amountFor (consumes cs)) (amountFor (releases cs))) (s_allocs s) /\
  s_reservations (settleList cs s) = s_reservations s /\ s_holds (settleList cs s) = s_holds s.
Proof.
  revert s. induction cs as [|[id [c r]] cs IH]; intros s Hnd.
  - cbn. split; [|done]. rewrite <- (map_id (s_allocs s)) at 1. apply map_ext. intros a.
    unfold settled, amountFor. cbn. by rewrite settleUnits_0, with_units_self.
  - cbn [map] in Hnd. apply NoDup_cons in Hnd as [Hid Hnd]. cbn [settleList fold_left fst snd].
    change (fold_left _ cs ?x) with (settleList cs x).
    destruct (IH (settleHeldQuantity id c r s) Hnd) as (Ha & Hres & Hh). split; [|done].
    rewrite Ha, settleHeldQuantity_allocs, map_map. apply map_ext. intros a.
    unfold consumes, releases, settled, amountFor. cbn [map fst snd sumZ]. fold (consumes cs) (releases cs).
    fold (amountFor (consumes cs) (al_id a)) (amountFor (releases cs) (al_id a)).
    rewrite (Z.eqb_sym id). destruct (Z.eqb_spec (al_id a) id) as [Heq|Hne]; [subst id|].
    + assert (H0 : amountFor (consumes cs) (al_id a) = 0 /\ amountFor (releases cs) (al_id a) = 0).
      { split; apply amountFor_notin; unfold consumes, releases; rewrite map_map; exact Hid. }
      cbn [al_id with_units]. fold (amountFor (consumes cs) (al_id a)) (amountFor (releases cs) (al_id a)).
      destruct H0 as [-> ->]. rewrite settleUnits_0, !Z.add_0_r. done.
    + cbn [al_id]. fold (amountFor (consumes cs) (al_id a)) (amountFor (releases cs) (al_id a)).
      by rewrite !Z.add_0_l.
Qed.

(** A settlement within the hold, or beyond it on an allocation that is not revoked
    and has the rest free, keeps the allocation within its bounds. *)
Definition settlement_ok (a : Alloc) (c r : Z) : Prop :=
  0 <= c /\ 0 <= r <= u_held (al_units a) /\
  (c <= r \/ (revokedOperator a = false /\ c - r <= u_free (al_units a))).

Lemma settle_ok a c r : alloc_ok a -> settlement_ok a c r -> alloc_ok (with_units a (settleUnits c r a)).
Proof.
  intros [(Hr & Hc & Hh & Hcap) Hop] (H0 & Hr' & Hcr). unfold alloc_ok.
  assert (Hsame : revokedOperator (with_units a (settleUnits c r a)) = revokedOperator a) by done.
  rewrite Hsame. cbn [al_units with_units]. unfold units_ok, settleUnits, u_free in *.
  cbn [u_quantity u_reversed u_consumed u_held].
  destruct (revokedOperator a); [specialize (Hop eq_refl)|]; destruct Hcr as [|[? ?] ]; try done; split; lia.
Qed.

Section Finalize.
Context (scale : Z) (s s1 : Store) (rid : Z) (consume : Z -> Z) (g : HoldRow -> HoldRow)
  (status : ReservationStatus) (confirmed : option text).

(** The quantities the reservation's holds release, by allocation. *)
Definition released : Z -> Z := amountFor (map (fun h => (h_allocation h, h_held h)) (holdsOf s rid)).

Hypothesis Hinv : wallet_inv scale s.
Hypothesis Hactive : isActive s rid = true.
Hypothesis Hstatus : status <> st_active.
Hypothesis Hallocs : s_allocs s1 = map (settled consume released) (s_allocs s).
Hypothesis Hreservations : s_reservations s1 = s_reservations s.
Hypothesis Hholds : s_holds s1 = map g (s_holds s).
Hypothesis Hg : forall h, h ∈ s_holds s ->
  h_reservation (g h) = h_reservation h /\ h_allocation (g h) = h_allocation h /\ h_held (g h) = h_held h /\
  (h_reservation h <> rid -> g h = h) /\ (h_reservation h = rid -> 0 <= h_consumed (g h) <= h_held h).
Hypothesis Hsettle : forall a, a ∈ s_allocs s ->
  settlement_ok a (consume (al_id a)) (released (al_id a)).

Definition finalized : Store := finalize rid status confirmed s1.

Lemma finalized_active k : isActive finalized k = isActive s k && negb (k =? rid).
Proof.
  unfold isActive, finalized, finalize. cbn [s_reservations set_reservations]. rewrite Hreservations.
  clear -Hstatus. generalize (s_reservations s). intros rs.
  induction rs as [|r rs IH]; [done|]. cbn. rewrite IH. clear IH.
  destruct (Z.eqb_spec (rs_id r) rid) as [->|Hne]; cbn.
  - destruct (decide (rs_status r = st_active)) as [Hst|Hst].
    + rewrite (bool_decide_eq_true_2 _ Hst). cbn.
      rewrite (bool_decide_eq_false_2 (status = st_active)) by done. rewrite andb_false_r, andb_true_r. cbn.
      rewrite (Z.eqb_sym k). destruct (Z.eqb_spec rid k); cbn; by rewrite ?andb_false_r.
    + rewrite (bool_decide_eq_false_2 _ Hst). cbn. by rewrite (bool_decide_eq_false_2 _ Hst), !andb_false_r.
  - destruct (Z.eqb_spec (rs_id r) k) as [Heq|]; cbn; [|done].
    case_bool_decide; cbn; [|done]. replace (k =? rid) with false by (symmetry; apply Z.eqb_neq; congruence). done.
Qed.

Lemma finalized_ids : map rs_id (s_reservations finalized) = map rs_id (s_reservations s).
Proof.
  unfold finalized, finalize. cbn. rewrite Hreservations, map_map. apply map_ext. intros r. by destruct (_ && _).
Qed.

Lemma finalized_scope r : r ∈ s_reservations finalized ->
  exists r', r' ∈ s_reservations s /\ rs_id r = rs_id r' /\ rs_entity r = rs_entity r' /\
    rs_held r = rs_held r' /\ (rs_status r = st_active -> rs_status r' = st_active /\ rs_id r' <> rid).
Proof.
  unfold finalized, finalize. cbn. rewrite Hreservations. intros (r' & -> & Hr')%list_elem_of_fmap.
  exists r'. split; [done|]. destruct (Z.eqb_spec (rs_id r') rid); cbn; [|done].
  case_bool_decide; cbn; [|done]. done.
Qed.

Lemma finalized_ledger id :
  amountFor (openHolds finalized) id = amountFor (openHolds s) id - released id.
Proof.
  unfold openHolds, released, holdsOf, finalized, finalize. cbn [s_holds set_reservations]. rewrite Hholds.
  change (finalize rid status confirmed s1) with finalized.
  assert (H : forall l, (forall h, h ∈ l -> h ∈ s_holds s) ->
    amountFor (map (fun h => (h_allocation h, if isActive finalized (h_reservation h) then h_held h else 0)) (map g l)) id
    = amountFor (map (fun h => (h_allocation h, if isActive s (h_reservation h) then h_held h else 0)) l) id
      - amountFor (map (fun h => (h_allocation h, h_held h)) (List.filter (fun h => h_reservation h =? rid) l)) id).
  { induction l as [|h l IH]; intros Hl; [done|]. cbn [map List.filter].
    destruct (Hg h ltac:(apply Hl; constructor)) as (Hr & Ha & Hd & _).
    specialize (IH ltac:(intros; apply Hl; by constructor)).
    rewrite Hr, Ha, Hd, finalized_active.
    destruct (Z.eqb_spec (h_reservation h) rid) as [->|]; unfold amountFor in *; cbn [map sumZ fst snd];
      rewrite IH; [rewrite Hactive|rewrite andb_true_r]; cbn [andb negb];
      destruct (h_allocation h =? id); lia. }
  by apply H.
Qed.
Lemma finalized_allocs : s_allocs finalized = map (settled consume released) (s_allocs s).
Proof. unfold finalized, finalize. cbn. exact Hallocs. Qed.

Lemma finalized_holds : s_holds finalized = map g (s_holds s).
Proof. unfold finalized, finalize. cbn. exact Hholds. Qed.

Lemma finalized_heldBy k : heldBy finalized k = heldBy s k.
Proof.
  unfold heldBy, holdsOf. rewrite finalized_holds.
  assert (H : forall l, (forall h, h ∈ l -> h ∈ s_holds s) ->
    map h_held (List.filter (fun h => h_reservation h =? k) (map g l))
    = map h_held (List.filter (fun h => h_reservation h =? k) l)).
  { induction l as [|h l IH]; intros Hl; [done|]. cbn [map List.filter].
    destruct (Hg h ltac:(apply Hl; constructor)) as (-> & _ & Hd & _).
    specialize (IH ltac:(intros; apply Hl; by constructor)).
    destruct (h_reservation h =? k); cbn [map]; by rewrite ?Hd, IH. }
  by rewrite H.
Qed.

Lemma finalized_alloc_ids : map al_id (s_allocs finalized) = map al_id (s_allocs s).
Proof. rewrite finalized_allocs, map_map. by apply map_ext. Qed.

(** Finalizing a reservation whose holds were settled keeps the tables' invariant. *)
Lemma finalized_inv : wallet_inv scale finalized.
Proof.
  pose proof Hinv as [Hi Ha Hled Hres Hh Hk Hsc Hback]. constructor.
  - by rewrite finalized_alloc_ids.
  - rewrite finalized_allocs. apply Forall_map, Forall_forall. intros a Hin.
    rewrite Forall_forall in Ha. apply settle_ok; auto.
  - intros a Hin. rewrite finalized_allocs in Hin. apply list_elem_of_fmap in Hin as (b & -> & Hb).
    rewrite finalized_ledger. cbn. by rewrite (Hled b Hb).
  - by rewrite finalized_ids.
  - rewrite finalized_holds. apply Forall_map, Forall_forall. intros h Hin.
    rewrite Forall_forall in Hh. destruct (Hh h Hin) as (Hpos & Hcons & Hact & Hal & Hr).
    destruct (Hg h Hin) as (Hgr & Hga & Hgd & Hother & Hown). unfold hold_ok.
    rewrite Hgr, Hga, Hgd, finalized_active, finalized_alloc_ids, finalized_ids.
    split; [done|]. destruct (Z.eq_dec (h_reservation h) rid) as [Heq|Hne].
    + split; [by apply Hown|]. split; [|done]. rewrite Heq, Z.eqb_refl, andb_false_r. done.
    + rewrite (Hother Hne). split; [done|]. split; [|done]. intros [H _]%andb_prop. auto.
  - rewrite finalized_holds, map_map.
    replace (map (fun h => (h_reservation (g h), h_allocation (g h))) (s_holds s))
      with (map (fun h => (h_reservation h, h_allocation h)) (s_holds s)); [done|].
    apply map_ext_in. intros h Hin%list_elem_of_In. by destruct (Hg h Hin) as (-> & -> & _).
  - intros h a r Hin Hal Hr Hid Hrid.
    rewrite finalized_holds in Hin. apply list_elem_of_fmap in Hin as (h' & -> & Hh').
    rewrite finalized_allocs in Hal. apply list_elem_of_fmap in Hal as (b & -> & Hb).
    destruct (finalized_scope r Hr) as (r' & Hr' & Hrid' & -> & _).
    destruct (Hg h' Hh') as (Hgr & Hga & _). cbn in Hid. rewrite Hga in Hid. rewrite Hgr, Hrid' in Hrid.
    change (sharedWith (rs_entity r') b = true). by apply (Hsc h' b r').
  - intros r Hr Hact. destruct (finalized_scope r Hr) as (r' & Hr' & -> & _ & -> & Hst).
    rewrite finalized_heldBy. apply Hback; [done|]. by apply Hst.
Qed.

Lemma finalized_held : totalHeld finalized = totalHeld s - heldBy s rid.
Proof.
  unfold totalHeld. rewrite finalized_allocs, map_map. cbn.
  rewrite (map_ext _ (fun a => u_held (al_units a) + - released (al_id a))) by (intros; cbn; lia).
  rewrite sumZ_map_add. unfold heldBy.
  enough (sumZ (map (fun a => - released (al_id a)) (s_allocs s)) = - sumZ (map h_held (holdsOf s rid))) by lia.
  assert (Hneg : forall l : list Alloc, sumZ (map (fun a => - released (al_id a)) l) = - sumZ (map (fun a => released (al_id a)) l)).
  { induction l as [|a l IH]; cbn; lia. }
  rewrite Hneg. f_equal. rewrite <- (map_map al_id released). unfold released.
  rewrite amountFor_total; [by rewrite map_map|apply (inv_ids _ s Hinv)|].
  intros i. rewrite map_map. cbn. intros (h & -> & Hin)%list_elem_of_fmap.
  unfold holdsOf in Hin. apply list_elem_of_In, filter_In in Hin as [Hin%list_elem_of_In _].
  pose proof (inv_holds _ s Hinv) as Hh. rewrite Forall_forall in Hh. by destruct (Hh h Hin) as (_ & _ & _ & ? & _).
Qed.

Lemma finalized_consumed :
  totalConsumed finalized = totalConsumed s + sumZ (map (fun a => consume (al_id a)) (s_allocs s)).
Proof.
  unfold totalConsumed. rewrite finalized_allocs, map_map. cbn. apply sumZ_map_add.
Qed.
End Finalize.

(** ** Releasing *)

Lemma holdsOf_elem s rid h : h ∈ holdsOf s rid <-> h ∈ s_holds s /\ h_reservation h = rid.
Proof. unfold holdsOf. by rewrite list_elem_of_In, filter_In, <- list_elem_of_In, Z.eqb_eq. Qed.

Lemma holdsOf_NoDup scale s rid : wallet_inv scale s -> NoDup (map h_allocation (holdsOf s rid)).
Proof.
  intros Hinv. pose proof (inv_keys _ s Hinv) as Hk. unfold holdsOf. revert Hk.
  generalize (s_holds s). induction l as [|h l IH]; [intros; constructor|]. cbn [map List.filter].
  intros [Hh Hnd]%NoDup_cons. destruct (Z.eqb_spec (h_reservation h) rid) as [Heq|]; [|auto].
  cbn [map]. apply NoDup_cons. split; [|auto]. intros Hin. apply Hh.
  apply list_elem_of_fmap in Hin as (k & Hka & Hkin). apply list_elem_of_In, filter_In in Hkin as [Hkin Hkr].
  apply Z.eqb_eq in Hkr. apply list_elem_of_fmap. exists k. split; [congruence|]. by apply list_elem_of_In.
Qed.

(** An open reservation's hold on an allocation is part of what the allocation holds. *)
Lemma released_bounds scale s rid a : wallet_inv scale s -> isActive s rid = true -> a ∈ s_allocs s ->
  0 <= released s rid (al_id a) <= u_held (al_units a).
Proof.
  intros Hinv Hact Ha. rewrite (inv_ledger _ s Hinv a Ha). unfold released, openHolds, holdsOf, amountFor.
  pose proof (inv_holds _ s Hinv) as Hh. revert Hh. generalize (s_holds s) as l.
  intros l Hl. induction Hl as [|h l (Hpos & _) _ IH]; [cbn; lia|]. cbn [map List.filter].
  destruct (Z.eqb_spec (h_reservation h) rid) as [->|]; cbn [map sumZ fst snd].
  - rewrite Hact. destruct (_ =? _); lia.
  - destruct (_ =? _), (isActive s (h_reservation h)); lia.
Qed.

Lemma released_hold scale s rid h : wallet_inv scale s -> h ∈ holdsOf s rid ->
  released s rid (h_allocation h) = h_held h.
Proof.
  intros Hinv Hin. unfold released. apply amountFor_unique.
  - rewrite map_map. by eapply holdsOf_NoDup.
  - apply list_elem_of_fmap. by exists h.
Qed.

Lemma findReservation_active s rid r : findReservation s rid = Some r -> rs_status r = st_active ->
  r ∈ s_reservations s /\ rs_id r = rid /\ isActive s rid = true.
Proof.
  unfold findReservation. intros H Hst. pose proof (find_some _ _ H) as [Hin Hid]. apply Z.eqb_eq in Hid.
  split; [by apply list_elem_of_In|]. split; [done|]. unfold isActive. apply existsb_exists. exists r.
  split; [done|]. by rewrite Hid, Z.eqb_refl, Hst.
Qed.

Section Release.
Context (feature : FeatureRow) (rate : RateDecision).
Local Abbreviation scale := (credit_scale feature).

Definition releaseSettlements (s : Store) (rid : Z) : list (Z * (Z * Z)) :=
  map (fun h => (h_allocation h, (0, h_held h))) (holdsOf s rid).

Lemma releaseHolds_settles s rid status : wallet_inv scale s -> 0 <= scale -> isActive s rid = true ->
  releaseHolds feature rid status s = Ok (finalize rid status None (settleList (releaseSettlements s rid) s)).
Proof.
  intros Hinv Hs Hact. unfold releaseHolds, releaseSettlements.
  assert (Hl : Forall (fun h => 0 < h_held h /\ h_consumed h = 0) (holdsOf s rid)).
  { apply Forall_forall. intros h [Hin Hr]%holdsOf_elem. pose proof (inv_holds _ s Hinv) as Hh.
    rewrite Forall_forall in Hh. destruct (Hh h Hin) as (Hpos & _ & Hc & _). split; [done|].
    apply Hc. by rewrite Hr. }
  revert Hl. generalize (holdsOf s rid) as l. intros l Hl.
  assert (Hfold : forall t, foldM (fun s h =>
      held ← databaseUnits (ra_held_quantity h) "reservation held" scale;
      consumed ← databaseUnits (ra_consumed_quantity h) "reservation consumed" scale;
      let remaining := held - consumed in
      Ok (if remaining <=? 0 then s else settleHeldQuantity (ra_allocation_id h) 0 remaining s))
    (map (readHold scale) l) t = Ok (settleList (map (fun h => (h_allocation h, (0, h_held h))) l) t)).
  { induction Hl as [|h l [Hpos Hc] _ IH]; intros t; [done|]. cbn [map foldM].
    cbn [readHold ra_held_quantity ra_consumed_quantity ra_allocation_id].
    rewrite databaseUnits_units by lia. cbn [mbind result_bind]. rewrite Hc.
    rewrite databaseUnits_units by lia. cbn [mbind result_bind]. rewrite Z.sub_0_r.
    replace (h_held h <=? 0) with false by (symmetry; apply Z.leb_gt; lia). apply IH. }
  by rewrite Hfold.
Qed.

Lemma release_settlements_amounts s rid :
  consumes (releaseSettlements s rid) = map (fun h => (h_allocation h, 0)) (holdsOf s rid) /\
  releases (releaseSettlements s rid) = map (fun h => (h_allocation h, h_held h)) (holdsOf s rid).
Proof. unfold consumes, releases, releaseSettlements. by rewrite !map_map. Qed.

Lemma amountFor_zeros {A} (f : A -> Z) l id : amountFor (map (fun h => (f h, 0)) l) id = 0.
Proof. unfold amountFor. induction l as [|h l IH]; [done|]. cbn. rewrite IH. by destruct (_ =? _). Qed.

Lemma release_allocs s rid : wallet_inv scale s ->
  let s1 := settleList (releaseSettlements s rid) s in
  s_allocs s1 = map (settled (fun _ => 0) (released s rid)) (s_allocs s) /\
  s_reservations s1 = s_reservations s /\ s_holds s1 = s_holds s.
Proof.
  intros Hinv s1. assert (Hnd : NoDup (map fst (releaseSettlements s rid))).
  { unfold releaseSettlements. rewrite map_map. by eapply holdsOf_NoDup. }
  destruct (settleList_allocs (releaseSettlements s rid) s Hnd) as (Hal & Hr & Hh).
  destruct (release_settlements_amounts s rid) as [Hc Hrel]. rewrite Hc, Hrel in Hal.
  split; [|done]. unfold s1. rewrite Hal. apply map_ext. intros a. unfold settled. by rewrite amountFor_zeros.
Qed.

(** Releasing an open reservation keeps the tables' invariant, consumes nothing and
    frees exactly what the reservation held. *)
Lemma release_preserves s s' rid status : wallet_inv scale s -> 0 <= scale -> isActive s rid = true ->
  status <> st_active -> releaseHolds feature rid status s = Ok s' ->
  wallet_inv scale s' /\ totalConsumed s' = totalConsumed s /\ totalHeld s' = totalHeld s - heldBy s rid.
Proof.
  intros Hinv Hs Hact Hst H. rewrite releaseHolds_settles in H by done. injection H as <-.
  destruct (release_allocs s rid Hinv) as (Hal' & Hr & Hh).
  assert (Hh' : s_holds (settleList (releaseSettlements s rid) s) = map id (s_holds s)) by (by rewrite map_id).
  assert (Hg : forall h, h ∈ s_holds s ->
    h_reservation (id h) = h_reservation h /\ h_allocation (id h) = h_allocation h /\ h_held (id h) = h_held h /\
    (h_reservation h <> rid -> id h = h) /\ (h_reservation h = rid -> 0 <= h_consumed (id h) <= h_held h)).
  { intros h Hin. repeat split; intros; pose proof (inv_holds _ s Hinv) as Hall; rewrite Forall_forall in Hall;
      destruct (Hall h Hin) as (_ & ? & _); unfold id; lia. }
  assert (Hset : forall a, a ∈ s_allocs s -> settlement_ok a ((fun _ => 0) (al_id a)) (released s rid (al_id a))).
  { intros a Ha. pose proof (released_bounds _ s rid a Hinv Hact Ha). unfold settlement_ok. lia. }
  split; [|split].
  - by apply (finalized_inv scale s _ rid (fun _ => 0) id status None).
  - change (finalize rid status None (settleList (releaseSettlements s rid) s))
      with (finalized (settleList (releaseSettlements s rid) s) rid status None).
    erewrite finalized_consumed by exact Hal'.
    replace (sumZ _) with 0; [lia|]. clear. induction (s_allocs s); cbn; lia.
  - change (finalize rid status None (settleList (releaseSettlements s rid) s))
      with (finalized (settleList (releaseSettlements s rid) s) rid status None).
    by erewrite (finalized_held scale) by done.
Qed.
End Release.

(** ** Confirming *)

Definition holdAmounts (s : Store) (rid : Z) : list (Z * Z) := map (fun h => (h_allocation h, h_held h)) (holdsOf s rid).

Lemma readHolds_amounts scale l : 0 <= scale -> Forall (fun h => 0 <= h_held h) l ->
  readHolds (map (readHold scale) l) scale = Ok (map (fun h => (h_allocation h, h_held h)) l).
Proof.
  intros Hs. unfold readHolds. induction 1 as [|h l Hh Hl IH]; [done|]. cbn [map mapM].
  cbn [readHold ra_held_quantity ra_allocation_id]. rewrite databaseUnits_units by lia. cbn [mbind result_bind].
  by rewrite IH.
Qed.

Lemma holdOf_amount l id : NoDup (map fst l) -> default 0 (holdOf l id) = amountFor l id.
Proof.
  intros Hnd. unfold holdOf. destruct (List.find _ _) as [[k n]|] eqn:E.
  - pose proof (find_some _ _ E) as [Hin Hk]. cbn in Hk. apply Z.eqb_eq in Hk. subst k.
    symmetry. apply amountFor_unique; [done|]. apply list_elem_of_In. by apply in_rev.
  - symmetry. apply amountFor_notin. intros Hin. apply list_elem_of_fmap in Hin as ([k n] & -> & Hin).
    pose proof (find_none _ _ E (k, n)) as Hno. cbn in Hno. rewrite Z.eqb_refl in Hno.
    discriminate Hno. apply in_rev. rewrite rev_involutive. by apply list_elem_of_In.
Qed.

(** A plan's consumption and release of each locked row. *)
Record settlement (scale now n : Z) (L : list Alloc) (hl : list (Z * Z)) (cs hs : list Z) : Prop := {
  set_hs : hs = map (fun a => amountFor hl (al_id a)) L;
  set_cs : Forall2 (fun c a => 0 <= c /\
    (c <= amountFor hl (al_id a) \/
     (revokedOperator a = false /\ c - amountFor hl (al_id a) <= u_free (al_units a)))) cs L;
  set_sum : sumZ cs = n }.

Lemma ended_live now scale a : endedBy (readRow scale a) now = negb (liveAt now a).
Proof.
  unfold endedBy, liveAt, readRow. cbn. destruct (al_reversed_at a); [done|].
  destruct (al_expires_at a); [|done]. by rewrite Z.ltb_antisym, negb_involutive.
Qed.

Lemma takes_pair (hs fs : list Z) n m : 0 <= n -> 0 <= m -> length hs = length fs -> Forall (fun h => 0 <= h) hs ->
  Forall2 (fun c '(h, f) => 0 <= c /\ (c <= h \/ (0 < f /\ c - h <= f)))
    (zip_with Z.add (takes hs n) (takes fs m)) (zip hs fs).
Proof.
  intros Hn Hm Hlen Hh. revert fs n m Hn Hm Hlen. induction Hh as [|h hs Hh0 Hh IH]; intros [|f fs] n m Hn Hm Hlen;
    try done. cbn [takes zip_with zip]. constructor; [|apply IH; cbn in Hlen; lia].
  split; [lia|]. destruct (Z.le_gt_cases f 0); [left; lia|right; lia].
Qed.

Lemma liveFree_not_revoked scale now a : 0 < liveFree now (readRow scale a) (al_units a) ->
  revokedOperator a = false /\ liveFree now (readRow scale a) (al_units a) = u_free (al_units a).
Proof.
  unfold liveFree. rewrite ended_live. destruct (liveAt now a) eqn:Hlive; cbn; [|lia].
  intros _. split; [by eapply live_not_revoked|done].
Qed.

Lemma sum_zip_add (l k : list Z) : length l = length k -> sumZ (zip_with Z.add l k) = sumZ l + sumZ k.
Proof. revert k. induction l as [|x l IH]; intros [|y k] H; cbn in *; try done. rewrite IH; lia. Qed.

Lemma planConfirmation_units scale L H quantity n now :
  0 <= scale -> Forall (fun a => nonneg_units (al_units a)) L -> NoDup (map h_allocation H) ->
  Forall (fun h => 0 <= h_held h) H -> decimalToUnits quantity scale = Ok n ->
  let hl := map (fun h => (h_allocation h, h_held h)) H in
  let hs := map (fun a => amountFor hl (al_id a)) L in
  let frees := zip_with (liveFree now) (map (readRow scale) L) (map al_units L) in
  let cs := zip_with Z.add (takes hs n) (takes frees (n - sumZ (takes hs n))) in
  planConfirmation (map (readRow scale) L) (map (readHold scale) H) scale quantity now =
    if sumZ cs <? n then Err insufficientBalance
    else Ok (let kept := List.filter nonEmptyChange (changesOf (map (readRow scale) L) cs hs) in
             {| cp_changes := map (plannedChange hl) kept;
                cp_deductions := map (fun c => allocationDeduction (ch_row c) (unitsToDecimal (ch_consume c) scale))
                                   (List.filter (fun c => 0 <? ch_consume c) kept) |}).
Proof.
  intros Hs HL Hnd Hh Hn hl hs frees cs. pose proof (decimalToUnits_nonneg _ _ _ Hs Hn) as Hn0.
  unfold planConfirmation. rewrite readHolds_amounts by done. cbn [mbind result_bind]. rewrite Hn. cbn [mbind result_bind].
  assert (Hndl : NoDup (map fst hl)) by (unfold hl; by rewrite map_map).
  assert (Hdef : map (fun r => default 0 (holdOf hl (a_id r))) (map (readRow scale) L) = hs).
  { unfold hs. rewrite map_map. apply map_ext. intros a. by apply holdOf_amount. }
  assert (Hhl : Forall (fun p : Z * Z => 0 <= snd p) hl) by (unfold hl; by apply Forall_map).
  rewrite settleHolds_takes; [|done|].
  2:{ apply Forall_map, Forall_forall. intros a _. rewrite holdOf_amount by done. by apply amountFor_nonneg. }
  cbv zeta. fold hl. rewrite Hdef. set (rem := n - sumZ (takes hs n)) in *.
  assert (Hrem : 0 <= rem) by (destruct (takes_bounds hs n Hn0); unfold rem; lia).
  assert (Hlh : length (takes hs n) = length (map (readRow scale) L))
    by (rewrite takes_length; unfold hs; by rewrite !length_map).
  assert (Hlhs : length hs = length (map (readRow scale) L)) by (unfold hs; by rewrite !length_map).
  assert (Hlf : length frees = length (map (readRow scale) L))
    by (unfold frees; rewrite length_zip_with, !length_map; lia).
  assert (Hsum : sumZ cs = sumZ (takes hs n) + sumZ (takes frees rem)).
  { unfold cs. apply sum_zip_add. rewrite !takes_length. lia. }
  assert (Hfree : (if 0 <? rem then settleFree (changesOf (map (readRow scale) L) (takes hs n) hs) scale now rem
      else Ok (changesOf (map (readRow scale) L) (takes hs n) hs, rem))
    = Ok (changesOf (map (readRow scale) L) cs hs, rem - sumZ (takes frees rem))).
  { destruct (Z.ltb_spec 0 rem) as [Hpos|Hzero].
    - rewrite (settleFree_takes _ (map al_units L)); [done|by apply readRow_represents|done|done|done].
    - assert (Hz : rem = 0) by lia. unfold cs. rewrite Hz, (takes_0 frees 0), sum_repeat_0 by lia.
      rewrite changesOf_add_0 by done. done. }
  rewrite Hfree. cbn [mbind result_bind]. unfold throwWhen.
  replace (0 <? rem - sumZ (takes frees rem)) with (sumZ cs <? n).
  2:{ apply eq_true_iff_eq. rewrite !Z.ltb_lt, Hsum. unfold rem. lia. }
  destruct (sumZ cs <? n); done.
Qed.

(** The settlements and the hold updates of a plan's changes. *)
Definition changeSettlements (cl : list PlannedChange) : list (Z * (Z * Z)) :=
  map (fun c => (pc_allocationId c, (pc_consume c, pc_release c))) cl.

Definition holdUpdate (rid : Z) (c : PlannedChange) (h : HoldRow) : HoldRow :=
  if pc_hasHold c && ((h_reservation h =? rid) && (h_allocation h =? pc_allocationId c))
  then {| h_reservation := rid; h_allocation := pc_allocationId c; h_held := h_held h;
          h_consumed := if pc_release c <? pc_consume c then pc_release c else pc_consume c |}
  else h.

Definition holdUpdates (rid : Z) (cl : list PlannedChange) (h : HoldRow) : HoldRow :=
  fold_left (fun h c => holdUpdate rid c h) cl h.

Lemma applyChange_holds rid c s : s_holds (applyChange rid s c) = map (holdUpdate rid c) (s_holds s).
Proof.
  unfold applyChange, holdUpdate. destruct (pc_hasHold c); cbn; [done|]. by rewrite map_id.
Qed.

Lemma settleList_settle cs s1 s2 : s_allocs s1 = s_allocs s2 -> s_allocs (settleList cs s1) = s_allocs (settleList cs s2).
Proof.
  revert s1 s2. induction cs as [|p cs IH]; intros s1 s2 H; [done|]. cbn [settleList fold_left].
  change (fold_left _ cs ?x) with (settleList cs x). apply IH. rewrite !settleHeldQuantity_allocs. by rewrite H.
Qed.

Lemma applyConfirmation_writes rid plan s :
  s_allocs (applyConfirmation rid plan s) = s_allocs (settleList (changeSettlements (cp_changes plan)) s) /\
  s_reservations (applyConfirmation rid plan s) = s_reservations s /\
  s_holds (applyConfirmation rid plan s) = map (holdUpdates rid (cp_changes plan)) (s_holds s).
Proof.
  unfold applyConfirmation. generalize (cp_changes plan) as cl. intros cl. revert s.
  induction cl as [|c cl IH]; intros s; [cbn; by rewrite map_id|]. cbn [fold_left].
  destruct (IH (applyChange rid s c)) as (Ha & Hr & Hh). split; [|split].
  - rewrite Ha. cbn [changeSettlements map settleList fold_left]. change (fold_left _ ?l ?x) with (settleList l x).
    apply settleList_settle. unfold applyChange. cbn [fst snd]. destruct (pc_hasHold c); done.
  - rewrite Hr. unfold applyChange. destruct (pc_hasHold c); done.
  - rewrite Hh, applyChange_holds, map_map. done.
Qed.

Lemma holdUpdates_spec rid cl h :
  (forall c, c ∈ cl -> pc_hasHold c = true -> h_reservation h = rid -> pc_allocationId c = h_allocation h ->
     0 <= pc_consume c /\ 0 <= pc_release c <= h_held h) ->
  0 <= h_consumed h <= h_held h ->
  h_reservation (holdUpdates rid cl h) = h_reservation h /\ h_allocation (holdUpdates rid cl h) = h_allocation h /\
  h_held (holdUpdates rid cl h) = h_held h /\ (h_reservation h <> rid -> holdUpdates rid cl h = h) /\
  (h_reservation h = rid -> 0 <= h_consumed (holdUpdates rid cl h) <= h_held h).
Proof.
  revert h. induction cl as [|c cl IH]; intros h Hc Hh; [done|].
  cbn [holdUpdates fold_left]. change (fold_left _ cl ?x) with (holdUpdates rid cl x).
  assert (Hstep : h_reservation (holdUpdate rid c h) = h_reservation h /\
    h_allocation (holdUpdate rid c h) = h_allocation h /\ h_held (holdUpdate rid c h) = h_held h /\
    (h_reservation h <> rid -> holdUpdate rid c h = h) /\ 0 <= h_consumed (holdUpdate rid c h) <= h_held h).
  { unfold holdUpdate. destruct (pc_hasHold c) eqn:Hhas; cbn [andb]; [|done].
    destruct (Z.eqb_spec (h_reservation h) rid) as [Hr|]; cbn [andb]; [|done].
    destruct (Z.eqb_spec (h_allocation h) (pc_allocationId c)) as [Ha|]; [|done]. cbn.
    destruct (Hc c ltac:(constructor) Hhas Hr (eq_sym Ha)). repeat split; try done; [blia|blia]. }
  destruct Hstep as (Hr & Ha & Hd & Ho & Hcons).
  destruct (IH (holdUpdate rid c h)) as (Hr' & Ha' & Hd' & Ho' & Hc').
  - intros c' Hin. rewrite Hr, Ha, Hd. apply Hc. by constructor.
  - by rewrite Hd.
  - rewrite Hr', Ha', Hd', Hr, Ha, Hd. repeat split; try done.
    + intros Hne. rewrite Ho'; [by apply Ho|by rewrite Hr].
    + rewrite Hd in Hc'. apply Hc'. congruence.
    + rewrite Hd in Hc'. apply Hc'. congruence.
Qed.

(** The amounts of a plan by allocation, its empty changes left out. *)
Lemma plan_amounts scale hl (L : list Alloc) cs hs id :
  let cl := changeSettlements (map (plannedChange hl) (List.filter nonEmptyChange
              (changesOf (map (readRow scale) L) cs hs))) in
  length cs = length L -> length hs = length L ->
  amountFor (consumes cl) id = amountFor (zip (map al_id L) cs) id /\
  amountFor (releases cl) id = amountFor (zip (map al_id L) hs) id.
Proof.
  revert cs hs. induction L as [|a L IH]; intros [|c cs] [|h hs] cl Hc Hh; try done.
  destruct (IH cs hs) as [IHc IHh]; [cbn in *; lia..|]. subst cl. cbn [map changesOf List.filter].
  set (rest := List.filter nonEmptyChange (changesOf (map (readRow scale) L) cs hs)) in *.
  change (zip (al_id a :: map al_id L) (c :: cs)) with ((al_id a, c) :: zip (map al_id L) cs).
  change (zip (al_id a :: map al_id L) (h :: hs)) with ((al_id a, h) :: zip (map al_id L) hs).
  rewrite !amountFor_cons, <- IHc, <- IHh. unfold nonEmptyChange. cbn [ch_consume ch_release].
  destruct (Z.eqb_spec c 0) as [->|]; [destruct (Z.eqb_spec h 0) as [->|]|]; cbn [andb negb map].
  1: by destruct (al_id a =? id).
  all: unfold changeSettlements, consumes, releases; cbn [map fst snd]; by rewrite !amountFor_cons.
Qed.

Lemma changesOf_ids scale (L : list Alloc) cs hs : length cs = length L -> length hs = length L ->
  map (fun c => a_id (ch_row c)) (changesOf (map (readRow scale) L) cs hs) = map al_id L.
Proof.
  revert cs hs. induction L as [|a L IH]; intros [|c cs] [|h hs] Hc Hh; try done.
  cbn. f_equal. apply IH; cbn in *; lia.
Qed.

Lemma plan_ids_NoDup scale hl (L : list Alloc) cs hs : length cs = length L -> length hs = length L ->
  NoDup (map al_id L) ->
  NoDup (map fst (changeSettlements (map (plannedChange hl) (List.filter nonEmptyChange
              (changesOf (map (readRow scale) L) cs hs))))).
Proof.
  intros Hc Hh Hnd. unfold changeSettlements. rewrite !map_map. cbn.
  apply (sublist_filter_NoDup (fun c => a_id (ch_row c))). by rewrite changesOf_ids.
Qed.

Section Confirm.
Context (feature : FeatureRow) (rate : RateDecision).
Local Abbreviation scale := (credit_scale feature).

(** The locked rows' own consumption and release when a plan is made. *)
Definition heldAmounts (s : Store) (rid : Z) (L : list Alloc) : list Z :=
  map (fun a => amountFor (holdAmounts s rid) (al_id a)) L.
Definition freeAmounts (now : Z) (L : list Alloc) : list Z :=
  zip_with (liveFree now) (map (readRow scale) L) (map al_units L).
Definition consumedAmounts (s : Store) (rid now n : Z) (L : list Alloc) : list Z :=
  let hs := heldAmounts s rid L in
  zip_with Z.add (takes hs n) (takes (freeAmounts now L) (n - sumZ (takes hs n))).

Lemma freeAmounts_map now L :
  freeAmounts now L = map (fun a => liveFree now (readRow scale a) (al_units a)) L.
Proof. unfold freeAmounts. induction L as [|a L IH]; [done|]. cbn. by rewrite IH. Qed.

Lemma holdAmounts_ok s rid : wallet_inv scale s ->
  NoDup (map h_allocation (holdsOf s rid)) /\ Forall (fun h => 0 <= h_held h) (holdsOf s rid).
Proof.
  intros Hinv. split; [by eapply holdsOf_NoDup|]. apply Forall_forall. intros h [Hin _]%holdsOf_elem.
  pose proof (inv_holds _ s Hinv) as Hh. rewrite Forall_forall in Hh. destruct (Hh h Hin) as (? & _). lia.
Qed.

Lemma heldAmounts_nonneg s rid L : wallet_inv scale s -> Forall (fun h => 0 <= h) (heldAmounts s rid L).
Proof.
  intros Hinv. apply Forall_map, Forall_forall. intros a _. apply amountFor_nonneg, Forall_map.
  apply (holdAmounts_ok s rid Hinv).
Qed.

Lemma consumedAmounts_spec s rid now n L : wallet_inv scale s -> 0 <= n ->
  Forall2 (fun c a => 0 <= c /\
    (c <= amountFor (holdAmounts s rid) (al_id a) \/
     (revokedOperator a = false /\ c - amountFor (holdAmounts s rid) (al_id a) <= u_free (al_units a))))
    (consumedAmounts s rid now n L) L /\
  sumZ (consumedAmounts s rid now n L) <= n.
Proof.
  intros Hinv Hn. unfold consumedAmounts. set (hs := heldAmounts s rid L).
  destruct (takes_bounds hs n Hn) as [_ Hs1].
  destruct (takes_bounds (freeAmounts now L) (n - sumZ (takes hs n)) ltac:(lia)) as [_ Hs2].
  assert (Hlen : length hs = length (freeAmounts now L)).
  { rewrite freeAmounts_map. unfold hs, heldAmounts. by rewrite !length_map. }
  split.
  - pose proof (takes_pair hs (freeAmounts now L) n (n - sumZ (takes hs n)) Hn ltac:(lia) Hlen
      (heldAmounts_nonneg s rid L Hinv)) as Hp.
    rewrite freeAmounts_map in Hp at 2. unfold hs at 3, heldAmounts in Hp.
    assert (Hz : zip (map (fun a => amountFor (holdAmounts s rid) (al_id a)) L)
                   (map (fun a => liveFree now (readRow scale a) (al_units a)) L)
      = map (fun a => (amountFor (holdAmounts s rid) (al_id a), liveFree now (readRow scale a) (al_units a))) L).
    { clear. induction L as [|a L IH]; [done|]. cbn. by rewrite IH. }
    rewrite Hz, Forall2_fmap_r in Hp. eapply Forall2_impl; [exact Hp|].
    intros c a [H0 [H1|[Hpos H1] ] ]; (split; [done|]); [by left|].
    destruct (liveFree_not_revoked scale now a Hpos) as [Hrev Heq]. right. split; [done|]. by rewrite <- Heq.
  - rewrite sum_zip_add by (rewrite !takes_length; lia). lia.
Qed.

(** The holds of a reservation are all on the rows its confirmation locks. *)
Lemma held_on_locked s rid r a : wallet_inv scale s -> findReservation s rid = Some r ->
  a ∈ s_allocs s -> sharedWith (rs_entity r) a = false -> amountFor (holdAmounts s rid) (al_id a) = 0.
Proof.
  intros Hinv Hr Ha Hshared. apply amountFor_notin. unfold holdAmounts. rewrite map_map. cbn.
  intros (h & Hid & Hin)%list_elem_of_fmap. apply holdsOf_elem in Hin as [Hin Hres].
  unfold findReservation in Hr. pose proof (find_some _ _ Hr) as [Hrin Hrid]. apply Z.eqb_eq in Hrid.
  rewrite (inv_scope _ s Hinv h a r) in Hshared; try done; [by apply list_elem_of_In|congruence].
Qed.

Lemma heldAmounts_total s rid r : wallet_inv scale s -> findReservation s rid = Some r ->
  sumZ (heldAmounts s rid (lockAllAllocationRows s (rs_entity r))) = heldBy s rid.
Proof.
  intros Hinv Hr. destruct (locked_spec (sharedWith (rs_entity r)) s (inv_ids _ s Hinv)) as [Hnd Hmem].
  unfold heldAmounts, lockAllAllocationRows in *. rewrite <- (map_map al_id (amountFor (holdAmounts s rid))).
  rewrite amountFor_total; [unfold holdAmounts, heldBy; by rewrite map_map|done|].
  unfold holdAmounts. rewrite map_map. cbn. intros i (h & -> & Hin)%list_elem_of_fmap.
  apply holdsOf_elem in Hin as [Hin Hres]. pose proof (inv_holds _ s Hinv) as Hh. rewrite Forall_forall in Hh.
  destruct (Hh h Hin) as (_ & _ & _ & Hal & _). apply list_elem_of_fmap in Hal as (a & Hid & Ha).
  rewrite Hid. apply list_elem_of_fmap_2. apply Hmem. split; [done|].
  unfold findReservation in Hr. pose proof (find_some _ _ Hr) as [Hrin Hrid]. apply Z.eqb_eq in Hrid.
  apply (inv_scope _ s Hinv h a r); auto; [by apply list_elem_of_In|congruence].
Qed.

Lemma confirm_plan s rid r quantity n now : wallet_inv scale s -> findReservation s rid = Some r ->
  decimalToUnits quantity scale = Ok n ->
  let L := lockAllAllocationRows s (rs_entity r) in
  let cs := consumedAmounts s rid now n L in
  planConfirmation (map (readRow scale) L) (map (readHold scale) (holdsOf s rid)) scale quantity now =
    if sumZ cs <? n then Err insufficientBalance
    else Ok (let kept := List.filter nonEmptyChange (changesOf (map (readRow scale) L) cs (heldAmounts s rid L)) in
           {| cp_changes := map (plannedChange (holdAmounts s rid)) kept;
              cp_deductions := map (fun c => allocationDeduction (ch_row c) (unitsToDecimal (ch_consume c) scale))
                                 (List.filter (fun c => 0 <? ch_consume c) kept) |}).
Proof.
  intros Hinv Hr Hn L cs. destruct (holdAmounts_ok s rid Hinv) as [Hnd Hpos].
  rewrite (planConfirmation_units scale L (holdsOf s rid) quantity n now); [done| | |done|done|done].
  - by eapply decimalToUnits_scale.
  - apply Forall_forall. intros a Ha. apply alloc_ok_nonneg.
    destruct (locked_spec (sharedWith (rs_entity r)) s (inv_ids _ s Hinv)) as [_ Hmem].
    apply Hmem in Ha as [Ha _]. pose proof (inv_allocs _ s Hinv) as Hall. rewrite Forall_forall in Hall. auto.
Qed.

Lemma changesOf_elem (f : Alloc -> Z) L cs c : Forall (fun x => 0 <= x) cs ->
  c ∈ changesOf (map (readRow scale) L) cs (map f L) ->
  exists a, a ∈ L /\ a_id (ch_row c) = al_id a /\ 0 <= ch_consume c /\ ch_release c = f a.
Proof.
  intros Hcs. revert L. induction Hcs as [|x cs Hx Hcs IH]; intros [|a L] Hc; try by apply elem_of_nil in Hc.
  cbn in Hc. apply elem_of_cons in Hc as [->|Hc]; cbn.
  - exists a. repeat split; try done. constructor.
  - destruct (IH L Hc) as (b & Hb & Hrest). exists b. split; [by constructor|done].
Qed.

Section Writes.
Context (s : Store) (rid : Z) (r : Reservation) (n now : Z) (plan : ConfirmationPlan).
Let L := lockAllAllocationRows s (rs_entity r).
Let cs := consumedAmounts s rid now n L.

Hypothesis Hinv : wallet_inv scale s.
Hypothesis Hr : findReservation s rid = Some r.
Hypothesis Hn0 : 0 <= n.
Hypothesis Hplan : cp_changes plan = map (plannedChange (holdAmounts s rid))
  (List.filter nonEmptyChange (changesOf (map (readRow scale) L) cs (heldAmounts s rid L))).

Lemma locked_rows : NoDup (map al_id L) /\ (forall a, a ∈ L <-> a ∈ s_allocs s /\ sharedWith (rs_entity r) a = true).
Proof. exact (locked_spec (sharedWith (rs_entity r)) s (inv_ids _ s Hinv)). Qed.

Lemma locked_lengths : length cs = length L /\ length (heldAmounts s rid L) = length L.
Proof.
  destruct (consumedAmounts_spec s rid now n L Hinv Hn0) as [Hcs _]. split; [by apply Forall2_length in Hcs|].
  unfold heldAmounts. by rewrite length_map.
Qed.

Lemma planned_release a : a ∈ s_allocs s ->
  amountFor (releases (changeSettlements (cp_changes plan))) (al_id a) = released s rid (al_id a).
Proof.
  intros Ha. destruct locked_lengths as [Hlc Hlh]. destruct locked_rows as [Hnd Hmem].
  rewrite Hplan, (proj2 (plan_amounts scale _ L cs (heldAmounts s rid L) (al_id a) Hlc Hlh)).
  change (released s rid (al_id a)) with (amountFor (holdAmounts s rid) (al_id a)).
  destruct (sharedWith (rs_entity r) a) eqn:Hsh.
  - apply (amountFor_zip al_id L (heldAmounts s rid L) (fun h b => h = amountFor (holdAmounts s rid) (al_id b)) a Hnd).
    + unfold heldAmounts. apply Forall2_fmap_l. by apply Forall_Forall2_diag, Forall_true.
    + by apply Hmem.
  - rewrite (held_on_locked s rid r a) by done. apply amountFor_notin. intros Hin%fst_zip_subset.
    apply list_elem_of_fmap in Hin as (b & Hid & Hb). apply Hmem in Hb as [Hb Hbs].
    assert (a = b) as -> by (eapply NoDup_key_inj; [apply (inv_ids _ s Hinv)|done|done|done]). congruence.
Qed.

Lemma confirm_allocs : s_allocs (applyConfirmation rid plan s)
  = map (settled (amountFor (zip (map al_id L) cs)) (released s rid)) (s_allocs s).
Proof.
  destruct locked_lengths as [Hlc Hlh]. destruct locked_rows as [Hnd Hmem].
  destruct (applyConfirmation_writes rid plan s) as (Hal & _ & _).
  assert (Hndc : NoDup (map fst (changeSettlements (cp_changes plan)))) by (rewrite Hplan; by apply plan_ids_NoDup).
  rewrite Hal. destruct (settleList_allocs _ s Hndc) as (Hset & _ & _). rewrite Hset.
  apply map_ext_in. intros a Ha%list_elem_of_In. unfold settled. rewrite planned_release by done.
  rewrite Hplan, (proj1 (plan_amounts scale _ L cs (heldAmounts s rid L) (al_id a) Hlc Hlh)). done.
Qed.

Lemma confirm_holds h : h ∈ s_holds s -> let h' := holdUpdates rid (cp_changes plan) h in
  h_reservation h' = h_reservation h /\ h_allocation h' = h_allocation h /\ h_held h' = h_held h /\
  (h_reservation h <> rid -> h' = h) /\ (h_reservation h = rid -> 0 <= h_consumed h' <= h_held h).
Proof.
  intros Hin h'. pose proof (inv_holds _ s Hinv) as Hall. rewrite Forall_forall in Hall.
  destruct (Hall h Hin) as (Hpos & Hcb & _). apply holdUpdates_spec; [|done].
  intros c Hc _ Hres Hcid. rewrite Hplan in Hc. apply list_elem_of_fmap in Hc as (ch & -> & Hch).
  apply list_elem_of_In, filter_In in Hch as [Hch%list_elem_of_In _].
  destruct (consumedAmounts_spec s rid now n L Hinv Hn0) as [Hcs _].
  assert (Hcs0 : Forall (fun x => 0 <= x) cs).
  { eapply Forall2_Forall_l; [exact Hcs|]. apply Forall_true. by intros ? ? []. }
  destruct (changesOf_elem _ L cs ch Hcs0 Hch) as (a & Ha & Hid & H0 & Hrel).
  cbn in Hcid |- *. split; [done|]. rewrite Hrel, <- Hid, Hcid.
  change (amountFor (holdAmounts s rid) (h_allocation h)) with (released s rid (h_allocation h)).
  rewrite (released_hold scale s rid h Hinv) by (by apply holdsOf_elem). lia.
Qed.

Lemma confirm_settlements a : isActive s rid = true -> a ∈ s_allocs s ->
  settlement_ok a (amountFor (zip (map al_id L) cs) (al_id a)) (released s rid (al_id a)).
Proof.
  intros Hact Ha. pose proof (released_bounds _ s rid a Hinv Hact Ha) as Hb.
  destruct locked_rows as [Hnd Hmem].
  destruct (consumedAmounts_spec s rid now n L Hinv Hn0) as [Hcs _].
  assert (HaL : a ∈ L \/ ~ (a ∈ L)).
  { rewrite Hmem. destruct (sharedWith (rs_entity r) a); [by left|right; by intros [_ ?] ]. }
  destruct HaL as [HaL|HaL].
  - destruct (amountFor_zip al_id L cs _ a Hnd Hcs HaL) as [H0 H1]. split; [done|]. by split.
  - rewrite amountFor_notin; [split; lia|]. intros Hin%fst_zip_subset.
    apply list_elem_of_fmap in Hin as (b & Hid & Hb'). apply HaL.
    assert (a = b) as ->; [|done]. apply Hmem in Hb' as [Hb' _].
    eapply NoDup_key_inj; [apply (inv_ids _ s Hinv)|done|done|done].
Qed.

Lemma confirm_total : sumZ (map (fun a => amountFor (zip (map al_id L) cs) (al_id a)) (s_allocs s)) = sumZ cs.
Proof.
  destruct locked_lengths as [Hlc _]. destruct locked_rows as [_ Hmem].
  rewrite <- (map_map al_id (amountFor _)), amountFor_total; [|apply (inv_ids _ s Hinv)|].
  - apply snd_zip_sum. by rewrite length_map.
  - intros i Hin%fst_zip_subset. apply list_elem_of_fmap in Hin as (b & -> & Hb).
    apply list_elem_of_fmap_2. by apply Hmem.
Qed.
End Writes.

(** Confirming an open reservation keeps the tables' invariant, consumes exactly what
    is confirmed and frees everything the reservation held. *)
Lemma confirm_preserves s rid r quantity n now plan confirmed : wallet_inv scale s ->
  findReservation s rid = Some r -> rs_status r = st_active -> decimalToUnits quantity scale = Ok n ->
  planConfirmation (map (readRow scale) (lockAllAllocationRows s (rs_entity r)))
    (map (readHold scale) (holdsOf s rid)) scale quantity now = Ok plan ->
  let s' := finalize rid st_confirmed confirmed (applyConfirmation rid plan s) in
  wallet_inv scale s' /\ totalConsumed s' = totalConsumed s + n /\ totalHeld s' = totalHeld s - heldBy s rid.
Proof.
  intros Hinv Hr Hst Hn Hplan s'. pose proof (decimalToUnits_scale _ _ _ Hn) as Hs.
  pose proof (decimalToUnits_nonneg _ _ _ Hs Hn) as Hn0.
  rewrite (confirm_plan s rid r quantity n now) in Hplan by done. cbv zeta in Hplan.
  destruct (Z.ltb_spec (sumZ (consumedAmounts s rid now n (lockAllAllocationRows s (rs_entity r)))) n)
    as [|Hge]; [done|]. injection Hplan as Hplan. apply (f_equal cp_changes) in Hplan. cbn in Hplan. symmetry in Hplan.
  destruct (consumedAmounts_spec s rid now n (lockAllAllocationRows s (rs_entity r)) Hinv Hn0) as [_ Hle].
  destruct (findReservation_active s rid r Hr Hst) as (Hrin & Hrid & Hact).
  destruct (applyConfirmation_writes rid plan s) as (_ & Hres & Hholds).
  pose proof (confirm_allocs s rid r n now plan Hinv Hr Hn0 Hplan) as Hal.
  pose proof (confirm_holds s rid r n now plan Hinv Hn0 Hplan) as Hg.
  pose proof (fun a => confirm_settlements s rid r n now Hinv Hn0 a Hact) as Hset.
  subst s'. change (finalize rid st_confirmed confirmed (applyConfirmation rid plan s))
    with (finalized (applyConfirmation rid plan s) rid st_confirmed confirmed).
  split; [|split].
  - by eapply finalized_inv.
  - erewrite finalized_consumed by exact Hal. rewrite (confirm_total s rid r n now) by done. lia.
  - by erewrite (finalized_held scale) by done.
Qed.

(** A confirmation up to the quantity held is always covered. *)
Lemma confirm_within_hold s rid r quantity n now : wallet_inv scale s ->
  findReservation s rid = Some r -> decimalToUnits quantity scale = Ok n -> n <= heldBy s rid ->
  exists plan, planConfirmation (map (readRow scale) (lockAllAllocationRows s (rs_entity r)))
    (map (readHold scale) (holdsOf s rid)) scale quantity now = Ok plan.
Proof.
  intros Hinv Hr Hn Hle. pose proof (decimalToUnits_scale _ _ _ Hn) as Hs.
  pose proof (decimalToUnits_nonneg _ _ _ Hs Hn) as Hn0.
  rewrite (confirm_plan s rid r quantity n now) by done. cbv zeta.
  set (L := lockAllAllocationRows s (rs_entity r)).
  replace (sumZ (consumedAmounts s rid now n L) <? n) with false; [by eexists|]. symmetry. apply Z.ltb_ge.
  unfold consumedAmounts. assert (Hlen : length (heldAmounts s rid L) = length (freeAmounts now L)).
  { rewrite freeAmounts_map. unfold heldAmounts. by rewrite !length_map. }
  rewrite sum_zip_add by (rewrite !takes_length; lia).
  assert (Hall : sumZ (takes (heldAmounts s rid L) n) = n).
  { rewrite takes_covers by done. apply Z.min_l.
    etransitivity; [|apply sum_max_0]. unfold L. rewrite (heldAmounts_total s rid r) by done. done. }
  rewrite Hall, Z.sub_diag. destruct (takes_bounds (freeAmounts now L) 0 ltac:(lia)) as [_ ?]. lia.
Qed.
End Confirm.

(** ** Histories *)

Section Histories.
Context (feature : FeatureRow) (rate : RateDecision).
Local Abbreviation scale := (credit_scale feature).
Local Abbreviation meterScale := (credit_scale (r_meter rate)).

(** One committed transaction, with whatever time, quantity and control answer. *)
Inductive step : Store -> Store -> Prop :=
  | step_consume entity requested quantity deny now s s' out :
      consumeWallet feature rate entity requested quantity deny now s = Ok (s', out) -> step s s'
  | step_reserve rid entity requested quantity deny expiresAt now s s' out :
      rid ∉ map rs_id (s_reservations s) ->
      reserveWallet feature rate rid entity requested quantity deny expiresAt now s = Ok (s', out) -> step s s'
  | step_confirm rid input quantity deny now s s' out :
      confirmWallet feature rate rid input quantity deny now s = Ok (s', out) -> step s s'
  | step_release rid now s s' out :
      releaseWallet feature rid now s = Ok (s', out) -> step s s'.

(** A wallet nothing was spent from: granted allocations, no reservations. *)
Definition unspent (s : Store) : Prop :=
  s_reservations s = [] /\ s_holds s = [] /\ NoDup (map al_id (s_allocs s)) /\
  Forall (fun a => u_consumed (al_units a) = 0 /\ u_held (al_units a) = 0 /\
                   0 <= u_reversed (al_units a) <= u_quantity (al_units a)) (s_allocs s).

Lemma unspent_inv s : unspent s -> wallet_inv scale s.
Proof.
  intros (Hr & Hh & Hnd & Ha). constructor; rewrite ?Hr, ?Hh; try done.
  - eapply Forall_impl; [exact Ha|]. intros a (? & ? & ?). unfold alloc_ok, units_ok. lia.
  - intros a Hin. unfold openHolds. rewrite Hh. rewrite Forall_forall in Ha. by destruct (Ha a Hin) as (_ & -> & _).
  - constructor.
  - constructor.
  - intros h a r []%elem_of_nil.
  - intros r []%elem_of_nil.
Qed.

Lemma findReservation_unspent_scale s rid r : wallet_inv scale s -> findReservation s rid = Some r ->
  rs_status r = st_active -> 0 <= scale.
Proof.
  intros Hinv Hr Hst. destruct (findReservation_active s rid r Hr Hst) as (Hin & _ & _).
  eapply decimalToUnits_scale. by apply (inv_backed _ s Hinv).
Qed.

Lemma release_step rid now s s' out : wallet_inv scale s ->
  releaseWallet feature rid now s = Ok (s', out) -> wallet_inv scale s'.
Proof.
  intros Hinv H. unfold releaseWallet in H. destruct (findReservation s rid) as [r|] eqn:Hr; [|done].
  destruct (rs_status r) eqn:Hst; [|injection H as <- _; exact Hinv ..].
  apply bind_Ok in H as (s1 & Hrel & H). injection H as <- _.
  destruct (findReservation_active s rid r Hr Hst) as (_ & _ & Hact).
  pose proof (findReservation_unspent_scale s rid r Hinv Hr Hst).
  eapply release_preserves; eauto. by destruct (_ <=? _).
Qed.

Lemma confirm_step rid input quantity deny now s s' out : wallet_inv scale s ->
  confirmWallet feature rate rid input quantity deny now s = Ok (s', out) -> wallet_inv scale s'.
Proof.
  intros Hinv H. unfold confirmWallet in H. destruct (findReservation s rid) as [r|] eqn:Hr; [|done].
  apply bind_Ok in H as (q & _ & H). destruct (rs_status r) eqn:Hst.
  - destruct (findReservation_active s rid r Hr Hst) as (_ & _ & Hact).
    pose proof (findReservation_unspent_scale s rid r Hinv Hr Hst). destruct (rs_expires_at r <=? now).
    + apply bind_Ok in H as (s1 & Hrel & H). injection H as <- _.
      by apply (release_preserves feature s s1 rid st_expired).
    + apply bind_Ok in H as (w & _ & H). apply bind_Ok in H as (au & _ & H). apply bind_Ok in H as (u & _ & H).
      destruct (planConfirmation _ _ _ _ _) as [plan|e] eqn:Hplan.
      * destruct deny; injection H as <- _; [done|].
        destruct (decimalToUnits quantity scale) as [n|e] eqn:Hn.
        -- by eapply confirm_preserves.
        -- exfalso. unfold planConfirmation in Hplan. apply bind_Ok in Hplan as (? & _ & Hplan).
           by rewrite Hn in Hplan.
      * case_bool_decide; [by injection H as <- _|done].
  - case_bool_decide; [by injection H as <- _|done].
  - done.
  - by injection H as <- _.
Qed.

Lemma step_inv s s' : wallet_inv scale s -> step s s' -> wallet_inv scale s'.
Proof.
  intros Hinv Hstep. destruct Hstep as [? ? ? ? ? ? ? ? H|? ? ? ? ? ? ? ? ? ? Hf H|? ? ? ? ? ? ? ? H|? ? ? ? ? H].
  - by eapply consume_preserves.
  - by eapply reserve_preserves.
  - by eapply confirm_step.
  - by eapply release_step.
Qed.

Lemma reachable_inv s s' : wallet_inv scale s -> rtc step s s' -> wallet_inv scale s'.
Proof. intros Hinv H. induction H; [done|]. eauto using step_inv. Qed.
End Histories.

(** C4: however consumes, reservations, confirmations, releases and expiries interleave,
    no allocation of a wallet is ever oversold: consumed plus held quantity stays
    within the allocation, none is negative, and what is held is exactly what the
    open reservations hold. *)
Theorem wallet_never_oversold feature rate s0 s a :
  unspent s0 -> rtc (step feature rate) s0 s -> a ∈ s_allocs s ->
  0 <= u_consumed (al_units a) /\ 0 <= u_held (al_units a) /\
  u_consumed (al_units a) + u_held (al_units a) <= u_quantity (al_units a) /\
  u_held (al_units a) = amountFor (openHolds s) (al_id a).
Proof.
  intros H0 Hreach Ha. pose proof (reachable_inv feature rate s0 s (unspent_inv feature s0 H0) Hreach) as Hinv.
  pose proof (inv_allocs _ s Hinv) as Hall. rewrite Forall_forall in Hall. destruct (Hall a Ha) as [(_ & Hc & Hh & Hcap) _].
  repeat split; try done. by apply (inv_ledger _ s Hinv).
Qed.

Definition exampleAlloc (id quantity : Z) (expires : option Z) : Alloc :=
  {| al_id := id; al_units := {| u_quantity := quantity; u_reversed := 0; u_consumed := 0; u_held := 0 |};
     al_operator := false; al_operator_grant_id := None; al_reversed_at := None; al_expires_at := expires;
     al_created_at := 0; al_entity := None; al_source_kind := "purchase"; al_source_key := "k" |}.

Definition exampleStore : Store :=
  {| s_allocs := [exampleAlloc 1 5 None; exampleAlloc 2 10 (Some 100)]; s_reservations := [];
     s_holds := []; s_grants := [] |}.

(** Fallbacks never used: the results below are [Ok]. *)
Definition storeOf (r : result (Store * Outcome)) : Store :=
  match r with Ok (s, _) => s | Err _ => exampleStore end.

Definition exampleReserved : Store :=
  storeOf (reserveWallet exampleWallet (directRate exampleWallet) 7 None (js "12") (js "12") false 50 1 exampleStore).

Lemma exampleReserved_ok :
  reserveWallet exampleWallet (directRate exampleWallet) 7 None (js "12") (js "12") false 50 1 exampleStore
    = Ok (exampleReserved, Reserved 7
        [ {| de_allocationId := 2; de_quantity := js "10"; de_sourceKind := "purchase"; de_sourceKey := "k"; de_expiresAt := Some 100 |};
          {| de_allocationId := 1; de_quantity := js "2"; de_sourceKind := "purchase"; de_sourceKey := "k"; de_expiresAt := None |} ]).
Proof. vm_compute. reflexivity. Qed.

Lemma exampleStore_unspent : unspent exampleStore.
Proof.
  split; [done|]. split; [done|]. split.
  - apply (bool_decide_unpack _). vm_compute. exact I.
  - repeat constructor; cbn; lia.
Qed.

Lemma wallet_never_oversold_witness :
  0 <= 0 /\ 0 <= 2 /\ 0 + 2 <= 5 /\ 2 = amountFor (openHolds exampleReserved) 1.
Proof.
  apply (wallet_never_oversold exampleWallet (directRate exampleWallet) exampleStore exampleReserved
    (with_units (exampleAlloc 1 5 None) {| u_quantity := 5; u_reversed := 0; u_consumed := 0; u_held := 2 |})).
  - exact exampleStore_unspent.
  - apply rtc_once. apply (step_reserve _ _ 7 None (js "12") (js "12") false 50 1 exampleStore _ _ (not_elem_of_nil _) exampleReserved_ok).
  - apply list_elem_of_In. vm_compute. left. reflexivity.
Defined.

Lemma findReservation_finalize s1 s rid r status confirmed :
  s_reservations s1 = s_reservations s -> findReservation s rid = Some r -> rs_status r = st_active ->
  exists r', findReservation (finalize rid status (Some confirmed) s1) rid = Some r' /\
    rs_status r' = status /\ rs_confirmed r' = Some confirmed.
Proof.
  intros Hs Hr Hst. unfold findReservation, finalize in *. cbn. rewrite Hs. clear Hs s1.
  induction (s_reservations s) as [|x l IH]; [done|]. cbn in *.
  destruct (Z.eqb_spec (rs_id x) rid) as [Heq|Hne].
  - injection Hr as ->. rewrite bool_decide_eq_true_2 by done. cbn. rewrite Heq, Z.eqb_refl. eauto.
  - cbn. rewrite (proj2 (Z.eqb_neq _ _) Hne). auto.
Qed.

(** in any history, confirming an open, unexpired reservation with a quantity that
    costs no more than it holds always succeeds when the controls allow it, whatever
    else was spent since: exactly that quantity is consumed, everything the
    reservation held is freed, and repeating the confirmation with the same quantity
    changes nothing while a different quantity is refused. *)
Theorem confirmation_within_hold_settles feature rate s0 s rid r input q quantity w au n h now :
  unspent s0 -> rtc (step feature rate) s0 s ->
  findReservation s rid = Some r -> rs_status r = st_active -> now < rs_expires_at r ->
  positiveDecimal input "quantity" (credit_scale (r_meter rate)) = Ok q ->
  decimalToUnits q (credit_scale (r_meter rate)) = Ok w ->
  databaseUnits (DbText (rs_requested r)) "reserved quantity" (credit_scale (r_meter rate)) = Ok au -> w <= au ->
  decimalToUnits quantity (credit_scale feature) = Ok n ->
  decimalToUnits (rs_held r) (credit_scale feature) = Ok h -> n <= h ->
  exists s' ds,
    confirmWallet feature rate rid input quantity false now s = Ok (s', Confirmed ds) /\
    totalConsumed s' = totalConsumed s + n /\ totalHeld s' = totalHeld s - h /\
    (forall quantity' deny now', confirmWallet feature rate rid input quantity' deny now' s' = Ok (s', Finalized st_confirmed)) /\
    (forall input' q' quantity' deny now',
       positiveDecimal input' "quantity" (credit_scale (r_meter rate)) = Ok q' -> q' <> q ->
       is_ok (confirmWallet feature rate rid input' quantity' deny now' s') = false).
Proof.
  intros H0 Hreach Hr Hst Hnow Hq Hw Hau Hle Hn Hh Hnh.
  pose proof (reachable_inv feature rate s0 s (unspent_inv feature s0 H0) Hreach) as Hinv.
  destruct (findReservation_active s rid r Hr Hst) as (Hin & Hrid & Hact).
  pose proof (inv_backed _ s Hinv r Hin Hst) as Hback. rewrite Hh, Hrid in Hback. injection Hback as ->.
  destruct (confirm_within_hold feature s rid r quantity n now Hinv Hr Hn Hnh) as [plan Hplan].
  destruct (confirm_preserves feature s rid r quantity n now plan (Some q) Hinv Hr Hst Hn Hplan) as (_ & Hc & Hheld).
  destruct (applyConfirmation_writes rid plan s) as (_ & Hres & _).
  exists (finalize rid st_confirmed (Some q) (applyConfirmation rid plan s)), (cp_deductions plan).
  split.
  { unfold confirmWallet. rewrite Hr, Hq. cbn [mbind result_bind]. rewrite Hst.
    replace (rs_expires_at r <=? now) with false by (symmetry; apply Z.leb_gt; lia).
    rewrite Hw. cbn [mbind result_bind]. rewrite Hau. cbn [mbind result_bind].
    replace (au <? w) with false by (symmetry; apply Z.ltb_ge; lia). cbn [throwWhen mbind result_bind].
    by rewrite Hplan. }
  split; [exact Hc|]. split; [exact Hheld|].
  destruct (findReservation_finalize (applyConfirmation rid plan s) s rid r st_confirmed q Hres Hr Hst)
    as (r' & Hr' & Hst' & Hq').
  split; intros.
  - unfold confirmWallet. rewrite Hr', Hq. cbn [mbind result_bind]. rewrite Hst', Hq'.
    by rewrite bool_decide_eq_true_2.
  - unfold confirmWallet. rewrite Hr', H. cbn [mbind result_bind]. rewrite Hst', Hq'.
    by rewrite bool_decide_eq_false_2 by congruence.
Qed.

Lemma confirmation_within_hold_settles_witness :
  exists s' ds,
    confirmWallet exampleWallet (directRate exampleWallet) 7 (js "11") (js "11") false 2 exampleReserved = Ok (s', Confirmed ds) /\
    totalConsumed s' = totalConsumed exampleReserved + 11 /\ totalHeld s' = totalHeld exampleReserved - 12 /\
    (forall quantity' deny now', confirmWallet exampleWallet (directRate exampleWallet) 7 (js "11") quantity' deny now' s'
       = Ok (s', Finalized st_confirmed)) /\
    (forall input' q' quantity' deny now', positiveDecimal input' "quantity" 0 = Ok q' -> q' <> js "11" ->
       is_ok (confirmWallet exampleWallet (directRate exampleWallet) 7 input' quantity' deny now' s') = false).
Proof.
  apply (confirmation_within_hold_settles exampleWallet (directRate exampleWallet) exampleStore exampleReserved 7
    (newReservation 7 None (js "12") (js "12") 50) (js "11") (js "11") (js "11") 11 12 11 12 2);
    [ exact exampleStore_unspent
    | apply rtc_once; apply (step_reserve _ _ 7 None (js "12") (js "12") false 50 1 exampleStore _ _ (not_elem_of_nil _) exampleReserved_ok)
    | vm_compute; reflexivity | reflexivity | cbn; lia | vm_compute; reflexivity | vm_compute; reflexivity
    | vm_compute; reflexivity | lia | vm_compute; reflexivity | vm_compute; reflexivity | lia ].
Defined.

(** ** Lawful comparisons *)

(** What [ORDER BY] promises of a comparison: a total preorder. *)
Class Ordering {A} (cmp : A -> A -> comparison) : Prop := {
  cmp_opp : forall a b, cmp b a = CompOpp (cmp a b);
  cmp_eq_l : forall a b c, cmp a b = Eq -> cmp a c = cmp b c;
  cmp_trans : forall a b c, cmp a b = Lt -> cmp b c = Lt -> cmp a c = Lt }.

#[export] Instance ordering_Z : Ordering Z.compare.
Proof.
  constructor; intros a b.
  - apply Z.compare_antisym.
  - intros c H%Z.compare_eq. by subst.
  - intros c. rewrite !Z.compare_lt_iff. lia.
Qed.

#[export] Instance ordering_key {A B} (f : A -> B) (cmp : B -> B -> comparison) `{!Ordering cmp} :
  Ordering (fun a b => cmp (f a) (f b)).
Proof.
  constructor; intros a b; [apply cmp_opp|intros c; apply cmp_eq_l|intros c; apply cmp_trans].
Qed.

#[export] Instance ordering_nulls_last : Ordering compareNullsLast.
Proof.
  constructor.
  - intros [x|] [y|]; cbn; try done. apply Z.compare_antisym.
  - intros [x|] [y|] [z|]; cbn; try done. intros H%Z.compare_eq. by subst.
  - intros [x|] [y|] [z|]; cbn; try done. rewrite !Z.compare_lt_iff. lia.
Qed.

#[export] Instance ordering_pool : Ordering comparePool.
Proof.
  constructor; [intros [x|] [y|]|intros [x|] [y|] [z|]|intros [x|] [y|] [z|] ]; done.
Qed.

#[export] Instance ordering_then {A} (c1 c2 : A -> A -> comparison) `{!Ordering c1, !Ordering c2} :
  Ordering (fun a b => thenCompare (c1 a b) (c2 a b)).
Proof.
  constructor; intros a b.
  - rewrite (cmp_opp (cmp := c1) a b), (cmp_opp (cmp := c2) a b). by destruct (c1 a b).
  - intros c H. destruct (c1 a b) eqn:E1; try done. cbn in H.
    by rewrite (cmp_eq_l (cmp := c1) a b c E1), (cmp_eq_l (cmp := c2) a b c H).
  - intros c H1 H2. destruct (c1 a b) eqn:E1, (c1 b c) eqn:E2; try done; cbn in H1, H2.
    + rewrite (cmp_eq_l (cmp := c1) a b c E1), E2. cbn. by eapply (cmp_trans (cmp := c2)).
    + by rewrite (cmp_eq_l (cmp := c1) a b c E1), E2.
    + assert (E3 : c1 c b = Eq) by (rewrite (cmp_opp (cmp := c1) b c), E2; done).
      pose proof (cmp_eq_l (cmp := c1) c b a E3) as H. rewrite (cmp_opp (cmp := c1) a b), E1 in H.
      rewrite (cmp_opp (cmp := c1) c a), H. done.
    + by rewrite (cmp_trans (cmp := c1) a b c E1 E2).
Qed.

#[export] Instance ordering_spend : Ordering spendCompare.
Proof. unfold spendCompare. exact _. Qed.

Definition spendLe (a b : Alloc) : Prop := spendCompare a b <> Gt.

Lemma spendLe_trans a b c : spendLe a b -> spendLe b c -> spendLe a c.
Proof.
  unfold spendLe. intros H1 H2. destruct (spendCompare a b) eqn:E1; [|destruct (spendCompare b c) eqn:E2|done]; try done.
  - by rewrite (cmp_eq_l a b c E1).
  - pose proof (cmp_opp b c) as Hop. rewrite E2 in Hop. pose proof (cmp_eq_l c b a Hop) as H.
    rewrite (cmp_opp a b), E1 in H. by rewrite (cmp_opp c a), H.
  - by rewrite (cmp_trans a b c E1 E2).
Qed.

Lemma insertSpend_sorted a l : StronglySorted spendLe l -> StronglySorted spendLe (insertSpend a l).
Proof.
  induction 1 as [|b l Hs IH Hb]; cbn; [by repeat constructor|].
  destruct (spendCompare a b) eqn:E.
  1-2: constructor; [by constructor|]; constructor; [unfold spendLe; by rewrite E|];
    eapply Forall_impl; [exact Hb|]; intros c Hc; eapply spendLe_trans; [|exact Hc]; unfold spendLe; by rewrite E.
  constructor; [exact IH|]. rewrite insertSpend_perm. constructor; [|exact Hb].
  unfold spendLe. rewrite (cmp_opp a b), E. done.
Qed.

Lemma spendSorted_sorted l : StronglySorted spendLe (spendSorted l).
Proof. induction l; cbn; [constructor|by apply insertSpend_sorted]. Qed.

(** A row gives something only once the rows before it have nothing left. *)
Lemma takes_order frees n i j f t : 0 <= n -> (i < j)%nat -> frees !! i = Some f ->
  takes frees n !! j = Some t -> 0 < t -> takes frees n !! i = Some (Z.max 0 f).
Proof.
  revert n i j. induction frees as [|g frees IH]; intros n i j Hn Hij Hf Ht Hpos; [done|].
  cbn [takes] in *. destruct i as [|i]; destruct j as [|j]; try lia.
  - injection Hf as ->. cbn in *. f_equal. destruct (Z.le_gt_cases n f); [|lia].
    exfalso. rewrite takes_0 in Ht by lia. apply list_elem_of_lookup_2 in Ht.
    apply list_elem_of_In, repeat_spec in Ht. lia.
  - cbn in *. eapply (IH _ i j); eauto; lia.
Qed.

Lemma zip_nonneg (ids ts : list Z) : Forall (fun t => 0 <= t) ts -> Forall (fun q => 0 <= snd q) (zip ids ts).
Proof.
  intros H. apply Forall_forall. intros [k t] Hk%elem_of_zip_r. rewrite Forall_forall in H. by apply H.
Qed.

Lemma amountFor_lookup (L : list Alloc) ts i a : NoDup (map al_id L) -> length ts = length L ->
  L !! i = Some a -> ts !! i = Some (amountFor (zip (map al_id L) ts) (al_id a)).
Proof.
  intros Hnd Hlen Hi. destruct (lookup_lt_is_Some_2 ts i) as [t Ht].
  { rewrite Hlen. by eapply lookup_lt_Some. }
  rewrite Ht. f_equal. symmetry. apply amountFor_unique.
  - change (NoDup ((zip (map al_id L) ts).*1)). rewrite fst_zip by (rewrite length_map; lia). done.
  - apply list_elem_of_lookup. exists i. apply lookup_zip_with_Some. exists (al_id a), t.
    split; [done|]. split; [|done]. by rewrite list_lookup_fmap, Hi.
Qed.

(** What a consumption takes from each locked row is [takes] of the rows' free
    quantities. *)
Lemma consume_takes feature rate entity requested quantity now s s' ds l :
  wallet_inv (credit_scale feature) s ->
  consumeWallet feature rate entity requested quantity false now s = Ok (s', Consumed ds) ->
  amountsOf (credit_scale feature) ds = Ok l ->
  exists n, 0 <= n /\ forall i a, lockAllocations s entity now !! i = Some a ->
    takes (map (fun x => u_free (al_units x)) (lockAllocations s entity now)) n !! i = Some (amountFor l (al_id a)).
Proof.
  intros Hinv H Hl. unfold consumeWallet in H.
  apply bind_Ok in H as (bal & _ & H). apply bind_Ok in H as (d & _ & H).
  destruct (negb (d_allowed d)); [done|]. apply bind_Ok in H as (ds' & Hplan & H).
  apply bind_Ok in H as (s1 & _ & H). injection H as _ ->.
  destruct (decimalToUnits quantity (credit_scale feature)) as [n|e] eqn:Hn;
    [|unfold planDeductions in Hplan; by rewrite Hn in Hplan].
  destruct (locked_spec (spendable entity now) s (inv_ids _ s Hinv)) as [Hnd Hmem].
  change (spendSorted (List.filter (spendable entity now) (s_allocs s))) with (lockAllocations s entity now) in *.
  set (L := lockAllocations s entity now) in *.
  pose proof (decimalToUnits_scale _ _ _ Hn) as Hs. pose proof (decimalToUnits_nonneg _ _ _ Hs Hn) as Hn0.
  assert (Hnonneg : Forall (fun a => nonneg_units (al_units a)) L).
  { apply Forall_forall. intros x Hx. apply alloc_ok_nonneg.
    pose proof (inv_allocs _ s Hinv) as Hall. rewrite Forall_forall in Hall. apply Hall. by apply Hmem. }
  rewrite (planDeductions_takes _ (map al_units L) _ _ n) in Hplan by (done || by apply readRow_represents).
  destruct (n <=? _); [|done]. injection Hplan as <-. rewrite map_map in Hl.
  destruct (takes_bounds (map (fun x => u_free (al_units x)) L) n Hn0) as [Hbnd _].
  assert (Hts : Forall (fun t => 0 <= t) (takes (map (fun x => u_free (al_units x)) L) n)).
  { eapply Forall2_Forall_l; [exact Hbnd|]. apply Forall_true. by intros ? ? []. }
  rewrite deductionsOf_amounts in Hl by done. injection Hl as <-.
  exists n. split; [done|]. intros i a Hi. rewrite amountFor_filter_pos by (by apply zip_nonneg).
  apply amountFor_lookup; [done|by rewrite takes_length, length_map|done].
Qed.

(** [a] expires before [b]; what never expires is last. *)
Definition expiresSooner (a b : Alloc) : Prop :=
  match al_expires_at a, al_expires_at b with Some x, Some y => x < y | Some _, None => True | None, _ => False end.

Definition older (a b : Alloc) : Prop :=
  al_created_at a < al_created_at b \/ (al_created_at a = al_created_at b /\ al_id a < al_id b).

(** The promised order: sooner expiry, then an entity's own before the pool, then age. *)
Definition spentBefore (a b : Alloc) : Prop :=
  expiresSooner a b \/
  (al_expires_at a = al_expires_at b /\
   ((is_Some (al_entity a) /\ al_entity b = None) \/ ((is_Some (al_entity a) <-> is_Some (al_entity b)) /\ older a b))).

Lemma spentBefore_compare a b : spentBefore a b -> spendCompare a b = Lt.
Proof.
  unfold spentBefore, expiresSooner, older, spendCompare. intros [H|[-> H] ].
  - destruct (al_expires_at a), (al_expires_at b); cbn; try done. by rewrite (proj2 (Z.compare_lt_iff _ _) H).
  - assert (He : compareNullsLast (al_expires_at b) (al_expires_at b) = Eq)
      by (destruct (al_expires_at b); cbn; [apply Z.compare_refl|done]).
    rewrite He. cbn [thenCompare]. destruct H as [ [ [e ->] ->]|[Hiff H] ]; [done|].
    assert (Hp : comparePool (al_entity a) (al_entity b) = Eq).
    { destruct (al_entity a), (al_entity b); try done; [destruct (proj1 Hiff (ex_intro _ _ eq_refl)); done|].
      destruct (proj2 Hiff (ex_intro _ _ eq_refl)); done. }
    rewrite Hp. cbn [thenCompare]. destruct H as [H|[-> H] ]; [by rewrite (proj2 (Z.compare_lt_iff _ _) H)|].
    rewrite Z.compare_refl. cbn [thenCompare]. by apply Z.compare_lt_iff.
Qed.

Lemma sorted_before L a b i j : StronglySorted spendLe L -> spendCompare a b = Lt ->
  L !! i = Some a -> L !! j = Some b -> (i < j)%nat.
Proof.
  intros Hs Hlt. revert i j. induction Hs as [|x L Hs IH Hx]; intros i j Hi Hj; [done|].
  rewrite Forall_forall in Hx. destruct i as [|i], j as [|j]; cbn in Hi, Hj; [|lia| |specialize (IH i j Hi Hj); lia].
  - injection Hi as ->. injection Hj as ->. pose proof (cmp_opp b b) as H. by rewrite Hlt in H.
  - injection Hj as ->. exfalso. apply list_elem_of_lookup_2, Hx in Hi. unfold spendLe in Hi.
    apply Hi. by rewrite (cmp_opp a b), Hlt.
Qed.

(** usage spends allocations in order: nothing is taken from an allocation while one
    that expires earlier (or, at the same expiry, an entity's own before the pool,
    then an older one) still has something free, and nothing at all from an
    allocation that has ended or belongs to another entity. *)
Theorem consumption_in_spend_order feature rate entity requested quantity now s0 s s' ds l a b :
  unspent s0 -> rtc (step feature rate) s0 s ->
  consumeWallet feature rate entity requested quantity false now s = Ok (s', Consumed ds) ->
  amountsOf (credit_scale feature) ds = Ok l ->
  a ∈ s_allocs s -> b ∈ s_allocs s -> 0 < amountFor l (al_id b) ->
  spendable entity now b = true /\
  (spendable entity now a = true -> spentBefore a b -> amountFor l (al_id a) = Z.max 0 (u_free (al_units a))).
Proof.
  intros H0 Hreach H Hl Ha Hb Hpos.
  pose proof (reachable_inv feature rate s0 s (unspent_inv feature s0 H0) Hreach) as Hinv.
  destruct (consume_spec feature rate _ _ _ _ _ _ _ _ Hinv H) as
    [[_ [? [=] ] ]|(ds' & l' & n' & [= <-] & _ & Hl' & _ & _ & Hfree & _)].
  rewrite Hl in Hl'. injection Hl' as <-.
  assert (Hsb : spendable entity now b = true) by (destruct (Hfree b Hb) as [|[? _] ]; [lia|done]).
  split; [done|]. intros Hsa Hlt%spentBefore_compare.
  destruct (consume_takes _ _ _ _ _ _ _ _ _ _ Hinv H Hl) as (n & Hn0 & Htakes).
  destruct (locked_spec (spendable entity now) s (inv_ids _ s Hinv)) as [_ Hmem].
  assert (HLa : a ∈ lockAllocations s entity now) by (by apply Hmem).
  assert (HLb : b ∈ lockAllocations s entity now) by (by apply Hmem).
  apply list_elem_of_lookup in HLa as [i Hi]. apply list_elem_of_lookup in HLb as [j Hj].
  pose proof (sorted_before _ a b i j (spendSorted_sorted _) Hlt Hi Hj) as Hij.
  pose proof (Htakes j b Hj) as Htj. pose proof (Htakes i a Hi) as Hti.
  assert (Hf : map (fun x => u_free (al_units x)) (lockAllocations s entity now) !! i = Some (u_free (al_units a)))
    by (by rewrite list_lookup_fmap, Hi).
  rewrite (takes_order _ n i j _ _ Hn0 Hij Hf Htj Hpos) in Hti. by injection Hti.
Qed.

Definition exampleConsumed : Store :=
  storeOf (consumeWallet exampleWallet (directRate exampleWallet) None (js "12") (js "12") false 1 exampleStore).

Lemma consumption_in_spend_order_witness :
  spendable None 1 (exampleAlloc 1 5 None) = true /\
  (spendable None 1 (exampleAlloc 2 10 (Some 100)) = true ->
   spentBefore (exampleAlloc 2 10 (Some 100)) (exampleAlloc 1 5 None) -> 10 = Z.max 0 10).
Proof.
  apply (consumption_in_spend_order exampleWallet (directRate exampleWallet) None (js "12") (js "12") 1
    exampleStore exampleStore exampleConsumed
    [ {| de_allocationId := 2; de_quantity := js "10"; de_sourceKind := "purchase"; de_sourceKey := "k"; de_expiresAt := Some 100 |};
      {| de_allocationId := 1; de_quantity := js "2"; de_sourceKind := "purchase"; de_sourceKey := "k"; de_expiresAt := None |} ]
    [(2, 10); (1, 2)] (exampleAlloc 2 10 (Some 100)) (exampleAlloc 1 5 None));
    [ exact exampleStore_unspent | apply rtc_refl | vm_compute; reflexivity | vm_compute; reflexivity
    | right; left | left | vm_compute; reflexivity ].
Defined.

Lemma findReservation_fresh s rid r allocs holds : rid ∉ map rs_id (s_reservations s) -> rs_id r = rid ->
  findReservation {| s_allocs := allocs; s_reservations := s_reservations s ++ [r];
                     s_holds := holds; s_grants := s_grants s |} rid = Some r.
Proof.
  intros Hf Hr. unfold findReservation. cbn. revert Hf. generalize (s_reservations s). intros l Hf.
  induction l as [|x l IH]; cbn; [by rewrite Hr, Z.eqb_refl|].
  cbn in Hf. apply not_elem_of_cons in Hf as [Hne Hf].
  replace (rs_id x =? rid) with false by (symmetry; apply Z.eqb_neq; congruence). auto.
Qed.

Lemma held_then_released l a entity now :
  amountFor l (al_id a) = 0 \/ (spendable entity now a = true /\ 0 <= amountFor l (al_id a) <= u_free (al_units a)) ->
  settled (fun _ => 0) (amountFor l) (addAmounts held_quantity l a) = a.
Proof.
  intros H. unfold settled, addAmounts, settleUnits. cbn [al_id with_units al_units].
  change (revokedOperator (with_units a ?u)) with (revokedOperator a).
  assert (Hrev : (if revokedOperator a then Z.max (amountFor l (al_id a) - 0) 0 else 0) = 0).
  { destruct H as [->|[[_ Hlive]%andb_prop _] ]; [by destruct (revokedOperator a)|].
    by rewrite (live_not_revoked _ _ Hlive). }
  rewrite Hrev. destruct a as [? [] ? ? ? ? ? ? ? ?]; cbn. unfold with_units; cbn. f_equal. f_equal; lia.
Qed.

(** releasing a reservation, or letting it expire, undoes it: the allocations are
    again exactly what they were before it was made, when nothing else happened in
    between. *)
Theorem reserve_release_restores feature rate s0 s s1 s2 rid entity requested quantity expiresAt now ds now' out :
  unspent s0 -> rtc (step feature rate) s0 s -> rid ∉ map rs_id (s_reservations s) ->
  reserveWallet feature rate rid entity requested quantity false expiresAt now s = Ok (s1, Reserved rid ds) ->
  releaseWallet feature rid now' s1 = Ok (s2, out) ->
  s_allocs s2 = s_allocs s /\
  out = Finalized (if expiresAt <=? now' then st_expired else st_released).
Proof.
  intros H0 Hreach Hfresh Hres Hrel.
  pose proof (reachable_inv feature rate s0 s (unspent_inv feature s0 H0) Hreach) as Hinv.
  destruct (reserve_preserves feature rate _ _ _ _ _ _ _ _ _ _ Hinv Hfresh Hres) as (Hinv1 & _ & _).
  destruct (reserve_spec feature rate _ _ _ _ _ _ _ _ _ _ Hinv Hres) as
    [[_ [? [=] ] ]|(ds' & l & n & [= <-] & Hn & Hl & Hpos & Hnd & _ & _ & Hfree & ->)].
  pose proof (decimalToUnits_scale _ _ _ Hn) as Hs.
  set (r := newReservation rid entity requested quantity expiresAt) in *.
  set (s1 := {| s_allocs := map (addAmounts held_quantity l) (s_allocs s);
                s_reservations := s_reservations s ++ [r];
                s_holds := s_holds s ++ map (heldRow rid) l; s_grants := s_grants s |}) in *.
  assert (Hfind : findReservation s1 rid = Some r) by (by apply findReservation_fresh).
  assert (Hact : isActive s1 rid = true) by (by apply (findReservation_active s1 rid r)).
  unfold releaseWallet in Hrel. rewrite Hfind in Hrel. change (rs_status r) with st_active in Hrel.
  rewrite releaseHolds_settles in Hrel by done. injection Hrel as <- <-. split; [|done].
  destruct (release_allocs feature s1 rid Hinv1) as (Hal & _ & _).
  change (s_allocs (finalize _ _ _ ?t)) with (s_allocs t). rewrite Hal. unfold s1 at 2. cbn [s_allocs].
  rewrite map_map. etransitivity; [|apply map_id]. apply map_ext_in. intros a Ha%list_elem_of_In.
  rewrite <- (held_then_released l a entity now (Hfree a Ha)) at 2.
  unfold settled. f_equal. f_equal. unfold released, holdsOf, s1. cbn [s_holds].
  rewrite List.filter_app, (filter_none _ (s_holds s)), (filter_all _ (map (heldRow rid) l)).
  - cbn [app]. rewrite map_map. cbn. f_equal. rewrite <- (map_id l) at 2. apply map_ext. by intros [].
  - intros h (q & -> & _)%list_elem_of_fmap. apply Z.eqb_refl.
  - intros h Hin. apply Z.eqb_neq. intros Heq. pose proof (inv_holds _ s Hinv) as Hall.
    rewrite Forall_forall in Hall. destruct (Hall h Hin) as (_ & _ & _ & _ & Hr). by rewrite Heq in Hr.
Qed.

Definition exampleReleased : Store := storeOf (releaseWallet exampleWallet 7 60 exampleReserved).

Lemma reserve_release_restores_witness :
  s_allocs exampleReleased = s_allocs exampleStore /\ Finalized st_expired = Finalized st_expired.
Proof.
  apply (reserve_release_restores exampleWallet (directRate exampleWallet) exampleStore exampleStore exampleReserved
    exampleReleased 7 None (js "12") (js "12") 50 1
    [ {| de_allocationId := 2; de_quantity := js "10"; de_sourceKind := "purchase"; de_sourceKey := "k"; de_expiresAt := Some 100 |};
      {| de_allocationId := 1; de_quantity := js "2"; de_sourceKind := "purchase"; de_sourceKey := "k"; de_expiresAt := None |} ]
    60 (Finalized st_expired));
    [ exact exampleStore_unspent | apply rtc_refl | apply not_elem_of_nil | exact exampleReserved_ok
    | vm_compute; reflexivity ].
Defined.
