(* ===== verification/RateLimit.v ===== *)
(** * Fixed-window rate limiting ([src/http/rate-limit.ts])

    The limiter's table as the insertion-ordered map the code keeps: least recently
    checked key first.  Times and the limit are whole numbers, as every caller passes
    them; below 2^53 the code's floating-point [Math.floor] is then integer division. *)
From S2P Require Import Prelude.

Record RateLimitResult := { rl_allowed : bool; rl_remaining : Z; rl_resetAt : Z; rl_retryAfterSeconds : option Z }.

Record LimiterOptions := { windowMs : Z; limit : Z; maxBuckets : Z }.

(** The table: the window it counts in, and each tracked key's count. *)
Record Limiter := { activeWindowStart : option Z; buckets : list (string * Z) }.

Definition freshLimiter : Limiter := {| activeWindowStart := None; buckets := [] |}.

Definition createFixedWindowRateLimiter (o : LimiterOptions) : result Limiter :=
  _ ← throwWhen (windowMs o <=? 0) (InternalError "windowMs must be a positive finite number");
  _ ← throwWhen (limit o <=? 0) (InternalError "limit must be a positive finite number");
  _ ← throwWhen (maxBuckets o <=? 0) (InternalError "maxBuckets must be a positive integer");
  Ok freshLimiter.

(** [Map.prototype.get] and [delete] on the insertion-ordered table. *)
Fixpoint getBucket (key : string) (l : list (string * Z)) : option Z :=
  match l with
  | [] => None
  | (k, c) :: l => if String.eqb k key then Some c else getBucket key l
  end.
Definition deleteBucket (key : string) (l : list (string * Z)) : list (string * Z) :=
  List.filter (fun p => negb (String.eqb (fst p) key)) l.

Definition windowOf (o : LimiterOptions) (now : Z) : Z := now / windowMs o * windowMs o.

(** [Math.ceil(ms / 1000)] *)
Definition ceilSeconds (ms : Z) : Z := - ((- ms) / 1000).

Definition check (o : LimiterOptions) (currentTime : Z) (key : string) (s : Limiter) : Limiter * RateLimitResult :=
  let windowStart := windowOf o currentTime in
  let resetAt := windowStart + windowMs o in
  let table := if decide (activeWindowStart s = Some windowStart) then buckets s else [] in
  let '(count, kept) :=
    match getBucket key table with
    | None => (0, if maxBuckets o <=? Z.of_nat (length table) then tl table else table)
    | Some count => (count, deleteBucket key table)
    end in
  if limit o <=? count then
    ({| activeWindowStart := Some windowStart; buckets := kept ++ [(key, count)] |},
     {| rl_allowed := false; rl_remaining := 0; rl_resetAt := resetAt;
        rl_retryAfterSeconds := Some (Z.max 1 (ceilSeconds (resetAt - currentTime))) |})
  else
    ({| activeWindowStart := Some windowStart; buckets := kept ++ [(key, count + 1)] |},
     {| rl_allowed := true; rl_remaining := Z.max 0 (limit o - (count + 1)); rl_resetAt := resetAt;
        rl_retryAfterSeconds := None |}).

(** [retryAfterSeconds]; [dateNow] is the clock when the header is written. *)
Definition retryAfterSeconds (dateNow : Z) (r : RateLimitResult) : Z :=
  match rl_retryAfterSeconds r with
  | Some s => s
  | None => Z.max 1 (ceilSeconds (rl_resetAt r - dateNow))
  end.

(** ** Histories of checks *)

(** One entry of the log, newest first: when, which key, and whether it was let through. *)
Definition Entry : Type := (Z * string * bool)%type.

Definition observe (o : LimiterOptions) (st : Limiter * list Entry) (c : Z * string) : Limiter * list Entry :=
  let '(s, log) := st in
  let '(s', r) := check o (fst c) (snd c) s in (s', (c, rl_allowed r) :: log).

Definition run (o : LimiterOptions) (checks : list (Z * string)) : Limiter * list Entry :=
  fold_left (observe o) checks (freshLimiter, []).

(** The checks of a key let through in one window. *)
Definition passed (o : LimiterOptions) (log : list Entry) (window : Z) (key : string) : Z :=
  Z.of_nat (length (List.filter (fun e => let '(now, k, allowed) := e in
    allowed && (windowOf o now =? window) && String.eqb k key) log)).

(** The distinct keys checked in one window. *)
Definition keysIn (o : LimiterOptions) (checks : list (Z * string)) (window : Z) : list string :=
  remove_dups (map snd (List.filter (fun c => windowOf o (fst c) =? window) checks)).

(** ** The table *)

Lemma getBucket_Some key l c : NoDup (map fst l) -> getBucket key l = Some c <-> (key, c) ∈ l.
Proof.
  induction l as [|[k d] l IH]; cbn; intros Hnd; [split; [done|intros H; by apply elem_of_nil in H]|].
  apply NoDup_cons in Hnd as [Hk Hnd]. rewrite elem_of_cons. destruct (String.eqb_spec k key) as [->|Hne].
  - split; [intros [= ->]; by left|]. intros [[= ->]|H]; [done|]. exfalso. apply Hk.
    apply list_elem_of_fmap. by exists (key, c).
  - rewrite (IH Hnd). split; [by right|]. intros [[= -> ->]|H]; [done|exact H].
Qed.

Lemma getBucket_None key l : getBucket key l = None <-> key ∉ map fst l.
Proof.
  induction l as [|[k d] l IH]; cbn; [split; [intros _; apply not_elem_of_nil|done]|].
  rewrite not_elem_of_cons. destruct (String.eqb_spec k key) as [->|Hne]; [split; [done|by intros [? _] ]|].
  rewrite IH. split; [by split|by intros [_ ?] ].
Qed.

Lemma deleteBucket_elem key l p : p ∈ deleteBucket key l <-> p ∈ l /\ fst p <> key.
Proof.
  unfold deleteBucket. rewrite !list_elem_of_In, filter_In, negb_true_iff, String.eqb_neq. done.
Qed.

Lemma deleteBucket_keys key l : NoDup (map fst l) ->
  NoDup (map fst (deleteBucket key l)) /\ (key ∉ map fst (deleteBucket key l)) /\
  (key ∈ map fst l -> S (length (deleteBucket key l)) = length l).
Proof.
  induction l as [|[k d] l IH]; cbn; intros Hnd.
  { split; [constructor|]. split; [apply not_elem_of_nil|]. intros H. by apply elem_of_nil in H. }
  apply NoDup_cons in Hnd as [Hk Hnd]. destruct (IH Hnd) as (H1 & H2 & H3).
  destruct (String.eqb_spec k key) as [->|Hne]; cbn.
  - split; [done|]. split; [done|]. intros _. f_equal.
    change (length (deleteBucket key l) = length l). assert (Hid : deleteBucket key l = l); [|by rewrite Hid].
    apply filter_all. intros [k' d'] Hin. cbn. apply negb_true_iff, String.eqb_neq. intros ->. apply Hk.
    apply list_elem_of_fmap. by exists (key, d').
  - split; [|split].
    + apply NoDup_cons. split; [|done]. intros [p [-> Hp] ]%list_elem_of_fmap.
      apply deleteBucket_elem in Hp as [Hp _]. apply Hk. by apply list_elem_of_fmap_2.
    + apply not_elem_of_cons. by split.
    + intros H. f_equal. apply H3. by apply elem_of_cons in H as [<-|H].
Qed.

(** What one check does to the table and the count it read. *)
Definition tableFor (o : LimiterOptions) (now : Z) (s : Limiter) : list (string * Z) :=
  if decide (activeWindowStart s = Some (windowOf o now)) then buckets s else [].

Definition kept (o : LimiterOptions) (key : string) (table : list (string * Z)) : Z * list (string * Z) :=
  match getBucket key table with
  | None => (0, if maxBuckets o <=? Z.of_nat (length table) then tl table else table)
  | Some count => (count, deleteBucket key table)
  end.

Definition passes (o : LimiterOptions) (now : Z) (key : string) (s : Limiter) : bool :=
  negb (limit o <=? fst (kept o key (tableFor o now s))).

Lemma check_spec o now key s :
  rl_allowed (snd (check o now key s)) = passes o now key s /\
  activeWindowStart (fst (check o now key s)) = Some (windowOf o now) /\
  buckets (fst (check o now key s)) =
    snd (kept o key (tableFor o now s)) ++
      [(key, fst (kept o key (tableFor o now s)) + (if passes o now key s then 1 else 0))].
Proof.
  unfold check, passes. fold (tableFor o now s). unfold kept. destruct (getBucket key (tableFor o now s)) as [c|].
  - cbn [fst snd]. destruct (limit o <=? c) eqn:E; cbn; rewrite ?E; repeat split. by rewrite Z.add_0_r.
  - cbn [fst snd]. destruct (limit o <=? 0) eqn:E; cbn; rewrite ?E; by repeat split.
Qed.

(** Re-inserting a key keeps every other count, except an evicted one. *)
Lemma kept_spec o key table : NoDup (map fst table) -> 0 < maxBuckets o ->
  Z.of_nat (length table) <= maxBuckets o ->
  NoDup (map fst (snd (kept o key table))) /\ (key ∉ map fst (snd (kept o key table))) /\
  Z.of_nat (length (snd (kept o key table))) < maxBuckets o /\
  (forall p, p ∈ snd (kept o key table) -> p ∈ table) /\
  (getBucket key table <> None \/ Z.of_nat (length table) < maxBuckets o ->
   forall p, p ∈ table -> fst p <> key -> p ∈ snd (kept o key table)).
Proof.
  intros Hnd Hmax Hlen. unfold kept. destruct (getBucket key table) as [c|] eqn:Hget; cbn [snd].
  - destruct (deleteBucket_keys key table Hnd) as (H1 & H2 & H3). split; [done|]. split; [done|].
    apply getBucket_Some in Hget; [|done]. specialize (H3 (list_elem_of_fmap_2 fst _ _ Hget)).
    split; [lia|]. split; [by intros p [? _]%deleteBucket_elem|]. intros _ p Hp Hne. by apply deleteBucket_elem.
  - apply getBucket_None in Hget. destruct (Z.leb_spec (maxBuckets o) (Z.of_nat (length table))) as [Hfull|Hroom].
    + destruct table as [|p table]; [cbn in *; lia|]. cbn in *. apply NoDup_cons in Hnd as [_ Hnd].
      apply not_elem_of_cons in Hget as [_ Hget]. repeat (split; [done || lia|]).
      split; [by intros q Hq; apply list_elem_of_further|]. intros [|]; [done|lia].
    + by repeat (split; [done || lia|]).
Qed.

Lemma passed_cons o now key b log w k :
  passed o ((now, key, b) :: log) w k
    = passed o log w k + (if b && (windowOf o now =? w) && String.eqb key k then 1 else 0).
Proof. unfold passed. cbn. destruct (_ && _ && _); cbn; lia. Qed.

Lemma run_snoc o checks now key :
  run o (checks ++ [(now, key)]) =
    (fst (check o now key (fst (run o checks))),
     (now, key, passes o now key (fst (run o checks))) :: snd (run o checks)).
Proof.
  unfold run. rewrite fold_left_app. cbn [fold_left]. fold (run o checks). destruct (run o checks) as [s log].
  unfold observe. cbn [fst snd]. destruct (check_spec o now key s) as (H & _ & _).
  destruct (check o now key s) as [s' r]. cbn [fst snd] in *. by rewrite H.
Qed.

(** ** Invariants *)

Record table_ok (o : LimiterOptions) (s : Limiter) (log : list Entry) : Prop := {
  tb_keys : NoDup (map fst (buckets s));
  tb_size : Z.of_nat (length (buckets s)) <= maxBuckets o;
  tb_counts : forall w k c, activeWindowStart s = Some w -> (k, c) ∈ buckets s -> c <= passed o log w k }.

Lemma tableFor_ok o s log now : 0 < maxBuckets o -> table_ok o s log ->
  NoDup (map fst (tableFor o now s)) /\ Z.of_nat (length (tableFor o now s)) <= maxBuckets o /\
  (forall k c, (k, c) ∈ tableFor o now s -> c <= passed o log (windowOf o now) k).
Proof.
  intros Hm [H1 H2 H3]. unfold tableFor. case_decide as Hw; [by eauto|].
  split; [constructor|]. split; [cbn; lia|]. intros k c H. by apply elem_of_nil in H.
Qed.

Lemma passed_nonneg o log w k : 0 <= passed o log w k.
Proof. unfold passed. lia. Qed.

(** The count a check reads is at most what its key was let through. *)
Lemma kept_count o s log now key : 0 < maxBuckets o -> table_ok o s log ->
  fst (kept o key (tableFor o now s)) <= passed o log (windowOf o now) key.
Proof.
  intros Hm H. destruct (tableFor_ok o s log now Hm H) as (H1 & _ & H3). unfold kept.
  destruct (getBucket key (tableFor o now s)) as [c|] eqn:E; cbn; [|apply passed_nonneg].
  apply H3. by apply getBucket_Some.
Qed.

Lemma run_table_ok o checks : 0 < maxBuckets o -> table_ok o (fst (run o checks)) (snd (run o checks)).
Proof.
  intros Hm. induction checks as [|[now key] checks IH] using rev_ind.
  { constructor; cbn; [constructor|lia|done]. }
  rewrite run_snoc. destruct (run o checks) as [s log]. cbn [fst snd] in *.
  destruct (tableFor_ok o s log now Hm IH) as (H1 & H2 & H3).
  destruct (kept_spec o key _ H1 Hm H2) as (K1 & K2 & K3 & K4 & _).
  destruct (check_spec o now key s) as (_ & Hw & Hb). pose proof (kept_count o s log now key Hm IH) as Hc.
  constructor.
  - rewrite Hb, map_app. apply NoDup_app. split; [done|]. split; [|apply NoDup_singleton].
    intros k Hk ->%list_elem_of_singleton. done.
  - rewrite Hb, length_app. cbn. lia.
  - intros w k c Hw'. rewrite Hb. rewrite Hw in Hw'. injection Hw' as <-. rewrite passed_cons.
    intros [Hin|[= -> ->]%list_elem_of_singleton]%elem_of_app.
    + pose proof (H3 k c (K4 _ Hin)). destruct (_ && _ && _); lia.
    + rewrite Z.eqb_refl, String.eqb_refl. destruct (passes o now key s); cbn [andb]; lia.
Qed.

(** One client cannot use up another's budget: whatever keys were checked before, in
    any order and however many, a check is refused only when its own key was already let
    through [limit] times in the current window; the table never outgrows [maxBuckets];
    and the wait a refusal advertises ends the window, within the window's length. *)
Theorem rejection_is_own_use o checks now key s0 :
  createFixedWindowRateLimiter o = Ok s0 ->
  let s := fst (run o checks) in let log := snd (run o checks) in
  let r := snd (check o now key s) in
  Z.of_nat (length (buckets (fst (check o now key s)))) <= maxBuckets o /\
  (rl_allowed r = false ->
     limit o <= passed o log (windowOf o now) key /\ rl_remaining r = 0 /\
     exists wait, rl_retryAfterSeconds r = Some wait /\ 1 <= wait /\
       rl_resetAt r <= now + 1000 * wait < rl_resetAt r + 1000).
Proof.
  intros Hc s log r. unfold createFixedWindowRateLimiter, throwWhen in Hc.
  destruct (windowMs o <=? 0) eqn:Ew, (limit o <=? 0), (maxBuckets o <=? 0) eqn:Em; cbn in Hc; try discriminate.
  apply Z.leb_gt in Em. apply Z.leb_gt in Ew.
  pose proof (run_table_ok o (checks ++ [(now, key)]) Em) as H. rewrite run_snoc in H. cbn [fst snd] in H.
  split; [exact (tb_size _ _ _ H)|]. pose proof (run_table_ok o checks Em) as H'. intros Hr.
  pose proof (kept_count o s log now key Em H') as Hcount. destruct (check_spec o now key s) as (Hp & _ & _).
  subst r. rewrite Hp in Hr. unfold passes in Hr. apply negb_false_iff, Z.leb_le in Hr. split; [lia|].
  unfold check. fold (tableFor o now s). unfold kept in Hr.
  destruct (getBucket key (tableFor o now s)); cbn [fst snd] in *; rewrite (proj2 (Z.leb_le _ _) Hr); cbn [snd rl_remaining rl_retryAfterSeconds rl_resetAt];
    (split; [done|]); eexists; (split; [done|]); unfold ceilSeconds, windowOf;
    pose proof (Z.mod_pos_bound now (windowMs o) Ew); pose proof (Z.div_mod now (windowMs o) ltac:(lia));
    set (d := now / windowMs o * windowMs o + windowMs o - now); assert (Hd : 0 < d) by (subst d; lia);
    pose proof (Z.mod_pos_bound (- d) 1000 ltac:(lia)); pose proof (Z.div_mod (- d) 1000 ltac:(lia)); lia.
Qed.

(** ** Exactness without eviction *)

Definition checkedIn (o : LimiterOptions) (checks : list (Z * string)) (w : Z) (k : string) : Prop :=
  exists now, (now, k) ∈ checks /\ windowOf o now = w.

Lemma keysIn_elem o checks w k : k ∈ keysIn o checks w <-> checkedIn o checks w k.
Proof.
  unfold keysIn, checkedIn. rewrite elem_of_remove_dups, list_elem_of_fmap. split.
  - intros ([now k'] & -> & Hin). apply list_elem_of_In, filter_In in Hin as [Hin%list_elem_of_In Hw%Z.eqb_eq]. by exists now.
  - intros (now & Hin & Hw). exists (now, k). split; [done|]. apply list_elem_of_In, filter_In.
    split; [by apply list_elem_of_In|by apply Z.eqb_eq].
Qed.

Lemma checkedIn_snoc o checks now key w k :
  checkedIn o (checks ++ [(now, key)]) w k <-> checkedIn o checks w k \/ (k = key /\ windowOf o now = w).
Proof.
  unfold checkedIn. split.
  - intros (n & [Hin|[= -> ->]%list_elem_of_singleton]%elem_of_app & Hw); [left; by exists n|by right].
  - intros [(n & Hin & Hw)|[-> Hw] ]; [exists n|exists now]; (split; [|done]); apply elem_of_app; [by left|right].
    by apply list_elem_of_singleton.
Qed.

Lemma keys_room o checks w keys : NoDup keys -> (forall k, k ∈ keys -> checkedIn o checks w k) ->
  (length keys <= length (keysIn o checks w))%nat.
Proof. intros Hnd H. apply submseteq_length, NoDup_submseteq; [done|]. intros k Hk. apply keysIn_elem. auto. Qed.

Lemma keysIn_prefix o checks c w : (length (keysIn o checks w) <= length (keysIn o (checks ++ [c]) w))%nat.
Proof.
  apply keys_room; [apply NoDup_remove_dups|]. intros k Hk%keysIn_elem. destruct c. apply checkedIn_snoc. by left.
Qed.

Lemma passed_unchecked o checks w k : ~ checkedIn o checks w k -> passed o (snd (run o checks)) w k = 0.
Proof.
  induction checks as [|[now key] checks IH] using rev_ind; intros Hno; [done|].
  rewrite run_snoc. cbn [snd]. rewrite passed_cons, IH.
  - destruct (Z.eqb_spec (windowOf o now) w), (String.eqb_spec key k); subst; rewrite ?andb_false_r; try done.
    exfalso. apply Hno, checkedIn_snoc. by right.
  - intros H. apply Hno, checkedIn_snoc. by left.
Qed.

(** The table holds exactly the keys checked in the window, with the checks let through. *)
Definition tracks (o : LimiterOptions) (table : list (string * Z)) (checks : list (Z * string)) (w : Z) : Prop :=
  NoDup (map fst table) /\
  (forall k c, (k, c) ∈ table -> checkedIn o checks w k /\ c = passed o (snd (run o checks)) w k) /\
  (forall k, checkedIn o checks w k -> k ∈ map fst table).

Lemma tracks_count o table checks w key : tracks o table checks w ->
  fst (kept o key table) = passed o (snd (run o checks)) w key.
Proof.
  intros (H1 & H2 & H3). unfold kept. destruct (getBucket key table) as [c|] eqn:E; cbn.
  - apply getBucket_Some in E; [|done]. by destruct (H2 key c E).
  - symmetry. apply passed_unchecked. intros H. apply getBucket_None in E. by apply E, H3.
Qed.

Lemma tracks_step o checks now key : 0 < maxBuckets o ->
  Z.of_nat (length (keysIn o (checks ++ [(now, key)]) (windowOf o now))) <= maxBuckets o ->
  tracks o (tableFor o now (fst (run o checks))) checks (windowOf o now) ->
  tracks o (buckets (fst (run o (checks ++ [(now, key)])))) (checks ++ [(now, key)]) (windowOf o now).
Proof.
  intros Hm Hkeys Htr. pose proof (tracks_count _ _ _ _ key Htr) as Hcount. destruct Htr as (H1 & H2 & H3).
  set (s := fst (run o checks)) in *. set (table := tableFor o now s) in *.
  assert (Hsub : forall k, k ∈ map fst table -> checkedIn o (checks ++ [(now, key)]) (windowOf o now) k).
  { intros k [ [k' c] [-> Hin] ]%list_elem_of_fmap. apply checkedIn_snoc. left. by destruct (H2 k' c Hin). }
  assert (Hlen : Z.of_nat (length table) <= maxBuckets o).
  { pose proof (keys_room o _ _ _ H1 Hsub). rewrite length_map in *. lia. }
  assert (Hroom : getBucket key table <> None \/ Z.of_nat (length table) < maxBuckets o).
  { destruct (getBucket key table) eqn:E; [by left|right]. apply getBucket_None in E.
    assert (Hnd : NoDup (key :: map fst table)) by by apply NoDup_cons.
    pose proof (keys_room o (checks ++ [(now, key)]) (windowOf o now) _ Hnd) as Hk. cbn [length] in Hk.
    rewrite length_map in Hk. enough (S (length table) <= length (keysIn o (checks ++ [(now, key)]) (windowOf o now)))%nat by lia.
    apply Hk. intros k [->|Hin]%elem_of_cons; [|by apply Hsub]. apply checkedIn_snoc. by right. }
  destruct (kept_spec o key table H1 Hm Hlen) as (K1 & K2 & K3 & K4 & K5).
  destruct (check_spec o now key s) as (_ & _ & Hb). unfold tracks. rewrite run_snoc. cbn [fst snd]. fold s. rewrite Hb. fold table.
  split; [|split].
  - rewrite map_app. apply NoDup_app. split; [done|]. split; [|apply NoDup_singleton].
    intros k Hk ->%list_elem_of_singleton. done.
  - intros k c. rewrite passed_cons, Z.eqb_refl, andb_true_r. intros [Hin|[= -> ->]%list_elem_of_singleton]%elem_of_app.
    + destruct (H2 k c (K4 _ Hin)) as [Hck ->]. split; [apply checkedIn_snoc; by left|].
      destruct (String.eqb_spec key k) as [->|]; [|rewrite andb_false_r; lia].
      exfalso. apply K2. by apply (list_elem_of_fmap_2 fst) in Hin.
    + split; [apply checkedIn_snoc; by right|]. by rewrite Hcount, String.eqb_refl, andb_true_r.
  - intros k [Hck|[-> _] ]%checkedIn_snoc; rewrite map_app; apply elem_of_app; [|right; by apply list_elem_of_singleton].
    destruct (decide (k = key)) as [->|Hne]; [right; by apply list_elem_of_singleton|left].
    apply H3, list_elem_of_fmap in Hck as ([k' c] & -> & Hin). apply (list_elem_of_fmap_2 fst _ (k', c)). by apply K5.
Qed.

Lemma windowOf_le o t t' : 0 < windowMs o -> t <= t' -> windowOf o t <= windowOf o t'.
Proof. intros Hw Hle. unfold windowOf. pose proof (Z.div_le_mono t t' (windowMs o) Hw Hle). nia. Qed.

(** At a clock that never runs back, with room for every key, the table of the next
    check tracks its window. *)
Lemma run_tracks o checks now : 0 < maxBuckets o -> 0 < windowMs o ->
  StronglySorted Z.le (map fst (checks ++ [(now, "")])) ->
  (forall w, Z.of_nat (length (keysIn o checks w)) <= maxBuckets o) ->
  tracks o (tableFor o now (fst (run o checks))) checks (windowOf o now).
Proof.
  intros Hm Hw. revert now. induction checks as [|[t key] checks IH] using rev_ind; intros now Hs Hk.
  { unfold tableFor. cbn. split; [constructor|]. split; [intros k c H; by apply elem_of_nil in H|].
    intros k (n & H & _). by apply elem_of_nil in H. }
  rewrite map_app in Hs. assert (Hall : forall c, c ∈ checks ++ [(t, key)] -> fst c <= now).
  { intros c Hin. apply (StronglySorted_app_1_elem_of _ _ _ _ now Hs); [by apply list_elem_of_fmap_2|by constructor]. }
  assert (Hlast : forall c, c ∈ checks -> fst c <= t).
  { intros c Hin. apply StronglySorted_app_1_l in Hs. rewrite map_app in Hs.
    apply (StronglySorted_app_1_elem_of _ _ _ _ t Hs); [by apply list_elem_of_fmap_2|by constructor]. }
  assert (Htr : tracks o (buckets (fst (run o (checks ++ [(t, key)])))) (checks ++ [(t, key)]) (windowOf o t)).
  { apply tracks_step; [done|apply Hk|]. apply IH.
    - rewrite map_app. apply StronglySorted_app_1_l in Hs. by rewrite map_app in Hs.
    - intros w. pose proof (keysIn_prefix o checks (t, key) w). specialize (Hk w). lia. }
  assert (Hact : activeWindowStart (fst (run o (checks ++ [(t, key)]))) = Some (windowOf o t)).
  { rewrite run_snoc. apply check_spec. }
  unfold tableFor. rewrite Hact. case_decide as Heq; [injection Heq as <-; exact Htr|].
  split; [constructor|]. split; [intros k c H; by apply elem_of_nil in H|].
  intros k (n & Hin & Hn). exfalso. apply Heq. f_equal. apply Z.le_antisymm.
  - apply windowOf_le; [done|]. apply (Hall (t, key)). apply elem_of_app. right. by apply list_elem_of_singleton.
  - rewrite <- Hn. apply windowOf_le; [done|]. apply elem_of_app in Hin as [Hin|[= -> ->]%list_elem_of_singleton]; [|lia].
    exact (Hlast _ Hin).
Qed.

(** The limit is enforced exactly: at a clock that never runs back, while no window
    sees more distinct keys than the table tracks, a check passes if and only if its
    key passed fewer than [limit] checks in the window so far, and reports what remains. *)
Theorem limit_enforced o checks now key s0 :
  createFixedWindowRateLimiter o = Ok s0 ->
  StronglySorted Z.le (map fst (checks ++ [(now, key)])) ->
  (forall w, Z.of_nat (length (keysIn o checks w)) <= maxBuckets o) ->
  let before := passed o (snd (run o checks)) (windowOf o now) key in
  let r := snd (check o now key (fst (run o checks))) in
  (rl_allowed r = true <-> before < limit o) /\
  (rl_allowed r = true -> rl_remaining r = limit o - (before + 1)).
Proof.
  intros Hc Hs Hk before r. unfold createFixedWindowRateLimiter, throwWhen in Hc.
  destruct (windowMs o <=? 0) eqn:Ew, (limit o <=? 0), (maxBuckets o <=? 0) eqn:Em; cbn in Hc; try discriminate.
  apply Z.leb_gt in Em. apply Z.leb_gt in Ew.
  assert (Htr := run_tracks o checks now Em Ew ltac:(by rewrite map_app in *) Hk).
  pose proof (tracks_count o _ _ _ key Htr) as Hcount. fold before in Hcount.
  destruct (check_spec o now key (fst (run o checks))) as (Hp & _ & _). subst r. rewrite Hp.
  assert (Hiff : passes o now key (fst (run o checks)) = true <-> before < limit o).
  { unfold passes. rewrite Hcount, negb_true_iff, Z.leb_gt. done. }
  split; [exact Hiff|]. intros Hpass. apply Hiff in Hpass. unfold check.
  fold (tableFor o now (fst (run o checks))). unfold kept in Hcount.
  destruct (getBucket key _); cbn [fst] in Hcount; subst; rewrite (proj2 (Z.leb_gt _ _)) by lia; cbn; lia.
Qed.

Definition twoPerSecond : LimiterOptions := {| windowMs := 1000; limit := 2; maxBuckets := 2 |}.

Lemma rejection_is_own_use_witness :
  let checks := [(0, "a"); (10, "b"); (20, "a"); (30, "a")] in
  let r := snd (check twoPerSecond 40 "a" (fst (run twoPerSecond checks))) in
  rl_allowed r = false /\ 2 <= passed twoPerSecond (snd (run twoPerSecond checks)) 0 "a".
Proof.
  destruct (rejection_is_own_use twoPerSecond [(0, "a"); (10, "b"); (20, "a"); (30, "a")] 40 "a" freshLimiter eq_refl)
    as [_ H]. split; [vm_compute; reflexivity|]. apply H. vm_compute. reflexivity.
Defined.

Lemma limit_enforced_witness :
  let checks := [(0, "a"); (10, "b"); (20, "a")] in
  let r := snd (check twoPerSecond 1000 "a" (fst (run twoPerSecond checks))) in
  (rl_allowed r = true <-> passed twoPerSecond (snd (run twoPerSecond checks)) 1000 "a" < 2).
Proof.
  apply (limit_enforced twoPerSecond [(0, "a"); (10, "b"); (20, "a")] 1000 "a" freshLimiter eq_refl).
  - repeat constructor; cbn; lia.
  - intros w. unfold keysIn. cbn [List.filter fst].
    change (windowOf twoPerSecond 0) with 0. change (windowOf twoPerSecond 10) with 0.
    change (windowOf twoPerSecond 20) with 0. destruct (0 =? w); apply Z.leb_le; vm_compute; reflexivity.
Defined.
