(* ===== verification/Promotions.v ===== *)
(** * Promotion discounts ([src/billing/promotions.ts])

    A discount's normalisation, when a code can be used, and what a discount takes off
    each line.  Currency codes are ASCII text. *)
From S2P Require Import Prelude Text Decimal JsDate Cadence.

Inductive PromotionDiscountDuration := once | repeating | forever.
Inductive PromotionStatus := promotion_active | promotion_archived.
Inductive PromotionChannel := web | ios | android.
#[export] Instance promotion_status_eq_dec : EqDecision PromotionStatus. Proof. solve_decision. Defined.
#[export] Instance promotion_channel_eq_dec : EqDecision PromotionChannel. Proof. solve_decision. Defined.
#[export] Instance promotion_duration_eq_dec : EqDecision PromotionDiscountDuration. Proof. solve_decision. Defined.

Record CurrencyAmount := { ca_currency : text; ca_amountOffMinor : Z }.

Inductive PromotionDiscount :=
  | percent (percentOffBps : Z) (duration : PromotionDiscountDuration) (durationMonths : option Z)
  | amount (amounts : list CurrencyAmount) (duration : PromotionDiscountDuration) (durationMonths : option Z).

Definition duration_of (d : PromotionDiscount) : PromotionDiscountDuration :=
  match d with percent _ u _ | amount _ u _ => u end.
Definition durationMonths_of (d : PromotionDiscount) : option Z :=
  match d with percent _ _ m | amount _ _ m => m end.

(** ** Normalisation *)

(** A discount as a caller sends it: a number that may be absent or fractional, an
    unknown duration or type. *)
Inductive RawDiscountTerms :=
  | raw_percent (percentOffBps : option jsnumber)
  | raw_amount (amounts : list (text * option jsnumber))
  | raw_other.
Record RawDiscount := {
  rd_terms : RawDiscountTerms; rd_duration : option PromotionDiscountDuration; rd_durationMonths : option jsnumber }.

Definition invalidTerms (detail : string) : error :=
  BillingErr ("Promotion terms are invalid: " ++ detail) "PROMOTION_TERMS_INVALID" 400.

Definition requiredPositiveInteger (value : option jsnumber) (field : string) : result Z :=
  match value with
  | Some (JInt n) => if isSafeInteger n && (0 <? n) then Ok n else Err (invalidTerms (field ++ " must be a positive integer"))
  | _ => Err (invalidTerms (field ++ " must be a positive integer"))
  end.

Definition upperUnit (c : Z) : Z := if (97 <=? c) && (c <=? 122) then c - 32 else c.
Definition toUpper (t : text) : text := map upperUnit t.

(** [/^[A-Z]{3}$/] *)
Definition isCurrencyCode (t : text) : bool :=
  (length t =? 3)%nat && forallb (fun c => (65 <=? c) && (c <=? 90)) t.

(** [left < right] on text. *)
Fixpoint textLt (l r : text) : bool :=
  match l, r with
  | _, [] => false
  | [], _ :: _ => true
  | x :: l', y :: r' => (x <? y) || ((x =? y) && textLt l' r')
  end.

Definition byCurrency (l r : CurrencyAmount) : bool := textLt (ca_currency l) (ca_currency r).

Definition normalizeAmount (a : text * option jsnumber) : result CurrencyAmount :=
  let currency := toUpper (trim (fst a)) in
  if isCurrencyCode currency then
    n ← requiredPositiveInteger (snd a) "amountOffMinor";
    Ok {| ca_currency := currency; ca_amountOffMinor := n |}
  else Err (invalidTerms "currency must be a three-letter code").

Definition maxCurrencies : Z := 20.

Definition normalizeDuration (d : RawDiscount) : result (PromotionDiscountDuration * option Z) :=
  match rd_duration d with
  | None => Err (invalidTerms "duration must be once, repeating or forever")
  | Some duration =>
      durationMonths ←
        (match duration, rd_durationMonths d with
         | repeating, m => fmap Some (requiredPositiveInteger m "durationMonths")
         | _, None => Ok None
         | _, Some _ => Err (invalidTerms "durationMonths is only allowed for repeating discounts")
         end);
      _ ← throwWhen (match durationMonths with Some m => 36 <? m | None => false end)
            (invalidTerms "durationMonths must be at most 36");
      Ok (duration, durationMonths)
  end.

Definition normalizeDiscount (d : RawDiscount) : result PromotionDiscount :=
  dm ← normalizeDuration d;
  let '(duration, durationMonths) := (dm : PromotionDiscountDuration * option Z) in
  match rd_terms d with
  | raw_percent bps =>
      n ← requiredPositiveInteger bps "percentOffBps";
      _ ← throwWhen (10000 <? n) (invalidTerms "percentOffBps must be at most 10000");
      Ok (percent n duration durationMonths)
  | raw_other => Err (invalidTerms "discount type must be percent or amount")
  | raw_amount amounts =>
      _ ← throwWhen ((length amounts =? 0)%nat || (maxCurrencies <? Z.of_nat (length amounts)))
            (invalidTerms "amount discounts need 1 to 20 currencies");
      normalized ← mapM normalizeAmount amounts;
      let sorted := sortBy byCurrency normalized in
      if decide (NoDup (map ca_currency sorted)) then Ok (amount sorted duration durationMonths)
      else Err (invalidTerms "amount discounts must use distinct currencies")
  end.

(** A stored discount, normalised again as an edit of its promotion does. *)
Definition asRaw (d : PromotionDiscount) : RawDiscount :=
  {| rd_terms := match d with
                 | percent n _ _ => raw_percent (Some (JInt n))
                 | amount amounts _ _ => raw_amount (map (fun a => (ca_currency a, Some (JInt (ca_amountOffMinor a)))) amounts)
                 end;
     rd_duration := Some (duration_of d);
     rd_durationMonths := fmap JInt (durationMonths_of d) |}.

(** ** Availability *)

Record PromotionCodeAvailability := {
  pa_promotionStatus : PromotionStatus; pa_allowedChannels : list PromotionChannel; pa_active : bool;
  pa_startsAt : option Z; pa_expiresAt : option Z; pa_billingAccountId : option string;
  pa_maxRedemptions : option Z; pa_redeemedCount : Z; pa_reservedCount : Z }.

Definition promotionCodeUnavailability (state : PromotionCodeAvailability) (now : Z) (billingAccountId : string)
  (channel : PromotionChannel) : option string :=
  if match pa_billingAccountId state with Some b => negb (String.eqb b billingAccountId) | None => false end
  then Some "PROMOTION_CODE_NOT_FOUND"
  else if negb (pa_active state) || negb (bool_decide (pa_promotionStatus state = promotion_active))
  then Some "PROMOTION_CODE_INACTIVE"
  else if match pa_startsAt state with Some t => now <? t | None => false end
  then Some "PROMOTION_CODE_NOT_STARTED"
  else if match pa_expiresAt state with Some t => t <=? now | None => false end
  then Some "PROMOTION_CODE_EXPIRED"
  else if negb (existsb (fun c => bool_decide (c = channel)) (pa_allowedChannels state))
  then Some "PROMOTION_CODE_CHANNEL_NOT_SUPPORTED"
  else if match pa_maxRedemptions state with
          | Some m => m <=? pa_redeemedCount state + pa_reservedCount state | None => false end
  then Some "PROMOTION_CODE_EXHAUSTED"
  else None.

(** ** What a discount takes off each line *)

Definition discountAmountFor (d : PromotionDiscount) (currency : option text) : result Z :=
  match d with
  | percent _ _ _ => Err (InternalError "Only fixed discounts have currency amounts")
  | amount amounts _ _ =>
      match List.find (fun a => match currency with Some c => bool_decide (ca_currency a = toUpper c) | None => false end)
              amounts with
      | Some a => Ok (ca_amountOffMinor a)
      | None => Err (BillingErr "Promotion has no discount amount in this currency" "PROMOTION_CURRENCY_NOT_SUPPORTED" 409)
      end
  end.

(** The comparator of the leftover order: larger remainder, then lower index. *)
Definition remainderFirst (l r : nat * Z) : bool :=
  if snd l =? snd r then (fst l <? fst r)%nat else snd r <? snd l.

(** [for (const { index } of order) { if (leftover === 0n) break; discounts[index] += 1n; leftover -= 1n }] *)
Fixpoint handOut (order : list (nat * Z)) (leftover : Z) (discounts : list Z) : list Z :=
  match order with
  | [] => discounts
  | (index, _) :: order' =>
      if leftover =? 0 then discounts
      else handOut order' (leftover - 1) (alter (fun d => d + 1) index discounts)
  end.

(** A fixed amount split over the lines. *)
Definition splitAmount (off : Z) (subtotals : list Z) : list Z :=
  let total := sumZ subtotals in
  let capped := if off <? total then off else total in
  if total =? 0 then map (fun _ => 0) subtotals
  else
    let discounts := map (fun subtotal => capped * subtotal / total) subtotals in
    let leftover := capped - sumZ discounts in
    let order := sortBy remainderFirst (imap (fun index subtotal => (index, capped * subtotal mod total)) subtotals) in
    handOut order leftover discounts.

Definition percentOff (bps : Z) (subtotals : list Z) : list Z :=
  map (fun subtotal => (subtotal * bps + 5000) / 10000) subtotals.

Record DiscountedLines := { lineDiscountsMinor : list (option Z); discountTotalMinor : option Z }.

Definition applyDiscountToLines (subtotalsMinor : list (option Z)) (d : PromotionDiscount) (currency : option text)
  : result DiscountedLines :=
  match mapM id subtotalsMinor with
  | None => Ok {| lineDiscountsMinor := map (fun _ => None) subtotalsMinor; discountTotalMinor := None |}
  | Some subtotals =>
      discounts ← (match d with
                   | percent bps _ _ => Ok (percentOff bps subtotals)
                   | amount _ _ _ => off ← discountAmountFor d currency; Ok (splitAmount off subtotals)
                   end);
      Ok {| lineDiscountsMinor := map Some discounts; discountTotalMinor := Some (sumZ discounts) |}
  end.

Definition discountAppliesNextCycle (d : PromotionDiscount) (interval : Cadence) : bool :=
  match duration_of d with
  | forever => true
  | once => false
  | repeating =>
      let months := default 0 (durationMonths_of d) in
      if months <? 1 then false
      else match canonicalCadence interval with
           | Months m => m <? months
           | Hours h => h <? minCalendarSpanHours months
           end
  end.

(** ** Handing out leftovers *)

Lemma handOut_lookup order leftover ds i : NoDup (map fst order) -> 0 <= leftover ->
  handOut order leftover ds !! i =
    (fun d => d + (if bool_decide (i ∈ map fst (take (Z.to_nat leftover) order)) then 1 else 0)) <$> ds !! i.
Proof.
  revert leftover ds. induction order as [|[j r] order IH]; intros leftover ds Hnd Hl; cbn [handOut].
  { rewrite take_nil. cbn. destruct (ds !! i); cbn; [|done]. by rewrite Z.add_0_r. }
  destruct (Z.eqb_spec leftover 0) as [->|Hne].
  { cbn. destruct (ds !! i); cbn; [|done]. by rewrite Z.add_0_r. }
  cbn [map fst] in Hnd. apply NoDup_cons in Hnd as [Hj Hnd]. rewrite IH by (done || lia).
  replace (Z.to_nat leftover) with (S (Z.to_nat (leftover - 1))) by lia. cbn [take map fst].
  destruct (decide (i = j)) as [->|Hij].
  - rewrite list_lookup_alter_eq. rewrite (bool_decide_eq_true_2 (j ∈ j :: _)) by constructor.
    destruct (ds !! j); cbn; [|done]. rewrite bool_decide_eq_false_2; [by rewrite Z.add_0_r|].
    intros Hin. apply Hj. rewrite <- (take_drop (Z.to_nat (leftover - 1)) order), map_app. apply elem_of_app. by left.
  - rewrite list_lookup_alter_ne by done. destruct (ds !! i); cbn; [|done]. do 2 f_equal.
    case_bool_decide as H1; case_bool_decide as H2; try done; exfalso.
    + apply H2. by constructor.
    + apply elem_of_cons in H2 as [H2|H2]; done.
Qed.

Lemma handOut_length order leftover ds : length (handOut order leftover ds) = length ds.
Proof.
  revert leftover ds. induction order as [|[j r] order IH]; intros leftover ds; cbn; [done|].
  destruct (leftover =? 0); [done|]. by rewrite IH, length_alter.
Qed.

Lemma sumZ_alter f i ds : sumZ (alter f i ds) = sumZ ds + match ds !! i with Some d => f d - d | None => 0 end.
Proof.
  revert i. induction ds as [|d ds IH]; intros i; [by destruct i|]. destruct i as [|i]; [change (alter f 0%nat (d :: ds)) with (f d :: ds); cbn [sumZ]; change ((d :: ds) !! 0%nat) with (Some d); cbv iota beta; lia|].
  change (alter f (S i) (d :: ds)) with (d :: alter f i ds). cbn [sumZ]. rewrite IH.
  change ((d :: ds) !! S i) with (ds !! i). lia.
Qed.

Lemma handOut_sum order leftover ds : Forall (fun p => (fst p < length ds)%nat) order ->
  0 <= leftover <= Z.of_nat (length order) -> sumZ (handOut order leftover ds) = sumZ ds + leftover.
Proof.
  revert leftover ds. induction order as [|[j r] order IH]; intros leftover ds Hf Hl; cbn [handOut]; [cbn in *; lia|].
  apply Forall_cons in Hf as [Hj Hf]. cbn [length fst] in *. destruct (Z.eqb_spec leftover 0) as [->|Hne]; [lia|].
  rewrite IH; [|by rewrite length_alter|lia]. rewrite sumZ_alter.
  destruct (lookup_lt_is_Some_2 ds j Hj) as [d ->]. lia.
Qed.

(** ** The leftover order *)

Lemma remainderFirst_order order : StronglySorted (inOrder remainderFirst) (sortBy remainderFirst order).
Proof.
  apply sortBy_sorted; unfold inOrder, remainderFirst.
  - intros [i r] [j t]. cbn. intros H. rewrite (Z.eqb_sym t r). destruct (Z.eqb_spec r t) as [->|Hne].
    + apply Nat.ltb_lt in H. apply Nat.ltb_ge. lia.
    + apply Z.ltb_lt in H. apply Z.ltb_ge. lia.
  - intros [i r] [j t] [k u] H1 H2. cbn [fst snd] in *.
    destruct (Z.eqb_spec t r), (Z.eqb_spec u t), (Z.eqb_spec u r);
      rewrite ?Nat.ltb_ge, ?Z.ltb_ge in *; lia.
Qed.

(** Whoever is handed a leftover unit has a remainder: fewer than [leftover] others stand
    before it, each with less than [total]. *)
Lemma leftover_positive (order : list (nat * Z)) total leftover :
  StronglySorted (inOrder remainderFirst) order -> 0 < total ->
  Forall (fun p => 0 <= snd p < total) order -> sumZ (map snd order) = leftover * total ->
  Forall (fun p => 0 < snd p) (take (Z.to_nat leftover) order).
Proof.
  intros Hs Ht Hr Hsum. apply Forall_forall. intros p Hp.
  apply list_elem_of_lookup in Hp as [n Hn]. pose proof (lookup_lt_Some _ _ _ Hn) as Hlt.
  rewrite length_take in Hlt. rewrite lookup_take_lt in Hn by lia.
  destruct (decide (0 < snd p)) as [|Hzero]; [done|exfalso].
  rewrite Forall_forall in Hr. pose proof (Hr p (list_elem_of_lookup_2 _ _ _ Hn)) as Hp0.
  assert (Htail : sumZ (map snd (drop n order)) = 0).
  { apply Z.le_antisymm; [|apply sumZ_nonneg, Forall_map, Forall_forall; intros q Hq; apply Hr, (subseteq_drop n), Hq].
    assert (Hle : forall q, q ∈ drop n order -> snd q <= 0).
    { intros q Hq. rewrite (drop_S _ p n Hn) in Hq. apply elem_of_cons in Hq as [->|Hq]; [lia|].
      assert (Hpq : inOrder remainderFirst p q).
      { apply (StronglySorted_app_1_elem_of (inOrder remainderFirst) (take (S n) order) (drop (S n) order)).
        - by rewrite take_drop.
        - rewrite (take_S_r _ _ p Hn). apply elem_of_app. right. by constructor.
        - done. }
      unfold inOrder, remainderFirst in Hpq. destruct (Z.eqb_spec (snd q) (snd p)); [lia|]. apply Z.ltb_ge in Hpq. lia. }
    transitivity (sumZ (map (fun _ => 0) (drop n order))).
    - apply sumZ_map_le. intros q Hq. by apply Hle.
    - clear. induction (drop n order); cbn; lia. }
  assert (Hhead : sumZ (map snd (take n order)) <= Z.of_nat n * (total - 1)).
  { assert (Hall : Forall (fun p => snd p <= total - 1) (take n order)).
    { apply Forall_take, Forall_forall. intros q Hq. specialize (Hr q Hq). lia. }
    pose proof (firstn_le_length n order) as Hlen. change (length (take n order) <= n)%nat in Hlen.
    assert (Hb : sumZ (map snd (take n order)) <= Z.of_nat (length (take n order)) * (total - 1)).
    { clear -Hall. induction Hall as [|q l Hq _ IH]; cbn [map sumZ length]; [lia|]. rewrite Nat2Z.inj_succ, Z.mul_succ_l. lia. }
    nia. }
  assert (Hsplit : sumZ (map snd order) = sumZ (map snd (take n order)) + sumZ (map snd (drop n order))).
  { by rewrite <- sumZ_app, <- map_app, take_drop. }
  assert (Z.of_nat n < leftover) by lia. nia.
Qed.

(** ** A fixed amount over the lines *)

Section Split.
Context (capped total : Z) (subtotals : list Z).
Hypothesis Htotal : 0 < total.
Hypothesis Hcapped : 0 <= capped <= total.
Hypothesis Hsum : sumZ subtotals = total.
Hypothesis Hnonneg : Forall (fun s => 0 <= s) subtotals.

Definition baseDiscounts : list Z := map (fun s => capped * s / total) subtotals.
Definition remainders : list (nat * Z) := imap (fun i s => (i, capped * s mod total)) subtotals.
Definition leftoverOrder : list (nat * Z) := sortBy remainderFirst remainders.
Definition leftoverUnits : Z := capped - sumZ baseDiscounts.

Lemma remainders_snd : map snd remainders = map (fun s => capped * s mod total) subtotals.
Proof. unfold remainders. apply list_eq. intros i. rewrite !list_lookup_fmap, list_lookup_imap. by destruct (subtotals !! i). Qed.

Lemma remainders_fst : map fst remainders = seq 0 (length subtotals).
Proof.
  unfold remainders. apply list_eq. intros i. rewrite list_lookup_fmap, list_lookup_imap.
  destruct (subtotals !! i) as [s|] eqn:E; cbn.
  - symmetry. apply lookup_seq. apply lookup_lt_Some in E. lia.
  - symmetry. apply lookup_seq_ge. by apply lookup_ge_None_1 in E.
Qed.

Lemma base_sum : total * sumZ baseDiscounts + sumZ (map snd remainders) = capped * total.
Proof.
  rewrite remainders_snd. transitivity (capped * sumZ subtotals); [|by rewrite Hsum].
  unfold baseDiscounts. clear Hsum Hnonneg. induction subtotals as [|s l IH]; cbn [map sumZ]; [lia|]. pose proof (Z.div_mod (capped * s) total ltac:(lia)). lia.
Qed.

Lemma remainders_bound : Forall (fun p => 0 <= snd p < total) remainders.
Proof.
  apply (Forall_map snd (fun r => 0 <= r < total)). rewrite remainders_snd. apply Forall_map, Forall_forall.
  intros s _. by apply Z.mod_pos_bound.
Qed.

Lemma leftover_units : sumZ (map snd leftoverOrder) = leftoverUnits * total /\
  0 <= leftoverUnits <= Z.of_nat (length leftoverOrder).
Proof.
  unfold leftoverOrder. rewrite (sumZ_perm _ (map snd remainders)) by (by rewrite sortBy_perm).
  rewrite (Permutation_length (sortBy_perm remainderFirst remainders)).
  pose proof base_sum as Hb. unfold leftoverUnits. split; [lia|].
  assert (H0 : 0 <= sumZ (map snd remainders)).
  { apply sumZ_nonneg, Forall_map. eapply Forall_impl; [exact remainders_bound|]. cbn. lia. }
  assert (H1 : sumZ (map snd remainders) <= Z.of_nat (length remainders) * (total - 1)).
  { clear Hb H0. induction remainders_bound as [|p l Hp _ IH]; cbn [map sumZ length]; [lia|].
    rewrite Nat2Z.inj_succ, Z.mul_succ_l. lia. }
  nia.
Qed.

Lemma order_indices : NoDup (map fst leftoverOrder) /\
  Forall (fun p => (fst p < length baseDiscounts)%nat) leftoverOrder.
Proof.
  unfold leftoverOrder. split.
  - rewrite (fmap_Permutation fst _ _ (sortBy_perm remainderFirst remainders)). change (NoDup (map fst remainders)).
    rewrite remainders_fst. apply NoDup_seq.
  - rewrite sortBy_perm. apply (Forall_map fst (fun i => (i < length baseDiscounts)%nat)). rewrite remainders_fst.
    apply Forall_seq. unfold baseDiscounts. rewrite length_map. lia.
Qed.

Definition handedOut : list Z := handOut leftoverOrder leftoverUnits baseDiscounts.

Lemma handedOut_sum : sumZ handedOut = capped.
Proof.
  unfold handedOut. destruct order_indices as [_ Hi]. destruct leftover_units as [_ Hl].
  rewrite handOut_sum by done. unfold leftoverUnits. lia.
Qed.

Lemma handedOut_line i s : subtotals !! i = Some s ->
  exists d, handedOut !! i = Some d /\ 0 <= d <= s /\ Z.abs (d * total - capped * s) < total.
Proof.
  intros Hi. unfold handedOut. destruct order_indices as [Hnd _]. destruct leftover_units as [Hl1 Hl2].
  assert (Hs : 0 <= s) by (rewrite Forall_forall in Hnonneg; by apply Hnonneg, (list_elem_of_lookup_2 _ i)).
  rewrite handOut_lookup by (done || lia). unfold baseDiscounts at 1. rewrite list_lookup_fmap, Hi. cbn [fmap option_fmap option_map].
  eexists. split; [done|]. pose proof (Z.div_mod (capped * s) total ltac:(lia)) as Hdm.
  pose proof (Z.mod_pos_bound (capped * s) total Htotal) as Hmod.
  assert (Hq : 0 <= capped * s / total <= s) by nia.
  case_bool_decide as Hin; [|nia].
  enough (0 < capped * s mod total) by nia.
  apply list_elem_of_fmap in Hin as ([j r] & Hj & Hin). cbn in Hj. subst j.
  assert (Hbound : Forall (fun p => 0 <= snd p < total) leftoverOrder).
  { unfold leftoverOrder. rewrite sortBy_perm. apply remainders_bound. }
  pose proof (leftover_positive leftoverOrder total leftoverUnits (remainderFirst_order _) Htotal Hbound Hl1) as Hpos.
  rewrite Forall_forall in Hpos. specialize (Hpos (i, r) Hin). cbn in Hpos.
  assert (Hr : (i, r) ∈ remainders).
  { rewrite <- (sortBy_perm remainderFirst remainders). fold leftoverOrder.
    rewrite <- (take_drop (Z.to_nat leftoverUnits) leftoverOrder). apply elem_of_app. by left. }
  apply elem_of_lookup_imap in Hr as (k & t & [= <- ->] & Hk). rewrite Hi in Hk. by injection Hk as <-.
Qed.
End Split.

Lemma splitAmount_spec off subtotals : 0 <= off -> Forall (fun s => 0 <= s) subtotals ->
  length (splitAmount off subtotals) = length subtotals /\
  sumZ (splitAmount off subtotals) = Z.min off (sumZ subtotals) /\
  forall i s, subtotals !! i = Some s -> exists d, splitAmount off subtotals !! i = Some d /\ 0 <= d <= s /\
    (0 < sumZ subtotals -> Z.abs (d * sumZ subtotals - Z.min off (sumZ subtotals) * s) < sumZ subtotals).
Proof.
  intros Hoff Hnn. pose proof (sumZ_nonneg _ Hnn) as Ht. unfold splitAmount.
  replace (if off <? sumZ subtotals then off else sumZ subtotals) with (Z.min off (sumZ subtotals)) by blia.
  destruct (Z.eqb_spec (sumZ subtotals) 0) as [H0|Hne].
  - split; [by rewrite length_map|]. split.
    + rewrite H0. transitivity 0; [|lia]. clear. induction subtotals; cbn; lia.
    + intros i s Hi. exists 0. rewrite list_lookup_fmap, Hi. split; [done|].
      rewrite Forall_forall in Hnn. specialize (Hnn s (list_elem_of_lookup_2 _ _ _ Hi)). lia.
  - set (capped := Z.min off (sumZ subtotals)).
    change (let total := sumZ subtotals in length (handedOut capped total subtotals) = length subtotals /\
      sumZ (handedOut capped total subtotals) = capped /\
      forall i s, subtotals !! i = Some s -> exists d, handedOut capped total subtotals !! i = Some d /\ 0 <= d <= s /\
        (0 < total -> Z.abs (d * total - capped * s) < total)). intros total.
    split; [unfold handedOut; rewrite handOut_length; apply length_map|].
    split; [apply handedOut_sum; lia || done|]. intros i s Hi.
    destruct (handedOut_line capped total subtotals ltac:(lia) ltac:(lia) eq_refl Hnn i s Hi) as (d & H1 & H2 & H3).
    exists d. split; [done|]. by split.
Qed.

(** What [normalizeDiscount] guarantees of the amounts. *)
Definition valid_discount (d : PromotionDiscount) : Prop :=
  match d with
  | percent bps _ _ => 0 < bps <= 10000
  | amount amounts _ _ => Forall (fun a => 0 < ca_amountOffMinor a) amounts
  end.

Lemma discountAmountFor_pos d currency off : valid_discount d -> discountAmountFor d currency = Ok off -> 0 < off.
Proof.
  destruct d as [|amounts u m]; cbn; [done|]. intros Hv H. destruct (List.find _ amounts) as [a|] eqn:E; [|done].
  injection H as <-. apply find_some in E as [Hin _]. rewrite Forall_forall in Hv. by apply Hv, list_elem_of_In.
Qed.

Lemma mapM_id_Some {A} (l : list A) : mapM id (map Some l) = Some l.
Proof. induction l as [|x l IH]; [done|]. cbn. cbn in IH. by rewrite IH. Qed.

(** The discounts of priced lines: between nothing and the line, near their exact share. *)
Lemma applied_discounts subtotals d currency r : valid_discount d -> Forall (fun s => 0 <= s) subtotals ->
  applyDiscountToLines (map Some subtotals) d currency = Ok r ->
  exists ds, r = {| lineDiscountsMinor := map Some ds; discountTotalMinor := Some (sumZ ds) |} /\
    Forall2 (fun d s => 0 <= d <= s) ds subtotals /\
    match d with
    | percent bps _ _ => Forall2 (fun d s => Z.abs (10000 * d - bps * s) <= 5000) ds subtotals
    | amount _ _ _ => exists off, discountAmountFor d currency = Ok off /\
        sumZ ds = Z.min off (sumZ subtotals) /\
        Forall2 (fun d s => 0 < sumZ subtotals ->
          Z.abs (d * sumZ subtotals - Z.min off (sumZ subtotals) * s) < sumZ subtotals) ds subtotals
    end.
Proof.
  intros Hv Hnn H. unfold applyDiscountToLines in H. rewrite mapM_id_Some in H.
  apply bind_Ok in H as (ds & Hds & H). injection H as <-. exists ds. split; [done|].
  destruct d as [bps u m|amounts u m].
  - injection Hds as <-. cbn in Hv. unfold percentOff. split; apply Forall2_fmap_l, Forall_Forall2_diag;
      (eapply Forall_impl; [exact Hnn|]); cbn; intros s Hs;
      pose proof (Z.div_mod (s * bps + 5000) 10000 ltac:(lia)); pose proof (Z.mod_pos_bound (s * bps + 5000) 10000 ltac:(lia)); nia.
  - apply bind_Ok in Hds as (off & Hoff & Hds). injection Hds as <-.
    pose proof (discountAmountFor_pos _ _ _ Hv Hoff). destruct (splitAmount_spec off subtotals ltac:(lia) Hnn) as (H1 & H2 & H3).
    split; [|exists off; split; [done|]; split; [done|] ]; apply Forall2_same_length_lookup; (split; [done|]); intros i d s Hd Hs;
      destruct (H3 i s Hs) as (d' & Hd' & Hb & Hf); rewrite Hd in Hd'; injection Hd' as <-; done.
Qed.

(** A discount of a valid promotion never takes more than a line costs, nor gives
    anything back: a percentage is within half a minor unit of its exact share of each
    line; a fixed amount takes off exactly itself or the whole subtotal, whichever is
    less, and each line's part is within one minor unit of its proportional share. *)
Theorem discount_lines_conserved subtotals d currency r :
  valid_discount d -> Forall (fun s => 0 <= s) subtotals ->
  applyDiscountToLines (map Some subtotals) d currency = Ok r ->
  exists ds, r = {| lineDiscountsMinor := map Some ds; discountTotalMinor := Some (sumZ ds) |} /\
    Forall2 (fun d s => 0 <= d <= s) ds subtotals /\
    match d with
    | percent bps _ _ => Forall2 (fun d s => Z.abs (10000 * d - bps * s) <= 5000) ds subtotals
    | amount _ _ _ => exists off, discountAmountFor d currency = Ok off /\
        sumZ ds = Z.min off (sumZ subtotals) /\
        Forall2 (fun d s => 0 < sumZ subtotals ->
          Z.abs (d * sumZ subtotals - Z.min off (sumZ subtotals) * s) < sumZ subtotals) ds subtotals
    end.
Proof. intros Hv Hnn H. exact (applied_discounts subtotals d currency r Hv Hnn H). Qed.

Definition exampleAmountOff : PromotionDiscount :=
  amount [ {| ca_currency := js "USD"; ca_amountOffMinor := 100 |} ] once None.

Lemma discount_lines_conserved_witness :
  exists ds, applyDiscountToLines [Some 100; Some 100; Some 100] exampleAmountOff (Some (js "usd"))
      = Ok {| lineDiscountsMinor := map Some ds; discountTotalMinor := Some (sumZ ds) |} /\
    ds = [34; 33; 33] /\ Forall2 (fun d s => 0 <= d <= s) ds [100; 100; 100].
Proof.
  destruct (discount_lines_conserved [100; 100; 100] exampleAmountOff (Some (js "usd"))
    {| lineDiscountsMinor := [Some 34; Some 33; Some 33]; discountTotalMinor := Some 100 |}) as (ds & Hr & Hb & _).
  - repeat constructor.
  - repeat constructor; discriminate.
  - vm_compute. reflexivity.
  - injection Hr as Hds Hsum. exists ds. destruct ds as [|a [|b [|c [|]]]]; try discriminate Hds.
    injection Hds as <- <- <-. split; [vm_compute; reflexivity|]. split; [reflexivity|exact Hb].
Defined.

(** ** Normalising twice *)

Lemma textLt_asym l r : textLt l r = true -> textLt r l = false.
Proof.
  revert r. induction l as [|x l IH]; intros [|y r]; cbn; try done. intros H.
  apply orb_prop in H as [H|H].
  - apply Z.ltb_lt in H. apply orb_false_iff. split; [apply Z.ltb_ge; lia|].
    replace (y =? x) with false; [done|]. symmetry. apply Z.eqb_neq. lia.
  - apply andb_prop in H as [->%Z.eqb_eq H]. by rewrite Z.ltb_irrefl, Z.eqb_refl, (IH r H).
Qed.

Lemma textLt_split z y x : textLt z x = true -> textLt z y = true \/ textLt y x = true.
Proof.
  revert y z. induction x as [|a x IH]; intros y z H; [by destruct z|].
  destruct y as [|b y]; [by right|]. destruct z as [|c z]; [by left|]. cbn in *.
  destruct (Z.ltb_spec c b); [by left|]. destruct (Z.ltb_spec b a); [by right|].
  apply orb_prop in H as [H|H]; [apply Z.ltb_lt in H; lia|]. apply andb_prop in H as [->%Z.eqb_eq H].
  assert (b = a) as -> by lia. rewrite Z.eqb_refl. cbn. by apply IH.
Qed.

Lemma byCurrency_sorted l : StronglySorted (inOrder byCurrency) (sortBy byCurrency l).
Proof.
  apply sortBy_sorted; unfold inOrder, byCurrency.
  - intros x y. apply textLt_asym.
  - intros x y z Hxy Hyz. destruct (textLt (ca_currency z) (ca_currency x)) eqn:E; [|done].
    apply (textLt_split _ (ca_currency y)) in E as [E|E]; congruence.
Qed.

Lemma currency_plain t : isCurrencyCode t = true -> Forall (fun c => 65 <= c <= 90) t.
Proof.
  unfold isCurrencyCode. intros [_ H]%andb_prop. apply Forall_forall. intros c Hc.
  rewrite forallb_forall in H. apply list_elem_of_In in Hc. specialize (H c Hc). bool_to_prop. lia.
Qed.

Lemma dropWhile_none {A} (p : A -> bool) l : Forall (fun x => p x = false) l -> dropWhile p l = l.
Proof. destruct 1 as [|x l Hx _]; cbn; [done|]. by rewrite Hx. Qed.

Lemma currency_canonical t : isCurrencyCode t = true -> toUpper (trim t) = t.
Proof.
  intros H%currency_plain.
  assert (Hws : Forall (fun c => isWhiteSpace c = false) t).
  { eapply Forall_impl; [exact H|]. intros c Hc. cbn in Hc. unfold isWhiteSpace.
    repeat match goal with
    | |- context [?a <=? ?b] => destruct (Z.leb_spec a b); try (exfalso; lia)
    | |- context [?a =? ?b] => destruct (Z.eqb_spec a b); try (exfalso; lia)
    end; done. }
  unfold trim, dropWhileEnd. rewrite (dropWhile_none _ t Hws), dropWhile_none by by apply Forall_reverse.
  rewrite reverse_involutive. unfold toUpper. induction H as [|c l Hc _ IH]; cbn; [done|].
  inversion Hws. rewrite IH by done. f_equal. unfold upperUnit. blia.
Qed.

Lemma requiredPositive_spec v field n : requiredPositiveInteger v field = Ok n ->
  0 < n /\ requiredPositiveInteger (Some (JInt n)) field = Ok n.
Proof.
  intros H. destruct v as [ [m|]|]; try done. cbn in *. destruct (isSafeInteger m && (0 <? m)) eqn:E; [|done].
  injection H as <-. rewrite E. split; [|done]. apply andb_prop in E as [_ E%Z.ltb_lt]. exact E.
Qed.

Lemma normalizeAmount_spec a c : normalizeAmount a = Ok c ->
  0 < ca_amountOffMinor c /\ normalizeAmount (ca_currency c, Some (JInt (ca_amountOffMinor c))) = Ok c.
Proof.
  unfold normalizeAmount. destruct a as [t v]. cbn [fst snd]. destruct (isCurrencyCode (toUpper (trim t))) eqn:E; [|done].
  intros H. apply bind_Ok in H as (n & Hn & H). injection H as <-. cbn [ca_currency ca_amountOffMinor].
  destruct (requiredPositive_spec _ _ _ Hn) as [Hpos Hn']. split; [done|].
  rewrite (currency_canonical _ E), E, Hn'. done.
Qed.

Lemma normalizeDuration_again d u m terms : normalizeDuration d = Ok (u, m) ->
  normalizeDuration {| rd_terms := terms; rd_duration := Some u; rd_durationMonths := fmap JInt m |} = Ok (u, m).
Proof.
  unfold normalizeDuration. destruct (rd_duration d) as [v|]; [|done]. intros H.
  apply bind_Ok in H as (k & Hk & H). apply bind_Ok in H as (t & Ht & H). injection H as -> ->.
  apply throwWhen_Ok in Ht. cbn [rd_duration rd_durationMonths].
  destruct u; cbn [fmap option_fmap option_map] in *.
  - destruct (rd_durationMonths d); [done|]. injection Hk as <-. done.
  - destruct (requiredPositiveInteger (rd_durationMonths d) "durationMonths") as [n|] eqn:E; [|done].
    injection Hk as <-. cbn [fmap option_fmap option_map].
    destruct (requiredPositive_spec _ _ _ E) as [_ ->]. cbn [fmap result_fmap mbind result_bind].
    unfold throwWhen. cbn beta iota in *. by rewrite Ht.
  - destruct (rd_durationMonths d); [done|]. injection Hk as <-. done.
Qed.

(** A normalised discount is valid, its currencies are distinct, and normalising it
    again, as every edit of its promotion does before hashing the terms, returns it. *)
Theorem normalizeDiscount_idempotent raw d : normalizeDiscount raw = Ok d ->
  valid_discount d /\ normalizeDiscount (asRaw d) = Ok d.
Proof.
  unfold normalizeDiscount. intros H. apply bind_Ok in H as ([u m] & Hdm & H).
  pose proof (fun terms => normalizeDuration_again raw u m terms Hdm) as Hagain.
  destruct (rd_terms raw) as [bps|amounts|]; [| |done].
  - apply bind_Ok in H as (n & Hn & H). apply bind_Ok in H as (t & Ht & H). injection H as <-.
    destruct (requiredPositive_spec _ _ _ Hn) as [Hpos Hn']. apply throwWhen_Ok in Ht.
    split; [cbn; apply Z.ltb_ge in Ht; lia|]. unfold asRaw. cbn [duration_of durationMonths_of].
    rewrite Hagain. cbn [mbind result_bind rd_terms]. rewrite Hn'. cbn [mbind result_bind].
    unfold throwWhen. by rewrite Ht.
  - apply bind_Ok in H as (t & Ht & H). apply bind_Ok in H as (normalized & Hn & H). apply throwWhen_Ok in Ht.
    case_decide as Hnd; [|done]. injection H as <-. apply mapM_Ok_Forall2 in Hn.
    set (sorted := sortBy byCurrency normalized) in *.
    assert (Hall : Forall (fun c => 0 < ca_amountOffMinor c /\
      normalizeAmount (ca_currency c, Some (JInt (ca_amountOffMinor c))) = Ok c) sorted).
    { unfold sorted. rewrite sortBy_perm. apply Forall_forall. intros c Hc. apply list_elem_of_lookup in Hc as [i Hc].
      destruct (Forall2_lookup_r _ _ _ _ _ Hn Hc) as (a & _ & Ha). by apply normalizeAmount_spec in Ha. }
    split; [cbn; eapply Forall_impl; [exact Hall|]; by intros c [? _]|].
    unfold asRaw. cbn [duration_of durationMonths_of]. rewrite Hagain. cbn [mbind result_bind rd_terms].
    rewrite length_map. replace (length sorted) with (length amounts).
    2:{ unfold sorted. rewrite (Permutation_length (sortBy_perm _ _)). by apply Forall2_length in Hn. }
    unfold throwWhen at 1. rewrite Ht. cbn [mbind result_bind].
    rewrite (proj2 (mapM_Ok_Forall2 normalizeAmount _ sorted)).
    + assert (Hid : sortBy byCurrency sorted = sorted) by exact (sortBy_id _ _ (byCurrency_sorted normalized)).
      cbn [mbind result_bind]. rewrite Hid. by rewrite decide_True.
    + apply Forall2_fmap_l, Forall_Forall2_diag. eapply Forall_impl; [exact Hall|]. by intros c [_ ?].
Qed.

Lemma normalizeDiscount_idempotent_witness :
  normalizeDiscount (asRaw (amount [ {| ca_currency := js "EUR"; ca_amountOffMinor := 5 |};
    {| ca_currency := js "USD"; ca_amountOffMinor := 7 |} ] repeating (Some 3)))
  = Ok (amount [ {| ca_currency := js "EUR"; ca_amountOffMinor := 5 |};
    {| ca_currency := js "USD"; ca_amountOffMinor := 7 |} ] repeating (Some 3)).
Proof.
  apply (normalizeDiscount_idempotent
    {| rd_terms := raw_amount [(js " usd", Some (JInt 7)); (js "eur ", Some (JInt 5))];
       rd_duration := Some repeating; rd_durationMonths := Some (JInt 3) |}).
  vm_compute. reflexivity.
Defined.

(** A code is usable exactly when it is the account's or anyone's, active, within its
    validity, allowed on the channel and below its redemption cap counting reservations. *)
Theorem promotionCode_usable_iff state now account channel :
  promotionCodeUnavailability state now account channel = None <->
  (pa_billingAccountId state = None \/ pa_billingAccountId state = Some account) /\
  pa_active state = true /\ pa_promotionStatus state = promotion_active /\
  (forall t, pa_startsAt state = Some t -> t <= now) /\
  (forall t, pa_expiresAt state = Some t -> now < t) /\
  channel ∈ pa_allowedChannels state /\
  (forall m, pa_maxRedemptions state = Some m -> pa_redeemedCount state + pa_reservedCount state < m).
Proof.
  unfold promotionCodeUnavailability. destruct state as [st ch act sa ea ba mr rc rv]. cbn.
  assert (Hch : existsb (fun c => bool_decide (c = channel)) ch = true <-> channel ∈ ch).
  { rewrite existsb_exists. split.
    - intros (c & Hin & ->%bool_decide_eq_true_1). by apply list_elem_of_In.
    - intros Hin. exists channel. split; [by apply list_elem_of_In|by apply bool_decide_eq_true_2]. }
  split.
  - intros H. repeat match type of H with (if ?b then Some _ else _) = None => destruct b eqn:?; [discriminate H|] end.
    repeat match goal with E : _ || _ = false |- _ => apply orb_false_elim in E as [? ?] end.
    repeat match goal with E : negb _ = false |- _ => apply negb_false_iff in E end.
    split; [destruct ba as [b|]; [right|by left]; f_equal; by apply String.eqb_eq, negb_false_iff|].
    split; [done|]. split; [by eapply bool_decide_eq_true_1|].
    split; [intros t ->; bool_to_prop; lia|]. split; [intros t ->; bool_to_prop; lia|]. split; [by apply Hch|].
    intros m ->. bool_to_prop. lia.
  - intros (H1 & -> & -> & H4 & H5 & H6%Hch & H7). rewrite H6.
    replace (match ba with Some b => negb (String.eqb b account) | None => false end) with false
      by (destruct H1 as [->| ->]; [done|by rewrite String.eqb_refl]).
    cbn. destruct sa as [t|]; [specialize (H4 t eq_refl); rewrite (proj2 (Z.ltb_ge now t)) by lia|];
      (destruct ea as [e|]; [specialize (H5 e eq_refl); rewrite (proj2 (Z.leb_gt e now)) by lia|]);
      (destruct mr as [m|]; [specialize (H7 m eq_refl); rewrite (proj2 (Z.leb_gt m _)) by lia|]); done.
Qed.

(** When a repeating discount is said to apply to the next invoice, the second invoice
    falls strictly before the discount's months run out, whatever day of whatever month
    they are counted from. *)
Theorem repeating_discount_covers_next_cycle d interval mi anchor :
  discountAppliesNextCycle d interval = true -> duration_of d = repeating -> 1 <= anchor ->
  let months := default 0 (durationMonths_of d) in
  match canonicalCadence interval with
  | Months m => anchoredDay (mi + m) anchor < anchoredDay (mi + months) anchor
  | Hours h => h * hourMs < (anchoredDay (mi + months) anchor - anchoredDay mi anchor) * msPerDay
  end.
Proof.
  intros H Hr Ha months. unfold discountAppliesNextCycle in H. rewrite Hr in H. cbv zeta in H. fold months in H.
  destruct (Z.ltb_spec months 1) as [|Hm]; [done|]. destruct (canonicalCadence interval) as [m|h]; apply Z.ltb_lt in H.
  - pose proof (anchoredDay_bounds (mi + m) anchor Ha). pose proof (anchoredDay_bounds (mi + months) anchor Ha).
    pose proof (monthStart_mono (mi + m + 1) (mi + months)). lia.
  - pose proof (anchored_span mi months anchor ltac:(lia) Ha). rewrite msPerDay_val. unfold hourMs. lia.
Qed.

Lemma repeating_discount_covers_next_cycle_witness :
  27 * 24 * hourMs < (anchoredDay (1 + 1) 31 - anchoredDay 1 31) * msPerDay.
Proof.
  apply (repeating_discount_covers_next_cycle (percent 1000 repeating (Some 1)) {| c_unit := day; c_count := 27 |} 1 31);
    [vm_compute; reflexivity|reflexivity|lia].
Defined.
