(* ===== verification/CommercialPricing.v ===== *)
(** * Pricing a checkout ([src/billing/commercial-pricing.ts])

    The lines of a preview, their discount and the totals shown.  Amounts are the whole
    minor units a JavaScript number holds exactly. *)
From S2P Require Import Prelude Text Decimal Pricing JsDate Cadence Promotions.

Record CommercialLineItem := {
  li_key : string; li_quantity : jsnumber; li_unitAmountMinor : jsnumber;
  li_interval : option CadenceUnit; li_intervalCount : option Z; li_pricingModel : PricingModel;
  li_subtotalMinor : option Z; li_discountMinor : option Z; li_totalMinor : option Z }.

Record CommercialPromotion := {
  pm_promotionKey : string; pm_promotionName : string; pm_promotionCodeId : string; pm_code : string;
  pm_discount : PromotionDiscount }.

Inductive DiscountStatus := discount_none | discount_applies | discount_ended | discount_provider_calculated.

Record CommercialPreviewNextCycle := {
  nc_interval : Cadence; nc_currency : option text; nc_subtotalMinor : option Z; nc_discountMinor : option Z;
  nc_totalMinor : option Z; nc_discountStatus : DiscountStatus }.

Inductive PreviewDiscountType := type_percent | type_amount.

Record PreviewDiscount := {
  pd_type : PreviewDiscountType; pd_percentOffBps : option Z; pd_amountOffMinor : option Z; pd_currency : option text;
  pd_duration : PromotionDiscountDuration; pd_durationMonths : option Z }.

Record CommercialPreviewPromotion := {
  pp_promotionKey : string; pp_promotionName : string; pp_promotionCodeId : string; pp_code : string;
  pp_discount : PreviewDiscount }.

Inductive PromotionCodeEntry := entry_code | entry_hosted | entry_none.

Record PricedCommercialPreview := {
  pc_lineItems : list CommercialLineItem; pc_subtotalMinor : option Z; pc_discountTotalMinor : option Z;
  pc_estimatedTotalMinor : option Z; pc_exact : bool; pc_promotionCodeEntry : PromotionCodeEntry;
  pc_promotion : option CommercialPreviewPromotion; pc_nextCycle : option CommercialPreviewNextCycle;
  pc_warnings : list string }.

Definition maxSafeMinor : Z := maxSafeInteger.

Definition invalidQuantityError (message : string) : error := BillingErr message "INVALID_QUANTITY" 400.

Definition amountOutOfRange (subject : string) : error :=
  invalidQuantityError (subject ++ " exceeds " ++ pretty maxSafeInteger ++ " minor units; lower a quantity").

Definition flatSubtotalMinor (line : CommercialLineItem) : result Z :=
  match li_unitAmountMinor line, li_quantity line with
  | JInt u, JInt q =>
      if isSafeInteger u && isSafeInteger q && (u * q <=? maxSafeMinor) then Ok (u * q)
      else Err (amountOutOfRange ("The total for " ++ li_key line))
  | _, _ => Err (amountOutOfRange ("The total for " ++ li_key line))
  end.

Definition lineSubtotal (line : CommercialLineItem) : result (option Z) :=
  match li_pricingModel line with
  | Flat => fmap Some (flatSubtotalMinor line)
  | _ => Ok None
  end.

Definition previewPromotion (promotion : CommercialPromotion) (currency : option text) : result CommercialPreviewPromotion :=
  let discount := pm_discount promotion in
  off ← (match discount with
         | percent _ _ _ => Ok None
         | amount _ _ _ => fmap Some (discountAmountFor discount currency)
         end);
  Ok {| pp_promotionKey := pm_promotionKey promotion; pp_promotionName := pm_promotionName promotion;
        pp_promotionCodeId := pm_promotionCodeId promotion; pp_code := pm_code promotion;
        pp_discount :=
          {| pd_type := match discount with percent _ _ _ => type_percent | amount _ _ _ => type_amount end;
             pd_percentOffBps := match discount with percent bps _ _ => Some bps | _ => None end;
             pd_amountOffMinor := off;
             pd_currency := match discount with amount _ _ _ => fmap toUpper currency | _ => None end;
             pd_duration := duration_of discount; pd_durationMonths := durationMonths_of discount |} |}.

Definition nextCycle (interval : Cadence) (currency : option text) (subtotalMinor firstCycleDiscountMinor : option Z)
  (promotion : option CommercialPromotion) : CommercialPreviewNextCycle :=
  match subtotalMinor, firstCycleDiscountMinor with
  | Some subtotal, Some first =>
      let applies := match promotion with Some p => discountAppliesNextCycle (pm_discount p) interval | None => false end in
      let discountMinor := if applies then first else 0 in
      {| nc_interval := interval; nc_currency := currency; nc_subtotalMinor := Some subtotal;
         nc_discountMinor := Some discountMinor; nc_totalMinor := Some (subtotal - discountMinor);
         nc_discountStatus := match promotion with
           | None => discount_none | Some _ => if applies then discount_applies else discount_ended end |}
  | _, _ =>
      {| nc_interval := interval; nc_currency := currency; nc_subtotalMinor := None; nc_discountMinor := None;
         nc_totalMinor := None;
         nc_discountStatus := match promotion with None => discount_none | Some _ => discount_provider_calculated end |}
  end.

(** One line of the preview, priced. *)
Definition pricedLine (discounted : option DiscountedLines) (index : nat) (p : CommercialLineItem * option Z)
  : CommercialLineItem :=
  let '(line, subtotal) := p in
  let discount := match discounted with
    | None => match subtotal with None => None | Some _ => Some 0 end
    | Some d => default None (lineDiscountsMinor d !! index)
    end in
  {| li_key := li_key line; li_quantity := li_quantity line; li_unitAmountMinor := li_unitAmountMinor line;
     li_interval := li_interval line; li_intervalCount := li_intervalCount line; li_pricingModel := li_pricingModel line;
     li_subtotalMinor := subtotal; li_discountMinor := discount;
     li_totalMinor := match subtotal, discount with Some s, Some d => Some (s - d) | _, _ => None end |}.

(** The sum of the flat subtotals, refused past the largest safe integer; [None] when a
    line is tiered. *)
Definition subtotalOf (subtotals : list (option Z)) : result (option Z) :=
  match mapM id subtotals with
  | None => Ok None
  | Some values =>
      _ ← throwWhen (maxSafeMinor <? sumZ values) (amountOutOfRange "The subtotal");
      Ok (Some (sumZ values))
  end.

Definition tieredWarning (promotion : option CommercialPromotion) : string :=
  match promotion with
  | None => "Stripe calculates tiered line totals during Checkout."
  | Some _ => "Stripe calculates tiered line totals and their discount during Checkout."
  end.

Definition priceCommercialLines (lines : list CommercialLineItem) (currency : option text)
  (recurringInterval : option Cadence) (promotion : option CommercialPromotion) (hostedEntry : bool)
  : result PricedCommercialPreview :=
  subtotals ← mapM lineSubtotal lines;
  subtotalMinor ← subtotalOf subtotals;
  discounted ←
    (match promotion with
     | None => Ok None
     | Some p => fmap Some (applyDiscountToLines subtotals (pm_discount p) currency)
     end);
  let lineItems := imap (pricedLine discounted) (zip lines subtotals) in
  let discountTotalMinor := match discounted with
    | None => match subtotalMinor with None => None | Some _ => Some 0 end
    | Some d => discountTotalMinor d
    end in
  preview ← (match promotion with
             | None => Ok None
             | Some p => fmap Some (previewPromotion p currency)
             end);
  let exact := match subtotalMinor with Some _ => true | None => false end in
  Ok {| pc_lineItems := lineItems; pc_subtotalMinor := subtotalMinor; pc_discountTotalMinor := discountTotalMinor;
        pc_estimatedTotalMinor := match subtotalMinor, discountTotalMinor with
          | Some s, Some d => Some (s - d) | _, _ => None end;
        pc_exact := exact;
        pc_promotionCodeEntry := match promotion with
          | Some _ => entry_code | None => if hostedEntry then entry_hosted else entry_none end;
        pc_promotion := preview;
        pc_nextCycle := fmap (fun interval => nextCycle interval currency subtotalMinor discountTotalMinor promotion)
          recurringInterval;
        pc_warnings := (if exact then [] else [tieredWarning promotion]) ++
          (if hostedEntry
           then ["Customer-entered promotion codes are validated and priced by Stripe; this preview excludes them."%string]
           else []) |}.

Definition recurringCadenceOf (lines : list CommercialLineItem) : option Cadence :=
  match List.find (fun line => match li_interval line with Some _ => true | None => false end) lines with
  | Some line => fmap (fun u => {| c_unit := u; c_count := default 1 (li_intervalCount line) |}) (li_interval line)
  | None => None
  end.

(** ** The totals shown *)

(** A line whose price Quotum knows, at a price and quantity the catalog allows. *)
Definition flat_line (line : CommercialLineItem) : Prop :=
  li_pricingModel line = Flat /\
  exists u q, li_unitAmountMinor line = JInt u /\ li_quantity line = JInt q /\ 0 <= u /\ 0 <= q.

Definition amountOf (line : CommercialLineItem) : Z :=
  match li_unitAmountMinor line, li_quantity line with JInt u, JInt q => u * q | _, _ => 0 end.

Lemma flat_line_nonneg line : flat_line line -> 0 <= amountOf line.
Proof. intros (_ & u & q & Hu & Hq & H1 & H2). unfold amountOf. rewrite Hu, Hq. lia. Qed.

Lemma lineSubtotal_flat line s : flat_line line -> lineSubtotal line = Ok s ->
  s = Some (amountOf line) /\ amountOf line <= maxSafeMinor.
Proof.
  intros (Hm & u & q & Hu & Hq & _). unfold lineSubtotal, flatSubtotalMinor, amountOf. rewrite Hm, Hu, Hq.
  destruct (_ && _ && (u * q <=? maxSafeMinor)) eqn:E; [|done]. intros [= <-].
  apply andb_prop in E as [_ E%Z.leb_le]. done.
Qed.

Lemma subtotals_flat lines subtotals : Forall flat_line lines -> mapM lineSubtotal lines = Ok subtotals ->
  subtotals = map Some (map amountOf lines).
Proof.
  intros Hf H. apply mapM_Ok_Forall2 in H. induction H as [|line s lines subtotals Hs _ IH]; [done|].
  apply Forall_cons in Hf as [Hl Hf]. cbn. rewrite (IH Hf). f_equal. by apply lineSubtotal_flat.
Qed.

Lemma subtotalOf_Some values r : subtotalOf (map Some values) = Ok r ->
  r = Some (sumZ values) /\ sumZ values <= maxSafeMinor.
Proof.
  unfold subtotalOf. rewrite mapM_id_Some. intros H. apply bind_Ok in H as (u & Hu & H). injection H as <-.
  apply throwWhen_Ok, Z.ltb_ge in Hu. done.
Qed.

(** What the discounts of the lines are: none without a promotion. *)
Lemma line_discounts promotion values currency discounted :
  (forall p, promotion = Some p -> valid_discount (pm_discount p)) -> Forall (fun s => 0 <= s) values ->
  (match promotion with
   | None => Ok None
   | Some p => fmap Some (applyDiscountToLines (map Some values) (pm_discount p) currency)
   end) = Ok discounted ->
  exists ds, Forall2 (fun d s => 0 <= d <= s) ds values /\
    (promotion = None -> ds = map (fun _ => 0) values) /\
    (match discounted with
     | None => Some 0
     | Some d => discountTotalMinor d
     end) = Some (sumZ ds) /\
    forall i s, values !! i = Some s ->
      (match discounted with None => Some 0 | Some d => default None (lineDiscountsMinor d !! i) end) = ds !! i.
Proof.
  intros Hv Hnn H. destruct promotion as [p|].
  - destruct (applyDiscountToLines (map Some values) (pm_discount p) currency) as [r|] eqn:E; [|done].
    injection H as <-. destruct (applied_discounts values _ currency r (Hv p eq_refl) Hnn E) as (ds & -> & Hb & _).
    exists ds. split; [done|]. split; [done|]. split; [done|]. intros i s Hi. cbn. rewrite list_lookup_fmap.
    destruct (Forall2_lookup_r _ _ _ _ _ Hb Hi) as (d & -> & _). done.
  - injection H as <-. exists (map (fun _ => 0) values). split.
    + apply Forall2_fmap_l, Forall_Forall2_diag. eapply Forall_impl; [exact Hnn|]. cbn. lia.
    + split; [done|]. split; [f_equal; clear; induction values; cbn; lia|]. intros i s Hi.
      by rewrite list_lookup_fmap, Hi.
Qed.

Lemma sumZ_sub values ds : Forall2 (fun d s => 0 <= d <= s) ds values ->
  sumZ (zip_with (fun s d => s - d) values ds) = sumZ values - sumZ ds /\
  Forall (fun t => 0 <= t) (zip_with (fun s d => s - d) values ds) /\ 0 <= sumZ ds.
Proof.
  induction 1 as [|d s ds values Hd _ (IH1 & IH2 & IH3)]; cbn; [by repeat constructor|].
  rewrite IH1. split; [lia|]. split; [constructor; [lia|exact IH2]|lia].
Qed.

(** Of flat lines, the preview is exact: each line's total is its price times its
    quantity less its discount and never negative, the totals add up line by line to the
    estimated total, no amount passes the largest integer a number holds exactly, and
    without a promotion nothing is taken off. *)
Theorem commercial_preview_exact lines currency interval promotion hosted preview :
  Forall flat_line lines -> (forall p, promotion = Some p -> valid_discount (pm_discount p)) ->
  priceCommercialLines lines currency interval promotion hosted = Ok preview ->
  exists ds totals, Forall2 (fun d s => 0 <= d <= s) ds (map amountOf lines) /\
    totals = zip_with (fun s d => s - d) (map amountOf lines) ds /\
    pc_exact preview = true /\
    map li_totalMinor (pc_lineItems preview) = map Some totals /\
    pc_subtotalMinor preview = Some (sumZ (map amountOf lines)) /\
    pc_discountTotalMinor preview = Some (sumZ ds) /\
    pc_estimatedTotalMinor preview = Some (sumZ totals) /\
    0 <= sumZ totals <= maxSafeInteger /\ sumZ (map amountOf lines) <= maxSafeInteger /\
    (promotion = None -> sumZ ds = 0).
Proof.
  intros Hf Hv H. unfold priceCommercialLines in H. apply bind_Ok in H as (subtotals & Hsub & H).
  apply (subtotals_flat _ _ Hf) in Hsub as ->. apply bind_Ok in H as (sm & Hsm & H).
  apply subtotalOf_Some in Hsm as [-> Hmax]. apply bind_Ok in H as (discounted & Hd & H).
  apply bind_Ok in H as (pv & _ & H). injection H as <-.
  assert (Hnn : Forall (fun s => 0 <= s) (map amountOf lines)).
  { apply Forall_map. eapply Forall_impl; [exact Hf|]. apply flat_line_nonneg. }
  destruct (line_discounts promotion _ currency discounted Hv Hnn Hd) as (ds & Hds & Hnone & Htotal & Hline).
  destruct (sumZ_sub _ _ Hds) as (Hsum & Hpos & Hdpos).
  exists ds, (zip_with (fun s d => s - d) (map amountOf lines) ds). split; [done|]. split; [done|].
  cbn [pc_exact pc_lineItems pc_subtotalMinor pc_discountTotalMinor pc_estimatedTotalMinor].
  split; [done|]. split.
  - apply list_eq. intros i. rewrite list_lookup_fmap, list_lookup_imap, list_lookup_fmap, lookup_zip_with, lookup_zip_with.
    rewrite !list_lookup_fmap. destruct (lines !! i) as [line|] eqn:Hi; [|done]. cbn.
    assert (Ha : map amountOf lines !! i = Some (amountOf line)) by by rewrite list_lookup_fmap, Hi.
    specialize (Hline i _ Ha). destruct (Forall2_lookup_r _ _ _ _ _ Hds Ha) as (d & Hdi & _).
    rewrite Hdi in Hline |- *. cbn. by rewrite Hline.
  - rewrite Htotal. split; [done|]. split; [done|]. rewrite Hsum. split; [done|]. unfold maxSafeMinor in Hmax.
    split; [|split; [done|intros Hp; rewrite (Hnone Hp); clear; induction lines; cbn; lia] ].
    rewrite <- Hsum. split; [by apply sumZ_nonneg|lia].
Qed.

Definition exampleLine (key : string) (unit quantity : Z) : CommercialLineItem :=
  {| li_key := key; li_quantity := JInt quantity; li_unitAmountMinor := JInt unit; li_interval := Some month;
     li_intervalCount := None; li_pricingModel := Flat; li_subtotalMinor := None; li_discountMinor := None;
     li_totalMinor := None |}.
Definition examplePromotion : CommercialPromotion :=
  {| pm_promotionKey := "launch"; pm_promotionName := "Launch"; pm_promotionCodeId := "1"; pm_code := "LAUNCH";
     pm_discount := exampleAmountOff |}.

Lemma commercial_preview_exact_witness :
  exists preview, priceCommercialLines [exampleLine "seat" 50 3; exampleLine "base" 150 1] (Some (js "USD"))
    (Some {| c_unit := month; c_count := 1 |}) (Some examplePromotion) false = Ok preview /\
  exists ds totals, Forall2 (fun d s => 0 <= d <= s) ds [150; 150] /\
    totals = zip_with (fun s d => s - d) [150; 150] ds /\ pc_exact preview = true /\
    map li_totalMinor (pc_lineItems preview) = map Some totals /\
    pc_subtotalMinor preview = Some 300 /\ pc_discountTotalMinor preview = Some (sumZ ds) /\
    pc_estimatedTotalMinor preview = Some (sumZ totals) /\
    0 <= sumZ totals <= maxSafeInteger /\ 300 <= maxSafeInteger /\ (Some examplePromotion = None -> sumZ ds = 0).
Proof.
  eexists. split; [vm_compute; reflexivity|].
  apply (commercial_preview_exact [exampleLine "seat" 50 3; exampleLine "base" 150 1] (Some (js "USD"))
    (Some {| c_unit := month; c_count := 1 |}) (Some examplePromotion) false).
  - repeat constructor; cbn; eexists _, _; repeat split; discriminate.
  - intros p [= <-]. repeat constructor.
  - vm_compute. reflexivity.
Defined.
