(* ===== verification/Corrections.v ===== *)
(** * Corrections of recorded usage ([src/db/repository/metering.ts])

    The corrections of one usage event of a wallet: how much of it may still be
    corrected, the share of the charge a correction gives back, and the allocations it
    goes back to.  The original event's row is locked, so its corrections are a sequence.
    Event quantities are in units of nine decimal places, wallet quantities in units of
    the wallet's scale.  Allowances an immediate plan change carried, and levels a
    correction shrinks, are not part of this model: the allocations have no subscription. *)
From S2P Require Import Prelude Text Decimal Pricing JsDate Balances Wallet WalletStore.

(** [value !== null] *)
Definition is_set {A} (o : option A) : bool := match o with Some _ => true | None => false end.

Record CAlloc := {
  c_id : Z; c_consumed : Z; c_operator : bool; c_reversed_at : option Z; c_expires_at : option Z;
  c_resumable : bool (* the answer of [isResumableDefaultAllowance] *) }.

(** The usage event being corrected. *)
Record OriginalUsageRow := {
  o_meter_scale : Z; o_wallet_scale : Z; o_quantity : Z; o_wallet_quantity : Z;
  o_deductions : list AllocationDeduction; o_windowed : bool (* [metadata.usageWindowId] is text *) }.

(** A correction event's row: its quantities are stored negated. *)
Record CorrectionRow := { cr_quantity : Z; cr_wallet_quantity : Z; cr_deductions : list AllocationDeduction }.

Record CorrectionStore := { co_allocs : list CAlloc; co_events : list CorrectionRow }.

Definition readCorrectedQuantity (s : CorrectionStore) : Z * Z :=
  (- sumZ (map cr_quantity (co_events s)), - sumZ (map cr_wallet_quantity (co_events s))).

Definition negativeDecimal (value : text) : result text :=
  n ← decimalToUnits value 9; Ok (if n =? 0 then js "0" else 45 :: value).

Section Correct.
(** [round(wallet * correction / quantity, walletScale)] as the database evaluates it, in
    units of the wallet's scale. *)
Context (roundedShare : Z -> Z -> Z -> Z -> Z).
Context (original : OriginalUsageRow).
Local Abbreviation scale := (o_wallet_scale original).

Definition proportionalCorrectionQuantity (correctionUnits remainingWalletUnits : Z) : Z :=
  let proportionalUnits := roundedShare (o_wallet_quantity original) correctionUnits (o_quantity original) scale in
  if remainingWalletUnits <? proportionalUnits then remainingWalletUnits else proportionalUnits.

(** What earlier corrections gave back, by allocation. *)
Definition restoredEntries (prior : list CorrectionRow) : result (list (Z * Z)) :=
  entries ← mapM (fun d => units ← signedDecimalToUnits (de_quantity d) scale; Ok (de_allocationId d, units))
    (concat (map cr_deductions prior));
  Ok (omap (fun e => if snd e <? 0 then Some (fst e, - snd e) else None) entries).

Definition findAlloc (id : Z) (allocs : list CAlloc) : option CAlloc := List.find (fun a => c_id a =? id) allocs.

Definition giveBack (id n : Z) (allocs : list CAlloc) : list CAlloc :=
  map (fun a => if c_id a =? id
    then {| c_id := c_id a; c_consumed := c_consumed a - n; c_operator := c_operator a;
            c_reversed_at := c_reversed_at a; c_expires_at := c_expires_at a; c_resumable := c_resumable a |}
    else a) allocs.

Definition revokedGrant (a : option CAlloc) : bool :=
  match a with Some a => c_operator a && is_set (c_reversed_at a) | None => false end.

(** [eligible || resumes] *)
Definition takesBack (now : Z) (a : option CAlloc) : bool :=
  match a with
  | None => false
  | Some a =>
      let eligible := negb (is_set (c_reversed_at a)) &&
        match c_expires_at a with None => true | Some e => now <? e end in
      let resumes := negb eligible && negb (is_set (c_reversed_at a)) && c_resumable a in
      eligible || resumes
  end.

Definition withQuantity (d : AllocationDeduction) (quantity : text) : AllocationDeduction :=
  {| de_allocationId := de_allocationId d; de_quantity := quantity; de_sourceKind := de_sourceKind d;
     de_sourceKey := de_sourceKey d; de_expiresAt := de_expiresAt d |}.

(** One deduction of the original, given back up to what remains. *)
Definition restoreOne (now : Z) (d : AllocationDeduction) (restored : Z) (allocs : list CAlloc)
  : result (list CAlloc * AllocationDeduction) :=
  let allocation := findAlloc (de_allocationId d) allocs in
  _ ← throwWhen (revokedGrant allocation)
        (BillingErr "The usage being corrected was spent from an operator grant that has been revoked"
           "CORRECTION_TARGETS_REVOKED_GRANT" 409);
  allocs' ←
    (match allocation with
     | Some a =>
         if takesBack now allocation then
           if restored <=? c_consumed a then Ok (giveBack (de_allocationId d) restored allocs)
           else Err (InternalError "Correction receipt exceeds the allocation's consumed quantity")
         else Ok allocs
     | None => Ok allocs
     end);
  quantity ← negativeDecimal (unitsToDecimal restored scale);
  Ok (allocs', withQuantity d quantity).

Fixpoint restoreDeductions (now : Z) (prior : list (Z * Z)) (deductions : list AllocationDeduction)
  (remaining : Z) (allocs : list CAlloc) : result (Z * list CAlloc * list AllocationDeduction) :=
  match deductions with
  | [] => Ok (remaining, allocs, [])
  | d :: deductions' =>
      if remaining =? 0 then Ok (remaining, allocs, [])
      else
        originallyDeducted ← decimalToUnits (de_quantity d) scale;
        let unrestored := originallyDeducted - amountFor prior (de_allocationId d) in
        if unrestored <=? 0 then restoreDeductions now prior deductions' remaining allocs
        else
          let restored := if unrestored <? remaining then unrestored else remaining in
          one ← restoreOne now d restored allocs;
          rest ← restoreDeductions now prior deductions' (remaining - restored) (fst one);
          Ok (fst (fst rest), snd (fst rest), snd one :: snd rest)
  end.

Definition reverseOriginalDeductions (now : Z) (walletQuantity : text) (s : CorrectionStore)
  : result (list CAlloc * list AllocationDeduction) :=
  remaining ← decimalToUnits walletQuantity scale;
  if remaining =? 0 then Ok (co_allocs s, [])
  else if o_windowed original && (length (o_deductions original) =? 0)%nat then Ok (co_allocs s, [])
  else
    prior ← restoredEntries (co_events s);
    r ← restoreDeductions now prior (o_deductions original) remaining (co_allocs s);
    _ ← throwWhen (negb (fst (fst r) =? 0)) (InternalError "Original deduction receipt does not cover the correction quantity");
    Ok (snd (fst r), snd r).

(** The wallet quantity of a correction: its share, or all that is left when it corrects
    all that is left. *)
Definition correctionWalletUnits (requestedUnits remainingQuantity remainingWallet : Z) : Z :=
  if requestedUnits =? remainingQuantity then remainingWallet
  else proportionalCorrectionQuantity requestedUnits remainingWallet.

(** [correct], under the lock of the original event: what it refuses, what it gives back
    and the event it records.  The usage window of a meter limit, the rollup, the
    controls, the alerts and the closed invoice period that the same transaction brings
    up to date keep their own state, which is not read here. *)
Definition correct (now : Z) (input : text) (s : CorrectionStore) : result CorrectionStore :=
  _ ← positiveDecimal input "quantity" 9;
  correctionQuantity ← positiveDecimal input "quantity" (o_meter_scale original);
  let '(correctedQuantity, correctedWallet) := readCorrectedQuantity s in
  let remainingQuantity := o_quantity original - correctedQuantity in
  requestedUnits ← decimalToUnits correctionQuantity 9;
  _ ← throwWhen (remainingQuantity <? requestedUnits)
        (BillingErr "Usage correction exceeds the original unreversed quantity" "CORRECTION_EXCEEDS_USAGE" 409);
  let remainingWallet := o_wallet_quantity original - correctedWallet in
  let walletQuantity :=
    unitsToDecimal (correctionWalletUnits requestedUnits remainingQuantity remainingWallet) scale in
  reversed ← reverseOriginalDeductions now walletQuantity s;
  walletUnits ← decimalToUnits walletQuantity scale;
  Ok {| co_allocs := fst reversed;
        co_events := co_events s ++
          [ {| cr_quantity := - requestedUnits; cr_wallet_quantity := - walletUnits; cr_deductions := snd reversed |} ] |}.
End Correct.

(** ** What a correction gives back *)

(** The units given back, by allocation, in the order of the original's deductions. *)
Fixpoint restorePlan (prior dd : list (Z * Z)) (remaining : Z) : list (Z * Z) :=
  match dd with
  | [] => []
  | (id, n) :: dd =>
      if remaining =? 0 then []
      else
        let unrestored := n - amountFor prior id in
        if unrestored <=? 0 then restorePlan prior dd remaining
        else
          let restored := if unrestored <? remaining then unrestored else remaining in
          (id, restored) :: restorePlan prior dd (remaining - restored)
  end.

(** What may still be given back to the allocations of [dd]. *)
Definition unrestoredSum (prior dd : list (Z * Z)) : Z :=
  sumZ (map (fun p => Z.max 0 (snd p - amountFor prior (fst p))) dd).

Lemma unrestoredSum_cons prior id n dd :
  unrestoredSum prior ((id, n) :: dd) = Z.max 0 (n - amountFor prior id) + unrestoredSum prior dd.
Proof. done. Qed.

Lemma unrestoredSum_nonneg prior dd : 0 <= unrestoredSum prior dd.
Proof. apply sumZ_nonneg, Forall_map, Forall_forall. intros. lia. Qed.

Lemma restorePlan_sum prior dd remaining : 0 <= remaining ->
  sumZ (map snd (restorePlan prior dd remaining)) = Z.min remaining (unrestoredSum prior dd).
Proof.
  revert remaining. induction dd as [|[id n] dd IH]; intros remaining Hr; [cbn; lia|].
  rewrite unrestoredSum_cons. pose proof (unrestoredSum_nonneg prior dd). cbn [restorePlan].
  destruct (Z.eqb_spec remaining 0); [cbn; lia|].
  destruct (Z.leb_spec (n - amountFor prior id) 0); [rewrite IH by done; lia|].
  cbn [map snd sumZ]. rewrite IH by blia. blia.
Qed.

Lemma restorePlan_positive prior dd remaining : 0 <= remaining ->
  Forall (fun p => 0 < snd p) (restorePlan prior dd remaining).
Proof.
  revert remaining. induction dd as [|[id n] dd IH]; intros remaining Hr; cbn; [constructor|].
  destruct (Z.eqb_spec remaining 0); [constructor|]. destruct (Z.leb_spec (n - amountFor prior id) 0); [by apply IH|].
  constructor; [cbn; blia|]. apply IH. blia.
Qed.

Lemma restorePlan_ids prior dd remaining id : id ∈ map fst (restorePlan prior dd remaining) -> id ∈ map fst dd.
Proof.
  revert remaining. induction dd as [|[k n] dd IH]; intros remaining H; cbn in *; [done|].
  apply elem_of_cons. destruct (remaining =? 0); [by apply elem_of_nil in H|].
  destruct (n - amountFor prior k <=? 0); [right; by apply (IH remaining)|].
  cbn in H. apply elem_of_cons in H as [->|H]; [by left|right; by eapply IH].
Qed.

(** Each allocation gets back at most what it still lacks. *)
Lemma restorePlan_amount prior dd remaining id n : NoDup (map fst dd) -> 0 <= remaining -> (id, n) ∈ dd ->
  0 <= amountFor (restorePlan prior dd remaining) id <= Z.max 0 (n - amountFor prior id).
Proof.
  intros Hnd Hr Hin. split.
  { apply amountFor_nonneg. eapply Forall_impl; [by apply restorePlan_positive|]. cbn. lia. }
  revert remaining Hnd Hr Hin. induction dd as [|[k m] dd IH]; intros remaining Hnd Hr Hin; [by apply elem_of_nil in Hin|].
  cbn [map fst] in Hnd. apply NoDup_cons in Hnd as [Hk Hnd]. cbn [restorePlan].
  destruct (Z.eqb_spec remaining 0); [change (amountFor [] id) with 0; lia|].
  apply elem_of_cons in Hin as [[= -> ->]|Hin].
  - assert (Hno : forall r, amountFor (restorePlan prior dd r) k = 0).
    { intros r. apply amountFor_notin. intros H. by apply Hk, (restorePlan_ids prior dd r). }
    destruct (Z.leb_spec (m - amountFor prior k) 0); [rewrite Hno; lia|].
    rewrite amountFor_cons, Z.eqb_refl, Hno. blia.
  - assert (Hne : k <> id) by (intros ->; apply Hk; by apply (list_elem_of_fmap_2 fst) in Hin).
    destruct (Z.leb_spec (m - amountFor prior k) 0); [by apply IH|].
    rewrite amountFor_cons, (proj2 (Z.eqb_neq k id) Hne). apply IH; [done|blia|done].
Qed.

Lemma findAlloc_giveBack id k n allocs :
  findAlloc id (giveBack k n allocs) =
    fmap (fun a => if id =? k
      then {| c_id := c_id a; c_consumed := c_consumed a - n; c_operator := c_operator a;
              c_reversed_at := c_reversed_at a; c_expires_at := c_expires_at a; c_resumable := c_resumable a |}
      else a) (findAlloc id allocs).
Proof.
  unfold findAlloc, giveBack. induction allocs as [|a allocs IH]; cbn; [done|].
  destruct (Z.eqb_spec (c_id a) k) as [Hk|Hk]; cbn; destruct (Z.eqb_spec (c_id a) id) as [Hi|Hi]; try exact IH; cbn; f_equal.
  - rewrite (proj2 (Z.eqb_eq id k)) by congruence. done.
  - rewrite (proj2 (Z.eqb_neq id k)) by congruence. done.
Qed.

Section Accounting.
Context (roundedShare : Z -> Z -> Z -> Z -> Z).
Hypothesis Hshare : forall w c q s, 0 <= w -> 0 < c -> 0 < q -> 0 <= roundedShare w c q s.
Context (original : OriginalUsageRow) (dd : list (Z * Z)).
Local Abbreviation scale := (o_wallet_scale original).

Definition reads (d : AllocationDeduction) (p : Z * Z) : Prop :=
  de_allocationId d = fst p /\ decimalToUnits (de_quantity d) scale = Ok (snd p).
Definition readsNegated (d : AllocationDeduction) (p : Z * Z) : Prop :=
  de_allocationId d = fst p /\ signedDecimalToUnits (de_quantity d) scale = Ok (- snd p).

(** A recorded event: what its deductions took, one per allocation, is its charge;
    usage of a limit's window took nothing from allocations. *)
Record original_ok : Prop := {
  oo_scale : 0 <= scale <= 9;
  oo_meter : 0 <= o_meter_scale original <= 9;
  oo_quantity : 0 < o_quantity original;
  oo_wallet : 0 <= o_wallet_quantity original;
  oo_reads : Forall2 reads (o_deductions original) dd;
  oo_ids : NoDup (map fst dd);
  oo_nonneg : Forall (fun p => 0 <= snd p) dd;
  oo_sum : (o_windowed original = true /\ dd = []) \/ sumZ (map snd dd) = o_wallet_quantity original }.
Hypothesis Hok : original_ok.

Lemma negativeDecimal_units n q : 0 < n -> negativeDecimal (unitsToDecimal n scale) = Ok q ->
  q = 45 :: unitsToDecimal n scale.
Proof.
  intros Hn H. pose proof (oo_scale Hok). unfold negativeDecimal in H. rewrite units_rescale in H by lia.
  cbn [mbind result_bind] in H. assert (0 < 10 ^ (9 - scale)) by (apply Z.pow_pos_nonneg; lia).
  rewrite (proj2 (Z.eqb_neq _ 0)) in H by nia. by injection H as <-.
Qed.

Lemma negativeDecimal_total n : 0 <= n -> is_ok (negativeDecimal (unitsToDecimal n scale)) = true.
Proof. intros. pose proof (oo_scale Hok). unfold negativeDecimal. by rewrite units_rescale by lia. Qed.

Lemma restoreOne_spec now d k n restored allocs one : reads d (k, n) -> 0 < restored ->
  restoreOne original now d restored allocs = Ok one ->
  readsNegated (snd one) (k, restored) /\
  forall id a', findAlloc id (fst one) = Some a' -> exists a, findAlloc id allocs = Some a /\
    c_consumed a - (if k =? id then restored else 0) <= c_consumed a' <= c_consumed a.
Proof.
  intros [Hk _] Hr H. cbn in Hk. unfold restoreOne in H. apply bind_Ok in H as (u & _ & H).
  apply bind_Ok in H as (allocs' & Ha & H). apply bind_Ok in H as (q & Hq & H). injection H as <-. cbn [fst snd].
  apply negativeDecimal_units in Hq as ->; [|done]. pose proof (oo_scale Hok).
  split; [split; [exact Hk|apply signedUnits_minus; cbn [snd]; lia]|]. intros id a' Hf.
  rewrite Hk in Ha. destruct (findAlloc k allocs) as [a|] eqn:Hak; [|injection Ha as <-; exists a'; split; [done|]; blia].
  destruct (takesBack now (Some a)); [|injection Ha as <-; exists a'; split; [done|]; blia].
  destruct (restored <=? c_consumed a); [|done]. injection Ha as <-. rewrite findAlloc_giveBack in Hf.
  destruct (findAlloc id allocs) as [b|] eqn:Hb; [|done]. injection Hf as <-. exists b. split; [done|].
  rewrite (Z.eqb_sym id k). destruct (k =? id); cbn; lia.
Qed.

Lemma restoreDeductions_spec now prior ds pp remaining allocs r : Forall2 reads ds pp -> 0 <= remaining ->
  restoreDeductions original now prior ds remaining allocs = Ok r ->
  fst (fst r) = remaining - sumZ (map snd (restorePlan prior pp remaining)) /\
  Forall2 readsNegated (snd r) (restorePlan prior pp remaining) /\
  forall id a', findAlloc id (snd (fst r)) = Some a' -> exists a, findAlloc id allocs = Some a /\
    c_consumed a - amountFor (restorePlan prior pp remaining) id <= c_consumed a' <= c_consumed a.
Proof.
  intros Hd. revert remaining allocs r. induction Hd as [|d [k n] ds pp Hr Hds IH]; intros remaining allocs r Hrem H.
  { injection H as <-. cbn. split; [lia|]. split; [constructor|]. intros id a' Ha. exists a'. split; [done|]. change (amountFor [] id) with 0. lia. }
  cbn [restoreDeductions] in H. cbn [restorePlan]. destruct (Z.eqb_spec remaining 0) as [->|Hne].
  { injection H as <-. cbn. split; [lia|]. split; [constructor|]. intros id a' Ha. exists a'. split; [done|]. change (amountFor [] id) with 0. lia. }
  pose proof Hr as [Hk Hn]. cbn in Hk, Hn. rewrite Hn, Hk in H. cbn [mbind result_bind] in H. cbv zeta in H.
  destruct (Z.leb_spec (n - amountFor prior k) 0); [by apply IH|].
  set (restored := if n - amountFor prior k <? remaining then n - amountFor prior k else remaining) in *.
  assert (Hpos : 0 < restored <= remaining) by (subst restored; blia).
  apply bind_Ok in H as (one & Hone & H). apply bind_Ok in H as (rest & Hrest & H). injection H as <-. cbn [fst snd].
  destruct (restoreOne_spec now d k n restored allocs one Hr (proj1 Hpos) Hone) as [Hneg Hal].
  destruct (IH (remaining - restored) _ _ ltac:(lia) Hrest) as (H1 & H2 & H3). cbn [map snd sumZ].
  split; [lia|]. split; [by constructor|]. intros id a' Ha. destruct (H3 id a' Ha) as (b & Hb & Hb').
  destruct (Hal id b Hb) as (a & Ha0 & Ha'). exists a. split; [done|]. rewrite amountFor_cons. lia.
Qed.

(** The allocations can give back what is asked, and none is a revoked grant. *)
Definition can_give (prior : list (Z * Z)) (allocs : list CAlloc) (k n : Z) : Prop :=
  forall a, findAlloc k allocs = Some a -> revokedGrant (Some a) = false /\ n - amountFor prior k <= c_consumed a.

Lemma restoreOne_total now prior d k n restored allocs : reads d (k, n) -> 0 <= restored <= n - amountFor prior k ->
  can_give prior allocs k n ->
  exists one, restoreOne original now d restored allocs = Ok one /\
    fst one = match findAlloc k allocs with
              | Some a => if takesBack now (Some a) then giveBack k restored allocs else allocs
              | None => allocs
              end.
Proof.
  intros [Hk _] Hr Hc. cbn in Hk. unfold restoreOne. rewrite Hk. unfold can_give in Hc.
  pose proof (negativeDecimal_total restored ltac:(lia)) as Hneg.
  destruct (negativeDecimal (unitsToDecimal restored scale)) as [q|] eqn:Eq; [|done].
  destruct (findAlloc k allocs) as [a|] eqn:Ea; [|eexists; split; [cbn [revokedGrant throwWhen mbind result_bind]; reflexivity|done] ].
  destruct (Hc a eq_refl) as [-> Hle]. cbn [throwWhen mbind result_bind].
  destruct (takesBack now (Some a)); [rewrite (proj2 (Z.leb_le restored _)) by lia|];
    cbn [mbind result_bind]; by eexists.
Qed.

Lemma can_give_other prior allocs k n k' (takes_back : CAlloc -> bool) restored : k <> k' -> can_give prior allocs k n ->
  can_give prior (match findAlloc k' allocs with
                  | Some a => if takes_back a then giveBack k' restored allocs else allocs
                  | None => allocs
                  end) k n.
Proof.
  intros Hne Hc. unfold can_give in *. destruct (findAlloc k' allocs) as [c|]; [|exact Hc]. destruct (takes_back c); [|exact Hc].
  intros a Ha. rewrite findAlloc_giveBack, (proj2 (Z.eqb_neq k k') Hne) in Ha.
  destruct (findAlloc k allocs) as [b|]; [|done]. injection Ha as <-. by apply Hc.
Qed.

Lemma restoreDeductions_total now prior ds pp remaining allocs : Forall2 reads ds pp -> NoDup (map fst pp) ->
  0 <= remaining -> (forall k n, (k, n) ∈ pp -> can_give prior allocs k n) ->
  is_ok (restoreDeductions original now prior ds remaining allocs) = true.
Proof.
  intros Hd. revert remaining allocs. induction Hd as [|d [k n] ds pp Hr Hds IH]; intros remaining allocs Hnd Hrem Hc; [done|].
  cbn [map fst] in Hnd. apply NoDup_cons in Hnd as [Hk' Hnd].
  cbn [restoreDeductions]. destruct (Z.eqb_spec remaining 0); [done|].
  pose proof Hr as [Hk Hn]. cbn in Hk, Hn. rewrite Hn, Hk. cbn [mbind result_bind]. cbv zeta.
  assert (Hrest : forall allocs' r, 0 <= r ->
    (forall k' n', (k', n') ∈ pp -> can_give prior allocs' k' n') ->
    is_ok (restoreDeductions original now prior ds r allocs') = true) by (intros; by apply IH).
  destruct (Z.leb_spec (n - amountFor prior k) 0).
  { apply Hrest; [done|]. intros k' n' Hin. apply Hc. by right. }
  set (restored := if n - amountFor prior k <? remaining then n - amountFor prior k else remaining).
  assert (Hpos : 0 < restored <= remaining /\ restored <= n - amountFor prior k) by (subst restored; blia).
  destruct (restoreOne_total now prior d k n restored allocs Hr ltac:(lia) (Hc k n ltac:(by left))) as (one & -> & Hal).
  cbn [mbind result_bind]. specialize (Hrest (fst one) (remaining - restored) ltac:(lia)).
  destruct (restoreDeductions original now prior ds (remaining - restored) (fst one)); [done|]. apply Hrest.
  intros k' n' Hin. rewrite Hal. apply (can_give_other _ _ _ _ _ (fun a => takesBack now (Some a))); [|apply Hc; by right].
  intros ->. apply Hk'. by apply (list_elem_of_fmap_2 fst) in Hin.
Qed.

(** ** The invariant of the corrections *)

Definition correctedQuantity (s : CorrectionStore) : Z := fst (readCorrectedQuantity s).
Definition correctedWallet (s : CorrectionStore) : Z := snd (readCorrectedQuantity s).

Record corrections_inv (prior : list (Z * Z)) (s : CorrectionStore) : Prop := {
  ci_prior : restoredEntries original (co_events s) = Ok prior;
  ci_quantity : 0 <= correctedQuantity s <= o_quantity original;
  ci_wallet : 0 <= correctedWallet s <= o_wallet_quantity original;
  ci_complete : correctedQuantity s = o_quantity original -> correctedWallet s = o_wallet_quantity original;
  ci_amounts : forall id n, (id, n) ∈ dd -> 0 <= amountFor prior id <= n;
  ci_sum : dd <> [] -> sumZ (map (fun p => amountFor prior (fst p)) dd) = correctedWallet s;
  ci_allocs : forall id n a, (id, n) ∈ dd -> findAlloc id (co_allocs s) = Some a ->
    n - amountFor prior id <= c_consumed a }.

Lemma restoredEntries_app es es' ps ps' : restoredEntries original es = Ok ps -> restoredEntries original es' = Ok ps' ->
  restoredEntries original (es ++ es') = Ok (ps ++ ps').
Proof.
  unfold restoredEntries. rewrite map_app, concat_app. intros H1 H2.
  apply bind_Ok in H1 as (l1 & H1 & E1). apply bind_Ok in H2 as (l2 & H2 & E2). injection E1 as <-. injection E2 as <-.
  rewrite (proj2 (mapM_Ok_Forall2 _ _ (l1 ++ l2))).
  - cbn [mbind result_bind]. by rewrite omap_app.
  - apply Forall2_app; by apply mapM_Ok_Forall2.
Qed.

Lemma restoredEntries_receipt e plan : Forall2 readsNegated (cr_deductions e) plan -> Forall (fun p => 0 < snd p) plan ->
  restoredEntries original [e] = Ok plan.
Proof.
  intros Hr Hp. unfold restoredEntries. cbn [map concat]. rewrite app_nil_r.
  rewrite (proj2 (mapM_Ok_Forall2 _ _ (map (fun p => (fst p, - snd p)) plan))).
  - cbn [mbind result_bind]. f_equal. clear Hr. induction Hp as [|[k n] plan Hn _ IH]; [done|]. cbn in Hn |- *.
    rewrite (proj2 (Z.ltb_lt (- n) 0)) by lia. cbn. rewrite IH. do 2 f_equal. lia.
  - apply Forall2_fmap_r. eapply Forall2_impl; [exact Hr|]. intros d [k n] [Hk Hn]. cbn in *. rewrite Hn. cbn. by rewrite Hk.
Qed.

Lemma dd_scale_sum prior s : corrections_inv prior s -> dd <> [] ->
  unrestoredSum prior dd = o_wallet_quantity original - correctedWallet s.
Proof.
  intros Hinv Hne. destruct (oo_sum Hok) as [[_ ->]|Hs]; [done|]. rewrite <- Hs, <- (ci_sum _ _ Hinv Hne).
  pose proof (ci_amounts _ _ Hinv) as Ha. unfold unrestoredSum. clear -Ha. revert Ha.
  induction dd as [|[k n] l IH]; intros Ha; [done|]. cbn [map snd fst sumZ].
  rewrite IH by (intros; apply Ha; by right). pose proof (Ha k n ltac:(by left)). lia.
Qed.

Lemma reverse_spec now prior s w r : corrections_inv prior s ->
  0 <= w <= o_wallet_quantity original - correctedWallet s ->
  reverseOriginalDeductions original now (unitsToDecimal w scale) s = Ok r ->
  exists plan, Forall2 readsNegated (snd r) plan /\ Forall (fun p => 0 < snd p) plan /\
    (dd <> [] -> sumZ (map snd plan) = w) /\
    (forall id, id ∈ map fst plan -> id ∈ map fst dd) /\
    (forall id n, (id, n) ∈ dd -> 0 <= amountFor plan id <= n - amountFor prior id) /\
    (forall id a', findAlloc id (fst r) = Some a' -> exists a, findAlloc id (co_allocs s) = Some a /\
       c_consumed a - amountFor plan id <= c_consumed a' <= c_consumed a).
Proof.
  intros Hinv Hw H. pose proof (oo_scale Hok) as Hs. pose proof (ci_amounts _ _ Hinv) as Ham.
  assert (Hnone : forall allocs, r = (allocs, []) -> allocs = co_allocs s -> (dd <> [] -> w = 0) ->
    exists plan, Forall2 readsNegated (snd r) plan /\ Forall (fun p => 0 < snd p) plan /\
    (dd <> [] -> sumZ (map snd plan) = w) /\ (forall id, id ∈ map fst plan -> id ∈ map fst dd) /\
    (forall id n, (id, n) ∈ dd -> 0 <= amountFor plan id <= n - amountFor prior id) /\
    (forall id a', findAlloc id (fst r) = Some a' -> exists a, findAlloc id (co_allocs s) = Some a /\
       c_consumed a - amountFor plan id <= c_consumed a' <= c_consumed a)).
  { intros allocs -> -> H0. exists []. split; [constructor|]. split; [constructor|]. split; [intros; by rewrite H0|].
    split; [intros id Hid; by apply elem_of_nil in Hid|]. split.
    - intros id n Hin. specialize (Ham id n Hin). change (amountFor [] id) with 0. lia.
    - intros id a' Ha. exists a'. split; [done|]. change (amountFor [] id) with 0. lia. }
  unfold reverseOriginalDeductions in H. rewrite units_roundtrip in H by lia. cbn [mbind result_bind] in H.
  destruct (Z.eqb_spec w 0) as [->|Hne]; [injection H as <-; by eapply Hnone|].
  destruct (o_windowed original && (length (o_deductions original) =? 0)%nat) eqn:Ewin.
  { injection H as <-. apply (Hnone (co_allocs s)); [done|done|]. intros Hdd. exfalso. apply Hdd.
    apply andb_prop in Ewin as [_ E%Nat.eqb_eq]. pose proof (Forall2_length _ _ _ (oo_reads Hok)) as Hlen.
    destruct dd; [done|]. cbn in Hlen. lia. }
  rewrite (ci_prior _ _ Hinv) in H. cbn [mbind result_bind] in H.
  apply bind_Ok in H as (q & Hq & H). apply bind_Ok in H as (u & Hu & H). injection H as <-.
  apply throwWhen_Ok, negb_false_iff, Z.eqb_eq in Hu. cbn [fst snd].
  destruct (restoreDeductions_spec now prior _ _ w _ q (oo_reads Hok) ltac:(lia) Hq) as (H1 & H2 & H3).
  exists (restorePlan prior dd w). split; [done|]. split; [apply restorePlan_positive; lia|]. split; [lia|].
  split; [apply restorePlan_ids|]. split; [|exact H3]. intros id n Hin. specialize (Ham id n Hin).
  pose proof (restorePlan_amount prior dd w id n (oo_ids Hok) ltac:(lia) Hin). lia.
Qed.

(** What a correction asks for, in nine-digit units. *)
Lemma requested_units input q : positiveDecimal input "quantity" (o_meter_scale original) = Ok q ->
  exists c, decimalToUnits q 9 = Ok c /\ 0 < c.
Proof.
  intros H. pose proof (oo_meter Hok) as Hm. destruct (positiveDecimal_units _ _ _ _ H) as (m & Hq & Hpos).
  unfold positiveDecimal in H. apply bind_Ok in H as (v & Hv & H). apply bind_Ok in H as (u & _ & H).
  apply bind_Ok in H as (t & _ & H). injection H as ->.
  apply canonicalDecimal_Ok in Hv as [Hv _]. destruct (unboundedDecimal_is_units _ _ _ _ (proj1 Hm) Hv) as (n & Hn & _ & ->).
  rewrite units_roundtrip in Hq by lia. injection Hq as ->. exists (m * 10 ^ (9 - o_meter_scale original)).
  split; [apply units_rescale; lia|]. assert (0 < 10 ^ (9 - o_meter_scale original)) by (apply Z.pow_pos_nonneg; lia). nia.
Qed.

Lemma walletUnits_bound c rq rw : 0 < c -> 0 <= rw ->
  0 <= correctionWalletUnits roundedShare original c rq rw <= rw /\
  (c = rq -> correctionWalletUnits roundedShare original c rq rw = rw).
Proof.
  intros Hc Hrw. unfold correctionWalletUnits, proportionalCorrectionQuantity.
  pose proof (Hshare (o_wallet_quantity original) c (o_quantity original) scale (oo_wallet Hok) Hc (oo_quantity Hok)).
  destruct (Z.eqb_spec c rq); split; try lia; blia.
Qed.

Lemma correct_inv now input prior s s' : corrections_inv prior s ->
  correct roundedShare original now input s = Ok s' ->
  (exists prior', corrections_inv prior' s') /\ correctedQuantity s < correctedQuantity s'.
Proof.
  intros Hinv H. unfold correct in H. apply bind_Ok in H as (q0 & _ & H). apply bind_Ok in H as (q & Hq & H).
  destruct (requested_units input q Hq) as (c & Hc & Hpos).
  change (readCorrectedQuantity s) with (correctedQuantity s, correctedWallet s) in H. cbv iota beta zeta in H.
  rewrite Hc in H. cbn [mbind result_bind] in H. apply bind_Ok in H as (u & Hu & H). apply throwWhen_Ok, Z.ltb_ge in Hu.
  pose proof (ci_wallet _ _ Hinv) as Hw. pose proof (ci_quantity _ _ Hinv) as Hqty. pose proof (oo_scale Hok) as Hs.
  destruct (walletUnits_bound c (o_quantity original - correctedQuantity s)
    (o_wallet_quantity original - correctedWallet s) Hpos ltac:(lia)) as [Hb Hall].
  set (w := correctionWalletUnits _ _ _ _ _) in *. apply bind_Ok in H as (r & Hr & H).
  rewrite units_roundtrip in H by lia. cbn [mbind result_bind] in H. injection H as <-.
  destruct (reverse_spec now prior s w r Hinv Hb Hr) as (plan & P1 & P2 & P3 & P4 & P5 & P6).
  set (e := {| cr_quantity := - c; cr_wallet_quantity := - w; cr_deductions := snd r |}).
  set (s' := {| co_allocs := fst r; co_events := co_events s ++ [e] |}).
  assert (Hcq : correctedQuantity s' = correctedQuantity s + c).
  { unfold correctedQuantity, s'. cbn. rewrite map_app, sumZ_app. cbn. lia. }
  assert (Hcw : correctedWallet s' = correctedWallet s + w).
  { unfold correctedWallet, s'. cbn. rewrite map_app, sumZ_app. cbn. lia. }
  split; [|lia]. exists (prior ++ plan). constructor.
  - apply restoredEntries_app; [exact (ci_prior _ _ Hinv)|]. by apply restoredEntries_receipt.
  - lia.
  - lia.
  - rewrite Hcq, Hcw. intros He. rewrite Hall by lia. lia.
  - intros id n Hin. rewrite amountFor_app. pose proof (ci_amounts _ _ Hinv id n Hin). specialize (P5 id n Hin). lia.
  - intros Hne. rewrite Hcw, <- (ci_sum _ _ Hinv Hne), <- (P3 Hne), <- (amountFor_total plan _ (oo_ids Hok) P4).
    rewrite map_map, <- sumZ_map_add. f_equal. apply map_ext. intros p. by rewrite amountFor_app.
  - intros id n a' Hin Ha. destruct (P6 id a' Ha) as (a & Ha0 & Hle). rewrite amountFor_app.
    pose proof (ci_allocs _ _ Hinv id n a Hin Ha0). lia.
Qed.

Lemma reverse_total now prior s w : corrections_inv prior s ->
  0 <= w <= o_wallet_quantity original - correctedWallet s ->
  (forall id n a, (id, n) ∈ dd -> findAlloc id (co_allocs s) = Some a -> revokedGrant (Some a) = false) ->
  exists r, reverseOriginalDeductions original now (unitsToDecimal w scale) s = Ok r.
Proof.
  intros Hinv Hw Hrev. pose proof (oo_scale Hok) as Hs. unfold reverseOriginalDeductions.
  rewrite units_roundtrip by lia. cbn [mbind result_bind].
  destruct (Z.eqb_spec w 0) as [->|Hne]; [by eexists|].
  destruct (o_windowed original && (length (o_deductions original) =? 0)%nat) eqn:Ewin; [by eexists|].
  rewrite (ci_prior _ _ Hinv). cbn [mbind result_bind].
  assert (Hdd : dd <> []).
  { intros Hdd. pose proof (Forall2_length _ _ _ (oo_reads Hok)) as Hlen.
    destruct (oo_sum Hok) as [[Hwin _]|Hsum].
    - rewrite Hwin, Hlen, Hdd in Ewin. done.
    - rewrite Hdd in Hsum. cbn in Hsum. pose proof (ci_wallet _ _ Hinv). lia. }
  pose proof (restoreDeductions_total now prior _ _ w (co_allocs s) (oo_reads Hok) (oo_ids Hok) ltac:(lia)) as Ht.
  destruct (restoreDeductions original now prior (o_deductions original) w (co_allocs s)) as [q|] eqn:Eq.
  - cbn [mbind result_bind].
    destruct (restoreDeductions_spec now prior _ _ w _ q (oo_reads Hok) ltac:(lia) Eq) as (H1 & _ & _).
    rewrite H1, restorePlan_sum, (dd_scale_sum _ _ Hinv Hdd), Z.min_l, Z.sub_diag by lia. by eexists.
  - discriminate Ht. intros k n Hin a Ha. split; [by eapply Hrev|by eapply (ci_allocs _ _ Hinv)].
Qed.

(** The store of an event's corrections over time: the event is recorded, corrected any
    number of times, and other writes leave what this event's deductions still account
    for in the allocations' consumed quantities. *)
Inductive correction_history : CorrectionStore -> Prop :=
  | history_recorded allocs :
      (forall id n a, (id, n) ∈ dd -> findAlloc id allocs = Some a -> n <= c_consumed a) ->
      correction_history {| co_allocs := allocs; co_events := [] |}
  | history_corrected s s' now input : correction_history s ->
      correct roundedShare original now input s = Ok s' -> correction_history s'
  | history_other_writes s allocs prior : correction_history s ->
      restoredEntries original (co_events s) = Ok prior ->
      (forall id n a, (id, n) ∈ dd -> findAlloc id allocs = Some a -> n - amountFor prior id <= c_consumed a) ->
      correction_history {| co_allocs := allocs; co_events := co_events s |}.

Lemma history_inv s : correction_history s -> exists prior, corrections_inv prior s.
Proof.
  induction 1 as [allocs Ha|s s' now input _ [prior IH] Hc|s allocs prior _ [prior' IH] Hp Ha].
  - exists []. constructor; try done.
    + unfold correctedQuantity. cbn. pose proof (oo_quantity Hok). lia.
    + unfold correctedWallet. cbn. pose proof (oo_wallet Hok). lia.
    + unfold correctedQuantity. cbn. pose proof (oo_quantity Hok). lia.
    + intros id n Hin. pose proof (oo_nonneg Hok) as Hnn. rewrite Forall_forall in Hnn.
      specialize (Hnn _ Hin). change (amountFor [] id) with 0. cbn in Hnn. lia.
    + intros _. unfold correctedWallet. cbn. clear. induction dd; cbn; lia.
    + intros id n a Hin Hf. specialize (Ha id n a Hin Hf). change (amountFor [] id) with 0. lia.
  - exact (proj1 (correct_inv now input prior s s' IH Hc)).
  - exists prior. rewrite (ci_prior _ _ IH) in Hp. injection Hp as <-. destruct IH. by constructor.
Qed.

Lemma correct_total now input q c s : correction_history s ->
  positiveDecimal input "quantity" 9 = Ok q -> positiveDecimal input "quantity" (o_meter_scale original) = Ok q ->
  decimalToUnits q 9 = Ok c -> c <= o_quantity original - correctedQuantity s ->
  (forall id n a, (id, n) ∈ dd -> findAlloc id (co_allocs s) = Some a -> revokedGrant (Some a) = false) ->
  exists s', correct roundedShare original now input s = Ok s' /\ correctedQuantity s' = correctedQuantity s + c.
Proof.
  intros Hh H9 Hq Hc Hle Hrev. destruct (history_inv s Hh) as [prior Hinv].
  destruct (requested_units input q Hq) as (c' & Hc' & Hpos). rewrite Hc in Hc'. injection Hc' as <-.
  pose proof (ci_wallet _ _ Hinv) as Hw. pose proof (oo_scale Hok) as Hs.
  destruct (walletUnits_bound c (o_quantity original - correctedQuantity s)
    (o_wallet_quantity original - correctedWallet s) Hpos ltac:(lia)) as [Hb _].
  destruct (reverse_total now prior s _ Hinv Hb Hrev) as [r Hr].
  unfold correct. rewrite H9, Hq. cbn [mbind result_bind].
  change (readCorrectedQuantity s) with (correctedQuantity s, correctedWallet s). cbv iota beta zeta.
  rewrite Hc. cbn [mbind result_bind]. rewrite (proj2 (Z.ltb_ge _ c)) by lia. cbn [throwWhen mbind result_bind].
  rewrite Hr. cbn [mbind result_bind]. rewrite units_roundtrip by lia. cbn [mbind result_bind].
  eexists. split; [done|]. unfold correctedQuantity. cbn. rewrite map_app, sumZ_app. cbn. lia.
Qed.
End Accounting.

(** C16: Corrections never give back more than was charged: over any sequence of accepted
    corrections of an event, interleaved with other writes, the quantity and the charge
    corrected stay within the event's; correcting all of the usage gives back all of the
    charge whatever the shares rounded to; each allocation gets back at most what the
    event took from it, and together exactly the corrected charge. *)
Theorem corrections_bounded roundedShare original dd s :
  (forall w c q s, 0 <= w -> 0 < c -> 0 < q -> 0 <= roundedShare w c q s) ->
  original_ok original dd -> correction_history roundedShare original dd s ->
  0 <= correctedQuantity s <= o_quantity original /\
  0 <= correctedWallet s <= o_wallet_quantity original /\
  (correctedQuantity s = o_quantity original -> correctedWallet s = o_wallet_quantity original) /\
  exists prior, restoredEntries original (co_events s) = Ok prior /\
    (forall id n, (id, n) ∈ dd -> 0 <= amountFor prior id <= n) /\
    (dd <> [] -> sumZ (map (fun p => amountFor prior (fst p)) dd) = correctedWallet s).
Proof.
  intros Hshare Hok Hh. destruct (history_inv roundedShare Hshare original dd Hok s Hh) as [prior []].
  repeat (split; [done|]). by exists prior.
Qed.

(** A correction within what remains always goes through: of an event whose
    allocations are not revoked operator grants, a positive quantity the meter records,
    up to the uncorrected rest, is accepted and recorded, never failing on its receipts. *)
Theorem correction_accepted roundedShare original dd now input q c s :
  (forall w c q s, 0 <= w -> 0 < c -> 0 < q -> 0 <= roundedShare w c q s) ->
  original_ok original dd -> correction_history roundedShare original dd s ->
  positiveDecimal input "quantity" 9 = Ok q -> positiveDecimal input "quantity" (o_meter_scale original) = Ok q ->
  decimalToUnits q 9 = Ok c -> c <= o_quantity original - correctedQuantity s ->
  (forall id n a, (id, n) ∈ dd -> findAlloc id (co_allocs s) = Some a -> revokedGrant (Some a) = false) ->
  exists s', correct roundedShare original now input s = Ok s' /\ correctedQuantity s' = correctedQuantity s + c.
Proof. intros Hshare Hok. by apply correct_total. Qed.

(** Half-up rounding, for concrete runs. *)
Definition halfUpShare (w c q s : Z) : Z := (2 * w * c + q) / (2 * q).

Lemma halfUpShare_nonneg w c q s : 0 <= w -> 0 < c -> 0 < q -> 0 <= halfUpShare w c q s.
Proof. intros. unfold halfUpShare. apply Z.div_pos; nia. Qed.

(** Three units metered for ten credits, six from one allocation and four from another. *)
Definition exampleOriginal : OriginalUsageRow :=
  {| o_meter_scale := 0; o_wallet_scale := 0; o_quantity := 3000000000; o_wallet_quantity := 10;
     o_deductions := [ {| de_allocationId := 1; de_quantity := js "6"; de_sourceKind := "purchase"; de_sourceKey := "a"; de_expiresAt := None |};
                       {| de_allocationId := 2; de_quantity := js "4"; de_sourceKind := "purchase"; de_sourceKey := "b"; de_expiresAt := None |} ];
     o_windowed := false |}.
Definition exampleCAlloc (id consumed : Z) : CAlloc :=
  {| c_id := id; c_consumed := consumed; c_operator := false; c_reversed_at := None; c_expires_at := None; c_resumable := false |}.
Definition exampleRecorded : CorrectionStore := {| co_allocs := [exampleCAlloc 1 6; exampleCAlloc 2 9]; co_events := [] |}.
Definition exampleCorrected : CorrectionStore :=
  Eval vm_compute in match correct halfUpShare exampleOriginal 0 (js "1") exampleRecorded with Ok s => s | Err _ => exampleRecorded end.

Lemma exampleOriginal_ok : original_ok exampleOriginal [(1, 6); (2, 4)].
Proof.
  constructor; cbn; try lia.
  - repeat constructor.
  - apply (bool_decide_unpack _). vm_compute. done.
  - repeat constructor; cbn; lia.
Qed.

Lemma exampleRecorded_history : correction_history halfUpShare exampleOriginal [(1, 6); (2, 4)] exampleRecorded.
Proof.
  apply history_recorded. intros id n a Hin Hf.
  apply elem_of_cons in Hin as [[= -> ->]|[[= -> ->]|Hin%elem_of_nil]%elem_of_cons]; [| |done];
    injection Hf as <-; cbn; lia.
Qed.

Lemma corrections_bounded_witness :
  correctedWallet exampleCorrected = 3 /\ 0 <= correctedWallet exampleCorrected <= 10.
Proof.
  split; [vm_compute; reflexivity|].
  apply (corrections_bounded halfUpShare exampleOriginal [(1, 6); (2, 4)] exampleCorrected
    halfUpShare_nonneg exampleOriginal_ok).
  apply (history_corrected _ _ _ exampleRecorded _ 0 (js "1") exampleRecorded_history). vm_compute. reflexivity.
Defined.

Lemma correction_accepted_witness :
  exists s', correct halfUpShare exampleOriginal 5 (js "2") exampleCorrected = Ok s' /\
    correctedQuantity s' = 1000000000 + 2000000000.
Proof.
  apply (correction_accepted halfUpShare exampleOriginal [(1, 6); (2, 4)] 5 (js "2") (js "2") 2000000000 exampleCorrected
    halfUpShare_nonneg exampleOriginal_ok); try (vm_compute; reflexivity).
  - apply (history_corrected _ _ _ exampleRecorded _ 0 (js "1") exampleRecorded_history). vm_compute. reflexivity.
  - vm_compute. discriminate.
  - intros id n a Hin Hf.
    apply elem_of_cons in Hin as [[= -> ->]|[[= -> ->]|Hin%elem_of_nil]%elem_of_cons]; [| |done];
      injection Hf as <-; reflexivity.
Defined.
