(* ===== verification/KeptLevels.v ===== *)
(** * Levels of non-consumable meters ([src/db/repository/kept-levels.ts])

    The statements that move a level to the incoming version's allowance at a plan
    switch, and that shrink what a switch kept back as the level falls. *)
From S2P Require Import Prelude JsDate Cadence.

(** The allowances that hold one level together. *)
Record LevelGroup := { g_subscription : Z; g_plan_item : Z; g_feature : Z; g_entity : option Z }.
#[export] Instance level_group_eq_dec : EqDecision LevelGroup. Proof. solve_decision. Defined.

Record LevelAllocation := {
  v_id : Z; v_group : LevelGroup; v_from_subscription : bool (* [source_kind = 'subscription'] *);
  v_non_consumable : bool (* [feature.meter_kind = 'non_consumable'] *);
  v_quantity : Z; v_consumed : Z; v_held : Z; v_reversed : Z;
  v_reversed_at : option Z; v_expires_at : option Z; v_period_start_at : option Z; v_period_end_at : option Z }.

(** An allocation item of a plan version: at most one per feature.  [pi_lifetime] is the
    answer of [lifetimeItemSql]: it grants once for life. *)
Record PlanItem := {
  pi_id : Z; pi_feature : Z; pi_entity_scope : bool; pi_quantity : Z; pi_lifetime : bool;
  pi_resets : bool (* [reset_interval IS NOT NULL] *);
  pi_expiry_interval : option Cadence; pi_expires_after_seconds : option Z }.

Definition v_level (r : LevelAllocation) : Z := v_consumed r + v_held r.
Definition v_floor (r : LevelAllocation) : Z := v_level r + v_reversed r.
Definition v_room (r : LevelAllocation) : Z := v_quantity r - v_floor r.

Definition with_quantity (r : LevelAllocation) (quantity : Z) : LevelAllocation :=
  {| v_id := v_id r; v_group := v_group r; v_from_subscription := v_from_subscription r;
     v_non_consumable := v_non_consumable r; v_quantity := quantity; v_consumed := v_consumed r; v_held := v_held r;
     v_reversed := v_reversed r; v_reversed_at := v_reversed_at r; v_expires_at := v_expires_at r;
     v_period_start_at := v_period_start_at r; v_period_end_at := v_period_end_at r |}.

Definition live (now : Z) (r : LevelAllocation) : bool :=
  match v_reversed_at r with Some _ => false | None => true end &&
  match v_expires_at r with Some e => now <? e | None => true end.

(** ** Keeping levels at a switch *)

(** [expiresAtSql], in its application form: a period start and an expiry of at most ten
    years stay within the range of dates. *)
Definition storedExpiresAt (anchor : Z) (item : PlanItem) : option Z :=
  match pi_expiry_interval item, pi_expires_after_seconds item with
  | Some c, _ => addCadence anchor c 1 (getUTCDate anchor)
  | None, Some seconds => Some (anchor + Z.min seconds maxExpirySeconds * 1000)
  | None, None => None
  end.

(** The [expires_at] of the update. *)
Definition keptExpiresAt (item : PlanItem) (periodStart : Z) (periodEnd : option Z) : option Z :=
  match storedExpiresAt periodStart item, periodEnd with
  | Some e, Some p => Some (Z.min p e)
  | Some e, None => Some e
  | None, _ => if pi_resets item then periodEnd else None
  end.

(** [ORDER BY level DESC, id] *)
Definition higherLevel (l r : LevelAllocation) : bool :=
  if v_level l =? v_level r then v_id l <? v_id r else v_level r <? v_level l.

Definition groupLevel (rows : list LevelAllocation) : Z := sumZ (map v_level rows).

(** [rank = 1]: the first of the partition's order. *)
Definition isFirst (rows : list LevelAllocation) (r : LevelAllocation) : bool :=
  match sortBy higherLevel rows with x :: _ => v_id x =? v_id r | [] => false end.

Definition keptQuantity (itemQuantity : Z) (rows : list LevelAllocation) (r : LevelAllocation) : Z :=
  v_level r + v_reversed r + (if isFirst rows r then Z.max (itemQuantity - groupLevel rows) 0 else 0).

(** The [WHERE] of the update: who moves. *)
Definition moves (rows : list LevelAllocation) (r : LevelAllocation) : bool :=
  (0 <? groupLevel rows) && ((0 <? v_level r) || isFirst rows r).

(** A row moved to the incoming item; [rows] are its partition. *)
Definition moveTo (item : PlanItem) (periodStart : Z) (periodEnd : option Z) (rows : list LevelAllocation) (r : LevelAllocation)
  : LevelAllocation :=
  {| v_id := v_id r;
     v_group := {| g_subscription := g_subscription (v_group r); g_plan_item := pi_id item;
                   g_feature := g_feature (v_group r); g_entity := g_entity (v_group r) |};
     v_from_subscription := v_from_subscription r; v_non_consumable := v_non_consumable r;
     v_quantity := keptQuantity (pi_quantity item) rows r; v_consumed := v_consumed r; v_held := v_held r;
     v_reversed := v_reversed r; v_reversed_at := v_reversed_at r;
     v_expires_at := keptExpiresAt item periodStart periodEnd; v_period_start_at := Some periodStart;
     v_period_end_at := if pi_lifetime item then None else periodEnd |}.

(** A switch of one subscription: its outgoing version's items, by id, and the incoming
    version's allocation items that are not granted per reset window inside the period. *)
Record Switch := {
  sw_subscription : Z; sw_outgoing : list Z; sw_incoming : list PlanItem;
  sw_periodStart : Z; sw_periodEnd : option Z; sw_now : Z }.

(** The incoming item of a row's feature, in the row's scope. *)
Definition incomingItem (sw : Switch) (r : LevelAllocation) : option PlanItem :=
  List.find (fun item => (pi_feature item =? g_feature (v_group r)) &&
    Bool.eqb (pi_entity_scope item) (bool_decide (is_Some (g_entity (v_group r))))) (sw_incoming sw).

(** A row of [levels]. *)
Definition holdsLevel (sw : Switch) (r : LevelAllocation) : bool :=
  (g_subscription (v_group r) =? sw_subscription sw) && v_from_subscription r && live (sw_now sw) r &&
  existsb (fun id => id =? g_plan_item (v_group r)) (sw_outgoing sw) && v_non_consumable r.

Definition samePartition (l r : LevelAllocation) : bool :=
  (g_feature (v_group l) =? g_feature (v_group r)) && bool_decide (g_entity (v_group l) = g_entity (v_group r)).

(** The partition of a row: the levels of its feature and entity. *)
Definition levelsOf (sw : Switch) (rows : list LevelAllocation) (r : LevelAllocation) : list LevelAllocation :=
  List.filter (fun x => holdsLevel sw x && samePartition r x) rows.

Definition keepNonConsumableLevels (sw : Switch) (rows : list LevelAllocation) : list LevelAllocation :=
  map (fun r =>
    match incomingItem sw r with
    | Some item =>
        let levels := levelsOf sw rows r in
        if holdsLevel sw r && moves levels r then moveTo item (sw_periodStart sw) (sw_periodEnd sw) levels r else r
    | None => r
    end) rows.

(** ** Shrinking kept levels *)

(** [ORDER BY quantity - floor DESC, id DESC] *)
Definition moreRoom (l r : LevelAllocation) : bool :=
  if v_room l =? v_room r then v_id r <? v_id l else v_room r <? v_room l.

(** The room of the rows before [id] in the window's order. *)
Fixpoint roomBefore (ordered : list LevelAllocation) (id : Z) : Z :=
  match ordered with
  | [] => 0
  | r :: ordered' => if v_id r =? id then 0 else v_room r + roomBefore ordered' id
  end.

Section Shrink.
Context (itemOf : Z -> PlanItem) (now : Z).

Definition member (k : LevelGroup) (r : LevelAllocation) : bool :=
  v_from_subscription r && live now r && v_non_consumable r && bool_decide (v_group r = k).

Definition members (k : LevelGroup) (rows : list LevelAllocation) : list LevelAllocation :=
  List.filter (member k) rows.

Definition excess (k : LevelGroup) (ms : list LevelAllocation) : Z :=
  sumZ (map v_quantity ms) - Z.max (pi_quantity (itemOf (g_plan_item k))) (sumZ (map v_floor ms)).

(** [lifetimeItem AND period_end_at IS NOT NULL], of any member *)
Definition stacked (k : LevelGroup) (ms : list LevelAllocation) : bool :=
  pi_lifetime (itemOf (g_plan_item k)) &&
  existsb (fun r => match v_period_end_at r with Some _ => true | None => false end) ms.

Definition shrinks (k : LevelGroup) (ms : list LevelAllocation) : bool :=
  (0 <? excess k ms) && ((length ms =? 1)%nat || negb (stacked k ms)).

Definition taken (k : LevelGroup) (ms : list LevelAllocation) (r : LevelAllocation) : Z :=
  Z.min (v_room r) (Z.max (excess k ms - roomBefore (sortBy moreRoom ms) (v_id r)) 0).

Definition touched (ids : list Z) (rows : list LevelAllocation) (k : LevelGroup) : bool :=
  existsb (fun r => existsb (fun id => id =? v_id r) ids && v_from_subscription r && bool_decide (v_group r = k)) rows.

Definition shrinkKeptLevels (ids : list Z) (rows : list LevelAllocation) : list LevelAllocation :=
  map (fun r =>
    let k := v_group r in
    let ms := members k rows in
    if touched ids rows k && member k r && shrinks k ms && (0 <? taken k ms r)
    then with_quantity r (v_quantity r - taken k ms r) else r) rows.
End Shrink.

(** ** What a switch keeps *)

Lemma first_unique rows : rows <> [] -> NoDup (map v_id rows) ->
  exists x, x ∈ rows /\ (forall r, isFirst rows r = (v_id x =? v_id r)) /\ (forall r, r ∈ rows -> v_level r <= v_level x).
Proof.
  intros Hne Hnd. unfold isFirst. pose proof (sortBy_perm higherLevel rows) as Hp.
  assert (Hs : StronglySorted (inOrder higherLevel) (sortBy higherLevel rows)).
  { apply sortBy_sorted; unfold inOrder, higherLevel.
    - intros l r H. rewrite (Z.eqb_sym (v_level r)). destruct (Z.eqb_spec (v_level l) (v_level r)); bool_to_prop;
        [apply Z.ltb_ge; lia|apply Z.ltb_ge; lia].
    - intros a b c H1 H2. destruct (Z.eqb_spec (v_level b) (v_level a)), (Z.eqb_spec (v_level c) (v_level b)),
        (Z.eqb_spec (v_level c) (v_level a)); rewrite ?Z.ltb_ge in *; lia. }
  destruct (sortBy higherLevel rows) as [|x l] eqn:E; [apply Permutation_nil in Hp; by subst|].
  exists x. split; [rewrite <- Hp; by constructor|]. split; [done|]. intros r Hr. rewrite <- Hp in Hr.
  apply elem_of_cons in Hr as [->|Hr]; [done|]. apply StronglySorted_inv in Hs as [_ Hs].
  rewrite Forall_forall in Hs. specialize (Hs r Hr). unfold inOrder, higherLevel in Hs.
  destruct (Z.eqb_spec (v_level r) (v_level x)); [lia|]. apply Z.ltb_ge in Hs. lia.
Qed.

Lemma sum_first (f : LevelAllocation -> Z) rows x n : NoDup (map v_id rows) -> x ∈ rows ->
  sumZ (map (fun r => f r + (if v_id x =? v_id r then n else 0)) rows) = sumZ (map f rows) + n.
Proof.
  intros Hnd Hx. rewrite sumZ_map_add. f_equal. revert Hnd Hx.
  induction rows as [|r rows IH]; intros Hnd Hx; [by apply elem_of_nil in Hx|]. cbn [map sumZ] in *.
  apply NoDup_cons in Hnd as [Hr Hnd]. apply elem_of_cons in Hx as [<-|Hx].
  - rewrite Z.eqb_refl. enough (sumZ (map (fun r => if v_id x =? v_id r then n else 0) rows) = 0) by lia.
    clear -Hr. induction rows as [|r rows IH]; [done|]. cbn [map sumZ] in *. apply not_elem_of_cons in Hr as [Hne Hr].
    rewrite (proj2 (Z.eqb_neq _ _) Hne). by apply IH.
  - rewrite IH by done. rewrite (proj2 (Z.eqb_neq _ _)); [lia|]. intros Heq. apply Hr. rewrite <- Heq. by apply list_elem_of_fmap_2.
Qed.

(** What a row grants: its quantity less what was reversed. *)
Definition v_granted (r : LevelAllocation) : Z := v_quantity r - v_reversed r.

(** The rows a switch put on the incoming item, of one feature and entity. *)
Definition onItem (item : PlanItem) (x : LevelAllocation) (rows : list LevelAllocation) : list LevelAllocation :=
  List.filter (fun r => (g_plan_item (v_group r) =? pi_id item) && samePartition x r) rows.

Lemma samePartition_group x r : samePartition x r = true ->
  g_feature (v_group r) = g_feature (v_group x) /\ g_entity (v_group r) = g_entity (v_group x).
Proof. unfold samePartition. intros [H1%Z.eqb_eq H2%bool_decide_eq_true_1]%andb_prop. done. Qed.

Lemma incoming_rows sw item x rows : Forall (fun r => g_plan_item (v_group r) <> pi_id item) rows ->
  incomingItem sw x = Some item ->
  onItem item x (keepNonConsumableLevels sw rows)
    = map (moveTo item (sw_periodStart sw) (sw_periodEnd sw) (levelsOf sw rows x))
        (List.filter (moves (levelsOf sw rows x)) (levelsOf sw rows x)).
Proof.
  intros H Hitem. set (ms := levelsOf sw rows x).
  assert (Hsame : forall r, samePartition x r = true -> incomingItem sw r = Some item /\ levelsOf sw rows r = ms).
  { intros r Hr. pose proof (samePartition_group x r Hr) as [Hf He]. split; [unfold incomingItem; by rewrite Hf, He|].
    subst ms. unfold levelsOf. apply List.filter_ext. intros y. unfold samePartition. by rewrite Hf, He. }
  assert (Hother : forall r i l, samePartition x (moveTo i (sw_periodStart sw) (sw_periodEnd sw) l r) = samePartition x r) by done.
  unfold onItem, keepNonConsumableLevels. clearbody ms. subst.
  enough (Hsub : forall ls, (forall r, r ∈ ls -> g_plan_item (v_group r) <> pi_id item) ->
    List.filter (fun r => (g_plan_item (v_group r) =? pi_id item) && samePartition x r)
      (map (fun r => match incomingItem sw r with
         | Some i => if holdsLevel sw r && moves (levelsOf sw rows r) r
                     then moveTo i (sw_periodStart sw) (sw_periodEnd sw) (levelsOf sw rows r) r else r
         | None => r end) ls)
    = map (moveTo item (sw_periodStart sw) (sw_periodEnd sw) ms)
        (List.filter (moves ms) (List.filter (fun y => holdsLevel sw y && samePartition x y) ls))).
  { rewrite Forall_forall in H. rewrite (Hsub rows H). destruct (Hsame x) as [_ Hms].
    { unfold samePartition. rewrite Z.eqb_refl. by apply bool_decide_eq_true_2. } by rewrite <- Hms. }
  induction ls as [|r ls IH]; intros Hne; [done|]. cbn [map List.filter]. rewrite IH by (intros; apply Hne; by right).
  assert (Hstay : g_plan_item (v_group r) =? pi_id item = false) by (apply Z.eqb_neq, Hne; by left).
  destruct (samePartition x r) eqn:E.
  - destruct (Hsame r E) as [-> ->]. rewrite andb_true_r. destruct (holdsLevel sw r); cbn [andb List.filter]; [|by rewrite Hstay].
    destruct (moves ms r); [|by rewrite Hstay]. cbn [map]. rewrite Hother, E. cbn [moveTo v_group g_plan_item]. by rewrite Z.eqb_refl.
  - rewrite andb_false_r. destruct (incomingItem sw r); [destruct (holdsLevel sw r && moves (levelsOf sw rows r) r)|];
      rewrite ?Hother, E, andb_false_r; done.
Qed.

Lemma sum_filter (f : LevelAllocation -> Z) p rows : (forall r, r ∈ rows -> p r = false -> f r = 0) ->
  sumZ (map f (List.filter p rows)) = sumZ (map f rows).
Proof.
  induction rows as [|r l IH]; intros H; [done|]. cbn [List.filter map sumZ].
  destruct (p r) eqn:E; cbn [map sumZ]; rewrite IH by (intros; apply H; [by right|done]); [done|].
  rewrite (H r ltac:(by left) E). done.
Qed.

Lemma NoDup_filter_ids (p : LevelAllocation -> bool) rows : NoDup (map v_id rows) -> NoDup (map v_id (List.filter p rows)).
Proof.
  induction rows as [|r l IH]; intros Hnd; [constructor|]. cbn [map List.filter] in *. apply NoDup_cons in Hnd as [Hr Hnd].
  destruct (p r); [|by apply IH]. cbn [map]. apply NoDup_cons. split; [|by apply IH].
  intros (x & Heq & Hx)%list_elem_of_fmap. apply Hr. apply list_elem_of_In, filter_In in Hx as [Hx _]. rewrite Heq.
  apply list_elem_of_fmap_2. by apply list_elem_of_In.
Qed.

(** What one partition grants once its rows have moved. *)
Lemma moved_level item periodStart periodEnd rows :
  NoDup (map v_id rows) -> Forall (fun r => 0 <= v_consumed r /\ 0 <= v_held r) rows ->
  let incoming := map (moveTo item periodStart periodEnd rows) (List.filter (moves rows) rows) in
  (groupLevel rows = 0 -> incoming = []) /\
  (0 < groupLevel rows -> sumZ (map v_granted incoming) = Z.max (pi_quantity item) (groupLevel rows)) /\
  groupLevel incoming = groupLevel rows /\
  Forall (fun r => v_level r <= v_granted r) incoming /\
  (forall a b, a ∈ incoming -> b ∈ incoming -> 0 < v_room a -> 0 < v_room b -> v_id a = v_id b).
Proof.
  intros Hnd Hnn incoming. subst incoming.
  assert (Hlevels : Forall (fun r => 0 <= v_level r) rows) by (eapply Forall_impl; [exact Hnn|]; unfold v_level; cbn; lia).
  assert (Hg : 0 <= groupLevel rows) by by apply sumZ_nonneg, Forall_map.
  destruct (decide (rows = [])) as [->|Hne].
  { cbn. split; [done|]. split; [lia|]. split; [done|]. split; [constructor|]. intros a b H. by apply elem_of_nil in H. }
  destruct (first_unique rows Hne Hnd) as (x & Hx & Hfirst & Hmax).
  set (n := Z.max (pi_quantity item - groupLevel rows) 0).
  assert (Hk : forall r, v_granted (moveTo item periodStart periodEnd rows r) = v_level r + (if v_id x =? v_id r then n else 0)).
  { intros r. unfold v_granted. cbn [moveTo v_quantity v_reversed]. unfold keptQuantity. rewrite Hfirst.
    fold n. lia. }
  assert (Hstay : forall r, r ∈ rows -> moves rows r = false -> v_level r = 0 /\ (0 < groupLevel rows -> (v_id x =? v_id r) = false)).
  { intros r Hr Hm. unfold moves in Hm. rewrite Hfirst in Hm. rewrite Forall_forall in Hlevels. pose proof (Hlevels r Hr).
    destruct (Z.ltb_spec 0 (groupLevel rows)) as [Hpos|Hzero].
    - apply orb_false_elim in Hm as [Hm ->]. apply Z.ltb_ge in Hm. split; [lia|done].
    - split; [|lia]. pose proof (sumZ_member_le v_level rows r (proj2 (Forall_forall _ _) Hlevels) Hr). unfold groupLevel in *. lia. }
  split; [|split; [|split; [|split] ] ].
  - intros H0. rewrite filter_none; [done|]. intros r _. unfold moves. by rewrite H0.
  - intros Hpos. rewrite map_map, (map_ext _ _ Hk), sum_filter, (sum_first v_level rows x n Hnd Hx).
    + unfold n, groupLevel. lia.
    + intros r Hr Hm. destruct (Hstay r Hr Hm) as [-> ->]; [done|lia].
  - unfold groupLevel at 1. rewrite map_map. change (sumZ (map v_level (List.filter (moves rows) rows)) = groupLevel rows).
    apply sum_filter. intros r Hr Hm. by apply Hstay.
  - apply Forall_map, Forall_forall. intros r _. rewrite Hk. change (v_level (moveTo _ _ _ _ r)) with (v_level r).
    unfold n. destruct (v_id x =? v_id r); lia.
  - assert (Hroom : forall c, c ∈ map (moveTo item periodStart periodEnd rows) (List.filter (moves rows) rows) -> 0 < v_room c -> v_id c = v_id x).
    { intros c Hc Hr. apply list_elem_of_fmap in Hc as (r & -> & _). pose proof (Hk r) as H. unfold v_granted in H.
      unfold v_room, v_floor in Hr. change (v_level (moveTo item periodStart periodEnd rows r)) with (v_level r) in Hr.
      destruct (Z.eqb_spec (v_id x) (v_id r)) as [Heq|]; [by rewrite Heq|lia]. }
    intros a b Ha Hb HA HB. by rewrite (Hroom a Ha HA), (Hroom b Hb HB).
Qed.

(** At a switch the live allowances of a level grant the larger of the incoming
    allowance and the level, once: the rows moved to the incoming item hold the whole
    level, grant exactly that much together, none grants less than it holds, at most one
    has room, and a group at level zero ends with the outgoing version. *)
Theorem switch_keeps_level sw item x rows :
  NoDup (map v_id rows) -> Forall (fun r => 0 <= v_consumed r /\ 0 <= v_held r) rows ->
  Forall (fun r => g_plan_item (v_group r) <> pi_id item) rows -> incomingItem sw x = Some item ->
  let level := groupLevel (levelsOf sw rows x) in
  let incoming := onItem item x (keepNonConsumableLevels sw rows) in
  (level = 0 -> incoming = []) /\
  (0 < level -> sumZ (map v_granted incoming) = Z.max (pi_quantity item) level) /\
  groupLevel incoming = level /\
  Forall (fun r => v_level r <= v_granted r) incoming /\
  (forall a b, a ∈ incoming -> b ∈ incoming -> 0 < v_room a -> 0 < v_room b -> v_id a = v_id b).
Proof.
  intros Hnd Hnn Hitem Hx level incoming. unfold incoming. rewrite (incoming_rows sw item x rows Hitem Hx).
  subst level. apply moved_level.
  - by apply NoDup_filter_ids.
  - apply Forall_forall. intros r Hr. apply list_elem_of_In, filter_In in Hr as [Hr _].
    rewrite Forall_forall in Hnn. by apply Hnn, list_elem_of_In.
Qed.

(** ** What a shrink takes *)

Lemma roomBefore_app pre r post : NoDup (map v_id (pre ++ r :: post)) ->
  roomBefore (pre ++ r :: post) (v_id r) = sumZ (map v_room pre).
Proof.
  induction pre as [|p pre IH]; cbn; intros Hnd; [by rewrite Z.eqb_refl|]. apply NoDup_cons in Hnd as [Hp Hnd].
  rewrite (proj2 (Z.eqb_neq _ _)), IH; [done|done|]. intros Heq. apply Hp. rewrite Heq, map_app.
  apply elem_of_app. right. by constructor.
Qed.

Definition positiveRoom (l : list LevelAllocation) : Z := sumZ (map (fun r => Z.max 0 (v_room r)) l).

(** Taking the excess from the rooms in order takes all of it, while there is room. *)
Lemma taken_total e pre post : NoDup (map v_id (pre ++ post)) -> StronglySorted (inOrder moreRoom) post ->
  sumZ (map (fun r => Z.max 0 (Z.min (v_room r) (Z.max (e - roomBefore (pre ++ post) (v_id r)) 0))) post)
    = Z.min (Z.max (e - sumZ (map v_room pre)) 0) (positiveRoom post).
Proof.
  revert pre. induction post as [|r post IH]; intros pre Hnd Hs; [cbn; lia|].
  apply StronglySorted_inv in Hs as [Hs Hr]. cbn [map sumZ]. rewrite roomBefore_app by done.
  replace (pre ++ r :: post) with ((pre ++ [r]) ++ post) by by rewrite <- app_assoc.
  rewrite IH; [|by rewrite <- app_assoc|done]. rewrite map_app, sumZ_app. cbn [map sumZ].
  unfold positiveRoom. cbn [map sumZ]. fold (positiveRoom post).
  assert (Hpos : 0 <= positiveRoom post) by (apply sumZ_nonneg, Forall_map, Forall_forall; intros; lia).
  destruct (Z.ltb_spec 0 (v_room r)) as [Hroom|Hroom]; [lia|].
  assert (Hz : positiveRoom post = 0); [|lia].
  transitivity (sumZ (map (fun _ : LevelAllocation => 0) post)); [|clear; induction post; cbn; lia].
  unfold positiveRoom. f_equal. apply map_ext_in. intros x Hx. rewrite Forall_forall in Hr.
  specialize (Hr x (proj2 (list_elem_of_In _ _) Hx)). unfold inOrder, moreRoom in Hr.
  destruct (Z.eqb_spec (v_room x) (v_room r)); [lia|]. apply Z.ltb_ge in Hr. lia.
Qed.

Lemma moreRoom_sorted l : StronglySorted (inOrder moreRoom) (sortBy moreRoom l).
Proof.
  apply sortBy_sorted; unfold inOrder, moreRoom.
  - intros a b H. rewrite (Z.eqb_sym (v_room b)). destruct (Z.eqb_spec (v_room a) (v_room b)); bool_to_prop;
      apply Z.ltb_ge; lia.
  - intros a b c H1 H2. destruct (Z.eqb_spec (v_room b) (v_room a)), (Z.eqb_spec (v_room c) (v_room b)),
      (Z.eqb_spec (v_room c) (v_room a)); rewrite ?Z.ltb_ge in *; lia.
Qed.

Section ShrinkFacts.
Context (itemOf : Z -> PlanItem) (now : Z).

Lemma excess_taken k ms : NoDup (map v_id ms) -> 0 <= excess itemOf k ms ->
  sumZ (map (fun r => Z.max 0 (taken itemOf k ms r)) ms) = excess itemOf k ms.
Proof.
  intros Hnd He. pose proof (sortBy_perm moreRoom ms) as Hp. unfold taken.
  rewrite (sumZ_perm _ (map (fun r => Z.max 0 (Z.min (v_room r)
    (Z.max (excess itemOf k ms - roomBefore ([] ++ sortBy moreRoom ms) (v_id r)) 0))) (sortBy moreRoom ms)))
    by (apply Permutation_map; by symmetry).
  rewrite taken_total; [|cbn [app]; by rewrite Hp|apply moreRoom_sorted]. cbn [map sumZ].
  replace (positiveRoom (sortBy moreRoom ms)) with (positiveRoom ms) by (apply sumZ_perm, Permutation_map; by symmetry).
  assert (Hroom : sumZ (map v_room ms) <= positiveRoom ms) by (apply sumZ_map_le; intros; lia).
  assert (Hsum : sumZ (map v_room ms) = sumZ (map v_quantity ms) - sumZ (map v_floor ms)).
  { clear. induction ms as [|r ms IH]; [done|]. cbn [map sumZ]. rewrite IH. unfold v_room. lia. }
  unfold excess in *. lia.
Qed.

(** What the statement does to one row. *)
Definition shrunk (ids : list Z) (rows : list LevelAllocation) (r : LevelAllocation) : LevelAllocation :=
  let k := v_group r in
  let ms := members now k rows in
  if touched ids rows k && member now k r && shrinks itemOf k ms && (0 <? taken itemOf k ms r)
  then with_quantity r (v_quantity r - taken itemOf k ms r) else r.

Lemma shrunk_same ids rows r : with_quantity (shrunk ids rows r) (v_quantity r) = r.
Proof. unfold shrunk. destruct r. by destruct (_ && _ && _ && _). Qed.

Lemma shrunk_member ids rows k r : member now k (shrunk ids rows r) = member now k r.
Proof. unfold shrunk. destruct (_ && _ && _ && _); [|done]. by destruct r. Qed.

Lemma members_shrunk ids rows k : members now k (shrinkKeptLevels itemOf now ids rows)
  = map (shrunk ids rows) (members now k rows).
Proof.
  unfold members, shrinkKeptLevels. fold (shrunk ids rows). generalize (shrunk_member ids rows k).
  change (fun r => let k0 := v_group r in let ms := List.filter (member now k0) rows in _) with (shrunk ids rows).
  generalize (shrunk ids rows) as f. intros f Hf. induction rows as [|r l IH]; [done|]. cbn [map List.filter].
  rewrite Hf. destruct (member now k r); cbn [map]; by rewrite IH.
Qed.
End ShrinkFacts.

(** Shrinking gives back exactly what a switch kept too much: a touched group ends
    granting the larger of its item's quantity and what it holds, or what it granted if
    that was less; groups stacked by renewals and groups no write touched keep what they
    grant; no row grows, and none drops below what it holds. *)
Theorem shrink_to_level itemOf now ids rows k :
  NoDup (map v_id rows) ->
  let before := members now k rows in
  let after := members now k (shrinkKeptLevels itemOf now ids rows) in
  sumZ (map v_quantity after) =
    (if touched ids rows k && ((length before =? 1)%nat || negb (stacked itemOf k before))
     then Z.min (sumZ (map v_quantity before))
            (Z.max (pi_quantity (itemOf (g_plan_item k))) (sumZ (map v_floor before)))
     else sumZ (map v_quantity before)) /\
  Forall2 (fun r r' => r = with_quantity r' (v_quantity r) /\
    Z.min (v_quantity r) (v_floor r) <= v_quantity r' <= v_quantity r) rows (shrinkKeptLevels itemOf now ids rows).
Proof.
  intros Hnd before after. split.
  - unfold after. rewrite members_shrunk, map_map. fold before.
    assert (Hb : NoDup (map v_id before)) by by apply NoDup_filter_ids.
    assert (Hrow : forall r, r ∈ before -> v_quantity (shrunk itemOf now ids rows r) = v_quantity r -
      (if touched ids rows k && shrinks itemOf k before then Z.max 0 (taken itemOf k before r) else 0)).
    { intros r Hr. apply list_elem_of_In, filter_In in Hr as [_ Hm]. pose proof Hm as Hm'. unfold member in Hm'.
      apply andb_prop in Hm' as [_ Hk%bool_decide_eq_true_1]. unfold shrunk. rewrite Hk, Hm. fold before.
      rewrite andb_true_r. destruct (touched ids rows k && shrinks itemOf k before); cbn [andb]; [|lia].
      destruct (Z.ltb_spec 0 (taken itemOf k before r)); cbn [v_quantity with_quantity]; lia. }
    rewrite (map_ext_in _ (fun r => v_quantity r -
      (if touched ids rows k && shrinks itemOf k before then Z.max 0 (taken itemOf k before r) else 0)))
      by (intros r Hr; apply Hrow; by apply list_elem_of_In).
    assert (Hsub : forall f : LevelAllocation -> Z, sumZ (map (fun r => v_quantity r - f r) before)
      = sumZ (map v_quantity before) - sumZ (map f before)).
    { intros f. clear. induction before as [|r l IH]; [done|]. cbn [map sumZ]. rewrite IH. lia. }
    rewrite Hsub. unfold shrinks.
    assert (Hzero : sumZ (map (fun _ : LevelAllocation => 0) before) = 0) by (clear; induction before; cbn; lia).
    assert (Hexc : excess itemOf k before = sumZ (map v_quantity before)
      - Z.max (pi_quantity (itemOf (g_plan_item k))) (sumZ (map v_floor before))) by done.
    destruct (touched ids rows k); cbn [andb]; [|rewrite Hzero; lia].
    destruct ((length before =? 1)%nat || negb (stacked itemOf k before)); [|rewrite andb_false_r, Hzero; lia].
    rewrite andb_true_r. destruct (Z.ltb_spec 0 (excess itemOf k before)); [rewrite excess_taken by (done || lia); lia|].
    rewrite Hzero. lia.
  - apply Forall2_fmap_r, Forall_Forall2_diag, Forall_forall. intros r _.
    change (r = with_quantity (shrunk itemOf now ids rows r) (v_quantity r) /\
      Z.min (v_quantity r) (v_floor r) <= v_quantity (shrunk itemOf now ids rows r) <= v_quantity r).
    split; [by rewrite shrunk_same|]. unfold shrunk. destruct (_ && _ && _ && _) eqn:E; [|lia].
    apply andb_prop in E as [_ E%Z.ltb_lt]. cbn [v_quantity with_quantity]. unfold taken in *. unfold v_room in *. lia.
Qed.

(** Two allowances of one item, kept at a switch to an item of five. *)
Definition exampleLevel (id consumed quantity : Z) : LevelAllocation :=
  {| v_id := id; v_group := {| g_subscription := 1; g_plan_item := 1; g_feature := 1; g_entity := None |};
     v_from_subscription := true; v_non_consumable := true; v_quantity := quantity; v_consumed := consumed; v_held := 0;
     v_reversed := 0; v_reversed_at := None; v_expires_at := None; v_period_start_at := None; v_period_end_at := None |}.
Definition exampleItem : PlanItem :=
  {| pi_id := 2; pi_feature := 1; pi_entity_scope := false; pi_quantity := 5; pi_lifetime := true; pi_resets := false;
     pi_expiry_interval := None; pi_expires_after_seconds := None |}.
Definition exampleSwitch : Switch :=
  {| sw_subscription := 1; sw_outgoing := [1]; sw_incoming := [exampleItem]; sw_periodStart := 0; sw_periodEnd := None;
     sw_now := 0 |}.

Lemma switch_keeps_level_witness :
  let rows := [exampleLevel 1 3 10; exampleLevel 2 4 10; exampleLevel 3 0 10] in
  let x := exampleLevel 1 3 10 in
  let incoming := onItem exampleItem x (keepNonConsumableLevels exampleSwitch rows) in
  map v_quantity incoming = [3; 4] /\
  (0 < groupLevel (levelsOf exampleSwitch rows x) -> sumZ (map v_granted incoming) = Z.max 5 7) /\
  groupLevel incoming = 7.
Proof.
  intros rows x incoming.
  destruct (switch_keeps_level exampleSwitch exampleItem x rows) as (_ & H2 & H3 & _).
  - apply (bool_decide_unpack _). vm_compute. done.
  - repeat constructor; cbn; lia.
  - repeat constructor; cbn; lia.
  - vm_compute. reflexivity.
  - split; [vm_compute; reflexivity|]. split; [exact H2|exact H3].
Defined.

Lemma shrink_to_level_witness :
  let rows := [exampleLevel 1 3 10; exampleLevel 2 4 4] in
  sumZ (map v_quantity (members 0 (v_group (exampleLevel 1 3 10))
    (shrinkKeptLevels (fun _ => exampleItem) 0 [2] rows))) = 7.
Proof.
  intros rows.
  destruct (shrink_to_level (fun _ => exampleItem) 0 [2] rows (v_group (exampleLevel 1 3 10))) as [H _].
  - apply (bool_decide_unpack _). vm_compute. done.
  - rewrite H. vm_compute. reflexivity.
Defined.
