(* ===== verification/Workers.v ===== *)
(** * Retries and leases of the workers ([src/workers/backoff.ts],
    [src/workers/job-leases.ts])

    When a failed job runs again, and the ownership checks that let a worker act on a job
    it claimed. *)
From S2P Require Import Prelude JsDate.

(** ** Backoff *)

Definition ONE_MINUTE_MS : Z := 60000.
Definition MAX_DELAY_MS : Z := 24 * 60 * 60 * 1000.

(** [2 ** attempts] is exact as a number up to 2^1023 and infinite beyond, where the
    minimum is the longest delay as well. *)
Definition backoffMs (attempts : Z) : Z := Z.min MAX_DELAY_MS (ONE_MINUTE_MS * 2 ^ attempts).

Definition calculateNextAttemptAt (attempts maxAttempts now jitterMs : Z) : option Z :=
  if maxAttempts <=? attempts + 1 then None else Some (now + backoffMs attempts + jitterMs).

Definition calculateNextRetryAt (attempts maxAttempts now jitterMs : Z) : Z :=
  match calculateNextAttemptAt attempts maxAttempts now jitterMs with
  | Some t => t
  | None => now + MAX_DELAY_MS + jitterMs
  end.

Definition calculateRetryDelayMs (attempts maxAttempts jitterMs : Z) : option Z :=
  if maxAttempts <=? attempts + 1 then None else Some (backoffMs attempts + jitterMs).

Definition calculateNextRetryDelayMs (attempts maxAttempts jitterMs : Z) : Z :=
  match calculateRetryDelayMs attempts maxAttempts jitterMs with
  | Some d => d
  | None => MAX_DELAY_MS + jitterMs
  end.

(** A job retried until it is given up: the delays of its failures, [fuel] at most. *)
Fixpoint retrySchedule (fuel : nat) (attempts maxAttempts : Z) (jitter : Z -> Z) : list Z :=
  match fuel with
  | O => []
  | S fuel =>
      match calculateRetryDelayMs attempts maxAttempts (jitter attempts) with
      | None => []
      | Some d => d :: retrySchedule fuel (attempts + 1) maxAttempts jitter
      end
  end.

Lemma backoff_bounds attempts : 0 <= attempts ->
  ONE_MINUTE_MS <= backoffMs attempts <= MAX_DELAY_MS /\
  backoffMs attempts <= backoffMs (attempts + 1) <= 2 * backoffMs attempts.
Proof.
  intros H. unfold backoffMs. rewrite Z.pow_add_r by lia. change (2 ^ 1) with 2.
  assert (1 <= 2 ^ attempts) by (pose proof (Z.pow_pos_nonneg 2 attempts); lia).
  change MAX_DELAY_MS with 86400000. change ONE_MINUTE_MS with 60000. lia.
Qed.

Lemma schedule_length fuel attempts maxAttempts jitter : 0 <= attempts ->
  maxAttempts - attempts <= Z.of_nat fuel ->
  Z.of_nat (length (retrySchedule fuel attempts maxAttempts jitter)) = Z.max 0 (maxAttempts - attempts - 1).
Proof.
  revert attempts. induction fuel as [|fuel IH]; intros attempts Ha Hf; cbn [retrySchedule]; [cbn; lia|].
  unfold calculateRetryDelayMs. destruct (Z.leb_spec maxAttempts (attempts + 1)); [cbn; lia|].
  cbn [length]. rewrite Nat2Z.inj_succ, IH by lia. lia.
Qed.

(** A job that keeps failing is retried exactly [maxAttempts - 1] times and then given
    up, whatever the jitter; each wait lies between one minute and one day, at most
    doubles, and never shortens but for the jitter; work that must not be given up on is
    retried at the same times and then once a day. *)
Theorem retries_bounded fuel maxAttempts jitter :
  (forall n, 0 <= jitter n < 1000) -> maxAttempts <= Z.of_nat fuel ->
  Z.of_nat (length (retrySchedule fuel 0 maxAttempts jitter)) = Z.max 0 (maxAttempts - 1) /\
  Forall (fun d => ONE_MINUTE_MS <= d < MAX_DELAY_MS + 1000) (retrySchedule fuel 0 maxAttempts jitter) /\
  (forall attempts now, 0 <= attempts ->
     let wait n := calculateNextRetryAt n maxAttempts now (jitter n) - now - jitter n in
     wait attempts <= wait (attempts + 1) /\
     (attempts + 2 < maxAttempts -> wait (attempts + 1) <= 2 * wait attempts) /\
     (maxAttempts <= attempts + 1 -> wait attempts = MAX_DELAY_MS) /\
     calculateNextRetryDelayMs attempts maxAttempts (jitter attempts) = wait attempts + jitter attempts).
Proof.
  intros Hj Hf. split; [rewrite schedule_length by lia; lia|]. split.
  - assert (H : forall attempts, 0 <= attempts ->
      Forall (fun d => ONE_MINUTE_MS <= d < MAX_DELAY_MS + 1000) (retrySchedule fuel attempts maxAttempts jitter)); [|by apply H].
    clear Hf. induction fuel as [|fuel IH]; intros attempts Ha; cbn [retrySchedule]; [constructor|].
    unfold calculateRetryDelayMs. destruct (maxAttempts <=? attempts + 1); [constructor|].
    constructor; [|apply IH; lia]. pose proof (backoff_bounds attempts Ha). pose proof (Hj attempts). lia.
  - intros attempts now Ha wait. pose proof (backoff_bounds attempts Ha) as [H1 H2]. pose proof (backoff_bounds (attempts + 1) ltac:(lia)) as [H3 _].
    subst wait. cbv beta. unfold calculateNextRetryDelayMs, calculateNextRetryAt, calculateNextAttemptAt, calculateRetryDelayMs.
    destruct (Z.leb_spec maxAttempts (attempts + 1)), (Z.leb_spec maxAttempts (attempts + 1 + 1)); lia.
Qed.

Lemma retries_bounded_witness :
  retrySchedule 5 0 4 (fun _ => 7) = [60007; 120007; 240007] /\
  Z.of_nat (length (retrySchedule 5 0 4 (fun _ => 7))) = 3.
Proof.
  split; [vm_compute; reflexivity|].
  apply (retries_bounded 5 4 (fun _ => 7)); [intros; lia|cbn; lia].
Defined.

(** ** Job leases

    The renewals of claimed jobs.  [ls_pending] is the map of claimed jobs to whether
    each was lost; [ls_inFlight] the jobs whose renewal has not settled, which outlives
    the job's release. *)
Record Leases := { ls_pending : gmap Z bool; ls_inFlight : gset Z }.

Definition startJobLeases (jobs : list Z) : Leases :=
  {| ls_pending := list_to_map (map (fun j => (j, false)) jobs); ls_inFlight := ∅ |}.

(** What callers and the database observe. *)
Inductive LeaseEvent :=
  | Renewing (job : Z)               (* [renew(job)] is sent *)
  | Answered (job : Z) (owned : bool) (* a caller of [owns] is told *)
  | Threw (job : Z)                  (* a caller of [owns] gets [JobLeaseRenewalError] *)
  | LostReported (job : Z)
  | ErrorReported (job : Z)
  | Released (job : Z).

Inductive Renewal := renewed (owned : bool) | renewalFailed.

Definition owns (job : Z) (s : Leases) : Leases * list LeaseEvent :=
  match ls_pending s !! job with
  | Some false =>
      if decide (job ∈ ls_inFlight s) then (s, [])
      else ({| ls_pending := ls_pending s; ls_inFlight := {[ job ]} ∪ ls_inFlight s |}, [Renewing job])
  | _ => (s, [Answered job false])
  end.

(** The settlement of a renewal in flight. *)
Definition settle (job : Z) (outcome : Renewal) (s : Leases) : Leases * list LeaseEvent :=
  let landed pending := {| ls_pending := pending; ls_inFlight := ls_inFlight s ∖ {[ job ]} |} in
  match outcome with
  | renewed owned =>
      match ls_pending s !! job with
      | None => (landed (ls_pending s), [Answered job false])
      | Some _ =>
          if owned then (landed (ls_pending s), [Answered job true])
          else (landed (<[ job := true ]> (ls_pending s)), [LostReported job; Answered job false])
      end
  | renewalFailed =>
      (landed (ls_pending s),
       match ls_pending s !! job with Some _ => [ErrorReported job; Threw job] | None => [Threw job] end)
  end.

Definition release (job : Z) (s : Leases) : Leases * list LeaseEvent :=
  ({| ls_pending := delete job (ls_pending s); ls_inFlight := ls_inFlight s |}, [Released job]).

Definition stop (s : Leases) : Leases := {| ls_pending := ∅; ls_inFlight := ls_inFlight s |}.

(** Runs of the leases, with what was observed, newest first.  A renewal settles once. *)
Inductive lease_run (jobs : list Z) : Leases -> list LeaseEvent -> Prop :=
  | run_start : lease_run jobs (startJobLeases jobs) []
  | run_owns s log job : lease_run jobs s log ->
      lease_run jobs (fst (owns job s)) (rev (snd (owns job s)) ++ log)
  | run_settle s log job outcome : lease_run jobs s log -> job ∈ ls_inFlight s ->
      lease_run jobs (fst (settle job outcome s)) (rev (snd (settle job outcome s)) ++ log)
  | run_release s log job : lease_run jobs s log ->
      lease_run jobs (fst (release job s)) (rev (snd (release job s)) ++ log)
  | run_stop s log : lease_run jobs s log -> lease_run jobs (stop s) log.

Definition ended (job : Z) (e : LeaseEvent) : bool :=
  match e with LostReported j | Released j => j =? job | _ => false end.

(** No answer in [log] says the job is owned after it was lost or released. *)
Fixpoint never_after_end (job : Z) (log : list LeaseEvent) : Prop :=
  match log with
  | [] => True
  | e :: log => (e = Answered job true -> existsb (ended job) log = false) /\ never_after_end job log
  end.

Definition lostReports (job : Z) (log : list LeaseEvent) : nat :=
  length (List.filter (fun e => match e with LostReported j => j =? job | _ => false end) log).

(** What a run keeps: an owned job has not ended, a lost one was reported once, and no
    renewal of a lost job is in flight. *)
Record lease_inv (s : Leases) (log : list LeaseEvent) : Prop := {
  li_owned : forall job, ls_pending s !! job = Some false -> existsb (ended job) log = false;
  li_reports : forall job, match ls_pending s !! job with
    | Some false => lostReports job log = 0%nat
    | _ => (lostReports job log <= 1)%nat
    end;
  li_flight : forall job, job ∈ ls_inFlight s -> ls_pending s !! job <> Some true;
  li_after : forall job, never_after_end job log }.

Lemma lostReports_cons job e log : lostReports job (e :: log)
  = Nat.add (match e with LostReported j => if j =? job then 1%nat else 0%nat | _ => 0%nat end) (lostReports job log).
Proof. unfold lostReports. cbn. destruct e; try done. by destruct (job0 =? job). Qed.

(** An event about nothing that ends. *)
Lemma quiet_inv s log e : lease_inv s log -> (forall job, ended job e = false) ->
  (forall job, e = Answered job true -> ls_pending s !! job = Some false) -> lease_inv s (e :: log).
Proof.
  intros [H1 H2 H3 H4] He Ha. constructor; [| |done|].
  - intros job Hp. cbn. rewrite He. by apply H1.
  - intros job. rewrite lostReports_cons. specialize (H2 job). specialize (He job). destruct e; try exact H2.
    cbn in He. by rewrite He.
  - intros job. split; [|done]. intros E. by apply H1, Ha.
Qed.

Lemma flight_inv s log flight : lease_inv s log -> (forall job, job ∈ flight -> ls_pending s !! job <> Some true) ->
  lease_inv {| ls_pending := ls_pending s; ls_inFlight := flight |} log.
Proof. intros [H1 H2 H3 H4] Hf. by constructor. Qed.

(** An event that ends a job which is then no longer owned. *)
Lemma end_inv s log job pending' flight e : lease_inv s log -> (forall j, ended j e = (job =? j)) ->
  (forall j, j <> job -> pending' !! j = ls_pending s !! j) -> pending' !! job <> Some false ->
  (lostReports job (e :: log) <= 1)%nat -> (forall j, e <> Answered j true) ->
  (forall j, j ∈ flight -> pending' !! j <> Some true) ->
  lease_inv {| ls_pending := pending'; ls_inFlight := flight |} (e :: log).
Proof.
  intros [H1 H2 H3 H4] He Hp Hjob Hr Hno Hf. constructor; cbn [ls_pending ls_inFlight].
  - intros j Hj. destruct (decide (j = job)) as [->|Hne]; [done|]. cbn. rewrite He, (proj2 (Z.eqb_neq job j)) by congruence.
    apply H1. by rewrite <- Hp.
  - intros j. destruct (decide (j = job)) as [->|Hne].
    + destruct (pending' !! job) as [ []|]; done.
    + rewrite Hp by done. rewrite lostReports_cons. specialize (He j). specialize (H2 j).
      rewrite (proj2 (Z.eqb_neq job j)) in He by congruence. destruct e; try exact H2. cbn in He. by rewrite He.
  - exact Hf.
  - intros j. split; [intros E; exfalso; by apply (Hno j)|done].
Qed.

Lemma lease_run_inv jobs s log : lease_run jobs s log -> lease_inv s log.
Proof.
  induction 1 as [|s log job _ IH|s log job outcome _ IH Hfl|s log job _ IH|s log _ IH].
  - constructor; cbn.
    + done.
    + intros job. destruct (_ !! job) as [ []|]; unfold lostReports; cbn; lia.
    + intros job H. by apply elem_of_empty in H.
    + done.
  - unfold owns. destruct (ls_pending s !! job) as [ []|] eqn:Hp; cbn.
    + apply quiet_inv; [done|done|]. by intros j [= _ ?].
    + case_decide; cbn; [done|]. apply quiet_inv; [|done|by intros j [=] ].
      apply flight_inv; [done|]. intros j [->%elem_of_singleton|Hj]%elem_of_union; [congruence|by apply (li_flight _ _ IH)].
    + apply quiet_inv; [done|done|]. by intros j [= _ ?].
  - pose proof (li_flight _ _ IH job Hfl) as Hnl. unfold settle.
    assert (Hland : lease_inv {| ls_pending := ls_pending s; ls_inFlight := ls_inFlight s ∖ {[ job ]} |} log).
    { apply flight_inv; [done|]. intros j [Hj _]%elem_of_difference. by apply (li_flight _ _ IH). }
    destruct outcome as [owned|]; destruct (ls_pending s !! job) as [b|] eqn:Hp; cbn [fst snd rev app].
    + destruct b; [done|]. destruct owned; cbn [fst snd rev app].
      * apply quiet_inv; [done|done|]. intros j [= <-]. exact Hp.
      * apply quiet_inv; [|done|by intros j [=] ]. apply (end_inv s log job); try done.

        -- intros j Hne. by rewrite lookup_insert_ne.
        -- by rewrite lookup_insert_eq.
        -- rewrite lostReports_cons, Z.eqb_refl. pose proof (li_reports _ _ IH job) as Hr. rewrite Hp in Hr. lia.
        -- intros j [Hj Hne]%elem_of_difference. rewrite elem_of_singleton in Hne.
           rewrite lookup_insert_ne by congruence. by apply (li_flight _ _ IH).
    + apply quiet_inv; [done|done|]. by intros j [= _ ?].
    + apply quiet_inv; [|done|by intros j [=] ]. apply quiet_inv; [done|done|by intros j [=] ].
    + apply quiet_inv; [done|done|by intros j [=] ].
  - unfold release. cbn [fst snd rev app]. apply (end_inv s log job); try done.
    + intros j Hne. by rewrite lookup_delete_ne.
    + by rewrite lookup_delete_eq.
    + rewrite lostReports_cons. pose proof (li_reports _ _ IH job) as Hr. destruct (ls_pending s !! job) as [ []|]; lia.
    + intros j Hj. destruct (decide (j = job)) as [->|Hne]; [by rewrite lookup_delete_eq|].
      rewrite lookup_delete_ne by done. by apply (li_flight _ _ IH).
  - destruct IH as [H1 H2 H3 H4]. unfold stop. constructor; cbn.
    + intros job Hp. by rewrite lookup_empty in Hp.
    + intros job. rewrite lookup_empty. specialize (H2 job). destruct (ls_pending s !! job) as [ []|]; lia.
    + intros job _. by rewrite lookup_empty.
    + done.
Qed.

(** Only a claim still held authorises work: in every run of the leases, whatever the
    order in which renewals, failures, releases and the stop land, no caller is told a job
    is owned after it was lost or released, and a loss is reported at most once. *)
Theorem lost_job_never_owned jobs s log job :
  lease_run jobs s log -> never_after_end job log /\ (lostReports job log <= 1)%nat.
Proof.
  intros H%lease_run_inv. split; [apply (li_after _ _ H)|].
  pose proof (li_reports _ _ H job). destruct (ls_pending s !! job) as [ []|]; lia.
Qed.

(** A renewal in flight when its job is released, and one lost. *)
Lemma lost_job_never_owned_witness :
  exists s, lease_run [1; 2] s [Answered 2 false; LostReported 2; Answered 1 false; Renewing 2; Released 1; Renewing 1] /\
    never_after_end 2 [Answered 2 false; LostReported 2; Answered 1 false; Renewing 2; Released 1; Renewing 1] /\
    (lostReports 2 [Answered 2 false; LostReported 2; Answered 1 false; Renewing 2; Released 1; Renewing 1] <= 1)%nat.
Proof.
  pose (s1 := fst (owns 1 (startJobLeases [1; 2]))). pose (s2 := fst (release 1 s1)). pose (s3 := fst (owns 2 s2)).
  pose (s4 := fst (settle 1 (renewed true) s3)).
  assert (H1 : lease_run [1; 2] s1 [Renewing 1]) by apply (run_owns [1; 2] _ [] 1 (run_start [1; 2])).
  assert (H2 : lease_run [1; 2] s2 [Released 1; Renewing 1]) by apply (run_release [1; 2] _ _ 1 H1).
  assert (H3 : lease_run [1; 2] s3 [Renewing 2; Released 1; Renewing 1]) by apply (run_owns [1; 2] _ _ 2 H2).
  assert (F1 : 1 ∈ ls_inFlight s3) by (apply (bool_decide_unpack _); vm_compute; done).
  assert (H4 : lease_run [1; 2] s4 [Answered 1 false; Renewing 2; Released 1; Renewing 1])
    by apply (run_settle [1; 2] _ _ 1 (renewed true) H3 F1).
  assert (F2 : 2 ∈ ls_inFlight s4) by (apply (bool_decide_unpack _); vm_compute; done).
  pose proof (run_settle [1; 2] _ _ 2 (renewed false) H4 F2) as H5.
  eexists. split; [exact H5|]. exact (lost_job_never_owned [1; 2] _ _ 2 H5).
Defined.
