(* ===== verification/Controls.v ===== *)
(** * Spend and usage controls ([src/db/repository/controls-runtime.ts],
    [controls-enterprise.ts])

    Which controls are in force, and the windows that count usage and holds against
    them.  Every write holds the customer's controls lock.  A control is the only one of
    its kind, feature, currency and scope over the windows modelled here, so a window is
    known by its control and its start and no replaced control counted in it.  The
    [INSERT ... ON CONFLICT] of a window is [openWindow]: a new window starts from the usage
    recorded in it, and an existing one is caught up, which a lifetime window is with the
    customer's rollups at every write and a calendar window never is.  What the query sums
    is read from the database at each write ([recorded]), zero for a spend limit. *)
From S2P Require Import Prelude Text Decimal Pricing JsDate Cadence Balances.

#[export] Instance control_kind_eq_dec : EqDecision ControlKind. Proof. solve_decision. Defined.
#[export] Instance control_source_eq_dec : EqDecision ControlSource. Proof. solve_decision. Defined.

(** ** The controls in force *)

Record EffectiveControlRow := {
  ec_id : Z; ec_source_type : ControlSource; ec_control_kind : ControlKind; ec_feature_key : option string;
  ec_currency : option string; ec_limit_value : text; ec_interval : option Cadence (* [None] is [lifetime] *);
  ec_revision : Z; ec_contract_replaces_defaults : bool }.

Inductive WindowCadence := lifetime_window | cadence_window (c : CanonicalCadence).
#[export] Instance window_cadence_eq_dec : EqDecision WindowCadence. Proof. solve_decision. Defined.

(** [controlWindowKey]; a cadence's key is its canonical form. *)
Definition controlWindowKey (interval : option Cadence) : WindowCadence :=
  match interval with None => lifetime_window | Some c => cadence_window (canonicalCadence c) end.

(** What competes: kind, feature, currency, window and whether the scope is an entity. *)
Definition ControlIdentity : Type := (ControlKind * string * string * WindowCadence * bool)%type.
Definition controlIdentity (row : EffectiveControlRow) : ControlIdentity :=
  (ec_control_kind row, default ""%string (ec_feature_key row), default ""%string (ec_currency row),
   controlWindowKey (ec_interval row), bool_decide (ec_source_type row = source_entity)).

Definition sourceRank (s : ControlSource) : Z :=
  match s with source_plan_default => 1 | source_contract => 2 | source_account => 3 | source_entity => 4 end.

(** [compareControlRows(left, right) < 0] *)
Definition wins (left right : EffectiveControlRow) : result bool :=
  l ← decimalToUnits (ec_limit_value left) 9;
  r ← decimalToUnits (ec_limit_value right) 9;
  Ok (if l =? r then sourceRank (ec_source_type right) - sourceRank (ec_source_type left) <? 0 else l <? r).

(** The winners map, in the order its identities were first seen. *)
Fixpoint setWinner (row : EffectiveControlRow) (winners : list EffectiveControlRow) : result (list EffectiveControlRow) :=
  match winners with
  | [] => Ok [row]
  | w :: winners' =>
      if decide (controlIdentity w = controlIdentity row) then
        b ← wins row w; Ok ((if b : bool then row else w) :: winners')
      else rest ← setWinner row winners'; Ok (w :: rest)
  end.

Definition eligibleControls (rows : list EffectiveControlRow) : list EffectiveControlRow :=
  let replaced :=
    match rows with
    | r :: _ => if ec_contract_replaces_defaults r
                then map controlIdentity (List.filter (fun r => bool_decide (ec_source_type r = source_contract)) rows) else []
    | [] => []
    end in
  List.filter (fun r => negb (bool_decide (ec_source_type r = source_plan_default)) ||
    negb (bool_decide (controlIdentity r ∈ replaced))) rows.

(** [resolveWinningControls], of the rows its query returns. *)
Definition resolveWinningControls (rows : list EffectiveControlRow) : result (list EffectiveControlRow) :=
  foldM (fun winners row => setWinner row winners) (eligibleControls rows) [].

(** ** Windows *)

Definition controlWindowBounds (interval : option Cadence) (now : Z) : jsdate * option jsdate :=
  match interval with
  | None => (Some 0, None)
  | Some c => let '(start, endAt) := calendarWindow c now in (start, Some endAt)
  end.

(** A control as the evaluation reads it. *)
Record ControlLimit := {
  k_policyId : Z; k_kind : ControlKind; k_feature : option string; k_currency : option string;
  k_limitValue : text; k_interval : option Cadence; k_source : ControlSource; k_revision : Z }.

(** A window's identity, its two counters, and the holds placed in it. *)
Definition WindowId : Type := (Z * jsdate)%type.
Record Counter := { consumed_value : Z; held_value : Z }.
Record ControlHold := { ch_reservation : Z; ch_control : ControlLimit; ch_start : jsdate; ch_held : Z; ch_consumed : Z }.
Record ControlStore := { ct_windows : gmap WindowId Counter; ct_holds : list ControlHold; ct_open : list Z }.

Definition windowId (c : ControlLimit) (now : Z) : WindowId :=
  (k_policyId c, fst (controlWindowBounds (k_interval c) now)).
Definition holdWindow (h : ControlHold) : WindowId := (k_policyId (ch_control h), ch_start h).

(** The controls a delta counts under. *)
Definition relevant (featureKey : string) (currency : option string) (c : ControlLimit) : bool :=
  match k_kind c with
  | usage_limit => bool_decide (k_feature c = Some featureKey)
  | spend_limit => match currency with Some cur => bool_decide (k_currency c = Some (toUpperCase cur)) | None => false end
  end.

Definition byPolicy (l r : ControlLimit) : bool := k_policyId l <? k_policyId r.

Record ControlDelta := { dl_featureKey : string; dl_usageDelta : text; dl_spendMinorDelta : text; dl_currency : option string }.

Definition controlDelta (c : ControlLimit) (d : ControlDelta) : result Z :=
  t ← (match k_kind c with
       | usage_limit => canonicalDecimal (dl_usageDelta d) "usage control delta" 9
       | spend_limit => canonicalSignedDecimal (dl_spendMinorDelta d) "spend control delta" 9
       end);
  signedDecimalToUnits t 9.

Record LockedControl := { lc_control : ControlLimit; lc_window : WindowId; lc_consumed : Z; lc_delta : Z }.

Inductive ControlMode := mode_consume | mode_hold.

(** The units of a counter, through the text the query returns. *)
Definition counterUnits (n : Z) (field : string) : result Z :=
  canonicalUnits (unitsToDecimal n 9) field 9.

Section Evaluate.
(** The usage the database has recorded in a window when the write runs. *)
Context (recorded : WindowId -> Z).

(** [recordedControlConsumptionSql]: a calendar window that has its row is not summed again. *)
Definition recordedControlConsumption (c : ControlLimit) (windowExists : bool) (w : WindowId) : Z :=
  match k_interval c with
  | None => recorded w
  | Some _ => if windowExists then 0 else recorded w
  end.

(** [INSERT INTO control_windows ... ON CONFLICT ... DO UPDATE SET consumed_value = GREATEST(...)] *)
Definition openWindow (c : ControlLimit) (w : WindowId) (ws : gmap WindowId Counter) : gmap WindowId Counter :=
  match ws !! w with
  | None => <[ w := {| consumed_value := recordedControlConsumption c false w; held_value := 0 |} ]> ws
  | Some row =>
      let excluded := recordedControlConsumption c true w in
      if consumed_value row <? excluded
      then <[ w := {| consumed_value := Z.max (consumed_value row) excluded; held_value := held_value row |} ]> ws
      else ws
  end.

Definition counterOf (ws : gmap WindowId Counter) (w : WindowId) : Counter :=
  default {| consumed_value := 0; held_value := 0 |} (ws !! w).

Definition denial (c : ControlLimit) (consumed held limit delta : Z) : ControlDenial :=
  {| cd_kind := k_kind c; cd_source := k_source c; cd_revision := k_revision c; cd_policyId := pretty (k_policyId c);
     cd_limitValue := k_limitValue c; cd_currentValue := unitsToDecimal (consumed + held) 9;
     cd_requestedValue := unitsToDecimal delta 9;
     cd_remainingValue := unitsToDecimal (Z.max 0 (limit - consumed - held)) 9 |}.

(** The loop of [evaluateControls] that locks and checks the windows. *)
Fixpoint admitControls (mode : ControlMode) (now : Z) (d : ControlDelta) (controls : list ControlLimit)
  (ws : gmap WindowId Counter) (locked : list LockedControl)
  : result (gmap WindowId Counter * (ControlDenial + list LockedControl)) :=
  match controls with
  | [] => Ok (ws, inr locked)
  | c :: controls' =>
      delta ← controlDelta c d;
      if (delta <=? 0) && match mode with mode_consume => false | mode_hold => true end
      then admitControls mode now d controls' ws locked
      else
        let w := windowId c now in
        let ws' := openWindow c w ws in
        consumed ← counterUnits (consumed_value (counterOf ws' w)) "control consumed";
        held ← counterUnits (held_value (counterOf ws' w)) "control held";
        limit ← decimalToUnits (k_limitValue c) 9;
        if (0 <? delta) && (limit <? consumed + held + delta)
        then Ok (ws', inl (denial c consumed held limit delta))
        else admitControls mode now d controls' ws'
               (locked ++ [ {| lc_control := c; lc_window := w; lc_consumed := consumed; lc_delta := delta |} ])
  end.

Definition addConsumed (delta : Z) (c : Counter) : Counter :=
  {| consumed_value := Z.max (consumed_value c + delta) 0; held_value := held_value c |}.
Definition addHeld (delta : Z) (c : Counter) : Counter :=
  {| consumed_value := consumed_value c; held_value := held_value c + delta |}.
Definition dropHeld (n : Z) (c : Counter) : Counter :=
  {| consumed_value := consumed_value c; held_value := Z.max (held_value c - n) 0 |}.

(** What [recordUsageControlEntries] is given. *)
Definition consumeEntries (ws ws' : gmap WindowId Counter) (locked : list LockedControl) : list (WindowId * Z) :=
  omap (fun l =>
    let applied := consumed_value (counterOf ws' (lc_window l)) - lc_consumed l in
    if negb (applied =? 0) || bool_decide (k_kind (lc_control l) = spend_limit) then Some (lc_window l, applied) else None) locked.

Definition selectControls (d : ControlDelta) (controls : list ControlLimit) : list ControlLimit :=
  sortBy byPolicy (List.filter (relevant (dl_featureKey d) (dl_currency d)) controls).

(** [consumeControls] *)
Definition consumeControls (now : Z) (d : ControlDelta) (controls : list ControlLimit) (s : ControlStore)
  : result (ControlStore * (ControlDenial + list (WindowId * Z))) :=
  r ← admitControls mode_consume now d (selectControls d controls) (ct_windows s) [];
  let '(ws, outcome) := (r : gmap WindowId Counter * (ControlDenial + list LockedControl)) in
  match outcome with
  | inl denied => Ok ({| ct_windows := ws; ct_holds := ct_holds s; ct_open := ct_open s |}, inl denied)
  | inr locked =>
      let ws' := fold_left (fun ws l => alter (addConsumed (lc_delta l)) (lc_window l) ws) locked ws in
      Ok ({| ct_windows := ws'; ct_holds := ct_holds s; ct_open := ct_open s |}, inr (consumeEntries ws ws' locked))
  end.

(** [holdControls] for a new reservation. *)
Definition holdControls (now rid : Z) (d : ControlDelta) (controls : list ControlLimit) (s : ControlStore)
  : result (ControlStore * option ControlDenial) :=
  r ← admitControls mode_hold now d (selectControls d controls) (ct_windows s) [];
  let '(ws, outcome) := (r : gmap WindowId Counter * (ControlDenial + list LockedControl)) in
  match outcome with
  | inl denied => Ok ({| ct_windows := ws; ct_holds := ct_holds s; ct_open := ct_open s |}, Some denied)
  | inr locked =>
      let ws' := fold_left (fun ws l => alter (addHeld (lc_delta l)) (lc_window l) ws) locked ws in
      let holds := map (fun l => {| ch_reservation := rid; ch_control := lc_control l; ch_start := snd (lc_window l);
                                    ch_held := lc_delta l; ch_consumed := 0 |}) locked in
      Ok ({| ct_windows := ws'; ct_holds := ct_holds s ++ holds; ct_open := rid :: ct_open s |}, None)
  end.

Definition holdsOf (rid : Z) (s : ControlStore) : list ControlHold :=
  List.filter (fun h => ch_reservation h =? rid) (ct_holds s).

(** The reservation's status leaves [active]. *)
Definition closeReservation (rid : Z) (open : list Z) : list Z := List.filter (fun r => negb (r =? rid)) open.

Definition dropHolds (holds : list ControlHold) (ws : gmap WindowId Counter) : gmap WindowId Counter :=
  fold_left (fun ws h => alter (dropHeld (ch_held h)) (holdWindow h) ws) holds ws.

(** [releaseControlHolds] of an active reservation, whose status changes with it. *)
Definition releaseControlHolds (rid : Z) (s : ControlStore) : ControlStore :=
  if decide (rid ∈ ct_open s) then
    {| ct_windows := dropHolds (holdsOf rid s) (ct_windows s); ct_holds := ct_holds s;
       ct_open := closeReservation rid (ct_open s) |}
  else s.

(** One settlement of a confirmation. *)
Record ConfirmationGroup := { cg_control : ControlLimit; cg_window : WindowId; cg_holds : list ControlHold }.

Definition sameControl (c : ControlLimit) (h : ControlHold) : bool := k_policyId (ch_control h) =? k_policyId c.

(** The groups of the active controls: a control whose holds are all in other windows
    settles them there. *)
Definition activeGroups (now : Z) (existing : list ControlHold) (controls : list ControlLimit) : list ConfirmationGroup :=
  omap (fun c =>
    let w := windowId c now in
    let holds := List.filter (fun h => bool_decide (holdWindow h = w)) existing in
    if (length holds =? 0)%nat && existsb (sameControl c) existing then None
    else Some {| cg_control := c; cg_window := w; cg_holds := holds |}) controls.

Definition adopted (groups : list ConfirmationGroup) (h : ControlHold) : bool :=
  existsb (fun g => bool_decide (holdWindow h = cg_window g)) groups.

Definition confirmationGroups (now : Z) (existing : list ControlHold) (controls : list ControlLimit)
  : list ConfirmationGroup :=
  let active := activeGroups now existing controls in
  sortBy (fun l r => k_policyId (cg_control l) <? k_policyId (cg_control r))
    (active ++ map (fun h => {| cg_control := ch_control h; cg_window := holdWindow h; cg_holds := [h] |})
                 (List.filter (fun h => negb (adopted active h)) existing)).

(** The windows of the active controls are opened; a hold's other window has its row. *)
Definition openGroups (active : list ConfirmationGroup) (ws : gmap WindowId Counter) : gmap WindowId Counter :=
  fold_left (fun ws g => openWindow (cg_control g) (cg_window g) ws) active ws.

Definition ownHeld (g : ConfirmationGroup) : Z := sumZ (map ch_held (cg_holds g)).

(** The check of one group, before any group is written. *)
Definition confirmDenial (d : ControlDelta) (ws : gmap WindowId Counter) (g : ConfirmationGroup)
  : result (option ControlDenial) :=
  target ← controlDelta (cg_control g) d;
  let counter := counterOf ws (cg_window g) in
  consumed ← decimalToUnits (unitsToDecimal (consumed_value counter) 9) 9;
  totalHeld ← decimalToUnits (unitsToDecimal (held_value counter) 9) 9;
  let otherHeld := if ownHeld g <? totalHeld then totalHeld - ownHeld g else 0 in
  limit ← decimalToUnits (k_limitValue (cg_control g)) 9;
  Ok (if (0 <? target) && (limit <? consumed + otherHeld + target)
      then Some {| cd_kind := k_kind (cg_control g); cd_source := k_source (cg_control g);
                   cd_revision := k_revision (cg_control g); cd_policyId := pretty (k_policyId (cg_control g));
                   cd_limitValue := k_limitValue (cg_control g);
                   cd_currentValue := unitsToDecimal (consumed + totalHeld) 9;
                   cd_requestedValue := unitsToDecimal target 9;
                   cd_remainingValue := unitsToDecimal (Z.max 0 (limit - consumed - otherHeld)) 9 |}
      else None).

Fixpoint firstDenial (d : ControlDelta) (ws : gmap WindowId Counter) (groups : list ConfirmationGroup)
  : result (option ControlDenial) :=
  match groups with
  | [] => Ok None
  | g :: groups' =>
      denied ← confirmDenial d ws g;
      match (denied : option ControlDenial) with Some x => Ok (Some x) | None => firstDenial d ws groups' end
  end.

Definition settleGroup (d : ControlDelta) (ws : gmap WindowId Counter) (g : ConfirmationGroup)
  : result (gmap WindowId Counter) :=
  target ← controlDelta (cg_control g) d;
  Ok (alter (addConsumed target) (cg_window g) (dropHolds (cg_holds g) ws)).

(** What the settlement added to a group's window. *)
Definition appliedIn (ws ws' : gmap WindowId Counter) (g : ConfirmationGroup) : Z :=
  consumed_value (counterOf ws' (cg_window g)) - consumed_value (counterOf ws (cg_window g)).

Definition confirmEntries (ws ws' : gmap WindowId Counter) (groups : list ConfirmationGroup) : list (WindowId * Z) :=
  omap (fun g =>
    let applied := appliedIn ws ws' g in
    if negb (applied =? 0) || bool_decide (k_kind (cg_control g) = spend_limit) then Some (cg_window g, applied) else None) groups.

(** Each hold row records what it turned into; a window has one hold of a reservation. *)
Definition settledHold (ws ws' : gmap WindowId Counter) (groups : list ConfirmationGroup) (rid : Z) (h : ControlHold)
  : ControlHold :=
  if ch_reservation h =? rid then
    match List.find (fun g => bool_decide (cg_window g = holdWindow h)) groups with
    | Some g => {| ch_reservation := ch_reservation h; ch_control := ch_control h; ch_start := ch_start h;
                   ch_held := ch_held h; ch_consumed := Z.max (appliedIn ws ws' g) 0 |}
    | None => h
    end
  else h.

(** [confirmControlHolds] of an active reservation; without a denial its status becomes
    [confirmed] with it. *)
Definition confirmControlHolds (now rid : Z) (d : ControlDelta) (controls : list ControlLimit) (s : ControlStore)
  : result (ControlStore * (ControlDenial + list (WindowId * Z))) :=
  let existing := holdsOf rid s in
  let groups := confirmationGroups now existing (selectControls d controls) in
  let ws := openGroups (activeGroups now existing (selectControls d controls)) (ct_windows s) in
  denied ← firstDenial d ws groups;
  match (denied : option ControlDenial) with
  | Some denied => Ok ({| ct_windows := ws; ct_holds := ct_holds s; ct_open := ct_open s |}, inl denied)
  | None =>
      ws' ← foldM (settleGroup d) groups ws;
      Ok ({| ct_windows := ws'; ct_holds := map (settledHold ws ws' groups rid) (ct_holds s);
             ct_open := closeReservation rid (ct_open s) |}, inr (confirmEntries ws ws' groups))
  end.
End Evaluate.

(** ** The tightest control wins *)

Lemma wins_spec l r b : wins l r = Ok b -> exists x y,
  decimalToUnits (ec_limit_value l) 9 = Ok x /\ decimalToUnits (ec_limit_value r) 9 = Ok y /\
  (b = true <-> x < y \/ (x = y /\ sourceRank (ec_source_type r) < sourceRank (ec_source_type l))).
Proof.
  unfold wins. intros H. apply bind_Ok in H as (x & Hx & H). apply bind_Ok in H as (y & Hy & H). injection H as <-.
  exists x, y. split; [done|]. split; [done|]. destruct (Z.eqb_spec x y); rewrite Z.ltb_lt; lia.
Qed.

(** [w] is at least as tight as [r], and as specific where they are equally tight. *)
Definition atLeastAsTight (w r : EffectiveControlRow) : Prop :=
  w = r \/ exists x y, decimalToUnits (ec_limit_value w) 9 = Ok x /\ decimalToUnits (ec_limit_value r) 9 = Ok y /\
    (x < y \/ (x = y /\ sourceRank (ec_source_type r) <= sourceRank (ec_source_type w))).

Lemma tight_trans a b c : atLeastAsTight a b -> atLeastAsTight b c -> atLeastAsTight a c.
Proof.
  intros [->|(x & y & Hx & Hy & H)] [->|(y' & z & Hy' & Hz & H')]; [by left| | |].
  - right. by exists y', z.
  - right. by exists x, y.
  - right. rewrite Hy in Hy'. injection Hy' as <-. exists x, z. split; [done|]. split; [done|]. lia.
Qed.

Lemma setWinner_spec row winners ws : setWinner row winners = Ok ws -> NoDup (map controlIdentity winners) ->
  NoDup (map controlIdentity ws) /\
  (forall w, w ∈ ws -> w ∈ winners \/ w = row) /\
  (forall w, w ∈ winners -> exists w', w' ∈ ws /\ controlIdentity w' = controlIdentity w /\ atLeastAsTight w' w) /\
  (exists w', w' ∈ ws /\ controlIdentity w' = controlIdentity row /\ atLeastAsTight w' row) /\
  (forall i, i ∈ map controlIdentity ws -> i ∈ map controlIdentity winners \/ i = controlIdentity row).
Proof.
  revert ws. induction winners as [|w winners IH]; intros ws H Hnd; cbn [setWinner] in H.
  { injection H as <-. split; [apply NoDup_singleton|]. split; [intros x Hx; right; by apply list_elem_of_singleton in Hx|].
    split; [intros x Hx; by apply elem_of_nil in Hx|]. split; [exists row; split; [by constructor|by split; [|left] ]|].
    intros i Hi. right. by apply list_elem_of_singleton in Hi. }
  cbn [map] in Hnd. apply NoDup_cons in Hnd as [Hw Hnd]. case_decide as Hid.
  - apply bind_Ok in H as (b & Hb & H). injection H as <-. destruct (wins_spec _ _ _ Hb) as (x & y & Hx & Hy & Hiff).
    assert (Hsame : controlIdentity (if b then row else w) = controlIdentity w) by (destruct b; done).
    assert (Ht : atLeastAsTight (if b then row else w) w /\ atLeastAsTight (if b then row else w) row).
    { destruct b; (split; [|]); [right|by left|by left|right].
      - exists x, y. split; [done|]. split; [done|]. destruct (proj1 Hiff eq_refl); [by left|right; lia].
      - exists y, x. split; [done|]. split; [done|].
        destruct (Z.lt_trichotomy x y) as [Hlt|[Heq|Hgt] ]; [discriminate (proj2 Hiff (or_introl Hlt))| |by left].
        right. split; [done|]. destruct (Z_lt_le_dec (sourceRank (ec_source_type w)) (sourceRank (ec_source_type row))); [|lia].
        assert (false = true) as [=]. apply Hiff. by right. }
    split; [cbn [map]; rewrite Hsame; by apply NoDup_cons|]. split.
    { intros v [->|Hv]%elem_of_cons; [destruct b; [by right|left; by constructor]|left; by constructor]. }
    split.
    { intros v [->|Hv]%elem_of_cons; [eexists; split; [by constructor|]; split; [exact Hsame|apply Ht]|].
      exists v. split; [by constructor|]. split; [done|by left]. }
    split; [eexists; split; [by constructor|]; split; [by rewrite Hsame|apply Ht]|].
    intros i Hi. left. cbn [map] in *. by rewrite Hsame in Hi.
  - apply bind_Ok in H as (rest & Hrest & H). injection H as <-. destruct (IH rest Hrest Hnd) as (H1 & H2 & H3 & H4 & H5).
    split.
    { cbn [map]. apply NoDup_cons. split; [|done]. intros Hi. destruct (H5 _ Hi) as [Hin|Heq]; [done|]. congruence. }
    split; [intros v [->|Hv]%elem_of_cons; [left; by constructor|destruct (H2 v Hv); [left; by constructor|by right] ]|].
    split.
    { intros v [->|Hv]%elem_of_cons; [exists w; split; [by constructor|]; split; [done|by left]|].
      destruct (H3 v Hv) as (w' & Hw' & Hrest'). exists w'. split; [by constructor|done]. }
    split; [destruct H4 as (w' & Hw' & Hrest'); exists w'; split; [by constructor|done]|].
    intros i Hi. cbn [map] in *. apply elem_of_cons in Hi as [->|Hi]; [left; by constructor|].
    destruct (H5 i Hi); [left; by constructor|by right].
Qed.

(** One control is in force per kind, feature, currency, window and scope, and it is
    the tightest eligible one: no eligible control of its identity has a lower limit, nor
    the same limit from a more specific source; a contract that replaces the commercial
    defaults leaves no plan default of an identity it sets. *)
Theorem winning_control_is_tightest rows winners : resolveWinningControls rows = Ok winners ->
  NoDup (map controlIdentity winners) /\
  (forall w, w ∈ winners -> w ∈ rows) /\
  (forall r, r ∈ eligibleControls rows -> exists w, w ∈ winners /\ controlIdentity w = controlIdentity r /\ atLeastAsTight w r) /\
  (forall c rest w, rows = c :: rest -> ec_contract_replaces_defaults c = true -> w ∈ winners ->
     ec_source_type w = source_plan_default ->
     forall k, k ∈ rows -> ec_source_type k = source_contract -> controlIdentity k <> controlIdentity w).
Proof.
  intros H.
  assert (Hfold : forall es acc ws, foldM (fun winners row => setWinner row winners) es acc = Ok ws ->
    NoDup (map controlIdentity acc) ->
    NoDup (map controlIdentity ws) /\ (forall w, w ∈ ws -> w ∈ acc \/ w ∈ es) /\
    (forall r, r ∈ acc \/ r ∈ es -> exists w, w ∈ ws /\ controlIdentity w = controlIdentity r /\ atLeastAsTight w r)).
  { clear. induction es as [|e es IH]; intros acc ws H Hnd; cbn in H.
    - injection H as <-. split; [done|]. split; [by left|]. intros r [Hr|Hr%elem_of_nil]; [|done].
      exists r. split; [done|]. split; [done|by left].
    - apply bind_Ok in H as (acc' & Ha & H). destruct (setWinner_spec _ _ _ Ha Hnd) as (S1 & S2 & S3 & S4 & _).
      destruct (IH acc' ws H S1) as (I1 & I2 & I3). split; [done|]. split.
      + intros w Hw. destruct (I2 w Hw) as [Hw'|Hw']; [|right; by constructor].
        destruct (S2 w Hw') as [| ->]; [by left|right; by constructor].
      + assert (Hstep : forall r, r ∈ acc \/ r = e -> exists w, w ∈ acc' /\ controlIdentity w = controlIdentity r /\ atLeastAsTight w r).
        { intros r [Hr| ->]; [by apply S3|exact S4]. }
        intros r Hr. enough (Hcases : (r ∈ acc \/ r = e) \/ r ∈ es).
        { destruct Hcases as [Hr'|Hr']; [|apply I3; by right]. destruct (Hstep r Hr') as (v & Hv & Hiv & Htv).
          destruct (I3 v (or_introl Hv)) as (w & Hw & Hiw & Htw). exists w. split; [done|]. split; [congruence|].
          by eapply tight_trans. }
        destruct Hr as [Hr|Hr]; [by left; left|]. apply elem_of_cons in Hr as [ ->|Hr]; [left; by right|by right]. }
  destruct (Hfold _ _ _ H) as (F1 & F2 & F3); [constructor|].
  assert (Hel : forall w, w ∈ winners -> w ∈ eligibleControls rows).
  { intros w Hw. destruct (F2 w Hw) as [Hn%elem_of_nil|Hw']; done. }
  split; [done|]. split.
  { intros w Hw. specialize (Hel w Hw). by apply list_elem_of_In, filter_In in Hel as [Hel%list_elem_of_In _]. }
  split; [intros r Hr; apply F3; by right|].
  intros c rest w -> Hc Hw Hd k Hk Hs Heq. specialize (Hel w Hw). apply list_elem_of_In, filter_In in Hel as [_ Hel].
  rewrite Hc, Hd, (bool_decide_eq_true_2 (source_plan_default = source_plan_default)) in Hel by done. cbn [negb orb] in Hel.
  apply negb_true_iff, bool_decide_eq_false_1 in Hel. apply Hel. rewrite <- Heq. apply list_elem_of_fmap_2.
  apply list_elem_of_In, filter_In. split; [by apply list_elem_of_In|by apply bool_decide_eq_true_2].
Qed.

Definition exampleControlRow (id : Z) (source : ControlSource) (limit : text) (interval : option Cadence) : EffectiveControlRow :=
  {| ec_id := id; ec_source_type := source; ec_control_kind := usage_limit; ec_feature_key := Some "tokens"%string;
     ec_currency := None; ec_limit_value := limit; ec_interval := interval; ec_revision := 1;
     ec_contract_replaces_defaults := false |}.

Lemma winning_control_is_tightest_witness :
  let quarterly := exampleControlRow 1 source_plan_default (js "100") (Some {| c_unit := quarter; c_count := 1 |}) in
  let threeMonths := exampleControlRow 2 source_account (js "60") (Some {| c_unit := month; c_count := 3 |}) in
  let entityOwn := exampleControlRow 3 source_entity (js "10") (Some {| c_unit := month; c_count := 3 |}) in
  resolveWinningControls [quarterly; threeMonths; entityOwn] = Ok [threeMonths; entityOwn] /\
  NoDup (map controlIdentity [threeMonths; entityOwn]).
Proof.
  intros quarterly threeMonths entityOwn.
  assert (H : resolveWinningControls [quarterly; threeMonths; entityOwn] = Ok [threeMonths; entityOwn]) by (vm_compute; reflexivity).
  split; [exact H|]. exact (proj1 (winning_control_is_tightest _ _ H)).
Defined.

(** ** Counting against the limits *)

Lemma counterUnits_same n field m : 0 <= n -> counterUnits n field = Ok m -> m = n.
Proof.
  unfold counterUnits, canonicalUnits. intros Hn H. apply bind_Ok in H as (c & Hc & H).
  apply canonicalDecimal_Ok in Hc as [Hc _]. rewrite unboundedDecimal_units in Hc by lia. injection Hc as <-.
  rewrite units_roundtrip in H by lia. by injection H.
Qed.

(** Writing distinct windows one after another. *)
Lemma fold_alter_lookup {A} (key : A -> WindowId) (f : A -> Counter -> Counter) (l : list A) (ws : gmap WindowId Counter) (w : WindowId) :
  NoDup (map key l) ->
  fold_left (fun ws x => alter (f x) (key x) ws) l ws !! w =
    match List.find (fun x => bool_decide (key x = w)) l with
    | Some x => f x <$> ws !! w
    | None => ws !! w
    end.
Proof.
  revert ws. induction l as [|x l IH]; intros ws Hnd; [done|]. cbn [map fold_left List.find] in *.
  apply NoDup_cons in Hnd as [Hx Hnd]. rewrite IH by done. case_bool_decide as Hk.
  - subst w. replace (List.find _ l) with (@None A); [apply lookup_alter_eq|]. symmetry.
    destruct (List.find _ l) as [y|] eqn:E; [|done]. apply find_some in E as [Hin Hy%bool_decide_eq_true_1].
    exfalso. apply Hx. rewrite <- Hy. apply list_elem_of_fmap_2. by apply list_elem_of_In.
  - destruct (List.find _ l); by rewrite lookup_alter_ne.
Qed.

(** A count that grows by [n], and by no more where it is [exact]: one that is not may be
    caught up as well. *)
Definition grows (exact : bool) (before after n : Z) : Prop :=
  before + n <= after /\ (exact = true -> after = before + n).

Lemma grows_same exact n : grows exact n n 0.
Proof. unfold grows. lia. Qed.

Lemma grows_trans exact a b c n m : grows exact a b n -> grows exact b c m -> grows exact a c (n + m).
Proof. intros [H1 H2] [H3 H4]. split; [lia|]. intros E. specialize (H2 E). specialize (H4 E). lia. Qed.

Lemma grows_add exact before caught after m : grows exact before caught 0 -> after = caught + m -> grows exact before after m.
Proof. intros H ->. apply (grows_trans exact before caught (caught + m) 0 m H). unfold grows. lia. Qed.

Section Counting.
(** [opening]: what a calendar window is opened with, and the most a lifetime window is
    raised to when a write opens it or catches it up; a policy's limit and whether its
    window is a lifetime are part of its immutable row. *)
Context (opening : WindowId -> Z) (limitOf : Z -> Z) (lifetimeOf : Z -> bool).

Definition limit_ok (c : ControlLimit) : Prop :=
  decimalToUnits (k_limitValue c) 9 = Ok (limitOf (k_policyId c)) /\
  lifetimeOf (k_policyId c) = bool_decide (k_interval c = None).

(** What a write reads of the usage recorded: a lifetime window's is what it counts already,
    or more by what [opening] allows; a calendar window is read when it is opened only. *)
Definition reads_ok (recorded : WindowId -> Z) (ws : gmap WindowId Counter) : Prop :=
  forall w, 0 <= recorded w /\
    (recorded w <= opening w \/ exists c, ws !! w = Some c /\ recorded w <= consumed_value c) /\ (lifetimeOf (fst w) = false -> recorded w = opening w).

(** What open reservations hold in a window. *)
Definition heldIn (open : list Z) (holds : list ControlHold) (w : WindowId) : Z :=
  sumZ (map ch_held (List.filter (fun h => bool_decide (ch_reservation h ∈ open) && bool_decide (holdWindow h = w)) holds)).

(** A window counts and holds no more than its limit, unless what it was opened with or
    caught up to is over it; holds alone never are. *)
Definition counter_ok (held : Z) (w : WindowId) (c : Counter) : Prop :=
  0 <= consumed_value c /\ held_value c = held /\
  (consumed_value c + held <= limitOf (fst w) \/ consumed_value c <= opening w) /\
  held <= Z.max 0 (limitOf (fst w)) /\
  (lifetimeOf (fst w) = false -> consumed_value c + held <= Z.max (limitOf (fst w)) (opening w)).

(** Every window counts what is held in it, within its limit; no window unopened holds. *)
Definition windows_ok (held : WindowId -> Z) (ws : gmap WindowId Counter) : Prop :=
  forall w, match ws !! w with Some c => counter_ok (held w) w c | None => held w = 0 end.

(** What a window counts once a write that reads [recorded] has caught it up. *)
Definition caughtUp (recorded : WindowId -> Z) (ws : gmap WindowId Counter) (w : WindowId) : Z :=
  match ws !! w with
  | None => recorded w
  | Some c => if lifetimeOf (fst w) then Z.max (consumed_value c) (recorded w) else consumed_value c
  end.

Definition heldBefore (ws : gmap WindowId Counter) (w : WindowId) : Z := default 0 (held_value <$> ws !! w).

Definition caughtRow (recorded : WindowId -> Z) (ws : gmap WindowId Counter) (w : WindowId) : Counter :=
  {| consumed_value := caughtUp recorded ws w; held_value := heldBefore ws w |}.

(** Opening windows leaves each as it was, or caught up. *)
Definition opened (recorded : WindowId -> Z) (ws ws' : gmap WindowId Counter) : Prop :=
  forall w, ws' !! w = ws !! w \/ ws' !! w = Some (caughtRow recorded ws w).

Lemma caughtRow_twice recorded ws ws' w : ws' !! w = Some (caughtRow recorded ws w) ->
  caughtRow recorded ws' w = caughtRow recorded ws w.
Proof.
  intros H. unfold caughtRow, caughtUp, heldBefore in *. rewrite H. cbn. f_equal.
  destruct (lifetimeOf (fst w)); [|done]. destruct (ws !! w); lia.
Qed.

Lemma caughtRow_same recorded ws ws' w : ws' !! w = ws !! w -> caughtRow recorded ws' w = caughtRow recorded ws w.
Proof. intros H. unfold caughtRow, caughtUp, heldBefore. by rewrite H. Qed.

Lemma opened_row recorded ws ws' w : opened recorded ws ws' -> caughtRow recorded ws' w = caughtRow recorded ws w.
Proof. intros H. destruct (H w); [by apply caughtRow_same|by apply caughtRow_twice]. Qed.

Lemma caughtUp_least recorded ws w c : ws !! w = Some c -> consumed_value c <= caughtUp recorded ws w.
Proof. intros H. unfold caughtUp. rewrite H. destruct (lifetimeOf _); lia. Qed.

Lemma opened_refl recorded ws : opened recorded ws ws.
Proof. by left. Qed.

Lemma opened_trans recorded ws1 ws2 ws3 : opened recorded ws1 ws2 -> opened recorded ws2 ws3 -> opened recorded ws1 ws3.
Proof.
  intros H1 H2 w. destruct (H2 w) as [ ->| ->]; [apply H1|]. right. f_equal. by apply opened_row.
Qed.

(** A window caught up stays so while others are opened. *)
Lemma opened_keeps recorded ws1 ws2 ws3 w : opened recorded ws1 ws2 -> opened recorded ws2 ws3 ->
  ws2 !! w = Some (caughtRow recorded ws1 w) -> ws3 !! w = Some (caughtRow recorded ws1 w).
Proof. intros H1 H2 H. destruct (H2 w) as [ ->| ->]; [done|]. f_equal. by apply caughtRow_twice. Qed.

Lemma openWindow_lookup recorded c (w : WindowId) ws : limit_ok c -> fst w = k_policyId c ->
  (forall row, ws !! w = Some row -> 0 <= consumed_value row) ->
  opened recorded ws (openWindow recorded c w ws) /\ openWindow recorded c w ws !! w = Some (caughtRow recorded ws w).
Proof.
  intros [_ Hlife] Hw Hpos.
  assert (H : (forall w', w' <> w -> openWindow recorded c w ws !! w' = ws !! w') /\
    openWindow recorded c w ws !! w = Some (caughtRow recorded ws w)).
  { unfold openWindow, caughtRow, caughtUp, heldBefore, recordedControlConsumption. rewrite Hw, Hlife.
    destruct (ws !! w) as [ [con hel]|] eqn:E.
    - specialize (Hpos _ eq_refl). rewrite ?E. cbn in Hpos |- *. destruct (k_interval c); cbn.
      + destruct (Z.ltb_spec con 0); [lia|]. by rewrite E.
      + destruct (Z.ltb_spec con (recorded w)).
        * split; [intros; by rewrite lookup_insert_ne|by rewrite lookup_insert_eq].
        * split; [done|]. rewrite E. do 2 f_equal. lia.
    - split; [intros; by rewrite lookup_insert_ne|]. rewrite lookup_insert_eq. by destruct (k_interval c). }
  destruct H as [H1 H2]. split; [|done]. intros w'. destruct (decide (w' = w)) as [ ->|Hne]; [by right|left; by apply H1].
Qed.

Lemma caughtUp_bounds recorded held ws w : reads_ok recorded ws -> windows_ok held ws -> 0 <= held w ->
  counter_ok (held w) w (caughtRow recorded ws w).
Proof.
  intros Hr Hok Hh. specialize (Hok w). destruct (Hr w) as (Hb & Hle & Hc). unfold counter_ok, caughtRow, caughtUp, heldBefore.
  destruct (ws !! w) as [c|]; cbn [consumed_value held_value fmap option_fmap option_map default from_option id].
  - destruct Hok as (H1 & H2 & H3 & H4 & H5). destruct (lifetimeOf (fst w)); [|auto with lia].
    assert (recorded w <= opening w \/ recorded w <= consumed_value c) by (destruct Hle as [?|(? & [= <-] & ?)]; auto).
    split; [lia|]. split; [done|]. split; [lia|]. split; [done|discriminate].
  - assert (recorded w <= opening w) by (destruct Hle as [?|(? & [=] & _)]; auto). rewrite Hok. cbn. auto 8 with lia.
Qed.

Lemma opened_ok recorded held ws ws' : reads_ok recorded ws -> windows_ok held ws -> (forall w, 0 <= held w) ->
  opened recorded ws ws' -> windows_ok held ws'.
Proof.
  intros Hr Hok Hh Ho w. destruct (Ho w) as [ ->| ->]; [apply Hok|]. by apply caughtUp_bounds.
Qed.

Lemma opened_reads recorded ws ws' : reads_ok recorded ws -> opened recorded ws ws' -> reads_ok recorded ws'.
Proof.
  intros Hr Ho w. destruct (Hr w) as (Hb & Hle & Hc). split; [done|]. split; [|done].
  destruct Hle as [Hle|(c & E & Hle)]; [by left|right]. destruct (Ho w) as [ ->| ->]; [by exists c|].
  eexists. split; [done|]. cbn. pose proof (caughtUp_least recorded ws w c E). lia.
Qed.

(** What the admission loop has locked: windows caught up, whose limit the delta fits. *)
Definition locked_ok (recorded : WindowId -> Z) (held : WindowId -> Z) (ws0 ws : gmap WindowId Counter) (mode : ControlMode)
  (l : LockedControl) : Prop :=
  ws !! lc_window l = Some (caughtRow recorded ws0 (lc_window l)) /\ lc_consumed l = caughtUp recorded ws0 (lc_window l) /\
  fst (lc_window l) = k_policyId (lc_control l) /\ limit_ok (lc_control l) /\
  (0 < lc_delta l -> caughtUp recorded ws0 (lc_window l) + held (lc_window l) + lc_delta l <= limitOf (fst (lc_window l))) /\
  match mode with mode_hold => 0 < lc_delta l | mode_consume => True end.

Lemma admitControls_ok recorded held mode now d ws0 controls : reads_ok recorded ws0 ->
  windows_ok held ws0 -> (forall w, 0 <= held w) -> forall ws locked ws' outcome,
  opened recorded ws0 ws -> Forall limit_ok controls -> NoDup (map k_policyId controls) ->
  Forall (locked_ok recorded held ws0 ws mode) locked -> NoDup (map lc_window locked) ->
  (forall l, l ∈ locked -> fst (lc_window l) ∉ map k_policyId controls) ->
  admitControls recorded mode now d controls ws locked = Ok (ws', outcome) ->
  opened recorded ws0 ws' /\
  match outcome with
  | inl _ => True
  | inr all => Forall (locked_ok recorded held ws0 ws' mode) all /\ NoDup (map lc_window all)
  end.
Proof.
  intros Hr Hok0 Hh. induction controls as [|c controls IH]; intros ws locked ws' outcome Ho Hlim Hnd Hlk Hndl Hsep H; cbn [admitControls] in H.
  { injection H as <- <-. by split. }
  cbn [map] in *. apply Forall_cons in Hlim as [Hc Hlim]. apply NoDup_cons in Hnd as [Hfresh Hnd].
  apply bind_Ok in H as (delta & Hd & H). destruct (_ && _) eqn:Eskip.
  { apply (IH ws locked ws' outcome); auto. intros l Hl Hin. apply (Hsep l Hl). by right. }
  pose proof (opened_ok recorded held ws0 ws Hr Hok0 Hh Ho) as Hok. pose proof (Hok (windowId c now)) as Hcnt.
  destruct (openWindow_lookup recorded c (windowId c now) ws Hc eq_refl) as [Ho1 Hcw].
  { intros row Hrow. rewrite Hrow in Hcnt. apply Hcnt. }
  set (ws1 := openWindow recorded c (windowId c now) ws) in *.
  assert (Ho2 : opened recorded ws0 ws1) by by eapply opened_trans.
  rewrite (opened_row recorded ws0 ws _ Ho) in Hcw.
  destruct (caughtUp_bounds recorded held ws0 (windowId c now) Hr Hok0 (Hh _)) as (Hc0 & Hc1 & _).
  unfold counterOf in H. rewrite Hcw in H. cbn [default from_option id] in H.
  apply bind_Ok in H as (consumed & Hcons & H). apply counterUnits_same in Hcons as ->; [|done].
  apply bind_Ok in H as (heldv & Hheld & H). apply counterUnits_same in Hheld as ->; [|rewrite Hc1; apply Hh].
  rewrite (proj1 Hc) in H. cbn [mbind result_bind] in H. rewrite Hc1 in H.
  destruct ((0 <? delta) && _) eqn:Edeny; [by injection H as <- <-|].
  apply IH in H; auto.
  - apply Forall_app. split.
    + eapply Forall_impl; [exact Hlk|]. intros l (Hx & Hrest). split; [|exact Hrest]. exact (opened_keeps recorded ws0 ws ws1 _ Ho Ho1 Hx).
    + apply Forall_singleton. unfold locked_ok. cbn. split; [done|]. split; [done|]. split; [done|]. split; [done|]. split.
      * intros Hpos. rewrite (proj2 (Z.ltb_lt 0 delta) Hpos) in Edeny. cbn in Edeny. apply Z.ltb_ge in Edeny. lia.
      * destruct mode; [done|]. rewrite andb_true_r in Eskip. by apply Z.leb_gt in Eskip.
  - rewrite map_app. apply NoDup_app. split; [done|]. split; [|apply NoDup_singleton].
    intros w Hw%list_elem_of_fmap ->%list_elem_of_singleton. destruct Hw as (l & Hl & Hin).
    apply (Hsep l Hin). rewrite <- Hl. cbn. by left.
  - intros l [Hl| ->%list_elem_of_singleton]%elem_of_app; [|done]. intros Hin. apply (Hsep l Hl). by right.
Qed.

(** The loop from the windows of a write. *)
Lemma admit_ok recorded held mode now d ws controls ws' outcome : reads_ok recorded ws -> windows_ok held ws ->
  (forall w, 0 <= held w) -> Forall limit_ok controls -> NoDup (map k_policyId controls) ->
  admitControls recorded mode now d controls ws [] = Ok (ws', outcome) ->
  opened recorded ws ws' /\
  match outcome with
  | inl _ => True
  | inr all => Forall (locked_ok recorded held ws ws' mode) all /\ NoDup (map lc_window all)
  end.
Proof.
  intros Hr Hok Hh Hl Hn H. eapply admitControls_ok in H; [exact H|done..|apply opened_refl|done|done|constructor|constructor|].
  intros l Hin. by apply elem_of_nil in Hin.
Qed.

(** ** Holds by reservation *)

Lemma find_key {A B} `{EqDecision B} (key : A -> B) (l : list A) w x :
  List.find (fun x => bool_decide (key x = w)) l = Some x -> x ∈ l /\ key x = w.
Proof. intros [Hin Hk%bool_decide_eq_true_1]%find_some. split; [by apply list_elem_of_In|done]. Qed.

Lemma sum_of_key {A B} `{EqDecision B} (key : A -> B) (f : A -> Z) (l : list A) w : NoDup (map key l) ->
  sumZ (map f (List.filter (fun x => bool_decide (key x = w)) l)) =
    match List.find (fun x => bool_decide (key x = w)) l with Some x => f x | None => 0 end.
Proof.
  induction l as [|x l IH]; intros Hnd; [done|]. cbn [map List.filter List.find] in *.
  apply NoDup_cons in Hnd as [Hx Hnd]. case_bool_decide as Hk; [|by apply IH].
  cbn [map sumZ]. rewrite (filter_none _ l); [cbn; lia|]. intros y Hy. apply bool_decide_eq_false_2. intros Hky.
  apply Hx. rewrite Hk, <- Hky. by apply list_elem_of_fmap_2.
Qed.

Lemma heldIn_fresh rid open holds w : (forall h, h ∈ holds -> ch_reservation h <> rid) ->
  heldIn (rid :: open) holds w = heldIn open holds w.
Proof.
  intros Hf. unfold heldIn. f_equal. f_equal. induction holds as [|h holds IH]; [done|]. cbn [List.filter].
  rewrite IH by (intros x Hx; apply Hf; by right).
  replace (bool_decide (ch_reservation h ∈ rid :: open)) with (bool_decide (ch_reservation h ∈ open)); [done|].
  apply bool_decide_ext. rewrite elem_of_cons. specialize (Hf h ltac:(by left)). naive_solver.
Qed.

Lemma heldIn_app open l1 l2 w : heldIn open (l1 ++ l2) w = heldIn open l1 w + heldIn open l2 w.
Proof. unfold heldIn. by rewrite List.filter_app, map_app, sumZ_app. Qed.

Definition ownIn (holds : list ControlHold) (w : WindowId) : Z :=
  sumZ (map ch_held (List.filter (fun h => bool_decide (holdWindow h = w)) holds)).

Lemma heldIn_close rid open holds w : rid ∈ open ->
  heldIn (closeReservation rid open) holds w
    = heldIn open holds w - ownIn (List.filter (fun h => ch_reservation h =? rid) holds) w.
Proof.
  intros Hrid. unfold heldIn, ownIn. induction holds as [|h holds IH]; [done|]. cbn [List.filter].
  assert (Hc : forall r, r ∈ closeReservation rid open <-> r ∈ open /\ r <> rid).
  { intros r. unfold closeReservation. rewrite !list_elem_of_In, filter_In, negb_true_iff, Z.eqb_neq. done. }
  destruct (Z.eqb_spec (ch_reservation h) rid) as [Heq|Hne].
  - rewrite Heq, (bool_decide_eq_false_2 (rid ∈ closeReservation rid open)), (bool_decide_eq_true_2 (rid ∈ open)) by (done || naive_solver).
    cbn [andb List.filter]. case_bool_decide; cbn [map sumZ]; lia.
  - replace (bool_decide (ch_reservation h ∈ closeReservation rid open)) with (bool_decide (ch_reservation h ∈ open))
      by (apply bool_decide_ext; rewrite Hc; naive_solver).
    destruct (bool_decide (ch_reservation h ∈ open) && bool_decide (holdWindow h = w)); cbn [map sumZ]; lia.
Qed.

Lemma heldIn_nonneg open holds w : Forall (fun h => 0 < ch_held h) holds -> 0 <= heldIn open holds w.
Proof.
  intros H. apply sumZ_nonneg, Forall_map, Forall_forall. intros h Hh. apply list_elem_of_In, filter_In in Hh as [Hh _].
  rewrite Forall_forall in H. specialize (H h (proj2 (list_elem_of_In _ _) Hh)). lia.
Qed.

Record store_inv (s : ControlStore) : Prop := {
  si_windows : windows_ok (heldIn (ct_open s) (ct_holds s)) (ct_windows s);
  si_positive : Forall (fun h => 0 < ch_held h) (ct_holds s);
  si_limits : Forall (fun h => limit_ok (ch_control h)) (ct_holds s);
  si_distinct : NoDup (map (fun h => (ch_reservation h, holdWindow h)) (ct_holds s)) }.

Lemma holdsOf_distinct s rid : store_inv s -> NoDup (map holdWindow (holdsOf rid s)).
Proof.
  intros Hinv. pose proof (si_distinct s Hinv) as Hnd. unfold holdsOf. induction (ct_holds s) as [|h l IH]; [constructor|].
  cbn [map List.filter] in *. apply NoDup_cons in Hnd as [Hh Hnd]. specialize (IH Hnd).
  destruct (Z.eqb_spec (ch_reservation h) rid) as [Heq|]; [|done]. cbn [map]. apply NoDup_cons. split; [|done].
  intros (x & Hx & Hin)%list_elem_of_fmap. apply list_elem_of_In, filter_In in Hin as [Hin Hr%Z.eqb_eq].
  apply Hh. apply list_elem_of_fmap. exists x. split; [congruence|by apply list_elem_of_In].
Qed.

(** What the invariant reads of a hold. *)
Definition holdCore (h : ControlHold) : Z * ControlLimit * jsdate * Z :=
  (ch_reservation h, ch_control h, ch_start h, ch_held h).

(** Rewriting what a hold turned into changes nothing of it. *)
Lemma same_holds_inv f ws open holds : (forall h, holdCore (f h) = holdCore h) ->
  store_inv {| ct_windows := ws; ct_holds := holds; ct_open := open |} ->
  store_inv {| ct_windows := ws; ct_holds := map f holds; ct_open := open |}.
Proof.
  intros Hf [H1 H2 H3 H4]. cbn [ct_windows ct_holds ct_open] in *.
  assert (Hf' : forall h, ch_reservation (f h) = ch_reservation h /\ holdWindow (f h) = holdWindow h /\
    ch_held (f h) = ch_held h /\ ch_control (f h) = ch_control h).
  { intros h. specialize (Hf h). injection Hf as Hr Hc Hs Hh. unfold holdWindow. by rewrite Hr, Hc, Hs, Hh. }
  constructor; cbn [ct_windows ct_holds ct_open].
  - intros w. specialize (H1 w). replace (heldIn open (map f holds) w) with (heldIn open holds w); [done|].
    unfold heldIn. clear -Hf'. induction holds as [|h l IH]; [done|]. cbn [map List.filter].
    destruct (Hf' h) as (-> & -> & Hh & _). destruct (_ && _); cbn [map sumZ]; by rewrite ?Hh, IH.
  - apply Forall_map. eapply Forall_impl; [exact H2|]. intros h Hh. cbn. by destruct (Hf' h) as (_ & _ & -> & _).
  - apply Forall_map. eapply Forall_impl; [exact H3|]. intros h Hh. cbn. by destruct (Hf' h) as (_ & _ & _ & ->).
  - rewrite map_map. erewrite map_ext; [exact H4|]. intros h. cbn. by destruct (Hf' h) as (-> & -> & _).
Qed.

(** Settled and unsettled windows: the store after writing [ws] and closing [rid]. *)
Lemma closed_inv s rid ws : store_inv s -> rid ∈ ct_open s ->
  windows_ok (fun w => heldIn (ct_open s) (ct_holds s) w - ownIn (holdsOf rid s) w) ws ->
  store_inv {| ct_windows := ws; ct_holds := ct_holds s; ct_open := closeReservation rid (ct_open s) |}.
Proof.
  intros [H1 H2 H3 H4] Hrid Hws. constructor; cbn; try done. intros w. specialize (Hws w).
  rewrite heldIn_close by done. exact Hws.
Qed.

Lemma select_ok d controls : Forall limit_ok controls -> NoDup (map k_policyId controls) ->
  Forall limit_ok (selectControls d controls) /\ NoDup (map k_policyId (selectControls d controls)).
Proof.
  intros Hlim Hnd. unfold selectControls. split.
  - rewrite sortBy_perm. apply Forall_forall. intros c Hc. apply list_elem_of_In, filter_In in Hc as [Hc _].
    rewrite Forall_forall in Hlim. by apply Hlim, list_elem_of_In.
  - rewrite (Permutation_map k_policyId (sortBy_perm byPolicy _)). by apply NoDup_filter_key.
Qed.

(** What a write admits: holds placed beside the caught-up count stay within the limit, and
    so does what it counts beyond it. *)
Definition admitted (recorded : WindowId -> Z) (ws ws' : gmap WindowId Counter) : Prop :=
  forall w c, ws' !! w = Some c ->
    (heldBefore ws w < held_value c -> caughtUp recorded ws w + held_value c <= limitOf (fst w)) /\
    (caughtUp recorded ws w < consumed_value c -> consumed_value c + held_value c <= limitOf (fst w)).

Lemma opened_admitted recorded ws ws' : opened recorded ws ws' -> admitted recorded ws ws'.
Proof.
  intros Ho w c Hc. destruct (Ho w) as [H|H]; rewrite H in Hc.
  - pose proof (caughtUp_least recorded ws w c Hc). unfold heldBefore. rewrite Hc. cbn. lia.
  - injection Hc as <-. cbn. lia.
Qed.

Lemma consume_inv recorded now d controls s s' out : reads_ok recorded (ct_windows s) -> store_inv s -> Forall limit_ok controls ->
  NoDup (map k_policyId controls) -> consumeControls recorded now d controls s = Ok (s', out) ->
  store_inv s' /\ admitted recorded (ct_windows s) (ct_windows s').
Proof.
  intros Hr Hinv Hlim Hnd H. unfold consumeControls in H. apply bind_Ok in H as ([ws outcome] & Ha & H).
  pose proof (fun w => heldIn_nonneg (ct_open s) _ w (si_positive s Hinv)) as Hh.
  destruct Hinv as [H1 H2 H3 H4]. destruct (select_ok d controls Hlim Hnd) as [S1 S2].
  destruct (admit_ok recorded _ mode_consume now d _ _ ws outcome Hr H1 Hh S1 S2 Ha) as [Ho Hout].
  pose proof (opened_ok _ _ _ _ Hr H1 Hh Ho) as Hws.
  destruct outcome as [denied|locked]; injection H as <- _; [split; [by constructor|by apply opened_admitted]|].
  destruct Hout as [Hl Hndl]. rewrite Forall_forall in Hl. split; [constructor; cbn; try done|].
  all: intros w; cbn [ct_windows]; rewrite fold_alter_lookup by done;
    destruct (List.find _ locked) as [l|] eqn:E; [|first [exact (Hws w)|by apply opened_admitted] ];
    apply find_key in E as [Hin <-]; destruct (Hl l Hin) as (Hc & _ & _ & _ & Hfit & _); rewrite Hc;
    pose proof (caughtUp_bounds recorded _ _ (lc_window l) Hr H1 (Hh _)) as Hb;
    unfold counter_ok, addConsumed in *; cbn in Hb |- *.
  - destruct (Z.ltb_spec 0 (lc_delta l)); [specialize (Hfit ltac:(lia)); lia|].
    destruct Hb as (B1 & B2 & B3 & B4 & B5). split; [lia|]. split; [done|]. split; [lia|]. split; [done|].
    intros Hcal. specialize (B5 Hcal). lia.
  - intros c [= <-]. cbn. split; [unfold caughtRow, heldBefore in *; lia|].
    intros Hlt. specialize (Hfit ltac:(lia)). lia.
Qed.

Lemma hold_inv recorded now rid d controls s s' out : reads_ok recorded (ct_windows s) -> store_inv s -> Forall limit_ok controls ->
  NoDup (map k_policyId controls) -> (forall h, h ∈ ct_holds s -> ch_reservation h <> rid) ->
  holdControls recorded now rid d controls s = Ok (s', out) ->
  store_inv s' /\ admitted recorded (ct_windows s) (ct_windows s').
Proof.
  intros Hr Hinv Hlim Hnd Hfresh H. unfold holdControls in H. apply bind_Ok in H as ([ws outcome] & Ha & H).
  pose proof (fun w => heldIn_nonneg (ct_open s) _ w (si_positive s Hinv)) as Hh.
  destruct Hinv as [H1 H2 H3 H4]. destruct (select_ok d controls Hlim Hnd) as [S1 S2].
  destruct (admit_ok recorded _ mode_hold now d _ _ ws outcome Hr H1 Hh S1 S2 Ha) as [Ho Hout].
  pose proof (opened_ok _ _ _ _ Hr H1 Hh Ho) as Hws.
  destruct outcome as [denied|locked]; injection H as <- _; [split; [by constructor|by apply opened_admitted]|].
  destruct Hout as [Hl Hndl]. rewrite Forall_forall in Hl.
  set (newHold := fun l : LockedControl => {| ch_reservation := rid; ch_control := lc_control l; ch_start := snd (lc_window l); ch_held := lc_delta l; ch_consumed := 0 |}).
  assert (Hwin : forall l, l ∈ locked -> holdWindow (newHold l) = lc_window l).
  { intros l Hin. destruct (Hl l Hin) as (_ & _ & Hfst & _). unfold holdWindow. cbn. rewrite <- Hfst. by destruct (lc_window l). }
  assert (Hnew : forall w, heldIn (rid :: ct_open s) (map newHold locked) w
    = match List.find (fun l => bool_decide (lc_window l = w)) locked with Some l => lc_delta l | None => 0 end).
  { intros w. rewrite <- (sum_of_key lc_window lc_delta locked w Hndl). unfold heldIn.
    clear -Hwin. induction locked as [|l locked IH]; [done|]. cbn [map List.filter].
    rewrite (Hwin l ltac:(by left)), (bool_decide_eq_true_2 (ch_reservation (newHold l) ∈ rid :: ct_open s)) by by left.
    cbn [andb]. assert (IH' := IH ltac:(intros x Hx; apply Hwin; by right)).
    case_bool_decide; cbn [map sumZ]; rewrite IH'; done. }
  assert (Hfits : forall l, l ∈ locked -> ws !! lc_window l = Some (caughtRow recorded (ct_windows s) (lc_window l)) /\
    0 < lc_delta l /\ caughtUp recorded (ct_windows s) (lc_window l) + heldIn (ct_open s) (ct_holds s) (lc_window l) + lc_delta l
      <= limitOf (fst (lc_window l)) /\ counter_ok (heldIn (ct_open s) (ct_holds s) (lc_window l)) (lc_window l)
        (caughtRow recorded (ct_windows s) (lc_window l))).
  { intros l Hin. destruct (Hl l Hin) as (Hc & _ & _ & _ & Hfit & Hpos). split; [done|]. split; [done|].
    split; [by apply Hfit|]. by apply caughtUp_bounds. }
  split; [constructor; cbn [ct_windows ct_holds ct_open]|].
  - intros w. rewrite fold_alter_lookup by done. rewrite heldIn_app, heldIn_fresh, Hnew by done. pose proof (Hws w) as Hw.
    destruct (List.find _ locked) as [l|] eqn:E; [|by rewrite Z.add_0_r].
    apply find_key in E as [Hin <-]. destruct (Hfits l Hin) as (Hc & Hpos & Hfit & Hb). rewrite Hc.
    unfold counter_ok, addHeld in *. cbn in Hb |- *. auto 8 with lia.
  - apply Forall_app. split; [done|]. apply Forall_map, Forall_forall. intros l Hin. by destruct (Hfits l Hin) as (_ & Hpos & _).
  - apply Forall_app. split; [done|]. apply Forall_map, Forall_forall. intros l Hin. by destruct (Hl l Hin) as (_ & _ & _ & Hlo & _).
  - rewrite map_app. apply NoDup_app. split; [done|]. split.
    + intros p (h & -> & Hh')%list_elem_of_fmap (h' & Heq & Hin')%list_elem_of_fmap.
      apply list_elem_of_fmap in Hin' as (l & -> & _). injection Heq as Hrid _. by apply (Hfresh h).
    + rewrite map_map. assert (Hmap : map (fun l => (ch_reservation (newHold l), holdWindow (newHold l))) locked
        = map (pair rid) (map lc_window locked)).
      { rewrite map_map. apply map_ext_in. intros l Hin. by rewrite Hwin by by apply list_elem_of_In. }
      rewrite Hmap. by apply (NoDup_fmap_2 (pair rid)).
  - intros w. cbn [ct_windows]. rewrite fold_alter_lookup by done.
    destruct (List.find _ locked) as [l|] eqn:E; [|by apply opened_admitted].
    apply find_key in E as [Hin <-]. destruct (Hfits l Hin) as (Hc & Hpos & Hfit & Hb). rewrite Hc.
    intros c [= <-]. unfold counter_ok, caughtRow, heldBefore in *. cbn in Hb |- *. lia.
Qed.

Lemma dropHolds_lookup hs ws w : NoDup (map holdWindow hs) ->
  dropHolds hs ws !! w =
    match List.find (fun h => bool_decide (holdWindow h = w)) hs with
    | Some h => dropHeld (ch_held h) <$> ws !! w | None => ws !! w end.
Proof. intros. unfold dropHolds. by apply (fold_alter_lookup holdWindow (fun h => dropHeld (ch_held h))). Qed.

Lemma ownIn_find s rid w : store_inv s ->
  ownIn (holdsOf rid s) w = match List.find (fun h => bool_decide (holdWindow h = w)) (holdsOf rid s) with
    | Some h => ch_held h | None => 0 end.
Proof. intros Hinv. apply (sum_of_key holdWindow ch_held). by apply holdsOf_distinct. Qed.

Lemma ownIn_bounds s rid w : store_inv s -> rid ∈ ct_open s ->
  0 <= ownIn (holdsOf rid s) w <= heldIn (ct_open s) (ct_holds s) w.
Proof.
  intros Hinv Hrid. pose proof (heldIn_close rid (ct_open s) (ct_holds s) w Hrid) as H.
  change (List.filter (fun h => ch_reservation h =? rid) (ct_holds s)) with (holdsOf rid s) in H.
  pose proof (heldIn_nonneg (closeReservation rid (ct_open s)) (ct_holds s) w (si_positive s Hinv)).
  split; [|lia]. apply sumZ_nonneg, Forall_map, Forall_forall. intros h Hh.
  apply list_elem_of_In, filter_In in Hh as [Hh _]. apply filter_In in Hh as [Hh _].
  pose proof (si_positive s Hinv) as Hp. rewrite Forall_forall in Hp. specialize (Hp h (proj2 (list_elem_of_In _ _) Hh)). lia.
Qed.

Lemma release_inv rid s : store_inv s -> store_inv (releaseControlHolds rid s).
Proof.
  intros Hinv. unfold releaseControlHolds. case_decide as Hrid; [|done]. apply closed_inv; [done|done|].
  intros w. rewrite dropHolds_lookup by by apply holdsOf_distinct. pose proof (si_windows s Hinv w) as Hw.
  pose proof (ownIn_bounds s rid w Hinv Hrid) as Hb. rewrite ownIn_find in Hb |- * by done.
  destruct (List.find _ (holdsOf rid s)) as [h|].
  - destruct (ct_windows s !! w); cbn [fmap option_fmap option_map]; [|lia]. destruct Hw as (W1 & W2 & W3 & W4 & W5).
    unfold counter_ok, dropHeld. cbn [consumed_value held_value]. split; [done|]. split; [lia|]. split; [lia|]. split; [lia|].
    intros Hcal. specialize (W5 Hcal). lia.
  - rewrite Z.sub_0_r. exact Hw.
Qed.

Lemma release_admitted recorded rid s : store_inv s -> admitted recorded (ct_windows s) (ct_windows (releaseControlHolds rid s)).
Proof.
  intros Hinv. unfold releaseControlHolds. case_decide as Hrid; [|by apply opened_admitted, opened_refl].
  intros w c. cbn [ct_windows]. rewrite dropHolds_lookup by by apply holdsOf_distinct.
  pose proof (si_windows s Hinv w) as Hw. pose proof (ownIn_bounds s rid w Hinv Hrid) as Hb. rewrite ownIn_find in Hb by done.
  unfold heldBefore. pose proof (caughtUp_least recorded (ct_windows s) w) as Hleast.
  destruct (List.find _ (holdsOf rid s)); destruct (ct_windows s !! w) as [row|]; try done; intros [= <-];
    specialize (Hleast _ eq_refl); destruct Hw as (W1 & W2 & _); cbn; lia.
Qed.

(** ** Confirmations *)

Lemma openGroups_ok recorded held groups : (forall w, 0 <= held w) ->
  Forall (fun g => limit_ok (cg_control g) /\ fst (cg_window g) = k_policyId (cg_control g)) groups ->
  forall ws, reads_ok recorded ws -> windows_ok held ws ->
  opened recorded ws (openGroups recorded groups ws) /\
  (forall g, g ∈ groups -> openGroups recorded groups ws !! cg_window g = Some (caughtRow recorded ws (cg_window g))).
Proof.
  intros Hh. induction groups as [|g groups IH]; intros Hg ws Hr Hok.
  { split; [apply opened_refl|]. by intros g Hg'%elem_of_nil. }
  apply Forall_cons in Hg as [ [Hl Hp] Hg]. cbn [openGroups fold_left].
  destruct (openWindow_lookup recorded (cg_control g) (cg_window g) ws Hl Hp) as [Ho Hc].
  { intros row Hrow. specialize (Hok (cg_window g)). rewrite Hrow in Hok. apply Hok. }
  destruct (IH Hg _ (opened_reads _ _ _ Hr Ho) (opened_ok _ _ _ _ Hr Hok Hh Ho)) as [I1 I2]. split; [by eapply opened_trans|].
  intros g' [ ->|Hin]%elem_of_cons; [exact (opened_keeps _ _ _ _ _ Ho I1 Hc)|].
  specialize (I2 g' Hin). by rewrite (opened_row _ _ _ _ Ho) in I2.
Qed.

(** What settling one group does to its window. *)
Definition settled (target : Z) (g : ConfirmationGroup) (c : Counter) : Counter :=
  addConsumed target (fold_left (fun c h => dropHeld (ch_held h) c) (cg_holds g) c).

Lemma dropHolds_one w hs : forall ws, Forall (fun h => holdWindow h = w) hs ->
  dropHolds hs ws = alter (fun c => fold_left (fun c h => dropHeld (ch_held h) c) hs c) w ws.
Proof.
  induction hs as [|h hs IH]; intros ws Hw; cbn [dropHolds fold_left].
  { symmetry. apply alter_id. done. }
  apply Forall_cons in Hw as [Hh Hw]. etransitivity; [exact (IH _ Hw)|]. rewrite Hh. apply alter_alter_eq.
Qed.

Definition group_ok (existing : list ControlHold) (g : ConfirmationGroup) : Prop :=
  cg_holds g = List.filter (fun h => bool_decide (holdWindow h = cg_window g)) existing /\
  fst (cg_window g) = k_policyId (cg_control g) /\ limit_ok (cg_control g).

Lemma settleGroup_alter existing d ws g ws' : group_ok existing g -> settleGroup d ws g = Ok ws' ->
  exists target, controlDelta (cg_control g) d = Ok target /\ ws' = alter (settled target g) (cg_window g) ws.
Proof.
  intros (Hh & _) H. unfold settleGroup in H. apply bind_Ok in H as (target & Ht & H). injection H as <-.
  exists target. split; [done|]. rewrite (dropHolds_one (cg_window g)).
  - apply alter_alter_eq.
  - rewrite Hh. apply Forall_forall. intros h Hin. by apply list_elem_of_In, filter_In in Hin as [_ ?%bool_decide_eq_true_1].
Qed.

Lemma settleGroups_lookup existing d groups w : forall ws ws', NoDup (map cg_window groups) ->
  Forall (group_ok existing) groups -> foldM (settleGroup d) groups ws = Ok ws' ->
  match List.find (fun g => bool_decide (cg_window g = w)) groups with
  | Some g => exists target, controlDelta (cg_control g) d = Ok target /\ ws' !! w = settled target g <$> ws !! w
  | None => ws' !! w = ws !! w
  end.
Proof.
  induction groups as [|g groups IH]; intros ws ws' Hnd Hok H; cbn [foldM map List.find] in *.
  { by injection H as <-. }
  apply NoDup_cons in Hnd as [Hg Hnd]. apply Forall_cons in Hok as [Hgok Hok].
  apply bind_Ok in H as (ws1 & H1 & H). destruct (settleGroup_alter _ _ _ _ _ Hgok H1) as (target & Ht & ->).
  specialize (IH _ _ Hnd Hok H). case_bool_decide as Hk.
  - subst w. destruct (List.find _ groups) as [g'|] eqn:E.
    { apply find_key in E as [Hin Hk]. destruct Hg. rewrite <- Hk. by apply list_elem_of_fmap_2. }
    exists target. split; [done|]. rewrite IH. apply lookup_alter_eq.
  - destruct (List.find _ groups) as [g'|]; [destruct IH as (t & Ht' & IH); exists t; split; [done|] |];
      rewrite IH; rewrite lookup_alter_ne by done; done.
Qed.

Lemma settled_counter target g c : 0 <= ownHeld g <= held_value c -> Forall (fun h => 0 < ch_held h) (cg_holds g) ->
  settled target g c = {| consumed_value := Z.max (consumed_value c + target) 0; held_value := held_value c - ownHeld g |}.
Proof.
  unfold settled, ownHeld. generalize (cg_holds g) as hs. intros hs Hb Hpos.
  enough (Hf : fold_left (fun c h => dropHeld (ch_held h) c) hs c
    = {| consumed_value := consumed_value c; held_value := held_value c - sumZ (map ch_held hs) |}) by by rewrite Hf.
  revert c Hb. induction hs as [|h hs IH]; intros c Hb; cbn [map sumZ fold_left] in *.
  { destruct c. cbn. f_equal. lia. }
  apply Forall_cons in Hpos as [Hh Hpos].
  assert (Hs : 0 <= sumZ (map ch_held hs)).
  { apply sumZ_nonneg, Forall_map. eapply Forall_impl; [exact Hpos|]. cbn. lia. }
  rewrite IH; cbn [dropHeld held_value consumed_value]; [|done|lia]. f_equal. lia.
Qed.

Lemma firstDenial_fits d ws groups : firstDenial d ws groups = Ok None ->
  forall g, g ∈ groups -> confirmDenial d ws g = Ok None.
Proof.
  induction groups as [|g groups IH]; cbn [firstDenial]; intros H g' Hg; [by apply elem_of_nil in Hg|].
  apply bind_Ok in H as ([x|] & Hd & H); [done|]. apply elem_of_cons in Hg as [ ->|Hg]; [done|by apply IH].
Qed.

(** *** The groups of a confirmation *)

Lemma activeGroups_elem now existing controls g : g ∈ activeGroups now existing controls ->
  exists c, c ∈ controls /\ cg_control g = c /\ cg_window g = windowId c now /\
    cg_holds g = List.filter (fun h => bool_decide (holdWindow h = cg_window g)) existing.
Proof.
  unfold activeGroups. intros (c & Hc & H)%list_elem_of_omap. destruct (_ && _); [done|]. injection H as <-.
  by exists c.
Qed.

Lemma activeGroups_windows now existing controls : NoDup (map k_policyId controls) ->
  NoDup (map cg_window (activeGroups now existing controls)).
Proof.
  induction controls as [|c controls IH]; intros Hnd; [constructor|]. cbn [map] in Hnd.
  apply NoDup_cons in Hnd as [Hc Hnd]. specialize (IH Hnd). unfold activeGroups. cbn [omap list_omap].
  destruct (_ && _); [exact IH|]. cbn [map cg_window]. apply NoDup_cons. split; [|exact IH].
  intros (g & Hw & Hg)%list_elem_of_fmap. apply activeGroups_elem in Hg as (c' & Hc' & _ & Hw' & _).
  apply Hc. apply list_elem_of_fmap. exists c'. split; [|done]. rewrite Hw' in Hw. by injection Hw.
Qed.

Lemma filter_own h existing : NoDup (map holdWindow existing) -> h ∈ existing ->
  List.filter (fun h' => bool_decide (holdWindow h' = holdWindow h)) existing = [h].
Proof.
  induction existing as [|x l IH]; intros Hnd Hh; [by apply elem_of_nil in Hh|]. cbn [map List.filter] in *.
  apply NoDup_cons in Hnd as [Hx Hnd]. apply elem_of_cons in Hh as [ ->|Hh].
  - rewrite bool_decide_eq_true_2 by done. f_equal. apply filter_none. intros y Hy. apply bool_decide_eq_false_2.
    intros Heq. apply Hx. rewrite <- Heq. by apply list_elem_of_fmap_2.
  - rewrite bool_decide_eq_false_2; [by apply IH|]. intros Heq. apply Hx. rewrite Heq. by apply list_elem_of_fmap_2.
Qed.

Lemma adopted_iff groups h : adopted groups h = true <-> holdWindow h ∈ map cg_window groups.
Proof.
  unfold adopted. rewrite existsb_exists. split.
  - intros (g & Hg & Hw%bool_decide_eq_true_1). rewrite Hw. apply list_elem_of_fmap_2. by apply list_elem_of_In.
  - intros (g & Hw & Hg)%list_elem_of_fmap. exists g. split; [by apply list_elem_of_In|by apply bool_decide_eq_true_2].
Qed.

Lemma confirmationGroups_ok now existing controls : NoDup (map holdWindow existing) ->
  Forall (fun h => limit_ok (ch_control h)) existing -> Forall limit_ok controls -> NoDup (map k_policyId controls) ->
  let groups := confirmationGroups now existing controls in
  Forall (group_ok existing) groups /\ NoDup (map cg_window groups) /\
  (forall h, h ∈ existing -> holdWindow h ∈ map cg_window groups).
Proof.
  intros Hex Hexl Hlim Hnd groups. subst groups. unfold confirmationGroups.
  rewrite Forall_forall in Hexl. rewrite Forall_forall in Hlim.
  set (active := activeGroups now existing controls).
  set (single := fun h => {| cg_control := ch_control h; cg_window := holdWindow h; cg_holds := [h] |}).
  set (rest := List.filter (fun h => negb (adopted active h)) existing).
  assert (Hsw : map cg_window (map single rest) = map holdWindow rest) by apply map_map.
  assert (Hperm : sortBy (fun l r => k_policyId (cg_control l) <? k_policyId (cg_control r)) (active ++ map single rest)
    ≡ₚ active ++ map single rest) by apply sortBy_perm.
  split; [|split].
  - rewrite Hperm. apply Forall_app. split; apply Forall_forall.
    + intros g (c & Hc & Hgc & Hw & Hholds)%activeGroups_elem. split; [done|]. rewrite Hw, Hgc. split; [done|by apply Hlim].
    + intros g (h & -> & Hh)%list_elem_of_fmap. apply list_elem_of_In, filter_In in Hh as [Hh%list_elem_of_In _].
      unfold group_ok. cbn. split; [by rewrite filter_own|]. split; [done|by apply Hexl].
  - rewrite (Permutation_map cg_window Hperm), map_app, Hsw. apply NoDup_app. split; [by apply activeGroups_windows|].
    split; [|by apply NoDup_filter_key].
    intros w Hw (h & -> & Hh)%list_elem_of_fmap. apply list_elem_of_In, filter_In in Hh as [_ Hh%negb_true_iff].
    apply adopted_iff in Hw. congruence.
  - intros h Hh. rewrite (Permutation_map cg_window Hperm), map_app, Hsw. apply elem_of_app.
    destruct (adopted active h) eqn:E; [left; by apply adopted_iff|right].
    apply list_elem_of_fmap_2. apply list_elem_of_In, filter_In. rewrite E. split; [by apply list_elem_of_In|done].
Qed.

Lemma ownHeld_window existing g : group_ok existing g -> ownHeld g = ownIn existing (cg_window g).
Proof. intros [Hh _]. unfold ownHeld, ownIn. by rewrite Hh. Qed.

Lemma ownIn_none existing w : (forall h, h ∈ existing -> holdWindow h <> w) -> ownIn existing w = 0.
Proof.
  intros H. unfold ownIn. rewrite filter_none; [done|]. intros h Hh. apply bool_decide_eq_false_2. by apply H.
Qed.

Lemma confirmDenial_none d ws g c : 0 <= consumed_value c -> 0 <= held_value c -> limit_ok (cg_control g) ->
  ws !! cg_window g = Some c -> confirmDenial d ws g = Ok None ->
  exists target, controlDelta (cg_control g) d = Ok target /\
    (0 < target -> consumed_value c + Z.max (held_value c - ownHeld g) 0 + target <= limitOf (k_policyId (cg_control g))).
Proof.
  intros Hc Hh Hlim Hw H. unfold confirmDenial in H. apply bind_Ok in H as (target & Ht & H). exists target. split; [done|].
  unfold counterOf in H. rewrite Hw in H. cbn [default from_option id] in H.
  rewrite !units_roundtrip in H by lia. rewrite (proj1 Hlim) in H. cbn [mbind result_bind] in H. intros Hpos.
  rewrite (proj2 (Z.ltb_lt 0 target) Hpos) in H. cbn [andb] in H.
  injection H as H. destruct (limitOf _ <? _) eqn:E in H; [done|]. apply Z.ltb_ge in E. revert E.
  destruct (Z.ltb_spec (ownHeld g) (held_value c)); lia.
Qed.

(** The windows of a confirmation, opened: every group's window has its row. *)
Lemma opened_groups recorded now rid d controls s : reads_ok recorded (ct_windows s) -> store_inv s -> Forall limit_ok controls ->
  NoDup (map k_policyId controls) -> rid ∈ ct_open s ->
  let existing := holdsOf rid s in
  let groups := confirmationGroups now existing (selectControls d controls) in
  let ws := openGroups recorded (activeGroups now existing (selectControls d controls)) (ct_windows s) in
  Forall (group_ok existing) groups /\ NoDup (map cg_window groups) /\
  (forall h, h ∈ existing -> holdWindow h ∈ map cg_window groups) /\ opened recorded (ct_windows s) ws /\
  (forall g, g ∈ groups -> is_Some (ws !! cg_window g)).
Proof.
  intros Hr Hinv Hlim Hnd Hrid existing groups ws. destruct (select_ok d controls Hlim Hnd) as [S1 S2].
  assert (Hhl : Forall (fun h => limit_ok (ch_control h)) existing).
  { apply Forall_forall. intros h Hh. apply list_elem_of_In, filter_In in Hh as [Hh%list_elem_of_In _].
    pose proof (si_limits s Hinv) as Hp. rewrite Forall_forall in Hp. by apply Hp. }
  destruct (confirmationGroups_ok now existing _ (holdsOf_distinct s rid Hinv) Hhl S1 S2) as (Hgok & Hgnd & Hall).
  split; [done|]. split; [done|]. split; [done|].
  set (active := activeGroups now existing (selectControls d controls)) in *.
  assert (Hact : Forall (fun g => limit_ok (cg_control g) /\ fst (cg_window g) = k_policyId (cg_control g)) active).
  { apply Forall_forall. intros g (c & Hc & -> & -> & _)%activeGroups_elem. split; [by apply (proj1 (Forall_forall _ _) S1)|done]. }
  destruct (openGroups_ok recorded _ active (fun w => heldIn_nonneg _ _ w (si_positive s Hinv)) Hact _ Hr (si_windows s Hinv))
    as [Ho Hc]. split; [exact Ho|]. intros g Hg. apply list_elem_of_In, (Permutation_in _ (sortBy_perm _ _)), list_elem_of_In in Hg.
  apply elem_of_app in Hg as [Hg|Hg]; [exact (ex_intro _ _ (Hc g Hg))|].
  apply list_elem_of_fmap in Hg as (h & -> & Hh). cbn. apply list_elem_of_In, filter_In in Hh as [Hh%list_elem_of_In _].
  destruct (Ho (holdWindow h)) as [Heq|Heq]; [|fold ws in Heq; rewrite Heq; by eexists].
  fold ws in Heq. rewrite Heq. pose proof (si_windows s Hinv (holdWindow h)) as Hw.
  destruct (ct_windows s !! holdWindow h); [by eexists|exfalso].
  pose proof (ownIn_bounds s rid (holdWindow h) Hinv Hrid) as Hb. fold existing in Hb.
  assert (0 < ch_held h).
  { pose proof (si_positive s Hinv) as Hp. rewrite Forall_forall in Hp. apply Hp.
    by apply list_elem_of_In, filter_In in Hh as [Hh%list_elem_of_In _]. }
  assert (ownIn existing (holdWindow h) = ch_held h); [|lia].
  unfold ownIn. rewrite filter_own; [cbn; lia|by apply holdsOf_distinct|done].
Qed.

(** A settled window: its own holds are gone and its count fits, or only fell. *)
Lemma settled_ok held own w c target : counter_ok held w c -> 0 <= own <= held ->
  (0 < target -> consumed_value c + Z.max (held_value c - own) 0 + target <= limitOf (fst w)) ->
  counter_ok (held - own) w {| consumed_value := Z.max (consumed_value c + target) 0; held_value := held_value c - own |}.
Proof.
  intros (W1 & W2 & W3 & W4 & W5) Hown Hfit. unfold counter_ok. cbn.
  destruct (Z.ltb_spec 0 target); [specialize (Hfit ltac:(lia)); auto 8 with lia|].
  split; [lia|]. split; [lia|]. split; [lia|]. split; [lia|]. intros Hcal. specialize (W5 Hcal). lia.
Qed.

Lemma confirm_inv recorded now rid d controls s s' out : reads_ok recorded (ct_windows s) -> store_inv s -> Forall limit_ok controls ->
  NoDup (map k_policyId controls) -> rid ∈ ct_open s -> confirmControlHolds recorded now rid d controls s = Ok (s', out) ->
  store_inv s' /\ admitted recorded (ct_windows s) (ct_windows s').
Proof.
  intros Hr Hinv Hlim Hnd Hrid H. unfold confirmControlHolds in H.
  destruct (opened_groups recorded now rid d controls s Hr Hinv Hlim Hnd Hrid) as (Hgok & Hgnd & Hall & Ho & Hsome).
  set (groups := confirmationGroups now (holdsOf rid s) (selectControls d controls)) in *.
  set (ws := openGroups recorded _ (ct_windows s)) in *.
  pose proof (fun w => heldIn_nonneg (ct_open s) _ w (si_positive s Hinv)) as Hh.
  pose proof (opened_ok _ _ _ _ Hr (si_windows s Hinv) Hh Ho) as Hws.
  apply bind_Ok in H as ([denied|] & Hden & H).
  { injection H as <- _. split; [destruct Hinv; by constructor|by apply opened_admitted]. }
  apply bind_Ok in H as (ws' & Hset & H). injection H as <- _.
  assert (Hrow : forall w, match List.find (fun g => bool_decide (cg_window g = w)) groups with
    | Some g => exists c target, ws !! w = Some c /\
        ws' !! w = Some {| consumed_value := Z.max (consumed_value c + target) 0;
                           held_value := held_value c - ownIn (holdsOf rid s) w |} /\
        (0 < target -> consumed_value c + Z.max (held_value c - ownIn (holdsOf rid s) w) 0 + target <= limitOf (fst w))
    | None => ws' !! w = ws !! w /\ ownIn (holdsOf rid s) w = 0
    end).
  { intros w. pose proof (settleGroups_lookup _ d groups w ws ws' Hgnd Hgok Hset) as Hl. pose proof (Hws w) as Hw.
    pose proof (ownIn_bounds s rid w Hinv Hrid) as Hb. destruct (List.find _ groups) as [g|] eqn:E.
    - apply find_key in E as [Hin <-]. destruct Hl as (target & Ht & Hl). destruct (Hsome g Hin) as [c Hc].
      rewrite Hc in Hw, Hl. cbn [fmap option_fmap option_map] in Hl. destruct Hw as (W1 & W2 & _).
      rewrite Forall_forall in Hgok. specialize (Hgok g Hin). pose proof (ownHeld_window _ _ Hgok) as Hown.
      destruct Hgok as (Hgh & Hgp & Hgl).
      destruct (confirmDenial_none d ws g c W1 ltac:(lia) Hgl Hc (firstDenial_fits d ws groups Hden g Hin)) as (t & Ht' & Hfit).
      rewrite Ht in Ht'. injection Ht' as <-. exists c, target. split; [done|]. rewrite <- Hown, <- Hgp in *.
      split; [|exact Hfit]. rewrite Hl. f_equal. apply settled_counter; [lia|].
      rewrite Hgh. apply Forall_forall. intros h Hin'. apply list_elem_of_In, filter_In in Hin' as [Hin' _].
      apply filter_In in Hin' as [Hin'%list_elem_of_In _].
      pose proof (si_positive s Hinv) as Hp. rewrite Forall_forall in Hp. by apply Hp.
    - split; [done|]. apply ownIn_none. intros h Hin <-. specialize (Hall h Hin). apply list_elem_of_fmap in Hall as (g & Hg & Hgin).
      apply list_elem_of_In in Hgin. pose proof (find_none _ _ E g Hgin) as Hf. cbn in Hf. case_bool_decide; congruence. }
  split.
  - apply same_holds_inv.
    { intros h. unfold settledHold. destruct (ch_reservation h =? rid); [|done]. by destruct (List.find _ groups). }
    apply closed_inv; [done|done|]. intros w. specialize (Hrow w). pose proof (Hws w) as Hw. pose proof (ownIn_bounds s rid w Hinv Hrid).
    destruct (List.find _ groups) as [g|].
    + destruct Hrow as (c & target & Hc & -> & Hfit). rewrite Hc in Hw. by apply settled_ok.
    + destruct Hrow as [ -> ->]. rewrite Z.sub_0_r. exact Hw.
  - cbn [ct_windows]. intros w c' Hc'. specialize (Hrow w). pose proof (ownIn_bounds s rid w Hinv Hrid) as Hb.
    destruct (List.find _ groups) as [g|]; [|destruct Hrow as [Heq _]; rewrite Heq in Hc'; by apply (opened_admitted recorded _ ws)].
    destruct Hrow as (c & target & Hc & Heq & Hfit). rewrite Heq in Hc'. injection Hc' as <-. cbn.
    pose proof (Hws w) as Hw. rewrite Hc in Hw. destruct Hw as (W1 & W2 & _).
    assert (Hle : consumed_value c <= caughtUp recorded (ct_windows s) w /\ held_value c = heldBefore (ct_windows s) w).
    { destruct (Ho w) as [Heq'|Heq']; rewrite Heq' in Hc; [|by injection Hc as <-].
      split; [by apply caughtUp_least|]. unfold heldBefore. by rewrite Hc. }
    destruct Hle as [Hle <-]. split; [lia|]. intros Hlt. specialize (Hfit ltac:(lia)). lia.
Qed.

(** *** What the recorded entries add up to *)

(** What writes counted in a window: beyond what a calendar window opened with, and all of
    a lifetime window's count. *)
Definition countedIn (ws : gmap WindowId Counter) (w : WindowId) : Z :=
  match ws !! w with Some c => consumed_value c - (if lifetimeOf (fst w) then 0 else opening w) | None => 0 end.

(** Whether a window only counts what writes enter. *)
Definition exactly (w : WindowId) : bool := negb (lifetimeOf (fst w)).

Definition entered (w : WindowId) (entries : list (WindowId * Z)) : Z :=
  sumZ (map snd (List.filter (fun e => bool_decide (fst e = w)) entries)).

Lemma entered_omap {A} (key : A -> WindowId) (f : A -> Z) (keep : A -> bool) (l : list A) w :
  NoDup (map key l) -> (forall x, keep x = false -> f x = 0) ->
  entered w (omap (fun x => if keep x then Some (key x, f x) else None) l) =
    match List.find (fun x => bool_decide (key x = w)) l with Some x => f x | None => 0 end.
Proof.
  intros Hnd Hf. rewrite <- (sum_of_key key f l w Hnd). unfold entered. clear Hnd. induction l as [|x l IH]; [done|].
  cbn [omap list_omap List.filter]. destruct (keep x) eqn:Ek; cbn [List.filter fst].
  - case_bool_decide; cbn [map sumZ snd]; by rewrite IH.
  - case_bool_decide; cbn [map sumZ]; rewrite IH; [rewrite (Hf x Ek)|]; done.
Qed.

Lemma omap_keys_NoDup {A} (key : A -> WindowId) (f : A -> Z) (keep : A -> bool) (l : list A) :
  NoDup (map key l) -> NoDup (map fst (omap (fun x => if keep x then Some (key x, f x) else None) l)).
Proof.
  induction l as [|x l IH]; intros Hnd; [constructor|]. cbn [map omap list_omap] in *. apply NoDup_cons in Hnd as [Hx Hnd].
  destruct (keep x); [|by apply IH]. cbn [map fst]. apply NoDup_cons. split; [|by apply IH].
  intros (p & Hp & Hin)%list_elem_of_fmap. apply list_elem_of_omap in Hin as (y & Hy & Hk). apply Hx.
  destruct (keep y); [|done]. injection Hk as <-. cbn in Hp. rewrite Hp. by apply list_elem_of_fmap_2.
Qed.

Lemma opened_counted recorded ws ws' w : reads_ok recorded ws -> opened recorded ws ws' ->
  grows (exactly w) (countedIn ws w) (countedIn ws' w) 0.
Proof.
  intros Hr Ho. destruct (Hr w) as (Hb & _ & Hc). unfold exactly, countedIn. destruct (Ho w) as [ ->| ->]; [apply grows_same|].
  unfold grows, caughtRow, caughtUp. cbn [consumed_value]. destruct (ws !! w); destruct (lifetimeOf (fst w)); cbn [negb];
    try specialize (Hc eq_refl); (split; [lia|try done; intros _; lia]).
Qed.

(** Changing what is held counts nothing. *)
Lemma held_counted {A} (key : A -> WindowId) (f : A -> Counter -> Counter) (l : list A) ws w :
  (forall x c, consumed_value (f x c) = consumed_value c) ->
  countedIn (fold_left (fun ws x => alter (f x) (key x) ws) l ws) w = countedIn ws w.
Proof.
  intros Hf. revert ws. induction l as [|x l IH]; intros ws; [done|]. cbn [fold_left]. rewrite IH. unfold countedIn.
  destruct (decide (w = key x)) as [ ->|Hne]; [|by rewrite lookup_alter_ne].
  rewrite lookup_alter_eq. destruct (ws !! key x); cbn; by rewrite ?Hf.
Qed.

Definition entriesOf (out : ControlDenial + list (WindowId * Z)) : list (WindowId * Z) :=
  match out with inl _ => [] | inr entries => entries end.

Lemma consume_counted recorded now d controls s s' out w : reads_ok recorded (ct_windows s) -> store_inv s -> Forall limit_ok controls ->
  NoDup (map k_policyId controls) -> consumeControls recorded now d controls s = Ok (s', out) ->
  grows (exactly w) (countedIn (ct_windows s) w) (countedIn (ct_windows s') w) (entered w (entriesOf out)) /\ NoDup (map fst (entriesOf out)).
Proof.
  intros Hr Hinv Hlim Hnd H. unfold consumeControls in H. apply bind_Ok in H as ([ws outcome] & Ha & H).
  destruct (select_ok d controls Hlim Hnd) as [S1 S2].
  destruct (admit_ok recorded _ mode_consume now d _ _ ws outcome Hr (si_windows s Hinv)
    (fun w => heldIn_nonneg _ _ w (si_positive s Hinv)) S1 S2 Ha) as [Ho Hout].
  pose proof (opened_counted _ _ _ w Hr Ho) as Hg. destruct outcome as [denied|locked]; injection H as <- <-.
  { cbn. split; [exact Hg|constructor]. }
  destruct Hout as [Hl Hndl]. cbn [ct_windows entriesOf]. unfold consumeEntries.
  split; [|by apply (omap_keys_NoDup lc_window)].
  rewrite (entered_omap lc_window) by (done || (intros l Hk; apply orb_false_elim in Hk as [Hk _]; by apply negb_false_iff, Z.eqb_eq in Hk)).
  unfold counterOf. unfold countedIn at 2. rewrite fold_alter_lookup by done.
  destruct (List.find _ locked) as [l|] eqn:E; [|exact Hg]. pose proof (find_key _ _ _ _ E) as [Hin Hk].
  rewrite Hk, fold_alter_lookup, E by done. rewrite Forall_forall in Hl. destruct (Hl l Hin) as (Hc & Hcon & _).
  rewrite Hk in Hc, Hcon. apply (grows_add _ _ _ _ _ Hg). unfold countedIn. rewrite Hc, Hcon. cbn. lia.
Qed.

Lemma hold_counted recorded now rid d controls s s' out w : reads_ok recorded (ct_windows s) -> store_inv s -> Forall limit_ok controls ->
  NoDup (map k_policyId controls) -> holdControls recorded now rid d controls s = Ok (s', out) ->
  grows (exactly w) (countedIn (ct_windows s) w) (countedIn (ct_windows s') w) 0.
Proof.
  unfold holdControls. intros Hr Hinv Hlim Hnd H. apply bind_Ok in H as ([ws outcome] & Ha & H).
  destruct (select_ok d controls Hlim Hnd) as [S1 S2].
  destruct (admit_ok recorded _ mode_hold now d _ _ ws outcome Hr (si_windows s Hinv)
    (fun w => heldIn_nonneg _ _ w (si_positive s Hinv)) S1 S2 Ha) as [Ho _].
  pose proof (opened_counted _ _ _ w Hr Ho) as Hg.
  destruct outcome as [denied|locked]; injection H as <- _; [done|]. cbn [ct_windows].
  by rewrite (held_counted lc_window (fun l => addHeld (lc_delta l))).
Qed.

Lemma release_counted rid s w : countedIn (ct_windows (releaseControlHolds rid s)) w = countedIn (ct_windows s) w.
Proof.
  unfold releaseControlHolds. case_decide; [|done]. cbn [ct_windows]. unfold dropHolds.
  by rewrite (held_counted holdWindow (fun h => dropHeld (ch_held h))).
Qed.

Lemma confirm_counted recorded now rid d controls s s' out w : reads_ok recorded (ct_windows s) -> store_inv s -> Forall limit_ok controls ->
  NoDup (map k_policyId controls) -> rid ∈ ct_open s ->
  confirmControlHolds recorded now rid d controls s = Ok (s', out) ->
  grows (exactly w) (countedIn (ct_windows s) w) (countedIn (ct_windows s') w) (entered w (entriesOf out)) /\ NoDup (map fst (entriesOf out)).
Proof.
  intros Hr Hinv Hlim Hnd Hrid H. unfold confirmControlHolds in H.
  destruct (opened_groups recorded now rid d controls s Hr Hinv Hlim Hnd Hrid) as (Hgok & Hgnd & _ & Ho & Hsome).
  set (groups := confirmationGroups now (holdsOf rid s) (selectControls d controls)) in *.
  set (ws := openGroups recorded _ (ct_windows s)) in *.
  pose proof (opened_counted _ _ _ w Hr Ho) as Hg.
  apply bind_Ok in H as ([denied|] & _ & H).
  { injection H as <- <-. cbn. split; [exact Hg|constructor]. }
  apply bind_Ok in H as (ws' & Hset & H). injection H as <- <-. cbn [ct_windows entriesOf]. unfold confirmEntries.
  split; [|by apply (omap_keys_NoDup cg_window)].
  rewrite (entered_omap cg_window) by (done || (intros g Hk; apply orb_false_elim in Hk as [Hk _]; by apply negb_false_iff, Z.eqb_eq in Hk)).
  pose proof (settleGroups_lookup _ d groups w ws ws' Hgnd Hgok Hset) as Hl.
  apply (grows_add _ _ _ _ _ Hg). unfold countedIn. destruct (List.find _ groups) as [g|] eqn:E; [|rewrite Hl; lia].
  apply find_key in E as [Hin Hk]. destruct Hl as (target & _ & Hl). destruct (Hsome g Hin) as [c Hcw]. rewrite Hk in Hcw.
  unfold appliedIn, counterOf. rewrite Hk, Hl, Hcw in *. cbn [fmap option_fmap option_map default from_option id] in *. lia.
Qed.
End Counting.

(** ** Every order of writes *)

Section Steps.
Context (opening : WindowId -> Z) (limitOf : Z -> Z) (lifetimeOf : Z -> bool).

(** The controls one write resolves: no policy twice, each with the columns of its row. *)
Definition resolved (controls : list ControlLimit) : Prop :=
  Forall (limit_ok limitOf lifetimeOf) controls /\ NoDup (map k_policyId controls).

(** One write of the customer, each under the customer's controls lock, and the recorded
    usage it reads. *)
Inductive control_step (recorded : WindowId -> Z) : ControlStore -> ControlStore -> Prop :=
| step_consume now d controls s s' out : resolved controls ->
    consumeControls recorded now d controls s = Ok (s', out) -> control_step recorded s s'
| step_hold now rid d controls s s' out : resolved controls -> (forall h, h ∈ ct_holds s -> ch_reservation h <> rid) ->
    holdControls recorded now rid d controls s = Ok (s', out) -> control_step recorded s s'
| step_confirm now rid d controls s s' out : resolved controls -> rid ∈ ct_open s ->
    confirmControlHolds recorded now rid d controls s = Ok (s', out) -> control_step recorded s s'
| step_release rid s : control_step recorded s (releaseControlHolds rid s).

(** A write of the history, whatever usage is recorded when it runs. *)
Definition control_write (s s' : ControlStore) : Prop :=
  exists recorded, reads_ok opening lifetimeOf recorded (ct_windows s) /\ control_step recorded s s'.

Definition emptyStore : ControlStore := {| ct_windows := ∅; ct_holds := []; ct_open := [] |}.

(** The windows' counters, after any writes. *)
Definition counts_right (s : ControlStore) : Prop := forall w c, ct_windows s !! w = Some c ->
  0 <= consumed_value c /\ held_value c = heldIn (ct_open s) (ct_holds s) w /\
  0 <= held_value c <= Z.max 0 (limitOf (fst w)) /\
  (consumed_value c + held_value c <= limitOf (fst w) \/ consumed_value c <= opening w) /\
  (lifetimeOf (fst w) = false -> consumed_value c + held_value c <= Z.max (limitOf (fst w)) (opening w)).

Lemma store_counts s : store_inv opening limitOf lifetimeOf s -> counts_right s.
Proof.
  intros Hinv w c Hw. pose proof (si_windows _ _ _ s Hinv w) as H. rewrite Hw in H. destruct H as (H1 & H2 & H3).
  pose proof (heldIn_nonneg (ct_open s) (ct_holds s) w (si_positive _ _ _ s Hinv)). rewrite H2. tauto.
Qed.

Lemma control_step_inv recorded s s' : reads_ok opening lifetimeOf recorded (ct_windows s) -> control_step recorded s s' ->
  store_inv opening limitOf lifetimeOf s ->
  store_inv opening limitOf lifetimeOf s' /\ admitted limitOf lifetimeOf recorded (ct_windows s) (ct_windows s').
Proof.
  intros Hr Hstep Hinv. destruct Hstep as [now d cs s1 s2 out [Hl Hn] H|now rid d cs s1 s2 out [Hl Hn] Hf H|now rid d cs s1 s2 out [Hl Hn] Hrid H|rid s1].
  - by eapply consume_inv.
  - by eapply hold_inv.
  - by eapply confirm_inv.
  - split; [by apply release_inv|]. by eapply release_admitted.
Qed.

Lemma writes_inv s : rtc control_write emptyStore s -> store_inv opening limitOf lifetimeOf s.
Proof.
  intros Hrun. refine (rtc_ind_r (store_inv opening limitOf lifetimeOf) emptyStore _ _ s Hrun).
  - constructor; cbn; by constructor.
  - intros s1 s2 _ (recorded & Hr & Hstep) Hinv. exact (proj1 (control_step_inv recorded s1 s2 Hr Hstep Hinv)).
Qed.
End Steps.

(** C6: Whatever consumptions, holds, confirmations and releases run in whatever order,
    under controls that share no window with one they replaced, each opening and catching up its windows with the usage recorded when it runs, a
    control's window holds exactly what the open reservations hold in it, never more than
    the control's limit, and neither counter is ever negative.  A calendar window never
    counts more, consumed and held together, than the limit, or than the usage it was
    opened with when that was already over it.  A lifetime window stays within the limit
    too, unless it counts no more than what it was raised to by usage recorded elsewhere;
    and no write adds to that: the holds a write places fit the limit beside the window's
    caught-up count, and a write that counts more than the caught-up count leaves the
    window within its limit.  (Corrections are not part of these histories.) *)
Theorem control_limit_never_exceeded opening limitOf lifetimeOf s :
  rtc (control_write opening limitOf lifetimeOf) emptyStore s ->
  counts_right opening limitOf lifetimeOf s /\
  forall recorded s', reads_ok opening lifetimeOf recorded (ct_windows s) -> control_step limitOf lifetimeOf recorded s s' ->
    admitted limitOf lifetimeOf recorded (ct_windows s) (ct_windows s').
Proof.
  intros Hrun. pose proof (writes_inv _ _ _ s Hrun) as Hinv. split; [by apply store_counts|].
  intros recorded s' Hr Hstep. exact (proj2 (control_step_inv opening limitOf lifetimeOf recorded s s' Hr Hstep Hinv)).
Qed.

Definition exampleDelta (usage : text) : ControlDelta :=
  {| dl_featureKey := "tokens"; dl_usageDelta := usage; dl_spendMinorDelta := js "0"; dl_currency := None |}.
Definition storeAfter {A} (r : result (ControlStore * A)) : ControlStore :=
  match r with Ok (s, _) => s | Err _ => emptyStore end.

(** A lifetime limit of 10 tokens: five are held beside two recorded; four more were
    recorded by other means when the hold is confirmed with four. *)
Definition exampleLifetime : ControlLimit :=
  {| k_policyId := 4; k_kind := usage_limit; k_feature := Some "tokens"%string; k_currency := None; k_limitValue := js "10";
     k_interval := None; k_source := source_account; k_revision := 1 |}.
Definition recordedUsage (tokens : Z) (w : WindowId) : Z := tokens * 10 ^ 9.
Definition exampleHeld : ControlStore :=
  storeAfter (holdControls (recordedUsage 2) 1700000000000 1 (exampleDelta (js "5")) [exampleLifetime] emptyStore).
Definition exampleConfirmed : ControlStore :=
  storeAfter (confirmControlHolds (recordedUsage 6) 1700000000000 1 (exampleDelta (js "4")) [exampleLifetime] exampleHeld).

Lemma control_limit_never_exceeded_witness :
  map (fun p => (consumed_value (snd p), held_value (snd p))) (map_to_list (ct_windows exampleHeld)) = [(2 * 10 ^ 9, 5 * 10 ^ 9)] /\
  map (fun p => (consumed_value (snd p), held_value (snd p))) (map_to_list (ct_windows exampleConfirmed)) = [(10 * 10 ^ 9, 0)] /\
  counts_right (recordedUsage 6) (fun _ => 10 * 10 ^ 9) (fun _ => true) exampleConfirmed.
Proof.
  split; [vm_compute; reflexivity|]. split; [vm_compute; reflexivity|].
  assert (Hreads : forall n ws, 0 <= n <= 6 -> reads_ok (recordedUsage 6) (fun _ => true) (recordedUsage n) ws).
  { intros n ws Hn w. unfold recordedUsage. split; [lia|]. split; [left; lia|discriminate]. }
  assert (Hres : resolved (fun _ => 10 * 10 ^ 9) (fun _ => true) [exampleLifetime]).
  { split; [|apply NoDup_singleton]. apply Forall_singleton. split; vm_compute; reflexivity. }
  refine (proj1 (control_limit_never_exceeded (recordedUsage 6) (fun _ => 10 * 10 ^ 9) (fun _ => true) exampleConfirmed _)).
  eapply rtc_l; [|eapply rtc_l; [|apply rtc_refl] ].
  - exists (recordedUsage 2). split; [apply Hreads; lia|].
    eapply (step_hold _ _ _ 1700000000000 1 (exampleDelta (js "5")) [exampleLifetime] emptyStore exampleHeld); [exact Hres| |].
    + intros h Hh. by apply elem_of_nil in Hh.
    + instantiate (1 := None). vm_compute. reflexivity.
  - exists (recordedUsage 6). split; [apply Hreads; lia|].
    eapply (step_confirm _ _ _ 1700000000000 1 (exampleDelta (js "4")) [exampleLifetime]); [exact Hres| |].
    + apply (bool_decide_unpack _). vm_compute. exact I.
    + vm_compute. reflexivity.
Defined.
