(* ===== verification/AutoTopup.v ===== *)
(** * Automatic top-ups ([src/db/repository/controls-runtime.ts],
    [src/db/repository/auto-topup-jobs.ts], [auto-topup-repairs.ts],
    [controls-enterprise.ts], [src/billing/auto-topup.ts])

    A policy buys credit when a write leaves its scope at or under a threshold.  The write
    schedules a job; a worker claims it, which reserves its price in the policy's budget of
    the current interval, charges it and completes it.  The file models one policy with its
    row of [auto_topup_states] and its rows of [auto_topup_jobs]; every transaction touches
    one policy's rows, apart from a claim, which visits the due jobs of every policy one
    after the other.  Instants are milliseconds, as the [Date]s the code compares. *)
From S2P Require Import Prelude Text Decimal Workers.

#[local] Arguments js _ : simpl never.

(** ** Data *)

Inductive BillingProvider := apple | google | stripe | paddle.
#[export] Instance BillingProvider_eq_dec : EqDecision BillingProvider.
Proof. solve_decision. Defined.

Inductive TopupPhase := phase_charge | phase_reconcile | phase_complete.
#[export] Instance TopupPhase_eq_dec : EqDecision TopupPhase.
Proof. solve_decision. Defined.

Inductive TopupStateStatus := ready | cooldown | suspended.
#[export] Instance TopupStateStatus_eq_dec : EqDecision TopupStateStatus.
Proof. solve_decision. Defined.

Inductive TopupJobStatus :=
  | pending | processing | succeeded | failed | provider_action_required | requires_review.
#[export] Instance TopupJobStatus_eq_dec : EqDecision TopupJobStatus.
Proof. solve_decision. Defined.

Record AutoTopupChargeSucceeded := {
  ac_externalInvoiceId : text;
  ac_externalPaymentId : option text;
  ac_amountPaidMinor : Z;
  ac_currency : text }.
#[export] Instance AutoTopupChargeSucceeded_eq_dec : EqDecision AutoTopupChargeSucceeded.
Proof. solve_decision. Defined.

(** A row of [auto_topup_policies] and, joined to it, the published store product
    ([AutoTopupPolicyRow]).  The threshold is in units of scale 9. *)
Record AutoTopupPolicy := {
  tp_provider : BillingProvider;
  tp_providerAccountId : option text;
  tp_active : bool;
  tp_thresholdQuantity : Z;
  tp_cooldownSeconds : Z;
  tp_limitIntervalSeconds : Z;
  tp_maxPurchasesPerInterval : Z;
  tp_maxSpendMinor : option Z;
  tp_maxConsecutiveFailures : Z;
  tp_amountMinor : option Z;
  tp_currency : option text;
  tp_storeProductId : Z }.

Record AutoTopupState := {
  ts_status : TopupStateStatus;
  ts_intervalStartedAt : Z;
  ts_purchasesInInterval : Z;
  ts_spendMinorInInterval : Z;
  ts_consecutiveFailures : Z;
  ts_cooldownUntil : option Z;
  ts_circuitOpenedAt : option Z;
  ts_lastError : option text }.

Record AutoTopupJobRow := {
  tj_storeProductId : Z;
  tj_triggerKey : text;
  tj_provider : BillingProvider;
  tj_providerAccountId : option text;
  tj_status : TopupJobStatus;
  tj_phase : TopupPhase;
  tj_amountMinor : option Z;
  tj_chargedAmountMinor : option Z;
  tj_currency : option text;
  tj_externalInvoiceId : option text;
  tj_externalPaymentId : option text;
  tj_providerResult : option AutoTopupChargeSucceeded;
  tj_completionAttempts : Z;
  tj_budgetReservedAt : option Z;
  tj_budgetIntervalStartedAt : option Z;
  tj_attempts : Z;
  tj_nextAttemptAt : Z;
  tj_lockedAt : option Z;
  tj_lockedBy : option text;
  tj_lastError : option text;
  tj_completedAt : option Z;
  tj_createdAt : Z }.

Inductive OutcomeType := auto_topup_succeeded | auto_topup_failed | auto_topup_action_required.
#[export] Instance OutcomeType_eq_dec : EqDecision OutcomeType.
Proof. solve_decision. Defined.

(** The argument of [recordAutoTopupOutcome], the event subscribers are told. *)
Record AutoTopupOutcome := {
  ao_type : OutcomeType;
  ao_jobId : Z;
  ao_provider : BillingProvider;
  ao_amountMinor : Z;
  ao_chargedAmountMinor : option Z;
  ao_currency : option text;
  ao_externalInvoiceId : option text;
  ao_externalPaymentId : option text;
  ao_error : option text }.

(** What a paid job hands to [upsertPurchase], [materializeTopupAllocation] and
    [recordAutoTopupInvoice]: the purchase that credits the wallet. *)
Record TopupPurchase := {
  pu_jobId : Z;
  pu_storeProductId : Z;
  pu_transactionId : text;
  pu_originalTransactionId : text;
  pu_amountPaidMinor : Z;
  pu_currency : text;
  pu_purchasedAt : Z }.

(** The rows of one policy, with the events and purchases recorded so far, oldest first. *)
Record Topup := {
  tu_policy : AutoTopupPolicy;
  tu_state : AutoTopupState;
  tu_jobs : gmap Z AutoTopupJobRow;
  tu_outcomes : list AutoTopupOutcome;
  tu_purchases : list TopupPurchase }.

(** The clocks a transaction reads: the application's [new Date()], the database's
    [now()], which is the start of the transaction, and its [clock_timestamp()]. *)
Record Clocks := { ck_app : Z; ck_now : Z; ck_clock : Z }.

(** ** Helpers *)

Definition isOpen (j : AutoTopupJobRow) : bool :=
  match tj_status j with pending | processing | requires_review => true | _ => false end.

Definition safeMinor (value : option Z) (name : string) : result Z :=
  match value with
  | None => Err (InternalError name)
  | Some v => if (v <? 0) || (maxSafeInteger <? v) then Err (InternalError name) else Ok v
  end.

Definition nullableSafeMinor (value : option Z) (name : string) : result (option Z) :=
  match value with None => Ok None | Some v => n ← safeMinor (Some v) name; Ok (Some n) end.

Definition sameInstant (left right : option Z) : bool :=
  match left, right with Some l, Some r => l =? r | _, _ => false end.

Definition after (instant : option Z) (now : Z) : bool :=
  match instant with Some t => now <? t | None => false end.

Definition upperText (t : text) : text := map (fun c => if (97 <=? c) && (c <=? 122) then c - 32 else c) t.
Definition lowerText (t : text) : text := map (fun c => if (65 <=? c) && (c <=? 90) then c + 32 else c) t.

Definition overBudget (spend : Z) (maximum : option Z) : bool :=
  match maximum with Some m => m <? spend | None => false end.

Definition with_state (st : AutoTopupState) (t : Topup) : Topup :=
  {| tu_policy := tu_policy t; tu_state := st; tu_jobs := tu_jobs t; tu_outcomes := tu_outcomes t;
     tu_purchases := tu_purchases t |}.
Definition with_job (id : Z) (j : AutoTopupJobRow) (t : Topup) : Topup :=
  {| tu_policy := tu_policy t; tu_state := tu_state t; tu_jobs := <[ id := j ]> (tu_jobs t); tu_outcomes := tu_outcomes t;
     tu_purchases := tu_purchases t |}.
Definition with_outcome (o : AutoTopupOutcome) (t : Topup) : Topup :=
  {| tu_policy := tu_policy t; tu_state := tu_state t; tu_jobs := tu_jobs t; tu_outcomes := tu_outcomes t ++ [o];
     tu_purchases := tu_purchases t |}.
Definition with_purchase (p : TopupPurchase) (t : Topup) : Topup :=
  {| tu_policy := tu_policy t; tu_state := tu_state t; tu_jobs := tu_jobs t; tu_outcomes := tu_outcomes t;
     tu_purchases := tu_purchases t ++ [p] |}.

(** ** Scheduling *)

Definition resetInterval (k : Clocks) (st : AutoTopupState) : AutoTopupState :=
  {| ts_status := ready; ts_intervalStartedAt := ck_now k; ts_purchasesInInterval := 0; ts_spendMinorInInterval := 0;
     ts_consecutiveFailures := ts_consecutiveFailures st; ts_cooldownUntil := None;
     ts_circuitOpenedAt := ts_circuitOpenedAt st; ts_lastError := ts_lastError st |}.

Definition startCooldown (k : Clocks) (seconds : Z) (st : AutoTopupState) : AutoTopupState :=
  {| ts_status := cooldown; ts_intervalStartedAt := ts_intervalStartedAt st;
     ts_purchasesInInterval := ts_purchasesInInterval st; ts_spendMinorInInterval := ts_spendMinorInInterval st;
     ts_consecutiveFailures := ts_consecutiveFailures st; ts_cooldownUntil := Some (ck_now k + seconds * 1000);
     ts_circuitOpenedAt := ts_circuitOpenedAt st; ts_lastError := ts_lastError st |}.

Definition actionRequiredText : text := js "Provider-native purchase action is required".

Definition scheduledJob (k : Clocks) (supported : bool) (triggerKey : text) (p : AutoTopupPolicy) : AutoTopupJobRow :=
  {| tj_storeProductId := tp_storeProductId p; tj_triggerKey := triggerKey; tj_provider := tp_provider p;
     tj_providerAccountId := tp_providerAccountId p;
     tj_status := if supported then pending else provider_action_required; tj_phase := phase_charge;
     tj_amountMinor := Some (default 0 (tp_amountMinor p)); tj_chargedAmountMinor := None;
     tj_currency := upperText <$> tp_currency p; tj_externalInvoiceId := None; tj_externalPaymentId := None;
     tj_providerResult := None; tj_completionAttempts := 0; tj_budgetReservedAt := None;
     tj_budgetIntervalStartedAt := None; tj_attempts := 0; tj_nextAttemptAt := ck_now k; tj_lockedAt := None;
     tj_lockedBy := None; tj_lastError := if supported then None else Some actionRequiredText;
     tj_completedAt := if supported then None else Some (ck_app k); tj_createdAt := ck_now k |}.

(** [ON CONFLICT (project_id, policy_id, trigger_key) DO NOTHING] *)
Definition triggered (triggerKey : text) (t : Topup) : bool :=
  existsb (fun '(_, j) => text_eqb (tj_triggerKey j) triggerKey) (map_to_list (tu_jobs t)).

Definition hasOpenJob (t : Topup) : bool := existsb (fun '(_, j) => isOpen j) (map_to_list (tu_jobs t)).

(** [implements] is [automaticTopupProviders(capabilities).has]; [newId] the id the insert
    generates; [available] what the policy's scope can still spend, in units of scale 9. *)
Definition scheduleAutoTopupIfNeeded (k : Clocks) (implements : BillingProvider -> bool) (newId : Z)
    (triggerKey : text) (available : Z) (t : Topup) : Topup :=
  let p := tu_policy t in let st := tu_state t in
  if tp_thresholdQuantity p <? available then t else
  if decide (ts_status st = suspended) then t else
  let elapsed := ts_intervalStartedAt st + tp_limitIntervalSeconds p * 1000 <=? ck_app k in
  let purchases := if elapsed then 0 else ts_purchasesInInterval st in
  let spend := if elapsed then 0 else ts_spendMinorInInterval st in
  let t := if elapsed then with_state (resetInterval k st) t else t in
  if after (ts_cooldownUntil st) (ck_app k) then t else
  if tp_maxPurchasesPerInterval p <=? purchases then t else
  let amount := default 0 (tp_amountMinor p) in
  let supported := implements (tp_provider p) in
  if supported && (negb (isSafeInteger amount) || (amount <=? 0) || bool_decide (tp_currency p = None)) then t else
  if overBudget (spend + amount) (tp_maxSpendMinor p) then t else
  if hasOpenJob t then t else
  let t :=
    if triggered triggerKey t then t
    else let t := with_job newId (scheduledJob k supported triggerKey p) t in
      if supported then t
      else with_outcome {| ao_type := auto_topup_action_required; ao_jobId := newId; ao_provider := tp_provider p;
             ao_amountMinor := amount; ao_chargedAmountMinor := None; ao_currency := lowerText <$> tp_currency p;
             ao_externalInvoiceId := None; ao_externalPaymentId := None; ao_error := Some actionRequiredText |} t in
  with_state (startCooldown k (tp_cooldownSeconds p) (tu_state t)) t.

(** ** Claiming *)

(** [row] is the state as the job's rows were locked, [st] the stored state. *)
Definition normalizeInterval (k : Clocks) (limitIntervalSeconds : Z) (row st : AutoTopupState)
    : result (Z * Z * Z * AutoTopupState) :=
  spend ← safeMinor (Some (ts_spendMinorInInterval row)) "auto top-up interval spend";
  if negb (bool_decide (ts_status row = suspended))
     && (ts_intervalStartedAt row + limitIntervalSeconds * 1000 <=? ck_clock k)
  then Ok (ck_clock k, 0, 0,
    {| ts_status := if after (ts_cooldownUntil st) (ck_now k) then cooldown else ready;
       ts_intervalStartedAt := ck_clock k; ts_purchasesInInterval := 0; ts_spendMinorInInterval := 0;
       ts_consecutiveFailures := ts_consecutiveFailures st; ts_cooldownUntil := ts_cooldownUntil st;
       ts_circuitOpenedAt := None; ts_lastError := ts_lastError st |})
  else Ok (ts_intervalStartedAt row, ts_purchasesInInterval row, spend, st).

Definition with_budget (purchases spend : Z) (st : AutoTopupState) : AutoTopupState :=
  {| ts_status := ts_status st; ts_intervalStartedAt := ts_intervalStartedAt st; ts_purchasesInInterval := purchases;
     ts_spendMinorInInterval := spend; ts_consecutiveFailures := ts_consecutiveFailures st;
     ts_cooldownUntil := ts_cooldownUntil st; ts_circuitOpenedAt := ts_circuitOpenedAt st; ts_lastError := ts_lastError st |}.

Definition terminatedJob (k : Clocks) (error : text) (j : AutoTopupJobRow) : AutoTopupJobRow :=
  {| tj_storeProductId := tj_storeProductId j; tj_triggerKey := tj_triggerKey j; tj_provider := tj_provider j;
     tj_providerAccountId := tj_providerAccountId j; tj_status := failed; tj_phase := tj_phase j;
     tj_amountMinor := tj_amountMinor j; tj_chargedAmountMinor := tj_chargedAmountMinor j; tj_currency := tj_currency j;
     tj_externalInvoiceId := tj_externalInvoiceId j; tj_externalPaymentId := tj_externalPaymentId j;
     tj_providerResult := tj_providerResult j; tj_completionAttempts := tj_completionAttempts j;
     tj_budgetReservedAt := None; tj_budgetIntervalStartedAt := None; tj_attempts := tj_attempts j;
     tj_nextAttemptAt := tj_nextAttemptAt j; tj_lockedAt := None; tj_lockedBy := None; tj_lastError := Some error;
     tj_completedAt := Some (ck_clock k); tj_createdAt := tj_createdAt j |}.

(** [row] is the state as it was locked with the job [j]; the stored state may have been
    normalised since. *)
Definition terminateUnclaimableJob (k : Clocks) (row : AutoTopupState) (id : Z) (j : AutoTopupJobRow) (error : text)
    (t : Topup) : result Topup :=
  '(startedAt, _, _, st) ← normalizeInterval k (tp_limitIntervalSeconds (tu_policy t)) row (tu_state t);
  amount ← nullableSafeMinor (tj_amountMinor j) "scheduled auto top-up amount";
  let amount := default 0 amount in
  let st :=
    if sameInstant (tj_budgetIntervalStartedAt j) (Some startedAt)
    then with_budget (Z.max (ts_purchasesInInterval st - 1) 0) (Z.max (ts_spendMinorInInterval st - amount) 0) st
    else st in
  Ok (with_outcome {| ao_type := auto_topup_failed; ao_jobId := id; ao_provider := tj_provider j; ao_amountMinor := amount;
        ao_chargedAmountMinor := None; ao_currency := lowerText <$> tj_currency j; ao_externalInvoiceId := None;
        ao_externalPaymentId := None; ao_error := Some error |}
     (with_job id (terminatedJob k error j) (with_state st t))).

Definition suspendState (k : Clocks) (error : text) (st : AutoTopupState) : AutoTopupState :=
  {| ts_status := suspended; ts_intervalStartedAt := ts_intervalStartedAt st;
     ts_purchasesInInterval := ts_purchasesInInterval st; ts_spendMinorInInterval := ts_spendMinorInInterval st;
     ts_consecutiveFailures := ts_consecutiveFailures st; ts_cooldownUntil := ts_cooldownUntil st;
     ts_circuitOpenedAt := Some (ck_now k); ts_lastError := Some error |}.

Definition suspendUnclaimableJob (k : Clocks) (row : AutoTopupState) (id : Z) (j : AutoTopupJobRow) (error : text)
    (t : Topup) : result Topup :=
  t ← terminateUnclaimableJob k row id j error t;
  Ok (with_state (suspendState k error (tu_state t)) t).

(** [AutoTopupJob], without the identifiers of its project and customer. *)
Record AutoTopupJob := {
  at_jobId : Z;
  at_provider : BillingProvider;
  at_providerAccountId : option text;
  at_storeProductId : Z;
  at_amountMinor : Z;
  at_maximumChargeMinor : Z;
  at_currency : text;
  at_attempts : Z;
  at_consecutiveFailures : Z;
  at_maxConsecutiveFailures : Z;
  at_externalInvoiceId : option text;
  at_providerResult : option AutoTopupChargeSucceeded;
  at_completionAttempts : Z;
  at_phase : TopupPhase }.

(** A job past collection, or with its receipt stored, is completed, not charged again. *)
Definition recovering (j : AutoTopupJobRow) : bool :=
  negb (bool_decide (tj_phase j = phase_charge)) || bool_decide (is_Some (tj_providerResult j)).

Definition claimedJob (k : Clocks) (workerId : text) (startedAt : Z) (j : AutoTopupJobRow) : AutoTopupJobRow :=
  {| tj_storeProductId := tj_storeProductId j; tj_triggerKey := tj_triggerKey j; tj_provider := tj_provider j;
     tj_providerAccountId := tj_providerAccountId j; tj_status := processing; tj_phase := tj_phase j;
     tj_amountMinor := tj_amountMinor j; tj_chargedAmountMinor := tj_chargedAmountMinor j; tj_currency := tj_currency j;
     tj_externalInvoiceId := tj_externalInvoiceId j; tj_externalPaymentId := tj_externalPaymentId j;
     tj_providerResult := tj_providerResult j; tj_completionAttempts := tj_completionAttempts j;
     tj_budgetReservedAt := Some (default (ck_clock k) (tj_budgetReservedAt j));
     tj_budgetIntervalStartedAt := if recovering j then tj_budgetIntervalStartedAt j else Some startedAt;
     tj_attempts := tj_attempts j + 1; tj_nextAttemptAt := tj_nextAttemptAt j; tj_lockedAt := Some (ck_clock k);
     tj_lockedBy := Some workerId; tj_lastError := tj_lastError j; tj_completedAt := tj_completedAt j;
     tj_createdAt := tj_createdAt j |}.

Definition preparedJob (id amount maximumCharge : Z) (currency : text) (p : AutoTopupPolicy) (row : AutoTopupState)
    (j : AutoTopupJobRow) : AutoTopupJob :=
  {| at_jobId := id; at_provider := tj_provider j; at_providerAccountId := tj_providerAccountId j;
     at_storeProductId := tj_storeProductId j; at_amountMinor := amount; at_maximumChargeMinor := maximumCharge;
     at_currency := upperText currency; at_attempts := tj_attempts j + 1;
     at_consecutiveFailures := ts_consecutiveFailures row; at_maxConsecutiveFailures := tp_maxConsecutiveFailures p;
     at_externalInvoiceId := tj_externalInvoiceId j; at_providerResult := tj_providerResult j;
     at_completionAttempts := tj_completionAttempts j; at_phase := tj_phase j |}.

Definition prepareClaimedJob (k : Clocks) (workerId : text) (id : Z) (j : AutoTopupJobRow) (t : Topup)
    : result (Topup * option AutoTopupJob) :=
  let p := tu_policy t in let row := tu_state t in
  '(startedAt, purchases, spend, st) ← normalizeInterval k (tp_limitIntervalSeconds p) row row;
  let t := with_state st t in
  if negb (recovering j) && (negb (tp_active p) || bool_decide (ts_status row = suspended)) then
    t ← terminateUnclaimableJob k row id j (js "Auto top-up policy is inactive or suspended") t; Ok (t, None)
  else
  amount ← safeMinor (tj_amountMinor j) "scheduled auto top-up amount";
  match (if amount <=? 0 then None else tj_currency j) with
  | None => t ← suspendUnclaimableJob k row id j (js "Auto top-up price is unavailable") t; Ok (t, None)
  | Some currency =>
  maximumSpend ← nullableSafeMinor (tp_maxSpendMinor p) "auto top-up spend limit";
  let reserve := negb (sameInstant (tj_budgetIntervalStartedAt j) (Some startedAt)) && negb (recovering j) in
  if reserve && ((tp_maxPurchasesPerInterval p <=? purchases) || overBudget (spend + amount) maximumSpend) then
    t ← terminateUnclaimableJob k row id j (js "Auto top-up safety budget is exhausted") t; Ok (t, None)
  else
  let purchases := if reserve then purchases + 1 else purchases in
  let spend := if reserve then spend + amount else spend in
  let t := if reserve then with_state (with_budget purchases spend (tu_state t)) t else t in
  let maximumCharge := match maximumSpend with None => maxSafeInteger | Some m => amount + m - spend end in
  Ok (with_job id (claimedJob k workerId startedAt j) t, Some (preparedJob id amount maximumCharge currency p row j))
  end.

(** [workerStaleBeforeSql], with the statement's clock. *)
Definition claimable (k : Clocks) (staleAfterMs : Z) (j : AutoTopupJobRow) : bool :=
  match tj_status j with
  | pending => tj_nextAttemptAt j <=? ck_now k
  | processing => match tj_lockedAt j with Some l => l <? ck_clock k - staleAfterMs | None => false end
  | _ => false
  end.

Definition dueBefore (l r : Z * AutoTopupJobRow) : bool :=
  let '(i, l) := l in let '(j, r) := r in
  (tj_nextAttemptAt l <? tj_nextAttemptAt r) || ((tj_nextAttemptAt l =? tj_nextAttemptAt r)
    && ((tj_createdAt l <? tj_createdAt r) || ((tj_createdAt l =? tj_createdAt r) && (i <? j)))).

Definition claimCandidates (k : Clocks) (limit staleAfterMs : Z) (t : Topup) : list Z :=
  take (Z.to_nat limit)
    (map fst (sortBy dueBefore (List.filter (fun '(_, j) => claimable k staleAfterMs j) (map_to_list (tu_jobs t))))).

Definition claimOne (k : Clocks) (workerId : text) (claimed : Topup * list AutoTopupJob) (id : Z)
    : result (Topup * list AutoTopupJob) :=
  let '(t, jobs) := claimed in
  match tu_jobs t !! id with
  | None => Ok (t, jobs)
  | Some j =>
      '(t, prepared) ← prepareClaimedJob k workerId id j t;
      Ok (t, jobs ++ match prepared with Some p => [p] | None => [] end)
  end.

Definition claimAutoTopupJobs (k : Clocks) (workerId : text) (limit staleAfterMs : Z) (t : Topup)
    : result (Topup * list AutoTopupJob) :=
  throwWhen (bool_decide (trim workerId = [])) (InternalError "worker id") ;;
  throwWhen ((limit <? 1) || (100 <? limit)) (InternalError "claim limit") ;;
  throwWhen (negb (isSafeInteger staleAfterMs) || (staleAfterMs <=? 0)) (InternalError "stale age") ;;
  foldM (claimOne k workerId) (claimCandidates k limit staleAfterMs t) (t, []).

(** ** Working on a claimed job *)

Definition lockedByWorker (workerId : text) (j : AutoTopupJobRow) : bool :=
  bool_decide (tj_status j = processing) && bool_decide (tj_lockedBy j = Some workerId).

(** The job [id], if [workerId] still holds it. *)
Definition ownedJob (id : Z) (workerId : text) (t : Topup) : option AutoTopupJobRow :=
  match tu_jobs t !! id with
  | Some j => if lockedByWorker workerId j then Some j else None
  | None => None
  end.

(** The worker's lease is stamped again; every other column is kept. *)
Definition renewedJob (k : Clocks) (j : AutoTopupJobRow) : AutoTopupJobRow :=
  {| tj_storeProductId := tj_storeProductId j; tj_triggerKey := tj_triggerKey j; tj_provider := tj_provider j;
     tj_providerAccountId := tj_providerAccountId j; tj_status := tj_status j; tj_phase := tj_phase j;
     tj_amountMinor := tj_amountMinor j; tj_chargedAmountMinor := tj_chargedAmountMinor j; tj_currency := tj_currency j;
     tj_externalInvoiceId := tj_externalInvoiceId j; tj_externalPaymentId := tj_externalPaymentId j;
     tj_providerResult := tj_providerResult j; tj_completionAttempts := tj_completionAttempts j;
     tj_budgetReservedAt := tj_budgetReservedAt j; tj_budgetIntervalStartedAt := tj_budgetIntervalStartedAt j;
     tj_attempts := tj_attempts j; tj_nextAttemptAt := tj_nextAttemptAt j; tj_lockedAt := Some (ck_clock k);
     tj_lockedBy := tj_lockedBy j; tj_lastError := tj_lastError j; tj_completedAt := tj_completedAt j;
     tj_createdAt := tj_createdAt j |}.

Definition renewAutoTopupJobLease (k : Clocks) (id : Z) (workerId : text) (t : Topup) : Topup * bool :=
  match ownedJob id workerId t with
  | None => (t, false)
  | Some j => (with_job id (renewedJob k j) t, true)
  end.

Record Checkpoint := {
  cp_invoiceId : text;
  cp_phase : option TopupPhase;
  cp_result : option AutoTopupChargeSucceeded }.

Definition checkpointPhase (c : Checkpoint) : TopupPhase :=
  match cp_result c with None => default phase_charge (cp_phase c) | Some _ => phase_complete end.

Definition checkpointedJob (c : Checkpoint) (j : AutoTopupJobRow) : AutoTopupJobRow :=
  {| tj_storeProductId := tj_storeProductId j; tj_triggerKey := tj_triggerKey j; tj_provider := tj_provider j;
     tj_providerAccountId := tj_providerAccountId j; tj_status := tj_status j; tj_phase := checkpointPhase c;
     tj_amountMinor := tj_amountMinor j; tj_chargedAmountMinor := tj_chargedAmountMinor j; tj_currency := tj_currency j;
     tj_externalInvoiceId := Some (cp_invoiceId c); tj_externalPaymentId := tj_externalPaymentId j;
     tj_providerResult := match cp_result c with None => tj_providerResult j | Some r => Some r end;
     tj_completionAttempts := tj_completionAttempts j;
     tj_budgetReservedAt := tj_budgetReservedAt j; tj_budgetIntervalStartedAt := tj_budgetIntervalStartedAt j;
     tj_attempts := tj_attempts j; tj_nextAttemptAt := tj_nextAttemptAt j; tj_lockedAt := tj_lockedAt j;
     tj_lockedBy := tj_lockedBy j; tj_lastError := tj_lastError j; tj_completedAt := tj_completedAt j;
     tj_createdAt := tj_createdAt j |}.

(** The row's condition: the invoice, once stored, never changes, nor does the receipt. *)
Definition checkpointFits (c : Checkpoint) (j : AutoTopupJobRow) : bool :=
  match tj_externalInvoiceId j with None => true | Some i => text_eqb i (cp_invoiceId c) end
  && match tj_providerResult j with None => true | Some r => bool_decide (cp_result c = Some r) end.

Definition checkpointAutoTopup (id : Z) (workerId : text) (c : Checkpoint) (t : Topup) : result Topup :=
  throwWhen (bool_decide (trim (cp_invoiceId c) = [])
    || match cp_result c with None => false | Some r => negb (text_eqb (ac_externalInvoiceId r) (cp_invoiceId c)) end)
    (InternalError "checkpoint") ;;
  match ownedJob id workerId t with
  | None => Err (InternalError "checkpoint lost ownership")
  | Some j =>
      if checkpointFits c j then Ok (with_job id (checkpointedJob c j) t)
      else Err (InternalError "checkpoint lost ownership")
  end.

Definition slice (n : nat) (t : text) : text := take n t.

Definition retriedCompletion (k : Clocks) (delayMs : Z) (error : text) (j : AutoTopupJobRow) : AutoTopupJobRow :=
  {| tj_storeProductId := tj_storeProductId j; tj_triggerKey := tj_triggerKey j; tj_provider := tj_provider j;
     tj_providerAccountId := tj_providerAccountId j;
     tj_status := if 9 <=? tj_completionAttempts j then requires_review else pending; tj_phase := tj_phase j;
     tj_amountMinor := tj_amountMinor j; tj_chargedAmountMinor := tj_chargedAmountMinor j; tj_currency := tj_currency j;
     tj_externalInvoiceId := tj_externalInvoiceId j; tj_externalPaymentId := tj_externalPaymentId j;
     tj_providerResult := tj_providerResult j; tj_completionAttempts := Z.min (tj_completionAttempts j + 1) 2147483647;
     tj_budgetReservedAt := tj_budgetReservedAt j; tj_budgetIntervalStartedAt := tj_budgetIntervalStartedAt j;
     tj_attempts := tj_attempts j; tj_nextAttemptAt := ck_clock k + delayMs; tj_lockedAt := None;
     tj_lockedBy := None; tj_lastError := Some (slice 2000 error); tj_completedAt := tj_completedAt j;
     tj_createdAt := tj_createdAt j |}.

Definition retryAutoTopupCompletion (k : Clocks) (id : Z) (workerId error : text) (delayMs : Z) (t : Topup) : result Topup :=
  throwWhen (negb (isSafeInteger delayMs) || (delayMs <? 0)) (InternalError "completion retry delay") ;;
  match ownedJob id workerId t with
  | None => Err (InternalError "completion retry lost ownership")
  | Some j => Ok (with_job id (retriedCompletion k delayMs error j) t)
  end.

(** ** Completing a job *)

Definition succeededJob (k : Clocks) (amountPaid : Z) (c : AutoTopupChargeSucceeded) (j : AutoTopupJobRow) : AutoTopupJobRow :=
  {| tj_storeProductId := tj_storeProductId j; tj_triggerKey := tj_triggerKey j; tj_provider := tj_provider j;
     tj_providerAccountId := tj_providerAccountId j; tj_status := succeeded; tj_phase := tj_phase j;
     tj_amountMinor := tj_amountMinor j; tj_chargedAmountMinor := Some amountPaid; tj_currency := tj_currency j;
     tj_externalInvoiceId := Some (ac_externalInvoiceId c); tj_externalPaymentId := ac_externalPaymentId c;
     tj_providerResult := tj_providerResult j; tj_completionAttempts := tj_completionAttempts j;
     tj_budgetReservedAt := tj_budgetReservedAt j; tj_budgetIntervalStartedAt := tj_budgetIntervalStartedAt j;
     tj_attempts := tj_attempts j; tj_nextAttemptAt := tj_nextAttemptAt j; tj_lockedAt := None; tj_lockedBy := None;
     tj_lastError := None; tj_completedAt := Some (ck_clock k); tj_createdAt := tj_createdAt j |}.

Definition settledState (k : Clocks) (purchases spend failures : Z) (circuitOpened : bool) (error : option text)
    (st : AutoTopupState) : AutoTopupState :=
  {| ts_status := if circuitOpened then suspended else if after (ts_cooldownUntil st) (ck_now k) then cooldown else ready;
     ts_intervalStartedAt := ts_intervalStartedAt st; ts_purchasesInInterval := purchases; ts_spendMinorInInterval := spend;
     ts_consecutiveFailures := failures; ts_cooldownUntil := ts_cooldownUntil st;
     ts_circuitOpenedAt := if circuitOpened then Some (ck_now k) else None; ts_lastError := error |}.

Definition topupTransactionId (c : AutoTopupChargeSucceeded) : text :=
  match ac_externalPaymentId c with Some i => i | None => js "invoice:" ++ ac_externalInvoiceId c end.

Definition markAutoTopupSucceeded (k : Clocks) (id : Z) (workerId : text) (c : AutoTopupChargeSucceeded) (t : Topup)
    : result (Topup * bool) :=
  match tu_jobs t !! id with
  | None => Err (InternalError "not found")
  | Some j =>
  let p := tu_policy t in let row := tu_state t in
  amountPaid ← safeMinor (Some (ac_amountPaidMinor c)) "charged auto top-up amount";
  let currency := upperText (trim (ac_currency c)) in
  throwWhen (negb (bool_decide (Some currency = upperText <$> tj_currency j))) (InternalError "currency") ;;
  if decide (tj_status j = succeeded) then
    stored ← safeMinor (tj_chargedAmountMinor j) "stored auto top-up charge";
    throwWhen (negb (bool_decide (tj_externalInvoiceId j = Some (ac_externalInvoiceId c))) || negb (stored =? amountPaid))
      (InternalError "receipt") ;;
    Ok (t, bool_decide (ts_status row = suspended))
  else
  throwWhen (negb (lockedByWorker workerId j)) (InternalError "not locked") ;;
  '(startedAt, purchases, spend, st) ← normalizeInterval k (tp_limitIntervalSeconds p) row row;
  let reservationIsCurrent := sameInstant (tj_budgetIntervalStartedAt j) (Some startedAt) in
  expected ← safeMinor (tj_amountMinor j) "scheduled auto top-up amount";
  let purchases := purchases + (if reservationIsCurrent then 0 else 1) in
  let spend := spend - (if reservationIsCurrent then expected else 0) + amountPaid in
  maximumSpend ← nullableSafeMinor (tp_maxSpendMinor p) "auto top-up spend limit";
  let safetyExceeded := (tp_maxPurchasesPerInterval p <? purchases) || overBudget spend maximumSpend in
  let t := with_purchase {| pu_jobId := id; pu_storeProductId := tj_storeProductId j; pu_transactionId := topupTransactionId c;
    pu_originalTransactionId := ac_externalInvoiceId c; pu_amountPaidMinor := amountPaid; pu_currency := currency;
    pu_purchasedAt := ck_clock k |} t in
  let t := with_job id (succeededJob k amountPaid c j) t in
  let t := with_outcome {| ao_type := auto_topup_succeeded; ao_jobId := id; ao_provider := tj_provider j;
    ao_amountMinor := expected; ao_chargedAmountMinor := Some amountPaid; ao_currency := Some (lowerText currency);
    ao_externalInvoiceId := Some (ac_externalInvoiceId c); ao_externalPaymentId := ac_externalPaymentId c;
    ao_error := None |} t in
  let error := if safetyExceeded
    then Some (js "Provider charge exceeded the configured auto top-up safety budget") else None in
  let failures := if safetyExceeded then ts_consecutiveFailures row + 1 else 0 in
  Ok (with_state (settledState k purchases spend failures safetyExceeded error st) t, safetyExceeded)
  end.

Inductive AutoTopupFailureKind := retryable | action_required | safety_limit_exceeded.
#[export] Instance AutoTopupFailureKind_eq_dec : EqDecision AutoTopupFailureKind.
Proof. solve_decision. Defined.

Record TopupFailure := {
  fl_kind : AutoTopupFailureKind;
  fl_error : text;
  fl_retryDelayMs : option Z;
  fl_externalInvoiceId : option text;
  fl_externalPaymentId : option text }.

Definition firstKnown (new old : option text) : option text := match new with Some _ => new | None => old end.

Definition failedJob (k : Clocks) (f : TopupFailure) (retryScheduled : bool) (error : text) (j : AutoTopupJobRow) : AutoTopupJobRow :=
  {| tj_storeProductId := tj_storeProductId j; tj_triggerKey := tj_triggerKey j; tj_provider := tj_provider j;
     tj_providerAccountId := tj_providerAccountId j;
     tj_status := if retryScheduled then pending
       else if decide (fl_kind f = retryable) then failed else provider_action_required;
     tj_phase := phase_charge; tj_amountMinor := tj_amountMinor j; tj_chargedAmountMinor := tj_chargedAmountMinor j;
     tj_currency := tj_currency j; tj_externalInvoiceId := firstKnown (fl_externalInvoiceId f) (tj_externalInvoiceId j);
     tj_externalPaymentId := firstKnown (fl_externalPaymentId f) (tj_externalPaymentId j);
     tj_providerResult := tj_providerResult j; tj_completionAttempts := tj_completionAttempts j;
     tj_budgetReservedAt := None; tj_budgetIntervalStartedAt := None; tj_attempts := tj_attempts j;
     tj_nextAttemptAt := ck_clock k + default 0 (fl_retryDelayMs f); tj_lockedAt := None; tj_lockedBy := None;
     tj_lastError := Some error; tj_completedAt := if retryScheduled then None else Some (ck_clock k);
     tj_createdAt := tj_createdAt j |}.

Definition failureText (error : text) : text :=
  match slice 2000 (trim error) with [] => js "Auto top-up failed" | e => e end.

Definition markAutoTopupFailed (k : Clocks) (id : Z) (workerId : text) (f : TopupFailure) (t : Topup)
    : result (Topup * (bool * bool)) :=
  match tu_jobs t !! id with
  | None => Err (InternalError "not found")
  | Some j =>
  let p := tu_policy t in let row := tu_state t in
  throwWhen (negb (lockedByWorker workerId j)) (InternalError "not locked") ;;
  '(startedAt, purchases, spend, st) ← normalizeInterval k (tp_limitIntervalSeconds p) row row;
  let reserved := sameInstant (tj_budgetIntervalStartedAt j) (Some startedAt) in
  expected ← safeMinor (tj_amountMinor j) "scheduled auto top-up amount";
  let purchases := Z.max 0 (purchases - (if reserved then 1 else 0)) in
  let spend := Z.max 0 (spend - (if reserved then expected else 0)) in
  let failures := ts_consecutiveFailures row + 1 in
  let terminalKind := negb (bool_decide (fl_kind f = retryable)) in
  let circuitOpened := terminalKind || (tp_maxConsecutiveFailures p <=? failures) in
  let retryScheduled := negb circuitOpened && bool_decide (is_Some (fl_retryDelayMs f)) in
  let error := failureText (fl_error f) in
  throwWhen (match fl_retryDelayMs f with None => false | Some d => negb (isSafeInteger d) || (d <? 0) end)
    (InternalError "retry delay") ;;
  let t := with_job id (failedJob k f retryScheduled error j) t in
  let t := with_state (settledState k purchases spend failures circuitOpened (Some error) st) t in
  let t := if retryScheduled then t else with_outcome
    {| ao_type := if decide (fl_kind f = action_required) then auto_topup_action_required else auto_topup_failed;
       ao_jobId := id; ao_provider := tj_provider j; ao_amountMinor := expected; ao_chargedAmountMinor := None;
       ao_currency := lowerText <$> tj_currency j;
       ao_externalInvoiceId := firstKnown (fl_externalInvoiceId f) (tj_externalInvoiceId j);
       ao_externalPaymentId := firstKnown (fl_externalPaymentId f) (tj_externalPaymentId j); ao_error := Some error |} t in
  Ok (t, (retryScheduled, circuitOpened))
  end.

(** ** Operators and policies *)

Definition resumedJob (k : Clocks) (j : AutoTopupJobRow) : AutoTopupJobRow :=
  {| tj_storeProductId := tj_storeProductId j; tj_triggerKey := tj_triggerKey j; tj_provider := tj_provider j;
     tj_providerAccountId := tj_providerAccountId j; tj_status := pending; tj_phase := tj_phase j;
     tj_amountMinor := tj_amountMinor j; tj_chargedAmountMinor := tj_chargedAmountMinor j; tj_currency := tj_currency j;
     tj_externalInvoiceId := tj_externalInvoiceId j; tj_externalPaymentId := tj_externalPaymentId j;
     tj_providerResult := tj_providerResult j; tj_completionAttempts := 0;
     tj_budgetReservedAt := tj_budgetReservedAt j; tj_budgetIntervalStartedAt := tj_budgetIntervalStartedAt j;
     tj_attempts := tj_attempts j; tj_nextAttemptAt := ck_clock k; tj_lockedAt := None; tj_lockedBy := None;
     tj_lastError := tj_lastError j; tj_completedAt := tj_completedAt j; tj_createdAt := tj_createdAt j |}.

Definition resumeAutoTopupReview (k : Clocks) (id : Z) (t : Topup) : Topup * bool :=
  match tu_jobs t !! id with
  | Some j => if decide (tj_status j = requires_review) then (with_job id (resumedJob k j) t, true) else (t, false)
  | None => (t, false)
  end.

Definition resetAutoTopupCircuit (t : Topup) : Topup :=
  let st := tu_state t in
  with_state {| ts_status := ready; ts_intervalStartedAt := ts_intervalStartedAt st;
    ts_purchasesInInterval := ts_purchasesInInterval st; ts_spendMinorInInterval := ts_spendMinorInInterval st;
    ts_consecutiveFailures := 0; ts_cooldownUntil := None; ts_circuitOpenedAt := None; ts_lastError := None |} t.

(** ** The worker

    [runOnce] for one job it claimed, while its lease is kept.  The provider's adapter first
    persists [checkpoints] and then ends as [outcome] says. *)
Inductive ChargeOutcome :=
  | charge_succeeded (c : AutoTopupChargeSucceeded)
  | charge_refused (kind : AutoTopupFailureKind) (reason : text) (invoiceId paymentId : option text)
  | charge_threw (error : text) (definitive : option (text * option text)).

(** [normalizeWorkerError], of the errors of this file. *)
Definition workerError (e : error) : text :=
  match e with InvalidRequest m | BillingErr m _ _ | InternalError m => js m end.

Definition recoveryDelayMs (completionAttempts : Z) : Z :=
  Z.min 86400000 (60000 * 2 ^ Z.min completionAttempts 11).

(** The [catch] block, with the phase the worker has reached. *)
Definition handleFailure (k : Clocks) (workerId : text) (jitterMs : Z) (job : AutoTopupJob) (phase : TopupPhase)
    (error : text) (definitive : option (text * option text)) (t : Topup) : result Topup :=
  if negb (bool_decide (phase = phase_charge)) && bool_decide (definitive = None) then
    retryAutoTopupCompletion k (at_jobId job) workerId error (recoveryDelayMs (at_completionAttempts job)) t
  else
    fst <$> markAutoTopupFailed k (at_jobId job) workerId
      {| fl_kind := retryable; fl_error := slice 2000 error;
         fl_retryDelayMs := calculateRetryDelayMs (at_consecutiveFailures job) (at_maxConsecutiveFailures job) jitterMs;
         fl_externalInvoiceId := fst <$> definitive; fl_externalPaymentId := d ← definitive; snd d |} t.

(** The checkpoints, up to the first that fails; the phase is set before each is written. *)
Fixpoint runCheckpoints (workerId : text) (id : Z) (phase : TopupPhase) (checkpoints : list Checkpoint) (t : Topup)
    : TopupPhase * Topup * option error :=
  match checkpoints with
  | [] => (phase, t, None)
  | c :: rest =>
      match checkpointAutoTopup id workerId c t with
      | Ok t' => runCheckpoints workerId id (checkpointPhase c) rest t'
      | Err e => (checkpointPhase c, t, Some e)
      end
  end.

Definition receiptCheckpoint (c : AutoTopupChargeSucceeded) : Checkpoint :=
  {| cp_invoiceId := ac_externalInvoiceId c; cp_phase := None; cp_result := Some c |}.

Definition completeJob (k : Clocks) (workerId : text) (jitterMs : Z) (job : AutoTopupJob) (phase : TopupPhase)
    (c : AutoTopupChargeSucceeded) (t : Topup) : result Topup :=
  match markAutoTopupSucceeded k (at_jobId job) workerId c t with
  | Ok (t', _) => Ok t'
  | Err e => handleFailure k workerId jitterMs job phase (workerError e) None t
  end.

Definition runClaimedJob (k : Clocks) (workerId : text) (jitterMs : Z) (job : AutoTopupJob)
    (checkpoints : list Checkpoint) (outcome : ChargeOutcome) (t : Topup) : result Topup :=
  let id := at_jobId job in
  let caught phase e t := handleFailure k workerId jitterMs job phase (workerError e) None t in
  match at_providerResult job with
  | Some c => completeJob k workerId jitterMs job phase_complete c t
  | None =>
  let all := checkpoints ++ match outcome with charge_succeeded c => [receiptCheckpoint c] | _ => [] end in
  let '(phase, t, failure) := runCheckpoints workerId id (at_phase job) all t in
  match failure with
  | Some e => caught phase e t
  | None =>
  match outcome with
  | charge_succeeded c => completeJob k workerId jitterMs job phase c t
  | charge_refused kind reason invoiceId paymentId =>
      match markAutoTopupFailed k id workerId
          {| fl_kind := kind; fl_error := reason; fl_retryDelayMs := None; fl_externalInvoiceId := invoiceId;
             fl_externalPaymentId := paymentId |} t with
      | Ok (t', _) => Ok t'
      | Err e => caught phase e t
      end
  | charge_threw error definitive => handleFailure k workerId jitterMs job phase error definitive t
  end
  end
  end.

(** [boundedInteger(value ?? default, field, minimum, maximum)] *)
Definition boundedInteger (value : Z) (field : string) (minimum maximum : Z) : result Z :=
  if negb (isSafeInteger value) || (value <? minimum) || (maximum <? value) then Err (InvalidRequest field) else Ok value.

Record AutoTopupPolicyInput := {
  in_provider : BillingProvider;
  in_thresholdQuantity : text;
  in_cooldownSeconds : option Z;
  in_limitIntervalSeconds : option Z;
  in_maxPurchasesPerInterval : option Z;
  in_maxSpendMinor : option Z;
  in_maxConsecutiveFailures : option Z }.

(** The published top-up option, its binding to the provider and its store product. *)
Record TopupOffer := {
  of_storeProductId : Z;
  of_providerAccountId : option text;
  of_priceAmount : option Z;
  of_currency : option text }.

Definition policySpendLimit (i : AutoTopupPolicyInput) (price : option Z) (purchases : Z) : option Z :=
  match in_maxSpendMinor i with
  | Some m => Some m
  | None => if decide (in_provider i = stripe) then (fun a => a * purchases) <$> price else None
  end.

Definition autoTopupPolicy (creditScale : Z) (i : AutoTopupPolicyInput) (offer : option TopupOffer)
    : result AutoTopupPolicy :=
  threshold ← canonicalDecimal (in_thresholdQuantity i) "thresholdQuantity" creditScale;
  units ← decimalToUnits threshold 9;
  match offer with
  | None => Err (InvalidRequest "topupKey")
  | Some o =>
  cooldown ← boundedInteger (default 30 (in_cooldownSeconds i)) "cooldownSeconds" 30 86400;
  interval ← boundedInteger (default 86400 (in_limitIntervalSeconds i)) "limitIntervalSeconds" 60 31536000;
  purchases ← boundedInteger (default 3 (in_maxPurchasesPerInterval i)) "maxPurchasesPerInterval" 1 1000;
  failures ← boundedInteger (default 3 (in_maxConsecutiveFailures i)) "maxConsecutiveFailures" 1 100;
  throwWhen (bool_decide (in_provider i = stripe) && match of_priceAmount o with None => true | Some a => negb (isSafeInteger a) || (a <=? 0) end)
    (InvalidRequest "price") ;;
  let maxSpend := policySpendLimit i (of_priceAmount o) purchases in
  throwWhen (match maxSpend with None => false | Some m => negb (isSafeInteger m) || (m <=? 0) end) (InvalidRequest "maxSpendMinor") ;;
  throwWhen (match of_priceAmount o, maxSpend with Some a, Some m => m <? a | _, _ => false end) (InvalidRequest "maxSpendMinor") ;;
  Ok {| tp_provider := in_provider i; tp_providerAccountId := of_providerAccountId o; tp_active := true;
        tp_thresholdQuantity := units; tp_cooldownSeconds := cooldown; tp_limitIntervalSeconds := interval;
        tp_maxPurchasesPerInterval := purchases; tp_maxSpendMinor := maxSpend; tp_maxConsecutiveFailures := failures;
        tp_amountMinor := of_priceAmount o; tp_currency := of_currency o; tp_storeProductId := of_storeProductId o |}
  end.

Definition newTopup (now : Z) (p : AutoTopupPolicy) : Topup :=
  {| tu_policy := p;
     tu_state := {| ts_status := ready; ts_intervalStartedAt := now; ts_purchasesInInterval := 0;
       ts_spendMinorInInterval := 0; ts_consecutiveFailures := 0; ts_cooldownUntil := None;
       ts_circuitOpenedAt := None; ts_lastError := None |};
     tu_jobs := ∅; tu_outcomes := []; tu_purchases := [] |}.

Definition with_policy (p : AutoTopupPolicy) (t : Topup) : Topup :=
  {| tu_policy := p; tu_state := tu_state t; tu_jobs := tu_jobs t; tu_outcomes := tu_outcomes t;
     tu_purchases := tu_purchases t |}.

(** The policy row is replaced where it exists; its state and jobs are kept. *)
Definition upsertAutoTopupPolicy (now creditScale : Z) (i : AutoTopupPolicyInput) (offer : option TopupOffer)
    (existing : option Topup) : result Topup :=
  p ← autoTopupPolicy creditScale i offer;
  Ok (match existing with None => newTopup now p | Some t => with_policy p t end).

(** ** Histories

    [r_charged] are the amounts paid since the current interval began, and [r_allowed] the
    largest [maximumChargeMinor] each job was handed while it could still be charged. *)
Record Run := { r_topup : Topup; r_charged : list Z; r_allowed : gmap Z Z }.

(** What a worker may still charge; a job past that phase is only looked up. *)
Definition chargeable (p : AutoTopupJob) : bool :=
  bool_decide (at_phase p = phase_charge) && bool_decide (at_providerResult p = None).

Definition allow (m : gmap Z Z) (p : AutoTopupJob) : gmap Z Z :=
  if chargeable p
  then <[ at_jobId p := match m !! at_jobId p with None => at_maximumChargeMinor p | Some x => Z.max x (at_maximumChargeMinor p) end ]> m
  else m.

(** The history after a transaction that leaves [t]. *)
Definition advance (r : Run) (t : Topup) : Run :=
  {| r_topup := t;
     r_charged :=
       (if ts_intervalStartedAt (tu_state t) =? ts_intervalStartedAt (tu_state (r_topup r)) then r_charged r else [])
       ++ map pu_amountPaidMinor (drop (length (tu_purchases (r_topup r))) (tu_purchases t));
     r_allowed := r_allowed r |}.

Definition start (now : Z) (p : AutoTopupPolicy) : Run :=
  {| r_topup := newTopup now p; r_charged := []; r_allowed := ∅ |}.

(** The constraints of [auto_topup_policies]; a negative store price is refused by the
    constraint on the job's amount. *)
Definition policy_ok (p : AutoTopupPolicy) : Prop :=
  60 <= tp_limitIntervalSeconds p /\ 0 < tp_maxPurchasesPerInterval p /\ 0 < tp_maxConsecutiveFailures p /\
  30 <= tp_cooldownSeconds p <= 86400 /\ (forall m, tp_maxSpendMinor p = Some m -> 0 < m) /\
  (forall a, tp_amountMinor p = Some a -> 0 <= a).

(** The worker fails a job only while no receipt of it is stored: once there is one, it
    completes the job ([workers/auto-topup.ts], [runOnce]). *)
Definition unpaid (id : Z) (t : Topup) : Prop := forall j, tu_jobs t !! id = Some j -> tj_providerResult j = None.

(** The host's clock is less than a minute ahead of the database's. *)
Definition clocks_agree (k : Clocks) : Prop := ck_app k < ck_now k + 60000.

Section Histories.
(** What is known of a payment, given the allowance of its job, and of the policies set. *)
Context (provider : option Z -> Z -> Prop) (policies : AutoTopupPolicy -> Prop).

Inductive topup_step (r : Run) : Run -> Prop :=
  | step_schedule k implements newId key available :
      clocks_agree k -> tu_jobs (r_topup r) !! newId = None ->
      topup_step r (advance r (scheduleAutoTopupIfNeeded k implements newId key available (r_topup r)))
  | step_claim k workerId limit stale t jobs :
      claimAutoTopupJobs k workerId limit stale (r_topup r) = Ok (t, jobs) ->
      topup_step r {| r_topup := t; r_charged := r_charged (advance r t); r_allowed := fold_left allow jobs (r_allowed r) |}
  | step_renew k id workerId :
      topup_step r (advance r (fst (renewAutoTopupJobLease k id workerId (r_topup r))))
  | step_checkpoint id workerId c t :
      checkpointAutoTopup id workerId c (r_topup r) = Ok t -> topup_step r (advance r t)
  | step_retry k id workerId error delay t :
      retryAutoTopupCompletion k id workerId error delay (r_topup r) = Ok t -> topup_step r (advance r t)
  | step_succeed k id workerId c t opened :
      markAutoTopupSucceeded k id workerId c (r_topup r) = Ok (t, opened) ->
      provider (r_allowed r !! id) (ac_amountPaidMinor c) -> topup_step r (advance r t)
  | step_fail k id workerId f t flags :
      unpaid id (r_topup r) -> markAutoTopupFailed k id workerId f (r_topup r) = Ok (t, flags) -> topup_step r (advance r t)
  | step_resume k id : topup_step r (advance r (fst (resumeAutoTopupReview k id (r_topup r))))
  | step_reset : topup_step r (advance r (resetAutoTopupCircuit (r_topup r)))
  | step_policy p : policy_ok p -> policies p -> topup_step r (advance r (with_policy p (r_topup r))).

Definition reachable (r : Run) : Prop :=
  exists now p, policy_ok p /\ policies p /\ rtc topup_step (start now p) r.
End Histories.

(** ** The invariant of one policy *)

(** [cur] is the only open job of the policy, if it has one. *)
Definition view (t : Topup) (cur : option (Z * AutoTopupJobRow)) : Prop :=
  (forall id j, tu_jobs t !! id = Some j -> isOpen j = true -> cur = Some (id, j)) /\
  (forall id j, cur = Some (id, j) -> tu_jobs t !! id = Some j /\ isOpen j = true).

Lemma view_update t id j j' : view t (Some (id, j)) ->
  view (with_job id j' t) (if isOpen j' then Some (id, j') else None).
Proof.
  intros [H1 H2]. split; cbn.
  - intros i x Hx Ho. destruct (decide (i = id)) as [->|Hi].
    + rewrite lookup_insert_eq in Hx. injection Hx as <-. by rewrite Ho.
    + rewrite lookup_insert_ne in Hx by done. specialize (H1 _ _ Hx Ho). congruence.
  - intros i x Hc. destruct (isOpen j') eqn:E; [|done]. injection Hc as <- <-. by rewrite lookup_insert_eq.
Qed.

Lemma view_insert t id j' : view t None -> view (with_job id j' t) (if isOpen j' then Some (id, j') else None).
Proof.
  intros [H1 _]. split; cbn.
  - intros i x Hx Ho. destruct (decide (i = id)) as [->|Hi].
    + rewrite lookup_insert_eq in Hx. injection Hx as <-. by rewrite Ho.
    + rewrite lookup_insert_ne in Hx by done. specialize (H1 _ _ Hx Ho). congruence.
  - intros i x Hc. destruct (isOpen j') eqn:E; [|done]. injection Hc as <- <-. by rewrite lookup_insert_eq.
Qed.

Lemma view_cur t cur id j : view t cur -> tu_jobs t !! id = Some j -> isOpen j = true -> cur = Some (id, j).
Proof. intros [H _]. apply H. Qed.

Lemma hasOpenJob_false t cur : view t cur -> hasOpenJob t = false -> cur = None.
Proof.
  intros [_ H2] Hn. destruct cur as [[id j]|]; [|done]. destruct (H2 id j eq_refl) as [Hj Ho].
  enough (hasOpenJob t = true) by congruence. apply existsb_exists. exists (id, j). split; [|exact Ho].
  apply list_elem_of_In. by apply elem_of_map_to_list.
Qed.

Lemma owned_open id workerId t j : ownedJob id workerId t = Some j ->
  tu_jobs t !! id = Some j /\ isOpen j = true /\ tj_status j = processing.
Proof.
  unfold ownedJob, lockedByWorker, isOpen. destruct (tu_jobs t !! id) as [x|]; [|done].
  destruct (_ && _) eqn:E; [|done]. intros [= <-]. apply andb_prop in E as [E _]. apply bool_decide_eq_true in E.
  by rewrite E.
Qed.

Lemma isOpen_processing j : tj_status j = processing -> isOpen j = true.
Proof. unfold isOpen. by intros ->. Qed.

#[export] Hint Resolve isOpen_processing view_cur : quotum.

Lemma safeMinor_Ok v n x : safeMinor v n = Ok x <-> v = Some x /\ 0 <= x <= maxSafeInteger.
Proof.
  unfold safeMinor. destruct v as [v|]; [|split; [done|intros [? _]; done]].
  destruct (_ || _) eqn:E.
  - split; [done|]. intros [[= ->] H]. apply orb_true_iff in E as [E|E]; bool_to_prop; lia.
  - bool_to_prop. split; [intros [= <-]; split; [done|lia]|intros [[= ->] _]; done].
Qed.

Lemma safeMinor_id x n : 0 <= x <= maxSafeInteger -> safeMinor (Some x) n = Ok x.
Proof. intros H. by apply safeMinor_Ok. Qed.

Lemma nullableSafeMinor_Ok v n x : nullableSafeMinor v n = Ok x -> v = x.
Proof. unfold nullableSafeMinor. destruct v as [v|]; [|by intros [= <-]]. intros H. inv_result. apply safeMinor_Ok in E as [[= ->] _]. by rewrite H. Qed.

Lemma sameInstant_true a b : sameInstant a b = true -> exists x, a = Some x /\ b = Some x.
Proof. destruct a, b; try done. cbn. intros H%Z.eqb_eq. subst. eauto. Qed.

(** *** Normalising the interval *)

(** A new interval starts later, with empty counters, the circuit closed. *)
Definition renewed (st st' : AutoTopupState) : Prop :=
  ts_intervalStartedAt st < ts_intervalStartedAt st' /\ ts_purchasesInInterval st' = 0 /\ ts_spendMinorInInterval st' = 0 /\
  ts_status st <> suspended /\ ts_status st' <> suspended /\ ts_circuitOpenedAt st' = None /\
  ts_consecutiveFailures st' = ts_consecutiveFailures st.

Lemma normalizeInterval_Ok k limit st s p n st' : 60 <= limit -> normalizeInterval k limit st st = Ok (s, p, n, st') ->
  s = ts_intervalStartedAt st' /\ p = ts_purchasesInInterval st' /\ n = ts_spendMinorInInterval st' /\
  normalizeInterval k limit st st' = Ok (s, p, n, st') /\ (st' = st \/ renewed st st').
Proof.
  intros Hl. unfold normalizeInterval. intros H. inv_result. apply safeMinor_Ok in E as [[= <-] E].
  destruct (negb _ && _) eqn:Eb; injection H as <- <- <- <-.
  - apply andb_prop in Eb as [Eb Ei]. apply negb_true_iff, bool_decide_eq_false in Eb. apply Z.leb_le in Ei.
    split_and!; [done..| |].
    + rewrite safeMinor_id by done. cbn. by rewrite ?Eb.
    + right. unfold renewed. cbn. split_and!; try done; [lia|]. by destruct (after _ _).
  - split_and!; [done..| |by left].
    rewrite safeMinor_id by done. cbn. by rewrite ?Eb.
Qed.

(** ** Rows and what was reported about them *)

Definition outcomesOf (id : Z) (t : Topup) : list AutoTopupOutcome := filter (fun o => ao_jobId o = id) (tu_outcomes t).
Definition purchasesOf (id : Z) (t : Topup) : list TopupPurchase := filter (fun p => pu_jobId p = id) (tu_purchases t).

(** [auto_topup_jobs_state_check] and the row's other constraints, with the events and
    purchases that go with its status. *)
Definition status_ok (j : AutoTopupJobRow) (os : list AutoTopupOutcome) (ps : list TopupPurchase) : Prop :=
  match tj_status j with
  | pending | processing | requires_review => tj_completedAt j = None /\ os = [] /\ ps = []
  | succeeded => is_Some (tj_completedAt j) /\ exists paid invoice o p,
      tj_chargedAmountMinor j = Some paid /\ tj_externalInvoiceId j = Some invoice /\
      os = [o] /\ ao_type o = auto_topup_succeeded /\ ao_chargedAmountMinor o = Some paid /\
      ps = [p] /\ pu_amountPaidMinor p = paid /\ pu_originalTransactionId p = invoice
  | failed => is_Some (tj_completedAt j) /\ is_Some (tj_lastError j) /\ ps = [] /\
      exists o, os = [o] /\ ao_type o = auto_topup_failed
  | provider_action_required => is_Some (tj_completedAt j) /\ is_Some (tj_lastError j) /\ ps = [] /\
      exists o, os = [o] /\ ao_type o <> auto_topup_succeeded
  end.

Record job_ok (j : AutoTopupJobRow) : Prop := {
  jo_amount : exists a, tj_amountMinor j = Some a /\ 0 <= a /\ (isOpen j = true -> 0 < a <= maxSafeInteger);
  jo_currency : isOpen j = true -> is_Some (tj_currency j);
  jo_charged : forall a, tj_chargedAmountMinor j = Some a -> 0 <= a;
  jo_attempts : 0 <= tj_attempts j /\ 0 <= tj_completionAttempts j;
  jo_locked : tj_status j = processing <-> is_Some (tj_lockedBy j) }.

Definition row_ok (row : option AutoTopupJobRow) (os : list AutoTopupOutcome) (ps : list TopupPurchase) : Prop :=
  match row with
  | None => os = [] /\ ps = []
  | Some j => job_ok j /\ status_ok j os ps
  end.

Definition rows_ok (t : Topup) : Prop := forall id, row_ok (tu_jobs t !! id) (outcomesOf id t) (purchasesOf id t).

(** [t'] is [t] with the row [id] replaced, and [os] and [ps] recorded about it. *)
Definition rewrites (t t' : Topup) (id : Z) (j' : AutoTopupJobRow) (os : list AutoTopupOutcome) (ps : list TopupPurchase) : Prop :=
  tu_jobs t' = <[ id := j' ]> (tu_jobs t) /\ tu_outcomes t' = tu_outcomes t ++ os /\ tu_purchases t' = tu_purchases t ++ ps /\
  Forall (fun o => ao_jobId o = id) os /\ Forall (fun p => pu_jobId p = id) ps.

Lemma filter_eq_all {A} (f : A -> Z) id l : Forall (fun x => f x = id) l -> filter (fun x => f x = id) l = l.
Proof. induction 1; [done|]. rewrite filter_cons_True by done. by f_equal. Qed.

Lemma filter_eq_none {A} (f : A -> Z) id i l : i <> id -> Forall (fun x => f x = id) l -> filter (fun x => f x = i) l = [].
Proof. intros Hi. induction 1; [done|]. rewrite filter_cons_False by congruence. done. Qed.

Lemma rewrites_rows t t' id j' os ps : rewrites t t' id j' os ps ->
  row_ok (Some j') (outcomesOf id t ++ os) (purchasesOf id t ++ ps) -> rows_ok t -> rows_ok t'.
Proof.
  intros (Hj & Ho & Hp & Fo & Fp) Hrow Hrows i. unfold outcomesOf, purchasesOf. rewrite Hj, Ho, Hp, !filter_app.
  destruct (decide (i = id)) as [->|Hi].
  - rewrite lookup_insert_eq, (filter_eq_all ao_jobId id os Fo), (filter_eq_all pu_jobId id ps Fp). exact Hrow.
  - rewrite lookup_insert_ne by done. rewrite (filter_eq_none ao_jobId _ i os Hi), (filter_eq_none pu_jobId _ i ps Hi) by done.
    rewrite !app_nil_r. exact (Hrows i).
Qed.

(** An open row that stays open, or ends with one report. *)
Lemma open_row t id j : rows_ok t -> tu_jobs t !! id = Some j -> isOpen j = true ->
  job_ok j /\ outcomesOf id t = [] /\ purchasesOf id t = [] /\ tj_completedAt j = None.
Proof.
  intros H Hj Ho. specialize (H id). rewrite Hj in H. destruct H as [H1 H2]. split; [done|].
  unfold status_ok, isOpen in *. destruct (tj_status j); try discriminate; tauto.
Qed.

Lemma rows_same t t' : tu_jobs t' = tu_jobs t -> tu_outcomes t' = tu_outcomes t -> tu_purchases t' = tu_purchases t ->
  rows_ok t -> rows_ok t'.
Proof. intros H1 H2 H3 H id. unfold outcomesOf, purchasesOf. rewrite H1, H2, H3. apply H. Qed.

(** ** The account a policy keeps: an abstract specification

    An account has the counters of its interval and at most one open hold.  [ho_stamp] is the
    interval in which the hold was counted, and [ho_begun] says that it may have been paid. *)
Record Hold := { ho_job : Z; ho_amount : Z; ho_stamp : option Z; ho_begun : bool }.

Record Account := {
  a_start : Z;
  a_purchases : Z;
  a_spend : Z;
  a_suspended : bool;
  a_open : option Hold }.

Definition counted (a : Account) (h : Hold) : bool := sameInstant (ho_stamp h) (Some (a_start a)).

Definition account (a : Account) (purchases spend : Z) (circuit : bool) (open : option Hold) : Account :=
  {| a_start := a_start a; a_purchases := purchases; a_spend := spend; a_suspended := circuit; a_open := open |}.

(** The counters without a hold that ends unpaid. *)
Definition freedPurchases (a : Account) (h : Hold) : Z := a_purchases a - (if counted a h then 1 else 0).
Definition freedSpend (a : Account) (h : Hold) : Z := a_spend a - (if counted a h then ho_amount h else 0).

Definition allowance (maximumSpend : option Z) (amount spend : Z) : Z :=
  match maximumSpend with None => maxSafeInteger | Some m => amount + m - spend end.

Definition begun (a : Account) (h : Hold) : Hold :=
  {| ho_job := ho_job h; ho_amount := ho_amount h; ho_stamp := Some (a_start a); ho_begun := true |}.

(** A move records what it pays and the allowances it hands out. *)
Inductive account_move (p : AutoTopupPolicy) (a : Account) : list Z -> list (Z * Z) -> Account -> Prop :=
  | mv_stay : account_move p a [] [] a
  | mv_reset_circuit : account_move p a [] [] (account a (a_purchases a) (a_spend a) false (a_open a))
  | mv_open h : a_open a = None -> a_suspended a = false -> ho_stamp h = None -> ho_begun h = false -> 0 < ho_amount h ->
      account_move p a [] [] (account a (a_purchases a) (a_spend a) false (Some h))
  | mv_reserve h : a_open a = Some h -> counted a h = false -> a_purchases a < tp_maxPurchasesPerInterval p ->
      overBudget (a_spend a + ho_amount h) (tp_maxSpendMinor p) = false ->
      account_move p a [] [(ho_job h, allowance (tp_maxSpendMinor p) (ho_amount h) (a_spend a + ho_amount h))]
        (account a (a_purchases a + 1) (a_spend a + ho_amount h) (a_suspended a) (Some (begun a h)))
  | mv_hand h : a_open a = Some h -> counted a h = true ->
      account_move p a [] [(ho_job h, allowance (tp_maxSpendMinor p) (ho_amount h) (a_spend a))]
        (account a (a_purchases a) (a_spend a) (a_suspended a) (Some (begun a h)))
  | mv_touch h h' : a_open a = Some h -> ho_job h' = ho_job h -> ho_amount h' = ho_amount h -> ho_stamp h' = ho_stamp h ->
      (ho_begun h' = true -> ho_begun h = true) ->
      account_move p a [] [] (account a (a_purchases a) (a_spend a) (a_suspended a) (Some h'))
  | mv_release h h' : a_open a = Some h -> ho_job h' = ho_job h -> ho_amount h' = ho_amount h -> ho_stamp h' = None ->
      ho_begun h' = false ->
      account_move p a [] [] (account a (freedPurchases a h) (freedSpend a h) false (Some h'))
  | mv_close h circuit : a_open a = Some h ->
      account_move p a [] [] (account a (freedPurchases a h) (freedSpend a h) circuit None)
  | mv_pay h paid : a_open a = Some h -> ho_begun h = true -> 0 <= paid ->
      let purchases := a_purchases a + (if counted a h then 0 else 1) in
      let spend := a_spend a - (if counted a h then ho_amount h else 0) + paid in
      account_move p a [paid] []
        (account a purchases spend ((tp_maxPurchasesPerInterval p <? purchases) || overBudget spend (tp_maxSpendMinor p)) None).

(** A later interval starts with empty counters, unless the circuit is open. *)
Definition account_rolls (a a' : Account) : Prop :=
  a_suspended a = false /\ exists now, a_start a < now /\
  a' = {| a_start := now; a_purchases := 0; a_spend := 0; a_suspended := false; a_open := a_open a |}.

Definition account_step (p : AutoTopupPolicy) (a : Account) (paid : list Z) (handed : list (Z * Z)) (a' : Account) : Prop :=
  exists a1, (a1 = a \/ account_rolls a a1) /\ account_move p a1 paid handed a'.

(** Counters are not negative and cover the hold counted in them, and no hold is open while
    the circuit is. *)
Record account_sound (a : Account) : Prop := {
  as_counters : 0 <= a_purchases a /\ 0 <= a_spend a;
  as_circuit : a_suspended a = true -> a_open a = None;
  as_hold : forall h, a_open a = Some h -> 0 < ho_amount h /\
    (forall s, ho_stamp h = Some s -> s <= a_start a) /\
    (counted a h = true -> 1 <= a_purchases a /\ ho_amount h <= a_spend a) }.

Lemma roll_counts a a' h : account_sound a -> account_rolls a a' -> a_open a = Some h -> counted a' h = false.
Proof.
  intros [_ _ Hh] (_ & now & Hlt & ->) Ho. destruct (Hh h Ho) as (_ & Hs & _). unfold counted. cbn.
  destruct (ho_stamp h) as [s|]; [|done]. cbn. apply Z.eqb_neq. specialize (Hs s eq_refl). lia.
Qed.

Lemma account_rolls_sound a a' : account_sound a -> account_rolls a a' -> account_sound a'.
Proof.
  intros Ha Hr. assert (H := Hr). destruct H as (Hn & now & Hlt & ->). pose proof (as_hold _ Ha) as Hh.
  constructor; cbn; [lia|done|]. intros h Ho. destruct (Hh h Ho) as (? & Hs & _). split_and!; [done| |].
  - intros s Es. specialize (Hs s Es). lia.
  - rewrite (roll_counts a _ h) by done. done.
Qed.

Lemma counted_begun a h : counted a (begun a h) = true.
Proof. unfold counted. cbn. apply Z.eqb_refl. Qed.

Lemma account_move_sound p a paid handed a' : account_sound a -> account_move p a paid handed a' -> account_sound a'.
Proof.
  intros [[Hp Hs] Hc Hh] H. inversion H; subst; clear H; try by constructor.
  - constructor; cbn; [done|done|]. intros x [= <-]. split; [done|]. unfold counted. rewrite H2. done.
  - destruct (Hh h H0) as (? & ? & _). constructor; cbn; [lia|intros Hx; specialize (Hc Hx); congruence|].
    intros x [= <-]. cbn. split; [done|]. split; [intros s [= <-]; lia|intros _; lia].
  - destruct (Hh h H0) as (? & ? & Hk). specialize (Hk H1). constructor; cbn; [lia|intros Hx; specialize (Hc Hx); congruence|].
    intros x [= <-]. cbn. split; [done|]. split; [intros s [= <-]; lia|intros _; lia].
  - destruct (Hh h H0) as (? & ? & Hk). constructor; cbn; [done|intros Hx; specialize (Hc Hx); congruence|].
    intros x [= <-]. unfold counted. cbn [a_start account a_purchases a_spend]. rewrite H2, H3. done.
  - destruct (Hh h H0) as (? & ? & Hk). unfold freedPurchases, freedSpend.
    constructor; cbn; [destruct (counted a h); [specialize (Hk eq_refl)|]; lia|done|].
    intros x [= <-]. unfold counted. rewrite H2, H3. done.
  - destruct (Hh h H0) as (? & ? & Hk). unfold freedPurchases, freedSpend.
    constructor; cbn; [destruct (counted a h); [specialize (Hk eq_refl)|]; lia|done|done].
  - destruct (Hh h H0) as (? & ? & Hk).
    constructor; cbn; [destruct (counted a h); [specialize (Hk eq_refl)|]; lia|done|done].
Qed.

Lemma account_step_sound p a paid handed a' : account_sound a -> account_step p a paid handed a' -> account_sound a'.
Proof.
  intros Ha (a1 & [->|Hr] & Hm); eauto using account_move_sound, account_rolls_sound.
Qed.

(** ** The code's rows as an account *)

Definition holdOf (cur : Z * AutoTopupJobRow) : Hold :=
  let '(id, j) := cur in
  {| ho_job := id; ho_amount := default 0 (tj_amountMinor j); ho_stamp := tj_budgetIntervalStartedAt j;
     ho_begun := bool_decide (tj_status j = processing) || recovering j |}.

Definition accountOf (st : AutoTopupState) (cur : option (Z * AutoTopupJobRow)) : Account :=
  {| a_start := ts_intervalStartedAt st; a_purchases := ts_purchasesInInterval st; a_spend := ts_spendMinorInInterval st;
     a_suspended := bool_decide (ts_status st = suspended); a_open := holdOf <$> cur |}.

Definition represents (t : Topup) (a : Account) : Prop := exists cur, view t cur /\ a = accountOf (tu_state t) cur.

Definition state_ok (st : AutoTopupState) : Prop :=
  (ts_status st = suspended <-> is_Some (ts_circuitOpenedAt st)) /\ 0 <= ts_consecutiveFailures st.

Record topup_ok (t : Topup) : Prop := {
  to_policy : policy_ok (tu_policy t);
  to_state : state_ok (tu_state t);
  to_rows : rows_ok t;
  to_view : exists cur, view t cur /\ account_sound (accountOf (tu_state t) cur) }.

(** What a transaction from [t] to [t'] is, as the account sees it. *)
Definition transacts (t t' : Topup) (paid : list Z) (handed : list (Z * Z)) : Prop :=
  topup_ok t' /\ tu_policy t' = tu_policy t /\
  map pu_amountPaidMinor (tu_purchases t') = map pu_amountPaidMinor (tu_purchases t) ++ paid /\
  (forall id, is_Some (tu_jobs t !! id) -> is_Some (tu_jobs t' !! id)) /\
  exists a a', represents t a /\ represents t' a' /\ account_step (tu_policy t) a paid handed a' /\
    (forall h, a_open a = None -> a_open a' = Some h -> tu_jobs t !! ho_job h = None).

Lemma renewed_rolls st st' cur : renewed st st' -> account_rolls (accountOf st cur) (accountOf st' cur).
Proof.
  intros (Hlt & Hp & Hs & Hn & Hn' & _). split; [by apply bool_decide_eq_false|]. exists (ts_intervalStartedAt st').
  split; [exact Hlt|]. unfold accountOf. rewrite Hp, Hs. by rewrite (bool_decide_eq_false_2 _ Hn').
Qed.

Lemma rolled st st' cur : st' = st \/ renewed st st' ->
  accountOf st' cur = accountOf st cur \/ account_rolls (accountOf st cur) (accountOf st' cur).
Proof. intros [->|H]; [by left|right; by apply renewed_rolls]. Qed.

Lemma insert_keeps {A} (m : gmap Z A) i k x : is_Some (m !! k) -> is_Some (<[ i := x ]> m !! k).
Proof.
  intros H. destruct (decide (k = i)) as [->|Hk]; [by rewrite lookup_insert_eq|by rewrite lookup_insert_ne].
Qed.

(** A transaction that rewrites the open job. *)
Lemma job_transacts t t' id j j' os ps handed st1 : topup_ok t -> tu_jobs t !! id = Some j -> isOpen j = true ->
  st1 = tu_state t \/ renewed (tu_state t) st1 -> rewrites t t' id j' os ps -> tu_policy t' = tu_policy t ->
  state_ok (tu_state t') -> job_ok j' -> status_ok j' os ps ->
  (account_sound (accountOf st1 (Some (id, j))) ->
   account_move (tu_policy t) (accountOf st1 (Some (id, j))) (map pu_amountPaidMinor ps) handed
    (accountOf (tu_state t') (if isOpen j' then Some (id, j') else None))) ->
  transacts t t' (map pu_amountPaidMinor ps) handed.
Proof.
  intros [Hpol Hst Hrows (cur & Hv & Hsound)] Hj Ho Hroll Hw Hp Hst' Hjo Hso Hmove.
  pose proof (view_cur _ _ _ _ Hv Hj Ho) as ->.
  destruct (open_row _ _ _ Hrows Hj Ho) as (_ & Eo & Ep & _).
  assert (Hv' : view t' (if isOpen j' then Some (id, j') else None)).
  { destruct Hw as (Ej & _). pose proof (view_update _ _ _ j' Hv) as H. unfold view in *. cbn in H. by rewrite Ej. }
  assert (Hstep : account_step (tu_policy t) (accountOf (tu_state t) (Some (id, j))) (map pu_amountPaidMinor ps) handed
    (accountOf (tu_state t') (if isOpen j' then Some (id, j') else None))).
  { pose proof (rolled _ _ (Some (id, j)) Hroll) as Hr. exists (accountOf st1 (Some (id, j))). split; [done|]. apply Hmove.
    destruct Hr as [->|Hr]; [done|]. by eapply account_rolls_sound. }
  split; [constructor|].
  - by rewrite Hp.
  - done.
  - eapply rewrites_rows; [exact Hw| |exact Hrows]. rewrite Eo, Ep. done.
  - eexists. split; [exact Hv'|]. by eapply account_step_sound.
  - split; [done|]. destruct Hw as (Ej & _ & Ew & _). split; [by rewrite Ew, map_app|].
    split; [intros i; rewrite Ej; apply insert_keeps|].
    eexists _, _. split; [by exists (Some (id, j))|]. split; [eexists; split; [exact Hv'|reflexivity]|].
    split; [exact Hstep|done].
Qed.

(** A transaction that rewrites the state alone. *)
Lemma state_transacts t st1 st' : topup_ok t -> st1 = tu_state t \/ renewed (tu_state t) st1 -> state_ok st' ->
  (forall cur, view t cur -> account_move (tu_policy t) (accountOf st1 cur) [] [] (accountOf st' cur)) ->
  transacts t (with_state st' t) [] [].
Proof.
  intros [Hpol Hst Hrows (cur & Hv & Hsound)] Hroll Hst' Hmove.
  assert (Hstep : account_step (tu_policy t) (accountOf (tu_state t) cur) [] [] (accountOf st' cur)).
  { exists (accountOf st1 cur). split; [by apply rolled|auto]. }
  split; [constructor; [done..|]|].
  - exists cur. split; [done|]. by eapply account_step_sound.
  - split; [done|]. split; [by rewrite app_nil_r|]. split; [done|]. exists (accountOf (tu_state t) cur), (accountOf st' cur).
    split; [by exists cur|]. split; [by exists cur|]. split; [exact Hstep|]. cbn. congruence.
Qed.

Lemma with_state_id t : with_state (tu_state t) t = t.
Proof. by destruct t. Qed.

Lemma stay_transacts t : topup_ok t -> transacts t t [] [].
Proof.
  intros H. rewrite <- (with_state_id t) at 2. eapply state_transacts; [done|by left|apply H|]. intros. constructor.
Qed.

Lemma renewed_state_ok st st' : st' = st \/ renewed st st' -> state_ok st -> state_ok st'.
Proof.
  intros [->|(_ & _ & _ & _ & Hn & Hc & Hf)] [H1 H2]; [done|]. split; [|by rewrite Hf]. rewrite Hc.
  split; [done|by intros [? ?]].
Qed.

Lemma with_budget_ok a b st : state_ok st -> state_ok (with_budget a b st).
Proof. done. Qed.

Lemma settledState_ok k a b f c e st : 0 <= f -> state_ok (settledState k a b f c e st).
Proof.
  intros Hf. split; [|exact Hf]. cbn. destruct c; [split; eauto|]. destruct (after _ _); (split; [done|by intros [? ?]]).
Qed.

Lemma settledState_suspended k a b f c e st : bool_decide (ts_status (settledState k a b f c e st) = suspended) = c.
Proof. cbn. destruct c; [done|]. by destruct (after _ _). Qed.

#[export] Hint Resolve with_budget_ok settledState_ok renewed_state_ok : quotum.

(** *** Working on a claimed job *)

Lemma rewrites_job t st id j' : rewrites t (with_job id j' (with_state st t)) id j' [] [].
Proof. unfold rewrites. cbn. by rewrite !app_nil_r. Qed.

(** A row of [id] that stays open with its hold. *)
Lemma touch_transacts t id j j' : topup_ok t -> tu_jobs t !! id = Some j -> isOpen j = true -> isOpen j' = true ->
  job_ok j' -> tj_completedAt j' = None -> tj_amountMinor j' = tj_amountMinor j ->
  tj_budgetIntervalStartedAt j' = tj_budgetIntervalStartedAt j ->
  (ho_begun (holdOf (id, j')) = true -> ho_begun (holdOf (id, j)) = true) ->
  transacts t (with_job id j' t) [] [].
Proof.
  intros Ht Hj Ho Ho' Hjo Hc Ha Hb Hbegun.
  eapply (job_transacts t _ id j j' [] []); [done..|by left| |done|apply Ht|done| |].
  - rewrite <- (with_state_id t) at 2. apply rewrites_job.
  - unfold status_ok, isOpen in *. by destruct (tj_status j').
  - intros _. rewrite Ho'. cbn [map]. apply (mv_touch _ (accountOf (tu_state t) (Some (id, j))) (holdOf (id, j)) (holdOf (id, j'))); cbn; try done; congruence.
Qed.

Lemma ownedJob_ok t id workerId j : topup_ok t -> ownedJob id workerId t = Some j ->
  tu_jobs t !! id = Some j /\ isOpen j = true /\ tj_status j = processing /\ job_ok j /\ tj_completedAt j = None.
Proof.
  intros Ht H. apply owned_open in H as (Hj & Ho & Hp). pose proof (open_row _ _ _ (to_rows _ Ht) Hj Ho) as (? & _ & _ & ?). done.
Qed.

(** An open row whose price, currency and charge are kept. *)
Lemma kept_job_ok j j' : job_ok j -> isOpen j = true -> tj_amountMinor j' = tj_amountMinor j ->
  tj_currency j' = tj_currency j -> tj_chargedAmountMinor j' = tj_chargedAmountMinor j ->
  0 <= tj_attempts j' -> 0 <= tj_completionAttempts j' -> (tj_status j' = processing <-> is_Some (tj_lockedBy j')) ->
  job_ok j'.
Proof.
  intros [(a & Ha & Hp & Hm) Hc Hch Hat _] Ho Ea Ec Ech Hat' Hco' Hl. constructor; rewrite ?Ea, ?Ec, ?Ech; auto.
  exists a. auto.
Qed.

Lemma not_locked j : tj_status j <> processing -> tj_lockedBy j = None -> (tj_status j = processing <-> is_Some (tj_lockedBy j)).
Proof. intros Hn ->. split; [done|by intros [? ?]]. Qed.

(** A row that ends. *)
Lemma closed_job_ok j j' : job_ok j -> isOpen j' = false -> tj_amountMinor j' = tj_amountMinor j ->
  (forall a, tj_chargedAmountMinor j' = Some a -> 0 <= a) -> tj_attempts j' = tj_attempts j ->
  tj_completionAttempts j' = tj_completionAttempts j -> tj_lockedBy j' = None -> job_ok j'.
Proof.
  intros [(a & Ha & Hp & _) _ _ Hat _] Ho Ea Ech Eat Eco El. constructor; rewrite ?Ea, ?Eat, ?Eco, ?El; [|congruence|done|done|].
  - exists a. split_and!; [done..|congruence].
  - split; [|by intros [? ?]]. intros Hp'%isOpen_processing. congruence.
Qed.

Ltac keep_job H :=
  eapply kept_job_ok; [exact H|done..|apply (jo_attempts _ H)|apply (jo_attempts _ H)|apply (jo_locked _ H)].

Lemma renew_transacts k id workerId t : topup_ok t ->
  transacts t (fst (renewAutoTopupJobLease k id workerId t)) [] [].
Proof.
  intros Ht. unfold renewAutoTopupJobLease. destruct (ownedJob id workerId t) as [j|] eqn:E; [|by apply stay_transacts].
  destruct (ownedJob_ok _ _ _ _ Ht E) as (Hj & Ho & Hs & Hjo & Hc). cbn [fst].
  eapply touch_transacts; try done. keep_job Hjo.
Qed.

Lemma checkpoint_transacts id workerId c t t' : topup_ok t -> checkpointAutoTopup id workerId c t = Ok t' ->
  transacts t t' [] [].
Proof.
  intros Ht H. unfold checkpointAutoTopup in H. inv_result. destruct (ownedJob id workerId t) as [j|] eqn:Eo; [|done].
  destruct (checkpointFits c j); [|done]. injection H as <-.
  destruct (ownedJob_ok _ _ _ _ Ht Eo) as (Hj & Ho & Hs & Hjo & Hc). eapply touch_transacts; try done.
  - keep_job Hjo.
  - intros _. unfold holdOf. cbn [ho_begun]. by rewrite Hs.
Qed.

Lemma retry_transacts k id workerId error delay t t' : topup_ok t ->
  retryAutoTopupCompletion k id workerId error delay t = Ok t' -> transacts t t' [] [].
Proof.
  intros Ht H. unfold retryAutoTopupCompletion in H. inv_result. destruct (ownedJob id workerId t) as [j|] eqn:Eo; [|done].
  injection H as <-. destruct (ownedJob_ok _ _ _ _ Ht Eo) as (Hj & Ho & Hs & Hjo & Hc). eapply touch_transacts; try done.
  - unfold isOpen. cbn. by destruct (9 <=? _).
  - eapply kept_job_ok; [exact Hjo|done..|apply (jo_attempts _ Hjo)| |].
    + cbn. pose proof (jo_attempts _ Hjo). lia.
    + apply not_locked; [|done]. cbn. by destruct (9 <=? _).
  - intros _. unfold holdOf. cbn [ho_begun]. by rewrite Hs.
Qed.

Lemma resume_transacts k id t : topup_ok t -> transacts t (fst (resumeAutoTopupReview k id t)) [] [].
Proof.
  intros Ht. unfold resumeAutoTopupReview. destruct (tu_jobs t !! id) as [j|] eqn:Hj; [|by apply stay_transacts].
  destruct (decide _) as [Hs|]; [|by apply stay_transacts]. cbn [fst].
  assert (Ho : isOpen j = true) by (unfold isOpen; by rewrite Hs).
  pose proof (open_row _ _ _ (to_rows _ Ht) Hj Ho) as (Hjo & _ & _ & Hc). eapply touch_transacts; try done.
  - eapply kept_job_ok; [exact Hjo|done..|apply (jo_attempts _ Hjo)|done|by apply not_locked].
  - unfold holdOf. cbn [ho_begun resumedJob tj_status]. rewrite bool_decide_eq_false_2 by done. cbn [orb].
    intros H. apply orb_true_iff. by right.
Qed.

(** *** Completing a job *)

Lemma lockedByWorker_processing w j : negb (lockedByWorker w j) = false -> tj_status j = processing.
Proof. intros H. apply negb_false_iff, andb_prop in H as [H _]. by apply bool_decide_eq_true in H. Qed.

Lemma counted_hold st id j : counted (accountOf st (Some (id, j))) (holdOf (id, j)) =
  sameInstant (tj_budgetIntervalStartedAt j) (Some (ts_intervalStartedAt st)).
Proof. done. Qed.

(** The row [id] of a policy in order, with what it holds. *)
Lemma open_job t id j : topup_ok t -> tu_jobs t !! id = Some j -> isOpen j = true ->
  job_ok j /\ tj_completedAt j = None /\
  exists a c, tj_amountMinor j = Some a /\ 0 < a <= maxSafeInteger /\ tj_currency j = Some c.
Proof.
  intros Ht Hj Ho. destruct (open_row _ _ _ (to_rows _ Ht) Hj Ho) as (Hjo & _ & _ & Hc). split_and!; [done..|].
  destruct (jo_amount _ Hjo) as (a & Ha & _ & Hp). destruct (jo_currency _ Hjo Ho) as (c & Ec). exists a, c. auto.
Qed.

Lemma maxed_counters st id j a : tj_amountMinor j = Some a -> account_sound (accountOf st (Some (id, j))) ->
  let a' := accountOf st (Some (id, j)) in
  let same := sameInstant (tj_budgetIntervalStartedAt j) (Some (ts_intervalStartedAt st)) in
  Z.max 0 (ts_purchasesInInterval st - (if same then 1 else 0)) = freedPurchases a' (holdOf (id, j)) /\
  Z.max 0 (ts_spendMinorInInterval st - (if same then a else 0)) = freedSpend a' (holdOf (id, j)).
Proof.
  intros Ha [[Hp Hs] _ Hh] a' same. destruct (Hh _ eq_refl) as (_ & _ & Hk). rewrite counted_hold in Hk. fold same in Hk.
  unfold freedPurchases, freedSpend, a'. rewrite counted_hold. fold same. cbn in *. rewrite Ha in *. cbn in *.
  destruct same; [specialize (Hk eq_refl)|]; lia.
Qed.

Lemma mark_succeeded_transacts k id workerId c t t' opened : topup_ok t ->
  markAutoTopupSucceeded k id workerId c t = Ok (t', opened) ->
  transacts t t' [] [] \/
  (exists j, tu_jobs t !! id = Some j /\ isOpen j = true) /\ transacts t t' [ac_amountPaidMinor c] [].
Proof.
  intros Ht H. unfold markAutoTopupSucceeded in H. destruct (tu_jobs t !! id) as [j|] eqn:Hj; [|done].
  inv_result. apply safeMinor_Ok in E as [[= Epaid] Hpaid]. destruct (decide _) as [Hs|Hs].
  { inv_result. subst. left. by apply stay_transacts. }
  inv_result. destruct x1 as [[[s pu] sp] st1]. inv_result. subst t'.
  apply lockedByWorker_processing in E. pose proof (isOpen_processing _ E) as Ho.
  destruct (open_job _ _ _ Ht Hj Ho) as (Hjo & _ & a & cur & Ha & Hap & Hcur).
  pose proof (to_policy _ Ht) as (Hlim & _).
  apply normalizeInterval_Ok in E1 as (-> & -> & -> & _ & Hroll); [|done].
  rewrite Ha in E2. apply safeMinor_Ok in E2 as [[= <-] _]. apply nullableSafeMinor_Ok in E3 as <-.
  right. split; [by exists j|]. rewrite Epaid.
  match goal with |- context [with_purchase ?p _] => change [x] with (map pu_amountPaidMinor [p]) end.
  eapply (job_transacts t _ id j (succeededJob k x c j) [_] [_] []); [done..| |done| | | |].
  - unfold rewrites. cbn. split_and!; [done..| |]; by repeat constructor.
  - apply settledState_ok. pose proof (proj2 (to_state _ Ht)). cases_if; lia.
  - eapply closed_job_ok; [exact Hjo|done..| |done|done|done]. cbn. intros y [= <-]. lia.
  - unfold status_ok. cbn. split; [eauto|]. eauto 12.
  - intros _. cbn [map pu_amountPaidMinor isOpen succeededJob tj_status].
    pose proof (mv_pay (tu_policy t) (accountOf st1 (Some (id, j))) (holdOf (id, j)) x eq_refl) as Hmv.
    rewrite counted_hold in Hmv. cbn [holdOf ho_begun ho_amount a_purchases a_spend accountOf] in Hmv.
    rewrite Ha, E in Hmv. cbn [default] in Hmv. specialize (Hmv eq_refl (proj1 Hpaid)). cbv zeta in Hmv.
    unfold account in Hmv. cbn [a_start accountOf] in Hmv. unfold accountOf at 2. cbn [tu_state with_state option_fmap option_map fmap].
    rewrite settledState_suspended. exact Hmv.
Qed.

Lemma mark_failed_transacts k id workerId f t t' flags : topup_ok t ->
  unpaid id t -> markAutoTopupFailed k id workerId f t = Ok (t', flags) -> transacts t t' [] [].
Proof.
  intros Ht Hunpaid H. unfold markAutoTopupFailed in H. destruct (tu_jobs t !! id) as [j|] eqn:Hj; [|done].
  inv_result. destruct x0 as [[[s pu] sp] st1]. inv_result.
  apply lockedByWorker_processing in E. pose proof (isOpen_processing _ E) as Ho.
  destruct (open_job _ _ _ Ht Hj Ho) as (Hjo & _ & a & cur & Ha & Hap & Hcur).
  pose proof (to_policy _ Ht) as (Hlim & _).
  apply normalizeInterval_Ok in E0 as (-> & -> & -> & _ & Hroll); [|done].
  rewrite Ha in E1. apply safeMinor_Ok in E1 as [[= <-] _].
  set (circuit := negb _ || _) in *. set (again := negb circuit && _) in *. subst t'.
  assert (Hagain : again = true -> circuit = false) by (intros [Hx _]%andb_prop; by apply negb_true_iff).
  set (o := {| ao_type := _ |}).
  assert (Eo : isOpen (failedJob k f again (failureText (fl_error f)) j) = again).
  { unfold isOpen, failedJob. cbn [tj_status]. destruct again; [done|]. by destruct (decide (fl_kind f = retryable)). }
  eapply (job_transacts t _ id j (failedJob k f again (failureText (fl_error f)) j) (if again then [] else [o]) [] []); [done..| | | | | |].
  - unfold rewrites. destruct again; cbn; rewrite ?app_nil_r; split_and!; try done; by repeat constructor.
  - by destruct again.
  - pose proof (proj2 (to_state _ Ht)). destruct again; apply settledState_ok; lia.
  - destruct again.
    + eapply kept_job_ok; [exact Hjo|done..|apply (jo_attempts _ Hjo)|apply (jo_attempts _ Hjo)|by apply not_locked].
    + eapply closed_job_ok; [exact Hjo|exact Eo|done|apply (jo_charged _ Hjo)|done..].
  - unfold status_ok. cbn. destruct again; [done|]. destruct (decide (fl_kind f = retryable)) as [Hk|Hk].
    + split_and!; [eauto..|done|]. eexists. split; [done|]. subst o. cbn. rewrite Hk. done.
    + split_and!; [eauto..|done|]. eexists. split; [done|]. subst o. cbn. by destruct (decide _).
  - intros Hsound. destruct (maxed_counters _ _ _ _ Ha Hsound) as [Ep Es]. cbv zeta in Ep, Es. cbn [map].
    rewrite Eo. set (st' := settledState _ _ _ _ _ _ _).
    assert (Est : tu_state (if again then with_state st' (with_job id (failedJob k f again (failureText (fl_error f)) j) t)
      else with_outcome o (with_state st' (with_job id (failedJob k f again (failureText (fl_error f)) j) t))) = st') by by destruct again.
    rewrite Est. unfold accountOf at 2. subst st'. rewrite settledState_suspended. cbn [settledState ts_purchasesInInterval ts_spendMinorInInterval ts_intervalStartedAt].
    rewrite Ep, Es. destruct again eqn:Eag.
    + rewrite Hagain by done.
      apply (mv_release _ (accountOf st1 (Some (id, j))) (holdOf (id, j)) (holdOf (id, failedJob k f true (failureText (fl_error f)) j))); try done.
      cbn [holdOf ho_begun failedJob tj_status]. unfold recovering. cbn [tj_phase tj_providerResult failedJob].
      by rewrite (Hunpaid j Hj).
    + apply (mv_close _ (accountOf st1 (Some (id, j))) (holdOf (id, j)) circuit eq_refl).
Qed.

(** *** Claiming *)

Definition handout (prepared : option AutoTopupJob) : list (Z * Z) :=
  match prepared with
  | Some p => if chargeable p then [(at_jobId p, at_maximumChargeMinor p)] else []
  | None => []
  end.

Lemma terminate_transacts k id j error t s p n st1 t' : topup_ok t -> tu_jobs t !! id = Some j -> isOpen j = true ->
  normalizeInterval k (tp_limitIntervalSeconds (tu_policy t)) (tu_state t) (tu_state t) = Ok (s, p, n, st1) ->
  terminateUnclaimableJob k (tu_state t) id j error (with_state st1 t) = Ok t' -> transacts t t' [] [].
Proof.
  intros Ht Hj Ho Hn H. destruct (open_job _ _ _ Ht Hj Ho) as (Hjo & _ & a & cur & Ha & Hap & Hcur).
  apply normalizeInterval_Ok in Hn as (-> & -> & -> & Hn & Hroll); [|apply (to_policy _ Ht)].
  unfold terminateUnclaimableJob in H. cbn [tu_policy tu_state with_state] in H. rewrite Hn in H. cbn [mbind result_bind] in H. inv_result.
  rewrite Ha in E. apply nullableSafeMinor_Ok in E as <-. subst t'. cbn [default].
  set (o := {| ao_type := _ |}). set (st' := if sameInstant _ _ then _ else _).
  assert (Hst : state_ok st1) by (eapply renewed_state_ok; [exact Hroll|apply (to_state _ Ht)]).
  eapply (job_transacts t _ id j (terminatedJob k error j) [o] [] []); [done..| |done| | | |].
  - unfold rewrites. cbn. rewrite app_nil_r. split_and!; [done..| |]; by repeat constructor.
  - cbn. subst st'. destruct (sameInstant _ _); [by apply with_budget_ok|done].
  - eapply closed_job_ok; [exact Hjo|done|done|apply (jo_charged _ Hjo)|done..].
  - unfold status_ok. cbn. split_and!; [eauto..|done|]. by exists o.
  - intros Hsound. cbn [map isOpen terminatedJob tj_status tu_state with_outcome with_job with_state].
    destruct (maxed_counters _ _ _ _ Ha Hsound) as [Ep Es]. cbv zeta in Ep, Es.
    pose proof (mv_close (tu_policy t) (accountOf st1 (Some (id, j))) (holdOf (id, j)) (bool_decide (ts_status st1 = suspended)) eq_refl) as Hmv.
    rewrite <- Ep, <- Es in Hmv. unfold account in Hmv. cbn [a_start accountOf] in Hmv.
    destruct (as_counters _ Hsound) as [Hp Hs]. cbn in Hp, Hs.
    unfold accountOf at 2. cbn [option_fmap option_map fmap]. subst st'. change (Datatypes.id a) with a.
    destruct (sameInstant _ _); cbn [with_budget ts_purchasesInInterval ts_spendMinorInInterval ts_intervalStartedAt ts_status].
    + by rewrite !(Z.max_comm _ 0).
    + by rewrite !Z.sub_0_r, !Z.max_r in Hmv.
Qed.

(** A claimed row keeps its price, and is counted in the interval it was claimed in unless
    it is past being charged. *)
Lemma claimed_transacts k w t st1 st' id j a c m handed : topup_ok t -> tu_jobs t !! id = Some j -> isOpen j = true ->
  tj_amountMinor j = Some a -> st1 = tu_state t \/ renewed (tu_state t) st1 -> state_ok st' ->
  handed = handout (Some (preparedJob id a m c (tu_policy t) (tu_state t) j)) ->
  account_move (tu_policy t) (accountOf st1 (Some (id, j))) [] handed
    (accountOf st' (Some (id, claimedJob k w (ts_intervalStartedAt st1) j))) ->
  transacts t (with_job id (claimedJob k w (ts_intervalStartedAt st1) j) (with_state st' t)) [] handed.
Proof.
  intros Ht Hj Ho Ha Hroll Hst' Hh Hmv. destruct (open_job _ _ _ Ht Hj Ho) as (Hjo & Hc & _).
  eapply (job_transacts t _ id j _ [] [] handed st1); [done..| |done|done| | |].
  - apply rewrites_job.
  - pose proof (jo_attempts _ Hjo). eapply kept_job_ok; [exact Hjo|done..| |cbn; lia|cbn; split; eauto]. cbn. lia.
  - unfold status_ok. cbn. done.
  - intros _. exact Hmv.
Qed.

Lemma recovering_chargeable id a m c p row j :
  chargeable (preparedJob id a m c p row j) = negb (recovering j).
Proof.
  unfold chargeable, recovering. cbn. rewrite negb_orb, negb_involutive. f_equal.
  destruct (tj_providerResult j); [|done]. rewrite bool_decide_eq_false_2 by done. by rewrite bool_decide_eq_true_2 by eauto.
Qed.

Lemma accountOf_claimed k w st1 st' id j : recovering j = false -> ts_intervalStartedAt st' = ts_intervalStartedAt st1 ->
  accountOf st' (Some (id, claimedJob k w (ts_intervalStartedAt st1) j)) =
  account (accountOf st1 (Some (id, j))) (ts_purchasesInInterval st') (ts_spendMinorInInterval st')
    (bool_decide (ts_status st' = suspended)) (Some (begun (accountOf st1 (Some (id, j))) (holdOf (id, j)))).
Proof. intros Hr Hs. unfold accountOf, account, begun. cbn. rewrite Hs, Hr.
  by rewrite (bool_decide_eq_true_2 (processing = processing)) by done.
Qed.

Lemma prepare_transacts k w id j t t' prepared : topup_ok t -> tu_jobs t !! id = Some j -> isOpen j = true ->
  prepareClaimedJob k w id j t = Ok (t', prepared) -> transacts t t' [] (handout prepared).
Proof.
  intros Ht Hj Ho H. destruct (open_job _ _ _ Ht Hj Ho) as (Hjo & _ & a & c & Ha & Hap & Hc).
  unfold prepareClaimedJob in H. inv_result. destruct x as [[[s pu] sp] st1]. assert (Hn := E).
  apply normalizeInterval_Ok in E as (-> & -> & -> & _ & Hroll); [|apply (to_policy _ Ht)].
  assert (Hst : state_ok st1) by (eapply renewed_state_ok; [exact Hroll|apply (to_state _ Ht)]).
  destruct (negb (recovering j) && _).
  { inv_result. subst. by eapply terminate_transacts. }
  inv_result. rewrite Ha in E. apply safeMinor_Ok in E as [[= <-] _].
  rewrite (proj2 (Z.leb_gt _ _)), Hc in H by lia. inv_result. apply nullableSafeMinor_Ok in E as <-.
  destruct (negb (sameInstant _ _) && negb (recovering j)) eqn:Er.
  - apply andb_prop in Er as [Er1 Er2]. apply negb_true_iff in Er1, Er2.
    destruct (_ || _) eqn:Eb in H; cbn [andb] in H.
    { inv_result. subst. by eapply terminate_transacts. }
    apply orb_false_elim in Eb as [Eb1 Eb2]. inv_result. subst.
    eapply (claimed_transacts k w t st1); [done..|by apply with_budget_ok|done|].
    cbn [handout]. rewrite recovering_chargeable, Er2. cbn [negb at_jobId at_maximumChargeMinor preparedJob].
    pose proof (mv_reserve (tu_policy t) (accountOf st1 (Some (id, j))) (holdOf (id, j)) eq_refl Er1) as Hmv.
    cbn [holdOf ho_amount ho_job a_spend a_purchases a_suspended accountOf] in Hmv. rewrite Ha in Hmv. cbn [default] in Hmv.
    apply Z.leb_gt in Eb1. specialize (Hmv Eb1 Eb2).
    rewrite accountOf_claimed by done. cbn [holdOf]. rewrite Ha. exact Hmv.
  - cbn [andb] in H. inv_result. subst.
    eapply (claimed_transacts k w t st1); [done..|].
    cbn [handout]. rewrite recovering_chargeable. destruct (recovering j) eqn:Erec.
    + cbn [negb]. apply (mv_touch _ (accountOf st1 (Some (id, j))) (holdOf (id, j))); try done; cbn; rewrite ?Erec; try done.
      intros _. by rewrite orb_true_r.
    + cbn [negb andb at_jobId at_maximumChargeMinor preparedJob] in *. rewrite andb_true_r in Er. apply negb_false_iff in Er.
      pose proof (mv_hand (tu_policy t) (accountOf st1 (Some (id, j))) (holdOf (id, j)) eq_refl Er) as Hmv.
      cbn [holdOf ho_amount ho_job a_spend a_purchases a_suspended accountOf] in Hmv. rewrite Ha in Hmv. cbn [default] in Hmv.
      rewrite accountOf_claimed by done. cbn [holdOf]. rewrite Ha. exact Hmv.
Qed.

Lemma unique_short {A} (l : list A) x : NoDup l -> (forall y, y ∈ l -> y = x) -> l = [] \/ l = [x].
Proof.
  intros Hnd H. destruct l as [|y [|z l]]; [by left|right; f_equal; apply H; constructor|].
  apply NoDup_cons in Hnd as [Hy _]. exfalso. apply Hy.
  rewrite (H y), (H z) by (repeat constructor). constructor.
Qed.

Lemma claimable_open k stale j : claimable k stale j = true -> isOpen j = true.
Proof. unfold claimable, isOpen. by destruct (tj_status j). Qed.

(** Only the open job of a policy can be due. *)
Lemma claimCandidates_one k limit stale t cur : view t cur ->
  claimCandidates k limit stale t = [] \/
  exists id j, cur = Some (id, j) /\ tu_jobs t !! id = Some j /\ isOpen j = true /\ claimCandidates k limit stale t = [id].
Proof.
  intros [Hv Hv']. unfold claimCandidates. set (due := List.filter _ _).
  assert (Hdue : forall x, x ∈ sortBy dueBefore due -> tu_jobs t !! (fst x) = Some (snd x) /\ isOpen (snd x) = true).
  { intros [i x] Hx. rewrite sortBy_perm in Hx. apply list_elem_of_In, filter_In in Hx as [Hx Hc]. cbn.
    split; [by apply elem_of_map_to_list, list_elem_of_In|by eapply claimable_open]. }
  assert (Hnd : NoDup (sortBy dueBefore due)).
  { rewrite sortBy_perm. apply NoDup_ListNoDup, List.NoDup_filter, NoDup_ListNoDup, NoDup_map_to_list. }
  destruct cur as [[id j]|].
  - destruct (Hv' id j eq_refl) as [Hj Ho].
    destruct (unique_short (sortBy dueBefore due) (id, j) Hnd) as [->| ->].
    + intros [i x] Hx. destruct (Hdue _ Hx) as [H1 H2]. specialize (Hv i x H1 H2). congruence.
    + left. by destruct (Z.to_nat limit).
    + cbn [map fst]. destruct (Z.to_nat limit) as [|n]; [by left|right; exists id, j]. by destruct n.
  - left. destruct (sortBy dueBefore due) as [|[i x] l]; [by destruct (Z.to_nat limit)|].
    destruct (Hdue (i, x)) as [H1 H2]; [constructor|]. by specialize (Hv i x H1 H2).
Qed.

Lemma claim_transacts k w limit stale t t' jobs : topup_ok t -> claimAutoTopupJobs k w limit stale t = Ok (t', jobs) ->
  transacts t t' [] (flat_map (fun p => handout (Some p)) jobs) /\ (length jobs <= 1)%nat.
Proof.
  intros Ht H. unfold claimAutoTopupJobs in H. inv_result. clear E E0 E1. destruct (to_view _ Ht) as (cur & Hv & _).
  destruct (claimCandidates_one k limit stale t cur Hv) as [E|(id & j & -> & Hj & Ho & E)]; rewrite E in H; cbn [foldM] in H.
  - injection H as <- <-. split; [by apply stay_transacts|cbn; lia].
  - unfold claimOne in H. rewrite Hj in H. inv_result. destruct x0 as [t1 prepared]. inv_result. subst.
    injection H as <- <-. cbn [app]. split; [|by destruct prepared; cbn; lia].
    apply (prepare_transacts k w id j) in E1; [|done..]. destruct prepared; [|done]. cbn [flat_map]. by rewrite app_nil_r.
Qed.

(** *** Scheduling and operators *)

(** A transaction that inserts a row while no job is open. *)
Lemma insert_transacts t t' id j' os st1 : topup_ok t -> tu_jobs t !! id = None -> view t None ->
  st1 = tu_state t \/ renewed (tu_state t) st1 -> rewrites t t' id j' os [] -> tu_policy t' = tu_policy t ->
  state_ok (tu_state t') -> job_ok j' -> status_ok j' os [] ->
  account_move (tu_policy t) (accountOf st1 None) [] []
    (accountOf (tu_state t') (if isOpen j' then Some (id, j') else None)) ->
  transacts t t' [] [].
Proof.
  intros [Hpol Hst Hrows (cur & Hv0 & Hsound)] Hj Hv Hroll Hw Hp Hst' Hjo Hso Hmove.
  assert (cur = None) as ->.
  { destruct cur as [[i x]|]; [|done]. destruct (proj2 Hv0 i x eq_refl) as [Hi Ho]. by specialize (proj1 Hv i x Hi Ho). }
  assert (Hv' : view t' (if isOpen j' then Some (id, j') else None)).
  { destruct Hw as (Ej & _). pose proof (view_insert _ id j' Hv) as H. unfold view in *. cbn in H. by rewrite Ej. }
  assert (Hstep : account_step (tu_policy t) (accountOf (tu_state t) None) [] []
    (accountOf (tu_state t') (if isOpen j' then Some (id, j') else None))).
  { exists (accountOf st1 None). split; [by apply rolled|done]. }
  pose proof (Hrows id) as Hrow. rewrite Hj in Hrow. destruct Hrow as [Eo Ep].
  split; [constructor|].
  - by rewrite Hp.
  - done.
  - eapply rewrites_rows; [exact Hw| |exact Hrows]. rewrite Eo, Ep. done.
  - eexists. split; [exact Hv'|]. by eapply account_step_sound.
  - split; [done|]. destruct Hw as (Ej & _ & Ew & _). split; [by rewrite Ew, map_app|].
    split; [intros i; rewrite Ej; apply insert_keeps|].
    eexists _, _. split; [by exists None|]. split; [eexists; split; [exact Hv'|reflexivity]|].
    split; [exact Hstep|]. intros h _. destruct (isOpen j'); [|done]. by intros [= <-].
Qed.

Lemma scheduledJob_ok k supported key p : policy_ok p ->
  (supported = true -> isSafeInteger (default 0 (tp_amountMinor p)) = true /\ 0 < default 0 (tp_amountMinor p) /\ is_Some (tp_currency p)) ->
  job_ok (scheduledJob k supported key p).
Proof.
  intros (_ & _ & _ & _ & _ & Hamount) Hs. constructor; cbn.
  - exists (default 0 (tp_amountMinor p)). split_and!; [done| |].
    + destruct (tp_amountMinor p); cbn; [by apply Hamount|lia].
    + unfold isOpen. cbn. destruct supported; [|done]. intros _. destruct (Hs eq_refl) as (H1 & H2 & _).
      unfold isSafeInteger in H1. apply andb_prop in H1 as [_ H1]. bool_to_prop. lia.
  - unfold isOpen. cbn. destruct supported; [|done]. intros _. destruct (Hs eq_refl) as (_ & _ & [c ->]). by eexists.
  - done.
  - lia.
  - destruct supported; (split; [done|by intros [? ?]]).
Qed.

Lemma view_none t : topup_ok t -> hasOpenJob t = false -> view t None.
Proof. intros Ht Hn. destruct (to_view _ Ht) as (cur & Hv & _). by rewrite <- (hasOpenJob_false _ _ Hv Hn). Qed.

Lemma schedule_transacts k implements newId key available t : topup_ok t -> clocks_agree k -> tu_jobs t !! newId = None ->
  transacts t (scheduleAutoTopupIfNeeded k implements newId key available t) [] [].
Proof.
  intros Ht Hk Hnew. unfold scheduleAutoTopupIfNeeded. pose proof (to_policy _ Ht) as Hpol. assert (Hl := proj1 Hpol).
  destruct (to_state _ Ht) as [Hcirc Hfail].
  destruct (_ <? available); [by apply stay_transacts|]. destruct (decide _) as [|Hns]; [by apply stay_transacts|].
  set (elapsed := _ <=? ck_app k). set (st1 := if elapsed then resetInterval k (tu_state t) else tu_state t).
  assert (Hno : ts_circuitOpenedAt (tu_state t) = None).
  { destruct (ts_circuitOpenedAt (tu_state t)) eqn:E; [|done]. exfalso. apply Hns, Hcirc. eauto. }
  assert (Hroll : st1 = tu_state t \/ renewed (tu_state t) st1).
  { subst st1. destruct elapsed eqn:E; [right|by left]. subst elapsed. apply Z.leb_le in E. unfold clocks_agree in Hk.
    unfold renewed. cbn. split_and!; try done. lia. }
  replace (if elapsed then with_state (resetInterval k (tu_state t)) t else t) with (with_state st1 t)
    by (subst st1; destruct elapsed; [done|apply with_state_id]).
  assert (Hst1 : state_ok st1) by (eapply renewed_state_ok; [exact Hroll|by split]).
  assert (Hstay : transacts t (with_state st1 t) [] []).
  { eapply state_transacts; [done|exact Hroll|done|]. intros. constructor. }
  destruct (after _ _); [exact Hstay|]. destruct (_ <=? _) in |- *; [exact Hstay|].
  set (amount := default 0 _). set (supported := implements _).
  destruct (supported && _) eqn:Esup; [exact Hstay|]. destruct (overBudget _ _); [exact Hstay|].
  destruct (hasOpenJob _) eqn:Eo; [exact Hstay|]. assert (Hv : view t None) by by apply view_none.
  assert (Hst2 : state_ok (startCooldown k (tp_cooldownSeconds (tu_policy t)) st1)).
  { split; [|apply Hst1]. cbn. assert (ts_circuitOpenedAt st1 = None) as -> by (subst st1; by destruct elapsed).
    split; [done|by intros [? ?]]. }
  destruct (triggered _ _).
  - apply (state_transacts t st1 _ Ht Hroll Hst2). intros cur Hcur. apply (mv_reset_circuit _ (accountOf st1 cur)).
  - assert (Hjob : job_ok (scheduledJob k supported key (tu_policy t))).
    { apply scheduledJob_ok; [done|]. intros ->. cbn in Esup. apply orb_false_elim in Esup as [Esup Ecur].
      apply orb_false_elim in Esup as [Esafe Epos]. apply negb_false_iff in Esafe. apply Z.leb_gt in Epos.
      apply bool_decide_eq_false in Ecur. split_and!; [done..|]. by apply not_eq_None_Some. }
    set (o := {| ao_type := auto_topup_action_required |}).
    eapply (insert_transacts t _ newId (scheduledJob k supported key (tu_policy t)) (if supported then [] else [o])); [done..|exact Hroll| | | |exact Hjob| |].
    + unfold rewrites. destruct supported; cbn; rewrite ?app_nil_r; split_and!; try done; by repeat constructor.
    + by destruct supported.
    + destruct supported; exact Hst2.
    + unfold status_ok. cbn. destruct supported; [done|]. cbn. split_and!; [eauto..|done|]. by exists o.
    + assert (Epos : supported = true -> 0 < amount).
      { intros E. rewrite E in Esup. cbn in Esup. repeat (apply orb_false_elim in Esup as [Esup ?]). by apply Z.leb_gt. }
      unfold isOpen. cbn [scheduledJob tj_status]. destruct supported.
      * apply (mv_open _ (accountOf st1 None) (holdOf (newId, scheduledJob k true key (tu_policy t)))); try done.
        -- subst st1. cbn. destruct elapsed; [done|by apply bool_decide_eq_false].
        -- by apply Epos.
      * apply (mv_reset_circuit _ (accountOf st1 None)).
Qed.

Lemma reset_transacts t : topup_ok t -> transacts t (resetAutoTopupCircuit t) [] [].
Proof.
  intros Ht. apply (state_transacts t (tu_state t)); [done|by left| |].
  - split; [|cbn; lia]. split; [done|by intros [? ?]].
  - intros cur _. apply (mv_reset_circuit _ (accountOf (tu_state t) cur)).
Qed.

(** ** What the account guarantees *)

(** The counters are the charges since the interval began and the hold counted in it. *)
Record account_exact (a : Account) (charged : list Z) : Prop := {
  ae_charges : Forall (fun x => 0 <= x) charged;
  ae_purchases : a_purchases a = Z.of_nat (length charged) +
    match a_open a with Some h => if counted a h then 1 else 0 | None => 0 end;
  ae_spend : a_spend a = sumZ charged +
    match a_open a with Some h => if counted a h then ho_amount h else 0 | None => 0 end;
  ae_begun : forall h, a_open a = Some h -> ho_begun h = true -> is_Some (ho_stamp h);
  ae_stale : forall h, a_open a = Some h -> is_Some (ho_stamp h) -> counted a h = false -> charged = [] }.

(** What the account stays within, when a payment stays within the allowance of its job. *)
Record account_within (P S : Z) (a : Account) (charged : list Z) (allowed : gmap Z Z) : Prop := {
  aw_charges : Z.of_nat (length charged) <= P /\ sumZ charged <= S;
  aw_counted : forall h, a_open a = Some h -> counted a h = true ->
    Z.of_nat (length charged) + 1 <= P /\ sumZ charged + ho_amount h <= S;
  aw_allowed : forall h m, a_open a = Some h -> allowed !! ho_job h = Some m -> m + sumZ charged <= S;
  aw_begun : forall h, a_open a = Some h -> ho_begun h = true -> is_Some (allowed !! ho_job h) }.

Definition since (a a' : Account) (charged paid : list Z) : list Z :=
  (if a_start a' =? a_start a then charged else []) ++ paid.

Lemma counted_start a a' h : a_start a' = a_start a -> counted a' h = counted a h.
Proof. unfold counted. by intros ->. Qed.

Lemma counted_none a h : ho_stamp h = None -> counted a h = false.
Proof. unfold counted. by intros ->. Qed.

Lemma roll_exact a a' charged : account_sound a -> account_rolls a a' -> account_exact a charged -> account_exact a' [].
Proof.
  intros Ha Hr [_ _ _ Hb _]. assert (Hc : forall h, a_open a = Some h -> counted a' h = false) by (intros; by eapply roll_counts).
  destruct Hr as (_ & now & Hlt & ->). constructor; cbn in *; [constructor| | |done|done].
  - destruct (a_open a) as [h|]; [|done]. by rewrite (Hc h eq_refl).
  - destruct (a_open a) as [h|]; [|done]. by rewrite (Hc h eq_refl).
Qed.

Lemma move_exact p a paid handed a' charged : account_exact a charged -> account_move p a paid handed a' ->
  account_exact a' (charged ++ paid).
Proof.
  intros [Hch Hp Hs Hb Hst] H.
  inversion H as [| |h Eo Ec Es Eb Ea|h Eo Ec|h Eo Ec|h h' Eo Ej Ea Es Eb|h h' Eo Ej Ea Es Eb|h circuit Eo|h x Eo Eb Ex]; subst; clear H;
    rewrite ?app_nil_r; try (by constructor); rewrite Eo in Hp, Hs; constructor; cbn [a_open account a_purchases a_spend]; try done;
    unfold freedPurchases, freedSpend.
  - rewrite (counted_none _ h Es). lia.
  - rewrite (counted_none _ h Es). lia.
  - intros y [= <-]. congruence.
  - intros y [= <-]. rewrite Es. by intros [? ?].
  - rewrite (counted_start a), counted_begun, Ec in * by done. lia.
  - rewrite (counted_start a), counted_begun, Ec in * by done. cbn. lia.
  - intros y [= <-] _. by eexists.
  - intros y [= <-] _. by rewrite (counted_start a), counted_begun.
  - rewrite (counted_start a), counted_begun, Ec in * by done. lia.
  - rewrite (counted_start a), counted_begun, Ec in * by done. cbn. lia.
  - intros y [= <-] _. by eexists.
  - intros y [= <-] _. by rewrite (counted_start a), counted_begun.
  - replace (counted _ h') with (counted a h) by (unfold counted; by rewrite Es). done.
  - replace (counted _ h') with (counted a h) by (unfold counted; by rewrite Es). by rewrite Ea.
  - intros y [= <-] Hy. rewrite Es. auto.
  - intros y [= <-]. unfold counted. cbn. rewrite Es. apply Hst, Eo.
  - rewrite (counted_none _ h' Es). lia.
  - rewrite (counted_none _ h' Es). lia.
  - intros y [= <-]. congruence.
  - intros y [= <-]. rewrite Es. by intros [? ?].
  - lia.
  - lia.
  - apply Forall_app. split; [done|]. by repeat constructor.
  - rewrite length_app. cbn. subst purchases. destruct (counted a h); lia.
  - rewrite sumZ_app. cbn. subst spend. destruct (counted a h); lia.
Qed.

Lemma step_exact p a paid handed a' charged : account_sound a -> account_exact a charged ->
  account_step p a paid handed a' -> account_exact a' (since a a' charged paid).
Proof.
  intros Ha He (a1 & Hr & Hm).
  assert (Hst : a_start a' = a_start a1) by by destruct Hm.
  unfold since. rewrite Hst. destruct Hr as [->|Hr].
  - rewrite Z.eqb_refl. by eapply move_exact.
  - assert (H := roll_exact _ _ _ Ha Hr He). destruct Hr as (_ & now & Hlt & ->). cbn [a_start].
    rewrite (proj2 (Z.eqb_neq _ _)) by lia. by eapply move_exact.
Qed.

(** The allowances handed out, the largest one of each job. *)
Definition give (m : gmap Z Z) (handed : Z * Z) : gmap Z Z :=
  let '(id, x) := handed in <[ id := match m !! id with None => x | Some y => Z.max y x end ]> m.

Lemma allow_give jobs m : fold_left allow jobs m = fold_left give (flat_map (fun p => handout (Some p)) jobs) m.
Proof.
  revert m. induction jobs as [|p jobs IH]; intros m; [done|]. cbn [fold_left flat_map]. rewrite fold_left_app, IH. f_equal.
  unfold allow, handout. by destruct (chargeable p).
Qed.

Lemma give_other m id x k : k <> id -> give m (id, x) !! k = m !! k.
Proof. intros H. cbn. by apply lookup_insert_ne. Qed.

Lemma give_bound m id x y b : give m (id, x) !! id = Some y -> x <= b ->
  (forall z, m !! id = Some z -> z <= b) -> y <= b.
Proof.
  cbn. rewrite lookup_insert_eq. intros [= <-] Hx Hm. destruct (m !! id) as [z|]; [specialize (Hm z eq_refl); lia|done].
Qed.

Lemma give_some m id x : is_Some (give m (id, x) !! id).
Proof. cbn. rewrite lookup_insert_eq. eauto. Qed.

Definition policy_within (P S : Z) (p : AutoTopupPolicy) : Prop :=
  tp_maxPurchasesPerInterval p <= P /\ exists m, tp_maxSpendMinor p = Some m /\ m <= S.

Lemma roll_within P S a a' charged allowed : 0 <= P -> 0 <= S -> account_sound a -> account_exact a charged ->
  account_rolls a a' -> account_within P S a charged allowed -> account_within P S a' [] allowed.
Proof.
  intros HP HS Ha He Hr [_ _ Hal Hb]. assert (Hc : forall h, a_open a = Some h -> counted a' h = false) by (intros; by eapply roll_counts).
  assert (Hnn := sumZ_nonneg _ (ae_charges _ _ He)). destruct Hr as (_ & now & Hlt & ->). constructor; cbn in *; [lia| | |done].
  - intros h Ho Hk. rewrite (Hc h Ho) in Hk. done.
  - intros h m Ho Hm. specialize (Hal h m Ho Hm). lia.
Qed.

Lemma move_within P S p a paid handed a' charged allowed : policy_ok p -> policy_within P S p -> account_exact a charged ->
  account_move p a paid handed a' ->
  (forall h x, a_open a = Some h -> x ∈ paid -> exists m, allowed !! ho_job h = Some m /\ x <= m) ->
  (forall h, a_open a = None -> a_open a' = Some h -> allowed !! ho_job h = None) ->
  account_within P S a charged allowed -> account_within P S a' (charged ++ paid) (fold_left give handed allowed).
Proof.
  intros (_ & Hpos & _) (HP & m & Hm & HS) [Hch Hp Hs Hbs Hst] H Hpaid Hfresh [[Hl Hsum] Hc Hal Hb].
  assert (Hfree : forall h' : Hold, ho_stamp h' = None -> ho_begun h' = false ->
    (forall x, allowed !! ho_job h' = Some x -> x + sumZ charged <= S) -> forall purchases spend circuit,
    account_within P S (account a purchases spend circuit (Some h')) charged allowed).
  { intros h' Es Eb Hx ? ? ?. constructor; cbn; [done| | |].
    - intros y [= <-]. rewrite counted_none by done. done.
    - intros y x [= <-]. apply Hx.
    - intros y [= <-]. congruence. }
  inversion H as [| |h Eo Ec Es Eb Ea|h Eo Ec Epu Esp|h Eo Ec|h h' Eo Ej Ea Es Eb|h h' Eo Ej Ea Es Eb|h circuit Eo|h x Eo Eb Ex]; subst; clear H;
    rewrite ?app_nil_r; try (by constructor); rewrite Eo in Hp, Hs; cbn [fold_left].
  - apply Hfree; [done..|]. intros x Hx. rewrite (Hfresh h Eo eq_refl) in Hx. done.
  - rewrite Ec in Hp, Hs. unfold overBudget in Esp. rewrite Hm in *. apply Z.ltb_ge in Esp. cbn [allowance] in *.
    constructor; cbn [a_open account begun ho_job ho_amount]; [done|intros y [= <-] _; cbn; lia| |].
    + intros y x [= <-] Hx. cbn in Hx. apply (give_bound _ _ _ _ (S - sumZ charged)) in Hx; [lia|lia|].
      intros z Hz. specialize (Hal h z Eo Hz). lia.
    + intros y [= <-] _. apply give_some.
  - rewrite Ec in Hp, Hs. specialize (Hc h Eo Ec). rewrite Hm. cbn [allowance].
    constructor; cbn [a_open account begun ho_job ho_amount]; [done|intros y [= <-] _; cbn; lia| |].
    + intros y x [= <-] Hx. cbn in Hx. apply (give_bound _ _ _ _ (S - sumZ charged)) in Hx; [lia|lia|].
      intros z Hz. specialize (Hal h z Eo Hz). lia.
    + intros y [= <-] _. apply give_some.
  - constructor; cbn [a_open account]; [done| | |].
    + intros y [= <-]. unfold counted. cbn. rewrite Es, Ea. apply Hc, Eo.
    + intros y x [= <-]. rewrite Ej. by apply Hal.
    + intros y [= <-] Hy. rewrite Ej. auto.
  - apply Hfree; [done..|]. rewrite Ej. intros x Hx. by apply (Hal h x Eo).
  - destruct (Hpaid h x Eo) as (y & Hy & Hxy); [constructor|]. specialize (Hal h y Eo Hy).
    constructor; cbn; [|done..]. rewrite length_app, sumZ_app. cbn. destruct (counted a h) eqn:Ec; [specialize (Hc h Eo Ec); lia|].
    rewrite (Hst h Eo (Hbs h Eo Eb) Ec) in *. cbn in *. lia.
Qed.

Lemma step_within P S p a paid handed a' charged allowed : policy_ok p -> policy_within P S p -> account_sound a ->
  account_exact a charged -> account_step p a paid handed a' ->
  (forall h x, a_open a = Some h -> x ∈ paid -> exists m, allowed !! ho_job h = Some m /\ x <= m) ->
  (forall h, a_open a = None -> a_open a' = Some h -> allowed !! ho_job h = None) ->
  account_within P S a charged allowed -> account_within P S a' (since a a' charged paid) (fold_left give handed allowed).
Proof.
  intros Hpol Hw Ha He (a1 & Hr & Hm) Hpaid Hfresh Haw.
  assert (HPS : 0 <= P /\ 0 <= S).
  { destruct Hpol as (_ & ? & _ & _ & Hm' & _), Hw as (? & m & Em & ?). specialize (Hm' m Em). lia. }
  assert (Hst : a_start a' = a_start a1) by by destruct Hm.
  unfold since. rewrite Hst. destruct Hr as [->|Hr].
  - rewrite Z.eqb_refl. by eapply move_within.
  - assert (H := roll_within P S _ _ _ allowed (proj1 HPS) (proj2 HPS) Ha He Hr Haw). assert (He' := roll_exact _ _ _ Ha Hr He).
    destruct Hr as (_ & now & Hlt & ->). cbn [a_start a_open] in *.
    rewrite (proj2 (Z.eqb_neq _ _)) by lia. by eapply move_within.
Qed.

(** ** Every history *)

Lemma view_unique t c c' : view t c -> view t c' -> c = c'.
Proof.
  intros [H1 H2] [H1' H2']. destruct c as [[i x]|]; [destruct (H2 i x eq_refl) as [Hj Ho]; symmetry; eauto|].
  destruct c' as [[i x]|]; [|done]. destruct (H2' i x eq_refl) as [Hj Ho]. eauto.
Qed.

Lemma represents_unique t a a' : represents t a -> represents t a' -> a = a'.
Proof. intros (c & Hc & ->) (c' & Hc' & ->). by rewrite (view_unique _ _ _ Hc Hc'). Qed.

Lemma represents_open t a h : represents t a -> a_open a = Some h ->
  exists j, tu_jobs t !! ho_job h = Some j /\ isOpen j = true.
Proof.
  intros (cur & [_ Hv] & ->) Ho. destruct cur as [[id j]|]; [|done]. injection Ho as <-. exists j. by apply Hv.
Qed.

Lemma represents_start t a : represents t a -> a_start a = ts_intervalStartedAt (tu_state t).
Proof. by intros (cur & _ & ->). Qed.

Lemma transacts_charged r t paid handed a a' : transacts (r_topup r) t paid handed ->
  represents (r_topup r) a -> represents t a' -> r_charged (advance r t) = since a a' (r_charged r) paid.
Proof.
  intros (_ & _ & Hp & _) Ha Ha'. unfold advance, since. cbn. rewrite (represents_start _ _ Ha), (represents_start _ _ Ha').
  f_equal. rewrite <- skipn_map, Hp. rewrite <- (length_map pu_amountPaidMinor). by rewrite drop_app_length.
Qed.

Section Invariants.
Context (provider : option Z -> Z -> Prop) (policies : AutoTopupPolicy -> Prop).

(** Each step is a transaction that the account understands, or a change of the policy. *)
Lemma step_transacts r r' : topup_ok (r_topup r) -> topup_step provider policies r r' ->
  (exists p, policy_ok p /\ policies p /\ r' = advance r (with_policy p (r_topup r))) \/
  exists t paid handed, transacts (r_topup r) t paid handed /\
    r' = {| r_topup := t; r_charged := r_charged (advance r t); r_allowed := fold_left give handed (r_allowed r) |} /\
    (forall h x a, represents (r_topup r) a -> a_open a = Some h -> x ∈ paid -> provider (r_allowed r !! ho_job h) x).
Proof.
  intros Ht H. assert (Hsame : forall t, transacts (r_topup r) t [] [] ->
    exists t' paid handed, transacts (r_topup r) t' paid handed /\
    advance r t = {| r_topup := t'; r_charged := r_charged (advance r t'); r_allowed := fold_left give handed (r_allowed r) |} /\
    (forall h x a, represents (r_topup r) a -> a_open a = Some h -> x ∈ paid -> provider (r_allowed r !! ho_job h) x)).
  { intros t Htr. exists t, [], []. split_and!; [done..|]. intros ? ? ? _ _ Hx. by apply elem_of_nil in Hx. }
  destruct H; [right..|by left; eauto].
  - by apply Hsame, schedule_transacts.
  - apply claim_transacts in H as [Htr _]; [|done]. exists t, [], (flat_map (fun p => handout (Some p)) jobs).
    split_and!; [done|by rewrite allow_give|]. intros ? ? ? _ _ Hx. by apply elem_of_nil in Hx.
  - by apply Hsame, renew_transacts.
  - by eapply Hsame, checkpoint_transacts.
  - by eapply Hsame, retry_transacts.
  - apply mark_succeeded_transacts in H as [Htr|[(j & Hj & Ho) Htr]]; [by apply Hsame| |done].
    exists t, [ac_amountPaidMinor c], []. split_and!; [done..|]. intros h x a (cur & Hv & ->) Hopen Hx.
    apply list_elem_of_singleton in Hx as ->. rewrite (view_cur _ _ _ _ Hv Hj Ho) in Hopen. by injection Hopen as <-.
  - by eapply Hsame, mark_failed_transacts.
  - by apply Hsame, resume_transacts.
  - by apply Hsame, reset_transacts.
Qed.

Record run_ok (r : Run) : Prop := {
  ro_topup : topup_ok (r_topup r);
  ro_exact : forall a, represents (r_topup r) a -> account_exact a (r_charged r);
  ro_allowed : forall id, is_Some (r_allowed r !! id) -> is_Some (tu_jobs (r_topup r) !! id) }.

Lemma with_policy_ok p t : policy_ok p -> topup_ok t -> topup_ok (with_policy p t).
Proof. intros Hp [H1 H2 H3 H4]. by constructor. Qed.

Lemma advance_policy r p : r_charged (advance r (with_policy p (r_topup r))) = r_charged r.
Proof. cbn. by rewrite Z.eqb_refl, drop_all, app_nil_r. Qed.

Lemma topup_represents t : topup_ok t -> exists a, represents t a /\ account_sound a.
Proof. intros [_ _ _ (cur & Hv & Hs)]. exists (accountOf (tu_state t) cur). split; [by exists cur|done]. Qed.

Lemma give_keys handed m id : is_Some (fold_left give handed m !! id) -> is_Some (m !! id) \/ id ∈ map fst handed.
Proof.
  revert m. induction handed as [|[k x] l IH]; intros m H; [by left|]. cbn [fold_left map fst] in *.
  apply IH in H as [H|H]; [|right; by constructor].
  destruct (decide (id = k)) as [->|Hk]; [right; constructor|]. rewrite give_other in H by done. by left.
Qed.

Lemma move_handed p a paid handed a' k x : account_move p a paid handed a' -> (k, x) ∈ handed ->
  exists h, a_open a = Some h /\ k = ho_job h.
Proof.
  destruct 1; intros Hk; try by apply elem_of_nil in Hk. all: apply list_elem_of_singleton in Hk; injection Hk as -> _; eauto.
Qed.

Lemma step_handed p a paid handed a' k : account_step p a paid handed a' -> k ∈ map fst handed ->
  exists h, a_open a = Some h /\ k = ho_job h.
Proof.
  intros (a1 & Hr & Hm) ([k' x] & -> & Hx)%list_elem_of_fmap. destruct (move_handed _ _ _ _ _ _ _ Hm Hx) as (h & Ho & ->).
  exists h. split; [|done]. destruct Hr as [->|(_ & now & _ & ->)]; done.
Qed.

Lemma step_ok r r' : run_ok r -> topup_step provider policies r r' -> run_ok r'.
Proof.
  intros [Ht He Hal] H. apply step_transacts in H as [(p & Hp & _ & ->)|(t & paid & handed & Htr & -> & _)]; [| |done].
  - constructor; [by apply with_policy_ok| |done]. intros a Ha. rewrite advance_policy. by apply He.
  - assert (Htr' := Htr). destruct Htr' as (Ht' & _ & _ & Hkeep & a & a' & Ha & Ha' & Hstep & _). constructor; cbn [r_topup r_allowed r_charged].
    + done.
    + intros a2 Ha2. rewrite (represents_unique _ _ _ Ha2 Ha'), (transacts_charged _ _ _ _ _ _ Htr Ha Ha').
      destruct (topup_represents _ Ht) as (a3 & Ha3 & Hs). rewrite (represents_unique _ _ _ Ha3 Ha) in Hs.
      eapply step_exact; [exact Hs|by apply He|exact Hstep].
    + intros id [Hid|Hid]%give_keys; [by apply Hkeep, Hal|]. apply Hkeep.
      destruct (step_handed _ _ _ _ _ _ Hstep Hid) as (h & Ho & ->). destruct (represents_open _ _ _ Ha Ho) as (j & -> & _). eauto.
Qed.

Lemma start_ok now p : policy_ok p -> run_ok (start now p).
Proof.
  intros Hp. assert (Hv : view (newTopup now p) None) by by split.
  constructor; cbn [r_topup r_charged r_allowed start].
  - constructor; [done| | |].
    + split; [|done]. split; [done|by intros [? ?]].
    + intros id. done.
    + exists None. split; [done|]. by constructor.
  - intros a (cur & Hc & ->). rewrite (view_unique _ _ _ Hc Hv). by constructor.
  - intros id. rewrite lookup_empty. by intros [? ?].
Qed.

Lemma reachable_ok r : reachable provider policies r -> run_ok r /\ policies (tu_policy (r_topup r)).
Proof.
  intros (now & p & Hp & Hpol & Hr). revert Hr. refine (rtc_ind_r (fun r => run_ok r /\ policies (tu_policy (r_topup r))) _ _ _ r).
  - split; [by apply start_ok|done].
  - intros r1 r2 _ Hstep [Hok Hpo]. split; [by eapply step_ok|].
    apply step_transacts in Hstep as [(p' & _ & H & ->)|(t & paid & handed & Htr & -> & _)]; [done| |apply Hok].
    cbn. destruct Htr as (_ & -> & _). done.
Qed.
End Invariants.

(** ** Properties *)

(** C14: Whatever the order of writes, claims, retries, reviews and operator resets, a policy never
    buys more in one interval than it allows: when every payment stays within the
    [maximumChargeMinor] its job was handed while it could still be charged, the charges since
    the interval began number at most [P] and add up to at most [S], and so do the stored
    counters, for any policies set on the way that allow at most [P] purchases and [S] spend. *)
Theorem topup_budget_never_exceeded P S r :
  reachable (fun allowed paid => exists m, allowed = Some m /\ paid <= m) (policy_within P S) r ->
  Z.of_nat (length (r_charged r)) <= P /\ sumZ (r_charged r) <= S /\
  ts_purchasesInInterval (tu_state (r_topup r)) <= P /\ ts_spendMinorInInterval (tu_state (r_topup r)) <= S.
Proof.
  set (provider := fun _ _ => _). intros Hr.
  assert (Hw : forall a, represents (r_topup r) a -> account_within P S a (r_charged r) (r_allowed r)).
  { destruct Hr as (now & p & Hp & Hpol & Hr). revert Hr.
    refine (rtc_ind_r (fun r => forall a, represents (r_topup r) a -> account_within P S a (r_charged r) (r_allowed r)) _ _ _ r).
    - intros a (cur & Hc & ->). assert (Hv : view (newTopup now p) None) by by split. rewrite (view_unique _ _ _ Hc Hv).
      destruct Hp as (_ & ? & _ & _ & Hm & _), Hpol as (? & m & Em & ?). specialize (Hm m Em). constructor; [cbn; lia|done..].
    - intros r1 r2 Hr1 Hstep IH.
      assert (Hre : reachable provider (policy_within P S) r1) by by exists now, p.
      destruct (reachable_ok _ _ _ Hre) as [[Ht He Hal] Hpo].
      apply step_transacts in Hstep as [(p' & _ & _ & ->)|(t & paid & handed & Htr & -> & Hpaid)]; [| |done].
      + intros a Ha. rewrite advance_policy. by apply IH.
      + assert (H := Htr). destruct H as (_ & _ & _ & _ & a & a' & Ha & Ha' & Hs & Hfresh). intros a2 Ha2. cbn [r_allowed r_charged].
        rewrite (represents_unique _ _ _ Ha2 Ha'), (transacts_charged _ _ _ _ _ _ Htr Ha Ha').
        destruct (topup_represents _ Ht) as (a3 & Ha3 & Hso). rewrite (represents_unique _ _ _ Ha3 Ha) in Hso.
        eapply step_within; [apply (to_policy _ Ht)|exact Hpo|exact Hso|by apply He|exact Hs| | |by apply IH].
        * intros h x Ho Hx. by apply (Hpaid h x a).
        * intros h Ho Ho'. specialize (Hfresh h Ho Ho'). destruct (r_allowed r1 !! ho_job h) eqn:E; [|done].
          destruct (Hal (ho_job h)) as [j Hj]; [eauto|]. congruence. }
  destruct (reachable_ok _ _ _ Hr) as [[Ht He _] _]. destruct (topup_represents _ Ht) as (a & Ha & _).
  specialize (Hw a Ha). specialize (He a Ha). destruct Hw as [[H1 H2] Hc _ _], He as [_ H3 H4 _ _].
  destruct Ha as (cur & _ & ->). cbn [a_purchases a_spend accountOf] in *. rewrite H3, H4. split_and!; [done..| |].
  all: destruct (a_open _) as [h|]; [|lia]; destruct (counted _ h) eqn:E; [specialize (Hc h eq_refl E)|]; lia.
Qed.

(** C15: The tables refine an account with one hold: every transaction on a reachable policy is a
    step of the account its rows represent, which reserves, hands out an allowance, releases,
    closes or pays the open job, and the purchases it records are the payments of that step. *)
Theorem topup_refines_account provider policies r r' :
  reachable provider policies r -> topup_step provider policies r r' ->
  exists a a' paid handed, represents (r_topup r) a /\ represents (r_topup r') a' /\
    account_step (tu_policy (r_topup r)) a paid handed a' /\
    map pu_amountPaidMinor (tu_purchases (r_topup r')) = map pu_amountPaidMinor (tu_purchases (r_topup r)) ++ paid /\
    r_charged r' = since a a' (r_charged r) paid /\ r_allowed r' = fold_left give handed (r_allowed r).
Proof.
  intros Hr Hstep. destruct (reachable_ok _ _ _ Hr) as [[Ht _ _] _].
  apply step_transacts in Hstep as [(p & _ & _ & ->)|(t & paid & handed & Htr & -> & _)]; [| |done].
  - destruct (topup_represents _ Ht) as (a & Ha & _). exists a, a, [], []. split_and!; [done| | | | |done].
    + destruct Ha as (cur & Hv & ->). by exists cur.
    + exists a. split; [by left|constructor].
    + cbn. by rewrite app_nil_r.
    + rewrite advance_policy. unfold since. by rewrite Z.eqb_refl, app_nil_r.
  - assert (H := Htr). destruct H as (_ & _ & Hp & _ & a & a' & Ha & Ha' & Hs & _). exists a, a', paid, handed.
    split_and!; [done..| |done]. cbn [r_charged]. exact (transacts_charged _ _ _ _ _ _ Htr Ha Ha').
Qed.

(** A policy has at most one job that is pending, processing or under review, none while its
    circuit is open, and its counters are exactly the charges since the interval began and the
    price of that job when it was reserved in the interval. *)
Theorem topup_one_open_job provider policies r : reachable provider policies r ->
  let t := r_topup r in let st := tu_state t in
  (forall i k x y, tu_jobs t !! i = Some x -> tu_jobs t !! k = Some y -> isOpen x = true -> isOpen y = true -> i = k) /\
  (ts_status st = suspended -> forall i x, tu_jobs t !! i = Some x -> isOpen x = false) /\
  (forall i x, tu_jobs t !! i = Some x -> isOpen x = true ->
     tj_budgetIntervalStartedAt x = Some (ts_intervalStartedAt st) ->
     ts_purchasesInInterval st = Z.of_nat (length (r_charged r)) + 1 /\
     ts_spendMinorInInterval st = sumZ (r_charged r) + default 0 (tj_amountMinor x)) /\
  ((forall i x, tu_jobs t !! i = Some x -> isOpen x = true ->
      tj_budgetIntervalStartedAt x <> Some (ts_intervalStartedAt st)) ->
   ts_purchasesInInterval st = Z.of_nat (length (r_charged r)) /\ ts_spendMinorInInterval st = sumZ (r_charged r)).
Proof.
  intros Hr t st. destruct (reachable_ok _ _ _ Hr) as [[Ht He _] _].
  destruct (to_view _ Ht) as (cur & Hv & Hs). destruct (He (accountOf st cur) ltac:(by exists cur)) as [_ Hp Hsp _ _].
  cbn [a_purchases a_spend a_open accountOf] in Hp, Hsp. split_and!.
  - intros i k x y Hx Hy Ox Oy. pose proof (view_cur _ _ _ _ Hv Hx Ox). pose proof (view_cur _ _ _ _ Hv Hy Oy). congruence.
  - intros Hsus i x Hx. destruct (isOpen x) eqn:Ox; [|done]. pose proof (view_cur _ _ _ _ Hv Hx Ox) as ->.
    pose proof (as_circuit _ Hs) as Hc. cbn in Hc. by rewrite bool_decide_eq_true_2 in Hc; [specialize (Hc eq_refl)|].
  - intros i x Hx Ox Eb. rewrite (view_cur _ _ _ _ Hv Hx Ox) in Hp, Hsp. cbn [fmap option_fmap option_map] in Hp, Hsp.
    rewrite counted_hold, Eb in Hp, Hsp. cbn [sameInstant] in Hp, Hsp. rewrite Z.eqb_refl in Hp, Hsp. done.
  - intros Hno. destruct cur as [[i x]|]; cbn [fmap option_fmap option_map] in Hp, Hsp; [|lia].
    destruct (proj2 Hv i x eq_refl) as [Hx Ox]. rewrite counted_hold in Hp, Hsp.
    destruct (sameInstant _ _) eqn:E; [|lia]. apply sameInstant_true in E as (y & E1 & [= E2]). exfalso. apply (Hno i x Hx Ox). congruence.
Qed.

(** C37: The rows satisfy the tables' constraints after every history, and a job is reported and
    bought once: while it is open there is no outcome event and no purchase of it, once it
    succeeded there is one event and one purchase, of the amount charged, and once it failed or
    waits for the customer there is one event and no purchase. *)
Theorem topup_rows_valid provider policies r : reachable provider policies r ->
  let t := r_topup r in let st := tu_state t in
  (forall id j, tu_jobs t !! id = Some j -> job_ok j /\ status_ok j (outcomesOf id t) (purchasesOf id t)) /\
  (forall id, tu_jobs t !! id = None -> outcomesOf id t = [] /\ purchasesOf id t = []) /\
  (ts_status st = suspended <-> is_Some (ts_circuitOpenedAt st)) /\
  0 <= ts_purchasesInInterval st /\ 0 <= ts_spendMinorInInterval st /\ 0 <= ts_consecutiveFailures st.
Proof.
  intros Hr t st. destruct (reachable_ok _ _ _ Hr) as [[Ht _ _] _]. destruct Ht as [_ [Hc Hf] Hrows (cur & _ & [[Hp Hs] _ _])].
  split_and!; try done.
  - intros id j Hj. specialize (Hrows id). fold t in Hrows. by rewrite Hj in Hrows.
  - intros id Hj. specialize (Hrows id). fold t in Hrows. by rewrite Hj in Hrows.
Qed.

(** ** The worker *)

(** The adapter persists a receipt only as its last act, and then reports that payment or
    fails without a verdict on it ([StripeService.createAutoTopupCharge]). *)
Definition adapter_ok (checkpoints : list Checkpoint) (outcome : ChargeOutcome) : Prop :=
  exists before last, checkpoints = before ++ last /\ Forall (fun c => cp_result c = None) before /\
    (last = [] \/ exists r, last = [receiptCheckpoint r] /\
       (outcome = charge_succeeded r \/ exists e, outcome = charge_threw e None)).

(** What the worker leaves of the job it claimed as [j]: it is let go, and once a receipt is
    stored it is completed or kept with its reservation. *)
Definition let_go (id : Z) (j : AutoTopupJobRow) (t : Topup) : Prop :=
  exists j', tu_jobs t !! id = Some j' /\ tj_status j' <> processing /\
    (forall c, tj_providerResult j = Some c -> tj_providerResult j' = Some c) /\
    (is_Some (tj_providerResult j') -> tj_status j' = succeeded \/
       ((tj_status j' = pending \/ tj_status j' = requires_review) /\
        tj_budgetIntervalStartedAt j' = tj_budgetIntervalStartedAt j)).

Lemma let_go_weaken id j j' t : let_go id j' t -> tj_budgetIntervalStartedAt j' = tj_budgetIntervalStartedAt j ->
  (forall c, tj_providerResult j = Some c -> tj_providerResult j' = Some c) -> let_go id j t.
Proof. intros (x & Hx & Hs & Hr & Hk) Hb Hc. exists x. split_and!; [done..|auto|]. rewrite <- Hb. done. Qed.

Lemma markFailed_let_go k id w f t t' flags j : ownedJob id w t = Some j -> tj_providerResult j = None ->
  markAutoTopupFailed k id w f t = Ok (t', flags) -> let_go id j t'.
Proof.
  intros Hj Hn Hm. destruct (owned_open _ _ _ _ Hj) as (Hl & _ & _).
  unfold markAutoTopupFailed in Hm. rewrite Hl in Hm. inv_result. destruct x0 as [[[? ?] ?] ?]. inv_result. subst t'.
  set (again := negb _ && _). set (jf := failedJob k f again _ j).
  assert (Hjf : tj_status jf <> processing /\ tj_providerResult jf = None).
  { split; [|exact Hn]. subst jf. cbn [failedJob tj_status]. destruct again; [done|]. by destruct (decide _). }
  exists jf. split; [by destruct again; cbn; rewrite lookup_insert_eq|]. split; [apply Hjf|]. split; [congruence|].
  rewrite (proj2 Hjf). by intros [? ?].
Qed.

Lemma handleFailure_let_go k w jitter job phase error definitive t t' j :
  ownedJob (at_jobId job) w t = Some j ->
  (is_Some (tj_providerResult j) -> phase <> phase_charge /\ definitive = None) ->
  handleFailure k w jitter job phase error definitive t = Ok t' -> let_go (at_jobId job) j t'.
Proof.
  intros Hj Hr H. unfold handleFailure in H. destruct (negb _ && _) eqn:E.
  - unfold retryAutoTopupCompletion in H. inv_result. rewrite Hj in H. injection H as <-.
    eexists. cbn [with_job tu_jobs]. rewrite lookup_insert_eq. split; [reflexivity|]. cbn. split_and!; [|done|].
    + by destruct (9 <=? _).
    + intros _. right. split; [|done]. destruct (9 <=? _); auto.
  - assert (Hn : tj_providerResult j = None).
    { destruct (tj_providerResult j) eqn:Er; [|done]. destruct Hr as [Hp ->]; [by eexists|].
      rewrite bool_decide_eq_false_2, bool_decide_eq_true_2 in E by done. done. }
    destruct (markAutoTopupFailed _ _ _ _ _) as [[t1 flags]|] eqn:Em; [|done]. injection H as <-.
    by eapply markFailed_let_go.
Qed.

Lemma completeJob_let_go k w jitter job phase c t t' j :
  ownedJob (at_jobId job) w t = Some j -> (is_Some (tj_providerResult j) -> phase <> phase_charge) ->
  completeJob k w jitter job phase c t = Ok t' -> let_go (at_jobId job) j t'.
Proof.
  intros Hj Hr H. unfold completeJob in H. destruct (markAutoTopupSucceeded _ _ _ _ _) as [[t1 b]|e] eqn:Em.
  - injection H as <-. destruct (owned_open _ _ _ _ Hj) as (Hl & _ & Hp). unfold markAutoTopupSucceeded in Em. rewrite Hl in Em.
    inv_result. rewrite decide_False in Em by congruence. inv_result. destruct x1 as [[[? ?] ?] ?]. inv_result. subst t1.
    eexists. cbn. rewrite lookup_insert_eq. split; [reflexivity|]. cbn. split_and!; [done..|]. by left.
  - eapply handleFailure_let_go; [done| |exact H]. auto.
Qed.

Lemma checkpoint_owned id w c t t' j : ownedJob id w t = Some j -> checkpointAutoTopup id w c t = Ok t' ->
  ownedJob id w t' = Some (checkpointedJob c j).
Proof.
  intros Hj H. unfold checkpointAutoTopup in H. inv_result. rewrite Hj in H. destruct (checkpointFits c j); [|done].
  injection H as <-. unfold ownedJob in *. cbn. rewrite lookup_insert_eq. destruct (tu_jobs t !! id) as [x|]; [|done].
  destruct (lockedByWorker w x) eqn:El; [|done]. injection Hj as ->. unfold lockedByWorker in *. cbn. by rewrite El.
Qed.

(** Checkpoints without a receipt. *)
Lemma runCheckpoints_open id w checkpoints phase t j : Forall (fun c => cp_result c = None) checkpoints ->
  ownedJob id w t = Some j -> tj_providerResult j = None ->
  exists phase' t' failure j', runCheckpoints w id phase checkpoints t = (phase', t', failure) /\
    ownedJob id w t' = Some j' /\ tj_providerResult j' = None /\
    tj_budgetIntervalStartedAt j' = tj_budgetIntervalStartedAt j.
Proof.
  intros Hc. revert phase t j. induction Hc as [|c l Hc Hl IH]; intros phase t j Hj Hn; cbn [runCheckpoints].
  - by exists phase, t, None, j.
  - destruct (checkpointAutoTopup id w c t) as [t1|e] eqn:E; [|by exists (checkpointPhase c), t, (Some e), j].
    apply (checkpoint_owned _ _ _ _ _ _ Hj) in E.
    destruct (IH (checkpointPhase c) t1 (checkpointedJob c j)) as (p & t2 & fl & j2 & H1 & H2 & H3 & H4); [done| |].
    { cbn. by rewrite Hc. }
    by exists p, t2, fl, j2.
Qed.

Lemma runCheckpoints_app w id phase l1 l2 t : runCheckpoints w id phase (l1 ++ l2) t =
  let '(p, t1, failure) := runCheckpoints w id phase l1 t in
  match failure with Some e => (p, t1, Some e) | None => runCheckpoints w id p l2 t1 end.
Proof.
  revert phase t. induction l1 as [|c l1 IH]; intros phase t; [done|]. cbn [app runCheckpoints].
  destruct (checkpointAutoTopup id w c t); [apply IH|done].
Qed.

(** Checkpoints that may end with receipts: the phase then says so. *)
Lemma runCheckpoints_receipts id w rs phase t j : ownedJob id w t = Some j ->
  (is_Some (tj_providerResult j) -> phase = phase_complete) ->
  exists phase' t' failure j', runCheckpoints w id phase (map receiptCheckpoint rs) t = (phase', t', failure) /\
    ownedJob id w t' = Some j' /\ (is_Some (tj_providerResult j') -> phase' = phase_complete) /\
    tj_budgetIntervalStartedAt j' = tj_budgetIntervalStartedAt j /\ (rs = [] -> j' = j) /\
    (forall c, tj_providerResult j = Some c -> tj_providerResult j' = Some c).
Proof.
  revert phase t j. induction rs as [|r rs IH]; intros phase t j Hj Hp; cbn [map runCheckpoints].
  - by exists phase, t, None, j.
  - destruct (checkpointAutoTopup id w _ t) as [t1|e] eqn:E.
    + assert (Ho := checkpoint_owned _ _ _ _ _ _ Hj E).
      destruct (IH phase_complete t1 _ Ho) as (p & t2 & fl & j2 & H1 & H2 & H3 & H4 & _ & H6); [done|].
      exists p, t2, fl, j2. split_and!; [done..|]. intros c Hc. apply H6. cbn.
      unfold checkpointAutoTopup in E. inv_result. rewrite Hj in E. unfold checkpointFits in E. rewrite Hc in E.
      destruct (_ && _) eqn:Ef; [|done]. apply andb_prop in Ef as [_ Ef]. by apply bool_decide_eq_true in Ef.
    + exists phase_complete, t, (Some e), j. by split_and!.
Qed.

(** A worker that keeps its lease lets its job go, and never forgets a payment: a job whose
    receipt is stored, when it was claimed or by a checkpoint on the way, ends the run either
    succeeded or waiting to be completed with its reservation and receipt in place; it is
    never failed, so never charged again. *)
Theorem worker_keeps_receipts k w jitter job checkpoints outcome t t' j :
  ownedJob (at_jobId job) w t = Some j -> at_providerResult job = tj_providerResult j ->
  adapter_ok checkpoints outcome ->
  runClaimedJob k w jitter job checkpoints outcome t = Ok t' -> let_go (at_jobId job) j t'.
Proof.
  intros Hj Hsame (pre & last & -> & Hpre & Hlast) H. unfold runClaimedJob in H.
  destruct (at_providerResult job) as [c|]; [by eapply completeJob_let_go; [done| |exact H]|].
  set (rs := match last with [] => match outcome with charge_succeeded c => [c] | _ => [] end
    | _ => match outcome with charge_succeeded c => [c; c] | _ => match last with [{| cp_result := Some r |}] => [r] | _ => [] end end end).
  assert (Eall : (pre ++ last) ++ match outcome with charge_succeeded c => [receiptCheckpoint c] | _ => [] end
    = pre ++ map receiptCheckpoint rs).
  { rewrite <- app_assoc. f_equal. subst rs. destruct Hlast as [->|(r & -> & [->|(e & ->)])]; [by destruct outcome|done|done]. }
  assert (Hrs : match outcome with charge_refused _ _ _ _ => rs = [] | charge_threw _ (Some _) => rs = [] | _ => True end).
  { subst rs. destruct Hlast as [->|(r & -> & [->|(e & ->)])]; [by destruct outcome as [| |? []]|done|done]. }
  rewrite Eall, runCheckpoints_app in H.
  destruct (runCheckpoints_open (at_jobId job) w pre (at_phase job) t j Hpre Hj (eq_sym Hsame)) as (p1 & t1 & f1 & j1 & E1 & Hj1 & Hn1 & Hb1).
  rewrite E1 in H.
  assert (Hweak : forall tx jx, let_go (at_jobId job) jx tx -> tj_budgetIntervalStartedAt jx = tj_budgetIntervalStartedAt j ->
    let_go (at_jobId job) j tx).
  { intros tx jx Hx Hbx. eapply let_go_weaken; [exact Hx|done|]. rewrite <- Hsame. done. }
  destruct f1 as [e|].
  { eapply Hweak; [|exact Hb1]. eapply handleFailure_let_go; [exact Hj1| |exact H]. rewrite Hn1. by intros [? ?]. }
  destruct (runCheckpoints_receipts (at_jobId job) w rs p1 t1 j1 Hj1) as (p2 & t2 & f2 & j2 & E2 & Hj2 & Hp2 & Hb2 & Hnil & _).
  { rewrite Hn1. by intros [? ?]. }
  rewrite E2 in H. apply (Hweak _ j2); [|congruence].
  assert (Hpc : is_Some (tj_providerResult j2) -> p2 <> phase_charge) by (intros Hx; rewrite (Hp2 Hx); done).
  destruct f2 as [e|]; [eapply handleFailure_let_go; [exact Hj2|by auto|exact H]|].
  destruct outcome as [c|kind reason inv pay|error definitive].
  - by eapply completeJob_let_go; [exact Hj2|done|exact H].
  - rewrite (Hnil Hrs) in *. destruct (markAutoTopupFailed _ _ _ _ _) as [[t3 fl]|e] eqn:Em.
    + injection H as <-. eapply markFailed_let_go; [exact Hj2|exact Hn1|exact Em].
    + eapply handleFailure_let_go; [exact Hj2|by auto|exact H].
  - eapply handleFailure_let_go; [exact Hj2| |exact H]. intros Hx. split; [auto|]. destruct definitive; [|done].
    rewrite (Hnil Hrs), Hn1 in Hx. by destruct Hx.
Qed.

(** A policy its writer accepts satisfies the table's constraints, and its spend limit
    covers at least one top-up. *)
Lemma autoTopupPolicy_ok scale i offer p : autoTopupPolicy scale i offer = Ok p ->
  (forall o a, offer = Some o -> of_priceAmount o = Some a -> 0 <= a) ->
  policy_ok p /\ (forall a m, tp_amountMinor p = Some a -> tp_maxSpendMinor p = Some m -> a <= m) /\
  (tp_provider p = stripe -> is_Some (tp_maxSpendMinor p)).
Proof.
  assert (Hb : forall v f lo hi x, boundedInteger v f lo hi = Ok x -> lo <= x <= hi).
  { intros v f lo hi x. unfold boundedInteger. destruct (_ || _) eqn:E; [done|]. intros [= <-]. bool_to_prop. lia. }
  intros H Hprice. unfold autoTopupPolicy in H. inv_result. destruct offer as [o|]; [|done]. inv_result. subst p.
  apply Hb in E1, E2, E3, E4. unfold policy_ok. cbn. split_and!; try lia.
  - intros m Em. rewrite Em in E6. bool_to_prop. done.
  - eauto.
  - intros a m Ha Hm. rewrite Ha in Hm, E7. rewrite Hm in E7. by apply Z.ltb_ge.
  - intros Hs. unfold policySpendLimit. destruct (in_maxSpendMinor i); [by eexists|]. rewrite decide_True by done.
    rewrite Hs in E5. destruct (of_priceAmount o); [by eexists|done].
Qed.

(** ** Examples *)

Definition exampleClocks (now : Z) : Clocks := {| ck_app := now; ck_now := now; ck_clock := now |}.
Definition examplePolicy : AutoTopupPolicy :=
  {| tp_provider := stripe; tp_providerAccountId := None; tp_active := true; tp_thresholdQuantity := 5;
     tp_cooldownSeconds := 30; tp_limitIntervalSeconds := 3600; tp_maxPurchasesPerInterval := 3;
     tp_maxSpendMinor := Some 1000; tp_maxConsecutiveFailures := 3; tp_amountMinor := Some 600;
     tp_currency := Some (js "usd"); tp_storeProductId := 9 |}.
Definition exampleWorker : text := js "worker".
Definition exampleCharge (paid : Z) : AutoTopupChargeSucceeded :=
  {| ac_externalInvoiceId := js "in_1"; ac_externalPaymentId := Some (js "pi_1"); ac_amountPaidMinor := paid;
     ac_currency := js " usd" |}.

Definition onStripe (p : BillingProvider) : bool := bool_decide (p = stripe).

(** A write schedules a job, a worker claims it and is handed 1000, and pays 660. *)
Definition scheduledRun : Run :=
  advance (start 0 examplePolicy)
    (scheduleAutoTopupIfNeeded (exampleClocks 10) onStripe 1 (js "key") 4 (r_topup (start 0 examplePolicy))).
Definition claimedRun : Run :=
  match claimAutoTopupJobs (exampleClocks 20) exampleWorker 25 300000 (r_topup scheduledRun) with
  | Ok (t, jobs) => {| r_topup := t; r_charged := r_charged (advance scheduledRun t); r_allowed := fold_left allow jobs ∅ |}
  | Err _ => scheduledRun
  end.
Definition paidRun : Run :=
  match markAutoTopupSucceeded (exampleClocks 30) 1 exampleWorker (exampleCharge 660) (r_topup claimedRun) with
  | Ok (t, _) => advance claimedRun t
  | Err _ => claimedRun
  end.

Definition withinAllowance (allowed : option Z) (paid : Z) : Prop := exists m, allowed = Some m /\ paid <= m.

Example paidRun_charged : r_charged paidRun = [660] /\ r_allowed paidRun !! 1 = Some 1000.
Proof. vm_compute. done. Qed.

Lemma claimedRun_reachable : reachable withinAllowance (policy_within 3 1000) claimedRun.
Proof.
  exists 0, examplePolicy. split; [|split].
  - unfold policy_ok. cbn. split_and!; try lia; intros m [= <-]; lia.
  - split; [cbn; lia|]. exists 1000. split; [done|lia].
  - eapply rtc_l; [|eapply rtc_l; [|apply rtc_refl]].
    + apply (step_schedule _ _ _ (exampleClocks 10) onStripe 1 (js "key") 4); [unfold clocks_agree; cbn; lia|done].
    + apply (step_claim _ _ scheduledRun (exampleClocks 20) exampleWorker 25 300000 (r_topup claimedRun)
        (match claimAutoTopupJobs (exampleClocks 20) exampleWorker 25 300000 (r_topup scheduledRun) with Ok (_, jobs) => jobs | Err _ => [] end)).
      vm_compute. reflexivity.
Qed.

Lemma paid_step : topup_step withinAllowance (policy_within 3 1000) claimedRun paidRun.
Proof.
  apply (step_succeed _ _ claimedRun (exampleClocks 30) 1 exampleWorker (exampleCharge 660) (r_topup paidRun) false).
  - vm_compute. reflexivity.
  - exists 1000. split; [vm_compute; reflexivity|cbn; lia].
Qed.

Lemma paidRun_reachable : reachable withinAllowance (policy_within 3 1000) paidRun.
Proof.
  destruct claimedRun_reachable as (now & p & Hp & Hpol & Hr). exists now, p. split_and!; [done..|].
  eapply rtc_r; [exact Hr|exact paid_step].
Qed.

Lemma topup_budget_never_exceeded_witness :
  r_charged paidRun = [660] /\ Z.of_nat (length (r_charged paidRun)) <= 3 /\ sumZ (r_charged paidRun) <= 1000 /\
  ts_purchasesInInterval (tu_state (r_topup paidRun)) <= 3 /\ ts_spendMinorInInterval (tu_state (r_topup paidRun)) <= 1000.
Proof. split; [vm_compute; reflexivity|]. apply (topup_budget_never_exceeded 3 1000 paidRun), paidRun_reachable. Defined.

Lemma topup_refines_account_witness : topup_step withinAllowance (policy_within 3 1000) claimedRun paidRun /\
  exists a a' paid handed, represents (r_topup claimedRun) a /\ represents (r_topup paidRun) a' /\
    account_step (tu_policy (r_topup claimedRun)) a paid handed a' /\
    map pu_amountPaidMinor (tu_purchases (r_topup paidRun)) = map pu_amountPaidMinor (tu_purchases (r_topup claimedRun)) ++ paid /\
    r_charged paidRun = since a a' (r_charged claimedRun) paid /\ r_allowed paidRun = fold_left give handed (r_allowed claimedRun).
Proof.
  split; [exact paid_step|]. apply (topup_refines_account withinAllowance (policy_within 3 1000)); [apply claimedRun_reachable|exact paid_step].
Defined.

Lemma topup_one_open_job_witness : tj_status <$> tu_jobs (r_topup claimedRun) !! 1 = Some processing /\
  (ts_status (tu_state (r_topup claimedRun)) = suspended -> forall i x, tu_jobs (r_topup claimedRun) !! i = Some x -> isOpen x = false).
Proof.
  split; [vm_compute; reflexivity|].
  exact (proj1 (proj2 (topup_one_open_job withinAllowance (policy_within 3 1000) claimedRun claimedRun_reachable))).
Defined.

Lemma topup_rows_valid_witness : length (outcomesOf 1 (r_topup paidRun)) = 1%nat /\
  (forall id j, tu_jobs (r_topup paidRun) !! id = Some j -> job_ok j /\ status_ok j (outcomesOf id (r_topup paidRun)) (purchasesOf id (r_topup paidRun))).
Proof.
  split; [vm_compute; reflexivity|].
  exact (proj1 (topup_rows_valid withinAllowance (policy_within 3 1000) paidRun paidRun_reachable)).
Defined.

(** The job of [claimedRun], as its worker was handed it. *)
Definition exampleJob : AutoTopupJob :=
  match claimAutoTopupJobs (exampleClocks 20) exampleWorker 25 300000 (r_topup scheduledRun) with
  | Ok (_, p :: _) => p
  | _ => preparedJob 1 0 0 [] examplePolicy (tu_state (r_topup scheduledRun)) (scheduledJob (exampleClocks 0) true [] examplePolicy)
  end.

Definition exampleCheckpoints : list Checkpoint :=
  [{| cp_invoiceId := js "in_1"; cp_phase := Some phase_reconcile; cp_result := None |}].

Lemma worker_keeps_receipts_witness : exists t j,
  runClaimedJob (exampleClocks 40) exampleWorker 0 exampleJob exampleCheckpoints (charge_succeeded (exampleCharge 660)) (r_topup claimedRun) = Ok t /\
  (tj_status <$> tu_jobs t !! 1) = Some succeeded /\ let_go 1 j t.
Proof.
  eexists _, _. split; [vm_compute; reflexivity|]. split; [vm_compute; reflexivity|].
  eapply (worker_keeps_receipts (exampleClocks 40) exampleWorker 0 exampleJob exampleCheckpoints (charge_succeeded (exampleCharge 660)) (r_topup claimedRun)).
  - vm_compute. reflexivity.
  - vm_compute. reflexivity.
  - exists exampleCheckpoints, []. split_and!; [done|by repeat constructor|by left].
  - vm_compute. reflexivity.
Defined.
