(* ===== verification/UsageAlerts.v ===== *)
(** * Usage alerts ([src/db/repository/controls-runtime.ts], [controls-enterprise.ts])

    An alert counts the usage of one feature, by a customer or one of its entities, in the
    calendar window of its cadence or for life, and records an event when the count reaches
    its threshold and another when a correction brings it back below.  The model holds the
    alerts and the usage events of one customer and feature; amounts are units of scale 9.
    [usage_event_rollups] keep the monthly sums of the events, so a lifetime count reads the
    sum of all of them. *)
From S2P Require Import Prelude Text Decimal Pricing JsDate Cadence Balances Controls.

(** ** Data *)

Inductive ThresholdType := absolute | percentage.
#[export] Instance ThresholdType_eq_dec : EqDecision ThresholdType.
Proof. solve_decision. Defined.

Record UsageAlertRow := {
  ua_id : Z;
  ua_entityId : option Z;
  ua_interval : option Cadence; (* [None] is [lifetime] *)
  ua_thresholdType : ThresholdType;
  ua_thresholdValue : text;
  ua_featureKey : string }.

(** A row of [usage_alert_states]. *)
Record UsageAlertState := {
  us_windowStartAt : jsdate;
  us_windowEndAt : option jsdate;
  us_currentValue : Z;
  us_thresholdValue : Z;
  us_crossed : bool;
  us_crossingSequence : Z }.

Inductive AlertEventType := threshold_crossed | threshold_rearmed.
#[export] Instance AlertEventType_eq_dec : EqDecision AlertEventType.
Proof. solve_decision. Defined.

(** A row of [usage_alert_events]. *)
Record UsageAlertEvent := {
  ue_windowStartAt : jsdate;
  ue_crossingSequence : Z;
  ue_currentValue : Z;
  ue_thresholdValue : Z;
  ue_eventType : AlertEventType }.

(** The rows of one alert; [ar_triggered] the crossings told to subscribers
    ([recordUsageAlertTriggered]), oldest first. *)
Record AlertRows := {
  ar_state : option UsageAlertState;
  ar_events : list UsageAlertEvent;
  ar_triggered : list (jsdate * Z) }.

(** A row of [usage_events]: recorded usage, or a correction of an earlier event. *)
Record UsageEvent := {
  ev_id : Z;
  ev_entityId : option Z;
  ev_recordedAt : Z;
  ev_original : option (Z * Z); (* the corrected event and when it was recorded *)
  ev_quantity : Z }.

Record AlertStore := {
  al_log : list UsageEvent;
  al_alerts : list UsageAlertRow;
  al_rows : gmap Z AlertRows }.

(** ** Reading usage *)

(** [COALESCE(event.original_event_recorded_at, event.recorded_at)] *)
Definition countedAt (e : UsageEvent) : Z :=
  match ev_original e with Some (_, at_) => at_ | None => ev_recordedAt e end.

Definition inScope (entity : option Z) (e : UsageEvent) : bool :=
  match entity with None => true | Some _ => bool_decide (ev_entityId e = entity) end.

Definition recordedInWindow (start : jsdate) (endAt : option jsdate) (e : UsageEvent) : bool :=
  match start with
  | None => false
  | Some s => (s <=? ev_recordedAt e) && (s <=? countedAt e)
      && match endAt with None => true | Some (Some t) => countedAt e <? t | Some None => false end
  end.

Definition sumOf (p : UsageEvent -> bool) (log : list UsageEvent) : Z := sumZ (map ev_quantity (List.filter p log)).

Definition readAlertWindowUsage (log : list UsageEvent) (entity : option Z) (start : jsdate) (endAt : option jsdate) : Z :=
  match endAt with
  | None => Z.max (sumOf (inScope entity) log) 0
  | Some _ => Z.max (sumOf (fun e => inScope entity e && recordedInWindow start endAt e) log) 0
  end.

(** ** The threshold in force *)

Definition sameControlWindow (c : ControlLimit) (interval : option Cadence) : bool :=
  bool_decide (controlWindowKey (k_interval c) = controlWindowKey interval).

(** The matching control with the lowest limit, the first of equals. *)
Fixpoint tightestFrom (tightest : option ControlLimit) (controls : list ControlLimit) : result (option ControlLimit) :=
  match controls with
  | [] => Ok tightest
  | c :: rest =>
      match tightest with
      | None => tightestFrom (Some c) rest
      | Some t =>
          l ← decimalToUnits (k_limitValue c) 9;
          r ← decimalToUnits (k_limitValue t) 9;
          tightestFrom (Some (if l <? r then c else t)) rest
      end
  end.
Definition tightestControl (controls : list ControlLimit) (matches : ControlLimit -> bool) : result (option ControlLimit) :=
  tightestFrom None (List.filter matches controls).

Definition alertMatches (featureKey : string) (interval : option Cadence) (c : ControlLimit) : bool :=
  bool_decide (k_kind c = usage_limit) && bool_decide (k_feature c = Some featureKey) && sameControlWindow c interval.

(** The threshold as canonical text; [None] when a percentage has no limit to follow. *)
Definition alertThreshold (controls : list ControlLimit) (a : UsageAlertRow) : result (option text) :=
  threshold ← canonicalDecimal (ua_thresholdValue a) "alert threshold" 9;
  match ua_thresholdType a with
  | absolute => Ok (Some threshold)
  | percentage =>
      limit ← tightestControl controls (alertMatches (ua_featureKey a) (ua_interval a));
      match limit with
      | None => Ok None
      | Some c =>
          l ← decimalToUnits (k_limitValue c) 9;
          p ← decimalToUnits threshold 9;
          Ok (Some (unitsToDecimal (l * p / (100 * 10 ^ 9)) 9))
      end
  end.

(** ** Evaluating one alert *)

Definition eventKey (e : UsageAlertEvent) : jsdate * Z * AlertEventType :=
  (ue_windowStartAt e, ue_crossingSequence e, ue_eventType e).

(** [ON CONFLICT DO NOTHING] on the window, the sequence and the type. *)
Definition insertEvent (e : UsageAlertEvent) (events : list UsageAlertEvent) : list UsageAlertEvent :=
  if decide (eventKey e ∈ map eventKey events) then events else events ++ [e].

Definition newState (bounds : jsdate * option jsdate) (threshold : Z) : UsageAlertState :=
  {| us_windowStartAt := fst bounds; us_windowEndAt := snd bounds; us_currentValue := 0; us_thresholdValue := threshold;
     us_crossed := false; us_crossingSequence := 0 |}.

(** [aggregate] is the lifetime usage already recorded, read for a lifetime alert. *)
Definition evaluateState (bounds : jsdate * option jsdate) (lifetime : bool) (aggregate deltaUnits thresholdUnits : Z)
    (st : UsageAlertState) : UsageAlertState * option AlertEventType :=
  let sameWindow := bool_decide (us_windowStartAt st = fst bounds) in
  let currentUnits := if sameWindow then us_currentValue st else 0 in
  let aggregateUnits := if lifetime then aggregate else currentUnits + deltaUnits in
  let nextUnits := if 0 <? aggregateUnits then aggregateUnits else 0 in
  let nextCrossed := thresholdUnits <=? nextUnits in
  let priorCrossed := sameWindow && us_crossed st in
  let sequence := if sameWindow then us_crossingSequence st else 0 in
  let sequence := if negb priorCrossed && nextCrossed then sequence + 1 else sequence in
  let eventType :=
    if negb priorCrossed && nextCrossed then Some threshold_crossed
    else if priorCrossed && negb nextCrossed then Some threshold_rearmed else None in
  ({| us_windowStartAt := fst bounds; us_windowEndAt := snd bounds; us_currentValue := nextUnits;
      us_thresholdValue := thresholdUnits; us_crossed := nextCrossed; us_crossingSequence := sequence |}, eventType).

Definition alertEvent (st : UsageAlertState) (t : AlertEventType) : UsageAlertEvent :=
  {| ue_windowStartAt := us_windowStartAt st; ue_crossingSequence := us_crossingSequence st;
     ue_currentValue := us_currentValue st; ue_thresholdValue := us_thresholdValue st; ue_eventType := t |}.

Definition recordEvaluation (st : UsageAlertState) (t : option AlertEventType) (rows : AlertRows) : AlertRows :=
  {| ar_state := Some st;
     ar_events := match t with None => ar_events rows | Some t => insertEvent (alertEvent st t) (ar_events rows) end;
     ar_triggered := match t with
       | Some threshold_crossed => ar_triggered rows ++ [(us_windowStartAt st, us_crossingSequence st)]
       | _ => ar_triggered rows
       end |}.

(** The body of the loop of [recordUsageAlertDelta]. *)
Definition evaluateAlert (log : list UsageEvent) (controls : list ControlLimit) (deltaUnits : Z) (correcting : bool)
    (countedAt : Z) (a : UsageAlertRow) (rows : AlertRows) : result AlertRows :=
  let bounds := controlWindowBounds (ua_interval a) countedAt in
  threshold ← alertThreshold controls a;
  match threshold with
  | None => Ok rows
  | Some threshold =>
  thresholdUnits ← decimalToUnits threshold 9;
  let stored := match ar_state rows with
    | Some st => Some st
    | None => if correcting then None else Some (newState bounds thresholdUnits)
    end in
  match stored with
  | None => Ok rows
  | Some st =>
      if correcting && negb (bool_decide (us_windowStartAt st = fst bounds)) then Ok rows
      else
        let aggregate := readAlertWindowUsage log (ua_entityId a) (fst bounds) None in
        let lifetime := bool_decide (ua_interval a = None) in
        let '(st', t) := evaluateState bounds lifetime aggregate deltaUnits thresholdUnits st in
        Ok (recordEvaluation st' t rows)
  end
  end.

(** ** The operations *)

Definition noRows : AlertRows := {| ar_state := None; ar_events := []; ar_triggered := [] |}.
Definition rowsOf (s : AlertStore) (id : Z) : AlertRows := default noRows (al_rows s !! id).

Definition withRows (s : AlertStore) (id : Z) (rows : AlertRows) : AlertStore :=
  {| al_log := al_log s; al_alerts := al_alerts s; al_rows := <[ id := rows ]> (al_rows s) |}.

(** The active alerts a write reaches, by id. *)
Definition queryUsageAlerts (entity : option Z) (s : AlertStore) : list UsageAlertRow :=
  List.filter (fun a => match ua_entityId a with None => true | Some _ => bool_decide (ua_entityId a = entity) end) (al_alerts s).

(** [controlsOf] is [resolveControlLimits] for the alert's scope. *)
Definition evaluateStep (controlsOf : option Z -> list ControlLimit) (deltaUnits : Z) (correcting : bool) (countedAt : Z)
    (s : AlertStore) (a : UsageAlertRow) : result AlertStore :=
  rows ← evaluateAlert (al_log s) (controlsOf (ua_entityId a)) deltaUnits correcting countedAt a (rowsOf s (ua_id a));
  Ok (withRows s (ua_id a) rows).

Definition recordUsageAlertDelta (controlsOf : option Z -> list ControlLimit) (entity : option Z) (delta : text) (now : Z)
    (correctsRecordedAt : option Z) (s : AlertStore) : result AlertStore :=
  deltaUnits ← signedDecimalToUnits delta 9;
  if deltaUnits =? 0 then Ok s
  else
    foldM (evaluateStep controlsOf deltaUnits (bool_decide (is_Some correctsRecordedAt)) (default now correctsRecordedAt))
      (queryUsageAlerts entity s) s.

Definition withThreshold (threshold : text) (a : UsageAlertRow) : UsageAlertRow :=
  {| ua_id := ua_id a; ua_entityId := ua_entityId a; ua_interval := ua_interval a; ua_thresholdType := ua_thresholdType a;
     ua_thresholdValue := threshold; ua_featureKey := ua_featureKey a |}.

Definition createUsageAlert (controls : list ControlLimit) (now : Z) (a : UsageAlertRow) (s : AlertStore) : result AlertStore :=
  threshold ← canonicalDecimal (ua_thresholdValue a) "thresholdValue" 9;
  units ← decimalToUnits threshold 9;
  throwWhen (units <=? 0) (InvalidRequest "thresholdValue") ;;
  throwWhen (bool_decide (ua_thresholdType a = percentage) && (100 * 10 ^ 9 <? units)) (InvalidRequest "thresholdValue") ;;
  evaluated ← (match ua_thresholdType a with
    | absolute => Ok threshold
    | percentage =>
        control ← tightestControl controls (alertMatches (ua_featureKey a) (ua_interval a));
        match control with
        | None => Err (InvalidRequest "thresholdType")
        | Some c => l ← decimalToUnits (k_limitValue c) 9; Ok (unitsToDecimal (l * units / (100 * 10 ^ 9)) 9)
        end
    end);
  evaluatedUnits ← decimalToUnits evaluated 9;
  let bounds := controlWindowBounds (ua_interval a) now in
  let used := readAlertWindowUsage (al_log s) (ua_entityId a) (fst bounds) (snd bounds) in
  let crossed := evaluatedUnits <=? used in
  let st := {| us_windowStartAt := fst bounds; us_windowEndAt := snd bounds; us_currentValue := used;
    us_thresholdValue := evaluatedUnits; us_crossed := crossed; us_crossingSequence := if crossed then 1 else 0 |} in
  let rows := {| ar_state := Some st; ar_events := if crossed then [alertEvent st threshold_crossed] else [];
    ar_triggered := if crossed then [(fst bounds, 1)] else [] |} in
  Ok {| al_log := al_log s; al_alerts := al_alerts s ++ [withThreshold threshold a]; al_rows := <[ ua_id a := rows ]> (al_rows s) |}.

(** What [listUsageAlerts] reports of an alert. *)
Definition reportedAlert (now : Z) (rows : AlertRows) : Z * bool :=
  match ar_state rows with
  | None => (0, false)
  | Some st =>
      match us_windowEndAt st with
      | Some (Some t) => if t <=? now then (0, false) else (us_currentValue st, us_crossed st)
      | _ => (us_currentValue st, us_crossed st)
      end
  end.

(** The usage event a write records, before it brings the alerts up to date. *)
Definition recordEvent (e : UsageEvent) (s : AlertStore) : AlertStore :=
  {| al_log := al_log s ++ [e]; al_alerts := al_alerts s; al_rows := al_rows s |}.

(** ** The usage log *)

Definition isUse (e : UsageEvent) : bool := bool_decide (ev_original e = None).

(** The event or a correction of it. *)
Definition refersTo (i : Z) (e : UsageEvent) : bool :=
  match ev_original e with Some (k, _) => k =? i | None => ev_id e =? i end.

(** What is left of a recorded use after its corrections. *)
Definition remaining (log : list UsageEvent) (i : Z) : Z := sumOf (refersTo i) log.

(** A log of uses, each corrected by at most what is left of it. *)
Inductive log_ok : list UsageEvent -> Prop :=
  | log_nil : log_ok []
  | log_use log e : log_ok log -> isUse e = true -> 0 <= ev_quantity e -> ev_id e ∉ map ev_id log -> log_ok (log ++ [e])
  | log_correct log e o : log_ok log -> o ∈ log -> isUse o = true -> ev_original e = Some (ev_id o, ev_recordedAt o) ->
      ev_entityId e = ev_entityId o -> ev_recordedAt o <= ev_recordedAt e -> ev_quantity e <= 0 ->
      0 <= remaining log (ev_id o) + ev_quantity e -> ev_id e ∉ map ev_id log -> log_ok (log ++ [e]).

Lemma sumOf_snoc p log e : sumOf p (log ++ [e]) = sumOf p log + (if p e then ev_quantity e else 0).
Proof.
  unfold sumOf. rewrite List.filter_app, map_app, sumZ_app. cbn. destruct (p e); cbn; lia.
Qed.

Lemma sumOf_ext p q log : (forall e, e ∈ log -> p e = q e) -> sumOf p log = sumOf q log.
Proof.
  intros H. unfold sumOf. do 2 f_equal. induction log as [|e log IH]; [done|]. cbn. rewrite (H e) by constructor.
  rewrite IH; [done|]. intros x Hx. apply H. by constructor.
Qed.

Lemma sumOf_zero p log : (forall e, e ∈ log -> p e = true -> ev_quantity e = 0) -> sumOf p log = 0.
Proof.
  induction log as [|e log IH]; intros H; [done|]. unfold sumOf in *. cbn. specialize (IH ltac:(intros x Hx; apply H; by constructor)).
  destruct (p e) eqn:E; [|done]. cbn. rewrite (H e) by (done || constructor). lia.
Qed.

Lemma log_ids log : log_ok log -> NoDup (map ev_id log).
Proof.
  induction 1; [constructor| |]; rewrite map_app; apply NoDup_app; split_and!; try done;
    try (intros x Hx Hx2%list_elem_of_singleton; by subst); by apply NoDup_singleton.
Qed.

Lemma log_counted log e : log_ok log -> e ∈ log -> countedAt e <= ev_recordedAt e.
Proof.
  induction 1 as [|log x _ IH Hu _ _|log x o _ IH _ _ Ho _ Hle _ _ _].
  - by intros ?%elem_of_nil.
  - intros [He|He%list_elem_of_singleton]%elem_of_app; [auto|]. subst. unfold countedAt.
    apply bool_decide_eq_true in Hu. rewrite Hu. lia.
  - intros [He|He%list_elem_of_singleton]%elem_of_app; [auto|]. subst. unfold countedAt. by rewrite Ho.
Qed.

(** Every event refers to a use of the log. *)
Lemma log_refers log e i : log_ok log -> e ∈ log -> refersTo i e = true -> i ∈ map ev_id log.
Proof.
  intros H. revert i. induction H as [|log x _ IH Hu _ _|log x o _ IH Ho _ Eo _ _ _ _ _]; intros i.
  - by intros ?%elem_of_nil.
  - rewrite map_app. intros [He|He%list_elem_of_singleton]%elem_of_app Hr; apply elem_of_app; [left; auto|right]. subst.
    unfold refersTo in Hr. apply bool_decide_eq_true in Hu. rewrite Hu in Hr. apply Z.eqb_eq in Hr as <-. constructor.
  - rewrite map_app. intros [He|He%list_elem_of_singleton]%elem_of_app Hr; apply elem_of_app; left; [auto|]. subst.
    unfold refersTo in Hr. rewrite Eo in Hr. apply Z.eqb_eq in Hr as <-. by apply list_elem_of_fmap_2.
Qed.

Lemma remaining_snoc log e i : remaining (log ++ [e]) i = remaining log i + (if refersTo i e then ev_quantity e else 0).
Proof. apply sumOf_snoc. Qed.

Lemma remaining_fresh log i : log_ok log -> i ∉ map ev_id log -> remaining log i = 0.
Proof.
  intros Hl Hi. apply sumOf_zero. intros e He Hr. by destruct (Hi (log_refers _ _ _ Hl He Hr)).
Qed.

Lemma log_remaining log o : log_ok log -> o ∈ log -> isUse o = true -> 0 <= remaining log (ev_id o).
Proof.
  intros H. revert o. induction H as [|log x Hl IH Hu Hq Hx|log x o Hl IH Ho Huo Eo _ _ _ Hrem Hx]; intros u.
  - by intros ?%elem_of_nil.
  - intros Hin Huu. rewrite remaining_snoc. apply elem_of_app in Hin as [Hin|Hin%list_elem_of_singleton].
    + specialize (IH u Hin Huu). destruct (refersTo _ x); lia.
    + subst u. rewrite remaining_fresh by done. destruct (refersTo _ x); lia.
  - intros Hin Huu. rewrite remaining_snoc.
    apply elem_of_app in Hin as [Hin|Hin%list_elem_of_singleton].
    + specialize (IH u Hin Huu). unfold refersTo. rewrite Eo. destruct (Z.eqb_spec (ev_id o) (ev_id u)) as [E|]; [|lia].
      rewrite <- E in *. lia.
    + subst u. apply bool_decide_eq_true in Huu. congruence.
Qed.

(** Sums over a set of uses and their corrections. *)
Definition usesIn (p : option Z -> Z -> bool) (log : list UsageEvent) : list UsageEvent :=
  List.filter (fun o => isUse o && p (ev_entityId o) (countedAt o)) log.
Definition sumIn (p : option Z -> Z -> bool) (log : list UsageEvent) : Z :=
  sumOf (fun e => p (ev_entityId e) (countedAt e)) log.

Lemma sumZ_bump {A} (f : A -> Z) (l : list A) (k : A -> Z) i d : NoDup (map k l) -> i ∈ map k l ->
  sumZ (map (fun x => f x + (if i =? k x then d else 0)) l) = sumZ (map f l) + d.
Proof.
  induction l as [|x l IH]; [by intros _ ?%elem_of_nil|]. cbn. intros [Hx Hnd]%NoDup_cons Hi.
  destruct (Z.eqb_spec i (k x)) as [->|Hne].
  - assert (E : forall y, y ∈ l -> (k x =? k y) = false).
    { intros y Hy. apply Z.eqb_neq. intros E. apply Hx. rewrite E. by apply list_elem_of_fmap_2. }
    clear -E. assert (sumZ (map (fun y => f y + (if k x =? k y then d else 0)) l) = sumZ (map f l)); [|lia].
    induction l as [|y l IH]; [done|]. cbn. rewrite (E y), IH by (intros; try apply E; by constructor). lia.
  - apply elem_of_cons in Hi as [Hi|Hi]; [congruence|]. rewrite IH by done. lia.
Qed.

Lemma sumIn_uses p log : log_ok log -> sumIn p log = sumZ (map (fun o => remaining log (ev_id o)) (usesIn p log)).
Proof.
  intros H. assert (Hids := log_ids log H).
  induction H as [|log x Hl IH Hu Hq Hx|log x o Hl IH Ho Huo Eo Een Ele _ Hrem Hx]; [done| |];
    specialize (IH (log_ids _ Hl)); unfold sumIn, usesIn in *; rewrite sumOf_snoc, IH, List.filter_app, map_app, sumZ_app; cbn.
  - rewrite Hu. cbn [andb].
    assert (E : map (fun u => remaining (log ++ [x]) (ev_id u)) (List.filter (fun o => isUse o && p (ev_entityId o) (countedAt o)) log)
      = map (fun u => remaining log (ev_id u)) (List.filter (fun o => isUse o && p (ev_entityId o) (countedAt o)) log)).
    { apply List.map_ext_in. intros u [Hin Hsel]%filter_In. rewrite remaining_snoc.
      apply bool_decide_eq_true in Hu. unfold refersTo. rewrite Hu.
      destruct (Z.eqb_spec (ev_id x) (ev_id u)) as [Heq|]; [|lia]. exfalso. apply Hx. rewrite Heq.
      by apply list_elem_of_fmap_2, list_elem_of_In. }
    rewrite E. destruct (p _ _); cbn; [|lia]. rewrite remaining_snoc.
    rewrite remaining_fresh by done. apply bool_decide_eq_true in Hu. unfold refersTo. rewrite Hu, Z.eqb_refl. lia.
  - assert (Hux : isUse x = false) by (apply bool_decide_eq_false; congruence). rewrite Hux. cbn [andb map sumZ].
    assert (Ep : p (ev_entityId x) (countedAt x) = p (ev_entityId o) (countedAt o)).
    { rewrite Een. unfold countedAt. rewrite Eo. apply bool_decide_eq_true in Huo. by rewrite Huo. }
    set (uses := List.filter _ log) in *.
    assert (E : map (fun u => remaining (log ++ [x]) (ev_id u)) uses
      = map (fun u => remaining log (ev_id u) + (if ev_id o =? ev_id u then ev_quantity x else 0)) uses).
    { apply List.map_ext. intros u. rewrite remaining_snoc. unfold refersTo. by rewrite Eo. }
    rewrite E, Ep. destruct (p (ev_entityId o) (countedAt o)) eqn:Epo.
    + rewrite (sumZ_bump (fun u => remaining log (ev_id u)) uses ev_id); [lia| |].
      * subst uses. clear -Hl. apply log_ids in Hl. induction log as [|y log IH]; [constructor|]. cbn in *.
        apply NoDup_cons in Hl as [Hy Hl]. destruct (_ && _); [|auto]. cbn. constructor; [|auto].
        intros (z & Ez & Hz)%list_elem_of_fmap. apply Hy. rewrite Ez. apply list_elem_of_fmap_2.
        apply list_elem_of_In, filter_In in Hz as [Hz _]. by apply list_elem_of_In.
      * apply list_elem_of_fmap_2, list_elem_of_In, filter_In. split; [by apply list_elem_of_In|]. by rewrite Huo, Epo.
    + assert (Ez : map (fun u => remaining log (ev_id u) + (if ev_id o =? ev_id u then ev_quantity x else 0)) uses = map (fun u => remaining log (ev_id u)) uses).
      { apply List.map_ext_in. intros u [Hin Hsel]%filter_In. destruct (Z.eqb_spec (ev_id o) (ev_id u)) as [Heq|]; [|lia].
        apply list_elem_of_In in Hin. pose proof (NoDup_key_inj ev_id log o u (log_ids _ Hl) Ho Hin Heq) as <-.
        rewrite Epo, andb_false_r in Hsel. done. }
      rewrite Ez. lia.
Qed.

Lemma sumIn_nonneg p log : log_ok log -> 0 <= sumIn p log.
Proof.
  intros Hl. rewrite sumIn_uses by done. apply sumZ_nonneg, Forall_map, List.Forall_forall.
  intros o [Ho Hs]%filter_In. apply andb_prop in Hs as [Hs _]. apply log_remaining; [done|by apply list_elem_of_In|done].
Qed.

Lemma log_same log e o : log_ok log -> o ∈ log -> isUse o = true -> e ∈ log -> refersTo (ev_id o) e = true ->
  countedAt e = countedAt o /\ ev_entityId e = ev_entityId o.
Proof.
  intros H. assert (Hids := log_ids log H).
  induction H as [|log x Hl IH Hu _ Hx|log x y Hl IH Hy Huy Eo Een _ _ _ Hx].
  - by intros ?%elem_of_nil.
  - specialize (IH (log_ids _ Hl)). intros Ho Huo He Hr. assert (Hx' := Hu). apply bool_decide_eq_true in Hu.
    apply elem_of_app in Ho as [Ho|Ho%list_elem_of_singleton]; apply elem_of_app in He as [He|He%list_elem_of_singleton]; [auto| | |by subst].
    + subst e. unfold refersTo in Hr. rewrite Hu in Hr. apply Z.eqb_eq in Hr. exfalso. apply Hx. rewrite Hr. by apply list_elem_of_fmap_2.
    + subst o. exfalso. apply Hx. by apply (log_refers log e).
  - specialize (IH (log_ids _ Hl)). intros Ho Huo He Hr. assert (Hne : isUse x = false) by (apply bool_decide_eq_false; congruence).
    apply elem_of_app in Ho as [Ho|Ho%list_elem_of_singleton]; [|subst; congruence].
    apply elem_of_app in He as [He|He%list_elem_of_singleton]; [auto|]. subst e. unfold refersTo in Hr. rewrite Eo in Hr.
    apply Z.eqb_eq in Hr. pose proof (NoDup_key_inj ev_id log y o (log_ids _ Hl) Hy Ho Hr) as <-. split; [|done].
    unfold countedAt. rewrite Eo. apply bool_decide_eq_true in Huy. by rewrite Huy.
Qed.

(** ** Windows of an alert *)

Definition interval_ok (interval : option Cadence) : Prop := match interval with None => True | Some c => cadence_ok c end.

Definition startOf (interval : option Cadence) (t : Z) : Z :=
  match interval with None => 0 | Some c => (calendarWindowAt c t).1 end.

(** The instant [t'] is counted in the window of [t]. *)
Definition inWindow (interval : option Cadence) (t t' : Z) : bool :=
  match interval with
  | None => true
  | Some c => ((calendarWindowAt c t).1 <=? t') && (t' <? (calendarWindowAt c t).2)
  end.

Definition pastWindow (interval : option Cadence) (t t' : Z) : bool :=
  match interval with None => false | Some c => (calendarWindowAt c t).2 <=? t' end.

Lemma controlWindowBounds_at interval t : interval_ok interval -> modern t ->
  controlWindowBounds interval t = (Some (startOf interval t),
    match interval with None => None | Some c => Some (Some (calendarWindowAt c t).2) end).
Proof.
  intros Hi Ht. destruct interval as [c|]; [|done]. unfold controlWindowBounds. by rewrite calendarWindow_at.
Qed.

Lemma startOf_mono interval t t' : interval_ok interval -> t <= t' -> startOf interval t <= startOf interval t'.
Proof.
  intros Hi Ht. destruct interval as [c|]; [|cbn; lia]. cbn. pose proof (calendarWindowAt_contains c t Hi).
  pose proof (calendarWindowAt_contains c t' Hi). destruct (Z.le_gt_cases (calendarWindowAt c t).1 (calendarWindowAt c t').1); [done|].
  rewrite (calendarWindowAt_same c t' t Hi) by lia. lia.
Qed.

Lemma startOf_same c t t' : cadence_ok c -> startOf (Some c) t = startOf (Some c) t' -> calendarWindowAt c t = calendarWindowAt c t'.
Proof.
  cbn. intros Hc E. pose proof (calendarWindowAt_contains c t Hc). pose proof (calendarWindowAt_contains c t' Hc).
  rewrite <- (calendarWindowAt_same c t (calendarWindowAt c t).1 Hc) by lia.
  rewrite <- (calendarWindowAt_same c t' (calendarWindowAt c t).1 Hc) by lia. done.
Qed.

Lemma inWindow_start interval t t' : interval_ok interval -> inWindow interval t t' = true <-> startOf interval t' = startOf interval t.
Proof.
  intros Hi. destruct interval as [c|]; [|done]. cbn. pose proof (calendarWindowAt_contains c t' Hi). split.
  - intros Hw. apply andb_prop in Hw as [Ha%Z.leb_le Hb%Z.ltb_lt]. by rewrite (calendarWindowAt_same c t t' Hi).
  - intros E. rewrite (startOf_same c t' t Hi E) in *. apply andb_true_intro. split; [apply Z.leb_le|apply Z.ltb_lt]; lia.
Qed.

(** A window that starts later starts where the earlier one has ended. *)
Lemma later_window interval t t' : interval_ok interval -> startOf interval t < startOf interval t' ->
  pastWindow interval t t' = true /\ forall x, inWindow interval t' x = true -> pastWindow interval t x = true.
Proof.
  intros Hi Hlt. destruct interval as [c|]; [|cbn in *; lia]. cbn in *. pose proof (calendarWindowAt_contains c t' Hi).
  pose proof (calendarWindowAt_contains c t Hi).
  assert ((calendarWindowAt c t).2 <= (calendarWindowAt c t').1).
  { destruct (Z.le_gt_cases (calendarWindowAt c t).2 (calendarWindowAt c t').1); [done|].
    pose proof (calendarWindowAt_same c t (calendarWindowAt c t').1 Hi ltac:(lia)) as E1.
    pose proof (calendarWindowAt_same c t' (calendarWindowAt c t').1 Hi ltac:(lia)) as E2. rewrite E1 in E2. rewrite E2 in Hlt. lia. }
  split; [apply Z.leb_le; lia|]. intros x Hx. apply andb_prop in Hx as [Ha%Z.leb_le Hb%Z.ltb_lt]. apply Z.leb_le. lia.
Qed.

(** ** The events of an alert *)

Fixpoint crossings (w : jsdate) (n : nat) : list (jsdate * Z * AlertEventType) :=
  match n with
  | O => []
  | S m => crossings w m ++ [(w, Z.of_nat n, threshold_crossed); (w, Z.of_nat n, threshold_rearmed)]
  end.

(** [n] crossings, each but the last, when [crossed], followed by its rearming. *)
Definition alternating (w : jsdate) (n : nat) (crossed : bool) : list (jsdate * Z * AlertEventType) :=
  match crossed, n with
  | true, S m => crossings w m ++ [(w, Z.of_nat n, threshold_crossed)]
  | true, O => []
  | false, _ => crossings w n
  end.

Definition keyWindow (k : jsdate * Z * AlertEventType) : jsdate := let '(w, _, _) := k in w.
Definition keysIn (w : jsdate) (events : list UsageAlertEvent) : list (jsdate * Z * AlertEventType) :=
  filter (fun k => keyWindow k = w) (map eventKey events).

(** The crossings among the events. *)
Definition crossedIn (events : list UsageAlertEvent) : list (jsdate * Z) :=
  omap (fun e => if decide (ue_eventType e = threshold_crossed) then Some (ue_windowStartAt e, ue_crossingSequence e) else None) events.

Record events_ok (interval : option Cadence) (t : Z) (st : UsageAlertState) (rows : AlertRows) : Prop := {
  eo_bounds : (us_windowStartAt st, us_windowEndAt st) = controlWindowBounds interval t;
  eo_past : forall e, e ∈ ar_events rows -> exists x, ue_windowStartAt e = Some x /\ x <= startOf interval t;
  eo_all : forall w, exists n b, keysIn w (ar_events rows) = alternating w n b;
  eo_now : keysIn (us_windowStartAt st) (ar_events rows) =
    alternating (us_windowStartAt st) (Z.to_nat (us_crossingSequence st)) (us_crossed st);
  eo_sequence : 0 <= us_crossingSequence st /\ (us_crossed st = true -> 1 <= us_crossingSequence st);
  eo_triggered : ar_triggered rows = crossedIn (ar_events rows) }.

Lemma crossings_bound w n k x t : (k, x, t) ∈ crossings w n -> 1 <= x <= Z.of_nat n.
Proof.
  induction n as [|n IH]; [by intros ?%elem_of_nil|]. cbn [crossings]. intros [H|H]%elem_of_app; [specialize (IH H); lia|].
  apply elem_of_cons in H as [H|H%list_elem_of_singleton]; injection H as _ -> _; lia.
Qed.

Lemma keysIn_fresh w x t events n b : keysIn w events = alternating w n b ->
  (Z.of_nat n < x \/ x = Z.of_nat n /\ b = true /\ t = threshold_rearmed) -> (w, x, t) ∉ map eventKey events.
Proof.
  intros E Hx Hin. assert (Hk : (w, x, t) ∈ keysIn w events) by (apply list_elem_of_filter; by split).
  rewrite E in Hk. unfold alternating in Hk. destruct b, n as [|n]; cbn in Hk; try by apply elem_of_nil in Hk.
  - apply elem_of_app in Hk as [Hk%crossings_bound|Hk%list_elem_of_singleton]; [lia|]. injection Hk as -> ->.
    destruct Hx as [Hx|(_ & _ & Hx)]; [lia|done].
  - apply elem_of_app in Hk as [Hk%crossings_bound|Hk]; [lia|].
    apply elem_of_cons in Hk as [Hk|Hk%list_elem_of_singleton]; injection Hk as -> ->; destruct Hx as [Hx|(_ & Hx & _)]; [lia|done|lia|done].
Qed.

Lemma keysIn_snoc w events e : keysIn w (events ++ [e]) = keysIn w events ++ (if decide (ue_windowStartAt e = w) then [eventKey e] else []).
Proof. unfold keysIn. rewrite map_app, filter_app. cbn. by destruct (decide _). Qed.

Lemma alternating_cross w n : alternating w (S n) true = alternating w n false ++ [(w, Z.of_nat (S n), threshold_crossed)].
Proof. done. Qed.

Lemma alternating_rearm w n : alternating w (S n) false = alternating w (S n) true ++ [(w, Z.of_nat (S n), threshold_rearmed)].
Proof. cbn [alternating crossings]. by rewrite <- app_assoc. Qed.

Lemma crossedIn_snoc events e : crossedIn (events ++ [e]) = crossedIn events ++
  (if decide (ue_eventType e = threshold_crossed) then [(ue_windowStartAt e, ue_crossingSequence e)] else []).
Proof. unfold crossedIn. rewrite omap_app. cbn. by destruct (decide _). Qed.

Lemma insertEvent_fresh e events : eventKey e ∉ map eventKey events -> insertEvent e events = events ++ [e].
Proof. intros H. unfold insertEvent. by rewrite decide_False. Qed.

(** The state before an evaluation, as the evaluation reads it in the window of [bounds]. *)
Lemma events_before interval t t' st rows : interval_ok interval -> modern t -> modern t' -> events_ok interval t st rows ->
  startOf interval t <= startOf interval t' ->
  let w := Some (startOf interval t') in
  let same := bool_decide (us_windowStartAt st = w) in
  exists n, Z.of_nat n = (if same then us_crossingSequence st else 0) /\
    keysIn w (ar_events rows) = alternating w n (same && us_crossed st) /\ (same && us_crossed st = true -> (1 <= n)%nat).
Proof.
  intros Hi Ht Ht' [Hb Hp _ Hn Hs _] Hle w same. rewrite controlWindowBounds_at in Hb by done. injection Hb as Hw He.
  subst same. destruct (bool_decide_reflect (us_windowStartAt st = w)) as [E|Hne].
  - exists (Z.to_nat (us_crossingSequence st)). rewrite <- E. cbn [andb]. split_and!; [lia|done|]. intros Hc. destruct Hs as [_ Hs]. specialize (Hs Hc). lia.
  - exists O. cbn [andb alternating crossings]. split_and!; [done| |done]. unfold keysIn.
    destruct (filter _ _) as [|k l] eqn:El; [done|]. exfalso. assert (Hk : k ∈ k :: l) by constructor. rewrite <- El in Hk.
    apply list_elem_of_filter in Hk as [Hk Hin]. apply list_elem_of_fmap in Hin as (e & -> & Hin).
    destruct (Hp e Hin) as (x & Ex & Hx). cbn in Hk. rewrite Ex in Hk. subst w. rewrite Hw in Hne. injection Hk as ->. apply Hne. f_equal. lia.
Qed.

(** An evaluation in the same or a later window keeps the events of the alert in order. *)
Lemma evaluateState_events interval t t' st rows lifetime aggregate delta threshold :
  interval_ok interval -> modern t -> modern t' -> events_ok interval t st rows -> startOf interval t <= startOf interval t' ->
  let '(st', ty) := evaluateState (controlWindowBounds interval t') lifetime aggregate delta threshold st in
  events_ok interval t' st' (recordEvaluation st' ty rows).
Proof.
  intros Hi Ht Ht' Hok Hle. destruct (events_before interval t t' st rows Hi Ht Ht' Hok Hle) as (n & En & Ek & Hn).
  destruct Hok as [_ Hp Hall _ _ Htr]. pose proof (controlWindowBounds_at interval t' Hi Ht') as Eb. unfold evaluateState.
  rewrite Eb. cbn [fst snd]. set (w := Some (startOf interval t')) in *.
  set (same := bool_decide (us_windowStartAt st = w)) in *. clearbody same.
  set (prior := same && us_crossed st) in *. clearbody prior.
  set (next := if 0 <? _ then _ else 0). clearbody next. rewrite <- En. clear En.
  assert (Hp' : forall e, e ∈ ar_events rows -> exists x, ue_windowStartAt e = Some x /\ x <= startOf interval t')
    by (intros e He; destruct (Hp e He) as (x & Ex & Hx); exists x; split; [done|lia]).
  assert (Hsnoc : forall e, ue_windowStartAt e = w -> (forall e', e' ∈ ar_events rows ++ [e] ->
    exists x, ue_windowStartAt e' = Some x /\ x <= startOf interval t')).
  { intros e He e' [H|H%list_elem_of_singleton]%elem_of_app; [auto|]. subst e'. exists (startOf interval t'). split; [done|lia]. }
  assert (Hwin : forall e m b, ue_windowStartAt e = w -> keysIn w (ar_events rows) ++ [eventKey e] = alternating w m b ->
    forall w', exists m b, keysIn w' (ar_events rows ++ [e]) = alternating w' m b).
  { intros e m b He Hm w'. rewrite keysIn_snoc, He. destruct (decide _) as [<-|]; [eauto|rewrite app_nil_r; apply Hall]. }
  destruct prior, (threshold <=? next); cbn [negb andb]; unfold recordEvaluation.
  - specialize (Hn eq_refl). constructor; cbn; try done; [by rewrite Nat2Z.id|lia].
  - specialize (Hn eq_refl). destruct n as [|n]; [lia|]. rewrite insertEvent_fresh by (eapply keysIn_fresh; [exact Ek|by right]).
    set (e := alertEvent _ _).
    assert (E : keysIn w (ar_events rows) ++ [eventKey e] = alternating w (S n) false) by (by rewrite Ek, alternating_rearm).
    constructor; cbn [ar_events ar_triggered us_windowStartAt us_windowEndAt us_crossingSequence us_crossed]; [done|by apply Hsnoc|by apply (Hwin e _ _ eq_refl E)| |lia|].
    + rewrite keysIn_snoc, decide_True, E, Nat2Z.id by done. done.
    + rewrite crossedIn_snoc. cbn. by rewrite app_nil_r.
  - rewrite insertEvent_fresh by (eapply keysIn_fresh; [exact Ek|left; cbn; lia]).
    set (e := alertEvent _ _).
    assert (E : keysIn w (ar_events rows) ++ [eventKey e] = alternating w (S n) true).
    { rewrite Ek, alternating_cross. unfold e, eventKey, alertEvent. cbn [ue_windowStartAt ue_crossingSequence ue_eventType us_windowStartAt us_crossingSequence].
      by rewrite Nat2Z.inj_succ. }
    constructor; cbn [ar_events ar_triggered us_windowStartAt us_windowEndAt us_crossingSequence us_crossed]; [done|by apply Hsnoc|by apply (Hwin e _ _ eq_refl E)| |lia|].
    + rewrite keysIn_snoc, decide_True, E by done. do 2 f_equal. lia.
    + rewrite crossedIn_snoc, Htr. done.
  - constructor; cbn; try done; [by rewrite Nat2Z.id|lia].
Qed.

(** ** What an alert counts *)

Definition covers (a : UsageAlertRow) (entity : option Z) : bool :=
  match ua_entityId a with None => true | Some _ => bool_decide (entity = ua_entityId a) end.

(** The usage of the alert's scope in its window of [t]. *)
Definition windowUsage (log : list UsageEvent) (a : UsageAlertRow) (t : Z) : Z :=
  sumIn (fun entity x => covers a entity && inWindow (ua_interval a) t x) log.

(** Nothing was used past the window the alert counts. *)
Definition idle_after (log : list UsageEvent) (a : UsageAlertRow) (t : Z) : Prop :=
  forall e, e ∈ log -> covers a (ev_entityId e) = true -> pastWindow (ua_interval a) t (countedAt e) = true -> ev_quantity e = 0.

Record count_ok (log : list UsageEvent) (a : UsageAlertRow) (threshold t : Z) (st : UsageAlertState) : Prop := {
  co_current : us_currentValue st = windowUsage log a t;
  co_threshold : us_thresholdValue st = threshold;
  co_crossed : us_crossed st = (threshold <=? us_currentValue st);
  co_idle : idle_after log a t }.

Lemma windowUsage_snoc log e a t : windowUsage (log ++ [e]) a t =
  windowUsage log a t + (if covers a (ev_entityId e) && inWindow (ua_interval a) t (countedAt e) then ev_quantity e else 0).
Proof. apply sumOf_snoc. Qed.

Lemma windowUsage_nonneg log a t : log_ok log -> 0 <= windowUsage log a t.
Proof. apply sumIn_nonneg. Qed.

Lemma readAlertWindowUsage_lifetime log a start : log_ok log -> ua_interval a = None -> forall t,
  readAlertWindowUsage log (ua_entityId a) start None = windowUsage log a t.
Proof.
  intros Hl Hi t. pose proof (windowUsage_nonneg log a t Hl) as Hn. unfold readAlertWindowUsage.
  assert (E : sumOf (inScope (ua_entityId a)) log = windowUsage log a t); [|lia]. apply sumOf_ext. intros e He.
  unfold inScope, covers, inWindow. rewrite Hi. by rewrite andb_true_r.
Qed.

(** The query of a window reads the usage counted in it. *)
Lemma readAlertWindowUsage_window log a t : log_ok log -> interval_ok (ua_interval a) -> modern t ->
  readAlertWindowUsage log (ua_entityId a) (controlWindowBounds (ua_interval a) t).1 (controlWindowBounds (ua_interval a) t).2
    = windowUsage log a t.
Proof.
  intros Hl Hi Ht. destruct (ua_interval a) as [c|] eqn:Ei; [|by apply readAlertWindowUsage_lifetime].
  rewrite controlWindowBounds_at by done. cbn [fst snd]. pose proof (windowUsage_nonneg log a t Hl) as Hn. unfold readAlertWindowUsage.
  assert (E : sumOf (fun e => inScope (ua_entityId a) e && recordedInWindow (Some (startOf (Some c) t)) (Some (Some (calendarWindowAt c t).2)) e) log
    = windowUsage log a t); [|lia].
  apply sumOf_ext. intros e He. pose proof (log_counted log e Hl He) as Hc. unfold inScope, covers, inWindow, recordedInWindow. rewrite Ei. f_equal. cbn [startOf].
  destruct (Z.leb_spec (calendarWindowAt c t).1 (countedAt e)); cbn; [|by rewrite andb_false_r].
  destruct (Z.leb_spec (calendarWindowAt c t).1 (ev_recordedAt e)); [done|lia].
Qed.

(** No usage of a later window has been counted yet. *)
Lemma windowUsage_idle log a t t' : interval_ok (ua_interval a) -> idle_after log a t ->
  startOf (ua_interval a) t < startOf (ua_interval a) t' -> windowUsage log a t' = 0.
Proof.
  intros Hi Hidle Hlt. apply sumOf_zero. intros e He Hs. apply andb_prop in Hs as [Hc Hw].
  apply Hidle; [done|done|]. by apply (later_window _ t t').
Qed.

Lemma idle_later log a t t' : interval_ok (ua_interval a) -> idle_after log a t ->
  startOf (ua_interval a) t <= startOf (ua_interval a) t' -> idle_after log a t'.
Proof.
  intros Hi Hidle Hle e He Hc Hp. apply Hidle; [done|done|]. revert Hp. destruct (ua_interval a) as [c|] eqn:Ei; [|done].
  destruct (Z.eq_dec (startOf (Some c) t) (startOf (Some c) t')) as [E|Hne].
  - cbn [pastWindow]. by rewrite (startOf_same c t t' Hi E).
  - destruct (later_window (Some c) t t' Hi ltac:(lia)) as [Hp _]. cbn [pastWindow interval_ok] in *.
    apply Z.leb_le in Hp. intros Hp'%Z.leb_le. apply Z.leb_le. pose proof (calendarWindowAt_contains c t' Hi). lia.
Qed.

(** An event outside the window, or of another scope, leaves the count right. *)
Lemma count_skip log e a threshold t st : count_ok log a threshold t st ->
  covers a (ev_entityId e) = false \/ ev_quantity e = 0 \/
    (inWindow (ua_interval a) t (countedAt e) = false /\ pastWindow (ua_interval a) t (countedAt e) = false) ->
  count_ok (log ++ [e]) a threshold t st.
Proof.
  intros [Hc Ht Hx Hidle] He. constructor; [|done|done|].
  - rewrite windowUsage_snoc, Hc. destruct He as [He|[He|[He _]]]; rewrite ?He, ?andb_false_r; cbn; [lia|destruct (_ && _); lia|lia].
  - intros e' [H|H%list_elem_of_singleton]%elem_of_app; [by apply Hidle|]. subst e'. intros Hcov Hpast.
    destruct He as [He|[He|[_ He]]]; congruence.
Qed.

(** Where a correction is counted past the window, the use it corrects is empty, and so is it. *)
Lemma idle_correction log e a t : log_ok (log ++ [e]) -> idle_after log a t -> is_Some (ev_original e) ->
  covers a (ev_entityId e) = true -> pastWindow (ua_interval a) t (countedAt e) = true -> ev_quantity e = 0.
Proof.
  intros Hl Hidle [oo Eo] Hc Hp. inversion Hl as [H|log' x _ Hu _ _ H|log' x o Hl' Hin Huo Eo' Een _ Hq Hrem _ H].
  - by destruct log.
  - apply app_inj_tail in H as [-> ->]. apply bool_decide_eq_true in Hu. congruence.
  - apply app_inj_tail in H as [-> ->]. assert (E : remaining log (ev_id o) = 0); [|lia].
    assert (Ho : countedAt e = countedAt o).
    { unfold countedAt. rewrite Eo'. apply bool_decide_eq_true in Huo. by rewrite Huo. }
    apply sumOf_zero. intros f Hf Hr. destruct (log_same log f o Hl' Hin Huo Hf Hr) as [Ef1 Ef2].
    apply Hidle; [done|congruence|congruence].
Qed.

(** The evaluation counts an event of the alert's scope in the window of [t']. *)
Lemma evaluateState_count log e a threshold t t' st start : log_ok (log ++ [e]) -> interval_ok (ua_interval a) -> modern t' ->
  count_ok log a threshold t st -> us_windowStartAt st = Some (startOf (ua_interval a) t) ->
  startOf (ua_interval a) t <= startOf (ua_interval a) t' -> covers a (ev_entityId e) = true ->
  inWindow (ua_interval a) t' (countedAt e) = true ->
  count_ok (log ++ [e]) a threshold t' (evaluateState (controlWindowBounds (ua_interval a) t') (bool_decide (ua_interval a = None))
    (readAlertWindowUsage (log ++ [e]) (ua_entityId a) start None) (ev_quantity e) threshold st).1.
Proof.
  intros Hl Hi Ht' [Hc Hth Hx Hidle] Hw Hle Hcov Hin. rewrite controlWindowBounds_at by done. unfold evaluateState. cbn [fst snd].
  pose proof (windowUsage_nonneg (log ++ [e]) a t' Hl) as Hn.
  assert (Ecur : windowUsage (log ++ [e]) a t' = (if bool_decide (us_windowStartAt st = Some (startOf (ua_interval a) t')) then us_currentValue st else 0) + ev_quantity e).
  { rewrite windowUsage_snoc, Hcov, Hin. cbn [andb]. f_equal. rewrite Hw.
    destruct (bool_decide_reflect (Some (startOf (ua_interval a) t) = Some (startOf (ua_interval a) t'))) as [E|Hne].
    - injection E as E. rewrite Hc. unfold windowUsage, inWindow. destruct (ua_interval a) as [c|]; [|done]. by rewrite (startOf_same c t t' Hi E).
    - apply (windowUsage_idle _ _ t t' Hi Hidle). assert (startOf (ua_interval a) t <> startOf (ua_interval a) t') by congruence. lia. }
  assert (Eagg : (if bool_decide (ua_interval a = None) then readAlertWindowUsage (log ++ [e]) (ua_entityId a) start None
    else (if bool_decide (us_windowStartAt st = Some (startOf (ua_interval a) t')) then us_currentValue st else 0) + ev_quantity e)
    = windowUsage (log ++ [e]) a t').
  { destruct (bool_decide_reflect (ua_interval a = None)) as [En|]; [|done]. by apply readAlertWindowUsage_lifetime. }
  rewrite Eagg. clear Eagg Ecur.
  assert (Emax : (if 0 <? windowUsage (log ++ [e]) a t' then windowUsage (log ++ [e]) a t' else 0) = windowUsage (log ++ [e]) a t')
    by (destruct (Z.ltb_spec 0 (windowUsage (log ++ [e]) a t')); lia).
  rewrite Emax. constructor; cbn [fst us_currentValue us_thresholdValue us_crossed]; try done.
  intros e' [H|H%list_elem_of_singleton]%elem_of_app; [by apply (idle_later log a t t')|]. subst e'. intros _ Hp.
  revert Hin Hp. destruct (ua_interval a) as [c|]; [|done]. cbn [inWindow pastWindow]. intros [_ Hb%Z.ltb_lt]%andb_prop Hp%Z.leb_le. lia.
Qed.

(** ** The rows of an alert *)

(** What an active alert was created with. *)
Record alert_fit (a : UsageAlertRow) : Prop := {
  af_interval : interval_ok (ua_interval a);
  af_canonical : canonicalDecimal (ua_thresholdValue a) "alert threshold" 9 = Ok (ua_thresholdValue a);
  af_positive : exists units, decimalToUnits (ua_thresholdValue a) 9 = Ok units /\ 0 < units }.

Definition alert_ok (log : list UsageEvent) (time : Z) (a : UsageAlertRow) (rows : AlertRows) : Prop :=
  exists t st, ar_state rows = Some st /\ modern t /\ t <= time /\ events_ok (ua_interval a) t st rows /\
    (ua_thresholdType a = absolute -> exists threshold, decimalToUnits (ua_thresholdValue a) 9 = Ok threshold /\
      count_ok log a threshold t st).

Lemma alert_ok_later log time time' a rows : time <= time' -> alert_ok log time a rows -> alert_ok log time' a rows.
Proof. intros Hle (t & st & Hs & Ht & Htt & Hrest). exists t, st. split_and!; [done|done|lia|apply Hrest..]. Qed.

Lemma events_ok_start interval t st rows : interval_ok interval -> modern t -> events_ok interval t st rows ->
  us_windowStartAt st = Some (startOf interval t).
Proof. intros Hi Ht Hok. pose proof (eo_bounds _ _ _ _ Hok) as Hb. rewrite controlWindowBounds_at in Hb by done. by injection Hb. Qed.

Lemma recordEvaluation_state st ty rows : ar_state (recordEvaluation st ty rows) = Some st.
Proof. done. Qed.

(** An evaluation that goes ahead. *)
Lemma evaluate_ok log e controls a rows t t' st correcting rows' :
  alert_fit a -> log_ok (log ++ [e]) -> covers a (ev_entityId e) = true -> inWindow (ua_interval a) t' (countedAt e) = true ->
  modern t -> modern t' -> startOf (ua_interval a) t <= startOf (ua_interval a) t' -> ar_state rows = Some st ->
  events_ok (ua_interval a) t st rows ->
  (ua_thresholdType a = absolute -> exists threshold, decimalToUnits (ua_thresholdValue a) 9 = Ok threshold /\ count_ok log a threshold t st) ->
  evaluateAlert (log ++ [e]) controls (ev_quantity e) correcting t' a rows = Ok rows' ->
  (correcting = true -> startOf (ua_interval a) t = startOf (ua_interval a) t') ->
  (rows' = rows /\ ua_thresholdType a = percentage) \/
  exists st', ar_state rows' = Some st' /\ events_ok (ua_interval a) t' st' rows' /\
    (ua_thresholdType a = absolute -> exists threshold, decimalToUnits (ua_thresholdValue a) 9 = Ok threshold /\ count_ok (log ++ [e]) a threshold t' st').
Proof.
  intros [Hi Hcan _] Hl Hcov Hin Ht Ht' Hle Hst Hev Hcount H Hsame.
  pose proof (events_ok_start _ _ _ _ Hi Ht Hev) as Hw. unfold evaluateAlert in H. apply bind_Ok in H as (o & Eo & H).
  destruct o as [txt|].
  2:{ left. unfold alertThreshold in Eo. apply bind_Ok in Eo as (txt & _ & Eo). destruct (ua_thresholdType a); [done|].
      split; [|done]. congruence. }
  apply bind_Ok in H as (units & Eu & H). rewrite Hst in H. right.
  assert (Hgo : correcting && negb (bool_decide (us_windowStartAt st = fst (controlWindowBounds (ua_interval a) t'))) = false).
  { destruct correcting; [|done]. rewrite controlWindowBounds_at, Hw, Hsame by done. cbn [fst]. by rewrite bool_decide_true. }
  rewrite Hgo in H.
  destruct (evaluateState _ _ _ _ _ _) as [st' ty] eqn:Es. injection H as <-. exists st'. split; [done|]. split.
  - pose proof (evaluateState_events (ua_interval a) t t' st rows (bool_decide (ua_interval a = None))
      (readAlertWindowUsage (log ++ [e]) (ua_entityId a) (fst (controlWindowBounds (ua_interval a) t')) None)
      (ev_quantity e) units Hi Ht Ht' Hev Hle) as HE.
    rewrite Es in HE. exact HE.
  - intros Habs. destruct (Hcount Habs) as (thr & Ethr & Hc). exists thr. split; [done|].
    assert (units = thr) as ->.
    { unfold alertThreshold in Eo. apply bind_Ok in Eo as (txt' & Ec & Eo). rewrite Hcan in Ec. rewrite Habs in Eo. congruence. }
    pose proof (evaluateState_count log e a thr t t' st (fst (controlWindowBounds (ua_interval a) t')) Hl Hi Ht' Hc Hw Hle Hcov Hin) as HC.
    rewrite Es in HC. exact HC.
Qed.

(** A use counts in the window of the write. *)
Lemma evaluate_use log e controls a rows time t' rows' :
  alert_fit a -> log_ok (log ++ [e]) -> covers a (ev_entityId e) = true -> inWindow (ua_interval a) t' (countedAt e) = true ->
  modern t' -> time <= t' -> alert_ok log time a rows ->
  evaluateAlert (log ++ [e]) controls (ev_quantity e) false t' a rows = Ok rows' -> alert_ok (log ++ [e]) t' a rows'.
Proof.
  intros Hfit Hl Hcov Hin Ht' Hle (t & st & Hs & Ht & Htt & Hev & Hc) H.
  destruct (evaluate_ok log e controls a rows t t' st false rows') as [[-> Hp]|(st' & Hst' & Hev' & Hc')];
    try done; [apply startOf_mono; [apply Hfit|lia]| |].
  - exists t, st. split_and!; [done|done|lia|done|]. congruence.
  - exists t', st'. split_and!; [done|done|lia|done|done].
Qed.

(** A correction counts in the window of the use it corrects, while the alert counts that window. *)
Lemma evaluate_correction log e controls a rows time rows' :
  alert_fit a -> log_ok (log ++ [e]) -> is_Some (ev_original e) -> covers a (ev_entityId e) = true ->
  modern (countedAt e) -> countedAt e <= time -> alert_ok log time a rows ->
  evaluateAlert (log ++ [e]) controls (ev_quantity e) true (countedAt e) a rows = Ok rows' -> alert_ok (log ++ [e]) time a rows'.
Proof.
  intros Hfit Hl Ho Hcov Ht' Hle (t & st & Hs & Ht & Htt & Hev & Hc) H. pose proof (af_interval a Hfit) as Hi.
  pose proof (inWindow_start (ua_interval a) t (countedAt e) Hi) as Hws.
  assert (Hself : inWindow (ua_interval a) (countedAt e) (countedAt e) = true) by (by apply inWindow_start).
  destruct (Z.eq_dec (startOf (ua_interval a) t) (startOf (ua_interval a) (countedAt e))) as [E|Hne].
  - destruct (evaluate_ok log e controls a rows t (countedAt e) st true rows') as [[-> Hp]|(st' & Hst' & Hev' & Hc')]; try done; [lia| |].
    + exists t, st. split_and!; [done|done|done|done|]. congruence.
    + exists (countedAt e), st'. split_and!; [done|done|done|done|done].
  - assert (rows' = rows) as ->.
    { unfold evaluateAlert in H. apply bind_Ok in H as ([txt|] & _ & H); [|congruence]. apply bind_Ok in H as (units & _ & H).
      rewrite Hs, controlWindowBounds_at, (events_ok_start _ _ _ _ Hi Ht Hev) in H by done. cbn [fst snd] in H.
      rewrite bool_decide_false in H by congruence. cbn [andb negb] in H. congruence. }
    exists t, st. split_and!; try done. intros Habs. destruct (Hc Habs) as (thr & Ethr & Hcount). exists thr. split; [done|].
    apply count_skip; [done|]. destruct (pastWindow (ua_interval a) t (countedAt e)) eqn:Ep.
    + right; left. apply (idle_correction log e a t); try done. apply Hcount.
    + right; right. split; [|done]. destruct (inWindow (ua_interval a) t (countedAt e)) eqn:Ein; [|done].
      destruct Hne. symmetry. by apply Hws.
Qed.

(** ** The loop over the alerts *)

Lemma rowsOf_with s id rows id' : rowsOf (withRows s id rows) id' = if decide (id' = id) then rows else rowsOf s id'.
Proof.
  unfold rowsOf, withRows. cbn. destruct (decide _) as [->|]; [by rewrite lookup_insert_eq|by rewrite lookup_insert_ne].
Qed.

(** Each alert of the list is evaluated once, on its own rows. *)
Lemma evaluateLoop controlsOf delta correcting t l s s' : NoDup (map ua_id l) ->
  foldM (evaluateStep controlsOf delta correcting t) l s = Ok s' ->
  al_log s' = al_log s /\ al_alerts s' = al_alerts s /\
  (forall id, id ∉ map ua_id l -> rowsOf s' id = rowsOf s id) /\
  forall a, a ∈ l -> evaluateAlert (al_log s) (controlsOf (ua_entityId a)) delta correcting t a (rowsOf s (ua_id a)) = Ok (rowsOf s' (ua_id a)).
Proof.
  revert s. induction l as [|a l IH]; intros s Hnd H; cbn [foldM map] in *.
  - injection H as <-. split_and!; try done. by intros a ?%elem_of_nil.
  - apply NoDup_cons in Hnd as [Ha Hnd]. apply bind_Ok in H as (s1 & H1 & H). unfold evaluateStep at 1 in H1.
    apply bind_Ok in H1 as (rows & Hr & [= <-]). destruct (IH _ Hnd H) as (El & Ea & Hother & Hall). cbn [al_log al_alerts withRows] in *.
    split_and!; [done|done| |].
    + intros id Hid. apply not_elem_of_cons in Hid as [Hne Hid]. rewrite Hother, rowsOf_with, decide_False by done. done.
    + intros b [->|Hb]%elem_of_cons.
      * rewrite Hother, rowsOf_with, decide_True by done. done.
      * specialize (Hall b Hb). rewrite rowsOf_with, decide_False in Hall; [done|].
        intros E. apply Ha. rewrite <- E. by apply list_elem_of_fmap_2.
Qed.

(** ** Runs *)

Record Monitor := { mo_store : AlertStore; mo_time : Z }.

(** A write's [now] and the time its event is recorded at fall in the same window of every
    alert; [q] is the quantity [delta] reads as. *)
Inductive step : Monitor -> Monitor -> Prop :=
  | step_create m controls now a s' : mo_time m <= now -> modern now -> interval_ok (ua_interval a) ->
      ua_id a ∉ map ua_id (al_alerts (mo_store m)) -> createUsageAlert controls now a (mo_store m) = Ok s' ->
      step m {| mo_store := s'; mo_time := now |}
  | step_use m controlsOf e delta now s' : ev_original e = None -> 0 <= ev_quantity e ->
      ev_id e ∉ map ev_id (al_log (mo_store m)) -> mo_time m <= ev_recordedAt e -> mo_time m <= now -> modern (ev_recordedAt e) -> modern now ->
      (forall a, a ∈ al_alerts (mo_store m) -> inWindow (ua_interval a) now (ev_recordedAt e) = true) ->
      signedDecimalToUnits delta 9 = Ok (ev_quantity e) ->
      recordUsageAlertDelta controlsOf (ev_entityId e) delta now None (recordEvent e (mo_store m)) = Ok s' ->
      step m {| mo_store := s'; mo_time := Z.max now (ev_recordedAt e) |}
  | step_correct m controlsOf e o delta now s' : o ∈ al_log (mo_store m) -> isUse o = true ->
      ev_original e = Some (ev_id o, ev_recordedAt o) -> ev_entityId e = ev_entityId o -> ev_recordedAt o <= ev_recordedAt e ->
      ev_quantity e <= 0 -> 0 <= remaining (al_log (mo_store m)) (ev_id o) + ev_quantity e ->
      ev_id e ∉ map ev_id (al_log (mo_store m)) -> signedDecimalToUnits delta 9 = Ok (ev_quantity e) ->
      recordUsageAlertDelta controlsOf (ev_entityId e) delta now (Some (ev_recordedAt o)) (recordEvent e (mo_store m)) = Ok s' ->
      step m {| mo_store := s'; mo_time := mo_time m |}.

Inductive reachable : Monitor -> Prop :=
  | reach_start : reachable {| mo_store := {| al_log := []; al_alerts := []; al_rows := ∅ |}; mo_time := 0 |}
  | reach_step m m' : reachable m -> step m m' -> reachable m'.

Record monitor_ok (m : Monitor) : Prop := {
  mk_log : log_ok (al_log (mo_store m));
  mk_times : forall e, e ∈ al_log (mo_store m) -> modern (countedAt e) /\ countedAt e <= mo_time m;
  mk_ids : NoDup (map ua_id (al_alerts (mo_store m)));
  mk_alerts : forall a, a ∈ al_alerts (mo_store m) -> alert_fit a /\
    alert_ok (al_log (mo_store m)) (mo_time m) a (rowsOf (mo_store m) (ua_id a)) }.

Lemma alert_skip log e time a rows : alert_ok log time a rows -> covers a (ev_entityId e) = false \/ ev_quantity e = 0 ->
  alert_ok (log ++ [e]) time a rows.
Proof.
  intros (t & st & Hs & Ht & Htt & Hev & Hc) He. exists t, st. split_and!; try done. intros Habs.
  destruct (Hc Habs) as (thr & Ethr & Hcount). exists thr. split; [done|]. apply count_skip; [done|]. tauto.
Qed.

Lemma elem_of_query entity s a : a ∈ queryUsageAlerts entity s <-> a ∈ al_alerts s /\ covers a entity = true.
Proof.
  unfold queryUsageAlerts, covers. rewrite list_elem_of_In, filter_In, <- list_elem_of_In.
  destruct (ua_entityId a); [|done]. split; intros [H1 H2]; (split; [done|]); apply bool_decide_eq_true in H2; by apply bool_decide_eq_true.
Qed.

(** A write that evaluates the alerts keeps them right, when each evaluation does. *)
Lemma record_ok controlsOf e delta now corrects s s' time time' :
  (forall a, a ∈ al_alerts s -> alert_fit a /\ alert_ok (al_log s) time a (rowsOf s (ua_id a))) -> NoDup (map ua_id (al_alerts s)) ->
  time <= time' -> signedDecimalToUnits delta 9 = Ok (ev_quantity e) ->
  recordUsageAlertDelta controlsOf (ev_entityId e) delta now corrects (recordEvent e s) = Ok s' ->
  (forall a rows', a ∈ al_alerts s -> covers a (ev_entityId e) = true -> alert_fit a ->
    alert_ok (al_log s) time a (rowsOf s (ua_id a)) ->
    evaluateAlert (al_log s ++ [e]) (controlsOf (ua_entityId a)) (ev_quantity e) (bool_decide (is_Some corrects)) (default now corrects) a (rowsOf s (ua_id a)) = Ok rows' ->
    alert_ok (al_log s ++ [e]) time' a rows') ->
  al_log s' = al_log s ++ [e] /\ al_alerts s' = al_alerts s /\
  forall a, a ∈ al_alerts s -> alert_fit a /\ alert_ok (al_log s ++ [e]) time' a (rowsOf s' (ua_id a)).
Proof.
  intros Hall Hnd Hle Hd H Heval. unfold recordUsageAlertDelta in H. rewrite Hd in H. apply bind_Ok in H as (q & [= <-] & H).
  destruct (Z.eqb_spec (ev_quantity e) 0) as [E|Hne].
  - injection H as <-. split_and!; [done|done|]. intros a Ha. destruct (Hall a Ha) as [Hf Ha']. split; [done|].
    apply (alert_ok_later _ time); [done|]. apply alert_skip; [done|by right].
  - destruct (evaluateLoop _ _ _ _ _ _ _ (NoDup_filter_key ua_id _ _ Hnd : NoDup (map ua_id (queryUsageAlerts _ (recordEvent e s)))) H)
      as (El & Ea & Hother & Hin). cbn [recordEvent al_log al_alerts] in *.
    split_and!; [done|done|]. intros a Ha. destruct (Hall a Ha) as [Hf Ha']. split; [done|].
    destruct (covers a (ev_entityId e)) eqn:Ec.
    + apply Heval; try done. apply Hin, elem_of_query. done.
    + rewrite Hother.
      * apply (alert_ok_later _ time); [done|]. apply alert_skip; [done|by left].
      * intros (b & Eb & Hb)%list_elem_of_fmap. apply elem_of_query in Hb as [Hb Hcb].
        pose proof (NoDup_key_inj ua_id _ a b Hnd Ha Hb Eb) as ->. congruence.
Qed.

(** ** Creating an alert *)

Lemma createUsageAlert_shape controls now a s s' : createUsageAlert controls now a s = Ok s' ->
  exists threshold units value, canonicalDecimal (ua_thresholdValue a) "thresholdValue" 9 = Ok threshold /\
    decimalToUnits threshold 9 = Ok units /\ 0 < units /\ (ua_thresholdType a = absolute -> value = units) /\
    let bounds := controlWindowBounds (ua_interval a) now in
    let used := readAlertWindowUsage (al_log s) (ua_entityId a) (fst bounds) (snd bounds) in
    let crossed := value <=? used in
    let st := {| us_windowStartAt := fst bounds; us_windowEndAt := snd bounds; us_currentValue := used;
      us_thresholdValue := value; us_crossed := crossed; us_crossingSequence := if crossed then 1 else 0 |} in
    s' = {| al_log := al_log s; al_alerts := al_alerts s ++ [withThreshold threshold a];
      al_rows := <[ ua_id a := {| ar_state := Some st; ar_events := if crossed then [alertEvent st threshold_crossed] else [];
        ar_triggered := if crossed then [(fst bounds, 1)] else [] |} ]> (al_rows s) |}.
Proof.
  unfold createUsageAlert. intros H. apply bind_Ok in H as (threshold & Et & H). apply bind_Ok in H as (units & Eu & H).
  apply bind_Ok in H as (u1 & H1 & H). apply throwWhen_Ok in H1. apply bind_Ok in H as (u2 & _ & H).
  apply bind_Ok in H as (txt & Etxt & H). apply bind_Ok in H as (value & Ev & H).
  exists threshold, units, value. split_and!; [done|done|apply Z.leb_gt; done| |by injection H].
  intros Ha. rewrite Ha in Etxt. congruence.
Qed.

Lemma create_events interval now st rows value used : interval_ok interval -> modern now ->
  st = {| us_windowStartAt := (controlWindowBounds interval now).1; us_windowEndAt := (controlWindowBounds interval now).2;
    us_currentValue := used; us_thresholdValue := value; us_crossed := value <=? used;
    us_crossingSequence := if value <=? used then 1 else 0 |} ->
  rows = {| ar_state := Some st; ar_events := if value <=? used then [alertEvent st threshold_crossed] else [];
    ar_triggered := if value <=? used then [((controlWindowBounds interval now).1, 1)] else [] |} ->
  events_ok interval now st rows.
Proof.
  intros Hi Hn -> ->. rewrite controlWindowBounds_at by done. destruct (value <=? used); constructor; cbn [fst snd ar_events ar_triggered us_windowStartAt us_windowEndAt us_crossingSequence us_crossed].
  - by rewrite controlWindowBounds_at.
  - intros e He%list_elem_of_singleton. subst e. exists (startOf interval now). split; [done|lia].
  - intros w. destruct (decide (Some (startOf interval now) = w)) as [<-|Hne].
    + exists 1%nat, true. unfold keysIn. cbn. by rewrite decide_True.
    + exists O, false. unfold keysIn. cbn. by rewrite decide_False.
  - unfold keysIn. cbn. by rewrite decide_True.
  - lia.
  - done.
  - by rewrite controlWindowBounds_at.
  - by intros e ?%elem_of_nil.
  - intros w. by exists O, false.
  - done.
  - done.
  - done.
Qed.

Lemma create_ok controls now a m s' : monitor_ok m -> mo_time m <= now -> modern now -> interval_ok (ua_interval a) ->
  ua_id a ∉ map ua_id (al_alerts (mo_store m)) -> createUsageAlert controls now a (mo_store m) = Ok s' ->
  monitor_ok {| mo_store := s'; mo_time := now |}.
Proof.
  intros [Hl Ht Hnd Hall] Hle Hn Hi Hid H. apply createUsageAlert_shape in H as (threshold & units & value & Ec & Eu & Hu & Hv & ->).
  constructor; cbn [mo_store mo_time al_log al_alerts]; [done| | |].
  - intros e He. destruct (Ht e He). split; [done|lia].
  - rewrite map_app. cbn. apply NoDup_app. split_and!; [done| |by apply NoDup_singleton]. intros x Hx Hx'%list_elem_of_singleton. by subst.
  - intros b [Hb|Hb%list_elem_of_singleton]%elem_of_app.
    + destruct (Hall b Hb) as [Hf Hok]. split; [done|]. apply (alert_ok_later _ (mo_time m)); [done|].
      unfold rowsOf. cbn [al_rows]. rewrite lookup_insert_ne; [done|]. intros E. apply Hid. rewrite E. by apply list_elem_of_fmap_2.
    + subst b. split.
      { constructor; cbn; [done|by apply (canonicalDecimal_again _ _ _ _ _ Ec)|eauto]. }
      unfold rowsOf. cbn [al_rows withThreshold ua_id]. rewrite lookup_insert_eq. cbn [default].
      eexists now, _. split_and!; [done|done|lia|by eapply create_events|]. intros Habs. cbn in Habs. specialize (Hv Habs). subst value.
      exists units. split; [done|]. pose proof (readAlertWindowUsage_window (al_log (mo_store m)) a now Hl Hi Hn) as Er.
      constructor; cbn [us_currentValue us_thresholdValue us_crossed]; [by rewrite Er|done|done|].
      intros e He _ Hp. exfalso. destruct (Ht e He) as [_ Hte]. revert Hp. cbn. destruct (ua_interval a) as [c|]; [|done]. cbn.
      intros Hp%Z.leb_le. pose proof (calendarWindowAt_contains c now Hi). lia.
Qed.

Lemma monitor_step_ok m m' : monitor_ok m -> step m m' -> monitor_ok m'.
Proof.
  intros Hm H. destruct H as [m controls now a s' Hle Hn Hi Hid H
    |m controlsOf e delta now s' Eo Hq Hid Hr Hle Hmr Hmn Hw Hd H|m controlsOf e o delta now s' Ho Hu Eo Een Hr Hq Hrem Hid Hd H].
  - by eapply create_ok.
  - destruct Hm as [Hl Ht Hnd Hall]. assert (Hl' : log_ok (al_log (mo_store m) ++ [e])) by (apply log_use; try done; by apply bool_decide_eq_true).
    assert (Ec : countedAt e = ev_recordedAt e) by (unfold countedAt; by rewrite Eo).
    destruct (record_ok _ e _ _ _ (mo_store m) s' (mo_time m) (Z.max now (ev_recordedAt e)) Hall Hnd ltac:(lia) Hd H) as (El & Ea & Hok).
    { intros a rows' Ha Hcov Hf Haok Hev. apply (alert_ok_later _ now); [lia|].
      apply (evaluate_use _ _ (controlsOf (ua_entityId a)) _ (rowsOf (mo_store m) (ua_id a)) (mo_time m)); try done. rewrite Ec. by apply Hw. }
    constructor; cbn [mo_store mo_time]; [by rewrite El| |by rewrite Ea|rewrite El, Ea; done].
    intros x. rewrite El. intros [Hx|Hx%list_elem_of_singleton]%elem_of_app; [destruct (Ht x Hx); split; [done|lia]|].
    subst x. rewrite Ec. split; [done|lia].
  - destruct Hm as [Hl Ht Hnd Hall]. assert (Hl' : log_ok (al_log (mo_store m) ++ [e])) by (by apply (log_correct _ _ o)).
    assert (Ec : countedAt e = ev_recordedAt o) by (unfold countedAt; by rewrite Eo).
    assert (Eco : countedAt o = ev_recordedAt o).
    { unfold countedAt. apply bool_decide_eq_true in Hu. by rewrite Hu. }
    destruct (Ht o Ho) as [Hto1 Hto2]. rewrite Eco in Hto1, Hto2.
    destruct (record_ok _ e _ _ _ (mo_store m) s' (mo_time m) (mo_time m) Hall Hnd ltac:(lia) Hd H) as (El & Ea & Hok).
    { intros a rows' Ha Hcov Hf Haok Hev. rewrite <- Ec in Hev. cbn [default] in Hev. rewrite bool_decide_true in Hev by (by eexists).
      apply (evaluate_correction _ _ (controlsOf (ua_entityId a)) _ (rowsOf (mo_store m) (ua_id a))); try done; rewrite ?Ec, ?Eo; done. }
    constructor; cbn [mo_store mo_time]; [by rewrite El| |by rewrite Ea|rewrite El, Ea; done].
    intros x. rewrite El. intros [Hx|Hx%list_elem_of_singleton]%elem_of_app; [by apply Ht|]. subst x. by rewrite Ec.
Qed.

Lemma monitor_reachable_ok m : reachable m -> monitor_ok m.
Proof.
  induction 1 as [|m m' _ IH H]; [|by eapply monitor_step_ok]. constructor; cbn.
  - constructor.
  - by intros e ?%elem_of_nil.
  - constructor.
  - by intros a ?%elem_of_nil.
Qed.

(** ** What alerts report *)

(** C38: An absolute alert counts its window from the window's start: at any later time,
    [listUsageAlerts] reports the usage that the query of the current window reads from the
    recorded events (whatever uses and corrections ran since the alert was created, in
    whatever window the corrected use was recorded), and reports the alert crossed when
    that usage has reached the threshold.  This is of histories in which the application's
    clock, which chooses the window a write counts in, and the database's, which dates its
    event, are in the same window of each alert and neither runs behind an earlier write's:
    a write at a boundary whose clocks straddle it is counted in the wrong window, and is
    outside the claim (the example [straddled_boundary_miscounts], a reported finding). *)
Theorem alert_reports_window_usage m a now threshold : reachable m -> a ∈ al_alerts (mo_store m) ->
  ua_thresholdType a = absolute -> decimalToUnits (ua_thresholdValue a) 9 = Ok threshold -> mo_time m <= now -> modern now ->
  let bounds := controlWindowBounds (ua_interval a) now in
  let used := readAlertWindowUsage (al_log (mo_store m)) (ua_entityId a) (fst bounds) (snd bounds) in
  reportedAlert now (rowsOf (mo_store m) (ua_id a)) = (used, threshold <=? used).
Proof.
  intros [Hl Ht _ Hall]%monitor_reachable_ok Ha Habs Eth Hle Hn bounds used.
  destruct (Hall a Ha) as [[Hi _ (u & Eu & Hu)] (t & st & Hs & Hmt & Htt & Hev & Hc)].
  destruct (Hc Habs) as (thr & Ethr & [Hcur _ Hx Hidle]). assert (thr = threshold) as -> by congruence.
  assert (u = threshold) as -> by congruence. clear Ethr Eu.
  assert (Eused : used = windowUsage (al_log (mo_store m)) a now) by (by apply readAlertWindowUsage_window). clearbody used. subst used.
  pose proof (eo_bounds _ _ _ _ Hev) as Hb. rewrite controlWindowBounds_at in Hb by done. injection Hb as Hbs Hbe.
  unfold reportedAlert. rewrite Hs, Hbe. destruct (ua_interval a) as [c|] eqn:Ei.
  - cbn [interval_ok] in Hi. pose proof (calendarWindowAt_contains c t Hi) as Hct. destruct (Z.leb_spec (calendarWindowAt c t).2 now) as [Hpast|Hin].
    + pose proof (calendarWindowAt_contains c now Hi).
      assert (E0 : windowUsage (al_log (mo_store m)) a now = 0); [|rewrite E0; f_equal; symmetry; apply Z.leb_gt; lia].
      apply (windowUsage_idle _ _ t now); [by rewrite Ei|done|]. rewrite Ei. cbn [startOf].
      destruct (Z.le_gt_cases (calendarWindowAt c now).1 (calendarWindowAt c t).1) as [Hle'|]; [|lia].
      rewrite (calendarWindowAt_same c now t Hi) in Hct by lia. rewrite (calendarWindowAt_same c now t Hi) in Hpast by lia. lia.
    + assert (E : windowUsage (al_log (mo_store m)) a now = windowUsage (al_log (mo_store m)) a t).
      { unfold windowUsage, inWindow. rewrite Ei. by rewrite (calendarWindowAt_same c t now Hi) by lia. }
      by rewrite E, Hx, Hcur.
  - assert (E : windowUsage (al_log (mo_store m)) a now = windowUsage (al_log (mo_store m)) a t) by (unfold windowUsage; by rewrite Ei).
    by rewrite E, Hx, Hcur.
Qed.

(** In every window, the events of an alert are a crossing numbered one, its rearming, a
    crossing numbered two, and so on, without gaps, repetitions or lost rows; the alert's own
    state ends the sequence of its window, and subscribers are told each crossing exactly
    once. *)
Theorem alert_events_alternate m a : reachable m -> a ∈ al_alerts (mo_store m) ->
  let rows := rowsOf (mo_store m) (ua_id a) in
  (forall w, exists n b, keysIn w (ar_events rows) = alternating w n b) /\
  (exists st, ar_state rows = Some st /\ keysIn (us_windowStartAt st) (ar_events rows) =
    alternating (us_windowStartAt st) (Z.to_nat (us_crossingSequence st)) (us_crossed st)) /\
  ar_triggered rows = crossedIn (ar_events rows).
Proof.
  intros [_ _ _ Hall]%monitor_reachable_ok Ha. destruct (Hall a Ha) as [_ (t & st & Hs & _ & _ & Hev & _)].
  split; [apply Hev|]. split; [|apply Hev]. exists st. split; [done|apply Hev].
Qed.

(** *** A run: ten units in March against a threshold of eight, three taken back in April *)

Definition resultOr {A} (d : A) (r : result A) : A := match r with Ok a => a | Err _ => d end.
Definition march : Z := 1741608000000. (* 2025-03-10T12:00Z *)
Definition april : Z := 1744286400000. (* 2025-04-10T12:00Z *)
Definition monthlyAlert : UsageAlertRow :=
  {| ua_id := 1; ua_entityId := None; ua_interval := Some {| c_unit := month; c_count := 1 |}; ua_thresholdType := absolute;
     ua_thresholdValue := js "8"; ua_featureKey := "calls" |}.
Definition lifetimeAlert : UsageAlertRow :=
  {| ua_id := 2; ua_entityId := Some 7; ua_interval := None; ua_thresholdType := absolute;
     ua_thresholdValue := js "8"; ua_featureKey := "calls" |}.
Definition tenUnits : UsageEvent :=
  {| ev_id := 1; ev_entityId := Some 7; ev_recordedAt := march; ev_original := None; ev_quantity := 10 * 10 ^ 9 |}.
Definition threeBack : UsageEvent :=
  {| ev_id := 2; ev_entityId := Some 7; ev_recordedAt := april; ev_original := Some (1, march); ev_quantity := - (3 * 10 ^ 9) |}.
Definition noAlerts : AlertStore := {| al_log := []; al_alerts := []; al_rows := ∅ |}.
Definition runStore : AlertStore :=
  let s1 := resultOr noAlerts (createUsageAlert [] march monthlyAlert noAlerts) in
  let s2 := resultOr noAlerts (createUsageAlert [] march lifetimeAlert s1) in
  let s3 := resultOr noAlerts (recordUsageAlertDelta (fun _ => []) (Some 7) (js "10") march None (recordEvent tenUnits s2)) in
  resultOr noAlerts (recordUsageAlertDelta (fun _ => []) (Some 7) (js "-3") april (Some march) (recordEvent threeBack s3)).

Ltac modern_now := unfold modern, march, april; lia.

Lemma runStore_reachable : reachable {| mo_store := runStore; mo_time := march |}.
Proof.
  set (s1 := resultOr noAlerts (createUsageAlert [] march monthlyAlert noAlerts)).
  set (s2 := resultOr noAlerts (createUsageAlert [] march lifetimeAlert s1)).
  set (s3 := resultOr noAlerts (recordUsageAlertDelta (fun _ => []) (Some 7) (js "10") march None (recordEvent tenUnits s2))).
  apply reach_step with {| mo_store := s3; mo_time := march |}.
  2:{ apply (step_correct {| mo_store := s3; mo_time := march |} (fun _ => []) threeBack tenUnits (js "-3") april runStore); try (vm_compute; reflexivity); try (vm_compute; discriminate).
      - vm_compute. constructor.
      - cbn. intros H%list_elem_of_singleton. discriminate. }
  apply reach_step with {| mo_store := s2; mo_time := march |}.
  2:{ change march with (Z.max march (ev_recordedAt tenUnits)) at 2.
      apply (step_use {| mo_store := s2; mo_time := march |} (fun _ => []) tenUnits (js "10") march s3);
        [done|cbn; lia| |cbn; modern_now|cbn; modern_now|cbn; modern_now|modern_now| |vm_compute; reflexivity|vm_compute; reflexivity].
      - vm_compute. by intros ?%elem_of_nil.
      - intros a Ha. vm_compute in Ha. repeat (apply elem_of_cons in Ha as [->|Ha]; [vm_compute; reflexivity|]). by apply elem_of_nil in Ha. }
  apply reach_step with {| mo_store := s1; mo_time := march |}.
  2:{ apply (step_create {| mo_store := s1; mo_time := march |} [] march lifetimeAlert s2); [cbn; lia|modern_now|done|cbn|vm_compute; reflexivity].
      vm_compute. intros H%list_elem_of_singleton. discriminate. }
  apply reach_step with {| mo_store := noAlerts; mo_time := 0 |}; [constructor|].
  apply (step_create {| mo_store := noAlerts; mo_time := 0 |} [] march monthlyAlert s1); [cbn; modern_now|modern_now|unfold interval_ok, cadence_ok, maxCadenceCount; cbn; lia|by intros ?%elem_of_nil|vm_compute; reflexivity].
Qed.

Lemma alert_reports_window_usage_witness :
  reportedAlert march (rowsOf runStore 1) = (7 * 10 ^ 9, false) /\ reportedAlert april (rowsOf runStore 1) = (0, false) /\
  reportedAlert april (rowsOf runStore 2) = (7 * 10 ^ 9, false) /\
  let bounds := controlWindowBounds (ua_interval monthlyAlert) march in
  let used := readAlertWindowUsage (al_log runStore) None (fst bounds) (snd bounds) in
  reportedAlert march (rowsOf runStore 1) = (used, 8 * 10 ^ 9 <=? used).
Proof.
  do 3 (split; [vm_compute; reflexivity|]).
  apply (alert_reports_window_usage _ monthlyAlert march (8 * 10 ^ 9) runStore_reachable).
  - vm_compute. constructor.
  - reflexivity.
  - vm_compute. reflexivity.
  - cbn. lia.
  - modern_now.
Defined.

Lemma alert_events_alternate_witness :
  map eventKey (ar_events (rowsOf runStore 1)) =
    [(Some 1740787200000, 1, threshold_crossed); (Some 1740787200000, 1, threshold_rearmed)] /\
  ar_triggered (rowsOf runStore 1) = [(Some 1740787200000, 1)] /\
  ar_triggered (rowsOf runStore 1) = crossedIn (ar_events (rowsOf runStore 1)).
Proof.
  do 2 (split; [vm_compute; reflexivity|]).
  assert (Ha : monthlyAlert ∈ al_alerts runStore) by (vm_compute; constructor).
  exact (proj2 (proj2 (alert_events_alternate _ monthlyAlert runStore_reachable Ha))).
Defined.

(** *** A write whose clocks straddle the end of March *)

Definition aprilStart : Z := 1743465600000.
Definition lateUnits : UsageEvent :=
  {| ev_id := 1; ev_entityId := None; ev_recordedAt := aprilStart - 1; ev_original := None; ev_quantity := 10 * 10 ^ 9 |}.

(** The event is dated in March and counted in April, where the alert reports ten units and is
    crossed: the events of April add up to none. *)
Example straddled_boundary_miscounts :
  let s1 := resultOr noAlerts (createUsageAlert [] march monthlyAlert noAlerts) in
  let s2 := resultOr noAlerts (recordUsageAlertDelta (fun _ => []) None (js "10") (aprilStart + 1) None (recordEvent lateUnits s1)) in
  let bounds := controlWindowBounds (ua_interval monthlyAlert) april in
  reportedAlert april (rowsOf s2 1) = (10 * 10 ^ 9, true) /\ readAlertWindowUsage (al_log s2) None (fst bounds) (snd bounds) = 0.
Proof. vm_compute. done. Qed.

(** *** A percentage alert whose limit is away while usage is recorded *)

Definition monthlyLimit : ControlLimit :=
  {| k_policyId := 5; k_kind := usage_limit; k_feature := Some "calls"; k_currency := None; k_limitValue := js "10";
     k_interval := Some {| c_unit := month; c_count := 1 |}; k_source := source_account; k_revision := 1 |}.
Definition halfAlert : UsageAlertRow :=
  {| ua_id := 3; ua_entityId := None; ua_interval := Some {| c_unit := month; c_count := 1 |}; ua_thresholdType := percentage;
     ua_thresholdValue := js "50"; ua_featureKey := "calls" |}.
Definition oneUnit (i : Z) (units : Z) : UsageEvent :=
  {| ev_id := i; ev_entityId := None; ev_recordedAt := march; ev_original := None; ev_quantity := units * 10 ^ 9 |}.

(** The limit is removed, six units are used, the limit returns and one more unit is used: the
    alert has counted one unit of the window's seven, and is not crossed at a threshold of five. *)
Lemma percentage_alert_misses_usage :
  let s1 := resultOr noAlerts (createUsageAlert [monthlyLimit] march halfAlert noAlerts) in
  let s2 := resultOr noAlerts (recordUsageAlertDelta (fun _ => []) None (js "6") march None (recordEvent (oneUnit 1 6) s1)) in
  let s3 := resultOr noAlerts (recordUsageAlertDelta (fun _ => [monthlyLimit]) None (js "1") march None (recordEvent (oneUnit 2 1) s2)) in
  let bounds := controlWindowBounds (ua_interval halfAlert) march in
  readAlertWindowUsage (al_log s3) None (fst bounds) (snd bounds) = 7 * 10 ^ 9 /\
  reportedAlert march (rowsOf s3 3) = (10 ^ 9, false) /\
  alertThreshold [monthlyLimit] halfAlert = Ok (Some (js "5")).
Proof. vm_compute. done. Qed.
