(* ===== verification/Json.v ===== *)
(** * Stable JSON ([src/billing/decimal.ts], [stableJson])

    The text that identifies a request: fingerprints, intent hashes and catalog comparisons
    are taken over it.  A JSON value is modelled with its strings as UTF-16 units and its
    numbers as the text [JSON.stringify] prints for them; the entries of an object are in
    the order [Object.entries] lists them.  [localeCompare] is the runtime's collation, a
    parameter. *)
From S2P Require Import Prelude Text.

#[local] Arguments js _ : simpl never.

(** ** Values *)

Inductive json :=
  | JNull
  | JBool (b : bool)
  | JNumber (t : text)
  | JString (s : text)
  | JArray (items : list json)
  | JObject (entries : list (text * json)).

(** Induction that reaches the items of arrays and the values of objects. *)
Lemma json_nested_ind (P : json -> Prop) :
  P JNull -> (forall b, P (JBool b)) -> (forall t, P (JNumber t)) -> (forall s, P (JString s)) ->
  (forall items, Forall P items -> P (JArray items)) ->
  (forall entries, Forall (fun e => P (snd e)) entries -> P (JObject entries)) -> forall v, P v.
Proof.
  intros Hn Hb Hi Hs Ha Ho. refine (fix F v := _). destruct v as [|b|t|s|items|entries]; [done|done|done|done| |].
  - apply Ha. induction items as [|x items IH]; constructor; [apply F|done].
  - apply Ho. induction entries as [|[k x] entries IH]; constructor; [apply F|done].
Qed.

(** ** [JSON.stringify] of a string *)

Definition hexDigit (n : Z) : Z := if n <? 10 then 48 + n else 87 + n.
Definition unicodeEscape (u : Z) : text :=
  [92; 117; hexDigit (u / 4096); hexDigit (u / 256 mod 16); hexDigit (u / 16 mod 16); hexDigit (u mod 16)].

Definition highSurrogate (u : Z) : bool := (55296 <=? u) && (u <=? 56319).
Definition lowSurrogate (u : Z) : bool := (56320 <=? u) && (u <=? 57343).

Definition quoteUnit (u : Z) : text :=
  if u =? 8 then [92; 98] else if u =? 9 then [92; 116] else if u =? 10 then [92; 110]
  else if u =? 12 then [92; 102] else if u =? 13 then [92; 114]
  else if u =? 34 then [92; 34] else if u =? 92 then [92; 92]
  else if (u <? 32) || highSurrogate u || lowSurrogate u then unicodeEscape u else [u].

(** A surrogate pair is printed as it is, a lone surrogate escaped. *)
Fixpoint quoteUnits (s : text) : text :=
  match s with
  | [] => []
  | u :: rest =>
      match rest with
      | v :: rest' => if highSurrogate u && lowSurrogate v then u :: v :: quoteUnits rest' else quoteUnit u ++ quoteUnits rest
      | [] => quoteUnit u
      end
  end.

Definition quoteString (s : text) : text := 34 :: quoteUnits s ++ [34].

(** ** [serializeStable] *)

(** [<] on strings compares code units. *)
Fixpoint codeUnitLess (s t : text) : bool :=
  match s, t with
  | _, [] => false
  | [], _ :: _ => true
  | u :: s, v :: t => if u =? v then codeUnitLess s t else u <? v
  end.

(** [join(",")] *)
Fixpoint joinComma (l : list text) : text :=
  match l with [] => [] | [t] => t | t :: rest => t ++ 44 :: joinComma rest end.

Section Serialize.
Context (localeCompare : text -> text -> comparison).

Definition keyLess (breakTies : bool) (left right : text) : bool :=
  match localeCompare left right with Lt => true | Gt => false | Eq => breakTies && codeUnitLess left right end.

Definition entryLess {A} (breakTies : bool) (l r : text * A) : bool := keyLess breakTies (fst l) (fst r).

Definition entryText (e : text * text) : text := quoteString (fst e) ++ 58 :: snd e.

(** The children's texts are taken before the entries are sorted; the order compares keys only. *)
Fixpoint serializeStable (breakTies : bool) (v : json) : text :=
  match v with
  | JNull => js "null"
  | JBool true => js "true"
  | JBool false => js "false"
  | JNumber t => t
  | JString s => quoteString s
  | JArray items => 91 :: joinComma (map (serializeStable breakTies) items) ++ [93]
  | JObject entries =>
      123 :: joinComma (map entryText (sortBy (entryLess breakTies)
        (map (fun '(k, child) => (k, serializeStable breakTies child)) entries))) ++ [125]
  end.

Definition stableJson (v : json) : text := serializeStable true v.
Definition legacyStableJson (v : json) : text := serializeStable false v.
End Serialize.

(** ** Sorted entries *)

Lemma sorted_unique {A} (R : A -> A -> Prop) (l1 l2 : list A) : StronglySorted R l1 -> StronglySorted R l2 -> l1 ≡ₚ l2 ->
  (forall x y, x ∈ l1 -> y ∈ l1 -> R x y -> R y x -> x = y) -> l1 = l2.
Proof.
  intros H1. revert l2. induction H1 as [|x l1 H1 IH Hx]; intros l2 H2 Hp Hanti.
  - symmetry in Hp. by apply Permutation_nil_r in Hp.
  - destruct H2 as [|y l2 H2 Hy]; [by apply Permutation_nil_r in Hp|].
    assert (Exy : x = y).
    { assert (Hyin : y ∈ x :: l1) by (rewrite Hp; constructor). assert (Hxin : x ∈ y :: l2) by (rewrite <- Hp; constructor).
      apply elem_of_cons in Hyin as [->|Hyin]; [done|]. apply elem_of_cons in Hxin as [->|Hxin]; [done|].
      rewrite Forall_forall in Hx, Hy. apply Hanti; [constructor|by right|by apply Hx|by apply Hy]. }
    subst y. f_equal. apply IH; [done|by apply Permutation_cons_inv in Hp|]. intros a b Ha Hb. apply Hanti; by right.
Qed.

(** ** What a text determines *)

(** A UTF-16 unit; the text of a number; a value with distinct keys. *)
Definition unit_ok (u : Z) : Prop := 0 <= u < 65536.
Definition numberUnit (u : Z) : bool := isDigit u || (u =? 43) || (u =? 45) || (u =? 46) || (u =? 101).
Definition number_ok (t : text) : Prop := t <> [] /\ Forall (fun u => numberUnit u = true) t.

Fixpoint json_ok (v : json) : Prop :=
  match v with
  | JNull | JBool _ => True
  | JNumber t => number_ok t
  | JString s => Forall unit_ok s
  | JArray items => (fix all l := match l with [] => True | x :: l => json_ok x /\ all l end) items
  | JObject entries => NoDup (map fst entries) /\
      (fix all l := match l with [] => True | (k, x) :: l => Forall unit_ok k /\ json_ok x /\ all l end) entries
  end.

Lemma json_ok_array items : json_ok (JArray items) <-> Forall json_ok items.
Proof. cbn. induction items as [|x items IH]; [by split|]. rewrite IH. split; [intros []; by constructor|inversion 1; by subst]. Qed.

Lemma json_ok_object entries : json_ok (JObject entries) <->
  NoDup (map fst entries) /\ Forall (fun e => Forall unit_ok (fst e) /\ json_ok (snd e)) entries.
Proof.
  cbn. split; intros [Hnd H]; (split; [done|]); clear Hnd; induction entries as [|[k x] entries IH]; try done.
  - destruct H as (? & ? & H). by constructor; [split|apply IH].
  - inversion H as [|? ? [? ?] ?]; subst. split_and!; [done|done|by apply IH].
Qed.

(** [json_ok] by computation. *)
Definition unit_okb (u : Z) : bool := (0 <=? u) && (u <? 65536).
Fixpoint json_okb (v : json) : bool :=
  match v with
  | JNull | JBool _ => true
  | JNumber t => negb (bool_decide (t = [])) && forallb numberUnit t
  | JString s => forallb unit_okb s
  | JArray items => forallb json_okb items
  | JObject entries => bool_decide (NoDup (map fst entries)) && forallb (fun e => forallb unit_okb (fst e)) entries
      && forallb (fun '(_, x) => json_okb x) entries
  end.

Lemma units_okb s : forallb unit_okb s = true -> Forall unit_ok s.
Proof.
  intros H. apply List.Forall_forall. intros u Hu. rewrite forallb_forall in H. specialize (H u Hu).
  apply andb_prop in H as [Ha%Z.leb_le Hb%Z.ltb_lt]. by split.
Qed.

Lemma json_okb_ok v : json_okb v = true -> json_ok v.
Proof.
  induction v as [|b|t|s|items IH|entries IH] using json_nested_ind; cbn [json_okb]; try done.
  - intros [Hne Hall]%andb_prop. apply negb_true_iff, bool_decide_eq_false in Hne. split; [done|].
    apply List.Forall_forall. by apply forallb_forall.
  - apply units_okb.
  - intros H. apply json_ok_array. rewrite Forall_forall in IH |- *. rewrite forallb_forall in H. intros x Hx. apply IH; [done|]. by apply H, list_elem_of_In.
  - intros [[Hnd Hk]%andb_prop Hv]%andb_prop. apply bool_decide_eq_true in Hnd. apply json_ok_object. split; [done|].
    rewrite Forall_forall in IH |- *. rewrite forallb_forall in Hk, Hv. intros [k x] Hx. specialize (IH _ Hx). apply list_elem_of_In in Hx.
    split; [by apply units_okb, (Hk (k, x))|]. apply IH. exact (Hv (k, x) Hx).
Qed.

(** The same value, whatever the order of the entries of its objects. *)
Inductive same_json : json -> json -> Prop :=
  | same_null : same_json JNull JNull
  | same_bool b : same_json (JBool b) (JBool b)
  | same_number t : same_json (JNumber t) (JNumber t)
  | same_string s : same_json (JString s) (JString s)
  | same_array l1 l2 : Forall2 same_json l1 l2 -> same_json (JArray l1) (JArray l2)
  | same_object e1 k1 k2 e2 : e1 ≡ₚ k1 -> Forall2 (fun x y => fst x = fst y /\ same_json (snd x) (snd y)) k1 k2 ->
      k2 ≡ₚ e2 -> same_json (JObject e1) (JObject e2).

(** *** Strings *)

Lemma hexDigit_inj a b : 0 <= a < 16 -> 0 <= b < 16 -> hexDigit a = hexDigit b -> a = b.
Proof. unfold hexDigit. intros. destruct (Z.ltb_spec a 10), (Z.ltb_spec b 10); lia. Qed.

Lemma hexDigit_alnum n : 0 <= n < 16 -> 48 <= hexDigit n <= 57 \/ 97 <= hexDigit n <= 102.
Proof. unfold hexDigit. intros. destruct (Z.ltb_spec n 10); lia. Qed.

Lemma unicodeEscape_inj u v : unit_ok u -> unit_ok v -> unicodeEscape u = unicodeEscape v -> u = v.
Proof.
  unfold unit_ok, unicodeEscape. intros Hu Hv H. injection H as H1 H2 H3 H4.
  assert (Hr : forall x, 0 <= x mod 16 < 16) by (intros; apply Z.mod_pos_bound; lia).
  assert (Hd : forall x, 0 <= x < 65536 -> 0 <= x / 4096 < 16) by (intros; split; [apply Z.div_pos; lia|apply Z.div_lt_upper_bound; lia]).
  apply hexDigit_inj in H1; [|by apply Hd..]. apply hexDigit_inj in H2; [|apply Hr..]. apply hexDigit_inj in H3; [|apply Hr..].
  apply hexDigit_inj in H4; [|apply Hr..]. clear Hr Hd. Z.div_mod_to_equations. lia.
Qed.

(** A unit printed as it is. *)
Definition plainUnit (u : Z) : Prop := 32 <= u /\ u <> 34 /\ u <> 92.

Lemma surrogate_plain u : highSurrogate u = true \/ lowSurrogate u = true -> plainUnit u.
Proof.
  unfold highSurrogate, lowSurrogate, plainUnit. intros [H|H]; apply andb_prop in H as [Ha%Z.leb_le Hb%Z.leb_le]; lia.
Qed.

(** The five forms of a printed unit. *)
Lemma quoteUnit_cases u : unit_ok u ->
  (quoteUnit u = [u] /\ plainUnit u /\ highSurrogate u = false) \/
  (exists c, quoteUnit u = [92; c] /\ c <> 117 /\
    ((u = 8 /\ c = 98) \/ (u = 9 /\ c = 116) \/ (u = 10 /\ c = 110) \/ (u = 12 /\ c = 102) \/ (u = 13 /\ c = 114) \/ (u = 34 /\ c = 34) \/ (u = 92 /\ c = 92))) \/
  quoteUnit u = unicodeEscape u.
Proof.
  intros Hu. unfold quoteUnit. repeat match goal with |- context [?a =? ?b] => destruct (Z.eqb_spec a b) as [->|] end;
    try (right; left; eexists; split; [reflexivity|]; lia).
  destruct (Z.ltb_spec u 32); [by right; right|]. destruct (highSurrogate u) eqn:Eh; [by right; right|].
  destruct (lowSurrogate u); [by right; right|]. left. cbn. unfold plainUnit. split_and!; try done; lia.
Qed.

(** A printed unit can be read back, whatever follows. *)
Lemma quoteUnit_inj u v r1 r2 : unit_ok u -> unit_ok v -> quoteUnit u ++ r1 = quoteUnit v ++ r2 -> u = v /\ r1 = r2.
Proof.
  intros Hu Hv H. destruct (quoteUnit_cases u Hu) as [(E1 & P1 & _)|[(c & E1 & N1 & C1)|E1]],
    (quoteUnit_cases v Hv) as [(E2 & P2 & _)|[(d & E2 & N2 & C2)|E2]]; rewrite E1, E2 in H; unfold plainUnit in *;
    try (unfold unicodeEscape in H; cbn [app] in H; injection H; intros; subst; (split; [lia|done]) || lia || congruence).
  assert (Hl : length (unicodeEscape u) = length (unicodeEscape v)) by done.
  apply app_inj_1 in H as [H ->]; [|done]. split; [by apply unicodeEscape_inj|done].
Qed.

Lemma quoteUnits_cons u rest : (exists v rest', rest = v :: rest' /\ highSurrogate u = true /\ lowSurrogate v = true /\
    quoteUnits (u :: rest) = u :: v :: quoteUnits rest') \/
  quoteUnits (u :: rest) = quoteUnit u ++ quoteUnits rest.
Proof.
  destruct rest as [|v rest]; [right; cbn; by rewrite app_nil_r|]. cbn [quoteUnits].
  destruct (highSurrogate u) eqn:Eu; [|by right]. destruct (lowSurrogate v) eqn:Ev; [|by right]. left. by exists v, rest.
Qed.

Lemma quoteUnit_head u : unit_ok u -> exists c r, quoteUnit u = c :: r /\ c <> 34 /\ highSurrogate c = false.
Proof.
  intros Hu. destruct (quoteUnit_cases u Hu) as [(-> & P & Hh)|[(c & -> & _)| -> ]]; do 2 eexists; (split; [reflexivity|]); [|done..].
  unfold plainUnit in P. split; [lia|done].
Qed.

Lemma quoteUnits_head u rest r : unit_ok u -> exists c r', quoteUnits (u :: rest) ++ r = c :: r' /\ c <> 34.
Proof.
  intros Hu. destruct (quoteUnits_cons u rest) as [(v & rest' & _ & Hh & _ & ->)| -> ].
  - do 2 eexists. split; [reflexivity|]. pose proof (surrogate_plain u (or_introl Hh)) as P. unfold plainUnit in P. lia.
  - destruct (quoteUnit_head u Hu) as (c & r' & -> & Hc & _). by do 2 eexists.
Qed.

Lemma quoteUnits_inj s t r1 r2 : Forall unit_ok s -> Forall unit_ok t ->
  quoteUnits s ++ 34 :: r1 = quoteUnits t ++ 34 :: r2 -> s = t /\ r1 = r2.
Proof.
  remember (length s) as n eqn:En. revert s t En. induction n as [n IH] using lt_wf_ind. intros s t -> Hs Ht H.
  destruct Hs as [|u rest Hu Hs], Ht as [|u' rest' Hu' Ht].
  - by injection H.
  - destruct (quoteUnits_head u' rest' (34 :: r2) Hu') as (c & r' & E & Hc). rewrite E in H. cbn in H. congruence.
  - destruct (quoteUnits_head u rest (34 :: r1) Hu) as (c & r' & E & Hc). rewrite E in H. cbn in H. congruence.
  - destruct (quoteUnits_cons u rest) as [(v & k & -> & Hh & Hl & E)|E], (quoteUnits_cons u' rest') as [(v' & k' & -> & Hh' & Hl' & E')|E'];
      rewrite E, E' in H; clear E E'.
    + injection H as -> -> H. inversion Hs; inversion Ht; subst. destruct (IH (length k) ltac:(cbn; lia) k k' eq_refl ltac:(done) ltac:(done) H) as [-> ->]. done.
    + destruct (quoteUnit_head u' Hu') as (c & r & E & _ & Hc). rewrite E in H. injection H as -> _. congruence.
    + destruct (quoteUnit_head u Hu) as (c & r & E & _ & Hc). rewrite E in H. injection H as <- _. congruence.
    + rewrite <- !app_assoc in H. apply quoteUnit_inj in H as [-> H]; [|done..].
      destruct (IH (length rest) ltac:(cbn; lia) rest rest' eq_refl Hs Ht H) as [-> ->]. done.
Qed.

Lemma quoteString_inj s t r1 r2 : Forall unit_ok s -> Forall unit_ok t ->
  quoteString s ++ r1 = quoteString t ++ r2 -> s = t /\ r1 = r2.
Proof.
  unfold quoteString. cbn [app]. rewrite <- !app_assoc. cbn [app]. intros Hs Ht H. injection H as H. by apply quoteUnits_inj in H.
Qed.

(** *** Whole values *)

(** What can follow a value: nothing, or a separator. *)
Definition closed (r : text) : Prop := match r with [] => True | c :: _ => c = 44 \/ c = 93 \/ c = 125 end.

Lemma number_inj t u r1 r2 : number_ok t -> number_ok u -> closed r1 -> closed r2 -> t ++ r1 = u ++ r2 -> t = u /\ r1 = r2.
Proof.
  intros [_ Ht] [_ Hu] H1 H2. revert u Hu. induction Ht as [|x t Hx Ht IH]; intros u Hu H; destruct Hu as [|y u Hy Hu]; cbn [app] in H.
  - done.
  - subst r1. exfalso. revert H1 Hy. cbn. unfold numberUnit, isDigit. intros [ -> |[ -> | -> ]]; done.
  - subst r2. exfalso. revert H2 Hx. cbn. unfold numberUnit, isDigit. intros [ -> |[ -> | -> ]]; done.
  - injection H as -> H. by destruct (IH u Hu H) as [-> ->].
Qed.

(** The first character of a printed value tells its kind. *)
Definition kindOf (v : json) : Z :=
  match v with JNull => 110 | JBool true => 116 | JBool false => 102 | JNumber _ => 48 | JString _ => 34 | JArray _ => 91 | JObject _ => 123 end.
Definition kindUnit (c : Z) : Z := if numberUnit c then 48 else c.

(** *** The order of code units *)

Lemma codeUnitLess_total s t : codeUnitLess s t = false -> codeUnitLess t s = false -> s = t.
Proof.
  revert t. induction s as [|u s IH]; intros [|v t]; cbn; try done. rewrite (Z.eqb_sym v u).
  destruct (Z.eqb_spec u v) as [->|Hne]; [intros; f_equal; auto|]. intros Ha%Z.ltb_ge Hb%Z.ltb_ge. lia.
Qed.

Lemma codeUnitLess_asym s t : codeUnitLess s t = true -> codeUnitLess t s = false.
Proof.
  revert t. induction s as [|u s IH]; intros [|v t]; cbn; try done. rewrite (Z.eqb_sym v u).
  destruct (Z.eqb_spec u v) as [->|Hne]; [apply IH|]. intros Ha%Z.ltb_lt. apply Z.ltb_ge. lia.
Qed.

Lemma codeUnitLess_trans s t u : codeUnitLess t s = false -> codeUnitLess u t = false -> codeUnitLess u s = false.
Proof.
  revert t u. induction s as [|a s IH]; intros [|b t] [|c u]; cbn; try done.
  destruct (Z.eqb_spec b a), (Z.eqb_spec c b), (Z.eqb_spec c a); subst; try lia; rewrite ?Z.ltb_ge; intros; try lia. by eapply IH.
Qed.

Section Identity.
Context (localeCompare : text -> text -> comparison).
Context (compare_flip : forall a b, localeCompare b a = CompOpp (localeCompare a b)).
Context (compare_trans : forall a b c, localeCompare a b <> Gt -> localeCompare b c <> Gt -> localeCompare a c <> Gt).

Abbreviation ser := (serializeStable localeCompare).

Lemma ser_kind b v r : json_ok v -> exists c r', ser b v ++ r = c :: r' /\ kindUnit c = kindOf v.
Proof.
  intros Hok. destruct v as [|[]|t|s|items|entries]; try (do 2 eexists; split; [reflexivity|reflexivity]).
  destruct Hok as [Hne Hall]. destruct Hall as [|c t Hc _]; [done|]. do 2 eexists. split; [reflexivity|]. cbn [kindOf]. unfold kindUnit. by rewrite Hc.
Qed.

Lemma kind_same b1 b2 v w r1 r2 : json_ok v -> json_ok w -> ser b1 v ++ r1 = ser b2 w ++ r2 -> kindOf v = kindOf w.
Proof.
  intros Hv Hw H. destruct (ser_kind b1 v r1 Hv) as (c & k & E & <-). destruct (ser_kind b2 w r2 Hw) as (d & l & E' & <-). congruence.
Qed.

Lemma ser_closed b v r : json_ok v -> ~ closed (ser b v ++ r).
Proof.
  intros Hok Hc. destruct (ser_kind b v r Hok) as (c & k & E & Hk). rewrite E in Hc. cbn in Hc.
  destruct Hc as [ -> |[ -> | -> ]]; destruct v as [|[]| | | |]; discriminate.
Qed.

(** The items between the brackets, when each item can be read back. *)
Lemma items_inj {A B} (f : A -> text) (g : B -> text) (R : A -> B -> Prop) stop l1 l2 r1 r2 : stop = 93 \/ stop = 125 ->
  Forall (fun x => forall y k1 k2, y ∈ l2 -> closed k1 -> closed k2 -> f x ++ k1 = g y ++ k2 -> R x y /\ k1 = k2) l1 ->
  (forall x k, x ∈ l1 -> ~ closed (f x ++ k)) -> (forall y k, y ∈ l2 -> ~ closed (g y ++ k)) ->
  joinComma (map f l1) ++ stop :: r1 = joinComma (map g l2) ++ stop :: r2 -> Forall2 R l1 l2 /\ r1 = r2.
Proof.
  intros Hstop Hall Hf Hg. assert (Hsep : forall k, closed (stop :: k)) by (intros; cbn; tauto). revert l2 Hall Hg.
  induction l1 as [|x l1 IH]; intros l2 Hall Hg H.
  - destruct l2 as [|y l2]; [by injection H|]. exfalso.
    destruct l2 as [|y' l2]; cbn in H; [apply (Hg y (stop :: r2)); [constructor|rewrite <- H; apply Hsep]|].
    rewrite <- app_assoc in H. eapply (Hg y); [constructor|rewrite <- H; apply Hsep].
  - apply Forall_cons in Hall as [Hx Hall]. destruct l2 as [|y l2].
    { exfalso. destruct l1 as [|x' l1]; cbn in H; [apply (Hf x (stop :: r1)); [constructor|rewrite H; apply Hsep]|].
      rewrite <- app_assoc in H. eapply (Hf x); [constructor|rewrite H; apply Hsep]. }
    specialize (IH ltac:(intros; apply Hf; by right) l2).
    assert (Hcomma : forall k, closed (44 :: k)) by (intros; cbn; tauto).
    assert (Hy : y ∈ y :: l2) by constructor. specialize (Hx y).
    destruct l1 as [|x' l1], l2 as [|y' l2]; cbn [map joinComma] in H; rewrite <- ?app_assoc in H; cbn [app] in H.
    + apply Hx in H as [HR H]; [|done..]. injection H as ->. split; [by repeat constructor|done].
    + apply Hx in H as [_ H]; [|done..]. injection H as E _. lia.
    + apply Hx in H as [_ H]; [|done..]. injection H as E _. lia.
    + apply Hx in H as [HR H]; [|done..]. injection H as H. destruct IH as [IH1 IH2]; [|by intros; apply Hg; right|exact H|split; [by constructor|done] ].
      eapply Forall_impl; [exact Hall|]. intros z Hz y0 k1 k2 Hy0. apply Hz. by right.
Qed.

(** *** Objects *)

Definition entryOf (b : bool) (e : text * json) : text := quoteString (fst e) ++ 58 :: ser b (snd e).

Lemma ser_object b entries : ser b (JObject entries) =
  123 :: joinComma (map (entryOf b) (sortBy (entryLess localeCompare b) entries)) ++ [125].
Proof.
  cbn [serializeStable]. do 3 f_equal. set (f := fun e : text * json => (fst e, ser b (snd e))).
  assert (E : map (fun '(k, child) => (k, ser b child)) entries = map f entries) by (apply List.map_ext; by intros [k x]).
  rewrite E, (sortBy_map (entryLess localeCompare b) _ f) by done. by rewrite map_map.
Qed.

(** A printed value can be read back, up to the order of its entries. *)
Lemma ser_inj b1 b2 v : forall w r1 r2, json_ok v -> json_ok w -> closed r1 -> closed r2 -> ser b1 v ++ r1 = ser b2 w ++ r2 ->
  same_json v w /\ r1 = r2.
Proof.
  induction v as [|b|t|s|items IH|entries IH] using json_nested_ind; intros w r1 r2 Hv Hw H1 H2 H;
    pose proof (kind_same _ _ _ _ _ _ Hv Hw H) as Hk; destruct w as [|b'|t'|s'|items'|entries']; try (destruct b; discriminate); try (destruct b'; discriminate); try discriminate.
  - injection H as ->. split; [constructor|done].
  - destruct b, b'; try discriminate; injection H as ->; (split; [constructor|done]).
  - destruct (number_inj t t' r1 r2) as [-> ->]; try done. split; [constructor|done].
  - apply quoteString_inj in H as [-> ->]; [|done..]. split; [constructor|done].
  - apply json_ok_array in Hv, Hw. rewrite Forall_forall in Hv, Hw. cbn [serializeStable app] in H. rewrite <- !app_assoc in H. injection H as H.
    apply (items_inj (ser b1) (ser b2) same_json 93) in H as [HR ->]; [|tauto| | |]; try (intros; apply ser_closed; auto); [by split; [constructor|]|].
    rewrite Forall_forall in IH |- *. intros x Hx y k1 k2 Hy. apply IH; auto.
  - apply json_ok_object in Hv as [_ Hv], Hw as [_ Hw]. rewrite !ser_object in H. cbn [app] in H. rewrite <- !app_assoc in H. injection H as H.
    set (E := sortBy _ entries) in *. set (E' := sortBy _ entries') in *.
    assert (PE : entries ≡ₚ E) by (symmetry; apply sortBy_perm). assert (PE' : E' ≡ₚ entries') by apply sortBy_perm.
    rewrite Forall_forall in Hv, Hw, IH.
    apply (items_inj (entryOf b1) (entryOf b2) (fun x y => fst x = fst y /\ same_json (snd x) (snd y)) 125) in H as [HR ->]; [|tauto| | |].
    + split; [by apply (same_object _ E E')|done].
    + apply Forall_forall. intros x Hx y k1 k2 Hy Hk1 Hk2 Hxy. rewrite <- PE in Hx. rewrite PE' in Hy.
      destruct (Hv x Hx) as [Hvk Hvx], (Hw y Hy) as [Hwk Hwx]. unfold entryOf in Hxy. rewrite <- !app_assoc in Hxy.
      apply quoteString_inj in Hxy as [Ek Hxy]; [|done..]. injection Hxy as Hxy. apply IH in Hxy as [Hs ->]; done.
    + intros x k _ Hc. unfold entryOf, quoteString in Hc. cbn in Hc. lia.
    + intros x k _ Hc. unfold entryOf, quoteString in Hc. cbn in Hc. lia.
Qed.

Lemma inOrder_asym {A} (x y : text * A) : entryLess localeCompare true x y = true -> entryLess localeCompare true y x = false.
Proof.
  unfold entryLess, keyLess. rewrite (compare_flip (fst x) (fst y)). destruct (localeCompare (fst x) (fst y)); try done. apply codeUnitLess_asym.
Qed.

Lemma inOrder_key {A} (x y : text * A) : inOrder (entryLess localeCompare true) x y <->
  localeCompare (fst x) (fst y) = Lt \/ (localeCompare (fst x) (fst y) = Eq /\ codeUnitLess (fst y) (fst x) = false).
Proof.
  unfold inOrder, entryLess, keyLess. rewrite (compare_flip (fst x) (fst y)). destruct (localeCompare (fst x) (fst y)); cbn; intuition congruence.
Qed.

Lemma inOrder_trans {A} (x y z : text * A) : inOrder (entryLess localeCompare true) x y ->
  inOrder (entryLess localeCompare true) y z -> inOrder (entryLess localeCompare true) x z.
Proof.
  rewrite !inOrder_key. intros Hxy Hyz. pose proof (compare_trans (fst x) (fst y) (fst z)) as T1.
  pose proof (compare_trans (fst y) (fst z) (fst x)) as T2. pose proof (compare_trans (fst z) (fst x) (fst y)) as T3.
  rewrite (compare_flip (fst x) (fst z)) in T2, T3. rewrite (compare_flip (fst x) (fst y)) in T2. rewrite (compare_flip (fst y) (fst z)) in T3.
  destruct Hxy as [Hxy|[Hxy Cxy]], Hyz as [Hyz|[Hyz Cyz]]; rewrite Hxy, Hyz in T1, T2, T3;
    destruct (localeCompare (fst x) (fst z)); try (by left); cbn in *;
    try (exfalso; apply T1; done); try (exfalso; apply T2; done); try (exfalso; apply T3; done).
  right. split; [done|]. by eapply codeUnitLess_trans.
Qed.

(** The order of insertion of distinct keys does not show. *)
Lemma sorted_entries {A} (e1 e2 : list (text * A)) : NoDup (map fst e1) -> e1 ≡ₚ e2 ->
  sortBy (entryLess localeCompare true) e1 = sortBy (entryLess localeCompare true) e2.
Proof.
  intros Hnd Hp. apply (sorted_unique (inOrder (entryLess localeCompare true))).
  - apply sortBy_sorted; [apply inOrder_asym|apply inOrder_trans].
  - apply sortBy_sorted; [apply inOrder_asym|apply inOrder_trans].
  - by rewrite !sortBy_perm.
  - intros x y Hx Hy Hxy Hyx. rewrite sortBy_perm in Hx, Hy. apply (NoDup_key_inj fst e1); try done.
    apply inOrder_key in Hxy, Hyx. rewrite (compare_flip (fst x) (fst y)) in Hyx.
    destruct Hxy as [Hxy|[Hxy Cxy]], Hyx as [Hyx|[Hyx Cyx]]; rewrite Hxy in Hyx; try done. by apply codeUnitLess_total.
Qed.

Lemma ser_same v : forall w, json_ok v -> json_ok w -> same_json v w -> ser true v = ser true w.
Proof.
  induction v as [|b|t|s|items IH|entries IH] using json_nested_ind; intros w Hv Hw H; inversion H as [| | | |? l2 HR|? k1 k2 e2 P1 HR P2]; subst; try done.
  - apply json_ok_array in Hv, Hw. cbn [serializeStable]. do 3 f_equal.
    revert IH Hv Hw. clear -HR. induction HR as [|x y l1 l2 Hxy _ IHl]; [done|]. intros Hi Hv Hw.
    apply Forall_cons in Hi as [Hx Hi], Hv as [Hv1 Hv], Hw as [Hw1 Hw]. cbn. f_equal; [by apply Hx|by apply IHl].
  - apply json_ok_object in Hv as [Hnd1 Hv], Hw as [Hnd2 Hw]. cbn [serializeStable]. do 4 f_equal.
    set (f := fun '(k, child) => (k, ser true child)).
    assert (Hkeys : forall l : list (text * json), map fst (map f l) = map fst l) by (intros l; rewrite map_map; apply List.map_ext; by intros []).
    assert (E : map f k1 = map f k2).
    { rewrite P1 in IH, Hv. rewrite <- P2 in Hw. clear -HR IH Hv Hw. induction HR as [|[a x] [b y] l1 l2 [Hk Hxy] _ IHl]; [done|].
      apply Forall_cons in IH as [Hx IH], Hv as [[_ Hv1] Hv], Hw as [[_ Hw1] Hw]. cbn in *. subst b. f_equal; [f_equal; by apply Hx|by apply IHl]. }
    transitivity (sortBy (entryLess localeCompare true) (map f k1)); [|rewrite E; symmetry].
    + apply sorted_entries; [by rewrite Hkeys|by rewrite P1].
    + apply sorted_entries; [by rewrite Hkeys|by rewrite P2].
Qed.
End Identity.

(** Where the collation ties no two keys, texts stored before ties were broken are unchanged. *)
Fixpoint untied (localeCompare : text -> text -> comparison) (v : json) : Prop :=
  match v with
  | JArray items => (fix all l := match l with [] => True | x :: l => untied localeCompare x /\ all l end) items
  | JObject entries => (forall a b, a ∈ map fst entries -> b ∈ map fst entries -> localeCompare a b = Eq -> a = b) /\
      (fix all l := match l with [] => True | (_, x) :: l => untied localeCompare x /\ all l end) entries
  | _ => True
  end.

Lemma sortBy_ext {A} (lt1 lt2 : A -> A -> bool) l : (forall x y, x ∈ l -> y ∈ l -> lt1 x y = lt2 x y) -> sortBy lt1 l = sortBy lt2 l.
Proof.
  induction l as [|x l IH]; intros H; [done|]. change (insertBy lt1 x (sortBy lt1 l) = insertBy lt2 x (sortBy lt2 l)).
  rewrite IH by (intros; apply H; by right). assert (Hk : forall y, y ∈ sortBy lt2 l -> y ∈ l) by (intros y; by rewrite sortBy_perm).
  revert Hk. generalize (sortBy lt2 l) as k. induction k as [|y k IHk]; intros Hk; [done|]. cbn.
  rewrite (H y x) by (by (right; apply Hk; left) || left). rewrite IHk by (intros; apply Hk; by right). done.
Qed.

Lemma codeUnitLess_irrefl s : codeUnitLess s s = false.
Proof. induction s as [|u s IH]; [done|]. cbn. by rewrite Z.eqb_refl. Qed.

Lemma legacyStableJson_untied localeCompare v : untied localeCompare v -> legacyStableJson localeCompare v = stableJson localeCompare v.
Proof.
  unfold legacyStableJson, stableJson. induction v as [|b|t|s|items IH|entries IH] using json_nested_ind; try done.
  - intros H. cbn [serializeStable]. do 3 f_equal. cbn in H. induction IH as [|x l Hx _ IHl]; [done|]. destruct H as [H1 H2]. cbn. f_equal; auto.
  - intros [Htie H]. cbn [serializeStable]. do 4 f_equal.
    assert (E : map (fun '(k, child) => (k, serializeStable localeCompare false child)) entries = map (fun '(k, child) => (k, serializeStable localeCompare true child)) entries).
    { clear Htie. induction IH as [|[k x] l Hx _ IHl]; [done|]. destruct H as [H1 H2]. cbn in *. f_equal; [f_equal|]; auto. }
    rewrite E. apply sortBy_ext. intros [a x] [b y] Hx Hy. unfold entryLess, keyLess. cbn.
    assert (Hk : forall c z, (c, z) ∈ map (fun '(k, child) => (k, serializeStable localeCompare true child)) entries -> c ∈ map fst entries).
    { intros c z ([k w] & [= -> _] & Hin)%list_elem_of_fmap. by apply (list_elem_of_fmap_2 fst _ (k, w)). }
    destruct (localeCompare a b) eqn:Ec; try done. rewrite (Htie a b) by eauto. by rewrite codeUnitLess_irrefl.
Qed.

(** ** What a stable text identifies *)

(** A collation: a total preorder on strings. *)
Record collation (localeCompare : text -> text -> comparison) : Prop := {
  col_flip : forall a b, localeCompare b a = CompOpp (localeCompare a b);
  col_trans : forall a b c, localeCompare a b <> Gt -> localeCompare b c <> Gt -> localeCompare a c <> Gt }.

(** C39: Two values have the same stable JSON exactly when they are the same value up to the
    order of the entries of their objects, at every depth: the text never depends on
    insertion order, even for keys the collation ties, and no two different values share
    a text. *)
Theorem stableJson_identifies localeCompare v w : collation localeCompare -> json_ok v -> json_ok w ->
  stableJson localeCompare v = stableJson localeCompare w <-> same_json v w.
Proof.
  intros [Hflip Htrans] Hv Hw. split; [|by apply ser_same]. intros H.
  assert (E : serializeStable localeCompare true v ++ [] = serializeStable localeCompare true w ++ []) by (by rewrite !app_nil_r).
  apply ser_inj in E; try done. by destruct E.
Qed.

(** *** A collation that ignores case, and two requests *)

Definition foldCase (u : Z) : Z := if (65 <=? u) && (u <=? 90) then u + 32 else u.
Definition caselessCompare (s t : text) : comparison :=
  let s := map foldCase s in let t := map foldCase t in
  if codeUnitLess s t then Lt else if codeUnitLess t s then Gt else Eq.

Lemma caseless_collation : collation caselessCompare.
Proof.
  constructor.
  - intros a b. unfold caselessCompare. destruct (codeUnitLess (map foldCase a) (map foldCase b)) eqn:E; [by rewrite (codeUnitLess_asym _ _ E)|].
    by destruct (codeUnitLess (map foldCase b) (map foldCase a)).
  - intros a b c. unfold caselessCompare. set (x := map foldCase a). set (y := map foldCase b). set (z := map foldCase c).
    pose proof (codeUnitLess_trans x y z) as T. pose proof (codeUnitLess_asym x z) as A.
    pose proof (codeUnitLess_asym x y) as Axy. pose proof (codeUnitLess_asym y z) as Ayz.
    destruct (codeUnitLess x y), (codeUnitLess y x), (codeUnitLess y z), (codeUnitLess z y), (codeUnitLess x z), (codeUnitLess z x); naive_solver.
Qed.

Definition requestA : json := JObject [(js "b", JArray [JNumber (js "1"); JString (js "x,y")]); (js "A", JNull); (js "a", JBool true)].
Definition requestB : json := JObject [(js "a", JBool true); (js "A", JNull); (js "b", JArray [JNumber (js "1"); JString (js "x,y")])].

Lemma requests_ok : json_ok requestA /\ json_ok requestB.
Proof.
  split; apply json_okb_ok; vm_compute; reflexivity.
Qed.

Lemma stableJson_identifies_witness :
  stableJson caselessCompare requestA = stableJson caselessCompare requestB /\ same_json requestA requestB /\
  legacyStableJson caselessCompare requestA <> legacyStableJson caselessCompare requestB.
Proof.
  assert (E : stableJson caselessCompare requestA = stableJson caselessCompare requestB) by (vm_compute; reflexivity).
  split; [exact E|]. split; [|vm_compute; discriminate]. destruct requests_ok as [Ha Hb].
  exact (proj1 (stableJson_identifies caselessCompare requestA requestB caseless_collation Ha Hb) E).
Defined.
