(* ===== verification/UsageOperations.v ===== *)
(** * Usage operations ([src/db/repository/usage-operations.ts])

    A usage write carries a caller's operation id.  [runUsageOperation] binds the id to the
    request's fingerprint, runs the mutation in the same transaction and keeps its outcome,
    so a retry is answered from the claim and writes nothing.  The model holds the claims of
    one project; the domain the mutations write is a parameter [D], the prefetched reads a
    parameter [P], SHA-256, the collation and the size of an outcome as [jsonb] functions.
    Times are milliseconds of the database clock; a failing transaction leaves the store. *)
From S2P Require Import Prelude Text Decimal Balances Wallet Json.

#[local] Arguments js _ : simpl never.

(** ** Requests *)

Inductive UsageOperationKind := op_consume | op_reserve | op_confirm | op_release | op_correct.
#[export] Instance kind_eq_dec : EqDecision UsageOperationKind.
Proof. solve_decision. Defined.
Definition kindIndex (k : UsageOperationKind) : Z :=
  match k with op_consume => 0 | op_reserve => 1 | op_confirm => 2 | op_release => 3 | op_correct => 4 end.
Definition kindAt (i : Z) : UsageOperationKind :=
  if i =? 0 then op_consume else if i =? 1 then op_reserve else if i =? 2 then op_confirm else if i =? 3 then op_release else op_correct.
#[export] Instance kind_countable : Countable UsageOperationKind.
Proof. refine (inj_countable' kindIndex kindAt _). by intros []. Defined.

Definition kindName (k : UsageOperationKind) : text :=
  match k with
  | op_consume => js "consume" | op_reserve => js "reserve" | op_confirm => js "confirm"
  | op_release => js "release" | op_correct => js "correct"
  end.

(** The inputs of the five operations; [None] is a field the input does not have.  Dates are
    their ISO texts, filters and metadata the entries of their objects. *)
Record UsageOperationInput := {
  oi_billingAccountId : text; oi_idempotencyKey : text;
  oi_featureKey : option text; oi_quantity : option text; oi_entityId : option text;
  oi_filters : option (list (text * json)); oi_occurredAt : option text; oi_metadata : option (list (text * json));
  oi_expiresInSeconds : option Z; oi_reservationId : option text;
  oi_originalUsageEventId : option text; oi_originalRecordedAt : option text;
  oi_actor : option text; oi_reason : option text }.

Definition textOrNull (t : option text) : json := match t with Some t => JString t | None => JNull end.
(** [value?.trim() || null] *)
Definition trimmedOrNull (t : option text) : json :=
  match t with Some t => if bool_decide (trim t = []) then JNull else JString (trim t) | None => JNull end.

(** The object the fingerprint is taken over. *)
Definition requestJson (operation : UsageOperationKind) (input : UsageOperationInput) : result json :=
  quantity ← (match oi_quantity input with
    | Some q => q ← positiveDecimal q "quantity" 9; Ok (JString q)
    | None => Ok JNull
    end);
  Ok (JObject [
    (js "operation", JString (kindName operation));
    (js "billingAccountId", JString (trim (oi_billingAccountId input)));
    (js "featureKey", textOrNull (trim <$> oi_featureKey input));
    (js "quantity", quantity);
    (js "entityId", trimmedOrNull (oi_entityId input));
    (js "filters", JObject (default [] (oi_filters input)));
    (js "occurredAt", textOrNull (oi_occurredAt input));
    (js "metadata", JObject (default [] (oi_metadata input)));
    (js "expiresInSeconds",
      match operation with op_reserve => JNumber (integerText (default 300 (oi_expiresInSeconds input))) | _ => JNull end);
    (js "reservationId", textOrNull (oi_reservationId input));
    (js "originalUsageEventId", textOrNull (oi_originalUsageEventId input));
    (js "originalRecordedAt", textOrNull (oi_originalRecordedAt input));
    (js "actor", textOrNull (trim <$> oi_actor input));
    (js "reason", textOrNull (trim <$> oi_reason input)) ]).

(** ** Outcomes *)

(** The results of the operations; [None] is null or a field the result does not have, but
    for [deductions], where it is a result without the field. *)
Record UsageOperationResult := {
  ur_allowed : option bool; ur_reason : option text; ur_usageEventId : option text; ur_recordedAt : option text;
  ur_reservationId : option text; ur_status : option text; ur_expiresAt : option text;
  ur_quantity : option text; ur_requestedQuantity : option text; ur_walletQuantity : option text;
  ur_originalUsageEventId : option text; ur_originalRecordedAt : option text;
  ur_balance : MeteringBalance; ur_deductions : option (list AllocationDeduction) }.

(** The public outcomes name their operation; the rest of the body is data. *)
Record PublicUsageOutcome := { pu_operationId : text; pu_entityId : option text; pu_body : json }.

Inductive StoredOutcome := Detailed (r : UsageOperationResult) | Public (p : PublicUsageOutcome).

Definition withBreakdown (breakdown : list BalanceAllocationBreakdown) (b : MeteringBalance) : MeteringBalance :=
  {| b_featureKey := b_featureKey b; b_unit := b_unit b; b_scale := b_scale b; b_granted := b_granted b;
     b_consumed := b_consumed b; b_held := b_held b; b_available := b_available b; b_unlimited := b_unlimited b;
     b_breakdown := breakdown; b_scope := b_scope b; b_windowStartAt := b_windowStartAt b; b_windowEndAt := b_windowEndAt b |}.

Definition withBalance (balance : MeteringBalance) (r : UsageOperationResult) : UsageOperationResult :=
  {| ur_allowed := ur_allowed r; ur_reason := ur_reason r; ur_usageEventId := ur_usageEventId r; ur_recordedAt := ur_recordedAt r;
     ur_reservationId := ur_reservationId r; ur_status := ur_status r; ur_expiresAt := ur_expiresAt r;
     ur_quantity := ur_quantity r; ur_requestedQuantity := ur_requestedQuantity r; ur_walletQuantity := ur_walletQuantity r;
     ur_originalUsageEventId := ur_originalUsageEventId r; ur_originalRecordedAt := ur_originalRecordedAt r;
     ur_balance := balance; ur_deductions := ur_deductions r |}.

Definition withChangedAllocationsOnly (o : StoredOutcome) : StoredOutcome :=
  match o with
  | Detailed r =>
      match ur_deductions r with
      | None => o
      | Some deductions =>
          let changed := map de_allocationId deductions in
          Detailed (withBalance (withBreakdown
            (List.filter (fun row => bool_decide (bb_allocationId row ∈ changed)) (b_breakdown (ur_balance r))) (ur_balance r)) r)
      end
  | Public _ => o
  end.

(** [compactReceipt] *)
Record UsageOperationReceipt := {
  up_allowed : bool; up_reason : text; up_usageEventId : option text; up_recordedAt : option text;
  up_reservationId : option text; up_reservationStatus : option text; up_expiresAt : option text;
  up_quantity : option text; up_walletQuantity : option text;
  up_originalUsageEventId : option text; up_originalRecordedAt : option text;
  up_featureKey : string; up_available : option text; up_consumed : text; up_held : text; up_unlimited : bool }.

Definition compactReceipt (r : UsageOperationResult) : UsageOperationReceipt :=
  {| up_allowed := default true (ur_allowed r); up_reason := default (js "allowed") (ur_reason r);
     up_usageEventId := ur_usageEventId r; up_recordedAt := ur_recordedAt r; up_reservationId := ur_reservationId r;
     up_reservationStatus := ur_status r; up_expiresAt := ur_expiresAt r;
     up_quantity := match ur_quantity r with Some q => Some q | None => ur_requestedQuantity r end;
     up_walletQuantity := ur_walletQuantity r; up_originalUsageEventId := ur_originalUsageEventId r;
     up_originalRecordedAt := ur_originalRecordedAt r; up_featureKey := b_featureKey (ur_balance r);
     up_available := b_available (ur_balance r); up_consumed := b_consumed (ur_balance r);
     up_held := b_held (ur_balance r); up_unlimited := b_unlimited (ur_balance r) |}.

(** ** Claims *)

(** A row of [client_idempotency_claims]. *)
Record Claim := {
  cl_id : Z; cl_request_fingerprint : text; cl_recovery_version : Z;
  cl_completed_at : option Z; cl_expires_at : Z; cl_result_expires_at : option Z; cl_outcome : option StoredOutcome }.

(** The billing account, the kind of operation and the caller's id. *)
Abbreviation Scope := (text * UsageOperationKind * text)%type.

Record Lookup := {
  lk_billingAccountId : text; lk_entityId : option text; lk_kind : UsageOperationKind; lk_operationId : text }.

(** Kinds are the five of [usageOperationKinds]. *)
Definition normalizeScope (input : Lookup) : result Scope :=
  let operationId := trim (lk_operationId input) in
  let billingAccountId := trim (lk_billingAccountId input) in
  let size := Z.of_nat (length operationId) in
  throwWhen ((size <? 1) || (200 <? size)) (InvalidRequest "Operation ID must contain between 1 and 200 characters") ;;
  throwWhen (bool_decide (billingAccountId = []) || (256 <? Z.of_nat (length billingAccountId)))
    (InvalidRequest "Invalid usage operation scope") ;;
  Ok (billingAccountId, lk_kind input, operationId).

Definition inProgress : error := BillingErr "Usage operation is in progress" "OPERATION_IN_PROGRESS" 409.
Definition resultExpired : error := BillingErr "Usage operation result has expired" "OPERATION_RESULT_EXPIRED" 409.
Definition idempotencyConflict : error := BillingErr "Operation identity is bound to different input" "IDEMPOTENCY_CONFLICT" 409.
Definition operationNotFound : error := BillingErr "Usage operation was not found" "OPERATION_NOT_FOUND" 404.

(** [identity_expired] and [result_expired] of [readClaim]. *)
Definition identity_expired (now : Z) (c : Claim) : bool := bool_decide (is_Some (cl_completed_at c)) && (cl_expires_at c <=? now).
Definition result_expired (now : Z) (c : Claim) : bool :=
  match cl_result_expires_at c with Some t => t <=? now | None => false end.

Definition retainedResult (now : Z) (c : Claim) : result StoredOutcome :=
  match cl_completed_at c with
  | None => Err inProgress
  | Some _ =>
      match cl_outcome c with
      | Some outcome =>
          if result_expired now c || negb ((cl_recovery_version c =? 1) || (cl_recovery_version c =? 2)) then Err resultExpired else Ok outcome
      | None => Err resultExpired
      end
  end.

Definition dayMs : Z := 86400000.
Definition weekMs : Z := 604800000.
Definition outcomeLimit : Z := 65536.

(** ** The operations on claims *)

Record OperationStore (D : Type) := { os_claims : gmap Scope Claim; os_domain : D }.
Arguments os_claims {D} _.
Arguments os_domain {D} _.

Section Operations.
Context {D P : Type}.
Context (localeCompare : text -> text -> comparison) (sha256Hex : text -> text) (outcomeBytes : StoredOutcome -> Z).
Context (client_idempotency_ttl_seconds : option Z).

Definition operationFingerprint (legacy : bool) (operation : UsageOperationKind) (input : UsageOperationInput) : result text :=
  request ← requestJson operation input;
  Ok (sha256Hex ((if legacy then legacyStableJson else stableJson) localeCompare request)).

(** A call: its options, the customer's row, and the mutation with the transaction's reads. *)
Record Operation := {
  oc_kind : UsageOperationKind; oc_input : UsageOperationInput; oc_recoveryVersion : Z;
  oc_prefetch : D -> result P; oc_customer : D -> result unit; oc_prepare : D -> result D;
  oc_mutation : P -> D -> result (D * StoredOutcome) }.

Definition operationScope (o : Operation) : result Scope :=
  normalizeScope {| lk_billingAccountId := oi_billingAccountId (oc_input o); lk_entityId := None;
    lk_kind := oc_kind o; lk_operationId := oi_idempotencyKey (oc_input o) |}.

(** When a result completed at [done] is dropped, and when its identity is. *)
Definition resultRetention (done : Z) : Z := done + Z.max dayMs (default 86400 client_idempotency_ttl_seconds * 1000).
Definition identityRetention (done : Z) : Z := done + Z.max weekMs (default 86400 client_idempotency_ttl_seconds * 1000).

(** The first of the outcomes that fits the recovery snapshot completes the claim. *)
Definition completeClaim (outcomes : list StoredOutcome) : result StoredOutcome :=
  match List.find (fun o => outcomeBytes o <=? outcomeLimit) outcomes with
  | Some o => Ok o
  | None => Err (BillingErr "Usage outcome exceeds the bounded recovery snapshot" "OPERATION_OUTCOME_TOO_LARGE" 500)
  end.

(** [acquired] is the answer of the advisory lock, [now] and [done] the clock where the claim
    is read and where it is completed, [newId] the id of the inserted claim. *)
Definition runUsageOperation (acquired : bool) (now done newId : Z) (o : Operation) (s : OperationStore D)
    : result (OperationStore D * StoredOutcome) :=
  scope ← operationScope o;
  fingerprint ← operationFingerprint false (oc_kind o) (oc_input o);
  let existing := os_claims s !! scope in
  let prefetched := oc_prefetch o (os_domain s) in
  throwWhen (negb acquired) inProgress ;;
  match (match existing with Some c => if identity_expired now c then None else Some c | None => None end) with
  | Some c =>
      throwWhen (negb (cl_recovery_version c =? oc_recoveryVersion o)) resultExpired ;;
      legacy ← operationFingerprint true (oc_kind o) (oc_input o);
      throwWhen ((0 <? cl_recovery_version c) && negb (bool_decide (cl_request_fingerprint c = fingerprint))
        && negb (bool_decide (cl_request_fingerprint c = legacy))) idempotencyConflict ;;
      outcome ← retainedResult now c;
      Ok (s, outcome)
  | None =>
      prefetched ← prefetched;
      _ ← oc_customer o (os_domain s);
      domain ← oc_prepare o (os_domain s);
      '(domain, result) ← oc_mutation o prefetched domain;
      outcome ← completeClaim [result; withChangedAllocationsOnly result];
      Ok ({| os_claims := <[ scope := {| cl_id := newId; cl_request_fingerprint := fingerprint;
               cl_recovery_version := oc_recoveryVersion o; cl_completed_at := Some done;
               cl_expires_at := identityRetention done; cl_result_expires_at := Some (resultRetention done);
               cl_outcome := Some outcome |} ]> (os_claims s);
             os_domain := domain |}, outcome)
  end.

(** ** Lookup *)

Inductive LookupResult :=
  | Processing
  | Completed (outcome : UsageOperationReceipt + PublicUsageOutcome) (completedAt : Z).

(** [acquired] is the answer of the shared lock, taken when no claim is visible; the claim
    read under it is the one read before. *)
Definition lookupUsageOperation (acquired : bool) (now : Z) (input : Lookup) (s : OperationStore D) : result LookupResult :=
  scope ← normalizeScope input;
  match (match os_claims s !! scope with Some c => if identity_expired now c then None else Some c | None => None end) with
  | None => if acquired then Err operationNotFound else Ok Processing
  | Some c =>
      match cl_completed_at c with
      | None => Ok Processing
      | Some completedAt =>
          outcome ← retainedResult now c;
          match outcome with
          | Detailed r => Ok (Completed (inl (compactReceipt r)) completedAt)
          | Public p =>
              throwWhen (negb (bool_decide (pu_entityId p = lk_entityId input))) operationNotFound ;;
              Ok (Completed (inr p) completedAt)
          end
      end
  end.

(** [publicOperationLookup] *)
Definition publicOperationLookup (kind : UsageOperationKind) (r : LookupResult) : result LookupResult :=
  match r with
  | Completed (inl _) _ => throwWhen (negb (bool_decide (kind = op_correct))) resultExpired ;; Ok r
  | _ => Ok r
  end.

(** ** Retention *)

Definition byTimeAndId (l r : Scope * (Z * Z)) : bool :=
  let '(_, (lt, li)) := l in let '(_, (rt, ri)) := r in (lt <? rt) || ((lt =? rt) && (li <? ri)).

(** The first [limit] of the scopes, by time and id. *)
Definition oldest (limit : nat) (rows : list (Scope * (Z * Z))) : list Scope := map fst (take limit (sortBy byTimeAndId rows)).

Definition dropOutcome (c : Claim) : Claim :=
  {| cl_id := cl_id c; cl_request_fingerprint := cl_request_fingerprint c; cl_recovery_version := cl_recovery_version c;
     cl_completed_at := cl_completed_at c; cl_expires_at := cl_expires_at c;
     cl_result_expires_at := cl_result_expires_at c; cl_outcome := None |}.

(** [skipped] are the rows other transactions hold locked. *)
Definition expireUsageOperationResults (now : Z) (limit : nat) (skipped : list Scope) (s : OperationStore D) : OperationStore D :=
  let targets := oldest limit (omap (fun '(k, c) =>
    match cl_completed_at c, cl_outcome c, cl_result_expires_at c with
    | Some _, Some _, Some t => if (t <=? now) && negb (bool_decide (k ∈ skipped)) then Some (k, (t, cl_id c)) else None
    | _, _, _ => None
    end) (map_to_list (os_claims s))) in
  {| os_claims := fold_left (fun m k => alter dropOutcome k m) targets (os_claims s); os_domain := os_domain s |}.

Definition deleteExpiredRows (now : Z) (limit : nat) (skipped : list Scope) (s : OperationStore D) : OperationStore D :=
  let targets := oldest limit (omap (fun '(k, c) =>
    if (cl_expires_at c <=? now) && bool_decide (is_Some (cl_completed_at c)) && negb (bool_decide (k ∈ skipped))
    then Some (k, (cl_expires_at c, cl_id c)) else None) (map_to_list (os_claims s))) in
  {| os_claims := fold_left (fun m k => delete k m) targets (os_claims s); os_domain := os_domain s |}.
End Operations.
Arguments Operation : clear implicits.

(** ** Runs *)

Section Runs.
Context {D P : Type}.
Context (localeCompare : text -> text -> comparison) (sha256Hex : text -> text) (outcomeBytes : StoredOutcome -> Z).
Context (ttl : option Z).

Abbreviation run := (runUsageOperation localeCompare sha256Hex outcomeBytes ttl).
Abbreviation fingerprint := (operationFingerprint localeCompare sha256Hex).

(** What happens to the claims: calls, and the retention jobs. *)
Inductive event :=
  | Call (acquired : bool) (now done newId : Z) (o : Operation D P)
  | ExpireResults (now : Z) (limit : nat) (skipped : list Scope)
  | DeleteExpired (now : Z) (limit : nat) (skipped : list Scope).

Definition eventTime (e : event) : Z :=
  match e with Call _ now _ _ _ => now | ExpireResults now _ _ => now | DeleteExpired now _ _ => now end.

(** The store after an event, and the answer to a call; a transaction that throws is undone. *)
Definition perform (s : OperationStore D) (e : event) : OperationStore D * option (result StoredOutcome) :=
  match e with
  | Call acquired now done newId o =>
      match run acquired now done newId o s with Ok (s', out) => (s', Some (Ok out)) | Err e => (s, Some (Err e)) end
  | ExpireResults now limit skipped => (expireUsageOperationResults now limit skipped s, None)
  | DeleteExpired now limit skipped => (deleteExpiredRows now limit skipped s, None)
  end.

Definition performAll (s : OperationStore D) (es : list event) : OperationStore D := fold_left (fun s e => fst (perform s e)) es s.

(** *** Claims within their retention *)

(** The claim of a scope stays what it was, but for an outcome that has expired. *)
Definition sameClaim (c c' : Claim) : Prop := c' = c \/ c' = dropOutcome c.

Lemma dropOutcome_twice c : dropOutcome (dropOutcome c) = dropOutcome c.
Proof. done. Qed.

Lemma oldest_elem k limit rows : k ∈ oldest limit rows -> exists t, (k, t) ∈ rows.
Proof.
  unfold oldest. intros ([k' t] & -> & (i & Hi & _)%elem_of_take)%list_elem_of_fmap. exists t.
  rewrite <- (sortBy_perm byTimeAndId rows). by apply list_elem_of_lookup_2 in Hi.
Qed.

Lemma fold_drop_lookup (l : list Scope) (m : gmap Scope Claim) k :
  fold_left (fun m k => alter dropOutcome k m) l m !! k = if decide (k ∈ l) then dropOutcome <$> m !! k else m !! k.
Proof.
  revert m. induction l as [|x l IH]; intros m; cbn; [by rewrite decide_False by apply not_elem_of_nil|]. rewrite IH.
  destruct (decide (k = x)) as [->|Hne].
  - rewrite lookup_alter_eq, (decide_True (P := x ∈ x :: l)) by constructor. destruct (m !! x); cbn; by destruct (decide _).
  - rewrite lookup_alter_ne by done. destruct (decide (k ∈ l)).
    + by rewrite decide_True by by right.
    + rewrite decide_False; [done|]. intros [?|?]%elem_of_cons; done.
Qed.

Lemma fold_delete_lookup (l : list Scope) (m : gmap Scope Claim) k :
  fold_left (fun m k => delete k m) l m !! k = if decide (k ∈ l) then None else m !! k.
Proof.
  revert m. induction l as [|x l IH]; intros m; cbn; [by rewrite decide_False by apply not_elem_of_nil|]. rewrite IH.
  destruct (decide (k = x)) as [->|Hne].
  - rewrite lookup_delete_eq, (decide_True (P := x ∈ x :: l)) by constructor. by destruct (decide _).
  - rewrite lookup_delete_ne by done. destruct (decide (k ∈ l)).
    + by rewrite decide_True by by right.
    + rewrite decide_False; [done|]. intros [?|?]%elem_of_cons; done.
Qed.

(** What a successful call has done. *)
Inductive ran (now done newId : Z) (o : Operation D P) (s s' : OperationStore D) (out : StoredOutcome) : Prop :=
  | ran_replay scope c fp legacy : operationScope o = Ok scope -> os_claims s !! scope = Some c -> identity_expired now c = false ->
      fingerprint false (oc_kind o) (oc_input o) = Ok fp -> fingerprint true (oc_kind o) (oc_input o) = Ok legacy ->
      cl_recovery_version c = oc_recoveryVersion o ->
      (0 < cl_recovery_version c -> cl_request_fingerprint c = fp \/ cl_request_fingerprint c = legacy) ->
      retainedResult now c = Ok out -> s' = s -> ran now done newId o s s' out
  | ran_fresh scope fp read d d' res : operationScope o = Ok scope ->
      (forall c, os_claims s !! scope = Some c -> identity_expired now c = true) ->
      fingerprint false (oc_kind o) (oc_input o) = Ok fp -> oc_prefetch o (os_domain s) = Ok read ->
      oc_customer o (os_domain s) = Ok () -> oc_prepare o (os_domain s) = Ok d -> oc_mutation o read d = Ok (d', res) ->
      completeClaim outcomeBytes [res; withChangedAllocationsOnly res] = Ok out ->
      s' = {| os_claims := <[ scope := {| cl_id := newId; cl_request_fingerprint := fp; cl_recovery_version := oc_recoveryVersion o;
                 cl_completed_at := Some done; cl_expires_at := identityRetention ttl done;
                 cl_result_expires_at := Some (resultRetention ttl done); cl_outcome := Some out |} ]> (os_claims s);
              os_domain := d' |} -> ran now done newId o s s' out.

Lemma run_ran acquired now done newId o s s' out : run acquired now done newId o s = Ok (s', out) -> ran now done newId o s s' out.
Proof.
  unfold runUsageOperation. intros H. apply bind_Ok in H as (scope & Es & H). apply bind_Ok in H as (fp & Ef & H).
  apply bind_Ok in H as (u & _ & H).
  assert (Hfresh : (forall c, os_claims s !! scope = Some c -> identity_expired now c = true) ->
    (prefetched ← oc_prefetch o (os_domain s); _ ← oc_customer o (os_domain s); domain ← oc_prepare o (os_domain s);
     '(domain, result) ← oc_mutation o prefetched domain;
     outcome ← completeClaim outcomeBytes [result; withChangedAllocationsOnly result];
     Ok ({| os_claims := <[ scope := {| cl_id := newId; cl_request_fingerprint := fp;
               cl_recovery_version := oc_recoveryVersion o; cl_completed_at := Some done;
               cl_expires_at := identityRetention ttl done; cl_result_expires_at := Some (resultRetention ttl done);
               cl_outcome := Some outcome |} ]> (os_claims s);
             os_domain := domain |}, outcome)) = Ok (s', out) -> ran now done newId o s s' out).
  { clear H. intros Hc H. apply bind_Ok in H as (read & Er & H). apply bind_Ok in H as ([] & Ec & H). apply bind_Ok in H as (d & Ed & H).
    apply bind_Ok in H as ([d' res] & Em & H). apply bind_Ok in H as (out' & Eo & H). injection H as <- <-. by eapply ran_fresh. }
  destruct (os_claims s !! scope) as [c|] eqn:El; [destruct (identity_expired now c) eqn:Ei|].
  - apply Hfresh; [|done]. by intros c' [= <-].
  - apply bind_Ok in H as (u2 & Hv%throwWhen_Ok & H). apply bind_Ok in H as (legacy & Eg & H). apply bind_Ok in H as (u3 & Hf%throwWhen_Ok & H).
    apply bind_Ok in H as (out' & Er & H). injection H as <- <-. apply negb_false_iff, Z.eqb_eq in Hv.
    eapply ran_replay; try done. intros Hpos. apply andb_false_iff in Hf as [Hf|Hf]; [apply andb_false_iff in Hf as [Hf|Hf]|].
    + apply Z.ltb_ge in Hf. lia.
    + left. by apply negb_false_iff, bool_decide_eq_true in Hf.
    + right. by apply negb_false_iff, bool_decide_eq_true in Hf.
  - apply Hfresh; [done|done].
Qed.

(** A claim outlives every event before its identity expires. *)
Lemma perform_claim s e k c d0 : os_claims s !! k = Some c -> cl_completed_at c = Some d0 -> eventTime e < cl_expires_at c ->
  exists c', os_claims (fst (perform s e)) !! k = Some c' /\ sameClaim c c' /\
    ((forall t, cl_result_expires_at c = Some t -> eventTime e < t) -> c' = c).
Proof.
  intros Hk Hd Ht. assert (Hsame : sameClaim c c) by by left. destruct e as [acquired now dn newId o|now limit skipped|now limit skipped]; cbn [eventTime perform] in *.
  - exists c. split; [|done]. destruct (run acquired now dn newId o s) as [[s' out]|er] eqn:Er; [|done].
    apply run_ran in Er as [|scope fp read d d' res _ Hfresh _ _ _ _ _ _ ->]; [by subst|]. cbn.
    destruct (decide (scope = k)) as [->|Hne]; [|by rewrite lookup_insert_ne]. exfalso.
    specialize (Hfresh c Hk). unfold identity_expired in Hfresh. apply andb_prop in Hfresh as [_ Hle%Z.leb_le]. lia.
  - cbn [fst expireUsageOperationResults os_claims]. rewrite fold_drop_lookup, Hk. destruct (decide _) as [Hin|]; [|by exists c].
    exists (dropOutcome c). split; [done|]. split; [by right|]. intros Hr. exfalso. apply oldest_elem in Hin as ([t i] & Hin).
    apply list_elem_of_omap in Hin as ([k' c'] & Hin & E). apply elem_of_map_to_list in Hin.
    destruct (cl_completed_at c'), (cl_outcome c'), (cl_result_expires_at c') as [t'|] eqn:Et; try done.
    destruct (Z.leb_spec t' now); [|done]. destruct (negb _); [|done]. injection E as -> <- _.
    assert (c' = c) as -> by congruence. specialize (Hr t' Et). lia.
  - cbn [fst deleteExpiredRows os_claims]. rewrite fold_delete_lookup, Hk. destruct (decide _) as [Hin|]; [|by exists c].
    exfalso. apply oldest_elem in Hin as ([t i] & Hin). apply list_elem_of_omap in Hin as ([k' c'] & Hin & E). apply elem_of_map_to_list in Hin.
    destruct (Z.leb_spec (cl_expires_at c') now); [|done]. destruct (_ && _); [|done]. injection E as -> <- _.
    assert (c' = c) as -> by congruence. lia.
Qed.

Lemma performAll_claim es : forall s k c d0, os_claims s !! k = Some c -> cl_completed_at c = Some d0 ->
  Forall (fun e => eventTime e < cl_expires_at c) es ->
  exists c', os_claims (performAll s es) !! k = Some c' /\ sameClaim c c' /\
    ((forall t, cl_result_expires_at c = Some t -> Forall (fun e => eventTime e < t) es) -> c' = c).
Proof.
  induction es as [|e es IH]; intros s k c d0 Hk Hd Hall; [exists c; split; [done|]; split; [by left|done]|].
  apply Forall_cons in Hall as [He Hall]. destruct (perform_claim s e k c d0 Hk Hd He) as (c1 & Hk1 & Hs1 & Hr1).
  assert (Hf : cl_completed_at c1 = Some d0 /\ cl_expires_at c1 = cl_expires_at c /\ cl_result_expires_at c1 = cl_result_expires_at c)
    by (by destruct Hs1 as [ -> | -> ]).
  destruct Hf as (Hd1 & He1 & Ht1). rewrite <- He1 in Hall. destruct (IH _ k c1 d0 Hk1 Hd1 Hall) as (c2 & Hk2 & Hs2 & Hr2).
  exists c2. split; [done|]. split.
  - destruct Hs1 as [ -> | -> ], Hs2 as [ -> | -> ]; rewrite ?dropOutcome_twice; [by left|by right|by right|by right].
  - intros Hr. rewrite Ht1 in Hr2. rewrite Hr2, Hr1; [done| |]; intros t Et; specialize (Hr t Et); by apply Forall_cons in Hr as [? ?].
Qed.

(** The claim a first run leaves. *)
Lemma run_claim acquired now d0 newId (o : Operation D P) s s1 out : run acquired now d0 newId o s = Ok (s1, out) ->
  (forall scope c, operationScope o = Ok scope -> os_claims s !! scope = Some c -> identity_expired now c = true) ->
  exists scope fp, operationScope o = Ok scope /\ fingerprint false (oc_kind o) (oc_input o) = Ok fp /\
    os_claims s1 !! scope = Some {| cl_id := newId; cl_request_fingerprint := fp; cl_recovery_version := oc_recoveryVersion o;
      cl_completed_at := Some d0; cl_expires_at := identityRetention ttl d0; cl_result_expires_at := Some (resultRetention ttl d0);
      cl_outcome := Some out |}.
Proof.
  intros H Hfresh. apply run_ran in H as [scope c fp legacy Es El Ei _ _ _ _ _ _|scope fp read d d' res Es _ Ef _ _ _ _ _ ->].
  - rewrite (Hfresh scope c Es El) in Ei. done.
  - exists scope, fp. split_and!; [done|done|]. cbn. by rewrite lookup_insert_eq.
Qed.

Lemma retention_bounds t : t + weekMs <= identityRetention ttl t /\ t + dayMs <= resultRetention ttl t.
Proof. unfold identityRetention, resultRetention. lia. Qed.

(** The claim of a first run, after the events of its retention. *)
Lemma claim_after acquired now d0 newId (o : Operation D P) s s1 out es : run acquired now d0 newId o s = Ok (s1, out) ->
  (forall scope c, operationScope o = Ok scope -> os_claims s !! scope = Some c -> identity_expired now c = true) ->
  Forall (fun e => eventTime e < d0 + weekMs) es ->
  exists scope fp c, operationScope o = Ok scope /\ fingerprint false (oc_kind o) (oc_input o) = Ok fp /\
    os_claims (performAll s1 es) !! scope = Some c /\ cl_request_fingerprint c = fp /\ cl_recovery_version c = oc_recoveryVersion o /\
    cl_completed_at c = Some d0 /\ d0 + weekMs <= cl_expires_at c /\ (forall res, cl_outcome c = Some res -> res = out) /\
    (Forall (fun e => eventTime e < d0 + dayMs) es -> cl_outcome c = Some out /\ exists t, cl_result_expires_at c = Some t /\ d0 + dayMs <= t).
Proof.
  intros H Hfresh Hes. destruct (run_claim _ _ _ _ _ _ _ _ H Hfresh) as (scope & fp & Es & Ef & El). pose proof (retention_bounds d0) as [Hw Hd].
  destruct (performAll_claim es s1 scope _ d0 El eq_refl) as (c & Hc & Hsame & Hkeep).
  { eapply Forall_impl; [exact Hes|]. cbn. lia. }
  exists scope, fp, c. split_and!; [done|done|done|..]; try (by destruct Hsame as [ -> | -> ]).
  - destruct Hsame as [ -> | -> ]; cbn; congruence.
  - intros Hday. rewrite Hkeep; [cbn; eauto|]. cbn. intros t [= <-]. eapply Forall_impl; [exact Hday|]. cbn. lia.
Qed.
End Runs.
Arguments event : clear implicits.

(** C8: An operation id is applied once.  After a first success, and whatever other calls and
    retention jobs run, for 168 hours no call under the same account, kind and operation id
    writes anything: one that succeeds leaves the store as it is, returns the outcome of the
    first, has its response contract, and sent a request of the same fingerprint. *)
Theorem operation_applied_once {D P} localeCompare sha256Hex outcomeBytes ttl (s s1 s3 : OperationStore D) acquired now d0 newId
    (o : Operation D P) out (es : list (event D P)) acquired2 now2 d2 newId2 (o2 : Operation D P) out2 :
  runUsageOperation localeCompare sha256Hex outcomeBytes ttl acquired now d0 newId o s = Ok (s1, out) ->
  (forall scope c, operationScope o = Ok scope -> os_claims s !! scope = Some c -> identity_expired now c = true) ->
  Forall (fun e => eventTime e < d0 + weekMs) es -> now2 < d0 + weekMs -> operationScope o2 = operationScope o ->
  let s2 := performAll localeCompare sha256Hex outcomeBytes ttl s1 es in
  runUsageOperation localeCompare sha256Hex outcomeBytes ttl acquired2 now2 d2 newId2 o2 s2 = Ok (s3, out2) ->
  s3 = s2 /\ out2 = out /\ oc_recoveryVersion o2 = oc_recoveryVersion o /\
  (0 < oc_recoveryVersion o -> exists legacy, operationFingerprint localeCompare sha256Hex legacy (oc_kind o2) (oc_input o2)
    = operationFingerprint localeCompare sha256Hex false (oc_kind o) (oc_input o)).
Proof.
  intros H Hfresh Hes Hnow Hscope s2 H2.
  destruct (claim_after _ _ _ _ _ _ _ _ _ _ _ _ es H Hfresh Hes) as (scope & fp & c & Es & Ef & El & Hfp & Hv & Hd & Hexp & Hout & _).
  rewrite Es in Hscope. apply run_ran in H2 as [scope2 c2 fp2 legacy Es2 El2 _ Ef2 Eg2 Hv2 Hfp2 Hret ->|scope2 fp2 read d d' res Es2 Hfresh2 _ _ _ _ _ _ _];
    assert (scope2 = scope) as -> by congruence; subst s2.
  - assert (c2 = c) as -> by congruence. split; [done|]. split.
    + apply Hout. unfold retainedResult in Hret. rewrite Hd in Hret. destruct (cl_outcome c) as [res|]; [|done].
      destruct (_ || _); [done|]. congruence.
    + split; [congruence|]. intros Hpos. destruct (Hfp2 ltac:(lia)) as [E|E]; [exists false|exists true]; congruence.
  - specialize (Hfresh2 c El). unfold identity_expired in Hfresh2. apply andb_prop in Hfresh2 as [_ Hle%Z.leb_le]. lia.
Qed.

(** A retry is answered.  For a day after a first success, the same request under the same
    id and response contract, once it holds the lock, returns the outcome of the first and
    writes nothing, whatever the domain has become and whatever calls and retention jobs ran. *)
Theorem retry_is_answered {D P} localeCompare sha256Hex outcomeBytes ttl (s s1 : OperationStore D) acquired now d0 newId
    (o : Operation D P) out (es : list (event D P)) now2 d2 newId2 (o2 : Operation D P) :
  runUsageOperation localeCompare sha256Hex outcomeBytes ttl acquired now d0 newId o s = Ok (s1, out) ->
  (forall scope c, operationScope o = Ok scope -> os_claims s !! scope = Some c -> identity_expired now c = true) ->
  Forall (fun e => eventTime e < d0 + dayMs) es -> now2 < d0 + dayMs ->
  oc_kind o2 = oc_kind o -> oc_input o2 = oc_input o -> oc_recoveryVersion o2 = oc_recoveryVersion o ->
  oc_recoveryVersion o = 1 \/ oc_recoveryVersion o = 2 ->
  let s2 := performAll localeCompare sha256Hex outcomeBytes ttl s1 es in
  runUsageOperation localeCompare sha256Hex outcomeBytes ttl true now2 d2 newId2 o2 s2 = Ok (s2, out).
Proof.
  intros H Hfresh Hes Hnow Hk Hinput Hversion Hv12 s2.
  assert (Hweek : Forall (fun e => eventTime e < d0 + weekMs) es).
  { eapply Forall_impl; [exact Hes|]. unfold dayMs, weekMs. cbn. lia. }
  destruct (claim_after _ _ _ _ _ _ _ _ _ _ _ _ es H Hfresh Hweek) as (scope & fp & c & Es & Ef & El & Hfp & Hv & Hd & Hexp & _ & Hday).
  destruct (Hday Hes) as (Hout & t & Ht & Hle). fold s2 in El.
  assert (Es2 : operationScope o2 = Ok scope) by (unfold operationScope in *; by rewrite Hk, Hinput).
  unfold runUsageOperation. rewrite Es2, Hk, Hinput, Ef. cbn [mbind result_bind]. rewrite El.
  assert (Hid : identity_expired now2 c = false).
  { unfold identity_expired. replace (cl_expires_at c <=? now2) with false; [apply andb_false_r|]. symmetry. apply Z.leb_gt. unfold weekMs, dayMs in *. lia. }
  rewrite Hid, Hversion, <- Hv, Z.eqb_refl. cbn [negb throwWhen mbind result_bind].
  destruct (operationFingerprint localeCompare sha256Hex true (oc_kind o) (oc_input o)) as [legacy|er] eqn:Eg.
  2:{ unfold operationFingerprint in Ef, Eg. destruct (requestJson (oc_kind o) (oc_input o)); done. }
  cbn [mbind result_bind]. rewrite (bool_decide_true (cl_request_fingerprint c = fp)) by done. rewrite andb_false_r. cbn [negb andb throwWhen mbind result_bind].
  unfold retainedResult, result_expired. rewrite Hd, Hout, Ht. replace (t <=? now2) with false by (symmetry; apply Z.leb_gt; lia).
  rewrite Hv. by destruct Hv12 as [-> | ->].
Qed.

(** An operation id belongs to one request.  For 168 hours after a first success, a
    different request under the same account, kind and operation id is refused as a
    conflict, unless SHA-256 collides on the two requests' texts: requests differ when
    they differ in any field but the order of filters and metadata. *)
Theorem different_request_conflicts {D P} localeCompare sha256Hex outcomeBytes ttl (s s1 : OperationStore D) acquired now d0 newId
    (o : Operation D P) out (es : list (event D P)) now2 d2 newId2 (o2 : Operation D P) r r2 :
  runUsageOperation localeCompare sha256Hex outcomeBytes ttl acquired now d0 newId o s = Ok (s1, out) ->
  (forall scope c, operationScope o = Ok scope -> os_claims s !! scope = Some c -> identity_expired now c = true) ->
  Forall (fun e => eventTime e < d0 + weekMs) es -> now2 < d0 + weekMs -> operationScope o2 = operationScope o ->
  oc_recoveryVersion o2 = oc_recoveryVersion o -> 0 < oc_recoveryVersion o ->
  requestJson (oc_kind o) (oc_input o) = Ok r -> requestJson (oc_kind o2) (oc_input o2) = Ok r2 ->
  json_ok r -> json_ok r2 -> ~ same_json r2 r ->
  (forall t, t = stableJson localeCompare r2 \/ t = legacyStableJson localeCompare r2 ->
    sha256Hex t = sha256Hex (stableJson localeCompare r) -> t = stableJson localeCompare r) ->
  runUsageOperation localeCompare sha256Hex outcomeBytes ttl true now2 d2 newId2 o2
    (performAll localeCompare sha256Hex outcomeBytes ttl s1 es) = Err idempotencyConflict.
Proof.
  intros H Hfresh Hes Hnow Hscope Hversion Hpos Er Er2 Hok Hok2 Hdiff Hsha.
  destruct (claim_after _ _ _ _ _ _ _ _ _ _ _ _ es H Hfresh Hes) as (scope & fp & c & Es & Ef & El & Hfp & Hv & Hd & Hexp & _).
  set (s2 := performAll _ _ _ _ _ _) in *. rewrite Es in Hscope.
  unfold operationFingerprint in Ef. rewrite Er in Ef. injection Ef as <-.
  assert (Hne : forall b, sha256Hex (serializeStable localeCompare b r2) <> sha256Hex (stableJson localeCompare r)).
  { intros b E. apply Hdiff. apply Hsha in E; [|destruct b; tauto].
    assert (E' : serializeStable localeCompare b r2 ++ [] = serializeStable localeCompare true r ++ []) by by rewrite !app_nil_r.
    by apply ser_inj in E' as [E' _]. }
  unfold runUsageOperation. rewrite Hscope. unfold operationFingerprint. rewrite Er2. cbn [mbind result_bind negb throwWhen]. rewrite El.
  assert (Hid : identity_expired now2 c = false).
  { unfold identity_expired. replace (cl_expires_at c <=? now2) with false; [apply andb_false_r|]. symmetry. apply Z.leb_gt. lia. }
  rewrite Hid, Hversion, <- Hv, Z.eqb_refl. cbn [negb throwWhen mbind result_bind].
  rewrite (bool_decide_false (_ = sha256Hex (stableJson localeCompare r2))) by (rewrite Hfp; exact (not_eq_sym (Hne true))).
  rewrite (bool_decide_false (_ = sha256Hex (legacyStableJson localeCompare r2))) by (rewrite Hfp; exact (not_eq_sym (Hne false))).
  replace (0 <? cl_recovery_version c) with true by (symmetry; apply Z.ltb_lt; lia). done.
Qed.

(** ** The ledger the claims implement *)

(** Every id ever answered keeps its request and its answer. *)
Record Ledger (D : Type) := { ld_answers : gmap Scope (text * Z * StoredOutcome); ld_domain : D }.
Arguments ld_answers {D} _.
Arguments ld_domain {D} _.

Section Refinement.
Context {D P : Type}.
Context (localeCompare : text -> text -> comparison) (sha256Hex : text -> text) (outcomeBytes : StoredOutcome -> Z).
Context (ttl : option Z).

Abbreviation fingerprint := (operationFingerprint localeCompare sha256Hex).

(** A request is applied once, and answered ever after; [acquired] as the lock answers. *)
Definition applyOnce (acquired : bool) (o : Operation D P) (l : Ledger D) : result (Ledger D * StoredOutcome) :=
  scope ← operationScope o;
  fp ← fingerprint false (oc_kind o) (oc_input o);
  throwWhen (negb acquired) inProgress ;;
  match ld_answers l !! scope with
  | Some (known, version, outcome) =>
      throwWhen (negb (version =? oc_recoveryVersion o)) resultExpired ;;
      legacy ← fingerprint true (oc_kind o) (oc_input o);
      throwWhen (negb (bool_decide (known = fp \/ known = legacy))) idempotencyConflict ;;
      Ok (l, outcome)
  | None =>
      read ← oc_prefetch o (ld_domain l);
      _ ← oc_customer o (ld_domain l);
      domain ← oc_prepare o (ld_domain l);
      '(domain, res) ← oc_mutation o read domain;
      outcome ← completeClaim outcomeBytes [res; withChangedAllocationsOnly res];
      Ok ({| ld_answers := <[ scope := (fp, oc_recoveryVersion o, outcome) ]> (ld_answers l); ld_domain := domain |}, outcome)
  end.

Definition ledgerPerform (l : Ledger D) (e : event D P) : Ledger D * option (result StoredOutcome) :=
  match e with
  | Call acquired _ _ _ o => match applyOnce acquired o l with Ok (l', out) => (l', Some (Ok out)) | Err e => (l, Some (Err e)) end
  | _ => (l, None)
  end.

Fixpoint ledgerAnswers (l : Ledger D) (es : list (event D P)) : list (option (result StoredOutcome)) * D :=
  match es with
  | [] => ([], ld_domain l)
  | e :: es => let '(l', a) := ledgerPerform l e in let '(answers, d) := ledgerAnswers l' es in (a :: answers, d)
  end.

Fixpoint storeAnswers (s : OperationStore D) (es : list (event D P)) : list (option (result StoredOutcome)) * D :=
  match es with
  | [] => ([], os_domain s)
  | e :: es =>
      let '(s', a) := perform localeCompare sha256Hex outcomeBytes ttl s e in
      let '(answers, d) := storeAnswers s' es in (a :: answers, d)
  end.

(** A claim holds an answer up to [horizon]. *)
Definition holds_answer (horizon : Z) (c : Claim) (a : text * Z * StoredOutcome) : Prop :=
  let '(fp, version, outcome) := a in
  cl_request_fingerprint c = fp /\ cl_recovery_version c = version /\ cl_outcome c = Some outcome /\ (version = 1 \/ version = 2) /\
  is_Some (cl_completed_at c) /\ horizon <= cl_expires_at c /\ exists t, cl_result_expires_at c = Some t /\ horizon <= t.

Definition simulates (horizon : Z) (s : OperationStore D) (l : Ledger D) : Prop :=
  os_domain s = ld_domain l /\ forall k, option_relation (holds_answer horizon) (const False) (const False) (os_claims s !! k) (ld_answers l !! k).

Definition event_within (t0 : Z) (e : event D P) : Prop :=
  eventTime e < t0 + dayMs /\
  match e with Call _ _ d _ o => t0 <= d /\ (oc_recoveryVersion o = 1 \/ oc_recoveryVersion o = 2) | _ => True end.

Lemma retention_none s (e : event D P) k : match e with Call _ _ _ _ _ => False | _ => True end -> os_claims s !! k = None ->
  os_claims (fst (perform localeCompare sha256Hex outcomeBytes ttl s e)) !! k = None.
Proof.
  intros He Hk. destruct e as [| |]; [done| |]; cbn; rewrite ?fold_drop_lookup, ?fold_delete_lookup, Hk; by destruct (decide _).
Qed.

(** A retention job touches no claim that holds an answer. *)
Lemma retention_simulates horizon s l (e : event D P) : simulates horizon s l -> eventTime e < horizon ->
  match e with Call _ _ _ _ _ => False | _ => True end ->
  simulates horizon (fst (perform localeCompare sha256Hex outcomeBytes ttl s e)) l.
Proof.
  intros [Hd Hall] Ht He. split; [by destruct e|]. intros k. specialize (Hall k).
  destruct (os_claims s !! k) as [c|] eqn:Ek; [|by rewrite (retention_none _ _ _ He Ek)].
  destruct (ld_answers l !! k) as [[[fp v] out]|] eqn:El; [|done]. cbn in Hall.
  pose proof Hall as (_ & _ & _ & _ & [d0 Hd0] & Hexp & t & Hres & Hle).
  destruct (perform_claim localeCompare sha256Hex outcomeBytes ttl s e k c d0 Ek Hd0 ltac:(lia)) as (c' & Ek' & _ & Hkeep).
  rewrite Ek', Hkeep; [exact Hall|]. intros t' Ht'. assert (t' = t) as -> by congruence. lia.
Qed.

(** A call answers as the ledger does, from related states to related states. *)
Lemma call_simulates t0 s l acquired now d0 newId (o : Operation D P) : simulates (t0 + dayMs) s l ->
  event_within t0 (Call acquired now d0 newId o) ->
  match runUsageOperation localeCompare sha256Hex outcomeBytes ttl acquired now d0 newId o s, applyOnce acquired o l with
  | Ok (s', out), Ok (l', out') => out = out' /\ simulates (t0 + dayMs) s' l'
  | Err e, Err e' => e = e'
  | _, _ => False
  end.
Proof.
  intros Hsim (Hnow & Hdone & Hver). cbn [eventTime] in Hnow. pose proof Hsim as [Hd Hall]. unfold runUsageOperation, applyOnce.
  destruct (operationScope o) as [scope|e]; [|done]. cbn [mbind result_bind].
  destruct (fingerprint false (oc_kind o) (oc_input o)) as [fp|e] eqn:Ef; [|done]. cbn [mbind result_bind].
  destruct acquired; [|done]. cbn [negb throwWhen mbind result_bind]. specialize (Hall scope) as Hk.
  destruct (os_claims s !! scope) as [c|] eqn:Ec, (ld_answers l !! scope) as [[[known v] out]|] eqn:El; try done.
  - cbn in Hk. destruct Hk as (<- & <- & Hout & Hv12 & Hcomp & Hexp & t & Hres & Hle).
    assert (Hid : identity_expired now c = false).
    { unfold identity_expired. replace (cl_expires_at c <=? now) with false; [apply andb_false_r|]. symmetry. apply Z.leb_gt. lia. }
    rewrite Hid. destruct (Z.eqb_spec (cl_recovery_version c) (oc_recoveryVersion o)) as [Ev|]; [|done]. cbn [negb throwWhen mbind result_bind].
    destruct (fingerprint true (oc_kind o) (oc_input o)) as [legacy|e]; [|done]. cbn [mbind result_bind].
    replace (0 <? cl_recovery_version c) with true by (symmetry; apply Z.ltb_lt; lia). cbn [andb].
    assert (Ef2 : negb (bool_decide (cl_request_fingerprint c = fp)) && negb (bool_decide (cl_request_fingerprint c = legacy))
      = negb (bool_decide (cl_request_fingerprint c = fp \/ cl_request_fingerprint c = legacy))).
    { rewrite <- negb_orb. f_equal. symmetry. apply bool_decide_or. }
    rewrite Ef2. destruct (negb (bool_decide (_ \/ _))); cbn [throwWhen mbind result_bind]; [done|].
    unfold retainedResult, result_expired. destruct Hcomp as [d1 ->]. rewrite Hout, Hres.
    replace (t <=? now) with false by (symmetry; apply Z.leb_gt; lia). by destruct Hv12 as [-> | ->].
  - rewrite Hd. destruct (oc_prefetch o (ld_domain l)) as [read|e]; [|done]. cbn [mbind result_bind].
    destruct (oc_customer o (ld_domain l)) as [u|e]; [|done]. cbn [mbind result_bind].
    destruct (oc_prepare o (ld_domain l)) as [d|e]; [|done]. cbn [mbind result_bind].
    destruct (oc_mutation o read d) as [[d' res]|e]; [|done]. cbn [mbind result_bind].
    destruct (completeClaim outcomeBytes _) as [out|e]; [|done]. cbn [mbind result_bind]. split; [done|].
    split; [done|]. intros k. cbn. destruct (decide (scope = k)) as [->|Hne]; [|by rewrite !lookup_insert_ne].
    rewrite !lookup_insert_eq. cbn. pose proof (retention_bounds ttl d0) as [Hw Hdy].
    split_and!; cbn; try done; [unfold weekMs, dayMs in *; lia|]. eexists. split; [done|]. unfold dayMs in *. lia.
Qed.

Lemma answers_simulate t0 es : forall s l, simulates (t0 + dayMs) s l -> Forall (event_within t0) es -> storeAnswers s es = ledgerAnswers l es.
Proof.
  induction es as [|e es IH]; intros s l Hsim Hes; cbn [storeAnswers ledgerAnswers].
  - by destruct Hsim as [-> _].
  - apply Forall_cons in Hes as [He Hes]. destruct e as [acquired now d0 newId o|now limit skipped|now limit skipped].
    + pose proof (call_simulates t0 s l acquired now d0 newId o Hsim He) as Hc. cbn [perform ledgerPerform].
      destruct (runUsageOperation _ _ _ _ _ _ _ _ _ _) as [[s' out]|er], (applyOnce _ _ _) as [[l' out']|er']; try done.
      * destruct Hc as [-> Hs]. by rewrite (IH s' l' Hs Hes).
      * subst er'. by rewrite (IH s l Hsim Hes).
    + pose proof (retention_simulates _ s l (ExpireResults now limit skipped) Hsim (proj1 He) I) as Hs. cbn [perform ledgerPerform fst] in *. by rewrite (IH _ l Hs Hes).
    + pose proof (retention_simulates _ s l (DeleteExpired now limit skipped) Hsim (proj1 He) I) as Hs. cbn [perform ledgerPerform fst] in *. by rewrite (IH _ l Hs Hes).
Qed.
End Refinement.

(** C7: Within a day, the claims refine a ledger in which every operation id is applied once
    and its answer kept for ever: over any sequence of calls (retries, conflicting
    reuses, calls that find the lock taken, calls that throw) and retention jobs, the
    answers and the domain are the ledger's. *)
Theorem operations_refine_ledger {D P} localeCompare sha256Hex outcomeBytes ttl (es : list (event D P)) t0 d :
  Forall (event_within t0) es ->
  storeAnswers localeCompare sha256Hex outcomeBytes ttl {| os_claims := ∅; os_domain := d |} es =
  ledgerAnswers localeCompare sha256Hex outcomeBytes {| ld_answers := ∅; ld_domain := d |} es.
Proof.
  apply answers_simulate. split; [done|]. intros k. cbn. by rewrite !lookup_empty.
Qed.

(** ** A counter under operation ids *)

Definition emptyBalance : MeteringBalance :=
  {| b_featureKey := "calls"; b_unit := "call"; b_scale := 0; b_granted := Some (js "100"); b_consumed := js "0"; b_held := js "0";
     b_available := Some (js "100"); b_unlimited := false; b_breakdown := []; b_scope := None; b_windowStartAt := None; b_windowEndAt := None |}.
Definition countedOutcome (n : Z) : StoredOutcome :=
  Detailed {| ur_allowed := Some true; ur_reason := Some (js "allowed"); ur_usageEventId := Some (integerText n); ur_recordedAt := None;
    ur_reservationId := None; ur_status := None; ur_expiresAt := None; ur_quantity := None; ur_requestedQuantity := None;
    ur_walletQuantity := None; ur_originalUsageEventId := None; ur_originalRecordedAt := None;
    ur_balance := emptyBalance; ur_deductions := Some [] |}.

Definition consumeInput (quantity : string) : UsageOperationInput :=
  {| oi_billingAccountId := js "acme"; oi_idempotencyKey := js "op-1"; oi_featureKey := Some (js "calls"); oi_quantity := Some (js quantity);
     oi_entityId := None; oi_filters := None; oi_occurredAt := None; oi_metadata := None; oi_expiresInSeconds := None;
     oi_reservationId := None; oi_originalUsageEventId := None; oi_originalRecordedAt := None; oi_actor := None; oi_reason := None |}.

(** The domain counts the mutations; [quantity] is only in the request. *)
Definition countOnce (quantity : string) : Operation Z unit :=
  {| oc_kind := op_consume; oc_input := consumeInput quantity; oc_recoveryVersion := 2;
     oc_prefetch := fun _ => Ok (); oc_customer := fun _ => Ok (); oc_prepare := fun d => Ok d;
     oc_mutation := fun _ d => Ok (d + 1, countedOutcome (d + 1)) |}.

Definition counterStart : OperationStore Z := {| os_claims := ∅; os_domain := 0 |}.
Abbreviation runCounter := (runUsageOperation caselessCompare (fun t => t) (fun _ => 0) None).
Definition counterAfter : OperationStore Z :=
  match runCounter true 0 0 1 (countOnce "3") counterStart with Ok (s, _) => s | Err _ => counterStart end.
Definition retentionEvents : list (event Z unit) :=
  [Call false 1000 1000 7 (countOnce "3"); ExpireResults 2000 10 []; Call true 3000 3000 8 (countOnce "3"); DeleteExpired 4000 10 []].

Lemma counter_first : runCounter true 0 0 1 (countOnce "3") counterStart = Ok (counterAfter, countedOutcome 1).
Proof. vm_compute. reflexivity. Qed.

Lemma counter_fresh scope c : operationScope (countOnce "3") = Ok scope -> os_claims counterStart !! scope = Some c -> identity_expired 0 c = true.
Proof. intros _ H. cbn in H. by rewrite lookup_empty in H. Qed.

Ltac events_before := repeat constructor; unfold dayMs, weekMs; cbn; lia.

Lemma operation_applied_once_witness :
  performAll caselessCompare (fun t => t) (fun _ => 0) None counterAfter retentionEvents = counterAfter /\ os_domain counterAfter = 1 /\
  countedOutcome 1 = countedOutcome 1 /\ oc_recoveryVersion (countOnce "3") = 2.
Proof.
  assert (H : runCounter true 5000 5000 9 (countOnce "3") (performAll caselessCompare (fun t => t) (fun _ => 0) None counterAfter retentionEvents)
    = Ok (counterAfter, countedOutcome 1)) by (vm_compute; reflexivity).
  assert (Hes : Forall (fun e => eventTime e < 0 + weekMs) retentionEvents) by events_before.
  assert (Hn : 5000 < 0 + weekMs) by (unfold weekMs; lia).
  destruct (operation_applied_once caselessCompare (fun t => t) (fun _ => 0) None _ _ _ _ _ _ _ _ _ retentionEvents _ _ _ _ _ _
    counter_first counter_fresh Hes Hn eq_refl H) as (Hs & Ho & Hv & _).
  split; [by symmetry|]. split; [vm_compute; reflexivity|]. split; [exact Ho|exact Hv].
Defined.

Lemma retry_is_answered_witness :
  runCounter true 5000 5000 9 (countOnce "3") (performAll caselessCompare (fun t => t) (fun _ => 0) None counterAfter retentionEvents)
  = Ok (performAll caselessCompare (fun t => t) (fun _ => 0) None counterAfter retentionEvents, countedOutcome 1).
Proof.
  apply (retry_is_answered caselessCompare (fun t => t) (fun _ => 0) None counterStart counterAfter true 0 0 1 (countOnce "3") (countedOutcome 1)
    retentionEvents 5000 5000 9 (countOnce "3") counter_first counter_fresh); [events_before|unfold dayMs; lia|done|done|done|by right].
Defined.

Definition requestOf (quantity : string) : json :=
  match requestJson op_consume (consumeInput quantity) with Ok r => r | Err _ => JNull end.

Lemma requestOf_ok : json_ok (requestOf "3") /\ json_ok (requestOf "4").
Proof. split; apply json_okb_ok; vm_compute; reflexivity. Qed.

Lemma different_request_conflicts_witness :
  runCounter true 5000 5000 9 (countOnce "4") (performAll caselessCompare (fun t => t) (fun _ => 0) None counterAfter retentionEvents)
  = Err idempotencyConflict.
Proof.
  destruct requestOf_ok as [H3 H4].
  apply (different_request_conflicts caselessCompare (fun t => t) (fun _ => 0) None counterStart counterAfter true 0 0 1 (countOnce "3") (countedOutcome 1)
    retentionEvents 5000 5000 9 (countOnce "4") (requestOf "3") (requestOf "4") counter_first counter_fresh);
    [events_before|unfold weekMs; lia|reflexivity|reflexivity|reflexivity|reflexivity|reflexivity|exact H3|exact H4| |auto].
  intros Hs. assert (E : stableJson caselessCompare (requestOf "4") = stableJson caselessCompare (requestOf "3")).
  { by apply ser_same; [apply caseless_collation..| | |]. }
  vm_compute in E. discriminate.
Defined.

Lemma operations_refine_ledger_witness :
  storeAnswers caselessCompare (fun t => t) (fun _ => 0) None counterStart (Call true 0 0 1 (countOnce "3") :: retentionEvents)
    = ledgerAnswers caselessCompare (fun t => t) (fun _ => 0) {| ld_answers := ∅; ld_domain := 0 |} (Call true 0 0 1 (countOnce "3") :: retentionEvents) /\
  ledgerAnswers caselessCompare (fun t => t) (fun _ => 0) {| ld_answers := ∅; ld_domain := 0 |} (Call true 0 0 1 (countOnce "3") :: retentionEvents)
    = ([Some (Ok (countedOutcome 1)); Some (Err inProgress); None; Some (Ok (countedOutcome 1)); None], 1).
Proof.
  split; [|vm_compute; reflexivity]. apply (operations_refine_ledger _ _ _ _ _ 0).
  repeat constructor; unfold dayMs; cbn; try lia; by right.
Defined.
