(* ===== verification/Metering.v ===== *)
(** * Metered requests on a wallet ([src/db/repository/metering.ts],
    [metering-persistence.ts], [controls-runtime.ts])

    The transactions of the metering service for a feature that spends a wallet:
    consume, reserve, confirm, release and the sweep of expired reservations.  Each one
    prices the request, locks the wallet, asks the customer's controls, writes the wallet
    and records a usage event with its control entries, its rollup, its alerts and the
    top-ups it triggers.  The state is one customer's rows for one meter and its wallet.
    The controls are behind the interface [ControlGate]: the theorems about a history need
    its laws only, and [Controls] implements them. *)
From S2P Require Import Prelude Text Decimal Pricing JsDate Cadence Balances AutoTopup Controls UsageAlerts Wallet WalletStore.

#[local] Arguments js _ : simpl never.

(** ** What metering asks of the controls *)

(** The four questions a metered request asks, and their answers: the entries to record
    of what was counted, or a denial.  The first three read the usage recorded in the
    windows they open. *)
Class ControlGate (G : Type) := {
  gate_consume : (WindowId -> Z) -> Z -> ControlDelta -> list ControlLimit -> G -> result (G * (ControlDenial + list (WindowId * Z)));
  gate_hold : (WindowId -> Z) -> Z -> Z -> ControlDelta -> list ControlLimit -> G -> result (G * option ControlDenial);
  gate_confirm : (WindowId -> Z) -> Z -> Z -> ControlDelta -> list ControlLimit -> G -> result (G * (ControlDenial + list (WindowId * Z)));
  gate_release : Z -> G -> G }.

(** ** Tables *)

Inductive MeteringOperation := metered_consume | metered_confirm.
#[export] Instance MeteringOperation_eq_dec : EqDecision MeteringOperation.
Proof. solve_decision. Defined.

(** A row of [usage_events]; the quantity in units of scale 9, the wallet quantity in units
    of the wallet's scale. *)
Record UsageRow := {
  mu_id : Z;
  mu_entityId : option Z;
  mu_reservationId : option Z;
  mu_operation : MeteringOperation;
  mu_quantity : Z;
  mu_walletQuantity : Z;
  mu_occurredAt : option Z;
  mu_deductions : list AllocationDeduction;
  mu_recordedAt : Z }.

(** A row of [usage_event_rollups], by entity and month. *)
Definition RollupKey : Type := (option Z * jsdate)%type.
Record Rollup := { ro_quantity : Z; ro_walletQuantity : Z; ro_eventCount : Z }.

(** [mt_entries]: the rows of [usage_event_control_entries], by event and window.
    [mt_rates]: the rate-card columns of the reservations.  [mt_topups]: top-ups by policy. *)
Record Metering (G : Type) := {
  mt_wallet : Store;
  mt_gate : G;
  mt_usage : list UsageRow;
  mt_entries : list (Z * WindowId * Z);
  mt_rollups : gmap RollupKey Rollup;
  mt_alerts : list UsageAlertRow;
  mt_alertRows : gmap Z AlertRows;
  mt_topups : gmap Z Topup;
  mt_rates : gmap Z RateDecision }.
Arguments mt_wallet {G} _.
Arguments mt_gate {G} _.
Arguments mt_usage {G} _.
Arguments mt_entries {G} _.
Arguments mt_rollups {G} _.
Arguments mt_alerts {G} _.
Arguments mt_alertRows {G} _.
Arguments mt_topups {G} _.
Arguments mt_rates {G} _.

(** What a transaction reads besides these rows: its clocks, the customer's winning
    controls and the usage recorded in their windows, those of each alert's scope, the active top-up policies, the providers that
    can charge, the purchase actions, the ids it generates, and the balance a finalized
    reservation reports. *)
Record Reads := {
  rd_clocks : Clocks;
  rd_controls : list ControlLimit;
  rd_recorded : WindowId -> Z;
  rd_alertControls : option Z -> list ControlLimit;
  rd_policies : list AutoTopupPolicyRow;
  rd_implements : BillingProvider -> bool;
  rd_actions : list string;
  rd_eventId : Z;
  rd_jobId : Z -> Z;
  rd_balance : option Z -> Store -> MeteringBalance }.

(** ** Answers *)

(** [ConsumeUsageResult] and [ReservationResult]. *)
Record UsageResult := {
  ur_decision : MeteringDecision;
  ur_usageEventId : option Z;
  ur_recordedAt : option Z;
  ur_reservationId : option Z;
  ur_expiresAt : option Z;
  ur_deductions : list AllocationDeduction }.

Inductive FinalizeReason :=
  finalize_allowed | finalize_insufficient_balance | finalize_control_limit_exceeded | finalize_reservation_expired.

(** [FinalizeReservationResult] *)
Record FinalizeResult := {
  fr_allowed : bool;
  fr_reason : FinalizeReason;
  fr_reservationId : Z;
  fr_status : ReservationStatus;
  fr_usageEventId : option Z;
  fr_recordedAt : option Z;
  fr_balance : MeteringBalance;
  fr_deductions : list AllocationDeduction;
  fr_control : option ControlDenial }.

(** A decision that wrote nothing. *)
Definition undone (decision : MeteringDecision) : UsageResult :=
  {| ur_decision := decision; ur_usageEventId := None; ur_recordedAt := None; ur_reservationId := None;
     ur_expiresAt := None; ur_deductions := [] |}.

Definition withBalance (decision : MeteringDecision) (balance : MeteringBalance) : MeteringDecision :=
  {| d_allowed := d_allowed decision; d_reason := d_reason decision; d_requestedQuantity := d_requestedQuantity decision;
     d_walletQuantity := d_walletQuantity decision; d_balance := balance; d_rateCard := d_rateCard decision;
     d_eligiblePurchaseActions := d_eligiblePurchaseActions decision; d_control := d_control decision |}.

(** ** Steps the requests share *)

Definition validateFilters (feature : FeatureRow) (filters : option (list string)) : result unit :=
  match filters with
  | None => Ok tt
  | Some keys =>
      foldM (fun _ key => throwWhen (negb (bool_decide (key ∈ f_filter_dimensions feature))) (InvalidRequest key)) keys tt
  end.

Definition calculateWalletQuantity (rate : RateDecision) (quantity : text) : result text :=
  calculateRateCardQuantity
    {| rc_quantity := quantity; rc_pricingModel := r_pricingModel rate; rc_ratePerUnit := r_ratePerUnit rate;
       rc_tiers := r_tiers rate; rc_meterScale := Some (credit_scale (r_meter rate));
       rc_walletScale := Some (credit_scale (r_wallet rate)) |}.

Definition usageDelta (rate : RateDecision) (quantity : text) : ControlDelta :=
  {| dl_featureKey := f_key (r_meter rate); dl_usageDelta := quantity; dl_spendMinorDelta := js "0"; dl_currency := None |}.

(** The month of an instant, as [date_trunc('month', ...)] in UTC. *)
Definition rollupPeriod (t : Z) : jsdate := fst (calendarWindow {| c_unit := month; c_count := 1 |} t).

Definition rollupKey (row : UsageRow) : RollupKey := (mu_entityId row, rollupPeriod (mu_recordedAt row)).

Definition noRollup : Rollup := {| ro_quantity := 0; ro_walletQuantity := 0; ro_eventCount := 0 |}.
Definition addToRollup (quantity walletQuantity : Z) (r : Rollup) : Rollup :=
  {| ro_quantity := ro_quantity r + quantity; ro_walletQuantity := ro_walletQuantity r + walletQuantity;
     ro_eventCount := ro_eventCount r + 1 |}.

Definition incrementRollup (entity : option Z) (quantity walletQuantity recordedAt : Z) (rollups : gmap RollupKey Rollup)
  : gmap RollupKey Rollup :=
  let key : RollupKey := (entity, rollupPeriod recordedAt) in
  <[ key := match rollups !! key with
            | None => {| ro_quantity := quantity; ro_walletQuantity := walletQuantity; ro_eventCount := 1 |}
            | Some r => addToRollup quantity walletQuantity r
            end ]> rollups.

(** [ON CONFLICT (..., usage_event_id, control_window_id) DO NOTHING] *)
Definition recordUsageControlEntries (event : Z) (entries : list (WindowId * Z)) (rows : list (Z * WindowId * Z))
  : list (Z * WindowId * Z) :=
  fold_left (fun rows '(w, value) =>
    if decide ((event, w) ∈ map fst rows) then rows else rows ++ [(event, w, value)]) entries rows.

(** The columns of a usage event the alerts read. *)
Definition alertEventOf (row : UsageRow) : UsageEvent :=
  {| ev_id := mu_id row; ev_entityId := mu_entityId row; ev_recordedAt := mu_recordedAt row; ev_original := None;
     ev_quantity := mu_quantity row |}.

Definition alertStoreOf {G} (m : Metering G) : AlertStore :=
  {| al_log := map alertEventOf (mt_usage m); al_alerts := mt_alerts m; al_rows := mt_alertRows m |}.

(** The list of alerts is read before; without alerts nothing is evaluated. *)
Definition evaluateAlerts (v : Reads) (entity : option Z) (delta : text) (s : AlertStore) : result AlertStore :=
  match queryUsageAlerts entity s with
  | [] => Ok s
  | _ => recordUsageAlertDelta (rd_alertControls v) entity delta (ck_app (rd_clocks v)) None s
  end.

Definition usageTrigger (event : Z) : text := js ("usage:" ++ pretty event).

Definition scheduleTrigger (v : Reads) (key : text) (topups : gmap Z Topup) (trigger : AutoTopupPolicyRow * option text)
  : result (gmap Z Topup) :=
  let '(policy, available) := trigger in
  units ← decimalToUnits (default (js "0") available) 9;
  Ok (alter (scheduleAutoTopupIfNeeded (rd_clocks v) (rd_implements v) (rd_jobId v (tp_id policy)) key units)
        (tp_id policy) topups).

Definition scheduleAutoTopups (v : Reads) (key : text) (triggers : list (AutoTopupPolicyRow * option text))
  (topups : gmap Z Topup) : result (gmap Z Topup) :=
  foldM (scheduleTrigger v key) triggers topups.

Definition with_wallet {G} (s : Store) (m : Metering G) : Metering G :=
  {| mt_wallet := s; mt_gate := mt_gate m; mt_usage := mt_usage m; mt_entries := mt_entries m; mt_rollups := mt_rollups m;
     mt_alerts := mt_alerts m; mt_alertRows := mt_alertRows m; mt_topups := mt_topups m; mt_rates := mt_rates m |}.
Definition with_gate {G} (g : G) (m : Metering G) : Metering G :=
  {| mt_wallet := mt_wallet m; mt_gate := g; mt_usage := mt_usage m; mt_entries := mt_entries m; mt_rollups := mt_rollups m;
     mt_alerts := mt_alerts m; mt_alertRows := mt_alertRows m; mt_topups := mt_topups m; mt_rates := mt_rates m |}.

(** [insertUsageEvent] *)
Definition insertUsageEvent (v : Reads) (operation : MeteringOperation) (entity reservation : option Z) (scale : Z)
  (quantity walletQuantity : text) (occurredAt : option Z) (deductions : list AllocationDeduction) : result UsageRow :=
  q ← decimalToUnits quantity 9;
  w ← decimalToUnits walletQuantity scale;
  Ok {| mu_id := rd_eventId v; mu_entityId := entity; mu_reservationId := reservation; mu_operation := operation;
        mu_quantity := q; mu_walletQuantity := w; mu_occurredAt := occurredAt; mu_deductions := deductions;
        mu_recordedAt := ck_clock (rd_clocks v) |}.

(** What a consumption and a confirmation record of the usage after the wallet's writes:
    the event, its rollup, its control entries, its alerts and the top-ups it triggers;
    [rows] are the wallet's rows after the write. *)
Definition recordUsage {G} (v : Reads) (wallet : FeatureRow) (row : UsageRow) (quantity : text)
  (entries : list (WindowId * Z)) (rows : list AllocationRow) (m : Metering G) : result (Metering G) :=
  let usage := mt_usage m ++ [row] in
  alerts ← evaluateAlerts v (mu_entityId row) quantity
             {| al_log := map alertEventOf usage; al_alerts := mt_alerts m; al_rows := mt_alertRows m |};
  triggers ← autoTopupTriggers (rd_policies v) (mu_entityId row) wallet rows (mu_deductions row);
  topups ← scheduleAutoTopups v (usageTrigger (mu_id row)) triggers (mt_topups m);
  Ok {| mt_wallet := mt_wallet m; mt_gate := mt_gate m; mt_usage := usage;
        mt_entries := recordUsageControlEntries (mu_id row) entries (mt_entries m);
        mt_rollups := incrementRollup (mu_entityId row) (mu_quantity row) (mu_walletQuantity row) (mu_recordedAt row) (mt_rollups m);
        mt_alerts := mt_alerts m; mt_alertRows := al_rows alerts; mt_topups := topups; mt_rates := mt_rates m |}.

(** ** The requests *)

Section Requests.
Context {G : Type} `{ControlGate G} (wallet : FeatureRow).
Local Abbreviation scale := (credit_scale wallet).

(** The wallet path of [consumeWithinTransaction].  [rate] is the rate card resolved for
    the request. *)
Definition consumeWithinTransaction (v : Reads) (rate : RateDecision) (entity : option Z) (filters : option (list string))
  (quantity : text) (occurredAt : option Z) (m : Metering G) : result (Metering G * UsageResult) :=
  validateFilters (r_meter rate) filters ;;
  requested ← positiveDecimal quantity "quantity" (credit_scale (r_meter rate));
  walletQuantity ← calculateWalletQuantity rate requested;
  let rows := map (readRow scale) (lockAllocations (mt_wallet m) entity (ck_now (rd_clocks v))) in
  balance ← balanceFromRows wallet rows;
  decision ← buildDecision (rd_actions v) rate requested walletQuantity balance;
  if negb (d_allowed decision) then Ok (m, undone decision)
  else
    '(g, answer) ← gate_consume (rd_recorded v) (ck_clock (rd_clocks v)) (usageDelta rate requested) (rd_controls v) (mt_gate m);
    match answer with
    | inl denial => Ok (with_gate g m, undone (controlDeniedDecision decision denial))
    | inr entries =>
        deductions ← planDeductions rows scale walletQuantity;
        s ← applyDeductions scale consumed_quantity deductions (mt_wallet m);
        row ← insertUsageEvent v metered_consume entity None scale requested walletQuantity occurredAt deductions;
        spentRows ← deductedRows rows deductions scale consumed_quantity;
        m' ← recordUsage v wallet row requested entries spentRows (with_wallet s (with_gate g m));
        balance' ← balanceFromRows wallet spentRows;
        Ok (m', {| ur_decision := withBalance decision balance'; ur_usageEventId := Some (mu_id row);
                   ur_recordedAt := Some (mu_recordedAt row); ur_reservationId := None; ur_expiresAt := None;
                   ur_deductions := deductions |})
    end.

(** The wallet path of [reserveWithinTransaction]; [rid] is the id the database generates.
    The lifetime starts once everything is admitted ([startReservationLifetime]). *)
Definition reserveWithinTransaction (v : Reads) (rate : RateDecision) (rid : Z) (entity : option Z)
  (filters : option (list string)) (quantity : text) (expiresInSeconds : Z) (m : Metering G)
  : result (Metering G * UsageResult) :=
  validateFilters (r_meter rate) filters ;;
  requested ← positiveDecimal quantity "quantity" (credit_scale (r_meter rate));
  walletQuantity ← calculateWalletQuantity rate requested;
  let rows := map (readRow scale) (lockAllocations (mt_wallet m) entity (ck_now (rd_clocks v))) in
  balance ← balanceFromRows wallet rows;
  decision ← buildDecision (rd_actions v) rate requested walletQuantity balance;
  if negb (d_allowed decision) then Ok (m, undone decision)
  else
    '(g, denied) ← gate_hold (rd_recorded v) (ck_clock (rd_clocks v)) rid (usageDelta rate requested) (rd_controls v) (mt_gate m);
    match denied with
    | Some denial => Ok (with_gate g m, undone (controlDeniedDecision decision denial))
    | None =>
        deductions ← planDeductions rows scale walletQuantity;
        let expiresAt := ck_clock (rd_clocks v) + expiresInSeconds * 1000 in
        let inserted := set_reservations (mt_wallet m) (s_reservations (mt_wallet m) ++
          [newReservation rid entity requested walletQuantity expiresAt]) in
        s1 ← applyDeductions scale held_quantity deductions inserted;
        s2 ← insertHolds wallet rid deductions s1;
        heldRows ← deductedRows rows deductions scale held_quantity;
        balance' ← balanceFromRows wallet heldRows;
        Ok ({| mt_wallet := s2; mt_gate := g; mt_usage := mt_usage m; mt_entries := mt_entries m; mt_rollups := mt_rollups m;
               mt_alerts := mt_alerts m; mt_alertRows := mt_alertRows m; mt_topups := mt_topups m;
               mt_rates := <[ rid := rate ]> (mt_rates m) |},
            {| ur_decision := withBalance decision balance'; ur_usageEventId := None; ur_recordedAt := None;
               ur_reservationId := Some rid; ur_expiresAt := Some expiresAt; ur_deductions := deductions |})
    end.

(** [releaseReservationHolds] *)
Definition releaseReservationHolds (rid : Z) (status : ReservationStatus) (m : Metering G) : result (Metering G) :=
  let g := gate_release rid (mt_gate m) in
  s ← releaseHolds wallet rid status (mt_wallet m);
  Ok (with_wallet s (with_gate g m)).

(** The latest confirm event of a reservation. *)
Definition confirmEvent (rid : Z) (usage : list UsageRow) : option UsageRow :=
  fold_left (fun latest row =>
    if bool_decide (mu_reservationId row = Some rid) && bool_decide (mu_operation row = metered_confirm) then
      match latest with
      | None => Some row
      | Some l => if mu_recordedAt l <? mu_recordedAt row then Some row else latest
      end
    else latest) usage None.

(** [finalizedReservationResult] of a wallet reservation. *)
Definition finalizedReservationResult (v : Reads) (r : Reservation) (m : Metering G) : FinalizeResult :=
  let event := if decide (rs_status r = st_confirmed) then confirmEvent (rs_id r) (mt_usage m) else None in
  {| fr_allowed := negb (bool_decide (rs_status r = st_expired));
     fr_reason := if decide (rs_status r = st_expired) then finalize_reservation_expired else finalize_allowed;
     fr_reservationId := rs_id r; fr_status := rs_status r; fr_usageEventId := mu_id <$> event;
     fr_recordedAt := mu_recordedAt <$> event; fr_balance := rd_balance v (rs_entity r) (mt_wallet m);
     fr_deductions := from_option mu_deductions [] event; fr_control := None |}.

Definition reservationNotFound : error := BillingErr "Reservation was not found" "RESERVATION_NOT_FOUND" 404.

Definition lockReservation (rid : Z) (m : Metering G) : result Reservation :=
  match findReservation (mt_wallet m) rid with Some r => Ok r | None => Err reservationNotFound end.

(** [releaseWithinTransaction] *)
Definition releaseWithinTransaction (v : Reads) (rid : Z) (m : Metering G) : result (Metering G * FinalizeResult) :=
  reservation ← lockReservation rid m;
  if decide (rs_status reservation = st_confirmed) then Ok (m, finalizedReservationResult v reservation m)
  else
    m' ← (if decide (rs_status reservation = st_active) then
            releaseReservationHolds rid
              (if rs_expires_at reservation <=? ck_clock (rd_clocks v) then st_expired else st_released) m
          else Ok m);
    reservation' ← lockReservation rid m';
    Ok (m', finalizedReservationResult v reservation' m').

(** [rateFromReservation]: a reservation without an entry was priced one to one. *)
Definition rateFromReservation (rid : Z) (m : Metering G) : RateDecision := default (directRate wallet) (mt_rates m !! rid).

Definition deniedConfirmation (v : Reads) (reservation : Reservation) (reason : FinalizeReason)
  (control : option ControlDenial) (m : Metering G) : FinalizeResult :=
  {| fr_allowed := false; fr_reason := reason; fr_reservationId := rs_id reservation; fr_status := st_active;
     fr_usageEventId := None; fr_recordedAt := None; fr_balance := rd_balance v (rs_entity reservation) (mt_wallet m);
     fr_deductions := []; fr_control := control |}.

(** The write of a confirmation: plan, controls, wallet, event. *)
Definition settleConfirmation (v : Reads) (rate : RateDecision) (reservation : Reservation) (quantity : text)
  (occurredAt : option Z) (m : Metering G) : result (Metering G * FinalizeResult) :=
  let rid := rs_id reservation in
  let now := ck_clock (rd_clocks v) in
  walletQuantity ← calculateWalletQuantity rate quantity;
  let rows := map (readRow scale) (lockAllAllocationRows (mt_wallet m) (rs_entity reservation)) in
  match planConfirmation rows (map (readHold scale) (holdsOf (mt_wallet m) rid)) scale walletQuantity now with
  | Err e =>
      if bool_decide (e = insufficientBalance)
      then Ok (m, deniedConfirmation v reservation finalize_insufficient_balance None m) else Err e
  | Ok plan =>
      '(g, answer) ← gate_confirm (rd_recorded v) now rid (usageDelta rate quantity) (rd_controls v) (mt_gate m);
      match answer with
      | inl denial =>
          let m' := with_gate g m in
          Ok (m', deniedConfirmation v reservation finalize_control_limit_exceeded (Some denial) m')
      | inr entries =>
          let s := finalize rid st_confirmed (Some quantity) (applyConfirmation rid plan (mt_wallet m)) in
          row ← insertUsageEvent v metered_confirm (rs_entity reservation) (Some rid) scale quantity walletQuantity
                  occurredAt (cp_deductions plan);
          spentRows ← confirmedRows rows plan scale now;
          m' ← recordUsage v wallet row quantity entries spentRows (with_wallet s (with_gate g m));
          balance ← balanceFromRows wallet spentRows;
          Ok (m', {| fr_allowed := true; fr_reason := finalize_allowed; fr_reservationId := rid; fr_status := st_confirmed;
                     fr_usageEventId := Some (mu_id row); fr_recordedAt := Some (mu_recordedAt row); fr_balance := balance;
                     fr_deductions := cp_deductions plan; fr_control := None |})
      end
  end.

(** The wallet path of [confirmWithinTransaction]. *)
Definition confirmWithinTransaction (v : Reads) (rid : Z) (input : text) (occurredAt : option Z) (m : Metering G)
  : result (Metering G * FinalizeResult) :=
  reservation ← lockReservation rid m;
  let rate := rateFromReservation rid m in
  let meterScale := credit_scale (r_meter rate) in
  quantity ← positiveDecimal input "quantity" meterScale;
  match rs_status reservation with
  | st_confirmed =>
      if bool_decide (rs_confirmed reservation = Some quantity) then Ok (m, finalizedReservationResult v reservation m)
      else Err (BillingErr "Reservation was confirmed with different usage facts" "RESERVATION_ALREADY_CONFIRMED" 409)
  | st_expired => Ok (m, finalizedReservationResult v reservation m)
  | st_released => Err (BillingErr "Reservation has been released" "RESERVATION_RELEASED" 409)
  | st_active =>
      if rs_expires_at reservation <=? ck_clock (rd_clocks v) then
        m' ← releaseReservationHolds rid st_expired m;
        reservation' ← lockReservation rid m';
        Ok (m', finalizedReservationResult v reservation' m')
      else
        wanted ← decimalToUnits quantity meterScale;
        authorized ← databaseUnits (DbText (rs_requested reservation)) "reserved quantity" meterScale;
        throwWhen (authorized <? wanted)
          (BillingErr "Confirmed quantity exceeds the reserved authorization" "RESERVATION_QUANTITY_EXCEEDED" 409) ;;
        settleConfirmation v rate reservation quantity occurredAt m
  end.

(** [expiredSubjectReservationsSql]: the active reservations that have run out, by id. *)
Definition expiredSubjectReservations (now : Z) (s : Store) : list Z :=
  sortBy Z.ltb (map rs_id (List.filter (fun r => bool_decide (rs_status r = st_active) && (rs_expires_at r <=? now))
    (s_reservations s))).

(** [expireSubjectReservations] *)
Definition expireSubjectReservations (v : Reads) (m : Metering G) : result (Metering G) :=
  foldM (fun m rid =>
    reservation ← lockReservation rid m;
    if decide (rs_status reservation = st_active) then releaseReservationHolds rid st_expired m else Ok m)
    (expiredSubjectReservations (ck_clock (rd_clocks v)) (mt_wallet m)) m.
End Requests.

(** ** The laws of the controls *)

(** What metering relies on: which reservations the controls hold for, which they have ever
    held for, and what they counted in a window since it opened, which is what was entered
    in it, and more only in a window that writes catch up with usage recorded elsewhere. *)
Class GateLaws (G : Type) `{ControlGate G} := {
  gate_ok : G -> Prop;
  gate_reads : G -> (WindowId -> Z) -> list ControlLimit -> Prop;
  gate_open : G -> list Z;
  gate_known : G -> list Z;
  gate_counted : G -> WindowId -> Z;
  gate_exact : WindowId -> bool;
  consume_law recorded now d cs g g' out : gate_ok g -> gate_reads g recorded cs ->
    gate_consume recorded now d cs g = Ok (g', out) ->
    gate_ok g' /\ gate_open g' = gate_open g /\ gate_known g' = gate_known g /\ NoDup (map fst (entriesOf out)) /\
    forall w, grows (gate_exact w) (gate_counted g w) (gate_counted g' w) (entered w (entriesOf out));
  hold_law recorded now rid d cs g g' out : gate_ok g -> gate_reads g recorded cs -> rid ∉ gate_known g ->
    gate_hold recorded now rid d cs g = Ok (g', out) ->
    gate_ok g' /\ gate_open g' = (match out with None => [rid] | Some _ => [] end) ++ gate_open g /\
    (forall r, r ∈ gate_known g' -> r ∈ gate_known g \/ (out = None /\ r = rid)) /\
    forall w, grows (gate_exact w) (gate_counted g w) (gate_counted g' w) 0;
  confirm_law recorded now rid d cs g g' out : gate_ok g -> gate_reads g recorded cs -> rid ∈ gate_open g ->
    gate_confirm recorded now rid d cs g = Ok (g', out) ->
    gate_ok g' /\ gate_known g' = gate_known g /\ NoDup (map fst (entriesOf out)) /\
    (forall r, r ∈ gate_open g' <-> r ∈ gate_open g /\ (match out with inl _ => True | inr _ => r <> rid end)) /\
    forall w, grows (gate_exact w) (gate_counted g w) (gate_counted g' w) (entered w (entriesOf out));
  release_law rid g : gate_ok g ->
    gate_ok (gate_release rid g) /\ gate_known (gate_release rid g) = gate_known g /\
    (forall r, r ∈ gate_open (gate_release rid g) <-> r ∈ gate_open g /\ r <> rid) /\
    forall w, gate_counted (gate_release rid g) w = gate_counted g w }.

(** [Controls] implements the interface. *)
#[local] Instance controls_gate : ControlGate ControlStore := {|
  gate_consume := consumeControls;
  gate_hold := holdControls;
  gate_confirm := confirmControlHolds;
  gate_release := releaseControlHolds |}.

Section Implementation.
Context (opening : WindowId -> Z) (limitOf : Z -> Z) (lifetimeOf : Z -> bool).

Lemma closeReservation_elem rid open r : r ∈ closeReservation rid open <-> r ∈ open /\ r <> rid.
Proof. unfold closeReservation. by rewrite !list_elem_of_In, filter_In, negb_true_iff, Z.eqb_neq. Qed.

Lemma release_open rid s r : r ∈ ct_open (releaseControlHolds rid s) <-> r ∈ ct_open s /\ r <> rid.
Proof.
  unfold releaseControlHolds. case_decide as Hin; cbn [ct_open]; [apply closeReservation_elem|].
  split; [|tauto]. intros Hr. split; [done|]. by intros ->.
Qed.

Lemma release_holds rid s : ct_holds (releaseControlHolds rid s) = ct_holds s.
Proof. unfold releaseControlHolds. by case_decide. Qed.

#[local] Instance controls_laws : GateLaws ControlStore.
Proof.
  refine {| gate_ok := store_inv opening limitOf lifetimeOf;
            gate_reads := fun s recorded cs => reads_ok opening lifetimeOf recorded (ct_windows s) /\ resolved limitOf lifetimeOf cs;
            gate_open := ct_open; gate_known := fun s => map ch_reservation (ct_holds s);
            gate_counted := fun s => countedIn opening lifetimeOf (ct_windows s); gate_exact := exactly lifetimeOf |}.
  - intros recorded now d cs g g' out Hok [Hr [Hl Hn] ] H. cbn in H.
    pose proof (fun w => consume_counted _ _ _ _ _ _ _ _ _ _ w Hr Hok Hl Hn H) as Hc.
    split; [exact (proj1 (consume_inv _ _ _ _ _ _ _ _ _ _ Hr Hok Hl Hn H))|].
    assert (ct_open g' = ct_open g /\ ct_holds g' = ct_holds g) as [-> ->].
    { unfold consumeControls in H. apply bind_Ok in H as ([ws o] & _ & H). by destruct o; injection H as <- _. }
    split; [done|]. split; [done|]. split; [apply (Hc (0, None))|]. intros w. apply Hc.
  - intros recorded now rid d cs g g' out Hok [Hr [Hl Hn] ] Hf H. cbn in H. split.
    { refine (proj1 (hold_inv _ _ _ _ _ _ _ _ _ _ _ Hr Hok Hl Hn _ H)).
      intros h Hh Heq. apply Hf. rewrite <- Heq. by apply list_elem_of_fmap_2. }
    split; [|split; [|intros w; exact (hold_counted _ _ _ _ _ _ _ _ _ _ _ w Hr Hok Hl Hn H)] ]; cbn in H; unfold holdControls in H;
      apply bind_Ok in H as ([ws o] & _ & H); destruct o; injection H as <- <-; cbn [ct_open ct_holds]; try done.
    + by left.
    + intros r Hrid. rewrite map_app in Hrid. apply elem_of_app in Hrid as [Hrid|Hrid]; [by left|right]. split; [done|].
      rewrite map_map in Hrid. apply list_elem_of_fmap in Hrid as (lc & -> & _). done.
  - intros recorded now rid d cs g g' out Hok [Hr [Hl Hn] ] Hin H. cbn in H.
    pose proof (fun w => confirm_counted _ _ _ _ _ _ _ _ _ _ _ w Hr Hok Hl Hn Hin H) as Hc.
    split; [exact (proj1 (confirm_inv _ _ _ _ _ _ _ _ _ _ _ Hr Hok Hl Hn Hin H))|].
    split; [|split; [apply (Hc (0, None))|split; [|intros w; apply Hc] ] ];
      clear Hc; unfold confirmControlHolds in H; apply bind_Ok in H as ([o|] & _ & H);
      [by injection H as <- <-| |injection H as <- <-; cbn; tauto|]; apply bind_Ok in H as (ws' & _ & H); injection H as <- <-; cbn.
    + rewrite map_map. apply map_ext. intros h. unfold settledHold. destruct (ch_reservation h =? rid); [|done].
      by destruct (List.find _ _).
    + intros r. apply closeReservation_elem.
  - intros rid g Hok. split; [by apply release_inv|]. cbn. rewrite release_holds. split; [done|].
    split; [intros r; apply release_open|]. intros w. apply release_counted.
Defined.
End Implementation.

(** ** What the requests do *)

Lemma buildDecision_actions actions rate q w b d : buildDecision actions rate q w b = Ok d ->
  exists d', buildDecision [] rate q w b = Ok d' /\ d_allowed d' = d_allowed d.
Proof.
  unfold buildDecision. intros H. apply bind_Ok in H as (x & Ex & H). apply bind_Ok in H as (y & Ey & H). injection H as <-.
  rewrite Ex. cbn [mbind result_bind]. rewrite Ey. by eexists.
Qed.

Lemma insertUsageEvent_spec v operation entity reservation scale quantity walletQuantity occurredAt ds row :
  insertUsageEvent v operation entity reservation scale quantity walletQuantity occurredAt ds = Ok row ->
  mu_id row = rd_eventId v /\ mu_entityId row = entity /\ mu_reservationId row = reservation /\ mu_operation row = operation /\
  decimalToUnits quantity 9 = Ok (mu_quantity row) /\ decimalToUnits walletQuantity scale = Ok (mu_walletQuantity row) /\
  mu_deductions row = ds /\ mu_recordedAt row = ck_clock (rd_clocks v).
Proof.
  unfold insertUsageEvent. intros H. apply bind_Ok in H as (q & Eq & H). apply bind_Ok in H as (w & Ew & H). by injection H as <-.
Qed.

Section Cases.
Context {G : Type} `{ControlGate G} (wallet : FeatureRow).
Local Abbreviation scale := (credit_scale wallet).

(** The recorded state, but for the alerts and top-ups. *)
Lemma recordUsage_spec v row quantity entries rows (m m' : Metering G) :
  recordUsage v wallet row quantity entries rows m = Ok m' ->
  mt_wallet m' = mt_wallet m /\ mt_gate m' = mt_gate m /\ mt_usage m' = mt_usage m ++ [row] /\
  mt_entries m' = recordUsageControlEntries (mu_id row) entries (mt_entries m) /\
  mt_rollups m' = incrementRollup (mu_entityId row) (mu_quantity row) (mu_walletQuantity row) (mu_recordedAt row) (mt_rollups m) /\
  mt_rates m' = mt_rates m.
Proof.
  unfold recordUsage. intros Hr. apply bind_Ok in Hr as (al & _ & Hr). apply bind_Ok in Hr as (tr & _ & Hr).
  apply bind_Ok in Hr as (tu & _ & Hr). by injection Hr as <-.
Qed.

(** A consumption is refused, denied by the controls, or recorded. *)
Lemma consume_cases v rate entity filters quantity occurredAt (m m' : Metering G) r :
  consumeWithinTransaction wallet v rate entity filters quantity occurredAt m = Ok (m', r) ->
  (m' = m /\ d_allowed (ur_decision r) = false) \/
  (exists q g denial, gate_consume (rd_recorded v) (ck_clock (rd_clocks v)) (usageDelta rate q) (rd_controls v) (mt_gate m) = Ok (g, inl denial) /\
    m' = with_gate g m /\ d_allowed (ur_decision r) = false) \/
  (exists q w g entries s ds row rows,
    positiveDecimal quantity "quantity" (credit_scale (r_meter rate)) = Ok q /\ calculateWalletQuantity rate q = Ok w /\
    gate_consume (rd_recorded v) (ck_clock (rd_clocks v)) (usageDelta rate q) (rd_controls v) (mt_gate m) = Ok (g, inr entries) /\
    consumeWallet wallet rate entity q w false (ck_now (rd_clocks v)) (mt_wallet m) = Ok (s, Consumed ds) /\
    insertUsageEvent v metered_consume entity None scale q w occurredAt ds = Ok row /\
    recordUsage v wallet row q entries rows (with_wallet s (with_gate g m)) = Ok m' /\
    d_allowed (ur_decision r) = true /\ ur_usageEventId r = Some (mu_id row) /\ ur_deductions r = ds /\
    deductedRows (map (readRow scale) (lockAllocations (mt_wallet m) entity (ck_now (rd_clocks v)))) ds scale consumed_quantity = Ok rows /\
    balanceFromRows wallet rows = Ok (d_balance (ur_decision r))).
Proof.
  unfold consumeWithinTransaction. intros Hc. apply bind_Ok in Hc as (u & _ & Hc). apply bind_Ok in Hc as (q & Eq & Hc).
  apply bind_Ok in Hc as (w & Ew & Hc). apply bind_Ok in Hc as (b & Eb & Hc). apply bind_Ok in Hc as (d & Ed & Hc).
  destruct (negb (d_allowed d)) eqn:Ea; [injection Hc as <- <-; left; split; [done|]; by apply negb_true_iff|].
  apply bind_Ok in Hc as ([g [denial|entries] ] & Eg & Hc); right.
  { injection Hc as <- <-. left. by exists q, g, denial. }
  right. apply bind_Ok in Hc as (ds & Eds & Hc). apply bind_Ok in Hc as (s & Es & Hc). apply bind_Ok in Hc as (row & Erow & Hc).
  apply bind_Ok in Hc as (rows & Erows & Hc). apply bind_Ok in Hc as (m1 & Em & Hc). apply bind_Ok in Hc as (b' & Eb' & Hc).
  injection Hc as <- <-. exists q, w, g, entries, s, ds, row, rows. split_and!; try done; [|cbn; by apply negb_false_iff].
  destruct (buildDecision_actions _ _ _ _ _ _ Ed) as (d' & Ed' & Ea'). unfold consumeWallet. cbv zeta.
  rewrite Eb. cbn [mbind result_bind]. rewrite Ed'. cbn [mbind result_bind]. rewrite Ea', Ea. cbn iota.
  rewrite Eds. cbn [mbind result_bind]. by rewrite Es.
Qed.

Lemma reserve_cases v rate rid entity filters quantity lifetime (m m' : Metering G) r :
  reserveWithinTransaction wallet v rate rid entity filters quantity lifetime m = Ok (m', r) ->
  (m' = m /\ d_allowed (ur_decision r) = false) \/
  (exists q g denial, gate_hold (rd_recorded v) (ck_clock (rd_clocks v)) rid (usageDelta rate q) (rd_controls v) (mt_gate m) = Ok (g, Some denial) /\
    m' = with_gate g m /\ d_allowed (ur_decision r) = false) \/
  (exists q w g s ds expiresAt,
    gate_hold (rd_recorded v) (ck_clock (rd_clocks v)) rid (usageDelta rate q) (rd_controls v) (mt_gate m) = Ok (g, None) /\
    reserveWallet wallet rate rid entity q w false expiresAt (ck_now (rd_clocks v)) (mt_wallet m) = Ok (s, Reserved rid ds) /\
    mt_wallet m' = s /\ mt_gate m' = g /\ mt_usage m' = mt_usage m /\ mt_entries m' = mt_entries m /\
    mt_rollups m' = mt_rollups m /\ mt_alerts m' = mt_alerts m /\ mt_alertRows m' = mt_alertRows m /\ mt_topups m' = mt_topups m /\
    d_allowed (ur_decision r) = true /\ ur_reservationId r = Some rid /\ mt_rates m' = <[ rid := rate ]> (mt_rates m) /\
    exists rows, deductedRows (map (readRow scale) (lockAllocations (mt_wallet m) entity (ck_now (rd_clocks v)))) ds scale held_quantity = Ok rows /\
      balanceFromRows wallet rows = Ok (d_balance (ur_decision r))).
Proof.
  unfold reserveWithinTransaction. intros Hc. apply bind_Ok in Hc as (u & _ & Hc). apply bind_Ok in Hc as (q & Eq & Hc).
  apply bind_Ok in Hc as (w & Ew & Hc). apply bind_Ok in Hc as (b & Eb & Hc). apply bind_Ok in Hc as (d & Ed & Hc).
  destruct (negb (d_allowed d)) eqn:Ea; [injection Hc as <- <-; left; split; [done|]; by apply negb_true_iff|].
  apply bind_Ok in Hc as ([g [denial|] ] & Eg & Hc); right.
  { injection Hc as <- <-. left. by exists q, g, denial. }
  right. apply bind_Ok in Hc as (ds & Eds & Hc). apply bind_Ok in Hc as (s1 & Es1 & Hc). apply bind_Ok in Hc as (s2 & Es2 & Hc).
  apply bind_Ok in Hc as (rows & Erows & Hc). apply bind_Ok in Hc as (b' & Eb' & Hc).
  injection Hc as <- <-. exists q, w, g, s2, ds, (ck_clock (rd_clocks v) + lifetime * 1000).
  split_and!; try done; [|cbn; by apply negb_false_iff|by exists rows].
  destruct (buildDecision_actions _ _ _ _ _ _ Ed) as (d' & Ed' & Ea'). unfold reserveWallet. cbv zeta.
  rewrite Eb. cbn [mbind result_bind]. rewrite Ed'. cbn [mbind result_bind]. rewrite Ea', Ea. cbn iota.
  rewrite Eds. cbn [mbind result_bind]. unfold newReservation in Es1. rewrite Es1. cbn [mbind result_bind]. by rewrite Es2.
Qed.

Lemma release_holds_cases rid status (m m' : Metering G) : releaseReservationHolds wallet rid status m = Ok m' ->
  exists s, releaseHolds wallet rid status (mt_wallet m) = Ok s /\ m' = with_wallet s (with_gate (gate_release rid (mt_gate m)) m).
Proof. unfold releaseReservationHolds. intros Hr. apply bind_Ok in Hr as (s & Es & Hr). injection Hr as <-. by exists s. Qed.

Lemma lockReservation_Ok rid (m : Metering G) r : lockReservation rid m = Ok r <-> findReservation (mt_wallet m) rid = Some r.
Proof. unfold lockReservation. destruct (findReservation _ _); split; congruence. Qed.

Lemma release_cases v rid (m m' : Metering G) a : releaseWithinTransaction wallet v rid m = Ok (m', a) ->
  exists r, findReservation (mt_wallet m) rid = Some r /\
    ((rs_status r <> st_active /\ m' = m) \/
     (rs_status r = st_active /\ exists status, status <> st_active /\ status <> st_confirmed /\
        releaseReservationHolds wallet rid status m = Ok m')).
Proof.
  unfold releaseWithinTransaction. intros Hr. apply bind_Ok in Hr as (r & Er & Hr). apply lockReservation_Ok in Er. exists r.
  split; [done|]. case_decide as Hc; [injection Hr as <- <-; left; split; [congruence|done]|].
  apply bind_Ok in Hr as (m1 & Em & Hr). apply bind_Ok in Hr as (r' & _ & Hr). injection Hr as <- <-.
  case_decide as Ha; [right|left; split; [done|]; by injection Em as <-]. split; [done|].
  eexists. split_and!; [| |exact Em]; by case_match.
Qed.

(** A confirmation answers, expires the reservation, is refused, is denied, or is recorded. *)
Lemma confirm_cases v rid input occurredAt (m m' : Metering G) a :
  confirmWithinTransaction wallet v rid input occurredAt m = Ok (m', a) ->
  exists r q, findReservation (mt_wallet m) rid = Some r /\
    positiveDecimal input "quantity" (credit_scale (r_meter (rateFromReservation wallet rid m))) = Ok q /\
    ((m' = m /\ (rs_status r <> st_active \/ fr_allowed a = false)) \/
     (rs_status r = st_active /\ releaseReservationHolds wallet rid st_expired m = Ok m' /\
       exists r', findReservation (mt_wallet m') rid = Some r' /\ fr_allowed a = negb (bool_decide (rs_status r' = st_expired))) \/
     (rs_status r = st_active /\ exists g denial,
       gate_confirm (rd_recorded v) (ck_clock (rd_clocks v)) rid (usageDelta (rateFromReservation wallet rid m) q) (rd_controls v) (mt_gate m)
         = Ok (g, inl denial) /\ m' = with_gate g m /\ fr_allowed a = false) \/
     (rs_status r = st_active /\ exists w g entries plan row rows,
       gate_confirm (rd_recorded v) (ck_clock (rd_clocks v)) rid (usageDelta (rateFromReservation wallet rid m) q) (rd_controls v) (mt_gate m)
         = Ok (g, inr entries) /\
       planConfirmation (map (readRow scale) (lockAllAllocationRows (mt_wallet m) (rs_entity r)))
         (map (readHold scale) (holdsOf (mt_wallet m) rid)) scale w (ck_clock (rd_clocks v)) = Ok plan /\
       insertUsageEvent v metered_confirm (rs_entity r) (Some rid) scale q w occurredAt (cp_deductions plan) = Ok row /\
       recordUsage v wallet row q entries rows
         (with_wallet (finalize rid st_confirmed (Some q) (applyConfirmation rid plan (mt_wallet m))) (with_gate g m)) = Ok m' /\
       fr_allowed a = true /\ fr_usageEventId a = Some (mu_id row) /\ fr_deductions a = mu_deductions row)).
Proof.
  unfold confirmWithinTransaction. intros Hc. apply bind_Ok in Hc as (r & Er & Hc). apply lockReservation_Ok in Er.
  apply bind_Ok in Hc as (q & Eq & Hc). exists r, q. split; [done|]. split; [done|].
  destruct (rs_status r) eqn:Est; [| |done|injection Hc as <- <-; left; split; [done|by left] ].
  2:{ case_bool_decide; [injection Hc as <- <-; left; split; [done|by left]|done]. }
  assert (Hid : rs_id r = rid) by (by apply findReservation_active in Er as (_ & ? & _)).
  destruct (rs_expires_at r <=? _).
  - apply bind_Ok in Hc as (m1 & Em & Hc). apply bind_Ok in Hc as (r' & Er' & Hc). apply lockReservation_Ok in Er'.
    injection Hc as <- <-. right; left. split; [done|]. split; [done|]. by exists r'.
  - apply bind_Ok in Hc as (n1 & _ & Hc). apply bind_Ok in Hc as (n2 & _ & Hc). apply bind_Ok in Hc as (u & _ & Hc).
    unfold settleConfirmation in Hc. rewrite Hid in Hc. apply bind_Ok in Hc as (w & Ew & Hc).
    destruct (planConfirmation _ _ _ _ _) as [plan|e] eqn:Eplan.
    2:{ destruct (bool_decide _); [injection Hc as <- <-; left; split; [done|by right]|done]. }
    apply bind_Ok in Hc as ([g [denial|entries] ] & Eg & Hc); right; right.
    { injection Hc as <- <-. left. split; [done|]. by exists g, denial. }
    right. split; [done|]. apply bind_Ok in Hc as (row & Erow & Hc). apply bind_Ok in Hc as (rows & _ & Hc).
    apply bind_Ok in Hc as (m1 & Em & Hc). apply bind_Ok in Hc as (b & _ & Hc). injection Hc as <- <-.
    exists w, g, entries, plan, row, rows. apply insertUsageEvent_spec in Erow as Hrow.
    split_and!; try done. by destruct Hrow as (_ & _ & _ & _ & _ & _ & -> & _).
Qed.
End Cases.

(** ** What every request preserves *)

Definition usageOf (rid : Z) (usage : list UsageRow) : list UsageRow :=
  List.filter (fun row => bool_decide (mu_reservationId row = Some rid)) usage.

(** A confirmed reservation has one event, of its quantity; another has none. *)
Definition charged_once (usage : list UsageRow) (r : Reservation) : Prop :=
  match rs_status r with
  | st_confirmed => exists row q, usageOf (rs_id r) usage = [row] /\ mu_operation row = metered_confirm /\
      mu_entityId row = rs_entity r /\ rs_confirmed r = Some q /\ decimalToUnits q 9 = Ok (mu_quantity row)
  | _ => usageOf (rs_id r) usage = []
  end.

Definition rollupOf (usage : list UsageRow) (k : RollupKey) : Rollup :=
  let rows := List.filter (fun row => bool_decide (rollupKey row = k)) usage in
  {| ro_quantity := sumZ (map mu_quantity rows); ro_walletQuantity := sumZ (map mu_walletQuantity rows);
     ro_eventCount := Z.of_nat (length rows) |}.

(** What the recorded entries of a window add up to. *)
Definition enteredIn (w : WindowId) (rows : list (Z * WindowId * Z)) : Z :=
  sumZ (map snd (List.filter (fun e => bool_decide (snd (fst e) = w)) rows)).

Lemma usageOf_app rid l1 l2 : usageOf rid (l1 ++ l2) = usageOf rid l1 ++ usageOf rid l2.
Proof. apply List.filter_app. Qed.

Lemma usageOf_one rid row : usageOf rid [row] = if bool_decide (mu_reservationId row = Some rid) then [row] else [].
Proof. cbn. by case_bool_decide. Qed.

Lemma rollup_recorded usage rollups row :
  (forall k, default noRollup (rollups !! k) = rollupOf usage k) -> forall k,
  default noRollup (incrementRollup (mu_entityId row) (mu_quantity row) (mu_walletQuantity row) (mu_recordedAt row) rollups !! k)
    = rollupOf (usage ++ [row]) k.
Proof.
  intros Hk k. specialize (Hk k). unfold incrementRollup. change (mu_entityId row, rollupPeriod (mu_recordedAt row)) with (rollupKey row). cbv zeta.
  unfold rollupOf in *. rewrite List.filter_app, !map_app, length_app, !sumZ_app. cbn [List.filter].
  destruct (decide (rollupKey row = k)) as [<-|Hne].
  - rewrite lookup_insert_eq, bool_decide_true by done. cbn [default map sumZ length]. destruct (rollups !! rollupKey row) as [r|]; cbn in Hk.
    + subst r. unfold addToRollup. cbn. f_equal; lia.
    + injection Hk as H1 H2 H3. rewrite <- H1, <- H2. cbn. f_equal; lia.
  - rewrite lookup_insert_ne, bool_decide_false by done. rewrite Hk. cbn. f_equal; lia.
Qed.

Lemma entries_recorded event entries : forall rows, NoDup (map fst entries) ->
  (forall w, w ∈ map fst entries -> (event, w) ∉ map fst rows) ->
  recordUsageControlEntries event entries rows = rows ++ map (fun e => (event, fst e, snd e)) entries.
Proof.
  induction entries as [|[w x] entries IH]; intros rows Hnd Hf; [by rewrite app_nil_r|].
  cbn [map] in Hnd. apply NoDup_cons in Hnd as [Hw Hnd]. unfold recordUsageControlEntries. cbn [fold_left].
  rewrite decide_False by (apply Hf; by left). etransitivity; [apply IH; [done|]|by rewrite <- app_assoc].
  intros w' Hw'. rewrite map_app. intros [Hin|Hin%list_elem_of_singleton]%elem_of_app; [eapply Hf; [by right|done]|].
  injection Hin as ->. by apply Hw.
Qed.

Lemma enteredIn_app w l1 l2 : enteredIn w (l1 ++ l2) = enteredIn w l1 + enteredIn w l2.
Proof. unfold enteredIn. by rewrite List.filter_app, map_app, sumZ_app. Qed.

Lemma enteredIn_event w event entries : enteredIn w (map (fun e => (event, fst e, snd e)) entries) = entered w entries.
Proof.
  unfold enteredIn, entered. induction entries as [|[w' x] entries IH]; [done|]. cbn [map List.filter fst snd].
  case_bool_decide; cbn [map sumZ snd]; by rewrite IH.
Qed.

Lemma isActive_iff s rid : isActive s rid = true <-> exists r, r ∈ s_reservations s /\ rs_id r = rid /\ rs_status r = st_active.
Proof.
  unfold isActive. rewrite existsb_exists. split.
  - intros (r & Hin & [Hid Hst]%andb_prop). exists r. split; [by apply list_elem_of_In|]. split; [lia|]. by apply bool_decide_eq_true in Hst.
  - intros (r & Hin & Hid & Hst). exists r. split; [by apply list_elem_of_In|]. apply andb_true_intro. split; [lia|]. by apply bool_decide_eq_true.
Qed.

(** The reservations after one of them is closed. *)
Lemma finalize_elem s s1 rid status confirmed r : s_reservations s1 = s_reservations s ->
  r ∈ s_reservations (finalize rid status confirmed s1) <->
  (exists r0, r0 ∈ s_reservations s /\ rs_id r0 = rid /\ rs_status r0 = st_active /\
     r = {| rs_id := rs_id r0; rs_entity := rs_entity r0; rs_requested := rs_requested r0; rs_held := rs_held r0;
            rs_confirmed := match confirmed with Some q => Some q | None => rs_confirmed r0 end;
            rs_status := status; rs_expires_at := rs_expires_at r0 |}) \/
  (r ∈ s_reservations s /\ ~ (rs_id r = rid /\ rs_status r = st_active)).
Proof.
  intros Hs. unfold finalize. cbn [s_reservations set_reservations]. rewrite Hs, list_elem_of_fmap.
  assert (Hb : forall x, (rs_id x =? rid) && bool_decide (rs_status x = st_active) = true <-> rs_id x = rid /\ rs_status x = st_active).
  { intros x. by rewrite andb_true_iff, Z.eqb_eq, bool_decide_eq_true. }
  split.
  - intros (x & -> & Hx). destruct (_ && _) eqn:E.
    + left. apply Hb in E as [E1 E2]. by exists x.
    + right. split; [done|]. intros Hk%Hb. congruence.
  - intros [(x & Hx & E1 & E2 & ->)|[Hr Hk] ].
    + exists x. split; [|done]. by rewrite (proj2 (Hb x) (conj E1 E2)).
    + exists r. split; [|done]. destruct (_ && _) eqn:E; [|done]. by apply Hb in E.
Qed.

Lemma finalize_ids s s1 rid status confirmed : s_reservations s1 = s_reservations s ->
  map rs_id (s_reservations (finalize rid status confirmed s1)) = map rs_id (s_reservations s).
Proof. intros Hs. unfold finalize. cbn. rewrite Hs, map_map. apply map_ext. intros r. by destruct (_ && _). Qed.

Lemma finalize_active s s1 rid status confirmed k : s_reservations s1 = s_reservations s -> status <> st_active ->
  isActive (finalize rid status confirmed s1) k = true <-> isActive s k = true /\ k <> rid.
Proof.
  intros Hs Hst. rewrite !isActive_iff. setoid_rewrite (finalize_elem s s1 rid status confirmed _ Hs). split.
  - intros (r & [(r0 & _ & _ & _ & ->)|[Hr Hk] ] & <- & Ha); [done|]. split; [by exists r|]. tauto.
  - intros [(r & Hr & <- & Ha) Hne]. exists r. split; [|done]. right. split; [done|]. tauto.
Qed.

Section Invariant.
Context {G : Type} `{GateLaws G} (wallet : FeatureRow).
Local Abbreviation scale := (credit_scale wallet).

Record metering_ok (m : Metering G) : Prop := {
  mi_wallet : wallet_inv scale (mt_wallet m);
  mi_gate : gate_ok (mt_gate m);
  mi_open : forall rid, rid ∈ gate_open (mt_gate m) <-> isActive (mt_wallet m) rid = true;
  mi_known : forall rid, rid ∈ gate_known (mt_gate m) -> rid ∈ map rs_id (s_reservations (mt_wallet m));
  mi_ids : NoDup (map mu_id (mt_usage m));
  mi_consumed : totalConsumed (mt_wallet m) = sumZ (map mu_walletQuantity (mt_usage m));
  mi_rollups : forall k, default noRollup (mt_rollups m !! k) = rollupOf (mt_usage m) k;
  mi_entries : forall w, grows (gate_exact w) (enteredIn w (mt_entries m)) (gate_counted (mt_gate m) w) 0;
  mi_entered : forall e, e ∈ mt_entries m -> fst (fst e) ∈ map mu_id (mt_usage m);
  mi_once : Forall (charged_once (mt_usage m)) (s_reservations (mt_wallet m));
  mi_reserved : forall row rid, row ∈ mt_usage m -> mu_reservationId row = Some rid ->
    rid ∈ map rs_id (s_reservations (mt_wallet m)) }.

(** A request that records no usage. *)
Lemma quiet_ok m m' : metering_ok m -> mt_usage m' = mt_usage m -> mt_entries m' = mt_entries m -> mt_rollups m' = mt_rollups m ->
  wallet_inv scale (mt_wallet m') -> gate_ok (mt_gate m') ->
  (forall rid, rid ∈ gate_open (mt_gate m') <-> isActive (mt_wallet m') rid = true) ->
  (forall rid, rid ∈ gate_known (mt_gate m') -> rid ∈ map rs_id (s_reservations (mt_wallet m'))) ->
  (forall rid, rid ∈ map rs_id (s_reservations (mt_wallet m)) -> rid ∈ map rs_id (s_reservations (mt_wallet m'))) ->
  totalConsumed (mt_wallet m') = totalConsumed (mt_wallet m) ->
  (forall w, grows (gate_exact w) (gate_counted (mt_gate m) w) (gate_counted (mt_gate m') w) 0) ->
  Forall (charged_once (mt_usage m)) (s_reservations (mt_wallet m')) ->
  metering_ok m'.
Proof.
  intros [] Eu Ee Er Hw Hg Ho Hk Hids Hc Hcount Honce. constructor; rewrite ?Eu, ?Ee, ?Er; try done.
  - congruence.
  - intros w. exact (grows_trans _ _ _ _ 0 0 (mi_entries0 w) (Hcount w)).
  - intros row rid Hin Hr. by eauto.
Qed.

(** A request that records one event. *)
Lemma recorded_ok m m' row entries : metering_ok m -> mu_id row ∉ map mu_id (mt_usage m) ->
  mt_usage m' = mt_usage m ++ [row] -> mt_entries m' = recordUsageControlEntries (mu_id row) entries (mt_entries m) ->
  mt_rollups m' = incrementRollup (mu_entityId row) (mu_quantity row) (mu_walletQuantity row) (mu_recordedAt row) (mt_rollups m) ->
  wallet_inv scale (mt_wallet m') -> gate_ok (mt_gate m') ->
  (forall rid, rid ∈ gate_open (mt_gate m') <-> isActive (mt_wallet m') rid = true) ->
  (forall rid, rid ∈ gate_known (mt_gate m') -> rid ∈ map rs_id (s_reservations (mt_wallet m'))) ->
  (forall rid, rid ∈ map rs_id (s_reservations (mt_wallet m)) -> rid ∈ map rs_id (s_reservations (mt_wallet m'))) ->
  totalConsumed (mt_wallet m') = totalConsumed (mt_wallet m) + mu_walletQuantity row ->
  NoDup (map fst entries) -> 
  (forall w, grows (gate_exact w) (gate_counted (mt_gate m) w) (gate_counted (mt_gate m') w) (entered w entries)) ->
  Forall (charged_once (mt_usage m ++ [row])) (s_reservations (mt_wallet m')) ->
  (forall rid, mu_reservationId row = Some rid -> rid ∈ map rs_id (s_reservations (mt_wallet m))) ->
  metering_ok m'.
Proof.
  intros [] Hid Eu Ee Er Hw Hg Ho Hk Hids Hc Hnd Hcount Honce Hres.
  assert (Ee' : mt_entries m' = mt_entries m ++ map (fun e => (mu_id row, fst e, snd e)) entries).
  { rewrite Ee. apply entries_recorded; [done|]. intros w _ (e & Heq & Hin)%list_elem_of_fmap. apply Hid.
    specialize (mi_entered0 e Hin). by rewrite <- Heq in mi_entered0. }
  constructor; rewrite ?Eu; try done.
  - rewrite map_app. apply NoDup_app. split_and!; [done| |by apply NoDup_singleton]. intros x Hx Hx'%list_elem_of_singleton. by subst.
  - rewrite map_app, sumZ_app. cbn. lia.
  - rewrite Er. by apply rollup_recorded.
  - intros w. rewrite Ee', enteredIn_app, enteredIn_event. destruct (grows_trans _ _ _ _ _ _ (mi_entries0 w) (Hcount w)) as [A B].
    split; [lia|]. intros E. specialize (B E). lia.
  - rewrite Ee', map_app. intros e [He|He]%elem_of_app; apply elem_of_app; [left; auto|right].
    apply list_elem_of_fmap in He as (x & -> & _). cbn. by left.
  - intros x rid [Hx|Hx%list_elem_of_singleton]%elem_of_app Hr; [by eauto|]. subst x. by auto.
Qed.

Lemma charged_once_other usage row r : mu_reservationId row <> Some (rs_id r) -> charged_once usage r ->
  charged_once (usage ++ [row]) r.
Proof. intros Hne. unfold charged_once. by rewrite usageOf_app, usageOf_one, bool_decide_false, app_nil_r by done. Qed.

(** A denial changes at most which windows the controls have opened. *)
Lemma denied_ok m g : metering_ok m -> gate_ok g -> (forall r, r ∈ gate_open g <-> r ∈ gate_open (mt_gate m)) ->
  (forall r, r ∈ gate_known g -> r ∈ gate_known (mt_gate m)) -> 
  (forall w, grows (gate_exact w) (gate_counted (mt_gate m) w) (gate_counted g w) 0) -> metering_ok (with_gate g m).
Proof.
  intros Hm Hg Ho Hk Hc. destruct Hm as [Hw Hg0 Ho0 Hk0 ? ? ? ? ? ? ?] eqn:E. apply (quiet_ok m); cbn; try done.
  - intros rid. rewrite Ho. apply Ho0.
  - intros rid Hr. by apply Hk0, Hk.
Qed.

Lemma consume_ok v rate entity filters quantity occurredAt m m' r : metering_ok m -> gate_reads (mt_gate m) (rd_recorded v) (rd_controls v) ->
  rd_eventId v ∉ map mu_id (mt_usage m) ->
  consumeWithinTransaction wallet v rate entity filters quantity occurredAt m = Ok (m', r) -> metering_ok m'.
Proof.
  intros Hm Hl Hf Hc. destruct (consume_cases _ _ _ _ _ _ _ _ _ _ Hc) as
    [[-> _]|[(q & g & denial & Hg & -> & _)|(q & w & g & entries & s & ds & row & rows & _ & _ & Hg & Hs & Hrow & Hrec & _)] ]; [done| |];
    destruct (consume_law _ _ _ _ _ _ _ (mi_gate _ Hm) Hl Hg) as (G1 & G2 & G3 & G4 & G5); cbn [entriesOf] in *.
  - apply denied_ok; [done..| | |exact G5]; intros x; by rewrite ?G2, ?G3.
  - apply recordUsage_spec in Hrec as (R1 & R2 & R3 & R4 & R5 & _). apply insertUsageEvent_spec in Hrow as (I1 & I2 & I3 & _ & _ & I6 & _).
    cbn in R1, R2. pose proof (mi_wallet _ Hm) as Hwi.
    destruct (consume_preserves _ _ _ _ _ _ _ _ _ _ Hwi Hs) as (W1 & _ & W3). destruct (W3 _ eq_refl) as (n & Hn & Htot).
    assert (Hres : s_reservations s = s_reservations (mt_wallet m)).
    { by destruct (consume_spec _ _ _ _ _ _ _ _ _ _ Hwi Hs) as [[-> _]|(? & ? & ? & _ & _ & _ & _ & _ & _ & ->)]. }
    assert (Hact : forall rid, isActive s rid = isActive (mt_wallet m) rid) by (intros rid; unfold isActive; by rewrite Hres).
    rewrite <- I1 in Hf. apply (recorded_ok m m' row entries); rewrite ?R1, ?R2, ?Hres; try done.
    + intros rid. rewrite G2, Hact. by apply mi_open.
    + rewrite G3. by apply mi_known.
    + rewrite Hn in I6. injection I6 as <-. done.
    + eapply Forall_impl; [exact (mi_once _ Hm)|]. intros x. apply charged_once_other. by rewrite I3.
    + intros rid Hr. congruence.
Qed.

Lemma reserve_ok v rate rid entity filters quantity lifetime m m' r : metering_ok m -> gate_reads (mt_gate m) (rd_recorded v) (rd_controls v) ->
  rid ∉ map rs_id (s_reservations (mt_wallet m)) ->
  reserveWithinTransaction wallet v rate rid entity filters quantity lifetime m = Ok (m', r) -> metering_ok m'.
Proof.
  intros Hm Hl Hf Hc.
  assert (Hkn : rid ∉ gate_known (mt_gate m)) by (intros Hk; by apply Hf, (mi_known _ Hm)).
  destruct (reserve_cases _ _ _ _ _ _ _ _ _ _ _ Hc) as
    [[-> _]|[(q & g & denial & Hg & -> & _)|(q & w & g & s & ds & ex & Hg & Hs & E1 & E2 & E3 & E4 & E5 & _)] ]; [done| |];
    destruct (hold_law _ _ _ _ _ _ _ _ (mi_gate _ Hm) Hl Hkn Hg) as (G1 & G2 & G3 & G4).
  - apply denied_ok; [done..| | |]; intros x; rewrite ?G2; try done. intros [Hx|[? _] ]%G3; done.
  - pose proof (mi_wallet _ Hm) as Hwi. destruct (reserve_preserves _ _ _ _ _ _ _ _ _ _ _ _ Hwi Hf Hs) as (W1 & W2 & _).
    assert (Hres : s_reservations s = s_reservations (mt_wallet m) ++ [newReservation rid entity q w ex]).
    { destruct (reserve_spec _ _ _ _ _ _ _ _ _ _ _ _ Hwi Hs) as [[_ [? ?] ]|(? & ? & ? & _ & _ & _ & _ & _ & _ & _ & _ & ->)]; done. }
    apply (quiet_ok m); rewrite ?E1, ?E2; try done.
    + intros k. rewrite G2. cbn [app]. rewrite isActive_iff, Hres, elem_of_cons, (mi_open _ Hm), isActive_iff. split.
      * intros [ ->|(x & Hx & Hk)]; [|exists x; split; [apply elem_of_app; by left|done] ].
        eexists. split; [apply elem_of_app; right; by left|done].
      * intros (x & [Hx|Hx%list_elem_of_singleton]%elem_of_app & Hk & Ha); [right; by exists x|left; by subst].
    + intros k Hk. rewrite Hres, map_app. apply elem_of_app. destruct (G3 k Hk) as [Hk'|[_ ->] ]; [left; by apply (mi_known _ Hm)|right; by left].
    + intros k Hk. rewrite Hres, map_app. apply elem_of_app. by left.
    + rewrite Hres. apply Forall_app. split; [exact (mi_once _ Hm)|]. apply Forall_singleton. unfold charged_once. cbn.
      unfold usageOf. apply filter_none. intros row Hrow. apply bool_decide_eq_false_2. intros Hrid. apply Hf. by apply (mi_reserved _ Hm row).
Qed.

(** Closing an open reservation in the wallet and in the controls. *)
Lemma release_ok rid status m m' : metering_ok m -> isActive (mt_wallet m) rid = true -> 0 <= scale ->
  status <> st_active -> status <> st_confirmed ->
  releaseReservationHolds wallet rid status m = Ok m' -> metering_ok m'.
Proof.
  intros Hm Hact Hs Hst Hst' Hr. apply release_holds_cases in Hr as (s & Hrel & ->). pose proof (mi_wallet _ Hm) as Hwi.
  destruct (release_preserves _ _ _ _ _ Hwi Hs Hact Hst Hrel) as (W1 & W2 & _).
  rewrite releaseHolds_settles in Hrel by done. injection Hrel as <-.
  destruct (release_allocs _ _ rid Hwi) as (_ & Hres & _).
  destruct (release_law rid (mt_gate m) (mi_gate _ Hm)) as (G1 & G2 & G3 & G4).
  apply (quiet_ok m); cbn [mt_wallet mt_gate mt_usage mt_entries mt_rollups with_wallet with_gate]; try done.
  - intros k. rewrite G3, (mi_open _ Hm). symmetry. by apply finalize_active.
  - rewrite G2, (finalize_ids (mt_wallet m)) by done. by apply mi_known.
  - by rewrite (finalize_ids (mt_wallet m)).
  - intros w. rewrite G4. apply grows_same.
  - pose proof (mi_once _ Hm) as Ho. rewrite Forall_forall in Ho. apply Forall_forall. intros r Hr.
    apply (finalize_elem (mt_wallet m)) in Hr as [(r0 & Hr0 & _ & Ha & ->)|[Hr _] ]; [|by apply Ho|done].
    specialize (Ho r0 Hr0). unfold charged_once in *. rewrite Ha in Ho. cbn. by destruct status.
Qed.

Lemma confirm_ok v rid input occurredAt m m' a : metering_ok m -> gate_reads (mt_gate m) (rd_recorded v) (rd_controls v) ->
  rd_eventId v ∉ map mu_id (mt_usage m) ->
  confirmWithinTransaction wallet v rid input occurredAt m = Ok (m', a) -> metering_ok m'.
Proof.
  intros Hm Hl Hf Hc. pose proof (mi_wallet _ Hm) as Hwi.
  destruct (confirm_cases _ _ _ _ _ _ _ _ Hc) as (r & q & Hr & _ & [[-> _]|[(Hst & Hrel & _)|[(Hst & g & denial & Hg & -> & _)|
    (Hst & w & g & entries & plan & row & rows & Hg & Hplan & Hrow & Hrec & _)] ] ]); [done| | |];
    destruct (findReservation_active _ _ _ Hr Hst) as (Hrin & Hrid & Hact);
    pose proof (findReservation_unspent_scale wallet _ _ _ Hwi Hr Hst) as Hs.
  { by apply (release_ok rid st_expired m). }
  all: assert (Hop : rid ∈ gate_open (mt_gate m)) by (by apply (mi_open _ Hm));
    destruct (confirm_law _ _ _ _ _ _ _ _ (mi_gate _ Hm) Hl Hop Hg) as (G1 & G2 & G3 & G4 & G5); cbn [entriesOf] in *.
  - apply denied_ok; [done..| | |]; intros x; rewrite ?G2; [|done|exact (G5 x)]. rewrite G4. tauto.
  - apply recordUsage_spec in Hrec as (R1 & R2 & R3 & R4 & R5 & _). apply insertUsageEvent_spec in Hrow as (I1 & I2 & I3 & I4 & I5 & I6 & _).
    cbn in R1, R2.
    destruct (confirm_preserves wallet _ _ _ _ _ _ _ (Some q) Hwi Hr Hst I6 Hplan) as (W1 & W2 & _).
    destruct (applyConfirmation_writes rid plan (mt_wallet m)) as (_ & Hres & _).
    rewrite <- I1 in Hf. apply (recorded_ok m m' row entries); rewrite ?R1, ?R2; try done.
    + intros k. rewrite G4, (mi_open _ Hm). symmetry. by apply finalize_active.
    + rewrite G2, (finalize_ids (mt_wallet m)) by done. by apply mi_known.
    + by rewrite (finalize_ids (mt_wallet m)).
    + pose proof (mi_once _ Hm) as Ho. rewrite Forall_forall in Ho. apply Forall_forall. intros x Hx.
      apply (finalize_elem (mt_wallet m)) in Hx as [(r0 & Hr0 & Hid & Ha & ->)|[Hx Hne] ]; [| |done].
      * pose proof (NoDup_key_inj rs_id _ r0 r (inv_reservations _ _ Hwi) Hr0 Hrin ltac:(congruence)) as ->.
        specialize (Ho r Hrin). unfold charged_once in *. rewrite Ha in Ho. cbn. exists row, q.
        rewrite usageOf_app, usageOf_one, Ho, Hid, bool_decide_true by done. done.
      * destruct (decide (rs_id x = rid)) as [Heq|Hd].
        -- pose proof (NoDup_key_inj rs_id _ x r (inv_reservations _ _ Hwi) Hx Hrin ltac:(congruence)) as ->. tauto.
        -- apply charged_once_other; [|by apply Ho]. rewrite I3. congruence.
    + intros k Hk. rewrite I3 in Hk. injection Hk as <-. rewrite <- Hrid. by apply list_elem_of_fmap_2.
Qed.

Lemma expire_ok v m m' : metering_ok m -> expireSubjectReservations wallet v m = Ok m' -> metering_ok m'.
Proof.
  unfold expireSubjectReservations. generalize (expiredSubjectReservations (ck_clock (rd_clocks v)) (mt_wallet m)) as l.
  intros l. revert m. induction l as [|rid l IH]; intros m Hm He; cbn [foldM] in He; [by injection He as <-|].
  apply bind_Ok in He as (m1 & H1 & He). apply (IH m1); [|done]. apply bind_Ok in H1 as (r & Hr & H1). apply lockReservation_Ok in Hr.
  case_decide as Hst; [|by injection H1 as <-]. destruct (findReservation_active _ _ _ Hr Hst) as (_ & _ & Hact).
  apply (release_ok rid st_expired m); [done|done| |done|done|done].
  by eapply findReservation_unspent_scale; [apply (mi_wallet _ Hm)|..].
Qed.
End Invariant.

(** ** Histories *)

(** One transaction of the service; [ReqGrant] is an allocation another part of the program
    grants (a purchase, an allowance window), nothing of it spent. *)
Inductive Request :=
  | ReqConsume (v : Reads) (rate : RateDecision) (entity : option Z) (filters : option (list string)) (quantity : text)
      (occurredAt : option Z)
  | ReqReserve (v : Reads) (rate : RateDecision) (rid : Z) (entity : option Z) (filters : option (list string))
      (quantity : text) (expiresInSeconds : Z)
  | ReqConfirm (v : Reads) (rid : Z) (quantity : text) (occurredAt : option Z)
  | ReqRelease (v : Reads) (rid : Z)
  | ReqExpire (v : Reads)
  | ReqGrant (a : Alloc).

Inductive Answer := Metered (r : UsageResult) | Closed (r : FinalizeResult) | Done.

Definition grantAllocation (a : Alloc) (s : Store) : Store := set_allocs s (s_allocs s ++ [a]).

(** The committed transaction of a request; one that throws is rolled back. *)
Definition serve {G} `{ControlGate G} (wallet : FeatureRow) (q : Request) (m : Metering G) : result (Metering G * Answer) :=
  match q with
  | ReqConsume v rate entity filters quantity occurredAt =>
      '(m', r) ← consumeWithinTransaction wallet v rate entity filters quantity occurredAt m; Ok (m', Metered r)
  | ReqReserve v rate rid entity filters quantity lifetime =>
      '(m', r) ← reserveWithinTransaction wallet v rate rid entity filters quantity lifetime m; Ok (m', Metered r)
  | ReqConfirm v rid quantity occurredAt =>
      '(m', r) ← confirmWithinTransaction wallet v rid quantity occurredAt m; Ok (m', Closed r)
  | ReqRelease v rid => '(m', r) ← releaseWithinTransaction wallet v rid m; Ok (m', Closed r)
  | ReqExpire v => m' ← expireSubjectReservations wallet v m; Ok (m', Done)
  | ReqGrant a => Ok (with_wallet (grantAllocation a (mt_wallet m)) m, Done)
  end.

Section Histories.
Context {G : Type} `{GateLaws G} (wallet : FeatureRow).
Local Abbreviation scale := (credit_scale wallet).

(** Generated ids are new, the controls read are resolved ones, and the rate card spends
    this wallet. *)
Definition request_fits (m : Metering G) (q : Request) : Prop :=
  match q with
  | ReqConsume v rate _ _ _ _ => r_wallet rate = wallet /\ gate_reads (mt_gate m) (rd_recorded v) (rd_controls v) /\ rd_eventId v ∉ map mu_id (mt_usage m)
  | ReqReserve v rate rid _ _ _ _ =>
      r_wallet rate = wallet /\ gate_reads (mt_gate m) (rd_recorded v) (rd_controls v) /\ rid ∉ map rs_id (s_reservations (mt_wallet m))
  | ReqConfirm v _ _ _ => gate_reads (mt_gate m) (rd_recorded v) (rd_controls v) /\ rd_eventId v ∉ map mu_id (mt_usage m)
  | ReqRelease _ _ | ReqExpire _ => True
  | ReqGrant a => al_id a ∉ map al_id (s_allocs (mt_wallet m)) /\ u_consumed (al_units a) = 0 /\ u_held (al_units a) = 0 /\
      0 <= u_reversed (al_units a) <= u_quantity (al_units a)
  end.

Inductive metering_step (m : Metering G) : Metering G -> Prop :=
  | metering_served q m' a : request_fits m q -> serve wallet q m = Ok (m', a) -> metering_step m m'.

(** Granted allocations, no usage yet, nothing held. *)
Record metering_start (m : Metering G) : Prop := {
  ms_wallet : unspent (mt_wallet m);
  ms_gate : gate_ok (mt_gate m) /\ gate_open (mt_gate m) = [] /\ gate_known (mt_gate m) = [] /\
    forall w, gate_counted (mt_gate m) w = 0;
  ms_empty : mt_usage m = [] /\ mt_entries m = [] /\ mt_rollups m = ∅ }.

Lemma start_metering_ok m : metering_start m -> metering_ok wallet m.
Proof.
  intros [Hu (Hg & Ho & Hk & Hc) (Eu & Ee & Er)]. pose proof Hu as (Hr & _ & _ & Ha).
  constructor; rewrite ?Eu, ?Ee, ?Er; try done.
  - by apply unspent_inv.
  - intros rid. rewrite Ho, isActive_iff, Hr. split; [by intros ?%elem_of_nil|by intros (? & ?%elem_of_nil & _)].
  - intros rid. rewrite Hk. by intros ?%elem_of_nil.
  - constructor.
  - unfold totalConsumed. cbn. clear -Ha. induction (s_allocs (mt_wallet m)) as [|a l IH]; [done|].
    apply Forall_cons in Ha as [(E & _) Ha]. cbn. rewrite E, IH by done. done.
  - intros w. rewrite Hc. apply grows_same.
  - intros e He. by apply elem_of_nil in He.
  - rewrite Hr. constructor.
  - intros row rid Hrow. by apply elem_of_nil in Hrow.
Qed.

Lemma grant_inv a s : wallet_inv scale s -> al_id a ∉ map al_id (s_allocs s) -> u_consumed (al_units a) = 0 ->
  u_held (al_units a) = 0 -> 0 <= u_reversed (al_units a) <= u_quantity (al_units a) ->
  wallet_inv scale (grantAllocation a s).
Proof.
  intros [I1 I2 I3 I4 I5 I6 I7 I8] Hf Hc Hh Hq. constructor; cbn; try done.
  - rewrite map_app. apply NoDup_app. split_and!; [done| |by apply NoDup_singleton]. intros x Hx Hx'%list_elem_of_singleton. by subst.
  - apply Forall_app. split; [done|]. apply Forall_singleton. unfold alloc_ok, units_ok. lia.
  - intros b [Hb|Hb%list_elem_of_singleton]%elem_of_app; [by apply I3|]. subst b. rewrite Hh. symmetry. apply amountFor_notin.
    intros (p & Hp & Hin)%list_elem_of_fmap. apply list_elem_of_fmap in Hin as (h & -> & Hin). apply Hf. rewrite Hp. cbn.
    rewrite Forall_forall in I5. by destruct (I5 h Hin) as (_ & _ & _ & ? & _).
  - eapply Forall_impl; [exact I5|]. intros h (? & ? & ? & ? & ?). unfold hold_ok. cbn. rewrite map_app, elem_of_app. auto 10.
  - intros h b r Hin [Hb|Hb%list_elem_of_singleton]%elem_of_app Hr Hid Hrid; [by apply (I7 h b r)|]. subst b. exfalso. apply Hf.
    rewrite Hid. rewrite Forall_forall in I5. by destruct (I5 h Hin) as (_ & _ & _ & ? & _).
Qed.

Lemma served_ok m q m' a : metering_ok wallet m -> request_fits m q -> serve wallet q m = Ok (m', a) -> metering_ok wallet m'.
Proof.
  intros Hm Hfit Hs. destruct q as [v rate en fs qt oc|v rate rid en fs qt lt|v rid qt oc|v rid|v|al]; cbn in Hfit, Hs.
  - apply bind_Ok in Hs as ([m1 r] & Hs & E). injection E as <- _. destruct Hfit as (_ & Hl & Hf). by eapply consume_ok.
  - apply bind_Ok in Hs as ([m1 r] & Hs & E). injection E as <- _. destruct Hfit as (_ & Hl & Hf). by eapply reserve_ok.
  - apply bind_Ok in Hs as ([m1 r] & Hs & E). injection E as <- _. destruct Hfit as (Hl & Hf). by eapply confirm_ok.
  - apply bind_Ok in Hs as ([m1 r] & Hs & E). injection E as <- _.
    destruct (release_cases _ _ _ _ _ _ Hs) as (r0 & Hr & [[_ ->]|(Hst & st & H1 & H2 & Hrel)]); [done|].
    destruct (findReservation_active _ _ _ Hr Hst) as (_ & _ & Hact). apply (release_ok wallet rid st m); try done.
    by eapply findReservation_unspent_scale; [apply (mi_wallet _ _ Hm)|..].
  - apply bind_Ok in Hs as (m1 & Hs & E). injection E as <- _. by eapply expire_ok.
  - injection Hs as <- _. destruct Hfit as (Hf & Hc & Hh & Hq). apply (quiet_ok wallet m); cbn; try done.
    + by apply grant_inv; [apply (mi_wallet _ _ Hm)|..].
    + apply (mi_gate _ _ Hm).
    + apply (mi_open _ _ Hm).
    + apply (mi_known _ _ Hm).
    + unfold totalConsumed. cbn. rewrite map_app, sumZ_app. cbn. lia.
    + intros w. apply grows_same.
    + apply (mi_once _ _ Hm).
Qed.

Lemma history_ok m0 m : metering_start m0 -> rtc metering_step m0 m -> metering_ok wallet m.
Proof.
  intros H0' Hrun. refine (rtc_ind_r (metering_ok wallet) m0 _ _ m Hrun); [by apply start_metering_ok|].
  intros m1 m2 _ [q m2' a Hfit Hs] Hok. by eapply served_ok.
Qed.

(** *** What a committed request leaves as it was *)

(** Confirmed reservations, recorded events and the rates of reservations stay. *)
Record kept (m m' : Metering G) : Prop := {
  kp_confirmed : forall r, r ∈ s_reservations (mt_wallet m) -> rs_status r = st_confirmed -> r ∈ s_reservations (mt_wallet m');
  kp_usage : exists l, mt_usage m' = mt_usage m ++ l;
  kp_ids : forall rid, rid ∈ map rs_id (s_reservations (mt_wallet m)) -> rid ∈ map rs_id (s_reservations (mt_wallet m'));
  kp_rates : forall rid, rid ∈ map rs_id (s_reservations (mt_wallet m)) -> mt_rates m' !! rid = mt_rates m !! rid }.

#[local] Instance kept_preorder : PreOrder kept.
Proof.
  split.
  - intros m. constructor; try done. exists []. by rewrite app_nil_r.
  - intros m1 m2 m3 [A1 (l1 & A2) A3 A4] [B1 (l2 & B2) B3 B4]. constructor; auto.
    + exists (l1 ++ l2). by rewrite B2, A2, app_assoc.
    + intros rid Hr. rewrite B4 by auto. by apply A4.
Qed.

(** A request that leaves the reservations and at most records usage. *)
Lemma same_reservations_kept m m' l : s_reservations (mt_wallet m') = s_reservations (mt_wallet m) ->
  mt_usage m' = mt_usage m ++ l -> mt_rates m' = mt_rates m -> kept m m'.
Proof. intros E1 E2 E3. constructor; rewrite ?E1, ?E3; try done. by exists l. Qed.

(** A request that closes an open reservation. *)
Lemma finalize_kept m m' s1 rid status confirmed l : s_reservations s1 = s_reservations (mt_wallet m) ->
  mt_wallet m' = finalize rid status confirmed s1 -> mt_usage m' = mt_usage m ++ l -> mt_rates m' = mt_rates m -> kept m m'.
Proof.
  intros Es Ew Eu Er. constructor; rewrite ?Ew, ?Er; [| |by rewrite (finalize_ids _ _ _ _ _ Es)|done].
  - intros r Hr Hst. apply (finalize_elem _ _ _ _ _ _ Es). right. split; [done|]. intros [_ Ha]. congruence.
  - by exists l.
Qed.

Lemma release_kept m m' rid status : metering_ok wallet m -> isActive (mt_wallet m) rid = true -> 0 <= scale ->
  releaseReservationHolds wallet rid status m = Ok m' -> kept m m'.
Proof.
  intros Hm Hact Hs Hr. apply release_holds_cases in Hr as (s & Hrel & ->).
  rewrite releaseHolds_settles in Hrel by (done || apply (mi_wallet _ _ Hm)). injection Hrel as <-.
  destruct (release_allocs wallet _ rid (mi_wallet _ _ Hm)) as (_ & Hres & _).
  eapply (finalize_kept _ _ _ rid status None []); [exact Hres|done|by rewrite app_nil_r|done].
Qed.

Lemma active_release_kept m m' rid r status : metering_ok wallet m -> findReservation (mt_wallet m) rid = Some r ->
  rs_status r = st_active -> releaseReservationHolds wallet rid status m = Ok m' -> kept m m'.
Proof.
  intros Hm Hr Hst Hrel. destruct (findReservation_active _ _ _ Hr Hst) as (_ & _ & Hact).
  eapply release_kept; [done|done| |done]. by eapply findReservation_unspent_scale; [apply (mi_wallet _ _ Hm)|..].
Qed.

Lemma with_gate_kept m g : kept m (with_gate g m).
Proof. by apply (same_reservations_kept _ _ []); [|cbn; rewrite app_nil_r|]. Qed.

Lemma consume_kept v rate entity filters quantity occurredAt m m' r : metering_ok wallet m ->
  consumeWithinTransaction wallet v rate entity filters quantity occurredAt m = Ok (m', r) -> kept m m'.
Proof.
  intros Hm Hc. destruct (consume_cases _ _ _ _ _ _ _ _ _ _ Hc) as
    [[-> _]|[(q & g & denial & _ & -> & _)|(q & w & g & entries & s & ds & row & rows & _ & _ & _ & Hs & _ & Hrec & _)] ];
    [done|apply with_gate_kept|].
  apply recordUsage_spec in Hrec as (R1 & _ & R3 & _ & _ & R6). cbn in R1, R6. apply (same_reservations_kept _ _ [row]); [|done|done].
  rewrite R1. by destruct (consume_spec _ _ _ _ _ _ _ _ _ _ (mi_wallet _ _ Hm) Hs) as [[-> _]|(? & ? & ? & _ & _ & _ & _ & _ & _ & ->)].
Qed.

Lemma reserve_kept v rate rid entity filters quantity lifetime m m' r : metering_ok wallet m ->
  rid ∉ map rs_id (s_reservations (mt_wallet m)) ->
  reserveWithinTransaction wallet v rate rid entity filters quantity lifetime m = Ok (m', r) -> kept m m'.
Proof.
  intros Hm Hf Hc. destruct (reserve_cases _ _ _ _ _ _ _ _ _ _ _ Hc) as
    [[-> _]|[(q & g & denial & _ & -> & _)|(q & w & g & s & ds & ex & _ & Hs & E1 & _ & E3 & _ & _ & _ & _ & _ & _ & _ & E9 & _)] ];
    [done|apply with_gate_kept|].
  destruct (reserve_spec _ _ _ _ _ _ _ _ _ _ _ _ (mi_wallet _ _ Hm) Hs) as [[_ [? ?] ]|(? & ? & ? & _ & _ & _ & _ & _ & _ & _ & _ & Es)]; [done|].
  constructor; rewrite ?E1, ?Es, ?E3, ?E9; cbn.
  - intros y Hy _. apply elem_of_app. by left.
  - exists []. by rewrite app_nil_r.
  - intros k Hk. rewrite map_app. apply elem_of_app. by left.
  - intros k Hk. rewrite lookup_insert_ne; [done|]. by intros ->.
Qed.

Lemma confirm_kept v rid input occurredAt m m' a : metering_ok wallet m ->
  confirmWithinTransaction wallet v rid input occurredAt m = Ok (m', a) -> kept m m'.
Proof.
  intros Hm Hc. destruct (confirm_cases _ _ _ _ _ _ _ _ Hc) as (r & q & Hr & _ & [[-> _]|[(Hst & Hrel & _)|[(Hst & g & denial & _ & -> & _)|
    (Hst & w & g & entries & plan & row & rows & _ & _ & _ & Hrec & _)] ] ]);
    [done|by eapply active_release_kept|apply with_gate_kept|].
  apply recordUsage_spec in Hrec as (R1 & _ & R3 & _ & _ & R6). cbn in R1, R6.
  eapply (finalize_kept _ _ _ rid st_confirmed (Some q) [row]); [|exact R1|done|done].
  by destruct (applyConfirmation_writes rid plan (mt_wallet m)) as (_ & ? & _).
Qed.

Lemma expire_kept v m m' : metering_ok wallet m -> expireSubjectReservations wallet v m = Ok m' -> kept m m'.
Proof.
  unfold expireSubjectReservations. generalize (expiredSubjectReservations (ck_clock (rd_clocks v)) (mt_wallet m)) as l.
  intros l. revert m. induction l as [|rid l IH]; intros m Hm He; cbn [foldM] in He; [by injection He as <-|].
  apply bind_Ok in He as (m1 & H1 & He). apply bind_Ok in H1 as (r & Hr & H1). apply lockReservation_Ok in Hr.
  case_decide as Hst; [|injection H1 as <-; by apply IH]. destruct (findReservation_active _ _ _ Hr Hst) as (_ & _ & Hact).
  transitivity m1; [by eapply active_release_kept|]. apply IH; [|done].
  apply (release_ok wallet rid st_expired m); [done|done| |done|done|done].
  by eapply findReservation_unspent_scale; [apply (mi_wallet _ _ Hm)|..].
Qed.

Lemma served_kept m q m' a : metering_ok wallet m -> request_fits m q -> serve wallet q m = Ok (m', a) -> kept m m'.
Proof.
  intros Hm Hfit Hs. destruct q as [v rate en fs qt oc|v rate rid en fs qt lt|v rid qt oc|v rid|v|al]; cbn in Hfit, Hs.
  - apply bind_Ok in Hs as ([m1 r] & Hs & E). injection E as <- _. by eapply consume_kept.
  - apply bind_Ok in Hs as ([m1 r] & Hs & E). injection E as <- _. destruct Hfit as (_ & _ & Hf). by eapply reserve_kept.
  - apply bind_Ok in Hs as ([m1 r] & Hs & E). injection E as <- _. by eapply confirm_kept.
  - apply bind_Ok in Hs as ([m1 r] & Hs & E). injection E as <- _.
    destruct (release_cases _ _ _ _ _ _ Hs) as (r0 & Hr & [[_ ->]|(Hst & st & _ & _ & Hrel)]); [done|].
    by eapply active_release_kept.
  - apply bind_Ok in Hs as (m1 & Hs & E). injection E as <- _. by eapply expire_kept.
  - injection Hs as <- _. by apply (same_reservations_kept _ _ []); [|cbn; rewrite app_nil_r|].
Qed.

Lemma history_kept m m' : metering_ok wallet m -> rtc metering_step m m' -> metering_ok wallet m' /\ kept m m'.
Proof.
  intros Hm Hrun. induction Hrun as [|m m1 m2 [q m1' a Hfit Hs] _ IH]; [done|].
  destruct (IH (served_ok _ _ _ _ Hm Hfit Hs)) as [H2 K2]. split; [done|]. transitivity m1'; [by eapply served_kept|done].
Qed.
End Histories.

(** ** The rows after a write *)

Lemma insertSpend_map f a l : (forall x y, spendCompare (f x) (f y) = spendCompare x y) ->
  insertSpend (f a) (map f l) = map f (insertSpend a l).
Proof. intros Hf. induction l as [|b l IH]; [done|]. cbn [map insertSpend]. rewrite Hf. destruct (spendCompare a b); cbn; by rewrite ?IH. Qed.

Lemma spendSorted_map f l : (forall x y, spendCompare (f x) (f y) = spendCompare x y) ->
  spendSorted (map f l) = map f (spendSorted l).
Proof. intros Hf. induction l as [|a l IH]; [done|]. cbn. change (fold_right insertSpend [] ?k) with (spendSorted k). by rewrite IH, insertSpend_map. Qed.

Lemma lockAllocations_amounts column l s s' entity now : s_allocs s' = map (addAmounts column l) (s_allocs s) ->
  lockAllocations s' entity now = map (addAmounts column l) (lockAllocations s entity now).
Proof.
  intros Hs. unfold lockAllocations. rewrite Hs, <- spendSorted_map by done. f_equal.
  clear Hs. induction (s_allocs s) as [|a k IH]; [done|]. cbn [map List.filter].
  change (spendable entity now (addAmounts column l a)) with (spendable entity now a).
  destruct (spendable entity now a); cbn [map]; by rewrite IH.
Qed.

Lemma takenFrom_amount scale ds l id : amountsOf scale ds = Ok l -> NoDup (map fst l) ->
  match takenFrom ds id with
  | None => amountFor l id = 0
  | Some t => decimalToUnits t scale = Ok (amountFor l id)
  end.
Proof.
  intros Hl Hnd. unfold takenFrom. apply mapM_Ok_Forall2 in Hl.
  destruct (List.find _ (rev ds)) as [d|] eqn:E; cbn [option_map].
  - apply find_some in E as [Hin Hid%Z.eqb_eq]. apply in_rev, list_elem_of_In in Hin.
    destruct (Forall2_elem_l _ _ _ _ Hl Hin) as (p & Hp & Hd). apply bind_Ok in Hd as (n & Hn & Hd). injection Hd as <-.
    rewrite Hn. f_equal. symmetry. apply amountFor_unique; [done|]. by rewrite <- Hid.
  - apply amountFor_notin. intros (p & -> & Hp)%list_elem_of_fmap.
    destruct (Forall2_elem_r _ _ _ _ Hl Hp) as (d & Hd & Hdp). apply bind_Ok in Hdp as (n & _ & Hdp). injection Hdp as <-.
    apply list_elem_of_In, in_rev in Hd. pose proof (find_none _ _ E d Hd) as Hne. cbn in Hne. by rewrite Z.eqb_refl in Hne.
Qed.

(** The locked rows with the deductions applied are the rows a read of the wallet gives. *)
Lemma deductedRows_reread scale column ds l L : 0 <= scale -> Forall (fun a => nonneg_units (al_units a)) L ->
  amountsOf scale ds = Ok l -> NoDup (map fst l) ->
  deductedRows (map (readRow scale) L) ds scale column = Ok (map (readRow scale) (map (addAmounts column l) L)).
Proof.
  intros Hs HL Hl Hnd. unfold deductedRows. rewrite map_map. apply mapM_Ok_Forall2. rewrite Forall2_fmap. apply Forall_Forall2_diag, Forall_forall.
  intros a Ha. rewrite Forall_forall in HL. destruct (HL a Ha) as (_ & _ & Hc & Hh).
  pose proof (takenFrom_amount scale ds l (al_id a) Hl Hnd) as Ht. unfold deductedRow. cbn [a_id readRow].
  destruct (takenFrom ds (al_id a)) as [t|].
  - destruct column; cbn [columnOf readRow a_consumed_quantity a_held_quantity]; rewrite databaseUnits_units by done;
      cbn [mbind result_bind]; by rewrite Ht.
  - unfold addAmounts. by rewrite Ht, addColumn_0, with_units_self.
Qed.

Section Answers.
Context {G : Type} `{GateLaws G} (wallet : FeatureRow).
Local Abbreviation scale := (credit_scale wallet).

Lemma locked_nonneg s entity now : wallet_inv scale s -> Forall (fun a => nonneg_units (al_units a)) (lockAllocations s entity now).
Proof.
  intros Hi. apply Forall_forall. intros a Ha. apply alloc_ok_nonneg.
  apply (locked_spec (spendable entity now) s (inv_ids _ s Hi)) in Ha as [Ha _].
  pose proof (inv_allocs _ s Hi) as Hall. rewrite Forall_forall in Hall. by apply Hall.
Qed.

Lemma consumed_reread s s' rate entity q w now ds rows : wallet_inv scale s ->
  consumeWallet wallet rate entity q w false now s = Ok (s', Consumed ds) ->
  deductedRows (map (readRow scale) (lockAllocations s entity now)) ds scale consumed_quantity = Ok rows ->
  rows = map (readRow scale) (lockAllocations s' entity now).
Proof.
  intros Hi Hs Hrows. unfold consumeWallet in Hs. apply bind_Ok in Hs as (b & _ & Hs). apply bind_Ok in Hs as (d & _ & Hs).
  destruct (negb (d_allowed d)); [done|]. apply bind_Ok in Hs as (ds' & Hds & Hs). apply bind_Ok in Hs as (s1 & Happ & Hs).
  injection Hs as <- ->.
  destruct (decimalToUnits w scale) as [n|e] eqn:Hn; [|unfold planDeductions in Hds; by rewrite Hn in Hds].
  destruct (planned_live wallet entity now s w n ds Hi Hn Hds) as (l & Hl & _ & Hnd & _).
  rewrite (applyDeductions_amounts _ _ _ _ _ Hl) in Happ. injection Happ as <-.
  rewrite (deductedRows_reread _ _ _ l) in Hrows; [|by eapply decimalToUnits_scale|by apply locked_nonneg|done|done].
  injection Hrows as <-. f_equal. symmetry. by apply lockAllocations_amounts.
Qed.

Lemma held_reread s s' rate rid entity q w ex now ds rows : wallet_inv scale s ->
  reserveWallet wallet rate rid entity q w false ex now s = Ok (s', Reserved rid ds) ->
  deductedRows (map (readRow scale) (lockAllocations s entity now)) ds scale held_quantity = Ok rows ->
  rows = map (readRow scale) (lockAllocations s' entity now).
Proof.
  intros Hi Hs Hrows. unfold reserveWallet in Hs. apply bind_Ok in Hs as (b & _ & Hs). apply bind_Ok in Hs as (d & _ & Hs).
  destruct (negb (d_allowed d)); [done|]. apply bind_Ok in Hs as (ds' & Hds & Hs). apply bind_Ok in Hs as (s1 & Happ & Hs).
  apply bind_Ok in Hs as (s2 & Hins & Hs). injection Hs as <- ->.
  destruct (decimalToUnits w scale) as [n|e] eqn:Hn; [|unfold planDeductions in Hds; by rewrite Hn in Hds].
  destruct (planned_live wallet entity now s w n ds Hi Hn Hds) as (l & Hl & _ & Hnd & _).
  rewrite (applyDeductions_amounts _ _ _ _ _ Hl) in Happ. injection Happ as <-.
  rewrite (insertHolds_amounts _ _ _ _ _ Hl) in Hins. injection Hins as <-.
  rewrite (deductedRows_reread _ _ _ l) in Hrows; [|by eapply decimalToUnits_scale|by apply locked_nonneg|done|done].
  injection Hrows as <-. f_equal. symmetry. by apply lockAllocations_amounts.
Qed.
End Answers.

Lemma findReservation_elem s rid r : findReservation s rid = Some r -> r ∈ s_reservations s /\ rs_id r = rid.
Proof. intros [Hin Hid%Z.eqb_eq]%find_some. split; [by apply list_elem_of_In|done]. Qed.

Lemma findReservation_unique scale s rid r : wallet_inv scale s -> r ∈ s_reservations s -> rs_id r = rid ->
  findReservation s rid = Some r.
Proof.
  intros Hi Hr Hid. destruct (findReservation s rid) as [r'|] eqn:E.
  - destruct (findReservation_elem _ _ _ E) as [Hr' Hid']. f_equal.
    apply (NoDup_key_inj rs_id _ _ _ (inv_reservations _ _ Hi) Hr' Hr). congruence.
  - apply list_elem_of_In in Hr. pose proof (find_none _ _ E r Hr) as Hn. cbn in Hn. lia.
Qed.

Lemma confirmEvent_one rid usage row : usageOf rid usage = [row] -> mu_operation row = metered_confirm ->
  confirmEvent rid usage = Some row.
Proof.
  intros Hu Hop. unfold confirmEvent.
  assert (Hf : forall l acc, usageOf rid l = [] -> fold_left (fun latest row =>
    if bool_decide (mu_reservationId row = Some rid) && bool_decide (mu_operation row = metered_confirm) then
      match latest with None => Some row | Some l => if mu_recordedAt l <? mu_recordedAt row then Some row else latest end
    else latest) l acc = acc).
  { induction l as [|x l IH]; intros acc Hl; [done|]. cbn [usageOf List.filter] in Hl. cbn [fold_left].
    destruct (bool_decide _); [done|]. by apply IH. }
  induction usage as [|x usage IH]; [done|]. cbn [usageOf List.filter] in Hu. cbn [fold_left].
  destruct (bool_decide (mu_reservationId x = Some rid)) eqn:E; cbn [andb].
  - injection Hu as -> Hu. rewrite bool_decide_true by done. by apply Hf.
  - by apply IH.
Qed.

(** ** What the service promises *)

(** C2: However requests interleave, nothing is charged that is not recorded, and nothing is
    recorded that is not charged: what the wallet's allocations have consumed is the sum of
    the wallet quantities of the recorded usage events, every monthly rollup is the sum and
    the number of its events, and the entries recorded with the events add up to what the
    controls counted in each window since it opened; a lifetime window, which every write
    catches up with the usage recorded elsewhere, never counts less than its entries. *)
Theorem metering_adds_up {G} `{GateLaws G} wallet (m0 m : Metering G) :
  metering_start m0 -> rtc (metering_step wallet) m0 m ->
  totalConsumed (mt_wallet m) = sumZ (map mu_walletQuantity (mt_usage m)) /\
  (forall k, default noRollup (mt_rollups m !! k) = rollupOf (mt_usage m) k) /\
  (forall w, enteredIn w (mt_entries m) <= gate_counted (mt_gate m) w /\
     (gate_exact w = true -> gate_counted (mt_gate m) w = enteredIn w (mt_entries m))).
Proof.
  intros Hs Hrun. destruct (history_ok wallet m0 m Hs Hrun) as [_ _ _ _ _ Hc Hk He _ _ _]. split; [done|]. split; [done|].
  intros w. destruct (He w) as [H1 H2]. rewrite Z.add_0_r in *. auto.
Qed.

(** C3: A reservation is charged exactly once: a confirmed reservation has one usage event,
    of the quantity it was confirmed with and its entity, an open, released or expired one
    has none; and the controls hold for a reservation exactly while the wallet does. *)
Theorem reservation_charged_once {G} `{GateLaws G} wallet (m0 m : Metering G) r :
  metering_start m0 -> rtc (metering_step wallet) m0 m -> r ∈ s_reservations (mt_wallet m) ->
  charged_once (mt_usage m) r /\ NoDup (map mu_id (mt_usage m)) /\
  (rs_id r ∈ gate_open (mt_gate m) <-> rs_status r = st_active).
Proof.
  intros Hs Hrun Hr. destruct (history_ok wallet m0 m Hs Hrun) as [Hw _ Ho _ Hi _ _ _ _ Hon _]. rewrite Forall_forall in Hon.
  split; [by apply Hon|]. split; [done|]. rewrite Ho, isActive_iff. split; [|by exists r].
  intros (r' & Hr' & Hid & Ha). by rewrite (NoDup_key_inj rs_id _ r r' (inv_reservations _ _ Hw) Hr Hr' (eq_sym Hid)).
Qed.

(** C1: With the customer's controls in place, whatever requests and grants run in whatever
    order: no allocation is oversold and holds exactly what the open reservations hold of
    it; each control window holds what the open reservations hold in it, within the
    control's limit; a calendar window never counts and holds more than its limit, or than
    what it opened with when that was over it, nor does a lifetime window that counts
    more than what usage recorded elsewhere raised it to; and wallet and controls
    agree which reservations are open.  The controls share no window with one they
    replaced, and corrections are not among the requests. *)
Theorem metering_within_limits opening limitOf lifetimeOf wallet (m0 m : Metering ControlStore) :
  let _ := controls_laws opening limitOf lifetimeOf in
  metering_start m0 -> rtc (metering_step wallet) m0 m ->
  (forall a, a ∈ s_allocs (mt_wallet m) ->
     0 <= u_consumed (al_units a) /\ 0 <= u_held (al_units a) /\
     u_consumed (al_units a) + u_held (al_units a) <= u_quantity (al_units a) /\
     u_held (al_units a) = amountFor (openHolds (mt_wallet m)) (al_id a)) /\
  counts_right opening limitOf lifetimeOf (mt_gate m) /\
  (forall rid, rid ∈ ct_open (mt_gate m) <-> isActive (mt_wallet m) rid = true).
Proof.
  intros laws Hs Hrun. destruct (history_ok wallet m0 m Hs Hrun) as [Hw Hg Ho _ _ _ _ _ _ _ _]. split; [|split; [|exact Ho] ].
  - intros a Ha. pose proof (inv_allocs _ _ Hw) as Hall. rewrite Forall_forall in Hall. destruct (Hall a Ha) as [(_ & ? & ? & ?) _].
    split_and!; try done. by apply (inv_ledger _ _ Hw).
  - by apply store_counts.
Qed.

(** C9: A confirmation that is sent again is answered, not repeated: once a reservation is
    confirmed, at any later time a confirmation with the same quantity changes nothing and
    answers with the same event, instant and deductions, and one with another quantity is
    refused as a conflict. *)
Theorem confirmation_is_final {G} `{GateLaws G} wallet (m0 m m' : Metering G) rid r :
  metering_start m0 -> rtc (metering_step wallet) m0 m -> findReservation (mt_wallet m) rid = Some r ->
  rs_status r = st_confirmed -> rtc (metering_step wallet) m m' ->
  exists q row, rs_confirmed r = Some q /\ row ∈ mt_usage m /\ mu_reservationId row = Some rid /\
    forall v input occurredAt q',
      positiveDecimal input "quantity" (credit_scale (r_meter (rateFromReservation wallet rid m))) = Ok q' ->
      confirmWithinTransaction wallet v rid input occurredAt m' =
        if decide (q' = q) then
          Ok (m', {| fr_allowed := true; fr_reason := finalize_allowed; fr_reservationId := rid; fr_status := st_confirmed;
                     fr_usageEventId := Some (mu_id row); fr_recordedAt := Some (mu_recordedAt row);
                     fr_balance := rd_balance v (rs_entity r) (mt_wallet m'); fr_deductions := mu_deductions row; fr_control := None |})
        else Err (BillingErr "Reservation was confirmed with different usage facts" "RESERVATION_ALREADY_CONFIRMED" 409).
Proof.
  intros Hs Hrun Hr Hst Hrun'. pose proof (history_ok wallet m0 m Hs Hrun) as Hm.
  destruct (history_kept wallet m m' Hm Hrun') as [Hm' [K1 (l & K2) _ K4] ].
  destruct (findReservation_elem _ _ _ Hr) as [Hin Hid]. pose proof (K1 r Hin Hst) as Hin'.
  pose proof (findReservation_unique _ _ _ _ (mi_wallet _ _ Hm') Hin' Hid) as Hr'.
  pose proof (mi_once _ _ Hm) as Ho. rewrite Forall_forall in Ho. specialize (Ho r Hin). unfold charged_once in Ho. rewrite Hst in Ho.
  destruct Ho as (row & q & Hrow & Hop & _ & Hq & _). exists q, row. rewrite Hid in Hrow.
  assert (Hel : row ∈ usageOf rid (mt_usage m)) by (rewrite Hrow; by left).
  unfold usageOf in Hel. apply list_elem_of_In, filter_In in Hel as [Hel Hres%bool_decide_eq_true]. apply list_elem_of_In in Hel.
  split_and!; try done. intros v input oc q' Hq'.
  assert (Hone : usageOf rid (mt_usage m') = [row]).
  { pose proof (mi_once _ _ Hm') as Ho. rewrite Forall_forall in Ho. specialize (Ho r Hin'). unfold charged_once in Ho.
    rewrite Hst, Hid in Ho. destruct Ho as (row' & _ & Hrow' & _). revert Hrow'. rewrite K2, usageOf_app, Hrow.
    intros [= -> Hnil]. by rewrite Hnil. }
  unfold confirmWithinTransaction, lockReservation. rewrite Hr'. cbn [mbind result_bind].
  unfold rateFromReservation in *. rewrite K4 by (rewrite <- Hid; by apply list_elem_of_fmap_2). rewrite Hq'. cbn [mbind result_bind].
  rewrite Hst, Hq. destruct (decide (q' = q)) as [ ->|Hne]; [|rewrite bool_decide_false by congruence; done].
  rewrite bool_decide_true by done. unfold finalizedReservationResult. rewrite Hst, Hid, (confirmEvent_one _ _ row) by done.
  reflexivity.
Qed.

(** C10: A refusal records nothing: whether the balance, a control or the reservation's own
    state refused it, no usage event, control entry, rollup, alert or top-up changes, and a
    refused consumption or reservation leaves the wallet as it was. *)
Theorem refusal_records_nothing {G} `{ControlGate G} wallet q (m m' : Metering G) a :
  serve wallet q m = Ok (m', a) ->
  match a with
  | Metered r => d_allowed (ur_decision r) = false
  | Closed r => fr_allowed r = false
  | Done => False
  end ->
  mt_usage m' = mt_usage m /\ mt_entries m' = mt_entries m /\ mt_rollups m' = mt_rollups m /\
  mt_alertRows m' = mt_alertRows m /\ mt_topups m' = mt_topups m /\ mt_rates m' = mt_rates m /\
  (match a with Metered _ => mt_wallet m' = mt_wallet m | _ => True end).
Proof.
  intros Hs Ha. destruct q as [v rate en fs qt oc|v rate rid en fs qt lt|v rid qt oc|v rid|v|al]; cbn in Hs.
  - apply bind_Ok in Hs as ([m1 r] & Hs & E). injection E as <- <-.
    destruct (consume_cases _ _ _ _ _ _ _ _ _ _ Hs) as [[-> _]|[(q & g & d & _ & -> & _)|(q & w & g & es & s & ds & row & rows & _ & _ & _ & _ & _ & _ & E & _)] ];
      [done|done|congruence].
  - apply bind_Ok in Hs as ([m1 r] & Hs & E). injection E as <- <-.
    destruct (reserve_cases _ _ _ _ _ _ _ _ _ _ _ Hs) as [[-> _]|[(q & g & d & _ & -> & _)|(q & w & g & s & ds & ex & _ & _ & _ & _ & _ & _ & _ & _ & _ & _ & E & _)] ];
      [done|done|congruence].
  - apply bind_Ok in Hs as ([m1 r] & Hs & E). injection E as <- <-.
    destruct (confirm_cases _ _ _ _ _ _ _ _ Hs) as (r0 & q & _ & _ & [[-> _]|[(_ & Hrel & _)|[(_ & g & d & _ & -> & _)|
      (_ & w & g & es & plan & row & rows & _ & _ & _ & _ & E & _)] ] ]); [done| |done|congruence].
    by apply release_holds_cases in Hrel as (s & _ & ->).
  - apply bind_Ok in Hs as ([m1 r] & Hs & E). injection E as <- <-.
    destruct (release_cases _ _ _ _ _ _ Hs) as (r0 & _ & [[_ ->]|(_ & st & _ & _ & Hrel)]); [done|].
    by apply release_holds_cases in Hrel as (s & _ & ->).
  - apply bind_Ok in Hs as (m1 & Hs & E). by injection E as _ <-.
  - by injection Hs as _ <-.
Qed.

(** C11: The balance a write answers with is the balance after the write: the locked rows with
    the deductions applied, which the answer and the top-up thresholds use, are the rows the
    next request of the same entity reads, so its balance is the answered one. *)
Theorem answered_balance_is_current {G} `{GateLaws G} wallet (m0 m m' : Metering G) q r :
  metering_start m0 -> rtc (metering_step wallet) m0 m -> serve wallet q m = Ok (m', Metered r) -> d_allowed (ur_decision r) = true ->
  match q with
  | ReqConsume v _ entity _ _ _ | ReqReserve v _ _ entity _ _ _ =>
      balanceFromRows wallet (map (readRow (credit_scale wallet)) (lockAllocations (mt_wallet m') entity (ck_now (rd_clocks v))))
        = Ok (d_balance (ur_decision r))
  | _ => False
  end.
Proof.
  intros Hst Hrun Hs Ha. pose proof (mi_wallet _ _ (history_ok wallet m0 m Hst Hrun)) as Hi.
  destruct q as [v rate en fs qt oc|v rate rid en fs qt lt|v rid qt oc|v rid|v|al]; cbn in Hs; try (by apply bind_Ok in Hs as ([? ?] & _ & ?)).
  - apply bind_Ok in Hs as ([m1 r1] & Hs & E). injection E as -> ->.
    destruct (consume_cases _ _ _ _ _ _ _ _ _ _ Hs) as [[_ E]|[(q & g & d & _ & _ & E)|
      (q & w & g & es & s & ds & row & rows & _ & _ & _ & Hw & _ & Hrec & _ & _ & _ & Hrows & Hb)] ]; [congruence|congruence|].
    apply recordUsage_spec in Hrec as (R1 & _). cbn in R1. rewrite R1. by rewrite <- (consumed_reread wallet _ _ _ _ _ _ _ _ _ Hi Hw Hrows).
  - apply bind_Ok in Hs as ([m1 r1] & Hs & E). injection E as -> ->.
    destruct (reserve_cases _ _ _ _ _ _ _ _ _ _ _ Hs) as [[_ E]|[(q & g & d & _ & _ & E)|
      (q & w & g & s & ds & ex & _ & Hw & E1 & _ & _ & _ & _ & _ & _ & _ & _ & _ & _ & rows & Hrows & Hb)] ]; [congruence|congruence|].
    rewrite E1. by rewrite <- (held_reread wallet _ _ _ _ _ _ _ _ _ _ _ Hi Hw Hrows).
  - done.
Qed.

(** ** Top-ups see what is left *)

Definition inPool (a : Alloc) : bool := match al_entity a with None => true | Some _ => false end.

(** What the scope of a policy can still spend, of the rows a request of its scope reads. *)
Definition scopeRows (p : AutoTopupPolicyRow) (L : list Alloc) : list Alloc :=
  match Wallet.tp_entity_id p with Some _ => L | None => List.filter inPool L end.
Definition leftFor (p : AutoTopupPolicyRow) (L : list Alloc) : Z :=
  Z.max 0 (sumZ (map (fun a => u_free (al_units a)) (scopeRows p L))).

(** An entity's policy covers the entity's usage, the account's what was spent from the pool. *)
Definition concerns (entity : option Z) (L : list Alloc) (ds : list AllocationDeduction) (p : AutoTopupPolicyRow) : bool :=
  match Wallet.tp_entity_id p, entity with
  | Some _, _ => true
  | None, None => true
  | None, Some _ => existsb (fun d => existsb (fun a => al_id a =? de_allocationId d) (List.filter inPool L)) ds
  end.

Lemma pool_rows scale L :
  List.filter (fun row => match a_entity_external_id row with None => true | _ => false end) (map (readRow scale) L)
    = map (readRow scale) (List.filter inPool L).
Proof.
  induction L as [|a L IH]; [done|]. cbn [map List.filter]. unfold inPool at 1. cbn [readRow a_entity_external_id].
  destruct (al_entity a); cbn [option_map map]; by rewrite IH.
Qed.

Lemma rows_available wallet L : 0 <= credit_scale wallet -> Forall (fun a => nonneg_units (al_units a)) L ->
  exists b, balanceFromRows wallet (map (readRow (credit_scale wallet)) L) = Ok b /\
    b_available b = Some (unitsToDecimal (Z.max 0 (sumZ (map (fun a => u_free (al_units a)) L))) (credit_scale wallet)).
Proof.
  intros Hs HL. pose proof (readRow_represents _ _ Hs HL) as Hr. destruct (balanceFromRows_units wallet _ _ Hr) as (b & Hb & _ & _ & _ & _ & Hav & _).
  exists b. split; [done|]. rewrite Hav, (open_total _ _ _ Hr (readRow_open _ _)). by rewrite map_map.
Qed.

Lemma scheduled_each v key scale (trig : AutoTopupPolicyRow -> bool) (left : AutoTopupPolicyRow -> Z) f :
  0 <= scale <= 9 -> (forall p, 0 <= left p) ->
  (forall p, f p = Ok (if trig p then [(p, Some (unitsToDecimal (left p) scale))] else [])) ->
  forall policies topups ts topups', NoDup (map Wallet.tp_id policies) -> mapM f policies = Ok ts ->
  foldM (scheduleTrigger v key) (concat ts) topups = Ok topups' -> forall i,
  topups' !! i = match List.find (fun p => Wallet.tp_id p =? i) policies with
    | Some p => if trig p then
        scheduleAutoTopupIfNeeded (rd_clocks v) (rd_implements v) (rd_jobId v i) key (left p * 10 ^ (9 - scale)) <$> topups !! i
        else topups !! i
    | None => topups !! i end.
Proof.
  intros Hs Hleft Hf policies. induction policies as [|p policies IH]; intros topups ts topups' Hnd Hts Hfold i; cbn [mapM List.find] in *.
  { injection Hts as <-. by injection Hfold as <-. }
  apply NoDup_cons in Hnd as [Hp Hnd]. apply bind_Ok in Hts as (t & Ht & Hts). apply bind_Ok in Hts as (ts' & Hts' & Hts).
  injection Hts as <-. rewrite Hf in Ht. injection Ht as <-. cbn [concat] in Hfold.
  assert (Hnone : List.find (fun q => Wallet.tp_id q =? Wallet.tp_id p) policies = None).
  { destruct (List.find _ policies) as [q|] eqn:E; [|done]. apply find_some in E as [Hin Hq%Z.eqb_eq]. destruct Hp.
    rewrite <- Hq. apply list_elem_of_fmap_2. by apply list_elem_of_In. }
  destruct (trig p) eqn:Etrig; cbn [app foldM] in Hfold.
  - apply bind_Ok in Hfold as (topups1 & H1 & Hfold). unfold scheduleTrigger in H1. cbn [default from_option id] in H1.
    rewrite units_rescale in H1 by (done || apply Hleft). cbn [mbind result_bind] in H1. injection H1 as <-.
    rewrite (IH _ _ _ Hnd Hts' Hfold i). destruct (Z.eqb_spec (Wallet.tp_id p) i) as [Heq|Hne].
    + rewrite <- Heq, Hnone, Etrig. by rewrite lookup_alter_eq.
    + destruct (List.find _ policies); by rewrite lookup_alter_ne.
  - rewrite (IH _ _ _ Hnd Hts' Hfold i). destruct (Z.eqb_spec (Wallet.tp_id p) i) as [<-|Hne]; [by rewrite Hnone, Etrig|done].
Qed.

Lemma autoTopupTriggers_left wallet policies entity L ds : 0 <= credit_scale wallet -> Forall (fun a => nonneg_units (al_units a)) L ->
  autoTopupTriggers policies entity wallet (map (readRow (credit_scale wallet)) L) ds =
    (ts ← mapM (fun p => Ok (if concerns entity L ds p
       then [(p, Some (unitsToDecimal (leftFor p L) (credit_scale wallet)))] else [])) policies;
     Ok (concat ts)).
Proof.
  intros Hs HL. unfold autoTopupTriggers. rewrite pool_rows.
  assert (Hpool : Forall (fun a => nonneg_units (al_units a)) (List.filter inPool L)).
  { rewrite Forall_forall in HL. apply Forall_forall. intros a Ha. apply list_elem_of_In, filter_In in Ha as [Ha _].
    by apply HL, list_elem_of_In. }
  destruct (rows_available wallet L Hs HL) as (b & Hb & Hav). destruct (rows_available wallet _ Hs Hpool) as (b' & Hb' & Hav').
  assert (Hex : forall d, existsb (fun row => a_id row =? de_allocationId d) (map (readRow (credit_scale wallet)) (List.filter inPool L))
    = existsb (fun a => al_id a =? de_allocationId d) (List.filter inPool L)).
  { intros d. generalize (List.filter inPool L) as l. clear. induction l as [|a l IH]; [done|]. cbn [map existsb]. by rewrite IH. }
  match goal with |- (_ ← mapM ?f ?l; _) = (_ ← mapM ?g ?l; _) => enough (Hfg : forall p, f p = g p) end.
  { clear -Hfg. erewrite mapM_ext; [done|exact Hfg]. }
  assert (Hds : existsb (fun d => existsb (fun row => a_id row =? de_allocationId d) (map (readRow (credit_scale wallet)) (List.filter inPool L))) ds
    = existsb (fun d => existsb (fun a => al_id a =? de_allocationId d) (List.filter inPool L)) ds).
  { clear -Hex. induction ds as [|d ds IH]; [done|]. cbn [existsb]. by rewrite IH, Hex. }
  intros p. unfold concerns, leftFor, scopeRows. destruct (Wallet.tp_entity_id p).
  - rewrite Hb. cbn [mbind result_bind]. by rewrite Hav.
  - rewrite Hb'. cbn [mbind result_bind]. rewrite Hav'. destruct entity; [|done]. rewrite Hds. by case_match.
Qed.

(** C12: A write schedules top-ups by what it leaves: after a recorded consumption, each active
    policy it concerns (an entity's, or the account's when the pool was spent from) is
    scheduled exactly once, against the quantity its scope can still spend after the
    write and under the recorded event's key, and no other policy's rows change. *)
Theorem topups_see_what_is_left {G} `{GateLaws G} wallet (m0 m m' : Metering G) v rate entity filters quantity occurredAt r :
  metering_start m0 -> rtc (metering_step wallet) m0 m -> credit_scale wallet <= 9 -> NoDup (map Wallet.tp_id (rd_policies v)) ->
  consumeWithinTransaction wallet v rate entity filters quantity occurredAt m = Ok (m', r) -> d_allowed (ur_decision r) = true ->
  let L := lockAllocations (mt_wallet m') entity (ck_now (rd_clocks v)) in
  ur_usageEventId r = Some (rd_eventId v) /\
  forall i, mt_topups m' !! i = match List.find (fun p => Wallet.tp_id p =? i) (rd_policies v) with
    | Some p => if concerns entity L (ur_deductions r) p then
        scheduleAutoTopupIfNeeded (rd_clocks v) (rd_implements v) (rd_jobId v i) (usageTrigger (rd_eventId v))
          (leftFor p L * 10 ^ (9 - credit_scale wallet)) <$> mt_topups m !! i
        else mt_topups m !! i
    | None => mt_topups m !! i end.
Proof.
  intros Hst Hrun Hsc Hnd Hc Ha L. pose proof (mi_wallet _ _ (history_ok wallet m0 m Hst Hrun)) as Hi.
  destruct (consume_cases _ _ _ _ _ _ _ _ _ _ Hc) as [[_ E]|[(q & g & d & _ & _ & E)|
    (q & w & g & es & s & ds & row & rows & _ & _ & _ & Hw & Hrow & Hrec & _ & Hev & Hds & Hrows & _)] ]; [congruence|congruence|].
  pose proof (consumed_reread wallet _ _ _ _ _ _ _ _ _ Hi Hw Hrows) as ->.
  apply insertUsageEvent_spec in Hrow as (I1 & I2 & _ & _ & _ & I6 & I7 & _). rewrite Hev, I1, Hds. split; [done|].
  pose proof (decimalToUnits_scale _ _ _ I6) as Hs0.
  destruct (consume_preserves _ _ _ _ _ _ _ _ _ _ Hi Hw) as (Hi' & _ & _).
  unfold recordUsage in Hrec. apply bind_Ok in Hrec as (al & _ & Hrec). apply bind_Ok in Hrec as (ts & Hts & Hrec).
  apply bind_Ok in Hrec as (tu & Htu & Hrec). injection Hrec as <-. subst L. cbn [mt_wallet mt_topups with_wallet with_gate] in *.
  rewrite I2, I7, autoTopupTriggers_left in Hts by (done || by apply (locked_nonneg wallet)).
  apply bind_Ok in Hts as (tss & Htss & Hts). injection Hts as <-. rewrite I1 in Htu.
  eapply (scheduled_each v (usageTrigger (rd_eventId v)) (credit_scale wallet)); [done| | |exact Hnd|exact Htss|exact Htu];
    [|intros p; reflexivity]. intros p. unfold leftFor. lia.
Qed.

(** ** Alerts follow the recorded usage *)

Lemma evaluateAlerts_delta v entity delta n s s' : signedDecimalToUnits delta 9 = Ok n -> evaluateAlerts v entity delta s = Ok s' ->
  recordUsageAlertDelta (rd_alertControls v) entity delta (ck_app (rd_clocks v)) None s = Ok s'.
Proof.
  intros Hn. unfold evaluateAlerts. destruct (queryUsageAlerts entity s) eqn:E; [|done]. intros [= <-].
  unfold recordUsageAlertDelta. rewrite Hn. cbn [mbind result_bind]. destruct (n =? 0); [done|]. by rewrite E.
Qed.

Lemma alerts_only_rows controlsOf entity delta now corrects s s' :
  recordUsageAlertDelta controlsOf entity delta now corrects s = Ok s' -> al_log s' = al_log s /\ al_alerts s' = al_alerts s.
Proof.
  unfold recordUsageAlertDelta. intros Hd. apply bind_Ok in Hd as (n & _ & Hd). destruct (n =? 0); [by injection Hd as <-|].
  revert Hd. generalize (queryUsageAlerts entity s) as l. intros l. revert s.
  induction l as [|a l IH]; intros s Hd; cbn [foldM] in Hd; [by injection Hd as <-|].
  apply bind_Ok in Hd as (s1 & H1 & Hd). destruct (IH _ Hd) as [-> ->]. unfold evaluateStep in H1.
  apply bind_Ok in H1 as (rows & _ & H1). by injection H1 as <-.
Qed.

Lemma expire_alerts {G} `{ControlGate G} wallet v (m m' : Metering G) : expireSubjectReservations wallet v m = Ok m' ->
  alertStoreOf m' = alertStoreOf m.
Proof.
  unfold expireSubjectReservations. generalize (expiredSubjectReservations (ck_clock (rd_clocks v)) (mt_wallet m)) as l.
  intros l. revert m. induction l as [|rid l IH]; intros m He; cbn [foldM] in He; [by injection He as <-|].
  apply bind_Ok in He as (m1 & H1 & He). rewrite (IH _ He). apply bind_Ok in H1 as (r & _ & H1).
  case_decide; [|by injection H1 as <-]. by apply release_holds_cases in H1 as (s & _ & ->).
Qed.

(** The alerts of a customer are only evaluated forward, and a write's clocks read the same
    window of each alert. *)
Definition timely {G} (m : Metering G) (t : Z) (v : Reads) : Prop :=
  t <= ck_clock (rd_clocks v) /\ t <= ck_app (rd_clocks v) /\ modern (ck_clock (rd_clocks v)) /\ modern (ck_app (rd_clocks v)) /\
  forall a, a ∈ mt_alerts m -> inWindow (ua_interval a) (ck_app (rd_clocks v)) (ck_clock (rd_clocks v)) = true.

Definition readsOf (q : Request) : option Reads :=
  match q with
  | ReqConsume v _ _ _ _ _ | ReqReserve v _ _ _ _ _ _ | ReqConfirm v _ _ _ | ReqRelease v _ | ReqExpire v => Some v
  | ReqGrant _ => None
  end.

(** The requests that record usage: an allowed consumption, and the confirmation that
    closes an open reservation. *)
Definition recordsUsage {G} (m : Metering G) (q : Request) (a : Answer) : bool :=
  match q, a with
  | ReqConsume _ _ _ _ _ _, Metered r => d_allowed (ur_decision r)
  | ReqConfirm _ rid _ _, Closed r => isActive (mt_wallet m) rid && fr_allowed r
  | _, _ => false
  end.

(** The quantity and the entity of the usage a request asks to record. *)
Definition usageAsked {G} (wallet : FeatureRow) (m : Metering G) (q : Request) : option (text * option Z) :=
  match q with
  | ReqConsume _ rate entity _ quantity _ =>
      match positiveDecimal quantity "quantity" (credit_scale (r_meter rate)) with Ok n => Some (n, entity) | Err _ => None end
  | ReqConfirm _ rid input _ =>
      match positiveDecimal input "quantity" (credit_scale (r_meter (rateFromReservation wallet rid m))),
            findReservation (mt_wallet m) rid with
      | Ok n, Some r => Some (n, rs_entity r)
      | _, _ => None
      end
  | _ => None
  end.

(** An event of [quantity] is appended to the log and the alerts are evaluated with it once. *)
Definition alertedBy {G} (v : Reads) (quantity : text) (entity : option Z) (m m' : Metering G) : Prop :=
  exists row, mt_usage m' = mt_usage m ++ [row] /\ mu_id row = rd_eventId v /\ mu_entityId row = entity /\
    decimalToUnits quantity 9 = Ok (mu_quantity row) /\ mu_recordedAt row = ck_clock (rd_clocks v) /\
    recordUsageAlertDelta (rd_alertControls v) entity quantity (ck_app (rd_clocks v)) None
      {| al_log := al_log (alertStoreOf m) ++ [alertEventOf row]; al_alerts := mt_alerts m; al_rows := mt_alertRows m |}
      = Ok (alertStoreOf m').

Lemma recorded_alerts {G} `{ControlGate G} wallet v row input field ms q entries rows (m m1 m' : Metering G) :
  positiveDecimal input field ms = Ok q -> decimalToUnits q 9 = Ok (mu_quantity row) ->
  mt_usage m1 = mt_usage m -> mt_alerts m1 = mt_alerts m -> mt_alertRows m1 = mt_alertRows m ->
  mu_recordedAt row = ck_clock (rd_clocks v) -> mu_id row = rd_eventId v ->
  recordUsage v wallet row q entries rows m1 = Ok m' ->
  alertedBy v q (mu_entityId row) m m'.
Proof.
  intros Hq Hu E1 E2 E3 Hat Hid Hrec. unfold recordUsage in Hrec. rewrite E1, E2, E3 in Hrec.
  apply bind_Ok in Hrec as (al & Hal & Hrec). apply bind_Ok in Hrec as (ts & _ & Hrec). apply bind_Ok in Hrec as (tu & _ & Hrec).
  injection Hrec as <-. pose proof (positive_unsigned _ _ _ _ 9 Hq) as Hs. rewrite Hu in Hs.
  pose proof (evaluateAlerts_delta _ _ _ _ _ _ Hs Hal) as Hd.
  assert (Hstore : al = {| al_log := map alertEventOf (mt_usage m ++ [row]); al_alerts := mt_alerts m; al_rows := al_rows al |}).
  { apply alerts_only_rows in Hd as [E4 E5]. cbn [al_log al_alerts] in E4, E5. destruct al. cbn in *. by subst. }
  exists row. split; [done|]. split; [done|]. split; [done|]. split; [done|]. split; [done|].
  unfold alertStoreOf at 2. cbn [mt_usage mt_alerts mt_alertRows]. rewrite <- Hstore.
  rewrite map_app in Hd. exact Hd.
Qed.

(** Such an evaluation is one step of the alert monitor. *)
Lemma alertedBy_step {G} v input field ms q entity (m m' : Metering G) t : positiveDecimal input field ms = Ok q ->
  rd_eventId v ∉ map mu_id (mt_usage m) -> timely m t v -> alertedBy v q entity m m' ->
  exists t', t <= t' /\ UsageAlerts.step {| mo_store := alertStoreOf m; mo_time := t |} {| mo_store := alertStoreOf m'; mo_time := t' |}.
Proof.
  intros Hq Hid (T1 & T2 & T3 & T4 & T5) (row & _ & Hrow & <- & Hu & Hat & Hd).
  pose proof (positive_unsigned _ _ _ _ 9 Hq) as Hs. rewrite Hu in Hs. rewrite <- Hrow in Hid.
  exists (Z.max (ck_app (rd_clocks v)) (mu_recordedAt row)). split; [lia|].
  apply (step_use {| mo_store := alertStoreOf m; mo_time := t |} (rd_alertControls v) (alertEventOf row) q);
    cbn [alertEventOf ev_original ev_quantity ev_id ev_recordedAt ev_entityId mo_store mo_time]; rewrite ?Hat; try done.
  - by eapply decimalToUnits_nonneg; [|exact Hu].
  - cbn [alertStoreOf al_log]. rewrite map_map. done.
Qed.

Lemma findReservation_status scale s rid r : wallet_inv scale s -> findReservation s rid = Some r ->
  isActive s rid = bool_decide (rs_status r = st_active).
Proof.
  intros Hi Hr. apply eq_true_iff_eq. rewrite isActive_iff, bool_decide_eq_true. destruct (findReservation_elem _ _ _ Hr) as [Hin Hid].
  split; [|by exists r]. intros (r' & Hin' & Hid' & Hst).
  by rewrite <- (NoDup_key_inj rs_id _ r' r (inv_reservations _ _ Hi) Hin' Hin ltac:(congruence)).
Qed.

Lemma expired_status {G} `{GateLaws G} wallet (m m' : Metering G) rid r r' : metering_ok wallet m ->
  findReservation (mt_wallet m) rid = Some r -> rs_status r = st_active ->
  releaseReservationHolds wallet rid st_expired m = Ok m' -> findReservation (mt_wallet m') rid = Some r' ->
  negb (bool_decide (rs_status r' = st_expired)) = false.
Proof.
  intros Hm Hr Hst Hrel Hr'. destruct (findReservation_active _ _ _ Hr Hst) as (Hin & Hid & Hact). pose proof (mi_wallet _ _ Hm) as Hi.
  apply release_holds_cases in Hrel as (s & Hrel & ->). cbn in Hr'.
  rewrite releaseHolds_settles in Hrel by (done || by eapply findReservation_unspent_scale). injection Hrel as <-.
  destruct (release_allocs wallet _ rid Hi) as (_ & Hres & _). destruct (findReservation_elem _ _ _ Hr') as [Hin' Hid'].
  apply (finalize_elem _ _ _ _ _ _ Hres) in Hin' as [(r0 & _ & _ & _ & ->)|[Hin' Hne] ]; [cbn; by rewrite bool_decide_true|].
  destruct Hne. split; [done|]. by rewrite (NoDup_key_inj rs_id _ r' r (inv_reservations _ _ Hi) Hin' Hin ltac:(congruence)).
Qed.

Lemma expire_usage {G} `{ControlGate G} wallet v (m m' : Metering G) : expireSubjectReservations wallet v m = Ok m' ->
  mt_usage m' = mt_usage m.
Proof.
  unfold expireSubjectReservations. generalize (expiredSubjectReservations (ck_clock (rd_clocks v)) (mt_wallet m)) as l.
  intros l. revert m. induction l as [|rid l IH]; intros m He; cbn [foldM] in He; [by injection He as <-|].
  apply bind_Ok in He as (m1 & H1 & He). rewrite (IH _ He). apply bind_Ok in H1 as (r & _ & H1).
  case_decide; [|by injection H1 as <-]. by apply release_holds_cases in H1 as (s & _ & ->).
Qed.

(** The alerts are kept by the requests that record usage and by no other. *)
Lemma served_alerts {G} `{GateLaws G} wallet q (m m' : Metering G) a : metering_ok wallet m -> serve wallet q m = Ok (m', a) ->
  if recordsUsage m q a then
    exists v n entity, readsOf q = Some v /\ usageAsked wallet m q = Some (n, entity) /\ alertedBy v n entity m m'
  else mt_usage m' = mt_usage m /\ alertStoreOf m' = alertStoreOf m.
Proof.
  intros Hm Hs. destruct q as [v rate en fs qt oc|v rate rid en fs qt lt|v rid qt oc|v rid|v|al]; cbn in Hs.
  - apply bind_Ok in Hs as ([m1 r] & Hs & E). injection E as -> <-. cbn [recordsUsage readsOf usageAsked].
    destruct (consume_cases _ _ _ _ _ _ _ _ _ _ Hs) as [[-> ->]|[(q & g & d & _ & -> & ->)|
      (q & w & g & es & s & ds & row & rows & Hq & _ & _ & _ & Hrow & Hrec & -> & _)] ]; [done|done|].
    apply insertUsageEvent_spec in Hrow as (I1 & I2 & _ & _ & I5 & _ & _ & I8). exists v, q, en. rewrite Hq. split; [done|]. split; [done|].
    rewrite <- I2. by eapply recorded_alerts; [exact Hq|exact I5|..|exact Hrec].
  - apply bind_Ok in Hs as ([m1 r] & Hs & E). injection E as -> <-. cbn [recordsUsage].
    destruct (reserve_cases _ _ _ _ _ _ _ _ _ _ _ Hs) as [[-> _]|[(q & g & d & _ & -> & _)|
      (q & w & g & s & ds & ex & _ & _ & _ & _ & E3 & _ & _ & E6 & E7 & _)] ]; [done|done|].
    unfold alertStoreOf. by rewrite E3, E6, E7.
  - apply bind_Ok in Hs as ([m1 r] & Hs & E). injection E as -> <-. cbn [recordsUsage readsOf usageAsked].
    destruct (confirm_cases _ _ _ _ _ _ _ _ Hs) as (r0 & q & Hr & Hq & Hcases).
    rewrite (findReservation_status _ _ _ _ (mi_wallet _ _ Hm) Hr), Hr, Hq.
    destruct Hcases as [(-> & E)|[(Hst & Hrel & r' & Hr' & E)|[(_ & g & d & _ & -> & E)|(Hst & w & g & es & plan & row & rows & _ & _ & Hrow & Hrec & E & _)] ] ].
    + by destruct E as [E|E]; [rewrite bool_decide_false|rewrite E, andb_false_r].
    + rewrite E, (expired_status wallet m m' rid r0 r' Hm Hr Hst Hrel Hr'), andb_false_r.
      by apply release_holds_cases in Hrel as (s & _ & ->).
    + by rewrite E, andb_false_r.
    + rewrite E, bool_decide_true by done. cbn [andb]. exists v, q, (rs_entity r0). split; [done|]. split; [done|].
      apply insertUsageEvent_spec in Hrow as (I1 & I2 & _ & _ & I5 & _ & _ & I8).
      rewrite <- I2. by eapply recorded_alerts; [exact Hq|exact I5|..|exact Hrec].
  - apply bind_Ok in Hs as ([m1 r] & Hs & E). injection E as -> <-.
    destruct (release_cases _ _ _ _ _ _ Hs) as (r0 & _ & [[_ ->]|(_ & st & _ & _ & Hrel)]); [done|].
    by apply release_holds_cases in Hrel as (s & _ & ->).
  - apply bind_Ok in Hs as (m1 & Hs & E). injection E as -> <-. cbn [recordsUsage].
    split; [by eapply expire_usage|by eapply expire_alerts].
  - by injection Hs as <- <-.
Qed.

(** C13: The alerts are kept by the requests that record usage and by no other.  An allowed
    consumption, and a confirmation that closes an open reservation, append one event, of
    the quantity asked for and its entity, and evaluate the alerts once, with that quantity
    over the log that holds the event; every other request, whether granted, refused,
    denied or answered again, leaves events, log and alerts as they are.  Where the
    application's and the database's clocks are not behind the last write's and read the
    same window of each alert, the evaluation is a step of the alert monitor. *)
Theorem metering_refines_alerts {G} `{GateLaws G} wallet (m0 m m' : Metering G) q a t :
  metering_start m0 -> rtc (metering_step wallet) m0 m -> request_fits wallet m q -> serve wallet q m = Ok (m', a) ->
  if recordsUsage m q a then
    exists v n entity, readsOf q = Some v /\ usageAsked wallet m q = Some (n, entity) /\ alertedBy v n entity m m' /\
      (timely m t v -> exists t', t <= t' /\
         UsageAlerts.step {| mo_store := alertStoreOf m; mo_time := t |} {| mo_store := alertStoreOf m'; mo_time := t' |})
  else mt_usage m' = mt_usage m /\ alertStoreOf m' = alertStoreOf m.
Proof.
  intros Hst Hrun Hfit Hs. pose proof (served_alerts wallet q m m' a (history_ok wallet m0 m Hst Hrun) Hs) as Hal.
  destruct (recordsUsage m q a); [|exact Hal]. destruct Hal as (v & n & entity & Hv & Hasked & Hby).
  exists v, n, entity. split; [done|]. split; [done|]. split; [done|]. intros Ht.
  destruct q; cbn [readsOf usageAsked request_fits] in *; try done; injection Hv as ->.
  - destruct (positiveDecimal quantity _ _) as [n'|] eqn:Hq; [|done]. injection Hasked as -> ->.
    destruct Hfit as (_ & _ & Hid). exact (alertedBy_step v _ _ _ n entity m m' t Hq Hid Ht Hby).
  - destruct (positiveDecimal quantity _ _) as [n'|] eqn:Hq; [|done]. destruct (findReservation _ _); [|done].
    injection Hasked as -> <-. destruct Hfit as (_ & Hid). exact (alertedBy_step v _ _ _ n _ m m' t Hq Hid Ht Hby).
Qed.

(** ** A run: five reserved, four of them confirmed, two consumed, and five denied *)

Definition exampleLaws : GateLaws ControlStore := controls_laws (fun _ => 0) (fun _ => 10 * 10 ^ 9) (fun _ => false).
#[local] Existing Instance exampleLaws.

Definition noon : Z := 1741608000000. (* 2025-03-10T12:00Z *)

Definition meteringControl : ControlLimit :=
  {| k_policyId := 4; k_kind := usage_limit; k_feature := Some (f_key exampleWallet); k_currency := None; k_limitValue := js "10";
     k_interval := Some {| c_unit := month; c_count := 1 |}; k_source := source_account; k_revision := 1 |}.

Definition meteringAlert : UsageAlertRow :=
  {| ua_id := 1; ua_entityId := None; ua_interval := Some {| c_unit := month; c_count := 1 |}; ua_thresholdType := absolute;
     ua_thresholdValue := js "6"; ua_featureKey := f_key exampleWallet |}.

Definition meteringTopup : Topup :=
  newTopup noon {| tp_provider := stripe; tp_providerAccountId := None; tp_active := true; tp_thresholdQuantity := 9 * 10 ^ 9;
     tp_cooldownSeconds := 60; tp_limitIntervalSeconds := 3600; tp_maxPurchasesPerInterval := 3; tp_maxSpendMinor := None;
     tp_maxConsecutiveFailures := 3; tp_amountMinor := Some 500; tp_currency := Some (js "usd"); tp_storeProductId := 1 |}.

Definition readsAt (event : Z) : Reads :=
  {| rd_clocks := {| ck_app := noon; ck_now := noon; ck_clock := noon |}; rd_controls := [meteringControl];
     rd_recorded := fun _ => 0;
     rd_alertControls := fun _ => [meteringControl]; rd_policies := [{| Wallet.tp_id := 1; Wallet.tp_entity_id := None |}];
     rd_implements := fun _ => true; rd_actions := []; rd_eventId := event; rd_jobId := fun _ => event;
     rd_balance := fun _ _ => emptyBalance exampleWallet |}.

Definition exampleFunded : Store :=
  {| s_allocs := [exampleAlloc 1 5 None; exampleAlloc 2 10 (Some (noon + 1))]; s_reservations := []; s_holds := []; s_grants := [] |}.

Definition meteringEmpty : Metering ControlStore :=
  {| mt_wallet := exampleFunded; mt_gate := emptyStore; mt_usage := []; mt_entries := []; mt_rollups := ∅;
     mt_alerts := [meteringAlert]; mt_alertRows := ∅; mt_topups := {[ 1 := meteringTopup ]}; mt_rates := ∅ |}.

Definition request1 : Request := ReqReserve (readsAt 1) (directRate exampleWallet) 7 None None (js "5") 60.
Definition request2 : Request := ReqConfirm (readsAt 2) 7 (js "4") None.
Definition request3 : Request := ReqConsume (readsAt 3) (directRate exampleWallet) None None (js "2") None.
Definition request4 : Request := ReqConsume (readsAt 4) (directRate exampleWallet) None None (js "5") None.

Definition served (m : Metering ControlStore) (q : Request) : Metering ControlStore :=
  match serve exampleWallet q m with Ok (m', _) => m' | Err _ => m end.

Definition metering1 : Metering ControlStore := served meteringEmpty request1.
Definition metering2 : Metering ControlStore := served metering1 request2.
Definition metering3 : Metering ControlStore := served metering2 request3.
Definition metering4 : Metering ControlStore := served metering3 request4.

Lemma served_step m q : request_fits exampleWallet m q -> is_ok (serve exampleWallet q m) = true ->
  metering_step exampleWallet m (served m q).
Proof.
  intros Hfit Hok. unfold served. destruct (serve exampleWallet q m) as [ [m' a]|e] eqn:E; [|done].
  by apply (metering_served _ _ q m' a).
Qed.

Lemma example_reads g event : gate_reads g (rd_recorded (readsAt event)) (rd_controls (readsAt event)).
Proof.
  split; [intros w; cbn; split; [lia|]; split; [by left|done]|]. split; [|apply NoDup_singleton]. apply Forall_singleton. split; vm_compute; reflexivity.
Qed.

Lemma meteringEmpty_start : metering_start meteringEmpty.
Proof.
  constructor.
  - split; [done|]. split; [done|]. split; [apply (bool_decide_unpack _); vm_compute; exact I|]. repeat constructor; cbn; lia.
  - split; [constructor; cbn; by constructor|]. done.
  - done.
Qed.

Ltac not_in := apply (bool_decide_unpack _); vm_compute; exact I.

Lemma example_steps : rtc (metering_step exampleWallet) meteringEmpty metering2 /\
  rtc (metering_step exampleWallet) metering2 metering4.
Proof.
  assert (H0 : metering_step exampleWallet meteringEmpty metering1).
  { apply served_step; [|vm_compute; reflexivity]. split; [done|]. split; [exact (example_reads _ _)|not_in]. }
  assert (H1 : metering_step exampleWallet metering1 metering2).
  { apply served_step; [|vm_compute; reflexivity]. split; [exact (example_reads _ _)|not_in]. }
  assert (H2 : metering_step exampleWallet metering2 metering3).
  { apply served_step; [|vm_compute; reflexivity]. split; [done|]. split; [exact (example_reads _ _)|not_in]. }
  assert (H3 : metering_step exampleWallet metering3 metering4).
  { apply served_step; [|vm_compute; reflexivity]. split; [done|]. split; [exact (example_reads _ _)|not_in]. }
  split; (eapply rtc_l; [eassumption|]; eapply rtc_l; [eassumption|apply rtc_refl]).
Qed.

Lemma example_history : rtc (metering_step exampleWallet) meteringEmpty metering4.
Proof. destruct example_steps. by etransitivity. Qed.

Lemma metering_adds_up_witness :
  totalConsumed (mt_wallet metering4) = 6 /\ map mu_walletQuantity (mt_usage metering4) = [4; 2] /\
  totalConsumed (mt_wallet metering4) = sumZ (map mu_walletQuantity (mt_usage metering4)).
Proof.
  split; [vm_compute; reflexivity|]. split; [vm_compute; reflexivity|].
  exact (proj1 (metering_adds_up exampleWallet meteringEmpty metering4 meteringEmpty_start example_history)).
Defined.

Lemma reservation_charged_once_witness : exists r, findReservation (mt_wallet metering4) 7 = Some r /\
  rs_status r = st_confirmed /\ charged_once (mt_usage metering4) r.
Proof.
  destruct (findReservation (mt_wallet metering4) 7) as [r|] eqn:E; [|vm_compute in E; discriminate].
  exists r. split; [done|]. split; [vm_compute in E; injection E as <-; reflexivity|].
  exact (proj1 (reservation_charged_once exampleWallet meteringEmpty metering4 r meteringEmpty_start example_history
    (proj1 (findReservation_elem _ _ _ E)))).
Defined.

Lemma metering_within_limits_witness :
  map (fun p => (consumed_value (snd p), held_value (snd p))) (map_to_list (ct_windows (mt_gate metering4))) = [(6 * 10 ^ 9, 0)] /\
  counts_right (fun _ => 0) (fun _ => 10 * 10 ^ 9) (fun _ => false) (mt_gate metering4).
Proof.
  split; [vm_compute; reflexivity|].
  exact (proj1 (proj2 (metering_within_limits (fun _ => 0) (fun _ => 10 * 10 ^ 9) (fun _ => false) exampleWallet meteringEmpty metering4
    meteringEmpty_start example_history))).
Defined.

Lemma confirmation_is_final_witness : exists r, findReservation (mt_wallet metering2) 7 = Some r /\
  exists q row, rs_confirmed r = Some q /\ row ∈ mt_usage metering2 /\ q = js "4" /\ mu_id row = 2.
Proof.
  destruct (findReservation (mt_wallet metering2) 7) as [r|] eqn:E; [|vm_compute in E; discriminate].
  exists r. split; [done|]. assert (Hst : rs_status r = st_confirmed) by (vm_compute in E; injection E as <-; reflexivity).
  destruct (confirmation_is_final exampleWallet meteringEmpty metering2 metering4 7 r meteringEmpty_start (proj1 example_steps) E Hst (proj2 example_steps))
    as (q & row & Hq & Hrow & _ & _).
  exists q, row. split; [done|]. split; [done|]. split; [vm_compute in E; injection E as <-; by injection Hq as <-|].
  vm_compute in Hrow. apply list_elem_of_singleton in Hrow. by subst row.
Defined.

Definition deniedAnswer : option UsageResult :=
  match serve exampleWallet request4 metering3 with
  | Ok (_, Metered r) => Some r
  | _ => None
  end.

Lemma refusal_records_nothing_witness : exists r, deniedAnswer = Some r /\
  d_reason (ur_decision r) = reason_control_limit_exceeded /\ mt_usage metering4 = mt_usage metering3.
Proof.
  destruct deniedAnswer as [r|] eqn:E; [|vm_compute in E; discriminate]. exists r. split; [done|].
  split; [vm_compute in E; injection E as <-; reflexivity|].
  apply (refusal_records_nothing exampleWallet request4 metering3 metering4 (Metered r)); vm_compute in E; injection E as <-;
    vm_compute; reflexivity.
Defined.

Definition consumedAnswer : Metering ControlStore * UsageResult :=
  match serve exampleWallet request3 metering2 with
  | Ok (m, Metered r) => (m, r)
  | _ => (meteringEmpty, undone exampleDecision)
  end.

Lemma consumedAnswer_ok :
  consumeWithinTransaction exampleWallet (readsAt 3) (directRate exampleWallet) None None (js "2") None metering2
    = Ok (metering3, snd consumedAnswer).
Proof. vm_compute. reflexivity. Qed.

Lemma consumedAnswer_served : serve exampleWallet request3 metering2 = Ok (metering3, Metered (snd consumedAnswer)).
Proof. unfold request3. cbn [serve]. by rewrite consumedAnswer_ok. Qed.

Lemma answered_balance_is_current_witness :
  b_available (d_balance (ur_decision (snd consumedAnswer))) = Some (js "9") /\
  balanceFromRows exampleWallet (map (readRow 0) (lockAllocations (mt_wallet metering3) None noon))
    = Ok (d_balance (ur_decision (snd consumedAnswer))).
Proof.
  split; [vm_compute; reflexivity|].
  assert (Ha : d_allowed (ur_decision (snd consumedAnswer)) = true) by (vm_compute; reflexivity).
  exact (answered_balance_is_current exampleWallet meteringEmpty metering2 metering3 request3 (snd consumedAnswer) meteringEmpty_start
    (proj1 example_steps) consumedAnswer_served Ha).
Defined.

Lemma topups_see_what_is_left_witness :
  map (fun t => length (map_to_list (tu_jobs (snd t)))) (map_to_list (mt_topups metering3)) = [1%nat] /\
  mt_topups metering3 !! 1 = scheduleAutoTopupIfNeeded (rd_clocks (readsAt 3)) (fun _ => true) 3 (usageTrigger 3) (9 * 10 ^ 9)
    <$> mt_topups metering2 !! 1.
Proof.
  split; [vm_compute; reflexivity|].
  assert (Ha : d_allowed (ur_decision (snd consumedAnswer)) = true) by (vm_compute; reflexivity).
  destruct (topups_see_what_is_left exampleWallet meteringEmpty metering2 metering3 (readsAt 3) (directRate exampleWallet)
    None None (js "2") None (snd consumedAnswer) meteringEmpty_start (proj1 example_steps) ltac:(cbn; lia) (NoDup_singleton _) consumedAnswer_ok Ha)
    as [_ Hall].
  rewrite (Hall 1). vm_compute. reflexivity.
Defined.

Lemma metering_refines_alerts_witness :
  recordsUsage metering2 request3 (Metered (snd consumedAnswer)) = true /\
  usageAsked exampleWallet metering2 request3 = Some (js "2", None) /\ alertedBy (readsAt 3) (js "2") None metering2 metering3 /\
  exists t', UsageAlerts.step {| mo_store := alertStoreOf metering2; mo_time := noon |}
    {| mo_store := alertStoreOf metering3; mo_time := t' |}.
Proof.
  assert (Hr : recordsUsage metering2 request3 (Metered (snd consumedAnswer)) = true) by (vm_compute; reflexivity).
  assert (Ha : usageAsked exampleWallet metering2 request3 = Some (js "2", None)) by (vm_compute; reflexivity).
  assert (Hf : request_fits exampleWallet metering2 request3) by (split; [done|]; split; [exact (example_reads _ _)|not_in]).
  pose proof (metering_refines_alerts exampleWallet meteringEmpty metering2 metering3 request3 (Metered (snd consumedAnswer)) noon
    meteringEmpty_start (proj1 example_steps) Hf consumedAnswer_served) as H.
  rewrite Hr, Ha in H. destruct H as (v & n & entity & Hv & Hn & Hby & Hstep).
  cbn in Hv. injection Hv as <-. injection Hn as <- <-. split; [exact Hr|]. split; [exact Ha|]. split; [exact Hby|].
  destruct Hstep as (t' & _ & Hstep); [|by exists t']. unfold timely. cbn. split; [lia|]. split; [lia|].
  split; [unfold modern, noon; lia|]. split; [unfold modern, noon; lia|].
  intros b Hb. vm_compute in Hb. apply list_elem_of_singleton in Hb as ->. vm_compute. reflexivity.
Defined.
