(* ===== verification/PlanGrants.v ===== *)
(** * Plan grants and their allowances ([src/db/repository/plan-grant-windows.ts],
    [default-plan-grants.ts], [default-plan-sql.ts], [plan-grants.ts])

    A plan grant gives an account a plan's version without a provider: a trial, a promotion
    or the catalog's default plan.  An allocation item of its version is an allowance in each
    reset window, created by the account's first write in the window; a read counts it before
    that.  The file models the windows a read finds, the writes that open and reopen
    allowances, and the changes of a grant: start, move to another version, end, superseding,
    and the fall back to the default plan.  The state is one account's grants and the
    allocations that belong to grants; the catalog's items, the published default plan and
    whether a subscription funds a base plan are arguments. *)
From S2P Require Import Prelude Text Decimal JsDate Cadence Windows.

(** ** Tables *)

Inductive PlanGrantOrigin := origin_trial | origin_default | origin_promotion.
Inductive PlanGrantStatus := grant_active | grant_expired | grant_ended | grant_superseded.
#[export] Instance PlanGrantOrigin_eq_dec : EqDecision PlanGrantOrigin. Proof. solve_decision. Defined.
#[export] Instance PlanGrantStatus_eq_dec : EqDecision PlanGrantStatus. Proof. solve_decision. Defined.

Record PlanGrant := {
  pg_id : Z; pg_plan : Z; pg_version : Z; pg_base : bool (* [plan_kind = 'base'] *);
  pg_origin : PlanGrantOrigin; pg_status : PlanGrantStatus;
  pg_starts_at : Z; pg_ends_at : option Z; pg_ended_at : option Z;
  pg_keys : list string; pg_created_at : Z }.

(** A row of [plan_items]; [it_account]: it is an allocation in the account's scope. *)
Record PlanItem := {
  it_id : Z; it_version : Z; it_feature : Z; it_account : bool; it_quantity : Z;
  it_reset : option CadenceUnit; it_reset_count : Z;
  it_expires_after : option Z; it_expiry : option CadenceUnit; it_expiry_count : option Z }.

(** [once], or the window's start. *)
Inductive WindowKey := key_once | key_start (t : Z).
#[export] Instance WindowKey_eq_dec : EqDecision WindowKey. Proof. solve_decision. Defined.

(** The parts of a source key [plan_grant:<grant>:<item>:<window>]; ids hold no colon. *)
Definition SourceKey : Type := (Z * Z * WindowKey)%type.

(** What an allowance gave and how much of it is used, in units of the feature's scale. *)
Record WindowAllocation := { wa_quantity : Z; wa_reversed : Z; wa_consumed : Z; wa_held : Z }.

(** A row of [balance_allocations] that belongs to a plan grant. *)
Record Allowance := {
  aw_id : Z; aw_feature : Z; aw_item : Z; aw_grant : Z; aw_key : SourceKey;
  aw_use : WindowAllocation;
  aw_start : Z; aw_end : option Z; aw_expires : option Z; aw_reversed_at : option Z }.

#[export] Instance WindowAllocation_eq_dec : EqDecision WindowAllocation. Proof. solve_decision. Defined.
#[export] Instance Allowance_eq_dec : EqDecision Allowance. Proof. solve_decision. Defined.

(** [ac_nextId]: the identity column's next value. *)
Record Account := { ac_grants : list PlanGrant; ac_allowances : list Allowance; ac_nextId : Z }.

(** The catalog's published default plan. *)
Record DefaultPlanTarget := { tg_plan : Z; tg_version : Z; tg_keys : list string }.

Definition set_grants (s : Account) (gs : list PlanGrant) : Account :=
  {| ac_grants := gs; ac_allowances := ac_allowances s; ac_nextId := ac_nextId s |}.
Definition set_allowances (s : Account) (rows : list Allowance) : Account :=
  {| ac_grants := ac_grants s; ac_allowances := rows; ac_nextId := ac_nextId s |}.

(** The updates of an allowance: who holds it under which item, and until when. *)
Definition rehold (grant item : Z) (expires : option Z) (r : Allowance) : Allowance :=
  {| aw_id := aw_id r; aw_feature := aw_feature r; aw_item := item; aw_grant := grant; aw_key := aw_key r;
     aw_use := aw_use r; aw_start := aw_start r; aw_end := aw_end r; aw_expires := expires;
     aw_reversed_at := aw_reversed_at r |}.
Definition endAt (now : Z) (r : Allowance) : Allowance := rehold (aw_grant r) (aw_item r) (Some now) r.

(** [expires_at IS NULL OR expires_at > now()] *)
Definition live (now : Z) (r : Allowance) : bool :=
  match aw_expires r with None => true | Some e => now <? e end.

Definition isActive (g : PlanGrant) : bool := bool_decide (pg_status g = grant_active).
Definition isDefault (g : PlanGrant) : bool := bool_decide (pg_origin g = origin_default).

(** The grant has not run out: [ends_at IS NULL OR ends_at > now()]. *)
Definition running (now : Z) (g : PlanGrant) : bool :=
  match pg_ends_at g with None => true | Some e => now <? e end.

Definition close (status : PlanGrantStatus) (at_ : Z) (g : PlanGrant) : PlanGrant :=
  {| pg_id := pg_id g; pg_plan := pg_plan g; pg_version := pg_version g; pg_base := pg_base g; pg_origin := pg_origin g;
     pg_status := status; pg_starts_at := pg_starts_at g; pg_ends_at := pg_ends_at g; pg_ended_at := Some at_;
     pg_keys := pg_keys g; pg_created_at := pg_created_at g |}.

(** [storedExpiresAt]: when something anchored at [anchor] expires, or null. *)
Definition storedExpiresAt (anchor : jsdate) (it : PlanItem) : option jsdate :=
  match it_expiry it with
  | Some u => Some (addCadenceOwnDay anchor (storedCadence u (it_expiry_count it)))
  | None =>
      match it_expires_after it with
      | Some seconds => Some (t ← anchor; timeClip (t + Z.min seconds maxExpirySeconds * 1000))
      | None => None
      end
  end.

(** [expiresAtSql], the same in the database. *)
Definition expiresAtSql (anchor : Z) (it : PlanItem) : option Z := mjoin (storedExpiresAt (Some anchor) it).

(** [toISOString] throws on an Invalid Date. *)
Definition toISOString (d : jsdate) : result Z :=
  match d with Some t => Ok t | None => Err (InternalError "Invalid time value") end.
Definition toISOStringOrNull (d : option jsdate) : result (option Z) :=
  match d with None => Ok None | Some d => t ← toISOString d; Ok (Some t) end.

(** ** The windows of a grant's allowances *)

(** A grant, or the default plan the account would start, as a source of allowances;
    [so_allocations]: the grant whose allowances it holds. *)
Record Source := {
  so_grant : option Z; so_version : Z; so_anchor : Z; so_ends : option Z; so_allocations : option Z }.

Record PlanGrantWindow := {
  w_grantId : option Z; w_featureId : Z; w_planItemId : Z; w_quantity : Z;
  w_start : jsdate; w_end : option jsdate; w_expiresAt : option jsdate; w_once : bool;
  w_allocation : option Allowance (* the row of the window, when a write created it *);
  w_resumes : bool }.

(** An allowance reads count before any write created it. *)
Record PendingAllowance := {
  pn_featureId : Z; pn_use : WindowAllocation; pn_expiresAt : option jsdate; pn_reopens : option Z }.

Definition itemOf (items : list PlanItem) (id : Z) : option PlanItem := List.find (fun it => it_id it =? id) items.

Definition sameReset (a b : PlanItem) : bool :=
  bool_decide (it_reset a = it_reset b) && (it_reset_count a =? it_reset_count b).

(** The allowances of a grant and an item's feature, of items on the same reset or on another. *)
Definition allowancesOn (items : list PlanItem) (grant : option Z) (it : PlanItem) (same : bool) (rows : list Allowance)
  : list Allowance :=
  List.filter (fun r => bool_decide (grant = Some (aw_grant r)) && (aw_feature r =? it_feature it) &&
    match itemOf items (aw_item r) with Some a => eqb (sameReset a it) same | None => false end) rows.

(** [ORDER BY period_start_at DESC LIMIT 1] *)
Definition latestAllowance (rows : list Allowance) : option Allowance :=
  fold_left (fun latest r =>
    match latest with
    | None => Some r
    | Some l => if aw_start l <? aw_start r then Some r else latest
    end) rows None.

(** [max(expires_at)] *)
Definition otherResetEndsAt (rows : list Allowance) : option Z :=
  fold_left (fun latest r =>
    match latest, aw_expires r with
    | Some l, Some e => Some (Z.max l e)
    | None, e => e
    | l, None => l
    end) rows None.

(** The reset window's start and end. *)
Definition resetWindow (so : Source) (it : PlanItem) (now : Z) : result (jsdate * option jsdate) :=
  match it_reset it with
  | None => Ok (Some (so_anchor so), Some <$> so_ends so)
  | Some u =>
      '(start, endAt) ← planGrantWindowBounds (Some (so_anchor so)) (Some <$> so_ends so)
                          (storedCadence u (Some (it_reset_count it))) now;
      Ok (start, Some endAt)
  end.

Definition afterInstant (d : jsdate) (now : Z) : bool := dateLt (Some now) d.
Definition atOrBefore (d : jsdate) (now : Z) : bool := match d with Some t => t <=? now | None => false end.

Definition toWindow (items : list PlanItem) (rows : list Allowance) (now : Z) (source : Source * PlanItem)
  : result PlanGrantWindow :=
  let '(so, it) := source in
  let latest := latestAllowance (allowancesOn items (so_allocations so) it true rows) in
  let other := otherResetEndsAt (allowancesOn items (so_grant so) it false rows) in
  '(resetStart, endAt) ← resetWindow so it now;
  let start := match other with
               | Some o => if dateLt resetStart (Some o) then Some o else resetStart
               | None => resetStart
               end in
  let expiry := storedExpiresAt start it in
  let expiresAt := match expiry with
                   | None => endAt
                   | Some x => match endAt with
                               | Some e => if dateLt e x then endAt else expiry
                               | None => expiry
                               end
                   end in
  let created := match latest with
                 | Some l => if decide (Some (aw_start l) = start) then latest else None
                 | None => None
                 end in
  let resumes := match created with
                 | Some l =>
                     bool_decide (so_grant so <> None) && bool_decide (aw_reversed_at l = None) &&
                     negb (live now l) && match expiresAt with None => true | Some e => afterInstant e now end
                 | None => false
                 end in
  Ok {| w_grantId := so_grant so; w_featureId := it_feature it; w_planItemId := it_id it; w_quantity := it_quantity it;
        w_start := start; w_end := endAt; w_expiresAt := expiresAt;
        w_once := bool_decide (it_reset it = None); w_allocation := created; w_resumes := resumes |}.

(** [previousDefaultGrantSql]: the latest default-plan grant in any state. *)
Definition laterGrant (a b : PlanGrant) : bool :=
  (pg_created_at a <? pg_created_at b) || ((pg_created_at a =? pg_created_at b) && (pg_id a <? pg_id b)).
Definition previousDefaultGrant (grants : list PlanGrant) : option PlanGrant :=
  fold_left (fun latest g =>
    match latest with
    | None => Some g
    | Some l => if laterGrant l g then Some g else latest
    end) (List.filter isDefault grants) None.

Definition heldDefaultGrant (grants : list PlanGrant) : option PlanGrant :=
  List.find (fun g => isDefault g && isActive g) grants.

(** [activeBaseGrantSql]: a base grant with an end, such as a trial. *)
Definition activeBaseGrant (now : Z) (grants : list PlanGrant) : option PlanGrant :=
  List.find (fun g => negb (isDefault g) && isActive g && pg_base g &&
    match pg_ends_at g with Some e => now <? e | None => false end) grants.

(** [heldBasePlanSql]; [funding]: a subscription funds a base plan. *)
Definition heldBasePlan (funding : bool) (now : Z) (grants : list PlanGrant) : bool :=
  funding || bool_decide (is_Some (activeBaseGrant now grants)).

(** [defaultPlanReadVersionSql] *)
Definition defaultPlanReadVersion (target : option DefaultPlanTarget) (funding : bool) (now : Z) (grants : list PlanGrant)
  : option Z :=
  if heldBasePlan funding now grants then None else tg_version <$> target.

(** [defaultPlanReadGrantSql] *)
Definition defaultPlanReadGrant (target : option DefaultPlanTarget) (funding : bool) (now : Z) (grants : list PlanGrant)
  : option Source :=
  version ← defaultPlanReadVersion target funding now grants;
  let held := heldDefaultGrant grants in
  let previous := previousDefaultGrant grants in
  Some {| so_grant := pg_id <$> held; so_version := version;
          so_anchor := match held, previous with
                       | Some h, _ => pg_starts_at h
                       | None, Some p => pg_starts_at p
                       | None, None => now
                       end;
          so_ends := None;
          so_allocations := match held with Some h => Some (pg_id h) | None => pg_id <$> previous end |}.

Definition grantSource (g : PlanGrant) : Source :=
  {| so_grant := Some (pg_id g); so_version := pg_version g; so_anchor := pg_starts_at g; so_ends := pg_ends_at g;
     so_allocations := Some (pg_id g) |}.

(** The sources of the query; [pendingDefault] is what a read passes: the default plan as the
    next write will leave it. *)
Definition windowSources (pendingDefault : option (option DefaultPlanTarget * bool)) (now : Z) (grants : list PlanGrant)
  : list Source :=
  map grantSource (List.filter (fun g => isActive g && running now g &&
    match pendingDefault with Some _ => negb (isDefault g) | None => true end) grants) ++
  match pendingDefault with
  | Some (target, funding) => option_list (defaultPlanReadGrant target funding now grants)
  | None => []
  end.

(** [ORDER BY source.grant_id NULLS LAST, item.id] *)
Definition sourceOrder (a b : Source * PlanItem) : bool :=
  match so_grant (fst a), so_grant (fst b) with
  | Some x, Some y => (x <? y) || ((x =? y) && (it_id (snd a) <? it_id (snd b)))
  | Some _, None => true
  | None, Some _ => false
  | None, None => it_id (snd a) <? it_id (snd b)
  end.

(** The sources joined with the account's allocation items of their versions. *)
Definition sourceItems (items : list PlanItem) (featureId : option Z) (sources : list Source) : list (Source * PlanItem) :=
  flat_map (fun so => map (pair so) (List.filter (fun it => (it_version it =? so_version so) && it_account it &&
    match featureId with None => true | Some f => it_feature it =? f end) items)) sources.

Definition readPlanGrantWindows (items : list PlanItem) (featureId : option Z)
  (pendingDefault : option (option DefaultPlanTarget * bool)) (now : Z) (s : Account) : result (list PlanGrantWindow) :=
  mapM (toWindow items (ac_allowances s) now)
    (sortBy sourceOrder (sourceItems items featureId (windowSources pendingDefault now (ac_grants s)))).

Definition untouched (quantity : Z) : WindowAllocation :=
  {| wa_quantity := quantity; wa_reversed := 0; wa_consumed := 0; wa_held := 0 |}.

(** What a read counts of a window: nothing, or the allowance a write would leave. *)
Definition pendingOf (now : Z) (w : PlanGrantWindow) : list PendingAllowance :=
  if afterInstant (w_start w) now then []
  else if match w_expiresAt w with Some e => atOrBefore e now | None => false end then []
  else if bool_decide (w_grantId w <> None) && bool_decide (w_allocation w <> None) && negb (w_resumes w) then []
  else [ {| pn_featureId := w_featureId w;
            pn_use := match w_allocation w with Some a => aw_use a | None => untouched (w_quantity w) end;
            pn_expiresAt := w_expiresAt w;
            pn_reopens := if w_resumes w then aw_id <$> w_allocation w else None |} ].

Definition readPendingAllowances (items : list PlanItem) (featureId : option Z) (target : option DefaultPlanTarget)
  (funding : bool) (now : Z) (s : Account) : result (list PendingAllowance) :=
  windows ← readPlanGrantWindows items featureId (Some (target, funding)) now s;
  Ok (flat_map (pendingOf now) windows).

(** [defaultPlanAllowanceEndingSql]: an allowance of the default plan the next write ends. *)
Definition defaultPlanAllowanceEnding (items : list PlanItem) (target : option DefaultPlanTarget) (funding : bool)
  (now : Z) (grants : list PlanGrant) (r : Allowance) : bool :=
  existsb (fun held => (pg_id held =? aw_grant r) && isDefault held && isActive held) grants &&
  negb (match defaultPlanReadVersion target funding now grants with
        | Some version => existsb (fun kept => (it_version kept =? version) && it_account kept &&
                            (it_feature kept =? aw_feature r)) items
        | None => false
        end).

(** The [closed] column of a balance's listing. *)
Definition closedAllowance (items : list PlanItem) (target : option DefaultPlanTarget) (funding : bool) (now : Z)
  (s : Account) (r : Allowance) : bool :=
  bool_decide (aw_reversed_at r <> None) || negb (live now r) ||
  defaultPlanAllowanceEnding items target funding now (ac_grants s) r.

(** ** Opening windows before a write *)

(** The windows a write still has to open or reopen. *)
Definition missingWindow (now : Z) (w : PlanGrantWindow) : bool :=
  bool_decide (w_grantId w <> None) && atOrBefore (w_start w) now &&
  (bool_decide (w_allocation w = None) || w_resumes w) &&
  match w_expiresAt w with None => true | Some e => afterInstant e now end.

(** [windowValues], and the id the identity column gives it. *)
Definition windowValues (id : Z) (w : PlanGrantWindow) : result Allowance :=
  start ← toISOString (w_start w);
  endAt ← toISOStringOrNull (w_end w);
  expires ← toISOStringOrNull (w_expiresAt w);
  let grant := default 0 (w_grantId w) in
  Ok {| aw_id := id; aw_feature := w_featureId w; aw_item := w_planItemId w; aw_grant := grant;
        aw_key := (grant, w_planItemId w, if w_once w then key_once else key_start start);
        aw_use := untouched (w_quantity w); aw_start := start; aw_end := endAt; aw_expires := expires;
        aw_reversed_at := None |}.

(** [WHERE NOT EXISTS (... kept ...)], over the rows before the statement. *)
Definition keptAlready (before : list Allowance) (c : Allowance) : bool :=
  existsb (fun kept => (aw_grant kept =? aw_grant c) && (aw_item kept =? aw_item c) && (aw_start kept =? aw_start c)) before.

(** [ON CONFLICT (project_id, feature_id, source_kind, source_key) DO NOTHING] *)
Definition keyTaken (rows : list Allowance) (c : Allowance) : bool :=
  existsb (fun r => (aw_feature r =? aw_feature c) && bool_decide (aw_key r = aw_key c)) rows.

(** One candidate of the [INSERT]. *)
Definition insertWindow (before : list Allowance) (s : Account) (w : PlanGrantWindow) : result Account :=
  candidate ← windowValues (ac_nextId s) w;
  Ok (if keptAlready before candidate || keyTaken (ac_allowances s) candidate then s
      else {| ac_grants := ac_grants s; ac_allowances := ac_allowances s ++ [candidate]; ac_nextId := ac_nextId s + 1 |}).

(** [reopenPlanGrantAllowances]: the candidate of a row. *)
Definition reopenCandidate (windows : list PlanGrantWindow) (r : Allowance) : option PlanGrantWindow :=
  List.find (fun w => bool_decide (aw_id <$> w_allocation w = Some (aw_id r))) windows.

Definition reopenAllowance (now : Z) (windows : list PlanGrantWindow) (r : Allowance) : result Allowance :=
  match reopenCandidate windows r with
  | None => Ok r
  | Some w =>
      expires ← toISOStringOrNull (w_expiresAt w);
      Ok (if bool_decide (aw_reversed_at r = None) && negb (live now r)
          then rehold (aw_grant r) (w_planItemId w) expires r else r)
  end.

Definition reopenPlanGrantAllowances (now : Z) (windows : list PlanGrantWindow) (s : Account) : result Account :=
  rows ← mapM (reopenAllowance now windows) (ac_allowances s);
  Ok (set_allowances s rows).

(** [openPlanGrantWindows] *)
Definition openPlanGrantWindows (items : list PlanItem) (featureId : Z) (now : Z) (s : Account) : result Account :=
  windows ← readPlanGrantWindows items (Some featureId) None now s;
  let due := List.filter (missingWindow now) windows in
  s1 ← reopenPlanGrantAllowances now (List.filter w_resumes due) s;
  foldM (insertWindow (ac_allowances s1)) (List.filter (fun w => negb (w_resumes w)) due) s1.

(** ** Changes of a grant *)

(** [clampPlanGrantAllocations]: ends every allowance of the grant that is still live. *)
Definition clampPlanGrantAllocations (now grantId : Z) (s : Account) : Account :=
  set_allowances s (map (fun r => if (aw_grant r =? grantId) && live now r then endAt now r else r) (ac_allowances s)).

Definition closeGrant (status : PlanGrantStatus) (now grantId : Z) (s : Account) : Account :=
  set_grants s (map (fun g => if (pg_id g =? grantId) && isActive g then close status now g else g) (ac_grants s)).

(** [supersedeGrant] and [endGrant] of a default-plan grant. *)
Definition supersedeGrant (now grantId : Z) (s : Account) : Account :=
  clampPlanGrantAllocations now grantId (closeGrant grant_superseded now grantId s).
Definition endGrant (now grantId : Z) (s : Account) : Account :=
  clampPlanGrantAllocations now grantId (closeGrant grant_ended now grantId s).

(** The account-wide allocation item of a version for a feature; a version has one at most. *)
Definition versionItem (items : list PlanItem) (version feature : Z) : option PlanItem :=
  List.find (fun it => (it_version it =? version) && it_account it && (it_feature it =? feature)) items.

(** The version's item an allowance goes over to: of its feature, on its own item's reset. *)
Definition sameResetItem (items : list PlanItem) (version : Z) (r : Allowance) : option PlanItem :=
  previous ← itemOf items (aw_item r);
  kept ← versionItem items version (aw_feature r);
  if sameReset kept previous then Some kept else None.

Definition movedGrant (target : DefaultPlanTarget) (g : PlanGrant) : PlanGrant :=
  {| pg_id := pg_id g; pg_plan := tg_plan target; pg_version := tg_version target; pg_base := pg_base g;
     pg_origin := pg_origin g; pg_status := pg_status g; pg_starts_at := pg_starts_at g; pg_ends_at := pg_ends_at g;
     pg_ended_at := pg_ended_at g; pg_keys := tg_keys target; pg_created_at := pg_created_at g |}.

(** The two updates of the allowances of a grant that changed its version. *)
Definition keepOnReset (items : list PlanItem) (now grantId version : Z) (r : Allowance) : Allowance :=
  if (aw_grant r =? grantId) && live now r then
    match sameResetItem items version r with
    | Some kept => rehold (aw_grant r) (it_id kept) (aw_expires r) r
    | None => r
    end
  else r.
Definition endDropped (items : list PlanItem) (now grantId version : Z) (r : Allowance) : Allowance :=
  if (aw_grant r =? grantId) && live now r && bool_decide (versionItem items version (aw_feature r) = None)
  then endAt now r else r.

(** [moveGrant] *)
Definition moveGrant (items : list PlanItem) (now grantId : Z) (target : DefaultPlanTarget) (versionChanged : bool)
  (s : Account) : Account :=
  let s1 := set_grants s (map (fun g => if (pg_id g =? grantId) && isActive g then movedGrant target g else g) (ac_grants s)) in
  if versionChanged then
    set_allowances s1 (map (fun r => endDropped items now grantId (tg_version target)
      (keepOnReset items now grantId (tg_version target) r)) (ac_allowances s1))
  else s1.

(** [LEAST], which ignores nulls. *)
Definition least (a b : option Z) : option Z :=
  match a, b with Some x, Some y => Some (Z.min x y) | Some x, None => Some x | None, y => y end.

(** The [expires_at] of an allowance handed to the next default-plan grant. *)
Definition resumedExpiresAt (it : PlanItem) (r : Allowance) : option Z :=
  match it_expiry it, it_expires_after it with
  | None, None => aw_end r
  | _, _ => least (aw_end r) (expiresAtSql (aw_start r) it)
  end.

(** [resumeDefaultPlanAllowances] *)
Definition resumeAllowance (items : list PlanItem) (now fromGrantId toGrantId version : Z) (r : Allowance) : Allowance :=
  if (aw_grant r =? fromGrantId) && (aw_start r <=? now) && match aw_end r with None => true | Some e => now <? e end then
    match sameResetItem items version r with
    | Some it => rehold toGrantId (it_id it) (resumedExpiresAt it r) r
    | None => r
    end
  else r.
Definition resumeDefaultPlanAllowances (items : list PlanItem) (now fromGrantId toGrantId version : Z) (s : Account) : Account :=
  set_allowances s (map (resumeAllowance items now fromGrantId toGrantId version) (ac_allowances s)).

(** The insert of a default-plan grant; [None] on a conflict with an active base grant. *)
Definition startDefaultPlan (newId now : Z) (target : DefaultPlanTarget) (previous : option PlanGrant) (s : Account)
  : option Account :=
  if existsb (fun g => isActive g && pg_base g) (ac_grants s) then None
  else Some (set_grants s (ac_grants s ++
    [ {| pg_id := newId; pg_plan := tg_plan target; pg_version := tg_version target; pg_base := true;
         pg_origin := origin_default; pg_status := grant_active;
         pg_starts_at := match previous with Some p => pg_starts_at p | None => now end;
         pg_ends_at := None; pg_ended_at := None; pg_keys := tg_keys target; pg_created_at := now |} ])).

Inductive DefaultPlanChange := plan_started | plan_moved | plan_superseded | plan_ended.

(** [reconcileDefaultPlanGrant]; [newId] is the id of a grant it would insert. *)
Definition reconcileDefaultPlanGrant (items : list PlanItem) (target : option DefaultPlanTarget) (funding : bool)
  (newId now : Z) (s : Account) : Account * option DefaultPlanChange :=
  let heldBase := heldBasePlan funding now (ac_grants s) in
  match heldDefaultGrant (ac_grants s), target with
  | Some held, _ =>
      if heldBase then (supersedeGrant now (pg_id held) s, Some plan_superseded)
      else
        match target with
        | None => (endGrant now (pg_id held) s, Some plan_ended)
        | Some t =>
            let versionChanged := negb (pg_version held =? tg_version t) in
            let keysChanged := negb (bool_decide (pg_keys held = tg_keys t)) in
            if negb versionChanged && negb keysChanged then (s, None)
            else (moveGrant items now (pg_id held) t versionChanged s, Some plan_moved)
        end
  | None, None => (s, None)
  | None, Some t =>
      if heldBase then (s, None)
      else
        let previous := previousDefaultGrant (ac_grants s) in
        match startDefaultPlan newId now t previous s with
        | None => (s, None)
        | Some started =>
            (match previous with
             | Some p => resumeDefaultPlanAllowances items now (pg_id p) newId (tg_version t) started
             | None => started
             end, Some plan_started)
        end
  end.

(** [expirePlanGrantsWhere] for one account: records elapsed grants as expired, the earliest end
    first, at most [limit] of them. *)
Definition endsEarlier (a b : PlanGrant) : bool :=
  match pg_ends_at a, pg_ends_at b with
  | Some x, Some y => (x <? y) || ((x =? y) && (pg_id a <? pg_id b))
  | _, _ => pg_id a <? pg_id b
  end.
Definition elapsed (now : Z) (g : PlanGrant) : bool :=
  isActive g && match pg_ends_at g with Some e => e <=? now | None => false end.
Definition expireCustomerPlanGrants (now : Z) (s : Account) : Account :=
  let due := map pg_id (firstn 100 (sortBy endsEarlier (List.filter (elapsed now) (ac_grants s)))) in
  set_grants s (map (fun g => if bool_decide (pg_id g ∈ due) then close grant_expired (default now (pg_ends_at g)) g else g)
    (ac_grants s)).

(** [endPlanGrantInTx]; [None] when the grant is no longer active. *)
Definition endPlanGrantInTx (now grantId : Z) (s : Account) : option Account :=
  let ends g := (pg_id g =? grantId) && isActive g && match pg_ends_at g with Some e => now <? e | None => false end in
  if existsb ends (ac_grants s)
  then Some (clampPlanGrantAllocations now grantId
               (set_grants s (map (fun g => if ends g then close grant_ended now g else g) (ac_grants s))))
  else None.

(** [supersedeBasePlanGrants], when a subscription funds a version; [base]: it is of a base plan. *)
Definition supersedeBasePlanGrants (now : Z) (base : bool) (s : Account) : Account :=
  let gone g := isActive g && pg_base g && running now g && base in
  let superseded := map pg_id (List.filter gone (ac_grants s)) in
  {| ac_grants := map (fun g => if gone g then close grant_superseded now g else g) (ac_grants s);
     ac_allowances := map (fun r => if bool_decide (aw_grant r ∈ superseded) && live now r then endAt now r else r) (ac_allowances s);
     ac_nextId := ac_nextId s |}.

(** [supersedeDefaultPlanGrant] *)
Definition supersedeDefaultPlanGrant (now : Z) (s : Account) : Account :=
  match heldDefaultGrant (ac_grants s) with Some held => supersedeGrant now (pg_id held) s | None => s end.

(** The grant a trial or a redeemed promotion starts: refused while another base grant runs, or
    for the caller's other reasons ([refused]: the plan's shape, a paid base plan, a used trial). *)
Definition grantPlan (refused : bool) (origin : PlanGrantOrigin) (newId plan version endsAt : Z) (keys : list string) (now : Z)
  (s : Account) : option Account :=
  let s1 := expireCustomerPlanGrants now s in
  if refused || bool_decide (is_Some (activeBaseGrant now (ac_grants s1))) then None
  else
      let s2 := supersedeDefaultPlanGrant now s1 in
      Some (set_grants s2 (ac_grants s2 ++
        [ {| pg_id := newId; pg_plan := plan; pg_version := version; pg_base := true; pg_origin := origin;
             pg_status := grant_active; pg_starts_at := now; pg_ends_at := Some endsAt; pg_ended_at := None;
             pg_keys := keys; pg_created_at := now |} ])).

(** ** Catching up before a write *)

(** [defaultPlanPendingSql] and [defaultPlanOutOfDateSql] *)
Definition defaultPlanPending (target : option DefaultPlanTarget) (funding : bool) (now : Z) (grants : list PlanGrant) : bool :=
  bool_decide (is_Some target) && negb (existsb (fun g => isDefault g && isActive g) grants) &&
  negb (heldBasePlan funding now grants).
Definition defaultPlanOutOfDate (target : option DefaultPlanTarget) (funding : bool) (now : Z) (grants : list PlanGrant) : bool :=
  defaultPlanPending target funding now grants ||
  existsb (fun held => isDefault held && isActive held &&
    match target with
    | None => true
    | Some t => negb (pg_version held =? tg_version t) || negb (bool_decide (pg_keys held = tg_keys t)) ||
                heldBasePlan funding now grants
    end) grants.

(** [planGrantsNeedCatchUp] *)
Definition planGrantsNeedCatchUp (target : option DefaultPlanTarget) (funding : bool) (now : Z) (s : Account) : bool :=
  existsb (elapsed now) (ac_grants s) || defaultPlanOutOfDate target funding now (ac_grants s).

(** [catchUpPlanGrants] *)
Definition catchUpPlanGrants (items : list PlanItem) (target : option DefaultPlanTarget) (funding : bool) (newId now : Z)
  (s : Account) : Account :=
  fst (reconcileDefaultPlanGrant items target funding newId now (expireCustomerPlanGrants now s)).

(** What a usage write does to the grants before it locks a feature's allocations:
    [resolveMeteringSubject] and [openPlanGrantWindows]. *)
Definition prepareWrite (items : list PlanItem) (target : option DefaultPlanTarget) (funding : bool) (newId featureId now : Z)
  (s : Account) : result Account :=
  openPlanGrantWindows items featureId now
    (if planGrantsNeedCatchUp target funding now s then catchUpPlanGrants items target funding newId now s else s).

(** ** Reset cells *)

(** A reset: its unit and count, or none. *)
Abbreviation Reset := (option CadenceUnit * Z)%type.
Definition itemReset (it : PlanItem) : Reset := (it_reset it, it_reset_count it).
Definition reset_ok (rs : Reset) : Prop := match rs.1 with None => True | Some u => cadence_ok (storedCadence u (Some rs.2)) end.

(** The cell of the reset grid of an anchor that holds an instant; without a reset it has no end. *)
Definition cellOf (anchor : Z) (rs : Reset) (t : Z) : Z * Z :=
  match rs.1 with
  | None => (anchor, 0)
  | Some u => match planGrantWindowBounds (Some anchor) None (storedCadence u (Some rs.2)) t with
              | Ok (Some a, Some b) => (a, b)
              | _ => (anchor, 0)
              end
  end.
Definition cellStart (anchor : Z) (rs : Reset) (t : Z) : Z := (cellOf anchor rs t).1.
Definition cellEnd (anchor : Z) (rs : Reset) (t : Z) : Z := (cellOf anchor rs t).2.

Lemma sameReset_spec a b : sameReset a b = true <-> itemReset a = itemReset b.
Proof.
  unfold sameReset, itemReset. rewrite andb_true_iff, bool_decide_eq_true, Z.eqb_eq. split; [intros [-> ->]; done|intros [= -> ->]; done].
Qed.

Lemma modern_open t : modern t -> t < maxTime.
Proof. unfold modern. rewrite maxTime_val. lia. Qed.

Section Cells.
Context (anchor : Z) (rs : Reset) (Ha : modern anchor) (Hrs : reset_ok rs).

Lemma cell_grid t u : rs.1 = Some u -> modern t -> anchor <= t ->
  exists k, 0 <= k /\ cellStart anchor rs t = gridBoundary anchor (storedCadence u (Some rs.2)) (getUTCDate anchor) k /\
    cellEnd anchor rs t = Z.min (gridBoundary anchor (storedCadence u (Some rs.2)) (getUTCDate anchor) (k + 1)) maxTime /\
    gridBoundary anchor (storedCadence u (Some rs.2)) (getUTCDate anchor) k <= t
      < gridBoundary anchor (storedCadence u (Some rs.2)) (getUTCDate anchor) (k + 1) /\
    (forall endsAt, t < endsAt -> planGrantWindowBounds (Some anchor) (Some (Some endsAt)) (storedCadence u (Some rs.2)) t =
       Ok (Some (cellStart anchor rs t), Some (Z.min (gridBoundary anchor (storedCadence u (Some rs.2)) (getUTCDate anchor) (k + 1)) endsAt))) /\
    planGrantWindowBounds (Some anchor) None (storedCadence u (Some rs.2)) t = Ok (Some (cellStart anchor rs t), Some (cellEnd anchor rs t)).
Proof.
  intros Hu Ht Hle. unfold cellStart, cellEnd, cellOf. rewrite Hu. unfold reset_ok in Hrs. rewrite Hu in Hrs.
  pose proof (modern_open _ Ha). pose proof (modern_open _ Ht).
  destruct (resetSub_cell anchor maxTime (storedCadence u (Some rs.2)) t) as (k & Hk & Hc & Hr); [lia|done|done|done|].
  assert (Hcl : forall e, t < e -> clampInto anchor e t = t) by (intros e He; unfold clampInto; blia).
  rewrite Hcl in Hc by lia. exists k.
  change (planGrantWindowBounds (Some anchor) None (storedCadence u (Some rs.2)) t)
    with (resetSubWindowBounds (Some anchor) (Some maxTime) (storedCadence u (Some rs.2)) t). rewrite Hr. split_and!; try done; try lia.
  intros e He. destruct (resetSub_cell anchor e (storedCadence u (Some rs.2)) t) as (k' & Hk' & Hc' & Hr'); [lia|done|done|done|].
  rewrite Hcl in Hc' by lia. unfold planGrantWindowBounds. cbn [default]. unfold id. rewrite Hr'. pose proof (getUTCDate_bounds anchor).
  assert (k' = k) as -> by (eapply (gridBoundary_cell anchor); eauto; lia). done.
Qed.

Lemma cellStart_bounds t : modern t -> anchor <= t -> anchor <= cellStart anchor rs t <= t.
Proof.
  intros Ht Hle. destruct rs.1 as [u|] eqn:Hu; [|unfold cellStart, cellOf; rewrite Hu; cbn; lia].
  destruct (cell_grid t u Hu Ht Hle) as (k & Hk & -> & _ & Hc & _). pose proof (getUTCDate_bounds anchor). split; [|lia].
  unfold reset_ok in Hrs. rewrite Hu in Hrs.
  pose proof (gridBoundary_mono_le anchor (storedCadence u (Some rs.2)) (getUTCDate anchor) 0 k Hrs ltac:(lia) Hk).
  rewrite (gridBoundary_0 anchor _ _ (anchor_own anchor)) in *. lia.
Qed.

Lemma cellEnd_after t : rs.1 <> None -> modern t -> anchor <= t -> t < cellEnd anchor rs t.
Proof.
  intros Hn Ht Hle. destruct rs.1 as [u|] eqn:Hu; [|done].
  destruct (cell_grid t u Hu Ht Hle) as (k & Hk & _ & -> & Hc & _). pose proof (modern_open _ Ht). lia.
Qed.

(** Cells are the same or follow each other. *)
Lemma cells_ordered t t' : modern t -> modern t' -> anchor <= t -> t <= t' ->
  (cellStart anchor rs t = cellStart anchor rs t' /\ cellEnd anchor rs t = cellEnd anchor rs t') \/
  (rs.1 <> None /\ cellEnd anchor rs t <= cellStart anchor rs t').
Proof.
  intros Ht Ht' Hle Htt. destruct rs.1 as [u|] eqn:Hu; [|left; unfold cellStart, cellEnd, cellOf; by rewrite Hu].
  destruct (cell_grid t u Hu Ht Hle) as (k & Hk & -> & -> & Hc & _).
  destruct (cell_grid t' u Hu Ht' ltac:(lia)) as (k' & Hk' & -> & -> & Hc' & _).
  unfold reset_ok in Hrs. rewrite Hu in Hrs. pose proof (getUTCDate_bounds anchor).
  destruct (Z.lt_trichotomy k k') as [Hlt|[->|Hgt]]; [right; split; [done|]|by left|exfalso].
  - pose proof (gridBoundary_mono_le anchor (storedCadence u (Some rs.2)) (getUTCDate anchor) (k + 1) k' Hrs ltac:(lia) ltac:(lia)). lia.
  - pose proof (gridBoundary_mono_le anchor (storedCadence u (Some rs.2)) (getUTCDate anchor) (k' + 1) k Hrs ltac:(lia) ltac:(lia)). lia.
Qed.

Lemma cellStart_mono t t' : modern t -> modern t' -> anchor <= t -> t <= t' -> cellStart anchor rs t <= cellStart anchor rs t'.
Proof.
  intros Ht Ht' Hle Htt. destruct (cells_ordered t t' Ht Ht' Hle Htt) as [[-> _]|[Hn He]]; [lia|].
  pose proof (cellEnd_after t Hn Ht Hle). pose proof (cellStart_bounds t Ht Hle). lia.
Qed.

(** An instant between a cell's start and a later one of the cell is in the cell. *)
Lemma cell_inside t t' : modern t -> modern t' -> anchor <= t -> cellStart anchor rs t' <= t -> t <= t' ->
  cellStart anchor rs t = cellStart anchor rs t' /\ cellEnd anchor rs t = cellEnd anchor rs t'.
Proof.
  intros Ht Ht' Hle Hc Htt. destruct (cells_ordered t t' Ht Ht' Hle Htt) as [?|[Hn He]]; [done|].
  pose proof (cellEnd_after t Hn Ht Hle). lia.
Qed.
End Cells.

(** ** What a window is *)

Definition expiry_ok (it : PlanItem) : Prop :=
  match it_expiry it with Some u => cadence_ok (storedCadence u (it_expiry_count it)) | None => True end /\
  match it_expires_after it with Some seconds => 0 < seconds | None => True end.

Lemma storedExpiresAt_Some t it : expiry_ok it -> modern t ->
  storedExpiresAt (Some t) it = None /\ it_expiry it = None /\ it_expires_after it = None \/
  exists x, storedExpiresAt (Some t) it = Some (Some x) /\ t < x /\ expiresAtSql t it = Some x /\
    ~ (it_expiry it = None /\ it_expires_after it = None).
Proof.
  intros [He Hs] Ht. unfold expiresAtSql, storedExpiresAt.
  destruct (it_expiry it) as [u|].
  - right. destruct (addCadenceOwnDay_Some t _ He Ht) as (x & -> & Hx). exists x. by split_and!; [| | |intros [? _]].
  - destruct (it_expires_after it) as [n|]; [right|by left]. cbn. exists (t + Z.min n maxExpirySeconds * 1000).
    assert (0 < Z.min n maxExpirySeconds <= 315619200) by (unfold maxExpirySeconds; lia).
    rewrite clip_modern by (unfold modern in Ht; lia). by split_and!; [|lia| |intros [_ ?]].
Qed.

(** A source whose windows are asked for while it runs. *)
Record source_ok (now : Z) (so : Source) : Prop := {
  sk_anchor : modern (so_anchor so); sk_started : so_anchor so <= now;
  sk_ends : match so_ends so with Some e => now < e <= maxTime | None => True end }.

Lemma resetWindow_spec now so it : modern now -> reset_ok (itemReset it) -> source_ok now so ->
  exists we, resetWindow so it now = Ok (Some (cellStart (so_anchor so) (itemReset it) now), Some <$> we) /\
    (we = None -> it_reset it = None /\ so_ends so = None) /\
    (forall e, we = Some e -> now < e /\ (it_reset it <> None -> e <= cellEnd (so_anchor so) (itemReset it) now) /\
       (forall e', so_ends so = Some e' -> e <= e')) /\
    (so_ends so = None -> it_reset it <> None -> we = Some (cellEnd (so_anchor so) (itemReset it) now)).
Proof.
  intros Hn Hr [Ha Hs He]. unfold resetWindow. destruct (it_reset it) as [u|] eqn:Hu.
  - destruct (cell_grid _ (itemReset it) Ha Hr now u Hu Hn Hs) as (k & Hk & _ & Hend & Hc & Hsome & Hnone).
    cbn [itemReset snd] in *. pose proof (modern_open _ Hn). destruct (so_ends so) as [e|]; cbn [fmap option_fmap option_map].
    + rewrite Hsome by lia. cbn. eexists (Some _). split; [done|]. split; [done|]. split; [|done].
      intros x [= <-]. split; [lia|]. split; [lia|]. intros e' [= <-]. lia.
    + rewrite Hnone. cbn. eexists (Some _). split; [done|]. split; [done|]. split; [|done].
      intros x [= <-]. split; [lia|]. split; [lia|]. done.
  - unfold cellStart, cellOf, itemReset. rewrite Hu. cbn. exists (so_ends so). split; [done|]. split; [done|]. split; [|done].
    intros e Hse. rewrite Hse in He. split; [lia|]. split; [done|]. intros e' [= <-]%(eq_trans (eq_sym Hse)). lia.
Qed.

(** Where a window starts: at its cell, or where an allowance of another reset ends. *)
Definition windowStart (items : list PlanItem) (rows : list Allowance) (now : Z) (so : Source) (it : PlanItem) : Z :=
  match otherResetEndsAt (allowancesOn items (so_grant so) it false rows) with
  | Some o => Z.max (cellStart (so_anchor so) (itemReset it) now) o
  | None => cellStart (so_anchor so) (itemReset it) now
  end.

Definition createdIn (items : list PlanItem) (rows : list Allowance) (so : Source) (it : PlanItem) (start : Z) : option Allowance :=
  match latestAllowance (allowancesOn items (so_allocations so) it true rows) with
  | Some l => if decide (aw_start l = start) then Some l else None
  | None => None
  end.

(** A window that has started: how long its allowance lasts, and whether it was created. *)
Record window_of (items : list PlanItem) (rows : list Allowance) (now : Z) (so : Source) (it : PlanItem) (w : PlanGrantWindow)
  (endAt expires : option Z) : Prop := {
  wo_end : w_end w = Some <$> endAt;
  wo_expires : w_expiresAt w = Some <$> expires;
  wo_least : expires = least endAt (expiresAtSql (windowStart items rows now so it) it);
  wo_later : forall x, expires = Some x -> windowStart items rows now so it < x;
  wo_resumes : w_resumes w = match createdIn items rows so it (windowStart items rows now so it) with
     | Some l => bool_decide (so_grant so <> None) && bool_decide (aw_reversed_at l = None) && negb (live now l) &&
                 match expires with None => true | Some x => now <? x end
     | None => false end;
  wo_bounded : it_reset it <> None \/ so_ends so <> None -> endAt <> None;
  wo_cell : forall e, endAt = Some e -> now < e /\ (it_reset it <> None -> e <= cellEnd (so_anchor so) (itemReset it) now) /\
     (forall e', so_ends so = Some e' -> e <= e');
  wo_full : so_ends so = None -> it_reset it <> None -> endAt = Some (cellEnd (so_anchor so) (itemReset it) now) }.

Lemma toWindow_spec items rows now so it : modern now -> reset_ok (itemReset it) -> expiry_ok it -> source_ok now so ->
  exists w, toWindow items rows now (so, it) = Ok w /\ w_grantId w = so_grant so /\ w_featureId w = it_feature it /\
    w_planItemId w = it_id it /\ w_quantity w = it_quantity it /\ w_once w = bool_decide (it_reset it = None) /\
    w_start w = Some (windowStart items rows now so it) /\
    w_allocation w = createdIn items rows so it (windowStart items rows now so it) /\
    (windowStart items rows now so it <= now -> exists endAt expires, window_of items rows now so it w endAt expires).
Proof.
  intros Hn Hr He Hso. destruct (resetWindow_spec now so it Hn Hr Hso) as (we & Hrw & Hwn & Hws & Hwf).
  unfold toWindow. rewrite Hrw. cbn [mbind result_bind].
  set (other := otherResetEndsAt _).
  assert (Est : (match other with Some o => if dateLt (Some (cellStart (so_anchor so) (itemReset it) now)) (Some o) then Some o
      else Some (cellStart (so_anchor so) (itemReset it) now) | None => Some (cellStart (so_anchor so) (itemReset it) now) end)
    = Some (windowStart items rows now so it)).
  { unfold windowStart. fold other. destruct other as [o|]; [|done]. cbn. destruct (Z.ltb_spec (cellStart (so_anchor so) (itemReset it) now) o); f_equal; lia. }
  rewrite Est. eexists. split; [done|]. cbn [w_grantId w_featureId w_planItemId w_quantity w_once w_start w_allocation w_end w_expiresAt w_resumes].
  assert (Ecr : match latestAllowance (allowancesOn items (so_allocations so) it true rows) with
      | Some l => if decide (Some (aw_start l) = Some (windowStart items rows now so it))
          then latestAllowance (allowancesOn items (so_allocations so) it true rows) else None
      | None => None end = createdIn items rows so it (windowStart items rows now so it)).
  { unfold createdIn. destruct (latestAllowance _) as [l|]; [|done]. destruct (decide _) as [[= ->]|Hne]; destruct (decide _); congruence. }
  rewrite Ecr. split_and!; try done. intros HW.
  assert (HaW : so_anchor so <= windowStart items rows now so it).
  { destruct Hso as [Ha Hs _]. pose proof (cellStart_bounds _ _ Ha Hr now Hn Hs). unfold windowStart. fold other. destruct other; lia. }
  assert (HWm : modern (windowStart items rows now so it)) by (destruct Hso as [Ha _ _]; unfold modern in *; lia).
  assert (Hend : forall e, we = Some e -> windowStart items rows now so it < e) by (intros e Ee; destruct (Hws e Ee); lia).
  assert (Hnn : it_reset it <> None \/ so_ends so <> None -> we <> None) by (intros Hor E; destruct (Hwn E) as [? ?]; tauto).
  destruct (storedExpiresAt_Some _ it He HWm) as [(-> & Hx1 & Hx2)|(x & -> & Hx & Hsql & _)].
  - exists we, we. split; cbn; try done.
    + unfold expiresAtSql, storedExpiresAt. rewrite Hx1, Hx2. cbn. by destruct we.
    + destruct (createdIn _ _ _ _ _); [|done]. by destruct we.
  - exists we, (least we (Some x)). split; cbn; try done.
    + destruct we as [e|]; [|done]. cbn. destruct (Z.ltb_spec e x); do 2 f_equal; lia.
    + by rewrite Hsql.
    + intros y. destruct we as [e|]; cbn; [specialize (Hend e eq_refl)|]; intros [= <-]; lia.
    + destruct (createdIn _ _ _ _ _); [|done]. f_equal. destruct we as [e|]; [|done]. cbn.
      destruct (Z.ltb_spec e x); cbn; f_equal; lia.
Qed.

(** ** The invariant of an account *)

(** The catalog: one account-wide item of a version for a feature, within the bounds of its columns. *)
Record catalog_ok (items : list PlanItem) : Prop := {
  ck_ids : NoDup (map it_id items);
  ck_one : forall a b, a ∈ items -> b ∈ items -> it_account a = true -> it_account b = true ->
    it_version a = it_version b -> it_feature a = it_feature b -> a = b;
  ck_reset : forall it, it ∈ items -> reset_ok (itemReset it);
  ck_expiry : forall it, it ∈ items -> expiry_ok it }.

(** What the catalog asks of a default plan: each of its allocations resets. *)
Definition resetting (items : list PlanItem) (version : Z) : Prop :=
  forall it, it ∈ items -> it_version it = version -> it_account it = true -> it_reset it <> None.

Definition resetOf (items : list PlanItem) (r : Allowance) : option Reset := itemReset <$> itemOf items (aw_item r).
Definition expiresOf (r : Allowance) : Z := default 0 (aw_expires r).

Lemma latestAllowance_spec rows : match latestAllowance rows with
  | None => rows = [] | Some l => l ∈ rows /\ forall r, r ∈ rows -> aw_start r <= aw_start l end.
Proof.
  unfold latestAllowance. induction rows as [|x rows IH] using rev_ind; [done|]. rewrite fold_left_app. cbn.
  destruct (fold_left _ rows None) as [l|] eqn:E.
  - destruct IH as [Hl IH]. destruct (Z.ltb_spec (aw_start l) (aw_start x)).
    + split; [set_solver|]. intros r [Hr|Hr%list_elem_of_singleton]%elem_of_app; [specialize (IH r Hr); lia|subst; lia].
    + split; [set_solver|]. intros r [Hr|Hr%list_elem_of_singleton]%elem_of_app; [by apply IH|subst; lia].
  - subst rows. split; [set_solver|]. intros r ->%list_elem_of_singleton. lia.
Qed.

Lemma otherResetEndsAt_spec rows : (forall r, r ∈ rows -> is_Some (aw_expires r)) -> match otherResetEndsAt rows with
  | None => rows = []
  | Some o => (exists r, r ∈ rows /\ expiresOf r = o) /\ forall r, r ∈ rows -> expiresOf r <= o end.
Proof.
  unfold otherResetEndsAt. induction rows as [|x rows IH] using rev_ind; [done|]. intros Hs. rewrite fold_left_app. cbn.
  specialize (IH ltac:(set_solver)). destruct (Hs x ltac:(set_solver)) as [e Ee]. rewrite Ee.
  assert (Hx : expiresOf x = e) by (unfold expiresOf; by rewrite Ee).
  destruct (fold_left _ rows None) as [l|] eqn:E.
  - destruct IH as ((r & Hr & Hre) & Hall). split.
    + destruct (Z.le_gt_cases e l); [exists r|exists x]; (split; [set_solver|lia]).
    + intros q [Hq|Hq%list_elem_of_singleton]%elem_of_app; [specialize (Hall q Hq); lia|subst; lia].
  - subst rows. split; [exists x; split; [set_solver|done]|]. intros q ->%list_elem_of_singleton. lia.
Qed.
(** ** What an account can spend, and what a read counts *)

Definition content (r : Allowance) : WindowAllocation * option Z := (aw_use r, aw_expires r).
Definition pendingContent (p : PendingAllowance) : WindowAllocation * option Z := (pn_use p, mjoin (pn_expiresAt p)).

(** The allowances of a feature that a write locks: not reversed and not expired. *)
Definition spendable (now : Z) (s : Account) (f : Z) : list (WindowAllocation * option Z) :=
  map content (List.filter (fun r => (aw_feature r =? f) && bool_decide (aw_reversed_at r = None) && live now r) (ac_allowances s)).

(** What a balance read counts as open: the rows it lists that are not closed, and the pending
    allowances. *)
Definition counted (items : list PlanItem) (target : option DefaultPlanTarget) (funding : bool) (now : Z) (s : Account) (f : Z)
  : result (list (WindowAllocation * option Z)) :=
  pending ← readPendingAllowances items (Some f) target funding now s;
  Ok (map content (List.filter (fun r => (aw_feature r =? f) && negb (closedAllowance items target funding now s r)) (ac_allowances s)) ++
      map pendingContent pending).

(** Replacing a row that a filter leaves out by one it keeps. *)
Lemma filter_replaced {A} (key : A -> Z) (p : A -> bool) (h : A -> A) l x : NoDup (map key l) -> x ∈ l ->
  (forall y, y ∈ l -> key y <> key x -> h y = y) -> p x = false -> p (h x) = true ->
  List.filter p (map h l) ≡ₚ List.filter p l ++ [h x].
Proof.
  intros Hnd Hx Hh Hp Hp'. apply list_elem_of_split in Hx as (l1 & l2 & ->).
  assert (Hid : forall k, (forall y, y ∈ k -> y ∈ l1 ++ x :: l2 /\ key y <> key x) -> map h k = k).
  { induction k as [|y k IH]; [done|]. intros Hk. cbn. rewrite IH by (intros; apply Hk; by constructor).
    destruct (Hk y) as [? ?]; [by constructor|]. by rewrite Hh. }
  rewrite map_app in Hnd. cbn in Hnd. apply NoDup_app in Hnd as (_ & Hd & Hnd). apply NoDup_cons in Hnd as [Hn2 _].
  rewrite !map_app, !List.filter_app. cbn. rewrite Hp, Hp'. rewrite (Hid l1), (Hid l2).
  - rewrite <- app_assoc. apply Permutation_app_head. by rewrite Permutation_app_comm.
  - intros y Hy. split; [set_solver|]. intros E. apply Hn2. rewrite <- E. by apply list_elem_of_fmap_2.
  - intros y Hy. split; [set_solver|]. intros E. apply (Hd (key y)); [by apply list_elem_of_fmap_2|]. rewrite E. constructor.
Qed.

Section Invariant.
Context (items : list PlanItem) (Hcat : catalog_ok items).

Record grant_ok (now : Z) (g : PlanGrant) : Prop := {
  gk_starts : modern (pg_starts_at g); gk_started : pg_starts_at g <= now;
  gk_ends : match pg_ends_at g with Some e => isDefault g = false /\ pg_starts_at g < e <= maxTime | None => isDefault g = true end;
  gk_base : isActive g = true -> pg_base g = true;
  gk_default : isActive g = true -> isDefault g = true -> resetting items (pg_version g) }.

(** The key of an allowance names the grant, item and window it was created for. *)
Definition key_ok (gs : list PlanGrant) (r : Allowance) (a : PlanItem) : Prop :=
  exists ka, itemOf items (aw_key r).1.2 = Some ka /\ it_feature ka = aw_feature r /\ itemReset ka = itemReset a /\
    (aw_key r).2 = (if decide (it_reset a = None) then key_once else key_start (aw_start r)) /\
    ((aw_key r).1.1 = aw_grant r \/
     ((aw_key r).1.1 ∈ map pg_id gs /\ forall g, g ∈ gs -> pg_id g = (aw_key r).1.1 -> isActive g = false)).

Record row_ok (gs : list PlanGrant) (now : Z) (r : Allowance) (g : PlanGrant) (a : PlanItem) : Prop := {
  rk_grant : g ∈ gs; rk_id : pg_id g = aw_grant r;
  rk_item : itemOf items (aw_item r) = Some a; rk_feature : it_feature a = aw_feature r; rk_account : it_account a = true;
  rk_time : pg_starts_at g <= aw_start r <= now; rk_reversed : aw_reversed_at r = None;
  rk_expires : exists e, aw_expires r = Some e /\ aw_start r <= e /\
    (it_reset a <> None -> e <= cellEnd (pg_starts_at g) (itemReset a) (aw_start r)) /\
    (forall e', pg_ends_at g = Some e' -> e <= e');
  rk_end : pg_ends_at g = None -> aw_end r = Some (cellEnd (pg_starts_at g) (itemReset a) (aw_start r));
  rk_reset : pg_ends_at g = None -> it_reset a <> None;
  rk_version : pg_ends_at g <> None -> it_version a = pg_version g;
  rk_key : key_ok gs r a }.

(** Two allowances of a grant and feature. *)
Definition related (r q : Allowance) : Prop := aw_grant r = aw_grant q /\ aw_feature r = aw_feature q.

(** A live allowance belongs to the active grant, whose version has its feature. *)
Definition live_ok (gs : list PlanGrant) (now : Z) (r : Allowance) : Prop :=
  live now r = true -> exists g, g ∈ gs /\ pg_id g = aw_grant r /\ isActive g = true /\
    versionItem items (pg_version g) (aw_feature r) <> None.

(** An allowance of the active grant starts by the current window of its reset. *)
Definition behind (gs : list PlanGrant) (now : Z) (rows : list Allowance) (r : Allowance) : Prop :=
  forall g rs, g ∈ gs -> pg_id g = aw_grant r -> isActive g = true -> resetOf items r = Some rs ->
    aw_start r <= cellStart (pg_starts_at g) rs now \/
    exists q, q ∈ rows /\ related q r /\ resetOf items q <> Some rs /\ aw_start r <= expiresOf q.

Record account_ok (now : Z) (s : Account) : Prop := {
  ok_grant_ids : NoDup (map pg_id (ac_grants s));
  ok_one : forall g h, g ∈ ac_grants s -> h ∈ ac_grants s -> isActive g = true -> isActive h = true -> g = h;
  ok_grants : forall g, g ∈ ac_grants s -> grant_ok now g;
  ok_ids : NoDup (map aw_id (ac_allowances s)) /\ forall r, r ∈ ac_allowances s -> aw_id r < ac_nextId s;
  ok_rows : forall r, r ∈ ac_allowances s -> exists g a, row_ok (ac_grants s) now r g a;
  ok_live : forall r, r ∈ ac_allowances s -> live_ok (ac_grants s) now r;
  ok_apart : forall r q, r ∈ ac_allowances s -> q ∈ ac_allowances s -> aw_id r <> aw_id q -> related r q ->
    expiresOf r <= aw_start q \/ expiresOf q <= aw_start r;
  ok_starts : forall r q, r ∈ ac_allowances s -> q ∈ ac_allowances s -> related r q -> resetOf items r = resetOf items q ->
    aw_start r = aw_start q -> r = q;
  ok_behind : forall r, r ∈ ac_allowances s -> behind (ac_grants s) now (ac_allowances s) r }.

(** *** Lists of allowances *)

Lemma itemOf_Some id it : itemOf items id = Some it -> it ∈ items /\ it_id it = id.
Proof. unfold itemOf. intros H. apply find_some in H as [H1 H2]. split; [by apply list_elem_of_In|by apply Z.eqb_eq]. Qed.

Lemma itemOf_member it : it ∈ items -> itemOf items (it_id it) = Some it.
Proof.
  intros H. unfold itemOf. destruct (List.find _ items) as [b|] eqn:E.
  - apply find_some in E as [Hb Eb]. apply Z.eqb_eq in Eb. apply list_elem_of_In in Hb.
    by rewrite (NoDup_key_inj it_id items b it (ck_ids _ Hcat) Hb H Eb).
  - exfalso. apply list_elem_of_In in H. pose proof (find_none _ _ E it H) as Hn. cbn in Hn. lia.
Qed.

Lemma versionItem_Some v f it : versionItem items v f = Some it ->
  it ∈ items /\ it_version it = v /\ it_account it = true /\ it_feature it = f.
Proof.
  unfold versionItem. intros H. apply find_some in H as [H1 H2]. apply list_elem_of_In in H1. bool_to_prop. by split_and!.
Qed.

Lemma versionItem_member it : it ∈ items -> it_account it = true -> versionItem items (it_version it) (it_feature it) = Some it.
Proof.
  intros H Hacc. unfold versionItem. destruct (List.find _ items) as [b|] eqn:E.
  - apply find_some in E as [Hb Eb]. apply list_elem_of_In in Hb. bool_to_prop. f_equal. by apply (ck_one _ Hcat).
  - exfalso. apply list_elem_of_In in H. pose proof (find_none _ _ E it H) as Hn. cbn in Hn. rewrite Hacc, !Z.eqb_refl in Hn. done.
Qed.

Lemma elem_allowancesOn grant it same rows r : r ∈ allowancesOn items grant it same rows <->
  r ∈ rows /\ grant = Some (aw_grant r) /\ aw_feature r = it_feature it /\
  exists rs, resetOf items r = Some rs /\ (same = true <-> rs = itemReset it).
Proof.
  unfold allowancesOn, resetOf. rewrite list_elem_of_In, filter_In, <- list_elem_of_In, !andb_true_iff, bool_decide_eq_true, Z.eqb_eq.
  destruct (itemOf items (aw_item r)) as [a|]; cbn.
  - rewrite eqb_true_iff. pose proof (sameReset_spec a it) as Hs. split.
    + intros (Hr & (Hg & Hf) & E). split_and!; try done. exists (itemReset a). split; [done|]. rewrite <- Hs, E. by destruct same.
    + intros (Hr & Hg & Hf & rs & [= <-] & E). split_and!; try done. destruct (sameReset a it), same; try done; [by symmetry; apply E, Hs|by apply Hs, E].
  - split; [by intros (_ & _ & ?)|by intros (_ & _ & _ & rs & ? & _)].
Qed.

End Invariant.

(** *** Changes that keep an allowance where it is *)

Section Kept.
Context (items : list PlanItem) (Hcat : catalog_ok items) (now : Z).

(** An update that leaves an allowance its window: its item may change to another on the same
    reset, a live one may end now. *)
Record kept (r r' : Allowance) : Prop := {
  kp_id : aw_id r' = aw_id r; kp_feature : aw_feature r' = aw_feature r; kp_grant : aw_grant r' = aw_grant r;
  kp_key : aw_key r' = aw_key r; kp_start : aw_start r' = aw_start r; kp_end : aw_end r' = aw_end r;
  kp_reversed : aw_reversed_at r' = aw_reversed_at r;
  kp_item : aw_item r' = aw_item r \/ exists a a', itemOf items (aw_item r) = Some a /\ itemOf items (aw_item r') = Some a' /\
    it_feature a' = it_feature a /\ it_account a' = true /\ itemReset a' = itemReset a;
  kp_expires : aw_expires r' = aw_expires r \/ (live now r = true /\ aw_expires r' = Some now) }.

(** An update of a grant that keeps its identity and term. *)
Record kept_grant (g g' : PlanGrant) : Prop := {
  kg_id : pg_id g' = pg_id g; kg_origin : pg_origin g' = pg_origin g; kg_starts : pg_starts_at g' = pg_starts_at g;
  kg_ends : pg_ends_at g' = pg_ends_at g; kg_base : pg_base g' = pg_base g;
  kg_active : isActive g' = true -> isActive g = true;
  kg_version : pg_version g' = pg_version g \/ isDefault g = true /\ resetting items (pg_version g') }.

Lemma kept_refl r : kept r r.
Proof. split; auto. Qed.
Lemma kept_grant_refl g : kept_grant g g.
Proof. split; auto. Qed.

Lemma kept_live r r' : kept r r' -> live now r' = true -> live now r = true.
Proof. intros K. destruct (kp_expires _ _ K) as [E|[Hl E]]; unfold live in *; rewrite E; [done|]. intros H. blia. Qed.

Lemma kept_reset r r' : kept r r' -> resetOf items r' = resetOf items r.
Proof.
  intros K. unfold resetOf. destruct (kp_item _ _ K) as [->|(a & a' & -> & -> & _ & _ & E)]; [done|]. cbn. by rewrite E.
Qed.

Lemma live_expires r : live now r = true -> is_Some (aw_expires r) -> now < expiresOf r.
Proof. unfold live, expiresOf. intros Hl [e E]. rewrite E in *. cbn. blia. Qed.

Lemma kept_expiresOf r r' : kept r r' -> is_Some (aw_expires r) ->
  expiresOf r' = expiresOf r \/ now < expiresOf r /\ expiresOf r' = now.
Proof.
  intros K Hs. destruct (kp_expires _ _ K) as [E|[Hl E]]; unfold expiresOf; rewrite E; [by left|right].
  split; [by apply live_expires|done].
Qed.

Lemma kept_default g g' : kept_grant g g' -> isDefault g' = isDefault g.
Proof. intros K. unfold isDefault. by rewrite (kg_origin _ _ K). Qed.

Lemma kept_grant_ok g g' : kept_grant g g' -> grant_ok items now g -> grant_ok items now g'.
Proof.
  intros K [H1 H2 H3 H4 H5]. split.
  - by rewrite (kg_starts _ _ K).
  - by rewrite (kg_starts _ _ K).
  - by rewrite (kg_ends _ _ K), (kg_starts _ _ K), (kept_default _ _ K).
  - intros Ha. rewrite (kg_base _ _ K). by apply H4, (kg_active _ _ K).
  - rewrite (kept_default _ _ K). intros Ha%(kg_active _ _ K) Hd. destruct (kg_version _ _ K) as [->|[_ ?]]; auto.
Qed.

Section Account.
Context (k : PlanGrant -> PlanGrant) (h : Allowance -> Allowance) (s s' : Account).
Hypotheses (Hs : account_ok items now s)
  (Hk : forall g, g ∈ ac_grants s -> kept_grant g (k g)) (Hh : forall r, r ∈ ac_allowances s -> kept r (h r))
  (Hdef : forall r, r ∈ ac_allowances s -> aw_item (h r) <> aw_item r ->
     exists g, g ∈ ac_grants s /\ pg_id g = aw_grant r /\ isDefault g = true)
  (Hlive : forall r, r ∈ ac_allowances s -> live_ok items (map k (ac_grants s)) now (h r))
  (Eg : ac_grants s' = map k (ac_grants s)) (Er : ac_allowances s' = map h (ac_allowances s)) (En : ac_nextId s' = ac_nextId s).

Lemma kept_key_ok r a a' : r ∈ ac_allowances s -> itemReset a' = itemReset a -> key_ok items (ac_grants s) r a ->
  key_ok items (map k (ac_grants s)) (h r) a'.
Proof.
  intros Hr Ea (ka & H1 & H2 & H3 & H4 & H5). pose proof (Hh r Hr) as K. exists ka.
  rewrite (kp_key _ _ K), (kp_feature _ _ K), (kp_start _ _ K), (kp_grant _ _ K). split_and!; try done; [by rewrite Ea| |].
  - unfold itemReset in Ea. injection Ea as -> _. done.
  - destruct H5 as [?|[Hin Hno]]; [by left|right]. split.
    + apply list_elem_of_fmap in Hin as (g & -> & Hg). apply list_elem_of_fmap. exists (k g). split; [by rewrite (kg_id _ _ (Hk g Hg))|].
      by apply list_elem_of_fmap_2.
    + intros g' (g & -> & Hg)%list_elem_of_fmap E. destruct (isActive (k g)) eqn:Ha; [|done].
      apply (kg_active _ _ (Hk g Hg)) in Ha. rewrite (kg_id _ _ (Hk g Hg)) in E. by rewrite (Hno g Hg E) in Ha.
Qed.

Lemma kept_row_ok r g a : r ∈ ac_allowances s -> row_ok items (ac_grants s) now r g a -> exists a',
  itemReset a' = itemReset a /\ row_ok items (map k (ac_grants s)) now (h r) (k g) a'.
Proof.
  intros Hr [H1 H2 H3 H4 H5 H6 H7 H8 H9 H10 H11 H12]. pose proof (Hh r Hr) as K. pose proof (Hk g H1) as Kg.
  pose proof (gk_ends _ _ _ (ok_grants _ _ _ Hs g H1)) as Hends.
  assert (Ha : exists a', itemOf items (aw_item (h r)) = Some a' /\ it_feature a' = aw_feature r /\ it_account a' = true /\
    itemReset a' = itemReset a /\ (pg_ends_at g <> None -> a' = a)).
  { destruct (decide (aw_item (h r) = aw_item r)) as [Ei|Ei]; [exists a; rewrite Ei; by split_and!|].
    destruct (kp_item _ _ K) as [?|(b & a' & E1 & E2 & E3 & E4 & E5)]; [done|].
    rewrite H3 in E1. injection E1 as <-. exists a'. split_and!; try done; [congruence|]. intros Hn. exfalso.
    destruct (Hdef r Hr Ei) as (g' & Hg' & Eg' & Hd). rewrite <- H2 in Eg'.
    pose proof (NoDup_key_inj pg_id _ g' g (ok_grant_ids _ _ _ Hs) Hg' H1 Eg') as ->. destruct (pg_ends_at g); [|done]. destruct Hends; congruence. }
  destruct Ha as (a' & A1 & A2 & A3 & A4 & A5). exists a'. split; [done|].
  assert (Er' : it_reset a' = it_reset a) by (unfold itemReset in A4; congruence).
  split; rewrite ?(kp_grant _ _ K), ?(kp_feature _ _ K), ?(kp_start _ _ K), ?(kp_end _ _ K), ?(kp_reversed _ _ K),
    ?(kg_id _ _ Kg), ?(kg_starts _ _ Kg), ?(kg_ends _ _ Kg), ?A4, ?Er'; try done.
  - by apply list_elem_of_fmap_2.
  - destruct H8 as (e & Ee & Hse & Hc & Hen). destruct (kp_expires _ _ K) as [E|[Hl E]]; rewrite E.
    + by exists e.
    + exists now. unfold live in Hl. rewrite Ee in Hl. apply Z.ltb_lt in Hl. split; [done|]. split; [lia|]. split.
      * intros Hn. specialize (Hc Hn). lia.
      * intros e' He'. specialize (Hen e' He'). lia.
  - intros Hn. rewrite (A5 Hn), (H11 Hn). destruct (kg_version _ _ Kg) as [->|[Hd _]]; [done|].
    destruct (pg_ends_at g); [|done]. destruct Hends; congruence.
  - by apply (kept_key_ok r a).
Qed.

Lemma row_expires r : r ∈ ac_allowances s -> is_Some (aw_expires r) /\ aw_start r <= now /\ aw_start r <= expiresOf r /\ aw_reversed_at r = None.
Proof.
  intros Hr. destruct (ok_rows _ _ _ Hs r Hr) as (g & a & Hok). destruct (rk_expires _ _ _ _ _ _ Hok) as (e & Ee & He & _).
  pose proof (rk_time _ _ _ _ _ _ Hok). unfold expiresOf. rewrite Ee. split; [by eexists|]. split; [lia|]. split; [done|]. apply (rk_reversed _ _ _ _ _ _ Hok).
Qed.

Lemma kept_account_ok : account_ok items now s'.
Proof.
  assert (Hid : map pg_id (map k (ac_grants s)) = map pg_id (ac_grants s)).
  { rewrite map_map. apply List.map_ext_in. intros g Hg%list_elem_of_In. by rewrite (kg_id _ _ (Hk g Hg)). }
  split; rewrite ?Eg, ?Er, ?En.
  - rewrite Hid. apply (ok_grant_ids _ _ _ Hs).
  - intros g' h' (g & -> & Hg)%list_elem_of_fmap (g2 & -> & Hg2)%list_elem_of_fmap Ha1 Ha2.
    f_equal. apply (ok_one _ _ _ Hs); eauto using kg_active.
  - intros g' (g & -> & Hg)%list_elem_of_fmap. apply (kept_grant_ok g); [auto|]. by apply (ok_grants _ _ _ Hs).
  - destruct (ok_ids _ _ _ Hs) as [Hnd Hlt]. split.
    + rewrite map_map. rewrite (List.map_ext_in _ aw_id); [done|]. intros r Hr%list_elem_of_In. by rewrite (kp_id _ _ (Hh r Hr)).
    + intros r' (r & -> & Hr)%list_elem_of_fmap. rewrite (kp_id _ _ (Hh r Hr)). auto.
  - intros r' (r & -> & Hr)%list_elem_of_fmap. destruct (ok_rows _ _ _ Hs r Hr) as (g & a & Hok).
    destruct (kept_row_ok r g a Hr Hok) as (a' & _ & ?). eauto.
  - intros r' (r & -> & Hr)%list_elem_of_fmap. auto.
  - intros r' q' (r & -> & Hr)%list_elem_of_fmap (q & -> & Hq)%list_elem_of_fmap. pose proof (Hh r Hr) as K. pose proof (Hh q Hq) as K'.
    unfold related. rewrite (kp_id _ _ K), (kp_id _ _ K'), (kp_grant _ _ K), (kp_grant _ _ K'), (kp_feature _ _ K), (kp_feature _ _ K'),
      (kp_start _ _ K), (kp_start _ _ K'). intros Hne Hrel.
    destruct (row_expires r Hr) as (Hr1 & Hr2 & _). destruct (row_expires q Hq) as (Hq1 & Hq2 & _).
    pose proof (kept_expiresOf _ _ K Hr1). pose proof (kept_expiresOf _ _ K' Hq1). pose proof (ok_apart _ _ _ Hs r q Hr Hq Hne Hrel). lia.
  - intros r' q' (r & -> & Hr)%list_elem_of_fmap (q & -> & Hq)%list_elem_of_fmap. pose proof (Hh r Hr) as K. pose proof (Hh q Hq) as K'.
    unfold related. rewrite (kept_reset _ _ K), (kept_reset _ _ K'), (kp_grant _ _ K), (kp_grant _ _ K'), (kp_feature _ _ K), (kp_feature _ _ K'),
      (kp_start _ _ K), (kp_start _ _ K'). intros Hrel Hres Hst. f_equal. by apply (ok_starts _ _ _ Hs).
  - intros r' (r & -> & Hr)%list_elem_of_fmap g' rs (g & -> & Hg)%list_elem_of_fmap. pose proof (Hh r Hr) as K. pose proof (Hk g Hg) as Kg.
    rewrite (kept_reset _ _ K), (kp_grant _ _ K), (kp_start _ _ K), (kg_id _ _ Kg), (kg_starts _ _ Kg). intros Eid Ha Hres.
    destruct (ok_behind _ _ _ Hs r Hr g rs Hg Eid (kg_active _ _ Kg Ha) Hres) as [?|(q & Hq & [Hq1 Hq2] & Hq3 & Hq4)]; [by left|right].
    exists (h q). pose proof (Hh q Hq) as K'. split; [by apply list_elem_of_fmap_2|]. unfold related.
    rewrite (kept_reset _ _ K'), (kp_grant _ _ K), (kp_grant _ _ K'), (kp_feature _ _ K), (kp_feature _ _ K').
    destruct (row_expires r Hr) as (_ & Hr2 & _). destruct (row_expires q Hq) as (Hq5 & _).
    pose proof (kept_expiresOf _ _ K' Hq5). split_and!; try done. lia.
Qed.
End Account.
End Kept.

Section Account.
Context (items : list PlanItem) (Hcat : catalog_ok items).

(** *** Time and new grants *)

Lemma row_reset_ok r rs : resetOf items r = Some rs -> reset_ok rs.
Proof.
  unfold resetOf. destruct (itemOf items (aw_item r)) as [a|] eqn:E; [|done]. cbn. intros [= <-].
  apply (ck_reset _ Hcat). by apply itemOf_Some in E as [? _].
Qed.

Lemma time_account_ok now now' s : account_ok items now s -> modern now -> modern now' -> now <= now' -> account_ok items now' s.
Proof.
  intros Hs Hn Hn' Hle. destruct Hs as [H1 H2 H3 H4 H5 H6 H7 H8 H9]. split; try done.
  - intros g Hg. destruct (H3 g Hg). split; try done. lia.
  - intros r Hr. destruct (H5 r Hr) as (g & a & [? ? ? ? ? Ht ? ? ? ? ? ?]). exists g, a. split; try done. lia.
  - intros r Hr Hl. apply (H6 r Hr). unfold live in *. destruct (aw_expires r); [|done]. blia.
  - intros r Hr g rs Hg Eid Ha Hres. destruct (H9 r Hr g rs Hg Eid Ha Hres) as [?|?]; [left|by right].
    destruct (H3 g Hg). pose proof (cellStart_mono (pg_starts_at g) rs gk_starts0 (row_reset_ok r rs Hres) now now' Hn Hn' ltac:(lia) Hle). lia.
Qed.

Lemma grant_added_ok now s g0 : account_ok items now s -> pg_id g0 ∉ map pg_id (ac_grants s) ->
  (forall g, g ∈ ac_grants s -> isActive g = false) -> grant_ok items now g0 ->
  account_ok items now (set_grants s (ac_grants s ++ [g0])).
Proof.
  intros Hs Hid Hno Hg0. destruct Hs as [H1 H2 H3 H4 H5 H6 H7 H8 H9]. split; cbn; try done.
  - rewrite map_app. apply NoDup_app. split_and!; [done| |apply NoDup_singleton]. intros x Hx ->%list_elem_of_singleton. done.
  - intros g h [Hg|Hg%list_elem_of_singleton]%elem_of_app [Hh|Hh%list_elem_of_singleton]%elem_of_app Ha Hb; [auto| | |congruence];
      [by rewrite Hno in Ha|by rewrite Hno in Hb].
  - intros g [Hg|Hg%list_elem_of_singleton]%elem_of_app; [auto|by subst].
  - intros r Hr. destruct (H5 r Hr) as (g & a & [? ? ? ? ? ? ? ? ? ? ? Hk]). exists g, a. split; try done; [set_solver|].
    destruct Hk as (ka & ? & ? & ? & ? & [?|[Hin Hna] ]); exists ka; split_and!; try done; [by left|right].
    split; [rewrite map_app; set_solver|]. intros g' [Hg'|Hg'%list_elem_of_singleton]%elem_of_app E; [auto|]. subst g'. by rewrite E in Hid.
  - intros r Hr Hl. destruct (H6 r Hr Hl) as (g & Hg & ? & Ha & _). by rewrite Hno in Ha.
  - intros r Hr g rs [Hg|Hg%list_elem_of_singleton]%elem_of_app Eid Ha Hres; [by rewrite Hno in Ha|subst g0].
    destruct (H5 r Hr) as (g' & a & Hok). exfalso. apply Hid. rewrite Eid, <- (rk_id _ _ _ _ _ _ Hok).
    apply list_elem_of_fmap_2, (rk_grant _ _ _ _ _ _ Hok).
Qed.

(** *** The window of the active grant *)

Section Window.
Context (now : Z) (s : Account) (g : PlanGrant) (it : PlanItem).
Hypotheses (Hn : modern now) (Hs : account_ok items now s) (Hg : g ∈ ac_grants s) (Hact : isActive g = true)
  (Hit : it ∈ items).
Local Abbreviation rows := (ac_allowances s).
Local Abbreviation W := (windowStart items rows now (grantSource g) it).
Local Abbreviation created := (createdIn items rows (grantSource g) it W).

Lemma grant_started : modern (pg_starts_at g) /\ pg_starts_at g <= now.
Proof. destruct (ok_grants _ _ _ Hs g Hg). by split. Qed.

Lemma window_cell : cellStart (pg_starts_at g) (itemReset it) now <= W.
Proof. unfold windowStart. cbn. destruct (otherResetEndsAt _); lia. Qed.

(** Allowances of another reset have ended by the window's start. *)
Lemma window_others q : q ∈ rows -> aw_grant q = pg_id g -> aw_feature q = it_feature it ->
  resetOf items q <> Some (itemReset it) -> expiresOf q <= W.
Proof.
  intros Hq Eg Ef Hne. destruct (row_expires items now s Hs q Hq) as (He & _).
  destruct (ok_rows _ _ _ Hs q Hq) as (g' & a & Hok).
  assert (Hin : q ∈ allowancesOn items (so_grant (grantSource g)) it false rows).
  { apply elem_allowancesOn. split_and!; try done; [cbn; by rewrite Eg|]. exists (itemReset a).
    unfold resetOf in *. rewrite (rk_item _ _ _ _ _ _ Hok) in *. cbn in *. split; [done|]. split; [done|]. intros E. by rewrite E in Hne. }
  pose proof (otherResetEndsAt_spec (allowancesOn items (so_grant (grantSource g)) it false rows)) as Hsp. unfold windowStart.
  destruct (otherResetEndsAt _) as [o|].
  - destruct Hsp as [_ Hall]; [intros r [Hr _]%elem_allowancesOn; by apply (row_expires items now s Hs)|]. specialize (Hall q Hin). lia.
  - rewrite Hsp in Hin; [by apply elem_of_nil in Hin|]. intros r [Hr _]%elem_allowancesOn. by apply (row_expires items now s Hs).
Qed.

(** The window's start is its cell's, or where such an allowance ends. *)
Lemma window_start_cases : W = cellStart (pg_starts_at g) (itemReset it) now \/
  exists q, q ∈ rows /\ aw_grant q = pg_id g /\ aw_feature q = it_feature it /\ resetOf items q <> Some (itemReset it) /\ expiresOf q = W.
Proof.
  unfold windowStart. pose proof (otherResetEndsAt_spec (allowancesOn items (so_grant (grantSource g)) it false rows)) as Hsp.
  destruct (otherResetEndsAt _) as [o|]; [|by left].
  destruct Hsp as [(q & Hq & Ee) _]; [intros r [Hr _]%elem_allowancesOn; by apply (row_expires items now s Hs)|].
  destruct (Z.le_gt_cases o (cellStart (pg_starts_at g) (itemReset it) now)); [left; cbn; lia|right].
  apply elem_allowancesOn in Hq as (Hq & Eg & Ef & rs & Er & Hne). cbn in Eg. injection Eg as Eg. exists q. split_and!; try done.
  - rewrite Er. intros [= ->]. by destruct Hne as [_ Hne]; discriminate Hne.
  - cbn. lia.
Qed.

(** Allowances of the same reset start by it. *)
Lemma window_same r : r ∈ rows -> aw_grant r = pg_id g -> aw_feature r = it_feature it ->
  resetOf items r = Some (itemReset it) -> aw_start r <= W.
Proof.
  intros Hr Eg Ef Er. pose proof window_cell.
  destruct (ok_behind _ _ _ Hs r Hr g (itemReset it) Hg (eq_sym Eg) Hact Er) as [?|(q & Hq & [Hq1 Hq2] & Hq3 & Hq4)]; [lia|].
  pose proof (window_others q Hq ltac:(congruence) ltac:(congruence) Hq3). lia.
Qed.

(** What was created before the window has ended by its start. *)
Lemma window_earlier r : r ∈ rows -> aw_grant r = pg_id g -> aw_feature r = it_feature it ->
  resetOf items r = Some (itemReset it) -> aw_start r < W -> expiresOf r <= W.
Proof.
  intros Hr Eg Ef Er Hlt. destruct grant_started as [Hms Hst]. destruct (ok_rows _ _ _ Hs r Hr) as (g' & a & Hok).
  pose proof (NoDup_key_inj pg_id _ g' g (ok_grant_ids _ _ _ Hs) (rk_grant _ _ _ _ _ _ Hok) Hg ltac:(rewrite (rk_id _ _ _ _ _ _ Hok); congruence)) as ->.
  assert (Ea : itemReset a = itemReset it) by (unfold resetOf in Er; rewrite (rk_item _ _ _ _ _ _ Hok) in Er; cbn in Er; congruence).
  pose proof (rk_time _ _ _ _ _ _ Hok) as Ht. destruct (rk_expires _ _ _ _ _ _ Hok) as (e & Ee & Hse & Hce & _).
  unfold expiresOf. rewrite Ee. cbn.
  assert (Hmr : modern (aw_start r)) by (unfold modern in *; lia).
  pose proof (ck_reset _ Hcat it Hit) as Hrs.
  destruct (Z.le_gt_cases (cellStart (pg_starts_at g) (itemReset it) now) (aw_start r)) as [Hin|Hout].
  - destruct window_start_cases as [?|(q & Hq & Hq1 & Hq2 & Hq3 & Hq4)]; [lia|].
    assert (Hid : aw_id r <> aw_id q).
    { intros E. pose proof (NoDup_key_inj aw_id _ r q (proj1 (ok_ids _ _ _ Hs)) Hr Hq E) as ->. done. }
    destruct (row_expires items now s Hs q Hq) as (_ & _ & Hqe & _).
    destruct (ok_apart _ _ _ Hs r q Hr Hq Hid ltac:(split; congruence)) as [Hap|Hap]; unfold expiresOf in *; rewrite ?Ee in *; cbn in *; lia.
  - destruct (cells_ordered (pg_starts_at g) (itemReset it) Hms Hrs (aw_start r) now Hmr Hn ltac:(lia) ltac:(lia)) as [[Hc _]|[Hne Hc]].
    + pose proof (cellStart_bounds (pg_starts_at g) (itemReset it) Hms Hrs (aw_start r) Hmr ltac:(lia)). lia.
    + rewrite <- Ea in Hne, Hc, Hout. cbn in Hne. specialize (Hce Hne). pose proof window_cell. rewrite <- Ea in *. lia.
Qed.

(** The allowance of the same reset that starts with the window is the window's own. *)
Lemma window_created r : r ∈ rows -> aw_grant r = pg_id g -> aw_feature r = it_feature it ->
  resetOf items r = Some (itemReset it) -> aw_start r = W -> created = Some r.
Proof.
  intros Hr Eg Ef Er Ew.
  unfold createdIn. pose proof (latestAllowance_spec (allowancesOn items (so_allocations (grantSource g)) it true rows)) as Hl.
  assert (Hin : r ∈ allowancesOn items (so_allocations (grantSource g)) it true rows).
  { apply elem_allowancesOn. split_and!; try done; [cbn; by rewrite Eg|]. by exists (itemReset it). }
  destruct (latestAllowance _) as [l|]; [|rewrite Hl in Hin; by apply elem_of_nil in Hin].
  destruct Hl as [Hl Hmax]. specialize (Hmax r Hin). apply elem_allowancesOn in Hl as (Hl & El & Elf & rs & Elr & Hrs).
  cbn in El. injection El as El. assert (rs = itemReset it) as -> by by apply Hrs.
  pose proof (window_same l Hl (eq_sym El) Elf Elr). assert (Els : aw_start l = W) by lia.
  rewrite decide_True by done. f_equal. apply (ok_starts _ _ _ Hs); try done; [split; congruence|congruence|congruence].
Qed.

(** Every allowance of the grant and feature is the window's own, or has ended by its start. *)
Lemma window_settled r : r ∈ rows -> aw_grant r = pg_id g -> aw_feature r = it_feature it ->
  created = Some r \/ expiresOf r <= W.
Proof.
  intros Hr Eg Ef. destruct (decide (resetOf items r = Some (itemReset it))) as [Er|Er]; [|right; by apply window_others].
  destruct (decide (aw_start r = W)) as [Ew|]; [left; by apply window_created|right; apply window_earlier; try done; pose proof (window_same r Hr Eg Ef Er); lia].
Qed.

Lemma created_spec l : created = Some l -> l ∈ rows /\ aw_grant l = pg_id g /\ aw_feature l = it_feature it /\
  resetOf items l = Some (itemReset it) /\ aw_start l = W.
Proof.
  unfold createdIn. pose proof (latestAllowance_spec (allowancesOn items (so_allocations (grantSource g)) it true rows)) as Hl.
  destruct (latestAllowance _) as [x|]; [|done]. destruct (decide _); [|done]. intros [= ->]. destruct Hl as [Hl _].
  apply elem_allowancesOn in Hl as (Hl & El & Elf & rs & Elr & Hrs). cbn in El. injection El as El.
  assert (rs = itemReset it) as -> by by apply Hrs. by split_and!.
Qed.

(** The allowance of the reset that no other outlasts is the window's own. *)
Lemma window_is l : l ∈ rows -> aw_grant l = pg_id g -> aw_feature l = it_feature it ->
  resetOf items l = Some (itemReset it) -> cellStart (pg_starts_at g) (itemReset it) now <= aw_start l ->
  (forall q, q ∈ rows -> aw_grant q = pg_id g -> aw_feature q = it_feature it -> resetOf items q <> Some (itemReset it) ->
    expiresOf q <= aw_start l) -> W = aw_start l /\ created = Some l.
Proof.
  intros Hl Eg Ef Er Hc Hq. pose proof (window_same l Hl Eg Ef Er).
  assert (E : W = aw_start l).
  { destruct window_start_cases as [E|(q & Hq' & H1 & H2 & H3 & H4)]; [lia|]. specialize (Hq q Hq' H1 H2 H3). lia. }
  split; [done|by apply window_created].
Qed.

(** A window that is created and live is nothing a read adds or a write has to open. *)
Lemma window_pending w endAt expires : w_grantId w = Some (pg_id g) -> w_start w = Some W -> w_allocation w = created -> W <= now ->
  window_of items rows now (grantSource g) it w endAt expires ->
  pendingOf now w = (if missingWindow now w then
    [ {| pn_featureId := w_featureId w; pn_use := match created with Some a => aw_use a | None => untouched (w_quantity w) end;
         pn_expiresAt := Some <$> expires; pn_reopens := if w_resumes w then aw_id <$> created else None |} ] else []).
Proof.
  intros Eg Ew Ec HW Hw. unfold pendingOf, missingWindow. rewrite Eg, Ew, Ec, (wo_expires _ _ _ _ _ _ _ _ Hw). cbn.
  replace (now <? W) with false by (symmetry; by apply Z.ltb_ge). replace (W <=? now) with true by (symmetry; by apply Z.leb_le).
  destruct expires as [x|]; cbn.
  - rewrite Z.leb_antisym. destruct created as [l|], (w_resumes w), (now <? x); done.
  - destruct created as [l|], (w_resumes w); done.
Qed.
End Window.
(** *** Reading and opening the window of a feature *)

#[local] Arguments toWindow : simpl never.

Lemma sourceItems_one so f : sourceItems items (Some f) [so] =
  match versionItem items (so_version so) f with Some it => [(so, it)] | None => [] end.
Proof.
  unfold sourceItems, versionItem. cbn. rewrite app_nil_r, find_filter.
  pose proof (ck_ids _ Hcat) as Hnd. destruct (filter_unique (fun it => (it_version it =? so_version so) && it_account it && (it_feature it =? f)) items)
    as [->|(it & _ & _ & ->)]; [by eapply NoDup_fmap_1| |done|done].
  intros a b Ha Hb Ea Eb. bool_to_prop. apply (ck_one _ Hcat); congruence.
Qed.

(** What the windows of one feature are: none, or the one of the source whose version has it. *)
Lemma readPlanGrantWindows_one pd now s f so : windowSources pd now (ac_grants s) = option_list so ->
  readPlanGrantWindows items (Some f) pd now s =
    match so ≫= (fun so => it ← versionItem items (so_version so) f; Some (so, it)) with
    | None => Ok []
    | Some x => w ← toWindow items (ac_allowances s) now x; Ok [w]
    end.
Proof.
  intros E. unfold readPlanGrantWindows. rewrite E. destruct so as [so|]; [|done]. change (option_list (Some so)) with [so]. rewrite sourceItems_one. cbn.
  destruct (versionItem items (so_version so) f) as [it|]; [|done]. cbn. by destruct (toWindow items (ac_allowances s) now (so, it)).
Qed.

Lemma openSources now s : account_ok items now s ->
  windowSources None now (ac_grants s) = [] /\ (forall g, g ∈ ac_grants s -> isActive g && running now g = false) \/
  exists g, g ∈ ac_grants s /\ isActive g = true /\ running now g = true /\ windowSources None now (ac_grants s) = [grantSource g].
Proof.
  intros Hs. unfold windowSources. rewrite app_nil_r.
  pose proof (ok_grant_ids _ _ _ Hs) as Hnd. destruct (filter_unique (fun g => isActive g && running now g && true) (ac_grants s))
    as [E|(g & Hg & Eg & ->)]; [by eapply NoDup_fmap_1| | |].
  - intros a b Ha Hb Ea Eb. bool_to_prop. by apply (ok_one _ _ _ Hs).
  - left. rewrite E. split; [done|]. intros g Hg. destruct (isActive g && running now g) eqn:Eg; [|done].
    assert (Hin : g ∈ List.filter (fun g => isActive g && running now g && true) (ac_grants s)).
    { apply list_elem_of_In, filter_In. rewrite Eg. split; [by apply list_elem_of_In|done]. }
    rewrite E in Hin. by apply elem_of_nil in Hin.
  - right. exists g. bool_to_prop. by split_and!.
Qed.

Lemma grant_source_ok now s g : modern now -> account_ok items now s -> g ∈ ac_grants s -> running now g = true ->
  source_ok now (grantSource g).
Proof.
  intros Hn Hs Hg Hr. destruct (ok_grants _ _ _ Hs g Hg) as [H1 H2 H3 _ _]. split; cbn; [done|done|].
  unfold running in Hr. destruct (pg_ends_at g); [|done]. bool_to_prop. lia.
Qed.

(** Where a write finds a feature: no window, or the one of the running grant. *)
Inductive found (now : Z) (s : Account) (f : Z) : Prop :=
  | found_none : readPlanGrantWindows items (Some f) None now s = Ok [] ->
      (forall g, g ∈ ac_grants s -> isActive g = true -> running now g = true -> versionItem items (pg_version g) f = None) -> found now s f
  | found_window g it w : g ∈ ac_grants s -> isActive g = true -> running now g = true -> versionItem items (pg_version g) f = Some it ->
      toWindow items (ac_allowances s) now (grantSource g, it) = Ok w ->
      readPlanGrantWindows items (Some f) None now s = Ok [w] -> found now s f.

Lemma find_window now s f : modern now -> account_ok items now s -> found now s f.
Proof.
  intros Hn Hs. destruct (openSources now s Hs) as [[E Hno]|(g & Hg & Ha & Hr & E)].
  - apply found_none; [by rewrite (readPlanGrantWindows_one None now s f None E)|]. intros g Hg Ha Hr. specialize (Hno g Hg). by rewrite Ha, Hr in Hno.
  - pose proof (readPlanGrantWindows_one None now s f (Some (grantSource g)) E) as Hw. cbn in Hw.
    destruct (versionItem items (pg_version g) f) as [it|] eqn:Eit; cbn in Hw.
    + apply versionItem_Some in Eit as Hit. destruct Hit as (Hit & _).
      destruct (toWindow_spec items (ac_allowances s) now (grantSource g) it Hn (ck_reset _ Hcat it Hit) (ck_expiry _ Hcat it Hit)
        (grant_source_ok now s g Hn Hs Hg Hr)) as (w & Ew & _). rewrite Ew in Hw. by eapply found_window.
    + apply found_none; [done|]. intros g' Hg' Ha' Hr'. by rewrite (ok_one _ _ _ Hs g' g Hg' Hg Ha' Ha).
Qed.

Section Opening.
Context (now : Z) (s : Account) (g : PlanGrant) (it : PlanItem) (w : PlanGrantWindow) (endAt expires : option Z).
Hypotheses (Hn : modern now) (Hs : account_ok items now s) (Hg : g ∈ ac_grants s) (Hact : isActive g = true)
  (Hrun : running now g = true) (Hv : versionItem items (pg_version g) (it_feature it) = Some it)
  (HW : windowStart items (ac_allowances s) now (grantSource g) it <= now)
  (Hw : window_of items (ac_allowances s) now (grantSource g) it w endAt expires)
  (Hlater : forall x, expires = Some x -> now < x).
Local Abbreviation rows := (ac_allowances s).
Local Abbreviation W := (windowStart items rows now (grantSource g) it).
Local Abbreviation created := (createdIn items rows (grantSource g) it W).

Lemma opening_item : it ∈ items /\ it_version it = pg_version g /\ it_account it = true.
Proof. apply versionItem_Some in Hv as (? & ? & ? & _). by split_and!. Qed.

(** An item that does not reset is of a grant with an end, which holds no other item of the feature. *)
Lemma opening_bounded : it_reset it <> None \/ pg_ends_at g <> None.
Proof.
  destruct (ok_grants _ _ _ Hs g Hg) as [_ _ He _ Hd]. destruct (pg_ends_at g); [by right|left].
  destruct opening_item as (? & ? & ?). by apply (Hd Hact He).
Qed.

Lemma opening_expires : exists x, expires = Some x /\ W < x /\ now < x /\
  (it_reset it <> None -> x <= cellEnd (pg_starts_at g) (itemReset it) W) /\
  (forall e, pg_ends_at g = Some e -> x <= e).
Proof.
  destruct (grant_started now s g Hs Hg) as [Hms Hst]. destruct opening_item as (Hit & _).
  pose proof (wo_bounded _ _ _ _ _ _ _ _ Hw opening_bounded) as Hb. destruct endAt as [e|] eqn:Ee; [|done].
  pose proof (wo_least _ _ _ _ _ _ _ _ Hw) as Hl. cbn in Hl.
  assert (Hx : exists x, expires = Some x /\ x <= e) by (destruct (expiresAtSql _ it); cbn in Hl; eexists; split; [done| |done|]; lia).
  destruct Hx as (x & -> & Hxe). exists x. split; [done|]. split; [by apply (wo_later _ _ _ _ _ _ _ _ Hw)|]. split; [by apply Hlater|].
  destruct (wo_cell _ _ _ _ _ _ _ _ Hw e eq_refl) as (_ & Hc & Hends). split; [|intros e' He'; specialize (Hends e' He'); lia].
  intros Hr. specialize (Hc Hr). pose proof (window_cell now s g it).
  assert (HmW : modern W).
  { pose proof (cellStart_bounds (pg_starts_at g) (itemReset it) Hms (ck_reset _ Hcat it Hit) now Hn Hst). unfold modern in *. lia. }
  destruct (cell_inside (pg_starts_at g) (itemReset it) Hms (ck_reset _ Hcat it Hit) W now) as [_ ->]; try done; [|cbn in *; lia].
  pose proof (cellStart_bounds (pg_starts_at g) (itemReset it) Hms (ck_reset _ Hcat it Hit) now Hn Hst). lia.
Qed.

Lemma opening_anchor : modern (pg_starts_at g) /\ pg_starts_at g <= W /\ modern W /\
  (pg_ends_at g = None -> endAt = Some (cellEnd (pg_starts_at g) (itemReset it) W)).
Proof.
  destruct (grant_started now s g Hs Hg) as [Hms Hst]. destruct opening_item as (Hit & _). pose proof (window_cell now s g it).
  pose proof (cellStart_bounds (pg_starts_at g) (itemReset it) Hms (ck_reset _ Hcat it Hit) now Hn Hst).
  assert (HmW : modern W) by (unfold modern in *; lia). split_and!; try done; [lia|]. intros He.
  destruct (cell_inside (pg_starts_at g) (itemReset it) Hms (ck_reset _ Hcat it Hit) W now) as [_ ->]; try done; [lia|].
  apply (wo_full _ _ _ _ _ _ _ _ Hw); [done|]. destruct opening_bounded; [done|]. by rewrite He in *.
Qed.

(** An allowance of the grant under the window's item, starting with the window, was created for it. *)
Lemma opening_created r : r ∈ rows -> aw_grant r = pg_id g -> aw_feature r = it_feature it -> resetOf items r = Some (itemReset it) ->
  it_reset it = None \/ aw_start r = W -> created = Some r.
Proof.
  intros Hr Eg Ef Er Hor. destruct opening_item as (Hit & Hiv & Hia). apply window_created; try done.
  destruct Hor as [Hnone|?]; [|done].
  pose proof (window_same now s g it Hs Hg Hact r Hr Eg Ef Er) as Hle.
  destruct (ok_rows _ _ _ Hs r Hr) as (g' & a & Hok).
  pose proof (NoDup_key_inj pg_id _ g' g (ok_grant_ids _ _ _ Hs) (rk_grant _ _ _ _ _ _ Hok) Hg ltac:(rewrite (rk_id _ _ _ _ _ _ Hok); congruence)) as ->.
  pose proof (rk_time _ _ _ _ _ _ Hok). assert (Ec : cellStart (pg_starts_at g) (itemReset it) now = pg_starts_at g).
  { unfold cellStart, cellOf, itemReset. by rewrite Hnone. }
  destruct (window_start_cases now s g it Hs) as [E|(q & Hq & E1 & E2 & E3 & _)]; [lia|]. exfalso. apply E3.
  destruct (ok_rows _ _ _ Hs q Hq) as (g' & b & Hokq).
  pose proof (NoDup_key_inj pg_id _ g' g (ok_grant_ids _ _ _ Hs) (rk_grant _ _ _ _ _ _ Hokq) Hg ltac:(rewrite (rk_id _ _ _ _ _ _ Hokq); congruence)) as ->.
  destruct opening_bounded as [?|He]; [done|]. pose proof (rk_version _ _ _ _ _ _ Hokq He) as Evb.
  unfold resetOf. rewrite (rk_item _ _ _ _ _ _ Hokq). cbn. do 2 f_equal.
  apply (ck_one _ Hcat); [|done|apply (rk_account _ _ _ _ _ _ Hokq)|done|congruence|rewrite (rk_feature _ _ _ _ _ _ Hokq); congruence].
  pose proof (rk_item _ _ _ _ _ _ Hokq) as Hb. by apply itemOf_Some in Hb as [? _].
Qed.

(** The row a write inserts for the window. *)
Definition openedRow : Allowance :=
  {| aw_id := ac_nextId s; aw_feature := it_feature it; aw_item := it_id it; aw_grant := pg_id g;
     aw_key := (pg_id g, it_id it, if decide (it_reset it = None) then key_once else key_start W);
     aw_use := untouched (it_quantity it); aw_start := W; aw_end := endAt; aw_expires := expires; aw_reversed_at := None |}.
Definition inserted : Account :=
  {| ac_grants := ac_grants s; ac_allowances := rows ++ [openedRow]; ac_nextId := ac_nextId s + 1 |}.

(** The rows after a write reopened the window's allowance [l]. *)
Definition reopenedRow (l r : Allowance) : Allowance :=
  if aw_id r =? aw_id l then rehold (aw_grant r) (it_id it) expires r else r.
Definition reopened (l : Allowance) : Account := set_allowances s (map (reopenedRow l) rows).

Lemma opening_reset : itemOf items (it_id it) = Some it /\ resetOf items openedRow = Some (itemReset it).
Proof. destruct opening_item as (Hit & _). unfold resetOf. cbn. by rewrite (itemOf_member items Hcat it Hit). Qed.

Lemma insert_row_ok : row_ok items (ac_grants s) now openedRow g it.
Proof.
  destruct opening_reset as [Hi _]. destruct opening_item as (Hit & Hiv & Hia).
  destruct opening_anchor as (Hms & Hst & HmW & Hend). destruct opening_expires as (x & Ex & HxW & Hxn & Hxc & Hxe).
  split; cbn; try done.
  - exists x. split_and!; try done. lia.
  - intros He. destruct opening_bounded; [done|]. by rewrite He in *.
  - exists it. cbn. split_and!; try done. by left.
Qed.

Lemma insert_account_ok : created = None -> account_ok items now inserted.
Proof.
  intros Hc. destruct opening_item as (Hit & Hiv & Hia). destruct opening_reset as [Hi Hreset].
  destruct opening_expires as (x & Ex & HxW & Hxn & _ & _). pose proof insert_row_ok as Hrow.
  assert (Hset : forall r, r ∈ rows -> aw_grant r = pg_id g -> aw_feature r = it_feature it -> expiresOf r <= W).
  { intros r Hr Eg Ef. destruct (window_settled now s g it Hn Hs Hg Hact Hit r Hr Eg Ef) as [E|?]; [congruence|done]. }
  destruct Hs as [H1 H2 H3 [H4 H4'] H5 H6 H7 H8 H9]. split; cbn; try done.
  - split.
    + rewrite map_app. apply NoDup_app. split_and!; [done| |apply NoDup_singleton].
      intros i (r & -> & Hr)%list_elem_of_fmap E%list_elem_of_singleton. cbn in E. specialize (H4' r Hr). lia.
    + intros r [Hr|Hr%list_elem_of_singleton]%elem_of_app; [specialize (H4' r Hr); lia|subst; cbn; lia].
  - intros r [Hr|Hr%list_elem_of_singleton]%elem_of_app; [auto|subst; eauto].
  - intros r [Hr|Hr%list_elem_of_singleton]%elem_of_app; [auto|subst]. intros _. exists g. split_and!; try done. cbn. by rewrite Hv.
  - intros r q [Hr|Hr%list_elem_of_singleton]%elem_of_app [Hq|Hq%list_elem_of_singleton]%elem_of_app Hne [Eg Ef]; [by apply H7| | |subst; done]; subst; cbn in *.
    + left. by apply Hset.
    + right. by apply Hset.
  - intros r q [Hr|Hr%list_elem_of_singleton]%elem_of_app [Hq|Hq%list_elem_of_singleton]%elem_of_app [Eg Ef] Er Est; [by apply H8| | |by subst]; exfalso; subst; cbn in *.
    + rewrite opening_created with (r := r) in Hc; try done; [congruence|by right].
    + rewrite opening_created with (r := q) in Hc; try done; [congruence|by right].
  - intros r Hr g' rs Hg' Eid Ha Er. apply elem_of_app in Hr as [Hr|Hr%list_elem_of_singleton].
    + destruct (H9 r Hr g' rs Hg' Eid Ha Er) as [?|(q & Hq & ?)]; [by left|right]. exists q. split; [set_solver|done].
    + subst r. cbn in Eid. rewrite (ok_one _ _ _ Hs g' g Hg' Hg Ha Hact) in *. rewrite Hreset in Er. injection Er as <-. cbn [aw_start openedRow].
      destruct (window_start_cases now s g it Hs) as [->|(q & Hq & E1 & E2 & E3 & E4)]; [left; lia|right].
      exists q. split; [set_solver|]. split; [done|]. split; [done|lia].
Qed.

Lemma reopenedRow_fields l r : aw_id (reopenedRow l r) = aw_id r /\ aw_grant (reopenedRow l r) = aw_grant r /\
  aw_feature (reopenedRow l r) = aw_feature r /\ aw_start (reopenedRow l r) = aw_start r /\ aw_use (reopenedRow l r) = aw_use r.
Proof. unfold reopenedRow. by destruct (_ =? _). Qed.

Lemma reopenedRow_cases l r : l ∈ rows -> r ∈ rows ->
  (r = l /\ reopenedRow l r = rehold (aw_grant r) (it_id it) expires r) \/ (aw_id r <> aw_id l /\ reopenedRow l r = r).
Proof.
  intros Hl Hr. unfold reopenedRow. destruct (Z.eqb_spec (aw_id r) (aw_id l)) as [E|]; [left|by right].
  split; [|done]. apply (NoDup_key_inj aw_id rows); [apply (ok_ids _ _ _ Hs)|done|done|done].
Qed.

Lemma reopen_account_ok l : created = Some l -> live now l = false -> account_ok items now (reopened l).
Proof.
  intros Hc Hdead. destruct opening_item as (Hit & Hiv & Hia). destruct opening_reset as [Hi _].
  destruct opening_expires as (x & Ex & HxW & Hxn & Hxc & Hxe). destruct (created_spec now s g it l Hc) as (Hl & Elg & Elf & Elr & Els).
  assert (Hre : forall r, r ∈ rows -> resetOf items (reopenedRow l r) = resetOf items r).
  { intros r Hr. destruct (reopenedRow_cases l r Hl Hr) as [[-> ->]|[_ ->]]; [|done]. rewrite Elr. unfold resetOf. cbn. by rewrite Hi. }
  assert (Hset : forall r, r ∈ rows -> aw_id r <> aw_id l -> related r l -> expiresOf r <= W).
  { intros r Hr Hne [Eg Ef]. destruct (window_settled now s g it Hn Hs Hg Hact Hit r Hr ltac:(congruence) ltac:(congruence)) as [E|?]; [congruence|done]. }
  assert (Hlex : expiresOf l <= now).
  { unfold live, expiresOf in *. destruct (row_expires items now s Hs l Hl) as ([e E] & _). rewrite E in *. cbn. blia. }
  destruct Hs as [H1 H2 H3 [H4 H4'] H5 H6 H7 H8 H9]. split; cbn; try done.
  - split.
    + rewrite map_map, (List.map_ext _ aw_id); [done|]. intros r. apply reopenedRow_fields.
    + intros r' (r & -> & Hr)%list_elem_of_fmap. rewrite (proj1 (reopenedRow_fields l r)). auto.
  - intros r' (r & -> & Hr)%list_elem_of_fmap. destruct (H5 r Hr) as (g' & a & Hok).
    destruct (reopenedRow_cases l r Hl Hr) as [[-> ->]|[_ ->]]; [|eauto].
    pose proof (NoDup_key_inj pg_id _ g' g H1 (rk_grant _ _ _ _ _ _ Hok) Hg ltac:(rewrite (rk_id _ _ _ _ _ _ Hok); congruence)) as ->.
    assert (Ea : itemReset a = itemReset it) by (unfold resetOf in Elr; rewrite (rk_item _ _ _ _ _ _ Hok) in Elr; cbn in Elr; congruence).
    destruct Hok as [K1 K2 K3 K4 K5 K6 K7 K8 K9 K10 K11 K12]. exists g, it. split; cbn; try done.
    + exists x. rewrite Els. split_and!; try done; lia.
    + intros He. rewrite (K9 He). by rewrite Ea.
    + intros He. specialize (K10 He). unfold itemReset in Ea. congruence.
    + destruct K12 as (ka & L1 & L2 & L3 & L4 & L5). exists ka. cbn. split_and!; try done; [congruence|].
      rewrite L4. unfold itemReset in Ea. injection Ea as -> _. done.
  - intros r' (r & -> & Hr)%list_elem_of_fmap. destruct (reopenedRow_cases l r Hl Hr) as [[-> ->]|[_ ->]]; [|auto].
    intros _. exists g. split_and!; try done. cbn. rewrite Elf, Hv. done.
  - intros r' q' (r & -> & Hr)%list_elem_of_fmap (q & -> & Hq)%list_elem_of_fmap.
    destruct (reopenedRow_cases l r Hl Hr) as [[-> ->]|[Hr' ->]]; destruct (reopenedRow_cases l q Hl Hq) as [[-> ->]|[Hq' ->]]; cbn; intros Hne Hrel.
    + done.
    + right. rewrite Els. apply Hset; [done|done|split; symmetry; apply Hrel].
    + left. rewrite Els. by apply Hset.
    + by apply H7.
  - intros r' q' (r & -> & Hr)%list_elem_of_fmap (q & -> & Hq)%list_elem_of_fmap. unfold related.
    destruct (reopenedRow_fields l r) as (_ & -> & -> & -> & _). destruct (reopenedRow_fields l q) as (_ & -> & -> & -> & _).
    rewrite !Hre by done. intros Hrel Er Est. f_equal. by apply H8.
  - intros r' (r & -> & Hr)%list_elem_of_fmap g' rs. unfold related.
    destruct (reopenedRow_fields l r) as (_ & -> & -> & -> & _). rewrite Hre by done. intros Hg' Eid Ha Er.
    destruct (H9 r Hr g' rs Hg' Eid Ha Er) as [?|(q & Hq & [Q1 Q2] & Q3 & Q4)]; [by left|right].
    exists (reopenedRow l q). destruct (reopenedRow_fields l q) as (_ & E1 & E2 & _). rewrite E1, E2, Hre by done.
    split; [by apply list_elem_of_fmap_2|]. split_and!; try done.
    destruct (reopenedRow_cases l q Hl Hq) as [[-> ->]|[_ ->]]; [|done]. unfold expiresOf in *. cbn. rewrite Ex. cbn. lia.
Qed.

(** *** The statements give these rows *)

Lemma insertWindow_opened : w_grantId w = Some (pg_id g) -> w_featureId w = it_feature it -> w_planItemId w = it_id it ->
  w_quantity w = it_quantity it -> w_once w = bool_decide (it_reset it = None) -> w_start w = Some W -> created = None ->
  insertWindow rows s w = Ok inserted.
Proof.
  intros E1 E2 E3 E4 E5 E6 Hc. destruct opening_reset as [Hi Hreset].
  assert (Ev : windowValues (ac_nextId s) w = Ok openedRow).
  { unfold windowValues. rewrite E1, E2, E3, E4, E5, E6, (wo_end _ _ _ _ _ _ _ _ Hw), (wo_expires _ _ _ _ _ _ _ _ Hw).
    unfold openedRow. assert (Ek : forall A (x y : A), (if bool_decide (it_reset it = None) then x else y) = (if decide (it_reset it = None) then x else y)).
    { intros A x y. case_bool_decide; by destruct (decide _). }
    clear Hw Hlater. destruct endAt, expires; cbn; by rewrite Ek. }
  unfold insertWindow. rewrite Ev. cbn [mbind result_bind].
  assert (Hk : keptAlready rows openedRow = false).
  { apply not_true_is_false. intros (r & Hr & E)%existsb_exists. apply list_elem_of_In in Hr. cbn in E. bool_to_prop.
    destruct (ok_rows _ _ _ Hs r Hr) as (g' & a & Hok).
    assert (a = it) as -> by (pose proof (rk_item _ _ _ _ _ _ Hok) as Ei; congruence).
    rewrite opening_created with (r := r) in Hc; try done; [symmetry; apply (rk_feature _ _ _ _ _ _ Hok)| |by right].
    unfold resetOf. by rewrite (rk_item _ _ _ _ _ _ Hok). }
  assert (Ht : keyTaken rows openedRow = false).
  { apply not_true_is_false. intros (r & Hr & E)%existsb_exists. apply list_elem_of_In in Hr. cbn in E. bool_to_prop.
    match goal with H : bool_decide _ = true |- _ => apply bool_decide_eq_true in H; rename H into Ekey end.
    destruct (ok_rows _ _ _ Hs r Hr) as (g' & a & Hok). destruct (rk_key _ _ _ _ _ _ Hok) as (ka & L1 & L2 & L3 & L4 & L5).
    rewrite Ekey in *. cbn in *. rewrite Hi in L1. injection L1 as <-.
    assert (Eg : aw_grant r = pg_id g).
    { destruct L5 as [?|[_ Hno] ]; [done|]. by rewrite (Hno g Hg eq_refl) in Hact. }
    assert (Ers : resetOf items r = Some (itemReset it)).
    { unfold resetOf. rewrite (rk_item _ _ _ _ _ _ Hok). cbn. by rewrite L3. }
    rewrite opening_created with (r := r) in Hc; try done.
    assert (Era : it_reset a = it_reset it) by (unfold itemReset in L3; congruence). rewrite Era in L4.
    destruct (decide (it_reset it = None)); [by left|right]. by injection L4. }
  by rewrite Hk, Ht.
Qed.

Lemma reopenPlanGrantAllowances_reopened l : created = Some l -> live now l = false -> w_planItemId w = it_id it -> w_allocation w = created ->
  reopenPlanGrantAllowances now [w] s = Ok (reopened l).
Proof.
  intros Hc Hdead Ei Ew. destruct (created_spec now s g it l Hc) as (Hl & _).
  unfold reopenPlanGrantAllowances. rewrite (mapM_Ok_map _ (reopenedRow l)); [done|]. apply List.Forall_forall. intros r Hr%list_elem_of_In.
  unfold reopenAllowance, reopenCandidate. cbn [List.find]. rewrite Ew, Hc. cbn [fmap option_fmap option_map].
  destruct (reopenedRow_cases l r Hl Hr) as [[-> ->]|[Hne ->]].
  - rewrite bool_decide_true by done. rewrite (wo_expires _ _ _ _ _ _ _ _ Hw), Ei.
    destruct (row_expires items now s Hs l Hl) as (_ & _ & _ & ->). rewrite Hdead, bool_decide_true by done. by destruct expires.
  - rewrite bool_decide_false by (intros [= E]; congruence). done.
Qed.

Lemma inserted_spendable : spendable now inserted (it_feature it) =
  spendable now s (it_feature it) ++ [(untouched (it_quantity it), expires)].
Proof.
  unfold spendable. cbn [inserted ac_allowances]. rewrite List.filter_app, map_app. f_equal. cbn. rewrite Z.eqb_refl. cbn.
  unfold live. cbn. destruct opening_expires as (x & Ex & _ & Hx & _). rewrite Ex. cbn. replace (now <? x) with true by (symmetry; by apply Z.ltb_lt). cbn. unfold content. cbn. by rewrite Ex.
Qed.

Lemma reopened_spendable l : created = Some l -> live now l = false ->
  spendable now (reopened l) (it_feature it) ≡ₚ spendable now s (it_feature it) ++ [(aw_use l, expires)].
Proof.
  intros Hc Hdead. destruct (created_spec now s g it l Hc) as (Hl & _ & Elf & _).
  destruct opening_expires as (x & Ex & _ & Hx & _).
  assert (El : reopenedRow l l = rehold (aw_grant l) (it_id it) expires l) by (unfold reopenedRow; by rewrite Z.eqb_refl).
  unfold spendable. cbn [reopened set_allowances ac_allowances].
  rewrite (filter_replaced aw_id _ (reopenedRow l) rows l); [|apply (ok_ids _ _ _ Hs)|done| | |].
  - rewrite map_app. cbn. by rewrite El.
  - intros y Hy Hne. by destruct (reopenedRow_cases l y Hl Hy) as [[-> _]|[_ ->]].
  - by rewrite Hdead, andb_false_r.
  - rewrite El. cbn. rewrite Elf, Z.eqb_refl. destruct (row_expires items now s Hs l Hl) as (_ & _ & _ & ->).
    unfold live. cbn. rewrite Ex. by replace (now <? x) with true by (symmetry; by apply Z.ltb_lt).
Qed.
End Opening.

(** What a write opened, no later write has to open again. *)
Lemma opened_settled now s s' g it l w' : modern now -> account_ok items now s -> account_ok items now s' ->
  g ∈ ac_grants s -> g ∈ ac_grants s' -> isActive g = true -> running now g = true -> it ∈ items ->
  toWindow items (ac_allowances s') now (grantSource g, it) = Ok w' ->
  l ∈ ac_allowances s' -> aw_grant l = pg_id g -> aw_feature l = it_feature it -> resetOf items l = Some (itemReset it) ->
  aw_start l = windowStart items (ac_allowances s) now (grantSource g) it -> live now l = true ->
  (forall q, q ∈ ac_allowances s' -> resetOf items q <> Some (itemReset it) -> q ∈ ac_allowances s) ->
  pendingOf now w' = [].
Proof.
  intros Hn Hs Hs' Hg Hg' Ha Hr Hit Ew Hl El Ef Er Est Hlive Hold.
  destruct (window_is now s' g it Hs' Hg' Ha l Hl El Ef Er) as [EW Ec].
  { rewrite Est. apply window_cell. }
  { intros q Hq E1 E2 E3. rewrite Est. apply (window_others now s g it Hs); auto. }
  destruct (toWindow_spec items (ac_allowances s') now (grantSource g) it Hn (ck_reset _ Hcat it Hit) (ck_expiry _ Hcat it Hit)
    (grant_source_ok now s' g Hn Hs' Hg' Hr)) as (w & Ew' & W1 & W2 & W3 & W4 & W5 & W6 & W7 & W8).
  rewrite Ew in Ew'. injection Ew' as <-. destruct W8 as (endAt & expires & Hw).
  { rewrite EW. apply (row_expires items now s' Hs' l Hl). }
  rewrite (window_pending now s' g it w' endAt expires W1 W6 W7); [|rewrite EW; apply (row_expires items now s' Hs' l Hl)|done].
  unfold missingWindow. rewrite W7, Ec, (wo_resumes _ _ _ _ _ _ _ _ Hw), Ec, Hlive. cbn. by rewrite !andb_false_r.
Qed.

(** ... and so a read of the feature finds nothing pending. *)
Lemma opened_read now s s' g it l : modern now -> account_ok items now s -> account_ok items now s' -> ac_grants s' = ac_grants s ->
  g ∈ ac_grants s -> isActive g = true -> running now g = true -> versionItem items (pg_version g) (it_feature it) = Some it ->
  l ∈ ac_allowances s' -> aw_grant l = pg_id g -> aw_feature l = it_feature it -> resetOf items l = Some (itemReset it) ->
  aw_start l = windowStart items (ac_allowances s) now (grantSource g) it -> live now l = true ->
  (forall q, q ∈ ac_allowances s' -> resetOf items q <> Some (itemReset it) -> q ∈ ac_allowances s) ->
  exists ws', readPlanGrantWindows items (Some (it_feature it)) None now s' = Ok ws' /\ flat_map (pendingOf now) ws' = [].
Proof.
  intros Hn Hs Hs' Eg Hg Ha Hr Hv Hl E1 E2 E3 E4 E5 Hold.
  destruct (find_window now s' (it_feature it) Hn Hs') as [E _|g' it' w' Hg' Ha' Hr' Hv' Ew' E]; rewrite E; [by eexists|].
  pose proof (ok_one _ _ _ Hs' g' g Hg' ltac:(by rewrite Eg) Ha' Ha) as ->. rewrite Hv in Hv'. injection Hv' as <-.
  destruct (versionItem_Some _ _ _ _ Hv) as (Hit & _). exists [w']. split; [done|]. cbn.
  by rewrite (opened_settled now s s' g it l w') by done.
Qed.

Lemma reopen_nothing now s : reopenPlanGrantAllowances now [] s = Ok s.
Proof.
  unfold reopenPlanGrantAllowances. rewrite (mapM_Ok_map _ id) by (apply List.Forall_forall; done). rewrite map_id. by destruct s.
Qed.

(** A window that is not missing adds nothing to a read either. *)
Lemma not_missing_pending now s g it w : modern now -> account_ok items now s -> g ∈ ac_grants s -> isActive g = true ->
  running now g = true -> it ∈ items -> toWindow items (ac_allowances s) now (grantSource g, it) = Ok w ->
  missingWindow now w = false -> pendingOf now w = [].
Proof.
  intros Hn Hs Hg Ha Hr Hit Ew Hm.
  destruct (toWindow_spec items (ac_allowances s) now (grantSource g) it Hn (ck_reset _ Hcat it Hit) (ck_expiry _ Hcat it Hit)
    (grant_source_ok now s g Hn Hs Hg Hr)) as (w0 & Ew' & W1 & W2 & W3 & W4 & W5 & W6 & W7 & W8).
  rewrite Ew in Ew'. injection Ew' as <-.
  destruct (Z.le_gt_cases (windowStart items (ac_allowances s) now (grantSource g) it) now) as [HW|HW].
  - destruct (W8 HW) as (endAt & expires & Hw). rewrite (window_pending now s g it w endAt expires W1 W6 W7 HW Hw). by rewrite Hm.
  - unfold pendingOf. rewrite W6. cbn. by replace (now <? _) with true by (symmetry; by apply Z.ltb_lt).
Qed.

(** The fields of the window of the active grant. *)
Lemma grant_window now s g it w : modern now -> account_ok items now s -> g ∈ ac_grants s -> running now g = true -> it ∈ items ->
  toWindow items (ac_allowances s) now (grantSource g, it) = Ok w ->
  let W := windowStart items (ac_allowances s) now (grantSource g) it in
  (w_grantId w = Some (pg_id g) /\ w_featureId w = it_feature it /\ w_planItemId w = it_id it /\ w_quantity w = it_quantity it /\
   w_once w = bool_decide (it_reset it = None) /\ w_start w = Some W /\ w_allocation w = createdIn items (ac_allowances s) (grantSource g) it W) /\
  (W <= now -> exists endAt expires, window_of items (ac_allowances s) now (grantSource g) it w endAt expires).
Proof.
  intros Hn Hs Hg Hr Hit Ew. destruct (toWindow_spec items (ac_allowances s) now (grantSource g) it Hn (ck_reset _ Hcat it Hit) (ck_expiry _ Hcat it Hit)
    (grant_source_ok now s g Hn Hs Hg Hr)) as (w0 & Ew' & W1 & W2 & W3 & W4 & W5 & W6 & W7 & W8).
  rewrite Ew in Ew'. injection Ew' as <-. by split_and!.
Qed.

(** A window a write has to open: it has started and lasts, and its allowance is gone or was never
    created. *)
Lemma missing_window now s g it w (W := windowStart items (ac_allowances s) now (grantSource g) it) :
  modern now -> account_ok items now s -> g ∈ ac_grants s -> running now g = true -> it ∈ items ->
  toWindow items (ac_allowances s) now (grantSource g, it) = Ok w -> missingWindow now w = true ->
  W <= now /\ exists endAt expires, window_of items (ac_allowances s) now (grantSource g) it w endAt expires /\ (forall x, expires = Some x -> now < x) /\
  ((w_resumes w = true /\ exists l, createdIn items (ac_allowances s) (grantSource g) it W = Some l /\ live now l = false) \/
   (w_resumes w = false /\ createdIn items (ac_allowances s) (grantSource g) it W = None)).
Proof.
  intros Hn Hs Hg Hr Hit Ew Hm. destruct (grant_window now s g it w Hn Hs Hg Hr Hit Ew) as [(W1 & W2 & W3 & W4 & W5 & W6 & W7) W8]. fold W in W6, W7, W8.
  assert (HW : W <= now) by (unfold missingWindow in Hm; rewrite W6 in Hm; cbn in Hm; bool_to_prop; lia).
  split; [done|]. destruct (W8 HW) as (endAt & expires & Hw). exists endAt, expires. split; [done|]. split.
  - intros x ->. unfold missingWindow in Hm. rewrite (wo_expires _ _ _ _ _ _ _ _ Hw) in Hm. cbn in Hm. bool_to_prop. lia.
  - pose proof (wo_resumes _ _ _ _ _ _ _ _ Hw) as Hre. fold W in Hre. unfold missingWindow in Hm. rewrite W7 in Hm.
    destruct (createdIn items (ac_allowances s) (grantSource g) it W) as [l|]; [left|by right].
    rewrite (bool_decide_false (Some l = None)) in Hm by done. destruct (w_resumes w); [|exfalso; rewrite andb_false_r in Hm; done].
    split; [done|]. exists l. split; [done|]. symmetry in Hre. bool_to_prop. done.
Qed.

(** The statements of a write for the one window of a feature. *)
Lemma open_one now s f w : readPlanGrantWindows items (Some f) None now s = Ok [w] -> missingWindow now w = true ->
  openPlanGrantWindows items f now s = if w_resumes w then reopenPlanGrantAllowances now [w] s else insertWindow (ac_allowances s) s w.
Proof.
  intros E Hm. unfold openPlanGrantWindows. rewrite E. cbn [mbind result_bind List.filter]. rewrite Hm. cbn [List.filter].
  destruct (w_resumes w); cbn [negb].
  - by destruct (reopenPlanGrantAllowances now [w] s).
  - rewrite reopen_nothing. cbn [mbind result_bind foldM]. by destruct (insertWindow _ s w).
Qed.

(** Opening the window of a feature is a reopening or an insert of the row a read showed. *)
Lemma open_missing now s g it w : modern now -> account_ok items now s -> g ∈ ac_grants s -> isActive g = true -> running now g = true ->
  versionItem items (pg_version g) (it_feature it) = Some it -> toWindow items (ac_allowances s) now (grantSource g, it) = Ok w ->
  readPlanGrantWindows items (Some (it_feature it)) None now s = Ok [w] -> missingWindow now w = true -> exists s' l,
  openPlanGrantWindows items (it_feature it) now s = Ok s' /\ account_ok items now s' /\ ac_grants s' = ac_grants s /\
  spendable now s' (it_feature it) ≡ₚ spendable now s (it_feature it) ++ map pendingContent (pendingOf now w) /\
  l ∈ ac_allowances s' /\ aw_grant l = pg_id g /\ aw_feature l = it_feature it /\ resetOf items l = Some (itemReset it) /\
  aw_start l = windowStart items (ac_allowances s) now (grantSource g) it /\ live now l = true /\
  (forall q, q ∈ ac_allowances s' -> resetOf items q <> Some (itemReset it) -> q ∈ ac_allowances s).
Proof.
  intros Hn Hs Hg Ha Hr Hv Ew E Hm. destruct (versionItem_Some _ _ _ _ Hv) as (Hit & _).
  destruct (missing_window now s g it w Hn Hs Hg Hr Hit Ew Hm) as (HW & endAt & expires & Hw & Hlater & Hcr).
  destruct (grant_window now s g it w Hn Hs Hg Hr Hit Ew) as [(W1 & W2 & W3 & W4 & W5 & W6 & W7) _].
  rewrite (window_pending now s g it w endAt expires W1 W6 W7 HW Hw), Hm, (open_one now s _ w E Hm).
  destruct (opening_reset now s g it endAt expires Hv) as [Hi Hreset].
  destruct (opening_expires now s g it w endAt expires Hn Hs Hg Ha Hv HW Hw Hlater) as (x & Ex & _ & Hx & _).
  assert (Hlive : live now (openedRow now s g it endAt expires) = true) by (unfold live; cbn; rewrite Ex; by apply Z.ltb_lt).
  destruct Hcr as [[Ere (l & Hc & Hdead)]|[Ere Hc]]; rewrite Ere, Hc.
  - destruct (created_spec now s g it l Hc) as (Hl & El & Elf & Elr & Els).
    exists (reopened s it expires l), (rehold (aw_grant l) (it_id it) expires l). split_and!; try done.
    + by apply (reopenPlanGrantAllowances_reopened now s g it w endAt expires Hs Hw Hlater l).
    + by apply (reopen_account_ok now s g it w endAt expires).
    + rewrite (reopened_spendable now s g it w endAt expires) by done. cbn. by destruct expires.
    + assert (E1 : reopenedRow it expires l l = rehold (aw_grant l) (it_id it) expires l) by (unfold reopenedRow; by rewrite Z.eqb_refl).
      rewrite <- E1. by apply list_elem_of_fmap_2.
    + intros q (q0 & -> & Hq)%list_elem_of_fmap. destruct (reopenedRow_cases now s it expires Hs l q0 Hl Hq) as [[-> ->]|[_ ->]]; [|done].
      intros []. unfold resetOf. cbn. by rewrite Hi.
  - exists (inserted now s g it endAt expires), (openedRow now s g it endAt expires). split_and!; try done.
    + by apply (insertWindow_opened now s g it w endAt expires).
    + by apply (insert_account_ok now s g it w endAt expires).
    + rewrite (inserted_spendable now s g it w) by done. rewrite W4. cbn. by destruct expires.
    + cbn. apply elem_of_app. right. constructor.
    + intros q [Hq|Hq%list_elem_of_singleton]%elem_of_app; [done|]. by subst.
Qed.

(** Opening before a write: it always succeeds, keeps the account well formed, gives the account
    what a read counted as pending and leaves nothing pending. *)
Lemma open_ok now s f : modern now -> account_ok items now s -> exists s' ws ws',
  openPlanGrantWindows items f now s = Ok s' /\ account_ok items now s' /\ ac_grants s' = ac_grants s /\
  readPlanGrantWindows items (Some f) None now s = Ok ws /\
  spendable now s' f ≡ₚ spendable now s f ++ map pendingContent (flat_map (pendingOf now) ws) /\
  readPlanGrantWindows items (Some f) None now s' = Ok ws' /\ flat_map (pendingOf now) ws' = [].
Proof.
  intros Hn Hs. destruct (find_window now s f Hn Hs) as [E Hno|g it w Hg Ha Hr Hv Ew E].
  { exists s, [], []. unfold openPlanGrantWindows. rewrite E. cbn [mbind result_bind List.filter]. rewrite reopen_nothing. cbn.
    rewrite app_nil_r. by split_and!. }
  destruct (versionItem_Some _ _ _ _ Hv) as (Hit & _ & _ & Hf). subst f.
  destruct (missingWindow now w) eqn:Hm.
  - destruct (open_missing now s g it w Hn Hs Hg Ha Hr Hv Ew E Hm) as (s' & l & Eo & Hs' & Eg & Hsp & L1 & L2 & L3 & L4 & L5 & L6 & L7).
    destruct (opened_read now s s' g it l) as (ws' & Ews & Hno); try done.
    exists s', [w], ws'. cbn [flat_map]. rewrite app_nil_r. by split_and!.
  - exists s, [w], [w]. unfold openPlanGrantWindows. rewrite E. cbn [mbind result_bind List.filter]. rewrite Hm, reopen_nothing. cbn.
    rewrite (not_missing_pending now s g it w) by done. cbn. rewrite app_nil_r. by split_and!.
Qed.

(** *** Grants that close *)

Lemma close_inactive st at_ g : st <> grant_active -> isActive (close st at_ g) = false.
Proof. intros H. unfold isActive. by rewrite bool_decide_false. Qed.

(** Closing grants keeps the account well formed when their live allowances end with them. *)
Lemma close_account_ok now s s' (p : PlanGrant -> bool) (q : Allowance -> bool) (st : PlanGrantStatus) (at_ : PlanGrant -> Z) :
  account_ok items now s -> st <> grant_active ->
  (forall r, r ∈ ac_allowances s -> q r = true -> live now r = true) ->
  (forall g r, g ∈ ac_grants s -> r ∈ ac_allowances s -> isActive g = true -> p g = true -> pg_id g = aw_grant r -> live now r = true -> q r = true) ->
  ac_grants s' = map (fun g => if p g then close st (at_ g) g else g) (ac_grants s) ->
  ac_allowances s' = map (fun r => if q r then endAt now r else r) (ac_allowances s) -> ac_nextId s' = ac_nextId s ->
  account_ok items now s'.
Proof.
  intros Hs Hst Hq Hp Eg Er En.
  eapply (kept_account_ok items now _ _ s s' Hs); [| | | |exact Eg|exact Er|exact En]; cbv beta.
  - intros g _. destruct (p g); [|apply kept_grant_refl]. split; try done; [by rewrite close_inactive|by left].
  - intros r Hr. destruct (q r) eqn:E; [|apply kept_refl]. split; try done; [by left|right]. split; [by apply Hq|done].
  - intros r Hr. by destruct (q r).
  - intros r Hr Hl. destruct (q r) eqn:E; [unfold live in Hl; cbn in Hl; blia|].
    destruct (ok_live _ _ _ Hs r Hr Hl) as (g & Hg & Eid & Ha & Hv). exists g.
    assert (Epg : p g = false) by (apply not_true_is_false; intros E'; by rewrite (Hp g r Hg Hr Ha E' Eid Hl) in E).
    split_and!; try done. apply list_elem_of_fmap. exists g. by rewrite Epg.
Qed.

Lemma closeGrant_ok st now id s : st <> grant_active -> account_ok items now s ->
  account_ok items now (clampPlanGrantAllocations now id (closeGrant st now id s)).
Proof.
  intros Hst Hs. eapply (close_account_ok now s _ (fun g => (pg_id g =? id) && isActive g) (fun r => (aw_grant r =? id) && live now r) st (fun _ => now));
    try done.
  - intros r _ E. by bool_to_prop.
  - intros g r _ _ _ E Eid Hl. bool_to_prop. rewrite Hl, andb_true_r. apply Z.eqb_eq. congruence.
Qed.

Lemma endPlanGrant_ok now id s s' : account_ok items now s -> endPlanGrantInTx now id s = Some s' -> account_ok items now s'.
Proof.
  intros Hs. unfold endPlanGrantInTx. destruct (existsb _ _); [|done]. intros [= <-].
  eapply (close_account_ok now s _ (fun g => (pg_id g =? id) && isActive g && match pg_ends_at g with Some e => now <? e | None => false end)
    (fun r => (aw_grant r =? id) && live now r) grant_ended (fun _ => now)); try done.
  - intros r _ E. by bool_to_prop.
  - intros g r _ _ _ E Eid Hl. bool_to_prop. rewrite Hl, andb_true_r. apply Z.eqb_eq. congruence.
Qed.

Lemma supersedeBase_ok now base s : account_ok items now s -> account_ok items now (supersedeBasePlanGrants now base s).
Proof.
  intros Hs. eapply (close_account_ok now s _ (fun g => isActive g && pg_base g && running now g && base)
    (fun r => bool_decide (aw_grant r ∈ map pg_id (List.filter (fun g => isActive g && pg_base g && running now g && base) (ac_grants s))) && live now r)
    grant_superseded (fun _ => now)); try done.
  - intros r _ E. by bool_to_prop.
  - intros g r Hg _ _ E Eid Hl. rewrite Hl, andb_true_r. apply bool_decide_eq_true. rewrite <- Eid. apply list_elem_of_fmap_2.
    apply list_elem_of_In, filter_In. split; [by apply list_elem_of_In|done].
Qed.

(** The grants an expiry records are the elapsed ones. *)
Definition dueIds (now : Z) (s : Account) : list Z := map pg_id (firstn 100 (sortBy endsEarlier (List.filter (elapsed now) (ac_grants s)))).

Lemma due_elapsed now s g : account_ok items now s -> g ∈ ac_grants s -> pg_id g ∈ dueIds now s <-> elapsed now g = true.
Proof.
  intros Hs Hg. unfold dueIds. pose proof (ok_grant_ids _ _ _ Hs) as Hnd.
  destruct (filter_unique (elapsed now) (ac_grants s)) as [E|(x & Hx & Ex & E)]; [by eapply NoDup_fmap_1| | |].
  - intros a b Ha Hb Ea Eb. unfold elapsed in *. bool_to_prop. by apply (ok_one _ _ _ Hs).
  - rewrite E. split; [by intros ?%elem_of_nil|]. intros Eg. assert (Hin : g ∈ List.filter (elapsed now) (ac_grants s)).
    { apply list_elem_of_In, filter_In. split; [by apply list_elem_of_In|done]. } rewrite E in Hin. by apply elem_of_nil in Hin.
  - rewrite E. cbn. rewrite list_elem_of_singleton. split.
    + intros Eid. by rewrite (NoDup_key_inj pg_id _ g x Hnd Hg Hx Eid).
    + intros Eg. unfold elapsed in *. bool_to_prop. by rewrite (ok_one _ _ _ Hs g x).
Qed.

(** An elapsed grant's allowances are not live. *)
Lemma elapsed_dead now s g r : account_ok items now s -> g ∈ ac_grants s -> r ∈ ac_allowances s -> pg_id g = aw_grant r ->
  elapsed now g = true -> live now r = false.
Proof.
  intros Hs Hg Hr Eid E. unfold elapsed in E. destruct (ok_rows _ _ _ Hs r Hr) as (g' & a & Hok).
  pose proof (NoDup_key_inj pg_id _ g' g (ok_grant_ids _ _ _ Hs) (rk_grant _ _ _ _ _ _ Hok) Hg ltac:(rewrite (rk_id _ _ _ _ _ _ Hok); congruence)) as ->.
  destruct (rk_expires _ _ _ _ _ _ Hok) as (e & Ee & _ & _ & Hen). destruct (pg_ends_at g) as [e'|]; bool_to_prop; [|done].
  specialize (Hen e' eq_refl). unfold live. rewrite Ee. apply Z.ltb_ge. lia.
Qed.

Lemma expire_ids now s : map pg_id (ac_grants (expireCustomerPlanGrants now s)) = map pg_id (ac_grants s).
Proof. cbn. rewrite map_map. apply List.map_ext. intros g. by case_bool_decide. Qed.

Lemma elapsed_expire_ok now s : account_ok items now s -> account_ok items now (expireCustomerPlanGrants now s).
Proof.
  intros Hs. eapply (close_account_ok now s _ (fun g => bool_decide (pg_id g ∈ dueIds now s)) (fun _ => false) grant_expired
    (fun g => default now (pg_ends_at g))); try done.
  - intros g r Hg Hr _ Hdue Eid Hl. apply bool_decide_eq_true in Hdue. apply (due_elapsed now s g Hs Hg) in Hdue.
    by rewrite (elapsed_dead now s g r Hs Hg Hr Eid Hdue) in Hl.
  - cbn. by rewrite map_id.
Qed.

(** After it, no active grant has elapsed. *)
Lemma expired_running now s g : account_ok items now s -> g ∈ ac_grants (expireCustomerPlanGrants now s) -> isActive g = true ->
  g ∈ ac_grants s /\ running now g = true.
Proof.
  intros Hs Hg Ha. cbn in Hg. apply list_elem_of_fmap in Hg as (g0 & -> & Hg).
  change (map pg_id (firstn 100 (sortBy endsEarlier (List.filter (elapsed now) (ac_grants s))))) with (dueIds now s) in *.
  destruct (bool_decide (pg_id g0 ∈ dueIds now s)) eqn:Hd; [by rewrite close_inactive in Ha|].
  split; [done|]. apply bool_decide_eq_false in Hd. rewrite (due_elapsed now s g0 Hs Hg) in Hd. unfold elapsed, running in *. rewrite Ha in Hd.
  destruct (pg_ends_at g0); [|done]. destruct (Z.leb_spec z now); [by destruct Hd|by apply Z.ltb_lt].
Qed.

(** *** The default plan *)

Lemma find_active now s p g : account_ok items now s -> List.find (fun g => p g && isActive g) (ac_grants s) = Some g ->
  g ∈ ac_grants s /\ isActive g = true /\ p g = true.
Proof. intros Hs [Hg E]%find_some. bool_to_prop. split_and!; try done. by apply list_elem_of_In. Qed.

Lemma sameResetItem_Some v r kept : sameResetItem items v r = Some kept ->
  versionItem items v (aw_feature r) = Some kept /\ itemOf items (it_id kept) = Some kept /\ it_feature kept = aw_feature r /\
  it_account kept = true /\ exists a, itemOf items (aw_item r) = Some a /\ itemReset kept = itemReset a.
Proof.
  unfold sameResetItem. destruct (itemOf items (aw_item r)) as [a|]; [|done]. cbn.
  destruct (versionItem items v (aw_feature r)) as [x|] eqn:E; [|done]. cbn. destruct (sameReset x a) eqn:Es; [|done]. intros [= ->].
  destruct (versionItem_Some _ _ _ _ E) as (Hit & _ & Hacc & Hf). apply sameReset_spec in Es. split_and!; try done; [by apply itemOf_member|by eexists].
Qed.

(** An allowance of a grant that moved to another version goes over to its item, or ends. *)
Lemma moved_row now id v r (r' := endDropped items now id v (keepOnReset items now id v r)) :
  (forall a, itemOf items (aw_item r) = Some a -> it_feature a = aw_feature r) ->
  kept items now r r' /\ (aw_item r' <> aw_item r -> aw_grant r = id) /\
  (live now r' = true -> aw_grant r = id -> versionItem items v (aw_feature r) <> None).
Proof.
  intros Hf. subst r'. unfold keepOnReset. destruct ((aw_grant r =? id) && live now r) eqn:E.
  - apply andb_true_iff in E as E'. destruct E' as [E1%Z.eqb_eq E2]. destruct (sameResetItem items v r) as [x|] eqn:Es.
    + destruct (sameResetItem_Some _ _ _ Es) as (Hv & Hx & Hfx & Hax & a & Ha & Er).
      assert (Ee : endDropped items now id v (rehold (aw_grant r) (it_id x) (aw_expires r) r) = rehold (aw_grant r) (it_id x) (aw_expires r) r).
      { unfold endDropped. cbn. rewrite Hv, (bool_decide_false (Some x = None)), andb_false_r by done. done. }
      rewrite Ee. cbn. rewrite Hv. split_and!; try done. split; try done; [|by left]. right. cbn. exists a, x. split_and!; try done. by rewrite (Hf a Ha).
    + unfold endDropped. rewrite E. cbn [andb]. case_bool_decide as Hn.
      * cbn. split_and!; try done; [|unfold live; cbn; intros ?; blia]. split; try done; [by left|by right].
      * split_and!; try done. apply kept_refl.
  - unfold endDropped. rewrite E. cbn [andb]. split_and!; [apply kept_refl|done|]. intros Hl Eg. rewrite Hl, Eg, Z.eqb_refl in E. done.
Qed.

Lemma moveGrant_ok now s g t : account_ok items now s -> g ∈ ac_grants s -> isActive g = true -> isDefault g = true ->
  resetting items (tg_version t) ->
  account_ok items now (moveGrant items now (pg_id g) t (negb (pg_version g =? tg_version t)) s).
Proof.
  intros Hs Hg Ha Hd Ht. set (k := fun g' => if (pg_id g' =? pg_id g) && isActive g' then movedGrant t g' else g').
  assert (Hk : forall x, x ∈ ac_grants s -> x = g /\ k x = movedGrant t g \/ x <> g /\ k x = x).
  { intros x Hx. unfold k. destruct (Z.eqb_spec (pg_id x) (pg_id g)) as [E|E]; cbn.
    - rewrite (NoDup_key_inj pg_id _ x g (ok_grant_ids _ _ _ Hs) Hx Hg E), Ha. by left.
    - right. split; [by intros ->|done]. }
  assert (Hkg : forall x, x ∈ ac_grants s -> kept_grant items x (k x)).
  { intros x Hx. destruct (Hk x Hx) as [[-> ->]|[_ ->]]; [|apply kept_grant_refl]. split; try done. by right. }
  destruct (Z.eqb_spec (pg_version g) (tg_version t)) as [Ev|Ev]; cbn.
  - apply (kept_account_ok items now k id s); try done.
    + intros r _. apply kept_refl.
    + intros r Hr Hl. destruct (ok_live _ _ _ Hs r Hr Hl) as (x & Hx & E1 & E2 & E3). exists (k x).
      split; [by apply list_elem_of_fmap_2|]. unfold id. destruct (Hk x Hx) as [[-> ->]|[_ ->]]; [|done]. cbn. by rewrite <- Ev.
    + cbn. by rewrite map_id.
  - set (h := fun r => endDropped items now (pg_id g) (tg_version t) (keepOnReset items now (pg_id g) (tg_version t) r)).
    eapply (kept_account_ok items now k h s); [exact Hs|exact Hkg| | | |reflexivity|reflexivity|reflexivity].
    all: intros r Hr; destruct (ok_rows _ _ _ Hs r Hr) as (g0 & a & Hok).
    all: destruct (moved_row now (pg_id g) (tg_version t) r) as (K & Hi & Hl);
      [intros b Hb; rewrite (rk_item _ _ _ _ _ _ Hok) in Hb; injection Hb as <-; apply (rk_feature _ _ _ _ _ _ Hok)|].
    + done.
    + intros Hne. exists g. split_and!; try done. symmetry. by apply Hi.
    + intros Hlv. destruct (ok_live _ _ _ Hs r Hr (kept_live _ _ _ _ K Hlv)) as (x & Hx & E1 & E2 & E3).
      unfold h. rewrite (kp_grant _ _ _ _ K), (kp_feature _ _ _ _ K). exists (k x). split; [by apply list_elem_of_fmap_2|].
      destruct (Hk x Hx) as [[-> ->]|[_ ->]]; [|done]. split_and!; try done. by apply Hl.
Qed.

(** *** Allowances handed to the next default-plan grant *)

(** The allowances a fall back to the default plan hands over start where their reset's window
    does: none was pushed back by an allowance of another reset. *)
Definition resume_aligned (now : Z) (s : Account) (version : Z) : Prop :=
  forall p r it e, previousDefaultGrant (ac_grants s) = Some p -> r ∈ ac_allowances s -> aw_grant r = pg_id p ->
    aw_start r <= now -> aw_end r = Some e -> now < e -> sameResetItem items version r = Some it ->
    aw_start r = cellStart (pg_starts_at p) (itemReset it) now.

Lemma resumedExpiresAt_least it r : resumedExpiresAt it r = least (aw_end r) (expiresAtSql (aw_start r) it).
Proof.
  unfold resumedExpiresAt, expiresAtSql, storedExpiresAt. destruct (it_expiry it), (it_expires_after it); try done. cbn. by destruct (aw_end r).
Qed.

Section Resume.
Context (now : Z) (s : Account) (p g : PlanGrant) (v : Z).
Hypotheses (Hn : modern now) (Hs : account_ok items now s) (Hp : p ∈ ac_grants s) (Hg : g ∈ ac_grants s) (Hg' : isActive g = true)
  (Hp' : isActive p = false) (Hpd : isDefault p = true) (Hgd : isDefault g = true) (Est : pg_starts_at g = pg_starts_at p)
  (Ev : pg_version g = v) (Hfresh : forall r, r ∈ ac_allowances s -> aw_grant r <> pg_id g)
  (Hal : forall r it e, r ∈ ac_allowances s -> aw_grant r = pg_id p -> aw_start r <= now -> aw_end r = Some e -> now < e ->
     sameResetItem items v r = Some it -> aw_start r = cellStart (pg_starts_at p) (itemReset it) now).
Local Abbreviation rows := (ac_allowances s).
Local Abbreviation resume := (resumeAllowance items now (pg_id p) (pg_id g) v).

(** A row that is handed over: it is the previous grant's, of the window that runs, under an item
    of the version on the same reset. *)
Record handed (r : Allowance) (it : PlanItem) : Prop := {
  hd_grant : aw_grant r = pg_id p; hd_item : versionItem items v (aw_feature r) = Some it;
  hd_own : itemOf items (it_id it) = Some it; hd_feature : it_feature it = aw_feature r; hd_account : it_account it = true;
  hd_reset : resetOf items r = Some (itemReset it); hd_resets : it_reset it <> None;
  hd_start : aw_start r = cellStart (pg_starts_at p) (itemReset it) now;
  hd_end : aw_end r = Some (cellEnd (pg_starts_at p) (itemReset it) now);
  hd_expires : exists x, resumedExpiresAt it r = Some x /\ aw_start r < x <= cellEnd (pg_starts_at p) (itemReset it) (aw_start r) }.

Lemma p_ends : pg_ends_at p = None /\ modern (pg_starts_at p) /\ pg_starts_at p <= now.
Proof using Hs Hp Hpd. destruct (ok_grants _ _ _ Hs p Hp) as [? ? He _ _]. split_and!; [|done|done]. destruct (pg_ends_at p); [|done]. destruct He as [He _]. by rewrite He in Hpd. Qed.

Lemma row_of_p r : r ∈ rows -> aw_grant r = pg_id p -> exists a, row_ok items (ac_grants s) now r p a.
Proof.
  intros Hr Eg. destruct (ok_rows _ _ _ Hs r Hr) as (x & a & Hok).
  pose proof (NoDup_key_inj pg_id _ x p (ok_grant_ids _ _ _ Hs) (rk_grant _ _ _ _ _ _ Hok) Hp ltac:(rewrite (rk_id _ _ _ _ _ _ Hok); congruence)) as ->. eauto.
Qed.

(** A row of the previous grant whose window runs is in the window's cell. *)
Lemma running_cell r a : row_ok items (ac_grants s) now r p a -> now < cellEnd (pg_starts_at p) (itemReset a) (aw_start r) ->
  cellStart (pg_starts_at p) (itemReset a) (aw_start r) = cellStart (pg_starts_at p) (itemReset a) now /\
  cellEnd (pg_starts_at p) (itemReset a) (aw_start r) = cellEnd (pg_starts_at p) (itemReset a) now.
Proof.
  intros Hok He. destruct p_ends as (_ & Hm & Hle). pose proof (rk_time _ _ _ _ _ _ Hok).
  assert (Hr : reset_ok (itemReset a)) by (apply (ck_reset _ Hcat); pose proof (rk_item _ _ _ _ _ _ Hok) as Hi; by apply itemOf_Some in Hi as [? _]).
  assert (modern (aw_start r)) by (unfold modern in *; lia).
  destruct (cells_ordered (pg_starts_at p) (itemReset a) Hm Hr (aw_start r) now) as [?|[? Hc]]; try done; try lia.
  destruct (cellStart_bounds (pg_starts_at p) (itemReset a) Hm Hr now Hn Hle). lia.
Qed.

Lemma resume_cases r : r ∈ rows -> resume r = r \/ exists it, handed r it /\ resume r = rehold (pg_id g) (it_id it) (resumedExpiresAt it r) r.
Proof.
  intros Hr. unfold resumeAllowance. destruct (_ && _) eqn:E; [|by left]. destruct (sameResetItem items v r) as [it|] eqn:Es; [right|by left].
  exists it. split; [|done]. bool_to_prop. destruct (row_of_p r Hr) as (a & Hok); [done|]. destruct p_ends as (He & Hm & Hle).
  destruct (sameResetItem_Some _ _ _ Es) as (Hv & Hx & Hfx & Hax & b & Hb & Er).
  pose proof (rk_item _ _ _ _ _ _ Hok) as Hi. rewrite Hb in Hi. injection Hi as ->. rewrite (rk_end _ _ _ _ _ _ Hok He) in *. bool_to_prop.
  destruct (running_cell r a Hok) as [Ec1 Ec2]; [done|].
  pose proof (Hal r it _ Hr ltac:(done) ltac:(done) (rk_end _ _ _ _ _ _ Hok He) ltac:(done) Es) as Hst.
  pose proof (rk_reset _ _ _ _ _ _ Hok He) as Hrr. pose proof (rk_time _ _ _ _ _ _ Hok).
  assert (Hia : it ∈ items) by by apply itemOf_Some in Hx as [? _].
  split; try done.
  - unfold resetOf. rewrite Hb. cbn. congruence.
  - unfold itemReset in Er. congruence.
  - rewrite (rk_end _ _ _ _ _ _ Hok He). congruence.
  - rewrite resumedExpiresAt_least, (rk_end _ _ _ _ _ _ Hok He), Er.
    destruct (storedExpiresAt_Some (aw_start r) it (ck_expiry _ Hcat it Hia)) as [(Hn1 & _)|(x & _ & Hlt & Hxs & _)]; [unfold modern in *; lia| |].
    + unfold expiresAtSql. rewrite Hn1. cbn. eexists. split; [done|]. lia.
    + rewrite Hxs. cbn. eexists. split; [done|]. lia.
Qed.

(** At most one row of a feature is handed over. *)
Lemma handed_one r q it it' : r ∈ rows -> q ∈ rows -> aw_feature r = aw_feature q -> handed r it -> handed q it' -> r = q.
Proof.
  intros Hr Hq Ef Hh Hh'. assert (it' = it) as -> by (pose proof (hd_item _ _ Hh); pose proof (hd_item _ _ Hh'); congruence).
  apply (ok_starts _ _ _ Hs); try done.
  - split; [|done]. by rewrite (hd_grant _ _ Hh), (hd_grant _ _ Hh').
  - by rewrite (hd_reset _ _ Hh), (hd_reset _ _ Hh').
  - by rewrite (hd_start _ _ Hh), (hd_start _ _ Hh').
Qed.

Lemma handed_row_ok r it : r ∈ rows -> handed r it ->
  row_ok items (ac_grants s) now (rehold (pg_id g) (it_id it) (resumedExpiresAt it r) r) g it.
Proof.
  intros Hr Hh. destruct (row_of_p r Hr (hd_grant _ _ Hh)) as (a & Hok). destruct p_ends as (He & Hm & Hle).
  assert (Hge : pg_ends_at g = None) by (destruct (ok_grants _ _ _ Hs g Hg) as [_ _ H _ _]; destruct (pg_ends_at g); [destruct H; congruence|done]).
  destruct (hd_expires _ _ Hh) as (x & Ex & Hx). pose proof (hd_reset _ _ Hh) as Hre. unfold resetOf in Hre. rewrite (rk_item _ _ _ _ _ _ Hok) in Hre.
  cbn in Hre. injection Hre as Hre1 Hre2.
  assert (Era : itemReset a = itemReset it) by (unfold itemReset; congruence).
  split; cbn; rewrite ?Est; try done.
  - apply (hd_own _ _ Hh).
  - apply (hd_feature _ _ Hh).
  - apply (hd_account _ _ Hh).
  - apply (rk_time _ _ _ _ _ _ Hok).
  - apply (rk_reversed _ _ _ _ _ _ Hok).
  - exists x. split_and!; try done; try lia. intros e' E'. congruence.
  - intros _. rewrite (rk_end _ _ _ _ _ _ Hok He). by rewrite Era.
  - intros _. apply (hd_resets _ _ Hh).
  - destruct (rk_key _ _ _ _ _ _ Hok) as (ka & L1 & L2 & L3 & L4 & L5). exists ka. cbn. split_and!; try done; [congruence|by rewrite <- Hre1|].
    right. destruct L5 as [L5|?]; [|done]. rewrite L5, (hd_grant _ _ Hh). split; [by apply list_elem_of_fmap_2|].
    intros x' Hx' E. by rewrite (NoDup_key_inj pg_id _ x' p (ok_grant_ids _ _ _ Hs) Hx' Hp E).
Qed.

Lemma resume_fields r : r ∈ rows -> aw_id (resume r) = aw_id r /\ aw_feature (resume r) = aw_feature r /\ aw_start (resume r) = aw_start r /\
  aw_use (resume r) = aw_use r /\ aw_reversed_at (resume r) = aw_reversed_at r /\ resetOf items (resume r) = resetOf items r.
Proof.
  intros Hr. destruct (resume_cases r Hr) as [->|(it & Hh & ->)]; [done|]. split_and!; try done.
  rewrite (hd_reset _ _ Hh). unfold resetOf. cbn. by rewrite (hd_own _ _ Hh).
Qed.

(** Rows of one grant afterwards: both were handed over, or neither. *)
Lemma resume_related r q : r ∈ rows -> q ∈ rows -> related (resume r) (resume q) ->
  aw_feature r = aw_feature q /\ (r = q \/ (resume r = r /\ resume q = q /\ related r q)).
Proof.
  intros Hr Hq. destruct (resume_cases r Hr) as [->|(it & Hh & ->)]; destruct (resume_cases q Hq) as [->|(it' & Hh' & ->)]; intros [E1 E2]; cbn in *.
  - split; [done|right]. by split_and!.
  - by destruct (Hfresh r Hr).
  - by destruct (Hfresh q Hq).
  - split; [done|left]. by eapply handed_one.
Qed.

Lemma resume_account_ok : account_ok items now (resumeDefaultPlanAllowances items now (pg_id p) (pg_id g) v s).
Proof.
  assert (Hone : forall x, x ∈ ac_grants s -> isActive x = true -> x = g) by (intros; by apply (ok_one _ _ _ Hs)).
  pose proof Hs as [H1 H2 H3 [H4 H4'] H5 H6 H7 H8 H9]. split; cbn; try done.
  - split.
    + rewrite map_map, (List.map_ext_in _ aw_id); [done|]. intros r Hr%list_elem_of_In. by apply resume_fields.
    + intros r' (r & -> & Hr)%list_elem_of_fmap. rewrite (proj1 (resume_fields r Hr)). auto.
  - intros r' (r & -> & Hr)%list_elem_of_fmap. destruct (resume_cases r Hr) as [->|(it & Hh & ->)]; [auto|].
    exists g, it. by apply handed_row_ok.
  - intros r' (r & -> & Hr)%list_elem_of_fmap. destruct (resume_cases r Hr) as [->|(it & Hh & ->)]; [auto|].
    intros _. exists g. cbn. by rewrite Ev, (hd_item _ _ Hh).
  - intros r' q' (r & -> & Hr)%list_elem_of_fmap (q & -> & Hq)%list_elem_of_fmap Hne Hrel.
    destruct (resume_related r q Hr Hq Hrel) as [_ [->|(E1 & E2 & Hrel')]]; [done|]. rewrite E1, E2 in *. by apply H7.
  - intros r' q' (r & -> & Hr)%list_elem_of_fmap (q & -> & Hq)%list_elem_of_fmap Hrel Er Es.
    destruct (resume_related r q Hr Hq Hrel) as [_ [->|(E1 & E2 & Hrel')]]; [done|]. rewrite E1, E2 in *. by apply H8.
  - intros r' (r & -> & Hr)%list_elem_of_fmap x rs Hx Eid Ha Eres. pose proof (Hone x Hx Ha) as ->.
    destruct (resume_cases r Hr) as [E|(it & Hh & E)]; rewrite E in *; [by destruct (Hfresh r Hr)|].
    left. rewrite <- E, (proj2 (proj2 (proj2 (proj2 (proj2 (resume_fields r Hr)))))), (hd_reset _ _ Hh) in Eres. injection Eres as <-.
    cbn. rewrite (hd_start _ _ Hh), Est. lia.
Qed.
End Resume.

(** *** The catch-up *)

Lemma previous_spec gs : match previousDefaultGrant gs with Some p => p ∈ gs /\ isDefault p = true | None => forall g, g ∈ gs -> isDefault g = false end.
Proof.
  unfold previousDefaultGrant. assert (H : forall l, match fold_left (fun latest g => match latest with None => Some g
      | Some l => if laterGrant l g then Some g else latest end) l None with Some p => p ∈ l | None => l = [] end).
  { induction l as [|x l IH] using rev_ind; [done|]. rewrite fold_left_app. cbn.
    destruct (fold_left _ l None) as [y|]; [destruct (laterGrant y x)|]; set_solver. }
  specialize (H (List.filter isDefault gs)). destruct (fold_left _ _ None) as [p|].
  - apply list_elem_of_In, filter_In in H as [Hp Hd]. split; [by apply list_elem_of_In|done].
  - intros g Hg. destruct (isDefault g) eqn:E; [|done]. assert (Hin : g ∈ List.filter isDefault gs) by (by apply list_elem_of_In, filter_In; split; [apply list_elem_of_In|]).
    rewrite H in Hin. by apply elem_of_nil in Hin.
Qed.

(** Nothing the account holds blocks the default plan once elapsed grants are recorded. *)
Lemma none_active now s : account_ok items now s -> (forall g, g ∈ ac_grants s -> isActive g = true -> running now g = true) ->
  heldDefaultGrant (ac_grants s) = None -> heldBasePlan false now (ac_grants s) = false -> forall g, g ∈ ac_grants s -> isActive g = false.
Proof.
  intros Hs Hrun Hh Hb g Hg. destruct (isActive g) eqn:Ha; [exfalso|done]. apply list_elem_of_In in Hg as Hg'.
  destruct (ok_grants _ _ _ Hs g Hg) as [_ _ He Hb' _]. specialize (Hrun g Hg Ha). specialize (Hb' Ha).
  pose proof (find_none _ _ Hh g Hg') as Hd. cbn in Hd. rewrite Ha, andb_true_r in Hd.
  unfold heldBasePlan in Hb. cbn in Hb. apply bool_decide_eq_false in Hb. apply Hb.
  destruct (activeBaseGrant now (ac_grants s)) eqn:E; [by eexists|]. pose proof (find_none _ _ E g Hg') as Hn. cbn in Hn.
  unfold running in Hrun. rewrite Hd, Ha, Hb' in Hn. cbn in Hn. destruct (pg_ends_at g); [by rewrite Hrun in Hn|]. congruence.
Qed.

(** What a published default plan is: a version whose allocations reset. *)
Definition target_ok (target : option DefaultPlanTarget) : Prop := match target with Some t => resetting items (tg_version t) | None => True end.

Definition startedGrant (newId now : Z) (t : DefaultPlanTarget) (s : Account) : PlanGrant :=
  {| pg_id := newId; pg_plan := tg_plan t; pg_version := tg_version t; pg_base := true; pg_origin := origin_default; pg_status := grant_active;
     pg_starts_at := match previousDefaultGrant (ac_grants s) with Some p => pg_starts_at p | None => now end;
     pg_ends_at := None; pg_ended_at := None; pg_keys := tg_keys t; pg_created_at := now |}.

Lemma started_ok now s newId t : modern now -> account_ok items now s -> resetting items (tg_version t) ->
  newId ∉ map pg_id (ac_grants s) -> (forall g, g ∈ ac_grants s -> isActive g = false) ->
  account_ok items now (set_grants s (ac_grants s ++ [startedGrant newId now t s])).
Proof.
  intros Hn Hs Ht Hid Hno. apply grant_added_ok; [done|done|done|]. pose proof (previous_spec (ac_grants s)) as Hp. unfold startedGrant.
  split; cbn; [| |done|done|by intros _ _].
  - destruct (previousDefaultGrant _) as [p|]; [destruct Hp as [Hp _]; by destruct (ok_grants _ _ _ Hs p Hp)|done].
  - destruct (previousDefaultGrant _) as [p|]; [destruct Hp as [Hp _]; by destruct (ok_grants _ _ _ Hs p Hp)|lia].
Qed.

(** What a reconcile does, once elapsed grants are recorded. *)
Inductive reconciled (target : option DefaultPlanTarget) (funding : bool) (newId now : Z) (s : Account) : Account -> Prop :=
  | rc_closed g st : g ∈ ac_grants s -> isActive g = true -> isDefault g = true -> st <> grant_active ->
      defaultPlanReadVersion target funding now (ac_grants s) = None ->
      reconciled target funding newId now s (clampPlanGrantAllocations now (pg_id g) (closeGrant st now (pg_id g) s))
  | rc_moved g t : g ∈ ac_grants s -> isActive g = true -> isDefault g = true -> target = Some t ->
      heldBasePlan funding now (ac_grants s) = false ->
      reconciled target funding newId now s (moveGrant items now (pg_id g) t (negb (pg_version g =? tg_version t)) s)
  | rc_settled g t : g ∈ ac_grants s -> isActive g = true -> isDefault g = true -> target = Some t ->
      heldBasePlan funding now (ac_grants s) = false -> pg_version g = tg_version t -> reconciled target funding newId now s s
  | rc_nothing : heldDefaultGrant (ac_grants s) = None -> defaultPlanReadVersion target funding now (ac_grants s) = None ->
      reconciled target funding newId now s s
  | rc_started t : (forall g, g ∈ ac_grants s -> isActive g = false) -> target = Some t -> heldBasePlan funding now (ac_grants s) = false ->
      previousDefaultGrant (ac_grants s) = None ->
      reconciled target funding newId now s (set_grants s (ac_grants s ++ [startedGrant newId now t s]))
  | rc_resumed t p : (forall g, g ∈ ac_grants s -> isActive g = false) -> target = Some t -> heldBasePlan funding now (ac_grants s) = false ->
      previousDefaultGrant (ac_grants s) = Some p ->
      reconciled target funding newId now s (resumeDefaultPlanAllowances items now (pg_id p) newId (tg_version t)
        (set_grants s (ac_grants s ++ [startedGrant newId now t s]))).

Lemma held_spec gs g : heldDefaultGrant gs = Some g -> g ∈ gs /\ isActive g = true /\ isDefault g = true.
Proof. intros [Hg E]%find_some. bool_to_prop. split_and!; try done. by apply list_elem_of_In. Qed.

Lemma reconcile_cases target funding newId now s : account_ok items now s ->
  (forall g, g ∈ ac_grants s -> isActive g = true -> running now g = true) ->
  reconciled target funding newId now s (fst (reconcileDefaultPlanGrant items target funding newId now s)).
Proof.
  intros Hs Hrun. unfold reconcileDefaultPlanGrant. destruct (heldDefaultGrant (ac_grants s)) as [g|] eqn:Hh.
  - destruct (held_spec _ _ Hh) as (Hg & Ha & Hd). destruct (heldBasePlan funding now (ac_grants s)) eqn:Hb.
    + apply (rc_closed _ _ _ _ _ g grant_superseded); try done. unfold defaultPlanReadVersion. by rewrite Hb.
    + destruct target as [t|].
      * destruct (negb (negb (pg_version g =? tg_version t)) && _) eqn:E; cbn.
        -- bool_to_prop. by apply (rc_settled _ _ _ _ _ g t).
        -- by apply (rc_moved _ _ _ _ _ g t).
      * apply (rc_closed _ _ _ _ _ g grant_ended); try done. unfold defaultPlanReadVersion. by rewrite Hb.
  - destruct target as [t|]; cbn; [|apply rc_nothing; [done|unfold defaultPlanReadVersion; by destruct (heldBasePlan _ _ _)]].
    destruct (heldBasePlan funding now (ac_grants s)) eqn:Hb; cbn; [apply rc_nothing; [done|unfold defaultPlanReadVersion; by rewrite Hb]|].
    assert (Hno : forall g, g ∈ ac_grants s -> isActive g = false).
    { apply (none_active now s Hs Hrun Hh). unfold heldBasePlan in *. by destruct funding. }
    unfold startDefaultPlan. destruct (existsb _ (ac_grants s)) eqn:Ex.
    { apply existsb_exists in Ex as (g & Hg%list_elem_of_In & E). by rewrite (Hno g Hg) in E. }
    destruct (previousDefaultGrant (ac_grants s)) as [p|] eqn:Hp; cbn.
    + pose proof (rc_resumed (Some t) funding newId now s t p Hno eq_refl Hb Hp) as H. unfold startedGrant in H. by rewrite Hp in H.
    + pose proof (rc_started (Some t) funding newId now s t Hno eq_refl Hb Hp) as H. unfold startedGrant in H. by rewrite Hp in H.
Qed.

(** The state in which a fall back hands the previous grant's allowances over. *)
Section Fallback.
Context (now : Z) (s : Account) (newId : Z) (t : DefaultPlanTarget) (p : PlanGrant).
Hypotheses (Hn : modern now) (Hs : account_ok items now s) (Ht : resetting items (tg_version t))
  (Hid : newId ∉ map pg_id (ac_grants s)) (Hno : forall g, g ∈ ac_grants s -> isActive g = false)
  (Hp : previousDefaultGrant (ac_grants s) = Some p) (Hal : resume_aligned now s (tg_version t)).
Local Abbreviation started := (startedGrant newId now t s).
Local Abbreviation s1 := (set_grants s (ac_grants s ++ [started])).

Lemma fallback_facts : account_ok items now s1 /\ p ∈ ac_grants s1 /\ started ∈ ac_grants s1 /\ isActive p = false /\ isDefault p = true /\
  pg_starts_at started = pg_starts_at p /\ (forall r, r ∈ ac_allowances s1 -> aw_grant r <> pg_id started) /\
  (forall r it e, r ∈ ac_allowances s1 -> aw_grant r = pg_id p -> aw_start r <= now -> aw_end r = Some e -> now < e ->
     sameResetItem items (tg_version t) r = Some it -> aw_start r = cellStart (pg_starts_at p) (itemReset it) now).
Proof.
  pose proof (previous_spec (ac_grants s)) as Hsp. rewrite Hp in Hsp. destruct Hsp as [Hin Hd]. split_and!.
  - by apply started_ok.
  - cbn. set_solver +Hin.
  - cbn. apply elem_of_app. right. constructor.
  - by apply Hno.
  - done.
  - unfold startedGrant. cbn. by rewrite Hp.
  - intros r Hr E. cbn in E. apply Hid. rewrite <- E. destruct (ok_rows _ _ _ Hs r Hr) as (x & a & Hok).
    rewrite <- (rk_id _ _ _ _ _ _ Hok). apply list_elem_of_fmap_2, (rk_grant _ _ _ _ _ _ Hok).
  - intros r it e Hr. by apply Hal.
Qed.

Lemma fallback_ok : account_ok items now (resumeDefaultPlanAllowances items now (pg_id p) newId (tg_version t) s1).
Proof.
  destruct fallback_facts as (H1 & H2 & H3 & H4 & H5 & H6 & H7 & H8).
  by apply (resume_account_ok now s1 p started (tg_version t)).
Qed.
End Fallback.

Lemma reconciled_ok target funding newId now s s' : modern now -> account_ok items now s -> target_ok target ->
  newId ∉ map pg_id (ac_grants s) -> (forall t, target = Some t -> resume_aligned now s (tg_version t)) ->
  reconciled target funding newId now s s' -> account_ok items now s'.
Proof.
  intros Hn Hs Ht Hid Hal [g st Hg Ha Hd Hst _|g t Hg Ha Hd -> _|g t _ _ _ _ _ _| |t Hno -> _ Hp|t p Hno -> _ Hp].
  - by apply closeGrant_ok.
  - by apply moveGrant_ok.
  - done.
  - done.
  - by apply started_ok.
  - apply fallback_ok; auto.
Qed.

(** Recording elapsed grants changes nothing a read looks at. *)
Definition expiredGrant (now : Z) (s : Account) (g : PlanGrant) : PlanGrant :=
  if bool_decide (pg_id g ∈ dueIds now s) then close grant_expired (default now (pg_ends_at g)) g else g.

Lemma expire_grants now s : ac_grants (expireCustomerPlanGrants now s) = map (expiredGrant now s) (ac_grants s).
Proof. done. Qed.

Lemma expire_row now s g : account_ok items now s -> g ∈ ac_grants s ->
  expiredGrant now s g = g \/ (isActive (expiredGrant now s g) = false /\ isDefault (expiredGrant now s g) = false /\
    isDefault g = false /\ running now g = false).
Proof.
  intros Hs Hg. unfold expiredGrant. case_bool_decide as Hd; [right|by left]. apply (due_elapsed now s g Hs Hg) in Hd.
  destruct (ok_grants _ _ _ Hs g Hg) as [_ _ He _ _]. unfold elapsed, running in *. destruct (pg_ends_at g) as [e|] eqn:Ee; [|by rewrite andb_false_r in Hd].
  destruct He as [He _]. bool_to_prop. split_and!; try done. by apply Z.ltb_ge.
Qed.

(** A filter of default or running active grants keeps the same rows. *)
Lemma expire_filter now s (p : PlanGrant -> bool) : account_ok items now s ->
  (forall g, isDefault g = false -> isActive g = false \/ running now g = false -> p g = false) ->
  List.filter p (ac_grants (expireCustomerPlanGrants now s)) = List.filter p (ac_grants s).
Proof.
  intros Hs H. rewrite expire_grants. apply filter_map_same. intros g Hg.
  destruct (expire_row now s g Hs Hg) as [E|(E1 & E2 & E3 & E4)]; [by rewrite E|]. rewrite (H (expiredGrant now s g)), (H g); auto. done.
Qed.

Lemma expire_previous now s : account_ok items now s -> previousDefaultGrant (ac_grants (expireCustomerPlanGrants now s)) = previousDefaultGrant (ac_grants s).
Proof. intros Hs. unfold previousDefaultGrant. f_equal. apply expire_filter; auto. Qed.

Lemma expire_held now s : account_ok items now s -> heldDefaultGrant (ac_grants (expireCustomerPlanGrants now s)) = heldDefaultGrant (ac_grants s).
Proof. intros Hs. unfold heldDefaultGrant. rewrite !find_filter. f_equal. apply expire_filter; [done|]. by intros g ->. Qed.

Lemma expire_base funding now s : account_ok items now s ->
  heldBasePlan funding now (ac_grants (expireCustomerPlanGrants now s)) = heldBasePlan funding now (ac_grants s).
Proof.
  intros Hs. unfold heldBasePlan, activeBaseGrant. rewrite !find_filter, expire_filter; [done|done|].
  intros g -> [->|E]; [done|]. unfold running in E. destruct (pg_ends_at g); [|by rewrite !andb_false_r]. by rewrite E, !andb_false_r.
Qed.

Lemma expire_sources target funding now s : account_ok items now s ->
  windowSources (Some (target, funding)) now (ac_grants (expireCustomerPlanGrants now s)) = windowSources (Some (target, funding)) now (ac_grants s).
Proof.
  intros Hs. unfold windowSources. f_equal.
  - f_equal. apply expire_filter; [done|]. by intros g _ [->| ->]; rewrite ?andb_false_r.
  - unfold defaultPlanReadGrant, defaultPlanReadVersion. by rewrite (expire_base funding now s Hs), (expire_held now s Hs), (expire_previous now s Hs).
Qed.

Lemma counted_expire target funding now s f : account_ok items now s ->
  counted items target funding now (expireCustomerPlanGrants now s) f = counted items target funding now s f.
Proof.
  intros Hs. unfold counted, readPendingAllowances, readPlanGrantWindows. rewrite (expire_sources target funding now s Hs).
  change (ac_allowances (expireCustomerPlanGrants now s)) with (ac_allowances s).
  rewrite (List.filter_ext _ (fun r => (aw_feature r =? f) && negb (closedAllowance items target funding now s r))); [done|].
  intros r. unfold closedAllowance, defaultPlanAllowanceEnding, defaultPlanReadVersion.
  rewrite (expire_base funding now s Hs), !existsb_filter_head, (expire_filter now s _ Hs); [done|]. intros g -> _. by rewrite andb_false_r.
Qed.

Lemma catchUp_ok target funding newId now s : modern now -> account_ok items now s -> target_ok target ->
  newId ∉ map pg_id (ac_grants s) -> (forall t, target = Some t -> resume_aligned now s (tg_version t)) ->
  account_ok items now (expireCustomerPlanGrants now s) /\
  reconciled target funding newId now (expireCustomerPlanGrants now s) (catchUpPlanGrants items target funding newId now s) /\
  account_ok items now (catchUpPlanGrants items target funding newId now s).
Proof.
  intros Hn Hs Ht Hid Hal. split; [by apply elapsed_expire_ok|].
  assert (Hrc : reconciled target funding newId now (expireCustomerPlanGrants now s) (catchUpPlanGrants items target funding newId now s)).
  { apply reconcile_cases; [by apply elapsed_expire_ok|]. intros g Hg Ha. apply (expired_running now s g Hs Hg Ha). }
  split; [done|]. eapply reconciled_ok; [done|by apply elapsed_expire_ok|done| | |done].
  - by rewrite expire_ids.
  - intros t Et p r it e. rewrite (expire_previous now s Hs). by apply Hal.
Qed.

(** *** Settled accounts *)

(** An account with nothing to catch up: its default-plan grant gives the published version, or
    it holds none and would start none. *)
Inductive settled (target : option DefaultPlanTarget) (funding : bool) (now : Z) (s : Account) : Prop :=
  | settled_none : heldDefaultGrant (ac_grants s) = None -> defaultPlanReadVersion target funding now (ac_grants s) = None ->
      settled target funding now s
  | settled_held g t : heldDefaultGrant (ac_grants s) = Some g -> target = Some t -> heldBasePlan funding now (ac_grants s) = false ->
      pg_version g = tg_version t -> settled target funding now s.

Lemma no_catchUp_settled target funding now s : planGrantsNeedCatchUp target funding now s = false -> settled target funding now s.
Proof.
  unfold planGrantsNeedCatchUp, defaultPlanOutOfDate, defaultPlanPending. intros H. bool_to_prop.
  destruct (heldDefaultGrant (ac_grants s)) as [g|] eqn:Hh.
  - destruct (held_spec _ _ Hh) as (Hg & Ha & Hd). assert (Hx : (isDefault g && isActive g && match target with None => true | Some t =>
      negb (pg_version g =? tg_version t) || negb (bool_decide (pg_keys g = tg_keys t)) || heldBasePlan funding now (ac_grants s) end) = false).
    { apply not_true_is_false. intros E. match goal with H : existsb _ _ = false |- _ => rewrite (proj2 (existsb_exists _ _)) in H; [done|] end.
      exists g. split; [by apply list_elem_of_In|done]. }
    rewrite Ha, Hd in Hx. cbn in Hx. destruct target as [t|]; [|done]. bool_to_prop. by apply (settled_held _ _ _ _ g t).
  - apply settled_none; [done|]. unfold defaultPlanReadVersion. destruct target as [t|]; [|by destruct (heldBasePlan _ _ _)].
    unfold heldDefaultGrant in Hh. rewrite find_filter in Hh.
    match goal with H : bool_decide _ && negb (existsb ?p _) && _ = false |- _ => rewrite (existsb_filter_head p) in H end.
    destruct (List.filter _ (ac_grants s)); [|done]. rewrite bool_decide_true in * by by eexists.
    rewrite bool_decide_false in * by by intros []. cbn in *. bool_to_prop. by destruct (heldBasePlan _ _ _).
Qed.

(** With one active grant, which is the default plan's, no grant with an end counts. *)
Lemma default_only now s g : account_ok items now s -> g ∈ ac_grants s -> isActive g = true -> isDefault g = true ->
  List.filter (fun x => isActive x && running now x && negb (isDefault x)) (ac_grants s) = [] /\ activeBaseGrant now (ac_grants s) = None.
Proof.
  intros Hs Hg Ha Hd. assert (H : forall x, x ∈ ac_grants s -> isActive x = true -> isDefault x = false -> False).
  { intros x Hx Hxa Hxd. rewrite (ok_one _ _ _ Hs x g Hx Hg Hxa Ha) in Hxd. congruence. }
  split.
  - apply filter_none. intros x Hx. destruct (isActive x) eqn:E1; [|done]. destruct (isDefault x) eqn:E2; [by rewrite andb_false_r|by destruct (H x)].
  - unfold activeBaseGrant. rewrite find_filter, filter_none; [done|]. intros x Hx.
    destruct (isActive x) eqn:E1; [|by rewrite andb_false_r]. destruct (isDefault x) eqn:E2; [done|by destruct (H x)].
Qed.

(** A read of a settled account looks at the sources a write opens. *)
Lemma settled_sources target funding now s : account_ok items now s -> settled target funding now s ->
  windowSources (Some (target, funding)) now (ac_grants s) = windowSources None now (ac_grants s).
Proof.
  intros Hs [Hh Hv|g t Hh -> Hb Ev]; unfold windowSources, defaultPlanReadGrant.
  - rewrite Hv. cbn. f_equal. f_equal. apply List.filter_ext_in. intros g Hg%list_elem_of_In. rewrite andb_true_r.
    destruct (isActive g) eqn:Ha; [|done]. destruct (isDefault g) eqn:Hd; [|by rewrite andb_true_r].
    apply list_elem_of_In in Hg. pose proof (find_none _ _ Hh g Hg) as Hn. cbn in Hn. by rewrite Ha, Hd in Hn.
  - destruct (held_spec _ _ Hh) as (Hg & Ha & Hd). destruct (default_only now s g Hs Hg Ha Hd) as [-> _].
    unfold defaultPlanReadVersion. rewrite Hb, Hh. cbn.
    destruct (ok_grants _ _ _ Hs g Hg) as [_ _ He _ _]. assert (Hge : pg_ends_at g = None) by (destruct (pg_ends_at g); [destruct He; congruence|done]).
    destruct (openSources now s Hs) as [[_ Hno]|(x & Hx & Hxa & _ & E)].
    + specialize (Hno g Hg). unfold running in Hno. by rewrite Ha, Hge in Hno.
    + rewrite (ok_one _ _ _ Hs x g Hx Hg Hxa Ha) in E. unfold windowSources in E. rewrite E. unfold grantSource. by rewrite Hge, <- Ev.
Qed.

Lemma existsb_versionItem v f : existsb (fun x => (it_version x =? v) && it_account x && (it_feature x =? f)) items = bool_decide (versionItem items v f <> None).
Proof.
  rewrite existsb_filter_head. unfold versionItem. rewrite find_filter. by destruct (List.filter _ items).
Qed.

Lemma default_grant_held now s r g : account_ok items now s -> g ∈ ac_grants s -> isActive g = true -> isDefault g = true ->
  existsb (fun held => (pg_id held =? aw_grant r) && isDefault held && isActive held) (ac_grants s) = (pg_id g =? aw_grant r).
Proof.
  intros Hs Hg Ha Hd. destruct (Z.eqb_spec (pg_id g) (aw_grant r)) as [E|E].
  - apply existsb_exists. exists g. split; [by apply list_elem_of_In|]. by rewrite E, Z.eqb_refl, Ha, Hd.
  - apply not_true_is_false. intros (x & Hx%list_elem_of_In & Ex)%existsb_exists. bool_to_prop.
    apply E. by rewrite <- (ok_one _ _ _ Hs x g).
Qed.

(** ... and lists the allowances a write locks. *)
Lemma settled_listed target funding now s f : account_ok items now s -> settled target funding now s ->
  map content (List.filter (fun r => (aw_feature r =? f) && negb (closedAllowance items target funding now s r)) (ac_allowances s)) = spendable now s f.
Proof.
  intros Hs Hst. unfold spendable. f_equal. apply List.filter_ext_in. intros r Hr%list_elem_of_In. rewrite <- andb_assoc. f_equal.
  unfold closedAllowance. rewrite bool_decide_not, !negb_orb, !negb_involutive, <- andb_assoc. f_equal.
  destruct (live now r) eqn:Hl; [|done]. cbn. apply negb_true_iff. unfold defaultPlanAllowanceEnding.
  destruct (ok_live _ _ _ Hs r Hr Hl) as (g & Hg & Eid & Ha & Hv). destruct Hst as [Hh _|g' t Hh -> Hb Ev].
  - unfold heldDefaultGrant in Hh. rewrite find_filter in Hh.
    match goal with |- existsb ?p _ && _ = false => assert (Ee : existsb p (ac_grants s) = false) end; [|by rewrite Ee].
    apply not_true_is_false. intros (x & Hx & Ex)%existsb_exists. bool_to_prop. assert (Hin : x ∈ List.filter (fun g => isDefault g && isActive g) (ac_grants s)).
    { apply list_elem_of_In, filter_In. split; [done|]. by apply andb_true_iff. }
    destruct (List.filter _ (ac_grants s)); [by apply elem_of_nil in Hin|done].
  - destruct (held_spec _ _ Hh) as (Hg' & Ha' & Hd'). rewrite (default_grant_held now s r g' Hs Hg' Ha' Hd').
    unfold defaultPlanReadVersion. rewrite Hb. cbn. rewrite existsb_versionItem.
    rewrite (ok_one _ _ _ Hs g g' Hg Hg' Ha Ha'), Ev in Hv. by rewrite bool_decide_true, andb_false_r by done.
Qed.

(** Opening gives a settled account what a read of it counted, and leaves nothing to count. *)
Lemma settled_open target funding now s f : modern now -> account_ok items now s -> settled target funding now s -> exists s' c,
  openPlanGrantWindows items f now s = Ok s' /\ account_ok items now s' /\ counted items target funding now s f = Ok c /\
  spendable now s' f ≡ₚ c /\ readPendingAllowances items (Some f) target funding now s' = Ok [] /\
  counted items target funding now s' f = Ok (spendable now s' f).
Proof.
  intros Hn Hs Hst. destruct (open_ok now s f Hn Hs) as (s' & ws & ws' & E1 & Hs' & Eg & E2 & Hsp & E3 & E4).
  assert (Hst' : settled target funding now s') by (destruct Hst; [eapply settled_none|eapply settled_held]; rewrite ?Eg; eauto).
  exists s', (spendable now s f ++ map pendingContent (flat_map (pendingOf now) ws)). split_and!; try done.
  - unfold counted, readPendingAllowances, readPlanGrantWindows in *. rewrite (settled_sources target funding now s Hs Hst), E2. cbn.
    by rewrite (settled_listed target funding now s f Hs Hst).
  - unfold readPendingAllowances, readPlanGrantWindows in *. rewrite (settled_sources target funding now s' Hs' Hst'), E3. cbn. by rewrite E4.
  - unfold counted, readPendingAllowances, readPlanGrantWindows in *. rewrite (settled_sources target funding now s' Hs' Hst'), E3. cbn.
    by rewrite E4, (settled_listed target funding now s' f Hs' Hst'), app_nil_r.
Qed.

(** What a read counts of the default plan's item of a feature. *)
Definition pendingCell (rows : list Allowance) (now : Z) (so : Source) (it : PlanItem) : list (WindowAllocation * option Z) :=
  let start := windowStart items rows now so it in
  let expires := least (Some (cellEnd (so_anchor so) (itemReset it) now)) (expiresAtSql start it) in
  if now <? start then []
  else if match expires with Some x => x <=? now | None => false end then []
  else match createdIn items rows so it start with
       | None => [(untouched (it_quantity it), expires)]
       | Some l => if bool_decide (so_grant so <> None) && (bool_decide (aw_reversed_at l <> None) || live now l) then [] else [(aw_use l, expires)]
       end.

#[local] Arguments least : simpl never.

Lemma default_pending rows now so it : modern now -> it ∈ items -> source_ok now so -> so_ends so = None -> it_reset it <> None ->
  exists w, toWindow items rows now (so, it) = Ok w /\ map pendingContent (pendingOf now w) = pendingCell rows now so it.
Proof.
  intros Hn Hit Hso He Hr. destruct (toWindow_spec items rows now so it Hn (ck_reset _ Hcat it Hit) (ck_expiry _ Hcat it Hit) Hso)
    as (w & Ew & W1 & W2 & W3 & W4 & W5 & W6 & W7 & W8).
  exists w. split; [done|]. unfold pendingOf, pendingCell. rewrite W1, W6, W7. cbn.
  destruct (Z.ltb_spec now (windowStart items rows now so it)) as [?|HW]; [done|]. destruct (W8 HW) as (endAt & expires & Hw).
  pose proof (wo_least _ _ _ _ _ _ _ _ Hw) as Hl. rewrite (wo_full _ _ _ _ _ _ _ _ Hw He Hr) in Hl. rewrite <- Hl.
  rewrite (wo_expires _ _ _ _ _ _ _ _ Hw), (wo_resumes _ _ _ _ _ _ _ _ Hw). clear W8 Hw.
  destruct expires as [x|]; [cbn|by destruct (expiresAtSql _ it)].
  destruct (Z.leb_spec x now) as [?|Hx]; [done|]. destruct (createdIn _ _ _ _ _) as [l|]; [|rewrite W4; cbn; by rewrite andb_false_r].
  rewrite (bool_decide_true (Some l <> None)), andb_true_r by done. replace (now <? x) with true by (symmetry; by apply Z.ltb_lt).
  rewrite andb_true_r, (bool_decide_not (aw_reversed_at l = None)).
  destruct (bool_decide (so_grant so <> None)), (bool_decide (aw_reversed_at l = None)), (live now l); done.
Qed.

Lemma counted_default target funding now s f so : modern now ->
  windowSources (Some (target, funding)) now (ac_grants s) = [so] -> source_ok now so -> so_ends so = None -> resetting items (so_version so) ->
  counted items target funding now s f = Ok (map content (List.filter (fun r => (aw_feature r =? f) &&
     negb (closedAllowance items target funding now s r)) (ac_allowances s)) ++
   match versionItem items (so_version so) f with Some it => pendingCell (ac_allowances s) now so it | None => [] end).
Proof.
  intros Hn E Hso He Hr. unfold counted, readPendingAllowances. rewrite (readPlanGrantWindows_one _ now s f (Some so) E). cbn.
  destruct (versionItem items (so_version so) f) as [it|] eqn:Ev; [|done]. cbn. destruct (versionItem_Some _ _ _ _ Ev) as (Hit & Hv & Hacc & _).
  destruct (default_pending (ac_allowances s) now so it Hn Hit Hso He (Hr it Hit Hv Hacc)) as (w & -> & <-). cbn. by rewrite app_nil_r.
Qed.

Lemma counted_nothing target funding now s f : windowSources (Some (target, funding)) now (ac_grants s) = [] ->
  counted items target funding now s f = Ok (map content (List.filter (fun r => (aw_feature r =? f) &&
     negb (closedAllowance items target funding now s r)) (ac_allowances s))).
Proof.
  intros E. unfold counted, readPendingAllowances. rewrite (readPlanGrantWindows_one _ now s f None E). cbn. by rewrite app_nil_r.
Qed.

(** *** Catching up changes nothing a read counts *)

Local Abbreviation listed target funding now s f := (map content (List.filter (fun r => (aw_feature r =? f) &&
  negb (closedAllowance items target funding now s r)) (ac_allowances s))).

Lemma latestAllowance_map h rows : (forall r, r ∈ rows -> aw_start (h r) = aw_start r) -> latestAllowance (map h rows) = h <$> latestAllowance rows.
Proof.
  unfold latestAllowance. induction rows as [|x rows IH] using rev_ind; [done|]. intros H. rewrite map_app, !fold_left_app. cbn.
  rewrite IH by (intros; apply H; set_solver). pose proof (latestAllowance_spec rows) as Hl. unfold latestAllowance in Hl.
  destruct (fold_left _ rows None) as [l|]; [|done]. cbn. rewrite !H by set_solver. by destruct (_ <? _).
Qed.

Lemma otherResetEndsAt_map h rows : (forall r, r ∈ rows -> aw_expires (h r) = aw_expires r) -> otherResetEndsAt (map h rows) = otherResetEndsAt rows.
Proof.
  unfold otherResetEndsAt. induction rows as [|x rows IH] using rev_ind; [done|]. intros H. rewrite map_app, !fold_left_app. cbn.
  rewrite IH by (intros; apply H; set_solver). rewrite H by set_solver. done.
Qed.

(** A read of the item counts the same after an update of other features' allowances. *)
Lemma pendingCell_map h rows now so it :
  (forall r, r ∈ rows -> aw_feature (h r) = aw_feature r /\ aw_grant (h r) = aw_grant r /\ resetOf items (h r) = resetOf items r /\
     aw_start (h r) = aw_start r /\ aw_reversed_at (h r) = aw_reversed_at r) ->
  (forall r, r ∈ rows -> so_allocations so = Some (aw_grant r) \/ so_grant so = Some (aw_grant r) -> aw_feature r = it_feature it -> content (h r) = content r) ->
  pendingCell (map h rows) now so it = pendingCell rows now so it.
Proof.
  intros Hh Hc.
  assert (Hon : forall grant same, allowancesOn items grant it same (map h rows) = map h (allowancesOn items grant it same rows)).
  { intros grant same. unfold allowancesOn. rewrite filter_map_comm. f_equal. apply List.filter_ext_in. intros r Hr%list_elem_of_In.
    destruct (Hh r Hr) as (-> & -> & E & _). unfold resetOf in E. f_equal.
    destruct (itemOf items (aw_item (h r))) as [a|], (itemOf items (aw_item r)) as [b|]; try done. cbn in E. f_equal.
    apply eq_bool_prop_intro. split; intros Hx%Is_true_true; apply Is_true_true; apply sameReset_spec; apply sameReset_spec in Hx; congruence. }
  assert (Hin : forall grant same r, r ∈ allowancesOn items grant it same rows -> r ∈ rows /\ grant = Some (aw_grant r) /\ aw_feature r = it_feature it).
  { intros grant same r Hr. apply elem_allowancesOn in Hr as (? & ? & ? & _). done. }
  assert (Ew : windowStart items (map h rows) now so it = windowStart items rows now so it).
  { unfold windowStart. rewrite Hon, otherResetEndsAt_map; [done|]. intros r Hr. destruct (Hin _ _ _ Hr) as (Hr1 & Hr2 & Hr3).
    by injection (Hc r Hr1 (or_intror Hr2) Hr3). }
  assert (Ec : forall st, createdIn items (map h rows) so it st = h <$> createdIn items rows so it st).
  { intros st. unfold createdIn. rewrite Hon, latestAllowance_map by (intros r Hr; apply Hh; by destruct (Hin _ _ _ Hr)).
    pose proof (latestAllowance_spec (allowancesOn items (so_allocations so) it true rows)) as Hl.
    destruct (latestAllowance _) as [l|]; [|done]. cbn. destruct (Hin _ _ _ (proj1 Hl)) as (Hl1 & _ & _). destruct (Hh l Hl1) as (_ & _ & _ & -> & _).
    by destruct (decide _). }
  unfold pendingCell. rewrite Ew, Ec. destruct (createdIn items rows so it _) as [l|] eqn:El; [|done]. cbn.
  unfold createdIn in El. pose proof (latestAllowance_spec (allowancesOn items (so_allocations so) it true rows)) as Hl.
  destruct (latestAllowance _) as [x|]; [|done]. destruct (decide _); [|done]. injection El as ->.
  destruct (Hin _ _ _ (proj1 Hl)) as (Hl1 & Hl2 & Hl3). destruct (Hh l Hl1) as (_ & _ & _ & _ & ->).
  injection (Hc l Hl1 (or_introl Hl2) Hl3) as Hu Hx. unfold live. by rewrite Hx, Hu.
Qed.

(** An account without an active grant has no live allowance, and lists none. *)
Lemma inactive_dead now s r : account_ok items now s -> (forall g, g ∈ ac_grants s -> isActive g = false) -> r ∈ ac_allowances s -> live now r = false.
Proof.
  intros Hs Hno Hr. destruct (live now r) eqn:Hl; [|done]. destruct (ok_live _ _ _ Hs r Hr Hl) as (g & Hg & _ & Ha & _). by rewrite Hno in Ha.
Qed.

Lemma dead_closed target funding now s r : live now r = false -> closedAllowance items target funding now s r = true.
Proof. intros H. unfold closedAllowance. by rewrite H, orb_true_r. Qed.

Lemma dead_listed target funding now s f : (forall r, r ∈ ac_allowances s -> live now r = false) -> listed target funding now s f = [].
Proof.
  intros H. rewrite filter_none; [done|]. intros r Hr. by rewrite dead_closed, andb_false_r by auto.
Qed.

Lemma inactive_sources target funding now gs : (forall g, g ∈ gs -> isActive g = false) ->
  windowSources (Some (target, funding)) now gs = option_list (defaultPlanReadGrant target funding now gs) /\
  activeBaseGrant now gs = None /\ heldDefaultGrant gs = None.
Proof.
  intros Hno. split_and!.
  - unfold windowSources. by rewrite filter_none by (intros g Hg; by rewrite Hno).
  - unfold activeBaseGrant. rewrite find_filter, filter_none; [done|]. intros g Hg. by rewrite Hno, andb_false_r.
  - unfold heldDefaultGrant. rewrite find_filter, filter_none; [done|]. intros g Hg. by rewrite Hno, andb_false_r.
Qed.

Lemma counted_closed target funding now s f g st : account_ok items now s -> g ∈ ac_grants s -> isActive g = true -> isDefault g = true ->
  st <> grant_active -> defaultPlanReadVersion target funding now (ac_grants s) = None ->
  counted items target funding now (clampPlanGrantAllocations now (pg_id g) (closeGrant st now (pg_id g) s)) f = counted items target funding now s f.
Proof.
  intros Hs Hg Ha Hd Hst Hv. set (s' := clampPlanGrantAllocations _ _ _).
  assert (Hno : forall x, x ∈ ac_grants s' -> isActive x = false).
  { intros x' (x & -> & Hx)%list_elem_of_fmap. destruct (isActive x) eqn:Ex; [|by rewrite andb_false_r].
    rewrite (ok_one _ _ _ Hs x g Hx Hg Ex Ha), Z.eqb_refl. by apply close_inactive. }
  destruct (default_only now s g Hs Hg Ha Hd) as [Ef Eb]. destruct (inactive_sources target funding now (ac_grants s') Hno) as (Es & Eb' & Eh).
  assert (Hv' : defaultPlanReadVersion target funding now (ac_grants s') = None).
  { unfold defaultPlanReadVersion, heldBasePlan in *. rewrite Eb in Hv. by rewrite Eb'. }
  rewrite !counted_nothing; [|unfold windowSources, defaultPlanReadGrant; by rewrite Ef, Hv|rewrite Es; unfold defaultPlanReadGrant; by rewrite Hv'].
  f_equal. cbn [s' clampPlanGrantAllocations set_allowances closeGrant set_grants ac_allowances].
  apply filter_map_content. intros r Hr. unfold closedAllowance, defaultPlanAllowanceEnding. rewrite Hv, Hv', (default_grant_held now s r g Hs Hg Ha Hd).
  rewrite (existsb_none _ (ac_grants s')) by (intros x Hx; by rewrite Hno, andb_false_r). rewrite (Z.eqb_sym (pg_id g) (aw_grant r)).
  destruct (aw_grant r =? pg_id g) eqn:Eg; [|done]. cbn. destruct (live now r) eqn:Hl; cbn; [|rewrite Hl; cbn; by rewrite !orb_true_r, !andb_false_r].
  rewrite Z.ltb_irrefl. cbn. by rewrite !orb_true_r, !andb_false_r.
Qed.

Lemma moved_content now id v r : versionItem items v (aw_feature r) <> None \/ aw_grant r <> id ->
  content (endDropped items now id v (keepOnReset items now id v r)) = content r.
Proof.
  intros H. unfold keepOnReset. destruct ((aw_grant r =? id) && live now r) eqn:E.
  - assert (Hv : versionItem items v (aw_feature r) <> None) by (destruct H; [done|bool_to_prop; done]).
    unfold endDropped. destruct (sameResetItem items v r); cbn; by rewrite bool_decide_false, andb_false_r by done.
  - unfold endDropped. by rewrite E.
Qed.

(** The source a read counts for the default plan's grant: it with the published version. *)
Definition readSource (g : PlanGrant) (t : DefaultPlanTarget) : Source :=
  {| so_grant := Some (pg_id g); so_version := tg_version t; so_anchor := pg_starts_at g; so_ends := None; so_allocations := Some (pg_id g) |}.

Lemma default_held now s g : account_ok items now s -> g ∈ ac_grants s -> isActive g = true -> isDefault g = true ->
  heldDefaultGrant (ac_grants s) = Some g.
Proof.
  intros Hs Hg Ha Hd. destruct (heldDefaultGrant (ac_grants s)) as [x|] eqn:E.
  - destruct (held_spec _ _ E) as (Hx & Hxa & _). by rewrite (ok_one _ _ _ Hs x g).
  - apply list_elem_of_In in Hg. pose proof (find_none _ _ E g Hg) as Hn. cbn in Hn. by rewrite Ha, Hd in Hn.
Qed.

Lemma default_source now s g t : account_ok items now s -> g ∈ ac_grants s -> isActive g = true -> isDefault g = true ->
  defaultPlanReadVersion (Some t) false now (ac_grants s) = Some (tg_version t) /\
  windowSources (Some (Some t, false)) now (ac_grants s) = [readSource g t] /\ source_ok now (readSource g t).
Proof.
  intros Hs Hg Ha Hd. destruct (default_only now s g Hs Hg Ha Hd) as [Ef Eb].
  assert (Hv : defaultPlanReadVersion (Some t) false now (ac_grants s) = Some (tg_version t)) by (unfold defaultPlanReadVersion, heldBasePlan; by rewrite Eb).
  pose proof (default_held now s g Hs Hg Ha Hd) as Hh.
  split_and!; [done| |].
  - unfold windowSources, defaultPlanReadGrant. by rewrite Ef, Hv, Hh.
  - destruct (ok_grants _ _ _ Hs g Hg) as [? ? _ _ _]. by split.
Qed.

(** A read of a grant's rows after the move to the version it already read. *)
Lemma counted_moved now s f g t : modern now -> account_ok items now s -> g ∈ ac_grants s -> isActive g = true -> isDefault g = true ->
  resetting items (tg_version t) ->
  counted items (Some t) false now (moveGrant items now (pg_id g) t (negb (pg_version g =? tg_version t)) s) f = counted items (Some t) false now s f.
Proof.
  intros Hn Hs Hg Ha Hd Ht. pose proof (moveGrant_ok now s g t Hs Hg Ha Hd Ht) as Hs'.
  set (k := fun g' => if (pg_id g' =? pg_id g) && isActive g' then movedGrant t g' else g').
  set (h := if pg_version g =? tg_version t then id else
    fun r => endDropped items now (pg_id g) (tg_version t) (keepOnReset items now (pg_id g) (tg_version t) r)).
  assert (E : moveGrant items now (pg_id g) t (negb (pg_version g =? tg_version t)) s =
    {| ac_grants := map k (ac_grants s); ac_allowances := map h (ac_allowances s); ac_nextId := ac_nextId s |}).
  { unfold moveGrant, h. destruct (pg_version g =? tg_version t); cbn; [|done]. unfold set_grants. by rewrite map_id. }
  rewrite E in *. clear E. set (s' := {| ac_grants := _ |}) in *.
  assert (Hg' : movedGrant t g ∈ ac_grants s').
  { replace (movedGrant t g) with (k g) by (unfold k; by rewrite Z.eqb_refl, Ha). by apply list_elem_of_fmap_2. }
  destruct (default_source now s g t Hs Hg Ha Hd) as (Hv & Esrc & Hso). destruct (default_source now s' (movedGrant t g) t Hs' Hg' Ha Hd) as (Hv' & Esrc' & _).
  change (readSource (movedGrant t g) t) with (readSource g t) in Esrc'.
  assert (Hh : forall r, r ∈ ac_allowances s -> kept items now r (h r) /\
    (versionItem items (tg_version t) (aw_feature r) <> None \/ aw_grant r <> pg_id g -> content (h r) = content r) /\
    (live now (h r) = true -> aw_grant r = pg_id g -> versionItem items (tg_version t) (aw_feature r) <> None)).
  { intros r Hr. destruct (ok_rows _ _ _ Hs r Hr) as (g0 & a & Hok). unfold h. destruct (Z.eqb_spec (pg_version g) (tg_version t)) as [Ev|Ev].
    - split; [apply kept_refl|]. split; [done|]. intros Hl Eg. destruct (ok_live _ _ _ Hs r Hr Hl) as (x & Hx & _ & Hxa & Hxv).
      by rewrite (ok_one _ _ _ Hs x g Hx Hg Hxa Ha), Ev in Hxv.
    - destruct (moved_row now (pg_id g) (tg_version t) r) as (K & _ & Hl);
        [intros b Hb; rewrite (rk_item _ _ _ _ _ _ Hok) in Hb; injection Hb as <-; apply (rk_feature _ _ _ _ _ _ Hok)|].
      split; [done|]. split; [apply moved_content|done]. }
  rewrite (counted_default (Some t) false now s f (readSource g t)), (counted_default (Some t) false now s' f (readSource g t)) by done.
  do 2 f_equal.
  - apply filter_map_content. intros r Hr. destruct (Hh r Hr) as (K & Hc & Hl). unfold closedAllowance, defaultPlanAllowanceEnding.
    rewrite (default_grant_held now s' (h r) (movedGrant t g) Hs' Hg' Ha Hd), (default_grant_held now s r g Hs Hg Ha Hd), Hv, Hv', !existsb_versionItem.
    rewrite (kp_grant _ _ _ _ K), (kp_feature _ _ _ _ K), (kp_reversed _ _ _ _ K). cbn [movedGrant pg_id].
    destruct (Z.eqb_spec (pg_id g) (aw_grant r)) as [Eg|Eg].
    + destruct (decide (versionItem items (tg_version t) (aw_feature r) <> None)) as [Hi|Hi];
        [rewrite !(bool_decide_true _ Hi)|rewrite !(bool_decide_false _ Hi); cbn; rewrite !orb_true_r; cbn; by rewrite !andb_false_r].
      specialize (Hc (or_introl Hi)). split; [|done]. injection Hc as _ Hx. unfold live. by rewrite Hx.
    + specialize (Hc (or_intror (not_eq_sym Eg))). split; [|done]. injection Hc as _ Hx. unfold live. by rewrite Hx.
  - change (so_version (readSource g t)) with (tg_version t).
    destruct (versionItem items (tg_version t) f) as [it|] eqn:Ei; [|done]. destruct (versionItem_Some _ _ _ _ Ei) as (Hit & _ & _ & <-).
    apply pendingCell_map.
    + intros r Hr. destruct (Hh r Hr) as (K & _). split_and!; [apply K..| |apply K|apply K]. by apply (kept_reset items now).
    + intros r Hr _ Ef. apply (Hh r Hr). left. by rewrite Ef, Ei.
Qed.

(** Starting the default plan, without or with a previous grant of it. *)
Definition fallbackSource (previous : option PlanGrant) (now : Z) (t : DefaultPlanTarget) : Source :=
  {| so_grant := None; so_version := tg_version t; so_anchor := match previous with Some p => pg_starts_at p | None => now end;
     so_ends := None; so_allocations := pg_id <$> previous |}.

Lemma fallback_source now s t : (forall g, g ∈ ac_grants s -> isActive g = false) -> modern now -> account_ok items now s ->
  windowSources (Some (Some t, false)) now (ac_grants s) = [fallbackSource (previousDefaultGrant (ac_grants s)) now t] /\
  source_ok now (fallbackSource (previousDefaultGrant (ac_grants s)) now t).
Proof.
  intros Hno Hn Hs. destruct (inactive_sources (Some t) false now (ac_grants s) Hno) as (E & Eb & Eh). split.
  - rewrite E. unfold defaultPlanReadGrant, defaultPlanReadVersion, heldBasePlan. rewrite Eb, Eh. done.
  - pose proof (previous_spec (ac_grants s)) as Hp. unfold fallbackSource. destruct (previousDefaultGrant _) as [p|]; split; cbn; try done; try lia.
    + destruct Hp as [Hp _]. by destruct (ok_grants _ _ _ Hs p Hp).
    + destruct Hp as [Hp _]. by destruct (ok_grants _ _ _ Hs p Hp).
Qed.

Lemma no_rows_window rows now so it : (forall r, r ∈ rows -> so_grant so <> Some (aw_grant r)) -> (forall r, r ∈ rows -> so_allocations so <> Some (aw_grant r)) ->
  windowStart items rows now so it = cellStart (so_anchor so) (itemReset it) now /\ forall st, createdIn items rows so it st = None.
Proof.
  intros H1 H2. assert (E : forall grant same, (forall r, r ∈ rows -> grant <> Some (aw_grant r)) -> allowancesOn items grant it same rows = []).
  { intros grant same H. apply filter_none. intros r Hr. by rewrite bool_decide_false by auto. }
  unfold windowStart, createdIn. rewrite !E by auto. done.
Qed.

Lemma counted_started now s f newId t : modern now -> account_ok items now s -> resetting items (tg_version t) ->
  newId ∉ map pg_id (ac_grants s) -> (forall g, g ∈ ac_grants s -> isActive g = false) -> previousDefaultGrant (ac_grants s) = None ->
  counted items (Some t) false now (set_grants s (ac_grants s ++ [startedGrant newId now t s])) f = counted items (Some t) false now s f.
Proof.
  intros Hn Hs Ht Hid Hno Hp. set (s' := set_grants s _). pose proof (started_ok now s newId t Hn Hs Ht Hid Hno) as Hs'. fold s' in Hs'.
  destruct (fallback_source now s t Hno Hn Hs) as [E Hso]. rewrite Hp in *.
  destruct (default_source now s' (startedGrant newId now t s) t Hs') as (Hv' & E' & Hso'); [cbn; set_solver|done|done|].
  rewrite (counted_default _ _ now s f _ Hn E Hso), (counted_default _ _ now s' f _ Hn E' Hso') by done. do 2 f_equal.
  - rewrite !dead_listed; [done| |]; intros r Hr; by apply (inactive_dead now s).
  - cbn [so_version readSource fallbackSource]. destruct (versionItem items (tg_version t) f) as [it|]; [|done].
    assert (Hr : forall r, r ∈ ac_allowances s -> newId <> aw_grant r).
    { intros r Hr ->. apply Hid. destruct (ok_rows _ _ _ Hs r Hr) as (x & a & Hok). rewrite <- (rk_id _ _ _ _ _ _ Hok).
      apply list_elem_of_fmap_2, (rk_grant _ _ _ _ _ _ Hok). }
    unfold pendingCell. destruct (no_rows_window (ac_allowances s) now (fallbackSource None now t) it) as [-> Hc]; [done|done|]. rewrite Hc.
    destruct (no_rows_window (ac_allowances s') now (readSource (startedGrant newId now t s) t) it) as [-> Hc'].
    { intros r Hr'. cbn. intros [= E1]. by destruct (Hr r Hr'). }
    { intros r Hr'. cbn. intros [= E1]. by destruct (Hr r Hr'). }
    rewrite Hc'. cbn [so_anchor readSource fallbackSource startedGrant pg_starts_at]. by rewrite Hp.
Qed.

Section FallbackRead.
Context (now : Z) (s : Account) (newId : Z) (t : DefaultPlanTarget) (p : PlanGrant) (f : Z).
Hypotheses (Hn : modern now) (Hs : account_ok items now s) (Ht : resetting items (tg_version t))
  (Hid : newId ∉ map pg_id (ac_grants s)) (Hno : forall g, g ∈ ac_grants s -> isActive g = false)
  (Hp : previousDefaultGrant (ac_grants s) = Some p) (Hal : resume_aligned now s (tg_version t)).
Local Abbreviation started := (startedGrant newId now t s).
Local Abbreviation s1 := (set_grants s (ac_grants s ++ [started])).
Local Abbreviation s2 := (resumeDefaultPlanAllowances items now (pg_id p) newId (tg_version t) s1).
Local Abbreviation resume := (resumeAllowance items now (pg_id p) newId (tg_version t)).
Local Abbreviation so := (fallbackSource (Some p) now t).
Local Abbreviation Handed := (handed now p (tg_version t)).

Lemma fallback_cases r : r ∈ ac_allowances s -> resume r = r \/ exists it, Handed r it /\ resume r = rehold newId (it_id it) (resumedExpiresAt it r) r.
Proof.
  intros Hr. destruct (fallback_facts now s newId t p Hn Hs Ht Hid Hno Hp Hal) as (H1 & H2 & H3 & H4 & H5 & H6 & H7 & H8).
  by apply (resume_cases now s1 p started (tg_version t)).
Qed.

Lemma fallback_new r : r ∈ ac_allowances s -> aw_grant (resume r) = newId -> exists it, Handed r it /\ resume r = rehold newId (it_id it) (resumedExpiresAt it r) r.
Proof.
  intros Hr E. destruct (fallback_cases r Hr) as [Er|?]; [|done]. rewrite Er in E.
  destruct (fallback_facts now s newId t p Hn Hs Ht Hid Hno Hp Hal) as (_ & _ & _ & _ & _ & _ & H7 & _). by destruct (H7 r Hr).
Qed.

(** The allowance a read shows as resumed is the one the write hands over. *)
Lemma handed_created it r : versionItem items (tg_version t) f = Some it -> r ∈ ac_allowances s -> Handed r it -> createdIn items (ac_allowances s) so it (cellStart (pg_starts_at p) (itemReset it) now) = Some r.
Proof.
  intros Ev Hr Hh. destruct (fallback_facts now s newId t p Hn Hs Ht Hid Hno Hp Hal) as (H1 & H2 & H3 & H4 & H5 & H6 & H7 & H8).
  unfold createdIn. pose proof (latestAllowance_spec (allowancesOn items (so_allocations so) it true (ac_allowances s))) as Hl.
  assert (Hin : r ∈ allowancesOn items (so_allocations so) it true (ac_allowances s)).
  { apply elem_allowancesOn. split_and!; [done|cbn; by rewrite (hd_grant _ _ _ _ _ Hh)|symmetry; apply (hd_feature _ _ _ _ _ Hh)|].
    exists (itemReset it). split; [apply (hd_reset _ _ _ _ _ Hh)|done]. }
  destruct (latestAllowance _) as [l|]; [|rewrite Hl in Hin; by apply elem_of_nil in Hin]. destruct Hl as [Hl Hmax]. specialize (Hmax r Hin).
  apply elem_allowancesOn in Hl as (Hl & El & Elf & rs & Elr & Hrs). cbn in El. injection El as El. assert (rs = itemReset it) as -> by by apply Hrs.
  rewrite (hd_start _ _ _ _ _ Hh) in Hmax.
  destruct (row_of_p now s1 p H1 H2 l Hl (eq_sym El)) as (a & Hok). destruct (p_ends now s1 p H1 H2 H5) as (He & Hm & Hle).
  assert (Era : itemReset a = itemReset it) by (unfold resetOf in Elr; rewrite (rk_item _ _ _ _ _ _ Hok) in Elr; cbn in Elr; congruence).
  pose proof (rk_time _ _ _ _ _ _ Hok) as Htm. destruct (versionItem_Some _ _ _ _ Ev) as (Hit & Hiv & Hia & Hif).
  destruct (cell_inside (pg_starts_at p) (itemReset it) Hm (ck_reset _ Hcat it Hit) (aw_start l) now) as [_ Ec]; [unfold modern in *; lia|done|lia|done|lia|].
  assert (Els : aw_start l = cellStart (pg_starts_at p) (itemReset it) now).
  { eapply H8; [done|done|lia|rewrite (rk_end _ _ _ _ _ _ Hok He), Era, Ec; done| |].
    - apply cellEnd_after; try done; [by apply (ck_reset _ Hcat)|]. by apply Ht.
    - unfold sameResetItem. rewrite (rk_item _ _ _ _ _ _ Hok). cbn. rewrite Elf, Hif, Ev. cbn. by rewrite (proj2 (sameReset_spec it a)). }
  rewrite decide_True by done. f_equal. apply (ok_starts _ _ _ H1); try done.
  - split; [|rewrite Elf; apply (hd_feature _ _ _ _ _ Hh)]. by rewrite (hd_grant _ _ _ _ _ Hh).
  - by rewrite Elr, (hd_reset _ _ _ _ _ Hh).
  - by rewrite Els, (hd_start _ _ _ _ _ Hh).
Qed.

Lemma created_handed it l : versionItem items (tg_version t) f = Some it ->
  createdIn items (ac_allowances s) so it (cellStart (pg_starts_at p) (itemReset it) now) = Some l -> l ∈ ac_allowances s /\ Handed l it /\ aw_grant (resume l) = newId.
Proof.
  intros Ev Hc. destruct (fallback_facts now s newId t p Hn Hs Ht Hid Hno Hp Hal) as (H1 & H2 & H3 & H4 & H5 & H6 & H7 & H8).
  unfold createdIn in Hc. pose proof (latestAllowance_spec (allowancesOn items (so_allocations so) it true (ac_allowances s))) as Hl.
  destruct (latestAllowance _) as [x|]; [|done]. destruct (decide _) as [Els|]; [|done]. injection Hc as ->. destruct Hl as [Hl _].
  apply elem_allowancesOn in Hl as (Hl & El & Elf & rs & Elr & Hrs). cbn in El. injection El as El. assert (rs = itemReset it) as -> by by apply Hrs.
  destruct (row_of_p now s1 p H1 H2 l Hl (eq_sym El)) as (a & Hok). destruct (p_ends now s1 p H1 H2 H5) as (He & Hm & Hle).
  assert (Era : itemReset a = itemReset it) by (unfold resetOf in Elr; rewrite (rk_item _ _ _ _ _ _ Hok) in Elr; cbn in Elr; congruence).
  destruct (versionItem_Some _ _ _ _ Ev) as (Hit & Hiv & Hia & Hif). pose proof (rk_time _ _ _ _ _ _ Hok) as Htm.
  destruct (cell_inside (pg_starts_at p) (itemReset it) Hm (ck_reset _ Hcat it Hit) (aw_start l) now) as [_ Ec]; [unfold modern in *; lia|done|lia|lia|lia|].
  assert (Er : resume l = rehold newId (it_id it) (resumedExpiresAt it l) l).
  { unfold resumeAllowance. rewrite <- El, Z.eqb_refl, (rk_end _ _ _ _ _ _ Hok He), Era, Ec. cbn [andb].
    replace (aw_start l <=? now) with true by (symmetry; apply Z.leb_le; lia).
    replace (now <? _) with true by (symmetry; apply Z.ltb_lt, cellEnd_after; try done; [by apply (ck_reset _ Hcat)|by apply Ht]).
    cbn [andb]. unfold sameResetItem. rewrite (rk_item _ _ _ _ _ _ Hok). cbn. rewrite Elf, Hif, Ev. cbn. by rewrite (proj2 (sameReset_spec it a)). }
  split; [done|]. split; [|by rewrite Er]. destruct (fallback_new l Hl) as (it' & Hh & _); [by rewrite Er|].
  pose proof (hd_item _ _ _ _ _ Hh) as Hi. rewrite Elf, Hif, Ev in Hi. by injection Hi as <-.
Qed.

(** The window the write finds is the one the read showed. *)
Lemma fallback_window it : versionItem items (tg_version t) f = Some it ->
  windowStart items (map resume (ac_allowances s)) now (readSource started t) it = cellStart (pg_starts_at p) (itemReset it) now.
Proof.
  intros Ev. unfold windowStart. cbn [so_anchor readSource]. replace (pg_starts_at started) with (pg_starts_at p) by (cbn; by rewrite Hp).
  replace (allowancesOn _ _ _ _ _) with (@nil Allowance); [done|]. symmetry. apply elem_of_nil_inv.
  intros r' (Hr' & Eg & Ef & rs & Ers & Hne)%elem_allowancesOn. apply list_elem_of_fmap in Hr' as (r & -> & Hr). cbn in Eg. injection Eg as Eg.
  destruct (fallback_new r Hr (eq_sym Eg)) as (it' & Hh & Er). destruct (versionItem_Some _ _ _ _ Ev) as (_ & _ & _ & Hif).
  unfold resetOf in Ers. rewrite Er in Ef, Ers. cbn in Ef, Ers. rewrite (hd_own _ _ _ _ _ Hh) in Ers. cbn in Ers. injection Ers as <-.
  pose proof (hd_item _ _ _ _ _ Hh) as Hi. rewrite Ef, Hif, Ev in Hi. injection Hi as <-. by destruct Hne as [_ Hne]; discriminate Hne.
Qed.

Lemma fallback_not_handed it r : versionItem items (tg_version t) f = Some it ->
  createdIn items (ac_allowances s) so it (cellStart (pg_starts_at p) (itemReset it) now) = None -> r ∈ ac_allowances s -> aw_feature r = f -> aw_grant (resume r) <> newId.
Proof.
  intros Ev Hc Hr Ef Eg. destruct (fallback_new r Hr Eg) as (it' & Hh & _). pose proof (hd_item _ _ _ _ _ Hh) as Hi. rewrite Ef, Ev in Hi.
  injection Hi as <-. by rewrite (handed_created it r Ev Hr Hh) in Hc.
Qed.

Lemma fallback_start it : windowStart items (ac_allowances s) now so it = cellStart (pg_starts_at p) (itemReset it) now.
Proof.
  unfold windowStart. replace (allowancesOn _ _ _ _ _) with (@nil Allowance); [done|]. symmetry. apply filter_none.
  intros r _. by rewrite bool_decide_false.
Qed.

Lemma fallback_dead r : r ∈ ac_allowances s -> resume r = r -> live now (resume r) = false.
Proof. intros Hr ->. by apply (inactive_dead now s). Qed.

Lemma fallback_listed_none : (forall r, r ∈ ac_allowances s -> aw_feature r = f -> aw_grant (resume r) <> newId) -> listed (Some t) false now s2 f = [].
Proof.
  intros H. rewrite filter_none; [done|]. intros r' (r & -> & Hr)%list_elem_of_fmap.
  destruct (Z.eqb_spec (aw_feature (resume r)) f) as [Ef|]; [|done].
  destruct (fallback_cases r Hr) as [Er|(it & Hh & Er)]; [by rewrite dead_closed by by apply fallback_dead|].
  rewrite Er in Ef. cbn in Ef. destruct (H r Hr Ef). by rewrite Er.
Qed.

(** The handed allowance is listed while it lasts. *)
Lemma fallback_listed it l : versionItem items (tg_version t) f = Some it -> l ∈ ac_allowances s -> Handed l it -> aw_grant (resume l) = newId ->
  listed (Some t) false now s2 f = (if live now (resume l) then [content (resume l)] else []).
Proof.
  intros Ev Hl Hh Eg. pose proof (fallback_ok now s newId t p Hn Hs Ht Hid Hno Hp Hal) as Hs2.
  destruct (fallback_facts now s newId t p Hn Hs Ht Hid Hno Hp Hal) as (H1 & H2 & H3 & H4 & H5 & H6 & H7 & H8).
  destruct (default_source now s2 started t Hs2) as (Hv2 & _ & _); [done|done|done|].
  destruct (versionItem_Some _ _ _ _ Ev) as (_ & _ & _ & Hif). cbn [resumeDefaultPlanAllowances set_allowances ac_allowances].
  rewrite filter_map_comm, (filter_only _ _ l (live now (resume l))); [by destruct (live now (resume l))| |done|].
  { eapply NoDup_fmap_1, (ok_ids _ _ _ H1). }
  intros r Hr. destruct (fallback_cases r Hr) as [Er|(it' & Hh' & Er)].
  - rewrite dead_closed, andb_false_r by by apply fallback_dead. destruct (decide (r = l)) as [->|]; [|by rewrite bool_decide_false].
    destruct (H7 l Hl). by rewrite <- Er, Eg.
  - destruct (Z.eqb_spec (aw_feature (resume r)) f) as [Ef|Ef].
    + rewrite Er in Ef. cbn in Ef. assert (r = l) as ->.
      { apply (handed_one now s1 p (tg_version t) H1 r l it' it Hr Hl); try done.
        by rewrite Ef, <- (hd_feature _ _ _ _ _ Hh). }
      rewrite (bool_decide_true (l = l)) by done. cbn [andb]. unfold closedAllowance, defaultPlanAllowanceEnding. rewrite Hv2, existsb_versionItem.
      replace (aw_feature (resume l)) with f by (rewrite Er; done). rewrite Ev, (bool_decide_true (Some it <> None)), andb_false_r, orb_false_r by done.
      replace (aw_reversed_at (resume l)) with (@None Z); [by destruct (live now (resume l))|].
      rewrite Er. cbn. symmetry. apply (row_expires items now s1 H1 l Hl).
    + destruct (decide (r = l)) as [->|]; [|by rewrite bool_decide_false]. destruct Ef. rewrite Er. cbn. by rewrite <- Hif, (hd_feature _ _ _ _ _ Hh).
Qed.

Lemma resumed_item it : versionItem items (tg_version t) f = Some it ->
  listed (Some t) false now s2 f ++ pendingCell (ac_allowances s2) now (readSource started t) it = pendingCell (ac_allowances s) now so it.
Proof.
  intros Ev. destruct (fallback_facts now s newId t p Hn Hs Ht Hid Hno Hp Hal) as (H1 & H2 & H3 & H4 & H5 & H6 & H7 & H8).
  pose proof (fallback_ok now s newId t p Hn Hs Ht Hid Hno Hp Hal) as Hs2. destruct (versionItem_Some _ _ _ _ Ev) as (Hit & _ & _ & Hif).
  pose proof (fallback_window it Ev) as Ew2. pose proof (fallback_start it) as Ew.
  assert (Ea : so_anchor (readSource started t) = pg_starts_at p) by (cbn; by rewrite Hp).
  set (L := listed (Some t) false now s2 f). unfold pendingCell. change (ac_allowances s2) with (map resume (ac_allowances s)). rewrite Ew, Ew2, Ea. cbn [so_anchor fallbackSource so_grant readSource].
  destruct (createdIn items (ac_allowances s) so it _) as [l|] eqn:Hc.
  - destruct (created_handed it l Ev Hc) as (Hl & Hh & Eg). destruct (fallback_new l Hl Eg) as (it' & Hh' & Er).
    assert (it' = it) as -> by (pose proof (hd_item _ _ _ _ _ Hh); pose proof (hd_item _ _ _ _ _ Hh'); congruence).
    subst L. rewrite (fallback_listed it l Ev Hl Hh Eg). destruct (hd_expires _ _ _ _ _ Hh) as (x & Ex & _). pose proof Ex as Ex'.
    rewrite resumedExpiresAt_least, (hd_end _ _ _ _ _ Hh), (hd_start _ _ _ _ _ Hh) in Ex'. rewrite Ex'.
    assert (Hle : cellStart (pg_starts_at p) (itemReset it) now <= now).
    { rewrite <- (hd_start _ _ _ _ _ Hh). apply (row_expires items now s Hs l Hl). }
    replace (now <? cellStart (pg_starts_at p) (itemReset it) now) with false by (symmetry; by apply Z.ltb_ge).
    assert (Hc2 : createdIn items (map resume (ac_allowances s)) (readSource started t) it (cellStart (pg_starts_at p) (itemReset it) now) = Some (resume l)).
    { pose proof (window_created now s2 started it Hs2 H3 eq_refl (resume l)) as H. change (grantSource started) with (readSource started t) in H.
      change (ac_allowances s2) with (map resume (ac_allowances s)) in H. rewrite Ew2 in H. apply H; [by apply list_elem_of_fmap_2|done| | |]; rewrite Er; cbn.
      - symmetry. apply (hd_feature _ _ _ _ _ Hh).
      - unfold resetOf. cbn. by rewrite (hd_own _ _ _ _ _ Hh).
      - apply (hd_start _ _ _ _ _ Hh). }
    rewrite Hc2. rewrite (bool_decide_true (Some (pg_id started) <> None)), (bool_decide_false (None <> None)) by (try done; by intros []).
    assert (El : live now (resume l) = (now <? x)) by (rewrite Er; unfold live; cbn; by rewrite Ex).
    rewrite El, Z.leb_antisym. cbn. destruct (now <? x); cbn; [|done]. rewrite orb_true_r, Er. unfold content. cbn. by rewrite Ex.
  - subst L. rewrite fallback_listed_none by (intros r Hr Ef; by apply (fallback_not_handed it r Ev Hc Hr)).
    replace (createdIn items (map resume (ac_allowances s)) (readSource started t) it _) with (@None Allowance); [done|].
    symmetry. unfold createdIn. replace (allowancesOn _ _ _ _ _) with (@nil Allowance); [done|]. symmetry. apply elem_of_nil_inv.
    intros r' (Hr' & Eg & Ef & _)%elem_allowancesOn. apply list_elem_of_fmap in Hr' as (r & -> & Hr). cbn in Eg. injection Eg as Eg.
    apply (fallback_not_handed it r Ev Hc Hr); [|done]. rewrite <- Hif, <- Ef.
    destruct (fallback_cases r Hr) as [->|(it' & _ & ->)]; done.
Qed.

Lemma counted_resumed : counted items (Some t) false now s2 f = counted items (Some t) false now s f.
Proof.
  destruct (fallback_facts now s newId t p Hn Hs Ht Hid Hno Hp Hal) as (H1 & H2 & H3 & H4 & H5 & H6 & H7 & H8).
  pose proof (fallback_ok now s newId t p Hn Hs Ht Hid Hno Hp Hal) as Hs2.
  destruct (fallback_source now s t Hno Hn Hs) as [E Hso]. rewrite Hp in E, Hso.
  destruct (default_source now s2 started t Hs2) as (Hv2 & E2 & Hso2); [done|done|done|].
  rewrite (counted_default _ _ now s f _ Hn E Hso), (counted_default _ _ now s2 f _ Hn E2 Hso2) by done. f_equal.
  rewrite (dead_listed (Some t) false now s f) by (intros; by apply (inactive_dead now s)). cbn [app so_version readSource fallbackSource].
  destruct (versionItem items (tg_version t) f) as [it|] eqn:Ev; [by apply resumed_item|]. rewrite app_nil_r.
  apply fallback_listed_none. intros r Hr Ef Eg. destruct (fallback_new r Hr Eg) as (it & Hh & _).
  pose proof (hd_item _ _ _ _ _ Hh) as Hi. by rewrite Ef, Ev in Hi.
Qed.
End FallbackRead.

(** A reconcile changes nothing a read counts, and settles the account. *)
Lemma counted_reconciled target funding newId now s s' f : modern now -> account_ok items now s -> target_ok target ->
  newId ∉ map pg_id (ac_grants s) -> (forall t, target = Some t -> resume_aligned now s (tg_version t)) ->
  reconciled target funding newId now s s' -> counted items target funding now s' f = counted items target funding now s f.
Proof.
  intros Hn Hs Ht Hid Hal [g st Hg Ha Hd Hst Hv|g t Hg Ha Hd -> Hb|g t _ _ _ _ _ _| |t Hno -> Hb Hp|t p Hno -> Hb Hp].
  - by apply counted_closed.
  - unfold heldBasePlan in Hb. apply orb_false_elim in Hb as [-> _]. by apply counted_moved.
  - done.
  - done.
  - unfold heldBasePlan in Hb. apply orb_false_elim in Hb as [-> _]. by apply counted_started.
  - unfold heldBasePlan in Hb. apply orb_false_elim in Hb as [-> _]. apply counted_resumed; auto.
Qed.

Lemma reconciled_settled target funding newId now s s' : modern now -> account_ok items now s -> account_ok items now s' -> target_ok target ->
  reconciled target funding newId now s s' -> settled target funding now s'.
Proof.
  intros Hn Hs Hs' Ht Hr.
  assert (Hheld : forall g t, g ∈ ac_grants s' -> isActive g = true -> isDefault g = true -> target = Some t -> funding = false -> pg_version g = tg_version t ->
    settled target funding now s').
  { intros g t Hg Ha Hd -> -> Ev. destruct (default_only now s' g Hs' Hg Ha Hd) as [_ Eb]. apply (settled_held _ _ _ _ g t); try done.
    - by apply (default_held now s').
    - unfold heldBasePlan. by rewrite Eb. }
  destruct Hr as [g st Hg Ha Hd Hst Hv|g t Hg Ha Hd Et Hb|g t Hg Ha Hd Et Hb Ev|Hh Hv|t Hno Et Hb Hp|t p Hno Et Hb Hp].
  - assert (Hno : forall x, x ∈ map (fun g' => if (pg_id g' =? pg_id g) && isActive g' then close st now g' else g') (ac_grants s) -> isActive x = false).
    { intros x' (x & -> & Hx)%list_elem_of_fmap. destruct (isActive x) eqn:Ex; [|by rewrite andb_false_r].
      rewrite (ok_one _ _ _ Hs x g Hx Hg Ex Ha), Z.eqb_refl. by apply close_inactive. }
    destruct (inactive_sources target funding now _ Hno) as (_ & Eb & Eh). destruct (default_only now s g Hs Hg Ha Hd) as [_ Eb0].
    apply settled_none; [done|]. cbn [clampPlanGrantAllocations closeGrant set_grants set_allowances ac_grants].
    unfold defaultPlanReadVersion, heldBasePlan in *. by rewrite Eb, <- Eb0.
  - unfold heldBasePlan in Hb. apply orb_false_elim in Hb as [-> _]. apply (Hheld (movedGrant t g) t); try done.
    assert (Hin : movedGrant t g ∈ map (fun g' => if (pg_id g' =? pg_id g) && isActive g' then movedGrant t g' else g') (ac_grants s)).
    { apply list_elem_of_fmap. exists g. by rewrite Z.eqb_refl, Ha. }
    unfold moveGrant. by destruct (negb _).
  - by apply (settled_held _ _ _ _ g t); [apply (default_held now s g)|..].
  - by apply settled_none.
  - unfold heldBasePlan in Hb. apply orb_false_elim in Hb as [-> _]. apply (Hheld (startedGrant newId now t s) t); try done. cbn. set_solver.
  - unfold heldBasePlan in Hb. apply orb_false_elim in Hb as [-> _]. apply (Hheld (startedGrant newId now t s) t); try done. cbn. set_solver.
Qed.

(** *** Writes and histories *)

Lemma prepareWrite_ok target funding newId f now s : modern now -> account_ok items now s -> target_ok target ->
  newId ∉ map pg_id (ac_grants s) -> (forall t, target = Some t -> resume_aligned now s (tg_version t)) -> exists s' c,
  prepareWrite items target funding newId f now s = Ok s' /\ account_ok items now s' /\ counted items target funding now s f = Ok c /\
  spendable now s' f ≡ₚ c /\ readPendingAllowances items (Some f) target funding now s' = Ok [] /\
  counted items target funding now s' f = Ok (spendable now s' f).
Proof.
  intros Hn Hs Ht Hid Hal. unfold prepareWrite. destruct (planGrantsNeedCatchUp target funding now s) eqn:Hc.
  - destruct (catchUp_ok target funding newId now s Hn Hs Ht Hid Hal) as (He & Hr & Hk).
    pose proof (reconciled_settled target funding newId now _ _ Hn He Hk Ht Hr) as Hst.
    destruct (settled_open target funding now _ f Hn Hk Hst) as (s' & c & E1 & E2 & E3 & E4 & E5 & E6). exists s', c. split_and!; try done.
    rewrite <- (counted_expire target funding now s f Hs), <- E3. symmetry.
    eapply counted_reconciled; [done|done|done| | |exact Hr].
    + by rewrite expire_ids.
    + intros t Et p r it e. rewrite (expire_previous now s Hs). by apply Hal.
  - destruct (settled_open target funding now s f Hn Hs (no_catchUp_settled _ _ _ _ Hc)) as (s' & c & E1 & E2 & E3 & E4 & E5 & E6). by exists s', c.
Qed.

(** Usage changes only what an allowance used. *)
Definition useAllowance (use : Allowance -> WindowAllocation) (r : Allowance) : Allowance :=
  {| aw_id := aw_id r; aw_feature := aw_feature r; aw_item := aw_item r; aw_grant := aw_grant r; aw_key := aw_key r;
     aw_use := use r; aw_start := aw_start r; aw_end := aw_end r; aw_expires := aw_expires r; aw_reversed_at := aw_reversed_at r |}.

Lemma use_ok use now s : account_ok items now s -> account_ok items now (set_allowances s (map (useAllowance use) (ac_allowances s))).
Proof.
  intros Hs. apply (kept_account_ok items now id (useAllowance use) s); try done; cbn.
  - intros g _. apply kept_grant_refl.
  - intros r _. split; auto.
  - intros r Hr Hl. rewrite map_id. by apply (ok_live _ _ _ Hs r Hr).
  - by rewrite map_id.
Qed.

Lemma grantPlan_ok refused origin newId plan version endsAt keys now s s' : modern now -> account_ok items now s -> origin <> origin_default ->
  now < endsAt <= maxTime -> newId ∉ map pg_id (ac_grants s) -> grantPlan refused origin newId plan version endsAt keys now s = Some s' ->
  account_ok items now s'.
Proof.
  intros Hn Hs Ho He Hid. unfold grantPlan. destruct (refused || _) eqn:Hr; [done|]. intros [= <-].
  apply orb_false_elim in Hr as [_ Hb]. pose proof (elapsed_expire_ok now s Hs) as H1. set (s1 := expireCustomerPlanGrants now s) in *.
  assert (Hid1 : newId ∉ map pg_id (ac_grants s1)).
  { unfold s1. by rewrite expire_ids. }
  assert (H2 : account_ok items now (supersedeDefaultPlanGrant now s1)).
  { unfold supersedeDefaultPlanGrant. destruct (heldDefaultGrant _) as [g|]; [by apply closeGrant_ok|done]. }
  assert (Hrun : forall g, g ∈ ac_grants s1 -> isActive g = true -> running now g = true).
  { intros g Hg Ha. apply (expired_running now s g Hs Hg Ha). }
  apply grant_added_ok; [done| | |].
  - unfold supersedeDefaultPlanGrant. destruct (heldDefaultGrant _) as [g|]; [|done]. cbn. rewrite map_map, (List.map_ext _ pg_id); [done|].
    intros x. by destruct (_ && _).
  - unfold supersedeDefaultPlanGrant. destruct (heldDefaultGrant (ac_grants s1)) as [g|] eqn:Hh.
    + destruct (held_spec _ _ Hh) as (Hg & Ha & Hd). intros x' (x & -> & Hx)%list_elem_of_fmap. destruct (isActive x) eqn:Ex; [|by rewrite andb_false_r].
      rewrite (ok_one _ _ _ H1 x g Hx Hg Ex Ha), Z.eqb_refl. by apply close_inactive.
    + by apply (none_active now s1 H1 Hrun Hh).
  - split; cbn; [done|lia| |done|]; unfold isDefault; cbn; rewrite bool_decide_false by done; done.
Qed.

(** What happens to an account: time passes, usage is recorded, a usage write prepares its
    windows, a worker or a change of the catalog catches its grants up, a trial or a promotion
    starts and ends, a subscription funds a plan.  A write or catch-up that falls back to the
    default plan hands over allowances that start with their reset's window, which the code does
    not enforce ([fallback_refills_window] is a run without it). *)
Inductive step : Z * Account -> Z * Account -> Prop :=
  | step_time now now' s : now <= now' -> modern now' -> step (now, s) (now', s)
  | step_use use now s : step (now, s) (now, set_allowances s (map (useAllowance use) (ac_allowances s)))
  | step_write target funding newId f now s s' : target_ok target -> newId ∉ map pg_id (ac_grants s) ->
      (forall t, target = Some t -> resume_aligned now s (tg_version t)) ->
      prepareWrite items target funding newId f now s = Ok s' -> step (now, s) (now, s')
  | step_catchUp target funding newId now s : target_ok target -> newId ∉ map pg_id (ac_grants s) ->
      (forall t, target = Some t -> resume_aligned now s (tg_version t)) ->
      step (now, s) (now, catchUpPlanGrants items target funding newId now s)
  | step_expire now s : step (now, s) (now, expireCustomerPlanGrants now s)
  | step_grant refused origin newId plan version endsAt keys now s s' : origin <> origin_default -> now < endsAt <= maxTime ->
      newId ∉ map pg_id (ac_grants s) -> grantPlan refused origin newId plan version endsAt keys now s = Some s' -> step (now, s) (now, s')
  | step_end grantId now s s' : endPlanGrantInTx now grantId s = Some s' -> step (now, s) (now, s')
  | step_fund base now s : step (now, s) (now, supersedeBasePlanGrants now base s).

Lemma step_account_ok x y : step x y -> modern x.1 -> account_ok items x.1 x.2 -> modern y.1 /\ account_ok items y.1 y.2.
Proof.
  intros [now now' s Hle Hm|use now s|target funding newId f now s s' Ht Hid Hal E|target funding newId now s Ht Hid Hal|now s
    |refused origin newId plan version endsAt keys now s s' Ho He Hid E|id now s s' E|base now s] Hn Hs; cbn in *.
  - split; [done|]. by eapply time_account_ok.
  - split; [done|by apply use_ok].
  - split; [done|]. destruct (prepareWrite_ok target funding newId f now s Hn Hs Ht Hid Hal) as (s'' & c & E' & ? & _). rewrite E in E'. by injection E' as <-.
  - split; [done|]. by apply catchUp_ok.
  - split; [done|by apply elapsed_expire_ok].
  - split; [done|]. by eapply grantPlan_ok.
  - split; [done|]. by eapply endPlanGrant_ok.
  - split; [done|by apply supersedeBase_ok].
Qed.

Lemma history_account_ok x y : rtc step x y -> modern x.1 -> account_ok items x.1 x.2 -> modern y.1 /\ account_ok items y.1 y.2.
Proof. induction 1 as [x|x y z Hxy _ IH]; [done|]. intros Hn Hs. destruct (step_account_ok x y Hxy Hn Hs). auto. Qed.

(** A live allowance is the running window's, of the active grant and within its term. *)
Lemma live_unique now s r q : account_ok items now s -> r ∈ ac_allowances s -> q ∈ ac_allowances s -> live now r = true -> live now q = true ->
  aw_feature r = aw_feature q -> r = q.
Proof.
  intros Hs Hr Hq Hlr Hlq Ef. destruct (ok_live _ _ _ Hs r Hr Hlr) as (g & Hg & E1 & Ha & _). destruct (ok_live _ _ _ Hs q Hq Hlq) as (h & Hh & E2 & Hb & _).
  rewrite (ok_one _ _ _ Hs g h Hg Hh Ha Hb) in E1.
  destruct (row_expires items now s Hs r Hr) as (Hr1 & Hr2 & _). destruct (row_expires items now s Hs q Hq) as (Hq1 & Hq2 & _).
  destruct (decide (aw_id r = aw_id q)) as [E|Hne]; [by apply (NoDup_key_inj aw_id (ac_allowances s)); [apply (ok_ids _ _ _ Hs)|..]|].
  pose proof (live_expires now r Hlr Hr1). pose proof (live_expires now q Hlq Hq1).
  destruct (ok_apart _ _ _ Hs r q Hr Hq Hne) as [?|?]; [by split; [congruence|]| |]; lia.
Qed.
End Account.

Definition emptyAccount : Account := {| ac_grants := []; ac_allowances := []; ac_nextId := 1 |}.

Lemma emptyAccount_ok items now : account_ok items now emptyAccount.
Proof. split; cbn; try (intros; by match goal with H : _ ∈ [] |- _ => apply elem_of_nil in H end); try apply NoDup_nil_2. split; [apply NoDup_nil_2|]. by intros r ?%elem_of_nil. Qed.

(** ** Properties *)

(** C17: A read answers as the next write will.  A read of an account counts the default plan as
    the next write will leave it and the allowances no write created yet; preparing a write at
    that instant -- recording elapsed grants, starting, moving, resuming, ending or superseding
    the default plan, then opening or reopening the feature's window -- always succeeds, keeps
    the account well formed, and leaves exactly what the read counted, with nothing pending, so
    that a second read or a retry of the write counts the same.
    The one assumption on the account is that a fall back hands over allowances that start with
    their reset's window. *)
Theorem reads_answer_as_writes items target funding newId f now s :
  catalog_ok items -> modern now -> account_ok items now s -> target_ok items target -> newId ∉ map pg_id (ac_grants s) ->
  (forall t, target = Some t -> resume_aligned items now s (tg_version t)) ->
  exists s' c, prepareWrite items target funding newId f now s = Ok s' /\ account_ok items now s' /\
    counted items target funding now s f = Ok c /\ spendable now s' f ≡ₚ c /\
    readPendingAllowances items (Some f) target funding now s' = Ok [] /\
    counted items target funding now s' f = Ok (spendable now s' f).
Proof. intros Hcat. by apply prepareWrite_ok. Qed.

(** C18: Over every history of an account -- time, usage, writes, catch-ups, trials, promotions and
    subscriptions in any order -- in which the default plans' allocations reset, as the catalog
    demands, and each fall back to the default plan hands over allowances that start where their
    reset's window does: the allowances of a grant for a feature never overlap, a live allowance
    belongs to the active grant and lasts no longer than it, and a feature has at most one live
    allowance, so no window is granted twice.  A fall back after the default plan changed its reset
    inside a window is outside the claim: an allowance pushed back by another reset's is handed over
    and its window granted again (the example [fallback_refills_window], a reported finding). *)
Theorem history_keeps_allowances_apart items now0 now s :
  catalog_ok items -> modern now0 -> rtc (step items) (now0, emptyAccount) (now, s) ->
  (forall r q, r ∈ ac_allowances s -> q ∈ ac_allowances s -> aw_id r <> aw_id q -> related r q ->
     expiresOf r <= aw_start q \/ expiresOf q <= aw_start r) /\
  (forall r, r ∈ ac_allowances s -> live now r = true -> exists g, g ∈ ac_grants s /\ pg_id g = aw_grant r /\ isActive g = true /\
     pg_starts_at g <= aw_start r <= now /\ (forall e, pg_ends_at g = Some e -> now < expiresOf r <= e)) /\
  (forall r q, r ∈ ac_allowances s -> q ∈ ac_allowances s -> live now r = true -> live now q = true -> aw_feature r = aw_feature q -> r = q).
Proof.
  intros Hcat Hn Hh. destruct (history_account_ok items Hcat _ _ Hh Hn (emptyAccount_ok items now0)) as [_ Hs]. cbn in Hs. split_and!.
  - apply (ok_apart _ _ _ Hs).
  - intros r Hr Hl. destruct (ok_live _ _ _ Hs r Hr Hl) as (g & Hg & Eg & Ha & _). exists g. split_and!; try done.
    all: destruct (ok_rows _ _ _ Hs r Hr) as (g' & a & Hok).
    all: pose proof (NoDup_key_inj pg_id _ g' g (ok_grant_ids _ _ _ Hs) (rk_grant _ _ _ _ _ _ Hok) Hg ltac:(rewrite (rk_id _ _ _ _ _ _ Hok); congruence)) as ->.
    1, 2: apply (rk_time _ _ _ _ _ _ Hok).
    intros e He. destruct (rk_expires _ _ _ _ _ _ Hok) as (x & Ex & _ & _ & Hx). specialize (Hx e He).
    unfold live, expiresOf in *. rewrite Ex in *. cbn. blia.
  - intros r q Hr Hq. by apply (live_unique items now s).
Qed.

(** *** A catalog whose default plan changed its reset *)

Definition weekItem : PlanItem :=
  {| it_id := 10; it_version := 1; it_feature := 1; it_account := true; it_quantity := 200; it_reset := Some week; it_reset_count := 1;
     it_expires_after := None; it_expiry := None; it_expiry_count := None |}.
Definition monthItem : PlanItem :=
  {| it_id := 20; it_version := 2; it_feature := 1; it_account := true; it_quantity := 200; it_reset := Some month; it_reset_count := 1;
     it_expires_after := None; it_expiry := None; it_expiry_count := None |}.
Definition planItems : list PlanItem := [weekItem; monthItem].
Definition published (version : Z) : option DefaultPlanTarget := Some {| tg_plan := 7; tg_version := version; tg_keys := [] |}.
Definition january (d : Z) : Z := 1704067200000 + (d - 1) * 86400000.

Lemma planItems_ok : catalog_ok planItems.
Proof.
  split.
  - repeat constructor; set_solver.
  - intros a b [->|[->|[]%elem_of_nil]%elem_of_cons]%elem_of_cons [->|[->|[]%elem_of_nil]%elem_of_cons]%elem_of_cons; done.
  - intros it [->|[->|[]%elem_of_nil]%elem_of_cons]%elem_of_cons; by vm_compute.
  - intros it [->|[->|[]%elem_of_nil]%elem_of_cons]%elem_of_cons; by vm_compute.
Qed.

Lemma published_ok v : target_ok planItems (published v).
Proof. intros it [->|[->|[]%elem_of_nil]%elem_of_cons]%elem_of_cons _ _; done. Qed.

(** The account's first week, half used. *)
Definition firstWeek : Account :=
  match prepareWrite planItems (published 1) false 100 1 (january 1) emptyAccount with
  | Ok s => set_allowances s (map (useAllowance (fun r => {| wa_quantity := wa_quantity (aw_use r); wa_reversed := 0; wa_consumed := 100; wa_held := 0 |}))
      (ac_allowances s))
  | Err _ => emptyAccount
  end.

Lemma firstWeek_history : rtc (step planItems) (january 1, emptyAccount) (january 9, firstWeek).
Proof.
  eapply rtc_l; [eapply (step_write _ (published 1) false 100 1); [apply published_ok|set_solver|done|vm_compute; reflexivity]|].
  eapply rtc_l; [apply (step_use _ (fun r => {| wa_quantity := wa_quantity (aw_use r); wa_reversed := 0; wa_consumed := 100; wa_held := 0 |}))|].
  eapply rtc_l; [apply (step_time _ _ (january 9)); by vm_compute|]. apply rtc_refl.
Qed.

Lemma reads_answer_as_writes_witness : exists s' c,
  prepareWrite planItems (published 2) false 101 1 (january 9) firstWeek = Ok s' /\ account_ok planItems (january 9) s' /\
  counted planItems (published 2) false (january 9) firstWeek 1 = Ok c /\ spendable (january 9) s' 1 ≡ₚ c /\
  readPendingAllowances planItems (Some 1) (published 2) false (january 9) s' = Ok [] /\
  counted planItems (published 2) false (january 9) s' 1 = Ok (spendable (january 9) s' 1).
Proof.
  refine (reads_answer_as_writes planItems (published 2) false 101 1 (january 9) firstWeek planItems_ok _ _ (published_ok 2) _ _).
  - by vm_compute.
  - exact (proj2 (history_account_ok planItems planItems_ok _ _ firstWeek_history ltac:(by vm_compute) (emptyAccount_ok _ _))).
  - vm_compute. intros []%elem_of_cons; [done|]. by eapply elem_of_nil.
  - intros t _ p r it e Hp Hr _ _ He Hlt. exfalso. vm_compute in Hr. apply list_elem_of_singleton in Hr. subst r. vm_compute in He.
    injection He as <-. by vm_compute in Hlt.
Defined.

Lemma history_keeps_allowances_apart_witness :
  exists r, ac_allowances firstWeek = [r] /\ aw_use r = {| wa_quantity := 200; wa_reversed := 0; wa_consumed := 100; wa_held := 0 |} /\
  (forall r q, r ∈ ac_allowances firstWeek -> q ∈ ac_allowances firstWeek -> aw_id r <> aw_id q -> related r q ->
     expiresOf r <= aw_start q \/ expiresOf q <= aw_start r).
Proof.
  eexists. split; [vm_compute; reflexivity|]. split; [reflexivity|].
  exact (proj1 (history_keeps_allowances_apart planItems (january 1) (january 9) firstWeek planItems_ok ltac:(by vm_compute) firstWeek_history)).
Defined.

(** *** A fall back that grants its window again *)

(** The default plan's reset changes from weekly to monthly in the second week: the month's
    allowance starts where the week's ended.  150 of its 200 are used, then a trial runs for two
    days, from the 10th. *)
Definition afterTrial : option Account :=
  match prepareWrite planItems (published 2) false 101 1 (january 9) firstWeek with
  | Ok s => grantPlan false origin_trial 102 9 3 (january 12) [] (january 10)
      (set_allowances s (map (useAllowance (fun r => {| wa_quantity := wa_quantity (aw_use r); wa_reversed := 0; wa_consumed := 150; wa_held := 0 |}))
         (ac_allowances s)))
  | Err _ => None
  end.

Definition left_ (u : WindowAllocation * option Z) : Z := wa_quantity u.1 - wa_reversed u.1 - wa_consumed u.1 - wa_held u.1.

(** When the trial is over the read counts a fresh window of 200, and the write hands the month's
    allowance over, with 50 left, and opens that window too. *)
Example fallback_refills_window : match afterTrial with
  | Some s =>
      map left_ <$> counted planItems (published 2) false (january 13) s 1 = Ok [200] /\
      (map left_ ∘ (fun s' => spendable (january 13) s' 1)) <$> prepareWrite planItems (published 2) false 103 1 (january 13) s = Ok [50; 200]
  | None => False
  end.
Proof. by vm_compute. Qed.
