(* ===== verification/CarryReplay.v ===== *)
(** * Usage that plan changes carried ([db/repository/carry-over.ts])

    A plan change can write the usage of the outgoing allowance onto the incoming one.  Carries
    are recorded, and replaying them tells which usage an allowance holds: a carry that takes use
    no earlier carry moved introduces a portion, and later carries copy prefixes of portions, so
    that usage which returns to an allowance, along any path, is recognised and not written twice.
    This file models the replay, what two allowances share, and how a correction shrinks the
    portions; [CarryOver] models the transactions that use it.

    A JavaScript [Map] is the list of its entries in insertion order. *)
From S2P Require Import Prelude.

(** ** Maps in insertion order *)

Section JsMap.
Context {K V : Type} `{EqDecision K}.

Fixpoint mapGet (m : list (K * V)) (k : K) : option V :=
  match m with
  | [] => None
  | (k', v) :: m' => if decide (k' = k) then Some v else mapGet m' k
  end.

(** [set] keeps the place of a key that is there, and appends one that is not. *)
Fixpoint mapSet (m : list (K * V)) (k : K) (v : V) : list (K * V) :=
  match m with
  | [] => [(k, v)]
  | (k', v') :: m' => if decide (k' = k) then (k, v) :: m' else (k', v') :: mapSet m' k v
  end.
End JsMap.

(** ** Replaying carries *)

(** [CarriedUsageEdge] *)
Record CarriedUsageEdge := { ed_from : Z; ed_to : Z; ed_applied : Z }.

(** A portion is named by the carry that introduced it; [Portions]: an allowance's holding of each. *)
Abbreviation Portions := (list (nat * Z)).
Record Move := { mv_portion : nat; mv_before : Z; mv_moved : Z }.
Record CarryReplay := { rp_holdings : list (Z * Portions); rp_moves : list (list Move); rp_sizes : Portions }.

Definition emptyReplay : CarryReplay := {| rp_holdings := []; rp_moves := []; rp_sizes := [] |}.

(** The loop over the source's portions: what the target lacks of each, while any is left. *)
Fixpoint copyPortions (from to : Portions) (remaining : Z) : Portions * list Move * Z :=
  match from with
  | [] => (to, [], remaining)
  | (id, quantity) :: from' =>
      let held := default 0 (mapGet to id) in
      let missing := quantity - held in
      if missing <=? 0 then copyPortions from' to remaining
      else
        let copied := if missing <? remaining then missing else remaining in
        let to' := mapSet to id (held + copied) in
        let move := {| mv_portion := id; mv_before := held; mv_moved := copied |} in
        if remaining - copied =? 0 then (to', [move], 0)
        else let '(to'', moves, r) := copyPortions from' to' (remaining - copied) in (to'', move :: moves, r)
  end.

(** One carry. *)
Definition replayCarry (replay : CarryReplay) (entry : nat * CarriedUsageEdge) : CarryReplay :=
  let '(portion, edge) := entry in
  if ed_applied edge <=? 0
  then {| rp_holdings := rp_holdings replay; rp_moves := rp_moves replay ++ [[]]; rp_sizes := rp_sizes replay |}
  else
    let from := default [] (mapGet (rp_holdings replay) (ed_from edge)) in
    let to := default [] (mapGet (rp_holdings replay) (ed_to edge)) in
    let '(to', moves, remaining) := copyPortions from to (ed_applied edge) in
    if 0 <? remaining
    then {| rp_holdings := mapSet (mapSet (rp_holdings replay) (ed_from edge) (mapSet from portion remaining))
              (ed_to edge) (mapSet to' portion remaining);
            rp_moves := rp_moves replay ++ [moves ++ [{| mv_portion := portion; mv_before := 0; mv_moved := remaining |}]];
            rp_sizes := mapSet (rp_sizes replay) portion remaining |}
    else {| rp_holdings := mapSet (mapSet (rp_holdings replay) (ed_from edge) from) (ed_to edge) to';
            rp_moves := rp_moves replay ++ [moves]; rp_sizes := rp_sizes replay |}.

(** [edges.entries()] *)
Definition entries {A} (l : list A) : list (nat * A) := combine (List.seq 0 (length l)) l.

(** [replayCarries] *)
Definition replayCarries (edges : list CarriedUsageEdge) : CarryReplay := fold_left replayCarry (entries edges) emptyReplay.

(** What an allowance holds. *)
Definition heldBy (replay : CarryReplay) (a : Z) : Portions := default [] (mapGet (rp_holdings replay) a).

(** [sharedCarriedUsage] *)
Definition commonUsage (incoming outgoing : Portions) : Z :=
  sumZ (map (fun '(portion, quantity) =>
    let held := default 0 (mapGet incoming portion) in if quantity <? held then quantity else held) outgoing).
Definition sharedCarriedUsage (edges : list CarriedUsageEdge) (origin target : Z) : Z :=
  let replay := replayCarries edges in commonUsage (heldBy replay target) (heldBy replay origin).

(** ** Shrinking portions *)

(** What is left of each portion once a correction is taken from them, oldest first. *)
Fixpoint capPortions (sizes : Portions) (portions : list nat) (remaining : Z) : Portions :=
  match portions with
  | [] => []
  | portion :: rest =>
      if remaining =? 0 then []
      else
        let size := default 0 (mapGet sizes portion) in
        let taken := if remaining <? size then remaining else size in
        (portion, size - taken) :: capPortions sizes rest (remaining - taken)
  end.

(** What a holder has of the capped portions beyond their caps. *)
Definition excessOver (caps held : Portions) : Z :=
  sumZ (map (fun '(portion, cap) =>
    let quantityHeld := default 0 (mapGet held portion) in if cap <? quantityHeld then quantityHeld - cap else 0) caps).

(** What the carry that made these moves gives back. *)
Definition returnedBy (caps : Portions) (moves : list Move) : Z :=
  sumZ (map (fun m =>
    match mapGet caps (mv_portion m) with
    | None => 0
    | Some cap =>
        let kept := if mv_before m + mv_moved m <=? cap then mv_moved m else cap - mv_before m in
        mv_moved m - (if 0 <? kept then kept else 0)
    end) moves).

(** The carries after the correction. *)
Definition reducedEdges (caps : Portions) (replay : CarryReplay) (edges : list CarriedUsageEdge) : list CarriedUsageEdge :=
  zip_with (fun e moves => {| ed_from := ed_from e; ed_to := ed_to e; ed_applied := ed_applied e - Z.max 0 (returnedBy caps moves) |})
    edges (rp_moves replay).

(** The examples of [tests/db/carry-over.test.ts]. *)
Example shared_around_three : let e from to n := {| ed_from := from; ed_to := to; ed_applied := n |} in
  sharedCarriedUsage [e 1 2 20; e 2 3 40; e 3 1 40] 1 2 = 40 /\
  sharedCarriedUsage [e 1 2 1; e 2 1 1; e 1 3 3] 3 2 = 2 /\
  sharedCarriedUsage [e 1 2 30; e 2 3 20; e 2 4 25; e 3 4 5; e 4 3 5] 3 4 = 30.
Proof. by vm_compute. Qed.

(** ** Maps and holdings *)

Section JsMapFacts.
Context {K V : Type} `{EqDecision K}.

Lemma mapGet_set (m : list (K * V)) k v k' : mapGet (mapSet m k v) k' = if decide (k = k') then Some v else mapGet m k'.
Proof.
  induction m as [|[k1 v1] m IH]; cbn; [done|]. destruct (decide (k1 = k)) as [->|Hne]; cbn.
  - by destruct (decide (k = k')).
  - rewrite IH. destruct (decide (k1 = k')) as [->|]; [|done]. by destruct (decide (k = k')).
Qed.

Lemma mapGet_None (m : list (K * V)) k : mapGet m k = None <-> k ∉ map fst m.
Proof.
  induction m as [|[k1 v1] m IH]; cbn; [split; [intros _ []%elem_of_nil|done]|].
  rewrite not_elem_of_cons. destruct (decide (k1 = k)) as [->|Hne]; [split; [done|by intros [[] _] ]|]. rewrite IH. naive_solver.
Qed.

Lemma mapSet_keys (m : list (K * V)) k v : map fst (mapSet m k v) = if decide (k ∈ map fst m) then map fst m else map fst m ++ [k].
Proof.
  induction m as [|[k1 v1] m IH]; cbn; [by rewrite decide_False by by intros ?%elem_of_nil|].
  destruct (decide (k1 = k)) as [->|Hne]; cbn; [by rewrite decide_True by constructor|]. rewrite IH.
  destruct (decide (k ∈ map fst m)); [by rewrite decide_True by by constructor|]. rewrite decide_False; [done|]. by intros [->|?]%elem_of_cons.
Qed.

Lemma mapSet_nodup (m : list (K * V)) k v : NoDup (map fst m) -> NoDup (map fst (mapSet m k v)).
Proof.
  intros H. rewrite mapSet_keys. destruct (decide _); [done|]. apply NoDup_app. split_and!; [done| |apply NoDup_singleton].
  by intros x Hx ->%list_elem_of_singleton.
Qed.

Lemma mapSet_fresh (m : list (K * V)) k v : k ∉ map fst m -> mapSet m k v = m ++ [(k, v)].
Proof.
  induction m as [|[k1 v1] m IH]; cbn; [done|]. intros [Hne Hk]%not_elem_of_cons. rewrite decide_False by congruence. by rewrite IH.
Qed.

Lemma mapGet_elem (m : list (K * V)) k v : NoDup (map fst m) -> (k, v) ∈ m -> mapGet m k = Some v.
Proof.
  induction m as [|[k1 v1] m IH]; [by intros _ ?%elem_of_nil|]. cbn. intros [Hk Hnd]%NoDup_cons [[= -> ->]|Hin]%elem_of_cons; [by rewrite decide_True|].
  rewrite decide_False; [by apply IH|]. intros ->. apply Hk. by apply (list_elem_of_fmap_2 fst _ (k, v)).
Qed.

Lemma elem_mapGet (m : list (K * V)) k v : mapGet m k = Some v -> (k, v) ∈ m.
Proof.
  induction m as [|[k1 v1] m IH]; [done|]. cbn. destruct (decide (k1 = k)) as [->|]; [intros [= ->]; constructor|]. intros; constructor; auto.
Qed.

Lemma elem_mapSet (m : list (K * V)) k v x : x ∈ mapSet m k v -> x = (k, v) \/ x ∈ m.
Proof.
  induction m as [|[k1 v1] m IH]; cbn; [intros ->%list_elem_of_singleton; by left|].
  destruct (decide (k1 = k)); intros [->|Hx]%elem_of_cons; [by left|right; by constructor|right; by constructor|].
  destruct (IH Hx); [by left|right; by constructor].
Qed.
End JsMapFacts.

Definition qty (l : Portions) (p : nat) : Z := default 0 (mapGet l p).
Definition total (l : Portions) : Z := sumZ (map snd l).

(** Holdings name each portion once and hold some of it. *)
Definition holding_ok (l : Portions) : Prop := NoDup (map fst l) /\ forall e, e ∈ l -> 0 < e.2.

Lemma holding_nil : holding_ok [].
Proof. split; [apply NoDup_nil_2|by intros e ?%elem_of_nil]. Qed.

Lemma qty_set l p v p' : qty (mapSet l p v) p' = if decide (p = p') then v else qty l p'.
Proof. unfold qty. rewrite mapGet_set. by destruct (decide _). Qed.

Lemma holding_set l p v : holding_ok l -> 0 < v -> holding_ok (mapSet l p v).
Proof. intros [Hnd Hp] Hv. split; [by apply mapSet_nodup|]. intros e [->|He]%elem_mapSet; [done|auto]. Qed.

Lemma holding_tail e l : holding_ok (e :: l) -> e.1 ∉ map fst l /\ 0 < e.2 /\ holding_ok l.
Proof.
  intros [Hnd Hp]. cbn in Hnd. apply NoDup_cons in Hnd as [? ?]. split; [done|]. split; [apply Hp; constructor|].
  split; [done|]. intros x Hx. apply Hp. by constructor.
Qed.

Lemma qty_nonneg l p : holding_ok l -> 0 <= qty l p.
Proof. intros [_ Hp]. unfold qty. destruct (mapGet l p) as [v|] eqn:E; [|done]. apply elem_mapGet, Hp in E. cbn in *. lia. Qed.

Lemma qty_pos l p : holding_ok l -> p ∈ map fst l -> 0 < qty l p.
Proof.
  intros [_ Hp] Hin. unfold qty. destruct (mapGet l p) as [v|] eqn:E; [apply elem_mapGet, Hp in E; done|]. by apply mapGet_None in E.
Qed.

Lemma qty_absent l p : p ∉ map fst l -> qty l p = 0.
Proof. intros H. unfold qty. by rewrite (proj2 (mapGet_None l p)). Qed.

Lemma total_set l p v : NoDup (map fst l) -> total (mapSet l p v) = total l + v - qty l p.
Proof.
  unfold total, qty. induction l as [|[k w] l IH]; cbn; [lia|]. intros [Hk Hnd]%NoDup_cons. destruct (decide (k = p)) as [->|Hne]; cbn; [lia|].
  rewrite IH by done. lia.
Qed.

Lemma total_nonneg l : holding_ok l -> 0 <= total l.
Proof. intros [_ Hp]. apply sumZ_nonneg, Forall_forall. intros x (e & -> & He)%list_elem_of_fmap. specialize (Hp e He). lia. Qed.

Lemma total_qty l : NoDup (map fst l) -> total l = sumZ (map (qty l) (map fst l)).
Proof.
  unfold total. intros Hnd. rewrite map_map. f_equal. apply List.map_ext_in. intros [k v] Hin%list_elem_of_In. unfold qty. by rewrite (mapGet_elem l k v).
Qed.

(** What [to] lacks of [from]. *)
Definition missing (from to : Portions) : Z := sumZ (map (fun e => Z.max 0 (e.2 - qty to e.1)) from).

Lemma missing_nonneg from to : 0 <= missing from to.
Proof. apply sumZ_nonneg, Forall_forall. intros x (e & -> & He)%list_elem_of_fmap. lia. Qed.

Lemma commonUsage_missing from to : commonUsage to from + missing from to = total from.
Proof.
  unfold commonUsage, missing, total. induction from as [|[p q] from IH]; [done|]. cbn [map sumZ fst snd].
  change (default 0 (mapGet to p)) with (qty to p). destruct (Z.ltb_spec q (qty to p)); lia.
Qed.

Lemma missing_set_other from to p v : p ∉ map fst from -> missing from (mapSet to p v) = missing from to.
Proof.
  intros Hp. unfold missing. f_equal. apply List.map_ext_in. intros [k q] Hin%list_elem_of_In. cbn. rewrite qty_set, decide_False; [done|].
  intros ->. apply Hp. by apply (list_elem_of_fmap_2 fst _ (k, q)).
Qed.

(** *** Copying portions *)

Record copied_ok (from to : Portions) (remaining : Z) (to' : Portions) (moves : list Move) (r : Z) : Prop := {
  co_ok : holding_ok to';
  co_rest : 0 <= r; co_sum : sumZ (map mv_moved moves) + r = remaining;
  co_moved : sumZ (map mv_moved moves) = Z.min remaining (missing from to);
  co_total : total to' = total to + sumZ (map mv_moved moves);
  co_missing : missing from to' = missing from to - sumZ (map mv_moved moves);
  co_qty : forall p, qty to' p = qty to p \/ qty to p < qty to' p <= qty from p;
  co_full : 0 < r -> forall p, qty from p <= qty to' p;
  co_moves : forall m, m ∈ moves -> mv_portion m ∈ map fst from /\ qty to (mv_portion m) = mv_before m /\ 0 < mv_moved m /\
     mv_before m + mv_moved m = qty to' (mv_portion m) }.

Lemma copyPortions_ok from : forall to remaining, holding_ok from -> holding_ok to -> 0 < remaining ->
  let '(to', moves, r) := copyPortions from to remaining in copied_ok from to remaining to' moves r.
Proof.
  induction from as [|[p q] from IH]; intros to remaining Hf Ht Hr.
  { cbn. split; cbn; try done; try lia; [intros _ p; by apply qty_nonneg|by intros m ?%elem_of_nil]. }
  destruct (holding_tail _ _ Hf) as (Hp & Hq & Hf'). cbn in Hp, Hq. cbn [copyPortions]. change (default 0 (mapGet to p)) with (qty to p).
  assert (Hqf : forall p', qty ((p, q) :: from) p' = if decide (p = p') then q else qty from p').
  { intros p'. unfold qty. cbn. by destruct (decide _). }
  pose proof (qty_nonneg to p Ht).
  assert (Hm : missing ((p, q) :: from) to = Z.max 0 (q - qty to p) + missing from to) by done.
  destruct (Z.leb_spec (q - qty to p) 0) as [Hle|Hgt].
  - specialize (IH to remaining Hf' Ht Hr). destruct (copyPortions from to remaining) as [[to' moves] r].
    destruct IH as [I1 I2 I3 I4 I5 I9 I6 I7 I8]. split; try done.
    + rewrite Hm. lia.
    + rewrite Hm. unfold missing in *. cbn [map sumZ fst snd]. rewrite I9.
      destruct (I6 p) as [->|[? Hx]]; [lia|]. rewrite (qty_absent from p Hp) in Hx. lia.
    + intros p'. rewrite Hqf. destruct (decide (p = p')) as [<-|]; [|done]. left. destruct (I6 p) as [?|[? Hx]]; [done|]. rewrite (qty_absent from p Hp) in Hx. lia.
    + intros Hr' p'. rewrite Hqf. destruct (decide (p = p')) as [<-|]; [|by apply I7]. destruct (I6 p); lia.
    + intros m Hmv. destruct (I8 m Hmv) as (? & ? & ? & ?). split_and!; try done. cbn. by constructor.
  - set (copied := if q - qty to p <? remaining then q - qty to p else remaining).
    assert (Hc : 0 < copied /\ copied = Z.min (q - qty to p) remaining) by (subst copied; destruct (Z.ltb_spec (q - qty to p) remaining); lia).
    pose proof (missing_nonneg from to). assert (Ht1 : holding_ok (mapSet to p (qty to p + copied))) by (apply holding_set; [done|lia]).
    assert (Htot : total (mapSet to p (qty to p + copied)) = total to + copied) by (rewrite total_set by apply Ht; lia).
    destruct (Z.eqb_spec (remaining - copied) 0) as [Hz|Hnz].
    + assert (Hmis : missing ((p, q) :: from) (mapSet to p (qty to p + copied)) = missing ((p, q) :: from) to - copied).
      { rewrite Hm. unfold missing at 1. cbn [map sumZ fst snd]. fold (missing from (mapSet to p (qty to p + copied))).
        rewrite missing_set_other, qty_set, decide_True by done. lia. }
      split; cbn [map sumZ mv_moved]; try done; try lia.
      * intros p'. rewrite Hqf, qty_set. destruct (decide (p = p')) as [<-|]; [right; lia|by left].
      * intros m ->%list_elem_of_singleton. cbn. rewrite qty_set, decide_True by done. split_and!; [constructor|done|lia|lia].
    + specialize (IH (mapSet to p (qty to p + copied)) (remaining - copied) Hf' Ht1 ltac:(lia)).
      destruct (copyPortions from (mapSet to p (qty to p + copied)) (remaining - copied)) as [[to' moves] r].
      destruct IH as [I1 I2 I3 I4 I5 I9 I6 I7 I8]. rewrite missing_set_other in I4 by done. rewrite missing_set_other in I9 by done.
      assert (Hcq : copied = q - qty to p) by lia.
      assert (Hp' : qty to' p = q).
      { destruct (I6 p) as [E|[E E']]; rewrite qty_set, decide_True in E by done; [lia|]. rewrite (qty_absent from p Hp) in E'. lia. }
      assert (Hmis : missing ((p, q) :: from) to' = missing from to').
      { unfold missing. cbn [map sumZ fst snd]. rewrite Hp'. lia. }
      split; cbn [map sumZ mv_moved]; try done; try lia.
      * intros p'. rewrite Hqf. destruct (decide (p = p')) as [<-|Hne]; [right; lia|]. destruct (I6 p') as [E|E]; rewrite qty_set, decide_False in E by done; [by left|by right].
      * intros Hr' p'. rewrite Hqf. destruct (decide (p = p')) as [<-|]; [lia|by apply I7].
      * intros m [->|Hmv]%elem_of_cons; cbn; [split_and!; [constructor|done|lia|lia]|].
        destruct (I8 m Hmv) as (J1 & J2 & J3 & J4). split_and!; try done; [by constructor|].
        rewrite qty_set, decide_False in J2; [done|]. intros E. by rewrite E in Hp.
Qed.

(** *** One carry *)

(** [mapSet m p v] of a new portion, or nothing of it. *)
Definition introduce (l : Portions) (p : nat) (n : Z) : Portions := if 0 <? n then l ++ [(p, n)] else l.

Lemma qty_introduce l p n p' : p ∉ map fst l -> 0 <= n -> qty (introduce l p n) p' = if decide (p = p') then n else qty l p'.
Proof.
  intros Hp Hn. unfold introduce. destruct (Z.ltb_spec 0 n).
  - rewrite <- (mapSet_fresh l p n) by done. apply qty_set.
  - destruct (decide (p = p')) as [<-|]; [|done]. rewrite (qty_absent l p Hp). lia.
Qed.

Lemma holding_introduce l p n : holding_ok l -> p ∉ map fst l -> holding_ok (introduce l p n).
Proof. intros Hl Hp. unfold introduce. destruct (Z.ltb_spec 0 n); [|done]. rewrite <- (mapSet_fresh l p n) by done. by apply holding_set. Qed.

Lemma total_introduce l p n : 0 <= n -> total (introduce l p n) = total l + n.
Proof. intros Hn. unfold introduce, total. destruct (Z.ltb_spec 0 n); [rewrite map_app, sumZ_app; cbn; lia|lia]. Qed.

Lemma introduce_keys l p n p' : p' ∈ map fst (introduce l p n) -> p' = p \/ p' ∈ map fst l.
Proof. unfold introduce. destruct (0 <? n); [rewrite map_app|]; set_solver. Qed.

Lemma heldBy_set (R : list (Z * Portions)) a l b : default [] (mapGet (mapSet R a l) b) = if decide (a = b) then l else default [] (mapGet R b).
Proof. rewrite mapGet_set. by destruct (decide _). Qed.

Lemma heldBy_both R f t A B moves sizes a :
  heldBy {| rp_holdings := mapSet (mapSet (rp_holdings R) f A) t B; rp_moves := moves; rp_sizes := sizes |} a =
  if decide (t = a) then B else if decide (f = a) then A else heldBy R a.
Proof. unfold heldBy. cbn [rp_holdings]. rewrite heldBy_set. destruct (decide _); [done|]. by rewrite heldBy_set. Qed.

(** What a carry of a positive quantity does, for the copied portions and the introduced one. *)
Record carried (R : CarryReplay) (p : nat) (e : CarriedUsageEdge) (R' : CarryReplay) (to' : Portions) (moves : list Move) (n : Z) : Prop := {
  cy_copied : copied_ok (heldBy R (ed_from e)) (heldBy R (ed_to e)) (ed_applied e) to' moves n;
  cy_fresh : p ∉ map fst to';
  cy_held : forall a, heldBy R' a = if decide (ed_to e = a) then introduce to' p n
    else if decide (ed_from e = a) then introduce (heldBy R (ed_from e)) p n else heldBy R a;
  cy_sizes : rp_sizes R' = introduce (rp_sizes R) p n;
  cy_moves : rp_moves R' = rp_moves R ++ [moves ++ (if 0 <? n then [{| mv_portion := p; mv_before := 0; mv_moved := n |}] else [])] }.

Lemma replayCarry_skip R p e : ed_applied e <= 0 -> (forall a, heldBy (replayCarry R (p, e)) a = heldBy R a) /\
  rp_sizes (replayCarry R (p, e)) = rp_sizes R /\ rp_moves (replayCarry R (p, e)) = rp_moves R ++ [[]].
Proof. intros H. unfold replayCarry. rewrite (proj2 (Z.leb_le _ _) H). done. Qed.

Lemma replayCarry_carried R p e : (forall a, holding_ok (heldBy R a)) -> (forall a, p ∉ map fst (heldBy R a)) -> p ∉ map fst (rp_sizes R) ->
  0 < ed_applied e -> exists to' moves n, copyPortions (heldBy R (ed_from e)) (heldBy R (ed_to e)) (ed_applied e) = (to', moves, n) /\
    carried R p e (replayCarry R (p, e)) to' moves n.
Proof.
  intros Hok Hfr Hfs Ha. pose proof (copyPortions_ok _ (heldBy R (ed_to e)) _ (Hok (ed_from e)) (Hok (ed_to e)) Ha) as Hc.
  unfold replayCarry. replace (ed_applied e <=? 0) with false by (symmetry; by apply Z.leb_gt).
  change (default [] (mapGet (rp_holdings R) (ed_from e))) with (heldBy R (ed_from e)).
  change (default [] (mapGet (rp_holdings R) (ed_to e))) with (heldBy R (ed_to e)).
  destruct (copyPortions _ _ _) as [[to' moves] n]. exists to', moves, n. split; [done|].
  assert (Hp : p ∉ map fst to').
  { intros Hin. destruct Hc as [Hok' _ _ _ _ _ Hq _ _]. pose proof (qty_pos to' p Hok' Hin). destruct (Hq p) as [E|[_ E]].
    - rewrite (qty_absent _ p (Hfr (ed_to e))) in E. lia.
    - rewrite (qty_absent _ p (Hfr (ed_from e))) in E. lia. }
  split; try done; unfold introduce; destruct (0 <? n); intros; rewrite ?heldBy_both; cbn [rp_sizes rp_moves];
    rewrite ?(mapSet_fresh _ p) by done; try done. by rewrite app_nil_r.
Qed.

(** *** The whole replay *)

Definition replayOf (l : list (nat * CarriedUsageEdge)) : CarryReplay := fold_left replayCarry l emptyReplay.

Lemma replayOf_snoc l x : replayOf (l ++ [x]) = replayCarry (replayOf l) x.
Proof. unfold replayOf. by rewrite fold_left_app. Qed.

(** Carries go from one allowance to another. *)
Definition edges_apart (es : list CarriedUsageEdge) : Prop := forall e, e ∈ es -> ed_from e <> ed_to e.

Record replay_ok (l : list (nat * CarriedUsageEdge)) (R : CarryReplay) : Prop := {
  ro_holdings : forall a, holding_ok (heldBy R a);
  ro_sizes : holding_ok (rp_sizes R);
  ro_known : forall p, p ∈ map fst (rp_sizes R) -> p ∈ map fst l;
  ro_within : forall a p, qty (heldBy R a) p <= qty (rp_sizes R) p;
  ro_source : forall p e, (p, e) ∈ l -> qty (heldBy R (ed_from e)) p = qty (rp_sizes R) p;
  ro_moves : length (rp_moves R) = length l }.

Lemma replay_absent l R p : replay_ok l R -> p ∉ map fst l -> p ∉ map fst (rp_sizes R) /\ forall a, p ∉ map fst (heldBy R a).
Proof.
  intros H Hp. assert (Hs : p ∉ map fst (rp_sizes R)) by (intros ?%(ro_known _ _ H); done). split; [done|]. intros a Hin.
  pose proof (qty_pos _ p (ro_holdings _ _ H a) Hin). pose proof (ro_within _ _ H a p). rewrite (qty_absent _ p Hs) in *. lia.
Qed.

Lemma replayOf_ok l : NoDup (map fst l) -> edges_apart (map snd l) -> replay_ok l (replayOf l).
Proof.
  induction l as [|[p e] l IH] using rev_ind; intros Hnd Hap.
  { split; cbn; try done; [intros _|]; apply holding_nil. }
  rewrite map_app in Hnd, Hap. cbn in Hnd, Hap. apply NoDup_app in Hnd as (Hnd & Hd & _).
  assert (Hap' : edges_apart (map snd l)) by (intros x Hx; apply Hap; set_solver).
  assert (Hne : ed_from e <> ed_to e) by (apply Hap; set_solver).
  specialize (IH Hnd Hap'). rewrite replayOf_snoc. set (R := replayOf l) in *.
  assert (Hp : p ∉ map fst l) by (intros Hin; apply (Hd p Hin); constructor). destruct (replay_absent l R p IH Hp) as [Hps Hpa].
  destruct (Z.leb_spec (ed_applied e) 0) as [Hz|Hz].
  - destruct (replayCarry_skip R p e Hz) as (E1 & E2 & E3). split; rewrite ?E2, ?E3.
    + intros a. rewrite E1. apply (ro_holdings _ _ IH).
    + apply (ro_sizes _ _ IH).
    + intros p' Hin. rewrite map_app. apply elem_of_app. left. by apply (ro_known _ _ IH).
    + intros a p'. rewrite E1. apply (ro_within _ _ IH).
    + intros p' e' [Hin|[= -> ->]%list_elem_of_singleton]%elem_of_app; rewrite E1; [by apply (ro_source _ _ IH)|].
      by rewrite !qty_absent.
    + rewrite !length_app, (ro_moves _ _ IH). done.
  - destruct (replayCarry_carried R p e (ro_holdings _ _ IH) Hpa Hps Hz) as (to' & moves & n & _ & Hc).
    pose proof (cy_copied _ _ _ _ _ _ _ Hc) as Hco. destruct Hco as [C1 C2 C3 C4 C5 C9 C6 C7 C8].
    assert (Hq : forall a p', qty (heldBy (replayCarry R (p, e)) a) p' =
      if decide (p = p') then (if decide (ed_to e = a \/ ed_from e = a) then n else 0) else if decide (ed_to e = a) then qty to' p' else qty (heldBy R a) p').
    { intros a p'. rewrite (cy_held _ _ _ _ _ _ _ Hc a). destruct (decide (ed_to e = a)) as [Ea|Ea]; [|destruct (decide (ed_from e = a)) as [<-|Eb] ].
      - rewrite qty_introduce by (try apply (cy_fresh _ _ _ _ _ _ _ Hc); done). rewrite (decide_True (P := ed_to e = a \/ ed_from e = a)) by by left. done.
      - rewrite qty_introduce by (try apply Hpa; done). rewrite (decide_True (P := ed_to e = ed_from e \/ _)) by by right. done.
      - rewrite (decide_False (P := ed_to e = a \/ ed_from e = a)) by by intros [?|?]. destruct (decide (p = p')) as [<-|]; [|done]. by apply qty_absent. }
    assert (Hs : forall p', qty (rp_sizes (replayCarry R (p, e))) p' = if decide (p = p') then n else qty (rp_sizes R) p').
    { intros p'. rewrite (cy_sizes _ _ _ _ _ _ _ Hc). by apply qty_introduce. }
    split.
    + intros a. rewrite (cy_held _ _ _ _ _ _ _ Hc a). destruct (decide _); [|destruct (decide _) as [<-|] ].
      * apply holding_introduce; [done|apply (cy_fresh _ _ _ _ _ _ _ Hc)].
      * apply holding_introduce; [apply (ro_holdings _ _ IH)|apply Hpa].
      * apply (ro_holdings _ _ IH).
    + rewrite (cy_sizes _ _ _ _ _ _ _ Hc). apply holding_introduce; [apply (ro_sizes _ _ IH)|done].
    + intros p'. rewrite (cy_sizes _ _ _ _ _ _ _ Hc), map_app. intros [->|Hin]%introduce_keys; [set_solver|].
      apply elem_of_app. left. by apply (ro_known _ _ IH).
    + intros a p'. rewrite Hq, Hs. destruct (decide (p = p')); [destruct (decide _); lia|].
      destruct (decide _); [|apply (ro_within _ _ IH)]. pose proof (ro_within _ _ IH (ed_to e) p'). pose proof (ro_within _ _ IH (ed_from e) p').
      destruct (C6 p') as [->|?]; lia.
    + intros p' e' [Hin|[= -> ->]%list_elem_of_singleton]%elem_of_app; rewrite Hq, Hs.
      * assert (Hpp : p <> p') by (intros ->; apply Hp; by apply (list_elem_of_fmap_2 fst _ (p', e'))).
        rewrite !(decide_False (P := p = p')) by done.
        destruct (decide (ed_to e = ed_from e')) as [E|]; [|by apply (ro_source _ _ IH)].
        pose proof (ro_source _ _ IH p' e' Hin) as Hso. rewrite <- E in Hso. pose proof (ro_within _ _ IH (ed_from e) p'). destruct (C6 p') as [->|?]; lia.
      * rewrite !decide_True by (done || by right). done.
    + rewrite (cy_moves _ _ _ _ _ _ _ Hc), !length_app, (ro_moves _ _ IH). done.
Qed.

(** *** What a carry moves *)

Lemma missing_introduce from to p n : p ∉ map fst from -> p ∉ map fst to -> 0 <= n -> missing (introduce from p n) (introduce to p n) = missing from to.
Proof.
  intros Hf Ht Hn. assert (E : missing from (introduce to p n) = missing from to).
  { unfold introduce. destruct (0 <? n); [|done]. rewrite <- (mapSet_fresh to p n Ht). by apply missing_set_other. }
  assert (Hq : qty (introduce to p n) p = n) by (rewrite qty_introduce, decide_True by done; done).
  unfold introduce at 1. destruct (Z.ltb_spec 0 n) as [Hlt|?]; [|done]. unfold missing. rewrite map_app, sumZ_app. fold (missing from (introduce to p n)).
  fold (missing from to). rewrite E. cbn [map sumZ fst snd]. rewrite Hq. lia.
Qed.

(** The carry moves as much as it says, and all of it is then shared. *)
Lemma carried_totals R p e R' to' moves n : ed_from e <> ed_to e -> (forall a, p ∉ map fst (heldBy R a)) -> carried R p e R' to' moves n ->
  total (heldBy R' (ed_to e)) = total (heldBy R (ed_to e)) + ed_applied e /\
  total (heldBy R' (ed_from e)) = total (heldBy R (ed_from e)) + n /\
  total (rp_sizes R') = total (rp_sizes R) + n /\
  n = Z.max 0 (ed_applied e - missing (heldBy R (ed_from e)) (heldBy R (ed_to e))) /\
  commonUsage (heldBy R' (ed_to e)) (heldBy R' (ed_from e)) = commonUsage (heldBy R (ed_to e)) (heldBy R (ed_from e)) + ed_applied e.
Proof.
  intros Hne Hp Hc. pose proof (cy_held _ _ _ _ _ _ _ Hc (ed_to e)) as Et. rewrite decide_True in Et by done.
  pose proof (cy_held _ _ _ _ _ _ _ Hc (ed_from e)) as Ef. rewrite decide_False, decide_True in Ef by congruence.
  destruct (cy_copied _ _ _ _ _ _ _ Hc) as [C1 C2 C3 C4 C5 C6 C7 C8 C9]. rewrite Et, Ef, (cy_sizes _ _ _ _ _ _ _ Hc), !total_introduce by done.
  split_and!; try lia.
  pose proof (commonUsage_missing (introduce (heldBy R (ed_from e)) p n) (introduce to' p n)) as H1.
  pose proof (commonUsage_missing (heldBy R (ed_from e)) (heldBy R (ed_to e))) as H2.
  rewrite missing_introduce, total_introduce in H1 by (try apply Hp; try apply (cy_fresh _ _ _ _ _ _ _ Hc); done). lia.
Qed.

(** ** Units of usage

    A portion of size [n] stands for [n] units of usage, and who holds [k] of it holds the first
    [k]; the replay is the bookkeeping of sets of units. *)
Definition units (l : Portions) : gset (nat * Z) := list_to_set (flat_map (fun '(p, q) => map (pair p) (seqZ 0 q)) l).

Lemma elem_of_units l p i : holding_ok l -> (p, i) ∈ units l <-> 0 <= i < qty l p.
Proof.
  intros Hok. unfold units. rewrite elem_of_list_to_set, list_elem_of_In, in_flat_map. split.
  - intros ([p' q] & Hin%list_elem_of_In & H%list_elem_of_In). apply list_elem_of_fmap in H as (j & [= -> ->] & Hj).
    apply elem_of_seqZ in Hj. unfold qty. rewrite (mapGet_elem l p' q) by (done || apply Hok). cbn. lia.
  - intros Hi. unfold qty in Hi. destruct (mapGet l p) as [q|] eqn:E; cbn in Hi; [|lia]. apply elem_mapGet in E. exists (p, q). split; [by apply list_elem_of_In|].
    apply list_elem_of_In, list_elem_of_fmap_2, elem_of_seqZ. lia.
Qed.

Lemma size_units l : holding_ok l -> Z.of_nat (size (units l)) = total l.
Proof.
  induction l as [|[p q] l IH]; intros Hok; [done|]. destruct (holding_tail _ _ Hok) as (Hp & Hq & Hok'). cbn in Hp, Hq.
  unfold units. cbn [flat_map]. rewrite list_to_set_app_L, size_union.
  - fold (units l). unfold total. cbn. fold (total l). rewrite <- (IH Hok'), Nat2Z.inj_add. f_equal.
    rewrite size_list_to_set; [rewrite length_map, length_seqZ; lia|]. apply NoDup_fmap; [by intros ? ? [= ->]|apply NoDup_seqZ].
  - intros x Hx Hx'. apply elem_of_list_to_set, list_elem_of_fmap in Hx as (i & -> & _). apply (elem_of_units l p i Hok') in Hx'.
    rewrite (qty_absent l p Hp) in Hx'. lia.
Qed.

Lemma common_units to from : holding_ok to -> holding_ok from -> Z.of_nat (size (units to ∩ units from)) = commonUsage to from.
Proof.
  intros Ht. induction from as [|[p q] from IH]; intros Hok; [by replace (units to ∩ units []) with (∅ : gset (nat * Z)) by set_solver|].
  destruct (holding_tail _ _ Hok) as (Hp & Hq & Hok'). cbn in Hp, Hq. unfold commonUsage. cbn [map sumZ]. fold (commonUsage to from). rewrite <- (IH Hok').
  change (default 0 (mapGet to p)) with (qty to p). pose proof (qty_nonneg to p Ht).
  assert (E : units to ∩ units ((p, q) :: from) = units [(p, Z.min q (qty to p))] ∪ (units to ∩ units from)).
  { apply set_eq. intros [p' i]. rewrite elem_of_union, !elem_of_intersection, (elem_of_units to), (elem_of_units from), (elem_of_units (_ :: from)) by done.
    assert (Hs : (p', i) ∈ units [(p, Z.min q (qty to p))] <-> p' = p /\ 0 <= i < Z.min q (qty to p)).
    { unfold units. cbn. rewrite app_nil_r, elem_of_list_to_set, list_elem_of_fmap. split.
      - intros (j & [= -> ->] & Hj%elem_of_seqZ). split; [done|lia].
      - intros [-> Hi]. exists i. split; [done|]. apply elem_of_seqZ. lia. }
    rewrite Hs. assert (Hqc : qty ((p, q) :: from) p' = if decide (p = p') then q else qty from p') by (unfold qty; cbn; by destruct (decide _)).
    rewrite Hqc. destruct (decide (p = p')) as [<-|Hne]; [rewrite (qty_absent from p Hp); split; [intros; left; split; [done|lia]|intros [?|?]; lia]|].
    split; [intros; right; lia|intros [[-> _]|?]; [done|lia]]. }
  rewrite E, size_union.
  - rewrite Nat2Z.inj_add. f_equal. unfold units. cbn. rewrite app_nil_r, size_list_to_set; [|apply NoDup_fmap; [by intros ? ? [= ->]|apply NoDup_seqZ] ].
    rewrite length_map, length_seqZ. destruct (Z.ltb_spec q (qty to p)); lia.
  - intros x Hx Hx'. unfold units at 1 in Hx. cbn in Hx. rewrite app_nil_r in Hx. apply elem_of_list_to_set, list_elem_of_fmap in Hx as (i & -> & _).
    apply elem_of_intersection in Hx' as [_ Hx']. apply (elem_of_units from p i Hok') in Hx'. rewrite (qty_absent from p Hp) in Hx'. lia.
Qed.

(** Carries over sets of units: a carry adds units to its target that the target lacks, units of
    its source; units no carry moved before are taken only after everything else it lacked. *)
Inductive unit_run : list CarriedUsageEdge -> (Z -> gset (nat * Z)) -> Prop :=
  | ur_none a0 : (forall a, a0 a = ∅) -> unit_run [] a0
  | ur_empty es e a0 a1 : unit_run es a0 -> ed_applied e <= 0 -> (forall a, a1 a = a0 a) -> unit_run (es ++ [e]) a1
  | ur_carry es e a0 a1 moved new : unit_run es a0 -> 0 < ed_applied e -> Z.of_nat (size moved) = ed_applied e ->
      (forall a, new ## a0 a) -> new ⊆ moved -> moved ⊆ a0 (ed_from e) ∪ new -> moved ## a0 (ed_to e) ->
      (new <> ∅ -> a0 (ed_from e) ⊆ a0 (ed_to e) ∪ moved) ->
      a1 (ed_from e) = a0 (ed_from e) ∪ new -> a1 (ed_to e) = a0 (ed_to e) ∪ moved ->
      (forall a, a <> ed_from e -> a <> ed_to e -> a1 a = a0 a) -> unit_run (es ++ [e]) a1.

Lemma units_step R p e R' to' moves n : (forall a, holding_ok (heldBy R a)) -> (forall a, holding_ok (heldBy R' a)) ->
  (forall a, p ∉ map fst (heldBy R a)) -> ed_from e <> ed_to e -> carried R p e R' to' moves n ->
  exists moved new, Z.of_nat (size moved) = ed_applied e /\ (forall a, new ## units (heldBy R a)) /\ new ⊆ moved /\
    moved ⊆ units (heldBy R (ed_from e)) ∪ new /\ moved ## units (heldBy R (ed_to e)) /\
    (new <> ∅ -> units (heldBy R (ed_from e)) ⊆ units (heldBy R (ed_to e)) ∪ moved) /\
    units (heldBy R' (ed_from e)) = units (heldBy R (ed_from e)) ∪ new /\ units (heldBy R' (ed_to e)) = units (heldBy R (ed_to e)) ∪ moved /\
    (forall a, a <> ed_from e -> a <> ed_to e -> units (heldBy R' a) = units (heldBy R a)).
Proof.
  intros Hok Hok' Hp Hne Hc. destruct (carried_totals R p e R' to' moves n Hne Hp Hc) as (T1 & _).
  set (new := units (introduce [] p n)). exists (units (heldBy R' (ed_to e)) ∖ units (heldBy R (ed_to e))), new.
  destruct (cy_copied _ _ _ _ _ _ _ Hc) as [C1 C2 C3 C4 C5 C6 C7 C8 C9].
  assert (Hnew : forall p' i, (p', i) ∈ new <-> p' = p /\ 0 <= i < n).
  { intros p' i. unfold new. rewrite elem_of_units by (apply holding_introduce; [apply holding_nil|by intros ?%elem_of_nil]).
    rewrite qty_introduce by (done || by intros ?%elem_of_nil). destruct (decide (p = p')) as [<-|Hpp]; [naive_solver|]. unfold qty. cbn. split; [lia|naive_solver]. }
  assert (Hto : forall p', qty (heldBy R' (ed_to e)) p' = if decide (p = p') then n else qty to' p').
  { intros p'. rewrite (cy_held _ _ _ _ _ _ _ Hc), decide_True by done. apply qty_introduce; [apply (cy_fresh _ _ _ _ _ _ _ Hc)|done]. }
  assert (Hfrom : forall p', qty (heldBy R' (ed_from e)) p' = if decide (p = p') then n else qty (heldBy R (ed_from e)) p').
  { intros p'. rewrite (cy_held _ _ _ _ _ _ _ Hc), decide_False, decide_True by congruence. apply qty_introduce; [apply Hp|done]. }
  assert (Hsub : units (heldBy R (ed_to e)) ⊆ units (heldBy R' (ed_to e))).
  { intros [p' i]. rewrite !elem_of_units, Hto by done. destruct (decide (p = p')) as [<-|]; [rewrite (qty_absent _ p (Hp _)); lia|]. destruct (C7 p'); lia. }
  assert (Hpq : forall a, qty (heldBy R a) p = 0) by (intros a; by apply qty_absent).
  assert (Hpt : qty to' p = 0) by (apply qty_absent, (cy_fresh _ _ _ _ _ _ _ Hc)).
  split_and!.
  - assert (Hsz : (size (units (heldBy R' (ed_to e)) ∖ units (heldBy R (ed_to e))) + size (units (heldBy R (ed_to e))))%nat = size (units (heldBy R' (ed_to e)))).
    { rewrite size_difference by done. pose proof (subseteq_size _ _ Hsub). lia. }
    apply (f_equal Z.of_nat) in Hsz. rewrite Nat2Z.inj_add, !size_units in Hsz by done. lia.
  - intros a [p' i] [-> Hi]%Hnew Hx. apply elem_of_units in Hx; [|done]. rewrite Hpq in Hx. lia.
  - intros [p' i] [-> Hi]%Hnew. apply elem_of_difference. rewrite !elem_of_units, Hto, decide_True, Hpq by done. lia.
  - intros [p' i] [Hx Hx']%elem_of_difference. apply elem_of_union. rewrite Hnew. rewrite elem_of_units, Hto in Hx by done. rewrite elem_of_units in Hx' by done.
    destruct (decide (p = p')) as [<-|]; [by right|left]. rewrite elem_of_units by done. destruct (C7 p'); lia.
  - intros x [_ Hx']%elem_of_difference. done.
  - intros Hn [p' i]. rewrite elem_of_union, elem_of_difference, !elem_of_units, Hto by done. intros Hi.
    assert (0 < n). { destruct (Z.ltb_spec 0 n); [done|]. exfalso. apply Hn. apply set_eq. intros [p1 j]. rewrite Hnew. split; [lia|by intros ?%elem_of_empty]. }
    destruct (decide (p = p')) as [<-|]; [rewrite Hpq in Hi; lia|]. pose proof (C8 ltac:(done) p'). destruct (decide (0 <= i < qty (heldBy R (ed_to e)) p')); [by left|right; lia].
  - apply set_eq. intros [p' i]. rewrite elem_of_union, Hnew, !elem_of_units, Hfrom by done. destruct (decide (p = p')) as [<-|]; [rewrite Hpq; naive_solver lia|naive_solver].
  - rewrite union_comm_L, difference_union_L. set_solver.
  - intros a H1 H2. rewrite (cy_held _ _ _ _ _ _ _ Hc), !decide_False by congruence. done.
Qed.

Lemma replayOf_units l : NoDup (map fst l) -> edges_apart (map snd l) -> unit_run (map snd l) (fun a => units (heldBy (replayOf l) a)).
Proof.
  induction l as [|[p e] l IH] using rev_ind; intros Hnd Hap; [by apply ur_none|].
  pose proof (replayOf_ok _ Hnd Hap) as Hok1. rewrite replayOf_snoc in *. rewrite map_app in *. cbn [map snd fst] in *.
  apply NoDup_app in Hnd as (Hnd & Hd & _). assert (Hp : p ∉ map fst l) by (intros Hin; apply (Hd p Hin); constructor).
  assert (Hap' : edges_apart (map snd l)) by (intros x Hx; apply Hap; set_solver). assert (Hne : ed_from e <> ed_to e) by (apply Hap; set_solver).
  pose proof (replayOf_ok l Hnd Hap') as Hok. specialize (IH Hnd Hap'). destruct (replay_absent _ _ p Hok Hp) as [Hps Hpa].
  destruct (Z.leb_spec (ed_applied e) 0) as [Hz|Hz].
  - destruct (replayCarry_skip (replayOf l) p e Hz) as (E1 & _). apply (ur_empty _ _ _ _ IH Hz). intros a. by rewrite E1.
  - destruct (replayCarry_carried (replayOf l) p e (ro_holdings _ _ Hok) Hpa Hps Hz) as (to' & moves & n & _ & Hc).
    destruct (units_step _ p e _ to' moves n (ro_holdings _ _ Hok) (ro_holdings _ _ Hok1) Hpa Hne Hc) as (moved & new & ? & ? & ? & ? & ? & ? & ? & ? & ?).
    by apply (ur_carry _ _ _ _ moved new IH Hz).
Qed.

Lemma entries_fst {A} (l : list A) : map fst (entries l) = List.seq 0 (length l).
Proof. unfold entries. generalize 0%nat. induction l as [|x l IH]; intros n; cbn; [done|]. by rewrite IH. Qed.

Lemma entries_snd {A} (l : list A) : map snd (entries l) = l.
Proof. unfold entries. generalize 0%nat. induction l as [|x l IH]; intros n; cbn; [done|]. by rewrite IH. Qed.

Lemma entries_nodup {A} (l : list A) : NoDup (map fst (entries l)).
Proof. rewrite entries_fst. apply NoDup_ListNoDup, seq_NoDup. Qed.

Lemma replayCarries_ok edges : edges_apart edges -> replay_ok (entries edges) (replayCarries edges).
Proof. intros H. apply replayOf_ok; [apply entries_nodup|by rewrite entries_snd]. Qed.

(** C34: replaying a subscription's carries keeps the same books as moving individual units of
    usage: there is a run over sets of units, in which each carry adds to its target as many units
    as it carried, all new to the target and all of its source's, taking units no carry moved
    before only when everything its source holds is then with the target, and each allowance's
    portions stand for its set of units.  What two allowances share is the number of units they have in common. *)
Theorem replay_refines_units edges (Hap : edges_apart edges) :
  unit_run edges (fun a => units (heldBy (replayCarries edges) a)) /\
  (forall a, Z.of_nat (size (units (heldBy (replayCarries edges) a))) = total (heldBy (replayCarries edges) a)) /\
  forall origin target, sharedCarriedUsage edges origin target =
    Z.of_nat (size (units (heldBy (replayCarries edges) target) ∩ units (heldBy (replayCarries edges) origin))).
Proof.
  pose proof (replayCarries_ok edges Hap) as Hok. split_and!.
  - pose proof (replayOf_units (entries edges)) as H. rewrite entries_snd in H. by apply H; [apply entries_nodup|].
  - intros a. apply size_units, (ro_holdings _ _ Hok).
  - intros origin target. unfold sharedCarriedUsage. by rewrite common_units by apply (ro_holdings _ _ Hok).
Qed.

Definition three_ways : list CarriedUsageEdge :=
  [{| ed_from := 1; ed_to := 2; ed_applied := 20 |}; {| ed_from := 2; ed_to := 3; ed_applied := 40 |}; {| ed_from := 3; ed_to := 1; ed_applied := 40 |}].

Lemma three_ways_apart : edges_apart three_ways.
Proof. intros e He. repeat (apply elem_of_cons in He as [->|He]; [done|]). by apply elem_of_nil in He. Qed.

Lemma replay_refines_units_witness : edges_apart three_ways /\ sharedCarriedUsage three_ways 1 2 = 40 /\
  Z.of_nat (size (units (heldBy (replayCarries three_ways) 2) ∩ units (heldBy (replayCarries three_ways) 1))) = 40.
Proof.
  split; [exact three_ways_apart|]. split; [by vm_compute|].
  refine (eq_trans (eq_sym (proj2 (proj2 (replay_refines_units three_ways three_ways_apart)) 1 2)) _). by vm_compute.
Defined.

(** ** Names of portions do not matter *)

Section Renaming.
Context (f : nat -> nat) (Hf : forall i j, f i = f j -> i = j).

Definition renamed (l : Portions) : Portions := map (fun '(p, q) => (f p, q)) l.

Lemma mapGet_renamed l p : mapGet (renamed l) (f p) = mapGet l p.
Proof.
  induction l as [|[p1 q] l IH]; cbn; [done|]. destruct (decide (p1 = p)) as [->|Hne]; [by rewrite decide_True|]. rewrite decide_False; [done|].
  intros ?%Hf. done.
Qed.

Lemma mapSet_renamed l p v : mapSet (renamed l) (f p) v = renamed (mapSet l p v).
Proof.
  induction l as [|[p1 q] l IH]; cbn; [done|]. destruct (decide (p1 = p)) as [->|Hne]; [by rewrite decide_True|]. rewrite decide_False; [cbn; f_equal; apply IH|].
  intros ?%Hf. done.
Qed.

Lemma copyPortions_renamed from : forall to r, exists moves,
  copyPortions (renamed from) (renamed to) r = (renamed (copyPortions from to r).1.1, moves, (copyPortions from to r).2).
Proof.
  induction from as [|[p q] from IH]; intros to r; [by eexists|].
  change (renamed ((p, q) :: from)) with ((f p, q) :: renamed from). cbn [copyPortions]. rewrite mapGet_renamed. destruct (_ <=? 0); [apply IH|].
  rewrite mapSet_renamed. destruct (_ =? 0); [by eexists|]. match goal with |- context [copyPortions from ?t ?r'] => destruct (IH t r') as [moves ->] end.
  destruct (copyPortions from _ _) as [[to' moves'] r']. by eexists.
Qed.

Lemma replayOf_renamed l a : heldBy (replayOf (map (fun '(p, e) => (f p, e)) l)) a = renamed (heldBy (replayOf l) a).
Proof.
  revert a. induction l as [|[p e] l IH] using rev_ind; intros a; [done|]. rewrite map_app. cbn [map]. rewrite !replayOf_snoc. unfold replayCarry.
  destruct (ed_applied e <=? 0); [apply IH|]. fold (heldBy (replayOf (map (fun '(p, e) => (f p, e)) l)) (ed_from e)).
  fold (heldBy (replayOf (map (fun '(p, e) => (f p, e)) l)) (ed_to e)). fold (heldBy (replayOf l) (ed_from e)). fold (heldBy (replayOf l) (ed_to e)).
  rewrite !IH. destruct (copyPortions_renamed (heldBy (replayOf l) (ed_from e)) (heldBy (replayOf l) (ed_to e)) (ed_applied e)) as [moves ->].
  destruct (copyPortions _ _ _) as [[to' moves'] r]. cbn [fst snd].
  destruct (0 <? r); rewrite !heldBy_both, ?mapSet_renamed; repeat destruct (decide _); try done; apply IH.
Qed.

Lemma commonUsage_renamed to from : commonUsage (renamed to) (renamed from) = commonUsage to from.
Proof. unfold commonUsage, renamed. rewrite map_map. f_equal. apply map_ext. intros [p q]. by rewrite mapGet_renamed. Qed.
End Renaming.

Lemma replayOf_filter l a : heldBy (replayOf (filter (fun x => 0 < ed_applied x.2) l)) a = heldBy (replayOf l) a.
Proof.
  revert a. induction l as [|[p e] l IH] using rev_ind; intros a; [done|]. rewrite filter_app, filter_cons, filter_nil. cbn [snd].
  destruct (decide (0 < ed_applied e)) as [Hz|Hz].
  - rewrite !replayOf_snoc. unfold replayCarry. replace (ed_applied e <=? 0) with false by (symmetry; by apply Z.leb_gt).
    fold (heldBy (replayOf (filter (fun x => 0 < ed_applied x.2) l)) (ed_from e)). fold (heldBy (replayOf (filter (fun x => 0 < ed_applied x.2) l)) (ed_to e)).
    rewrite !IH. fold (heldBy (replayOf l) (ed_from e)). fold (heldBy (replayOf l) (ed_to e)). destruct (copyPortions _ _ _) as [[to' moves'] r].
    destruct (0 <? r); rewrite !heldBy_both; repeat destruct (decide _); try done; apply IH.
  - rewrite app_nil_r, replayOf_snoc, IH. symmetry. apply replayCarry_skip. lia.
Qed.

Lemma nodup_map_filter {A B} (f : A -> B) (P : A -> Prop) `{forall x, Decision (P x)} (l : list A) : NoDup (map f l) -> NoDup (map f (filter P l)).
Proof.
  induction l as [|x l IH]; [done|]. cbn [map]. intros [Hx Hnd]%NoDup_cons. rewrite filter_cons. destruct (decide _); [|auto]. cbn [map]. apply NoDup_cons. split; [|auto].
  intros (y & Ey & [_ Hy]%list_elem_of_filter)%list_elem_of_fmap. apply Hx. rewrite Ey. by apply list_elem_of_fmap_2.
Qed.

(** Two lists of the same carries under distinct names share as much. *)
Lemma shared_names (l1 l2 : list (nat * CarriedUsageEdge)) a b : NoDup (map fst l1) -> map fst l2 = List.seq 0 (length l2) -> map snd l1 = map snd l2 ->
  commonUsage (heldBy (replayOf l2) b) (heldBy (replayOf l2) a) = commonUsage (heldBy (replayOf l1) b) (heldBy (replayOf l1) a).
Proof.
  intros Hnd Hseq Hsnd. set (f := fun i => match map fst l1 !! i with Some p => p | None => (sum_list_with S (map fst l1) + i)%nat end).
  assert (Hlt : forall p, p ∈ map fst l1 -> (p < sum_list_with S (map fst l1))%nat).
  { intros p Hp. clear -Hp. induction (map fst l1) as [|p' ps IH]; [by apply elem_of_nil in Hp|]. cbn. apply elem_of_cons in Hp as [->|Hp]; [lia|]. specialize (IH Hp). lia. }
  assert (Hf : forall i j, f i = f j -> i = j).
  { intros i j. unfold f. destruct (map fst l1 !! i) eqn:Ei, (map fst l1 !! j) eqn:Ej; intros E; subst.
    - by apply (NoDup_lookup (map fst l1) i j n0).
    - apply list_elem_of_lookup_2, Hlt in Ei. lia.
    - apply list_elem_of_lookup_2, Hlt in Ej. lia.
    - lia. }
  assert (El : l1 = map (fun '(p, e) => (f p, e)) l2).
  { apply list_eq. intros i. rewrite list_lookup_fmap. pose proof (f_equal (fun x => x !! i) Hsnd) as E. cbn in E. rewrite !list_lookup_fmap in E.
    pose proof (f_equal (fun x => x !! i) Hseq) as E2. cbn in E2. rewrite list_lookup_fmap in E2.
    destruct (l1 !! i) as [[p1 e1]|] eqn:E1, (l2 !! i) as [[p2 e2]|] eqn:E3; cbn in *; try done. injection E as <-. symmetry in E2. change (List.seq 0 (length l2)) with (seq 0 (length l2)) in E2. apply lookup_seq in E2 as [-> _].
    cbn. unfold f. by rewrite list_lookup_fmap, E1. }
  rewrite El. by rewrite !(replayOf_renamed f Hf), (commonUsage_renamed f Hf).
Qed.

(** The carries a switch reads leave out those that applied nothing; a correction reads all. *)
Lemma shared_skips_empty edges a b : sharedCarriedUsage (filter (fun e => 0 < ed_applied e) edges) a b = sharedCarriedUsage edges a b.
Proof.
  unfold sharedCarriedUsage, replayCarries. change (fold_left replayCarry ?l emptyReplay) with (replayOf l).
  rewrite <- !(replayOf_filter (entries edges)). apply shared_names.
  - by apply nodup_map_filter, entries_nodup.
  - by rewrite entries_fst; unfold entries; rewrite length_combine, length_seq, Nat.min_id.
  - rewrite entries_snd. unfold entries. generalize 0%nat. induction edges as [|e es IH]; intros n; [done|]. cbn [length List.seq combine].
    rewrite !filter_cons. cbn [snd]. destruct (decide (0 < ed_applied e)); cbn; by rewrite IH.
Qed.

(** ** Capped portions *)

Lemma mapSet_same {K V} `{EqDecision K} (m : list (K * V)) k v : mapGet m k = Some v -> mapSet m k v = m.
Proof. induction m as [|[k1 v1] m IH]; [done|]. cbn. destruct (decide (k1 = k)) as [->|]; [by intros [= ->]|]. intros H. by rewrite IH. Qed.

Section Capping.
Context (caps : Portions).

(** What a holder of [q] of portion [p] is left with. *)
Definition capQty (p : nat) (q : Z) : Z := match mapGet caps p with Some c => Z.min q c | None => q end.

Definition capped (l : Portions) : Portions := flat_map (fun '(p, q) => if 0 <? capQty p q then [(p, capQty p q)] else []) l.

(** What a move still moves. *)
Definition keptOf (m : Move) : Z := capQty (mv_portion m) (mv_before m + mv_moved m) - capQty (mv_portion m) (mv_before m).

Context (Hcaps : forall p c, mapGet caps p = Some c -> 0 <= c).

Lemma capQty_mono p q q' : q <= q' -> capQty p q <= capQty p q' <= capQty p q + (q' - q).
Proof using. unfold capQty. destruct (mapGet caps p); lia. Qed.

Lemma capQty_le p q : 0 <= q -> 0 <= capQty p q <= q.
Proof using Hcaps. unfold capQty. destruct (mapGet caps p) as [c|] eqn:E; [specialize (Hcaps _ _ E)|]; lia. Qed.

Lemma capQty_zero p q q' : 0 < q -> capQty p q = 0 -> capQty p q' <= 0 \/ q' < 0.
Proof using. unfold capQty. destruct (mapGet caps p); lia. Qed.

Lemma capped_app l l' : capped (l ++ l') = capped l ++ capped l'.
Proof using. unfold capped. apply flat_map_app. Qed.

Lemma capped_keys l p : p ∈ map fst (capped l) -> p ∈ map fst l.
Proof using.
  induction l as [|[p1 q] l IH]; [done|]. change (capped ((p1, q) :: l)) with ((if 0 <? capQty p1 q then [(p1, capQty p1 q)] else []) ++ capped l).
  rewrite map_app, elem_of_app. cbn. intros [H|H]; [|constructor; auto]. destruct (0 <? capQty p1 q); cbn in H; [|by apply elem_of_nil in H].
  apply list_elem_of_singleton in H as ->. constructor.
Qed.

Lemma capped_ok l : holding_ok l -> holding_ok (capped l).
Proof using.
  induction l as [|[p q] l IH]; intros Hok; [apply holding_nil|]. destruct (holding_tail _ _ Hok) as (Hp & _ & Hl). destruct (IH Hl) as [I1 I2]. cbn in Hp.
  change (capped ((p, q) :: l)) with ((if 0 <? capQty p q then [(p, capQty p q)] else []) ++ capped l).
  destruct (Z.ltb_spec 0 (capQty p q)); [|by split]. split; cbn.
  - apply NoDup_cons. split; [by intros ?%capped_keys|done].
  - intros e [->|He]%elem_of_cons; [done|auto].
Qed.

Lemma qty_capped l p : holding_ok l -> qty (capped l) p = capQty p (qty l p).
Proof using Hcaps.
  assert (H0 : capQty p 0 = 0) by (pose proof (capQty_le p 0); lia).
  induction l as [|[p1 q] l IH]; intros Hok; [by cbn; rewrite H0|]. destruct (holding_tail _ _ Hok) as (Hp & Hq & Hl). cbn in Hp, Hq.
  change (capped ((p1, q) :: l)) with ((if 0 <? capQty p1 q then [(p1, capQty p1 q)] else []) ++ capped l).
  assert (Hqc : qty ((p1, q) :: l) p = if decide (p1 = p) then q else qty l p) by (unfold qty; cbn; by destruct (decide _)).
  rewrite Hqc. destruct (Z.ltb_spec 0 (capQty p1 q)) as [H|H].
  - assert (E : qty ([(p1, capQty p1 q)] ++ capped l) p = if decide (p1 = p) then capQty p1 q else qty (capped l) p) by (unfold qty; cbn; by destruct (decide _)).
    rewrite E. destruct (decide _) as [->|]; [done|auto].
  - cbn [app]. destruct (decide (p1 = p)) as [->|]; [|auto]. rewrite (IH Hl), (qty_absent l p Hp). pose proof (capQty_le p q). lia.
Qed.

Lemma capped_set l p v : holding_ok l -> 0 < v -> qty l p <= v ->
  capped (mapSet l p v) = if 0 <? capQty p v then mapSet (capped l) p (capQty p v) else capped l.
Proof using Hcaps.
  intros Hok Hv. induction l as [|[p1 q] l IH]; [cbn; by destruct (0 <? capQty p v)|].
  destruct (holding_tail _ _ Hok) as (Hp & Hq & Hl). cbn in Hp, Hq.
  assert (Hqc : qty ((p1, q) :: l) p = if decide (p1 = p) then q else qty l p) by (unfold qty; cbn; by destruct (decide _)).
  rewrite Hqc. cbn [mapSet]. change (capped ((p1, q) :: l)) with ((if 0 <? capQty p1 q then [(p1, capQty p1 q)] else []) ++ capped l).
  destruct (decide (p1 = p)) as [->|Hne]; intros Hqv.
  - change (capped ((p, v) :: l)) with ((if 0 <? capQty p v then [(p, capQty p v)] else []) ++ capped l).
    pose proof (capQty_mono p q v Hqv). pose proof (capQty_le p q ltac:(lia)). destruct (Z.ltb_spec 0 (capQty p v)), (Z.ltb_spec 0 (capQty p q)); cbn; try lia; [by rewrite decide_True| |done].
    destruct (capQty_zero p q v Hq ltac:(lia)); lia.
  - change (capped ((p1, q) :: mapSet l p v)) with ((if 0 <? capQty p1 q then [(p1, capQty p1 q)] else []) ++ capped (mapSet l p v)).
    rewrite (IH Hl Hqv). destruct (0 <? capQty p v), (0 <? capQty p1 q); cbn; try done. by rewrite decide_False.
Qed.

(** Setting a portion to what it is capped at already. *)
Lemma capped_set_same l p v : holding_ok l -> 0 < v -> qty l p <= v -> capQty p v = capQty p (qty l p) -> capped (mapSet l p v) = capped l.
Proof using Hcaps.
  intros Hok Hv Hle E. rewrite capped_set by done. destruct (Z.ltb_spec 0 (capQty p v)) as [H|]; [|done]. apply mapSet_same.
  rewrite E in *. rewrite <- (qty_capped l p Hok) in *. unfold qty in *. destruct (mapGet (capped l) p); cbn in *; [done|lia].
Qed.

Lemma copy_capped_step p q from to K : holding_ok to -> 0 < capQty p q ->
  copyPortions (capped ((p, q) :: from)) (capped to) K =
  let missing := capQty p q - capQty p (qty to p) in
  if missing <=? 0 then copyPortions (capped from) (capped to) K
  else let copied := if missing <? K then missing else K in
    let to' := mapSet (capped to) p (capQty p (qty to p) + copied) in
    let move := {| mv_portion := p; mv_before := capQty p (qty to p); mv_moved := copied |} in
    if K - copied =? 0 then (to', [move], 0)
    else let '(to'', moves, r) := copyPortions (capped from) to' (K - copied) in (to'', move :: moves, r).
Proof using Hcaps.
  intros Hok H. change (capped ((p, q) :: from)) with ((if 0 <? capQty p q then [(p, capQty p q)] else []) ++ capped from).
  rewrite (proj2 (Z.ltb_lt _ _) H). cbn [app copyPortions]. change (default 0 (mapGet (capped to) p)) with (qty (capped to) p). by rewrite qty_capped.
Qed.

(** Copying capped portions is capping what was copied. *)
Lemma copyPortions_capped from : forall to remaining r', holding_ok from -> holding_ok to -> 0 < remaining -> 0 <= r' ->
  let '(to', moves, r) := copyPortions from to remaining in (0 < r' -> 0 < r) ->
  0 <= sumZ (map keptOf moves) /\
  (sumZ (map keptOf moves) + r' = 0 -> capped to' = capped to) /\
  (0 < sumZ (map keptOf moves) + r' -> exists moves', copyPortions (capped from) (capped to) (sumZ (map keptOf moves) + r') = (capped to', moves', r')).
Proof using Hcaps.
  induction from as [|[p q] from IH]; intros to remaining r' Hf Ht Hr Hr'.
  { cbn. intros _. split_and!; [done|done|]. intros H. by eexists. }
  destruct (holding_tail _ _ Hf) as (Hp & Hq & Hf'). cbn in Hp, Hq. cbn [copyPortions]. change (default 0 (mapGet to p)) with (qty to p).
  pose proof (qty_nonneg to p Ht) as Hh. pose proof (capQty_le p q ltac:(lia)) as Hcq. pose proof (capQty_le p _ Hh) as Hch.
  assert (Hskip : capQty p q <= capQty p (qty to p) -> forall K, copyPortions (capped ((p, q) :: from)) (capped to) K = copyPortions (capped from) (capped to) K).
  { intros Hle K. destruct (decide (0 < capQty p q)) as [Hc|Hc].
    - rewrite copy_capped_step by done. cbn zeta. replace (capQty p q - capQty p (qty to p) <=? 0) with true by (symmetry; apply Z.leb_le; lia). done.
    - change (capped ((p, q) :: from)) with ((if 0 <? capQty p q then [(p, capQty p q)] else []) ++ capped from).
      replace (0 <? capQty p q) with false by (symmetry; by apply Z.ltb_ge, Z.nlt_ge). done. }
  destruct (Z.leb_spec (q - qty to p) 0) as [Hle|Hgt].
  { specialize (IH to remaining r' Hf' Ht Hr Hr'). destruct (copyPortions from to remaining) as [[to' moves] r]. intros Hrr. destruct (IH Hrr) as (I1 & I2 & I3).
    split_and!; [done|done|]. intros HK. rewrite Hskip; [by apply I3|]. by apply capQty_mono; lia. }
  set (copied := if q - qty to p <? remaining then q - qty to p else remaining).
  assert (Hc : 0 < copied /\ copied = Z.min (q - qty to p) remaining) by (subst copied; destruct (Z.ltb_spec (q - qty to p) remaining); lia).
  pose proof (capQty_mono p (qty to p) (qty to p + copied) ltac:(lia)) as Hm1. pose proof (capQty_mono p (qty to p + copied) q ltac:(lia)) as Hm2.
  assert (Hset : 0 < capQty p (qty to p + copied) -> capped (mapSet to p (qty to p + copied)) = mapSet (capped to) p (capQty p (qty to p + copied))).
  { intros H. rewrite capped_set by (done || lia). by rewrite (proj2 (Z.ltb_lt _ _) H). }
  destruct (Z.eqb_spec (remaining - copied) 0) as [Hz|Hnz].
  - intros Hrr. assert (r' = 0) as -> by lia. cbn [map sumZ]. unfold keptOf. cbn [mv_portion mv_before mv_moved]. split_and!; [lia| |].
    + intros HK. apply capped_set_same; [done|lia|lia|lia].
    + intros HK. rewrite copy_capped_step by (done || lia). cbn zeta. rewrite (proj2 (Z.leb_gt _ _)) by lia. rewrite (proj2 (Z.ltb_ge _ _)) by lia.
      rewrite Z.sub_diag. cbn [Z.eqb]. eexists. rewrite Hset by lia. do 3 f_equal. lia.
  - assert (Hcq' : qty to p + copied = q) by lia. rewrite Hcq' in *.
    assert (Ht1 : holding_ok (mapSet to p q)) by (apply holding_set; [done|lia]).
    specialize (IH (mapSet to p q) (remaining - copied) r' Hf' Ht1 ltac:(lia) Hr').
    destruct (copyPortions from (mapSet to p q) (remaining - copied)) as [[to' moves] r]. intros Hrr. destruct (IH Hrr) as (I1 & I2 & I3).
    assert (Hk : keptOf {| mv_portion := p; mv_before := qty to p; mv_moved := copied |} = capQty p q - capQty p (qty to p)) by (unfold keptOf; cbn; by rewrite Hcq').
    cbn [map sumZ]. rewrite Hk.
    destruct (decide (capQty p q = capQty p (qty to p))) as [Heq|Hneq].
    + rewrite (capped_set_same to p q) in I2, I3 by (done || lia). rewrite Heq, Z.sub_diag, Z.add_0_l. split_and!; [done|done|].
      intros HK. rewrite Hskip by lia. by apply I3.
    + rewrite Hset in I2, I3 by lia. split_and!; [lia|lia|]. intros HK. rewrite copy_capped_step by (done || lia). cbn zeta. rewrite (proj2 (Z.leb_gt _ _)) by lia.
      destruct (decide (sumZ (map keptOf moves) + r' = 0)) as [HK2|HK2].
      * rewrite (proj2 (Z.ltb_ge _ _)) by lia. rewrite Z.sub_diag. cbn [Z.eqb]. rewrite (I2 HK2). assert (r' = 0) as -> by lia. eexists. do 3 f_equal. lia.
      * rewrite (proj2 (Z.ltb_lt _ _)) by lia. rewrite (proj2 (Z.eqb_neq _ _)) by lia.
        replace (capQty p (qty to p) + (capQty p q - capQty p (qty to p))) with (capQty p q) by lia.
        replace (capQty p q - capQty p (qty to p) + sumZ (map keptOf moves) + r' - (capQty p q - capQty p (qty to p))) with (sumZ (map keptOf moves) + r') by lia.
        destruct (I3 ltac:(lia)) as [moves' ->]. by eexists.
Qed.
End Capping.

(** *** Replaying corrected carries *)

Definition reducedEdge (caps : Portions) (e : CarriedUsageEdge) (moves : list Move) : CarriedUsageEdge :=
  {| ed_from := ed_from e; ed_to := ed_to e; ed_applied := ed_applied e - Z.max 0 (returnedBy caps moves) |}.

Lemma returnedBy_app caps m1 m2 : returnedBy caps (m1 ++ m2) = returnedBy caps m1 + returnedBy caps m2.
Proof. unfold returnedBy. by rewrite map_app, sumZ_app. Qed.

Lemma returnedBy_kept caps moves : (forall m, m ∈ moves -> 0 < mv_moved m) ->
  0 <= returnedBy caps moves /\ returnedBy caps moves = sumZ (map mv_moved moves) - sumZ (map (keptOf caps) moves).
Proof.
  induction moves as [|m moves IH]; intros Hm; [done|]. destruct IH as [I1 I2]; [intros m' ?; apply Hm; by constructor|].
  pose proof (Hm m ltac:(constructor)). unfold returnedBy in *. cbn [map sumZ] in *. unfold keptOf at 1, capQty.
  destruct (mapGet caps (mv_portion m)) as [c|]; [|lia].
  destruct (Z.leb_spec (mv_before m + mv_moved m) c); [destruct (Z.ltb_spec 0 (mv_moved m))|destruct (Z.ltb_spec 0 (c - mv_before m))]; lia.
Qed.

Section Correcting.
Context (caps : Portions) (Hcaps : forall p c, mapGet caps p = Some c -> 0 <= c).

Definition same_capped (R R1 : CarryReplay) : Prop :=
  (forall a, heldBy R1 a = capped caps (heldBy R a)) /\ rp_sizes R1 = capped caps (rp_sizes R).

Lemma capped_introduce l p n : capped caps (introduce l p n) = introduce (capped caps l) p (if 0 <? n then capQty caps p n else 0).
Proof using.
  unfold introduce. destruct (0 <? n); [|done]. rewrite capped_app. cbn. destruct (0 <? capQty caps p n); [by rewrite app_nil_r|]. by rewrite !app_nil_r.
Qed.

Lemma replayCarry_capped R R1 p e : (forall a, holding_ok (heldBy R a)) -> (forall a, p ∉ map fst (heldBy R a)) -> p ∉ map fst (rp_sizes R) ->
  same_capped R R1 -> exists moves, rp_moves (replayCarry R (p, e)) = rp_moves R ++ [moves] /\
  0 <= returnedBy caps moves /\ returnedBy caps moves <= Z.max 0 (ed_applied e) /\
  same_capped (replayCarry R (p, e)) (replayCarry R1 (p, reducedEdge caps e moves)).
Proof using Hcaps.
  intros Hok Hp Hps [Hs Hsz]. destruct (Z.leb_spec (ed_applied e) 0) as [Hz|Hz].
  { destruct (replayCarry_skip R p e Hz) as (E1 & E2 & E3). exists []. split; [done|]. assert (Hr : returnedBy caps [] = 0) by done. rewrite Hr. split; [done|]. split; [lia|].
    destruct (replayCarry_skip R1 p (reducedEdge caps e [])) as (F1 & F2 & _); [unfold reducedEdge; rewrite Hr; cbn; lia|].
    split; [intros a; by rewrite F1, E1|by rewrite F2, E2]. }
  destruct (replayCarry_carried R p e Hok Hp Hps Hz) as (to' & moves & n & Hcopy & Hc). pose proof (cy_copied _ _ _ _ _ _ _ Hc) as Hco.
  set (r' := if 0 <? n then capQty caps p n else 0).
  assert (Hr' : 0 <= r') by (subst r'; destruct (Z.ltb_spec 0 n); [apply capQty_le; [done|lia]|done]).
  assert (Hr'n : 0 < r' -> 0 < n) by (subst r'; by destruct (Z.ltb_spec 0 n)).
  pose proof (copyPortions_capped caps Hcaps _ (heldBy R (ed_to e)) (ed_applied e) r' (Hok (ed_from e)) (Hok (ed_to e)) Hz Hr') as Hcap.
  rewrite Hcopy in Hcap. destruct (Hcap Hr'n) as (K1 & K2 & K3). clear Hcap.
  exists (moves ++ (if 0 <? n then [{| mv_portion := p; mv_before := 0; mv_moved := n |}] else [])). split; [apply (cy_moves _ _ _ _ _ _ _ Hc)|].
  destruct (returnedBy_kept caps moves) as [R1' R2]; [intros m Hm; by apply (co_moves _ _ _ _ _ _ Hco)|].
  assert (Hret : returnedBy caps (if 0 <? n then [{| mv_portion := p; mv_before := 0; mv_moved := n |}] else []) = n - r').
  { subst r'. destruct (Z.ltb_spec 0 n) as [H|H].
    - destruct (returnedBy_kept caps [{| mv_portion := p; mv_before := 0; mv_moved := n |}]) as [_ ->]; [by intros m ->%list_elem_of_singleton|].
      unfold keptOf. cbn [map sumZ mv_moved mv_portion mv_before]. rewrite Z.add_0_l. pose proof (capQty_le caps Hcaps p 0). lia.
    - pose proof (co_rest _ _ _ _ _ _ Hco). cbn. lia. }
  pose proof (co_rest _ _ _ _ _ _ Hco) as Hn. pose proof (co_sum _ _ _ _ _ _ Hco) as Hsum. rewrite returnedBy_app, Hret.
  assert (Hrn : r' <= n) by (subst r'; destruct (Z.ltb_spec 0 n); [by apply capQty_le|lia]).
  split; [lia|]. split; [lia|].
  assert (Happ : ed_applied (reducedEdge caps e (moves ++ (if 0 <? n then [{| mv_portion := p; mv_before := 0; mv_moved := n |}] else []))) =
    sumZ (map (keptOf caps) moves) + r') by (unfold reducedEdge; cbn [ed_applied]; rewrite returnedBy_app, Hret; lia).
  set (e1 := reducedEdge caps e _) in *. assert (Hef : ed_from e1 = ed_from e /\ ed_to e1 = ed_to e) by done. destruct Hef as [Hef Het]. clearbody e1.
  assert (Hin : forall l, capped caps (introduce l p n) = introduce (capped caps l) p r') by (intros l; apply capped_introduce). clearbody r'.
  unfold same_capped. destruct (decide (sumZ (map (keptOf caps) moves) + r' = 0)) as [HK|HK].
  - destruct (replayCarry_skip R1 p e1 ltac:(lia)) as (F1 & F2 & _). assert (r' = 0) as -> by lia.
    assert (Hi0 : forall l, introduce l p 0 = l) by done. setoid_rewrite Hi0 in Hin. split.
    + intros a. rewrite F1, Hs, (cy_held _ _ _ _ _ _ _ Hc a). destruct (decide _) as [<-|]; [by rewrite Hin, K2|]. destruct (decide _) as [<-|]; [by rewrite Hin|done].
    + by rewrite F2, (cy_sizes _ _ _ _ _ _ _ Hc), Hin.
  - destruct (K3 ltac:(lia)) as [moves' Hcopy']. set (Rn := replayCarry R (p, e)) in *. clearbody Rn. unfold replayCarry. rewrite (proj2 (Z.leb_gt _ _)) by lia. rewrite Hef, Het.
    fold (heldBy R1 (ed_from e)). fold (heldBy R1 (ed_to e)). rewrite !Hs, Happ, Hcopy'.
    assert (Hfr : forall l, p ∉ map fst l -> (if 0 <? r' then mapSet (capped caps l) p r' else capped caps l) = introduce (capped caps l) p r').
    { intros l Hl. unfold introduce. destruct (0 <? r'); [|done]. apply mapSet_fresh. by intros ?%capped_keys. }
    pose proof (Hfr _ (Hp (ed_from e))) as H1. pose proof (Hfr to' (cy_fresh _ _ _ _ _ _ _ Hc)) as H2. pose proof (Hfr _ Hps) as H3.
    rewrite Hsz. clear Hcopy' K3 Hfr Happ. revert H1 H2 H3. destruct (0 <? r'); intros H1 H2 H3; (split;
      [intros a; rewrite heldBy_both, H1, H2, (cy_held _ _ _ _ _ _ _ Hc a)|by cbn [rp_sizes]; rewrite (cy_sizes _ _ _ _ _ _ _ Hc), Hin]).
    all: destruct (decide (ed_to e = a)); [by rewrite Hin|destruct (decide (ed_from e = a)); [by rewrite Hin|apply Hs] ].
Qed.

Definition reducedEntries (l : list (nat * CarriedUsageEdge)) : list (nat * CarriedUsageEdge) :=
  zip_with (fun x moves => (x.1, reducedEdge caps x.2 moves)) l (rp_moves (replayOf l)).

Lemma replayOf_reduced l : NoDup (map fst l) -> edges_apart (map snd l) -> same_capped (replayOf l) (replayOf (reducedEntries l)).
Proof using Hcaps.
  induction l as [|[p e] l IH] using rev_ind; intros Hnd Hap; [done|].
  rewrite map_app in *. cbn [map snd fst] in *. apply NoDup_app in Hnd as (Hnd & Hd & _). assert (Hp : p ∉ map fst l) by (intros Hin; apply (Hd p Hin); constructor).
  assert (Hap' : edges_apart (map snd l)) by (intros x Hx; apply Hap; set_solver).
  pose proof (replayOf_ok l Hnd Hap') as Hok. specialize (IH Hnd Hap'). destruct (replay_absent _ _ p Hok Hp) as [Hps Hpa].
  unfold reducedEntries. rewrite replayOf_snoc.
  destruct (replayCarry_capped (replayOf l) (replayOf (reducedEntries l)) p e (ro_holdings _ _ Hok) Hpa Hps IH) as (moves & -> & _ & _ & Hs).
  rewrite zip_with_app by (by rewrite (ro_moves _ _ Hok)). cbn [zip_with fst snd]. by rewrite replayOf_snoc.
Qed.

Lemma reducedEntries_edges edges : edges_apart edges ->
  entries (reducedEdges caps (replayCarries edges) edges) = reducedEntries (entries edges).
Proof using.
  intros Hap. pose proof (ro_moves _ _ (replayCarries_ok edges Hap)) as Hl. unfold entries in Hl at 1. rewrite length_combine, length_seq, Nat.min_id in Hl.
  unfold reducedEntries, reducedEdges. change (replayOf (entries edges)) with (replayCarries edges). revert Hl. generalize (rp_moves (replayCarries edges)) as ms.
  unfold entries. clear. generalize 0%nat as s. intros s ms. assert (G : forall es s ms, length ms = length es ->
    combine (List.seq s (length (zip_with (reducedEdge caps) es ms))) (zip_with (reducedEdge caps) es ms) =
    zip_with (fun x moves => (x.1, reducedEdge caps x.2 moves)) (combine (List.seq s (length es)) es) ms); [|intros; by apply G].
  clear. induction es as [|e es IH]; intros s [|m ms]; cbn; try done. intros [= H]. by rewrite IH.
Qed.

(** The carries after a correction replay to the capped holdings. *)
Lemma replay_reducedEdges edges : edges_apart edges -> same_capped (replayCarries edges) (replayCarries (reducedEdges caps (replayCarries edges) edges)).
Proof using Hcaps.
  intros Hap. unfold replayCarries at 2. fold (replayOf (entries (reducedEdges caps (replayCarries edges) edges))). rewrite reducedEntries_edges by done.
  apply replayOf_reduced; [apply entries_nodup|by rewrite entries_snd].
Qed.
End Correcting.

(** *** Totals of capped holdings *)

Lemma excessOver_cons caps p q l : NoDup (map fst caps) -> (forall p c, mapGet caps p = Some c -> 0 <= c) -> 0 < q -> p ∉ map fst l ->
  excessOver caps ((p, q) :: l) = excessOver caps l + (q - capQty caps p q).
Proof.
  unfold excessOver, capQty. intros Hnd Hcaps Hq Hp. pose proof (qty_absent l p Hp) as H0. unfold qty in H0.
  induction caps as [|[p1 c] caps IH]; [cbn; lia|]. cbn [map fst] in Hnd. apply NoDup_cons in Hnd as [Hn Hnd].
  assert (Hcaps' : forall p c, mapGet caps p = Some c -> 0 <= c).
  { intros p' c' H. apply (Hcaps p'). cbn. destruct (decide (p1 = p')) as [->|]; [|done]. apply elem_mapGet in H. exfalso. apply Hn. by apply (list_elem_of_fmap_2 fst _ (p', c')). }
  specialize (IH Hnd Hcaps'). pose proof (Hcaps p1 c) as Hc. cbn in Hc. rewrite decide_True in Hc by done. specialize (Hc eq_refl).
  cbn [map sumZ]. cbn [mapGet] in *. destruct (decide (p = p1)) as [->|Hne].
  - rewrite decide_True by done. apply mapGet_None in Hn. rewrite Hn in IH. rewrite H0. cbn [default from_option id].
    destruct (Z.ltb_spec c q), (Z.ltb_spec c 0); lia.
  - rewrite (decide_False (P := p1 = p)) by congruence. destruct (mapGet l p1); lia.
Qed.

Lemma sumZ_zeros l : (forall x, x ∈ l -> x = 0) -> sumZ l = 0.
Proof. induction l as [|x l IH]; [done|]. cbn. intros H. rewrite (H x) by constructor. apply IH. intros y ?. apply H. by constructor. Qed.

(** Capping takes the excess over the caps from a holding. *)
Lemma total_capped caps l : NoDup (map fst caps) -> (forall p c, mapGet caps p = Some c -> 0 <= c) -> holding_ok l ->
  total (capped caps l) = total l - excessOver caps l.
Proof.
  intros Hnd Hcaps. induction l as [|[p q] l IH]; intros Hok.
  - cbn. assert (E : excessOver caps [] = 0); [|lia]. unfold excessOver. apply sumZ_zeros. intros x (e & -> & He)%list_elem_of_fmap.
    destruct e as [p c]. cbn. rewrite (proj2 (Z.ltb_ge _ _)); [done|]. apply (Hcaps p). by apply mapGet_elem.
  - destruct (holding_tail _ _ Hok) as (Hp & Hq & Hl). cbn in Hp, Hq. rewrite excessOver_cons by done.
    change (capped caps ((p, q) :: l)) with ((if 0 <? capQty caps p q then [(p, capQty caps p q)] else []) ++ capped caps l).
    pose proof (capQty_le caps Hcaps p q ltac:(lia)). unfold total in *. rewrite map_app, sumZ_app, (IH Hl). cbn [map snd sumZ].
    destruct (Z.ltb_spec 0 (capQty caps p q)); cbn; lia.
Qed.

Lemma excessOver_nonneg caps l : 0 <= excessOver caps l.
Proof. apply sumZ_nonneg, Forall_forall. intros x ([p c] & -> & _)%list_elem_of_fmap. cbv zeta. destruct (Z.ltb_spec c (default 0 (mapGet l p))); lia. Qed.

Lemma capPortions_keys sizes portions r p : p ∈ map fst (capPortions sizes portions r) -> p ∈ portions.
Proof.
  revert r. induction portions as [|p1 ps IH]; intros r; cbn; [done|]. destruct (r =? 0); [by intros ?%elem_of_nil|]. cbn.
  intros [->|H]%elem_of_cons; [constructor|]. constructor. by eapply IH.
Qed.

Lemma capPortions_nodup sizes portions r : NoDup portions -> NoDup (map fst (capPortions sizes portions r)).
Proof.
  revert r. induction portions as [|p ps IH]; intros r; cbn; [done|]. intros [Hp Hnd]%NoDup_cons. destruct (r =? 0); [constructor|]. cbn. apply NoDup_cons.
  split; [by intros ?%capPortions_keys|auto].
Qed.

(** The caps lie within the portions, and together they are [quantity] less, or nothing is left. *)
Lemma capPortions_spec sizes portions r : holding_ok sizes -> 0 <= r -> NoDup portions ->
  (forall p c, mapGet (capPortions sizes portions r) p = Some c -> p ∈ portions /\ 0 <= c <= qty sizes p) /\
  excessOver (capPortions sizes portions r) sizes = Z.min r (sumZ (map (qty sizes) portions)).
Proof.
  intros Hok. revert r. induction portions as [|p ps IH]; intros r Hr Hnd; [split; [done|cbn; lia]|]. apply NoDup_cons in Hnd as [Hp Hnd].
  cbn [capPortions]. pose proof (qty_nonneg sizes p Hok) as Hq. assert (Hps : 0 <= sumZ (map (qty sizes) ps)).
  { apply sumZ_nonneg, Forall_forall. intros x (p' & -> & _)%list_elem_of_fmap. by apply qty_nonneg. }
  destruct (Z.eqb_spec r 0) as [->|Hr0]; [split; [done|cbn; lia]|]. change (default 0 (mapGet sizes p)) with (qty sizes p).
  assert (Ht : (if r <? qty sizes p then r else qty sizes p) = Z.min r (qty sizes p)) by (destruct (Z.ltb_spec r (qty sizes p)); lia).
  rewrite Ht. destruct (IH (r - Z.min r (qty sizes p)) ltac:(lia) Hnd) as [I1 I2]. split.
  - intros p' c. cbn. destruct (decide (p = p')) as [<-|]; [intros [= <-]; split; [constructor|lia]|]. intros [? ?]%I1. split; [by constructor|done].
  - unfold excessOver in *. cbn [map sumZ]. rewrite I2. change (default 0 (mapGet sizes p)) with (qty sizes p).
    destruct (Z.ltb_spec (qty sizes p - Z.min r (qty sizes p)) (qty sizes p)); lia.
Qed.

Lemma returned_within caps edges : (forall p c, mapGet caps p = Some c -> 0 <= c) -> edges_apart edges -> forall i e moves, edges !! i = Some e ->
  rp_moves (replayCarries edges) !! i = Some moves -> 0 <= returnedBy caps moves <= Z.max 0 (ed_applied e).
Proof.
  intros Hcaps Hap. assert (G : forall l, NoDup (map fst l) -> edges_apart (map snd l) -> forall i p e moves, l !! i = Some (p, e) ->
    rp_moves (replayOf l) !! i = Some moves -> 0 <= returnedBy caps moves <= Z.max 0 (ed_applied e)).
  { induction l as [|[p e] l IH] using rev_ind; intros Hnd Hap'; [done|]. rewrite map_app in *. cbn [map snd fst] in *. apply NoDup_app in Hnd as (Hnd & Hd & _).
    assert (Hp : p ∉ map fst l) by (intros Hin; apply (Hd p Hin); constructor). assert (Hap2 : edges_apart (map snd l)) by (intros x Hx; apply Hap'; set_solver).
    pose proof (replayOf_ok l Hnd Hap2) as Hok. destruct (replay_absent _ _ p Hok Hp) as [Hps Hpa]. rewrite replayOf_snoc.
    destruct (replayCarry_capped caps Hcaps (replayOf l) (replayOf (reducedEntries caps l)) p e (ro_holdings _ _ Hok) Hpa Hps) as (mv & -> & H1 & H2 & _);
      [by apply replayOf_reduced|]. intros i p' e' moves. rewrite !lookup_app_Some, (ro_moves _ _ Hok).
    intros [Hi|[Hl Hi] ] [Hm|[Hl' Hm] ].
    - by apply (IH Hnd Hap2 i p' e').
    - apply lookup_lt_Some in Hi. lia.
    - apply lookup_lt_Some in Hm. rewrite (ro_moves _ _ Hok) in Hm. lia.
    - destruct (i - length l)%nat; [|done]. cbn in Hi, Hm. injection Hi as -> ->. injection Hm as ->. done. }
  intros i e moves He Hm. pose proof (f_equal (fun l => l !! i) (entries_snd edges)) as E. cbn in E. rewrite list_lookup_fmap, He in E.
  destruct (entries edges !! i) as [[p' e']|] eqn:E'; [|done]. cbn in E. injection E as ->.
  apply (G (entries edges) (entries_nodup edges) ltac:(by rewrite entries_snd) i p' e moves E' Hm).
Qed.

(** A correction of [quantity] of the usage of these portions. *)
Definition correctedCaps (edges : list CarriedUsageEdge) (portions : list nat) (quantity : Z) : Portions :=
  capPortions (rp_sizes (replayCarries edges)) portions quantity.
Definition correctedEdges (edges : list CarriedUsageEdge) (portions : list nat) (quantity : Z) : list CarriedUsageEdge :=
  reducedEdges (correctedCaps edges portions quantity) (replayCarries edges) edges.

Lemma correctedCaps_ok edges portions quantity : edges_apart edges -> NoDup portions -> 0 <= quantity ->
  NoDup (map fst (correctedCaps edges portions quantity)) /\ forall p c, mapGet (correctedCaps edges portions quantity) p = Some c -> 0 <= c.
Proof.
  intros Hap Hnd Hq. split; [by apply capPortions_nodup|]. intros p c H.
  apply (proj1 (capPortions_spec _ portions quantity (ro_sizes _ _ (replayCarries_ok edges Hap)) Hq Hnd)) in H. lia.
Qed.

Lemma reducedEdges_apart caps edges : edges_apart edges -> edges_apart (reducedEdges caps (replayCarries edges) edges).
Proof.
  intros Hap e He. apply list_elem_of_lookup in He as [i He]. unfold reducedEdges in He. rewrite lookup_zip_with in He.
  destruct (edges !! i) as [e0|] eqn:E; [|done]. cbn in He. destruct (rp_moves _ !! i); [|done]. cbn in He. injection He as <-. cbn. apply Hap. by apply list_elem_of_lookup_2 in E.
Qed.

(** C35: a correction shrinks portions of carried usage consistently.  The carries as it leaves them
    replay to what the allowances held before, each portion cut to what the correction left of it;
    each allowance's holding falls by exactly the quantity the correction takes off its
    consumption, the distinct usage falls by the corrected quantity or all the portions held, and no
    carry gives back more than it applied. *)
Theorem corrected_carries_replay edges portions quantity (Hap : edges_apart edges) (Hnd : NoDup portions) (Hq : 0 <= quantity) :
  (forall a p, qty (heldBy (replayCarries (correctedEdges edges portions quantity)) a) p =
     capQty (correctedCaps edges portions quantity) p (qty (heldBy (replayCarries edges) a) p)) /\
  (forall a, total (heldBy (replayCarries (correctedEdges edges portions quantity)) a) =
     total (heldBy (replayCarries edges) a) - excessOver (correctedCaps edges portions quantity) (heldBy (replayCarries edges) a)) /\
  total (rp_sizes (replayCarries (correctedEdges edges portions quantity))) =
     total (rp_sizes (replayCarries edges)) - Z.min quantity (sumZ (map (qty (rp_sizes (replayCarries edges))) portions)) /\
  (forall i e, edges !! i = Some e -> exists applied, correctedEdges edges portions quantity !! i =
     Some {| ed_from := ed_from e; ed_to := ed_to e; ed_applied := applied |} /\ applied <= ed_applied e /\ (0 <= ed_applied e -> 0 <= applied)).
Proof.
  destruct (correctedCaps_ok edges portions quantity Hap Hnd Hq) as [Hcn Hc]. pose proof (replayCarries_ok edges Hap) as Hok.
  destruct (replay_reducedEdges _ Hc edges Hap) as [Hs Hz]. unfold correctedEdges. split_and!.
  - intros a p. rewrite Hs. apply qty_capped; [done|apply (ro_holdings _ _ Hok)].
  - intros a. rewrite Hs. apply total_capped; [done|done|apply (ro_holdings _ _ Hok)].
  - rewrite Hz, total_capped by (done || apply (ro_sizes _ _ Hok)). f_equal.
    by apply (proj2 (capPortions_spec _ portions quantity (ro_sizes _ _ Hok) Hq Hnd)).
  - intros i e He. unfold reducedEdges. rewrite lookup_zip_with, He. cbn.
    destruct (lookup_lt_is_Some_2 (rp_moves (replayCarries edges)) i) as [moves Hm].
    { rewrite (ro_moves _ _ Hok). unfold entries. rewrite length_combine, length_seq, Nat.min_id. by apply lookup_lt_Some in He. }
    rewrite Hm. cbn. eexists. split; [done|]. pose proof (returned_within _ edges Hc Hap i e moves He Hm). lia.
Qed.

(** The second carry copies what the first introduced and introduces ten more; correcting
    twenty-five takes the first portion from both holders and five of the second. *)
Definition chained : list CarriedUsageEdge :=
  [{| ed_from := 1; ed_to := 2; ed_applied := 20 |}; {| ed_from := 1; ed_to := 3; ed_applied := 30 |}].

Lemma corrected_carries_replay_witness : edges_apart chained /\ correctedEdges chained [0%nat; 1%nat] 25 =
    [{| ed_from := 1; ed_to := 2; ed_applied := 0 |}; {| ed_from := 1; ed_to := 3; ed_applied := 5 |}] /\
  total (heldBy (replayCarries (correctedEdges chained [0%nat; 1%nat] 25)) 3) = 30 - 25.
Proof.
  assert (Hap : edges_apart chained) by (intros e He; repeat (apply elem_of_cons in He as [->|He]; [done|]); by apply elem_of_nil in He).
  assert (Hnd : NoDup [0%nat; 1%nat]) by (by apply (bool_decide_unpack _)). split; [exact Hap|]. split; [by vm_compute|].
  refine (eq_trans (proj1 (proj2 (corrected_carries_replay chained [0%nat; 1%nat] 25 Hap Hnd ltac:(lia))) 3) _). by vm_compute.
Defined.
