(* ===== verification/CarryOver.v ===== *)
(** * Plan changes' carry-over ([db/repository/carry-over.ts], [catalog-allocations.ts], [metering.ts])

    An immediate plan change ends the allowances the outgoing version granted.  What it names is
    carried: a feature's unused balance becomes an allocation of its own, and a feature's usage is
    written onto the incoming version's allowance.  A return to a version reopens its allowances
    and takes the carried balances back; a correction of usage follows the copies that changes
    made of it ([CarryReplay]).  The state is one subscription's allocations and recorded carries;
    the catalog's items are an argument, and the grants of the incoming version are already made
    when its switch begins here.  Quantities are units of the column's scale, instants
    milliseconds. *)
From S2P Require Import Prelude JsDate Cadence Windows PlanGrants CarryReplay.

(** ** Tables *)

Inductive SourceKind := source_subscription | source_carry_over | source_other.
#[export] Instance SourceKind_eq_dec : EqDecision SourceKind. Proof. solve_decision. Defined.

(** A row of [plan_items]; [ci_allocation]: [item_kind = 'allocation']. *)
Record CatalogItem := { ci_item : PlanItem; ci_allocation : bool }.

(** The source keys [carry_over:<change>:<origin>], [subscription:<id>:<item>:lifetime] and
    [subscription:<id>:<item>:<start>:<end or open>]; ids and instants name their parts. *)
Inductive AllocationKey := carry_key (change origin : Z) | lifetime_key (item : Z) | period_key (item start : Z) (endAt : option Z).
#[export] Instance AllocationKey_eq_dec : EqDecision AllocationKey. Proof. solve_decision. Defined.

(** A row of [balance_allocations]. *)
Record Allocation := {
  al_id : Z; al_feature : Z; al_entity : option Z; al_item : option Z; al_source : SourceKind; al_key : option AllocationKey;
  al_quantity : Z; al_reversed : Z; al_consumed : Z; al_held : Z;
  al_start : option Z; al_end : option Z; al_expires : option Z; al_reversed_at : option Z; al_rollover : option Z;
  al_origin : option Z }.

(** A row of [carried_usages], with its change's [created_at]. *)
Record CarriedUsage := {
  cu_change_at : Z; cu_change : Z; cu_from : Z; cu_to : Z; cu_requested : Z; cu_applied : Z; cu_at : Z }.

Record Ledger := { lg_rows : list Allocation; lg_carried : list CarriedUsage; lg_nextId : Z }.

Definition with_rows (s : Ledger) (rows : list Allocation) : Ledger :=
  {| lg_rows := rows; lg_carried := lg_carried s; lg_nextId := lg_nextId s |}.

Definition with_quantities (r : Allocation) (quantity reversed consumed : Z) : Allocation :=
  {| al_id := al_id r; al_feature := al_feature r; al_entity := al_entity r; al_item := al_item r; al_source := al_source r;
     al_key := al_key r; al_quantity := quantity; al_reversed := reversed; al_consumed := consumed; al_held := al_held r;
     al_start := al_start r; al_end := al_end r; al_expires := al_expires r; al_reversed_at := al_reversed_at r;
     al_rollover := al_rollover r; al_origin := al_origin r |}.
Definition with_expiry (r : Allocation) (expires rollover : option Z) : Allocation :=
  {| al_id := al_id r; al_feature := al_feature r; al_entity := al_entity r; al_item := al_item r; al_source := al_source r;
     al_key := al_key r; al_quantity := al_quantity r; al_reversed := al_reversed r; al_consumed := al_consumed r; al_held := al_held r;
     al_start := al_start r; al_end := al_end r; al_expires := expires; al_reversed_at := al_reversed_at r;
     al_rollover := rollover; al_origin := al_origin r |}.

(** [UPDATE ... WHERE id = id] *)
Definition updateRow (id : Z) (f : Allocation -> Allocation) (rows : list Allocation) : list Allocation :=
  map (fun r => if al_id r =? id then f r else r) rows.
Definition consume (units : Z) (r : Allocation) : Allocation := with_quantities r (al_quantity r) (al_reversed r) (al_consumed r + units).
Definition grow (units : Z) (r : Allocation) : Allocation := with_quantities r (al_quantity r + units) (al_reversed r) (al_consumed r).

Definition rowOf (rows : list Allocation) (id : Z) : option Allocation := List.find (fun r => al_id r =? id) rows.
Definition byId (a b : Allocation) : bool := al_id a <? al_id b.

(** [expires_at IS NULL OR expires_at > now()] *)
Definition open (now : Z) (r : Allocation) : bool := match al_expires r with None => true | Some e => now <? e end.
(** [reversed_at IS NULL] and open. *)
Definition funded (now : Z) (r : Allocation) : bool := bool_decide (al_reversed_at r = None) && open now r.
(** The allocation's window covers the instant. *)
Definition covers (now : Z) (r : Allocation) : bool :=
  match al_start r with None => true | Some t => t <=? now end && match al_end r with None => true | Some t => now <? t end.

(** The plan item of an allocation, when it is of this version. *)
Definition versionItem (items : list CatalogItem) (version : Z) (r : Allocation) : option PlanItem :=
  id ← al_item r;
  c ← List.find (fun c => it_id (ci_item c) =? id) items;
  if it_version (ci_item c) =? version then Some (ci_item c) else None.
Definition ofVersion (items : list CatalogItem) (version : Z) (r : Allocation) : bool := bool_decide (is_Some (versionItem items version r)).

(** A version has one item per feature. *)
Definition allocationItem (items : list CatalogItem) (version feature : Z) : option PlanItem :=
  ci_item <$> List.find (fun c => ci_allocation c && (it_version (ci_item c) =? version) && (it_feature (ci_item c) =? feature)) items.

(** [lifetimeItemSql], [expiresSql] *)
Definition expires (it : PlanItem) : bool := bool_decide (it_expires_after it <> None) || bool_decide (it_expiry it <> None).
Definition lifetimeItem (it : PlanItem) : bool := bool_decide (it_reset it = None) && negb (expires it).

(** ** Carrying *)

(** [CarryOverInput]; the features the keys of [balances] and [usages] name. *)
Record CarryOverInput := {
  in_change : Z; in_change_at : Z; in_outgoing : Z; in_incoming : Z;
  in_balances : list Z; in_usages : list Z; in_period_start : Z; in_period_end : option Z }.

Definition unused (r : Allocation) : Z := al_quantity r - al_reversed r - al_consumed r - al_held r.

(** [carriedExpiry] *)
Definition carriedExpiry (input : CarryOverInput) (lifetime : bool) (incoming : option PlanItem) (now : Z) : result (option Z) :=
  match in_period_end input with
  | None => Ok None
  | Some periodEnd =>
      if lifetime then Ok None
      else match (it ← incoming; u ← it_reset it; Some (u, it_reset_count it)) with
      | None => Ok (Some periodEnd)
      | Some (u, count) =>
          '(_, endAt) ← planGrantWindowBounds (Some (in_period_start input)) (Some (Some periodEnd)) (storedCadence u (Some count)) now;
          t ← toISOString endAt; Ok (Some t)
      end
  end.

Definition balanceOrigin (items : list CatalogItem) (input : CarryOverInput) (now : Z) (r : Allocation) : bool :=
  ofVersion items (in_outgoing input) r && bool_decide (al_source r = source_subscription) && funded now r &&
  existsb (Z.eqb (al_feature r)) (in_balances input).

Definition carryKeyTaken (rows : list Allocation) (feature change origin : Z) : bool :=
  existsb (fun r => (al_feature r =? feature) && bool_decide (al_source r = source_carry_over) && bool_decide (al_key r = Some (carry_key change origin))) rows.

(** [idx_billing_balance_allocations_carry_over_origin]: an allowance has one carry, live or ended. *)
Definition carriedAlready (rows : list Allocation) (origin : Z) : bool := existsb (fun r => bool_decide (al_origin r = Some origin)) rows.

Definition carriedTwice : error :=
  InternalError "duplicate key value violates unique constraint idx_billing_balance_allocations_carry_over_origin".

(** The loop's body over the origins the query read. *)
Definition carryBalance (items : list CatalogItem) (input : CarryOverInput) (now : Z) (s : Ledger) (origin : Allocation) : result Ledger :=
  if unused origin <=? 0 then Ok s
  else
    let lifetime := match versionItem items (in_outgoing input) origin with Some it => lifetimeItem it | None => false end in
    expiresAt ← carriedExpiry input lifetime (allocationItem items (in_incoming input) (al_feature origin)) now;
    let carry := {| al_id := lg_nextId s; al_feature := al_feature origin; al_entity := al_entity origin; al_item := None;
      al_source := source_carry_over; al_key := Some (carry_key (in_change input) (al_id origin)); al_quantity := unused origin; al_reversed := 0;
      al_consumed := 0; al_held := 0; al_start := Some now; al_end := expiresAt; al_expires := expiresAt; al_reversed_at := None;
      al_rollover := None; al_origin := Some (al_id origin) |} in
    if carryKeyTaken (lg_rows s) (al_feature origin) (in_change input) (al_id origin)
    then Ok {| lg_rows := lg_rows s; lg_carried := lg_carried s; lg_nextId := lg_nextId s + 1 |}
    else if carriedAlready (lg_rows s) (al_id origin) then Err carriedTwice
    else Ok {| lg_rows := lg_rows s ++ [carry]; lg_carried := lg_carried s; lg_nextId := lg_nextId s + 1 |}.

Definition carryOverBalances (items : list CatalogItem) (input : CarryOverInput) (now : Z) (s : Ledger) : result Ledger :=
  foldM (carryBalance items input now) (sortBy byId (List.filter (balanceOrigin items input now) (lg_rows s))) s.

(** [ORDER BY change.created_at, change.id, carried.from_allocation_id] *)
Definition carriedBefore (a b : CarriedUsage) : bool :=
  (cu_change_at a <? cu_change_at b) || ((cu_change_at a =? cu_change_at b) &&
  ((cu_change a <? cu_change b) || ((cu_change a =? cu_change b) && (cu_from a <? cu_from b)))).

Definition edgeOf (c : CarriedUsage) : CarriedUsageEdge := {| ed_from := cu_from c; ed_to := cu_to c; ed_applied := cu_applied c |}.

(** [carriedUsageEdges] *)
Definition carriedUsageEdges (s : Ledger) : list CarriedUsageEdge :=
  map edgeOf (sortBy carriedBefore (List.filter (fun c => 0 <? cu_applied c) (lg_carried s))).

Definition usageOrigin (items : list CatalogItem) (input : CarryOverInput) (now : Z) (r : Allocation) : bool :=
  ofVersion items (in_outgoing input) r && bool_decide (al_source r = source_subscription) && funded now r && covers now r &&
  (0 <? al_consumed r) && existsb (Z.eqb (al_feature r)) (in_usages input).

(** The incoming allowance usage is written onto. *)
Definition usageTarget (items : list CatalogItem) (input : CarryOverInput) (now : Z) (rows : list Allocation) (origin : Allocation)
  : option Allocation :=
  head (sortBy byId (List.filter (fun r => ofVersion items (in_incoming input) r && bool_decide (al_source r = source_subscription) &&
    (al_feature r =? al_feature origin) && bool_decide (al_entity r = al_entity origin) && funded now r && covers now r) rows)).

Definition room (r : Allocation) : Z := Z.max (unused r) 0.

(** The key [(project, change, from)] of a carry is taken. *)
Definition carriedTaken (s : Ledger) (change from : Z) : bool :=
  existsb (fun c => (cu_change c =? change) && (cu_from c =? from)) (lg_carried s).

Definition carryUsage (items : list CatalogItem) (input : CarryOverInput) (now : Z) (st : Ledger * list CarriedUsageEdge) (origin : Allocation)
  : Ledger * list CarriedUsageEdge :=
  let '(s, edges) := st in
  match usageTarget items input now (lg_rows s) origin with
  | None => st
  | Some target =>
      let shared := sharedCarriedUsage edges (al_id origin) (al_id target) in
      let requested := if shared <? al_consumed origin then al_consumed origin - shared else 0 in
      if requested =? 0 then st
      else
        let applied := if requested <? room target then requested else room target in
        let rows := if 0 <? applied then updateRow (al_id target) (consume applied) (lg_rows s) else lg_rows s in
        let carried := {| cu_change_at := in_change_at input; cu_change := in_change input; cu_from := al_id origin; cu_to := al_id target;
          cu_requested := requested; cu_applied := applied; cu_at := now |} in
        ({| lg_rows := rows; lg_carried := lg_carried s ++ (if carriedTaken s (in_change input) (al_id origin) then [] else [carried]);
            lg_nextId := lg_nextId s |}, edges ++ [edgeOf carried])
  end.

Definition carryOverUsage (items : list CatalogItem) (input : CarryOverInput) (now : Z) (s : Ledger) : Ledger :=
  (fold_left (carryUsage items input now) (sortBy byId (List.filter (usageOrigin items input now) (lg_rows s))) (s, carriedUsageEdges s)).1.

Definition carryOverAllowances (items : list CatalogItem) (input : CarryOverInput) (now : Z) (s : Ledger) : result Ledger :=
  s ← (if bool_decide (in_balances input = []) then Ok s else carryOverBalances items input now s);
  Ok (if bool_decide (in_usages input = []) then s else carryOverUsage items input now s).

(** [usageHeldByIncomingAllowances]: what a preview says the change would not carry, by feature. *)
Definition usageHeldByIncomingAllowances (items : list CatalogItem) (outgoing incoming now : Z) (s : Ledger) : list (Z * Z) :=
  let rows := sortBy byId (List.filter (fun r => bool_decide (al_source r = source_subscription) && bool_decide (al_reversed_at r = None) &&
    (ofVersion items outgoing r || ofVersion items incoming r) && covers now r && (ofVersion items incoming r || open now r)) (lg_rows s)) in
  let edges := carriedUsageEdges s in
  fold_left (fun held origin =>
    if ofVersion items incoming origin then held
    else match List.find (fun r => ofVersion items incoming r && (al_feature r =? al_feature origin) && bool_decide (al_entity r = al_entity origin)) rows with
    | None => held
    | Some target =>
        let shared := sharedCarriedUsage edges (al_id origin) (al_id target) in
        mapSet held (al_feature origin) (default 0 (mapGet held (al_feature origin)) +
          (if shared <? al_consumed origin then shared else al_consumed origin))
    end) rows [].

(** ** Corrections *)

(** [reduceCopy]: what it took, or nothing when the allowance takes nothing back. *)
Definition reduceCopy (clock id units : Z) (s : Ledger) : option Z * Ledger :=
  match rowOf (lg_rows s) id with
  | None => (None, s)
  | Some r =>
      if bool_decide (al_reversed_at r <> None) then (None, s)
      else if negb (open clock r) && bool_decide (al_rollover r = None) then (None, s)
      else
        let reduced := if units <? al_consumed r then units else al_consumed r in
        (Some reduced, if 0 <? reduced then with_rows s (updateRow id (consume (- reduced)) (lg_rows s)) else s)
  end.

(** The portions that hold the event's usage: what carries out of its allowance introduced after it. *)
Definition portionsAfter (rows : list CarriedUsage) (replay : CarryReplay) (allocation eventAt : Z) : list nat :=
  map fst (List.filter (fun '(i, c) => (eventAt <? cu_at c) && (cu_from c =? allocation) && (0 <? qty (rp_sizes replay) i)) (entries rows)).

Definition reduceHolder (clock allocation : Z) (caps : Portions) (s : Ledger) (holder : Z * Portions) : Ledger :=
  let '(id, held) := holder in
  if id =? allocation then s
  else if 0 <? excessOver caps held then (reduceCopy clock id (excessOver caps held) s).2 else s.

(** A carry gives back what the correction took from what it moved. *)
Definition giveBack (caps : Portions) (carried : list CarriedUsage) (x : CarriedUsage * list Move) : list CarriedUsage :=
  let '(row, moves) := x in
  if returnedBy caps moves <=? 0 then carried
  else map (fun c => if (cu_change c =? cu_change row) && (cu_from c =? cu_from row)
    then {| cu_change_at := cu_change_at c; cu_change := cu_change c; cu_from := cu_from c; cu_to := cu_to c; cu_requested := cu_requested c;
            cu_applied := cu_applied c - returnedBy caps moves; cu_at := cu_at c |} else c) carried.

(** [followCarriedUsage] *)
Definition followCarriedUsage (clock allocation eventAt quantity : Z) (closedSource : bool) (s : Ledger) : bool * Ledger :=
  let rows := sortBy carriedBefore (lg_carried s) in
  let replay := replayCarries (map edgeOf rows) in
  let portions := portionsAfter rows replay allocation eventAt in
  if bool_decide (portions = []) then (false, s)
  else
    let '(reduced, s1) := if closedSource then reduceCopy clock allocation quantity s else (Some 0, s) in
    if bool_decide (reduced = None) then (true, s1)
    else
      let caps := capPortions (rp_sizes replay) portions quantity in
      let s2 := fold_left (reduceHolder clock allocation caps) (rp_holdings replay) s1 in
      (true, {| lg_rows := lg_rows s2; lg_carried := fold_left (giveBack caps) (combine rows (rp_moves replay)) (lg_carried s2);
                lg_nextId := lg_nextId s2 |}).

(** [restoreCarriedBalance] *)
Definition restoreCarriedBalance (clock allocation quantity : Z) (s : Ledger) : Ledger :=
  match last (sortBy byId (List.filter (fun r => bool_decide (al_source r = source_carry_over) && bool_decide (al_origin r = Some allocation) &&
    funded clock r) (lg_rows s))) with
  | None => s
  | Some carry =>
      match reduceCopy clock allocation quantity s with
      | (Some returned, s1) => if returned =? 0 then s1 else with_rows s1 (updateRow (al_id carry) (grow returned) (lg_rows s1))
      | (None, s1) => s1
      end
  end.

(** The correction of one deduction of an event ([metering.ts]), for an allocation of the subscription:
    it is no operator grant and no default plan's allowance.  [KeptLevels] models what follows for
    a non-consumable level. *)
Definition correctDeduction (clock allocation eventAt quantity : Z) (s : Ledger) : result Ledger :=
  let eligible := match rowOf (lg_rows s) allocation with Some r => funded clock r | None => false end in
  s ← (if eligible
       then match rowOf (lg_rows s) allocation with
            | Some r => if quantity <=? al_consumed r then Ok (with_rows s (updateRow allocation (consume (- quantity)) (lg_rows s)))
                        else Err (InternalError "Correction receipt exceeds the allocation's consumed quantity")
            | None => Ok s
            end
       else Ok s);
  match rowOf (lg_rows s) allocation with
  | None => Ok s
  | Some _ =>
      let '(followed, s) := followCarriedUsage clock allocation eventAt quantity (negb eligible) s in
      Ok (if negb eligible && negb followed then restoreCarriedBalance clock allocation quantity s else s)
  end.

(** ** The switch *)

(** A non-consumable level stays on a live allowance of the same item. *)
Definition keptBeside (nonConsumable : Z -> bool) (now : Z) (rows : list Allocation) (r : Allocation) : bool :=
  existsb (fun kept => bool_decide (al_item kept = al_item r) && negb (al_id kept =? al_id r) &&
    bool_decide (al_source kept = source_subscription) && funded now kept && nonConsumable (al_feature kept)) rows.

(** [natural_expires_at] *)
Definition naturalExpiresAt (it : PlanItem) (r : Allocation) : option Z :=
  if expires it then least (al_end r) (start ← al_start r; expiresAtSql start it)
  else if bool_decide (it_reset it <> None) then al_end r else None.

Definition reopens (items : list CatalogItem) (nonConsumable : Z -> bool) (incoming now : Z) (rows : list Allocation) (r : Allocation) : bool :=
  match versionItem items incoming r with
  | None => false
  | Some it =>
      bool_decide (al_source r = source_subscription) && bool_decide (al_reversed_at r = None) && negb (keptBeside nonConsumable now rows r) &&
      negb (open now r) && bool_decide (al_rollover r <> None) &&
      match al_start r with Some t => t <=? now | None => false end && match al_end r with Some t => now <? t | None => true end &&
      match naturalExpiresAt it r with None => true | Some e => now <? e end
  end.

Definition reopen (items : list CatalogItem) (incoming : Z) (r : Allocation) : Allocation :=
  with_expiry r (it ← versionItem items incoming r; naturalExpiresAt it r) None.

Definition taken (carry : Allocation) : Z := al_consumed carry + al_held carry + al_reversed carry.

(** [expires_at = now(), rollover_processed_at = COALESCE(rollover_processed_at, now())] *)
Definition endNow (now : Z) (r : Allocation) : Allocation :=
  with_expiry r (Some now) (match al_rollover r with Some t => Some t | None => Some now end).

(** A live carry taken from a reopened allowance. *)
Definition carryEnds (now : Z) (reopened : list Z) (r : Allocation) : bool :=
  bool_decide (al_source r = source_carry_over) && funded now r &&
  match al_origin r with Some o => existsb (Z.eqb o) reopened | None => false end.

(** It ends, and what is gone from it is taken from its origin. *)
Definition returnCarry (now : Z) (reopened : list Z) (rows : list Allocation) (r : Allocation) : Allocation :=
  if carryEnds now reopened r then endNow now r
  else match List.find (fun carry => carryEnds now reopened carry && bool_decide (al_origin carry = Some (al_id r))) rows with
  | Some carry => with_quantities r (al_quantity r) (Z.min (al_quantity r) (al_reversed r + taken carry)) (al_consumed r)
  | None => r
  end.

(** [resumeReturningAllowances] *)
Definition resumeReturningAllowances (items : list CatalogItem) (nonConsumable : Z -> bool) (incoming now : Z) (s : Ledger) : Ledger :=
  let reopening := reopens items nonConsumable incoming now (lg_rows s) in
  let reopened := map al_id (List.filter reopening (lg_rows s)) in
  let rows := map (fun r => if reopening r then reopen items incoming r else r) (lg_rows s) in
  with_rows s (map (returnCarry now reopened rows) rows).

(** [endOutgoingPlanAllowances] *)
Definition endOutgoingPlanAllowances (items : list CatalogItem) (outgoing now : Z) (s : Ledger) : Ledger :=
  with_rows s (map (fun r =>
    if bool_decide (al_source r = source_subscription) && funded now r && ofVersion items outgoing r
    then endNow now r else r) (lg_rows s)).

(** The switch from the outgoing version to the incoming one, once its allowances are granted. *)
Definition switchVersion (items : list CatalogItem) (nonConsumable : Z -> bool) (carries : bool) (input : CarryOverInput) (now : Z) (s : Ledger)
  : result Ledger :=
  let s := resumeReturningAllowances items nonConsumable (in_incoming input) now s in
  s ← (if carries then carryOverAllowances items input now s else Ok s);
  Ok (endOutgoingPlanAllowances items (in_outgoing input) now s).

(** ** Rows *)

Lemma consume_0 r : consume 0 r = r.
Proof. destruct r. unfold consume, with_quantities. cbn. by rewrite Z.add_0_r. Qed.

Lemma consume_consume a b r : consume b (consume a r) = consume (a + b) r.
Proof. unfold consume, with_quantities. cbn. by rewrite Z.add_assoc. Qed.

(** The rows with each allocation's consumption lowered. *)
Definition lowered (dec : Z -> Z) (rows : list Allocation) : list Allocation := map (fun r => consume (- dec (al_id r)) r) rows.
Definition only (id d : Z) : Z -> Z := fun i => if i =? id then d else 0.

Lemma lowered_none dec rows : (forall r, r ∈ rows -> dec (al_id r) = 0) -> lowered dec rows = rows.
Proof.
  intros H. unfold lowered. rewrite <- (map_id rows) at 2. apply List.map_ext_in. intros r Hr%list_elem_of_In. rewrite (H r Hr). apply consume_0.
Qed.

Lemma lowered_lowered d1 d2 rows : lowered d2 (lowered d1 rows) = lowered (fun i => d1 i + d2 i) rows.
Proof. unfold lowered. rewrite map_map. apply map_ext. intros r. rewrite consume_consume. cbn. f_equal. lia. Qed.

Lemma updateRow_lowered id d rows : updateRow id (consume (- d)) rows = lowered (only id d) rows.
Proof. unfold updateRow, lowered, only. apply map_ext. intros r. destruct (al_id r =? id); [done|]. symmetry. apply consume_0. Qed.

Lemma lowered_ids dec rows : map al_id (lowered dec rows) = map al_id rows.
Proof. unfold lowered. rewrite map_map. done. Qed.

Lemma updateRow_ids id f rows : (forall r, al_id (f r) = al_id r) -> map al_id (updateRow id f rows) = map al_id rows.
Proof. intros H. unfold updateRow. rewrite map_map. apply map_ext. intros r. destruct (al_id r =? id); [apply H|done]. Qed.

Lemma rowOf_elem rows id r : rowOf rows id = Some r -> r ∈ rows /\ al_id r = id.
Proof. intros [Hin E]%find_some. split; [by apply list_elem_of_In|by apply Z.eqb_eq]. Qed.

Lemma elem_rowOf rows r : NoDup (map al_id rows) -> r ∈ rows -> rowOf rows (al_id r) = Some r.
Proof.
  intros Hnd Hr. destruct (rowOf rows (al_id r)) as [r'|] eqn:E.
  - apply rowOf_elem in E as [Hr' E]. f_equal. by apply (NoDup_key_inj al_id rows).
  - exfalso. unfold rowOf in E. apply list_elem_of_In in Hr. pose proof (find_none _ _ E r Hr) as H. cbn in H. by apply Z.eqb_neq in H.
Qed.

Lemma rowOf_none rows id : rowOf rows id = None -> forall r, r ∈ rows -> al_id r <> id.
Proof. intros E r Hr%list_elem_of_In Hid. pose proof (find_none _ _ E r Hr) as H. cbn in H. by apply Z.eqb_neq in H. Qed.

Lemma rowOf_lowered dec rows id : rowOf (lowered dec rows) id = consume (- dec id) <$> rowOf rows id.
Proof.
  unfold rowOf, lowered. induction rows as [|r rows IH]; [done|]. cbn. destruct (Z.eqb_spec (al_id r) id) as [<-|]; [done|apply IH].
Qed.

(** An allocation takes quantity back unless it is reversed, or about to roll over. *)
Definition takesBack (clock : Z) (r : Allocation) : bool :=
  bool_decide (al_reversed_at r = None) && (open clock r || bool_decide (al_rollover r <> None)).

Lemma takesBack_consume clock u r : takesBack clock (consume u r) = takesBack clock r.
Proof. done. Qed.

(** What [reduceCopy] takes off a row. *)
Definition reduction (clock units : Z) (r : Allocation) : Z := if takesBack clock r then Z.min units (al_consumed r) else 0.

Lemma reduceCopy_spec clock id units s : NoDup (map al_id (lg_rows s)) -> 0 <= units -> (forall r, r ∈ lg_rows s -> 0 <= al_consumed r) ->
  (reduceCopy clock id units s).2 = with_rows s (lowered (fun i => if i =? id then default 0 (reduction clock units <$> rowOf (lg_rows s) id) else 0) (lg_rows s)) /\
  (reduceCopy clock id units s).1 = (r ← rowOf (lg_rows s) id; if takesBack clock r then Some (reduction clock units r) else None).
Proof.
  intros Hnd Hu Hc. unfold reduceCopy. assert (Hsame : with_rows s (lg_rows s) = s) by by destruct s.
  destruct (rowOf (lg_rows s) id) as [r|] eqn:E; cbn [fmap option_fmap option_map default from_option mbind option_bind].
  - destruct (rowOf_elem _ _ _ E) as [Hr Hid]. specialize (Hc r Hr).
    assert (H0 : with_rows s (lowered (fun i => if i =? id then 0 else 0) (lg_rows s)) = s).
    { rewrite lowered_none; [done|]. intros r' _. by destruct (_ =? _). }
    assert (Hcond : forall A (x y : A), (if bool_decide (al_reversed_at r <> None) then x else if negb (open clock r) && bool_decide (al_rollover r = None) then x else y) =
      if takesBack clock r then y else x).
    { intros. unfold takesBack. destruct (al_reversed_at r), (open clock r), (al_rollover r); reflexivity. }
    rewrite Hcond. unfold reduction. destruct (takesBack clock r); cbn [fst snd]; [|split; [symmetry; exact H0|done] ].
    assert (Hm : (if units <? al_consumed r then units else al_consumed r) = Z.min units (al_consumed r)) by (destruct (Z.ltb_spec units (al_consumed r)); lia).
    rewrite Hm. split; [|done]. destruct (Z.ltb_spec 0 (Z.min units (al_consumed r))); [by rewrite updateRow_lowered|].
    replace (Z.min units (al_consumed r)) with 0 by lia. symmetry. exact H0.
  - split; [|done]. rewrite lowered_none; [done|]. intros r _. by destruct (_ =? _).
Qed.

Lemma lowered_ext d1 d2 rows : (forall i, d1 i = d2 i) -> lowered d1 rows = lowered d2 rows.
Proof. intros H. unfold lowered. apply map_ext. intros r. by rewrite H. Qed.

Lemma reduction_bounds clock units r : 0 <= units -> 0 <= al_consumed r -> 0 <= reduction clock units r <= units.
Proof. intros. unfold reduction. destruct (takesBack clock r); lia. Qed.

Lemma reduction_consumed clock units r : 0 <= al_consumed r -> 0 <= units -> reduction clock units r <= al_consumed r.
Proof. intros. unfold reduction. destruct (takesBack clock r); lia. Qed.

Definition consumed_ok (rows : list Allocation) : Prop := NoDup (map al_id rows) /\ forall r, r ∈ rows -> 0 <= al_consumed r.

Lemma consumed_lowered dec rows : consumed_ok rows -> (forall r, r ∈ rows -> dec (al_id r) <= al_consumed r) -> consumed_ok (lowered dec rows).
Proof.
  intros [Hnd Hc] Hd. split; [by rewrite lowered_ids|]. intros r (r0 & -> & Hr)%list_elem_of_fmap. cbn. specialize (Hd r0 Hr). lia.
Qed.

(** What each holder of a capped portion loses, the corrected allowance apart. *)
Definition holderLoss (clock a : Z) (caps : Portions) (holdings : list (Z * Portions)) (rows : list Allocation) (b : Z) : Z :=
  if b =? a then 0
  else match mapGet holdings b with
  | Some held => default 0 (reduction clock (excessOver caps held) <$> rowOf rows b)
  | None => 0
  end.

Lemma holderLoss_consumed clock a caps holdings rows r : consumed_ok rows -> r ∈ rows ->
  0 <= holderLoss clock a caps holdings rows (al_id r) <= al_consumed r.
Proof.
  intros [Hnd Hc] Hr. unfold holderLoss. specialize (Hc r Hr). destruct (_ =? _); [lia|]. destruct (mapGet _ _) as [held|]; [|lia].
  rewrite elem_rowOf by done. cbn. pose proof (excessOver_nonneg caps held). pose proof (reduction_bounds clock (excessOver caps held) r).
  pose proof (reduction_consumed clock (excessOver caps held) r). change (id (reduction clock (excessOver caps held) r)) with (reduction clock (excessOver caps held) r) in *. lia.
Qed.

Lemma reduceHolders_spec clock a caps holdings : forall s, consumed_ok (lg_rows s) -> NoDup (map fst holdings) ->
  fold_left (reduceHolder clock a caps) holdings s = with_rows s (lowered (holderLoss clock a caps holdings (lg_rows s)) (lg_rows s)).
Proof.
  induction holdings as [|[b held] holdings IH]; intros s Hok Hnd.
  { cbn. rewrite lowered_none; [by destruct s|]. intros r _. unfold holderLoss. by destruct (_ =? _). }
  cbn [map fst] in Hnd. apply NoDup_cons in Hnd as [Hb Hnd]. cbn [fold_left].
  set (d := fun i => if i =? b then if b =? a then 0 else default 0 (reduction clock (excessOver caps held) <$> rowOf (lg_rows s) b) else 0).
  pose proof (excessOver_nonneg caps held) as Hx.
  assert (E : reduceHolder clock a caps s (b, held) = with_rows s (lowered d (lg_rows s))).
  { unfold reduceHolder. assert (Hs0 : (forall r, r ∈ lg_rows s -> d (al_id r) = 0) -> s = with_rows s (lowered d (lg_rows s))).
    { intros H. rewrite lowered_none by done. by destruct s. }
    destruct (Z.eqb_spec b a) as [->|Hne]; [apply Hs0; intros r _; unfold d; by destruct (_ =? _)|].
    assert (Hd : forall i, d i = if i =? b then default 0 (reduction clock (excessOver caps held) <$> rowOf (lg_rows s) b) else 0).
    { done. }
    destruct (Z.ltb_spec 0 (excessOver caps held)) as [Hp|Hz].
    - apply (proj1 (reduceCopy_spec clock b (excessOver caps held) s (proj1 Hok) Hx (proj2 Hok))).
    - apply Hs0. intros r Hr. rewrite Hd. destruct (Z.eqb_spec (al_id r) b) as [<-|]; [|done]. rewrite elem_rowOf by (done || apply Hok). cbn.
      pose proof (reduction_bounds clock _ r Hx (proj2 Hok r Hr)) as Hrb. change (id ?x) with x. lia. }
  assert (Hdc : forall r, r ∈ lg_rows s -> 0 <= d (al_id r) <= al_consumed r).
  { intros r Hr. pose proof (proj2 Hok r Hr). unfold d. destruct (Z.eqb_spec (al_id r) b) as [<-|]; [|lia]. destruct (_ =? _); [lia|].
    rewrite elem_rowOf by (done || apply Hok). cbn. pose proof (reduction_bounds clock (excessOver caps held) r). pose proof (reduction_consumed clock (excessOver caps held) r). change (id ?x) with x. lia. }
  rewrite E, IH; [|apply consumed_lowered; [done|intros r Hr; by apply Hdc]|done].
  unfold with_rows. cbn [lg_rows lg_carried lg_nextId]. f_equal. rewrite lowered_lowered. apply lowered_ext. intros i. unfold holderLoss. cbn [mapGet].
  apply mapGet_None in Hb. destruct (decide (b = i)) as [<-|Hbi].
  - rewrite Hb. unfold d. rewrite Z.eqb_refl. destruct (_ =? _); lia.
  - unfold d at 1. rewrite (proj2 (Z.eqb_neq i b)) by congruence. destruct (i =? a); [done|]. rewrite Z.add_0_l. destruct (mapGet holdings i) as [h|]; [|done].
    rewrite rowOf_lowered. unfold d. rewrite (proj2 (Z.eqb_neq i b)) by congruence. destruct (rowOf (lg_rows s) i); [|done]. cbn [fmap option_fmap option_map]. by rewrite consume_0.
Qed.

(** ** Portions of an allowance's own use *)

Definition isAfter (a t : Z) (c : CarriedUsage) : bool := (t <? cu_at c) && (cu_from c =? a).

(** The use of [a] in the portions its carries introduced after [t]. *)
Definition portionSum (sizes : Portions) (l : list (nat * CarriedUsage)) (a t : Z) : Z :=
  sumZ (map (fun x => if isAfter a t x.2 then qty sizes x.1 else 0) l).

Definition portionsIn (sizes : Portions) (l : list (nat * CarriedUsage)) (a t : Z) : list nat :=
  map fst (List.filter (fun x => isAfter a t x.2 && (0 <? qty sizes x.1)) l).

Lemma portionsAfter_in rows replay a t : portionsAfter rows replay a t = portionsIn (rp_sizes replay) (entries rows) a t.
Proof. unfold portionsAfter, portionsIn. f_equal. apply List.filter_ext. by intros [i c]. Qed.

Lemma portionSum_nonneg sizes l a t : holding_ok sizes -> 0 <= portionSum sizes l a t.
Proof.
  intros H. apply sumZ_nonneg, Forall_forall. intros x (e & -> & _)%list_elem_of_fmap. destruct (isAfter _ _ _); [by apply qty_nonneg|lia].
Qed.

Lemma portionSum_le sizes l a t t' : holding_ok sizes -> t <= t' -> portionSum sizes l a t' <= portionSum sizes l a t.
Proof.
  intros H Ht. unfold portionSum. apply sumZ_map_le. intros x _. pose proof (qty_nonneg sizes x.1 H). unfold isAfter.
  destruct (Z.ltb_spec t' (cu_at x.2)), (Z.ltb_spec t (cu_at x.2)), (cu_from x.2 =? a); cbn; lia.
Qed.

Lemma portionsIn_sum sizes l a t : holding_ok sizes -> sumZ (map (qty sizes) (portionsIn sizes l a t)) = portionSum sizes l a t.
Proof.
  intros H. unfold portionsIn, portionSum. induction l as [|x l IH]; [done|]. cbn [List.filter map sumZ]. pose proof (qty_nonneg sizes x.1 H).
  destruct (isAfter a t x.2); cbn [andb]; [|by rewrite IH]. destruct (Z.ltb_spec 0 (qty sizes x.1)); cbn [map sumZ]; rewrite IH; lia.
Qed.

Lemma portionsIn_elem sizes l a t p : p ∈ portionsIn sizes l a t -> exists c, (p, c) ∈ l /\ isAfter a t c = true.
Proof.
  intros ([p' c] & -> & H)%list_elem_of_fmap. apply list_elem_of_In, filter_In in H as [Hin%list_elem_of_In Hp]. exists c.
  split; [done|]. by apply andb_true_iff in Hp as [? _].
Qed.

Lemma portionsIn_nodup sizes l a t : NoDup (map fst l) -> NoDup (portionsIn sizes l a t).
Proof.
  unfold portionsIn. induction l as [|x l IH]; [constructor|]. cbn [map List.filter]. intros [Hx Hnd]%NoDup_cons. destruct (_ && _); [|by apply IH].
  cbn [map]. apply NoDup_cons. split; [|by apply IH]. intros (y & Ey & Hy%list_elem_of_In)%list_elem_of_fmap. apply filter_In in Hy as [Hy%list_elem_of_In _].
  apply Hx. rewrite Ey. by apply list_elem_of_fmap_2.
Qed.

Lemma capPortions_0 sizes ps : capPortions sizes ps 0 = [].
Proof. by destruct ps. Qed.

Lemma capQty_absent caps p q : p ∉ map fst caps -> capQty caps p q = q.
Proof. intros H. unfold capQty. by rewrite (proj2 (mapGet_None caps p) H). Qed.

Section Shrinking.
Context (sizes : Portions) (Hsz : holding_ok sizes) (a t0 : Z).

(** The caps a correction of [q] sets. *)
Definition capsOf (l : list (nat * CarriedUsage)) (q : Z) : Portions := capPortions sizes (portionsIn sizes l a t0) q.

(** The sum once the portions are capped. *)
Definition cappedSum (caps : Portions) (l : list (nat * CarriedUsage)) (b t : Z) : Z :=
  sumZ (map (fun x => if isAfter b t x.2 then capQty caps x.1 (qty sizes x.1) else 0) l).

Lemma cappedSum_other caps p c l b t : p ∉ map fst l -> cappedSum ((p, c) :: caps) l b t = cappedSum caps l b t.
Proof using.
  intros Hp. unfold cappedSum. f_equal. apply List.map_ext_in. intros [p' c'] Hin%list_elem_of_In. destruct (isAfter _ _ _); [|done]. cbn. unfold capQty. cbn.
  rewrite decide_False; [done|]. intros ->. apply Hp. by apply (list_elem_of_fmap_2 fst _ (p', c')).
Qed.

Lemma cappedSum_nil l b t : cappedSum [] l b t = portionSum sizes l b t.
Proof using. done. Qed.

Lemma capsOf_cons x l q : 0 <= q -> NoDup (map fst (x :: l)) -> exists taken, 0 <= taken /\
  taken = (if isAfter a t0 x.2 then Z.min q (qty sizes x.1) else 0) /\
  capQty (capsOf (x :: l) q) x.1 (qty sizes x.1) = qty sizes x.1 - taken /\
  forall b t, cappedSum (capsOf (x :: l) q) l b t = cappedSum (capsOf l (q - taken)) l b t.
Proof using Hsz.
  intros Hq Hnd. cbn [map] in Hnd. apply NoDup_cons in Hnd as [Hx Hnd]. pose proof (qty_nonneg sizes x.1 Hsz) as Hp. unfold capsOf, portionsIn. cbn [List.filter].
  assert (Habs : forall q, x.1 ∉ map fst (capPortions sizes (portionsIn sizes l a t0) q)).
  { intros q' Hin%capPortions_keys. apply portionsIn_elem in Hin as (c & Hc & _). apply Hx. by apply (list_elem_of_fmap_2 fst _ (x.1, c)). }
  destruct (isAfter a t0 x.2) eqn:Ea; cbn [andb].
  - exists (Z.min q (qty sizes x.1)). split; [lia|]. split; [done|]. destruct (Z.ltb_spec 0 (qty sizes x.1)) as [Hpos|Hz].
    + cbn [map capPortions]. destruct (Z.eqb_spec q 0) as [->|Hq0].
      * replace (Z.min 0 (qty sizes x.1)) with 0 by lia. split; [unfold capQty; cbn; lia|]. intros b t.
        by rewrite capPortions_0.
      * change (default 0 (mapGet sizes x.1)) with (qty sizes x.1).
        assert (Ht : (if q <? qty sizes x.1 then q else qty sizes x.1) = Z.min q (qty sizes x.1)) by (destruct (Z.ltb_spec q (qty sizes x.1)); lia).
        rewrite Ht. split; [unfold capQty; cbn; rewrite decide_True by done; lia|]. intros b t. by apply cappedSum_other.
    + replace (Z.min q (qty sizes x.1)) with 0 by lia. rewrite !Z.sub_0_r. split; [by apply capQty_absent, Habs|]. intros b t. by rewrite ?Z.sub_0_r.
  - exists 0. rewrite !Z.sub_0_r. split; [done|]. split; [done|]. split; [by apply capQty_absent, Habs|]. intros b t. by rewrite ?Z.sub_0_r.
Qed.

Lemma cappedSum_before l q t : 0 <= q -> NoDup (map fst l) -> t <= t0 ->
  cappedSum (capsOf l q) l a t = portionSum sizes l a t - Z.min q (portionSum sizes l a t0).
Proof using Hsz.
  revert q. induction l as [|x l IH]; intros q Hq Hnd Ht; [cbn; lia|]. destruct (capsOf_cons x l q Hq Hnd) as (taken & Ht0 & Htk & Hcx & Hcl).
  cbn [map] in Hnd. apply NoDup_cons in Hnd as [Hx Hnd]. unfold cappedSum, portionSum. cbn [map sumZ].
  change (sumZ (map _ l)) with (cappedSum (capsOf (x :: l) q) l a t) at 1. rewrite Hcl, Hcx.
  pose proof (qty_nonneg sizes x.1 Hsz). pose proof (portionSum_nonneg sizes l a t0 Hsz) as Hs0.
  fold (portionSum sizes l a t). fold (portionSum sizes l a t0).
  assert (Hq' : 0 <= q - taken) by (destruct (isAfter a t0 x.2); lia). rewrite IH by done. unfold isAfter in *.
  destruct (Z.ltb_spec t (cu_at x.2)), (Z.ltb_spec t0 (cu_at x.2)), (cu_from x.2 =? a); cbn [andb] in *; lia.
Qed.

(** Carries' instants do not decrease. *)
Definition in_time (l : list (nat * CarriedUsage)) : Prop := StronglySorted (fun x y => cu_at x.2 <= cu_at y.2) l.

Lemma portionSum_all l t : Forall (fun x => t < cu_at x.2) l -> t0 <= t -> portionSum sizes l a t = portionSum sizes l a t0.
Proof using.
  intros Hl Ht. unfold portionSum. f_equal. apply List.map_ext_in. intros x Hx%list_elem_of_In. rewrite Forall_forall in Hl. specialize (Hl x Hx). unfold isAfter.
  by rewrite !(proj2 (Z.ltb_lt _ _)) by lia.
Qed.

Lemma cappedSum_after l q t : 0 <= q -> NoDup (map fst l) -> in_time l -> t0 <= t ->
  cappedSum (capsOf l q) l a t = portionSum sizes l a t - Z.min (portionSum sizes l a t) (Z.max 0 (q - (portionSum sizes l a t0 - portionSum sizes l a t))).
Proof using Hsz.
  revert q. induction l as [|x l IH]; intros q Hq Hnd Hs Ht; [cbn; lia|]. destruct (capsOf_cons x l q Hq Hnd) as (taken & Ht0 & Htk & Hcx & Hcl).
  cbn [map] in Hnd. apply NoDup_cons in Hnd as [Hx Hnd]. apply StronglySorted_inv in Hs as [Hs Hfx]. unfold cappedSum, portionSum. cbn [map sumZ].
  change (sumZ (map _ l)) with (cappedSum (capsOf (x :: l) q) l a t) at 1. rewrite Hcl, Hcx.
  pose proof (qty_nonneg sizes x.1 Hsz). pose proof (portionSum_nonneg sizes l a t Hsz) as Hs1. pose proof (portionSum_le sizes l a t0 t Hsz Ht) as Hs2.
  fold (portionSum sizes l a t). fold (portionSum sizes l a t0).
  assert (Hq' : 0 <= q - taken) by (destruct (isAfter a t0 x.2); lia). rewrite IH by done.
  assert (Hall : t < cu_at x.2 -> portionSum sizes l a t = portionSum sizes l a t0).
  { intros H1. apply portionSum_all; [|done]. eapply Forall_impl; [exact Hfx|]. cbn. intros; lia. }
  unfold isAfter in *. destruct (Z.ltb_spec t (cu_at x.2)) as [H1|H1], (Z.ltb_spec t0 (cu_at x.2)), (cu_from x.2 =? a); cbn [andb] in *; try specialize (Hall H1); lia.
Qed.

(** The portions of other allowances keep their sizes. *)
Lemma cappedSum_apart l q b t : b <> a -> NoDup (map fst l) -> cappedSum (capsOf l q) l b t = portionSum sizes l b t.
Proof using.
  intros Hb Hnd. unfold cappedSum, portionSum. f_equal. apply List.map_ext_in. intros [p c] Hin%list_elem_of_In. cbn. destruct (isAfter b t c) eqn:E; [|done].
  apply capQty_absent. intros Hk%capPortions_keys. apply portionsIn_elem in Hk as (c' & Hc' & E').
  assert ((p, c) = (p, c')) as [= <-] by by apply (NoDup_key_inj fst l). unfold isAfter in *. apply andb_true_iff in E as [_ E], E' as [_ E']. apply Z.eqb_eq in E, E'. congruence.
Qed.
End Shrinking.

(** ** Recorded carries *)

Definition carriedKey (c : CarriedUsage) : Z * Z := (cu_change c, cu_from c).

(** The table's rows, in the order the queries read them. *)
Record carried_ok (l : list CarriedUsage) : Prop := {
  cu_sorted : StronglySorted (fun c c' => carriedBefore c c' = true) l;
  cu_keys : NoDup (map carriedKey l);
  cu_time : StronglySorted (fun c c' => cu_at c <= cu_at c') l;
  cu_apart : forall c, c ∈ l -> cu_from c <> cu_to c;
  cu_amounts : forall c, c ∈ l -> 0 <= cu_applied c <= cu_requested c }.

Lemma carriedBefore_asym c c' : carriedBefore c c' = true -> carriedBefore c' c = false.
Proof.
  unfold carriedBefore. rewrite !orb_true_iff, !andb_true_iff, !orb_true_iff, !andb_true_iff, !Z.ltb_lt, !Z.eqb_eq. intros H.
  apply not_true_is_false. rewrite !orb_true_iff, !andb_true_iff, !orb_true_iff, !andb_true_iff, !Z.ltb_lt, !Z.eqb_eq. lia.
Qed.

Lemma carried_sortBy l : StronglySorted (fun c c' => carriedBefore c c' = true) l -> sortBy carriedBefore l = l.
Proof.
  intros H. apply sortBy_id. induction H as [|c l _ IH Hc]; constructor; [done|]. eapply Forall_impl; [exact Hc|]. intros c' Hb. by apply carriedBefore_asym.
Qed.

Lemma sorted_filter {A} (R : A -> A -> Prop) (p : A -> bool) l : StronglySorted R l -> StronglySorted R (List.filter p l).
Proof.
  induction 1 as [|x l _ IH Hx]; cbn; [constructor|]. destruct (p x); [|done]. constructor; [done|]. rewrite Forall_forall in *. intros y Hy%list_elem_of_In.
  apply filter_In in Hy as [Hy%list_elem_of_In _]. auto.
Qed.

(** A carry after a correction. *)
Definition giveRow (caps : Portions) (c : CarriedUsage) (moves : list Move) : CarriedUsage :=
  {| cu_change_at := cu_change_at c; cu_change := cu_change c; cu_from := cu_from c; cu_to := cu_to c; cu_requested := cu_requested c;
     cu_applied := cu_applied c - Z.max 0 (returnedBy caps moves); cu_at := cu_at c |}.

Lemma giveBack_rows caps rows moves : NoDup (map carriedKey rows) -> length moves = length rows ->
  fold_left (giveBack caps) (combine rows moves) rows = zip_with (giveRow caps) rows moves.
Proof.
  assert (G : forall rows before moves, NoDup (map carriedKey (before ++ rows)) -> length moves = length rows ->
    fold_left (giveBack caps) (combine rows moves) (before ++ rows) = before ++ zip_with (giveRow caps) rows moves).
  { clear. induction rows as [|c rows IH]; intros before [|mv moves] Hnd Hl; try done. cbn [combine fold_left zip_with].
    assert (E : giveBack caps (before ++ c :: rows) (c, mv) = (before ++ [giveRow caps c mv]) ++ rows).
    { rewrite map_app in Hnd. cbn [map] in Hnd. apply NoDup_app in Hnd as (_ & Hd & Hnd). apply NoDup_cons in Hnd as [Hc _]. unfold giveBack.
      destruct (Z.leb_spec (returnedBy caps mv) 0) as [Hle|Hlt].
      - rewrite <- app_assoc. cbn. f_equal. f_equal. unfold giveRow. rewrite Z.max_l, Z.sub_0_r by done. by destruct c.
      - assert (Hk : forall l, (forall c', c' ∈ l -> carriedKey c' <> carriedKey c) ->
          map (fun c0 => if (cu_change c0 =? cu_change c) && (cu_from c0 =? cu_from c)
            then {| cu_change_at := cu_change_at c0; cu_change := cu_change c0; cu_from := cu_from c0; cu_to := cu_to c0; cu_requested := cu_requested c0;
              cu_applied := cu_applied c0 - returnedBy caps mv; cu_at := cu_at c0 |} else c0) l = l).
        { intros l Hl'. rewrite <- (map_id l) at 2. apply List.map_ext_in. intros c' Hc'%list_elem_of_In. specialize (Hl' c' Hc').
          destruct ((cu_change c' =? cu_change c) && (cu_from c' =? cu_from c)) eqn:Eb; [|done]. apply andb_true_iff in Eb as [E1 E2]. apply Z.eqb_eq in E1, E2.
          exfalso. apply Hl'. unfold carriedKey. congruence. }
        rewrite map_app. cbn [map]. rewrite !Z.eqb_refl. cbn [andb]. rewrite !Hk.
        + rewrite <- app_assoc. cbn. unfold giveRow. rewrite Z.max_r by lia. done.
        + intros c' Hc' Ek. apply Hc. rewrite <- Ek. by apply list_elem_of_fmap_2.
        + intros c' Hc' Ek. apply (Hd (carriedKey c')); [by apply list_elem_of_fmap_2|]. rewrite Ek. constructor. }
    rewrite E. rewrite IH; [by rewrite <- app_assoc| |by injection Hl].
    rewrite <- app_assoc in *. rewrite !map_app in *. exact Hnd. }
  intros Hnd Hl. apply (G rows [] moves Hnd Hl).
Qed.

Lemma giveRows_edges caps rows moves : map edgeOf (zip_with (giveRow caps) rows moves) =
  zip_with (fun e mv => {| ed_from := ed_from e; ed_to := ed_to e; ed_applied := ed_applied e - Z.max 0 (returnedBy caps mv) |}) (map edgeOf rows) moves.
Proof. revert moves. induction rows as [|c rows IH]; intros [|mv moves]; cbn; try done. by rewrite IH. Qed.

Lemma giveRows_map {B} (f : CarriedUsage -> B) caps rows moves : (forall c mv, f (giveRow caps c mv) = f c) -> length moves = length rows ->
  map f (zip_with (giveRow caps) rows moves) = map f rows.
Proof. intros Hf. revert moves. induction rows as [|c rows IH]; intros [|mv moves]; cbn; try done. intros [= Hl]. by rewrite Hf, IH. Qed.

Lemma sorted_by_map {A B} (f : A -> B) (R : B -> B -> Prop) l : StronglySorted R (map f l) <-> StronglySorted (fun x y => R (f x) (f y)) l.
Proof.
  induction l as [|x l IH]; cbn; [split; constructor|]. split; intros H; apply StronglySorted_inv in H as [H1%IH H2]; (constructor; [exact H1|]).
  - rewrite Forall_forall in H2. apply Forall_forall. intros y Hy. by apply H2, list_elem_of_fmap_2.
  - rewrite Forall_forall in H2. apply Forall_forall. intros y (z & -> & Hz)%list_elem_of_fmap. by apply H2.
Qed.

Lemma entries_zip {A B C} (f : A -> B -> C) (l : list A) (m : list B) : length m = length l ->
  entries (zip_with f l m) = zip_with (fun x y => (x.1, f x.2 y)) (entries l) m.
Proof.
  intros H. unfold entries. rewrite length_zip_with_l by lia. generalize 0%nat. revert m H. induction l as [|x l IH]; intros [|y m]; cbn; try done.
  intros [= H] s. f_equal. by apply IH.
Qed.

Lemma holdings_nodup l : NoDup (map fst (rp_holdings (replayOf l))).
Proof.
  induction l as [|[p e] l IH] using rev_ind; [constructor|]. rewrite replayOf_snoc. unfold replayCarry. destruct (_ <=? 0); [done|].
  destruct (copyPortions _ _ _) as [[to' moves] r]. destruct (0 <? r); cbn [rp_holdings]; by repeat apply mapSet_nodup.
Qed.

Lemma replayCarries_length edges : edges_apart edges -> length (rp_moves (replayCarries edges)) = length edges.
Proof. intros H. rewrite (ro_moves _ _ (replayCarries_ok edges H)). unfold entries. by rewrite length_combine, length_seq, Nat.min_id. Qed.

Lemma entries_snoc {A} (l : list A) x : entries (l ++ [x]) = entries l ++ [(length l, x)].
Proof.
  unfold entries. rewrite length_app, Nat.add_1_r, seq_S. cbn.
  assert (G : forall (s : list nat) (l : list A), length s = length l -> forall n x, combine (s ++ [n]) (l ++ [x]) = combine s l ++ [(n, x)]).
  { induction s as [|i s IH]; intros [|y l'] Hl n z; cbn; try done. f_equal. apply IH. by injection Hl. }
  apply G. apply length_seq.
Qed.

Lemma heldBy_unknown l a : (forall x, x ∈ l -> ed_from x.2 <> a /\ ed_to x.2 <> a) -> heldBy (replayOf l) a = [].
Proof.
  induction l as [|[p e] l IH] using rev_ind; intros H; [done|]. assert (IH' : heldBy (replayOf l) a = []) by (apply IH; intros x Hx; apply H; set_solver).
  destruct (H (p, e) ltac:(set_solver)) as [Hf Ht]. cbn in Hf, Ht. rewrite replayOf_snoc. unfold replayCarry. destruct (_ <=? 0); [done|].
  destruct (copyPortions _ _ _) as [[to' moves] r]. destruct (0 <? r); by rewrite heldBy_both, !decide_False by congruence.
Qed.

(** ** Histories

    A usage event spent on an allowance; [ev_left]: the part no correction took back. *)
Record Event := { ev_alloc : Z; ev_at : Z; ev_left : Z }.

(** What events recorded at [t] or later have left on an allowance. *)
Definition ownUse (es : list Event) (a t : Z) : Z :=
  sumZ (map (fun e => if (ev_alloc e =? a) && (t <=? ev_at e) then ev_left e else 0) es).

Definition edgesOf (s : Ledger) : list CarriedUsageEdge := map edgeOf (lg_carried s).
Definition replayed (s : Ledger) : CarryReplay := replayCarries (edgesOf s).
(** The carried usage an allowance holds. *)
Definition heldUse (s : Ledger) (a : Z) : Z := total (heldBy (replayed s) a).
(** The allowance's own use that its carries took after [t]. *)
Definition afterUse (s : Ledger) (a t : Z) : Z := portionSum (rp_sizes (replayed s)) (entries (lg_carried s)) a t.

(** The carries account for the usage: an allowance's consumption is at least the carried usage it
    holds, and what its events from [t] on have left is in what carries took after [t] or was
    never carried. *)
Record books (clock : Z) (es : list Event) (s : Ledger) : Prop := {
  bk_rows : consumed_ok (lg_rows s);
  bk_ids : forall r, r ∈ lg_rows s -> al_id r < lg_nextId s;
  bk_carried : carried_ok (lg_carried s);
  bk_known : forall c, c ∈ lg_carried s -> cu_from c ∈ map al_id (lg_rows s) /\ cu_to c ∈ map al_id (lg_rows s);
  bk_past : forall c, c ∈ lg_carried s -> cu_at c <= clock;
  bk_events : forall e, e ∈ es -> 0 <= ev_left e /\ ev_at e <= clock /\ ev_alloc e ∈ map al_id (lg_rows s);
  bk_held : forall r, r ∈ lg_rows s -> heldUse s (al_id r) <= al_consumed r;
  bk_cover : forall r t, r ∈ lg_rows s -> ownUse es (al_id r) t <= al_consumed r - heldUse s (al_id r) + afterUse s (al_id r) t }.

Lemma carried_apart l : carried_ok l -> edges_apart (map edgeOf l).
Proof. intros H e (c & -> & Hc)%list_elem_of_fmap. by apply (cu_apart _ H). Qed.

Lemma replayed_ok clock es s : books clock es s -> replay_ok (entries (edgesOf s)) (replayed s).
Proof. intros H. apply replayCarries_ok, carried_apart, (bk_carried _ _ _ H). Qed.

Lemma afterUse_nonneg clock es s a t : books clock es s -> 0 <= afterUse s a t.
Proof. intros H. apply portionSum_nonneg, (ro_sizes _ _ (replayed_ok _ _ _ H)). Qed.

Lemma heldUse_fresh clock es s a : books clock es s -> a ∉ map al_id (lg_rows s) -> heldUse s a = 0.
Proof.
  intros H Ha. unfold heldUse, replayed, replayCarries. change (fold_left replayCarry ?l emptyReplay) with (replayOf l). rewrite heldBy_unknown; [done|].
  intros x Hx. assert (Hx2 : x.2 ∈ edgesOf s) by (rewrite <- (entries_snd (edgesOf s)); by apply list_elem_of_fmap_2).
  apply list_elem_of_fmap in Hx2 as (c & -> & Hc). cbn. destruct (bk_known _ _ _ H c Hc). split; intros E; by rewrite E in *.
Qed.

Lemma heldUse_same s s' a : lg_carried s' = lg_carried s -> heldUse s' a = heldUse s a.
Proof. intros E. unfold heldUse, replayed, edgesOf. by rewrite E. Qed.

Lemma afterUse_same s s' a t : lg_carried s' = lg_carried s -> afterUse s' a t = afterUse s a t.
Proof. intros E. unfold afterUse, replayed, edgesOf. by rewrite E. Qed.

(** Nothing is carried: rows are updated, and their own use grows with their consumption. *)
Lemma books_update clock clock' es es' s s' : books clock es s -> clock <= clock' -> lg_carried s' = lg_carried s ->
  consumed_ok (lg_rows s') -> (forall r, r ∈ lg_rows s' -> al_id r < lg_nextId s') -> (forall r, r ∈ lg_rows s -> al_id r ∈ map al_id (lg_rows s')) ->
  (forall e, e ∈ es' -> 0 <= ev_left e /\ ev_at e <= clock' /\ ev_alloc e ∈ map al_id (lg_rows s')) ->
  (forall r', r' ∈ lg_rows s' ->
     (exists r, r ∈ lg_rows s /\ al_id r = al_id r' /\ al_consumed r <= al_consumed r' /\
        forall t, ownUse es' (al_id r') t <= ownUse es (al_id r') t + (al_consumed r' - al_consumed r)) \/
     (al_id r' ∉ map al_id (lg_rows s) /\ forall t, ownUse es' (al_id r') t <= 0)) ->
  books clock' es' s'.
Proof.
  intros H Hc Hsame Hok Hids Hkeep Hev Hrows. pose proof (fun a => heldUse_same s s' a Hsame) as Hh. pose proof (fun a t => afterUse_same s s' a t Hsame) as Ha.
  assert (Hin : forall a, a ∈ map al_id (lg_rows s) -> a ∈ map al_id (lg_rows s')) by (intros a (r & -> & Hr)%list_elem_of_fmap; by apply Hkeep).
  split; try done; rewrite ?Hsame.
  - apply (bk_carried _ _ _ H).
  - intros c Hcc. destruct (bk_known _ _ _ H c Hcc). split; by apply Hin.
  - intros c Hcc. pose proof (bk_past _ _ _ H c Hcc). lia.
  - intros r' Hr'. rewrite Hh. destruct (Hrows r' Hr') as [(r & Hr & <- & Hle & _)|[Hf _] ].
    + pose proof (bk_held _ _ _ H r Hr). lia.
    + rewrite (heldUse_fresh _ _ _ _ H Hf). by apply Hok.
  - intros r' t Hr'. rewrite Hh, Ha. destruct (Hrows r' Hr') as [(r & Hr & Hid & Hle & Hown)|[Hf Hown] ].
    + pose proof (bk_cover _ _ _ H r t Hr) as Hcov. rewrite Hid in Hcov. specialize (Hown t). lia.
    + rewrite (heldUse_fresh _ _ _ _ H Hf). pose proof (afterUse_nonneg _ _ _ (al_id r') t H). specialize (Hown t). pose proof (proj2 Hok r' Hr'). lia.
Qed.

(** Rows are updated without changing what they consumed. *)
Lemma books_rows clock clock' es s f : books clock es s -> clock <= clock' -> (forall r, al_id (f r) = al_id r /\ al_consumed (f r) = al_consumed r) ->
  books clock' es (with_rows s (map f (lg_rows s))).
Proof.
  intros H Hc Hf. assert (Hids : map al_id (map f (lg_rows s)) = map al_id (lg_rows s)) by (rewrite map_map; apply map_ext; intros r; apply Hf).
  apply (books_update clock _ es _ s); cbn [lg_rows lg_carried lg_nextId with_rows]; try done.
  - destruct (bk_rows _ _ _ H) as [Hnd Hcons]. split; [by rewrite Hids|]. intros r (r0 & -> & Hr)%list_elem_of_fmap. rewrite (proj2 (Hf r0)). auto.
  - intros r (r0 & -> & Hr)%list_elem_of_fmap. rewrite (proj1 (Hf r0)). by apply (bk_ids _ _ _ H).
  - intros r Hr. rewrite Hids. by apply list_elem_of_fmap_2.
  - intros e He. rewrite Hids. destruct (bk_events _ _ _ H e He) as (? & ? & ?). split_and!; [done|lia|done].
  - intros r' (r & -> & Hr)%list_elem_of_fmap. left. exists r. destruct (Hf r) as [E1 E2]. rewrite E1, E2. split_and!; [done|done|lia|intros; lia].
Qed.

Lemma ownUse_snoc es e a t : ownUse (es ++ [e]) a t = ownUse es a t + (if (ev_alloc e =? a) && (t <=? ev_at e) then ev_left e else 0).
Proof. unfold ownUse. rewrite map_app, sumZ_app. cbn. lia. Qed.

Lemma ownUse_none es a t : (forall e, e ∈ es -> ev_alloc e <> a) -> ownUse es a t = 0.
Proof.
  intros H. unfold ownUse. apply sumZ_zeros. intros x (e & -> & He)%list_elem_of_fmap. rewrite (proj2 (Z.eqb_neq _ _)); [done|]. by apply H.
Qed.

(** An event spends on an allowance, directly or from a hold. *)
Lemma books_spend clock t es s a q f : books clock es s -> clock <= t -> 0 <= q -> a ∈ map al_id (lg_rows s) ->
  (forall r, al_id (f r) = al_id r /\ al_consumed (f r) = al_consumed r + q) ->
  books t (es ++ [{| ev_alloc := a; ev_at := t; ev_left := q |}]) (with_rows s (updateRow a f (lg_rows s))).
Proof.
  intros H Hc Hq Ha Hf. assert (Hids : map al_id (updateRow a f (lg_rows s)) = map al_id (lg_rows s)) by (apply updateRow_ids; intros r; apply Hf).
  assert (Hrow : forall r', r' ∈ updateRow a f (lg_rows s) -> exists r, r ∈ lg_rows s /\ al_id r = al_id r' /\
    al_consumed r' = al_consumed r + (if al_id r' =? a then q else 0)).
  { intros r' (r & -> & Hr)%list_elem_of_fmap. exists r. destruct (Z.eqb_spec (al_id r) a) as [E|E].
    - rewrite (proj1 (Hf r)), (proj2 (Hf r)), E, Z.eqb_refl. done.
    - rewrite (proj2 (Z.eqb_neq _ _)) by done. split_and!; [done|done|lia]. }
  apply (books_update clock _ es _ s); cbn [lg_rows lg_carried lg_nextId with_rows]; try done.
  - split; [rewrite Hids; apply (bk_rows _ _ _ H)|]. intros r' Hr'. destruct (Hrow r' Hr') as (r & Hr & _ & ->). pose proof (proj2 (bk_rows _ _ _ H) r Hr).
    destruct (_ =? _); lia.
  - intros r' Hr'. destruct (Hrow r' Hr') as (r & Hr & <- & _). by apply (bk_ids _ _ _ H).
  - intros r Hr. rewrite Hids. by apply list_elem_of_fmap_2.
  - intros e He'. rewrite Hids. apply elem_of_app in He' as [He| ->%list_elem_of_singleton]; [|by split_and!]. destruct (bk_events _ _ _ H e He) as (? & ? & ?). split_and!; [done|lia|done].
  - intros r' Hr'. left. destruct (Hrow r' Hr') as (r & Hr & Hid & Hcons). exists r. split_and!; [done|done|destruct (_ =? _); lia|]. intros t'. rewrite ownUse_snoc. cbn [ev_alloc ev_at ev_left].
    rewrite Hcons, (Z.eqb_sym a). destruct (al_id r' =? a); cbn [andb]; [destruct (t' <=? t); lia|lia].
Qed.

(** ** A carry of usage *)

(** One more carry, replayed. *)
Record carried_on (edges : list CarriedUsageEdge) (e : CarriedUsageEdge) (n : Z) : Prop := {
  cn_new : n = Z.max 0 (ed_applied e - missing (heldBy (replayCarries edges) (ed_from e)) (heldBy (replayCarries edges) (ed_to e)));
  cn_to : total (heldBy (replayCarries (edges ++ [e])) (ed_to e)) = total (heldBy (replayCarries edges) (ed_to e)) + ed_applied e;
  cn_from : total (heldBy (replayCarries (edges ++ [e])) (ed_from e)) = total (heldBy (replayCarries edges) (ed_from e)) + n;
  cn_other : forall a, a <> ed_from e -> a <> ed_to e -> heldBy (replayCarries (edges ++ [e])) a = heldBy (replayCarries edges) a;
  cn_sizes : rp_sizes (replayCarries (edges ++ [e])) = introduce (rp_sizes (replayCarries edges)) (length edges) n;
  cn_fresh : length edges ∉ map fst (rp_sizes (replayCarries edges));
  cn_shared : sharedCarriedUsage (edges ++ [e]) (ed_from e) (ed_to e) = sharedCarriedUsage edges (ed_from e) (ed_to e) + ed_applied e }.

Lemma replayCarries_snoc edges e : replayCarries (edges ++ [e]) = replayCarry (replayCarries edges) (length edges, e).
Proof. unfold replayCarries. rewrite entries_snoc. by rewrite fold_left_app. Qed.

Lemma carry_on edges e : edges_apart (edges ++ [e]) -> 0 <= ed_applied e -> exists n, carried_on edges e n.
Proof.
  intros Hap Happ. assert (Hap0 : edges_apart edges) by (intros x Hx; apply Hap; set_solver). assert (Hne : ed_from e <> ed_to e) by (apply Hap; set_solver).
  pose proof (replayCarries_ok edges Hap0) as Hok. assert (Hp : length edges ∉ map fst (entries edges)).
  { rewrite entries_fst. intros Hin%list_elem_of_In. apply in_seq in Hin. lia. }
  destruct (replay_absent _ _ _ Hok Hp) as [Hps Hpa]. destruct (Z.leb_spec (ed_applied e) 0) as [Hz|Hz].
  - exists 0. destruct (replayCarry_skip (replayCarries edges) (length edges) e Hz) as (E1 & E2 & _). pose proof (missing_nonneg (heldBy (replayCarries edges) (ed_from e)) (heldBy (replayCarries edges) (ed_to e))).
    split; rewrite ?replayCarries_snoc, ?E1, ?E2; try done; try lia.
    unfold sharedCarriedUsage. rewrite replayCarries_snoc, !E1. lia.
  - destruct (replayCarry_carried (replayCarries edges) (length edges) e (ro_holdings _ _ Hok) Hpa Hps Hz) as (to' & moves & n & _ & Hc).
    destruct (carried_totals _ _ e _ to' moves n Hne Hpa Hc) as (T1 & T2 & T3 & T4 & T5). exists n.
    split; rewrite ?replayCarries_snoc; try done.
    + intros a H1 H2. by rewrite (cy_held _ _ _ _ _ _ _ Hc), !decide_False by congruence.
    + apply (cy_sizes _ _ _ _ _ _ _ Hc).
    + unfold sharedCarriedUsage. rewrite replayCarries_snoc. exact T5.
Qed.

Lemma sum_at (rows : list Allocation) a n : NoDup (map al_id rows) -> a ∈ map al_id rows -> sumZ (map (fun r => if al_id r =? a then n else 0) rows) = n.
Proof.
  induction rows as [|r rows IH]; cbn [map]; [by intros _ ?%elem_of_nil|]. intros [Hr Hnd]%NoDup_cons [->|Ha]%elem_of_cons; cbn [sumZ].
  - rewrite Z.eqb_refl, sumZ_zeros; [lia|]. intros x (r' & -> & Hr')%list_elem_of_fmap. rewrite (proj2 (Z.eqb_neq _ _)); [done|].
    intros E. apply Hr. rewrite <- E. by apply list_elem_of_fmap_2.
  - rewrite (proj2 (Z.eqb_neq _ _)); [by rewrite IH|]. intros E. apply Hr. by rewrite E.
Qed.

(** The distinct usage the allowances consumed: what was never carried, and each portion once. *)
Definition distinctUse (s : Ledger) : Z :=
  sumZ (map (fun r => al_consumed r - heldUse s (al_id r)) (lg_rows s)) + total (rp_sizes (replayed s)).

Lemma portionSum_app sizes l l' a t : portionSum sizes (l ++ l') a t = portionSum sizes l a t + portionSum sizes l' a t.
Proof. unfold portionSum. by rewrite map_app, sumZ_app. Qed.

Lemma portionSum_sizes sizes sizes' l a t : (forall x, x ∈ l -> qty sizes x.1 = qty sizes' x.1) -> portionSum sizes l a t = portionSum sizes' l a t.
Proof. intros H. unfold portionSum. f_equal. apply List.map_ext_in. intros x Hx%list_elem_of_In. by rewrite (H x Hx). Qed.

Section CarryStep.
Context (clock now : Z) (es : list Event) (s : Ledger) (o target : Allocation) (c : CarriedUsage).
Context (Hb : books clock es s) (Hnow : clock <= now) (Hes : forall e, e ∈ es -> ev_at e < now).
Context (Ho : o ∈ lg_rows s) (Ht : target ∈ lg_rows s).
Context (Hfrom : cu_from c = al_id o) (Hto : cu_to c = al_id target) (Hat : cu_at c = now).
Context (Hreq : cu_requested c = al_consumed o - sharedCarriedUsage (edgesOf s) (al_id o) (al_id target)).
Context (Hcok : carried_ok (lg_carried s ++ [c])).

Definition carriedLedger : Ledger :=
  {| lg_rows := updateRow (al_id target) (consume (cu_applied c)) (lg_rows s); lg_carried := lg_carried s ++ [c]; lg_nextId := lg_nextId s |}.

Lemma carry_amounts : 0 <= cu_applied c <= cu_requested c /\ al_id o <> al_id target.
Proof using Hfrom Hto Hcok.
  assert (Hc : c ∈ lg_carried s ++ [c]) by (apply elem_of_app; right; constructor). split; [by apply (cu_amounts _ Hcok)|]. rewrite <- Hfrom, <- Hto. by apply (cu_apart _ Hcok).
Qed.

(** What a carry does to the books. *)
Lemma carry_effect : exists n, 0 <= n <= al_consumed o - heldUse s (al_id o) /\
  heldUse carriedLedger (al_id target) = heldUse s (al_id target) + cu_applied c /\
  heldUse carriedLedger (al_id o) = heldUse s (al_id o) + n /\
  (forall a, a <> al_id o -> a <> al_id target -> heldUse carriedLedger a = heldUse s a) /\
  total (rp_sizes (replayed carriedLedger)) = total (rp_sizes (replayed s)) + n /\
  (forall a t, afterUse carriedLedger a t = afterUse s a t + (if isAfter a t c then n else 0)) /\
  sharedCarriedUsage (edgesOf carriedLedger) (al_id o) (al_id target) = sharedCarriedUsage (edgesOf s) (al_id o) (al_id target) + cu_applied c.
Proof using Hb Ho Hfrom Hto Hreq Hcok.
  destruct carry_amounts as [Ham Hne]. assert (Hap : edges_apart (edgesOf s ++ [edgeOf c])).
  { pose proof (carried_apart _ Hcok) as H. by rewrite map_app in H. }
  destruct (carry_on (edgesOf s) (edgeOf c) Hap) as [n Hn]; [cbn; lia|]. destruct Hn as [N1 N2 N3 N4 N5 N6 N7].
  cbn [edgeOf ed_from ed_to ed_applied] in *. rewrite Hfrom, Hto in *.
  assert (Hrep : replayed carriedLedger = replayCarries (edgesOf s ++ [edgeOf c])) by (unfold replayed, edgesOf, carriedLedger; cbn [lg_carried]; by rewrite map_app).
  assert (Hedges : edgesOf carriedLedger = edgesOf s ++ [edgeOf c]) by (unfold edgesOf, carriedLedger; cbn [lg_carried]; by rewrite map_app).
  exists n. unfold heldUse. rewrite Hrep, Hedges. fold (replayed s) in *.
  pose proof (commonUsage_missing (heldBy (replayed s) (al_id o)) (heldBy (replayed s) (al_id target))) as Hcm.
  unfold sharedCarriedUsage in Hreq. fold (replayed s) in Hreq. pose proof (bk_held _ _ _ Hb o Ho) as Hho. unfold heldUse in Hho.
  split_and!; try done; try lia.
  - intros a H1 H2. by rewrite N4.
  - rewrite N5, total_introduce; [done|lia].
  - intros a t. unfold afterUse. rewrite Hrep, N5. unfold carriedLedger. cbn [lg_carried]. rewrite entries_snoc, portionSum_app.
    assert (Hq : forall p, qty (introduce (rp_sizes (replayed s)) (length (edgesOf s)) n) p = if decide (length (edgesOf s) = p) then n else qty (rp_sizes (replayed s)) p)
      by (intros p; apply qty_introduce; [done|lia]).
    assert (Hlen : length (edgesOf s) = length (lg_carried s)) by apply length_map.
    f_equal.
    + apply portionSum_sizes. intros x Hx. rewrite Hq, decide_False; [done|]. intros E.
      assert (Hx1 : x.1 ∈ map fst (entries (lg_carried s))) by by apply list_elem_of_fmap_2. rewrite entries_fst in Hx1. apply list_elem_of_In, in_seq in Hx1. lia.
    + unfold portionSum. cbn [map sumZ fst snd]. rewrite Hq, decide_True by done. destruct (isAfter a t c); lia.
Qed.

Lemma carried_rows r' : r' ∈ lg_rows carriedLedger -> exists r, r ∈ lg_rows s /\ al_id r' = al_id r /\
  al_consumed r' = al_consumed r + (if al_id r =? al_id target then cu_applied c else 0).
Proof using.
  intros (r & -> & Hr)%list_elem_of_fmap. exists r. destruct (_ =? _); cbn; split_and!; try done; lia.
Qed.

Lemma books_carry : books now es carriedLedger.
Proof using All.
  destruct carry_amounts as [Ham Hne]. destruct carry_effect as (n & Hn & E1 & E2 & E3 & _ & E5 & _).
  assert (Hids : map al_id (lg_rows carriedLedger) = map al_id (lg_rows s)) by by apply updateRow_ids.
  assert (Hheld : forall a, heldUse carriedLedger a = heldUse s a + (if a =? al_id target then cu_applied c else if a =? al_id o then n else 0)).
  { intros a. destruct (Z.eqb_spec a (al_id target)) as [->|]; [done|]. destruct (Z.eqb_spec a (al_id o)) as [->|]; [done|]. rewrite E3 by done. lia. }
  split; rewrite ?Hids.
  - split; [rewrite Hids; apply (bk_rows _ _ _ Hb)|]. intros r' Hr'. destruct (carried_rows r' Hr') as (r & Hr & _ & ->). pose proof (proj2 (bk_rows _ _ _ Hb) r Hr).
    destruct (_ =? _); lia.
  - intros r' Hr'. destruct (carried_rows r' Hr') as (r & Hr & -> & _). by apply (bk_ids _ _ _ Hb).
  - done.
  - unfold carriedLedger. cbn [lg_carried]. intros c' Hc'. apply elem_of_app in Hc' as [Hc'| ->%list_elem_of_singleton]; [by apply (bk_known _ _ _ Hb)|].
    rewrite Hfrom, Hto. split; by apply list_elem_of_fmap_2.
  - unfold carriedLedger. cbn [lg_carried]. intros c' Hc'. apply elem_of_app in Hc' as [Hc'| ->%list_elem_of_singleton]; [pose proof (bk_past _ _ _ Hb c' Hc')|]; lia.
  - intros e He. destruct (bk_events _ _ _ Hb e He) as (? & ? & ?). split_and!; [done|lia|done].
  - intros r' Hr'. destruct (carried_rows r' Hr') as (r & Hr & Hid & Hcons). rewrite Hid, Hheld, Hcons. pose proof (bk_held _ _ _ Hb r Hr).
    destruct (Z.eqb_spec (al_id r) (al_id target)) as [E|E]; [lia|]. destruct (Z.eqb_spec (al_id r) (al_id o)) as [Eo|Eo]; [|lia].
    assert (r = o) as -> by (by apply (NoDup_key_inj al_id (lg_rows s)); [apply (bk_rows _ _ _ Hb)| | |]). lia.
  - intros r' t Hr'. destruct (carried_rows r' Hr') as (r & Hr & Hid & Hcons). rewrite Hid, Hheld, E5, Hcons. pose proof (bk_cover _ _ _ Hb r t Hr) as Hcov.
    destruct (Z.eqb_spec (al_id r) (al_id target)) as [E|E].
    + assert (isAfter (al_id r) t c = false) as ->; [|lia]. unfold isAfter. rewrite Hfrom. replace (al_id o =? al_id r) with false by (symmetry; apply Z.eqb_neq; congruence). by rewrite andb_false_r.
    + destruct (Z.eqb_spec (al_id r) (al_id o)) as [Eo|Eo].
      * assert (r = o) as -> by (by apply (NoDup_key_inj al_id (lg_rows s)); [apply (bk_rows _ _ _ Hb)| | |]).
        unfold isAfter. rewrite Hfrom, Z.eqb_refl, andb_true_r, Hat. destruct (Z.ltb_spec t now) as [Hlt|Hge]; [lia|].
        assert (Hz : ownUse es (al_id o) t = 0).
        { unfold ownUse. apply sumZ_zeros. intros x (e & -> & He)%list_elem_of_fmap. rewrite (proj2 (Z.leb_gt t (ev_at e))); [by rewrite andb_false_r|].
          specialize (Hes e He). lia. }
        pose proof (afterUse_nonneg _ _ _ (al_id o) t Hb). lia.
      * assert (isAfter (al_id r) t c = false) as ->; [|lia]. unfold isAfter. rewrite Hfrom. replace (al_id o =? al_id r) with false by (symmetry; apply Z.eqb_neq; congruence). by rewrite andb_false_r.
Qed.

Lemma distinct_carry : distinctUse carriedLedger = distinctUse s.
Proof using Hb Ho Hfrom Hto Hreq Hcok.
  destruct carry_amounts as [Ham Hne]. destruct carry_effect as (n & Hn & E1 & E2 & E3 & E4 & _). unfold distinctUse. rewrite E4.
  assert (Hheld : forall a, heldUse carriedLedger a = heldUse s a + (if a =? al_id target then cu_applied c else if a =? al_id o then n else 0)).
  { intros a. destruct (Z.eqb_spec a (al_id target)) as [->|]; [done|]. destruct (Z.eqb_spec a (al_id o)) as [->|]; [done|]. rewrite E3 by done. lia. }
  assert (Hsum : sumZ (map (fun r => al_consumed r - heldUse carriedLedger (al_id r)) (lg_rows carriedLedger)) =
    sumZ (map (fun r => al_consumed r - heldUse s (al_id r)) (lg_rows s)) + sumZ (map (fun r => if al_id r =? al_id o then - n else 0) (lg_rows s))).
  { rewrite <- sumZ_map_add. unfold carriedLedger at 2. cbn [lg_rows]. unfold updateRow. rewrite map_map. f_equal. apply map_ext. intros r.
    destruct (Z.eqb_spec (al_id r) (al_id target)) as [E|E].
    - cbn [consume with_quantities al_id al_consumed]. rewrite Hheld, E, Z.eqb_refl. rewrite (proj2 (Z.eqb_neq _ _)) by congruence. lia.
    - rewrite Hheld, (proj2 (Z.eqb_neq (al_id r) (al_id target))) by done. destruct (_ =? _); lia. }
  rewrite Hsum, sum_at; [lia|apply (bk_rows _ _ _ Hb)|by apply list_elem_of_fmap_2].
Qed.
End CarryStep.

(** ** The carries of a switch *)

Lemma carried_tail c l : carried_ok (c :: l) -> carried_ok l.
Proof.
  intros H. split.
  - by apply (StronglySorted_inv (cu_sorted _ H)).
  - pose proof (cu_keys _ H) as Hk. cbn in Hk. by apply NoDup_cons in Hk as [_ ?].
  - by apply (StronglySorted_inv (cu_time _ H)).
  - intros c' Hc'. apply (cu_apart _ H). by constructor.
  - intros c' Hc'. apply (cu_amounts _ H). by constructor.
Qed.

Lemma carriedUsageEdges_sorted s : carried_ok (lg_carried s) -> carriedUsageEdges s = filter (fun e => 0 < ed_applied e) (edgesOf s).
Proof.
  intros H. unfold carriedUsageEdges, edgesOf. rewrite carried_sortBy by (apply sorted_filter, (cu_sorted _ H)).
  induction (lg_carried s) as [|c l IH]; [done|]. cbn [List.filter map]. rewrite filter_cons. cbn [edgeOf ed_applied].
  destruct (Z.ltb_spec 0 (cu_applied c)) as [Hp|Hz].
  - rewrite decide_True by done. cbn [map]. f_equal. by apply IH, (carried_tail c).
  - rewrite decide_False by lia. by apply IH, (carried_tail c).
Qed.

Definition moved (e : CarriedUsageEdge) : Prop := 0 < ed_applied e.
#[export] Instance moved_dec e : Decision (moved e). Proof. unfold moved. apply _. Defined.

Lemma shared_moved edges edges' a b : filter moved edges = filter moved edges' -> sharedCarriedUsage edges a b = sharedCarriedUsage edges' a b.
Proof.
  intros E. rewrite <- (shared_skips_empty edges), <- (shared_skips_empty edges').
  change (sharedCarriedUsage (filter moved edges) a b = sharedCarriedUsage (filter moved edges') a b). by rewrite E.
Qed.

Lemma usageTarget_spec items input now rows o target : usageTarget items input now rows o = Some target ->
  target ∈ rows /\ ofVersion items (in_incoming input) target = true /\ al_feature target = al_feature o /\ al_entity target = al_entity o /\
  funded now target = true /\ covers now target = true /\ al_source target = source_subscription.
Proof.
  unfold usageTarget. intros E. assert (Hin : target ∈ sortBy byId (List.filter (fun r => ofVersion items (in_incoming input) r &&
    bool_decide (al_source r = source_subscription) && (al_feature r =? al_feature o) && bool_decide (al_entity r = al_entity o) && funded now r && covers now r) rows)).
  { destruct (sortBy _ _); [done|]. injection E as ->. constructor. }
  rewrite sortBy_perm in Hin. apply list_elem_of_In, filter_In in Hin as [Hin%list_elem_of_In Hp]. rewrite !andb_true_iff, !bool_decide_eq_true, Z.eqb_eq in Hp. tauto.
Qed.

Lemma ofVersion_unique items v v' r : ofVersion items v r = true -> ofVersion items v' r = true -> v = v'.
Proof.
  unfold ofVersion. rewrite !bool_decide_eq_true. unfold versionItem. intros [it H] [it' H']. destruct (al_item r); [|done]. cbn in *.
  destruct (List.find _ items) as [c|]; [|done]. cbn in *. destruct (Z.eqb_spec (it_version (ci_item c)) v), (Z.eqb_spec (it_version (ci_item c)) v'); congruence.
Qed.

(** The carries of another change come first. *)
Definition later_change (input : CarryOverInput) (c : CarriedUsage) : Prop :=
  cu_change c <> in_change input /\ (cu_change_at c < in_change_at input \/ cu_change_at c = in_change_at input /\ cu_change c < in_change input).

Section CarryLoop.
Context (items : list CatalogItem) (input : CarryOverInput) (clock now : Z) (es : list Event).
Context (Hversions : in_outgoing input <> in_incoming input) (Hnow : clock <= now) (Hes : forall e, e ∈ es -> ev_at e < now).

(** The row a carry records. *)
Definition carriedRow (edges : list CarriedUsageEdge) (o target : Allocation) : CarriedUsage :=
  let requested := al_consumed o - sharedCarriedUsage edges (al_id o) (al_id target) in
  {| cu_change_at := in_change_at input; cu_change := in_change input; cu_from := al_id o; cu_to := al_id target;
     cu_requested := requested; cu_applied := Z.min requested (room target); cu_at := now |}.

Lemma carryUsage_cases s edges o : 
  match usageTarget items input now (lg_rows s) o with
  | None => carryUsage items input now (s, edges) o = (s, edges)
  | Some target =>
      if al_consumed o <=? sharedCarriedUsage edges (al_id o) (al_id target) then carryUsage items input now (s, edges) o = (s, edges)
      else carriedTaken s (in_change input) (al_id o) = false ->
        carryUsage items input now (s, edges) o = (carriedLedger s target (carriedRow edges o target), edges ++ [edgeOf (carriedRow edges o target)])
  end.
Proof using.
  unfold carryUsage. destruct (usageTarget items input now (lg_rows s) o) as [target|]; [|done].
  destruct (Z.leb_spec (al_consumed o) (sharedCarriedUsage edges (al_id o) (al_id target))) as [Hle|Hlt].
  - by rewrite (proj2 (Z.ltb_ge _ _)).
  - rewrite (proj2 (Z.ltb_lt _ _)) by done. rewrite (proj2 (Z.eqb_neq _ _)) by lia. intros ->.
    assert (Hm : (if al_consumed o - sharedCarriedUsage edges (al_id o) (al_id target) <? room target
      then al_consumed o - sharedCarriedUsage edges (al_id o) (al_id target) else room target) =
      Z.min (al_consumed o - sharedCarriedUsage edges (al_id o) (al_id target)) (room target)) by (destruct (Z.ltb_spec (al_consumed o - sharedCarriedUsage edges (al_id o) (al_id target)) (room target)); lia).
    rewrite Hm. unfold carriedLedger, carriedRow. cbn [cu_applied]. f_equal. f_equal.
    destruct (Z.ltb_spec 0 (Z.min (al_consumed o - sharedCarriedUsage edges (al_id o) (al_id target)) (room target))) as [Hp|Hz]; [done|].
    assert (E : Z.min (al_consumed o - sharedCarriedUsage edges (al_id o) (al_id target)) (room target) = 0) by (unfold room in *; lia).
    rewrite E. unfold updateRow. rewrite <- (map_id (lg_rows s)) at 1. apply map_ext. intros r. destruct (_ =? _); [|done]. by rewrite consume_0.
Qed.

Record loop_ok (os : list Allocation) (s : Ledger) (edges : list CarriedUsageEdge) : Prop := {
  lo_books : books now es s;
  lo_edges : filter moved edges = filter moved (edgesOf s);
  lo_origins : forall o, o ∈ os -> o ∈ lg_rows s /\ ofVersion items (in_outgoing input) o = true;
  lo_sorted : StronglySorted (fun o o' => al_id o < al_id o') os;
  lo_carried : forall c, c ∈ lg_carried s -> later_change input c \/
    (cu_change c = in_change input /\ cu_change_at c = in_change_at input /\ cu_at c <= now /\ forall o, o ∈ os -> cu_from c < al_id o) }.

Lemma carried_snoc l c : carried_ok l -> (forall c', c' ∈ l -> carriedBefore c' c = true /\ carriedKey c' <> carriedKey c /\ cu_at c' <= cu_at c) ->
  cu_from c <> cu_to c -> 0 <= cu_applied c <= cu_requested c -> carried_ok (l ++ [c]).
Proof using.
  intros H Hc Hne Ham. assert (Hs : forall (R : CarriedUsage -> CarriedUsage -> Prop), StronglySorted R l -> (forall c', c' ∈ l -> R c' c) -> StronglySorted R (l ++ [c])).
  { intros R HR Hl. clear -HR Hl. induction HR as [|x l' _ IH Hx]; [repeat constructor|]. cbn. constructor.
    - apply IH. intros c' Hc'. apply Hl. by constructor.
    - apply Forall_app. split; [done|]. repeat constructor. apply Hl. constructor. }
  split.
  - apply Hs; [apply (cu_sorted _ H)|]. intros c' Hc'. by apply Hc.
  - rewrite map_app. apply NoDup_app. split_and!; [apply (cu_keys _ H)| |apply NoDup_singleton]. intros k (c' & -> & Hc')%list_elem_of_fmap E%list_elem_of_singleton.
    destruct (Hc c' Hc') as (_ & Hk & _). by apply Hk.
  - apply Hs; [apply (cu_time _ H)|]. intros c' Hc'. by apply Hc.
  - intros c' Hc'. apply elem_of_app in Hc' as [Hc'| ->%list_elem_of_singleton]; [by apply (cu_apart _ H)|done].
  - intros c' Hc'. apply elem_of_app in Hc' as [Hc'| ->%list_elem_of_singleton]; [by apply (cu_amounts _ H)|done].
Qed.

(** What a carry needs holds in the loop. *)
Lemma carriedRow_ok o os s edges target : loop_ok (o :: os) s edges -> usageTarget items input now (lg_rows s) o = Some target ->
  sharedCarriedUsage edges (al_id o) (al_id target) < al_consumed o ->
  carriedTaken s (in_change input) (al_id o) = false /\ al_id o <> al_id target /\
  cu_requested (carriedRow edges o target) = al_consumed o - sharedCarriedUsage (edgesOf s) (al_id o) (al_id target) /\
  carried_ok (lg_carried s ++ [carriedRow edges o target]).
Proof using Hversions Hnow.
  intros H Ht Hlt. destruct (usageTarget_spec _ _ _ _ _ _ Ht) as (Hin & Hv & _). destruct (lo_origins _ _ _ H o ltac:(constructor)) as [Ho Hvo].
  assert (Hne : al_id o <> al_id target).
  { intros E. assert (o = target) as -> by (by apply (NoDup_key_inj al_id (lg_rows s)); [apply (bk_rows _ _ _ (lo_books _ _ _ H))| | |]).
    by apply Hversions, (ofVersion_unique items _ _ target). }
  assert (Hold : forall c, c ∈ lg_carried s -> carriedBefore c (carriedRow edges o target) = true /\ carriedKey c <> carriedKey (carriedRow edges o target) /\ cu_at c <= now).
  { intros c Hc. pose proof (bk_past _ _ _ (lo_books _ _ _ H) c Hc). unfold carriedBefore, carriedKey. cbn.
    destruct (lo_carried _ _ _ H c Hc) as [[H1 H2]|(H1 & H2 & H3 & H4)].
    - split; [|split; [congruence|done] ]. destruct H2 as [H2|[H2 H3] ].
      + by rewrite (proj2 (Z.ltb_lt _ _) H2).
      + rewrite (proj2 (Z.eqb_eq _ _) H2), (proj2 (Z.ltb_lt _ _) H3). cbn. apply orb_true_r.
    - specialize (H4 o ltac:(constructor)). split; [|split; [intros [= ?]; lia|done] ].
      rewrite (proj2 (Z.eqb_eq _ _) H1), (proj2 (Z.eqb_eq _ _) H2), (proj2 (Z.ltb_lt _ _) H4). cbn. rewrite !orb_true_r. done. }
  rewrite (shared_moved _ _ _ _ (lo_edges _ _ _ H)) in Hlt. split_and!; [|done| |].
  - unfold carriedTaken. apply not_true_is_false. intros (c & Hc%list_elem_of_In & [E1%Z.eqb_eq E2%Z.eqb_eq]%andb_true_iff)%existsb_exists.
    destruct (Hold c Hc) as (_ & Hk & _). apply Hk. unfold carriedKey. cbn. congruence.
  - unfold carriedRow. cbn [cu_requested]. by rewrite (shared_moved _ _ _ _ (lo_edges _ _ _ H)).
  - apply carried_snoc; [apply (bk_carried _ _ _ (lo_books _ _ _ H))|exact Hold|done|]. unfold carriedRow. cbn [cu_applied cu_requested].
    rewrite (shared_moved _ _ _ _ (lo_edges _ _ _ H)). unfold room. lia.
Qed.

Lemma loop_step o os s edges : loop_ok (o :: os) s edges ->
  loop_ok os (carryUsage items input now (s, edges) o).1 (carryUsage items input now (s, edges) o).2 /\
  distinctUse (carryUsage items input now (s, edges) o).1 = distinctUse s.
Proof using Hversions Hnow Hes.
  intros H. assert (Hskip : loop_ok os s edges).
  { destruct H as [H1 H2 H3 H4 H5]. split; try done; [intros o' Ho'; apply (H3 o' ltac:(by constructor))|apply (StronglySorted_inv H4)|].
    intros c Hc. destruct (H5 c Hc) as [?|(? & ? & ? & H6)]; [by left|right; split_and!; try done]. intros o' Ho'. apply H6. by constructor. }
  pose proof (carryUsage_cases s edges o) as Hcase. destruct (usageTarget items input now (lg_rows s) o) as [target|] eqn:Et; [|by rewrite Hcase].
  destruct (Z.leb_spec (al_consumed o) (sharedCarriedUsage edges (al_id o) (al_id target))) as [Hle|Hlt]; [by rewrite Hcase|].
  destruct (carriedRow_ok o os s edges target H Et Hlt) as (Htk & Hne & Hreq & Hcok). rewrite (Hcase Htk). cbn [fst snd].
  destruct (lo_origins _ _ _ H o ltac:(constructor)) as [Ho Hvo]. destruct (usageTarget_spec _ _ _ _ _ _ Et) as (Hin & Hv & _).
  pose proof (lo_books _ _ _ H) as Hb. split.
  - split.
    + by apply (books_carry now now es s o target).
    + rewrite filter_app, (lo_edges _ _ _ H). unfold edgesOf, carriedLedger. cbn [lg_carried]. by rewrite map_app, filter_app.
    + intros o' Ho'. destruct (lo_origins _ _ _ Hskip o' Ho') as [Hin' Hvo']. split; [|done]. unfold carriedLedger. cbn [lg_rows]. unfold updateRow. apply list_elem_of_fmap. exists o'.
      rewrite (proj2 (Z.eqb_neq _ _)); [done|]. intros E. assert (o' = target) as -> by (by apply (NoDup_key_inj al_id (lg_rows s)); [apply (bk_rows _ _ _ Hb)| | |]).
      by apply Hversions, (ofVersion_unique items _ _ target).
    + apply (lo_sorted _ _ _ Hskip).
    + unfold carriedLedger. cbn [lg_carried]. intros c Hc. apply elem_of_app in Hc as [Hc| ->%list_elem_of_singleton]; [by apply (lo_carried _ _ _ Hskip)|].
      right. split_and!; try done. intros o' Ho'. pose proof (StronglySorted_inv (lo_sorted _ _ _ H)) as [_ Hf]. rewrite Forall_forall in Hf. by apply Hf.
  - by apply (distinct_carry now es s o target).
Qed.

Lemma loop_all os : forall s edges, loop_ok os s edges ->
  books now es (fold_left (carryUsage items input now) os (s, edges)).1 /\ distinctUse (fold_left (carryUsage items input now) os (s, edges)).1 = distinctUse s.
Proof using Hversions Hnow Hes.
  induction os as [|o os IH]; intros s edges H; [split; [apply (lo_books _ _ _ H)|done]|]. destruct (loop_step o os s edges H) as [H1 H2]. cbn [fold_left].
  destruct (carryUsage items input now (s, edges) o) as [s1 edges1]. cbn [fst snd] in *. destruct (IH s1 edges1 H1) as [I1 I2]. split; [done|by rewrite I2].
Qed.

Lemma sortById_sorted (l : list Allocation) : NoDup (map al_id l) -> StronglySorted (fun o o' => al_id o < al_id o') (sortBy byId l).
Proof using.
  intros Hnd. assert (Hs : StronglySorted (inOrder byId) (sortBy byId l)).
  { apply sortBy_sorted; unfold byId, inOrder; [intros x y ?%Z.ltb_lt; apply Z.ltb_ge; lia|intros x y z ?%Z.ltb_ge ?%Z.ltb_ge; apply Z.ltb_ge; lia]. }
  assert (Hnd' : NoDup (map al_id (sortBy byId l))) by (by rewrite (sortBy_perm byId l)). revert Hs Hnd'. generalize (sortBy byId l) as k. clear.
  induction 1 as [|x k Hk IH Hx]; [constructor|]. cbn. intros [Hn Hnd]%NoDup_cons. constructor; [by apply IH|]. rewrite Forall_forall in *. intros y Hy. specialize (Hx y Hy).
  unfold inOrder, byId in Hx. apply Z.ltb_ge in Hx. assert (al_id x <> al_id y); [|lia]. intros E. apply Hn. rewrite E. by apply list_elem_of_fmap_2.
Qed.

Lemma carryOverUsage_books s : books clock es s -> (forall c, c ∈ lg_carried s -> later_change input c) ->
  books now es (carryOverUsage items input now s) /\ distinctUse (carryOverUsage items input now s) = distinctUse s.
Proof using Hversions Hnow Hes.
  intros Hb Hl. unfold carryOverUsage. apply loop_all. split.
  - destruct Hb as [B1 B2 B3 B4 B5 B6 B7 B8]. split; try done; [intros c Hc; specialize (B5 c Hc); lia|]. intros e He. destruct (B6 e He) as (? & ? & ?). split_and!; [done|lia|done].
  - rewrite (carriedUsageEdges_sorted s (bk_carried _ _ _ Hb)). change (filter (fun e => 0 < ed_applied e) (edgesOf s)) with (filter moved (edgesOf s)).
    induction (edgesOf s) as [|e l IH]; [done|]. rewrite filter_cons. destruct (decide (moved e)) as [Hm|Hm]; [|done]. rewrite filter_cons, decide_True by done. by rewrite IH.
  - intros o Ho. rewrite sortBy_perm in Ho. apply list_elem_of_In, filter_In in Ho as [Ho%list_elem_of_In Hp]. split; [done|]. unfold usageOrigin in Hp. rewrite !andb_true_iff in Hp. tauto.
  - apply sortById_sorted. apply NoDup_filter_key, (bk_rows _ _ _ Hb).
  - intros c Hc. left. by apply Hl.
Qed.
End CarryLoop.

(** ** The whole switch *)

Lemma distinct_rows s f : (forall r, al_id (f r) = al_id r /\ al_consumed (f r) = al_consumed r) -> distinctUse (with_rows s (map f (lg_rows s))) = distinctUse s.
Proof.
  intros Hf. unfold distinctUse. cbn [lg_rows with_rows]. f_equal. rewrite map_map. f_equal. apply map_ext. intros r. by rewrite (proj1 (Hf r)), (proj2 (Hf r)).
Qed.

Lemma books_later clock clock' es s : books clock es s -> clock <= clock' -> books clock' es s.
Proof.
  intros H Hc. assert (E : s = with_rows s (map id (lg_rows s))) by (rewrite map_id; by destruct s). rewrite E. by apply (books_rows clock).
Qed.

Lemma books_skip clock es s n : books clock es s -> lg_nextId s <= n ->
  books clock es {| lg_rows := lg_rows s; lg_carried := lg_carried s; lg_nextId := n |}.
Proof. intros [A B C D E F G H] Hn. split; cbn; try done. intros r Hr. specialize (B r Hr). lia. Qed.

Lemma books_new clock es s s' r : books clock es s -> lg_carried s' = lg_carried s -> lg_rows s' = lg_rows s ++ [r] -> al_id r = lg_nextId s -> al_consumed r = 0 ->
  lg_nextId s' = lg_nextId s + 1 -> books clock es s' /\ distinctUse s' = distinctUse s.
Proof.
  intros H Hc Hrows Hid Hcons Hnext. assert (Hfresh : al_id r ∉ map al_id (lg_rows s)).
  { intros (r' & E & Hr')%list_elem_of_fmap. pose proof (bk_ids _ _ _ H r' Hr'). lia. }
  split.
  - apply (books_update clock _ es _ s); rewrite ?Hrows; try done.
    + destruct (bk_rows _ _ _ H) as [Hnd Hcs]. split.
      * rewrite map_app. apply NoDup_app. split_and!; [done| |apply NoDup_singleton]. intros a Ha ->%list_elem_of_singleton. done.
      * intros r' Hr'. apply elem_of_app in Hr' as [Hr'| ->%list_elem_of_singleton]; [auto|lia].
    + intros r' Hr'. rewrite Hnext. apply elem_of_app in Hr' as [Hr'| ->%list_elem_of_singleton]; [pose proof (bk_ids _ _ _ H r' Hr')|]; lia.
    + intros r' Hr'. rewrite map_app. apply elem_of_app. left. by apply list_elem_of_fmap_2.
    + intros e He. destruct (bk_events _ _ _ H e He) as (? & ? & ?). split_and!; try done. rewrite map_app. apply elem_of_app. by left.
    + intros r' Hr'. apply elem_of_app in Hr' as [Hr'| ->%list_elem_of_singleton].
      * left. exists r'. split_and!; [done|done|lia|intros; lia].
      * right. split; [done|]. intros t. rewrite ownUse_none; [done|]. intros e He E. destruct (bk_events _ _ _ H e He) as (_ & _ & Hk). by rewrite E in Hk.
  - unfold distinctUse, replayed, edgesOf. rewrite Hc. f_equal. rewrite Hrows, map_app, sumZ_app. cbn [map sumZ].
    rewrite Hcons. pose proof (heldUse_same s s' (al_id r) Hc) as Hh. rewrite Hh, (heldUse_fresh _ _ _ _ H Hfresh). cbn. rewrite Z.add_0_r.
    f_equal. apply map_ext. intros r'. by rewrite (heldUse_same s s' _ Hc).
Qed.

Lemma carryBalance_books items input now clock es s origin s' : books clock es s -> carryBalance items input now s origin = Ok s' ->
  books clock es s' /\ distinctUse s' = distinctUse s /\ lg_carried s' = lg_carried s.
Proof.
  intros H. unfold carryBalance. destruct (_ <=? 0); [by intros [= <-]|]. destruct (carriedExpiry _ _ _ _) as [expiresAt|]; [|done]. cbn [mbind result_bind].
  destruct (carryKeyTaken _ _ _ _); [intros [= <-]|destruct (carriedAlready _ _); [done|intros [= <-] ] ].
  - split; [|split; done]. apply (books_update clock _ es _ s); cbn [lg_rows lg_carried lg_nextId]; try done.
    + apply (bk_rows _ _ _ H).
    + intros r Hr. pose proof (bk_ids _ _ _ H r Hr). lia.
    + intros r Hr. by apply list_elem_of_fmap_2.
    + apply (bk_events _ _ _ H).
    + intros r' Hr'. left. exists r'. split_and!; [done|done|lia|intros; lia].
  - match goal with |- books _ _ ?x /\ _ => destruct (books_new clock es s x _ H eq_refl eq_refl eq_refl eq_refl eq_refl) as [H1 H2] end. by split_and!.
Qed.

Lemma carryOverBalances_books items input now clock es s s' : books clock es s -> carryOverBalances items input now s = Ok s' ->
  books clock es s' /\ distinctUse s' = distinctUse s /\ lg_carried s' = lg_carried s.
Proof.
  unfold carryOverBalances. generalize (sortBy byId (List.filter (balanceOrigin items input now) (lg_rows s))) as os. intros os. revert s.
  induction os as [|o os IH]; intros s H; [by intros [= <-]|]. cbn [foldM]. destruct (carryBalance items input now s o) as [s1|] eqn:E; [|done].
  destruct (carryBalance_books _ _ _ _ _ _ _ _ H E) as (H1 & H2 & H3). intros Hf. destruct (IH s1 H1 Hf) as (I1 & I2 & I3). split_and!; [done|by rewrite I2|by rewrite I3].
Qed.

Lemma resume_books items nc incoming now clock es s : books clock es s ->
  books clock es (resumeReturningAllowances items nc incoming now s) /\ distinctUse (resumeReturningAllowances items nc incoming now s) = distinctUse s /\
  lg_carried (resumeReturningAllowances items nc incoming now s) = lg_carried s.
Proof.
  intros H. unfold resumeReturningAllowances. cbv zeta. rewrite map_map.
  match goal with |- books _ _ (with_rows _ (map ?g _)) /\ _ => assert (Hg : forall r, al_id (g r) = al_id r /\ al_consumed (g r) = al_consumed r) end.
  { intros r. cbv beta. unfold returnCarry. destruct (reopens _ _ _ _ _ r), (carryEnds _ _ _); try done; match goal with |- context [List.find ?p ?l] => by destruct (List.find p l) end. }
  split; [by apply (books_rows clock)|]. split; [by apply distinct_rows|done].
Qed.

Lemma end_books items outgoing now clock es s : books clock es s ->
  books clock es (endOutgoingPlanAllowances items outgoing now s) /\ distinctUse (endOutgoingPlanAllowances items outgoing now s) = distinctUse s.
Proof.
  intros H. unfold endOutgoingPlanAllowances. match goal with |- books _ _ (with_rows _ (map ?g _)) /\ _ => assert (Hg : forall r, al_id (g r) = al_id r /\ al_consumed (g r) = al_consumed r) end.
  { intros r. by destruct (_ && _ && _). }
  split; [by apply (books_rows clock)|by apply distinct_rows].
Qed.

Lemma switch_books items nc carries input clock now es s s' : books clock es s -> clock <= now -> (forall e, e ∈ es -> ev_at e < now) ->
  in_outgoing input <> in_incoming input -> (forall c, c ∈ lg_carried s -> later_change input c) ->
  switchVersion items nc carries input now s = Ok s' -> books now es s' /\ distinctUse s' = distinctUse s.
Proof.
  intros H Hc Hes Hv Hl. unfold switchVersion. destruct (resume_books items nc (in_incoming input) now clock es s H) as (R1 & R2 & R3).
  set (s1 := resumeReturningAllowances _ _ _ _ _) in *. clearbody s1. rewrite <- R3 in Hl.
  destruct carries.
  - unfold carryOverAllowances. assert (Hbal : forall s2, (if bool_decide (in_balances input = []) then Ok s1 else carryOverBalances items input now s1) = Ok s2 ->
      books clock es s2 /\ distinctUse s2 = distinctUse s1 /\ lg_carried s2 = lg_carried s1).
    { intros s2. destruct (bool_decide _); [by intros [= <-]|]. by apply carryOverBalances_books. }
    destruct (if bool_decide (in_balances input = []) then _ else _) as [s2|]; [|done]. destruct (Hbal s2 eq_refl) as (B1 & B2 & B3). cbn [mbind result_bind].
    rewrite <- B3 in Hl. destruct (bool_decide (in_usages input = [])); intros [= <-].
    + destruct (end_books items (in_outgoing input) now now es s2 (books_later _ _ _ _ B1 Hc)) as [E1 E2]. split; [done|congruence].
    + destruct (carryOverUsage_books items input clock now es Hv Hc Hes s2 B1 Hl) as [U1 U2].
      destruct (end_books items (in_outgoing input) now now es _ U1) as [E1 E2]. split; [done|congruence].
  - cbn [mbind result_bind]. intros [= <-]. destruct (end_books items (in_outgoing input) now now es s1 (books_later _ _ _ _ R1 Hc)) as [E1 E2]. split; [done|congruence].
Qed.

(** ** A correction *)

Definition lessLeft (e : Event) (q : Z) : Event := {| ev_alloc := ev_alloc e; ev_at := ev_at e; ev_left := ev_left e - q |}.

Lemma ownUse_less es i e q a t : es !! i = Some e ->
  ownUse (<[i := lessLeft e q]> es) a t = ownUse es a t - (if (ev_alloc e =? a) && (t <=? ev_at e) then q else 0).
Proof.
  revert i. unfold ownUse. induction es as [|e0 es IH]; intros [|i]; try done.
  - intros [= ->]. cbn [map sumZ insert list_insert lessLeft ev_alloc ev_at ev_left]. destruct ((ev_alloc e =? a) && (t <=? ev_at e)); lia.
  - intros H. change (<[S i := lessLeft e q]> (e0 :: es)) with (e0 :: <[i := lessLeft e q]> es). cbn [map sumZ]. rewrite (IH i H). lia.
Qed.

Lemma ownUse_later es i e a t : es !! i = Some e -> (forall e', e' ∈ es -> 0 <= ev_left e') -> ev_alloc e = a -> ev_at e < t ->
  ownUse es a t + ev_left e <= ownUse es a (ev_at e).
Proof.
  revert i. unfold ownUse. induction es as [|e0 es IH]; intros [|i]; cbn [map sumZ lookup list_lookup]; try done; intros Hi Hpos Ha Ht.
  - injection Hi as ->. rewrite Ha, Z.eqb_refl. rewrite (proj2 (Z.leb_gt _ _)), Z.leb_refl by done. cbn [andb].
    assert (sumZ (map (fun e' => if (ev_alloc e' =? a) && (t <=? ev_at e') then ev_left e' else 0) es) <=
      sumZ (map (fun e' => if (ev_alloc e' =? a) && (ev_at e <=? ev_at e') then ev_left e' else 0) es)); [|lia].
    apply sumZ_map_le. intros e' He'. assert (0 <= ev_left e') by (apply Hpos; by constructor).
    destruct (ev_alloc e' =? a), (Z.leb_spec t (ev_at e')), (Z.leb_spec (ev_at e) (ev_at e')); cbn; lia.
  - assert (0 <= ev_left e0) by (apply Hpos; constructor). assert (Hpos' : forall e', e' ∈ es -> 0 <= ev_left e') by (intros e' He'; apply Hpos; by constructor).
    specialize (IH i Hi Hpos' Ha Ht). destruct (ev_alloc e0 =? a), (Z.leb_spec t (ev_at e0)), (Z.leb_spec (ev_at e) (ev_at e0)); cbn [andb]; lia.
Qed.

Lemma ownUse_here es i e : es !! i = Some e -> (forall e', e' ∈ es -> 0 <= ev_left e') -> ev_left e <= ownUse es (ev_alloc e) (ev_at e).
Proof.
  revert i. unfold ownUse. induction es as [|e0 es IH]; intros [|i]; cbn [map sumZ lookup list_lookup]; try done; intros Hi Hpos.
  - injection Hi as ->. rewrite Z.eqb_refl, Z.leb_refl. cbn [andb].
    assert (0 <= sumZ (map (fun e' => if (ev_alloc e' =? ev_alloc e) && (ev_at e <=? ev_at e') then ev_left e' else 0) es)); [|lia].
    apply sumZ_nonneg, Forall_forall. intros x (e' & -> & He')%list_elem_of_fmap. assert (0 <= ev_left e') by (apply Hpos; by constructor). destruct (_ && _); lia.
  - assert (0 <= ev_left e0) by (apply Hpos; constructor). assert (Hpos' : forall e', e' ∈ es -> 0 <= ev_left e') by (intros e' He'; apply Hpos; by constructor).
    specialize (IH i Hi Hpos'). destruct (_ && _); lia.
Qed.

(** Rows whose consumption fell by [dec]. *)
Definition fallen (dec : Z -> Z) (rows rows' : list Allocation) : Prop :=
  Forall2 (fun r r' => al_id r' = al_id r /\ al_consumed r' = al_consumed r - dec (al_id r)) rows rows'.

Lemma fallen_lowered dec rows : fallen dec rows (lowered dec rows).
Proof. induction rows as [|r rows IH]; constructor; [cbn; lia|done]. Qed.

Lemma fallen_update id f rows : (forall r, al_id (f r) = al_id r /\ al_consumed (f r) = al_consumed r) -> fallen (fun _ => 0) rows (updateRow id f rows).
Proof.
  intros H. induction rows as [|r rows IH]; constructor; [|done]. destruct (_ =? _); [destruct (H r) as [-> ->]|]; split; try done; lia.
Qed.

Lemma fallen_ids dec rows rows' : fallen dec rows rows' -> map al_id rows' = map al_id rows.
Proof. induction 1 as [|r r' rows rows' [E _] _ IH]; [done|]. cbn. by rewrite E, IH. Qed.

Lemma fallen_elem dec rows rows' r' : fallen dec rows rows' -> r' ∈ rows' -> exists r, r ∈ rows /\ al_id r' = al_id r /\ al_consumed r' = al_consumed r - dec (al_id r).
Proof.
  induction 1 as [|r0 r0' rows rows' [E1 E2] _ IH]; [by intros ?%elem_of_nil|]. intros [->|Hr']%elem_of_cons; [exists r0; split_and!; [constructor|done|done]|].
  destruct (IH Hr') as (r & ? & ? & ?). exists r. split_and!; [by constructor|done|done].
Qed.

Lemma fallen_sum dec rows rows' (f : Z -> Z) : fallen dec rows rows' ->
  sumZ (map (fun r => al_consumed r - f (al_id r)) rows') = sumZ (map (fun r => al_consumed r - f (al_id r)) rows) - sumZ (map (fun r => dec (al_id r)) rows).
Proof. induction 1 as [|r r' rows rows' [E1 E2] _ IH]; [done|]. cbn [map sumZ]. rewrite E1, E2. lia. Qed.

Section Correction.
Context (clock clk : Z) (es : list Event) (s : Ledger) (i : nat) (e : Event) (q : Z).
Context (Hb : books clock es s) (Hclk : clock <= clk) (Hi : es !! i = Some e) (Hq : 0 < q <= ev_left e).

Definition source : Z := ev_alloc e.
Definition correctedEvents : list Event := <[i := lessLeft e q]> es.

Lemma events_nonneg e' : e' ∈ es -> 0 <= ev_left e'.
Proof using Hb. intros H. by apply (bk_events _ _ _ Hb). Qed.

Lemma corrected_events ids : ids = map al_id (lg_rows s) -> forall e', e' ∈ correctedEvents -> 0 <= ev_left e' /\ ev_at e' <= clk /\ ev_alloc e' ∈ ids.
Proof using Hb Hclk Hi Hq.
  intros -> e' He'. apply list_elem_of_lookup in He' as [j He']. unfold correctedEvents in He'. destruct (decide (i = j)) as [<-|Hne].
  - rewrite list_lookup_insert_eq in He' by (by apply lookup_lt_Some in Hi). injection He' as <-. cbn. apply list_elem_of_lookup_2 in Hi.
    destruct (bk_events _ _ _ Hb e Hi) as (? & ? & ?). split_and!; [lia|lia|done].
  - rewrite list_lookup_insert_ne in He' by done. apply list_elem_of_lookup_2 in He'. destruct (bk_events _ _ _ Hb e' He') as (? & ? & ?). split_and!; [done|lia|done].
Qed.

(** The event's use is in later portions or was never carried. *)
Lemma event_covered r : r ∈ lg_rows s -> al_id r = source -> q <= al_consumed r - heldUse s source + afterUse s source (ev_at e).
Proof using Hb Hi Hq.
  intros Hr Hid. pose proof (bk_cover _ _ _ Hb r (ev_at e) Hr) as Hc. rewrite Hid in Hc. pose proof (ownUse_here es i e Hi events_nonneg). unfold source in *. lia.
Qed.

(** A correction of use that no carry took. *)
Lemma books_uncarried s' dec : lg_carried s' = lg_carried s -> lg_nextId s' = lg_nextId s -> fallen dec (lg_rows s) (lg_rows s') ->
  0 <= dec source <= q -> (forall b, b <> source -> dec b = 0) -> dec source = 0 \/ afterUse s source (ev_at e) = 0 -> books clk correctedEvents s'.
Proof using Hb Hclk Hi Hq.
  intros Hc Hn Hf Hd Hz Hor. pose proof (fallen_ids _ _ _ Hf) as Hids. pose proof (fun a => heldUse_same s s' a Hc) as Hh. pose proof (fun a t => afterUse_same s s' a t Hc) as Ha.
  assert (Hheld : forall r, r ∈ lg_rows s -> heldUse s (al_id r) <= al_consumed r - dec (al_id r)).
  { intros r Hr. pose proof (bk_held _ _ _ Hb r Hr). destruct (decide (al_id r = source)) as [E|E]; [|rewrite (Hz _ E); lia].
    pose proof (event_covered r Hr E). rewrite E in *. destruct Hor as [->|Haf]; [lia|]. lia. }
  assert (Hhn : forall a, 0 <= heldUse s a) by (intros a; apply total_nonneg, (ro_holdings _ _ (replayed_ok _ _ _ Hb))).
  split; rewrite ?Hc, ?Hids.
  - split; [rewrite Hids; apply (bk_rows _ _ _ Hb)|]. intros r' Hr'. destruct (fallen_elem _ _ _ _ Hf Hr') as (r & Hr & _ & ->). specialize (Hheld r Hr). specialize (Hhn (al_id r)). lia.
  - intros r' Hr'. rewrite Hn. destruct (fallen_elem _ _ _ _ Hf Hr') as (r & Hr & -> & _). by apply (bk_ids _ _ _ Hb).
  - apply (bk_carried _ _ _ Hb).
  - apply (bk_known _ _ _ Hb).
  - intros c Hcc. pose proof (bk_past _ _ _ Hb c Hcc). lia.
  - by apply corrected_events.
  - intros r' Hr'. destruct (fallen_elem _ _ _ _ Hf Hr') as (r & Hr & -> & ->). rewrite Hh. by apply Hheld.
  - intros r' t Hr'. destruct (fallen_elem _ _ _ _ Hf Hr') as (r & Hr & -> & ->). rewrite Hh, Ha. unfold correctedEvents. rewrite (ownUse_less es i e q _ _ Hi).
    pose proof (bk_cover _ _ _ Hb r t Hr) as Hcov. fold source. destruct (Z.eqb_spec source (al_id r)) as [E|E]; cbn [andb]; [|rewrite (Hz _ (not_eq_sym E)); lia].
    rewrite <- E in *. destruct (Z.leb_spec t (ev_at e)) as [Ht|Ht]; [lia|].
    destruct Hor as [->|H0]; [lia|]. pose proof (ownUse_later es i e source t Hi events_nonneg eq_refl Ht) as Hlt.
    pose proof (bk_cover _ _ _ Hb r (ev_at e) Hr) as Hcov0. rewrite <- E in Hcov0. pose proof (afterUse_nonneg _ _ _ source t Hb). lia.
Qed.

(** The caps the correction sets, on the portions after the event. *)
Definition eventPortions : list nat := portionsAfter (lg_carried s) (replayed s) source (ev_at e).
Definition eventCaps : Portions := capPortions (rp_sizes (replayed s)) eventPortions q.

Lemma entries_carried : entries (edgesOf s) = map (fun x => (x.1, edgeOf x.2)) (entries (lg_carried s)).
Proof using. unfold edgesOf, entries. rewrite length_map. generalize 0%nat. induction (lg_carried s) as [|c l IH]; intros n; [done|]. cbn. by rewrite IH. Qed.

Lemma eventCaps_of : eventCaps = capsOf (rp_sizes (replayed s)) source (ev_at e) (entries (lg_carried s)) q.
Proof using. unfold eventCaps, eventPortions, capsOf. by rewrite portionsAfter_in. Qed.

Lemma sizes_ok : holding_ok (rp_sizes (replayed s)).
Proof using Hb. apply (ro_sizes _ _ (replayed_ok _ _ _ Hb)). Qed.

Lemma eventPortions_nodup : NoDup eventPortions.
Proof using. unfold eventPortions. rewrite portionsAfter_in. apply portionsIn_nodup, entries_nodup. Qed.

Lemma eventPortions_sum : sumZ (map (qty (rp_sizes (replayed s))) eventPortions) = afterUse s source (ev_at e).
Proof using Hb. unfold eventPortions. rewrite portionsAfter_in. by apply portionsIn_sum, sizes_ok. Qed.

Lemma eventCaps_ok : NoDup (map fst eventCaps) /\ forall p c, mapGet eventCaps p = Some c -> 0 <= c.
Proof using Hb Hq.
  split; [apply capPortions_nodup, eventPortions_nodup|]. intros p c H.
  apply (proj1 (capPortions_spec _ eventPortions q sizes_ok ltac:(lia) eventPortions_nodup)) in H. lia.
Qed.

(** An allowance holds the portions its own carries introduced. *)
Lemma own_portion p : p ∈ eventPortions -> qty (heldBy (replayed s) source) p = qty (rp_sizes (replayed s)) p.
Proof using Hb.
  unfold eventPortions. rewrite portionsAfter_in. intros (c & Hc & Ha)%portionsIn_elem.
  assert (Hin : (p, edgeOf c) ∈ entries (edgesOf s)) by (rewrite entries_carried; apply (list_elem_of_fmap_2 (fun x : nat * CarriedUsage => (x.1, edgeOf x.2)) _ (p, c) Hc)).
  pose proof (ro_source _ _ (replayed_ok _ _ _ Hb) p (edgeOf c) Hin) as H. unfold isAfter in Ha. apply andb_true_iff in Ha as [_ Ha%Z.eqb_eq]. cbn in H. by rewrite Ha in H.
Qed.

Lemma source_excess : excessOver eventCaps (heldBy (replayed s) source) = Z.min q (afterUse s source (ev_at e)).
Proof using Hb Hq.
  rewrite <- eventPortions_sum. rewrite <- (proj2 (capPortions_spec _ eventPortions q sizes_ok ltac:(lia) eventPortions_nodup)). fold eventCaps.
  unfold excessOver. f_equal. apply List.map_ext_in. intros [p c] Hin%list_elem_of_In.
  assert (Hp : p ∈ eventPortions) by (apply (capPortions_keys (rp_sizes (replayed s)) _ q); by apply (list_elem_of_fmap_2 fst _ (p, c))).
  pose proof (own_portion p Hp) as H. unfold qty in H. by rewrite H.
Qed.

Lemma after_within_held : afterUse s source (ev_at e) <= heldUse s source.
Proof using Hb.
  rewrite <- eventPortions_sum. unfold heldUse. pose proof (ro_holdings _ _ (replayed_ok _ _ _ Hb) source) as Hh.
  assert (G : forall l ps, holding_ok l -> NoDup ps -> sumZ (map (qty l) ps) <= total l).
  { intros l ps Hl Hps. assert (Hk : map fst (map (fun p : nat => (p, 0)) ps) = ps) by (rewrite map_map; apply map_id).
    assert (Hc0 : forall p c, mapGet (map (fun p : nat => (p, 0)) ps) p = Some c -> 0 <= c).
    { intros p c Hg. apply elem_mapGet in Hg. apply list_elem_of_fmap in Hg as (p' & [= -> ->] & _). done. }
    pose proof (total_capped (map (fun p => (p, 0)) ps) l ltac:(by rewrite Hk) Hc0 Hl) as Ht.
    pose proof (total_nonneg _ (capped_ok (map (fun p => (p, 0)) ps) l Hl)).
    assert (E : excessOver (map (fun p => (p, 0)) ps) l = sumZ (map (qty l) ps)); [|lia].
    unfold excessOver. rewrite map_map. f_equal. apply map_ext. intros p. pose proof (qty_nonneg l p Hl). unfold qty in *. destruct (Z.ltb_spec 0 (default 0 (mapGet l p))); lia. }
  rewrite (List.map_ext_in (qty (rp_sizes (replayed s))) (qty (heldBy (replayed s) source))).
  - apply G; [done|apply eventPortions_nodup].
  - intros p Hp%list_elem_of_In. symmetry. by apply own_portion.
Qed.

Lemma source_consumed r : r ∈ lg_rows s -> al_id r = source -> q <= al_consumed r.
Proof using Hb Hi Hq. intros Hr Hid. pose proof (event_covered r Hr Hid). pose proof after_within_held. lia. Qed.

(** The carries as the correction leaves them. *)
Definition givenBack : list CarriedUsage := zip_with (giveRow eventCaps) (lg_carried s) (rp_moves (replayed s)).

Lemma moves_length : length (rp_moves (replayed s)) = length (lg_carried s).
Proof using Hb. unfold replayed. rewrite replayCarries_length by apply carried_apart, (bk_carried _ _ _ Hb). apply length_map. Qed.

Lemma givenBack_elem c' : c' ∈ givenBack -> exists c applied, c ∈ lg_carried s /\
  c' = {| cu_change_at := cu_change_at c; cu_change := cu_change c; cu_from := cu_from c; cu_to := cu_to c; cu_requested := cu_requested c; cu_applied := applied; cu_at := cu_at c |} /\
  0 <= applied <= cu_applied c.
Proof using Hb Hq.
  intros (j & Hj)%list_elem_of_lookup. unfold givenBack in Hj. rewrite lookup_zip_with in Hj.
  destruct (lg_carried s !! j) as [c|] eqn:Ec; [|done]. cbn in Hj. destruct (rp_moves (replayed s) !! j) as [mv|] eqn:Em; [|done]. cbn in Hj. injection Hj as <-.
  exists c, (cu_applied c - Z.max 0 (returnedBy eventCaps mv)). apply list_elem_of_lookup_2 in Ec as Hc. split; [done|]. split; [done|].
  assert (He : edgesOf s !! j = Some (edgeOf c)) by (unfold edgesOf; by rewrite list_lookup_fmap, Ec).
  pose proof (returned_within eventCaps (edgesOf s) (proj2 eventCaps_ok) (carried_apart _ (bk_carried _ _ _ Hb)) j (edgeOf c) mv He Em) as Hret. cbn in Hret.
  pose proof (cu_amounts _ (bk_carried _ _ _ Hb) c Hc). lia.
Qed.

Lemma givenBack_ok : carried_ok givenBack.
Proof using Hb Hq.
  pose proof (bk_carried _ _ _ Hb) as H. split.
  - set (f := fun c => (cu_change_at c, cu_change c, cu_from c)).
    set (R := fun x y : Z * Z * Z => (x.1.1 <? y.1.1) || ((x.1.1 =? y.1.1) && ((x.1.2 <? y.1.2) || ((x.1.2 =? y.1.2) && (x.2 <? y.2)))) = true).
    apply (proj1 (sorted_by_map f R givenBack)). unfold givenBack. rewrite giveRows_map by (done || apply moves_length).
    apply (proj2 (sorted_by_map f R (lg_carried s))). apply (cu_sorted _ H).
  - unfold givenBack. rewrite giveRows_map by (done || apply moves_length). apply (cu_keys _ H).
  - apply (proj1 (sorted_by_map cu_at (fun x y => x <= y) givenBack)). unfold givenBack. rewrite giveRows_map by (done || apply moves_length).
    apply (proj2 (sorted_by_map cu_at (fun x y => x <= y) (lg_carried s))). apply (cu_time _ H).
  - intros c' Hc'. destruct (givenBack_elem c' Hc') as (c & a & Hc & -> & _). cbn. exact (cu_apart _ H c Hc).
  - intros c' Hc'. destruct (givenBack_elem c' Hc') as (c & a & Hc & -> & Ha). cbn. pose proof (cu_amounts _ H c Hc). lia.
Qed.

(** The books after the carries give back. *)
Lemma corrected_books s' : lg_carried s' = givenBack ->
  (forall b, heldUse s' b = heldUse s b - excessOver eventCaps (heldBy (replayed s) b)) /\
  (forall b t, afterUse s' b t = cappedSum (rp_sizes (replayed s)) eventCaps (entries (lg_carried s)) b t) /\
  total (rp_sizes (replayed s')) = total (rp_sizes (replayed s)) - Z.min q (afterUse s source (ev_at e)).
Proof using Hb Hq.
  intros Hc. pose proof (carried_apart _ (bk_carried _ _ _ Hb)) as Hap. fold (edgesOf s) in Hap. destruct eventCaps_ok as [Hnd Hcaps].
  assert (Hedges : edgesOf s' = reducedEdges eventCaps (replayed s) (edgesOf s)).
  { unfold edgesOf at 1. rewrite Hc. unfold givenBack. rewrite giveRows_edges. done. }
  destruct (replay_reducedEdges eventCaps Hcaps (edgesOf s) Hap) as [Hs Hz]. fold (replayed s) in Hs, Hz.
  assert (Hr : replayed s' = replayCarries (reducedEdges eventCaps (replayed s) (edgesOf s))) by (unfold replayed; by rewrite Hedges).
  rewrite <- Hr in Hs, Hz. split_and!.
  - intros b. unfold heldUse. rewrite Hs. apply total_capped; [done|done|apply (ro_holdings _ _ (replayed_ok _ _ _ Hb))].
  - intros b t. unfold afterUse. rewrite Hz, Hc. unfold givenBack. rewrite entries_zip by apply moves_length. unfold portionSum, cappedSum.
    assert (Hl : length (rp_moves (replayed s)) = length (entries (lg_carried s))).
    { rewrite moves_length. unfold entries. by rewrite length_combine, length_seq, Nat.min_id. }
    revert Hl. generalize (rp_moves (replayed s)) as ms. generalize (entries (lg_carried s)) as xs.
    induction xs as [|x xs IH]; intros [|m ms] Hl; try done. cbn [zip_with map sumZ fst snd]. injection Hl as Hl. rewrite (IH ms Hl). f_equal.
    rewrite qty_capped by (done || apply sizes_ok). done.
  - rewrite Hz, total_capped by (done || apply sizes_ok). f_equal. rewrite <- eventPortions_sum.
    apply (proj2 (capPortions_spec _ eventPortions q sizes_ok ltac:(lia) eventPortions_nodup)).
Qed.

Lemma entries_in_time : in_time (entries (lg_carried s)).
Proof using Hb.
  unfold in_time. apply (proj1 (sorted_by_map (fun x : nat * CarriedUsage => cu_at x.2) (fun x y => x <= y) (entries (lg_carried s)))).
  rewrite <- (map_map snd cu_at), entries_snd. apply (proj2 (sorted_by_map cu_at (fun x y => x <= y) (lg_carried s))), (cu_time _ (bk_carried _ _ _ Hb)).
Qed.

(** A correction of use that carries took. *)
Lemma books_corrected s' dec : lg_carried s' = givenBack -> lg_nextId s' = lg_nextId s -> fallen dec (lg_rows s) (lg_rows s') ->
  dec source = q -> (forall r, r ∈ lg_rows s -> al_id r <> source -> 0 <= dec (al_id r) <= excessOver eventCaps (heldBy (replayed s) (al_id r))) ->
  books clk correctedEvents s'.
Proof using Hb Hclk Hi Hq.
  intros Hc Hn Hf Hd Hx. pose proof (fallen_ids _ _ _ Hf) as Hids. destruct (corrected_books s' Hc) as (Hh & Ha & _).
  assert (Hhn : forall a, 0 <= heldUse s' a).
  { intros a. unfold heldUse. apply total_nonneg, (ro_holdings (entries (edgesOf s'))), replayCarries_ok. unfold edgesOf. rewrite Hc. apply carried_apart, givenBack_ok. }
  assert (Hheld : forall r, r ∈ lg_rows s -> heldUse s' (al_id r) <= al_consumed r - dec (al_id r)).
  { intros r Hr. pose proof (bk_held _ _ _ Hb r Hr). rewrite Hh. destruct (decide (al_id r = source)) as [E|E]; [|pose proof (Hx r Hr E); lia].
    pose proof (event_covered r Hr E). rewrite E in *. rewrite source_excess, Hd. lia. }
  split; rewrite ?Hc, ?Hids.
  - split; [rewrite Hids; apply (bk_rows _ _ _ Hb)|]. intros r' Hr'. destruct (fallen_elem _ _ _ _ Hf Hr') as (r & Hr & _ & ->). specialize (Hheld r Hr). specialize (Hhn (al_id r)). lia.
  - intros r' Hr'. rewrite Hn. destruct (fallen_elem _ _ _ _ Hf Hr') as (r & Hr & -> & _). by apply (bk_ids _ _ _ Hb).
  - apply givenBack_ok.
  - intros c' Hc'. destruct (givenBack_elem c' Hc') as (c & a & Hcc & -> & _). exact (bk_known _ _ _ Hb c Hcc).
  - intros c' Hc'. destruct (givenBack_elem c' Hc') as (c & a & Hcc & -> & _). cbn. pose proof (bk_past _ _ _ Hb c Hcc). lia.
  - by apply corrected_events.
  - intros r' Hr'. destruct (fallen_elem _ _ _ _ Hf Hr') as (r & Hr & -> & ->). by apply Hheld.
  - intros r' t Hr'. destruct (fallen_elem _ _ _ _ Hf Hr') as (r & Hr & -> & ->). rewrite Hh, Ha. unfold correctedEvents. rewrite (ownUse_less es i e q _ _ Hi).
    pose proof (bk_cover _ _ _ Hb r t Hr) as Hcov. fold source. rewrite eventCaps_of. fold (afterUse s (al_id r) t) in Hcov.
    destruct (Z.eqb_spec source (al_id r)) as [E|E]; cbn [andb].
    + rewrite <- E in *. rewrite <- eventCaps_of, source_excess, Hd, eventCaps_of. pose proof (entries_nodup (lg_carried s)) as Hnd.
      destruct (Z.leb_spec t (ev_at e)) as [Ht|Ht].
      * rewrite cappedSum_before by (done || lia || apply sizes_ok). fold (afterUse s source t). fold (afterUse s source (ev_at e)). lia.
      * rewrite cappedSum_after by (done || lia || apply sizes_ok || apply entries_in_time). fold (afterUse s source t). fold (afterUse s source (ev_at e)).
        pose proof (ownUse_later es i e source t Hi events_nonneg eq_refl Ht) as Hlt. pose proof (bk_cover _ _ _ Hb r (ev_at e) Hr) as Hcov0. rewrite <- E in Hcov0.
        pose proof (afterUse_nonneg _ _ _ source t Hb). assert (afterUse s source t <= afterUse s source (ev_at e)) by (apply portionSum_le; [apply sizes_ok|lia]). lia.
    + rewrite cappedSum_apart by (done || apply entries_nodup || congruence). fold (afterUse s (al_id r) t). rewrite <- eventCaps_of. pose proof (Hx r Hr (not_eq_sym E)). lia.
Qed.

(** What following the copies does to a ledger with these carries. *)
Definition followed (s1 : Ledger) : Ledger :=
  {| lg_rows := lowered (holderLoss clk source eventCaps (rp_holdings (replayed s)) (lg_rows s1)) (lg_rows s1);
     lg_carried := givenBack; lg_nextId := lg_nextId s1 |}.

Lemma follow_open s1 : lg_carried s1 = lg_carried s -> consumed_ok (lg_rows s1) ->
  followCarriedUsage clk source (ev_at e) q false s1 = if bool_decide (eventPortions = []) then (false, s1) else (true, followed s1).
Proof using Hb Hq.
  intros Hc Hok. unfold followCarriedUsage. rewrite Hc, carried_sortBy by apply (cu_sorted _ (bk_carried _ _ _ Hb)). fold (edgesOf s). fold (replayed s). fold eventPortions.
  destruct (bool_decide _); [done|]. rewrite (bool_decide_false (Some 0 = None)) by done. fold eventCaps. rewrite reduceHolders_spec by (done || apply holdings_nodup).
  cbn [lg_rows lg_carried lg_nextId with_rows]. unfold followed, givenBack. rewrite <- (giveBack_rows eventCaps) by (apply (cu_keys _ (bk_carried _ _ _ Hb)) || apply moves_length). by rewrite Hc.
Qed.

Lemma follow_closed r : rowOf (lg_rows s) source = Some r ->
  followCarriedUsage clk source (ev_at e) q true s =
  if bool_decide (eventPortions = []) then (false, s)
  else if takesBack clk r then (true, followed (with_rows s (lowered (only source q) (lg_rows s)))) else (true, s).
Proof using Hb Hi Hq.
  intros Hr. pose proof (bk_rows _ _ _ Hb) as Hok. destruct (rowOf_elem _ _ _ Hr) as [Hin Hid]. pose proof (source_consumed r Hin Hid) as Hqc.
  unfold followCarriedUsage. rewrite carried_sortBy by apply (cu_sorted _ (bk_carried _ _ _ Hb)). fold (edgesOf s). fold (replayed s). fold eventPortions.
  destruct (bool_decide _); [done|]. destruct (reduceCopy_spec clk source q s (proj1 Hok) ltac:(lia) (proj2 Hok)) as [R1 R2].
  destruct (reduceCopy clk source q s) as [reduced s1]. cbn [fst snd] in R1, R2. subst reduced. rewrite Hr in *. cbn [mbind option_bind] in *. cbn [fmap option_fmap option_map default from_option] in R1.
  change (id ?x) with x in R1. unfold reduction in *. destruct (takesBack clk r).
  - replace (Z.min q (al_consumed r)) with q in * by lia. rewrite (bool_decide_false (Some q = None)) by done. fold eventCaps. subst s1.
    change (fun j : Z => if j =? source then q else 0) with (only source q).
    assert (Hok1 : consumed_ok (lg_rows (with_rows s (lowered (only source q) (lg_rows s))))).
    { apply consumed_lowered; [done|]. intros r' Hr'. unfold only. destruct (Z.eqb_spec (al_id r') source) as [E|]; [by apply source_consumed|by apply Hok]. }
    rewrite reduceHolders_spec by (done || apply holdings_nodup). cbn [lg_rows lg_carried lg_nextId with_rows]. unfold followed, givenBack.
    by rewrite <- (giveBack_rows eventCaps) by (apply (cu_keys _ (bk_carried _ _ _ Hb)) || apply moves_length).
  - rewrite (bool_decide_true (None = None)) by done. f_equal. rewrite R1, lowered_none; [by destruct s|]. intros r' _. by destruct (_ =? _).
Qed.

(** The losses of the holders, in terms of what they hold. *)
Lemma holder_loss rows b : b <> source ->
  holderLoss clk source eventCaps (rp_holdings (replayed s)) rows b = default 0 (reduction clk (excessOver eventCaps (heldBy (replayed s) b)) <$> rowOf rows b) \/
  (holderLoss clk source eventCaps (rp_holdings (replayed s)) rows b = 0 /\ excessOver eventCaps (heldBy (replayed s) b) = 0).
Proof using Hb Hq.
  intros Hne. unfold holderLoss. rewrite (proj2 (Z.eqb_neq b source)) by done. unfold heldBy. destruct (mapGet (rp_holdings (replayed s)) b) as [held|]; [by left|right].
  split; [done|]. cbn. destruct eventCaps_ok as [Hnd Hcaps]. pose proof (total_capped eventCaps [] Hnd Hcaps holding_nil) as H. cbn in H. lia.
Qed.

Lemma followed_fallen s1 : fallen (holderLoss clk source eventCaps (rp_holdings (replayed s)) (lg_rows s1)) (lg_rows s1) (lg_rows (followed s1)).
Proof using. apply fallen_lowered. Qed.

Lemma fallen_trans d1 d2 rows rows1 rows2 : fallen d1 rows rows1 -> fallen d2 rows1 rows2 -> fallen (fun a => d1 a + d2 a) rows rows2.
Proof using.
  intros H. revert rows2. induction H as [|r r1 rows rows1 [E1 E2] _ IH]; intros rows2 H2; inversion H2; subst; constructor; [|by apply IH].
  destruct H1 as [E3 E4]. rewrite E3, E4, E1, E2. split; [done|lia].
Qed.

(** The books after a correction that follows the copies, from a ledger whose source gave up [q]. *)
Lemma followed_books s1 : lg_carried s1 = lg_carried s -> lg_nextId s1 = lg_nextId s -> lg_rows s1 = lowered (only source q) (lg_rows s) ->
  books clk correctedEvents (followed s1) /\
  fallen (fun b => if b =? source then q else holderLoss clk source eventCaps (rp_holdings (replayed s)) (lg_rows s1) b) (lg_rows s) (lg_rows (followed s1)).
Proof using Hb Hclk Hi Hq.
  intros Hc Hn Hrows. pose proof (bk_rows _ _ _ Hb) as Hok.
  assert (Hf : fallen (fun b => if b =? source then q else holderLoss clk source eventCaps (rp_holdings (replayed s)) (lg_rows s1) b) (lg_rows s) (lg_rows (followed s1))).
  { pose proof (fallen_trans (only source q) _ (lg_rows s) (lg_rows s1) _ ltac:(rewrite Hrows; apply fallen_lowered) (followed_fallen s1)) as H.
    eapply Forall2_impl; [exact H|]. cbn. intros r r' [E1 E2]. split; [done|]. rewrite E2. unfold only. destruct (Z.eqb_spec (al_id r) source) as [E|]; [|lia].
    unfold holderLoss. rewrite E, Z.eqb_refl. lia. }
  split; [|done]. eapply books_corrected; [done|done|exact Hf|cbv beta; by rewrite Z.eqb_refl|].
  intros r Hr Hne. cbn beta. rewrite (proj2 (Z.eqb_neq _ _)) by done. pose proof (excessOver_nonneg eventCaps (heldBy (replayed s) (al_id r))).
  destruct (holder_loss (lg_rows s1) (al_id r) Hne) as [->|[-> ->] ]; [|lia]. rewrite Hrows, rowOf_lowered, elem_rowOf by (done || apply Hok). cbn [fmap option_fmap option_map default from_option].
  change (id ?x) with x. unfold only. rewrite (proj2 (Z.eqb_neq _ _)) by done. rewrite consume_0. apply reduction_bounds; [done|by apply Hok].
Qed.

Lemma restore_fallen : exists d, 0 <= d <= q /\ fallen (only source d) (lg_rows s) (lg_rows (restoreCarriedBalance clk source q s)) /\
  lg_carried (restoreCarriedBalance clk source q s) = lg_carried s /\ lg_nextId (restoreCarriedBalance clk source q s) = lg_nextId s.
Proof using Hb Hq.
  pose proof (bk_rows _ _ _ Hb) as Hok. assert (Hsame : exists d, 0 <= d <= q /\ fallen (only source d) (lg_rows s) (lg_rows s) /\ lg_carried s = lg_carried s /\ lg_nextId s = lg_nextId s).
  { exists 0. split_and!; try done; try lia. pose proof (fallen_lowered (only source 0) (lg_rows s)) as H. rewrite lowered_none in H; [done|]. intros r _. unfold only. by destruct (_ =? _). }
  unfold restoreCarriedBalance. destruct (last _) as [carry|]; [|done]. destruct (reduceCopy_spec clk source q s (proj1 Hok) ltac:(lia) (proj2 Hok)) as [R1 R2].
  destruct (reduceCopy clk source q s) as [reduced s1]. cbn [fst snd] in R1, R2. destruct (rowOf (lg_rows s) source) as [r|] eqn:Hr; cbn in R1, R2; change (id ?x) with x in R1.
  - assert (Hred : 0 <= reduction clk q r <= q) by (apply reduction_bounds; [lia|]; apply Hok; by apply rowOf_elem in Hr as [? _]).
    assert (Hd : exists d, 0 <= d <= q /\ fallen (only source d) (lg_rows s) (lg_rows s1) /\ lg_carried s1 = lg_carried s /\ lg_nextId s1 = lg_nextId s).
    { exists (reduction clk q r). split; [done|]. rewrite R1. split; [apply fallen_lowered|done]. }
    destruct reduced as [returned|]; [|done]. destruct (returned =? 0); [done|]. destruct Hd as (d & H1 & H2 & H3 & H4). exists d. split; [done|]. split; [|done].
    cbn [lg_rows with_rows]. assert (Hg : fallen (fun _ => 0) (lg_rows s1) (updateRow (al_id carry) (grow returned) (lg_rows s1))).
    { by apply fallen_update. }
    pose proof (fallen_trans _ _ _ _ _ H2 Hg) as H. eapply Forall2_impl; [exact H|]. cbn. intros r1 r2 [E1 E2]. split; [done|lia].
  - subst reduced. rewrite R1. destruct Hsame as (d & H1 & H2 & H3 & H4). exists d. split; [done|]. split; [|done]. cbn [lg_rows with_rows].
    rewrite lowered_none; [done|]. intros r1 _. by destruct (_ =? _).
Qed.

(** The correction's books, and what each allowance gives up. *)
Definition taken_back (s' : Ledger) : Prop :=
  distinctUse s' = distinctUse s - q /\
  fallen (fun b => if b =? source then q else heldUse s b - heldUse s' b) (lg_rows s) (lg_rows s').

Lemma source_known : source ∈ map al_id (lg_rows s).
Proof using Hb Hi. apply list_elem_of_lookup_2 in Hi. by apply (bk_events _ _ _ Hb). Qed.

Lemma distinct_fallen s' dec : fallen dec (lg_rows s) (lg_rows s') -> (forall b, b ∈ map al_id (lg_rows s) -> b <> source -> dec b = heldUse s b - heldUse s' b) ->
  distinctUse s' = distinctUse s + heldUse s source - heldUse s' source - dec source + total (rp_sizes (replayed s')) - total (rp_sizes (replayed s)).
Proof using Hb Hi.
  intros Hf Hd. unfold distinctUse. rewrite (fallen_sum _ _ _ (heldUse s') Hf).
  assert (E : sumZ (map (fun r => al_consumed r - heldUse s' (al_id r)) (lg_rows s)) =
    sumZ (map (fun r => al_consumed r - heldUse s (al_id r)) (lg_rows s)) + sumZ (map (fun r => dec (al_id r)) (lg_rows s)) +
    sumZ (map (fun r => if al_id r =? source then heldUse s source - heldUse s' source - dec source else 0) (lg_rows s))).
  { rewrite <- !sumZ_map_add. f_equal. apply List.map_ext_in. intros r Hr%list_elem_of_In. destruct (Z.eqb_spec (al_id r) source) as [->|Hne]; [lia|].
    rewrite (Hd (al_id r)); [lia|by apply list_elem_of_fmap_2|done]. }
  rewrite E, sum_at; [lia|apply (bk_rows _ _ _ Hb)|apply source_known].
Qed.

(** A correction that finds no later carry of the use. *)
Lemma uncarried_correction : eventPortions = [] -> books clk correctedEvents (with_rows s (lowered (only source q) (lg_rows s))) /\
  taken_back (with_rows s (lowered (only source q) (lg_rows s))).
Proof using Hb Hclk Hi Hq.
  intros Hp. pose proof eventPortions_sum as Hs. rewrite Hp in Hs. cbn in Hs. split.
  - apply (books_uncarried _ (only source q)); try done; [apply fallen_lowered|unfold only; rewrite Z.eqb_refl; lia| |by right].
    intros b Hne. unfold only. by rewrite (proj2 (Z.eqb_neq _ _)).
  - assert (Hf : fallen (fun b => if b =? source then q else 0) (lg_rows s) (lowered (only source q) (lg_rows s))) by apply fallen_lowered.
    split.
    + rewrite (distinct_fallen (with_rows s (lowered (only source q) (lg_rows s))) _ Hf); [rewrite Z.eqb_refl; unfold heldUse, replayed, edgesOf; cbn [lg_carried with_rows]; lia|].
      intros b _ Hne. rewrite (proj2 (Z.eqb_neq _ _)) by done. unfold heldUse, replayed, edgesOf; cbn [lg_carried with_rows]. lia.
    + eapply Forall2_impl; [exact Hf|]. cbn. intros r r' [E1 E2]. split; [done|]. rewrite E2. unfold heldUse, replayed, edgesOf; cbn [lg_carried with_rows]. destruct (_ =? _); lia.
Qed.

Lemma carried_correction s1 : lg_carried s1 = lg_carried s -> lg_nextId s1 = lg_nextId s -> lg_rows s1 = lowered (only source q) (lg_rows s) ->
  books clk correctedEvents (followed s1) /\ ((forall r, r ∈ lg_rows s -> takesBack clk r = true) -> taken_back (followed s1)).
Proof using Hb Hclk Hi Hq.
  intros Hc Hn Hrows. destruct (followed_books s1 Hc Hn Hrows) as [Hbooks Hf]. split; [done|]. intros Ht. pose proof (bk_rows _ _ _ Hb) as Hok.
  destruct (corrected_books (followed s1) eq_refl) as (Hh & _ & Hz).
  assert (Hd : forall b, b ∈ map al_id (lg_rows s) -> b <> source ->
    holderLoss clk source eventCaps (rp_holdings (replayed s)) (lg_rows s1) b = heldUse s b - heldUse (followed s1) b).
  { intros b (r & -> & Hr)%list_elem_of_fmap Hne. rewrite Hh. destruct (holder_loss (lg_rows s1) (al_id r) Hne) as [->|[-> ->] ]; [|lia].
    rewrite Hrows, rowOf_lowered, elem_rowOf by (done || apply Hok). cbn [fmap option_fmap option_map default from_option]. change (id ?x) with x. unfold only.
    rewrite (proj2 (Z.eqb_neq _ _)) by done. rewrite consume_0. unfold reduction. rewrite Ht by done.
    pose proof (bk_held _ _ _ Hb r Hr) as H1. pose proof (Hh (al_id r)) as H2. assert (H3 : 0 <= heldUse (followed s1) (al_id r)).
    { unfold heldUse. apply total_nonneg, (ro_holdings (entries (edgesOf (followed s1)))), replayCarries_ok. unfold edgesOf. cbn [lg_carried followed]. apply carried_apart, givenBack_ok. }
    lia. }
  split.
  - rewrite (distinct_fallen (followed s1) _ Hf).
    + rewrite Z.eqb_refl, Hz, Hh, source_excess. lia.
    + intros b Hbin Hne. rewrite (proj2 (Z.eqb_neq _ _)) by done. by apply Hd.
  - assert (G : forall rows rows', (forall r, r ∈ rows -> r ∈ lg_rows s) -> fallen (fun b => if b =? source then q else holderLoss clk source eventCaps (rp_holdings (replayed s)) (lg_rows s1) b) rows rows' ->
      fallen (fun b => if b =? source then q else heldUse s b - heldUse (followed s1) b) rows rows').
    { intros rows rows' Hin H. induction H as [|r r' rows rows' [E1 E2] _ IH]; constructor; [|apply IH; intros; apply Hin; by constructor]. split; [done|]. rewrite E2.
      destruct (Z.eqb_spec (al_id r) source) as [E|E]; [done|]. rewrite Hd; [done| |done]. apply list_elem_of_fmap_2. apply Hin. constructor. }
    by apply G.
Qed.

Lemma correct_deduction : exists s', correctDeduction clk source (ev_at e) q s = Ok s' /\ books clk correctedEvents s' /\
  ((forall r, r ∈ lg_rows s -> takesBack clk r = true) -> (exists r, r ∈ lg_rows s /\ al_id r = source /\ funded clk r = true) \/ eventPortions <> [] -> taken_back s').
Proof using Hb Hclk Hi Hq.
  pose proof (bk_rows _ _ _ Hb) as Hok. destruct (proj1 (list_elem_of_fmap _ _ _) source_known) as (r & Hid & Hr).
  assert (Hrow : rowOf (lg_rows s) source = Some r) by (rewrite Hid; by apply elem_rowOf; [apply Hok|]).
  pose proof (source_consumed r Hr (eq_sym Hid)) as Hqc. unfold correctDeduction. rewrite Hrow. destruct (funded clk r) eqn:Ef.
  - rewrite (proj2 (Z.leb_le _ _)) by done. rewrite updateRow_lowered. cbn [mbind result_bind lg_rows with_rows]. rewrite rowOf_lowered, Hrow. cbn [fmap option_fmap option_map negb andb].
    rewrite follow_open; [|done|].
    2: { cbn [lg_rows with_rows]. apply consumed_lowered; [done|]. intros r' Hr'. unfold only. destruct (Z.eqb_spec (al_id r') source) as [E|]; [by apply source_consumed|by apply Hok]. }
    case_bool_decide as Hp.
    + eexists. split; [done|]. destruct (uncarried_correction Hp) as [B T]. by split.
    + eexists. split; [done|]. destruct (carried_correction (with_rows s (lowered (only source q) (lg_rows s))) eq_refl eq_refl eq_refl) as [B T]. split; [done|]. intros Ht _. by apply T.
  - cbn [mbind result_bind]. rewrite Hrow. cbn [negb]. rewrite (follow_closed r Hrow). case_bool_decide as Hp.
    + cbn [andb negb]. destruct restore_fallen as (d & Hd & Hf & Hc & Hn). eexists. split; [done|]. split.
      * apply (books_uncarried _ (only source d)); try done; [unfold only; rewrite Z.eqb_refl; lia| |].
        -- intros b Hne. unfold only. by rewrite (proj2 (Z.eqb_neq _ _)).
        -- right. rewrite <- eventPortions_sum, Hp. done.
      * intros _ [(r' & Hr' & Hid' & Hf')|H]; [|done]. assert (r' = r) as -> by (apply (NoDup_key_inj al_id (lg_rows s)); [apply Hok|done|done|congruence]). congruence.
    + destruct (takesBack clk r) eqn:Et; cbn [negb andb].
      * eexists. split; [done|]. destruct (carried_correction (with_rows s (lowered (only source q) (lg_rows s))) eq_refl eq_refl eq_refl) as [B T]. split; [done|]. intros Ht _. by apply T.
      * eexists. split; [done|]. split.
        -- apply (books_uncarried _ (fun _ => 0)); try done; [|lia|by left].
           pose proof (fallen_lowered (fun _ => 0) (lg_rows s)) as H. by rewrite lowered_none in H.
        -- intros Ht _. rewrite Ht in Et by done. done.
Qed.
End Correction.

(** ** Histories of a subscription *)

Record History := { hs_clock : Z; hs_events : list Event; hs_ledger : Ledger }.

Section Histories.
Context (items : list CatalogItem) (nonConsumable : Z -> bool).

(** What happens to the subscription's allocations.  Two conditions the code does not enforce hold
    of these histories: a switch's transaction begins after the use it carries was recorded
    ([raced_use_stays_charged] is a run without it), and changes are applied in the order they were
    created ([retried_change_applies_late] of [SubscriptionChanges] is one without it). *)
Inductive happens : History -> History -> Prop :=
  (** an event spends on an allowance, from its balance or from a hold *)
  | happens_use clock es s t a q f : clock <= t -> 0 < q -> a ∈ map al_id (lg_rows s) ->
      (forall r, al_id (f r) = al_id r /\ al_consumed (f r) = al_consumed r + q) ->
      happens {| hs_clock := clock; hs_events := es; hs_ledger := s |}
        {| hs_clock := t; hs_events := es ++ [{| ev_alloc := a; ev_at := t; ev_left := q |}]; hs_ledger := with_rows s (updateRow a f (lg_rows s)) |}
  (** allocations expire, are reversed, roll over, are held, or move to another item *)
  | happens_rows clock es s t f : clock <= t -> (forall r, al_id (f r) = al_id r /\ al_consumed (f r) = al_consumed r) ->
      happens {| hs_clock := clock; hs_events := es; hs_ledger := s |} {| hs_clock := t; hs_events := es; hs_ledger := with_rows s (map f (lg_rows s)) |}
  | happens_grant clock es s r : al_id r = lg_nextId s -> al_consumed r = 0 ->
      happens {| hs_clock := clock; hs_events := es; hs_ledger := s |}
        {| hs_clock := clock; hs_events := es;
           hs_ledger := {| lg_rows := lg_rows s ++ [r]; lg_carried := lg_carried s; lg_nextId := lg_nextId s + 1 |} |}
  (** an insert that found its key taken, or a transaction that failed, leaves a gap in the identities *)
  | happens_skip clock es s n : lg_nextId s <= n ->
      happens {| hs_clock := clock; hs_events := es; hs_ledger := s |}
        {| hs_clock := clock; hs_events := es; hs_ledger := {| lg_rows := lg_rows s; lg_carried := lg_carried s; lg_nextId := n |} |}
  | happens_switch clock es s carries input now s' : clock < now -> in_outgoing input <> in_incoming input ->
      (forall c, c ∈ lg_carried s -> later_change input c) -> switchVersion items nonConsumable carries input now s = Ok s' ->
      happens {| hs_clock := clock; hs_events := es; hs_ledger := s |} {| hs_clock := now; hs_events := es; hs_ledger := s' |}
  | happens_correction clock es s clk i e q s' : clock <= clk -> es !! i = Some e -> 0 < q <= ev_left e ->
      correctDeduction clk (ev_alloc e) (ev_at e) q s = Ok s' ->
      happens {| hs_clock := clock; hs_events := es; hs_ledger := s |}
        {| hs_clock := clk; hs_events := <[i := lessLeft e q]> es; hs_ledger := s' |}.

Definition emptyLedger : Ledger := {| lg_rows := []; lg_carried := []; lg_nextId := 1 |}.
Definition reaches (h : History) : Prop :=
  rtc happens {| hs_clock := 0; hs_events := []; hs_ledger := emptyLedger |} h.

Lemma reaches_books h : reaches h -> books (hs_clock h) (hs_events h) (hs_ledger h).
Proof using.
  revert h. refine (rtc_ind_r (fun h => books (hs_clock h) (hs_events h) (hs_ledger h)) _ _ _).
  - assert (H0 : forall A (x : A), x ∈ [] -> False) by (by intros A x ?%elem_of_nil).
    split; cbn; try (by intros x Hx; destruct (H0 _ _ Hx)).
    + split; [apply NoDup_nil_2|by intros x Hx; destruct (H0 _ _ Hx)].
    + split; cbn; try (by intros x Hx; destruct (H0 _ _ Hx)); [apply SSorted_nil|apply NoDup_nil_2|apply SSorted_nil].
    + intros x t Hx. destruct (H0 _ _ Hx).
  - intros h h' _ Hstep IH. destruct Hstep as [clock es s t a q f Ht Hq Ha Hf|clock es s t f Ht Hf|clock es s r Hid Hc|clock es s n Hle|clock es s carries input now s' Hn Hv Hl Hs|clock es s clk i e q s' Hclk Hi Hq Hs]; cbn in *.
    + apply (books_spend clock); [done|done|lia|done|done].
    + by apply (books_rows clock).
    + by eapply books_new.
    + by apply books_skip.
    + eapply switch_books; [exact IH|lia| |exact Hv|exact Hl|exact Hs]. intros e He. destruct (bk_events _ _ _ IH e He) as (_ & ? & _). lia.
    + destruct (correct_deduction clock clk es s i e q IH Hclk Hi Hq) as (s1 & Hs1 & Hb & _). unfold source in Hs1. assert (s1 = s') as -> by congruence. exact Hb.
Qed.
End Histories.

(** The portions in which an event's use is looked for. *)
Definition portionsOf (s : Ledger) (e : Event) : list nat := portionsAfter (lg_carried s) (replayed s) (ev_alloc e) (ev_at e).

(** C19: plan changes keep account of the usage they carry, in the histories where each switch starts
    after the usage before it was recorded and changes are applied in the order they were created.
    While the subscription's allowances are granted, used, ended, switched between versions with
    their usage carried, and corrected, each allowance holds no more carried usage than it consumed;
    the use an event still has is found in the portions that carries introduced after the event, or
    is use of the allowance that was never carried; and no carry applies less than nothing or more
    than was requested.  The code enforces neither condition: a use committed while a switch waits
    for its locks, and a parked change retried late, are outside the claim and reported findings. *)
Theorem carries_account_for_use items nonConsumable h (Hh : reaches items nonConsumable h) :
  (forall r, r ∈ lg_rows (hs_ledger h) -> 0 <= heldUse (hs_ledger h) (al_id r) <= al_consumed r) /\
  (forall r e, r ∈ lg_rows (hs_ledger h) -> e ∈ hs_events h -> ev_alloc e = al_id r ->
     ev_left e <= al_consumed r - heldUse (hs_ledger h) (al_id r) + sumZ (map (qty (rp_sizes (replayed (hs_ledger h)))) (portionsOf (hs_ledger h) e))) /\
  (forall c, c ∈ lg_carried (hs_ledger h) -> 0 <= cu_applied c <= cu_requested c).
Proof.
  pose proof (reaches_books items nonConsumable h Hh) as Hb. destruct h as [clock es s]. cbn in *. split_and!.
  - intros r Hr. split; [apply total_nonneg, (ro_holdings _ _ (replayed_ok _ _ _ Hb))|by apply (bk_held _ _ _ Hb)].
  - intros r e Hr He Hid. apply list_elem_of_lookup in He as [i Hi]. unfold portionsOf. rewrite portionsAfter_in.
    rewrite portionsIn_sum by apply (ro_sizes _ _ (replayed_ok _ _ _ Hb)). rewrite Hid. fold (afterUse s (al_id r) (ev_at e)).
    pose proof (bk_cover _ _ _ Hb r (ev_at e) Hr) as Hc. rewrite <- Hid in Hc at 1.
    pose proof (ownUse_here es i e Hi (fun e' He' => proj1 (bk_events _ _ _ Hb e' He'))). lia.
  - intros c Hc. by apply (cu_amounts _ (bk_carried _ _ _ Hb)).
Qed.

(** C20: a correction is taken back once from every allowance plan changes copied the use to, in the
    histories where each switch starts after the usage before it was recorded and changes are applied
    in the order they were created.  There it never fails; when the event's allowance is live, or a
    later change carried use of it, and the allowances can take quantity back, the event's allowance
    gives up the corrected quantity, every other allowance exactly the carried usage it no longer
    holds, and the subscription's distinct use falls by exactly the corrected quantity.  A use that
    races a switch is outside the claim: the copy stays charged (a reported finding). *)
Theorem correction_takes_copies_back items nonConsumable h clk i e q (Hh : reaches items nonConsumable h) (Hclk : hs_clock h <= clk)
  (He : hs_events h !! i = Some e) (Hq : 0 < q <= ev_left e) :
  exists s', correctDeduction clk (ev_alloc e) (ev_at e) q (hs_ledger h) = Ok s' /\
  ((forall r, r ∈ lg_rows (hs_ledger h) -> takesBack clk r = true) ->
   (exists r, r ∈ lg_rows (hs_ledger h) /\ al_id r = ev_alloc e /\ funded clk r = true) \/ portionsOf (hs_ledger h) e <> [] ->
   distinctUse s' = distinctUse (hs_ledger h) - q /\
   Forall2 (fun r r' => al_id r' = al_id r /\
     al_consumed r' = al_consumed r - (if al_id r =? ev_alloc e then q else heldUse (hs_ledger h) (al_id r) - heldUse s' (al_id r)))
     (lg_rows (hs_ledger h)) (lg_rows s')).
Proof.
  pose proof (reaches_books items nonConsumable h Hh) as Hb.
  destruct (correct_deduction _ clk _ _ i e q Hb Hclk He Hq) as (s' & Hs & _ & Hback). exists s'. split; [exact Hs|]. intros Ht Hor. by apply Hback.
Qed.

(** a switch of versions neither adds use nor loses any: the use the subscription's allowances
    consumed, with what switches copied between them counted once, is the same after it. *)
Theorem switch_counts_use_once items nonConsumable h carries input now s' (Hh : reaches items nonConsumable h) (Hnow : hs_clock h < now)
  (Hversions : in_outgoing input <> in_incoming input) (Hlater : forall c, c ∈ lg_carried (hs_ledger h) -> later_change input c)
  (Hs : switchVersion items nonConsumable carries input now (hs_ledger h) = Ok s') :
  distinctUse s' = distinctUse (hs_ledger h).
Proof.
  pose proof (reaches_books items nonConsumable h Hh) as Hb. refine (proj2 (switch_books _ _ _ _ _ _ _ _ _ Hb _ _ Hversions Hlater Hs)); [lia|].
  intros e He. destruct (bk_events _ _ _ Hb e He) as (_ & ? & _). lia.
Qed.

(** *** A subscription that changes its plan *)

Definition monthly (id version : Z) : CatalogItem :=
  {| ci_item := {| it_id := id; it_version := version; it_feature := 10; it_account := true; it_quantity := 100; it_reset := Some month; it_reset_count := 1;
       it_expires_after := None; it_expiry := None; it_expiry_count := None |}; ci_allocation := true |}.
Definition twoVersions : list CatalogItem := [monthly 101 1; monthly 102 2].

Definition granted (id item quantity : Z) : Allocation :=
  {| al_id := id; al_feature := 10; al_entity := None; al_item := Some item; al_source := source_subscription; al_key := None;
     al_quantity := quantity; al_reversed := 0; al_consumed := 0; al_held := 0; al_start := Some 0; al_end := Some 1000; al_expires := Some 1000;
     al_reversed_at := None; al_rollover := None; al_origin := None |}.

Definition upgrade (balances usages : list Z) : CarryOverInput :=
  {| in_change := 7; in_change_at := 15; in_outgoing := 1; in_incoming := 2; in_balances := balances; in_usages := usages;
     in_period_start := 0; in_period_end := Some 1000 |}.

Definition noLevels : Z -> bool := fun _ => false.

(** Thirty units used of the first version's allowance, and the second version's allowance granted. *)
Definition usedLedger : Ledger :=
  {| lg_rows := updateRow 1 (consume 30) [granted 1 101 100] ++ [granted 2 102 200]; lg_carried := []; lg_nextId := 3 |}.
Definition useAt (t : Z) : Event := {| ev_alloc := 1; ev_at := t; ev_left := 30 |}.
Definition beforeUpgrade : History := {| hs_clock := 10; hs_events := [useAt 10]; hs_ledger := usedLedger |}.

(** The upgrade carries the usage. *)
Definition ledgerOf (r : result Ledger) : Ledger := match r with Ok s => s | Err _ => emptyLedger end.
Definition upgradedLedger : Ledger := ledgerOf (switchVersion twoVersions noLevels true (upgrade [] [10]) 20 usedLedger).
Definition afterUpgrade : History := {| hs_clock := 20; hs_events := [useAt 10]; hs_ledger := upgradedLedger |}.

Lemma before_reached : reaches twoVersions noLevels beforeUpgrade.
Proof.
  unfold reaches. eapply rtc_l; [apply (happens_grant _ _ 0 [] emptyLedger (granted 1 101 100)); reflexivity|].
  eapply rtc_l; [apply (happens_use _ _ 0 [] _ 10 1 30 (consume 30)); [done|done|cbn; by constructor|by intros r]|].
  eapply rtc_l; [apply (happens_grant _ _ 10 _ _ (granted 2 102 200)); reflexivity|]. apply rtc_refl.
Qed.

Lemma upgrade_reached : reaches twoVersions noLevels afterUpgrade.
Proof.
  eapply rtc_r; [exact before_reached|]. apply (happens_switch _ _ 10 [useAt 10] usedLedger true (upgrade [] [10]) 20); [done|done| |by vm_compute].
  intros c Hc. by apply elem_of_nil in Hc.
Qed.

Lemma carries_account_for_use_witness : reaches twoVersions noLevels afterUpgrade /\
  map (fun r => (al_id r, al_consumed r, heldUse upgradedLedger (al_id r))) (lg_rows upgradedLedger) = [(1, 30, 30); (2, 30, 30)] /\
  (forall c, c ∈ lg_carried upgradedLedger -> 0 <= cu_applied c <= cu_requested c).
Proof.
  split; [exact upgrade_reached|]. split; [by vm_compute|]. exact (proj2 (proj2 (carries_account_for_use twoVersions noLevels afterUpgrade upgrade_reached))).
Defined.

Lemma correction_takes_copies_back_witness : reaches twoVersions noLevels afterUpgrade /\
  (exists s', correctDeduction 30 1 10 12 upgradedLedger = Ok s') /\
  map (fun r => (al_id r, al_consumed r)) (lg_rows (ledgerOf (correctDeduction 30 1 10 12 upgradedLedger))) = [(1, 18); (2, 18)].
Proof.
  split; [exact upgrade_reached|]. split; [|by vm_compute].
  assert (Hq : 0 < 12 <= ev_left (useAt 10)) by done. assert (clk20 : hs_clock afterUpgrade <= 30) by done.
  refine (match correction_takes_copies_back twoVersions noLevels afterUpgrade 30 0%nat (useAt 10) 12 upgrade_reached clk20 eq_refl Hq with
    ex_intro _ s' H => ex_intro _ s' (proj1 H) end).
Defined.

Lemma switch_counts_use_once_witness : reaches twoVersions noLevels beforeUpgrade /\
  switchVersion twoVersions noLevels true (upgrade [] [10]) 20 usedLedger = Ok upgradedLedger /\ distinctUse usedLedger = 30 /\ distinctUse upgradedLedger = distinctUse usedLedger.
Proof.
  assert (Hl : forall c, c ∈ lg_carried usedLedger -> later_change (upgrade [] [10]) c) by (intros c Hc; by apply elem_of_nil in Hc).
  split; [exact before_reached|]. split; [by vm_compute|]. split; [by vm_compute|].
  refine (switch_counts_use_once twoVersions noLevels beforeUpgrade true (upgrade [] [10]) 20 upgradedLedger before_reached _ _ Hl _); [done|done|by vm_compute].
Defined.

(** A carry's time is its transaction's start, an event's the instant it was recorded.  Use recorded
    after the switch's transaction began, and committed before it locks the allowances, is carried
    with an earlier time than the event's: a correction does not find the copy, and the use stays
    charged on the incoming allowance. *)
Example raced_use_stays_charged :
  let consumption r := map (fun x => (al_id x, al_consumed x)) (lg_rows (ledgerOf r)) in
  consumption (correctDeduction 30 1 10 30 upgradedLedger) = [(1, 0); (2, 0)] /\
  consumption (correctDeduction 30 1 25 30 upgradedLedger) = [(1, 30); (2, 30)].
Proof. by vm_compute. Qed.

(** ** A carried balance *)

Lemma existsb_eqb x l : existsb (Z.eqb x) l = bool_decide (x ∈ l).
Proof.
  destruct (existsb (Z.eqb x) l) eqn:E; symmetry.
  - apply existsb_exists in E as (y & Hy & ->%Z.eqb_eq). by apply bool_decide_eq_true, list_elem_of_In.
  - apply bool_decide_eq_false. intros Hx. rewrite <- not_true_iff_false in E. apply E, existsb_exists. exists x. split; [by apply list_elem_of_In|apply Z.eqb_refl].
Qed.

Section Return.
Context (items : list CatalogItem) (nc : Z -> bool) (incoming now : Z) (s : Ledger).
Context (Hnd : NoDup (map al_id (lg_rows s))).

Definition reopening : Allocation -> bool := reopens items nc incoming now (lg_rows s).
Definition reopenedIds : list Z := map al_id (List.filter reopening (lg_rows s)).
Definition reopenedRows : list Allocation := map (fun r => if reopening r then reopen items incoming r else r) (lg_rows s).

Lemma reopening_source r : reopening r = true -> al_source r = source_subscription.
Proof using. unfold reopening, reopens. destruct (versionItem _ _ _); [|done]. rewrite !andb_true_iff, bool_decide_eq_true. tauto. Qed.

Lemma reopened_id r : r ∈ lg_rows s -> al_id r ∈ reopenedIds <-> reopening r = true.
Proof using Hnd.
  intros Hr. unfold reopenedIds. split.
  - intros (r' & Hid & Hr')%list_elem_of_fmap. apply list_elem_of_In, filter_In in Hr' as [Hr'%list_elem_of_In Hp].
    assert (r' = r) as <- by (by apply (NoDup_key_inj al_id (lg_rows s))). done.
  - intros H. apply list_elem_of_fmap_2. apply list_elem_of_In, filter_In. split; [by apply list_elem_of_In|done].
Qed.

(** The carries are as they were when the allowances are reopened. *)
Lemma reopenedRows_carry x : al_source x = source_carry_over -> x ∈ reopenedRows <-> x ∈ lg_rows s.
Proof using.
  intros Hx. unfold reopenedRows. split.
  - intros (r & E & Hr)%list_elem_of_fmap. destruct (reopening r) eqn:Er; [|by subst x]. exfalso. apply reopening_source in Er. subst x. cbn in Hx. congruence.
  - intros Hr. apply list_elem_of_fmap. exists x. split; [|done]. destruct (reopening x) eqn:Er; [|done]. apply reopening_source in Er. congruence.
Qed.

Lemma resume_rows : lg_rows (resumeReturningAllowances items nc incoming now s) = map (returnCarry now reopenedIds reopenedRows) reopenedRows.
Proof using. done. Qed.

(** A live carry of a reopened allowance ends and gives the rest back. *)
Lemma resume_reopened o k : o ∈ lg_rows s -> reopening o = true -> k ∈ lg_rows s -> al_source k = source_carry_over -> al_origin k = Some (al_id o) ->
  funded now k = true -> (forall x, x ∈ lg_rows s -> al_source x = source_carry_over -> al_origin x = Some (al_id o) -> funded now x = true -> x = k) ->
  with_quantities (reopen items incoming o) (al_quantity o) (Z.min (al_quantity o) (al_reversed o + taken k)) (al_consumed o) ∈ lg_rows (resumeReturningAllowances items nc incoming now s) /\
  endNow now k ∈ lg_rows (resumeReturningAllowances items nc incoming now s).
Proof using Hnd.
  intros Ho Hr Hk Hks Hko Hkf Huniq. rewrite resume_rows. assert (Hke : carryEnds now reopenedIds k = true).
  { unfold carryEnds. rewrite bool_decide_true by done. rewrite Hkf, Hko, existsb_eqb. cbn. apply bool_decide_eq_true. by apply reopened_id. }
  split.
  - apply list_elem_of_fmap. exists (reopen items incoming o). split.
    + unfold returnCarry. assert (Hne : carryEnds now reopenedIds (reopen items incoming o) = false).
      { unfold carryEnds. rewrite bool_decide_false; [done|]. cbn. rewrite (reopening_source o Hr). done. }
      rewrite Hne. destruct (List.find _ reopenedRows) as [x|] eqn:E.
      * apply find_some in E as [Hx [He Hxo%bool_decide_eq_true]%andb_true_iff]. cbn in Hxo. pose proof He as He2. unfold carryEnds in He2. rewrite !andb_true_iff, bool_decide_eq_true in He2. destruct He2 as [[Hxs Hxf] _].
        apply list_elem_of_In, (reopenedRows_carry x Hxs) in Hx. rewrite (Huniq x Hx Hxs Hxo Hxf). done.
      * exfalso. apply (find_none _ _) with (x := k) in E; [|by apply list_elem_of_In, reopenedRows_carry]. cbn in E. rewrite Hke, Hko, bool_decide_true in E; done.
    + unfold reopenedRows. apply list_elem_of_fmap. exists o. by rewrite Hr.
  - apply list_elem_of_fmap. exists k. split; [|by apply reopenedRows_carry]. unfold returnCarry. by rewrite Hke.
Qed.

(** A row that is neither reopened nor a carry stays. *)
Lemma resume_kept r : r ∈ lg_rows s -> reopening r = false -> al_source r <> source_carry_over -> r ∈ lg_rows (resumeReturningAllowances items nc incoming now s).
Proof using Hnd.
  intros Hr Hre Hs. rewrite resume_rows. apply list_elem_of_fmap. exists r. split; [|unfold reopenedRows; apply list_elem_of_fmap; exists r; by rewrite Hre].
  unfold returnCarry. assert (Hne : carryEnds now reopenedIds r = false) by (unfold carryEnds; by rewrite bool_decide_false).
  rewrite Hne. destruct (List.find _ reopenedRows) as [x|] eqn:E; [|done]. exfalso.
  apply find_some in E as [Hx [He Hxo%bool_decide_eq_true]%andb_true_iff]. unfold carryEnds in He. rewrite Hxo, existsb_eqb, !andb_true_iff, !bool_decide_eq_true in He.
  destruct He as [_ Hin]. apply (reopened_id r Hr) in Hin. congruence.
Qed.
End Return.

(** *** The carries a switch makes *)

(** [k] is the change's carry of [o]'s unused balance, as it was made. *)
Record carry_of (input : CarryOverInput) (o k : Allocation) : Prop := {
  co_source : al_source k = source_carry_over; co_key : al_key k = Some (carry_key (in_change input) (al_id o)); co_origin : al_origin k = Some (al_id o);
  co_quantity : al_quantity k = unused o; co_reversed : al_reversed k = 0; co_consumed : al_consumed k = 0; co_held : al_held k = 0;
  co_reversed_at : al_reversed_at k = None }.

Lemma carryBalance_rows items input now s o s' : carryBalance items input now s o = Ok s' -> exists new, lg_rows s' = lg_rows s ++ new /\
  (forall x, x ∈ new -> carry_of input o x) /\
  (0 < unused o -> (forall x, x ∈ lg_rows s -> al_key x <> Some (carry_key (in_change input) (al_id o))) ->
     (exists k, new = [k]) /\ forall x, x ∈ lg_rows s -> al_origin x <> Some (al_id o)).
Proof.
  unfold carryBalance. destruct (Z.leb_spec (unused o) 0) as [Hz|Hp].
  { intros [= <-]. exists []. rewrite app_nil_r. split_and!; [done|by intros x ?%elem_of_nil|lia]. }
  destruct (carriedExpiry _ _ _ _) as [expiresAt|]; [|done]. cbn [mbind result_bind]. destruct (carryKeyTaken _ _ _ _) eqn:Ek.
  - intros [= <-]. exists []. rewrite app_nil_r. split; [done|]. split; [by intros x ?%elem_of_nil|]. intros _ Hk. exfalso.
    apply existsb_exists in Ek as (x & Hx%list_elem_of_In & [_ Hkey%bool_decide_eq_true]%andb_true_iff). by apply (Hk x).
  - destruct (carriedAlready _ _) eqn:Ec; [done|]. intros [= <-]. eexists. split; [done|]. split; [by intros x ->%list_elem_of_singleton|]. intros _ _. split; [by eexists|].
    intros x Hx%list_elem_of_In E. rewrite <- not_true_iff_false in Ec. apply Ec, existsb_exists. exists x. split; [done|]. by apply bool_decide_eq_true.
Qed.

Lemma carryBalances_rows items input now os : forall s s', foldM (carryBalance items input now) os s = Ok s' -> exists new, lg_rows s' = lg_rows s ++ new /\
  (forall x, x ∈ new -> exists o, o ∈ os /\ carry_of input o x) /\
  forall o, o ∈ os -> NoDup (map al_id os) -> 0 < unused o -> (forall x, x ∈ lg_rows s -> al_key x <> Some (carry_key (in_change input) (al_id o))) ->
    (exists k, k ∈ new /\ carry_of input o k /\ forall x, x ∈ new -> al_origin x = Some (al_id o) -> x = k) /\
    forall x, x ∈ lg_rows s -> al_origin x <> Some (al_id o).
Proof.
  induction os as [|o0 os IH]; intros s s'.
  { intros [= <-]. exists []. rewrite app_nil_r. split_and!; [done|by intros x ?%elem_of_nil|by intros o ?%elem_of_nil]. }
  cbn [foldM]. destruct (carryBalance items input now s o0) as [s1|] eqn:E; [|done]. cbn [mbind result_bind]. intros Hf.
  destruct (carryBalance_rows _ _ _ _ _ _ E) as (n1 & R1 & C1 & K1). destruct (IH s1 s' Hf) as (n2 & R2 & C2 & K2).
  exists (n1 ++ n2). split; [by rewrite R2, R1, app_assoc|]. split.
  - intros x Hx. apply elem_of_app in Hx as [Hx|Hx]; [exists o0; split; [constructor|auto]|]. destruct (C2 x Hx) as (o & ? & ?). exists o. split; [by constructor|done].
  - intros o Ho Hnd Hu Hkey. cbn [map] in Hnd. apply NoDup_cons in Hnd as [Hn Hnd]. destruct (decide (al_id o = al_id o0)) as [Eid|Hne].
    + assert (o = o0) as ->. { apply elem_of_cons in Ho as [->|Ho]; [done|]. exfalso. apply Hn. rewrite <- Eid. by apply list_elem_of_fmap_2. }
      destruct (K1 Hu Hkey) as [[k ->] Hno]. split; [|done]. exists k. split; [by constructor|]. split; [apply C1; constructor|]. intros x Hx Hxo. cbn [app] in Hx. apply elem_of_cons in Hx as [->|Hx]; [done|].
      destruct (C2 x Hx) as (o & Ho2 & Hco). rewrite (co_origin _ _ _ Hco) in Hxo. injection Hxo as Hxo. exfalso. apply Hn. rewrite <- Hxo. by apply list_elem_of_fmap_2.
    + apply elem_of_cons in Ho as [->|Ho]; [done|]. destruct (K2 o Ho Hnd Hu) as [(k & Hk & Hco & Hun) Hno].
      { intros x Hx. rewrite R1 in Hx. apply elem_of_app in Hx as [Hx|Hx]; [by apply Hkey|]. rewrite (co_key _ _ _ (C1 x Hx)). congruence. }
      split; [|intros x Hx; apply Hno; rewrite R1; apply elem_of_app; by left].
      exists k. split; [apply elem_of_app; by right|]. split; [done|]. intros x Hx Hxo. apply elem_of_app in Hx as [Hx|Hx]; [|by apply Hun].
      rewrite (co_origin _ _ _ (C1 x Hx)) in Hxo. congruence.
Qed.

Lemma carryUsage_rows items input now st o : lg_rows (carryUsage items input now st o).1 = lg_rows st.1 \/
  exists target units, usageTarget items input now (lg_rows st.1) o = Some target /\ lg_rows (carryUsage items input now st o).1 = updateRow (al_id target) (consume units) (lg_rows st.1).
Proof.
  destruct st as [s edges]. unfold carryUsage. cbn [fst]. destruct (usageTarget items input now (lg_rows s) o) as [target|]; [|by left].
  destruct (_ =? 0); [by left|]. cbn [fst lg_rows]. match goal with |- context [if 0 <? ?u then _ else _] => destruct (0 <? u) end; [right; by eexists _, _|by left].
Qed.

(** Carrying usage changes the consumption of the incoming allowances only. *)
Lemma carryOverUsage_rows items input now s : NoDup (map al_id (lg_rows s)) ->
  map al_id (lg_rows (carryOverUsage items input now s)) = map al_id (lg_rows s) /\
  forall r, al_source r <> source_subscription \/ ofVersion items (in_incoming input) r = false -> r ∈ lg_rows (carryOverUsage items input now s) <-> r ∈ lg_rows s.
Proof.
  unfold carryOverUsage. generalize (sortBy byId (List.filter (usageOrigin items input now) (lg_rows s))) as os. generalize (carriedUsageEdges s) as edges.
  intros edges os. revert s edges. induction os as [|o os IH]; intros s edges Hnd; [done|]. cbn [fold_left].
  destruct (carryUsage_rows items input now (s, edges) o) as [E|(target & units & Ht & E)]; destruct (carryUsage items input now (s, edges) o) as [s1 edges1]; cbn [fst] in *.
  - destruct (IH s1 edges1) as [I1 I2]; [by rewrite E|]. split; [by rewrite I1, E|]. intros r Hr. by rewrite (I2 r Hr), E.
  - assert (Hids : map al_id (lg_rows s1) = map al_id (lg_rows s)) by (rewrite E; by apply updateRow_ids).
    destruct (IH s1 edges1) as [I1 I2]; [by rewrite Hids|]. split; [by rewrite I1|]. intros r Hr. rewrite (I2 r Hr), E.
    destruct (usageTarget_spec _ _ _ _ _ _ Ht) as (Hin & Hv & _ & _ & _ & _ & Hsrc). unfold updateRow. split.
    + intros (x & -> & Hx)%list_elem_of_fmap. destruct (Z.eqb_spec (al_id x) (al_id target)) as [Eid|]; [|done].
      assert (x = target) as -> by (by apply (NoDup_key_inj al_id (lg_rows s))). destruct Hr as [Hr|Hr]; [by cbn in Hr|]. exfalso.
      assert (Hc : ofVersion items (in_incoming input) (consume units target) = ofVersion items (in_incoming input) target) by done. congruence.
    + intros Hx. apply list_elem_of_fmap. exists r. split; [|done]. destruct (Z.eqb_spec (al_id r) (al_id target)) as [Eid|]; [|done].
      assert (r = target) as -> by (by apply (NoDup_key_inj al_id (lg_rows s))). destruct Hr as [Hr|Hr]; [done|congruence].
Qed.

Lemma resume_keys items nc incoming now s x : x ∈ lg_rows (resumeReturningAllowances items nc incoming now s) ->
  exists x0, x0 ∈ lg_rows s /\ al_key x0 = al_key x.
Proof.
  rewrite resume_rows. intros (r & -> & Hr)%list_elem_of_fmap. unfold reopenedRows in Hr. apply list_elem_of_fmap in Hr as (r0 & -> & Hr0). exists r0. split; [done|].
  unfold returnCarry. destruct (carryEnds _ _ _); [|match goal with |- context [List.find ?p ?l] => destruct (List.find p l) end]; by destruct (reopening _ _ _ _ _ r0).
Qed.

Lemma end_rows items outgoing now s r : r ∈ lg_rows (endOutgoingPlanAllowances items outgoing now s) -> al_source r = source_carry_over -> r ∈ lg_rows s.
Proof.
  intros (x & -> & Hx)%list_elem_of_fmap. destruct (bool_decide (al_source x = source_subscription)) eqn:E; cbn [andb]; [|by rewrite andb_false_l || done].
  apply bool_decide_eq_true in E. destruct (_ && _); [|done]. cbn. congruence.
Qed.

Lemma end_kept items outgoing now s r : r ∈ lg_rows s -> al_source r = source_carry_over -> r ∈ lg_rows (endOutgoingPlanAllowances items outgoing now s).
Proof. intros Hr Hs. apply list_elem_of_fmap. exists r. split; [|done]. rewrite bool_decide_false by congruence. done. Qed.

Section SwitchBalances.
Context (items : list CatalogItem) (nc : Z -> bool) (clock now : Z) (es : list Event) (input : CarryOverInput) (s s1 : Ledger) (o : Allocation).
Context (Hb : books clock es s) (Hclock : clock <= now) (Hes : forall e, e ∈ es -> ev_at e < now).
Context (Hversions : in_outgoing input <> in_incoming input) (Hlater : forall c, c ∈ lg_carried s -> later_change input c).
Context (Ho : o ∈ lg_rows s) (Hbo : balanceOrigin items input now o = true) (Hu : 0 < unused o).
Context (Hkey : forall x, x ∈ lg_rows s -> al_key x <> Some (carry_key (in_change input) (al_id o))).
Context (Hs : switchVersion items nc true input now s = Ok s1).

Lemma origin_facts : ofVersion items (in_outgoing input) o = true /\ al_source o = source_subscription /\ funded now o = true /\ in_balances input <> [].
Proof using Hbo.
  pose proof Hbo as H. unfold balanceOrigin in H. rewrite !andb_true_iff, bool_decide_eq_true in H. destruct H as [[[H1 H2] H3] H4]. split_and!; try done. by destruct (in_balances input).
Qed.

Lemma switch_balance : exists k, k ∈ lg_rows s1 /\ carry_of input o k /\ endNow now o ∈ lg_rows s1 /\
  forall x, x ∈ lg_rows s1 -> al_source x = source_carry_over -> al_origin x = Some (al_id o) -> x = k.
Proof using Hb Hbo Hkey Ho Hs Hu Hversions.
  destruct origin_facts as (Hv & Hsrc & Hf & Hne). pose proof Hs as Hrun. unfold switchVersion, carryOverAllowances in Hrun. rewrite (bool_decide_false (in_balances input = [])) in Hrun by done.
  destruct (resume_books items nc (in_incoming input) now clock es s Hb) as (R1 & _ & _). pose proof (proj1 (bk_rows _ _ _ Hb)) as Hnd0.
  assert (Hor : o ∈ lg_rows (resumeReturningAllowances items nc (in_incoming input) now s)).
  { apply resume_kept; [done|done| |congruence]. unfold reopening, reopens. destruct (versionItem _ _ _); [|done]. unfold funded in Hf. apply andb_true_iff in Hf as [_ ->]. cbn.
    by rewrite !andb_false_r. }
  assert (Hkr : forall x, x ∈ lg_rows (resumeReturningAllowances items nc (in_incoming input) now s) -> al_key x <> Some (carry_key (in_change input) (al_id o))).
  { intros x Hx. destruct (resume_keys _ _ _ _ _ _ Hx) as (x0 & Hx0 & <-). by apply Hkey. }
  set (sr := resumeReturningAllowances items nc (in_incoming input) now s) in *. clearbody sr.
  destruct (carryOverBalances items input now sr) as [sb|] eqn:Eb; [|done]. cbn [mbind result_bind] in Hrun.
  destruct (carryOverBalances_books _ _ _ _ _ _ _ R1 Eb) as (B1 & _ & _). unfold carryOverBalances in Eb.
  destruct (carryBalances_rows _ _ _ _ _ _ Eb) as (new & Rb & Cb & Kb).
  assert (Hos : o ∈ sortBy byId (List.filter (balanceOrigin items input now) (lg_rows sr))).
  { rewrite sortBy_perm. apply list_elem_of_In, filter_In. split; [by apply list_elem_of_In|done]. }
  destruct (Kb o Hos) as [(k & Hk & Hco & Hun) Hno]; [|done|done|].
  { pose proof (sortBy_perm byId (List.filter (balanceOrigin items input now) (lg_rows sr))) as Hp. apply (fmap_Permutation al_id) in Hp.
    change (NoDup (al_id <$> sortBy byId (List.filter (balanceOrigin items input now) (lg_rows sr)))). rewrite Hp. apply NoDup_filter_key, (bk_rows _ _ _ R1). }
  (* the usage carries leave the carry and its origin alone *)
  set (su := if bool_decide (in_usages input = []) then sb else carryOverUsage items input now sb) in *.
  assert (Hrows : forall r, al_source r <> source_subscription \/ ofVersion items (in_incoming input) r = false -> r ∈ lg_rows su <-> r ∈ lg_rows sb).
  { intros r Hr. unfold su. destruct (bool_decide _); [done|]. by apply carryOverUsage_rows; [apply (bk_rows _ _ _ B1)|]. }
  injection Hrun as <-. exists k. split_and!.
  - apply end_kept; [|apply (co_source _ _ _ Hco)]. apply Hrows; [left; by rewrite (co_source _ _ _ Hco)|]. rewrite Rb. apply elem_of_app. by right.
  - done.
  - unfold endOutgoingPlanAllowances. cbn [lg_rows with_rows]. apply list_elem_of_fmap. exists o. rewrite (bool_decide_true (al_source o = source_subscription)) by done. rewrite Hf, Hv. split; [done|].
    apply Hrows; [|rewrite Rb; apply elem_of_app; by left]. right. apply not_true_is_false. intros H. by apply Hversions, (ofVersion_unique items _ _ o).
  - intros x Hx Hxs Hxo. apply end_rows in Hx; [|done]. apply Hrows in Hx; [|left; by rewrite Hxs]. rewrite Rb in Hx. apply elem_of_app in Hx as [Hx|Hx]; [by destruct (Hno x Hx)|by apply Hun].
Qed.
End SwitchBalances.

(** What later writes made of an allocation: used, held by reservations, debited. *)
Definition spend (used held debited : Z) (r : Allocation) : Allocation :=
  {| al_id := al_id r; al_feature := al_feature r; al_entity := al_entity r; al_item := al_item r; al_source := al_source r;
     al_key := al_key r; al_quantity := al_quantity r; al_reversed := al_reversed r + debited; al_consumed := al_consumed r + used;
     al_held := al_held r + held; al_start := al_start r; al_end := al_end r; al_expires := al_expires r;
     al_reversed_at := al_reversed_at r; al_rollover := al_rollover r; al_origin := al_origin r |}.

(** C21: a balance that a plan change carried comes back.  A switch that starts after the recorded
    usage, of a change created after every change that carried usage before, turns an outgoing
    allowance's unused balance into a carry of that quantity, and ends the allowance.  When a return
    to the version reopens the allowance while the carry is live, whatever was used, held and debited
    of the carry by then, the carry ends, and the allowance has exactly what the carry had left:
    what was unused less what the carry spent, holds and had debited. *)
Theorem carried_balance_returns items nonConsumable h input now s1 o (Hh : reaches items nonConsumable h) (Hnow : hs_clock h < now)
  (Hversions : in_outgoing input <> in_incoming input) (Hlater : forall c, c ∈ lg_carried (hs_ledger h) -> later_change input c)
  (Ho : o ∈ lg_rows (hs_ledger h)) (Hbo : balanceOrigin items input now o = true) (Hu : 0 < unused o) (Hheld : 0 <= al_held o)
  (Hkey : forall x, x ∈ lg_rows (hs_ledger h) -> al_key x <> Some (carry_key (in_change input) (al_id o)))
  (Hs : switchVersion items nonConsumable true input now (hs_ledger h) = Ok s1) :
  exists k, k ∈ lg_rows s1 /\ carry_of input o k /\ endNow now o ∈ lg_rows s1 /\
  forall used held debited later, now <= later -> 0 <= used -> 0 <= held -> 0 <= debited -> used + held + debited <= unused o ->
    let gone := spend used held debited k in
    let s2 := with_rows s1 (updateRow (al_id k) (spend used held debited) (lg_rows s1)) in
    funded later k = true -> reopens items nonConsumable (in_outgoing input) later (lg_rows s2) (endNow now o) = true ->
    exists o3 k3, o3 ∈ lg_rows (resumeReturningAllowances items nonConsumable (in_outgoing input) later s2) /\
      k3 ∈ lg_rows (resumeReturningAllowances items nonConsumable (in_outgoing input) later s2) /\
      al_id o3 = al_id o /\ funded later o3 = true /\ unused o3 = unused gone /\ unused gone = unused o - used - held - debited /\
      al_id k3 = al_id k /\ funded later k3 = false.
Proof.
  pose proof (reaches_books items nonConsumable h Hh) as Hb.
  assert (Hes : forall e, e ∈ hs_events h -> ev_at e < now) by (intros e He; destruct (bk_events _ _ _ Hb e He) as (_ & ? & _); lia).
  destruct (switch_balance items nonConsumable (hs_clock h) now (hs_events h) input _ s1 o Hb Hversions Ho Hbo Hu Hkey Hs) as (k & Hk & Hco & Hend & Hun).
  exists k. split_and!; [done|done|done|]. intros used held debited later Hl Hu0 Hh0 Hd0 Hall gone s2 Hkf Hre.
  destruct (switch_books _ _ _ _ _ _ _ _ _ Hb (Z.lt_le_incl _ _ Hnow) Hes Hversions Hlater Hs) as [B1 _]. pose proof (proj1 (bk_rows _ _ _ B1)) as Hnd1.
  assert (Hnd2 : NoDup (map al_id (lg_rows s2))) by (unfold s2; cbn [lg_rows with_rows]; by rewrite updateRow_ids).
  destruct (origin_facts items now input o Hbo) as (Hv & Hsrc & Hf & _).
  assert (Hko : al_id k <> al_id o).
  { intros E. assert (k = endNow now o) as Hke by (by apply (NoDup_key_inj al_id (lg_rows s1))). pose proof (co_source _ _ _ Hco) as H. rewrite Hke in H. cbn in H. congruence. }
  assert (Ho2 : endNow now o ∈ lg_rows s2).
  { apply list_elem_of_fmap. exists (endNow now o). split; [|done]. cbn. rewrite (proj2 (Z.eqb_neq _ _)) by congruence. done. }
  assert (Hk2 : gone ∈ lg_rows s2) by (unfold gone; apply list_elem_of_fmap; exists k; by rewrite Z.eqb_refl).
  destruct (resume_reopened items nonConsumable (in_outgoing input) later s2 Hnd2 (endNow now o) (gone) Ho2 Hre Hk2 (co_source _ _ _ Hco) (co_origin _ _ _ Hco) Hkf) as [H1 H2].
  { intros x (x1 & -> & Hx1)%list_elem_of_fmap Hxs Hxo Hxf. assert (Hx : al_source x1 = source_carry_over /\ al_origin x1 = Some (al_id o)) by (by destruct (al_id x1 =? al_id k)).
    destruct Hx as [Y1 Y2]. assert (x1 = k) as ->; [by apply Hun|by rewrite Z.eqb_refl]. }
  eexists _, _. split; [exact H1|]. split; [exact H2|]. split; [done|]. pose proof (co_reversed _ _ _ Hco) as E1. pose proof (co_consumed _ _ _ Hco) as E2. pose proof (co_held _ _ _ Hco) as E3.
  assert (Hcons : 0 <= al_consumed o) by by apply (bk_rows _ _ _ Hb).
  split_and!.
  - unfold reopens in Hre. destruct (versionItem items (in_outgoing input) (endNow now o)) as [it|] eqn:Ev; [|done]. rewrite !andb_true_iff in Hre.
    destruct Hre as [[[[[[[_ Hrv] _] _] _] _] _] Hnat]. unfold funded, open, reopen. rewrite Ev.
    cbn [al_reversed_at al_expires with_quantities with_expiry endNow mbind option_bind] in *. rewrite Hrv. by destruct (naturalExpiresAt it (endNow now o)).
  - unfold unused, taken, gone, spend in *. cbn. rewrite (co_quantity _ _ _ Hco), E1, E2, E3. unfold unused. lia.
  - unfold unused, gone, spend in *. cbn. rewrite (co_quantity _ _ _ Hco), E1, E2, E3. unfold unused. lia.
  - done.
  - unfold funded, open. cbn. by rewrite Z.ltb_irrefl, andb_false_r.
Qed.

(** Seventy units are unused; twenty-five are spent from the carry, ten held and five debited before
    the return. *)
Definition balanceLedger : Ledger := ledgerOf (switchVersion twoVersions noLevels true (upgrade [10] []) 20 usedLedger).
Definition usedRow : Allocation := consume 30 (granted 1 101 100).

Lemma carried_balance_returns_witness : reaches twoVersions noLevels beforeUpgrade /\ unused usedRow = 70 /\
  (exists k, k ∈ lg_rows balanceLedger /\ carry_of (upgrade [10] []) usedRow k /\ endNow 20 usedRow ∈ lg_rows balanceLedger) /\
  map (fun r => (al_id r, unused r, funded 40 r)) (lg_rows (resumeReturningAllowances twoVersions noLevels 1 40
    (with_rows balanceLedger (updateRow 3 (spend 25 10 5) (lg_rows balanceLedger))))) = [(1, 30, true); (2, 200, true); (3, 30, false)].
Proof.
  split; [exact before_reached|]. split; [by vm_compute|]. split; [|by vm_compute].
  assert (Hrow : usedRow ∈ lg_rows usedLedger) by constructor.
  assert (Hl : forall c, c ∈ lg_carried usedLedger -> later_change (upgrade [10] []) c) by (intros c Hc; by apply elem_of_nil in Hc).
  assert (Hrows : forall x, x ∈ lg_rows usedLedger -> x = usedRow \/ x = granted 2 102 200).
  { intros x Hx. change (x ∈ [usedRow; granted 2 102 200]) in Hx. apply elem_of_cons in Hx as [->|Hx]; [by left|]. apply list_elem_of_singleton in Hx. by right. }
  assert (Hk : forall x, x ∈ lg_rows usedLedger -> al_key x <> Some (carry_key 7 1)) by (by intros x [-> | ->]%Hrows).
  refine (match carried_balance_returns twoVersions noLevels beforeUpgrade (upgrade [10] []) 20 balanceLedger usedRow before_reached _ _ Hl Hrow _ _ _ Hk _ with
    ex_intro _ k (conj H1 (conj H2 (conj H3 _))) => ex_intro _ k (conj H1 (conj H2 H3)) end); by vm_compute.
Defined.

(** Back on the first version, its allowance is live again, but it cannot be carried again: the
    carry it once had, ended by the return, still has the index's entry, which the statement's
    [ON CONFLICT] does not cover.  The switch the provider made cannot be recorded. *)
Definition returnChange : CarryOverInput :=
  {| in_change := 8; in_change_at := 25; in_outgoing := 2; in_incoming := 1; in_balances := []; in_usages := []; in_period_start := 0; in_period_end := Some 1000 |}.
Definition upgradeAgain : CarryOverInput :=
  {| in_change := 9; in_change_at := 35; in_outgoing := 1; in_incoming := 2; in_balances := [10]; in_usages := []; in_period_start := 0; in_period_end := Some 1000 |}.
Example second_carry_fails :
  (s ← switchVersion twoVersions noLevels false returnChange 30 balanceLedger; switchVersion twoVersions noLevels true upgradeAgain 40 s) = Err carriedTwice.
Proof. by vm_compute. Qed.

(** After the upgrade that carried thirty units of usage, a preview of the return says that its
    allowance already holds them. *)
Example return_preview : usageHeldByIncomingAllowances twoVersions 2 1 40 upgradedLedger = [(10, 30)].
Proof. by vm_compute. Qed.
