(* ===== verification/SubscriptionChanges.v ===== *)
(** * Subscription changes ([db/repository/recurring-pricing.ts], [recurring-retry.ts],
    [workers/recurring-billing.ts], [db/repository/catalog-allocations.ts])

    A change of plan version is a row that waits until it is effective, is claimed by a worker under a
    lease, and ends applied, failed or cancelled.  The version itself moves when the provider's
    snapshot of the subscription is synced: [resolveSubscriptionPlanVersion] reads the applied and the
    waiting changes, what the snapshot's product is bound to and what the pinned version sells, and
    the sync settles the change that decided.  A promotion a change redeems and the catalog
    migration's job it belongs to are other components'. *)
From S2P Require Import Prelude.

(** ** Rows *)

Inductive SubscriptionStatus := active | grace_period | billing_retry | cancelled | expired | refunded | revoked.
#[export] Instance SubscriptionStatus_eq_dec : EqDecision SubscriptionStatus. Proof. solve_decision. Defined.

Inductive ChangeStatus := change_pending | change_processing | change_applied | change_failed | change_cancelled.
#[export] Instance ChangeStatus_eq_dec : EqDecision ChangeStatus. Proof. solve_decision. Defined.

Inductive EffectiveMode := immediate | period_end.
#[export] Instance EffectiveMode_eq_dec : EqDecision EffectiveMode. Proof. solve_decision. Defined.

(** The [carry_over] column: the features whose balances and whose usage carry. *)
Record CarrySelection := { cs_balances : list Z; cs_usages : list Z }.
#[export] Instance CarrySelection_eq_dec : EqDecision CarrySelection. Proof. solve_decision. Defined.

(** What a caller asks for, resolved against the catalog. *)
Record ChangeRequest := {
  rq_customer : Z; rq_subscription : Z; rq_from : Z; rq_to : Z; rq_carry : CarrySelection; rq_mode : EffectiveMode;
  rq_effective_at : Z; rq_key : string; rq_hash : string }.
#[export] Instance ChangeRequest_eq_dec : EqDecision ChangeRequest. Proof. solve_decision. Defined.

(** A row of [subscription_changes]. *)
Record SubscriptionChange := {
  ch_id : Z; ch_created_at : Z; ch_request : ChangeRequest; ch_status : ChangeStatus; ch_attempts : Z;
  ch_last_error : option string; ch_locked_at : option Z; ch_locked_by : option string; ch_applied_at : option Z;
  ch_synchronized_at : option Z; ch_updated_at : Z }.

Definition ch_subscription (c : SubscriptionChange) : Z := rq_subscription (ch_request c).
Definition ch_from (c : SubscriptionChange) : Z := rq_from (ch_request c).
Definition ch_to (c : SubscriptionChange) : Z := rq_to (ch_request c).

Definition isStatus (status : ChangeStatus) (c : SubscriptionChange) : bool := bool_decide (ch_status c = status).
(** [status IN ('pending', 'processing')] *)
Definition inFlight (c : SubscriptionChange) : bool := isStatus change_pending c || isStatus change_processing c.
(** [status = 'processing' AND locked_by = worker] *)
Definition ownedBy (worker : string) (c : SubscriptionChange) : bool :=
  isStatus change_processing c && bool_decide (ch_locked_by c = Some worker).

(** An update of the columns a transition writes; it stamps [updated_at]. *)
Definition moved (c : SubscriptionChange) (status : ChangeStatus) (attempts : Z) (error : option string)
  (locked : option (Z * string)) (applied : option Z) (now : Z) : SubscriptionChange :=
  {| ch_id := ch_id c; ch_created_at := ch_created_at c; ch_request := ch_request c; ch_status := status; ch_attempts := attempts;
     ch_last_error := error; ch_locked_at := fst <$> locked; ch_locked_by := snd <$> locked; ch_applied_at := applied;
     ch_synchronized_at := ch_synchronized_at c; ch_updated_at := now |}.
Definition synchronized (now : Z) (c : SubscriptionChange) : SubscriptionChange :=
  {| ch_id := ch_id c; ch_created_at := ch_created_at c; ch_request := ch_request c; ch_status := ch_status c; ch_attempts := ch_attempts c;
     ch_last_error := ch_last_error c; ch_locked_at := ch_locked_at c; ch_locked_by := ch_locked_by c; ch_applied_at := ch_applied_at c;
     ch_synchronized_at := Some now; ch_updated_at := now |}.

Definition updateChange (id : Z) (f : SubscriptionChange -> SubscriptionChange) (rows : list SubscriptionChange) : list SubscriptionChange :=
  map (fun c => if ch_id c =? id then f c else c) rows.
Definition changeOf (rows : list SubscriptionChange) (id : Z) : option SubscriptionChange := List.find (fun c => ch_id c =? id) rows.

(** ** Requesting a change *)

Definition persistenceConflict (message code : string) : error := BillingErr message code 409.

Definition withKey (customer : Z) (key : string) (c : SubscriptionChange) : bool :=
  (rq_customer (ch_request c) =? customer) && String.eqb (rq_key (ch_request c)) key.

Definition newChange (id now : Z) (rq : ChangeRequest) : SubscriptionChange :=
  {| ch_id := id; ch_created_at := now; ch_request := rq; ch_status := change_pending; ch_attempts := 0; ch_last_error := None;
     ch_locked_at := None; ch_locked_by := None; ch_applied_at := None; ch_synchronized_at := None; ch_updated_at := now |}.

(** [prepareSubscriptionChange], after [resolveSubscriptionChange]; [expected]: the caller's state
    fingerprint, [current]: the one just resolved.  Answers the change's id. *)
Definition prepareSubscriptionChange (newId now : Z) (expected : option string) (current : string) (rq : ChangeRequest)
  (rows : list SubscriptionChange) : result (Z * list SubscriptionChange) :=
  _ ← throwWhen (match expected with Some e => negb (String.eqb e current) | None => false end)
        (persistenceConflict "Customer or catalog state changed after preview" "COMMERCIAL_PREVIEW_STALE");
  match List.find (withKey (rq_customer rq) (rq_key rq)) rows with
  | Some existing =>
      _ ← throwWhen (negb (String.eqb (rq_hash (ch_request existing)) (rq_hash rq)))
            (persistenceConflict "Idempotency key was reused with a different subscription change" "IDEMPOTENCY_CONFLICT");
      Ok (ch_id existing, rows)
  | None =>
      _ ← throwWhen (existsb (fun c => (ch_subscription c =? rq_subscription rq) && inFlight c) rows)
            (persistenceConflict "Another subscription change is already pending" "SUBSCRIPTION_CHANGE_PENDING");
      Ok (newId, rows ++ [newChange newId now rq])
  end.

(** A catalog migration stages a change: [ON CONFLICT DO NOTHING], on its key or on a change in
    flight ([idx_billing_subscription_changes_pending_scope]). *)
Definition stageChange (newId now : Z) (rq : ChangeRequest) (rows : list SubscriptionChange) : list SubscriptionChange :=
  if existsb (withKey (rq_customer rq) (rq_key rq)) rows || existsb (fun c => (ch_subscription c =? rq_subscription rq) && inFlight c) rows
  then rows else rows ++ [newChange newId now rq].

(** ** Retries *)

Definition RECURRING_JOB_MAX_ATTEMPTS : Z := 20.
Definition FIRST_RETRY_MINUTES : Z := 1.
Definition LONGEST_RETRY_MINUTES : Z := 60.
Definition LARGEST_EXPONENT : Z := 12.
Definition minuteMs : Z := 60000.

Definition recurringRetryDelayMinutes (attempts : Z) : Z :=
  let exponent := Z.min (Z.max (attempts - 1) 0) LARGEST_EXPONENT in
  Z.min LONGEST_RETRY_MINUTES (FIRST_RETRY_MINUTES * 2 ^ exponent).

(** The SQL form; [power] and [LEAST] are exact on these doubles. *)
Definition recurringRetryDue (now : Z) (c : SubscriptionChange) : bool :=
  (ch_attempts c =? 0) ||
  (ch_updated_at c + Z.min LONGEST_RETRY_MINUTES (FIRST_RETRY_MINUTES * 2 ^ Z.min (Z.max (ch_attempts c - 1) 0) LARGEST_EXPONENT) * minuteMs <=? now).

(** ** Claims and leases *)

Definition leaseMs : Z := 5 * minuteMs.

Definition due (now : Z) (c : SubscriptionChange) : bool :=
  (isStatus change_pending c && (rq_effective_at (ch_request c) <=? now) && recurringRetryDue now c) ||
  (isStatus change_processing c && match ch_locked_at c with Some t => t <? now - leaseMs | None => false end).

(** [ORDER BY effective_at, created_at] *)
Definition sooner (a b : SubscriptionChange) : bool :=
  (rq_effective_at (ch_request a) <? rq_effective_at (ch_request b)) ||
  ((rq_effective_at (ch_request a) =? rq_effective_at (ch_request b)) && (ch_created_at a <? ch_created_at b)).

(** [locked]: the rows another transaction has locked, which the claim skips. *)
Definition claimSubscriptionChanges (worker : string) (limit : nat) (locked : Z -> bool) (now : Z) (rows : list SubscriptionChange)
  : list Z * list SubscriptionChange :=
  let ids := map ch_id (firstn limit (sortBy sooner (List.filter (fun c => due now c && negb (locked (ch_id c))) rows))) in
  (ids, map (fun c => if existsb (Z.eqb (ch_id c)) ids
                      then moved c change_processing (ch_attempts c + 1) (ch_last_error c) (Some (now, worker)) (ch_applied_at c) now else c) rows).

Definition renewSubscriptionChangeLease (id : Z) (worker : string) (now : Z) (rows : list SubscriptionChange) : bool * list SubscriptionChange :=
  let owned c := (ch_id c =? id) && ownedBy worker c in
  (existsb owned rows,
   map (fun c => if owned c then moved c (ch_status c) (ch_attempts c) (ch_last_error c) (Some (now, worker)) (ch_applied_at c) now else c) rows).

(** A transition of a change its worker holds. *)
Definition whenOwned (id : Z) (worker : string) (f : SubscriptionChange -> SubscriptionChange) (rows : list SubscriptionChange)
  : result (list SubscriptionChange) :=
  if existsb (fun c => (ch_id c =? id) && ownedBy worker c) rows
  then Ok (map (fun c => if (ch_id c =? id) && ownedBy worker c then f c else c) rows)
  else Err (InternalError "Subscription change was not owned by worker").

Definition markSubscriptionChangeApplied (id : Z) (worker : string) (now : Z) (rows : list SubscriptionChange) : result (list SubscriptionChange) :=
  whenOwned id worker (fun c => moved c change_applied (ch_attempts c) None None (Some now) now) rows.
Definition markSubscriptionChangeFailed (id : Z) (message worker : string) (now : Z) (rows : list SubscriptionChange) : result (list SubscriptionChange) :=
  whenOwned id worker (fun c => moved c (if RECURRING_JOB_MAX_ATTEMPTS <=? ch_attempts c then change_failed else change_pending)
    (ch_attempts c) (Some message) None (ch_applied_at c) now) rows.
Definition markSubscriptionChangeCancelled (id : Z) (reason worker : string) (now : Z) (rows : list SubscriptionChange) : result (list SubscriptionChange) :=
  whenOwned id worker (fun c => moved c change_cancelled (ch_attempts c) (Some reason) None (ch_applied_at c) now) rows.

(** [retryRecurringJob] of a subscription change; [sideEffects]: it redeemed a promotion or belongs
    to a catalog migration. *)
Definition retrySubscriptionChange (sideEffects : bool) (id now : Z) (rows : list SubscriptionChange) : result (list SubscriptionChange) :=
  match changeOf rows id with
  | None => Err (BillingErr "Recurring billing job was not found" "RECURRING_JOB_NOT_FOUND" 404)
  | Some c =>
      _ ← throwWhen (negb (isStatus change_failed c)) (persistenceConflict "only failed jobs can be retried" "RECURRING_JOB_NOT_FAILED");
      _ ← throwWhen sideEffects (persistenceConflict "its failure ended a promotion or a catalog migration" "SUBSCRIPTION_CHANGE_NOT_RETRYABLE");
      _ ← throwWhen (existsb (fun o => (ch_subscription o =? ch_subscription c) && negb (ch_id o =? id) && inFlight o) rows)
            (persistenceConflict "a newer change for its subscription is pending" "SUBSCRIPTION_CHANGE_NOT_RETRYABLE");
      Ok (updateChange id (fun c => moved c change_pending 0 (ch_last_error c) None (ch_applied_at c) now) rows)
  end.

(** The provider moved the subscription: what waited for another pair of versions is cancelled. *)
Definition cancelSupersededSubscriptionChanges (subscription version : Z) (reason : string) (now : Z) (rows : list SubscriptionChange)
  : list SubscriptionChange :=
  map (fun c => if (ch_subscription c =? subscription) && isStatus change_pending c && negb (ch_from c =? version) && negb (ch_to c =? version)
                then moved c change_cancelled (ch_attempts c) (Some reason) None (ch_applied_at c) now else c) rows.

(** [supersedePendingSubscriptionChangeInTx]: the subscription was cancelled at the provider, and with
    it the change still queued; one a worker holds is left to it. *)
Definition supersedePendingSubscriptionChange (subscription : Z) (reason : string) (now : Z) (rows : list SubscriptionChange)
  : list SubscriptionChange :=
  map (fun c => if (ch_subscription c =? subscription) && isStatus change_pending c
                then moved c change_cancelled (ch_attempts c) (Some reason) None (ch_applied_at c) now else c) rows.

(** ** The worker *)

(** What the provider answered a change: applied under a request id, unknown, or an error. *)
Inductive ApplyOutcome := applied (requestId : string) | uncertain | threw (message : string).

(** What the worker's attempt writes. *)
Inductive Mark := mark_applied (requestId : string) | mark_failed (message : string) | mark_cancelled (reason : string).

Definition lowerAscii (c : Ascii.ascii) : Ascii.ascii :=
  let n := Ascii.nat_of_ascii c in
  if (65 <=? n)%nat && (n <=? 90)%nat then Ascii.ascii_of_nat (n + 32) else c.
Fixpoint toLowerCase (s : string) : string :=
  match s with
  | EmptyString => EmptyString
  | String c s' => String (lowerAscii c) (toLowerCase s')
  end.
Definition contains (pattern s : string) : bool := bool_decide (is_Some (String.index 0 pattern s)).

(** [/no such subscription/], [/(canceled|cancelled) subscription/] and
    [/subscription (is|was) (canceled|cancelled)/] *)
Definition endedSubscriptionMessages : list string :=
  ["no such subscription"; "canceled subscription"; "cancelled subscription"; "subscription is canceled"; "subscription is cancelled";
   "subscription was canceled"; "subscription was cancelled"]%string.
Definition providerRejectedEndedSubscription (message : string) : bool :=
  existsb (fun p => contains p (toLowerCase message)) endedSubscriptionMessages.

Definition errorMessage (message : string) : string := String.substring 0 2000 message.

(** [allocationFundingStatuses] and [changeableSubscriptionStatuses] *)
Definition changeableSubscriptionStatus (s : SubscriptionStatus) : bool :=
  match s with active | grace_period | billing_retry | cancelled => true | _ => false end.

(** [source_superseded] *)
Definition sourceSuperseded (version : option Z) (c : SubscriptionChange) : bool :=
  bool_decide (version <> Some (ch_from c)) && bool_decide (version <> Some (ch_to c)).

Definition supersededReason : string := "The subscription moved to another plan version at the provider".
Definition uncertainMessage : string := "Provider write outcome is uncertain; reconciliation is required".

(** The worker's attempt at a change it loaded, with the subscription's status and version and the
    provider's answer, which it asks for unless the change cannot be applied. *)
Definition attemptChange (status : SubscriptionStatus) (version : option Z) (c : SubscriptionChange) (outcome : ApplyOutcome) : Mark :=
  if negb (changeableSubscriptionStatus status) then mark_cancelled "The subscription can no longer be changed"
  else if sourceSuperseded version c then mark_cancelled supersededReason
  else match outcome with
  | applied requestId => mark_applied requestId
  | uncertain => mark_failed (errorMessage uncertainMessage)
  | threw message =>
      if providerRejectedEndedSubscription (errorMessage message) then mark_cancelled (errorMessage message)
      else mark_failed (errorMessage message)
  end.

(** A mark that fails leaves the row for its lease to expire. *)
Definition finishAttempt (id : Z) (worker : string) (mark : Mark) (now : Z) (rows : list SubscriptionChange) : list SubscriptionChange :=
  match (match mark with
         | mark_applied _ => markSubscriptionChangeApplied id worker now rows
         | mark_failed message => markSubscriptionChangeFailed id message worker now rows
         | mark_cancelled reason => markSubscriptionChangeCancelled id reason worker now rows
         end) with
  | Ok rows' => rows'
  | Err _ => rows
  end.

(** ** The version a synced subscription carries *)

Record PlanVersion := { ve_id : Z; ve_revision : Z; ve_published : bool }.
(** A row of [provider_plan_bindings]; a store product has one. *)
Record PlanBinding := { pb_product : Z; pb_version : Z; pb_published : bool }.
(** A row of [provider_price_bindings], with the version of its price. *)
Record PriceBinding := { rb_version : Z; rb_product : Z; rb_channel : Z * Z; rb_published : bool }.
(** [ct_channel]: a store product's provider and channel. *)
Record Catalog := {
  ct_versions : list PlanVersion; ct_plan_bindings : list PlanBinding; ct_price_bindings : list PriceBinding; ct_channel : Z -> option (Z * Z) }.

(** [ProviderSnapshotContext]; [sn_billing_change]: omitted, or the change its metadata names. *)
Record Snapshot := { sn_previous : option Z; sn_created_at : option Z; sn_billing_change : option (option Z) }.

(** The subscription a sync names, and its input. *)
Record SyncInput := { sy_product : Z; sy_snapshot : option Snapshot; sy_preserve : bool }.

Record ResolvedVersion := {
  rv_version : Z; rv_revision : Z; rv_changed : bool; rv_change : option Z; rv_previous : option Z;
  rv_carry : option CarrySelection; rv_switch : bool }.

(** [snapshotPredates], [snapshotPredatesChange] *)
Definition snapshotPredates (createdAt appliedAt : option Z) : bool :=
  match createdAt, appliedAt with Some c, Some a => c <? a | _, _ => false end.
Definition snapshotPredatesChange (snapshot : Snapshot) (id : Z) (appliedAt : option Z) : bool :=
  match sn_billing_change snapshot with
  | Some named => negb (bool_decide (named = Some id))
  | None => snapshotPredates (sn_created_at snapshot) appliedAt
  end.

Definition appliedCarryOver (stored : CarrySelection) : option CarrySelection :=
  if bool_decide (cs_balances stored = []) && bool_decide (cs_usages stored = []) then None else Some stored.
Definition carriedBy (c : SubscriptionChange) : option CarrySelection :=
  if bool_decide (rq_mode (ch_request c) = immediate) then appliedCarryOver (rq_carry (ch_request c)) else None.

Section Resolution.
Context (catalog : Catalog).

Definition versionOf (id : Z) : option PlanVersion := List.find (fun v => ve_id v =? id) (ct_versions catalog).
Definition publishedVersion (id : Z) : option PlanVersion := v ← versionOf id; if ve_published v then Some v else None.

(** [binding_version] *)
Definition boundVersion (product : Z) : option PlanVersion :=
  b ← List.find (fun b => (pb_product b =? product) && pb_published b) (ct_plan_bindings catalog); publishedVersion (pb_version b).

(** A price of the version is sold as the product. *)
Definition sellsProduct (version product : Z) : bool :=
  existsb (fun b => (rb_version b =? version) && (rb_product b =? product) && rb_published b) (ct_price_bindings catalog).

(** [current_priced]: the version sells through the provider and channel of the product. *)
Definition pricedThrough (version product : Z) : bool :=
  match ct_channel catalog product with
  | Some channel => existsb (fun b => (rb_version b =? version) && bool_decide (rb_channel b = channel) && rb_published b) (ct_price_bindings catalog)
  | None => false
  end.

(** [ORDER BY applied_at DESC, id DESC LIMIT 1] *)
Definition appliedLater (a b : SubscriptionChange) : bool :=
  match ch_applied_at a, ch_applied_at b with
  | Some t, Some t' => (t' <? t) || ((t =? t') && (ch_id b <? ch_id a))
  | _, _ => false
  end.
Definition appliedChange (subscription : Z) (rows : list SubscriptionChange) : option SubscriptionChange :=
  head (sortBy appliedLater (List.filter (fun c => (ch_subscription c =? subscription) && isStatus change_applied c) rows)).

(** [change_version]: the target the latest applied change owes the subscription. *)
Definition owedVersion (current : Z) (change : SubscriptionChange) : option PlanVersion :=
  if bool_decide (ch_synchronized_at change = None) && (ch_from change =? current) && negb (ch_to change =? current)
  then publishedVersion (ch_to change) else None.

Definition owedMove (current : PlanVersion) (change : option SubscriptionChange) : option (SubscriptionChange * PlanVersion) :=
  c ← change; v ← owedVersion (ve_id current) c; Some (c, v).

(** [ORDER BY created_at DESC, id DESC LIMIT 1] *)
Definition createdLater (a b : SubscriptionChange) : bool :=
  (ch_created_at b <? ch_created_at a) || ((ch_created_at a =? ch_created_at b) && (ch_id b <? ch_id a)).
Definition pendingChange (subscription current bound : Z) (rows : list SubscriptionChange) : option SubscriptionChange :=
  head (sortBy createdLater (List.filter (fun c => (ch_subscription c =? subscription) && inFlight c &&
    bool_decide (ch_synchronized_at c = None) && (ch_from c =? current) && (ch_to c =? bound)) rows)).

(** [pending_change], [pending_version]: a change the provider already reports. *)
Definition reportedMove (subscription : Z) (product : Z) (rows : list SubscriptionChange) (current : PlanVersion) : option (SubscriptionChange * PlanVersion) :=
  b ← boundVersion product;
  if ve_id b =? ve_id current then None
  else c ← pendingChange subscription (ve_id current) (ve_id b) rows; v ← versionOf (ch_to c); Some (c, v).

(** [change_target_shown] *)
Definition targetShown (product : Z) (target : PlanVersion) : bool :=
  match boundVersion product with Some b => ve_id b =? ve_id target | None => false end || sellsProduct (ve_id target) product.

Definition resolved (v : PlanVersion) (changed : bool) (change previous : option Z) (carry : option CarrySelection) (switch : bool) : ResolvedVersion :=
  {| rv_version := ve_id v; rv_revision := ve_revision v; rv_changed := changed; rv_change := change; rv_previous := previous;
     rv_carry := carry; rv_switch := switch |}.

(** Steps 3 to 5: a change the provider reports before it is recorded, a switch at the provider, or
    the pinned version. *)
Definition resolveFromProduct (subscription : Z) (input : SyncInput) (rows : list SubscriptionChange) (current : PlanVersion) (changeId : option Z)
  : ResolvedVersion :=
  match reportedMove subscription (sy_product input) rows current with
  | Some (c, v) => resolved v true (Some (ch_id c)) (Some (ve_id current)) (carriedBy c) false
  | None =>
      match boundVersion (sy_product input), sy_snapshot input with
      | Some b, Some snapshot =>
          if negb (ve_id b =? ve_id current) &&
             (if pricedThrough (ve_id current) (sy_product input) then negb (sellsProduct (ve_id current) (sy_product input))
              else bool_decide (sn_previous snapshot <> None) && bool_decide (sn_previous snapshot <> Some (sy_product input)))
          then resolved b true changeId (Some (ve_id current)) None true
          else resolved current false changeId (Some (ve_id current)) None false
      | _, _ => resolved current false changeId (Some (ve_id current)) None false
      end
  end.

(** [resolveSubscriptionPlanVersion], of a subscription pinned to [version]. *)
Definition resolveSubscriptionPlanVersion (subscription : Z) (version : option Z) (input : SyncInput) (rows : list SubscriptionChange)
  : option ResolvedVersion :=
  let applied := if bool_decide (version = None) then None else appliedChange subscription rows in
  let changeId := c ← applied; if bool_decide (ch_synchronized_at c = None) then Some (ch_id c) else None in
  match version ≫= versionOf with
  | None => (fun b => resolved b true changeId None None false) <$> boundVersion (sy_product input)
  | Some current =>
      if sy_preserve input then Some (resolved current false None (Some (ve_id current)) None false)
      else match owedMove current applied with
      | Some (c, v) =>
          let shown := targetShown (sy_product input) v in
          match sy_snapshot input with
          | None => Some (resolved v true changeId (Some (ve_id current)) (carriedBy c) false)
          | Some snapshot =>
              if shown then Some (resolved v true changeId (Some (ve_id current)) (carriedBy c) false)
              else Some (resolveFromProduct subscription input rows current
                     (if snapshotPredatesChange snapshot (ch_id c) (ch_applied_at c) then None else changeId))
          end
      | None => Some (resolveFromProduct subscription input rows current changeId)
      end
  end.
End Resolution.

(** What a sync writes of the changes: it cancels what a provider's switch superseded, and settles
    the change that decided. *)
Definition settleChanges (subscription now : Z) (rv : ResolvedVersion) (rows : list SubscriptionChange) : list SubscriptionChange :=
  let rows := if rv_switch rv then cancelSupersededSubscriptionChanges subscription (rv_version rv) supersededReason now rows else rows in
  match rv_change rv with
  | Some id => map (fun c => if (ch_subscription c =? subscription) && (ch_id c =? id) && isStatus change_applied c &&
                                bool_decide (ch_synchronized_at c = None) then synchronized now c else c) rows
  | None => rows
  end.

(** ** Histories *)

(** The changes of every subscription, the versions subscriptions are pinned to, and the clock. *)
Record State := { st_changes : list SubscriptionChange; st_versions : gmap Z Z; st_clock : Z }.
Definition with_changes (s : State) (rows : list SubscriptionChange) : State :=
  {| st_changes := rows; st_versions := st_versions s; st_clock := st_clock s |}.

(** The version part of a sync of one subscription. *)
Definition syncVersion (catalog : Catalog) (subscription : Z) (input : SyncInput) (s : State) : State :=
  match resolveSubscriptionPlanVersion catalog subscription (st_versions s !! subscription) input (st_changes s) with
  | None => s
  | Some rv =>
      {| st_changes := settleChanges subscription (st_clock s) rv (st_changes s);
         st_versions := if rv_changed rv then <[subscription := rv_version rv]> (st_versions s) else st_versions s; st_clock := st_clock s |}
  end.

Inductive step : State -> State -> Prop :=
  | step_time s t : st_clock s <= t -> step s {| st_changes := st_changes s; st_versions := st_versions s; st_clock := t |}
  | step_request s newId expected current rq id rows : newId ∉ map ch_id (st_changes s) ->
      prepareSubscriptionChange newId (st_clock s) expected current rq (st_changes s) = Ok (id, rows) -> step s (with_changes s rows)
  | step_stage s newId rq : newId ∉ map ch_id (st_changes s) -> step s (with_changes s (stageChange newId (st_clock s) rq (st_changes s)))
  | step_claim s worker limit locked : step s (with_changes s (claimSubscriptionChanges worker limit locked (st_clock s) (st_changes s)).2)
  | step_renew s id worker : step s (with_changes s (renewSubscriptionChangeLease id worker (st_clock s) (st_changes s)).2)
  | step_finish s id worker mark : step s (with_changes s (finishAttempt id worker mark (st_clock s) (st_changes s)))
  | step_retry s sideEffects id rows : retrySubscriptionChange sideEffects id (st_clock s) (st_changes s) = Ok rows -> step s (with_changes s rows)
  | step_sync s catalog subscription input : step s (syncVersion catalog subscription input s)
  | step_supersede s subscription reason :
      step s (with_changes s (supersedePendingSubscriptionChange subscription reason (st_clock s) (st_changes s)))
  (** a checkout that fixed the version pins it *)
  | step_pin s subscription version : st_versions s !! subscription = None ->
      step s {| st_changes := st_changes s; st_versions := <[subscription := version]> (st_versions s); st_clock := st_clock s |}.

Definition started : State := {| st_changes := []; st_versions := ∅; st_clock := 0 |}.
Definition reachable (s : State) : Prop := rtc step started s.

(** ** The queue's invariant *)

Record row_ok (now : Z) (c : SubscriptionChange) : Prop := {
  ro_applied : ch_status c = change_applied <-> is_Some (ch_applied_at c);
  ro_synchronized : is_Some (ch_synchronized_at c) -> ch_status c = change_applied;
  ro_held : ch_status c = change_processing <-> is_Some (ch_locked_by c);
  ro_locked : is_Some (ch_locked_by c) <-> is_Some (ch_locked_at c);
  ro_attempts : 0 <= ch_attempts c /\ (ch_status c = change_processing -> 1 <= ch_attempts c) /\
    (ch_status c = change_pending -> ch_attempts c < RECURRING_JOB_MAX_ATTEMPTS) /\
    (ch_status c = change_failed -> RECURRING_JOB_MAX_ATTEMPTS <= ch_attempts c);
  ro_error : (ch_status c = change_applied -> ch_last_error c = None) /\ (ch_status c = change_failed -> is_Some (ch_last_error c));
  ro_times : ch_created_at c <= now /\ ch_updated_at c <= now /\ (forall t, ch_applied_at c = Some t -> t <= now) }.

Definition keyOf (c : SubscriptionChange) : Z * string := (rq_customer (ch_request c), rq_key (ch_request c)).

Record queue_ok (now : Z) (rows : list SubscriptionChange) : Prop := {
  qo_ids : NoDup (map ch_id rows);
  qo_keys : NoDup (map keyOf rows);
  qo_flight : forall c c', c ∈ rows -> c' ∈ rows -> inFlight c = true -> inFlight c' = true -> ch_subscription c = ch_subscription c' -> ch_id c = ch_id c';
  qo_rows : forall c, c ∈ rows -> row_ok now c }.

Lemma id_unique now rows c c' : queue_ok now rows -> c ∈ rows -> c' ∈ rows -> ch_id c = ch_id c' -> c = c'.
Proof. intros H Hc Hc' Heq. by apply (NoDup_key_inj ch_id rows); [apply (qo_ids _ _ H)|done..]. Qed.

Lemma inFlight_spec c : inFlight c = true <-> ch_status c = change_pending \/ ch_status c = change_processing.
Proof. unfold inFlight, isStatus. rewrite orb_true_iff, !bool_decide_eq_true. done. Qed.

Lemma ownedBy_spec w c : ownedBy w c = true <-> ch_status c = change_processing /\ ch_locked_by c = Some w.
Proof. unfold ownedBy, isStatus. rewrite andb_true_iff, !bool_decide_eq_true. done. Qed.

(** A transition keeps the row's identity, starts nothing, and leaves a well-formed row. *)
Lemma queue_map now now' f rows : queue_ok now rows ->
  (forall c, ch_id (f c) = ch_id c /\ ch_request (f c) = ch_request c) ->
  (forall c, c ∈ rows -> row_ok now c -> row_ok now' (f c) /\ (inFlight (f c) = true -> inFlight c = true)) -> queue_ok now' (map f rows).
Proof.
  intros H Hf Hok. split.
  - rewrite map_map. rewrite (map_ext _ ch_id) by (intros c; apply Hf). apply (qo_ids _ _ H).
  - rewrite map_map. rewrite (map_ext _ keyOf) by (intros c; unfold keyOf; by rewrite (proj2 (Hf c))). apply (qo_keys _ _ H).
  - intros c c' (x & -> & Hx)%list_elem_of_fmap (x' & -> & Hx')%list_elem_of_fmap Hc Hc' Hs.
    rewrite (proj1 (Hf x)), (proj1 (Hf x')). unfold ch_subscription in Hs. rewrite (proj2 (Hf x)), (proj2 (Hf x')) in Hs.
    apply (qo_flight _ _ H); [done|done| | |done].
    + by apply (proj2 (Hok x Hx (qo_rows _ _ H x Hx))).
    + by apply (proj2 (Hok x' Hx' (qo_rows _ _ H x' Hx'))).
  - intros c (x & -> & Hx)%list_elem_of_fmap. apply Hok; [done|]. by apply (qo_rows _ _ H).
Qed.

Lemma queue_time now now' rows : queue_ok now rows -> now <= now' -> queue_ok now' rows.
Proof.
  intros H Hle. rewrite <- (map_id rows). eapply queue_map; [exact H|done|]. intros c Hc [A B C D E F (G1 & G2 & G3)]. split; [|done].
  split; try done. split_and!; [lia|lia|]. intros t Ht. specialize (G3 t Ht). lia.
Qed.

Lemma queue_new now rows id rq : queue_ok now rows -> id ∉ map ch_id rows -> existsb (withKey (rq_customer rq) (rq_key rq)) rows = false ->
  existsb (fun c => (ch_subscription c =? rq_subscription rq) && inFlight c) rows = false -> queue_ok now (rows ++ [newChange id now rq]).
Proof.
  intros H Hid Hk Hfl.
  assert (Hk' : forall c, c ∈ rows -> keyOf c <> (rq_customer rq, rq_key rq)).
  { intros c Hc [= E1 E2]. apply (existsb_false_in _ _ _ Hk) in Hc. unfold withKey in Hc. rewrite E1, E2, Z.eqb_refl, String.eqb_refl in Hc. done. }
  assert (Hf' : forall c, c ∈ rows -> inFlight c = true -> ch_subscription c <> rq_subscription rq).
  { intros c Hc Hi E. apply (existsb_false_in _ _ _ Hfl) in Hc. rewrite E, Z.eqb_refl, Hi in Hc. done. }
  split.
  - rewrite map_app. apply NoDup_app. split_and!; [apply (qo_ids _ _ H)| |apply NoDup_singleton]. cbn. intros x Hx [->|[]%not_elem_of_nil]%elem_of_cons. done.
  - rewrite map_app. apply NoDup_app. split_and!; [apply (qo_keys _ _ H)| |apply NoDup_singleton]. cbn.
    intros x (c & -> & Hc)%list_elem_of_fmap [E|[]%not_elem_of_nil]%elem_of_cons. by apply (Hk' c Hc).
  - intros c c' [Hc|Hc]%elem_of_app [Hc'|Hc']%elem_of_app Hi Hi' Hs; rewrite ?list_elem_of_singleton in *; subst.
    + by apply (qo_flight _ _ H).
    + by destruct (Hf' c Hc Hi).
    + by destruct (Hf' c' Hc' Hi').
    + done.
  - intros c [Hc|Hc]%elem_of_app; [by apply (qo_rows _ _ H)|]. apply list_elem_of_singleton in Hc as ->.
    unfold newChange. split; cbn; try (by split; [done|intros []]); try done; try (by intros []); split_and!; try done; try lia.
Qed.

Lemma moved_ok now c status attempts message locked at_ : row_ok now c ->
  (status = change_applied <-> is_Some at_) -> (is_Some (ch_synchronized_at c) -> status = change_applied) ->
  (status = change_processing <-> is_Some locked) ->
  (0 <= attempts /\ (status = change_processing -> 1 <= attempts) /\ (status = change_pending -> attempts < RECURRING_JOB_MAX_ATTEMPTS) /\
   (status = change_failed -> RECURRING_JOB_MAX_ATTEMPTS <= attempts)) ->
  ((status = change_applied -> message = None) /\ (status = change_failed -> is_Some message)) ->
  (forall t, at_ = Some t -> t <= now) -> row_ok now (moved c status attempts message locked at_ now).
Proof.
  intros [A B C D E F (G1 & G2 & G3)] H1 H2 H3 H4 H5 H6. split; cbn; try done.
  - by rewrite fmap_is_Some.
  - by rewrite !fmap_is_Some.
Qed.

(** What is not applied has no instant of application, and is not settled. *)
Lemma unapplied now c : row_ok now c -> ch_status c <> change_applied -> ch_applied_at c = None /\ ch_synchronized_at c = None.
Proof.
  intros H Hne. split.
  - destruct (ch_applied_at c) eqn:E; [|done]. destruct Hne. apply (ro_applied _ _ H). by eexists.
  - destruct (ch_synchronized_at c) eqn:E; [|done]. destruct Hne. apply (ro_synchronized _ _ H). by eexists.
Qed.

Ltac row_facts H := let A := fresh "Ha" in let B := fresh "Hb" in let C := fresh "Hc" in let D := fresh "Hd" in
  pose proof (ro_attempts _ _ H) as (A & B & C & D); pose proof (ro_applied _ _ H); pose proof (ro_held _ _ H); pose proof (ro_error _ _ H);
  pose proof (ro_times _ _ H) as (_ & _ & ?).

(** Closes what [moved_ok] asks of a transition out of a state in flight. *)
Ltac moved_tac Hu := 
  apply moved_ok; [done|..]; rewrite ?(proj1 Hu), ?(proj2 Hu);
  try (by split; [done|intros []]); try (by split; intros; eauto); try (by intros []); try (by intros); 
  repeat split; intros; simplify_eq/=; try done; try lia; try congruence; eauto.

(** What a claim takes is in flight. *)
Lemma claimed_inFlight now rows limit locked c : queue_ok now rows -> c ∈ rows ->
  existsb (Z.eqb (ch_id c)) (map ch_id (firstn limit (sortBy sooner (List.filter (fun c => due now c && negb (locked (ch_id c))) rows)))) = true ->
  inFlight c = true.
Proof.
  intros H Hc E. apply existsb_exists in E as (i & Hi%list_elem_of_In & <-%Z.eqb_eq). apply list_elem_of_fmap in Hi as (x & Hid & Hx).
  apply elem_of_take in Hx as (n & Hx%list_elem_of_lookup_2 & _). rewrite sortBy_perm in Hx. apply list_elem_of_In, filter_In in Hx as [Hx%list_elem_of_In Hd].
  assert (x = c) as -> by (by apply (id_unique now rows)). apply andb_true_iff in Hd as [Hd _]. apply inFlight_spec. unfold due, isStatus in Hd.
  rewrite orb_true_iff, !andb_true_iff, !bool_decide_eq_true in Hd. tauto.
Qed.

Lemma claim_ok worker limit locked now rows : queue_ok now rows -> queue_ok now (claimSubscriptionChanges worker limit locked now rows).2.
Proof.
  intros H. unfold claimSubscriptionChanges. cbn [snd]. eapply queue_map; [exact H|by intros c; destruct (existsb _ _)|].
  intros c Hc Hrow. destruct (existsb (Z.eqb (ch_id c)) _) eqn:E; [|done]. pose proof (claimed_inFlight _ _ _ _ c H Hc E) as Hfl.
  assert (Hne : ch_status c <> change_applied) by (apply inFlight_spec in Hfl; intros ?; destruct Hfl; congruence).
  split; [|by intros _]. pose proof (unapplied now c Hrow Hne) as Hu. row_facts Hrow. moved_tac Hu.
Qed.

Lemma renew_ok id worker now rows : queue_ok now rows -> queue_ok now (renewSubscriptionChangeLease id worker now rows).2.
Proof.
  intros H. unfold renewSubscriptionChangeLease. cbn [snd]. eapply queue_map; [exact H|by intros c; destruct (_ && _)|].
  intros c Hc Hrow. destruct (_ && _) eqn:E; [|done]. apply andb_true_iff in E as [_ [Hs Hw]%ownedBy_spec].
  assert (Hne : ch_status c <> change_applied) by congruence. split; [|intros _; apply inFlight_spec; by right].
  pose proof (unapplied now c Hrow Hne) as Hu. row_facts Hrow. rewrite Hs. moved_tac Hu.
Qed.

Lemma finish_ok id worker mark now rows : queue_ok now rows -> queue_ok now (finishAttempt id worker mark now rows).
Proof.
  intros H. unfold finishAttempt, markSubscriptionChangeApplied, markSubscriptionChangeFailed, markSubscriptionChangeCancelled, whenOwned.
  assert (Hmap : forall f, (forall c, ch_id (f c) = ch_id c /\ ch_request (f c) = ch_request c) ->
    (forall c, row_ok now c -> ch_status c = change_processing -> row_ok now (f c)) ->
    queue_ok now (map (fun c => if (ch_id c =? id) && ownedBy worker c then f c else c) rows)).
  { intros f Hf Hok. eapply queue_map; [exact H|by intros c; destruct (_ && _)|]. intros c Hc Hrow. destruct (_ && _) eqn:E; [|done].
    apply andb_true_iff in E as [_ [Hs Hw]%ownedBy_spec]. split; [by apply Hok|intros _; apply inFlight_spec; by right]. }
  destruct mark, (existsb _ _); try done; (apply Hmap; [done|]; intros c Hrow Hs).
  all: assert (Hne : ch_status c <> change_applied) by congruence; pose proof (unapplied now c Hrow Hne) as Hu; row_facts Hrow.
  - moved_tac Hu.
  - destruct (Z.leb_spec RECURRING_JOB_MAX_ATTEMPTS (ch_attempts c)); moved_tac Hu.
  - moved_tac Hu.
Qed.

Lemma supersede_ok subscription version reason now rows : queue_ok now rows ->
  queue_ok now (cancelSupersededSubscriptionChanges subscription version reason now rows).
Proof.
  intros H. unfold cancelSupersededSubscriptionChanges. eapply queue_map; [exact H|by intros c; destruct (_ && _)|].
  intros c Hc Hrow. destruct (_ && _) eqn:E; [|done]. rewrite !andb_true_iff in E. destruct E as [[[_ Hs%bool_decide_eq_true] _] _].
  assert (Hne : ch_status c <> change_applied) by congruence. split; [|by intros Hf%inFlight_spec; destruct Hf].
  pose proof (unapplied now c Hrow Hne) as Hu. row_facts Hrow. moved_tac Hu.
Qed.

Lemma supersede_pending_ok subscription reason now rows : queue_ok now rows ->
  queue_ok now (supersedePendingSubscriptionChange subscription reason now rows).
Proof.
  intros H. unfold supersedePendingSubscriptionChange. eapply queue_map; [exact H|by intros c; destruct (_ && _)|].
  intros c Hc Hrow. destruct (_ && _) eqn:E; [|done]. apply andb_true_iff in E as [_ Hs%bool_decide_eq_true].
  assert (Hne : ch_status c <> change_applied) by congruence. split; [|by intros Hf%inFlight_spec; destruct Hf].
  pose proof (unapplied now c Hrow Hne) as Hu. row_facts Hrow. moved_tac Hu.
Qed.

Lemma settle_queue_ok subscription now rv rows : queue_ok now rows -> queue_ok now (settleChanges subscription now rv rows).
Proof.
  intros H. unfold settleChanges. set (rows1 := if rv_switch rv then _ else rows).
  assert (H1 : queue_ok now rows1) by (subst rows1; destruct (rv_switch rv); [by apply supersede_ok|done]).
  destruct (rv_change rv) as [id|]; [|done]. eapply queue_map; [exact H1|by intros c; destruct (_ && _)|].
  intros c Hc Hrow. destruct (_ && _) eqn:E; [|done]. rewrite !andb_true_iff in E. destruct E as [[[_ _] Hs%bool_decide_eq_true] _].
  split; [|done]. destruct Hrow as [A B C D F G (I & J & K)]. by split; cbn.
Qed.

Lemma retry_ok sideEffects id now rows rows' : queue_ok now rows -> retrySubscriptionChange sideEffects id now rows = Ok rows' -> queue_ok now rows'.
Proof.
  intros H Hr. unfold retrySubscriptionChange, changeOf in Hr. destruct (List.find _ rows) as [c|] eqn:Ef; [|done].
  apply find_some in Ef as [Hc%list_elem_of_In Hid%Z.eqb_eq]. inv_result. subst rows'. rewrite negb_false_iff in E. apply bool_decide_eq_true in E.
  pose proof (qo_rows _ _ H c Hc) as Hrow.
  assert (Hother : forall x, x ∈ rows -> inFlight x = true -> ch_subscription x = ch_subscription c -> ch_id x = id).
  { intros x Hx Hfl Hs. apply (existsb_false_in _ _ x) in E1; [|done]. cbn beta in E1. rewrite Hs, Z.eqb_refl, Hfl in E1. cbn in E1.
    rewrite andb_true_r in E1. apply negb_false_iff, Z.eqb_eq in E1. done. }
  assert (Hsame : forall x, x ∈ rows -> ch_id x = id -> x = c) by (intros x Hx Hx'; apply (id_unique now rows); congruence).
  assert (Hrow' : row_ok now (moved c change_pending 0 (ch_last_error c) None (ch_applied_at c) now)).
  { assert (Hne : ch_status c <> change_applied) by congruence. pose proof (unapplied now c Hrow Hne) as Hu. row_facts Hrow. moved_tac Hu. }
  unfold updateChange. split.
  - rewrite map_map. rewrite (map_ext _ ch_id) by (intros x; by destruct (_ =? _)). apply (qo_ids _ _ H).
  - rewrite map_map. rewrite (map_ext _ keyOf) by (intros x; by destruct (_ =? _)). apply (qo_keys _ _ H).
  - intros y y' (x & -> & Hx)%list_elem_of_fmap (x' & -> & Hx')%list_elem_of_fmap Hf Hf' Hs.
    destruct (Z.eqb_spec (ch_id x) id) as [Ex|Ex], (Z.eqb_spec (ch_id x') id) as [Ex'|Ex']; cbn in *; try congruence.
    + destruct Ex'. apply Hother; [done..|]. rewrite (Hsame x Hx Ex) in Hs. done.
    + destruct Ex. apply Hother; [done..|]. rewrite (Hsame x' Hx' Ex') in Hs. done.
    + by apply (qo_flight _ _ H).
  - intros y (x & -> & Hx)%list_elem_of_fmap. destruct (Z.eqb_spec (ch_id x) id) as [Ex|Ex]; [|by apply (qo_rows _ _ H)]. by rewrite (Hsame x Hx Ex).
Qed.

Lemma prepare_ok newId now expected current rq rows id rows' : queue_ok now rows -> newId ∉ map ch_id rows ->
  prepareSubscriptionChange newId now expected current rq rows = Ok (id, rows') -> queue_ok now rows'.
Proof.
  intros H Hid Hp. unfold prepareSubscriptionChange in Hp. destruct (List.find _ rows) as [c|] eqn:Ef; inv_result; [by simplify_eq|].
  simplify_eq. apply queue_new; [done|done| |done]. apply existsb_none. intros c Hc.
  by apply (find_none _ _ Ef), list_elem_of_In.
Qed.

Lemma stage_ok newId now rq rows : queue_ok now rows -> newId ∉ map ch_id rows -> queue_ok now (stageChange newId now rq rows).
Proof. intros H Hid. unfold stageChange. destruct (_ || _) eqn:E; [done|]. apply orb_false_iff in E as [E1 E2]. by apply queue_new. Qed.

Lemma syncVersion_ok catalog subscription input s : queue_ok (st_clock s) (st_changes s) ->
  queue_ok (st_clock s) (st_changes (syncVersion catalog subscription input s)).
Proof. intros H. unfold syncVersion. destruct (resolveSubscriptionPlanVersion _ _ _ _ _); [by apply settle_queue_ok|done]. Qed.

Lemma syncVersion_clock catalog subscription input s : st_clock (syncVersion catalog subscription input s) = st_clock s.
Proof. unfold syncVersion. by destruct (resolveSubscriptionPlanVersion _ _ _ _ _). Qed.

Lemma queue_step_ok s s' : step s s' -> queue_ok (st_clock s) (st_changes s) -> queue_ok (st_clock s') (st_changes s').
Proof.
  intros Hstep H. destruct Hstep; cbn.
  - by eapply queue_time.
  - by eapply prepare_ok.
  - by apply stage_ok.
  - by apply claim_ok.
  - by apply renew_ok.
  - by apply finish_ok.
  - by eapply retry_ok.
  - rewrite syncVersion_clock. by apply syncVersion_ok.
  - by apply supersede_pending_ok.
  - done.
Qed.

Lemma steps_ok s s' : rtc step s s' -> queue_ok (st_clock s) (st_changes s) -> queue_ok (st_clock s') (st_changes s').
Proof. induction 1; eauto using queue_step_ok. Qed.

Lemma changes_reachable_ok s : reachable s -> queue_ok (st_clock s) (st_changes s).
Proof.
  intros H. apply (steps_ok _ _ H). split; cbn; [constructor..| |]; intros c; [intros ? []%not_elem_of_nil|intros []%not_elem_of_nil].
Qed.

(** ** What a step does to a row *)

(** A row keeps its identity; an applied one changes only by being settled, once; and a row becomes
    applied only from the hands of the worker that holds it. *)
Definition row_step (c c' : SubscriptionChange) : Prop :=
  ch_id c' = ch_id c /\ ch_request c' = ch_request c /\ ch_created_at c' = ch_created_at c /\
  (ch_status c = change_applied -> ch_status c' = change_applied /\ ch_applied_at c' = ch_applied_at c /\
     (is_Some (ch_synchronized_at c) -> ch_synchronized_at c' = ch_synchronized_at c)) /\
  (ch_status c <> change_applied -> ch_status c' = change_applied -> exists worker, ownedBy worker c = true).

Lemma row_step_refl c : row_step c c.
Proof. split_and!; done. Qed.

Lemma row_step_moved c status attempts message locked at_ now : ch_status c <> change_applied ->
  (status = change_applied -> exists worker, ownedBy worker c = true) -> row_step c (moved c status attempts message locked at_ now).
Proof. intros H1 H2. split_and!; done. Qed.

Lemma row_step_id c c' : row_step c c' -> ch_id c' = ch_id c.
Proof. by intros (? & _). Qed.

(** A [map] whose function steps every row steps the table's rows. *)
Lemma row_step_map f rows : (forall c, c ∈ rows -> row_step c (f c)) -> forall c, c ∈ rows -> exists c', c' ∈ map f rows /\ row_step c c'.
Proof. intros H c Hc. exists (f c). split; [by apply list_elem_of_fmap_2|by apply H]. Qed.

Lemma settle_step subscription now rv rows c : c ∈ rows -> exists c', c' ∈ settleChanges subscription now rv rows /\ row_step c c'.
Proof.
  intros Hc. unfold settleChanges. set (rows1 := if rv_switch rv then _ else rows).
  assert (H1 : exists c1, c1 ∈ rows1 /\ row_step c c1 /\ (ch_status c = change_applied -> c1 = c)).
  { subst rows1. destruct (rv_switch rv); [|exists c; split_and!; [done|apply row_step_refl|done]]. unfold cancelSupersededSubscriptionChanges.
    exists (if (ch_subscription c =? subscription) && isStatus change_pending c && negb (ch_from c =? rv_version rv) && negb (ch_to c =? rv_version rv)
            then moved c change_cancelled (ch_attempts c) (Some supersededReason) None (ch_applied_at c) now else c).
    split; [by apply list_elem_of_fmap; exists c|]. destruct (_ && _) eqn:E; [|split; [apply row_step_refl|done]].
    rewrite !andb_true_iff in E. destruct E as [[[_ Hs%bool_decide_eq_true] _] _]. split; [apply row_step_moved; congruence|congruence]. }
  destruct H1 as (c1 & Hc1 & Hstep & Hsame). destruct (rv_change rv) as [id|]; [|by exists c1].
  eexists. split; [apply list_elem_of_fmap; by exists c1|]. cbn beta. destruct (_ && _) eqn:E; [|done]. rewrite !andb_true_iff in E.
  destruct E as [[_ Hs%bool_decide_eq_true] Hn%bool_decide_eq_true]. destruct Hstep as (A & B & C & D & F). split_and!; cbn; try done.
  intros Ha. destruct (D Ha) as (G & I & J). split_and!; [done|done|]. intros Hy. rewrite <- (Hsame Ha), Hn in Hy. by destruct Hy.
Qed.

Lemma step_rows s s' c : queue_ok (st_clock s) (st_changes s) -> step s s' -> c ∈ st_changes s ->
  exists c', c' ∈ st_changes s' /\ row_step c c'.
Proof.
  intros H Hstep Hc. assert (Hstay : exists c', c' ∈ st_changes s /\ row_step c c') by (exists c; split; [done|apply row_step_refl]).
  destruct Hstep as [s t|s newId expected current rq id rows Hid Hp|s newId rq Hid|s worker limit locked|s id worker|s id worker mark|s se id rows Hr|s catalog sub input|s sub reason|s sub v Hn]; cbn in *; try done.
  - exists c. split; [|apply row_step_refl]. unfold prepareSubscriptionChange in Hp. destruct (List.find _ _); inv_result; simplify_eq; [done|]. apply elem_of_app. by left.
  - exists c. split; [|apply row_step_refl]. unfold stageChange. destruct (_ || _); [done|]. apply elem_of_app. by left.
  - apply row_step_map; [|done]. intros x Hx. destruct (existsb (Z.eqb (ch_id x)) _) eqn:E; [|apply row_step_refl].
    assert (Hfl : inFlight x = true) by (by eapply claimed_inFlight). apply inFlight_spec in Hfl. apply row_step_moved; [intros ?; destruct Hfl; congruence|done].
  - apply row_step_map; [|done]. intros x Hx. destruct (_ && _) eqn:E; [|apply row_step_refl]. apply andb_true_iff in E as [_ Ho]. pose proof Ho as [Hs _]%ownedBy_spec.
    apply row_step_moved; [congruence|by exists worker].
  - unfold finishAttempt, markSubscriptionChangeApplied, markSubscriptionChangeFailed, markSubscriptionChangeCancelled, whenOwned.
    assert (Hmap : forall f, (forall x, ownedBy worker x = true -> row_step x (f x)) ->
      exists c', c' ∈ map (fun x => if (ch_id x =? id) && ownedBy worker x then f x else x) (st_changes s) /\ row_step c c').
    { intros f Hf. apply row_step_map; [|done]. intros x Hx. destruct (_ && _) eqn:E; [|apply row_step_refl]. apply andb_true_iff in E as [_ Ho]. by apply Hf. }
    destruct mark, (existsb _ _); try done; apply Hmap; intros x Ho; pose proof Ho as [Hs _]%ownedBy_spec; (apply row_step_moved; [congruence|by exists worker]).
  - unfold retrySubscriptionChange, changeOf in Hr. destruct (List.find _ _) as [d|] eqn:Ef; [|done]. apply find_some in Ef as [Hd%list_elem_of_In Hid%Z.eqb_eq].
    inv_result. subst rows. apply row_step_map; [|done]. intros x Hx. destruct (Z.eqb_spec (ch_id x) id) as [Ex|_]; [|apply row_step_refl].
    assert (x = d) as -> by (apply (id_unique _ _ _ _ H); congruence). apply negb_false_iff, bool_decide_eq_true in E. apply row_step_moved; [congruence|done].
  - unfold syncVersion. destruct (resolveSubscriptionPlanVersion _ _ _ _ _); [by apply settle_step|done].
  - apply row_step_map; [|done]. intros x Hx. destruct (_ && _) eqn:E; [|apply row_step_refl].
    apply andb_true_iff in E as [_ Hs%bool_decide_eq_true]. apply row_step_moved; congruence.
Qed.

(** C32: a subscription has one change in flight.  However requests, catalog migrations, workers, retries,
    cancellations of the subscription and provider syncs interleave, at most one change of a subscription waits or runs, a caller's key
    names one change, a change runs exactly while a worker holds it under a lease, one that waits has
    attempts left and one that is parked has none, and a change has an instant of application exactly
    when it is applied, which it is before a sync settles it. *)
Theorem one_change_in_flight s (Hs : reachable s) :
  (forall c c', c ∈ st_changes s -> c' ∈ st_changes s -> inFlight c = true -> inFlight c' = true -> ch_subscription c = ch_subscription c' -> c = c') /\
  (forall c c', c ∈ st_changes s -> c' ∈ st_changes s -> keyOf c = keyOf c' -> c = c') /\
  (forall c, c ∈ st_changes s ->
     (ch_status c = change_processing <-> is_Some (ch_locked_by c)) /\ (is_Some (ch_locked_by c) <-> is_Some (ch_locked_at c)) /\
     (ch_status c = change_pending -> 0 <= ch_attempts c < RECURRING_JOB_MAX_ATTEMPTS) /\
     (ch_status c = change_failed -> RECURRING_JOB_MAX_ATTEMPTS <= ch_attempts c /\ is_Some (ch_last_error c)) /\
     (ch_status c = change_applied <-> is_Some (ch_applied_at c)) /\ (is_Some (ch_synchronized_at c) -> ch_status c = change_applied)).
Proof.
  pose proof (changes_reachable_ok s Hs) as H. split_and!.
  - intros c c' Hc Hc' Hf Hf' Hsub. eapply id_unique; [exact H|done|done|]. by apply (qo_flight _ _ H).
  - intros c c' Hc Hc' Hk. by apply (NoDup_key_inj keyOf (st_changes s)); [apply (qo_keys _ _ H)|..].
  - intros c Hc. pose proof (qo_rows _ _ H c Hc) as [A B C D (E1 & E2 & E3 & E4) (F1 & F2) G]. split_and!; try done; [by split; [lia|apply E3]|by intros ?; split; [apply E4|apply F2]].
Qed.

(** C33: an applied change is final.  Whatever happens afterwards the row stays, applied at the same
    instant, and once a sync settled it, it stays settled; and a change becomes applied in one step,
    which only the worker that holds it can take. *)
Theorem applied_change_is_final s s' c (Hs : reachable s) (Hsteps : rtc step s s') (Hc : c ∈ st_changes s) :
  (exists c', c' ∈ st_changes s' /\ ch_id c' = ch_id c /\ ch_request c' = ch_request c /\
     (ch_status c = change_applied -> ch_status c' = change_applied /\ ch_applied_at c' = ch_applied_at c /\
        (is_Some (ch_synchronized_at c) -> ch_synchronized_at c' = ch_synchronized_at c))) /\
  (step s s' -> forall c', c' ∈ st_changes s' -> ch_id c' = ch_id c -> ch_status c <> change_applied -> ch_status c' = change_applied ->
     exists worker, ch_status c = change_processing /\ ch_locked_by c = Some worker).
Proof.
  pose proof (changes_reachable_ok s Hs) as H. split.
  - clear Hs. revert c Hc. induction Hsteps as [s|s s1 s' Hstep Hsteps IH]; intros c Hc; [exists c; done|].
    destruct (step_rows s s1 c H Hstep Hc) as (c1 & Hc1 & E1 & E2 & _ & E3 & _).
    destruct (IH (queue_step_ok _ _ Hstep H) c1 Hc1) as (c' & Hc' & F1 & F2 & F3). exists c'. split_and!; [done|congruence|congruence|].
    intros Ha. destruct (E3 Ha) as (A1 & A2 & A3). destruct (F3 A1) as (B1 & B2 & B3). split_and!; [done|congruence|].
    intros Hy. rewrite B3 by (rewrite A3; done). by apply A3.
  - intros Hstep c' Hc' Hid Hn Ha. destruct (step_rows s s' c H Hstep Hc) as (x & Hx & E1 & _ & _ & _ & E4).
    assert (x = c') as -> by (eapply id_unique; [by eapply queue_step_ok|done|done|congruence]).
    destruct (E4 Hn Ha) as [w [Hw1 Hw2]%ownedBy_spec]. by exists w.
Qed.

(** ** What a sync moves *)

(** A change that waits to move the subscription from the version. *)
Definition waitsFor (subscription version : Z) (c : SubscriptionChange) : Prop :=
  ch_subscription c = subscription /\ ch_from c = version /\ ch_to c <> version /\ ch_synchronized_at c = None /\
  (ch_status c = change_applied \/ inFlight c = true).

(** The provider sells the subscription's product as another version's: the pinned version sells
    through the provider but not this product, or it has no prices and the product changed. *)
Definition productMoved (catalog : Catalog) (version : Z) (input : SyncInput) : Prop :=
  exists snapshot, sy_snapshot input = Some snapshot /\
  if pricedThrough catalog version (sy_product input) then sellsProduct catalog version (sy_product input) = false
  else exists previous, sn_previous snapshot = Some previous /\ previous <> sy_product input.

Section Syncs.
Context (catalog : Catalog) (subscription : Z) (input : SyncInput).

Lemma versionOf_id v w : versionOf catalog v = Some w -> ve_id w = v.
Proof. intros [_ H%Z.eqb_eq]%find_some. done. Qed.
Lemma published_id v w : publishedVersion catalog v = Some w -> ve_id w = v /\ versionOf catalog v = Some w.
Proof.
  unfold publishedVersion. intros (w' & E & H)%bind_Some. destruct (ve_published w'); simplify_eq. split; [by apply versionOf_id|done].
Qed.

Lemma appliedChange_spec rows c : appliedChange subscription rows = Some c -> c ∈ rows /\ ch_subscription c = subscription /\ ch_status c = change_applied.
Proof. intros [Hc [Hs%Z.eqb_eq Ha%bool_decide_eq_true]%andb_true_iff]%head_sortBy. done. Qed.

Lemma pendingChange_spec rows current bound c : pendingChange subscription current bound rows = Some c ->
  c ∈ rows /\ ch_subscription c = subscription /\ inFlight c = true /\ ch_synchronized_at c = None /\ ch_from c = current /\ ch_to c = bound.
Proof. intros [Hc H]%head_sortBy. rewrite !andb_true_iff, bool_decide_eq_true, !Z.eqb_eq in H. tauto. Qed.

Lemma owedVersion_spec current c v : owedVersion catalog current c = Some v ->
  ch_synchronized_at c = None /\ ch_from c = current /\ ch_to c <> current /\ ch_to c = ve_id v.
Proof.
  unfold owedVersion. destruct (_ && _) eqn:E; [|done]. rewrite !andb_true_iff, bool_decide_eq_true, Z.eqb_eq, negb_true_iff, Z.eqb_neq in E.
  intros [Hid _]%published_id. destruct E as [[E1 E2] E3]. split_and!; [done..|congruence].
Qed.

Lemma owedMove_spec current change c v : owedMove catalog current change = Some (c, v) -> change = Some c /\ owedVersion catalog (ve_id current) c = Some v.
Proof. unfold owedMove. intros (c' & -> & H)%bind_Some. apply bind_Some in H as (v' & H & [= -> ->]). done. Qed.

Lemma reportedMove_spec rows current c v : reportedMove catalog subscription (sy_product input) rows current = Some (c, v) ->
  exists b, boundVersion catalog (sy_product input) = Some b /\ ve_id b <> ve_id current /\ versionOf catalog (ch_to c) = Some v /\
    c ∈ rows /\ ch_subscription c = subscription /\ inFlight c = true /\ ch_synchronized_at c = None /\ ch_from c = ve_id current /\ ch_to c = ve_id b.
Proof.
  unfold reportedMove. intros (b & Hb & E)%bind_Some. destruct (Z.eqb_spec (ve_id b) (ve_id current)) as [|Hne]; [done|].
  apply bind_Some in E as (c' & Hp & E). apply bind_Some in E as (v' & Hv & [= -> ->]). apply pendingChange_spec in Hp. exists b. tauto.
Qed.

Lemma carried_immediate c cs : carriedBy c = Some cs -> rq_mode (ch_request c) = immediate /\ cs = rq_carry (ch_request c).
Proof. unfold carriedBy, appliedCarryOver. case_bool_decide; [|done]. destruct (_ && _); [done|]. by intros [= <-]. Qed.

(** Why a resolution moves a subscription pinned to [current]. *)
Definition told (current : Z) (rows : list SubscriptionChange) (rv : ResolvedVersion) : Prop :=
  (exists c, c ∈ rows /\ waitsFor subscription current c /\ ch_to c = rv_version rv /\ rv_change rv = Some (ch_id c) /\
     rv_carry rv = carriedBy c /\ rv_switch rv = false) \/
  (rv_switch rv = true /\ rv_carry rv = None /\ ve_id <$> boundVersion catalog (sy_product input) = Some (rv_version rv) /\ productMoved catalog current input).

Lemma resolveFromProduct_told rows current changeId rv : resolveFromProduct catalog subscription input rows current changeId = rv ->
  (rv_changed rv = false /\ rv_version rv = ve_id current /\ rv_carry rv = None /\ rv_switch rv = false) \/
  (rv_changed rv = true /\ rv_version rv <> ve_id current /\ told (ve_id current) rows rv).
Proof.
  unfold resolveFromProduct. intros <-.
  destruct (reportedMove _ _ _ _ _) as [[c v]|] eqn:E.
  - right. apply reportedMove_spec in E as (b & Hb & Hne & Hv & Hc & Hs & Hf & Hn & Hfrom & Hto). pose proof (versionOf_id _ _ Hv) as Hid. cbn.
    split_and!; [done|congruence|]. left. exists c. unfold waitsFor. split_and!; try done; [congruence|by right].
  - destruct (boundVersion catalog (sy_product input)) as [b|] eqn:Hb; [|by left]. destruct (sy_snapshot input) as [sn|] eqn:Hsn; [|by left].
    destruct (_ && _) eqn:Ec; [|by left]. right. apply andb_true_iff in Ec as [Hne%negb_true_iff%Z.eqb_neq Ec]. cbn.
    split_and!; [done|done|]. right. unfold told. cbn. rewrite Hb. split_and!; try done. exists sn. split; [done|].
    destruct (pricedThrough _ _ _); [by apply negb_true_iff|]. rewrite andb_true_iff, !bool_decide_eq_true in Ec. destruct Ec as [E1 E2].
    destruct (sn_previous sn) as [p|]; [|done]. exists p. split; [done|congruence].
Qed.

Lemma resolve_told rows current rv : resolveSubscriptionPlanVersion catalog subscription (Some current) input rows = Some rv ->
  is_Some (versionOf catalog current) ->
  (rv_changed rv = false /\ rv_version rv = current /\ rv_carry rv = None /\ rv_switch rv = false) \/
  (rv_changed rv = true /\ rv_version rv <> current /\ sy_preserve input = false /\ told current rows rv).
Proof.
  intros H [w Hw]. pose proof (versionOf_id _ _ Hw) as Hid. unfold resolveSubscriptionPlanVersion in H.
  rewrite bool_decide_false in H by done. cbn [mbind option_bind] in H. rewrite Hw in H. destruct (sy_preserve input); [left; by simplify_eq/=|].
  assert (Hprod : forall changeId, Some (resolveFromProduct catalog subscription input rows w changeId) = Some rv ->
    (rv_changed rv = false /\ rv_version rv = current /\ rv_carry rv = None /\ rv_switch rv = false) \/
    (rv_changed rv = true /\ rv_version rv <> current /\ false = false /\ told current rows rv)).
  { intros changeId [= E]. apply resolveFromProduct_told in E. rewrite Hid in E. tauto. }
  destruct (owedMove catalog _ _) as [[c v]|] eqn:Eo; [|by apply (Hprod _ H)]. apply owedMove_spec in Eo as [Hc Hv].
  pose proof (appliedChange_spec _ _ Hc) as (Hin & Hs & Ha). apply owedVersion_spec in Hv as (Hn & Hfrom & Hto & Hto').
  rewrite Hc in H. cbn [mbind option_bind] in H. rewrite (bool_decide_true (ch_synchronized_at c = None)) in H by done.
  assert (Hmoved : Some (resolved v true (Some (ch_id c)) (Some (ve_id w)) (carriedBy c) false) = Some rv ->
    rv_changed rv = true /\ rv_version rv <> current /\ false = false /\ told current rows rv).
  { intros [= <-]. cbn. split_and!; [done|congruence|done|]. left. exists c. unfold waitsFor. split_and!; try done; [congruence|congruence|by left]. }
  destruct (sy_snapshot input) as [sn|] eqn:Hsn; [|right; by apply Hmoved]. destruct (targetShown catalog _ _); [right; by apply Hmoved|]. by apply (Hprod _ H).
Qed.
End Syncs.

(** C31: publishing moves nobody.  A sync moves a pinned subscription to another version only for a
    change from the version it holds that no sync has settled, which then is the change it settles and
    the one whose selection carries over, or because the provider's product is one the pinned version
    does not sell and that is bound to the new version, and then nothing carries.  So whatever bindings
    the catalog publishes, a subscription without such a change whose product stayed keeps its version. *)
Theorem sync_moves_only_when_told catalog subscription input rows current rv
  (Hpinned : is_Some (versionOf catalog current)) (Hr : resolveSubscriptionPlanVersion catalog subscription (Some current) input rows = Some rv) :
  (rv_version rv <> current ->
     (exists c, c ∈ rows /\ waitsFor subscription current c /\ ch_to c = rv_version rv /\ rv_change rv = Some (ch_id c) /\ rv_carry rv = carriedBy c) \/
     (rv_carry rv = None /\ ve_id <$> boundVersion catalog (sy_product input) = Some (rv_version rv) /\ productMoved catalog current input)) /\
  ((forall c, c ∈ rows -> ~ waitsFor subscription current c) -> ~ productMoved catalog current input ->
     rv_version rv = current /\ rv_changed rv = false /\ rv_carry rv = None).
Proof.
  destruct (resolve_told _ _ _ _ _ _ Hr Hpinned) as [(H1 & H2 & H3 & _)|(H1 & H2 & _ & H3)].
  - split; [congruence|done].
  - split.
    + intros _. destruct H3 as [(c & ? & ? & ? & ? & ? & _)|(_ & ? & ? & ?)]; [left; by exists c|by right].
    + intros Hno Hp. exfalso. destruct H3 as [(c & Hc & Hw & _)|(_ & _ & _ & Hm)]; [by apply (Hno c)|done].
Qed.

(** ** The same snapshot again *)

Section Redelivery.
Context (catalog : Catalog) (subscription : Z) (input : SyncInput).

(** Settling leaves the rows that still wait as they were. *)
Lemma settle_waits now rv rows c' : c' ∈ settleChanges subscription now rv rows -> ch_synchronized_at c' = None ->
  (ch_status c' = change_applied \/ inFlight c' = true) -> c' ∈ rows.
Proof using.
  unfold settleChanges. set (rows1 := if rv_switch rv then _ else rows). intros Hc Hn Hs.
  assert (H1 : c' ∈ rows1).
  { destruct (rv_change rv); [|done]. apply list_elem_of_fmap in Hc as (c & -> & Hc). destruct (_ && _); [discriminate Hn|done]. }
  subst rows1. destruct (rv_switch rv); [|done]. apply list_elem_of_fmap in H1 as (c & -> & Hc1). destruct (_ && _); [|done].
  rewrite inFlight_spec in Hs. cbn in Hs. intuition congruence.
Qed.

(** Without a switch it touches applied rows alone, and the ones of another change not at all. *)
Definition settled (now : Z) (id : option Z) (c : SubscriptionChange) : SubscriptionChange :=
  match id with
  | Some i => if (ch_subscription c =? subscription) && (ch_id c =? i) && isStatus change_applied c && bool_decide (ch_synchronized_at c = None)
              then synchronized now c else c
  | None => c
  end.

Lemma settle_map now rv rows : rv_switch rv = false -> settleChanges subscription now rv rows = map (settled now (rv_change rv)) rows.
Proof using. unfold settleChanges, settled. intros ->. destruct (rv_change rv); [done|by rewrite map_id]. Qed.

Lemma applied_settled now id rows : appliedChange subscription (map (settled now id) rows) = settled now id <$> appliedChange subscription rows.
Proof using.
  unfold appliedChange. rewrite filter_map_comm. rewrite (List.filter_ext _ (fun c => (ch_subscription c =? subscription) && isStatus change_applied c)).
  2:{ intros c. unfold settled. destruct id; [|done]. by cases_if. }
  rewrite (sortBy_map appliedLater); [by destruct (sortBy _ _)|]. intros a b. unfold appliedLater, settled. destruct id; [|done]. by repeat cases_if.
Qed.

(** A waiting row is not touched. *)
Lemma settled_waiting now id c : inFlight c = true -> settled now id c = c.
Proof using.
  intros H%inFlight_spec. unfold settled. destruct id; [|done]. destruct (_ && _) eqn:E; [|done]. rewrite !andb_true_iff in E.
  destruct E as [[_ Ha%bool_decide_eq_true] _]. intuition congruence.
Qed.

Lemma pending_settled now id current bound rows :
  pendingChange subscription current bound (map (settled now id) rows) = pendingChange subscription current bound rows.
Proof using.
  unfold pendingChange. f_equal. f_equal. apply filter_map_same. intros c _. destruct (inFlight c) eqn:E.
  - rewrite settled_waiting by exact E. by rewrite E.
  - assert (E' : inFlight (settled now id c) = false) by (unfold settled; destruct id; [cases_if|]; exact E).
    rewrite E', !andb_false_r. done.
Qed.

(** The version a resolution answers is one of the catalog's. *)
Lemma resolved_known rows version rv : resolveSubscriptionPlanVersion catalog subscription version input rows = Some rv -> is_Some (versionOf catalog (rv_version rv)).
Proof using.
  assert (Hpub : forall v w, publishedVersion catalog v = Some w -> is_Some (versionOf catalog (ve_id w))).
  { intros v w [<- H]%published_id. by eexists. }
  assert (Hbound : forall b, boundVersion catalog (sy_product input) = Some b -> is_Some (versionOf catalog (ve_id b))).
  { intros b (x & _ & Hb)%bind_Some. by eapply Hpub. }
  unfold resolveSubscriptionPlanVersion. intros H. destruct (version ≫= versionOf catalog) as [w|] eqn:Ew.
  2:{ apply fmap_Some in H as (b & Hb & ->). by apply Hbound. }
  apply bind_Some in Ew as (v & -> & Hw). pose proof (versionOf_id _ _ _ Hw) as Hid. subst v.
  assert (Hprod : forall changeId, Some (resolveFromProduct catalog subscription input rows w changeId) = Some rv -> is_Some (versionOf catalog (rv_version rv))).
  { intros changeId [= E]. pose proof (resolveFromProduct_told _ _ _ _ _ _ _ E) as [(_ & -> & _)|(_ & _ & Ht)]; [by eexists|].
    unfold resolveFromProduct in E. destruct (reportedMove _ _ _ _ _) as [[c v]|] eqn:Eb.
    - apply reportedMove_spec in Eb as (b & Hb & _ & Hv & _). subst rv. cbn. rewrite (versionOf_id _ _ _ Hv). by eexists.
    - destruct (boundVersion catalog (sy_product input)) as [b|] eqn:Hb; [|subst rv; by eexists]. destruct (sy_snapshot input); [|subst rv; by eexists].
      destruct (_ && _); subst rv; [by apply Hbound|by eexists]. }
  destruct (sy_preserve input); [simplify_eq/=; by eexists|].
  destruct (owedMove catalog _ _) as [[c v]|] eqn:Eo; [|by apply (Hprod _ H)]. apply owedMove_spec in Eo as [_ Hv].
  assert (Hvk : is_Some (versionOf catalog (ve_id v))) by (unfold owedVersion in Hv; destruct (_ && _); [by eapply Hpub|done]).
  destruct (sy_snapshot input); [|by simplify_eq/=]. destruct (targetShown catalog _ _); [by simplify_eq/=|by apply (Hprod _ H)].
Qed.

Lemma reported_settled now id rows current : reportedMove catalog subscription (sy_product input) (map (settled now id) rows) current =
  reportedMove catalog subscription (sy_product input) rows current.
Proof using. unfold reportedMove. destruct (boundVersion _ _); [|done]. cbn. by rewrite pending_settled. Qed.

(** The product decides the same after a settlement that is no switch. *)
Lemma product_settled now id rows current changeId changeId' :
  resolveFromProduct catalog subscription input (map (settled now id) rows) current changeId' =
  let rv := resolveFromProduct catalog subscription input rows current changeId in
  {| rv_version := rv_version rv; rv_revision := rv_revision rv; rv_changed := rv_changed rv;
     rv_change := rv_change (resolveFromProduct catalog subscription input rows current changeId'); rv_previous := rv_previous rv;
     rv_carry := rv_carry rv; rv_switch := rv_switch rv |}.
Proof using.
  unfold resolveFromProduct. rewrite reported_settled. destruct (reportedMove _ _ _ _ _) as [[c v]|]; [done|].
  destruct (boundVersion catalog (sy_product input)) as [b|]; [|done]. destruct (sy_snapshot input); [|done]. by destruct (_ && _).
Qed.

(** A sync that moved the subscription is not followed by another move for the same snapshot, unless
    a change waits to move it on; a price binding names its product's provider and channel. *)
Hypothesis channels : forall b, b ∈ ct_price_bindings catalog -> rb_published b = true -> ct_channel catalog (rb_product b) = Some (rb_channel b).

Lemma sells_priced version product : sellsProduct catalog version product = true -> pricedThrough catalog version product = true.
Proof using channels.
  unfold sellsProduct, pricedThrough. intros (b & Hb%list_elem_of_In & Hp)%existsb_exists. rewrite !andb_true_iff, !Z.eqb_eq in Hp. destruct Hp as [[Hv <-] Hpub].
  rewrite (channels b Hb Hpub). apply existsb_exists. exists b. split; [by apply list_elem_of_In|]. by rewrite Hv, Z.eqb_refl, bool_decide_true, Hpub.
Qed.

(** What a move shows: the product is bound to the version moved to, or it sells it, or no snapshot decides. *)
Lemma moved_shown version rows rv : resolveSubscriptionPlanVersion catalog subscription version input rows = Some rv -> rv_changed rv = true ->
  sy_snapshot input = None \/ ve_id <$> boundVersion catalog (sy_product input) = Some (rv_version rv) \/ sellsProduct catalog (rv_version rv) (sy_product input) = true.
Proof using.
  unfold resolveSubscriptionPlanVersion. intros H Hch. destruct (version ≫= versionOf catalog) as [w|] eqn:Ew.
  2:{ apply fmap_Some in H as (b & -> & ->). by right; left. }
  assert (Hprod : forall changeId, Some (resolveFromProduct catalog subscription input rows w changeId) = Some rv ->
    ve_id <$> boundVersion catalog (sy_product input) = Some (rv_version rv)).
  { intros changeId [= <-]. revert Hch. unfold resolveFromProduct. destruct (reportedMove _ _ _ _ _) as [[c v]|] eqn:E.
    - apply reportedMove_spec in E as (b & -> & _ & Hv & _ & _ & _ & _ & _ & Hto). cbn. intros _. rewrite (versionOf_id _ _ _ Hv). congruence.
    - destruct (boundVersion catalog (sy_product input)) as [b|]; [|done]. destruct (sy_snapshot input); [|done]. by destruct (_ && _). }
  destruct (sy_preserve input); [by simplify_eq/=|]. destruct (owedMove catalog _ _) as [[c v]|]; [|right; left; by eapply Hprod].
  destruct (sy_snapshot input); [|by left]. right. destruct (targetShown catalog _ _) eqn:Es; [|left; by eapply Hprod]. simplify_eq/=.
  unfold targetShown in Es. apply orb_true_iff in Es as [Es|Es]; [left|by right]. destruct (boundVersion _ _); [|done]. cbn. by apply Z.eqb_eq in Es as ->.
Qed.

Lemma resolve_again now rows version rv : resolveSubscriptionPlanVersion catalog subscription version input rows = Some rv ->
  (rv_changed rv = true -> forall c, c ∈ rows -> ~ waitsFor subscription (rv_version rv) c) ->
  exists rv', resolveSubscriptionPlanVersion catalog subscription (Some (rv_version rv)) input (settleChanges subscription now rv rows) = Some rv' /\
    rv_version rv' = rv_version rv /\ rv_changed rv' = false /\ rv_carry rv' = None /\ rv_switch rv' = false.
Proof using channels.
  intros Hr Hw. pose proof (resolved_known _ _ _ Hr) as Hknown.
  destruct (resolveSubscriptionPlanVersion catalog subscription (Some (rv_version rv)) input (settleChanges subscription now rv rows)) as [rv'|] eqn:Hr'.
  2:{ exfalso. unfold resolveSubscriptionPlanVersion in Hr'. destruct Hknown as [w Hk]. cbn [mbind option_bind] in Hr'. rewrite Hk in Hr'.
      destruct (sy_preserve input); [done|]. destruct (owedMove catalog _ _) as [[c v]|]; [|done]. destruct (sy_snapshot input); [|done]. by destruct (targetShown catalog _ _). }
  exists rv'. split; [done|]. destruct (resolve_told _ _ _ _ _ _ Hr' Hknown) as [(? & ? & ? & ?)|(Hch' & Hne & Hpres & Htold)]; [done|exfalso].
  destruct (rv_changed rv) eqn:Hch.
  - destruct Htold as [(c & Hc & (Hs & Hf & Ht & Hn & Hst) & _)|(_ & _ & Hb & Hm)].
    + apply (Hw eq_refl c); [|done]. by eapply settle_waits.
    + destruct (moved_shown _ _ _ Hr Hch) as [E|[E|E]].
      * destruct Hm as (sn & Hsn & _). congruence.
      * congruence.
      * destruct Hm as (sn & _ & Hm). rewrite (sells_priced _ _ E), E in Hm. done.
  - clear Htold Hw. unfold resolveSubscriptionPlanVersion in Hr. destruct (version ≫= versionOf catalog) as [w|] eqn:Ew; [|apply fmap_Some in Hr as (b & _ & ->); done].
    apply bind_Some in Ew as (v0 & -> & Hv0). pose proof (versionOf_id _ _ _ Hv0) as <-. rewrite Hpres in Hr. rewrite bool_decide_false in Hr by done.
    assert (Hunmoved : forall changeId, Some (resolveFromProduct catalog subscription input rows w changeId) = Some rv ->
      rv_version rv = ve_id w /\ rv_switch rv = false /\ rv_change rv = changeId).
    { intros ch [= <-]. destruct (resolveFromProduct_told catalog subscription input rows w ch _ eq_refl) as [(H1 & H2 & H3 & H4)|(H1 & _)]; [|by rewrite Hch in H1].
      split_and!; [done|done|]. revert Hch. unfold resolveFromProduct. destruct (reportedMove _ _ _ _ _) as [[c v]|]; [done|].
      destruct (boundVersion catalog (sy_product input)); [|done]. destruct (sy_snapshot input); [|done]. by destruct (_ && _). }
    assert (Hfirst : exists ch, Some (resolveFromProduct catalog subscription input rows w ch) = Some rv).
    { destruct (owedMove catalog _ _) as [[c v]|]; [|by eexists].
      destruct (sy_snapshot input); [|by simplify_eq/=]. destruct (targetShown catalog _ _); [by simplify_eq/=|by eexists]. }
    destruct Hfirst as (ch & Hfirst). destruct (Hunmoved _ Hfirst) as (Hv & Hsw & _). rewrite Hv, settle_map in Hr' by done.
    assert (Hno : forall ch', Some (resolveFromProduct catalog subscription input (map (settled now (rv_change rv)) rows) w ch') <> Some rv').
    { intros ch' [= E]. rewrite (product_settled now (rv_change rv) rows w ch) in E. rewrite <- E in Hch'. cbn in Hch'. congruence. }
    unfold resolveSubscriptionPlanVersion in Hr'. rewrite bool_decide_false in Hr' by done. cbn [mbind option_bind] in Hr'. rewrite Hv0, Hpres, applied_settled in Hr'.
    unfold owedMove in Hr, Hr'. destruct (appliedChange subscription rows) as [c|]; cbn [mbind option_bind fmap option_fmap option_map] in Hr, Hr'; [|by apply Hno in Hr'].
    destruct (owedVersion catalog (ve_id w) (settled now (rv_change rv) c)) as [v|] eqn:Eo; cbn [mbind option_bind] in Hr'; [|by apply Hno in Hr'].
    assert (owedVersion catalog (ve_id w) c = Some v) as Eo'.
    { pose proof (owedVersion_spec _ _ _ _ Eo) as (En & _). unfold settled in Eo, En. destruct (rv_change rv); [|done]. destruct (_ && _); [discriminate En|done]. }
    rewrite Eo' in Hr. cbn [mbind option_bind] in Hr. destruct (sy_snapshot input); [|injection Hr as Hr; subst rv; discriminate Hch]. destruct (targetShown catalog (sy_product input) v); [injection Hr as Hr; subst rv; discriminate Hch|by apply Hno in Hr'].
Qed.
End Redelivery.

(** ** A change from request to settlement *)

Definition upgradeRequest : ChangeRequest :=
  {| rq_customer := 3; rq_subscription := 7; rq_from := 1; rq_to := 2; rq_carry := {| cs_balances := [10]; cs_usages := [] |};
     rq_mode := immediate; rq_effective_at := 0; rq_key := "upgrade"; rq_hash := "h" |}.
Definition requested : list SubscriptionChange := [newChange 50 0 upgradeRequest].
Definition claimed : list SubscriptionChange := (claimSubscriptionChanges "worker" 25 (fun _ => false) 0 requested).2.
Definition appliedRows : list SubscriptionChange := finishAttempt 50 "worker" (mark_applied "req") 0 claimed.

Definition pinnedState (rows : list SubscriptionChange) : State := {| st_changes := rows; st_versions := <[7 := 1]> ∅; st_clock := 0 |}.

Lemma requested_reachable : reachable (pinnedState requested).
Proof.
  eapply rtc_l; [exact (step_pin started 7 1 eq_refl)|]. eapply rtc_l; [|apply rtc_refl].
  refine (step_request (pinnedState []) 50 None "state" upgradeRequest 50 requested _ eq_refl). by intros ?%elem_of_nil.
Qed.

Lemma appliedRows_reachable : reachable (pinnedState appliedRows).
Proof.
  eapply rtc_r; [eapply rtc_r; [apply requested_reachable|]|].
  - exact (step_claim (pinnedState requested) "worker" 25 (fun _ => false)).
  - exact (step_finish (pinnedState claimed) 50 "worker" (mark_applied "req")).
Qed.

Lemma one_change_in_flight_witness :
  (forall c, c ∈ st_changes (pinnedState claimed) -> ch_status c = change_processing /\ ch_locked_by c = Some "worker"%string) /\
  (forall c c', c ∈ st_changes (pinnedState appliedRows) -> c' ∈ st_changes (pinnedState appliedRows) -> inFlight c = true -> inFlight c' = true ->
     ch_subscription c = ch_subscription c' -> c = c').
Proof.
  split.
  - intros c Hc. cbn in Hc. apply list_elem_of_singleton in Hc as ->. done.
  - exact (proj1 (one_change_in_flight (pinnedState appliedRows) appliedRows_reachable)).
Defined.

(** The provider's snapshot shows the product of version 2. *)
Definition twoVersions : Catalog :=
  {| ct_versions := [{| ve_id := 1; ve_revision := 1; ve_published := true |}; {| ve_id := 2; ve_revision := 1; ve_published := true |};
                     {| ve_id := 3; ve_revision := 2; ve_published := true |}];
     ct_plan_bindings := [{| pb_product := 101; pb_version := 3; pb_published := true |}; {| pb_product := 102; pb_version := 2; pb_published := true |}];
     ct_price_bindings := []; ct_channel := fun _ => Some (1, 1) |}.
Definition snapshotOf (product previous : Z) : SyncInput :=
  {| sy_product := product; sy_snapshot := Some {| sn_previous := Some previous; sn_created_at := None; sn_billing_change := Some (Some 50) |}; sy_preserve := false |}.

(** A newer version took over product 101, and the subscription of version 1 keeps it. *)
Example retargeted_binding_moves_nobody :
  rv_version <$> resolveSubscriptionPlanVersion twoVersions 7 (Some 1) (snapshotOf 101 101) [] = Some 1.
Proof. reflexivity. Qed.

(** The applied change moves it when the snapshot shows its target, with its carry-over; the other
    product, shown after the change reached the provider, settles the change without effect. *)
Example applied_change_moves :
  resolveSubscriptionPlanVersion twoVersions 7 (Some 1) (snapshotOf 102 101) appliedRows =
    Some {| rv_version := 2; rv_revision := 1; rv_changed := true; rv_change := Some 50; rv_previous := Some 1;
            rv_carry := Some {| cs_balances := [10]; cs_usages := [] |}; rv_switch := false |} /\
  resolveSubscriptionPlanVersion twoVersions 7 (Some 1) (snapshotOf 101 101) appliedRows =
    Some {| rv_version := 1; rv_revision := 1; rv_changed := false; rv_change := Some 50; rv_previous := Some 1; rv_carry := None; rv_switch := false |}.
Proof. split; reflexivity. Qed.

(** A parked change that an operator retries is applied after changes that were created later: the
    order of application is not the order of creation. *)
Definition parked : SubscriptionChange :=
  moved (newChange 40 0 {| rq_customer := 3; rq_subscription := 7; rq_from := 1; rq_to := 3; rq_carry := {| cs_balances := []; cs_usages := [10] |};
    rq_mode := immediate; rq_effective_at := 0; rq_key := "parked"; rq_hash := "p" |}) change_failed 20 (Some "error"%string) None None 0.
Definition later : SubscriptionChange := moved (newChange 50 5 upgradeRequest) change_applied 1 None None (Some 6) 6.
Example retried_change_applies_late :
  exists rows, retrySubscriptionChange false 40 10 [parked; later] = Ok rows /\
    map (fun c => (ch_id c, ch_created_at c, ch_applied_at c))
      (finishAttempt 40 "worker" (mark_applied "req") 12 (claimSubscriptionChanges "worker" 25 (fun _ => false) 11 rows).2)
    = [(40, 0, Some 12); (50, 5, Some 6)].
Proof. eexists. split; [vm_compute; reflexivity|vm_compute; reflexivity]. Qed.

Lemma sync_moves_only_when_told_witness :
  rv_version <$> resolveSubscriptionPlanVersion twoVersions 7 (Some 1) (snapshotOf 101 101) [] = Some 1 /\
  exists c, c ∈ appliedRows /\ waitsFor 7 1 c /\ ch_to c = 2.
Proof.
  split.
  - destruct (resolveSubscriptionPlanVersion twoVersions 7 (Some 1) (snapshotOf 101 101) []) as [rv|] eqn:E; [|discriminate E].
    destruct (proj2 (sync_moves_only_when_told twoVersions 7 (snapshotOf 101 101) [] 1 rv ltac:(by eexists) E)) as (H & _).
    + by intros c ?%elem_of_nil.
    + intros (sn & [= <-] & H). cbn in H. destruct H as (p & [= <-] & H). by apply H.
    + cbn. by rewrite H.
  - destruct (resolveSubscriptionPlanVersion twoVersions 7 (Some 1) (snapshotOf 102 101) appliedRows) as [rv|] eqn:E; [|discriminate E].
    assert (Hrv : rv_version rv = 2 /\ rv_carry rv <> None) by (vm_compute in E; by injection E as <-). destruct Hrv as [Hrv Hcarry].
    destruct (proj1 (sync_moves_only_when_told twoVersions 7 (snapshotOf 102 101) appliedRows 1 rv ltac:(by eexists) E) ltac:(by rewrite Hrv))
      as [(c & Hc & Hw & Hto & _)|(H & _)]; [exists c; split_and!; [done|done|congruence]|done].
Defined.

Lemma applied_change_is_final_witness :
  exists c', c' ∈ st_changes (syncVersion twoVersions 7 (snapshotOf 102 101) (pinnedState appliedRows)) /\ ch_id c' = 50 /\ ch_status c' = change_applied.
Proof.
  assert (Hin : exists c, c ∈ st_changes (pinnedState appliedRows) /\ ch_id c = 50 /\ ch_status c = change_applied) by (eexists; split; [left|done]).
  destruct Hin as (c & Hc & Hid & Ha).
  destruct (proj1 (applied_change_is_final (pinnedState appliedRows) (syncVersion twoVersions 7 (snapshotOf 102 101) (pinnedState appliedRows)) c
    appliedRows_reachable (rtc_once _ _ (step_sync _ twoVersions 7 (snapshotOf 102 101))) Hc)) as (c' & Hc' & E & _ & H).
  exists c'. split_and!; [done|congruence|by apply H].
Defined.
