(* ===== verification/SubscriptionGrants.v ===== *)
(** * A subscription's allowances ([db/repository/catalog-allocations.ts],
    [subscription-allocation-periods.ts], [cadence-sql.ts])

    The sync of a provider's snapshot, whole: it resolves and settles the version
    ([SubscriptionChanges]), moves non-consumable levels ([KeptLevels]), supersedes base plan grants
    ([PlanGrants]), grants the version's allowances for the reported period or for the reset window
    inside it, and switches ([CarryOver]).  Then the worker that opens the next reset window of
    subscriptions whose plans reset more often than they bill.  Quantities are units of the column's
    scale; rows come in the order of the lists. *)
From S2P Require Import Prelude JsDate Cadence Windows KeptLevels PlanGrants CarryReplay CarryOver SubscriptionChanges.

(** ** State *)

(** A row of [subscriptions]; the provider's upsert writes all but the version. *)
Record Subscription := {
  sb_version : option Z; sb_revision : option Z; sb_entity : option Z; sb_status : SubscriptionStatus;
  sb_starts : Z; sb_period_start : option Z; sb_period_end : option Z; sb_expires : option Z }.

(** [COALESCE(current_period_start, starts_at)], [COALESCE(current_period_end, expires_at)] *)
Definition periodStart (sub : Subscription) : Z := default (sb_starts sub) (sb_period_start sub).
Definition periodEnd (sub : Subscription) : option Z := match sb_period_end sub with Some e => Some e | None => sb_expires sub end.

Definition pinned (version revision : Z) (sub : Subscription) : Subscription :=
  {| sb_version := Some version; sb_revision := Some revision; sb_entity := sb_entity sub; sb_status := sb_status sub;
     sb_starts := sb_starts sub; sb_period_start := sb_period_start sub; sb_period_end := sb_period_end sub; sb_expires := sb_expires sub |}.

(** What the sync of one subscription reads and writes. *)
Record SyncState := {
  ss_subscription : Subscription; ss_changes : list SubscriptionChange; ss_account : PlanGrants.Account; ss_ledger : Ledger }.

(** [fundsAllocations], [allocationFundingStatuses] *)
Definition fundsAllocations (status : SubscriptionStatus) : bool := changeableSubscriptionStatus status.

(** ** Rows of an item *)

Definition entityScoped (it : PlanGrants.PlanItem) : bool := negb (it_account it).

Definition ofItem (it : PlanGrants.PlanItem) (r : Allocation) : bool :=
  bool_decide (al_item r = Some (it_id it)) && bool_decide (al_source r = source_subscription).

(** [ON CONFLICT (project_id, feature_id, source_kind, source_key)] *)
Definition grantTaken (rows : list Allocation) (r : Allocation) : bool :=
  existsb (fun x => (al_feature x =? al_feature r) && bool_decide (al_source x = al_source r) && bool_decide (al_key x = al_key r)) rows.

(** A new row of the subscription. *)
Definition grantRow (entity : option Z) (it : PlanGrants.PlanItem) (key : AllocationKey) (start : Z) (endAt expires : option Z) (id : Z) : Allocation :=
  {| al_id := id; al_feature := it_feature it; al_entity := if entityScoped it then entity else None; al_item := Some (it_id it);
     al_source := source_subscription; al_key := Some key; al_quantity := it_quantity it; al_reversed := 0; al_consumed := 0; al_held := 0;
     al_start := Some start; al_end := endAt; al_expires := expires; al_reversed_at := None; al_rollover := None; al_origin := None |}.

(** [INSERT ... ON CONFLICT DO NOTHING RETURNING id], which takes an identity value either way. *)
Definition insertGrant (st : Ledger * nat) (row : Z -> Allocation) : Ledger * nat :=
  let '(s, granted) := st in
  let r := row (lg_nextId s) in
  if grantTaken (lg_rows s) r then ({| lg_rows := lg_rows s; lg_carried := lg_carried s; lg_nextId := lg_nextId s + 1 |}, granted)
  else ({| lg_rows := lg_rows s ++ [r]; lg_carried := lg_carried s; lg_nextId := lg_nextId s + 1 |}, S granted).

Section Grants.
(** The catalog's items, the billing cadence of a version ([None]: an unpriced plan), the
    non-consumable features, and which versions are of a base plan. *)
Context (items : list CatalogItem) (billing : Z -> option Cadence) (nonConsumable : Z -> bool) (base : Z -> bool).

Definition allocationItems (version : Z) : list PlanGrants.PlanItem :=
  map ci_item (List.filter (fun c => ci_allocation c && (it_version (ci_item c) =? version)) items).

(** [resetSplitsBillingPeriodSql], with the subscription's period. *)
Definition resetSplits (it : PlanGrants.PlanItem) (start : Z) (endAt : option Z) : bool :=
  match it_reset it with
  | None => false
  | Some u =>
      let reset := storedCadence u (Some (it_reset_count it)) in
      match billing (it_version it) with
      | None => match endAt with Some e => periodSplits reset None (Some start) (Some e) | None => false end
      | Some b => cadenceSplits reset (Some b)
      end
  end.

(** ** Grants of a period *)

(** The [expires_at] of the insert. *)
Definition grantExpires (it : PlanGrants.PlanItem) (start : Z) (endAt : option Z) : option Z :=
  if expires it then least endAt (expiresAtSql start it)
  else if bool_decide (it_reset it <> None) then endAt else None.

Definition periodGrant (entity : option Z) (start : Z) (endAt : option Z) (it : PlanGrants.PlanItem) : Z -> Allocation :=
  grantRow entity it (if lifetimeItem it then lifetime_key (it_id it) else period_key (it_id it) start endAt) start
    (if lifetimeItem it then None else endAt) (grantExpires it start endAt).

(** The [WHERE] of the insert: no reset windows inside the period, no live lifetime allowance, no kept level. *)
Definition grantsPeriod (rows : list Allocation) (now start : Z) (endAt : option Z) (it : PlanGrants.PlanItem) : bool :=
  negb (resetSplits it start endAt) &&
  negb (lifetimeItem it && existsb (fun r => ofItem it r && funded now r) rows) &&
  negb (existsb (fun r => ofItem it r && funded now r && nonConsumable (al_feature r) && bool_decide (al_start r = Some start)) rows).

Definition grantPeriod (entity : option Z) (version now start : Z) (endAt : option Z) (s : Ledger) : Ledger * nat :=
  fold_left insertGrant (map (periodGrant entity start endAt) (List.filter (grantsPeriod (lg_rows s) now start endAt) (allocationItems version))) (s, 0%nat).

(** ** Grants of reset windows *)

(** A grant made for the whole provider period, before its item was split into reset windows. *)
Definition adopts (it : PlanGrants.PlanItem) (a b : Z) (r : Allocation) : bool :=
  ofItem it r &&
  match al_start r, al_end r with
  | Some s, Some e => (s <=? a) && (b <=? e) && ((s <? a) || (b <? e))
  | _, _ => false
  end.
Definition adopt (a b : Z) (r : Allocation) : Allocation :=
  {| al_id := al_id r; al_feature := al_feature r; al_entity := al_entity r; al_item := al_item r; al_source := al_source r;
     al_key := al_key r; al_quantity := al_quantity r; al_reversed := al_reversed r; al_consumed := al_consumed r; al_held := al_held r;
     al_start := Some a; al_end := Some b; al_expires := least (al_expires r) (Some b); al_reversed_at := al_reversed_at r;
     al_rollover := al_rollover r; al_origin := al_origin r |}.

Definition hasWindow (it : PlanGrants.PlanItem) (a b : Z) (rows : list Allocation) : bool :=
  existsb (fun r => ofItem it r && bool_decide (al_start r = Some a) && bool_decide (al_end r = Some b)) rows.

(** The expiry of a window's allowance: it counts from the window's start and never outlives it. *)
Definition windowExpires (it : PlanGrants.PlanItem) (a b : Z) : result Z :=
  match PlanGrants.storedExpiresAt (Some a) it with
  | None => Ok b
  | Some expiry => if dateLt (Some b) expiry then Ok b else toISOString expiry
  end.

Record PeriodResult := { pr_granted : nat; pr_transitioned : nat }.

(** The loop's body. *)
Definition grantWindow (entity : option Z) (start endAt now : Z) (st : Ledger * PeriodResult) (it : PlanGrants.PlanItem) : result (Ledger * PeriodResult) :=
  let '(s, res) := st in
  match it_reset it with
  | None => Ok st
  | Some u =>
      '(w0, w1) ← planGrantWindowBounds (Some start) (Some (Some endAt)) (storedCadence u (Some (it_reset_count it))) now;
      a ← toISOString w0; b ← toISOString w1;
      _ ← throwWhen (entityScoped it && bool_decide (entity = None))
            (InternalError "Entity-scoped plan allocations require an entity-scoped subscription");
      let adopted := length (List.filter (adopts it a b) (lg_rows s)) in
      let s := with_rows s (map (fun r => if adopts it a b r then adopt a b r else r) (lg_rows s)) in
      e ← windowExpires it a b;
      let res := {| pr_granted := pr_granted res; pr_transitioned := pr_transitioned res + adopted |} in
      if hasWindow it a b (lg_rows s) then Ok (s, res)
      else let '(s, n) := insertGrant (s, pr_granted res) (grantRow entity it (period_key (it_id it) a (Some b)) a (Some b) (Some e)) in
           Ok (s, {| pr_granted := n; pr_transitioned := pr_transitioned res |})
  end.

Definition splitItems (sub : Subscription) (version : Z) : list PlanGrants.PlanItem :=
  List.filter (fun it => resetSplits it (periodStart sub) (periodEnd sub)) (allocationItems version).

(** The provider's period is recorded, running and funded. *)
Definition runs (now : Z) (sub : Subscription) : bool :=
  fundsAllocations (sb_status sub) && (periodStart sub <=? now) && match periodEnd sub with Some e => now <? e | None => false end &&
  match sb_expires sub with Some e => now <? e | None => true end.

(** [ORDER BY pi.id] *)
Definition itemBefore (a b : PlanGrants.PlanItem) : bool := it_id a <? it_id b.

(** [materializeSubscriptionResetAllocations] *)
Definition materializeSubscriptionResetAllocations (sub : Subscription) (now : Z) (s : Ledger) : result (Ledger * PeriodResult) :=
  let none := Ok (s, {| pr_granted := 0; pr_transitioned := 0 |}) in
  match sb_version sub, periodEnd sub with
  | Some version, Some endAt =>
      if negb (runs now sub) || bool_decide (splitItems sub version = []) then none
      else foldM (grantWindow (sb_entity sub) (periodStart sub) endAt now) (sortBy itemBefore (splitItems sub version))
             (s, {| pr_granted := 0; pr_transitioned := 0 |})
  | _, _ => none
  end.

(** ** The sync *)

(** Rows of the ledger as [KeptLevels] sees them, and back; every row is this subscription's. *)
Definition toLevel (r : Allocation) : LevelAllocation :=
  {| v_id := al_id r;
     v_group := {| g_subscription := 0; g_plan_item := default 0 (al_item r); g_feature := al_feature r; g_entity := al_entity r |};
     v_from_subscription := bool_decide (al_source r = source_subscription) && bool_decide (is_Some (al_item r));
     v_non_consumable := nonConsumable (al_feature r); v_quantity := al_quantity r; v_consumed := al_consumed r; v_held := al_held r;
     v_reversed := al_reversed r; v_reversed_at := al_reversed_at r; v_expires_at := al_expires r; v_period_start_at := al_start r;
     v_period_end_at := al_end r |}.
Definition fromLevel (r : Allocation) (v : LevelAllocation) : Allocation :=
  {| al_id := al_id r; al_feature := al_feature r; al_entity := al_entity r; al_item := (fun _ => g_plan_item (v_group v)) <$> al_item r;
     al_source := al_source r; al_key := al_key r; al_quantity := v_quantity v; al_reversed := al_reversed r; al_consumed := al_consumed r;
     al_held := al_held r; al_start := v_period_start_at v; al_end := v_period_end_at v; al_expires := v_expires_at v;
     al_reversed_at := al_reversed_at r; al_rollover := al_rollover r; al_origin := al_origin r |}.

Definition levelItem (it : PlanGrants.PlanItem) : KeptLevels.PlanItem :=
  {| pi_id := it_id it; pi_feature := it_feature it; pi_entity_scope := entityScoped it; pi_quantity := it_quantity it;
     pi_lifetime := lifetimeItem it; pi_resets := bool_decide (it_reset it <> None);
     pi_expiry_interval := (fun u => storedCadence u (it_expiry_count it)) <$> it_expiry it; pi_expires_after_seconds := it_expires_after it |}.

Definition keepLevels (outgoing incoming now start : Z) (endAt : option Z) (s : Ledger) : Ledger :=
  let sw := {| sw_subscription := 0;
    sw_outgoing := map (fun c => it_id (ci_item c)) (List.filter (fun c => it_version (ci_item c) =? outgoing) items);
    sw_incoming := map levelItem (List.filter (fun it => negb (resetSplits it start endAt)) (allocationItems incoming));
    sw_periodStart := start; sw_periodEnd := endAt; sw_now := now |} in
  with_rows s (zip_with fromLevel (lg_rows s) (keepNonConsumableLevels sw (map toLevel (lg_rows s)))).

(** A provider's refund or revocation closes every allowance. *)
Definition reverseAll (now : Z) (r : Allocation) : Allocation :=
  {| al_id := al_id r; al_feature := al_feature r; al_entity := al_entity r; al_item := al_item r; al_source := al_source r;
     al_key := al_key r; al_quantity := al_quantity r; al_reversed := al_reversed r; al_consumed := al_consumed r; al_held := al_held r;
     al_start := al_start r; al_end := al_end r; al_expires := al_expires r;
     al_reversed_at := match al_reversed_at r with Some t => Some t | None => Some now end; al_rollover := al_rollover r; al_origin := al_origin r |}.

(** The input of [materializeSubscriptionAllocations]. *)
Record SnapshotInput := { si_sync : SyncInput; si_status : SubscriptionStatus; si_start : Z; si_end : option Z }.

(** What the switch carries: the change that moved the version, and its selection. *)
Definition carryInput (changes : list SubscriptionChange) (rv : ResolvedVersion) (outgoing : Z) (input : SnapshotInput) : CarryOverInput :=
  let selection := default {| cs_balances := []; cs_usages := [] |} (rv_carry rv) in
  {| in_change := default 0 (rv_change rv); in_change_at := default 0 (c ← rv_change rv; x ← changeOf changes c; Some (ch_created_at x));
     in_outgoing := outgoing; in_incoming := rv_version rv; in_balances := cs_balances selection; in_usages := cs_usages selection;
     in_period_start := si_start input; in_period_end := si_end input |}.
Definition carriesOver (rv : ResolvedVersion) : bool := bool_decide (rv_carry rv <> None) && bool_decide (rv_change rv <> None).

(** The version a sync moves the subscription away from. *)
Definition outgoingVersion (rv : ResolvedVersion) : option Z :=
  if rv_changed rv then p ← rv_previous rv; if p =? rv_version rv then None else Some p else None.

(** The part of the sync that works on the allocations, of a version the subscription carries. *)
Definition fundVersion (sub : Subscription) (changes : list SubscriptionChange) (rv : ResolvedVersion) (input : SnapshotInput) (now : Z) (s : Ledger)
  : result (nat * Ledger) :=
  _ ← throwWhen (existsb (fun it => entityScoped it && bool_decide (sb_entity sub = None)) (match sb_version sub with Some v => allocationItems v | None => [] end))
        (InternalError "Entity-scoped plan allocations require an entity-scoped subscription");
  let s := match outgoingVersion rv with Some o => keepLevels o (rv_version rv) now (si_start input) (si_end input) s | None => s end in
  let '(s, inserted) := grantPeriod (sb_entity sub) (rv_version rv) now (si_start input) (si_end input) s in
  '(s, windows) ← materializeSubscriptionResetAllocations sub now s;
  s ← match outgoingVersion rv with
      | Some o => switchVersion items nonConsumable (carriesOver rv) (carryInput changes rv o input) now s
      | None => Ok s
      end;
  Ok ((inserted + pr_granted windows)%nat, s).

(** ... and of a subscription that funds none. *)
Definition closeVersion (rv : ResolvedVersion) (status : SubscriptionStatus) (now : Z) (s : Ledger) : Ledger :=
  let s := if bool_decide (status = refunded) || bool_decide (status = revoked) then with_rows s (map (reverseAll now) (lg_rows s)) else s in
  match outgoingVersion rv with Some o => endOutgoingPlanAllowances items o now s | None => s end.

(** [materializeSubscriptionAllocations] *)
Definition materializeSubscriptionAllocations (catalog : Catalog) (subscription : Z) (input : SnapshotInput) (now : Z) (st : SyncState)
  : result (nat * SyncState) :=
  match resolveSubscriptionPlanVersion catalog subscription (sb_version (ss_subscription st)) (si_sync input) (ss_changes st) with
  | None => Ok (0%nat, st)
  | Some rv =>
      let changes := settleChanges subscription now rv (ss_changes st) in
      let sub := if rv_changed rv then pinned (rv_version rv) (rv_revision rv) (ss_subscription st) else ss_subscription st in
      if negb (fundsAllocations (si_status input))
      then Ok (0%nat, {| ss_subscription := sub; ss_changes := changes; ss_account := ss_account st;
                         ss_ledger := closeVersion rv (si_status input) now (ss_ledger st) |})
      else
        '(granted, s) ← fundVersion sub changes rv input now (ss_ledger st);
        Ok (granted, {| ss_subscription := sub; ss_changes := changes;
                        ss_account := supersedeBasePlanGrants now (base (rv_version rv)) (ss_account st); ss_ledger := s |})
  end.

(** ** The worker *)

(** A covering allowance that is not the whole provider period of an item that resets within it. *)
Definition coversWindow (sub : Subscription) (now : Z) (it : PlanGrants.PlanItem) (r : Allocation) : bool :=
  ofItem it r &&
  match al_start r, al_end r with
  | Some s, Some e =>
      (s <=? now) && (now <? e) &&
      negb ((s =? periodStart sub) && bool_decide (Some e = periodEnd sub) &&
            match it_reset it with Some u => dateLt (addCadenceOwnDay (Some s) (storedCadence u (Some (it_reset_count it)))) (Some e) | None => false end)
  | _, _ => false
  end.

(** A candidate of [materializeDueSubscriptionAllocations]. *)
Definition dueSubscription (now : Z) (sub : Subscription) (s : Ledger) : bool :=
  runs now sub &&
  match sb_version sub with
  | Some version => existsb (fun it => negb (existsb (coversWindow sub now it) (lg_rows s))) (splitItems sub version)
  | None => false
  end.

(** A subscription of the worker's pass, with its ledger. *)
Record Funded := { fu_id : Z; fu_customer : Z; fu_subscription : Subscription; fu_ledger : Ledger }.
Definition earlier (a b : Funded) : bool := fu_id a <? fu_id b.

(** [materializeDueSubscriptionAllocations]; [locked]: rows other transactions hold, which it skips. *)
Definition materializeDueSubscriptionAllocations (limit : nat) (locked : Z -> bool) (now : Z) (subs : list Funded)
  : result (list (Z * PeriodResult) * list Funded) :=
  let candidates := map fu_id (firstn limit (sortBy earlier (List.filter (fun f => dueSubscription now (fu_subscription f) (fu_ledger f)) subs))) in
  let visit f := existsb (Z.eqb (fu_id f)) candidates && negb (locked (fu_id f)) in
  foldM (fun '(changed, done) f =>
    if visit f
    then '(s, res) ← materializeSubscriptionResetAllocations (fu_subscription f) now (fu_ledger f);
         Ok (changed ++ (if (0 <? pr_granted res + pr_transitioned res)%nat then [(fu_id f, res)] else []),
             done ++ [{| fu_id := fu_id f; fu_customer := fu_customer f; fu_subscription := fu_subscription f; fu_ledger := s |}])
    else Ok (changed, done ++ [f])) (sortBy earlier subs) ([], []).
End Grants.

Lemma zip_with_self {A B C} (f : A -> B -> C) (g : A -> B) l : zip_with f l (map g l) = map (fun x => f x (g x)) l.
Proof. induction l as [|x l IH]; [done|]. cbn. by rewrite IH. Qed.

(** ** A sync is a history of the subscription's allowances *)

Section Refinement.
Context (items : list CatalogItem) (billing : Z -> option Cadence) (nc base : Z -> bool) (clock : Z) (es : list Event).

Definition atClock (s : Ledger) : History := {| hs_clock := clock; hs_events := es; hs_ledger := s |}.

(** Steps of a history that neither add use nor carry any. *)
Definition quietly (s s' : Ledger) : Prop :=
  books clock es s -> rtc (happens items nc) (atClock s) (atClock s') /\ books clock es s' /\ distinctUse s' = distinctUse s /\ lg_carried s' = lg_carried s.

Lemma quietly_refl s : quietly s s.
Proof using. intros H. split_and!; [apply rtc_refl|done..]. Qed.

Lemma quietly_trans s1 s2 s3 : quietly s1 s2 -> quietly s2 s3 -> quietly s1 s3.
Proof using.
  intros H1 H2 Hb. destruct (H1 Hb) as (A1 & B1 & C1 & D1). destruct (H2 B1) as (A2 & B2 & C2 & D2).
  split_and!; [by etrans|done|congruence|congruence].
Qed.

Lemma quietly_rows s f : (forall r, al_id (f r) = al_id r /\ al_consumed (f r) = al_consumed r) -> quietly s (with_rows s (map f (lg_rows s))).
Proof using.
  intros Hf Hb. split_and!; [apply rtc_once, happens_rows; [lia|done]|by apply (books_rows clock)|by apply distinct_rows|done].
Qed.

Lemma quietly_insert s n row : (forall id, al_id (row id) = id /\ al_consumed (row id) = 0) -> quietly s (insertGrant (s, n) row).1.
Proof using.
  intros Hrow Hb. unfold insertGrant. destruct (grantTaken _ _); cbn [fst].
  - split_and!; [apply rtc_once, happens_skip; lia|apply books_skip; [done|lia]|done|done].
  - destruct (Hrow (lg_nextId s)) as [H1 H2]. destruct (books_new clock es s {| lg_rows := lg_rows s ++ [row (lg_nextId s)]; lg_carried := lg_carried s; lg_nextId := lg_nextId s + 1 |} (row (lg_nextId s)) Hb) as [B D]; try done.
    split_and!; [by apply rtc_once, happens_grant|done|done|done].
Qed.

Lemma quietly_inserts rows s n : Forall (fun row => forall id, al_id (row id) = id /\ al_consumed (row id) = 0) rows -> quietly s (fold_left insertGrant rows (s, n)).1.
Proof using.
  intros H. revert s n. induction H as [|row rows Hrow _ IH]; intros s n; [apply quietly_refl|]. cbn [fold_left].
  eapply quietly_trans; [by apply (quietly_insert s n)|]. destruct (insertGrant (s, n) row) as [s' n']. apply IH.
Qed.

Lemma quietly_period entity version now start endAt s : quietly s (grantPeriod items billing nc entity version now start endAt s).1.
Proof using. apply quietly_inserts, Forall_forall. intros row (it & -> & _)%list_elem_of_fmap. by intros id. Qed.

Lemma quietly_window entity start endAt now s res it s' res' : grantWindow entity start endAt now (s, res) it = Ok (s', res') -> quietly s s'.
Proof using.
  unfold grantWindow. destruct (it_reset it) as [u|]; [|intros [= <- <-]; apply quietly_refl]. intros H. inv_result. destruct x as [w0 w1]. inv_result.
  set (s1 := with_rows s _) in *. assert (H1 : quietly s s1) by (apply quietly_rows; intros r; by destruct (adopts _ _ _ _)).
  destruct (hasWindow _ _ _ _); [by injection H as <- <-|]. destruct (insertGrant _ _) as [s2 n] eqn:Ei. injection H as <- <-.
  eapply quietly_trans; [exact H1|]. change s2 with (s2, n).1. rewrite <- Ei. apply quietly_insert. by intros id.
Qed.

Lemma quietly_windows entity start endAt now l s res s' res' : foldM (grantWindow entity start endAt now) l (s, res) = Ok (s', res') -> quietly s s'.
Proof using.
  revert s res. induction l as [|it l IH]; intros s res H; cbn in H; [injection H as <- <-; apply quietly_refl|]. inv_result. destruct x as [s1 res1].
  eapply quietly_trans; [eapply quietly_window; exact E|eapply IH; exact H].
Qed.

Lemma quietly_resets sub now s s' res : materializeSubscriptionResetAllocations items billing sub now s = Ok (s', res) -> quietly s s'.
Proof using.
  unfold materializeSubscriptionResetAllocations. destruct (sb_version sub); [|intros [= <- <-]; apply quietly_refl].
  destruct (periodEnd sub); [|intros [= <- <-]; apply quietly_refl]. destruct (_ || _); [intros [= <- <-]; apply quietly_refl|]. apply quietly_windows.
Qed.

Lemma quietly_levels outgoing incoming now start endAt s : quietly s (keepLevels items billing nc outgoing incoming now start endAt s).
Proof using.
  unfold keepLevels, keepNonConsumableLevels. set (sw := {| sw_subscription := 0 |}).
  rewrite map_map, zip_with_self. apply quietly_rows. done.
Qed.

Lemma quietly_reversed now s : quietly s (with_rows s (map (reverseAll now) (lg_rows s))).
Proof using. by apply quietly_rows. Qed.

Lemma quietly_ended outgoing now s : quietly s (endOutgoingPlanAllowances items outgoing now s).
Proof using. unfold endOutgoingPlanAllowances. apply quietly_rows. intros r. by destruct (_ && _). Qed.

(** The switch, with the events before it; without a carry-over, as the switch of a later change. *)
Lemma switch_happens carries input now s s' : clock < now -> in_outgoing input <> in_incoming input -> books clock es s ->
  (carries = true -> forall c, c ∈ lg_carried s -> later_change input c) -> switchVersion items nc carries input now s = Ok s' ->
  exists h', rtc (happens items nc) (atClock s) h' /\ hs_events h' = es /\ hs_clock h' = now /\ hs_ledger h' = s' /\ distinctUse s' = distinctUse s.
Proof using.
  intros Hn Hv Hb Hl Hs.
  assert (Hlater : exists input', in_outgoing input' = in_outgoing input /\ in_incoming input' = in_incoming input /\
    (forall c, c ∈ lg_carried s -> later_change input' c) /\ switchVersion items nc carries input' now s = Ok s').
  { destruct carries; [exists input; split_and!; [done..|by apply Hl|done]|].
    exists {| in_change := 1 + foldr (fun c m => Z.max (cu_change c) m) 0 (lg_carried s); in_change_at := foldr (fun c m => Z.max (cu_change_at c) m) 0 (lg_carried s);
      in_outgoing := in_outgoing input; in_incoming := in_incoming input; in_balances := []; in_usages := []; in_period_start := 0; in_period_end := None |}.
    split_and!; [done|done| |exact Hs]. intros c Hc. unfold later_change. cbn.
    assert (cu_change c <= foldr (fun c m => Z.max (cu_change c) m) 0 (lg_carried s) /\ cu_change_at c <= foldr (fun c m => Z.max (cu_change_at c) m) 0 (lg_carried s)) as [? ?]; [|lia].
    clear -Hc. induction (lg_carried s) as [|x l IH]; [by apply elem_of_nil in Hc|]. cbn. apply elem_of_cons in Hc as [->|Hc]; [lia|]. specialize (IH Hc). lia. }
  destruct Hlater as (input' & E1 & E2 & Hl' & Hs'). exists {| hs_clock := now; hs_events := es; hs_ledger := s' |}. split_and!; try done.
  - apply rtc_once. apply (happens_switch items nc clock es s carries input' now s'); [done|congruence|done|done].
  - refine (proj2 (switch_books items nc carries input' clock now es s s' Hb _ _ _ Hl' Hs')); [lia| |congruence].
    intros e He. destruct (bk_events _ _ _ Hb e He) as (_ & ? & _). lia.
Qed.

Lemma outgoing_differs rv o : outgoingVersion rv = Some o -> o <> rv_version rv.
Proof using. unfold outgoingVersion. destruct (rv_changed rv); [|done]. intros (p & _ & H)%bind_Some. destruct (Z.eqb_spec p (rv_version rv)); [done|]. congruence. Qed.

Lemma close_happens rv status now s : quietly s (closeVersion items rv status now s).
Proof using.
  unfold closeVersion. destruct (_ || _), (outgoingVersion rv); try apply quietly_ended; [|apply quietly_reversed|apply quietly_refl].
  eapply quietly_trans; [apply quietly_reversed|apply quietly_ended].
Qed.

Lemma fund_happens sub changes rv input now s n s' : clock < now -> books clock es s ->
  (forall o, outgoingVersion rv = Some o -> carriesOver rv = true -> forall c, c ∈ lg_carried s -> later_change (carryInput changes rv o input) c) ->
  fundVersion items billing nc sub changes rv input now s = Ok (n, s') ->
  exists h', rtc (happens items nc) (atClock s) h' /\ hs_events h' = es /\ hs_clock h' <= now /\ hs_ledger h' = s' /\ distinctUse s' = distinctUse s.
Proof using.
  intros Hn Hb Hl Hf. unfold fundVersion in Hf. apply bind_Ok in Hf as (u & _ & Hf).
  set (s1 := match outgoingVersion rv with Some o => _ | None => s end) in Hf.
  assert (Q1 : quietly s s1) by (subst s1; destruct (outgoingVersion rv); [apply quietly_levels|apply quietly_refl]). clearbody s1.
  destruct (grantPeriod _ _ _ _ _ _ _ _ s1) as [s2 n2] eqn:E2. assert (Q2 : quietly s1 s2) by (change s2 with (s2, n2).1; rewrite <- E2; apply quietly_period).
  apply bind_Ok in Hf as ([s3 windows] & E3 & Hf). assert (Q3 : quietly s2 s3) by (eapply quietly_resets; exact E3).
  apply bind_Ok in Hf as (s4 & E4 & Hf). injection Hf as _ <-.
  destruct (quietly_trans _ _ _ (quietly_trans _ _ _ Q1 Q2) Q3 Hb) as (Hr & Hb3 & Hd & Hc).
  destruct (outgoingVersion rv) as [o|] eqn:Eo.
  - destruct (switch_happens (carriesOver rv) (carryInput changes rv o input) now s3 s4) as (h' & R & ? & ? & ? & ?); [done|by apply outgoing_differs|done| |done|].
    { intros Hcarry. rewrite Hc. by apply Hl. }
    exists h'. split_and!; [by etrans|done|lia|done|congruence].
  - injection E4 as <-. exists (atClock s3). cbn. split_and!; try done. lia.
Qed.
End Refinement.

(** C28: a provider's sync is a history of the subscription's allowances.  Of a sync that starts after
    the recorded usage and, where it carries usage or a balance over, is of a change created after
    every change that carried usage before: whatever version it resolves, what it moves, grants,
    reopens, carries, ends and reverses is a sequence of the steps a history is made of, so that
    everything proved of histories holds across it; and it neither adds use nor loses any.  A sync
    that applies a parked change retried late carries in another order, and is outside the claim
    (the example [retried_change_applies_late], a reported finding). *)
Theorem sync_refines_history items billing nc base catalog subscription input now st h n st'
  (Hh : reaches items nc h) (Hledger : hs_ledger h = ss_ledger st) (Hclock : hs_clock h < now)
  (Hsync : materializeSubscriptionAllocations items billing nc base catalog subscription input now st = Ok (n, st'))
  (Horder : forall rv o, resolveSubscriptionPlanVersion catalog subscription (sb_version (ss_subscription st)) (si_sync input) (ss_changes st) = Some rv ->
     outgoingVersion rv = Some o -> carriesOver rv = true ->
     forall c, c ∈ lg_carried (ss_ledger st) -> later_change (carryInput (ss_changes st') rv o input) c) :
  exists h', rtc (happens items nc) h h' /\ reaches items nc h' /\ hs_ledger h' = ss_ledger st' /\ hs_events h' = hs_events h /\ hs_clock h' <= now /\
    distinctUse (ss_ledger st') = distinctUse (ss_ledger st).
Proof.
  pose proof (reaches_books items nc h Hh) as Hb. destruct h as [clock es s]. cbn in *. subst s.
  enough (exists h', rtc (happens items nc) (atClock clock es (ss_ledger st)) h' /\ hs_events h' = es /\ hs_clock h' <= now /\
    hs_ledger h' = ss_ledger st' /\ distinctUse (ss_ledger st') = distinctUse (ss_ledger st)) as (h' & R & ? & ? & ? & ?).
  { exists h'. split_and!; try done. unfold reaches. by etrans. }
  unfold materializeSubscriptionAllocations in Hsync. destruct (resolveSubscriptionPlanVersion _ _ _ _ _) as [rv|] eqn:Er.
  2:{ injection Hsync as _ <-. exists (atClock clock es (ss_ledger st)). cbn. split_and!; [apply rtc_refl|done|lia|done..]. }
  destruct (fundsAllocations (si_status input)); cbn [negb] in Hsync.
  - apply bind_Ok in Hsync as ([granted s'] & Ef & Hs). injection Hs as <- <-. cbn in *.
    refine (fund_happens items billing nc clock es _ _ rv input now _ _ _ Hclock Hb _ Ef). intros o Ho Hc. by apply (Horder rv o).
  - injection Hsync as _ <-. cbn in *. destruct (close_happens items nc clock es rv (si_status input) now _ Hb) as (R & _ & Hd & _).
    eexists. split; [exact R|]. cbn. split_and!; [done|lia|done|done].
Qed.

(** ** What identifies an allowance *)

(** The columns a grant looks for; uses, holds, ends, reversals and switches leave them. *)
Definition shape (r : Allocation) : option Z * SourceKind * Z * option AllocationKey * option Z * option Z :=
  (al_item r, al_source r, al_feature r, al_key r, al_start r, al_end r).

(** The rows are those that were there, and others that are no plan's grants. *)
Definition reshaped (rows rows' : list Allocation) : Prop :=
  exists new, map shape rows' = map shape rows ++ map shape new /\ forall x, x ∈ new -> al_source x = source_carry_over.

Lemma reshaped_refl rows : reshaped rows rows.
Proof. exists []. split; [by rewrite app_nil_r|by intros x ?%elem_of_nil]. Qed.

Lemma reshaped_trans rows1 rows2 rows3 : reshaped rows1 rows2 -> reshaped rows2 rows3 -> reshaped rows1 rows3.
Proof.
  intros (n1 & E1 & H1) (n2 & E2 & H2). exists (n1 ++ n2). split; [by rewrite E2, E1, map_app, app_assoc|]. intros x [?|?]%elem_of_app; auto.
Qed.

Lemma reshaped_map f rows : (forall r, r ∈ rows -> shape (f r) = shape r) -> reshaped rows (map f rows).
Proof.
  intros H. exists []. split; [|by intros x ?%elem_of_nil]. rewrite app_nil_r, map_map. apply map_ext_in. intros r Hr. by apply H, list_elem_of_In.
Qed.

Lemma reshaped_new rows x : al_source x = source_carry_over -> reshaped rows (rows ++ [x]).
Proof. intros H. exists [x]. split; [by rewrite map_app|by intros y ->%list_elem_of_singleton]. Qed.

Lemma reshaped_l rows rows' r : reshaped rows rows' -> r ∈ rows -> exists r', r' ∈ rows' /\ shape r' = shape r.
Proof.
  intros (new & E & _) Hr. assert (Hin : shape r ∈ map shape rows') by (rewrite E; apply elem_of_app; left; by apply list_elem_of_fmap_2).
  apply list_elem_of_fmap in Hin as (r' & ? & ?). by exists r'.
Qed.

Lemma reshaped_r rows rows' r' : reshaped rows rows' -> r' ∈ rows' -> al_source r' = source_subscription -> exists r, r ∈ rows /\ shape r = shape r'.
Proof.
  intros (new & E & Hnew) Hr Hs. assert (Hin : shape r' ∈ map shape rows ++ map shape new) by (rewrite <- E; by apply list_elem_of_fmap_2).
  apply elem_of_app in Hin as [(r & Er & Hr')%list_elem_of_fmap|(x & Ex & Hx)%list_elem_of_fmap]; [by exists r|].
  exfalso. specialize (Hnew x Hx). injection Ex as _ Es _ _ _ _. congruence.
Qed.

Section Switches.
Context (items : list CatalogItem) (nc : Z -> bool).

Lemma carryBalance_shape input now s o s' : carryBalance items input now s o = Ok s' -> reshaped (lg_rows s) (lg_rows s').
Proof using.
  unfold carryBalance. destruct (_ <=? 0); [intros [= <-]; apply reshaped_refl|]. destruct (carriedExpiry _ _ _ _); [|done]. cbn [mbind result_bind].
  destruct (carryKeyTaken _ _ _ _); [intros [= <-]; apply reshaped_refl|]. destruct (carriedAlready _ _); [done|]. intros [= <-]. by apply reshaped_new.
Qed.

Lemma carryBalances_shape input now os s s' : foldM (carryBalance items input now) os s = Ok s' -> reshaped (lg_rows s) (lg_rows s').
Proof using.
  revert s. induction os as [|o os IH]; intros s H; cbn in H; [injection H as <-; apply reshaped_refl|]. apply bind_Ok in H as (s1 & E & H).
  eapply reshaped_trans; [by eapply carryBalance_shape|by apply IH].
Qed.

(** Usage is written onto rows that stay where they are, live or not. *)
Definition same_row (r r' : Allocation) : Prop := shape r' = shape r /\ al_reversed_at r' = al_reversed_at r /\ al_expires r' = al_expires r.

Lemma carryUsages_rows input now os s edges : Forall2 same_row (lg_rows s) (lg_rows (fold_left (carryUsage items input now) os (s, edges)).1).
Proof using.
  revert s edges. induction os as [|o os IH]; intros s edges; cbn [fold_left]; [apply Forall_Forall2_diag, Forall_true; done|].
  destruct (carryUsage items input now (s, edges) o) as [s1 edges1] eqn:E.
  assert (H1 : Forall2 same_row (lg_rows s) (lg_rows s1)).
  { unfold carryUsage in E. destruct (usageTarget _ _ _ _ _) as [t|]; [|injection E as <- _; by apply Forall_Forall2_diag, Forall_true].
    destruct (_ =? 0); [injection E as <- _; by apply Forall_Forall2_diag, Forall_true|]. injection E as <- _. cbn [lg_rows].
    destruct (0 <? _); [|by apply Forall_Forall2_diag, Forall_true]. unfold updateRow. apply Forall2_fmap_r, Forall_Forall2_diag, Forall_true.
    intros r. unfold compose. destruct (al_id r =? al_id t); by split_and!. }
  specialize (IH s1 edges1). revert IH. generalize (lg_rows (fold_left (carryUsage items input now) os (s1, edges1)).1). revert H1.
  generalize (lg_rows s), (lg_rows s1). clear. intros l1 l2 H12 l3. revert l3. induction H12 as [|x y l1 l2 (A & B & C) _ IH]; intros l3 H; inversion H as [|? z ? l3' (A' & B' & C')]; subst; [constructor|].
  constructor; [|by apply IH]. split_and!; congruence.
Qed.

Lemma same_rows_shape l l' : Forall2 same_row l l' -> reshaped l l'.
Proof using.
  intros H. exists []. split; [|by intros x ?%elem_of_nil]. rewrite app_nil_r. induction H as [|x y l l' (A & _) _ IH]; [done|]. cbn. by rewrite A, IH.
Qed.

Lemma resume_shape incoming now s : reshaped (lg_rows s) (lg_rows (resumeReturningAllowances items nc incoming now s)).
Proof using.
  unfold resumeReturningAllowances. cbv zeta. cbn [lg_rows with_rows]. rewrite map_map. apply reshaped_map. intros r _. unfold returnCarry.
  destruct (carryEnds _ _ _); [|destruct (List.find _ _)]; by destruct (reopens _ _ _ _ _ _).
Qed.

Lemma end_shape outgoing now s : reshaped (lg_rows s) (lg_rows (endOutgoingPlanAllowances items outgoing now s)).
Proof using. apply reshaped_map. intros r _. by destruct (_ && _). Qed.

Lemma switch_shape carries input now s s' : switchVersion items nc carries input now s = Ok s' -> reshaped (lg_rows s) (lg_rows s').
Proof using.
  unfold switchVersion. intros H. apply bind_Ok in H as (s2 & E & [= <-]). eapply reshaped_trans; [apply (resume_shape (in_incoming input) now)|].
  eapply reshaped_trans; [|apply end_shape]. destruct carries; [|injection E as <-; apply reshaped_refl]. unfold carryOverAllowances in E.
  apply bind_Ok in E as (s1 & E & [= <-]). apply (reshaped_trans _ (lg_rows s1)).
  - destruct (bool_decide (in_balances input = [])); [injection E as <-; apply reshaped_refl|by eapply carryBalances_shape].
  - destruct (bool_decide (in_usages input = [])); [apply reshaped_refl|]. apply same_rows_shape, carryUsages_rows.
Qed.

Lemma ofVersion_shape version r r' : shape r' = shape r -> ofVersion items version r' = ofVersion items version r.
Proof using. intros E. injection E as E _ _ _ _ _. unfold ofVersion, versionItem. by rewrite E. Qed.

(** A live allowance of the incoming version stays live. *)
Lemma switch_live carries input now s s' r : switchVersion items nc carries input now s = Ok s' -> in_outgoing input <> in_incoming input ->
  r ∈ lg_rows s -> al_source r = source_subscription -> ofVersion items (in_incoming input) r = true -> funded now r = true ->
  exists r', r' ∈ lg_rows s' /\ shape r' = shape r /\ funded now r' = true.
Proof using.
  unfold switchVersion. intros H Hv Hr Hs Hin Hf. apply bind_Ok in H as (s2 & E & [= <-]).
  assert (H1 : exists r1, r1 ∈ lg_rows (resumeReturningAllowances items nc (in_incoming input) now s) /\ shape r1 = shape r /\ funded now r1 = true).
  { unfold resumeReturningAllowances. cbv zeta. cbn [lg_rows with_rows]. rewrite map_map. eexists. split; [apply list_elem_of_fmap; by exists r|]. cbn beta.
    assert (Hno : reopens items nc (in_incoming input) now (lg_rows s) r = false).
    { unfold reopens. destruct (versionItem _ _ _); [|done]. apply andb_true_iff in Hf as [_ ->]. by rewrite !andb_false_r. }
    rewrite Hno. unfold returnCarry, carryEnds. rewrite bool_decide_false by (by rewrite Hs). cbn [andb].
    by destruct (List.find _ _). }
  destruct H1 as (r1 & Hr1 & Es1 & Hf1).
  assert (H2 : exists r2, r2 ∈ lg_rows s2 /\ shape r2 = shape r /\ funded now r2 = true).
  { destruct carries; [|injection E as <-; by exists r1]. unfold carryOverAllowances in E. apply bind_Ok in E as (s1 & E & [= <-]).
    assert (Hr1' : r1 ∈ lg_rows s1).
    { destruct (bool_decide (in_balances input = [])); [by injection E as <-|]. destruct (carryBalances_rows _ _ _ _ _ _ E) as (new & -> & _). apply elem_of_app. by left. }
    destruct (bool_decide (in_usages input = [])); [by exists r1|]. destruct (Forall2_elem_l _ _ _ r1 (carryUsages_rows input now (sortBy byId (List.filter (usageOrigin items input now) (lg_rows s1))) s1 (carriedUsageEdges s1)) Hr1')
      as (r2 & Hr2 & A & B & C). exists r2. split_and!; [done|congruence|]. unfold funded, open in *. by rewrite B, C. }
  destruct H2 as (r2 & Hr2 & Es2 & Hf2). exists r2. split_and!; [|done|done]. apply list_elem_of_fmap. exists r2. split; [|done].
  replace (ofVersion items (in_outgoing input) r2) with false; [by rewrite andb_false_r|]. symmetry. apply not_true_is_false. intros Ho.
  apply Hv, (ofVersion_unique items _ _ r2); [done|]. by rewrite (ofVersion_shape _ _ _ Es2).
Qed.
End Switches.

(** ** Grants taken and windows open *)

Lemma grantTaken_shape rows r r' : shape r = shape r' -> grantTaken rows r = grantTaken rows r'.
Proof. intros E. injection E as _ E2 E3 E4 _ _. unfold grantTaken. by rewrite E2, E3, E4. Qed.

Lemma grantTaken_spec rows r : grantTaken rows r = true <-> exists x, x ∈ rows /\ al_feature x = al_feature r /\ al_source x = al_source r /\ al_key x = al_key r.
Proof.
  unfold grantTaken. split.
  - intros (x & Hx%list_elem_of_In & H)%existsb_exists. rewrite !andb_true_iff, !bool_decide_eq_true, Z.eqb_eq in H. exists x. tauto.
  - intros (x & Hx & H). apply existsb_exists. exists x. rewrite !andb_true_iff, !bool_decide_eq_true, Z.eqb_eq. split; [by apply list_elem_of_In|tauto].
Qed.

Lemma ofItem_spec it r : ofItem it r = true <-> al_item r = Some (it_id it) /\ al_source r = source_subscription.
Proof. unfold ofItem. by rewrite andb_true_iff, !bool_decide_eq_true. Qed.

Lemma hasWindow_spec it a b rows : hasWindow it a b rows = true <-> exists r, r ∈ rows /\ ofItem it r = true /\ al_start r = Some a /\ al_end r = Some b.
Proof.
  unfold hasWindow. split.
  - intros (x & Hx%list_elem_of_In & H)%existsb_exists. rewrite !andb_true_iff, !bool_decide_eq_true in H. exists x. tauto.
  - intros (x & Hx & H). apply existsb_exists. exists x. rewrite !andb_true_iff, !bool_decide_eq_true. split; [by apply list_elem_of_In|tauto].
Qed.

Lemma ofItem_shape it r r' : shape r = shape r' -> ofItem it r = ofItem it r'.
Proof. intros E. injection E as E1 E2 _ _ _ _. unfold ofItem. by rewrite E1, E2. Qed.

Lemma adopts_shape it a b r r' : shape r = shape r' -> adopts it a b r = adopts it a b r'.
Proof. intros E. pose proof (ofItem_shape it r r' E) as Hi. injection E as _ _ _ _ E5 E6. unfold adopts. by rewrite Hi, E5, E6. Qed.

Lemma insertGrant_rows s n row s' n' : insertGrant (s, n) row = (s', n') -> (forall i j, shape (row i) = shape (row j)) ->
  (exists new, lg_rows s' = lg_rows s ++ new /\ forall x, x ∈ new -> shape x = shape (row 0) /\ al_reversed_at x = al_reversed_at (row (lg_nextId s)) /\ grantTaken (lg_rows s) (row 0) = false) /\
  grantTaken (lg_rows s') (row 0) = true /\ (grantTaken (lg_rows s) (row 0) = true -> lg_rows s' = lg_rows s /\ n' = n) /\ lg_carried s' = lg_carried s.
Proof.
  intros H Hrow. unfold insertGrant in H. rewrite (grantTaken_shape _ _ (row 0) (Hrow _ _)) in H. destruct (grantTaken (lg_rows s) (row 0)) eqn:E; injection H as <- <-; cbn.
  - split_and!; [exists []; split; [by rewrite app_nil_r|by intros x ?%elem_of_nil]|done|done|done].
  - split_and!; [|apply grantTaken_spec|done|done].
    + eexists. split; [done|]. intros x ->%list_elem_of_singleton. split_and!; [apply Hrow|done|done].
    + exists (row (lg_nextId s)). split; [apply elem_of_app; right; by apply list_elem_of_singleton|]. pose proof (Hrow (lg_nextId s) 0) as Hs. by injection Hs as _ -> -> -> _ _.
Qed.

(** What a new row is made of. *)
Definition madeBy (rows : list (Z -> Allocation)) (x : Allocation) : Prop := exists row, row ∈ rows /\ shape x = shape (row 0).

Lemma inserts_rows rows s n s' n' : fold_left insertGrant rows (s, n) = (s', n') -> (forall row i j, row ∈ rows -> shape (row i) = shape (row j)) ->
  (exists new, lg_rows s' = lg_rows s ++ new /\ forall x, x ∈ new -> madeBy rows x) /\
  (forall row, row ∈ rows -> grantTaken (lg_rows s') (row 0) = true) /\
  ((forall row, row ∈ rows -> grantTaken (lg_rows s) (row 0) = true) -> lg_rows s' = lg_rows s /\ n' = n) /\ lg_carried s' = lg_carried s.
Proof.
  revert s n. induction rows as [|row rows IH]; intros s n H Hrow; cbn [fold_left] in H.
  { injection H as <- <-. split_and!; [exists []; split; [by rewrite app_nil_r|by intros x ?%elem_of_nil]|by intros x ?%elem_of_nil|done|done]. }
  destruct (insertGrant (s, n) row) as [s1 n1] eqn:E.
  destruct (insertGrant_rows _ _ _ _ _ E) as ((new1 & E1 & H1) & Ht & Hsame & Hc); [intros i j; apply Hrow; by left|].
  destruct (IH s1 n1 H) as ((new & E2 & H2) & Hts & Hsames & Hc'); [intros x i j Hx; apply Hrow; by right|].
  assert (Hgrow : forall r, grantTaken (lg_rows s1) r = true -> grantTaken (lg_rows s') r = true).
  { intros r (x & Hx & ?)%grantTaken_spec. apply grantTaken_spec. exists x. split; [|done]. rewrite E2. apply elem_of_app. by left. }
  split_and!.
  - exists (new1 ++ new). split; [by rewrite E2, E1, app_assoc|]. intros x [Hx|Hx]%elem_of_app.
    + exists row. split; [by left|]. apply (H1 x Hx).
    + destruct (H2 x Hx) as (y & Hy & ?). exists y. split; [by right|done].
  - intros y [->|Hy]%elem_of_cons; [by apply Hgrow|by apply Hts].
  - intros Hall. destruct (Hsame (Hall row ltac:(by left))) as [Es En]. rewrite <- Es, <- En. apply Hsames. intros y Hy. rewrite Es. apply Hall. by right.
  - congruence.
Qed.

Section Windows.
Context (entity : option Z) (start endAt now : Z).

(** The window of an item that is open now, and when its allowance expires. *)
Definition windowOf (it : PlanGrants.PlanItem) (u : CadenceUnit) : result (Z * Z * Z) :=
  '(w0, w1) ← planGrantWindowBounds (Some start) (Some (Some endAt)) (storedCadence u (Some (it_reset_count it))) now;
  a ← toISOString w0; b ← toISOString w1;
  _ ← throwWhen (entityScoped it && bool_decide (entity = None))
        (InternalError "Entity-scoped plan allocations require an entity-scoped subscription");
  e ← windowExpires it a b; Ok (a, b, e).

Definition windowRow (it : PlanGrants.PlanItem) (a b e : Z) : Z -> Allocation := grantRow entity it (period_key (it_id it) a (Some b)) a (Some b) (Some e).

Definition adopted (it : PlanGrants.PlanItem) (a b : Z) (rows : list Allocation) : list Allocation :=
  map (fun r => if adopts it a b r then adopt a b r else r) rows.

(** What the loop's body does once the window is known. *)
Definition openWindow (it : PlanGrants.PlanItem) (a b e : Z) (st : Ledger * PeriodResult) : Ledger * PeriodResult :=
  let s := with_rows st.1 (adopted it a b (lg_rows st.1)) in
  let t := (pr_transitioned st.2 + length (List.filter (adopts it a b) (lg_rows st.1)))%nat in
  if hasWindow it a b (lg_rows s) then (s, {| pr_granted := pr_granted st.2; pr_transitioned := t |})
  else let '(s, n) := insertGrant (s, pr_granted st.2) (windowRow it a b e) in (s, {| pr_granted := n; pr_transitioned := t |}).

Lemma grantWindow_eq it st : grantWindow entity start endAt now st it =
  match it_reset it with None => Ok st | Some u => '(a, b, e) ← windowOf it u; Ok (openWindow it a b e st) end.
Proof using.
  destruct st as [s res]. unfold grantWindow, windowOf, openWindow. destruct (it_reset it) as [u|]; [|done].
  destruct (planGrantWindowBounds _ _ _ _) as [[w0 w1]|]; cbn [mbind result_bind]; [|done]. destruct (toISOString w0) as [a|]; cbn [mbind result_bind]; [|done].
  destruct (toISOString w1) as [b|]; cbn [mbind result_bind]; [|done]. destruct (throwWhen _ _); cbn [mbind result_bind]; [|done].
  destruct (windowExpires it a b) as [e|]; cbn [mbind result_bind]; [|done]. cbn [fst snd]. fold (adopted it a b (lg_rows s)).
  destruct (hasWindow _ _ _ _); [done|]. fold (windowRow it a b e). by destruct (insertGrant _ _).
Qed.

(** The window is open: nothing is left to adopt, and its allowance exists or its key is taken. *)
Definition windowDone (it : PlanGrants.PlanItem) (a b : Z) (rows : list Allocation) : Prop :=
  (forall r, r ∈ rows -> adopts it a b r = false) /\
  (hasWindow it a b rows = true \/ grantTaken rows (windowRow it a b 0 0) = true).

Lemma windowDone_reshaped it a b rows rows' : windowDone it a b rows -> reshaped rows rows' -> windowDone it a b rows'.
Proof using.
  intros [H1 H2] Hr. split.
  - intros r' Hr'. destruct (adopts it a b r') eqn:E; [|done]. assert (Hs : al_source r' = source_subscription) by (unfold adopts in E; apply andb_true_iff in E as [E _]; apply ofItem_spec in E as [_ E]; exact E).
    destruct (reshaped_r _ _ _ Hr Hr' Hs) as (r & Hin & Es). rewrite <- (adopts_shape it a b r r' Es) in E. by rewrite (H1 r Hin) in E.
  - destruct H2 as [H2|H2]; [left|right].
    + apply hasWindow_spec in H2 as (r & Hin & Hi & Ha & Hb). destruct (reshaped_l _ _ _ Hr Hin) as (r' & Hin' & Es). apply hasWindow_spec. exists r'.
      rewrite (ofItem_shape it _ _ Es). injection Es as _ _ _ _ -> ->. done.
    + apply grantTaken_spec in H2 as (r & Hin & Hi & Ha & Hb). destruct (reshaped_l _ _ _ Hr Hin) as (r' & Hin' & Es). apply grantTaken_spec. exists r'.
      injection Es as _ -> -> -> _ _. done.
Qed.

Lemma adopted_none it a b r : adopts it a b r = true -> adopts it a b (adopt a b r) = false.
Proof using. intros _. unfold adopts, adopt. cbn. rewrite !Z.ltb_irrefl. cbn. by rewrite !andb_false_r. Qed.

Lemma windowDone_self it a b e st : windowDone it a b (lg_rows (openWindow it a b e st).1).
Proof using.
  destruct st as [s res]. unfold openWindow. cbn [fst snd]. set (rows := adopted it a b (lg_rows s)).
  assert (Hno : forall r, r ∈ rows -> adopts it a b r = false).
  { intros r (x & -> & Hx)%list_elem_of_fmap. destruct (adopts it a b x) eqn:E; [by apply adopted_none|done]. }
  destruct (hasWindow _ _ _ _) eqn:Ew; [split; [exact Hno|by left]|]. destruct (insertGrant _ _) as [s' n] eqn:Ei. cbn [fst].
  destruct (insertGrant_rows _ _ _ _ _ Ei) as ((new & En & Hnew) & Ht & _ & _); [done|]. cbn [lg_rows with_rows] in *. split.
  - intros r Hr. rewrite En in Hr. apply elem_of_app in Hr as [Hr|Hr]; [by apply Hno|]. destruct (Hnew r Hr) as (Es & _). rewrite (adopts_shape it a b r _ Es).
    unfold adopts, windowRow, grantRow. cbn. rewrite !Z.ltb_irrefl. cbn. by rewrite !andb_false_r.
  - right. rewrite <- Ht. by apply grantTaken_shape.
Qed.

Lemma windowDone_again it a b e s res : windowDone it a b (lg_rows s) ->
  exists s', openWindow it a b e (s, res) = (s', res) /\ lg_rows s' = lg_rows s /\ lg_carried s' = lg_carried s.
Proof using.
  intros [H1 H2]. unfold openWindow. cbn [fst snd].
  assert (E : adopted it a b (lg_rows s) = lg_rows s).
  { unfold adopted. rewrite <- (map_id (lg_rows s)) at 2. apply map_ext_in. intros r Hr%list_elem_of_In. by rewrite H1. }
  rewrite E. assert (El : List.filter (adopts it a b) (lg_rows s) = []) by (by apply filter_none). rewrite El. cbn [length]. rewrite Nat.add_0_r.
  assert (Ew : with_rows s (lg_rows s) = s) by (by destruct s). rewrite Ew. destruct res as [g t]. cbn [pr_granted pr_transitioned].
  destruct (hasWindow it a b (lg_rows s)) eqn:Hw; [by exists s|]. destruct H2 as [H2|H2]; [congruence|].
  destruct (insertGrant _ _) as [s' n] eqn:Ei. destruct (insertGrant_rows _ _ _ _ _ Ei) as (_ & _ & Hsame & Hc); [done|].
  destruct (Hsame) as [E1 ->]; [by rewrite <- H2; apply grantTaken_shape|]. by exists s'.
Qed.

(** Another item's window leaves this one's as it is. *)
Lemma windowDone_other it a b it' a' b' e st : it_id it' <> it_id it -> windowDone it a b (lg_rows st.1) -> windowDone it a b (lg_rows (openWindow it' a' b' e st).1).
Proof using.
  intros Hne [H1 H2]. destruct st as [s res]. unfold openWindow. cbn [fst snd] in *. set (rows := adopted it' a' b' (lg_rows s)).
  assert (Hof : forall r, adopts it' a' b' r = true -> ofItem it r = false).
  { intros r [Hi _]%andb_true_iff. apply not_true_is_false. intros Hi'. apply ofItem_spec in Hi, Hi'. destruct Hi, Hi'. congruence. }
  assert (Hdone : windowDone it a b rows).
  { split.
    - intros r (x & -> & Hx)%list_elem_of_fmap. destruct (adopts it' a' b' x) eqn:E; [|by apply H1]. unfold adopts.
      assert (Ei : ofItem it (adopt a' b' x) = ofItem it x) by done. by rewrite Ei, (Hof x E).
    - destruct H2 as [H2|H2]; [left|right].
      + apply hasWindow_spec in H2 as (r & Hr & Hi & Ha & Hb). apply hasWindow_spec. exists r. split; [|done]. apply list_elem_of_fmap. exists r. split; [|done].
        destruct (adopts it' a' b' r) eqn:E; [|done]. by rewrite (Hof r E) in Hi.
      + apply grantTaken_spec in H2 as (r & Hr & Hk). apply grantTaken_spec. exists (if adopts it' a' b' r then adopt a' b' r else r).
        split; [apply list_elem_of_fmap; by exists r|]. by destruct (adopts it' a' b' r). }
  clearbody rows. destruct (hasWindow it' a' b' _); [exact Hdone|]. destruct (insertGrant _ _) as [s' n] eqn:Ei. cbn [fst].
  destruct (insertGrant_rows _ _ _ _ _ Ei) as ((new & En & Hnew) & _); [done|]. cbn [lg_rows with_rows] in En. rewrite En. destruct Hdone as [D1 D2]. split.
  - intros r [Hr|Hr]%elem_of_app; [by apply D1|]. destruct (Hnew r Hr) as (Es & _). unfold adopts. rewrite (ofItem_shape it r _ Es).
    unfold ofItem, windowRow, grantRow. cbn. by rewrite bool_decide_false by congruence.
  - destruct D2 as [D2|D2]; [left|right].
    + apply hasWindow_spec in D2 as (r & Hr & ?). apply hasWindow_spec. exists r. split; [apply elem_of_app; by left|done].
    + apply grantTaken_spec in D2 as (r & Hr & ?). apply grantTaken_spec. exists r. split; [apply elem_of_app; by left|done].
Qed.

Lemma windows_done l s res s' res' : foldM (grantWindow entity start endAt now) l (s, res) = Ok (s', res') -> NoDup (map it_id l) ->
  forall it u, it ∈ l -> it_reset it = Some u -> exists a b e, windowOf it u = Ok (a, b, e) /\ windowDone it a b (lg_rows s').
Proof using.
  revert s res. induction l as [|x l IH]; intros s res H Hnd it u Hit Hu; [by apply elem_of_nil in Hit|]. cbn [foldM map] in *.
  apply NoDup_cons in Hnd as [Hx Hnd]. apply bind_Ok in H as ([s1 res1] & E & H).
  apply elem_of_cons in Hit as [->|Hit]; [|by apply (IH s1 res1)]. rewrite grantWindow_eq, Hu in E. apply bind_Ok in E as ([[a b] e] & Ew & E).
  exists a, b, e. split; [done|]. assert (Hd : windowDone x a b (lg_rows s1)) by (injection E as E; change s1 with (s1, res1).1; rewrite <- E; apply windowDone_self).
  clear IH Ew E Hnd. revert s1 res1 H Hd. induction l as [|y l IH]; intros s1 res1 H Hd; cbn [foldM] in H; [by injection H as <- _|].
  apply bind_Ok in H as ([s2 res2] & E & H). cbn [map] in Hx. apply not_elem_of_cons in Hx as [Hne Hx]. apply (IH Hx s2 res2 H).
  rewrite grantWindow_eq in E. destruct (it_reset y) as [v|]; [|by injection E as <- <-]. apply bind_Ok in E as ([[a' b'] e'] & _ & E). injection E as E.
  change s2 with (s2, res2).1. rewrite <- E. by apply windowDone_other.
Qed.

Lemma windows_again l s res : (forall it u, it ∈ l -> it_reset it = Some u -> exists a b e, windowOf it u = Ok (a, b, e) /\ windowDone it a b (lg_rows s)) ->
  exists s', foldM (grantWindow entity start endAt now) l (s, res) = Ok (s', res) /\ lg_rows s' = lg_rows s /\ lg_carried s' = lg_carried s.
Proof using.
  revert s. induction l as [|x l IH]; intros s H; [by exists s|]. cbn [foldM]. rewrite grantWindow_eq. destruct (it_reset x) as [u|] eqn:Eu.
  - destruct (H x u) as (a & b & e & Ew & Hd); [by left|done|]. rewrite Ew. cbn [mbind result_bind]. destruct (windowDone_again x a b e s res Hd) as (s1 & -> & E1 & E2).
    destruct (IH s1) as (s' & E & E3 & E4); [intros it v Hit Hv; rewrite E1; apply H; [by right|done]|]. exists s'. split_and!; [done|congruence|congruence].
  - cbn [mbind result_bind]. apply IH. intros it v Hit Hv. apply H; [by right|done].
Qed.

Lemma windows_keys l s res s' res' x : foldM (grantWindow entity start endAt now) l (s, res) = Ok (s', res') -> x ∈ lg_rows s ->
  exists y, y ∈ lg_rows s' /\ al_feature y = al_feature x /\ al_source y = al_source x /\ al_key y = al_key x.
Proof using.
  revert s res x. induction l as [|it l IH]; intros s res x H Hx; [injection H as <- _; by exists x|]. cbn [foldM] in H. apply bind_Ok in H as ([s1 res1] & E & H).
  assert (H1 : exists y, y ∈ lg_rows s1 /\ al_feature y = al_feature x /\ al_source y = al_source x /\ al_key y = al_key x).
  { rewrite grantWindow_eq in E. destruct (it_reset it) as [u|]; [|injection E as <- _; by exists x]. apply bind_Ok in E as ([[a b] e] & _ & E). injection E as E.
    unfold openWindow in E. cbn [fst snd] in E. exists (if adopts it a b x then adopt a b x else x).
    split; [|by destruct (adopts it a b x)]. assert (Hin : (if adopts it a b x then adopt a b x else x) ∈ adopted it a b (lg_rows s)) by (apply list_elem_of_fmap; by exists x).
    destruct (hasWindow it a b _); [by injection E as <- _|]. destruct (insertGrant _ _) as [s2 n] eqn:Ei. injection E as <- _.
    destruct (insertGrant_rows _ _ _ _ _ Ei) as ((new & -> & _) & _); [done|]. apply elem_of_app. by left. }
  destruct H1 as (y & Hy & K1 & K2 & K3). destruct (IH s1 res1 y H Hy) as (z & Hz & L1 & L2 & L3). exists z. split_and!; congruence.
Qed.

(** Live allowances stay live; those of other items keep their windows. *)
Lemma windows_live l s res s' res' r : foldM (grantWindow entity start endAt now) l (s, res) = Ok (s', res') -> r ∈ lg_rows s -> funded now r = true ->
  (forall it u a b e, it ∈ l -> it_reset it = Some u -> windowOf it u = Ok (a, b, e) -> now < b) ->
  exists r', r' ∈ lg_rows s' /\ al_item r' = al_item r /\ al_source r' = al_source r /\ al_feature r' = al_feature r /\ funded now r' = true /\
    ((forall it, it ∈ l -> ofItem it r = false) -> shape r' = shape r).
Proof using.
  revert s res r. induction l as [|x l IH]; intros s res r H Hr Hf Hb; [injection H as <- _; by exists r|]. cbn [foldM] in H.
  apply bind_Ok in H as ([s1 res1] & E & H).
  assert (H1 : exists r1, r1 ∈ lg_rows s1 /\ al_item r1 = al_item r /\ al_source r1 = al_source r /\ al_feature r1 = al_feature r /\ funded now r1 = true /\
    (ofItem x r = false -> shape r1 = shape r)).
  { rewrite grantWindow_eq in E. destruct (it_reset x) as [u|] eqn:Eu; [|injection E as <- <-; by exists r]. apply bind_Ok in E as ([[a b] e] & Ew & E). injection E as E.
    assert (Hnb : now < b) by (eapply Hb; [by left|done|done]). unfold openWindow in E. cbn [fst snd] in E.
    exists (if adopts x a b r then adopt a b r else r).
    assert (Hin : (if adopts x a b r then adopt a b r else r) ∈ lg_rows s1).
    { assert (Hin : (if adopts x a b r then adopt a b r else r) ∈ adopted x a b (lg_rows s)) by (apply list_elem_of_fmap; by exists r).
      destruct (hasWindow x a b _); [by injection E as <- _|]. destruct (insertGrant _ _) as [s2 n] eqn:Ei. injection E as <- _.
      destruct (insertGrant_rows _ _ _ _ _ Ei) as ((new & -> & _) & _); [done|]. apply elem_of_app. by left. }
    destruct (adopts x a b r) eqn:Ea; [|by split_and!]. split_and!; try done.
    - unfold funded, open, adopt in *. cbn. apply andb_true_iff in Hf as [-> Ho]. destruct (al_expires r); cbn; apply Z.ltb_lt; [apply Z.ltb_lt in Ho|]; lia.
    - intros Ho. unfold adopts in Ea. by rewrite Ho in Ea. }
  destruct H1 as (r1 & Hr1 & I1 & I2 & I3 & F1 & S1). destruct (IH s1 res1 r1 H Hr1 F1) as (r' & Hr' & J1 & J2 & J3 & F2 & S2); [intros it u a b e Hit; apply Hb; by right|].
  exists r'. split_and!; try done; try congruence. intros Ho. rewrite S2, S1; [done|apply Ho; by left|]. intros it Hit. rewrite (ofItem_shape it r1 r); [apply Ho; by right|].
  apply S1, Ho. by left.
Qed.
End Windows.

(** ** The same snapshot again *)

(** What the facts about windows ask of a catalog: ids are ids, and resets are cadences. *)
Record items_ok (items : list CatalogItem) : Prop := {
  cg_ids : NoDup (map (fun c => it_id (ci_item c)) items);
  cg_resets : forall c u, c ∈ items -> it_reset (ci_item c) = Some u -> cadence_ok (storedCadence u (Some (it_reset_count (ci_item c)))) }.

Section Items.
Context (items : list CatalogItem) (billing : Z -> option Cadence) (Hcat : items_ok items).

Lemma allocationItems_spec version it : it ∈ allocationItems items version ->
  it_version it = version /\ exists c, c ∈ items /\ ci_item c = it /\ ci_allocation c = true.
Proof using.
  unfold allocationItems. intros (c & -> & Hc)%list_elem_of_fmap. apply list_elem_of_In, filter_In in Hc as [Hc [Ha Hv%Z.eqb_eq]%andb_true_iff].
  split; [done|]. exists c. split_and!; [by apply list_elem_of_In|done|done].
Qed.

Lemma item_ids version : NoDup (map it_id (allocationItems items version)).
Proof using Hcat. unfold allocationItems. rewrite map_map. apply NoDup_filter_key, (cg_ids _ Hcat). Qed.

Lemma item_cadence version it u : it ∈ allocationItems items version -> it_reset it = Some u -> cadence_ok (storedCadence u (Some (it_reset_count it))).
Proof using Hcat. intros (_ & c & Hc & <- & _)%allocationItems_spec Hu. by apply (cg_resets _ Hcat). Qed.

Lemma item_version version it r : it ∈ allocationItems items version -> al_item r = Some (it_id it) -> ofVersion items version r = true.
Proof using Hcat.
  intros (Hv & c & Hc & Hci & _)%allocationItems_spec Hr. unfold ofVersion, versionItem. rewrite Hr. cbn [mbind option_bind].
  destruct (List.find _ items) as [d|] eqn:Ef.
  - apply find_some in Ef as [Hd%list_elem_of_In Hid%Z.eqb_eq]. assert (d = c) as -> by (apply (NoDup_key_inj (fun c => it_id (ci_item c)) items); [apply (cg_ids _ Hcat)|done|done|congruence]).
    cbn. rewrite Hci, Hv, Z.eqb_refl. apply bool_decide_eq_true. by eexists.
  - apply list_elem_of_In in Hc. pose proof (find_none _ _ Ef c Hc) as Hn. cbn in Hn. rewrite Hci, Z.eqb_refl in Hn. done.
Qed.

(** Items of two versions have different ids. *)
Lemma item_unique v v' it it' : it ∈ allocationItems items v -> it' ∈ allocationItems items v' -> it_id it = it_id it' -> it = it'.
Proof using Hcat.
  intros (_ & c & Hc & <- & _)%allocationItems_spec (_ & c' & Hc' & <- & _)%allocationItems_spec E. f_equal.
  by apply (NoDup_key_inj (fun c => it_id (ci_item c)) items); [apply (cg_ids _ Hcat)|..].
Qed.

Lemma splitItems_spec sub version it : it ∈ splitItems items billing sub version <->
  it ∈ allocationItems items version /\ resetSplits billing it (periodStart sub) (periodEnd sub) = true.
Proof using. unfold splitItems. by rewrite list_elem_of_In, filter_In, <- list_elem_of_In. Qed.

Lemma splitItems_sorted_ids sub version : NoDup (map it_id (sortBy itemBefore (splitItems items billing sub version))).
Proof using Hcat. rewrite (sortBy_perm itemBefore). apply NoDup_filter_key, item_ids. Qed.

(** The window that is open while the period runs: it contains the instant, and it is the window of
    every instant in it. *)
Lemma windowOf_spec version entity start endAt now it u a b e : it ∈ allocationItems items version -> it_reset it = Some u -> start <= now < endAt ->
  modern start -> modern now -> windowOf entity start endAt now it u = Ok (a, b, e) ->
  start <= a /\ a <= now < b /\ b <= endAt /\
  forall t, modern t -> a <= t < b -> planGrantWindowBounds (Some start) (Some (Some endAt)) (storedCadence u (Some (it_reset_count it))) t = Ok (Some a, Some b).
Proof using Hcat.
  intros Hit Hu Hn Hs Hnm H. unfold windowOf in H. pose proof (item_cadence version it u Hit Hu) as Hcad.
  assert (Hlt : start < endAt) by lia.
  destruct (planGrantWindow_cell start endAt _ now now Hlt Hcad Hs Hnm Hnm) as (a' & b' & E & H1 & H2 & H3 & _).
  rewrite E in H. cbn [mbind result_bind toISOString] in H. inv_result. simplify_eq. split_and!; try lia.
  intros t Ht Hin. destruct (planGrantWindow_cell start endAt _ now t Hlt Hcad Hs Hnm Ht) as (a2 & b2 & E2 & _ & _ & _ & _ & _ & H4).
  rewrite E in E2. injection E2 as <- <-. by apply H4.
Qed.
End Items.

Section Redelivered.
Context (items : list CatalogItem) (billing : Z -> option Cadence) (nc base : Z -> bool) (Hcat : items_ok items).
Context (sub : Subscription) (input : SnapshotInput) (version now : Z) (Hversion : sb_version sub = Some version).
Context (Hmodern : modern (periodStart sub)) (Hnow : modern now).

Lemma runs_spec : runs now sub = true -> exists e, periodEnd sub = Some e /\ periodStart sub <= now < e.
Proof using. unfold runs. rewrite !andb_true_iff. intros [[[_ H1%Z.leb_le] H2] _]. destruct (periodEnd sub) as [e|]; [|done]. exists e. apply Z.ltb_lt in H2. done. Qed.

(** A pass over the reset windows, as what it leaves. *)
Lemma resets_spec s s' res : materializeSubscriptionResetAllocations items billing sub now s = Ok (s', res) ->
  (forall t, exists t', materializeSubscriptionResetAllocations items billing sub now t = Ok (t', {| pr_granted := 0; pr_transitioned := 0 |}) /\ t' = t) \/
  (exists e, periodEnd sub = Some e /\ periodStart sub <= now < e /\
    foldM (grantWindow (sb_entity sub) (periodStart sub) e now) (sortBy itemBefore (splitItems items billing sub version)) (s, {| pr_granted := 0; pr_transitioned := 0 |}) = Ok (s', res) /\
    forall t, materializeSubscriptionResetAllocations items billing sub now t =
      foldM (grantWindow (sb_entity sub) (periodStart sub) e now) (sortBy itemBefore (splitItems items billing sub version)) (t, {| pr_granted := 0; pr_transitioned := 0 |})).
Proof using Hversion.
  unfold materializeSubscriptionResetAllocations. rewrite Hversion. destruct (periodEnd sub) as [e|] eqn:Ee; [|by left; intros t; exists t].
  destruct (runs now sub) eqn:Er; [|by left; intros t; exists t]. destruct (runs_spec Er) as (e' & Ee' & Hr). rewrite Ee in Ee'. injection Ee' as <-.
  cbn [negb orb]. destruct (bool_decide _); [by left; intros t; exists t|]. intros H. right. by exists e.
Qed.

Lemma resets_live s s' res r : materializeSubscriptionResetAllocations items billing sub now s = Ok (s', res) -> r ∈ lg_rows s -> funded now r = true ->
  exists r', r' ∈ lg_rows s' /\ al_item r' = al_item r /\ al_source r' = al_source r /\ al_feature r' = al_feature r /\ funded now r' = true /\
    ((forall it, it ∈ splitItems items billing sub version -> ofItem it r = false) -> shape r' = shape r).
Proof using Hcat Hversion Hmodern Hnow.
  intros H Hr Hf. destruct (resets_spec _ _ _ H) as [Hid|(e & Ee & Hn & Hm & _)].
  - destruct (Hid s) as (t' & E & ->). rewrite E in H. injection H as <- _. by exists r.
  - destruct (windows_live _ _ _ _ _ _ _ _ _ r Hm Hr Hf) as (r' & ? & ? & ? & ? & ? & Hs).
    + intros it u a b x Hit Hu Hw. rewrite (sortBy_perm itemBefore) in Hit. apply splitItems_spec in Hit as [Hit _].
      by apply (windowOf_spec items Hcat version _ _ _ _ _ _ _ _ _ Hit Hu Hn Hmodern Hnow Hw).
    + exists r'. split_and!; try done. intros Ho. apply Hs. intros it Hit. apply Ho. by rewrite (sortBy_perm itemBefore) in Hit.
Qed.

(** The pass keeps the keys. *)
Lemma resets_keys s s' res x : materializeSubscriptionResetAllocations items billing sub now s = Ok (s', res) -> x ∈ lg_rows s ->
  exists y, y ∈ lg_rows s' /\ al_feature y = al_feature x /\ al_source y = al_source x /\ al_key y = al_key x.
Proof using Hversion.
  intros H Hx. destruct (resets_spec _ _ _ H) as [Hid|(e & Ee & Hn & Hm & _)].
  - destruct (Hid s) as (t' & E & ->). rewrite E in H. injection H as <- _. by exists x.
  - eapply windows_keys; [exact Hm|done].
Qed.

Lemma fund_again changes rv s n s' changes' rv' : fundVersion items billing nc sub changes rv input now s = Ok (n, s') ->
  rv_version rv = version -> rv_version rv' = version -> outgoingVersion rv' = None ->
  si_start input = periodStart sub -> si_end input = periodEnd sub ->
  exists s'', fundVersion items billing nc sub changes' rv' input now s' = Ok (0%nat, s'') /\ lg_rows s'' = lg_rows s' /\ lg_carried s'' = lg_carried s'.
Proof using Hcat Hversion Hmodern Hnow.
  intros Hf Hv Hv' Ho Hstart Hend. unfold fundVersion in Hf. apply bind_Ok in Hf as (u & Hentity & Hf).
  set (s1 := match outgoingVersion rv with Some o => _ | None => s end) in Hf. clearbody s1.
  destruct (grantPeriod _ _ _ _ _ _ _ _ s1) as [s2 n2] eqn:E2. rewrite Hv in E2. apply bind_Ok in Hf as ([s3 windows] & E3 & Hf).
  apply bind_Ok in Hf as (s4 & E4 & Hf). injection Hf as _ <-.
  destruct (inserts_rows _ _ _ _ _ E2) as ((new & En & _) & Htaken & _ & _); [by intros row i j (it & -> & _)%list_elem_of_fmap|].
  (* the switch keeps what grants look for *)
  assert (Hshape : reshaped (lg_rows s3) (lg_rows s4)) by (destruct (outgoingVersion rv); [by eapply switch_shape|injection E4 as <-; apply reshaped_refl]).
  assert (Hlive : forall r, r ∈ lg_rows s3 -> al_source r = source_subscription -> ofVersion items version r = true -> funded now r = true ->
    exists r', r' ∈ lg_rows s4 /\ shape r' = shape r /\ funded now r' = true).
  { intros r Hr Hs Hof Hfu. destruct (outgoingVersion rv) as [o|] eqn:Eo; [|injection E4 as <-; by exists r].
    eapply switch_live; [exact E4|by apply outgoing_differs|done|done|cbn; by rewrite Hv|done]. }
  (* so does the pass over the windows *)
  assert (Hitem : forall it r, it ∈ allocationItems items version -> r ∈ lg_rows s1 -> ofItem it r = true -> funded now r = true ->
    exists r', r' ∈ lg_rows s4 /\ ofItem it r' = true /\ al_feature r' = al_feature r /\ funded now r' = true /\
      (resetSplits billing it (periodStart sub) (periodEnd sub) = false -> al_start r' = al_start r)).
  { intros it r Hit Hr Hof Hfu. apply ofItem_spec in Hof as [Hi Hs].
    destruct (resets_live _ _ _ r E3) as (r3 & Hr3 & I1 & I2 & I3 & F3 & S3); [rewrite En; apply elem_of_app; by left|done|].
    destruct (Hlive r3 Hr3) as (r4 & Hr4 & S4 & F4); [congruence|apply (item_version items Hcat version it); congruence|done|].
    pose proof S4 as S4'. injection S4' as J1 J2 J3 _ J5 _. exists r4. split_and!; [done|apply ofItem_spec; split; congruence|congruence|done|].
    intros Hsp. rewrite J5. assert (E : shape r3 = shape r); [|by injection E]. apply S3. intros it' [Hit' Hsp']%splitItems_spec.
    apply not_true_is_false. intros [Hi' _]%ofItem_spec. assert (it' = it) as -> by (apply (item_unique items Hcat version version); [done|done|congruence]). congruence. }
  unfold fundVersion. rewrite Hentity. cbn [mbind result_bind]. rewrite Ho. destruct (grantPeriod items billing nc (sb_entity sub) (rv_version rv') now (si_start input) (si_end input) s4) as [s5 n5] eqn:E5.
  destruct (inserts_rows _ _ _ _ _ E5) as (_ & _ & Hsame & Hc5); [by intros row i j (it & -> & _)%list_elem_of_fmap|]. destruct Hsame as [Er5 ->].
  { intros row (it & -> & Hit)%list_elem_of_fmap. apply list_elem_of_In, filter_In in Hit as [Hit%list_elem_of_In Hg]. rewrite Hv' in Hit.
    destruct (grantsPeriod billing nc (lg_rows s1) now (si_start input) (si_end input) it) eqn:Hg1.
    - assert (Ht : grantTaken (lg_rows s2) (periodGrant (sb_entity sub) (si_start input) (si_end input) it 0) = true).
      { apply Htaken, list_elem_of_fmap. exists it. split; [done|]. apply list_elem_of_In, filter_In. split; [by apply list_elem_of_In|done]. }
      apply grantTaken_spec in Ht as (x & Hx & K1 & K2 & K3).
      assert (H3 : exists x3, x3 ∈ lg_rows s3 /\ al_feature x3 = al_feature x /\ al_source x3 = al_source x /\ al_key x3 = al_key x) by (by eapply resets_keys).
      destruct H3 as (x3 & Hx3 & L1 & L2 & L3). destruct (reshaped_l _ _ _ Hshape Hx3) as (x4 & Hx4 & S4). injection S4 as _ M2 M3 M4 _ _.
      apply grantTaken_spec. exists x4. split_and!; congruence.
    - exfalso. unfold grantsPeriod in Hg, Hg1. rewrite !andb_true_iff, !negb_true_iff in Hg. destruct Hg as [[G1 G2] G3].
      rewrite G1 in Hg1. cbn [negb andb] in Hg1. apply andb_false_iff in Hg1 as [Hl|Hk].
      + apply negb_false_iff, andb_true_iff in Hl as [Hl1 Hl2]. rewrite Hl1 in G2. cbn [andb] in G2. apply existsb_exists in Hl2 as (r & Hr%list_elem_of_In & [Hr1 Hr2]%andb_true_iff).
        destruct (Hitem it r Hit Hr Hr1 Hr2) as (r' & Hr' & A & _ & B & _). apply (existsb_false_in _ _ r') in G2; [|done]. cbn beta in G2. by rewrite A, B in G2.
      + apply negb_false_iff, existsb_exists in Hk as (r & Hr%list_elem_of_In & Hk). rewrite !andb_true_iff, bool_decide_eq_true in Hk. destruct Hk as [[[K1 K2] K3] K4].
        destruct (Hitem it r Hit Hr K1 K2) as (r' & Hr' & A & B & C & D). apply (existsb_false_in _ _ r') in G3; [|done]. cbn beta in G3.
        rewrite A, B, C, K3, (D ltac:(by rewrite <- Hstart, <- Hend)), bool_decide_true in G3; done. }
  assert (Hreset : exists s6, materializeSubscriptionResetAllocations items billing sub now s5 = Ok (s6, {| pr_granted := 0; pr_transitioned := 0 |}) /\ lg_rows s6 = lg_rows s5 /\ lg_carried s6 = lg_carried s5).
  { destruct (resets_spec _ _ _ E3) as [Hid|(e & Ee & Hn & Hm & Hall)]; [destruct (Hid s5) as (t & E & ->); by exists s5|]. rewrite Hall. apply windows_again.
    intros it w Hit Hw. destruct (windows_done _ _ _ _ _ _ _ _ _ Hm (splitItems_sorted_ids items billing Hcat sub version) it w Hit Hw) as (a & b & x & Ew & Hd).
    exists a, b, x. split; [done|]. rewrite Er5. by eapply windowDone_reshaped. }
  destruct Hreset as (s6 & E6 & R6 & C6). rewrite E6. cbn [mbind result_bind]. exists s6. split_and!; [done|congruence|congruence].
Qed.
End Redelivered.

Lemma supersede_again now b (a : PlanGrants.Account) : supersedeBasePlanGrants now b (supersedeBasePlanGrants now b a) = supersedeBasePlanGrants now b a.
Proof.
  unfold supersedeBasePlanGrants. cbn [ac_grants ac_allowances ac_nextId]. set (gone := fun g => isActive g && pg_base g && running now g && b).
  assert (Hno : forall g, gone (if gone g then close grant_superseded now g else g) = false).
  { intros g. destruct (gone g) eqn:E; [|done]. done. }
  assert (Hf : List.filter gone (map (fun g => if gone g then close grant_superseded now g else g) (ac_grants a)) = []).
  { apply filter_none. intros g (x & -> & _)%list_elem_of_fmap. apply Hno. }
  f_equal.
  - rewrite map_map. apply map_ext. intros g. pose proof (Hno g) as Hg. unfold gone in Hg |- *. cbv beta in Hg |- *. by rewrite Hg.
  - match goal with |- context [List.filter ?f (map ?g ?l)] => replace (List.filter f (map g l)) with (@nil PlanGrant) by (symmetry; exact Hf) end.
    cbn [map]. rewrite map_map. apply map_ext. intros r. by rewrite (bool_decide_false (aw_grant _ ∈ [])) by (by intros ?%elem_of_nil).
Qed.

Lemma reverse_again now r : reverseAll now (reverseAll now r) = reverseAll now r.
Proof. unfold reverseAll. cbn. by destruct (al_reversed_at r). Qed.

Lemma close_again items rv rv' status now s : outgoingVersion rv' = None ->
  lg_rows (closeVersion items rv' status now (closeVersion items rv status now s)) = lg_rows (closeVersion items rv status now s) /\
  lg_carried (closeVersion items rv' status now (closeVersion items rv status now s)) = lg_carried (closeVersion items rv status now s).
Proof.
  intros Ho. unfold closeVersion. rewrite Ho. set (closed := bool_decide (status = refunded) || bool_decide (status = revoked)). destruct closed; [|done].
  cbn [lg_rows lg_carried with_rows]. split; [|done]. rewrite <- (map_id (lg_rows (match outgoingVersion rv with Some o => _ | None => _ end))) at 2. apply map_ext_in.
  intros r Hr%list_elem_of_In. enough (exists x, r = reverseAll now x) as (x & ->) by apply reverse_again.
  destruct (outgoingVersion rv) as [o|]; cbn [lg_rows with_rows endOutgoingPlanAllowances] in Hr.
  - apply list_elem_of_fmap in Hr as (y & -> & (x & -> & Hx)%list_elem_of_fmap). destruct (_ && _) eqn:E; [|by exists x].
    exfalso. rewrite !andb_true_iff in E. destruct E as [[_ [E _]%andb_true_iff] _]. apply bool_decide_eq_true in E. unfold reverseAll in E. cbn in E. by destruct (al_reversed_at x).
  - apply list_elem_of_fmap in Hr as (x & -> & _). by exists x.
Qed.

(** A resolution that moves nothing answers the pinned version. *)
Lemma resolved_pinned catalog subscription version input rows rv : resolveSubscriptionPlanVersion catalog subscription version input rows = Some rv ->
  rv_changed rv = false -> version = Some (rv_version rv).
Proof.
  intros Hr Hch. destruct (version ≫= versionOf catalog) as [w|] eqn:Ew.
  - apply bind_Some in Ew as (v & -> & Hw). destruct (resolve_told _ _ _ _ _ _ Hr ltac:(by eexists)) as [(_ & -> & _)|(H & _)]; [done|congruence].
  - unfold resolveSubscriptionPlanVersion in Hr. rewrite Ew in Hr. apply fmap_Some in Hr as (b & _ & ->). done.
Qed.


(** ** A yearly subscription whose allowance resets each month *)

Definition january : Z := 1767225600000.
Definition dayOfYear (n : Z) : Z := january + n * 86400000.
Definition yearly (version : Z) : option Cadence := Some (storedCadence year (Some 1)).
Definition januaryRow : Allocation :=
  grantRow None (ci_item (monthly 101 1)) (period_key 101 january (Some (dayOfYear 31))) january (Some (dayOfYear 31)) (Some (dayOfYear 31)) 1.
Definition usedJanuary : Ledger := {| lg_rows := updateRow 1 (consume 30) [januaryRow]; lg_carried := []; lg_nextId := 2 |}.
Definition subscribed : Subscription :=
  {| sb_version := Some 1; sb_revision := Some 1; sb_entity := None; sb_status := SubscriptionChanges.active; sb_starts := january;
     sb_period_start := Some january; sb_period_end := Some (dayOfYear 365); sb_expires := None |}.
(** A trial of a base plan runs beside it. *)
Definition trialing : PlanGrants.Account :=
  {| ac_grants := [{| pg_id := 1; pg_plan := 9; pg_version := 90; pg_base := true; pg_origin := origin_trial; pg_status := grant_active;
       pg_starts_at := january; pg_ends_at := Some (dayOfYear 14); pg_ended_at := None; pg_keys := []; pg_created_at := january |}];
     ac_allowances := []; ac_nextId := 1 |}.
Definition upgrading : SyncState :=
  {| ss_subscription := subscribed; ss_changes := appliedRows; ss_account := trialing; ss_ledger := usedJanuary |}.
Definition snapshot (product previous : Z) : SnapshotInput :=
  {| si_sync := snapshotOf product previous; si_status := SubscriptionChanges.active; si_start := january; si_end := Some (dayOfYear 365) |}.

Definition syncAt (now : Z) (input : SnapshotInput) (st : SyncState) : result (nat * SyncState) :=
  materializeSubscriptionAllocations CarryOver.twoVersions yearly noLevels (fun _ => true) SubscriptionChanges.twoVersions 7 input now st.
Definition stateOf (r : result (nat * SyncState)) : SyncState := match r with Ok (_, st) => st | Err _ => upgrading end.
Definition upgradedSync : SyncState := stateOf (syncAt (dayOfYear 10) (snapshot 102 101) upgrading).

(** The upgrade on the eleventh of January: the rest of the month's allowance is carried, the month's
    window of the new version opens, the outgoing allowance ends and the trial is superseded. *)
Example upgrade_synced : syncAt (dayOfYear 10) (snapshot 102 101) upgrading = Ok (1%nat, upgradedSync) /\
  map (fun r => (al_item r, al_quantity r, al_consumed r, al_start r, al_expires r)) (lg_rows (ss_ledger upgradedSync)) =
    [(Some 101, 100, 30, Some january, Some (dayOfYear 10)); (Some 102, 100, 0, Some january, Some (dayOfYear 31));
     (None, 70, 0, Some (dayOfYear 10), Some (dayOfYear 31))] /\
  map pg_status (ac_grants (ss_account upgradedSync)) = [grant_superseded].
Proof. split_and!; vm_compute; reflexivity. Qed.

Definition usedHistory : History :=
  {| hs_clock := dayOfYear 5; hs_events := [{| ev_alloc := 1; ev_at := dayOfYear 5; ev_left := 30 |}]; hs_ledger := usedJanuary |}.
Lemma used_reached : reaches CarryOver.twoVersions noLevels usedHistory.
Proof.
  unfold reaches. eapply rtc_l; [apply (happens_grant _ _ 0 [] emptyLedger januaryRow); reflexivity|].
  eapply rtc_l; [apply (happens_use _ _ 0 [] _ (dayOfYear 5) 1 30 (consume 30)); [done|done|cbn; by constructor|by intros r]|]. apply rtc_refl.
Qed.

Lemma sync_refines_history_witness :
  exists h', reaches CarryOver.twoVersions noLevels h' /\ hs_ledger h' = ss_ledger upgradedSync /\ distinctUse (ss_ledger upgradedSync) = 30.
Proof.
  assert (Hs : syncAt (dayOfYear 10) (snapshot 102 101) upgrading = Ok (1%nat, upgradedSync)) by (vm_compute; reflexivity).
  assert (Hc : hs_clock usedHistory < dayOfYear 10) by reflexivity.
  refine (match sync_refines_history CarryOver.twoVersions yearly noLevels (fun _ => true) SubscriptionChanges.twoVersions 7 (snapshot 102 101) (dayOfYear 10)
    upgrading usedHistory 1 upgradedSync used_reached eq_refl Hc Hs _ with
    ex_intro _ h' (conj _ (conj Hr (conj Hl (conj _ (conj _ Hd))))) => ex_intro _ h' (conj Hr (conj Hl (eq_trans Hd _))) end).
  - intros rv o _ _ _ c Hc'. change (c ∈ @nil CarriedUsage) in Hc'. exact (False_ind _ (proj1 (elem_of_nil c) Hc')).
  - vm_compute. reflexivity.
Defined.

Lemma twoVersions_items_ok : items_ok CarryOver.twoVersions.
Proof.
  split; [apply (bool_decide_unpack _); vm_compute; reflexivity|]. intros c u Hc Hu. unfold CarryOver.twoVersions in Hc. rewrite !elem_of_cons in Hc.
  destruct Hc as [-> |[-> |Hc%elem_of_nil]]; [| |done]; injection Hu as <-; unfold cadence_ok, maxCadenceCount; cbn; lia.
Qed.

