(* ===== verification/SubscriptionWindows.v ===== *)
(** * A subscription's allowances over time

    The histories of a subscription's allowances: what the syncs of the provider's snapshots, the
    worker's passes over the reset windows and everything else leave of them ([SubscriptionGrants]).
    Two allowances of one item cover one instant only where two reported periods do, and a pass
    opens the window of every item.  Google reports each renewal from the subscription's first
    start (providers/google/normalizer.ts), so its periods overlap: [google_renewal_overlaps]. *)
From S2P Require Import Prelude JsDate Cadence Windows KeptLevels PlanGrants CarryReplay CarryOver SubscriptionChanges SubscriptionGrants.

(** The cadence an item resets at. *)
Definition resetCadence (it : PlanGrants.PlanItem) : option Cadence := (fun u => storedCadence u (Some (it_reset_count it))) <$> it_reset it.

(** A provider's period, and the instants inside it. *)
Definition Period : Type := Z * option Z.
Definition inside (p : Period) (t : Z) : Prop := p.1 <= t /\ forall e, p.2 = Some e -> t < e.

(** The periods a provider reports of a subscription are instants of this era. *)
Record periods_ok (period : Period -> Prop) : Prop := {
  po_modern : forall p, period p -> modern p.1;
  po_runs : forall p e, period p -> p.2 = Some e -> p.1 < e }.

(** No two of them overlap. *)
Definition apart (period : Period -> Prop) : Prop := forall p q t, period p -> period q -> inside p t -> inside q t -> p = q.

(** An instant an allowance covers. *)
Definition covers (r : Allocation) (t : Z) : bool :=
  match al_start r with Some s => s <=? t | None => false end && match al_end r with Some e => t <? e | None => true end.

Definition setSubscription (sub : Subscription) (st : SyncState) : SyncState :=
  {| ss_subscription := sub; ss_changes := ss_changes st; ss_account := ss_account st; ss_ledger := ss_ledger st |}.
Definition setLedger (s : Ledger) (st : SyncState) : SyncState :=
  {| ss_subscription := ss_subscription st; ss_changes := ss_changes st; ss_account := ss_account st; ss_ledger := s |}.

(** What happens to a subscription: the provider's snapshot is written and synced (of a stale one
    the stored period stays, and the sync is of the snapshot's), the worker passes, and everything that grants none of the plan's allowances -- changes are requested and settled,
    allowances are used, held, ended, reversed and carried. *)
Inductive funding (items : list CatalogItem) (billing : Z -> option Cadence) (nc base : Z -> bool) (catalog : Catalog) (subscription : Z)
  (period : Period -> Prop) : SyncState -> SyncState -> Prop :=
  | funding_sync st sub input now n st' : modern now -> period (si_start input, si_end input) ->
      period (periodStart sub, periodEnd sub) -> sb_version sub = sb_version (ss_subscription st) ->
      materializeSubscriptionAllocations items billing nc base catalog subscription input now (setSubscription sub st) = Ok (n, st') ->
      funding items billing nc base catalog subscription period st st'
  | funding_resets st now s' res : modern now ->
      materializeSubscriptionResetAllocations items billing (ss_subscription st) now (ss_ledger st) = Ok (s', res) ->
      funding items billing nc base catalog subscription period st (setLedger s' st)
  | funding_other st changes account s' : reshaped (lg_rows (ss_ledger st)) (lg_rows s') ->
      funding items billing nc base catalog subscription period st
        {| ss_subscription := ss_subscription st; ss_changes := changes; ss_account := account; ss_ledger := s' |}.

(** ** The keys of a plan's grants *)

Definition planKey (x : option Z * SourceKind * Z * option AllocationKey * option Z * option Z) : list (Z * option AllocationKey) :=
  let '(_, source, feature, key, _, _) := x in if bool_decide (source = source_subscription) then [(feature, key)] else [].
Definition planKeys (rows : list Allocation) : list (Z * option AllocationKey) := flat_map planKey (map shape rows).

Lemma planKeys_app l1 l2 : planKeys (l1 ++ l2) = planKeys l1 ++ planKeys l2.
Proof. unfold planKeys. by rewrite map_app, flat_map_app. Qed.

Lemma planKeys_map f rows : (forall r, al_feature (f r) = al_feature r /\ al_source (f r) = al_source r /\ al_key (f r) = al_key r) ->
  planKeys (map f rows) = planKeys rows.
Proof.
  intros H. unfold planKeys. induction rows as [|r rows IH]; [done|]. cbn [map flat_map]. rewrite IH. f_equal. destruct (H r) as (E1 & E2 & E3).
  unfold planKey, shape. by rewrite E1, E2, E3.
Qed.

Lemma planKeys_other rows : (forall x, x ∈ rows -> al_source x <> source_subscription) -> planKeys rows = [].
Proof.
  induction rows as [|r rows IH]; intros H; [done|]. unfold planKeys in *. cbn [map flat_map]. rewrite IH by (intros x Hx; apply H; by right).
  unfold planKey, shape. rewrite bool_decide_false; [done|]. apply H. by left.
Qed.

Lemma planKeys_reshaped rows rows' : reshaped rows rows' -> planKeys rows' = planKeys rows.
Proof.
  intros (new & E & H). unfold planKeys at 1. rewrite E, flat_map_app. fold (planKeys rows) (planKeys new).
  rewrite (planKeys_other new) by (intros x Hx; by rewrite (H x Hx)). apply app_nil_r.
Qed.

Lemma planKeys_in rows k : k ∈ planKeys rows <-> exists r, r ∈ rows /\ al_source r = source_subscription /\ k = (al_feature r, al_key r).
Proof.
  unfold planKeys. rewrite list_elem_of_In, in_flat_map. split.
  - intros (x & Hx%list_elem_of_In & Hk). apply list_elem_of_fmap in Hx as (r & -> & Hr). unfold planKey, shape in Hk.
    case_bool_decide; [|done]. destruct Hk as [<-|[] ]. by exists r.
  - intros (r & Hr & Hs & ->). exists (shape r). split; [by apply list_elem_of_In, list_elem_of_fmap_2|]. unfold planKey, shape. rewrite bool_decide_true by done. by left.
Qed.

Lemma planKeys_positions rows i j r q : NoDup (planKeys rows) -> i <> j -> rows !! i = Some r -> rows !! j = Some q ->
  al_source r = source_subscription -> al_source q = source_subscription -> (al_feature r, al_key r) <> (al_feature q, al_key q).
Proof.
  revert i j. induction rows as [|x rows IH]; intros i j Hnd Hne Hi Hj Hr Hq; [done|]. change (x :: rows) with ([x] ++ rows) in Hnd.
  rewrite planKeys_app in Hnd. apply NoDup_app in Hnd as (_ & Hx & Hnd).
  assert (Hhead : forall y, y ∈ rows -> al_source x = source_subscription -> al_source y = source_subscription -> (al_feature x, al_key x) <> (al_feature y, al_key y)).
  { intros y Hy Hsx Hsy E. apply (Hx (al_feature x, al_key x)); apply planKeys_in; [exists x; split; [by left|done]|by exists y]. }
  destruct i as [|i], j as [|j]; cbn in Hi, Hj; simplify_eq.
  - apply Hhead; [by eapply list_elem_of_lookup_2|done|done].
  - intros E. symmetry in E. revert E. apply Hhead; [by eapply list_elem_of_lookup_2|done|done].
  - apply (IH i j); [done|congruence|done..].
Qed.

(** ** What the plan's allowances are *)

Section Funding.
Context (items : list CatalogItem) (billing : Z -> option Cadence) (nc base : Z -> bool) (catalog : Catalog) (subscription : Z) (period : Period -> Prop).
Context (Hcat : items_ok items) (Hperiods : periods_ok period).

(** The reset window of an instant in a period. *)
Definition cell (it : PlanGrants.PlanItem) (p : Period) (a b : Z) : Prop :=
  exists c e t, resetCadence it = Some c /\ p.2 = Some e /\ modern t /\ p.1 <= t < e /\
    planGrantWindowBounds (Some p.1) (Some (Some e)) c t = Ok (Some a, Some b).

(** The whole period, or a window in it. *)
Definition opened (it : PlanGrants.PlanItem) (p : Period) (a : Z) (endAt : option Z) : Prop :=
  if resetSplits billing it p.1 p.2 then exists b, endAt = Some b /\ cell it p a b else (a, endAt) = p.

(** A grant's key says what it is; a window of an overlapping period may have narrowed it. *)
Definition wellKeyed (r : Allocation) : Prop :=
  exists v it, it ∈ allocationItems items v /\ al_item r = Some (it_id it) /\ al_feature r = it_feature it /\
    (lifetimeItem it = true /\ al_key r = Some (lifetime_key (it_id it)) /\ al_end r = None \/
     lifetimeItem it = false /\ exists a e p s, al_key r = Some (period_key (it_id it) a e) /\ period p /\ opened it p a e /\
       al_start r = Some s /\ a <= s /\ (forall b, e = Some b -> exists b', al_end r = Some b' /\ b' <= b) /\
       (apart period -> s = a /\ al_end r = e)).

Record rows_ok (rows : list Allocation) : Prop := {
  ro_keys : NoDup (planKeys rows);
  ro_keyed : forall r, r ∈ rows -> al_source r = source_subscription -> nc (al_feature r) = false -> wellKeyed r }.

Lemma wellKeyed_shape r r' : shape r = shape r' -> wellKeyed r -> wellKeyed r'.
Proof using.
  intros E (v & it & Hit & H1 & H2 & H3). injection E as E1 _ E3 E4 E5 E6. exists v, it. rewrite <- E1, <- E3, <- E4, <- E5, <- E6. done.
Qed.

Lemma rows_reshaped rows rows' : rows_ok rows -> reshaped rows rows' -> rows_ok rows'.
Proof using.
  intros [H1 H2] Hr. split; [by rewrite (planKeys_reshaped _ _ Hr)|]. intros r' Hr' Hs Hn. destruct (reshaped_r _ _ _ Hr Hr' Hs) as (r & Hin & E).
  apply (wellKeyed_shape r); [done|]. injection E as _ E2 E3 _ _ _. apply H2; congruence.
Qed.

Lemma rows_insert s n row : rows_ok (lg_rows s) -> (forall i j, shape (row i) = shape (row j)) -> wellKeyed (row 0) -> rows_ok (lg_rows (insertGrant (s, n) row).1).
Proof using.
  intros [H1 H2] Hrow Hk. destruct (insertGrant (s, n) row) as [s' n'] eqn:E. unfold insertGrant in E. destruct (grantTaken _ _) eqn:Et; injection E as <- _; [by split|].
  cbn [fst lg_rows]. split.
  - rewrite planKeys_app. apply NoDup_app. split_and!; [done| |].
    + intros k Hk1 Hk2. apply planKeys_in in Hk1 as (x & Hx & Hxs & ->), Hk2 as (y & ->%list_elem_of_singleton & Hys & [= E1 E2]).
      apply not_true_iff_false in Et. apply Et, grantTaken_spec. exists x. split_and!; congruence.
    + unfold planKeys, planKey. cbn. case_bool_decide; [apply NoDup_singleton|apply NoDup_nil_2].
  - intros r [Hr| ->%list_elem_of_singleton]%elem_of_app Hs Hn; [by apply H2|]. by apply (wellKeyed_shape (row 0)).
Qed.

Lemma cell_spec it v p a b : it ∈ allocationItems items v -> period p -> cell it p a b ->
  p.1 <= a < b /\ (forall e, p.2 = Some e -> b <= e) /\
  forall t, modern t -> a <= t < b -> forall e c, p.2 = Some e -> resetCadence it = Some c ->
    planGrantWindowBounds (Some p.1) (Some (Some e)) c t = Ok (Some a, Some b).
Proof using Hcat Hperiods.
  intros Hit Hp (c & e & t & Hc & He & Ht & Hin & Hw). unfold resetCadence in Hc. apply fmap_Some in Hc as (u & Hu & ->).
  pose proof (item_cadence items Hcat v it u Hit Hu) as Hcad. pose proof (po_modern _ Hperiods p Hp) as Hm.
  assert (Hlt : p.1 < e) by lia.
  destruct (planGrantWindow_cell p.1 e _ t t Hlt Hcad Hm Ht Ht) as (a' & b' & E & H1 & H2 & H3 & _). rewrite Hw in E. injection E as <- <-.
  split_and!; [lia|lia|by intros ? [= <-]%(eq_trans (eq_sym He))|]. intros t' Ht' Hin' e' c' He' Hc'. unfold resetCadence in Hc'. rewrite Hu in Hc'. injection Hc' as <-.
  rewrite He in He'. injection He' as <-.
  destruct (planGrantWindow_cell p.1 e _ t t' Hlt Hcad Hm Ht Ht') as (a2 & b2 & E2 & _ & _ & _ & _ & _ & H4). rewrite Hw in E2. injection E2 as <- <-. by apply H4.
Qed.

Lemma cell_modern it v p a b : it ∈ allocationItems items v -> period p -> cell it p a b -> modern a.
Proof using Hcat Hperiods.
  intros Hit Hp Hcell. destruct (cell_spec it v p a b Hit Hp Hcell) as (H & _). destruct Hcell as (c & e & t & Hc & He & Ht & Hin & Hw).
  unfold resetCadence in Hc. apply fmap_Some in Hc as (u & Hu & ->). pose proof (item_cadence items Hcat v it u Hit Hu) as Hcad. pose proof (po_modern _ Hperiods p Hp) as Hm.
  destruct (planGrantWindow_cell p.1 e _ t t ltac:(lia) Hcad Hm Ht Ht) as (a' & b' & E & _ & _ & H3 & _). rewrite Hw in E. injection E as <- <-. unfold modern in *. lia.
Qed.

(** Windows of one period that share an instant are one window. *)
Lemma cells_equal it v p a b a' b' t : it ∈ allocationItems items v -> period p -> cell it p a b -> cell it p a' b' -> a <= t < b -> a' <= t < b' -> a = a' /\ b = b'.
Proof using Hcat Hperiods.
  intros Hit Hp H H' Ht Ht'. destruct (cell_spec it v p a b Hit Hp H) as (_ & _ & S). destruct (cell_spec it v p a' b' Hit Hp H') as (_ & _ & S').
  pose proof (cell_modern it v p a b Hit Hp H) as M. pose proof (cell_modern it v p a' b' Hit Hp H') as M'.
  destruct H as (c & e & _ & Hc & He & _). assert (Hm : modern (Z.max a a')) by (unfold modern in *; lia).
  specialize (S (Z.max a a') Hm ltac:(lia) e c He Hc). specialize (S' (Z.max a a') Hm ltac:(lia) e c He Hc). rewrite S in S'. by injection S' as -> ->.
Qed.

Lemma opened_inside it v p a e t : it ∈ allocationItems items v -> period p -> opened it p a e -> a <= t -> (forall b, e = Some b -> t < b) -> inside p t.
Proof using Hcat Hperiods.
  intros Hit Hp Ho Ha He. unfold opened in Ho. destruct (resetSplits _ _ _ _).
  - destruct Ho as (b & -> & Hcell). destruct (cell_spec it v p a b Hit Hp Hcell) as (H1 & H2 & _). specialize (He b eq_refl). split; [lia|]. intros x Hx. specialize (H2 x Hx). lia.
  - rewrite <- Ho. by split.
Qed.

Lemma opened_once it v p a e a' e' t : it ∈ allocationItems items v -> period p -> opened it p a e -> opened it p a' e' ->
  a <= t -> (forall b, e = Some b -> t < b) -> a' <= t -> (forall b, e' = Some b -> t < b) -> a = a' /\ e = e'.
Proof using Hcat Hperiods.
  intros Hit Hp Ho Ho' H1 H2 H3 H4.
  unfold opened in Ho, Ho'. destruct (resetSplits _ _ _ _); [|by rewrite <- Ho in Ho'; injection Ho' as -> ->].
  destruct Ho as (b & -> & Hb), Ho' as (b' & -> & Hb'). specialize (H2 b eq_refl). specialize (H4 b' eq_refl).
  destruct (cells_equal it v p a b a' b' t Hit Hp Hb Hb') as [-> ->]; [lia|lia|done].
Qed.

Lemma opened_apart it v p q a e a' e' t : apart period -> it ∈ allocationItems items v -> period p -> period q -> opened it p a e -> opened it q a' e' ->
  a <= t -> (forall b, e = Some b -> t < b) -> a' <= t -> (forall b, e' = Some b -> t < b) -> a = a' /\ e = e'.
Proof using Hcat Hperiods.
  intros Hap Hit Hp Hq Ho Ho' H1 H2 H3 H4.
  assert (p = q) as <- by (apply (Hap p q t); [done|done|by eapply opened_inside..]). by apply (opened_once it v p a e a' e' t).
Qed.

(** ** Each step keeps it so *)

Lemma rows_inserts l s n : rows_ok (lg_rows s) -> (forall row, row ∈ l -> (forall i j, shape (row i) = shape (row j)) /\ wellKeyed (row 0)) ->
  rows_ok (lg_rows (fold_left insertGrant l (s, n)).1).
Proof using.
  revert s n. induction l as [|row l IH]; intros s n Hok H; [done|]. cbn [fold_left]. destruct (H row ltac:(by left)) as [H1 H2].
  pose proof (rows_insert s n row Hok H1 H2) as Hok1. destruct (insertGrant (s, n) row) as [s1 n1]. apply IH; [done|]. intros x Hx. apply H. by right.
Qed.

(** Rows whose windows move are levels of non-consumable features. *)
Lemma rows_map f rows : rows_ok rows -> (forall r, al_feature (f r) = al_feature r /\ al_source (f r) = al_source r /\ al_key (f r) = al_key r) ->
  (forall r, r ∈ rows -> nc (al_feature r) = false -> shape (f r) = shape r) -> rows_ok (map f rows).
Proof using.
  intros [H1 H2] Hf Hs. split; [by rewrite planKeys_map|]. intros r' (r & -> & Hr)%list_elem_of_fmap E Hn. destruct (Hf r) as (F1 & F2 & _). rewrite F2 in E. rewrite F1 in Hn.
  apply (wellKeyed_shape r); [by rewrite Hs|by apply H2].
Qed.

Lemma rows_period entity version now p s : rows_ok (lg_rows s) -> period p -> rows_ok (lg_rows (grantPeriod items billing nc entity version now p.1 p.2 s).1).
Proof using.
  intros Hok Hp. apply rows_inserts; [done|]. intros row (it & -> & Hit)%list_elem_of_fmap. split; [done|].
  apply list_elem_of_In, filter_In in Hit as [Hit%list_elem_of_In Hg]. unfold grantsPeriod in Hg. rewrite !andb_true_iff, negb_true_iff in Hg. destruct Hg as [[Hsp _] _].
  exists version, it. split_and!; [done|done|done|]. unfold periodGrant, grantRow. cbn. destruct (lifetimeItem it) eqn:El; [by left|right]. split; [done|].
  exists p.1, p.2, p, p.1. split_and!; [done|done|unfold opened; rewrite Hsp; by destruct p|done|lia| |done].
  intros b Eb. exists b. by split; [|lia].
Qed.

Lemma rows_levels outgoing incoming now start endAt s : rows_ok (lg_rows s) -> rows_ok (lg_rows (keepLevels items billing nc outgoing incoming now start endAt s)).
Proof using.
  intros Hok. unfold keepLevels, keepNonConsumableLevels. set (sw := {| sw_subscription := 0 |}). rewrite map_map, zip_with_self. cbn [lg_rows with_rows].
  apply rows_map; [done|done|]. intros r _ Hn. unfold shape, fromLevel. cbn [al_item al_source al_feature al_key al_start al_end].
  assert (Hno : holdsLevel sw (toLevel nc r) = false) by (unfold holdsLevel, toLevel; cbn; rewrite Hn; apply andb_false_r).
  rewrite Hno. cbn [andb]. destruct (incomingItem sw (toLevel nc r)); cbn; by destruct (al_item r).
Qed.

(** Where periods do not overlap a window's grant finds nothing to take over: no allowance was made
    for the whole of a period its item splits. *)
Lemma adopts_none it v p a b r : apart period -> it ∈ allocationItems items v -> period p -> cell it p a b -> resetSplits billing it p.1 p.2 = true ->
  al_source r = source_subscription -> wellKeyed r -> adopts it a b r = false.
Proof using Hcat Hperiods.
  intros Hap Hit Hp Hcell Hsp Hs (v' & it' & Hit' & H1 & H2 & H3). apply not_true_is_false. unfold adopts. intros [Hof Hw]%andb_true_iff. apply ofItem_spec in Hof as [Hi _].
  assert (it' = it) as -> by (apply (item_unique items Hcat v' v); [done|done|congruence]).
  destruct H3 as [(_ & _ & He)|(_ & a' & e' & q & s & _ & Hq & Ho & Ha & _ & _ & Hex)]; [rewrite He in Hw; by destruct (al_start r)|].
  destruct (Hex Hap) as [-> He]. rewrite Ha, He in Hw. destruct e' as [b'|]; [|done]. rewrite !andb_true_iff, orb_true_iff, !Z.leb_le, !Z.ltb_lt in Hw.
  destruct (cell_spec it v p a b Hit Hp Hcell) as (Hab & _).
  destruct (opened_apart it v q p a' (Some b') a (Some b) a Hap Hit Hq Hp Ho) as [-> [= ->]]; [|lia|by intros ? [= <-]; lia|lia|by intros ? [= <-]; lia|lia].
  unfold opened. rewrite Hsp. by exists b.
Qed.

(** Taking an allowance over narrows its window. *)
Lemma adopt_keyed it v p a b r : it ∈ allocationItems items v -> period p -> cell it p a b -> resetSplits billing it p.1 p.2 = true ->
  al_source r = source_subscription -> wellKeyed r -> adopts it a b r = true -> wellKeyed (adopt a b r).
Proof using Hcat Hperiods.
  intros Hit Hp Hcell Hsp Hs Hk Hto. assert (Hno : ~ apart period) by (intros Hap; rewrite (adopts_none it v p a b r) in Hto; done).
  destruct Hk as (v' & it' & Hit' & H1 & H2 & H3). exists v', it'. split_and!; [done..|]. unfold adopts in Hto. apply andb_true_iff in Hto as [_ Hw].
  destruct H3 as [(_ & _ & He)|(Hl & a' & e' & q & s & Hk & Hq & Ho & Ha & Has & He & _)]; [rewrite He in Hw; by destruct (al_start r)|right].
  split; [done|]. exists a', e', q, a. rewrite Ha in Hw. destruct (al_end r) as [b0|] eqn:Eb; [|done].
  rewrite !andb_true_iff, !Z.leb_le in Hw. split_and!; [done|done|done|done|lia| |done]. intros b' E. exists b. split; [done|].
  destruct (He b' E) as (b2 & [= <-] & ?). lia.
Qed.

Lemma rows_window entity now p e s res it v s' res' : rows_ok (lg_rows s) -> period p -> p.2 = Some e -> p.1 <= now < e -> modern now ->
  it ∈ allocationItems items v -> resetSplits billing it p.1 p.2 = true ->
  grantWindow entity p.1 e now (s, res) it = Ok (s', res') -> rows_ok (lg_rows s').
Proof using Hcat Hperiods.
  intros Hok Hp He Hin Hnow Hit Hsp H. rewrite grantWindow_eq in H. destruct (it_reset it) as [u|] eqn:Eu; [|by injection H as <- _].
  apply bind_Ok in H as ([[a b] x] & Ew & H). injection H as H. unfold openWindow in H. cbn [fst snd] in H.
  assert (Hcell : cell it p a b).
  { exists (storedCadence u (Some (it_reset_count it))), e, now. unfold resetCadence. rewrite Eu. split_and!; [done|done|done|lia|lia|]. unfold windowOf in Ew. inv_result. destruct x0 as [w0 w1]. inv_result. destruct w0, w1; simplify_eq/=; done. }
  assert (Hok1 : rows_ok (adopted it a b (lg_rows s))).
  { destruct Hok as [K1 K2]. split; [unfold adopted; rewrite planKeys_map; [done|intros r; by destruct (adopts it a b r)]|].
    intros r' (r & -> & Hr)%list_elem_of_fmap. destruct (adopts it a b r) eqn:Ea; [|by apply K2]. cbn. intros Hs Hn.
    by apply (adopt_keyed it v p); [..|apply K2|]. }
  destruct (hasWindow _ _ _ _); [by injection H as <- _|]. destruct (insertGrant _ _) as [s2 n] eqn:Ei. injection H as <- _. change s2 with (s2, n).1. rewrite <- Ei.
  apply rows_insert; [done|done|]. exists v, it. split_and!; [done|done|done|]. right. split; [unfold lifetimeItem; by rewrite Eu|]. exists a, (Some b), p, a.
  split_and!; [done|done|unfold opened; rewrite Hsp; by exists b|done|lia| |done]. intros b' [= <-]. exists b. by split; [|lia].
Qed.

Lemma rows_resets sub now s s' res : rows_ok (lg_rows s) -> period (periodStart sub, periodEnd sub) -> modern now ->
  materializeSubscriptionResetAllocations items billing sub now s = Ok (s', res) -> rows_ok (lg_rows s').
Proof using Hcat Hperiods.
  intros Hok Hp Hnow. unfold materializeSubscriptionResetAllocations. destruct (sb_version sub) as [v|]; [|by intros [= <- _]].
  destruct (periodEnd sub) as [e|] eqn:Ee; [|by intros [= <- _]]. destruct (runs now sub) eqn:Er; [|by intros [= <- _]]. cbn [negb orb].
  destruct (bool_decide _); [by intros [= <- _]|]. destruct (runs_spec sub now Er) as (e' & Ee' & Hin). rewrite Ee in Ee'. injection Ee' as <-.
  assert (Hall : forall it, it ∈ sortBy itemBefore (splitItems items billing sub v) -> it ∈ allocationItems items v /\ resetSplits billing it (periodStart sub) (Some e) = true).
  { intros it Hit. rewrite (sortBy_perm itemBefore) in Hit. apply splitItems_spec in Hit. by rewrite Ee in Hit. }
  revert Hall s Hok. generalize (sortBy itemBefore (splitItems items billing sub v)) ({| pr_granted := 0; pr_transitioned := 0 |}).
  intros l. induction l as [|it l IH]; intros r0 Hall s Hok H; cbn [foldM] in H; [by injection H as <- _|]. apply bind_Ok in H as ([s1 r1] & E & H).
  destruct (Hall it ltac:(by left)) as [Hit Hsp]. refine (IH r1 _ s1 _ H); [intros x Hx; apply Hall; by right|].
  by eapply (rows_window (sb_entity sub) now (periodStart sub, Some e) e s r0 it v).
Qed.

Lemma rows_close rv status now s : rows_ok (lg_rows s) -> rows_ok (lg_rows (closeVersion items rv status now s)).
Proof using.
  intros Hok. unfold closeVersion. set (s1 := if bool_decide (status = refunded) || bool_decide (status = revoked) then _ else s). assert (H1 : rows_ok (lg_rows s1)).
  { subst s1. destruct (bool_decide _ || bool_decide _); [|done]. apply (rows_reshaped (lg_rows s)); [done|]. by apply reshaped_map. }
  destruct (outgoingVersion rv); [|done]. apply (rows_reshaped (lg_rows s1)); [done|apply end_shape].
Qed.

Lemma rows_fund sub changes rv input now s n s' : rows_ok (lg_rows s) -> period (si_start input, si_end input) ->
  period (periodStart sub, periodEnd sub) -> modern now ->
  fundVersion items billing nc sub changes rv input now s = Ok (n, s') -> rows_ok (lg_rows s').
Proof using Hcat Hperiods.
  intros Hok Hp Hstored Hnow H. unfold fundVersion in H. apply bind_Ok in H as (u & _ & H).
  set (s1 := match outgoingVersion rv with Some o => _ | None => s end) in H.
  assert (H1 : rows_ok (lg_rows s1)) by (subst s1; destruct (outgoingVersion rv); [by apply rows_levels|done]). clearbody s1.
  pose proof (rows_period (sb_entity sub) (rv_version rv) now (si_start input, si_end input) s1 H1 Hp) as H2. cbn [fst snd] in H2.
  destruct (grantPeriod _ _ _ _ _ _ _ _ s1) as [s2 n2]. apply bind_Ok in H as ([s3 windows] & E3 & H).
  assert (H3 : rows_ok (lg_rows s3)) by (eapply (rows_resets sub now s2); [done|done|done|exact E3]).
  apply bind_Ok in H as (s4 & E4 & H). injection H as _ <-. destruct (outgoingVersion rv); [|by injection E4 as <-].
  apply (rows_reshaped (lg_rows s3)); [done|by eapply switch_shape].
Qed.

Record funded_ok (st : SyncState) : Prop := {
  fo_period : period (periodStart (ss_subscription st), periodEnd (ss_subscription st));
  fo_rows : rows_ok (lg_rows (ss_ledger st)) }.

Lemma funded_sync sub input now n st st' : funded_ok st -> modern now -> period (si_start input, si_end input) ->
  period (periodStart sub, periodEnd sub) ->
  materializeSubscriptionAllocations items billing nc base catalog subscription input now (setSubscription sub st) = Ok (n, st') -> funded_ok st'.
Proof using Hcat Hperiods.
  intros [_ Hrows] Hnow Hp Hstored H. unfold materializeSubscriptionAllocations in H. destruct (resolveSubscriptionPlanVersion _ _ _ _ _) as [rv|].
  2:{ injection H as _ <-. by split. }
  cbn [ss_subscription ss_changes ss_ledger ss_account setSubscription] in H. set (sub' := if rv_changed rv then _ else sub) in H.
  assert (Hp' : period (periodStart sub', periodEnd sub')) by (subst sub'; by destruct (rv_changed rv)).
  destruct (fundsAllocations _); cbn [negb] in H.
  - apply bind_Ok in H as ([g s] & E & H). injection H as _ <-. split; [done|]. by eapply rows_fund.
  - injection H as _ <-. split; [done|]. by apply rows_close.
Qed.

Lemma funding_ok st st' : funded_ok st -> funding items billing nc base catalog subscription period st st' -> funded_ok st'.
Proof using Hcat Hperiods.
  intros Hok H. destruct H as [st sub input now n st' Hn Hp H1 _ H|st now s' res Hn H|st changes account s' H].
  - by eapply funded_sync.
  - destruct Hok as [Hp Hrows]. split; [done|]. by eapply rows_resets.
  - destruct Hok as [Hp Hrows]. split; [done|]. by eapply rows_reshaped.
Qed.

(** The subscription before its first sync: no allowance of a plan. *)
Definition unfunded (st : SyncState) : Prop :=
  period (periodStart (ss_subscription st), periodEnd (ss_subscription st)) /\ forall r, r ∈ lg_rows (ss_ledger st) -> al_source r <> source_subscription.

Lemma reached_ok st st' : unfunded st -> rtc (funding items billing nc base catalog subscription period) st st' -> funded_ok st'.
Proof using Hcat Hperiods.
  intros [Hp Hrows] H. assert (Hok : funded_ok st).
  { split; [done|]. split; [rewrite planKeys_other by done; apply NoDup_nil_2|]. intros r Hr Hs. by apply Hrows in Hr. }
  clear Hp Hrows. induction H as [|x y z Hxy _ IH]; [done|]. apply IH. by eapply funding_ok.
Qed.

Lemma covers_spec r t : covers r t = true -> exists a, al_start r = Some a /\ a <= t /\ forall b, al_end r = Some b -> t < b.
Proof using.
  unfold covers. intros [H1 H2]%andb_true_iff. destruct (al_start r) as [a|]; [|done]. exists a. split_and!; [done|by apply Z.leb_le|].
  intros b E. rewrite E in H2. by apply Z.ltb_lt.
Qed.
End Funding.

(** An allowance granted for a reported period, or for a reset window in it. *)
Definition grantedFor (items : list CatalogItem) (billing : Z -> option Cadence) (p : Period) (r : Allocation) : Prop :=
  exists v it a e, it ∈ allocationItems items v /\ al_key r = Some (period_key (it_id it) a e) /\ opened billing it p a e.

(** C27: two allowances of one item cover one instant only where two reported periods do.  However
    often a provider reports a subscription, in periods of this era that end after they start,
    stale reports included, in whatever order syncs, passes
    of the worker, uses, changes of plan and reversals come, and whichever of them grants first, an
    item's consumable feature is granted once for each period, once for each reset window in it, or
    once for life: if two allowances cover an instant, each was granted for another period, and both
    periods contain the instant.  So there is one at a time wherever the provider's periods do not
    overlap; Google's do, whose renewals all start at the first start, and there a renewal synced
    before the running period ends leaves two live allowances (a reported finding). *)
Theorem one_allowance_at_a_time items billing nc base catalog subscription period st0 st i j r q t
  (Hcat : items_ok items) (Hperiods : periods_ok period) (Hnew : unfunded period st0)
  (Hst : rtc (funding items billing nc base catalog subscription period) st0 st)
  (Hne : i <> j) (Hi : lg_rows (ss_ledger st) !! i = Some r) (Hj : lg_rows (ss_ledger st) !! j = Some q)
  (Hr : al_source r = source_subscription) (Hq : al_source q = source_subscription)
  (Hitem : al_item r = al_item q) (Hfeature : al_feature r = al_feature q) (Hconsumable : nc (al_feature r) = false)
  (Hcr : covers r t = true) (Hcq : covers q t = true) :
  exists p p', p <> p' /\ period p /\ period p' /\ grantedFor items billing p r /\ grantedFor items billing p' q /\ inside p t /\ inside p' t.
Proof.
  apply covers_spec in Hcr as (a & Ha & Hat & He). apply covers_spec in Hcq as (a' & Ha' & Hat' & He').
  pose proof (reached_ok items billing nc base catalog subscription period Hcat Hperiods st0 st Hnew Hst) as [_ Hok].
  pose proof (planKeys_positions _ i j r q (ro_keys _ _ _ _ _ Hok) Hne Hi Hj Hr Hq) as Hkeys. rewrite Hfeature in Hkeys.
  destruct (ro_keyed _ _ _ _ _ Hok r) as (v & it & Hit & I1 & _ & K); [by eapply list_elem_of_lookup_2|done|done|].
  destruct (ro_keyed _ _ _ _ _ Hok q) as (v' & it' & Hit' & I1' & _ & K'); [by eapply list_elem_of_lookup_2|done|congruence|].
  assert (it' = it) as -> by (apply (item_unique items Hcat v' v); [done|done|congruence]).
  destruct K as [(L & K & _)|(L & x & e & p & s & K & Hp & Ho & X & Hxs & E & _)],
    K' as [(L' & K' & _)|(L' & x' & e' & p' & s' & K' & Hp' & Ho' & X' & Hxs' & E' & _)]; [congruence..|].
  rewrite Ha in X. injection X as <-. rewrite Ha' in X'. injection X' as <-.
  assert (T : forall b, e = Some b -> t < b) by (intros b Eb; destruct (E b Eb) as (b' & Eb' & ?); specialize (He b' Eb'); lia).
  assert (T' : forall b, e' = Some b -> t < b) by (intros b Eb; destruct (E' b Eb) as (b' & Eb' & ?); specialize (He' b' Eb'); lia).
  exists p, p'. split_and!; [|done|done|by exists v, it, x, e|by exists v, it, x', e'| |].
  - intros <-. destruct (opened_once items billing period Hcat Hperiods it v p x e x' e' t) as [<- <-]; [done|done|done|done|lia|done|lia|done|]. congruence.
  - apply (opened_inside items billing period Hcat Hperiods it v p x e t); [done|done|done|lia|done].
  - apply (opened_inside items billing period Hcat Hperiods it v p' x' e' t); [done|done|done|lia|done].
Qed.

(** ** A pass opens every window *)

(** What the catalog accepts of an item's expiry: an interval, or a number of seconds. *)
Definition expiry_ok (it : PlanGrants.PlanItem) : Prop :=
  (forall u, it_expiry it = Some u -> cadence_ok (storedCadence u (it_expiry_count it))) /\ forall n, it_expires_after it = Some n -> 0 <= n.

Lemma windowExpires_ok it a b : expiry_ok it -> modern a -> exists x, windowExpires it a b = Ok x.
Proof.
  intros [Hu Hn] Ha. unfold windowExpires, PlanGrants.storedExpiresAt. destruct (it_expiry it) as [u|].
  - specialize (Hu u eq_refl). unfold addCadenceOwnDay. cbn [mbind option_bind]. rewrite (addCadence_grid a _ 1 (getUTCDate a) a); [|done|done|done|apply anchor_own|done|].
    + cbn [dateLt]. destruct (_ <? _); by eexists.
    + pose proof (canonical_bounds _ Hu). unfold hourMs. destruct (canonicalCadence _); lia.
  - destruct (it_expires_after it) as [n|]; [|by eexists]. specialize (Hn n eq_refl). cbn [mbind option_bind].
    rewrite clip_modern by (unfold modern, maxExpirySeconds in *; lia). cbn [dateLt]. destruct (_ <? _); by eexists.
Qed.

Section Pass.
Context (items : list CatalogItem) (billing : Z -> option Cadence) (Hcat : items_ok items).
Context (sub : Subscription) (version now e : Z) (Hversion : sb_version sub = Some version) (Hend : periodEnd sub = Some e).
Context (Hrun : periodStart sub <= now < e) (Hstart : modern (periodStart sub)) (Hnow : modern now).

(** The window of a split item, and that nothing refuses it. *)
Lemma windowOf_ok it u : it ∈ splitItems items billing sub version -> it_reset it = Some u -> expiry_ok it -> (entityScoped it = true -> sb_entity sub <> None) ->
  exists a b x, windowOf (sb_entity sub) (periodStart sub) e now it u = Ok (a, b, x) /\ periodStart sub <= a <= now /\ now < b <= e /\
    planGrantWindowBounds (Some (periodStart sub)) (Some (Some e)) (storedCadence u (Some (it_reset_count it))) now = Ok (Some a, Some b).
Proof using Hcat Hrun Hstart Hnow.
  intros [Hit Hsp]%splitItems_spec Hu Hx Hentity. pose proof (item_cadence items Hcat version it u Hit Hu) as Hcad.
  destruct (planGrantWindow_cell (periodStart sub) e _ now now ltac:(lia) Hcad Hstart Hnow Hnow) as (a & b & E & H1 & H2 & H3 & _). specialize (H3 Hrun).
  destruct (windowExpires_ok it a b Hx) as [x Ex]; [unfold modern in *; lia|]. exists a, b, x. split_and!; [|lia..|done].
  unfold windowOf. rewrite E. cbn [mbind result_bind toISOString]. destruct (entityScoped it) eqn:Es; cbn [andb throwWhen mbind result_bind].
  - rewrite bool_decide_false by (by apply Hentity). cbn [throwWhen mbind result_bind]. by rewrite Ex.
  - by rewrite Ex.
Qed.

Lemma windows_succeed entity start endAt l st : (forall it u, it ∈ l -> it_reset it = Some u -> exists w, windowOf entity start endAt now it u = Ok w) ->
  exists s' res, foldM (grantWindow entity start endAt now) l st = Ok (s', res).
Proof using.
  revert st. induction l as [|it l IH]; intros [s res] H; [by eexists _, _|]. cbn [foldM]. rewrite grantWindow_eq. destruct (it_reset it) as [u|] eqn:Eu.
  - destruct (H it u) as ([[a b] x] & Ew); [by left|done|]. rewrite Ew. cbn [mbind result_bind]. apply IH. intros y v Hy. apply H. by right.
  - cbn [mbind result_bind]. apply IH. intros y v Hy. apply H. by right.
Qed.

(** The window's allowance covers it, and is not the whole of a period with resets in it. *)
Lemma window_covers it u a b r : it ∈ splitItems items billing sub version -> it_reset it = Some u -> a <= now < b ->
  planGrantWindowBounds (Some (periodStart sub)) (Some (Some e)) (storedCadence u (Some (it_reset_count it))) now = Ok (Some a, Some b) ->
  ofItem it r = true -> al_start r = Some a -> al_end r = Some b -> coversWindow sub now it r = true.
Proof using Hcat Hend Hrun Hstart Hnow.
  intros [Hit Hsp]%splitItems_spec Hu Hab Hw Hof Ha Hb. unfold coversWindow. rewrite Hof, Ha, Hb, Hu, Hend. rewrite (proj2 (Z.leb_le a now)), (proj2 (Z.ltb_lt now b)) by lia.
  cbn [andb]. apply negb_true_iff, not_true_is_false. rewrite !andb_true_iff, Z.eqb_eq, bool_decide_eq_true. intros [[-> [= ->]] Hlt].
  rewrite (planGrantWindow_whole (periodStart sub) e _ now) in Hlt; [done|lia|by eapply item_cadence|done|done|done].
Qed.
End Pass.

(** C29: a pass of the worker opens the reset window of every item.  While a subscription runs whose
    provider reports periods that do not overlap (Google's do), whose items that reset within the
    billing period are all of consumable features, with an expiry the catalog accepts and, if they
    are entity-scoped, an entity to go to, the pass succeeds, and afterwards every such item has the
    allowance of the window now open, whatever happened to the subscription before; the subscription
    is not due again, now or later, until one of those windows ends. *)
Theorem pass_opens_every_window items billing nc base catalog subscription period st0 st version now
  (Hcat : items_ok items) (Hperiods : periods_ok period) (Hapart : apart period) (Hnew : unfunded period st0)
  (Hst : rtc (funding items billing nc base catalog subscription period) st0 st)
  (Hversion : sb_version (ss_subscription st) = Some version) (Hruns : runs now (ss_subscription st) = true) (Hnow : modern now)
  (Hitems : forall it, it ∈ splitItems items billing (ss_subscription st) version ->
     nc (it_feature it) = false /\ expiry_ok it /\ (entityScoped it = true -> sb_entity (ss_subscription st) <> None)) :
  exists s' res, materializeSubscriptionResetAllocations items billing (ss_subscription st) now (ss_ledger st) = Ok (s', res) /\
    (forall it u a b, it ∈ splitItems items billing (ss_subscription st) version -> it_reset it = Some u ->
       planGrantWindowBounds (Some (periodStart (ss_subscription st))) (Some (periodEnd (ss_subscription st))) (storedCadence u (Some (it_reset_count it))) now = Ok (Some a, Some b) ->
       a <= now < b /\ exists r, r ∈ lg_rows s' /\ ofItem it r = true /\ al_start r = Some a /\ al_end r = Some b) /\
    (forall later, now <= later -> modern later ->
       (forall it u a b, it ∈ splitItems items billing (ss_subscription st) version -> it_reset it = Some u ->
          planGrantWindowBounds (Some (periodStart (ss_subscription st))) (Some (periodEnd (ss_subscription st))) (storedCadence u (Some (it_reset_count it))) now = Ok (Some a, Some b) -> later < b) ->
       dueSubscription items billing later (ss_subscription st) s' = false).
Proof.
  pose proof (reached_ok items billing nc base catalog subscription period Hcat Hperiods st0 st Hnew Hst) as [Hp Hok].
  destruct st as [sub changes account s]. cbn [ss_subscription ss_ledger] in *. destruct (runs_spec sub now Hruns) as (e & Ee & Hin).
  pose proof (po_modern _ Hperiods _ Hp) as Hm. cbn [fst] in Hm. set (l := sortBy itemBefore (splitItems items billing sub version)).
  assert (Hl : forall it, it ∈ l <-> it ∈ splitItems items billing sub version) by (intros it; unfold l; by rewrite (sortBy_perm itemBefore)).
  assert (Hw : forall it u, it ∈ l -> it_reset it = Some u -> exists a b x, windowOf (sb_entity sub) (periodStart sub) e now it u = Ok (a, b, x) /\ periodStart sub <= a <= now /\ now < b <= e /\
    planGrantWindowBounds (Some (periodStart sub)) (Some (Some e)) (storedCadence u (Some (it_reset_count it))) now = Ok (Some a, Some b)).
  { intros it u Hit Hu. apply Hl in Hit. destruct (Hitems it Hit) as (_ & ? & ?). by apply (windowOf_ok items billing Hcat sub version now e). }
  destruct (windows_succeed now (sb_entity sub) (periodStart sub) e l (s, {| pr_granted := 0; pr_transitioned := 0 |})) as (s' & res & Hfold).
  { intros it u Hit Hu. destruct (Hw it u Hit Hu) as (a & b & x & E & _). by eexists. }
  exists s', (if bool_decide (splitItems items billing sub version = []) then {| pr_granted := 0; pr_transitioned := 0 |} else res).
  assert (Hmat : materializeSubscriptionResetAllocations items billing sub now s =
    Ok (s', if bool_decide (splitItems items billing sub version = []) then {| pr_granted := 0; pr_transitioned := 0 |} else res)).
  { unfold materializeSubscriptionResetAllocations. rewrite Hversion, Ee, Hruns. cbn [negb orb]. case_bool_decide as El; [|done].
    unfold l in Hfold. rewrite El in Hfold. cbn in Hfold. by injection Hfold as -> _. }
  pose proof (rows_resets items billing nc period Hcat Hperiods sub now s s' _ Hok Hp Hnow Hmat) as Hok'.
  assert (Hcov : forall it u a b, it ∈ splitItems items billing sub version -> it_reset it = Some u ->
    planGrantWindowBounds (Some (periodStart sub)) (Some (Some e)) (storedCadence u (Some (it_reset_count it))) now = Ok (Some a, Some b) ->
    a <= now < b /\ exists r, r ∈ lg_rows s' /\ ofItem it r = true /\ al_start r = Some a /\ al_end r = Some b).
  { intros it u a b Hit Hu Hb. destruct (Hw it u) as (a' & b' & x & Ew & H1 & H2 & H3); [by apply Hl|done|]. rewrite Hb in H3. injection H3 as <- <-. split; [lia|].
    destruct (windows_done _ _ _ _ _ _ _ _ _ Hfold (splitItems_sorted_ids items billing Hcat sub version) it u) as (a' & b' & x' & Ew' & _ & Hd); [by apply Hl|done|].
    rewrite Ew in Ew'. injection Ew' as <- <- <-. destruct Hd as [Hd|Hd]; [by apply hasWindow_spec|].
    apply grantTaken_spec in Hd as (r & Hr & K1 & K2 & K3). unfold windowRow, grantRow in K1, K2, K3. cbn in K1, K2, K3.
    destruct (Hitems it Hit) as (Hn & _). destruct (ro_keyed _ _ _ _ _ Hok' r Hr K2 ltac:(congruence)) as (v & it' & Hit' & I1 & _ & [(_ & K & _)|(_ & x1 & x2 & p & x3 & K & _ & _ & X1 & _ & _ & Hex)]); [congruence|].
    destruct (Hex Hapart) as [-> X2].
    rewrite K3 in K. injection K as Ei <- <-. exists r. split_and!; [done|apply ofItem_spec; split; congruence|done|done]. }
  split; [done|]. split; [by rewrite Ee|]. intros later Hle Hlater Hbefore. rewrite Ee in Hbefore.
  unfold dueSubscription. destruct (runs later sub) eqn:Hrl; [|done]. rewrite Hversion. cbn [andb].
  destruct (runs_spec sub later Hrl) as (e' & Ee' & Hin'). rewrite Ee in Ee'. injection Ee' as <-.
  apply not_true_is_false. intros (it & Hit%list_elem_of_In & Hno)%existsb_exists.
  assert (Hu : exists u, it_reset it = Some u).
  { apply splitItems_spec in Hit as [_ Hsp]. unfold resetSplits in Hsp. destruct (it_reset it) as [u|]; [by exists u|done]. }
  destruct Hu as [u Hu]. destruct (Hw it u) as (a & b & x & _ & H1 & H2 & H3); [by apply Hl|done|]. destruct (Hcov it u a b Hit Hu H3) as (_ & r & Hr & Hof & Ha & Hb).
  pose proof (Hbefore it u a b Hit Hu H3) as Hlb. apply negb_true_iff in Hno. apply (existsb_false_in _ _ r) in Hno; [|done]. cbn beta in Hno.
  pose proof (item_cadence items Hcat version it u (proj1 (proj1 (splitItems_spec _ _ _ _ _) Hit)) Hu) as Hcad.
  destruct (planGrantWindow_cell (periodStart sub) e _ now later ltac:(lia) Hcad Hm Hnow Hlater) as (a' & b' & E & _ & _ & _ & _ & _ & Hsame).
  rewrite H3 in E. injection E as <- <-. specialize (Hsame ltac:(lia)).
  rewrite (window_covers items billing Hcat sub version later e Ee Hin' Hm Hlater it u a b r Hit Hu) in Hno; [done|lia|done..].
Qed.

(** ** The first two months of a yearly subscription *)

Definition fresh : SyncState :=
  {| ss_subscription := subscribed; ss_changes := []; ss_account := PlanGrants.emptyAccount; ss_ledger := CarryOver.emptyLedger |}.
Definition theYear (p : Period) : Prop := p = (january, Some (dayOfYear 365)).
Definition synced : SyncState := stateOf (syncAt (dayOfYear 10) (snapshot 101 101) fresh).
Definition passAt (now : Z) (st : SyncState) : result (Ledger * PeriodResult) :=
  materializeSubscriptionResetAllocations CarryOver.twoVersions yearly (ss_subscription st) now (ss_ledger st).
Definition passedLedger : Ledger := match passAt (dayOfYear 40) synced with Ok (s, _) => s | Err _ => ss_ledger synced end.
Definition passed : SyncState := setLedger passedLedger synced.

Example february_opened :
  dueSubscription CarryOver.twoVersions yearly (dayOfYear 40) (ss_subscription synced) (ss_ledger synced) = true /\
  map (fun r => (al_item r, al_start r, al_end r)) (lg_rows (ss_ledger passed)) =
    [(Some 101, Some january, Some (dayOfYear 31)); (Some 101, Some (dayOfYear 31), Some (dayOfYear 59))].
Proof. split; vm_compute; reflexivity. Qed.

Lemma theYear_ok : periods_ok theYear.
Proof.
  split.
  - intros p ->. unfold modern, january. cbn. lia.
  - intros p e -> [= <-]. unfold dayOfYear, january. cbn. lia.
Qed.

Lemma fresh_unfunded : unfunded theYear fresh.
Proof. split; [done|]. intros r Hr. exact (False_ind _ (proj1 (elem_of_nil r) Hr)). Qed.

Definition fundingSteps : relation SyncState := rtc (funding CarryOver.twoVersions yearly noLevels (fun _ => true) SubscriptionChanges.twoVersions 7 theYear).

Lemma modern_day n : 0 <= n <= 1000 -> modern (dayOfYear n).
Proof. unfold modern, dayOfYear, january. lia. Qed.

Lemma synced_reached : fundingSteps fresh synced.
Proof.
  apply rtc_once. assert (E : syncAt (dayOfYear 10) (snapshot 101 101) (setSubscription subscribed fresh) = Ok (1%nat, synced)) by (vm_compute; reflexivity).
  refine (funding_sync _ _ _ _ _ _ _ fresh subscribed (snapshot 101 101) (dayOfYear 10) 1 synced (modern_day 10 _) _ _ _ E); [lia|done..].
Qed.

Lemma passed_reached : fundingSteps fresh passed.
Proof.
  eapply rtc_r; [exact synced_reached|]. assert (E : exists res, passAt (dayOfYear 40) synced = Ok (passedLedger, res)) by (eexists; vm_compute; reflexivity).
  destruct E as [res E]. unfold passed. apply (funding_resets _ _ _ _ _ _ _ synced (dayOfYear 40) passedLedger res); [apply modern_day; lia|exact E].
Qed.

Definition firstRow : Allocation := nth 0 (lg_rows passedLedger) januaryRow.
Definition secondRow : Allocation := nth 1 (lg_rows passedLedger) januaryRow.

Lemma theYear_apart : apart theYear.
Proof. by intros p q t -> ->. Qed.

(** *** A monthly subscription that Google renews a day early *)

(** Each renewal is reported from the first start. *)
Definition monthlyBilling (version : Z) : option Cadence := Some (storedCadence month (Some 1)).
Definition untilDay (n : Z) : Subscription * SnapshotInput :=
  ({| sb_version := Some 1; sb_revision := Some 1; sb_entity := None; sb_status := SubscriptionChanges.active; sb_starts := january;
      sb_period_start := Some january; sb_period_end := Some (dayOfYear n); sb_expires := None |},
   {| si_sync := si_sync (snapshot 101 101); si_status := SubscriptionChanges.active; si_start := january; si_end := Some (dayOfYear n) |}).
Definition reportedUntil (n now : Z) (st : SyncState) : result (nat * SyncState) :=
  materializeSubscriptionAllocations CarryOver.twoVersions monthlyBilling noLevels (fun _ => true) SubscriptionChanges.twoVersions 7
    (untilDay n).2 now (setSubscription (untilDay n).1 st).
Definition googleFirst : SyncState := stateOf (reportedUntil 31 (dayOfYear 1) fresh).
Definition googleRenewed : SyncState := stateOf (reportedUntil 59 (dayOfYear 30) googleFirst).
Definition googleFirstRow : Allocation := nth 0 (lg_rows (ss_ledger googleRenewed)) januaryRow.
Definition googleNextRow : Allocation := nth 1 (lg_rows (ss_ledger googleRenewed)) januaryRow.

(** Two allowances of the item are live on the last day of January. *)
Example google_renewal_overlaps :
  map (fun r => (al_item r, al_start r, al_end r, funded (dayOfYear 30) r)) (lg_rows (ss_ledger googleRenewed)) =
    [(Some 101, Some january, Some (dayOfYear 31), true); (Some 101, Some january, Some (dayOfYear 59), true)].
Proof. vm_compute. reflexivity. Qed.

Definition googlePeriods (p : Period) : Prop := p = (january, Some (dayOfYear 31)) \/ p = (january, Some (dayOfYear 59)).

Lemma googlePeriods_ok : periods_ok googlePeriods.
Proof.
  split.
  - intros p [ -> | ->]; unfold modern, january; cbn; lia.
  - intros p e [ -> | ->] [= <-]; unfold dayOfYear, january; cbn; lia.
Qed.

Lemma google_reached : rtc (funding CarryOver.twoVersions monthlyBilling noLevels (fun _ => true) SubscriptionChanges.twoVersions 7 googlePeriods)
  (setSubscription (untilDay 31).1 fresh) googleRenewed.
Proof.
  assert (E1 : reportedUntil 31 (dayOfYear 1) (setSubscription (untilDay 31).1 fresh) = Ok (1%nat, googleFirst)) by (vm_compute; reflexivity).
  assert (E2 : reportedUntil 59 (dayOfYear 30) googleFirst = Ok (1%nat, googleRenewed)) by (vm_compute; reflexivity).
  eapply rtc_l; [|eapply rtc_l; [|apply rtc_refl] ].
  - refine (funding_sync _ _ _ _ _ _ _ _ (untilDay 31).1 (untilDay 31).2 (dayOfYear 1) 1 googleFirst (modern_day 1 _) _ _ _ E1); [lia|by left|by left|done].
  - refine (funding_sync _ _ _ _ _ _ _ _ (untilDay 59).1 (untilDay 59).2 (dayOfYear 30) 1 googleRenewed (modern_day 30 _) _ _ _ E2); [lia|by right|by right|].
    vm_compute. reflexivity.
Qed.

Lemma one_allowance_at_a_time_witness :
  (exists p p', p <> p' /\ googlePeriods p /\ googlePeriods p' /\ grantedFor CarryOver.twoVersions monthlyBilling p googleFirstRow /\
     grantedFor CarryOver.twoVersions monthlyBilling p' googleNextRow) /\
  fundingSteps fresh passed /\ covers firstRow (dayOfYear 10) = true /\ covers secondRow (dayOfYear 40) = true /\
    ~ (covers firstRow (dayOfYear 40) = true /\ covers secondRow (dayOfYear 40) = true).
Proof.
  split.
  { assert (H0 : lg_rows (ss_ledger googleRenewed) !! 0%nat = Some googleFirstRow) by (vm_compute; reflexivity).
    assert (H1 : lg_rows (ss_ledger googleRenewed) !! 1%nat = Some googleNextRow) by (vm_compute; reflexivity).
    assert (U : unfunded googlePeriods (setSubscription (untilDay 31).1 fresh)) by (split; [by left|intros r Hr; exact (False_ind _ (proj1 (elem_of_nil r) Hr))]).
    assert (Hr : al_source googleFirstRow = source_subscription) by (vm_compute; reflexivity).
    assert (Hq : al_source googleNextRow = source_subscription) by (vm_compute; reflexivity).
    assert (Hi : al_item googleFirstRow = al_item googleNextRow) by (vm_compute; reflexivity).
    assert (Hf : al_feature googleFirstRow = al_feature googleNextRow) by (vm_compute; reflexivity).
    assert (C1 : covers googleFirstRow (dayOfYear 30) = true) by (vm_compute; reflexivity).
    assert (C2 : covers googleNextRow (dayOfYear 30) = true) by (vm_compute; reflexivity).
    destruct (one_allowance_at_a_time CarryOver.twoVersions monthlyBilling noLevels (fun _ => true) SubscriptionChanges.twoVersions 7 googlePeriods _ googleRenewed
      0 1 googleFirstRow googleNextRow (dayOfYear 30) twoVersions_items_ok googlePeriods_ok U google_reached (Nat.neq_0_succ 0) H0 H1 Hr Hq Hi Hf eq_refl C1 C2)
      as (p & p' & A & B & C & D & E & _). exists p, p'. done. }
  split; [exact passed_reached|]. split; [vm_compute; reflexivity|]. split; [vm_compute; reflexivity|].
  assert (H0 : lg_rows (ss_ledger passed) !! 0%nat = Some firstRow) by (vm_compute; reflexivity).
  assert (H1 : lg_rows (ss_ledger passed) !! 1%nat = Some secondRow) by (vm_compute; reflexivity).
  assert (Hr : al_source firstRow = source_subscription) by (vm_compute; reflexivity).
  assert (Hq : al_source secondRow = source_subscription) by (vm_compute; reflexivity).
  assert (Hi : al_item firstRow = al_item secondRow) by (vm_compute; reflexivity).
  assert (Hf : al_feature firstRow = al_feature secondRow) by (vm_compute; reflexivity).
  intros [C1 C2]. destruct (one_allowance_at_a_time CarryOver.twoVersions yearly noLevels (fun _ => true) SubscriptionChanges.twoVersions 7 theYear fresh passed 0 1 firstRow secondRow (dayOfYear 40)
    twoVersions_items_ok theYear_ok fresh_unfunded passed_reached (Nat.neq_0_succ 0) H0 H1 Hr Hq Hi Hf eq_refl C1 C2) as (p & p' & A & B & C & _ & _ & D & E).
  exact (A (theYear_apart p p' _ B C D E)).
Defined.

Lemma pass_opens_every_window_witness :
  exists s res, passAt (dayOfYear 40) synced = Ok (s, res) /\
    dueSubscription CarryOver.twoVersions yearly (dayOfYear 58) (ss_subscription synced) s = false /\
    dueSubscription CarryOver.twoVersions yearly (dayOfYear 59) (ss_subscription synced) s = true.
Proof.
  assert (Hv : sb_version (ss_subscription synced) = Some 1) by (vm_compute; reflexivity).
  assert (Hr : runs (dayOfYear 40) (ss_subscription synced) = true) by (vm_compute; reflexivity).
  assert (Hs : splitItems CarryOver.twoVersions yearly (ss_subscription synced) 1 = [ci_item (monthly 101 1)]) by (vm_compute; reflexivity).
  assert (Hi : forall it, it ∈ splitItems CarryOver.twoVersions yearly (ss_subscription synced) 1 ->
    noLevels (it_feature it) = false /\ expiry_ok it /\ (entityScoped it = true -> sb_entity (ss_subscription synced) <> None)).
  { intros it Hit. rewrite Hs in Hit. apply list_elem_of_singleton in Hit. rewrite Hit. split; [reflexivity|]. split; [|intros H; discriminate H].
    split; [intros u H; discriminate H|intros n H; discriminate H]. }
  destruct (pass_opens_every_window CarryOver.twoVersions yearly noLevels (fun _ => true) SubscriptionChanges.twoVersions 7 theYear fresh synced 1 (dayOfYear 40)
    twoVersions_items_ok theYear_ok theYear_apart fresh_unfunded synced_reached Hv Hr (modern_day 40 ltac:(lia)) Hi) as (s & res & E & _ & D).
  exists s, res. split; [exact E|]. split.
  - apply D; [unfold dayOfYear; lia|apply modern_day; lia|]. intros it u a b Hit Hu Hb. rewrite Hs in Hit. apply list_elem_of_singleton in Hit. subst it.
    injection Hu as <-. vm_compute in Hb. injection Hb as <- <-. unfold dayOfYear, january. lia.
  - assert (Es : s = passedLedger) by (change (passAt (dayOfYear 40) synced = Ok (s, res)) in E; unfold passedLedger; by rewrite E). rewrite Es. vm_compute. reflexivity.
Defined.
