(* ===== verification/Adjustments.v ===== *)
(** * Operator grants and administrative debits ([src/billing/balance-adjustments.ts],
      [src/db/repository/balance-adjustments.ts])

    Support credit and clawback on one account: an operator grant gives one allocation, a
    revocation takes back what the grant still gives, and a debit takes quantity back from
    named allocations.  Every mutation carries an idempotency key bound to a hash of its
    terms.  The account is the customer's row with its allocations in every feature of the
    project (the stores of [WalletStore]), the [operator_grants], [administrative_debits]
    and [administrative_debit_allocations]; each operation is one transaction, so an error
    leaves the account. *)
From S2P Require Import Prelude Text Decimal Pricing JsDate Balances Wallet WalletStore Json.

#[local] Arguments js _ : simpl never.

(** ** Inputs *)

Definition adjustmentReasonMaxLength : Z := 500.
Definition administrativeDebitMaxAllocations : Z := 20.
(** Allocation quantities are [NUMERIC(28, 9)]. *)
Definition allocationScale : Z := 9.

Record OperatorGrantInput := {
  gi_featureKey : text; gi_quantity : text; gi_entityId : option text; gi_expiresAt : option jsdate;
  gi_reason : text; gi_actor : text; gi_idempotencyKey : text }.

Record OperatorGrantRevokeInput := {
  ri_grantId : text; ri_reason : text; ri_actor : text; ri_idempotencyKey : text }.

Record DebitLineInput := { li_allocationId : text; li_quantity : text }.
Record AdministrativeDebitInput := {
  di_allocations : list DebitLineInput; di_reason : text; di_actor : text; di_idempotencyKey : text }.

(** [[...reason].length]: a surrogate pair counts once. *)
Fixpoint codePoints (t : text) : Z :=
  match t with
  | [] => 0
  | u :: t' =>
      match t' with
      | v :: t'' => if highSurrogate u && lowSurrogate v then 1 + codePoints t'' else 1 + codePoints t'
      | [] => 1
      end
  end.

Definition requireReason (value : text) : result text :=
  let reason := trim value in
  _ ← throwWhen (bool_decide (reason = []) || (adjustmentReasonMaxLength <? codePoints reason))
        (InvalidRequest "reason must contain between 1 and 500 characters");
  Ok reason.

(** [entityId?.trim() ?? ""], blank being none. *)
Definition trimmedEntity (t : option text) : option text :=
  match t with Some t => if bool_decide (trim t = []) then None else Some (trim t) | None => None end.

Definition normalizeOperatorGrantInput (input : OperatorGrantInput) : result OperatorGrantInput :=
  let featureKey := trim (gi_featureKey input) in
  _ ← throwWhen (bool_decide (featureKey = [])) (InvalidRequest "featureKey is required");
  quantity ← canonicalDecimal (gi_quantity input) "quantity" 9;
  reason ← requireReason (gi_reason input);
  Ok {| gi_featureKey := featureKey; gi_quantity := quantity; gi_entityId := trimmedEntity (gi_entityId input);
        gi_expiresAt := gi_expiresAt input; gi_reason := reason; gi_actor := gi_actor input;
        gi_idempotencyKey := gi_idempotencyKey input |}.

Definition normalizeOperatorGrantRevokeInput (input : OperatorGrantRevokeInput) : result OperatorGrantRevokeInput :=
  reason ← requireReason (ri_reason input);
  Ok {| ri_grantId := ri_grantId input; ri_reason := reason; ri_actor := ri_actor input;
        ri_idempotencyKey := ri_idempotencyKey input |}.

(** [left.length - right.length || (left < right ? -1 : left > right ? 1 : 0)] *)
Definition compareAllocationIds (left right : text) : Z :=
  let d := Z.of_nat (length left) - Z.of_nat (length right) in
  if d =? 0 then if codeUnitLess left right then -1 else if codeUnitLess right left then 1 else 0 else d.

Definition maxBigintId : Z := 9223372036854775807.
(** [/^\d{1,19}$/.test(value) && BigInt(value) <= maxBigintId] *)
Definition isBigintId (t : text) : bool :=
  negb (bool_decide (t = [])) && forallb isDigit t && (Z.of_nat (length t) <=? 19) && (parseDigits t <=? maxBigintId).
(** [/^[1-9]\d{0,18}$/] *)
Definition positiveIntegerPattern (t : text) : bool :=
  match t with c :: rest => (49 <=? c) && (c <=? 57) && forallb isDigit rest && (Z.of_nat (length rest) <=? 18) | [] => false end.

Definition lineLess (l r : DebitLineInput) : bool := compareAllocationIds (li_allocationId l) (li_allocationId r) <? 0.

(** The loop over the sorted lines; [previous] is the line before. *)
Fixpoint checkLines (previous : option text) (lines : list DebitLineInput) : result unit :=
  match lines with
  | [] => Ok tt
  | line :: rest =>
      let id := li_allocationId line in
      _ ← throwWhen (negb (positiveIntegerPattern id) || negb (isBigintId id))
            (InvalidRequest "allocationId must be a positive integer string");
      _ ← throwWhen (bool_decide (previous = Some id)) (InvalidRequest "allocation is named more than once");
      checkLines (Some id) rest
  end.

Definition normalizeLine (line : DebitLineInput) : result DebitLineInput :=
  quantity ← canonicalDecimal (li_quantity line) "quantity" 9;
  Ok {| li_allocationId := trim (li_allocationId line); li_quantity := quantity |}.

Definition normalizeAdministrativeDebitInput (input : AdministrativeDebitInput) : result AdministrativeDebitInput :=
  _ ← throwWhen (bool_decide (di_allocations input = []) || (administrativeDebitMaxAllocations <? Z.of_nat (length (di_allocations input))))
        (InvalidRequest "allocations must name between 1 and 20 allocations");
  lines ← mapM normalizeLine (di_allocations input);
  let allocations := sortBy lineLess lines in
  _ ← checkLines None allocations;
  reason ← requireReason (di_reason input);
  Ok {| di_allocations := allocations; di_reason := reason; di_actor := di_actor input;
        di_idempotencyKey := di_idempotencyKey input |}.

(** ** Request hashes *)

(** The text of [Date.prototype.toISOString]. *)
Definition isoYear (y : Z) : text :=
  if (0 <=? y) && (y <=? 9999) then padStart (digits y) 4
  else (if y <? 0 then 45 else 43) :: padStart (digits (Z.abs y)) 6.
Definition isoString (t : Z) : text :=
  let ms := timeInDay t in
  isoYear (getUTCFullYear t) ++ 45 :: padStart (digits (getUTCMonth t + 1)) 2 ++ 45 :: padStart (digits (getUTCDate t)) 2
    ++ 84 :: padStart (digits (ms / 3600000)) 2 ++ 58 :: padStart (digits (ms / 60000 mod 60)) 2
    ++ 58 :: padStart (digits (ms / 1000 mod 60)) 2 ++ 46 :: padStart (digits (ms mod 1000)) 3 ++ [90].

Definition textOrNull (t : option text) : json := match t with Some t => JString t | None => JNull end.

(** [input.expiresAt?.toISOString() ?? null], as the instant. *)
Definition expiryInstant (d : option jsdate) : result (option Z) :=
  match d with Some d => t ← toISOString d; Ok (Some t) | None => Ok None end.

Definition grantTerms (input : OperatorGrantInput) (expiresAt : option Z) : json :=
  JObject [(js "featureKey", JString (gi_featureKey input)); (js "quantity", JString (gi_quantity input));
           (js "entityId", textOrNull (gi_entityId input)); (js "expiresAt", textOrNull (isoString <$> expiresAt));
           (js "reason", JString (gi_reason input))].
Definition revokeTerms (input : OperatorGrantRevokeInput) : json :=
  JObject [(js "grantId", JString (ri_grantId input)); (js "reason", JString (ri_reason input))].
Definition debitTerms (input : AdministrativeDebitInput) : json :=
  JObject [(js "allocations", JArray (map (fun line =>
             JObject [(js "allocationId", JString (li_allocationId line)); (js "quantity", JString (li_quantity line))])
             (di_allocations input)));
           (js "reason", JString (di_reason input))].

Section Hashes.
Context (localeCompare : text -> text -> comparison) (sha256Hex : text -> text).

Definition operatorGrantRequestHash (input : OperatorGrantInput) : result text :=
  expiresAt ← expiryInstant (gi_expiresAt input);
  Ok (sha256Hex (stableJson localeCompare (grantTerms input expiresAt))).
Definition operatorGrantRevokeRequestHash (input : OperatorGrantRevokeInput) : text :=
  sha256Hex (stableJson localeCompare (revokeTerms input)).
Definition administrativeDebitRequestHash (input : AdministrativeDebitInput) : text :=
  sha256Hex (stableJson localeCompare (debitTerms input)).
End Hashes.

(** ** Errors *)

Inductive BalanceAdjustmentErrorCode :=
  | OPERATOR_GRANT_NOT_FOUND | OPERATOR_GRANT_ALREADY_REVOKED | OPERATOR_GRANT_FEATURE_INVALID
  | ALLOCATION_NOT_FOUND | ALLOCATION_NOT_DEBITABLE | ADMINISTRATIVE_DEBIT_EXCEEDS_AVAILABLE.

(** The errors' [details] are left out. *)
Definition balanceAdjustmentError (code : BalanceAdjustmentErrorCode) : error :=
  match code with
  | OPERATOR_GRANT_NOT_FOUND => BillingErr "Operator grant was not found" "OPERATOR_GRANT_NOT_FOUND" 404
  | OPERATOR_GRANT_ALREADY_REVOKED => BillingErr "Operator grant has already been revoked" "OPERATOR_GRANT_ALREADY_REVOKED" 409
  | OPERATOR_GRANT_FEATURE_INVALID =>
      BillingErr "Operator grants give quantity of a consumable feature that usage spends only" "OPERATOR_GRANT_FEATURE_INVALID" 400
  | ALLOCATION_NOT_FOUND => BillingErr "Allocation was not found" "ALLOCATION_NOT_FOUND" 404
  | ALLOCATION_NOT_DEBITABLE => BillingErr "Allocation cannot be debited" "ALLOCATION_NOT_DEBITABLE" 409
  | ADMINISTRATIVE_DEBIT_EXCEEDS_AVAILABLE =>
      BillingErr "Debit exceeds the allocation's available quantity" "ADMINISTRATIVE_DEBIT_EXCEEDS_AVAILABLE" 409
  end.
Definition idempotencyConflict (operation : string) : error :=
  BillingErr ("Idempotency key was reused with a different " ++ operation) "IDEMPOTENCY_CONFLICT" 409.

(** ** The account's tables *)

(** A feature of the project with the account's allocations of it. *)
Record FeatureWallet := { w_feature : FeatureRow; w_active : bool; w_store : Store }.

(** An [operator_grants] row.  Its [revoked_at] and [revoked_quantity] are the columns
    settlements also write, kept in the wallet's [s_grants] under the same id. *)
Record Revocation := { rv_actor : text; rv_reason : text; rv_idempotency_key : text; rv_request_hash : text }.
Record GrantRow := {
  gr_id : Z; gr_actor : text; gr_reason : text; gr_idempotency_key : text; gr_request_hash : text;
  gr_created_at : Z; gr_revocation : option Revocation }.

Record DebitRow := {
  db_id : Z; db_actor : text; db_reason : text; db_idempotency_key : text; db_request_hash : text; db_created_at : Z }.
Record DebitLine := { dl_debit_id : Z; dl_allocation_id : Z; dl_quantity : text }.

(** [ac_purchases] is the [purchase_id] of the allocations that have one. *)
Record Account := {
  ac_billingAccountId : text; ac_entities : list (text * Z); ac_purchases : list (Z * Z);
  ac_wallets : list FeatureWallet; ac_grants : list GrantRow; ac_debits : list DebitRow; ac_lines : list DebitLine }.

Record RateCardEntry := { rce_catalog_revision_id : Z; rce_meter_feature_id : Z; rce_wallet_feature_id : Z }.
Record PlanItem := { pi_feature_id : Z; pi_item_kind : string }.
(** What [featureSpentByUsage] reads of the project's catalog. *)
Record Catalog := {
  ct_rate_card_entries : list RateCardEntry; ct_plan_items : list PlanItem; ct_published_catalog_revision_id : option Z }.

Definition set_store (w : FeatureWallet) (s : Store) : FeatureWallet :=
  {| w_feature := w_feature w; w_active := w_active w; w_store := s |}.
Definition set_wallets (a : Account) (ws : list FeatureWallet) : Account :=
  {| ac_billingAccountId := ac_billingAccountId a; ac_entities := ac_entities a; ac_purchases := ac_purchases a;
     ac_wallets := ws; ac_grants := ac_grants a; ac_debits := ac_debits a; ac_lines := ac_lines a |}.
Definition set_grants (a : Account) (gs : list GrantRow) : Account :=
  {| ac_billingAccountId := ac_billingAccountId a; ac_entities := ac_entities a; ac_purchases := ac_purchases a;
     ac_wallets := ac_wallets a; ac_grants := gs; ac_debits := ac_debits a; ac_lines := ac_lines a |}.
Definition add_debit (a : Account) (d : DebitRow) (ls : list DebitLine) : Account :=
  {| ac_billingAccountId := ac_billingAccountId a; ac_entities := ac_entities a; ac_purchases := ac_purchases a;
     ac_wallets := ac_wallets a; ac_grants := ac_grants a; ac_debits := ac_debits a ++ [d]; ac_lines := ac_lines a ++ ls |}.

(** ** Reads *)

Definition requireActiveFeature (a : Account) (key : text) : result FeatureWallet :=
  let normalizedKey := trim key in
  _ ← throwWhen (bool_decide (normalizedKey = [])) (InvalidRequest "featureKey is required");
  match List.find (fun w => bool_decide (js (f_key (w_feature w)) = normalizedKey) && w_active w) (ac_wallets a) with
  | Some w => Ok w
  | None => Err (BillingErr "Metered feature was not found" "FEATURE_NOT_FOUND" 404)
  end.

Definition featureSpentByUsage (c : Catalog) (feature : FeatureRow) : bool :=
  let wallet := existsb (fun rce => rce_wallet_feature_id rce =? f_id feature) (ct_rate_card_entries c) in
  let allocated := existsb (fun pi => (pi_feature_id pi =? f_id feature) && String.eqb (pi_item_kind pi) "allocation") (ct_plan_items c) in
  let priced := existsb (fun rce => (rce_meter_feature_id rce =? f_id feature)
                  && bool_decide (ct_published_catalog_revision_id c = Some (rce_catalog_revision_id rce))) (ct_rate_card_entries c) in
  wallet || (allocated && negb priced).

Definition resolveEntityId (a : Account) (externalEntityId : option text) : result (option Z) :=
  match trimmedEntity externalEntityId with
  | None => Ok None
  | Some normalized =>
      match List.find (fun e => bool_decide (fst e = normalized)) (ac_entities a) with
      | Some e => Ok (Some (snd e))
      | None => Err (BillingErr "Entity was not found for the billing account" "ENTITY_NOT_FOUND" 404)
      end
  end.
Definition entityExternalId (a : Account) (entity : option Z) : option text :=
  e ← entity; fst <$> List.find (fun x => snd x =? e) (ac_entities a).

Definition allocationUnits (value : dbvalue) : result Z := databaseUnits value "allocation quantity" allocationScale.

(** A numeric column of a wallet's row, as text. *)
Definition numericText (w : FeatureWallet) (n : Z) : dbvalue := DbText (unitsToDecimal n (credit_scale (w_feature w))).

(** [expires_at IS NOT NULL AND expires_at <= now()] *)
Definition expiredAt (now : Z) (al : Alloc) : bool :=
  match al_expires_at al with Some e => e <=? now | None => false end.
Definition isReversed (al : Alloc) : bool := match al_reversed_at al with Some _ => true | None => false end.

(** The first wallet that has something, with it. *)
Fixpoint firstWallet {A} (f : FeatureWallet -> option A) (ws : list FeatureWallet) : option (FeatureWallet * A) :=
  match ws with
  | [] => None
  | w :: ws' => match f w with Some x => Some (w, x) | None => firstWallet f ws' end
  end.

(** The allocation of a grant, with its feature's wallet. *)
Definition findAllocation (gid : Z) : list FeatureWallet -> option (FeatureWallet * Alloc) :=
  firstWallet (fun w => List.find (fun al => bool_decide (al_operator_grant_id al = Some gid)) (s_allocs (w_store w))).
(** An allocation by its id. *)
Definition findById (aid : Z) : list FeatureWallet -> option (FeatureWallet * Alloc) :=
  firstWallet (fun w => List.find (fun al => al_id al =? aid) (s_allocs (w_store w))).
(** [revoked_at] with [revoked_quantity]. *)
Definition findStored (gid : Z) : list FeatureWallet -> option (FeatureWallet * OperatorGrant) :=
  firstWallet (fun w => List.find (fun g => og_id g =? gid) (s_grants (w_store w))).
Definition revokedColumns (gid : Z) (ws : list FeatureWallet) : option (Z * dbvalue) :=
  '(w, g) ← findStored gid ws; revokedAt ← og_revoked_at g; Some (revokedAt, numericText w (og_revoked_quantity g)).

(** [operatorGrantSelect]: a grant joined with its allocation. *)
Record OperatorGrantRow := {
  ogr_id : Z; ogr_billing_account_id : text; ogr_feature_key : string; ogr_entity_external_id : option text;
  ogr_allocation_id : Z; ogr_quantity : dbvalue; ogr_reversed_quantity : dbvalue; ogr_consumed_quantity : dbvalue;
  ogr_held_quantity : dbvalue; ogr_expires_at : option Z; ogr_allocation_reversed : bool; ogr_expired : bool;
  ogr_actor : text; ogr_reason : text; ogr_request_hash : text; ogr_revoked_at : option Z;
  ogr_revoked_quantity : option dbvalue; ogr_revocation_actor : option text; ogr_revocation_reason : option text;
  ogr_created_at : Z }.

Definition operatorGrantRow (now : Z) (a : Account) (g : GrantRow) : option OperatorGrantRow :=
  '(w, al) ← findAllocation (gr_id g) (ac_wallets a);
  let u := al_units al in
  Some {| ogr_id := gr_id g; ogr_billing_account_id := ac_billingAccountId a; ogr_feature_key := f_key (w_feature w);
          ogr_entity_external_id := entityExternalId a (al_entity al); ogr_allocation_id := al_id al;
          ogr_quantity := numericText w (u_quantity u); ogr_reversed_quantity := numericText w (u_reversed u);
          ogr_consumed_quantity := numericText w (u_consumed u); ogr_held_quantity := numericText w (u_held u);
          ogr_expires_at := al_expires_at al; ogr_allocation_reversed := isReversed al; ogr_expired := expiredAt now al;
          ogr_actor := gr_actor g; ogr_reason := gr_reason g; ogr_request_hash := gr_request_hash g;
          ogr_revoked_at := fst <$> revokedColumns (gr_id g) (ac_wallets a);
          ogr_revoked_quantity := snd <$> revokedColumns (gr_id g) (ac_wallets a);
          ogr_revocation_actor := rv_actor <$> gr_revocation g; ogr_revocation_reason := rv_reason <$> gr_revocation g;
          ogr_created_at := gr_created_at g |}.

(** [readOperatorGrant]: the first joined row that meets a condition on the grant. *)
Definition readOperatorGrant (now : Z) (condition : GrantRow -> bool) (a : Account) : option OperatorGrantRow :=
  head (omap (operatorGrantRow now a) (List.filter condition (ac_grants a))).

Inductive OperatorGrantStatus := grant_active | grant_expired | grant_revoked.
Record RevocationRecord := { rr_actor : text; rr_reason : text; rr_revokedAt : Z; rr_revokedQuantity : text }.
Record OperatorGrantRecord := {
  rec_id : Z; rec_billingAccountId : text; rec_featureKey : string; rec_entityId : option text; rec_allocationId : Z;
  rec_quantity : text; rec_expiresAt : option Z; rec_status : OperatorGrantStatus; rec_consumedQuantity : text;
  rec_heldQuantity : text; rec_reversedQuantity : text; rec_availableQuantity : text; rec_actor : text; rec_reason : text;
  rec_createdAt : Z; rec_revocation : option RevocationRecord }.

Definition toOperatorGrantRecord (row : OperatorGrantRow) : result OperatorGrantRecord :=
  quantity ← allocationUnits (ogr_quantity row);
  reversed ← allocationUnits (ogr_reversed_quantity row);
  consumed ← allocationUnits (ogr_consumed_quantity row);
  held ← allocationUnits (ogr_held_quantity row);
  let spendable := quantity - reversed - consumed - held in
  let revoked := match ogr_revoked_at row with Some _ => true | None => false end in
  let closed := revoked || ogr_allocation_reversed row || ogr_expired row in
  let available := if closed || (spendable <? 0) then 0 else spendable in
  revocation ← (match ogr_revoked_at row, ogr_revocation_actor row, ogr_revocation_reason row, ogr_revoked_quantity row with
    | Some revokedAt, Some actor, Some reason, Some revokedQuantity =>
        n ← allocationUnits revokedQuantity;
        Ok (Some {| rr_actor := actor; rr_reason := reason; rr_revokedAt := revokedAt;
                    rr_revokedQuantity := unitsToDecimal n allocationScale |})
    | _, _, _, _ => Ok None
    end);
  Ok {| rec_id := ogr_id row; rec_billingAccountId := ogr_billing_account_id row; rec_featureKey := ogr_feature_key row;
        rec_entityId := ogr_entity_external_id row; rec_allocationId := ogr_allocation_id row;
        rec_quantity := unitsToDecimal quantity allocationScale; rec_expiresAt := ogr_expires_at row;
        rec_status := if revoked then grant_revoked else if ogr_expired row then grant_expired else grant_active;
        rec_consumedQuantity := unitsToDecimal consumed allocationScale;
        rec_heldQuantity := unitsToDecimal held allocationScale;
        rec_reversedQuantity := unitsToDecimal reversed allocationScale;
        rec_availableQuantity := unitsToDecimal available allocationScale;
        rec_actor := ogr_actor row; rec_reason := ogr_reason row; rec_createdAt := ogr_created_at row;
        rec_revocation := revocation |}.

Definition requireOperatorGrant (now gid : Z) (a : Account) : result OperatorGrantRecord :=
  match readOperatorGrant now (fun g => gr_id g =? gid) a with
  | Some row => toOperatorGrantRecord row
  | None => Err (InternalError "operator grant was not found")
  end.

(** [debitSelect] and [toDebitRecord]: a debit with its lines, by allocation. *)
Record DebitRecordLine := {
  drl_allocationId : Z; drl_featureKey : string; drl_entityId : option text; drl_sourceKind : string; drl_quantity : text }.
Record AdministrativeDebitRecord := {
  adr_id : Z; adr_billingAccountId : text; adr_actor : text; adr_reason : text; adr_createdAt : Z;
  adr_allocations : list DebitRecordLine }.

Definition debitRecordLine (a : Account) (line : DebitLine) : option (result DebitRecordLine) :=
  '(w, al) ← findById (dl_allocation_id line) (ac_wallets a);
  Some (n ← allocationUnits (DbText (dl_quantity line));
        Ok {| drl_allocationId := dl_allocation_id line; drl_featureKey := f_key (w_feature w);
              drl_entityId := entityExternalId a (al_entity al); drl_sourceKind := al_source_kind al;
              drl_quantity := unitsToDecimal n allocationScale |}).

Definition lineBefore (l r : DebitLine) : bool := dl_allocation_id l <? dl_allocation_id r.

Definition toDebitRecord (a : Account) (d : DebitRow) : result AdministrativeDebitRecord :=
  lines ← mapM id (omap (debitRecordLine a)
    (sortBy lineBefore (List.filter (fun line => dl_debit_id line =? db_id d) (ac_lines a))));
  Ok {| adr_id := db_id d; adr_billingAccountId := ac_billingAccountId a; adr_actor := db_actor d;
        adr_reason := db_reason d; adr_createdAt := db_created_at d; adr_allocations := lines |}.

Definition requireDebit (did : Z) (a : Account) : result AdministrativeDebitRecord :=
  match List.find (fun d => db_id d =? did) (ac_debits a) with
  | Some d => toDebitRecord a d
  | None => Err (InternalError "administrative debit was not found")
  end.

(** ** Mutations *)

(** Adds the allocation of a grant, and the grant's settled columns, to its feature's wallet. *)
Definition insertGrant (fid : Z) (al : Alloc) (gid : Z) (w : FeatureWallet) : FeatureWallet :=
  if f_id (w_feature w) =? fid
  then set_store w {| s_allocs := s_allocs (w_store w) ++ [al]; s_reservations := s_reservations (w_store w);
                      s_holds := s_holds (w_store w);
                      s_grants := s_grants (w_store w) ++ [ {| og_id := gid; og_revoked_quantity := 0; og_revoked_at := None |} ] |}
  else w.

Definition operatorAllocation (aid gid n : Z) (entity expiresAt : option Z) (now : Z) : Alloc :=
  {| al_id := aid; al_units := {| u_quantity := n; u_reversed := 0; u_consumed := 0; u_held := 0 |}; al_operator := true;
     al_operator_grant_id := Some gid; al_reversed_at := None; al_expires_at := expiresAt; al_created_at := now;
     al_entity := entity; al_source_kind := "operator"; al_source_key := "operator_grant:" ++ pretty gid |}.

Definition updateWallets (f : Store -> Store) (a : Account) : Account :=
  set_wallets a (map (fun w => set_store w (f (w_store w))) (ac_wallets a)).

(** [reversed_quantity = GREATEST(quantity - consumed_quantity - held_quantity, reversed_quantity)] *)
Definition revokeUnits (u : Units) : Units :=
  {| u_quantity := u_quantity u; u_reversed := Z.max (u_quantity u - u_consumed u - u_held u) (u_reversed u);
     u_consumed := u_consumed u; u_held := u_held u |}.
Definition revokeAlloc (now : Z) (al : Alloc) : Alloc :=
  {| al_id := al_id al; al_units := revokeUnits (al_units al); al_operator := al_operator al;
     al_operator_grant_id := al_operator_grant_id al;
     al_reversed_at := match al_reversed_at al with Some t => Some t | None => Some now end;
     al_expires_at := al_expires_at al; al_created_at := al_created_at al; al_entity := al_entity al;
     al_source_kind := al_source_kind al; al_source_key := al_source_key al |}.
Definition markRevoked (gid now n : Z) (s : Store) : Store :=
  {| s_allocs := s_allocs s; s_reservations := s_reservations s; s_holds := s_holds s;
     s_grants := map (fun g => if og_id g =? gid
       then {| og_id := og_id g; og_revoked_quantity := n; og_revoked_at := Some now |} else g) (s_grants s) |}.

Definition revokeRow (input : OperatorGrantRevokeInput) (requestHash : text) (g : GrantRow) : GrantRow :=
  {| gr_id := gr_id g; gr_actor := gr_actor g; gr_reason := gr_reason g; gr_idempotency_key := gr_idempotency_key g;
     gr_request_hash := gr_request_hash g; gr_created_at := gr_created_at g;
     gr_revocation := Some {| rv_actor := ri_actor input; rv_reason := ri_reason input;
       rv_idempotency_key := ri_idempotencyKey input; rv_request_hash := requestHash |} |}.

Section Mutations.
Context (localeCompare : text -> text -> comparison) (sha256Hex : text -> text) (catalog : Catalog).
(** The database's cast of a text to [uuid]. *)
Context (uuidOf : text -> option Z).

(** [grantOperatorBalance], on the account [ensureCustomer] locked or created; [gid] and
    [aid] are the ids the database generates. *)
Definition grantOperatorBalance (rawInput : OperatorGrantInput) (gid aid now : Z) (a : Account)
  : result (Account * (bool * OperatorGrantRecord)) :=
  input ← normalizeOperatorGrantInput rawInput;
  requestHash ← operatorGrantRequestHash localeCompare sha256Hex input;
  match readOperatorGrant now (fun g => bool_decide (gr_idempotency_key g = gi_idempotencyKey input)) a with
  | Some replay =>
      _ ← throwWhen (negb (bool_decide (ogr_request_hash replay = requestHash))) (idempotencyConflict "operator grant");
      grant ← toOperatorGrantRecord replay;
      Ok (a, (true, grant))
  | None =>
      w ← requireActiveFeature a (gi_featureKey input);
      let feature := w_feature w in
      _ ← throwWhen (match f_kind feature, f_meter_kind feature with
                     | fk_metered, Some mk_consumable => negb (featureSpentByUsage catalog feature)
                     | _, _ => true
                     end) (balanceAdjustmentError OPERATOR_GRANT_FEATURE_INVALID);
      quantity ← positiveDecimal (gi_quantity input) "quantity" (credit_scale feature);
      entityId ← resolveEntityId a (gi_entityId input);
      expiresAt ← expiryInstant (gi_expiresAt input);
      _ ← throwWhen (match expiresAt with Some t => negb (now <? t) | None => false end)
            (InvalidRequest "expiresAt must be in the future");
      n ← decimalToUnits quantity (credit_scale feature);
      let granted := set_grants a (ac_grants a ++
        [ {| gr_id := gid; gr_actor := gi_actor input; gr_reason := gi_reason input;
             gr_idempotency_key := gi_idempotencyKey input; gr_request_hash := requestHash; gr_created_at := now;
             gr_revocation := None |} ]) in
      let a' := set_wallets granted
        (map (insertGrant (f_id feature) (operatorAllocation aid gid n entityId expiresAt now) gid) (ac_wallets a)) in
      grant ← requireOperatorGrant now gid a';
      Ok (a', (false, grant))
  end.

(** [revokeOperatorGrant]; [account] is what [lockCustomer] finds. *)
Definition revokeOperatorGrant (rawInput : OperatorGrantRevokeInput) (now : Z) (account : option Account)
  : result (Account * (bool * OperatorGrantRecord)) :=
  input ← normalizeOperatorGrantRevokeInput rawInput;
  let requestHash := operatorGrantRevokeRequestHash localeCompare sha256Hex input in
  match account with
  | None => Err (balanceAdjustmentError OPERATOR_GRANT_NOT_FOUND)
  | Some a =>
      match uuidOf (ri_grantId input) with
      | None => Err (InternalError "invalid input syntax for type uuid")
      | Some grantId =>
          match List.find (fun g => gr_id g =? grantId) (ac_grants a) with
          | None => Err (balanceAdjustmentError OPERATOR_GRANT_NOT_FOUND)
          | Some grant =>
              let keyHolder := List.find (fun g =>
                bool_decide (rv_idempotency_key <$> gr_revocation g = Some (ri_idempotencyKey input))
                && negb (gr_id g =? grantId)) (ac_grants a) in
              _ ← throwWhen (match keyHolder with Some _ => true | None => false end) (idempotencyConflict "revocation");
              match revokedColumns grantId (ac_wallets a) with
              | Some _ =>
                  _ ← throwWhen (negb (bool_decide (rv_idempotency_key <$> gr_revocation grant = Some (ri_idempotencyKey input))))
                        (balanceAdjustmentError OPERATOR_GRANT_ALREADY_REVOKED);
                  _ ← throwWhen (negb (bool_decide (rv_request_hash <$> gr_revocation grant = Some requestHash)))
                        (idempotencyConflict "revocation");
                  record ← requireOperatorGrant now grantId a;
                  Ok (a, (true, record))
              | None =>
                  match findAllocation grantId (ac_wallets a) with
                  | None => Err (InternalError "operator grant has no allocation")
                  | Some (w, allocation) =>
                      let expired := expiredAt now allocation in
                      let reversed := if expired then allocation else revokeAlloc now allocation in
                      before ← allocationUnits (numericText w (u_reversed (al_units allocation)));
                      after ← allocationUnits (numericText w (u_reversed (al_units reversed)));
                      n ← decimalToUnits (unitsToDecimal (after - before) allocationScale) (credit_scale (w_feature w));
                      let a1 := if expired then a else updateWallets (updateAlloc (al_id allocation) (revokeAlloc now)) a in
                      let a2 := updateWallets (markRevoked grantId now n) a1 in
                      let a3 := set_grants a2 (map (fun g => if gr_id g =? grantId then revokeRow input requestHash g else g) (ac_grants a2)) in
                      record ← requireOperatorGrant now grantId a3;
                      Ok (a3, (false, record))
                  end
              end
          end
      end
  end.

(** A row [debitAllocations] locks. *)
Record DebitTargetRow := {
  dt_id : Z; dt_source_kind : string; dt_purchase_id : option Z; dt_quantity : dbvalue; dt_reversed_quantity : dbvalue;
  dt_consumed_quantity : dbvalue; dt_held_quantity : dbvalue; dt_reversed : bool; dt_expired : bool; dt_credit_scale : Z }.

Definition debitTargetRow (now : Z) (a : Account) (w : FeatureWallet) (al : Alloc) : DebitTargetRow :=
  let u := al_units al in
  {| dt_id := al_id al; dt_source_kind := al_source_kind al;
     dt_purchase_id := snd <$> List.find (fun p => fst p =? al_id al) (ac_purchases a);
     dt_quantity := numericText w (u_quantity u); dt_reversed_quantity := numericText w (u_reversed u);
     dt_consumed_quantity := numericText w (u_consumed u); dt_held_quantity := numericText w (u_held u);
     dt_reversed := isReversed al; dt_expired := expiredAt now al; dt_credit_scale := credit_scale (w_feature w) |}.

(** The named allocations of the account, by feature in spend order. *)
Definition lockTargets (ids : list text) (now : Z) (a : Account) : list DebitTargetRow :=
  concat (map (fun w => map (debitTargetRow now a w)
      (spendSorted (List.filter (fun al => bool_decide (al_id al ∈ map parseDigits ids)) (s_allocs (w_store w)))))
    (sortBy (fun v w => f_id (w_feature v) <? f_id (w_feature w)) (ac_wallets a))).

Definition providerPurchaseKinds : list string := ["purchase"; "topup"].

Inductive DebitRefusal := refused_reversed | refused_expired | refused_provider_purchase.
Definition debitRefusal (target : DebitTargetRow) : option DebitRefusal :=
  if dt_reversed target then Some refused_reversed
  else if dt_expired target then Some refused_expired
  else if bool_decide (dt_source_kind target ∈ providerPurchaseKinds)
          || match dt_purchase_id target with Some _ => true | None => false end then Some refused_provider_purchase
  else None.

(** The body of the map over the lines: the line checked against its locked row. *)
Definition checkDebitLine (targets : list DebitTargetRow) (line : DebitLineInput) : result (text * text) :=
  match List.find (fun t => bool_decide (integerText (dt_id t) = li_allocationId line)) targets with
  | None => Err (balanceAdjustmentError ALLOCATION_NOT_FOUND)
  | Some target =>
      _ ← throwWhen (match debitRefusal target with Some _ => true | None => false end)
            (balanceAdjustmentError ALLOCATION_NOT_DEBITABLE);
      quantity ← positiveDecimal (li_quantity line) "quantity" (dt_credit_scale target);
      total ← allocationUnits (dt_quantity target);
      reversed ← allocationUnits (dt_reversed_quantity target);
      consumed ← allocationUnits (dt_consumed_quantity target);
      held ← allocationUnits (dt_held_quantity target);
      wanted ← allocationUnits (DbText quantity);
      let available := total - reversed - consumed - held in
      _ ← throwWhen (available <? wanted) (balanceAdjustmentError ADMINISTRATIVE_DEBIT_EXCEEDS_AVAILABLE);
      Ok (li_allocationId line, quantity)
  end.

Definition debitUnits (n : Z) (u : Units) : Units :=
  {| u_quantity := u_quantity u; u_reversed := u_reversed u + n; u_consumed := u_consumed u; u_held := u_held u |}.
Definition debitable (n : Z) (al : Alloc) : bool :=
  negb (isReversed al) && (n <=? u_quantity (al_units al) - u_reversed (al_units al) - u_consumed (al_units al) - u_held (al_units al)).

(** One guarded update; no row means it failed. *)
Definition debitAllocation (line : text * text) (a : Account) : result Account :=
  let aid := parseDigits (fst line) in
  let failed := InternalError "Administrative debit could not be applied to a locked allocation" in
  match findById aid (ac_wallets a) with
  | None => Err failed
  | Some (w, al) =>
      n ← decimalToUnits (snd line) (credit_scale (w_feature w));
      if debitable n al
      then Ok (updateWallets (updateAlloc aid (fun al => with_units al (debitUnits n (al_units al)))) a)
      else Err failed
  end.

(** [debitAllocations]; [did] is the id the database generates. *)
Definition debitAllocations (rawInput : AdministrativeDebitInput) (did now : Z) (account : option Account)
  : result (Account * (bool * AdministrativeDebitRecord)) :=
  input ← normalizeAdministrativeDebitInput rawInput;
  let requestHash := administrativeDebitRequestHash localeCompare sha256Hex input in
  match account with
  | None => Err (BillingErr "Billing account was not found" "BILLING_ACCOUNT_NOT_FOUND" 404)
  | Some a =>
      match List.find (fun d => bool_decide (db_idempotency_key d = di_idempotencyKey input)) (ac_debits a) with
      | Some replay =>
          _ ← throwWhen (negb (bool_decide (db_request_hash replay = requestHash))) (idempotencyConflict "debit");
          debit ← requireDebit (db_id replay) a;
          Ok (a, (true, debit))
      | None =>
          let targets := lockTargets (map li_allocationId (di_allocations input)) now a in
          lines ← mapM (checkDebitLine targets) (di_allocations input);
          let row := {| db_id := did; db_actor := di_actor input; db_reason := di_reason input;
                        db_idempotency_key := di_idempotencyKey input; db_request_hash := requestHash; db_created_at := now |} in
          let recorded := add_debit a row (map (fun line =>
            {| dl_debit_id := did; dl_allocation_id := parseDigits (fst line); dl_quantity := snd line |}) lines) in
          debited ← foldM (fun a line => debitAllocation line a) lines recorded;
          debit ← requireDebit did debited;
          Ok (debited, (false, debit))
      end
  end.
End Mutations.

(** ** Lists *)

(** A position in a list ordered by creation and id, newest first. *)
Definition positionBefore (p q : Z * Z) : bool := (fst p <? fst q) || ((fst p =? fst q) && (snd p <? snd q)).

Section Lists.
Context {Row Item : Type} (position : Row -> Z * Z) (toItem : Row -> result Item).

(** [keyset] with the order and limit of the queries: the rows after the cursor. *)
Definition rowsAfter (cursor : option (Z * Z)) (rows : list Row) : list Row :=
  sortBy (fun r s => positionBefore (position s) (position r))
    (List.filter (fun r => match cursor with Some c => positionBefore (position r) c | None => true end) rows).

(** [page]; a cursor is the position it encodes. *)
Definition page (rows : list Row) (limit : nat) : result (list Item * option (Z * Z)) :=
  items ← mapM toItem (take limit rows);
  Ok (items, match rows !! (limit - 1)%nat with
             | Some last => if (limit <? length rows)%nat then Some (position last) else None
             | None => None
             end).

Definition requirePositiveLimit (limit : Z) : result nat :=
  _ ← throwWhen (limit <=? 0) (InternalError "p_limit must be greater than zero");
  Ok (Z.to_nat (Z.min limit 100)).

Definition listRows (rows : list Row) (requested : Z) (cursor : option (Z * Z)) : result (list Item * option (Z * Z)) :=
  limit ← requirePositiveLimit requested;
  page (take (limit + 1) (rowsAfter cursor rows)) limit.
End Lists.

Definition listOperatorGrants (now : Z) (a : Account) : Z -> option (Z * Z) -> result (list OperatorGrantRecord * option (Z * Z)) :=
  listRows (fun r => (ogr_created_at r, ogr_id r)) toOperatorGrantRecord (omap (operatorGrantRow now a) (ac_grants a)).
Definition listAdministrativeDebits (a : Account) : Z -> option (Z * Z) -> result (list AdministrativeDebitRecord * option (Z * Z)) :=
  listRows (fun d => (db_created_at d, db_id d)) (toDebitRecord a) (ac_debits a).
Definition getOperatorGrant (now gid : Z) (a : Account) : result OperatorGrantRecord :=
  match readOperatorGrant now (fun g => gr_id g =? gid) a with
  | Some row => toOperatorGrantRecord row
  | None => Err (balanceAdjustmentError OPERATOR_GRANT_NOT_FOUND)
  end.
