(* ===== verification/AdjustmentLedger.v ===== *)
(** * What adjustments and usage together leave ([src/db/repository/balance-adjustments.ts],
      [metering-persistence.ts])

    Histories of one account in which wallet transactions, operator grants, revocations and
    debits interleave in any order, the ledger of every operator allocation along them, what
    replaying a key answers, and what a debit does to the allocations it names. *)
From S2P Require Import Prelude Text Decimal Pricing JsDate Balances Wallet WalletStore Json Adjustments.

#[local] Arguments js _ : simpl never.
#[local] Arguments decimalToUnits : simpl never.
#[local] Arguments unitsToDecimal : simpl never.

(** ** What wallet transactions do to grants *)

(** The columns no wallet transaction writes. *)
Definition sameAlloc (a b : Alloc) : Prop :=
  al_id b = al_id a /\ al_operator b = al_operator a /\ al_operator_grant_id b = al_operator_grant_id a /\
  al_reversed_at b = al_reversed_at a /\ al_expires_at b = al_expires_at a /\
  u_quantity (al_units b) = u_quantity (al_units a) /\ al_entity b = al_entity a /\ al_source_kind b = al_source_kind a.
Definition sameGrant (g h : OperatorGrant) : Prop := og_id h = og_id g /\ og_revoked_at h = og_revoked_at g.

Definition grantOf (s : Store) (a : Alloc) (g : OperatorGrant) : Prop :=
  a ∈ s_allocs s /\ g ∈ s_grants s /\ al_operator_grant_id a = Some (og_id g).

(** Each grant has one allocation, revoked with it. *)
Record paired (s : Store) : Prop := {
  pr_ids : NoDup (map al_id (s_allocs s));
  pr_one : forall a b gid, a ∈ s_allocs s -> b ∈ s_allocs s -> al_operator_grant_id a = Some gid ->
    al_operator_grant_id b = Some gid -> a = b;
  pr_revoked : forall a g, grantOf s a g -> revokedOperator a = true -> is_Some (og_revoked_at g) }.

(** The tables after some settlements: the same rows, and on a grant's allocation as much
    reversed as its revocation took over. *)
Definition settlesTo (s s' : Store) : Prop :=
  exists F G, s_allocs s' = map F (s_allocs s) /\ s_grants s' = map G (s_grants s) /\
    (forall a, a ∈ s_allocs s -> sameAlloc a (F a)) /\ (forall g, g ∈ s_grants s -> sameGrant g (G g)) /\
    (forall g, g ∈ s_grants s -> og_revoked_quantity g <= og_revoked_quantity (G g) /\
      (og_revoked_at g = None -> og_revoked_quantity (G g) = og_revoked_quantity g)) /\
    (forall a g, grantOf s a g ->
      u_reversed (al_units (F a)) - og_revoked_quantity (G g) = u_reversed (al_units a) - og_revoked_quantity g).

Lemma sameAlloc_refl a : sameAlloc a a. Proof. by repeat split. Qed.
Lemma sameGrant_refl g : sameGrant g g. Proof. by split. Qed.
#[local] Hint Resolve sameAlloc_refl sameGrant_refl : core.

Lemma sameAlloc_revoked a b : sameAlloc a b -> revokedOperator b = revokedOperator a.
Proof. intros (_ & Ho & _ & Hr & _). unfold revokedOperator. by rewrite Ho, Hr. Qed.

Lemma settlesTo_same s s' : s_allocs s' = s_allocs s -> s_grants s' = s_grants s -> settlesTo s s'.
Proof. intros Ha Hg. exists id, id. rewrite !map_id. do 4 (split; [done|]). split; [intros; cbn; split; [lia|done]|]. intros; cbn; lia. Qed.

(** A change of units that reverses nothing. *)
Lemma settlesTo_units s s' (f : Alloc -> Units) :
  s_allocs s' = map (fun a => with_units a (f a)) (s_allocs s) -> s_grants s' = s_grants s ->
  (forall a, a ∈ s_allocs s -> u_quantity (f a) = u_quantity (al_units a) /\ u_reversed (f a) = u_reversed (al_units a)) ->
  settlesTo s s'.
Proof.
  intros Ha Hg Hf. exists (fun a => with_units a (f a)), id. rewrite map_id. repeat (split; [done|]).
  split; [intros a Hin; destruct (Hf a Hin); by repeat split|]. split; [done|]. split; [intros; cbn; split; [lia|done]|].
  intros a g (Hin & _). destruct (Hf a Hin) as [_ E]. cbn. lia.
Qed.

Lemma grantOf_forward s s' F G a g :
  s_allocs s' = map F (s_allocs s) -> s_grants s' = map G (s_grants s) ->
  (forall a, a ∈ s_allocs s -> sameAlloc a (F a)) -> (forall g, g ∈ s_grants s -> sameGrant g (G g)) ->
  grantOf s a g -> grantOf s' (F a) (G g).
Proof.
  intros Ea Eg Hf Hg (Ha & Hgin & Hid). unfold grantOf. rewrite Ea, Eg. split; [by apply list_elem_of_fmap_2|].
  split; [by apply list_elem_of_fmap_2|]. destruct (Hf a Ha) as (_ & _ & -> & _). destruct (Hg g Hgin) as [-> _]. done.
Qed.

Lemma settlesTo_trans s1 s2 s3 : settlesTo s1 s2 -> settlesTo s2 s3 -> settlesTo s1 s3.
Proof.
  intros (F & G & Ea & Eg & HF & HG & Hup & Hd) (F' & G' & Ea' & Eg' & HF' & HG' & Hup' & Hd').
  exists (fun a => F' (F a)), (fun g => G' (G g)). rewrite Ea', Eg', Ea, Eg, !map_map. do 2 (split; [done|]).
  assert (HinF : forall a, a ∈ s_allocs s1 -> F a ∈ s_allocs s2) by (intros; rewrite Ea; by apply list_elem_of_fmap_2).
  assert (HinG : forall g, g ∈ s_grants s1 -> G g ∈ s_grants s2) by (intros; rewrite Eg; by apply list_elem_of_fmap_2).
  split; [|split; [|split] ].
  - intros a Ha. destruct (HF a Ha) as (? & ? & ? & ? & ? & ? & ? & ?), (HF' _ (HinF a Ha)) as (? & ? & ? & ? & ? & ? & ? & ?).
    unfold sameAlloc. repeat split; congruence.
  - intros g Hg. destruct (HG g Hg), (HG' _ (HinG g Hg)). split; congruence.
  - intros g Hg. destruct (Hup g Hg) as [? Hn], (Hup' _ (HinG g Hg)) as [? Hn']. split; [lia|]. intros Hnone.
    rewrite Hn'; [by apply Hn|]. destruct (HG g Hg) as [_ ->]. done.
  - intros a g H. rewrite (Hd' (F a) (G g)) by (by apply (grantOf_forward s1 s2)). by apply Hd.
Qed.

Lemma settlesTo_paired s s' : settlesTo s s' -> paired s -> paired s'.
Proof.
  intros (F & G & Ea & Eg & HF & HG & _ & _) [Hnd Hone Hrev]. constructor.
  - rewrite Ea, map_map. erewrite map_ext_in; [exact Hnd|]. intros a Ha%list_elem_of_In. by destruct (HF a Ha).
  - rewrite Ea. intros a b gid (x & -> & Hx)%list_elem_of_fmap (y & -> & Hy)%list_elem_of_fmap.
    destruct (HF x Hx) as (_ & _ & -> & _), (HF y Hy) as (_ & _ & -> & _). intros. f_equal. by apply (Hone x y gid).
  - intros a g (Ha & Hg & Hid). rewrite Ea in Ha. rewrite Eg in Hg.
    apply list_elem_of_fmap in Ha as (x & -> & Hx). apply list_elem_of_fmap in Hg as (y & -> & Hy).
    pose proof (HF x Hx) as Hs. rewrite (sameAlloc_revoked _ _ Hs). destruct Hs as (_ & _ & Hgi & _).
    destruct (HG y Hy) as [Hi ->]. intros. apply (Hrev x y); [|done]. split; [done|]. split; [done|]. congruence.
Qed.

(** The grants a settlement of one allocation writes. *)
Lemma settle_grants id c r s : NoDup (map al_id (s_allocs s)) ->
  s_grants (settleHeldQuantity id c r s)
  = match List.find (fun a => al_id a =? id) (s_allocs s) with
    | Some a => map (revokeGrant c r a) (s_grants s)
    | None => s_grants s
    end.
Proof.
  unfold settleHeldQuantity. cbn [s_grants]. generalize (s_grants s) as gs. generalize (s_allocs s) as l.
  induction l as [|a l IH]; intros gs Hnd; [done|]. cbn [fold_left List.find].
  apply NoDup_cons in Hnd as [Hin Hnd]. destruct (Z.eqb_spec (al_id a) id) as [<-|]; [|by apply IH].
  rewrite IH by done. destruct (List.find _ l) as [b|] eqn:E; [|done].
  apply find_some in E as [Hb Hid%Z.eqb_eq]. exfalso. apply Hin. rewrite <- Hid. by apply list_elem_of_fmap_2, list_elem_of_In.
Qed.

Lemma revokeGrant_same c r a g : sameGrant g (revokeGrant c r a g) /\
  og_revoked_quantity g <= og_revoked_quantity (revokeGrant c r a g) /\
  (og_revoked_at g = None -> og_revoked_quantity (revokeGrant c r a g) = og_revoked_quantity g).
Proof.
  unfold revokeGrant. destruct (og_revoked_at g) eqn:E; [|rewrite andb_false_r; split; [done|]; split; [lia|done] ].
  destruct (_ && _); cbn; split; [by split|split; [lia|done]|done|split; [lia|done] ].
Qed.

Lemma settle_settlesTo id c r s : paired s -> settlesTo s (settleHeldQuantity id c r s).
Proof.
  intros [Hnd Hone Hrev].
  set (F := fun a => if al_id a =? id then with_units a (settleUnits c r a) else a).
  set (G := match List.find (fun a => al_id a =? id) (s_allocs s) with Some a => revokeGrant c r a | None => fun g => g end).
  exists F, G. split; [done|].
  split; [rewrite settle_grants by done; unfold G; destruct (List.find _ _); by rewrite ?map_id|].
  split; [intros a _; unfold F; destruct (_ =? _); by repeat split|].
  split; [intros g _; unfold G; destruct (List.find _ _); [apply revokeGrant_same|done]|].
  split; [intros g _; unfold G; destruct (List.find _ _); [apply revokeGrant_same|split; [lia|done] ]|].
  intros a g Hl. pose proof Hl as (Ha & Hg & Hid). unfold F, G.
  destruct (List.find _ (s_allocs s)) as [b|] eqn:E.
  - apply find_some in E as [Hb%list_elem_of_In Hbid]. destruct (al_id a =? id) eqn:Ea.
    + assert (a = b) as <-.
      { apply Z.eqb_eq in Ea, Hbid. eapply NoDup_key_inj; [exact Hnd|done|done|congruence]. }
      unfold revokeGrant. rewrite (bool_decide_eq_true_2 _ Hid), andb_true_r. cbn [al_units with_units settleUnits u_reversed].
      destruct (revokedOperator a) eqn:Er; cbn [andb]; [|lia].
      destruct (Hrev a g Hl Er) as [t ->]. rewrite andb_true_r. destruct (Z.ltb_spec c r); cbn [og_revoked_quantity]; lia.
    + unfold revokeGrant. rewrite bool_decide_eq_false_2, andb_false_r; [cbn [andb]; lia|].
      intros Hb'. assert (a = b) by (by apply (Hone a b (og_id g))). congruence.
  - pose proof (find_none _ _ E a (proj1 (list_elem_of_In _ _) Ha)) as Hne. cbn in Hne. rewrite Hne. lia.
Qed.

Lemma settleList_settlesTo cs s : paired s -> settlesTo s (settleList cs s).
Proof.
  revert s. induction cs as [|p cs IH]; intros s Hp; [by apply settlesTo_same|]. cbn [settleList fold_left].
  change (fold_left _ cs ?x) with (settleList cs x). pose proof (settle_settlesTo (fst p) (fst (snd p)) (snd (snd p)) s Hp) as H1.
  eapply settlesTo_trans; [exact H1|]. apply IH. by eapply settlesTo_paired.
Qed.

Lemma applyConfirmation_settlesTo rid plan s : paired s -> settlesTo s (applyConfirmation rid plan s).
Proof.
  unfold applyConfirmation. generalize (cp_changes plan) as cl. intros cl. revert s.
  induction cl as [|c cl IH]; intros s Hp; [by apply settlesTo_same|]. cbn [fold_left].
  assert (H1 : settlesTo s (applyChange rid s c)).
  { eapply settlesTo_trans; [by apply (settle_settlesTo (pc_allocationId c) (pc_consume c) (pc_release c))|].
    unfold applyChange. destruct (pc_hasHold c); by apply settlesTo_same. }
  eapply settlesTo_trans; [exact H1|]. apply IH. by eapply settlesTo_paired.
Qed.

(** What an allocation has free is never overdrawn, and a revoked operator allocation gives
    nothing more. *)
Definition kept (a b : Alloc) : Prop :=
  (0 <= u_free (al_units a) -> 0 <= u_free (al_units b)) /\
  (revokedOperator a = true -> u_free (al_units b) = u_free (al_units a)).

Lemma kept_settle a c r : settlement_ok a c r -> kept a (with_units a (settleUnits c r a)).
Proof.
  intros (Hc & Hr & H). unfold kept, u_free, settleUnits in *. cbn [al_units with_units u_quantity u_reversed u_consumed u_held].
  destruct (revokedOperator a); destruct H as [|[? ?] ]; try done; split; intros; try done; lia.
Qed.

Lemma kept_amounts entity now column l a :
  amountFor l (al_id a) = 0 \/ (spendable entity now a = true /\ 0 <= amountFor l (al_id a) <= u_free (al_units a)) ->
  kept a (addAmounts column l a).
Proof.
  intros H. unfold kept, addAmounts. cbn [al_units with_units].
  destruct H as [->|[ [_ Hlive]%andb_prop H] ]; [by rewrite addColumn_0|].
  rewrite (live_not_revoked _ _ Hlive). split; [|done]. unfold u_free in *. destruct column; cbn; lia.
Qed.

Section Steps.
Context (feature : FeatureRow) (rate : RateDecision).
Local Abbreviation scale := (credit_scale feature).

(** Every transaction of a wallet settles its grants and keeps its allocations. *)
Definition advances (s s' : Store) : Prop :=
  settlesTo s s' /\ exists F, s_allocs s' = map F (s_allocs s) /\ forall a, a ∈ s_allocs s -> kept a (F a).

Lemma keeps_refl a : kept a a. Proof. by split. Qed.
#[local] Hint Resolve keeps_refl : core.

Lemma advances_same s : advances s s.
Proof. split; [by apply settlesTo_same|]. exists id. by rewrite map_id. Qed.

Lemma advances_amounts entity now column l s s' :
  (forall a, a ∈ s_allocs s -> amountFor l (al_id a) = 0 \/
    (spendable entity now a = true /\ 0 <= amountFor l (al_id a) <= u_free (al_units a))) ->
  s_allocs s' = map (addAmounts column l) (s_allocs s) -> s_grants s' = s_grants s -> advances s s'.
Proof.
  intros Hl Ha Hg. split.
  - apply (settlesTo_units s s' (fun a => addColumn column (amountFor l (al_id a)) (al_units a))); [done|done|].
    intros a _. by destruct column.
  - exists (addAmounts column l). split; [done|]. intros a Hin. by apply (kept_amounts entity now), Hl.
Qed.

Lemma advances_settled c r s s' : settlesTo s s' ->
  s_allocs s' = map (settled c r) (s_allocs s) ->
  (forall a, a ∈ s_allocs s -> settlement_ok a (c (al_id a)) (r (al_id a))) -> advances s s'.
Proof.
  intros Hs Ha Hok. split; [done|]. exists (settled c r). split; [done|]. intros a Hin. by apply kept_settle, Hok.
Qed.

Lemma release_advances s s' rid status : wallet_inv scale s -> paired s -> 0 <= scale -> isActive s rid = true ->
  releaseHolds feature rid status s = Ok s' -> advances s s'.
Proof.
  intros Hinv Hp Hs Hact H. rewrite releaseHolds_settles in H by done. injection H as <-.
  destruct (release_allocs feature s rid Hinv) as (Ha & _ & _).
  apply (advances_settled (fun _ => 0) (released s rid)); [|exact Ha|].
  - eapply settlesTo_trans; [by apply settleList_settlesTo|]. by apply settlesTo_same.
  - intros a Hin. pose proof (released_bounds _ s rid a Hinv Hact Hin). unfold settlement_ok. lia.
Qed.

Lemma confirm_advances s rid r quantity n now plan confirmed : wallet_inv scale s -> paired s ->
  findReservation s rid = Some r -> rs_status r = st_active -> decimalToUnits quantity scale = Ok n ->
  planConfirmation (map (readRow scale) (lockAllAllocationRows s (rs_entity r)))
    (map (readHold scale) (holdsOf s rid)) scale quantity now = Ok plan ->
  advances s (finalize rid st_confirmed confirmed (applyConfirmation rid plan s)).
Proof.
  intros Hinv Hp Hr Hst Hn Hplan. pose proof (decimalToUnits_scale _ _ _ Hn) as Hs.
  pose proof (decimalToUnits_nonneg _ _ _ Hs Hn) as Hn0.
  rewrite (confirm_plan feature s rid r quantity n now) in Hplan by done. cbv zeta in Hplan.
  destruct (_ <? n) in Hplan; [done|]. injection Hplan as Hplan. apply (f_equal cp_changes) in Hplan. cbn in Hplan. symmetry in Hplan.
  destruct (findReservation_active s rid r Hr Hst) as (_ & _ & Hact).
  eapply advances_settled.
  - eapply settlesTo_trans; [by apply applyConfirmation_settlesTo|]. by apply settlesTo_same.
  - exact (confirm_allocs feature s rid r n now plan Hinv Hr Hn0 Hplan).
  - intros a Hin. by apply (confirm_settlements feature s rid r n now).
Qed.

Lemma step_advances s s' : wallet_inv scale s -> paired s -> step feature rate s s' -> advances s s'.
Proof.
  intros Hinv Hp Hstep. destruct Hstep as [? ? ? ? ? ? ? ? H|? ? ? ? ? ? ? ? ? ? Hf H|rid ? ? ? ? ? ? ? H|rid ? ? ? ? H].
  - destruct (consume_spec _ _ _ _ _ _ _ _ _ _ Hinv H) as [ [-> _]|(ds & l & n & _ & _ & _ & _ & _ & Hfree & ->)];
      [apply advances_same|]. by eapply advances_amounts.
  - destruct (reserve_spec _ _ _ _ _ _ _ _ _ _ _ _ Hinv H) as [ [-> _]|(ds & l & n & _ & _ & _ & _ & _ & _ & _ & Hfree & ->)];
      [apply advances_same|]. by eapply advances_amounts.
  - unfold confirmWallet in H. destruct (findReservation s rid) as [r|] eqn:Hr; [|done].
    apply bind_Ok in H as (q & _ & H). destruct (rs_status r) eqn:Hst.
    + destruct (findReservation_active s rid r Hr Hst) as (_ & _ & Hact).
      pose proof (findReservation_unspent_scale feature s rid r Hinv Hr Hst). destruct (rs_expires_at r <=? now).
      * apply bind_Ok in H as (s1 & Hrel & H). injection H as <- _. by eapply release_advances.
      * apply bind_Ok in H as (w & _ & H). apply bind_Ok in H as (au & _ & H). apply bind_Ok in H as (u & _ & H).
        destruct (planConfirmation _ _ _ _ _) as [plan|e] eqn:Hplan.
        -- destruct deny; injection H as <- _; [apply advances_same|].
           destruct (decimalToUnits quantity scale) as [n|e] eqn:Hn; [by eapply confirm_advances|].
           exfalso. unfold planConfirmation in Hplan. apply bind_Ok in Hplan as (? & _ & Hplan). by rewrite Hn in Hplan.
        -- case_bool_decide; [injection H as <- _; apply advances_same|done].
    + case_bool_decide; [injection H as <- _; apply advances_same|done].
    + done.
    + injection H as <- _; apply advances_same.
  - unfold releaseWallet in H. destruct (findReservation s rid) as [r|] eqn:Hr; [|done].
    destruct (rs_status r) eqn:Hst; [|injection H as <- _; apply advances_same ..].
    apply bind_Ok in H as (s1 & Hrel & H). injection H as <- _.
    destruct (findReservation_active s rid r Hr Hst) as (_ & _ & Hact).
    pose proof (findReservation_unspent_scale feature s rid r Hinv Hr Hst). by eapply release_advances.
Qed.
End Steps.

(** ** The grants of a wallet *)

(** The grants of a store, [d] being what debits took of each allocation. *)
Record grants_ok (d : Z -> Z) (s : Store) : Prop := {
  go_paired : paired s;
  go_operator : forall a, a ∈ s_allocs s -> al_operator a = true <-> is_Some (al_operator_grant_id a);
  go_stored : forall a gid, a ∈ s_allocs s -> al_operator_grant_id a = Some gid -> exists g, g ∈ s_grants s /\ og_id g = gid;
  go_unique : NoDup (map og_id (s_grants s));
  go_alloc : forall g, g ∈ s_grants s -> exists a, grantOf s a g;
  go_open : forall g, g ∈ s_grants s -> 0 <= og_revoked_quantity g /\ (og_revoked_at g = None -> og_revoked_quantity g = 0);
  go_ledger : forall a g, grantOf s a g -> u_reversed (al_units a) = d (al_id a) + og_revoked_quantity g;
  go_free : forall a g, grantOf s a g ->
    0 <= u_free (al_units a) /\ (isReversed a = true -> u_free (al_units a) = 0) }.

Lemma grantOf_operator d s a g : grants_ok d s -> grantOf s a g -> revokedOperator a = isReversed a.
Proof.
  intros Hok (Ha & _ & Hid). unfold revokedOperator.
  rewrite (proj2 (go_operator _ _ Hok a Ha)) by (rewrite Hid; eauto). done.
Qed.

(** What a change of a wallet's rows has to keep, grant by grant. *)
Lemma grants_ok_map d d' s s' F G : grants_ok d s -> s_allocs s' = map F (s_allocs s) -> s_grants s' = map G (s_grants s) ->
  (forall x, x ∈ s_allocs s -> al_id (F x) = al_id x /\ al_operator (F x) = al_operator x /\ al_operator_grant_id (F x) = al_operator_grant_id x) ->
  (forall y, y ∈ s_grants s -> og_id (G y) = og_id y) ->
  (forall x y, grantOf s x y -> (isReversed (F x) = true -> is_Some (og_revoked_at (G y))) /\
    0 <= og_revoked_quantity (G y) /\ (og_revoked_at (G y) = None -> og_revoked_quantity (G y) = 0) /\
    u_reversed (al_units (F x)) = d' (al_id x) + og_revoked_quantity (G y) /\
    0 <= u_free (al_units (F x)) /\ (isReversed (F x) = true -> u_free (al_units (F x)) = 0)) ->
  grants_ok d' s'.
Proof.
  intros [ [Hnd Hone Hrev] Hop Hst Hun Hal Hopen Hled Hfree] Ea Eg HF HG H.
  assert (Hback : forall a g, grantOf s' a g -> exists x y, a = F x /\ g = G y /\ grantOf s x y).
  { intros a g (Ha & Hg & Hid). rewrite Ea in Ha. rewrite Eg in Hg.
    apply list_elem_of_fmap in Ha as (x & -> & Hx). apply list_elem_of_fmap in Hg as (y & -> & Hy).
    exists x, y. destruct (HF x Hx) as (_ & _ & Hgi). split; [done|]. split; [done|]. split; [done|]. split; [done|].
    rewrite Hgi, (HG y Hy) in Hid. done. }
  assert (Hforth : forall x y, grantOf s x y -> grantOf s' (F x) (G y)).
  { intros x y (Hx & Hy & Hid). unfold grantOf. rewrite Ea, Eg. destruct (HF x Hx) as (_ & _ & ->). rewrite (HG y Hy).
    split; [by apply list_elem_of_fmap_2|]. split; [by apply list_elem_of_fmap_2|done]. }
  constructor; [constructor| | | | | | |].
  - rewrite Ea, map_map. erewrite map_ext_in; [exact Hnd|]. intros a Ha%list_elem_of_In. by destruct (HF a Ha).
  - rewrite Ea. intros a b gid (x & -> & Hx)%list_elem_of_fmap (y & -> & Hy)%list_elem_of_fmap.
    destruct (HF x Hx) as (_ & _ & ->), (HF y Hy) as (_ & _ & ->). intros. f_equal. by apply (Hone x y gid).
  - intros a g (x & y & -> & -> & Hxy)%Hback E. destruct (H x y Hxy) as (Hr & _). apply Hr.
    unfold revokedOperator in E. by apply andb_prop in E as [_ ?].
  - rewrite Ea. intros a (x & -> & Hx)%list_elem_of_fmap. destruct (HF x Hx) as (_ & -> & ->). auto.
  - rewrite Ea, Eg. intros a gid (x & -> & Hx)%list_elem_of_fmap Hid. destruct (HF x Hx) as (_ & _ & Hgi). rewrite Hgi in Hid.
    destruct (Hst x gid Hx Hid) as (g & Hg & <-). exists (G g). split; [by apply list_elem_of_fmap_2|by apply HG].
  - rewrite Eg, map_map. erewrite map_ext_in; [exact Hun|]. intros g Hg%list_elem_of_In. by apply HG.
  - rewrite Eg. intros g (y & -> & Hy)%list_elem_of_fmap. destruct (Hal y Hy) as [x Hx]. eauto.
  - rewrite Eg. intros g (y & -> & Hy)%list_elem_of_fmap. destruct (Hal y Hy) as [x Hx]. by destruct (H x y Hx) as (_ & ? & ? & _).
  - intros a g (x & y & -> & -> & Hxy)%Hback. destruct (H x y Hxy) as (_ & _ & _ & E & _). destruct Hxy as (Hx & _).
    by destruct (HF x Hx) as (-> & _).
  - intros a g (x & y & -> & -> & Hxy)%Hback. by destruct (H x y Hxy) as (_ & _ & _ & _ & ?).
Qed.

Lemma grants_ok_settled d s s' : grants_ok d s -> settlesTo s s' ->
  (forall F, s_allocs s' = map F (s_allocs s) -> forall a, a ∈ s_allocs s -> kept a (F a)) -> grants_ok d s'.
Proof.
  intros Hok (F & G & Ea & Eg & HF & HG & Hup & Hd) Hk. apply (grants_ok_map d d s s' F G Hok Ea Eg).
  - intros x Hx. by destruct (HF x Hx) as (? & ? & ? & _).
  - intros y Hy. by destruct (HG y Hy).
  - intros x y Hxy. pose proof (grantOf_operator _ _ _ _ Hok Hxy) as Hop. pose proof (go_ledger _ _ Hok x y Hxy) as Hled.
    pose proof (go_free _ _ Hok x y Hxy) as [Hf0 Hfr]. pose proof (Hd x y Hxy) as Hdiff.
    pose proof (pr_revoked _ (go_paired _ _ Hok) x y Hxy) as Hrev. destruct Hxy as (Hx & Hy & _).
    destruct (go_open _ _ Hok y Hy) as [Hq0 Hqn], (Hup y Hy) as [Hle Hsame], (Hk F Ea x Hx) as [Hk1 Hk2].
    destruct (HF x Hx) as (_ & _ & _ & HFr & _). destruct (HG y Hy) as [_ HGr]. unfold isReversed in *. rewrite HFr, HGr, <- Hop.
    split; [done|]. split; [lia|]. split; [intros E; rewrite Hsame by done; auto|]. split; [lia|]. split; [auto|].
    intros E. rewrite Hk2 by done. apply Hfr. by rewrite <- Hop.
Qed.

Lemma step_grants_ok feature rate d s s' : wallet_inv (credit_scale feature) s -> grants_ok d s ->
  step feature rate s s' -> grants_ok d s'.
Proof.
  intros Hinv Hok Hstep.
  destruct (step_advances feature rate s s' Hinv (go_paired _ _ Hok) Hstep) as [Hs (F & Ea & HF)].
  apply (grants_ok_settled d s); [done|done|]. intros F' E x Hx. replace (F' x) with (F x); [auto|].
  rewrite Ea in E. revert E Hx. generalize (s_allocs s). intros l. induction l as [|y l IH]; cbn; [by intros _ ?%elem_of_nil|].
  intros [= Hy Hl] [->|Hx]%elem_of_cons; auto.
Qed.

(** ** Decimals of a wallet at the allocation scale *)

Lemma allocationUnits_numeric w n : 0 <= n -> 0 <= credit_scale (w_feature w) <= 9 ->
  allocationUnits (numericText w n) = Ok (n * 10 ^ (9 - credit_scale (w_feature w))).
Proof.
  intros Hn Hs. unfold allocationUnits, databaseUnits, databaseDecimal, numericText, allocationScale.
  destruct (unitsToDecimal_render n (credit_scale (w_feature w)) Hn ltac:(lia)) as (t & f & Er & Hw & Hf & Hst & Hl & _).
  rewrite Er, unboundedDecimal_render by (done || lia). cbn [mbind result_bind]. rewrite <- Er. apply units_rescale; [lia|]. lia.
Qed.

Lemma unitsToDecimal_rescale n s t : 0 <= n -> 0 <= s <= t -> unitsToDecimal (n * 10 ^ (t - s)) t = unitsToDecimal n s.
Proof.
  intros Hn Hs. pose proof (units_rescale n s t Hn Hs) as Hu.
  destruct (unitsToDecimal_render n s Hn ltac:(lia)) as (w & f & Er & Hw & Hf & Hst & Hl & _). rewrite Er in *.
  pose proof (unboundedDecimal_render w f "decimal" t Hw Hf Hst ltac:(lia)) as Hc.
  destruct (unboundedDecimal_is_units _ _ t _ ltac:(lia) Hc) as (m & _ & Hm & Em). rewrite Em. congruence.
Qed.

(** A difference of two stored quantities reads back in the wallet's own units. *)
Lemma rescaled_units n s : 0 <= n -> 0 <= s <= 9 ->
  decimalToUnits (unitsToDecimal (n * 10 ^ (9 - s)) 9) s = Ok n.
Proof. intros. rewrite unitsToDecimal_rescale by lia. apply units_roundtrip; lia. Qed.

(** ** The account's invariant *)

Definition walletIds (w : FeatureWallet) : list Z := map al_id (s_allocs (w_store w)).
Definition walletGrants (w : FeatureWallet) : list Z := map og_id (s_grants (w_store w)).
Definition allocIds (a : Account) : list Z := concat (map walletIds (ac_wallets a)).
Definition storedIds (a : Account) : list Z := concat (map walletGrants (ac_wallets a)).
Definition featureId (w : FeatureWallet) : Z := f_id (w_feature w).
Definition walletScale (w : FeatureWallet) : Z := credit_scale (w_feature w).

Lemma allocation_units w n scale : walletScale w = scale -> 0 <= n -> 0 <= scale <= 9 -> allocationUnits (numericText w n) = Ok (n * 10 ^ (9 - scale)).
Proof. unfold walletScale. intros <-. apply allocationUnits_numeric. Qed.

(** What the recorded debits took of an allocation, in units of its wallet. *)
Definition lineUnits (scale : Z) (line : DebitLine) : Z :=
  match decimalToUnits (dl_quantity line) scale with Ok n => n | Err _ => 0 end.
Definition debited (scale : Z) (lines : list DebitLine) (aid : Z) : Z :=
  sumZ (map (fun line => if dl_allocation_id line =? aid then lineUnits scale line else 0) lines).

Record account_ok (a : Account) : Prop := {
  ao_ids : NoDup (allocIds a);
  ao_stored : NoDup (storedIds a);
  ao_features : NoDup (map featureId (ac_wallets a));
  ao_scales : forall w, w ∈ ac_wallets a -> 0 <= walletScale w <= 9;
  ao_wallets : forall w, w ∈ ac_wallets a -> wallet_inv (walletScale w) (w_store w);
  ao_grants : forall w, w ∈ ac_wallets a -> grants_ok (debited (walletScale w) (ac_lines a)) (w_store w);
  ao_rows : forall gid, gid ∈ map gr_id (ac_grants a) <-> gid ∈ storedIds a;
  ao_rowIds : NoDup (map gr_id (ac_grants a));
  ao_keys : NoDup (map gr_idempotency_key (ac_grants a));
  ao_revoked : forall row w g, row ∈ ac_grants a -> w ∈ ac_wallets a -> g ∈ s_grants (w_store w) -> og_id g = gr_id row ->
    is_Some (gr_revocation row) <-> is_Some (og_revoked_at g);
  ao_revocationKeys : forall r1 r2 key, r1 ∈ ac_grants a -> r2 ∈ ac_grants a ->
    rv_idempotency_key <$> gr_revocation r1 = Some key -> rv_idempotency_key <$> gr_revocation r2 = Some key -> gr_id r1 = gr_id r2;
  ao_debits : NoDup (map db_id (ac_debits a));
  ao_debitKeys : NoDup (map db_idempotency_key (ac_debits a));
  ao_lines : forall line, line ∈ ac_lines a -> dl_debit_id line ∈ map db_id (ac_debits a) /\
    dl_allocation_id line ∈ allocIds a /\ canonicalDecimal (dl_quantity line) "quantity" 9 = Ok (dl_quantity line) }.

Lemma concat_in {A} (f : FeatureWallet -> list A) ws x : x ∈ concat (map f ws) <-> exists w, w ∈ ws /\ x ∈ f w.
Proof.
  rewrite list_elem_of_In, in_concat. split.
  - intros (l & (w & <- & Hw)%in_map_iff & Hx). exists w. by rewrite !list_elem_of_In.
  - intros (w & Hw%list_elem_of_In & Hx%list_elem_of_In). exists (f w). split; [by apply in_map|done].
Qed.

Lemma concat_same {A} (f : FeatureWallet -> list A) ws v w x :
  NoDup (concat (map f ws)) -> v ∈ ws -> w ∈ ws -> x ∈ f v -> x ∈ f w -> v = w.
Proof.
  induction ws as [|u ws IH]; intros Hnd Hv Hw Hxv Hxw; [by apply elem_of_nil in Hv|]. cbn in Hnd.
  apply NoDup_app in Hnd as (_ & Hdis & Hnd).
  apply elem_of_cons in Hv as [->|Hv]; apply elem_of_cons in Hw as [->|Hw]; [done| | |auto].
  - exfalso. apply (Hdis x Hxv). apply concat_in. eauto.
  - exfalso. apply (Hdis x Hxw). apply concat_in. eauto.
Qed.

Lemma firstWallet_unique {A} (f : FeatureWallet -> option A) ws w x :
  w ∈ ws -> f w = Some x -> (forall v, v ∈ ws -> is_Some (f v) -> v = w) -> firstWallet f ws = Some (w, x).
Proof.
  induction ws as [|v ws IH]; intros Hw Hx Hu; [by apply elem_of_nil in Hw|]. cbn.
  destruct (f v) as [y|] eqn:E.
  - assert (v = w) as -> by (apply Hu; [constructor|eauto]). congruence.
  - apply elem_of_cons in Hw as [->|Hw]; [congruence|]. apply IH; [done|done|]. intros u Hin. apply Hu. by constructor.
Qed.

Lemma firstWallet_some {A} (f : FeatureWallet -> option A) ws w x : firstWallet f ws = Some (w, x) -> w ∈ ws /\ f w = Some x.
Proof.
  induction ws as [|v ws IH]; cbn; [done|]. destruct (f v) eqn:E.
  - intros [= <- <-]. split; [constructor|done].
  - intros H. destruct (IH H). split; [by constructor|done].
Qed.

Lemma find_some_in {A} (p : A -> bool) l x : List.find p l = Some x -> x ∈ l /\ p x = true.
Proof. intros [H%list_elem_of_In E]%find_some. done. Qed.

Lemma find_the {A} (p : A -> bool) l x : x ∈ l -> p x = true -> (forall y, y ∈ l -> p y = true -> y = x) -> List.find p l = Some x.
Proof.
  intros Hx Hp Hu. destruct (List.find p l) as [y|] eqn:E.
  - apply find_some_in in E as [Hy Hpy]. f_equal. auto.
  - apply list_elem_of_In in Hx. pose proof (find_none _ _ E x Hx). congruence.
Qed.

Section View.
Context (a : Account).
Hypothesis Hok : account_ok a.

Lemma stored_in w g : w ∈ ac_wallets a -> g ∈ s_grants (w_store w) -> og_id g ∈ storedIds a.
Proof. intros Hw Hg. apply concat_in. exists w. split; [done|]. by apply list_elem_of_fmap_2. Qed.

Lemma stored_unique v w g h : v ∈ ac_wallets a -> w ∈ ac_wallets a -> g ∈ s_grants (w_store v) -> h ∈ s_grants (w_store w) ->
  og_id g = og_id h -> v = w /\ g = h.
Proof.
  intros Hv Hw Hg Hh E. assert (v = w) as ->.
  { apply (concat_same walletGrants (ac_wallets a) v w (og_id g) (ao_stored _ Hok) Hv Hw); [by apply list_elem_of_fmap_2|].
    rewrite E. by apply list_elem_of_fmap_2. }
  split; [done|]. by eapply NoDup_key_inj; [apply (go_unique _ _ (ao_grants _ Hok w Hw))|..].
Qed.

(** A grant's allocation is found in the one wallet that stores it. *)
Lemma findStored_grant w al g : w ∈ ac_wallets a -> grantOf (w_store w) al g ->
  findStored (og_id g) (ac_wallets a) = Some (w, g) /\ findAllocation (og_id g) (ac_wallets a) = Some (w, al).
Proof.
  intros Hw Hl. pose proof Hl as (Hal & Hg & Hid). split; apply firstWallet_unique; try done.
  - apply find_the; [done|apply Z.eqb_refl|]. intros h Hh Heq%Z.eqb_eq. by destruct (stored_unique w w h g Hw Hw Hh Hg Heq).
  - intros v Hv [h [Hh Heq%Z.eqb_eq]%find_some_in]. by destruct (stored_unique v w h g Hv Hw Hh Hg Heq).
  - apply find_the; [done|by apply bool_decide_eq_true|]. intros x Hx Heq%bool_decide_eq_true.
    by apply (pr_one _ (go_paired _ _ (ao_grants _ Hok w Hw)) x al (og_id g)).
  - intros v Hv [x [Hx Heq%bool_decide_eq_true]%find_some_in].
    destruct (go_stored _ _ (ao_grants _ Hok v Hv) x _ Hx Heq) as (h & Hh & Eh). by destruct (stored_unique v w h g Hv Hw Hh Hg Eh).
Qed.

Lemma findById_alloc w al : w ∈ ac_wallets a -> al ∈ s_allocs (w_store w) -> findById (al_id al) (ac_wallets a) = Some (w, al).
Proof.
  intros Hw Hal. assert (Hin : al_id al ∈ walletIds w) by (by apply list_elem_of_fmap_2). apply firstWallet_unique; [done| |].
  - apply find_the; [done|apply Z.eqb_refl|]. intros y Hy Heq%Z.eqb_eq.
    by eapply NoDup_key_inj; [apply (inv_ids _ _ (ao_wallets _ Hok w Hw))|..].
  - intros v Hv [y [Hy Heq%Z.eqb_eq]%find_some_in]. apply (concat_same walletIds (ac_wallets a) v w (al_id al) (ao_ids _ Hok) Hv Hw); [|done].
    rewrite <- Heq. by apply list_elem_of_fmap_2.
Qed.

Lemma row_grant row : row ∈ ac_grants a -> exists w al g, w ∈ ac_wallets a /\ grantOf (w_store w) al g /\ og_id g = gr_id row.
Proof.
  intros Hrow. assert (Hin : gr_id row ∈ storedIds a) by (apply (ao_rows _ Hok); by apply list_elem_of_fmap_2).
  apply concat_in in Hin as (w & Hw & (g & Hid & Hg)%list_elem_of_fmap).
  destruct (go_alloc _ _ (ao_grants _ Hok w Hw) g Hg) as [al Hal]. eauto 6.
Qed.

(** ** The record of a grant *)

Definition revocationRecord (row : GrantRow) (scale : Z) (g : OperatorGrant) : option RevocationRecord :=
  match gr_revocation row, og_revoked_at g with
  | Some rv, Some revokedAt =>
      Some {| rr_actor := rv_actor rv; rr_reason := rv_reason rv; rr_revokedAt := revokedAt;
              rr_revokedQuantity := unitsToDecimal (og_revoked_quantity g) scale |}
  | _, _ => None
  end.

(** What a grant shows of its allocation. *)
Definition recordOf (now : Z) (row : GrantRow) (w : FeatureWallet) (al : Alloc) (g : OperatorGrant) : OperatorGrantRecord :=
  let u := al_units al in
  let scale := walletScale w in
  let revoked := match og_revoked_at g with Some _ => true | None => false end in
  {| rec_id := gr_id row; rec_billingAccountId := ac_billingAccountId a; rec_featureKey := f_key (w_feature w);
     rec_entityId := entityExternalId a (al_entity al); rec_allocationId := al_id al;
     rec_quantity := unitsToDecimal (u_quantity u) scale; rec_expiresAt := al_expires_at al;
     rec_status := if revoked then grant_revoked else if expiredAt now al then grant_expired else grant_active;
     rec_consumedQuantity := unitsToDecimal (u_consumed u) scale; rec_heldQuantity := unitsToDecimal (u_held u) scale;
     rec_reversedQuantity := unitsToDecimal (u_reversed u) scale;
     rec_availableQuantity := unitsToDecimal (if revoked || isReversed al || expiredAt now al then 0 else u_free u) scale;
     rec_actor := gr_actor row; rec_reason := gr_reason row; rec_createdAt := gr_created_at row;
     rec_revocation := revocationRecord row scale g |}.

Lemma row_record now row w al g : row ∈ ac_grants a -> w ∈ ac_wallets a -> grantOf (w_store w) al g -> og_id g = gr_id row ->
  exists r, operatorGrantRow now a row = Some r /\ ogr_request_hash r = gr_request_hash row /\
    toOperatorGrantRecord r = Ok (recordOf now row w al g).
Proof.
  intros Hrow Hw Hl Hid. pose proof (ao_scales _ Hok w Hw) as Hs. pose proof (ao_wallets _ Hok w Hw) as Hinv.
  destruct (findStored_grant w al g Hw Hl) as [Est Eal]. pose proof (ao_grants _ Hok w Hw) as Hgo. pose proof Hl as (Hal & Hg & _).
  assert (Hnn : nonneg_units (al_units al)).
  { apply alloc_ok_nonneg. pose proof (inv_allocs _ _ Hinv) as H. rewrite Forall_forall in H. auto. }
  destruct Hnn as (Hq & Hr & Hc & Hh). pose proof (go_open _ _ Hgo g Hg) as [Hrq _]. pose proof (go_free _ _ Hgo al g Hl) as [Hfree _].
  pose proof (ao_revoked _ Hok row w g Hrow Hw Hg Hid) as Hrev.
  unfold operatorGrantRow. rewrite <- Hid, Eal. cbn [mbind option_bind]. eexists. split; [reflexivity|]. split; [reflexivity|].
  unfold toOperatorGrantRecord, revokedColumns. rewrite Est.
  cbn [mbind option_bind ogr_quantity ogr_reversed_quantity ogr_consumed_quantity ogr_held_quantity ogr_revoked_at ogr_revoked_quantity
    ogr_revocation_actor ogr_revocation_reason ogr_allocation_reversed ogr_expired ogr_id ogr_billing_account_id ogr_feature_key
    ogr_entity_external_id ogr_allocation_id ogr_expires_at ogr_actor ogr_reason ogr_created_at].
  rewrite !allocationUnits_numeric by (done || lia). cbn [mbind result_bind].
  set (k := 10 ^ (9 - credit_scale (w_feature w))). assert (Hk : 0 < k) by (apply Z.pow_pos_nonneg; unfold walletScale in Hs; lia).
  replace (u_quantity (al_units al) * k - u_reversed (al_units al) * k - u_consumed (al_units al) * k - u_held (al_units al) * k)
    with (u_free (al_units al) * k) by (unfold u_free; ring).
  replace (u_free (al_units al) * k <? 0) with false by (symmetry; apply Z.ltb_ge; nia). rewrite orb_false_r.
  assert (Hav : forall b : bool, (if b then 0 else u_free (al_units al) * k) = (if b then 0 else u_free (al_units al)) * k) by (intros []; lia).
  assert (Hzero : unitsToDecimal 0 9 = unitsToDecimal 0 (credit_scale (w_feature w)))
    by (rewrite <- (unitsToDecimal_rescale 0 (credit_scale (w_feature w)) 9) by (unfold walletScale in Hs; lia); by rewrite Z.mul_0_l).
  unfold recordOf, revocationRecord. unfold walletScale in *.
  destruct (og_revoked_at g) as [t|] eqn:Et; cbn [mbind option_bind fmap option_fmap option_map fst snd].
  - destruct (gr_revocation row) as [rv|]; [|destruct (proj2 Hrev (ex_intro _ t eq_refl)); done].
    cbn [fmap option_fmap option_map]. rewrite allocationUnits_numeric by (done || lia). cbn [mbind result_bind orb].
    unfold k, allocationScale. rewrite Hzero, !unitsToDecimal_rescale by (done || lia). by rewrite Hid.
  - destruct (gr_revocation row) as [rv|]; [destruct (proj1 Hrev (ex_intro _ rv eq_refl)); done|].
    cbn [fmap option_fmap option_map mbind result_bind orb]. rewrite Hav. unfold k, allocationScale.
    rewrite !unitsToDecimal_rescale by (done || lia || destruct (isReversed al || expiredAt now al); lia). by rewrite Hid.
Qed.
End View.

(** ** A new grant *)

Lemma wallet_inv_add scale s al gs : wallet_inv scale s -> al_id al ∉ map al_id (s_allocs s) -> alloc_ok al -> u_held (al_units al) = 0 ->
  wallet_inv scale {| s_allocs := s_allocs s ++ [al]; s_reservations := s_reservations s; s_holds := s_holds s; s_grants := gs |}.
Proof.
  intros [Hi Ha Hled Hres Hh Hk Hsc Hback] Hnew Hok H0.
  assert (Hno : forall h, h ∈ s_holds s -> h_allocation h <> al_id al).
  { intros h Hin E. rewrite Forall_forall in Hh. destruct (Hh h Hin) as (_ & _ & _ & Hm & _). congruence. }
  constructor; cbn.
  - rewrite map_app. apply NoDup_app. split; [done|]. split; [|apply NoDup_singleton].
    intros x Hx Hx'%list_elem_of_singleton. congruence.
  - apply Forall_app. auto.
  - intros a [Hin| ->%list_elem_of_singleton]%elem_of_app; [by apply Hled|]. rewrite H0. symmetry. apply amountFor_notin.
    unfold openHolds. cbn. rewrite map_map. cbn. intros (h & E & Hin)%list_elem_of_fmap. by apply (Hno h Hin).
  - done.
  - eapply Forall_impl; [exact Hh|]. intros h (? & ? & Hact & ? & ?). unfold hold_ok. cbn. rewrite map_app.
    do 2 (split; [done|]). split; [exact Hact|]. split; [apply elem_of_app; by left|done].
  - done.
  - intros h a r Hin [Ha'| ->%list_elem_of_singleton]%elem_of_app Hr Hid Hrid; [by apply (Hsc h a r)|]. by destruct (Hno h Hin).
  - done.
Qed.

Lemma grants_ok_add d s al g : grants_ok d s -> al_id al ∉ map al_id (s_allocs s) -> og_id g ∉ map og_id (s_grants s) ->
  al_operator al = true -> al_operator_grant_id al = Some (og_id g) -> al_reversed_at al = None ->
  u_reversed (al_units al) = 0 -> 0 <= u_free (al_units al) -> d (al_id al) = 0 -> og_revoked_quantity g = 0 -> og_revoked_at g = None ->
  grants_ok d {| s_allocs := s_allocs s ++ [al]; s_reservations := s_reservations s; s_holds := s_holds s; s_grants := s_grants s ++ [g] |}.
Proof.
  intros [ [Hnd Hone Hrev] Hop Hst Hun Hal Hopen Hled Hfree] Hnew Hg Ho Hid Hr Hu Hf Hd Hq Hat.
  assert (Hold : forall a, a ∈ s_allocs s -> al_operator_grant_id a <> Some (og_id g)).
  { intros a Ha E. destruct (Hst a _ Ha E) as (h & Hh & Eh). apply Hg. rewrite <- Eh. by apply list_elem_of_fmap_2. }
  set (s' := {| s_allocs := _ |}).
  assert (Hsplit : forall a h, grantOf s' a h -> grantOf s a h \/ (a = al /\ h = g)).
  { intros a h ([Ha| ->%list_elem_of_singleton]%elem_of_app & [Hh| ->%list_elem_of_singleton]%elem_of_app & E).
    - left. done.
    - exfalso. by apply (Hold a Ha).
    - exfalso. apply Hg. rewrite Hid in E. injection E as ->. by apply list_elem_of_fmap_2.
    - by right. }
  constructor; [constructor| | | | | | |]; cbn [s' s_allocs s_grants].
  - rewrite map_app. apply NoDup_app. split; [done|]. split; [|apply NoDup_singleton].
    intros x Hx Hx'%list_elem_of_singleton. congruence.
  - intros a b gid [Ha| ->%list_elem_of_singleton]%elem_of_app [Hb| ->%list_elem_of_singleton]%elem_of_app Ea Eb; [by apply (Hone a b gid)| | |done].
    + exfalso. apply (Hold a Ha). congruence.
    + exfalso. apply (Hold b Hb). congruence.
  - intros a h [H|[-> ->] ]%Hsplit E; [by apply (Hrev a h)|]. unfold revokedOperator in E. by rewrite Hr, andb_false_r in E.
  - intros a [Ha| ->%list_elem_of_singleton]%elem_of_app; [by apply Hop|]. rewrite Ho, Hid. by split; [eauto|].
  - intros a gid [Ha| ->%list_elem_of_singleton]%elem_of_app E.
    + destruct (Hst a gid Ha E) as (h & Hh & Eh). exists h. split; [apply elem_of_app; by left|done].
    + exists g. split; [apply elem_of_app; right; constructor|]. congruence.
  - rewrite map_app. apply NoDup_app. split; [done|]. split; [|apply NoDup_singleton].
    intros x Hx Hx'%list_elem_of_singleton. congruence.
  - intros h [Hh| ->%list_elem_of_singleton]%elem_of_app.
    + destruct (Hal h Hh) as (a & Ha & _ & E). exists a. split; [apply elem_of_app; by left|]. split; [apply elem_of_app; by left|done].
    + exists al. split; [apply elem_of_app; right; constructor|]. split; [apply elem_of_app; right; constructor|done].
  - intros h [Hh| ->%list_elem_of_singleton]%elem_of_app; [by apply Hopen|]. rewrite Hq. split; [lia|done].
  - intros a h [H|[-> ->] ]%Hsplit; [by apply Hled|]. lia.
  - intros a h [H|[-> ->] ]%Hsplit; [by apply (Hfree a h)|]. split; [done|]. unfold isReversed. by rewrite Hr.
Qed.

(** One wallet of the list takes a new element. *)
Lemma concat_insert (ids ids' : FeatureWallet -> list Z) x w ws :
  NoDup (map featureId ws) -> w ∈ ws ->
  (forall v, v ∈ ws -> ids' v = if featureId v =? featureId w then ids v ++ [x] else ids v) ->
  concat (map ids' ws) ≡ₚ x :: concat (map ids ws).
Proof.
  induction ws as [|v ws IH]; intros Hnd Hw H; [by apply elem_of_nil in Hw|]. cbn in *.
  apply NoDup_cons in Hnd as [Hv Hnd]. rewrite (H v) by constructor. apply elem_of_cons in Hw as [->|Hw].
  - rewrite Z.eqb_refl. enough (E : map ids' ws = map ids ws).
    { rewrite E, <- app_assoc. cbn. symmetry. apply Permutation_middle. }
    apply map_ext_in. intros u Hu%list_elem_of_In. rewrite H by (by constructor). destruct (Z.eqb_spec (featureId u) (featureId v)) as [E|]; [|done].
    exfalso. apply Hv. rewrite <- E. by apply list_elem_of_fmap_2.
  - destruct (Z.eqb_spec (featureId v) (featureId w)) as [E|].
    { exfalso. apply Hv. rewrite E. by apply list_elem_of_fmap_2. }
    rewrite (IH Hnd Hw) by (intros; apply H; by constructor). symmetry. apply Permutation_middle.
Qed.

Lemma readGrant_find a now p : account_ok a ->
  readOperatorGrant now p a = match List.find p (ac_grants a) with Some row => operatorGrantRow now a row | None => None end.
Proof.
  intros Hok. unfold readOperatorGrant.
  assert (Hall : forall row, row ∈ ac_grants a -> is_Some (operatorGrantRow now a row)).
  { intros row Hrow. destruct (row_grant a Hok row Hrow) as (w & al & g & Hw & Hl & Hid).
    destruct (row_record a Hok now row w al g Hrow Hw Hl Hid) as (r & -> & _). eauto. }
  revert Hall. generalize (ac_grants a). intros l. induction l as [|row l IH]; intros Hall; [done|]. cbn.
  destruct (p row); cbn.
  - destruct (Hall row ltac:(constructor)) as [r Hr]. by rewrite Hr.
  - apply IH. intros. apply Hall. by constructor.
Qed.

Lemma find_by_id {A} (key : A -> Z) l x : NoDup (map key l) -> x ∈ l -> List.find (fun y => key y =? key x) l = Some x.
Proof.
  intros Hnd Hx. apply find_the; [done|apply Z.eqb_refl|]. intros y Hy E%Z.eqb_eq. by eapply NoDup_key_inj.
Qed.

(** The record of a grant of the account. *)
Lemma require_record a now row : account_ok a -> row ∈ ac_grants a -> exists w al g,
  w ∈ ac_wallets a /\ grantOf (w_store w) al g /\ og_id g = gr_id row /\
  requireOperatorGrant now (gr_id row) a = Ok (recordOf a now row w al g).
Proof.
  intros Hok Hrow. destruct (row_grant a Hok row Hrow) as (w & al & g & Hw & Hl & Hid). exists w, al, g.
  do 3 (split; [done|]). unfold requireOperatorGrant. rewrite readGrant_find by done.
  rewrite (find_by_id gr_id (ac_grants a) row (ao_rowIds _ Hok) Hrow).
  destruct (row_record a Hok now row w al g Hrow Hw Hl Hid) as (r & -> & _ & ->). done.
Qed.

(** ** Changes of an account that keep its rows' ids *)

Lemma concat_map_same {A} (f f' : FeatureWallet -> list A) ws : (forall w, w ∈ ws -> f' w = f w) -> concat (map f' ws) = concat (map f ws).
Proof. intros H. f_equal. apply map_ext_in. intros w Hw%list_elem_of_In. auto. Qed.

(** The wallets after a change of their stores, row ids kept. *)
Record restored (h : FeatureWallet -> FeatureWallet) (ws : list FeatureWallet) : Prop := {
  rs_feature : forall w, w ∈ ws -> w_feature (h w) = w_feature w;
  rs_ids : forall w, w ∈ ws -> walletIds (h w) = walletIds w;
  rs_stored : forall w, w ∈ ws -> walletGrants (h w) = walletGrants w }.

Lemma account_ok_build a a' h : account_ok a -> restored h (ac_wallets a) -> ac_wallets a' = map h (ac_wallets a) ->
  (forall w, w ∈ ac_wallets a -> wallet_inv (walletScale w) (w_store (h w)) /\
    grants_ok (debited (walletScale w) (ac_lines a')) (w_store (h w))) ->
  map gr_id (ac_grants a') = map gr_id (ac_grants a) ->
  map gr_idempotency_key (ac_grants a') = map gr_idempotency_key (ac_grants a) ->
  (forall row w g, row ∈ ac_grants a' -> w ∈ ac_wallets a -> g ∈ s_grants (w_store (h w)) -> og_id g = gr_id row ->
    is_Some (gr_revocation row) <-> is_Some (og_revoked_at g)) ->
  (forall r1 r2 key, r1 ∈ ac_grants a' -> r2 ∈ ac_grants a' ->
    rv_idempotency_key <$> gr_revocation r1 = Some key -> rv_idempotency_key <$> gr_revocation r2 = Some key -> gr_id r1 = gr_id r2) ->
  NoDup (map db_id (ac_debits a')) -> NoDup (map db_idempotency_key (ac_debits a')) ->
  (forall line, line ∈ ac_lines a' -> dl_debit_id line ∈ map db_id (ac_debits a') /\
    dl_allocation_id line ∈ allocIds a /\ canonicalDecimal (dl_quantity line) "quantity" 9 = Ok (dl_quantity line)) ->
  account_ok a'.
Proof.
  intros Hok [Hf Hi Hg] Hws Hst Hids Hkeys Hrev Hrk Hdb Hdk Hl.
  assert (Eids : allocIds a' = allocIds a) by (unfold allocIds; rewrite Hws, map_map; by apply concat_map_same).
  assert (Est : storedIds a' = storedIds a) by (unfold storedIds; rewrite Hws, map_map; by apply concat_map_same).
  constructor; rewrite ?Eids, ?Est, ?Hids, ?Hkeys; try done; try apply Hok.
  - rewrite Hws, map_map. erewrite map_ext_in; [apply (ao_features _ Hok)|]. intros w Hw%list_elem_of_In. unfold featureId. by rewrite Hf.
  - rewrite Hws. intros w (v & -> & Hv)%list_elem_of_fmap. unfold walletScale. rewrite Hf by done. by apply (ao_scales _ Hok).
  - rewrite Hws. intros w (v & -> & Hv)%list_elem_of_fmap. unfold walletScale. rewrite Hf by done. by apply Hst.
  - rewrite Hws. intros w (v & -> & Hv)%list_elem_of_fmap. unfold walletScale. rewrite Hf by done. by apply Hst.
  - rewrite Hws. intros row w g Hrow (v & -> & Hv)%list_elem_of_fmap. by apply Hrev.
Qed.

(** ** Using a wallet *)

Definition putStore (fid : Z) (s : Store) (w : FeatureWallet) : FeatureWallet :=
  if featureId w =? fid then set_store w s else w.
Definition useWallet (a : Account) (w : FeatureWallet) (s : Store) : Account :=
  set_wallets a (map (putStore (featureId w) s) (ac_wallets a)).

Lemma putStore_cases a w v s : account_ok a -> w ∈ ac_wallets a -> v ∈ ac_wallets a ->
  (v = w /\ putStore (featureId w) s v = set_store w s) \/ (v <> w /\ putStore (featureId w) s v = v).
Proof.
  intros Hok Hw Hv. unfold putStore. destruct (Z.eqb_spec (featureId v) (featureId w)) as [E|E].
  - left. assert (v = w) as -> by (by eapply NoDup_key_inj; [apply (ao_features _ Hok)|..]). done.
  - right. split; [congruence|done].
Qed.

Lemma settlesTo_ids s s' : settlesTo s s' -> map al_id (s_allocs s') = map al_id (s_allocs s) /\ map og_id (s_grants s') = map og_id (s_grants s) /\
  (forall g', g' ∈ s_grants s' -> exists g, g ∈ s_grants s /\ sameGrant g g').
Proof.
  intros (F & G & Ea & Eg & HF & HG & _). rewrite Ea, Eg, !map_map. split; [|split].
  - apply map_ext_in. intros x Hx%list_elem_of_In. by destruct (HF x Hx).
  - apply map_ext_in. intros x Hx%list_elem_of_In. by destruct (HG x Hx).
  - intros g' (g & -> & Hg)%list_elem_of_fmap. eauto.
Qed.

Lemma use_account_ok a w rate s' : account_ok a -> w ∈ ac_wallets a -> step (w_feature w) rate (w_store w) s' -> account_ok (useWallet a w s').
Proof.
  intros Hok Hw Hstep. pose proof (ao_wallets _ Hok w Hw) as Hinv. pose proof (ao_grants _ Hok w Hw) as Hgo.
  pose proof (step_inv _ _ _ _ Hinv Hstep) as Hinv'. pose proof (step_grants_ok _ _ _ _ _ Hinv Hgo Hstep) as Hgo'.
  destruct (step_advances _ rate _ s' Hinv (go_paired _ _ Hgo) Hstep) as [Hs _]. destruct (settlesTo_ids _ _ Hs) as (Eids & Egr & Hback).
  apply (account_ok_build a _ (putStore (featureId w) s')); try done; try apply Hok.
  - constructor; intros v Hv; destruct (putStore_cases a w v s' Hok Hw Hv) as [ [-> ->]|[_ ->] ]; done.
  - intros v Hv. destruct (putStore_cases a w v s' Hok Hw Hv) as [ [-> ->]|[_ ->] ]; [done|]. split; by apply Hok.
  - intros row v g Hrow Hv Hg Hid. destruct (putStore_cases a w v s' Hok Hw Hv) as [ [-> E]|[_ E] ]; rewrite E in Hg.
    + destruct (Hback g Hg) as (g0 & Hg0 & Ei & ->). apply (ao_revoked _ Hok row w g0 Hrow Hw Hg0). congruence.
    + by apply (ao_revoked _ Hok row v g).
Qed.

(** ** Granting *)

Definition grantRow (input : OperatorGrantInput) (requestHash : text) (gid now : Z) : GrantRow :=
  {| gr_id := gid; gr_actor := gi_actor input; gr_reason := gi_reason input;
     gr_idempotency_key := gi_idempotencyKey input; gr_request_hash := requestHash; gr_created_at := now; gr_revocation := None |}.
Definition granted (a : Account) (row : GrantRow) (w : FeatureWallet) (al : Alloc) : Account :=
  set_wallets (set_grants a (ac_grants a ++ [row])) (map (insertGrant (featureId w) al (gr_id row)) (ac_wallets a)).

Lemma granted_ok a row w aid n entity expiresAt now : account_ok a -> w ∈ ac_wallets a -> 0 < n ->
  gr_id row ∉ map gr_id (ac_grants a) -> gr_idempotency_key row ∉ map gr_idempotency_key (ac_grants a) ->
  gr_revocation row = None -> aid ∉ allocIds a ->
  account_ok (granted a row w (operatorAllocation aid (gr_id row) n entity expiresAt now)).
Proof.
  intros Hok Hw Hn Hgid Hkey Hrv Haid. set (al := operatorAllocation aid (gr_id row) n entity expiresAt now).
  set (g := {| og_id := gr_id row; og_revoked_quantity := 0; og_revoked_at := None |}).
  set (h := insertGrant (featureId w) al (gr_id row)).
  assert (Hgs : gr_id row ∉ storedIds a) by (by rewrite <- (ao_rows _ Hok)).
  assert (Hcase : forall v, v ∈ ac_wallets a ->
    (v = w /\ h v = set_store w {| s_allocs := s_allocs (w_store w) ++ [al]; s_reservations := s_reservations (w_store w);
                      s_holds := s_holds (w_store w); s_grants := s_grants (w_store w) ++ [g] |}) \/ (v <> w /\ h v = v)).
  { intros v Hv. unfold h, insertGrant. change (f_id (w_feature v)) with (featureId v). destruct (Z.eqb_spec (featureId v) (featureId w)) as [E|E].
    - left. assert (v = w) as -> by (by eapply NoDup_key_inj; [apply (ao_features _ Hok)|..]). done.
    - right. split; [congruence|done]. }
  assert (Hf : forall v, w_feature (h v) = w_feature v) by (intros v; unfold h, insertGrant; by destruct (_ =? _)).
  assert (Pids : allocIds (granted a row w al) ≡ₚ aid :: allocIds a).
  { unfold allocIds, granted. cbn [ac_wallets set_wallets]. rewrite map_map. apply (concat_insert walletIds _ aid w); [apply Hok|done|].
    intros v Hv. unfold walletIds, insertGrant. change (f_id (w_feature v)) with (featureId v). destruct (_ =? _); [|done]. cbn. by rewrite map_app. }
  assert (Pst : storedIds (granted a row w al) ≡ₚ gr_id row :: storedIds a).
  { unfold storedIds, granted. cbn [ac_wallets set_wallets]. rewrite map_map. apply (concat_insert walletGrants _ (gr_id row) w); [apply Hok|done|].
    intros v Hv. unfold walletGrants, insertGrant. change (f_id (w_feature v)) with (featureId v). destruct (_ =? _); [|done]. cbn. by rewrite map_app. }
  assert (Hout : aid ∉ map al_id (s_allocs (w_store w))) by (intros Hin; apply Haid, concat_in; eauto).
  assert (Hgout : gr_id row ∉ map og_id (s_grants (w_store w))) by (intros Hin; apply Hgs, concat_in; eauto).
  constructor; cbn [granted ac_wallets ac_grants ac_debits ac_lines set_wallets set_grants].
  - rewrite Pids. constructor; [done|apply Hok].
  - rewrite Pst. constructor; [done|apply Hok].
  - rewrite map_map. erewrite map_ext; [apply (ao_features _ Hok)|]. intros v. unfold featureId. f_equal. apply Hf.
  - intros v' (v & -> & Hv)%list_elem_of_fmap. unfold walletScale. rewrite Hf. by apply (ao_scales _ Hok).
  - intros v' (v & -> & Hv)%list_elem_of_fmap. unfold walletScale. fold h. rewrite Hf. destruct (Hcase v Hv) as [ [-> ->]|[_ ->] ]; [|by apply (ao_wallets _ Hok)].
    apply wallet_inv_add; [by apply (ao_wallets _ Hok)|done| |done]. split; [|done]. unfold units_ok. cbn. lia.
  - intros v' (v & -> & Hv)%list_elem_of_fmap. unfold walletScale. fold h. rewrite Hf. destruct (Hcase v Hv) as [ [-> ->]|[_ ->] ]; [|by apply (ao_grants _ Hok)].
    apply grants_ok_add; try done; [by apply (ao_grants _ Hok)|unfold u_free; cbn; lia|].
    cbn. unfold debited. assert (Hl : forall l, l ∈ ac_lines a -> (dl_allocation_id l =? aid) = false).
    { intros l Hl. apply Z.eqb_neq. intros E. destruct (ao_lines _ Hok l Hl) as (_ & Hin & _). congruence. }
    revert Hl. generalize (ac_lines a). intros ls. induction ls as [|l ls IH]; intros Hl; [done|]. cbn. rewrite Hl by constructor.
    rewrite IH; [done|]. intros. apply Hl. by constructor.
  - intros gid. rewrite Pst, map_app, elem_of_app, elem_of_cons, (ao_rows _ Hok gid). cbn. rewrite list_elem_of_singleton. tauto.
  - rewrite map_app. apply NoDup_app. split; [apply Hok|]. split; [|apply NoDup_singleton].
    intros x Hx Hx'%list_elem_of_singleton. congruence.
  - rewrite map_app. apply NoDup_app. split; [apply Hok|]. split; [|apply NoDup_singleton].
    intros x Hx Hx'%list_elem_of_singleton. congruence.
  - intros r v' g' [Hr| ->%list_elem_of_singleton]%elem_of_app (v & -> & Hv)%list_elem_of_fmap Hg' Hid; fold h in Hg';
      destruct (Hcase v Hv) as [ [-> E]|[_ E] ]; rewrite E in Hg'; try (apply elem_of_app in Hg' as [Hg'| ->%list_elem_of_singleton] ).
    + by apply (ao_revoked _ Hok r w g').
    + exfalso. apply Hgid. change (og_id g) with (gr_id row) in Hid. rewrite Hid. by apply list_elem_of_fmap_2.
    + by apply (ao_revoked _ Hok r v g').
    + exfalso. apply Hgout. rewrite <- Hid. by apply list_elem_of_fmap_2.
    + rewrite Hrv. cbn. by split; intros [? ?].
    + exfalso. apply Hgs, concat_in. exists v. split; [done|]. rewrite <- Hid. by apply list_elem_of_fmap_2.
  - intros r1 r2 key [H1| ->%list_elem_of_singleton]%elem_of_app [H2| ->%list_elem_of_singleton]%elem_of_app E1 E2;
      [by apply (ao_revocationKeys _ Hok r1 r2 key)|by rewrite Hrv in E2|by rewrite Hrv in E1|done].
  - apply Hok.
  - apply Hok.
  - intros l Hl. destruct (ao_lines _ Hok l Hl) as (H1 & H2 & H3). split; [done|]. split; [|done]. rewrite Pids. by constructor.
Qed.

(** ** Revoking *)

Lemma wallet_inv_update scale s f gs : wallet_inv scale s ->
  (forall x, x ∈ s_allocs s -> al_id (f x) = al_id x /\ al_entity (f x) = al_entity x /\
    u_held (al_units (f x)) = u_held (al_units x) /\ alloc_ok (f x)) ->
  wallet_inv scale {| s_allocs := map f (s_allocs s); s_reservations := s_reservations s; s_holds := s_holds s; s_grants := gs |}.
Proof.
  intros [Hi Ha Hled Hres Hh Hk Hsc Hback] Hf.
  assert (Hids : map al_id (map f (s_allocs s)) = map al_id (s_allocs s)).
  { rewrite map_map. apply map_ext_in. intros x Hx%list_elem_of_In. by destruct (Hf x Hx). }
  constructor; cbn.
  - by rewrite Hids.
  - apply Forall_map, Forall_forall. intros x Hx. by destruct (Hf x Hx) as (_ & _ & _ & ?).
  - intros a (x & -> & Hx)%list_elem_of_fmap. destruct (Hf x Hx) as (-> & _ & -> & _). by apply Hled.
  - done.
  - eapply Forall_impl; [exact Hh|]. intros h (? & ? & Hact & ? & ?). unfold hold_ok. cbn. rewrite Hids.
    do 2 (split; [done|]). split; [exact Hact|]. by split.
  - done.
  - intros h a r Hin (x & -> & Hx)%list_elem_of_fmap Hr. destruct (Hf x Hx) as (-> & He & _). unfold sharedWith. rewrite He.
    intros. by apply (Hsc h x r).
  - done.
Qed.

(** The rows of a store after a revocation, [al] and [g] being the grant's. *)
Definition revokedStore (expired : bool) (gid aid now n : Z) (s : Store) : Store :=
  markRevoked gid now n (if expired then s else updateAlloc aid (revokeAlloc now) s).
(** What a revocation takes back. *)
Definition takenBack (expired : bool) (al : Alloc) : Z :=
  if expired then 0 else u_reversed (revokeUnits (al_units al)) - u_reversed (al_units al).

Definition revokedAlloc (expired : bool) (aid now : Z) (x : Alloc) : Alloc :=
  if expired then x else if al_id x =? aid then revokeAlloc now x else x.

Lemma revokedStore_allocs expired gid aid now n s :
  s_allocs (revokedStore expired gid aid now n s) = map (revokedAlloc expired aid now) (s_allocs s).
Proof. unfold revokedStore, revokedAlloc. destruct expired; cbn; [by rewrite map_id|done]. Qed.

Lemma revokeAlloc_ok now al : alloc_ok al -> 0 <= u_free (al_units al) ->
  alloc_ok (revokeAlloc now al) /\ u_free (al_units (revokeAlloc now al)) = 0.
Proof.
  intros [(H1 & H2 & H3 & H4) _] Hf. unfold alloc_ok, units_ok, revokeAlloc, revokeUnits, u_free in *.
  cbn [al_units u_quantity u_reversed u_consumed u_held]. split; [split; [|intros _]|]; lia.
Qed.

Lemma revokedStore_ok scale d expired al g now s : wallet_inv scale s -> grants_ok d s -> grantOf s al g -> og_revoked_at g = None ->
  let s' := revokedStore expired (og_id g) (al_id al) now (takenBack expired al) s in
  wallet_inv scale s' /\ grants_ok d s'.
Proof.
  intros Hinv Hgo Hl Hnone s'. pose proof Hl as (Hal & Hg & Hid).
  pose proof (go_free _ _ Hgo al g Hl) as [Hfree _]. pose proof (inv_allocs _ _ Hinv) as Hall. rewrite Forall_forall in Hall.
  assert (Hrevoked : al_reversed_at al = None).
  { destruct (al_reversed_at al) eqn:E; [|done]. destruct (pr_revoked _ (go_paired _ _ Hgo) al g Hl) as [? ?]; [|congruence].
    rewrite (grantOf_operator _ _ _ _ Hgo Hl). unfold isReversed. by rewrite E. }
  assert (Hthe : forall x, x ∈ s_allocs s -> al_id x = al_id al -> x = al).
  { intros x Hx E. by eapply NoDup_key_inj; [apply (inv_ids _ _ Hinv)|..]. }
  split.
  - assert (E : s' = {| s_allocs := map (revokedAlloc expired (al_id al) now) (s_allocs s); s_reservations := s_reservations s;
        s_holds := s_holds s; s_grants := s_grants s' |}).
    { unfold s'. rewrite <- (revokedStore_allocs expired (og_id g) (al_id al) now (takenBack expired al)).
      unfold revokedStore. by destruct expired. }
    rewrite E. apply wallet_inv_update; [done|]. intros x Hx. unfold revokedAlloc. destruct expired; [by auto|].
    destruct (Z.eqb_spec (al_id x) (al_id al)) as [Ex|]; [|by auto]. rewrite (Hthe x Hx Ex). do 3 (split; [done|]).
    apply revokeAlloc_ok; auto.
  - set (G := fun y => if og_id y =? og_id g then {| og_id := og_id y; og_revoked_quantity := takenBack expired al; og_revoked_at := Some now |} else y).
    apply (grants_ok_map d d s s' (revokedAlloc expired (al_id al) now) G Hgo); [apply revokedStore_allocs|by destruct expired| | |].
    + intros x _. unfold revokedAlloc. destruct expired; [done|]. by destruct (_ =? _).
    + intros y _. unfold G. by destruct (_ =? _).
    + intros x y Hxy. pose proof (go_ledger _ _ Hgo x y Hxy) as Hled. pose proof (go_free _ _ Hgo x y Hxy) as [Hf0 Hfr].
      pose proof (go_open _ _ Hgo y (proj1 (proj2 Hxy))) as [Hq0 Hqn]. pose proof (grantOf_operator _ _ _ _ Hgo Hxy) as Hop.
      pose proof (pr_revoked _ (go_paired _ _ Hgo) x y Hxy) as Hrev. destruct Hxy as (Hx & Hy & Hxid).
      unfold G. destruct (Z.eqb_spec (og_id y) (og_id g)) as [Ey|Ey].
      * assert (x = al) as -> by (apply (pr_one _ (go_paired _ _ Hgo) x al (og_id g)); congruence).
        assert (y = g) as -> by (by eapply NoDup_key_inj; [apply (go_unique _ _ Hgo)|..]). cbn [og_revoked_at og_revoked_quantity].
        unfold revokedAlloc, takenBack. rewrite Z.eqb_refl, (Hqn Hnone) in *. unfold isReversed in *. destruct expired.
        -- rewrite Hrevoked. repeat split; intros; try done; try lia; eauto.
        -- destruct (revokeAlloc_ok now al (Hall al Hal) Hfree) as [_ E]. rewrite E. cbn [revokeAlloc al_units] in *.
           split; [eauto|]. split; [cbn; lia|]. split; [done|]. split; [cbn in *; lia|]. split; [lia|done].
      * assert (Hne : al_id x =? al_id al = false).
        { apply Z.eqb_neq. intros E. apply Ey. rewrite (Hthe x Hx E) in Hxid. congruence. }
        unfold revokedAlloc. rewrite Hne. replace (if expired then x else x) with x by (by destruct expired). rewrite Hop in Hrev. auto 10.
Qed.

(** The account after revoking the grant [g] of [al]. *)
Definition revokedAccount (a : Account) (input : OperatorGrantRevokeInput) (requestHash : text) (expired : bool)
  (gid aid now n : Z) : Account :=
  set_grants (updateWallets (revokedStore expired gid aid now n) a)
    (map (fun row => if gr_id row =? gid then revokeRow input requestHash row else row) (ac_grants a)).

Lemma map_same {A} (f : A -> A) l : (forall x, x ∈ l -> f x = x) -> map f l = l.
Proof. intros H. rewrite <- (map_id l) at 2. apply map_ext_in. intros x Hx%list_elem_of_In. auto. Qed.

Lemma store_eta s : {| s_allocs := s_allocs s; s_reservations := s_reservations s; s_holds := s_holds s; s_grants := s_grants s |} = s.
Proof. by destruct s. Qed.

Lemma revokedAccount_ok a input requestHash row w al g now : account_ok a -> row ∈ ac_grants a -> w ∈ ac_wallets a ->
  grantOf (w_store w) al g -> og_id g = gr_id row -> og_revoked_at g = None ->
  (forall r, r ∈ ac_grants a -> rv_idempotency_key <$> gr_revocation r = Some (ri_idempotencyKey input) -> gr_id r = gr_id row) ->
  let expired := expiredAt now al in
  account_ok (revokedAccount a input requestHash expired (gr_id row) (al_id al) now (takenBack expired al)).
Proof.
  intros Hok Hrow Hw Hl Hid Hnone Hkey expired. set (n := takenBack expired al).
  set (h := fun v => set_store v (revokedStore expired (gr_id row) (al_id al) now n (w_store v))).
  assert (Hother : forall v, v ∈ ac_wallets a -> v <> w -> w_store (h v) = w_store v).
  { intros v Hv Hne. unfold h, revokedStore. cbn [w_store set_store].
    assert (Hu : updateAlloc (al_id al) (revokeAlloc now) (w_store v) = w_store v).
    { unfold updateAlloc, set_allocs. rewrite map_same; [apply store_eta|]. intros x Hx.
      destruct (Z.eqb_spec (al_id x) (al_id al)) as [E|]; [|done]. exfalso. apply Hne.
      apply (concat_same walletIds (ac_wallets a) v w (al_id al) (ao_ids _ Hok) Hv Hw); [rewrite <- E|]; apply list_elem_of_fmap_2; [done|apply Hl]. }
    replace (if expired then w_store v else updateAlloc (al_id al) (revokeAlloc now) (w_store v)) with (w_store v) by (by destruct expired).
    unfold markRevoked. rewrite map_same; [apply store_eta|]. intros y Hy. destruct (Z.eqb_spec (og_id y) (gr_id row)) as [E|]; [|done].
    exfalso. apply Hne. by destruct (stored_unique a Hok v w y g Hv Hw Hy (proj1 (proj2 Hl)) ltac:(congruence)). }
  assert (Hrows : forall r', r' ∈ map (fun r => if gr_id r =? gr_id row then revokeRow input requestHash r else r) (ac_grants a) ->
    exists r, r ∈ ac_grants a /\ gr_id r' = gr_id r /\ ((gr_id r = gr_id row /\ r' = revokeRow input requestHash r) \/ (gr_id r <> gr_id row /\ r' = r))).
  { intros r' (r & -> & Hr)%list_elem_of_fmap. exists r. split; [done|]. destruct (Z.eqb_spec (gr_id r) (gr_id row)); auto. }
  pose proof (revokedStore_ok (walletScale w) _ expired al g now (w_store w) (ao_wallets _ Hok w Hw) (ao_grants _ Hok w Hw) Hl Hnone) as Hst.
  rewrite Hid in Hst.
  apply (account_ok_build a _ h Hok); try done; try apply Hok.
  - constructor; [done| |].
    + intros v Hv. unfold walletIds, h. cbn [w_store set_store]. rewrite revokedStore_allocs, map_map. apply map_ext. intros x.
      unfold revokedAlloc. destruct expired; [done|]. by destruct (_ =? _).
    + intros v Hv. unfold walletGrants, h. cbn [w_store set_store revokedStore markRevoked s_grants]. rewrite map_map.
      unfold updateAlloc. destruct expired; cbn; apply map_ext; intros y; by destruct (_ =? _).
  - intros v Hv. destruct (decide (featureId v = featureId w)) as [E|E].
    + assert (v = w) as -> by (by eapply NoDup_key_inj; [apply (ao_features _ Hok)|..]). exact Hst.
    + rewrite (Hother v Hv) by congruence. split; by apply Hok.
  - cbn. rewrite map_map. apply map_ext. intros r. by destruct (_ =? _).
  - cbn. rewrite map_map. apply map_ext. intros r. by destruct (_ =? _).
  - intros r' v y' Hr' Hv Hy' Ey. destruct (Hrows r' Hr') as (r & Hr & Er & Hc). unfold h in Hy'. cbn [w_store set_store revokedStore markRevoked s_grants] in Hy'.
    apply list_elem_of_fmap in Hy' as (y & -> & Hy). assert (Hy0 : y ∈ s_grants (w_store v)) by (by destruct expired). clear Hy.
    assert (Eyr : og_id y = gr_id r) by (rewrite <- Er, <- Ey; by destruct (_ =? _)).
    destruct Hc as [ [Erow ->]|[Erow ->] ].
    + replace (og_id y =? gr_id row) with true by (symmetry; apply Z.eqb_eq; congruence). cbn. by split; eauto.
    + replace (og_id y =? gr_id row) with false by (symmetry; apply Z.eqb_neq; congruence). by apply (ao_revoked _ Hok r v y).
  - intros r1' r2' key H1 H2 E1 E2. destruct (Hrows r1' H1) as (r1 & Hr1 & -> & Hc1), (Hrows r2' H2) as (r2 & Hr2 & -> & Hc2).
    destruct Hc1 as [ [-> ->]|[_ ->] ], Hc2 as [ [-> ->]|[_ ->] ]; cbn in *; [done| | |by apply (ao_revocationKeys _ Hok r1 r2 key)].
    + injection E1 as <-. symmetry. auto.
    + injection E2 as <-. auto.
Qed.

(** ** The order of a debit's lines *)

Definition idLess (l r : text) : bool := compareAllocationIds l r <? 0.

Lemma idLess_spec l r : idLess l r = true <->
  (length l < length r)%nat \/ (length l = length r /\ codeUnitLess l r = true).
Proof.
  unfold idLess, compareAllocationIds. destruct (Z.eqb_spec (Z.of_nat (length l) - Z.of_nat (length r)) 0) as [E|E].
  - assert (El : length l = length r) by lia. destruct (codeUnitLess l r) eqn:C.
    + split; [auto|done].
    + destruct (codeUnitLess r l); (split; [done|intros [?|[_ ?] ]; [lia|done] ]).
  - rewrite Z.ltb_lt. split; [intros; left; lia|intros [?|[? _] ]; lia].
Qed.

Lemma idLess_asym l r : idLess l r = true -> idLess r l = false.
Proof.
  intros H%idLess_spec. apply not_true_is_false. intros H'%idLess_spec.
  destruct H as [?|[? H] ], H' as [?|[? H'] ]; try lia. apply codeUnitLess_asym in H. congruence.
Qed.

Lemma idLess_total l r : idLess l r = false -> idLess r l = false -> l = r.
Proof.
  intros H1%not_true_iff_false H2%not_true_iff_false. rewrite idLess_spec in H1, H2.
  assert (E : length l = length r) by (destruct (Nat.lt_trichotomy (length l) (length r)) as [|[|] ]; tauto).
  apply codeUnitLess_total; apply not_true_is_false; intros C; [apply H1|apply H2]; right; (split; [lia|done]).
Qed.

Lemma idLess_trans l r t : idLess r l = false -> idLess t r = false -> idLess t l = false.
Proof.
  intros H1%not_true_iff_false H2%not_true_iff_false. apply not_true_is_false. intros H. rewrite idLess_spec in *.
  assert (E1 : (length l <= length r)%nat) by (destruct (Nat.le_gt_cases (length l) (length r)); [done|tauto]).
  assert (E2 : (length r <= length t)%nat) by (destruct (Nat.le_gt_cases (length r) (length t)); [done|tauto]).
  destruct H as [|[E H] ]; [lia|].
  assert (T : codeUnitLess t l = false); [|congruence].
  apply (codeUnitLess_trans l r t); apply not_true_is_false; intros Hc; [apply H1|apply H2]; right; (split; [lia|done]).
Qed.

Lemma lines_sorted l : StronglySorted (inOrder lineLess) (sortBy lineLess l).
Proof.
  apply sortBy_sorted; [intros x y; apply idLess_asym|]. intros x y z. unfold inOrder, lineLess. intros H1 H2.
  by apply (idLess_trans _ (li_allocationId y)).
Qed.

Definition line_ok (line : DebitLineInput) : Prop :=
  positiveIntegerPattern (li_allocationId line) = true /\ isBigintId (li_allocationId line) = true /\
  canonicalDecimal (li_quantity line) "quantity" 9 = Ok (li_quantity line).

Lemma checkLines_ok previous l : checkLines previous l = Ok tt -> StronglySorted (inOrder lineLess) l ->
  (forall p, previous = Some p -> Forall (fun line => idLess (li_allocationId line) p = false) l) ->
  NoDup (map li_allocationId l) /\ (forall p, previous = Some p -> p ∉ map li_allocationId l) /\
  Forall (fun line => positiveIntegerPattern (li_allocationId line) = true /\ isBigintId (li_allocationId line) = true) l.
Proof.
  intros H Hs. revert previous H. induction Hs as [|line l Hs IH Hline]; intros previous H Hp.
  { split; [constructor|]. split; [|constructor]. intros p _. apply not_elem_of_nil. }
  cbn [checkLines] in H. apply bind_Ok in H as (u1 & H1 & H). apply bind_Ok in H as (u2 & H2 & H).
  apply throwWhen_Ok, orb_false_iff in H1 as [H1%negb_false_iff H1'%negb_false_iff].
  apply throwWhen_Ok, bool_decide_eq_false in H2.
  destruct (IH (Some (li_allocationId line)) H) as (Hnd & Hout & Hall); [by intros p [= <-]|]. cbn [map].
  split; [constructor; [by apply Hout|done]|]. split; [|by constructor].
  intros p Ep. specialize (Hp p Ep). apply Forall_cons in Hp as [Hp0 Hp]. subst previous.
  apply not_elem_of_cons. split; [congruence|]. intros (line' & -> & Hin)%list_elem_of_fmap. apply H2. f_equal.
  rewrite Forall_forall in Hline. symmetry. apply idLess_total; [done|]. by apply Hline.
Qed.

(** What normalisation leaves: valid lines of distinct allocations, in order. *)
Lemma normalized_debit raw input : normalizeAdministrativeDebitInput raw = Ok input ->
  Forall line_ok (di_allocations input) /\ NoDup (map li_allocationId (di_allocations input)) /\
  StronglySorted (inOrder lineLess) (di_allocations input).
Proof.
  unfold normalizeAdministrativeDebitInput. intros H. apply bind_Ok in H as (u & _ & H). apply bind_Ok in H as (lines & Hlines & H).
  cbv zeta in H. apply bind_Ok in H as ([] & Hc & H). apply bind_Ok in H as (reason & _ & H). injection H as <-. cbn [di_allocations].
  pose proof (lines_sorted lines) as Hs. destruct (checkLines_ok None _ Hc Hs) as (Hnd & _ & Hall); [done|]. split; [|done].
  apply Forall_forall. intros line Hin. rewrite Forall_forall in Hall. destruct (Hall line Hin) as [H1 H2]. split; [done|]. split; [done|].
  rewrite sortBy_perm in Hin. destruct (Forall2_elem_r _ _ _ _ (proj1 (mapM_Ok_Forall2 _ _ _) Hlines) Hin) as (raw0 & _ & Hl).
  unfold normalizeLine in Hl. apply bind_Ok in Hl as (q & Hq & Hl). injection Hl as <-. cbn. by apply (canonicalDecimal_again _ _ "quantity") in Hq.
Qed.

(** A valid id is the text of its number. *)
Lemma positiveInteger_text id : positiveIntegerPattern id = true -> integerText (parseDigits id) = id /\ 0 < parseDigits id.
Proof.
  intros H. assert (Hc : canonicalInteger id = true /\ 0 < parseDigits id).
  { destruct id as [|c rest]; [done|]. cbn in H. apply andb_prop in H as [ [ [H1 H2]%andb_prop Hd]%andb_prop _].
    assert (Hd' : all_digits rest) by (by apply forallb_all_digits). pose proof (parseDigits_bounds rest Hd').
    assert (Hall : all_digits (c :: rest)) by (constructor; [apply isDigit_spec; lia|done]).
    split.
    - apply forallb_all_digits in Hall. unfold canonicalInteger. rewrite Hall.
      replace (c =? 48) with false by (symmetry; apply Z.eqb_neq; lia). done.
    - change (c :: rest) with ([c] ++ rest). rewrite parseDigits_app. change (parseDigits [c]) with (0 * 10 + (c - 48)).
      pose proof (Z.pow_pos_nonneg 10 (Z.of_nat (length rest)) ltac:(lia) ltac:(lia)). apply Z.leb_le in H1. nia. }
  destruct Hc as [Hc Hp]. split; [|done]. unfold integerText. replace (parseDigits id <? 0) with false by (symmetry; apply Z.ltb_ge; lia).
  by apply digits_parse.
Qed.

(** ** Debiting *)

Definition debitedAlloc (l : list (Z * Z)) (al : Alloc) : Alloc := with_units al (debitUnits (amountFor l (al_id al)) (al_units al)).
Definition debitedStore (l : list (Z * Z)) (s : Store) : Store := set_allocs s (map (debitedAlloc l) (s_allocs s)).

Lemma debitedAlloc_nil al : debitedAlloc [] al = al.
Proof. destruct al as [? [] ? ? ? ? ? ? ? ?]. unfold debitedAlloc, debitUnits, with_units, amountFor; cbn. by rewrite Z.add_0_r. Qed.

Lemma debitedStore_nil s : debitedStore [] s = s.
Proof. unfold debitedStore, set_allocs. rewrite map_same; [apply store_eta|]. intros x _. apply debitedAlloc_nil. Qed.

(** One more line. *)
Lemma debitedStore_snoc l aid n s : aid ∉ map fst l ->
  updateAlloc aid (fun al => with_units al (debitUnits n (al_units al))) (debitedStore l s) = debitedStore (l ++ [(aid, n)]) s.
Proof.
  intros Hout. unfold updateAlloc, debitedStore, set_allocs. cbn. f_equal. rewrite map_map. apply map_ext. intros x.
  unfold debitedAlloc. cbn [al_id with_units]. rewrite amountFor_app, amountFor_cons. cbn [fst snd amountFor map sumZ].
  rewrite (Z.eqb_sym aid), Z.add_0_r. destruct (Z.eqb_spec (al_id x) aid) as [->|].
  - unfold with_units, debitUnits. cbn. rewrite (amountFor_notin l aid Hout). f_equal. f_equal; lia.
  - by rewrite Z.add_0_r.
Qed.

Lemma firstWallet_map {A} (f : FeatureWallet -> option A) (h : FeatureWallet -> FeatureWallet) (k : A -> A) ws :
  (forall w, f (h w) = k <$> f w) -> firstWallet f (map h ws) = (fun p => (h (fst p), k (snd p))) <$> firstWallet f ws.
Proof. intros H. induction ws as [|w ws IH]; [done|]. cbn. rewrite H. destruct (f w); cbn; [done|exact IH]. Qed.

Lemma find_map {A} (p : A -> bool) (k : A -> A) l : (forall x, p (k x) = p x) -> List.find p (map k l) = k <$> List.find p l.
Proof. intros H. induction l as [|x l IH]; [done|]. cbn. rewrite H. destruct (p x); [done|exact IH]. Qed.

Lemma findById_debited aid l ws :
  findById aid (map (fun w => set_store w (debitedStore l (w_store w))) ws)
  = (fun p => (set_store (fst p) (debitedStore l (w_store (fst p))), debitedAlloc l (snd p))) <$> findById aid ws.
Proof. apply (firstWallet_map _ (fun w => set_store w (debitedStore l (w_store w))) (debitedAlloc l)). intros w.
  apply (find_map (fun al => al_id al =? aid) (debitedAlloc l)). done. Qed.

Lemma text_id n id : integerText n = id -> positiveIntegerPattern id = true -> parseDigits id = n.
Proof.
  intros <-. unfold integerText. destruct (Z.ltb_spec n 0); [done|]. intros _. by apply parse_digits.
Qed.

(** An operator may take from an allocation that is not reversed, has not expired and that no
    provider sold: neither a purchase nor a top-up, nor tied to a purchase's row. *)
Definition operatorMayTake (a : Account) (now : Z) (al : Alloc) : Prop :=
  al_reversed_at al = None /\ (forall e, al_expires_at al = Some e -> now < e) /\
  al_source_kind al <> "purchase"%string /\ al_source_kind al <> "topup"%string /\ al_id al ∉ map fst (ac_purchases a).

Lemma refusal_iff now a w al : debitRefusal (debitTargetRow now a w al) = None <-> operatorMayTake a now al.
Proof.
  assert (Hp : match snd <$> List.find (fun p => fst p =? al_id al) (ac_purchases a) with Some _ => true | None => false end = false <->
    al_id al ∉ map fst (ac_purchases a)).
  { destruct (List.find _ _) as [p|] eqn:E; cbn.
    - apply find_some in E as [Hin Hid%Z.eqb_eq]. split; [done|]. intros Hno. destruct Hno. rewrite <- Hid. by apply list_elem_of_fmap_2, list_elem_of_In.
    - split; [|done]. intros _ (p & Hid & Hin)%list_elem_of_fmap. apply list_elem_of_In in Hin.
      pose proof (find_none _ _ E p Hin) as Hf. cbn in Hf. rewrite Hid, Z.eqb_refl in Hf. done. }
  unfold debitRefusal, operatorMayTake. cbn [debitTargetRow dt_reversed dt_expired dt_source_kind dt_purchase_id].
  unfold isReversed, expiredAt. destruct (al_reversed_at al); [by split; [|intros [? _] ]|].
  assert (Hx : match al_expires_at al with Some t => t <=? now | None => false end = false <-> forall e, al_expires_at al = Some e -> now < e).
  { destruct (al_expires_at al) as [t|]; [|by split; [intros _ e [=]|] ]. rewrite Z.leb_gt. split; [by intros H e [= <-]|by intros H; apply H]. }
  destruct (match al_expires_at al with Some t => t <=? now | None => false end).
  { split; [done|]. intros (_ & H & _). by apply Hx in H. }
  assert (Hk : bool_decide (al_source_kind al ∈ providerPurchaseKinds) = false <-> al_source_kind al <> "purchase"%string /\ al_source_kind al <> "topup"%string).
  { rewrite bool_decide_eq_false. unfold providerPurchaseKinds. rewrite !elem_of_cons, elem_of_nil. tauto. }
  destruct (bool_decide _ || _) eqn:Eo.
  - split; [done|]. intros (_ & _ & H1 & H2 & H3). apply orb_true_iff in Eo as [Eo|Eo].
    + by rewrite (proj2 Hk (conj H1 H2)) in Eo.
    + by rewrite (proj2 Hp H3) in Eo.
  - apply orb_false_iff in Eo as [E1 E2]. apply Hk in E1. apply Hp in E2. apply proj1 in Hx. tauto.
Qed.

(** What a line takes: an amount that is free in an allocation an operator may take from. *)
Definition takesFrom (a : Account) (now : Z) (line : DebitLineInput) (p : Z * Z) : Prop :=
  exists w al, w ∈ ac_wallets a /\ al ∈ s_allocs (w_store w) /\ integerText (al_id al) = li_allocationId line /\ fst p = al_id al /\
    operatorMayTake a now al /\ decimalToUnits (li_quantity line) (walletScale w) = Ok (snd p) /\
    0 < snd p <= u_free (al_units al).

Lemma taken_unreversed a now al : operatorMayTake a now al -> isReversed al = false.
Proof. intros [H _]. unfold isReversed. by rewrite H. Qed.

Definition debitRow (input : AdministrativeDebitInput) (requestHash : text) (did now : Z) : DebitRow :=
  {| db_id := did; db_actor := di_actor input; db_reason := di_reason input;
     db_idempotency_key := di_idempotencyKey input; db_request_hash := requestHash; db_created_at := now |}.
Definition debitLine (did : Z) (line : DebitLineInput) : DebitLine :=
  {| dl_debit_id := did; dl_allocation_id := parseDigits (li_allocationId line); dl_quantity := li_quantity line |}.
(** The account after a debit that takes [amounts]. *)
Definition debitedAccount (a : Account) (row : DebitRow) (lines : list DebitLineInput) (amounts : list (Z * Z)) : Account :=
  updateWallets (debitedStore amounts) (add_debit a row (map (debitLine (db_id row)) lines)).

Section Lines.
Context (a : Account) (now : Z) (lines : list DebitLineInput) (amounts : list (Z * Z)).
Hypothesis Hok : account_ok a.
Hypothesis Hlines : Forall line_ok lines.
Hypothesis Hdistinct : NoDup (map li_allocationId lines).
Hypothesis Htakes : Forall2 (takesFrom a now) lines amounts.

Lemma takes_ids : map fst amounts = map parseDigits (map li_allocationId lines).
Proof.
  clear Hok Hdistinct. rewrite map_map. revert Hlines. induction Htakes as [|line p ls ps (w & al & _ & _ & Eid & Ep & _) Hrest IH]; [done|].
  cbn. intros [(Hpos & _) Hl]%Forall_cons. f_equal; [|by apply IH]. rewrite Ep. symmetry. by apply text_id.
Qed.

Lemma takes_NoDup : NoDup (map fst amounts).
Proof.
  rewrite takes_ids. assert (H : Forall (fun id => positiveIntegerPattern id = true) (map li_allocationId lines)).
  { apply Forall_map. eapply Forall_impl; [exact Hlines|]. by intros ? [? _]. }
  revert H Hdistinct. generalize (map li_allocationId lines). intros ids. induction ids as [|id ids IH]; [constructor|].
  intros [Hid Hall]%Forall_cons [Hout Hnd]%NoDup_cons. cbn. constructor; [|auto].
  intros (id' & E & Hin)%list_elem_of_fmap. apply Hout. rewrite Forall_forall in Hall.
  destruct (positiveInteger_text id Hid) as [<- _], (positiveInteger_text id' (Hall id' Hin)) as [E' _]. rewrite E, E'. done.
Qed.

Lemma amount_of al w : w ∈ ac_wallets a -> al ∈ s_allocs (w_store w) ->
  amountFor amounts (al_id al) = 0 \/
  (isReversed al = false /\ exists line n, line ∈ lines /\ (al_id al, n) ∈ amounts /\ amountFor amounts (al_id al) = n /\
    0 < n <= u_free (al_units al) /\ parseDigits (li_allocationId line) = al_id al /\
    decimalToUnits (li_quantity line) (walletScale w) = Ok n).
Proof.
  intros Hw Hal. destruct (decide (al_id al ∈ map fst amounts)) as [Hin|]; [right|left; by apply amountFor_notin].
  apply list_elem_of_fmap in Hin as ([aid n] & Eaid & Hin). cbn in Eaid. subst aid.
  destruct (Forall2_elem_r _ _ _ _ Htakes Hin) as (line & Hline & v & x & Hv & Hx & Eid & Ep & Href & Hn & Hpos). cbn in *.
  pose proof (findById_alloc a Hok w al Hw Hal) as E1. pose proof (findById_alloc a Hok v x Hv Hx) as E2. rewrite Ep, E2 in E1. injection E1 as -> ->.
  split; [by eapply taken_unreversed|]. exists line, n. split; [done|]. split; [done|].
  split; [apply amountFor_unique; [apply takes_NoDup|done]|]. split; [done|]. split; [|done].
  rewrite Forall_forall in Hlines. apply text_id; [done|]. by destruct (Hlines line Hline) as [? _].
Qed.

(** A line's guarded update goes through after those of other allocations. *)
Lemma debit_applies b earlier line aid n : ac_wallets b = ac_wallets a -> line_ok line -> takesFrom a now line (aid, n) ->
  aid ∉ map fst earlier ->
  debitAllocation (li_allocationId line, li_quantity line) (updateWallets (debitedStore earlier) b)
  = Ok (updateWallets (debitedStore (earlier ++ [(aid, n)])) b).
Proof.
  intros Hb (Hpat & _) (w & al & Hw & Hal & Eid & Ep & Href & Hn & Hpos) Hout. cbn in Ep, Hn, Hpos. subst aid.
  unfold debitAllocation. cbn [fst snd]. rewrite (text_id _ _ Eid Hpat). cbn [updateWallets ac_wallets set_wallets].
  rewrite Hb, findById_debited, (findById_alloc a Hok w al Hw Hal). cbn [fmap option_fmap option_map fst snd w_feature set_store].
  unfold walletScale in Hn. rewrite Hn. cbn [mbind result_bind].
  assert (Hd : debitable n (debitedAlloc earlier al) = true).
  { unfold debitable, debitedAlloc. change (isReversed (with_units al ?u)) with (isReversed al). rewrite (taken_unreversed _ _ _ Href).
    rewrite amountFor_notin by done. cbn. apply Z.leb_le. unfold u_free in Hpos. lia. }
  rewrite Hd. f_equal. unfold updateWallets, set_wallets. cbn. f_equal. rewrite map_map. apply map_ext. intros v.
  unfold set_store. cbn. f_equal. by apply debitedStore_snoc.
Qed.

(** The guarded updates all go through, each allocation losing its own amount. *)
Lemma debits_apply b : ac_wallets b = ac_wallets a ->
  foldM (fun c line => debitAllocation line c) (map (fun line => (li_allocationId line, li_quantity line)) lines) b
  = Ok (updateWallets (debitedStore amounts) b).
Proof.
  intros Hb. pose proof takes_NoDup as Hnd.
  assert (H : forall earlier l amts, Forall2 (takesFrom a now) l amts -> Forall line_ok l -> NoDup (map fst (earlier ++ amts)) ->
    foldM (fun c line => debitAllocation line c) (map (fun line => (li_allocationId line, li_quantity line)) l) (updateWallets (debitedStore earlier) b)
    = Ok (updateWallets (debitedStore (earlier ++ amts)) b)).
  { intros earlier l amts Ht. revert earlier. induction Ht as [|line [aid n] ls ps Hp _ IH]; intros earlier Hl Hnd'.
    { by rewrite app_nil_r. }
    apply Forall_cons in Hl as [Hline Hl]. cbn [map foldM].
    assert (Hout : aid ∉ map fst earlier).
    { rewrite map_app in Hnd'. apply NoDup_app in Hnd' as (_ & Hdis & _). intros Hin. apply (Hdis _ Hin). constructor. }
    rewrite (debit_applies b earlier line aid n Hb Hline Hp Hout). cbn [mbind result_bind].
    rewrite IH; [by rewrite <- app_assoc|done|]. by rewrite <- app_assoc. }
  specialize (H [] lines amounts Htakes Hlines Hnd). cbn [app] in H. rewrite <- H. f_equal.
  unfold updateWallets, set_wallets. rewrite map_same; [by destruct b|]. intros v _. rewrite debitedStore_nil. by destruct v.
Qed.
End Lines.

(** ** Checking a debit's lines *)

Lemma canonical_is_units q s n : canonicalDecimal q "quantity" 9 = Ok q -> decimalToUnits q s = Ok n -> q = unitsToDecimal n s.
Proof.
  intros [Hq _]%canonicalDecimal_Ok Hn. pose proof (decimalToUnits_scale _ _ _ Hn) as Hs.
  apply decimalToUnits_Ok in Hn as Hn'. destruct Hn' as (c & Hc & _). apply unboundedDecimal_Ok in Hq as (_ & _ & Eq).
  pose proof Hc as (_ & _ & Ec)%unboundedDecimal_Ok.
  destruct (unboundedDecimal_is_units _ _ s _ Hs Hc) as (m & _ & Hm & Em). rewrite Hn in Hm. injection Hm as <-. congruence.
Qed.

(** A canonical quantity that fits the feature's scale is the quantity spent. *)
Lemma positive_canonical q s q' : canonicalDecimal q "quantity" 9 = Ok q ->
  positiveDecimal q "quantity" s = Ok q' <-> q' = q /\ exists n, decimalToUnits q s = Ok n /\ 0 < n.
Proof.
  intros Hq. split.
  - intros H. destruct (positiveDecimal_units _ _ _ _ H) as (n & Hn & Hpos). unfold positiveDecimal in H.
    apply bind_Ok in H as (c & Hc & H). apply bind_Ok in H as (m & _ & H). apply bind_Ok in H as (? & _ & H). injection H as <-.
    assert (E : c = q); [|subst c; eauto]. apply canonicalDecimal_Ok in Hc as [Hc _]. apply canonicalDecimal_Ok in Hq as [Hq _].
    apply unboundedDecimal_Ok in Hc as (_ & _ & Ec). apply unboundedDecimal_Ok in Hq as (_ & _ & Eq). congruence.
  - intros (-> & n & Hn & Hpos). pose proof Hn as (c & Hc & _)%decimalToUnits_Ok. unfold positiveDecimal.
    apply canonicalDecimal_Ok in Hq as [Hq Hlen]. pose proof Hq as (Hp & _ & Eq)%unboundedDecimal_Ok. pose proof Hc as (_ & Hl & Ec)%unboundedDecimal_Ok.
    assert (Hc' : canonicalDecimal q "quantity" s = Ok q).
    { apply canonicalDecimal_Ok. split; [|done]. apply unboundedDecimal_Ok. done. }
    rewrite Hc'. cbn [mbind result_bind]. rewrite Hn. cbn [mbind result_bind].
    replace (n <=? 0) with false by (symmetry; apply Z.leb_gt; lia). done.
Qed.

Lemma target_in ids now a t : t ∈ lockTargets ids now a <->
  exists w al, w ∈ ac_wallets a /\ al ∈ s_allocs (w_store w) /\ al_id al ∈ map parseDigits ids /\ t = debitTargetRow now a w al.
Proof.
  unfold lockTargets. rewrite concat_in. split.
  - intros (w & Hw & (al & -> & Hal)%list_elem_of_fmap). rewrite sortBy_perm in Hw. rewrite spendSorted_perm in Hal.
    apply list_elem_of_In, filter_In in Hal as [Hal%list_elem_of_In Hid%bool_decide_eq_true]. eauto 7.
  - intros (w & al & Hw & Hal & Hid & ->). exists w. rewrite sortBy_perm. split; [done|]. apply list_elem_of_fmap_2.
    rewrite spendSorted_perm. apply list_elem_of_In, filter_In. split; [by apply list_elem_of_In|by apply bool_decide_eq_true].
Qed.

(** Decimals are refused as invalid requests. *)
Lemma unboundedDecimal_error v field s e : unboundedDecimal v field s = Err e -> exists message, e = InvalidRequest message.
Proof.
  unfold unboundedDecimal. intros [ [_ <-]%throwWhen_Err|(u & _ & H)]%bind_Err; [eauto|].
  apply bind_Err in H as [ [_ <-]%throwWhen_Err|(u' & _ & H)]; [eauto|done].
Qed.

Lemma positiveDecimal_error v field s e : positiveDecimal v field s = Err e -> exists message, e = InvalidRequest message.
Proof.
  unfold positiveDecimal. intros [H|(c & Hc & H)]%bind_Err.
  - unfold canonicalDecimal in H. apply bind_Err in H as [H|(c & _ & H)]; [by apply unboundedDecimal_error in H|].
    apply bind_Err in H as [ [_ <-]%throwWhen_Err|(u & _ & H)]; [eauto|done].
  - apply bind_Err in H as [H|(n & _ & H)].
    + unfold decimalToUnits in H. apply bind_Err in H as [H|(c' & _ & H)]; [by apply unboundedDecimal_error in H|done].
    + apply bind_Err in H as [ [_ <-]%throwWhen_Err|(u & _ & H)]; [eauto|done].
Qed.

Section Check.
Context (a : Account) (now : Z) (lines : list DebitLineInput) (line : DebitLineInput).
Hypothesis Hok : account_ok a.
Hypothesis Hin : line ∈ lines.
Hypothesis Hline : line_ok line.
Local Abbreviation targets := (lockTargets (map li_allocationId lines) now a).
Local Abbreviation named := (fun t => bool_decide (integerText (dt_id t) = li_allocationId line)).

Lemma target_found w al : w ∈ ac_wallets a -> al ∈ s_allocs (w_store w) -> integerText (al_id al) = li_allocationId line ->
  List.find named targets = Some (debitTargetRow now a w al).
Proof.
  intros Hw Hal Eid. pose proof (text_id _ _ Eid (proj1 Hline)) as Hparse. apply find_the.
  - apply target_in. exists w, al. do 2 (split; [done|]). split; [|done]. rewrite <- Hparse. by do 2 apply list_elem_of_fmap_2.
  - by apply bool_decide_eq_true.
  - intros t (v & x & Hv & Hx & _ & ->)%target_in E%bool_decide_eq_true. cbn in E.
    pose proof (text_id _ _ E (proj1 Hline)) as Hparse'. pose proof (findById_alloc a Hok w al Hw Hal) as E1.
    pose proof (findById_alloc a Hok v x Hv Hx) as E2. rewrite <- Hparse' in E2. rewrite <- Hparse, E2 in E1. by injection E1 as -> ->.
Qed.

(** The errors a line is refused with. *)
Definition debit_refused (e : error) : Prop :=
  e = balanceAdjustmentError ALLOCATION_NOT_FOUND \/ e = balanceAdjustmentError ALLOCATION_NOT_DEBITABLE \/
  e = balanceAdjustmentError ADMINISTRATIVE_DEBIT_EXCEEDS_AVAILABLE \/ exists message, e = InvalidRequest message.

(** A line passes exactly when it takes from the allocation it names. *)
Lemma check_line : match checkDebitLine targets line with
  | Ok out => out = (li_allocationId line, li_quantity line) /\ exists p, takesFrom a now line p
  | Err e => debit_refused e /\ forall p, ~ takesFrom a now line p
  end.
Proof.
  unfold checkDebitLine. destruct (List.find named targets) as [t|] eqn:E; cbn [mbind result_bind].
  2: { split; [by left|]. intros p (w & al & Hw & Hal & Eid & _). by rewrite (target_found w al Hw Hal Eid) in E. }
  apply find_some_in in E as [(w & al & Hw & Hal & _ & ->)%target_in Eid%bool_decide_eq_true]. cbn in Eid.
  assert (Hthe : forall p, takesFrom a now line p -> fst p = al_id al /\ debitRefusal (debitTargetRow now a w al) = None /\
      decimalToUnits (li_quantity line) (walletScale w) = Ok (snd p) /\ 0 < snd p <= u_free (al_units al)).
  { intros p (v & x & Hv & Hx & Eid' & Ep & Hmay & Hrest). apply (refusal_iff now a v x) in Hmay. pose proof (findById_alloc a Hok w al Hw Hal) as E1. pose proof (findById_alloc a Hok v x Hv Hx) as E2.
    rewrite <- (text_id _ _ Eid (proj1 Hline)) in E1. rewrite <- (text_id _ _ Eid' (proj1 Hline)), E1 in E2. injection E2 as <- <-. done. }
  pose proof (refusal_iff now a w al) as Href.
  destruct (debitRefusal (debitTargetRow now a w al)) as [x|] eqn:Eref; cbn [throwWhen mbind result_bind].
  { split; [by right; left|]. intros p Hp. by destruct (Hthe p Hp) as (_ & ? & _). }
  cbn [debitTargetRow dt_credit_scale dt_quantity dt_reversed_quantity dt_consumed_quantity dt_held_quantity].
  destruct Hline as (Hpat & _ & Hcan). pose proof (ao_scales _ Hok w Hw) as Hs. fold (walletScale w).
  destruct (positiveDecimal (li_quantity line) "quantity" (walletScale w)) as [q|e] eqn:Eq; cbn [mbind result_bind].
  2: { split; [right; right; right; by eapply positiveDecimal_error|]. intros p Hp. destruct (Hthe p Hp) as (_ & _ & Hn & Hpos & _).
       rewrite (proj2 (positive_canonical (li_quantity line) (walletScale w) (li_quantity line) Hcan)) in Eq by eauto. done. }
  apply positive_canonical in Eq as (-> & n & Hn & Hpos); [|done].
  pose proof (inv_allocs _ _ (ao_wallets _ Hok w Hw)) as Hall. rewrite Forall_forall in Hall.
  destruct (alloc_ok_nonneg al (Hall al Hal)) as (H1 & H2 & H3 & H4).
  rewrite !(allocation_units w _ (walletScale w)) by (done || lia). cbn [mbind result_bind].
  replace (DbText (li_quantity line)) with (numericText w n) by (unfold numericText; f_equal; symmetry; by apply canonical_is_units).
  rewrite (allocation_units w _ (walletScale w)) by (done || lia). cbn [mbind result_bind].
  set (k := 10 ^ (9 - walletScale w)). assert (Hk : 0 < k) by (apply Z.pow_pos_nonneg; lia).
  replace (u_quantity (al_units al) * k - u_reversed (al_units al) * k - u_consumed (al_units al) * k - u_held (al_units al) * k)
    with (u_free (al_units al) * k) by (unfold u_free; ring).
  destruct (Z.ltb_spec (u_free (al_units al) * k) (n * k)) as [Hlt|Hge]; cbn [throwWhen mbind result_bind].
  - split; [by right; right; left|]. intros p Hp. destruct (Hthe p Hp) as (_ & _ & Hn' & _ & Hle). rewrite Hn in Hn'. injection Hn' as Hp2. nia.
  - split; [done|]. exists (al_id al, n). exists w, al. do 4 (split; [done|]). split; [by apply Href|]. split; [done|]. cbn. nia.
Qed.
End Check.

Lemma check_lines a now lines l : account_ok a -> (forall line, line ∈ l -> line ∈ lines) -> Forall line_ok l ->
  match mapM (checkDebitLine (lockTargets (map li_allocationId lines) now a)) l with
  | Ok out => out = map (fun line => (li_allocationId line, li_quantity line)) l /\ exists amounts, Forall2 (takesFrom a now) l amounts
  | Err e => debit_refused e /\ forall amounts, ~ Forall2 (takesFrom a now) l amounts
  end.
Proof.
  intros Hok. induction l as [|line l IH]; intros Hin Hall; [split; [done|]; exists []; constructor|].
  apply Forall_cons in Hall as [Hline Hall]. cbn [mapM]. pose proof (check_line a now lines line Hok (Hin line ltac:(constructor)) Hline) as H.
  destruct (checkDebitLine _ line) as [x|e]; cbn [mbind result_bind].
  2: { destruct H as [He Hno]. split; [done|]. intros amounts Ht. inversion Ht; subst. by eapply Hno. }
  destruct H as [-> [p Hp] ]. specialize (IH ltac:(intros; apply Hin; by constructor) Hall).
  destruct (mapM _ l) as [out|e]; cbn [mbind result_bind].
  - destruct IH as [-> [ps Hps] ]. split; [done|]. exists (p :: ps). by constructor.
  - destruct IH as [He Hno]. split; [done|]. intros amounts Ht. inversion Ht; subst. by eapply Hno.
Qed.

Lemma debited_app scale l1 l2 aid : debited scale (l1 ++ l2) aid = debited scale l1 aid + debited scale l2 aid.
Proof. unfold debited. by rewrite map_app, sumZ_app. Qed.

Section Debited.
Context (a : Account) (now : Z) (lines : list DebitLineInput) (amounts : list (Z * Z)) (row : DebitRow).
Hypothesis Hok : account_ok a.
Hypothesis Hlines : Forall line_ok lines.
Hypothesis Hdistinct : NoDup (map li_allocationId lines).
Hypothesis Htakes : Forall2 (takesFrom a now) lines amounts.

(** The new lines record of each allocation what it lost. *)
Lemma recorded_amount w al : w ∈ ac_wallets a -> al ∈ s_allocs (w_store w) ->
  debited (walletScale w) (map (debitLine (db_id row)) lines) (al_id al) = amountFor amounts (al_id al).
Proof.
  intros Hw Hal. assert (H : forall l ps, Forall2 (takesFrom a now) l ps -> Forall line_ok l ->
    debited (walletScale w) (map (debitLine (db_id row)) l) (al_id al) = amountFor ps (al_id al)); [|by apply H].
  intros l ps Ht Hl. clear Htakes Hlines Hdistinct.
  induction Ht as [|line [aid n] l ps (v & x & Hv & Hx & Eid & Ep & _ & Hn & _) Hrest IH]; [done|]. cbn in Ep, Hn. subst aid.
  apply Forall_cons in Hl as [(Hpat & _) Hl]. specialize (IH Hl). unfold debited, amountFor in *. cbn [map sumZ fst snd].
  rewrite IH. f_equal. cbn [debitLine dl_allocation_id]. rewrite (text_id _ _ Eid Hpat).
  destruct (Z.eqb_spec (al_id x) (al_id al)) as [E|]; [|done].
  pose proof (findById_alloc a Hok w al Hw Hal) as E1. pose proof (findById_alloc a Hok v x Hv Hx) as E2. rewrite E, E1 in E2.
  injection E2 as <- <-. unfold lineUnits. cbn [debitLine dl_quantity]. by rewrite Hn.
Qed.

Lemma debitedAccount_ok : db_id row ∉ map db_id (ac_debits a) -> db_idempotency_key row ∉ map db_idempotency_key (ac_debits a) ->
  account_ok (debitedAccount a row lines amounts).
Proof.
  intros Hid Hkey. pose proof (amount_of a now lines amounts Hok Hlines Hdistinct Htakes) as Hamount.
  set (h := fun w => set_store w (debitedStore amounts (w_store w))).
  apply (account_ok_build a _ h Hok); try done; try apply Hok.
  - constructor; [done| |done]. intros w _. unfold walletIds, h. cbn. by rewrite map_map.
  - intros w Hw. cbn [ac_lines debitedAccount updateWallets set_wallets add_debit h w_store set_store]. split.
    + unfold debitedStore, set_allocs. apply wallet_inv_update; [by apply (ao_wallets _ Hok)|]. intros al Hal. do 3 (split; [done|]).
      pose proof (inv_allocs _ _ (ao_wallets _ Hok w Hw)) as Hall. rewrite Forall_forall in Hall. destruct (Hall al Hal) as [(H1 & H2 & H3 & H4) Hrev].
      destruct (Hamount al w Hw Hal) as [E|(Hnr & line & n & _ & _ & E & Hn & _)].
      * unfold debitedAlloc. rewrite E. split; cbn; [|intros Hr; specialize (Hrev Hr)]; unfold units_ok; cbn; lia.
      * unfold debitedAlloc. rewrite E. unfold u_free in Hn. split; [unfold units_ok; cbn; lia|].
        unfold revokedOperator. cbn. unfold isReversed in Hnr. destruct (al_reversed_at al); [done|]. by rewrite andb_false_r.
    + apply (grants_ok_map _ _ (w_store w) _ (debitedAlloc amounts) id (ao_grants _ Hok w Hw)); [done|by rewrite map_id|done|done|].
      intros al g Hl. pose proof (go_ledger _ _ (ao_grants _ Hok w Hw) al g Hl) as Hled. pose proof (go_free _ _ (ao_grants _ Hok w Hw) al g Hl) as [Hf0 Hfr].
      pose proof (pr_revoked _ (go_paired _ _ (ao_grants _ Hok w Hw)) al g Hl) as Hrev. rewrite (grantOf_operator _ _ _ _ (ao_grants _ Hok w Hw) Hl) in Hrev.
      destruct Hl as (Hal & Hg & _). pose proof (go_open _ _ (ao_grants _ Hok w Hw) g Hg) as [Hq0 Hqn].
      rewrite debited_app, (recorded_amount w al Hw Hal). change (isReversed (debitedAlloc amounts al)) with (isReversed al).
      do 3 (split; [done|]). unfold debitedAlloc, u_free in *. cbn in *. split; [lia|].
      destruct (Hamount al w Hw Hal) as [->|(Hnr & line & n & _ & _ & -> & Hn & _)]; [split; [lia|intros; rewrite Z.add_0_r; auto]|].
      rewrite Hnr. unfold u_free in Hn. split; [lia|done].
  - cbn. rewrite map_app. apply NoDup_app. split; [apply Hok|]. split; [|apply NoDup_singleton]. intros x Hx Hx'%list_elem_of_singleton. congruence.
  - cbn. rewrite map_app. apply NoDup_app. split; [apply Hok|]. split; [|apply NoDup_singleton]. intros x Hx Hx'%list_elem_of_singleton. congruence.
  - cbn. rewrite map_app. intros line [Hl|(li & -> & Hli)%list_elem_of_fmap]%elem_of_app.
    + destruct (ao_lines _ Hok line Hl) as (H1 & H2). split; [apply elem_of_app; by left|done].
    + cbn. split; [apply elem_of_app; right; constructor|]. rewrite Forall_forall in Hlines. destruct (Hlines li Hli) as (Hpat & _ & Hq). split; [|done].
      destruct (Forall2_elem_l _ _ _ _ Htakes Hli) as (p & _ & w & al & Hw & Hal & Eid & _). rewrite (text_id _ _ Eid Hpat).
      apply concat_in. exists w. split; [done|]. by apply list_elem_of_fmap_2.
Qed.
End Debited.

(** ** The record of a debit *)

Lemma allocationUnits_line q n : canonicalDecimal q "quantity" 9 = Ok q -> decimalToUnits q 9 = Ok n -> allocationUnits (DbText q) = Ok n.
Proof.
  intros [Hq _]%canonicalDecimal_Ok Hn. unfold allocationUnits, databaseUnits, databaseDecimal, allocationScale.
  assert (E : unboundedDecimal q "allocation quantity" 9 = Ok q).
  { apply unboundedDecimal_Ok in Hq. by apply unboundedDecimal_Ok. }
  rewrite E. exact Hn.
Qed.

(** Every recorded debit reads back with its lines. *)
Lemma debit_record a row : account_ok a -> row ∈ ac_debits a -> exists r, requireDebit (db_id row) a = Ok r /\ adr_id r = db_id row /\
  adr_actor r = db_actor row /\ adr_reason r = db_reason row /\
  map (fun l => (drl_allocationId l, drl_quantity l)) (adr_allocations r)
  ≡ₚ map (fun l => (dl_allocation_id l, dl_quantity l)) (List.filter (fun l => dl_debit_id l =? db_id row) (ac_lines a)).
Proof.
  intros Hok Hrow. unfold requireDebit. rewrite (find_by_id db_id (ac_debits a) row (ao_debits _ Hok) Hrow). unfold toDebitRecord.
  set (ls := List.filter _ (ac_lines a)).
  assert (H : forall l, (forall x, x ∈ l -> x ∈ ac_lines a) -> exists out, mapM id (omap (debitRecordLine a) l) = Ok out /\
    map (fun l => (drl_allocationId l, drl_quantity l)) out = map (fun l => (dl_allocation_id l, dl_quantity l)) l).
  { induction l as [|x l IH]; intros Hin; [by exists []|]. destruct (IH ltac:(intros; apply Hin; by constructor)) as (out & Eout & Emap).
    destruct (ao_lines _ Hok x (Hin x ltac:(constructor))) as (_ & (w & Hw & (al & Ex & Hal)%list_elem_of_fmap)%concat_in & Hq).
    change (omap (debitRecordLine a) (x :: l)) with (match debitRecordLine a x with Some y => y :: omap (debitRecordLine a) l | None => omap (debitRecordLine a) l end).
    unfold debitRecordLine at 1. rewrite Ex, (findById_alloc a Hok w al Hw Hal). cbn [mbind option_bind].
    pose proof Hq as [Hu _]%canonicalDecimal_Ok. destruct (unboundedDecimal_is_units _ _ 9 _ ltac:(lia) Hu) as (n & _ & Hn & Eq).
    rewrite (allocationUnits_line _ n Hq Hn). cbn [mapM mbind result_bind id]. rewrite Eout. cbn [mbind result_bind].
    eexists. split; [reflexivity|]. cbn [map drl_allocationId drl_quantity]. unfold allocationScale. rewrite <- Eq, Ex, Emap. done. }
  destruct (H (sortBy lineBefore ls)) as (out & -> & Emap).
  { intros x Hx. rewrite sortBy_perm in Hx. apply list_elem_of_In, filter_In in Hx as [Hx _]. by apply list_elem_of_In. }
  cbn [mbind result_bind]. eexists. split; [reflexivity|]. do 3 (split; [done|]). cbn [adr_allocations]. rewrite Emap. by rewrite sortBy_perm.
Qed.

Section Operations.
Context (localeCompare : text -> text -> comparison) (sha256Hex : text -> text) (catalog : Catalog) (uuidOf : text -> option Z).
Abbreviation grantBalance := (grantOperatorBalance localeCompare sha256Hex catalog).
Abbreviation revoke := (revokeOperatorGrant localeCompare sha256Hex uuidOf).
Abbreviation debit := (debitAllocations localeCompare sha256Hex).
Abbreviation grantHash := (operatorGrantRequestHash localeCompare sha256Hex).

(** What a grant that is answered did: replayed, or added one allocation. *)
Lemma grant_spec a rawInput gid aid now a' dup r : account_ok a ->
  grantBalance rawInput gid aid now a = Ok (a', (dup, r)) ->
  exists input requestHash, normalizeOperatorGrantInput rawInput = Ok input /\ grantHash input = Ok requestHash /\
  ((dup = true /\ a' = a /\ exists row, row ∈ ac_grants a /\ gr_idempotency_key row = gi_idempotencyKey input /\
      gr_request_hash row = requestHash /\ requireOperatorGrant now (gr_id row) a = Ok r) \/
   (dup = false /\ gi_idempotencyKey input ∉ map gr_idempotency_key (ac_grants a) /\
      exists w n entity expiresAt, w ∈ ac_wallets a /\ js (f_key (w_feature w)) = trim (gi_featureKey input) /\ w_active w = true /\
        decimalToUnits (gi_quantity input) (walletScale w) = Ok n /\ 0 < n /\
        resolveEntityId a (gi_entityId input) = Ok entity /\ expiryInstant (gi_expiresAt input) = Ok expiresAt /\
        (forall t, expiresAt = Some t -> now < t) /\
        a' = granted a (grantRow input requestHash gid now) w (operatorAllocation aid gid n entity expiresAt now) /\
        requireOperatorGrant now gid a' = Ok r)).
Proof.
  intros Hok H. unfold grantOperatorBalance in H. apply bind_Ok in H as (input & Hin & H). apply bind_Ok in H as (hash & Hh & H).
  exists input, hash. split; [done|]. split; [done|]. rewrite readGrant_find in H by done.
  destruct (List.find _ (ac_grants a)) as [row|] eqn:E.
  - left. apply find_some_in in E as [Hrow Hkey%bool_decide_eq_true].
    destruct (row_grant a Hok row Hrow) as (w & al & g & Hw & Hl & Hid).
    destruct (row_record a Hok now row w al g Hrow Hw Hl Hid) as (gr & Egr & Ehash & Erec). rewrite Egr in H.
    apply bind_Ok in H as (u & Hu & H). apply throwWhen_Ok, negb_false_iff, bool_decide_eq_true in Hu.
    rewrite Erec in H. injection H as <- <- <-. split; [done|]. split; [done|]. exists row. do 2 (split; [done|]).
    split; [congruence|]. unfold requireOperatorGrant. rewrite readGrant_find by done.
    by rewrite (find_by_id gr_id (ac_grants a) row (ao_rowIds _ Hok) Hrow), Egr.
  - right. apply bind_Ok in H as (w & Hw & H). apply bind_Ok in H as (u1 & _ & H). apply bind_Ok in H as (quantity & Hq & H).
    apply bind_Ok in H as (entity & Hent & H). apply bind_Ok in H as (expiresAt & Hexp & H). apply bind_Ok in H as (u2 & Hu2 & H).
    apply bind_Ok in H as (n & Hn & H). apply bind_Ok in H as (rec & Hrec & H). injection H as <- <- <-.
    unfold requireActiveFeature in Hw. apply bind_Ok in Hw as (u3 & _ & Hw).
    destruct (List.find _ (ac_wallets a)) as [w'|] eqn:Ew; [|done]. injection Hw as ->.
    apply find_some_in in Ew as [Hw [Hkey%bool_decide_eq_true Hact]%andb_prop].
    assert (Hqq : quantity = gi_quantity input).
    { unfold positiveDecimal in Hq. apply bind_Ok in Hq as (c & Hc & Hq). apply bind_Ok in Hq as (m & _ & Hq). apply bind_Ok in Hq as (? & _ & Hq).
      injection Hq as <-. unfold normalizeOperatorGrantInput in Hin. apply bind_Ok in Hin as (? & _ & Hin). apply bind_Ok in Hin as (q & Hq & Hin).
      apply bind_Ok in Hin as (rs & _ & Hin). injection Hin as <-. cbn in *.
      pose proof (canonicalDecimal_again _ _ "quantity" _ _ Hq) as Hq'. apply canonicalDecimal_Ok in Hc as [Hc _]. apply canonicalDecimal_Ok in Hq' as [Hq' _].
      apply unboundedDecimal_Ok in Hc as (_ & _ & ->). apply unboundedDecimal_Ok in Hq' as (_ & _ & Eq). by rewrite <- Eq. }
    destruct (positiveDecimal_units _ _ _ _ Hq) as (m & Hm & Hpos).
    assert (m = n) as -> by (unfold walletScale in *; congruence).
    split; [done|]. split.
    { intros (row & Ekey & Hrow)%list_elem_of_fmap. pose proof (find_none _ _ E row (proj1 (list_elem_of_In _ _) Hrow)) as Hn'. cbn in Hn'.
      apply bool_decide_eq_false in Hn'. congruence. }
    exists w, n, entity, expiresAt. do 3 (split; [done|]). rewrite <- Hqq. do 4 (split; [done|]). split; [|done].
    intros t ->. by apply throwWhen_Ok, negb_false_iff, Z.ltb_lt in Hu2.
Qed.

Lemma grant_ok a rawInput gid aid now a' out : account_ok a -> gid ∉ map gr_id (ac_grants a) -> aid ∉ allocIds a ->
  grantBalance rawInput gid aid now a = Ok (a', out) -> account_ok a'.
Proof.
  intros Hok Hgid Haid H. destruct out as [dup r]. destruct (grant_spec a rawInput gid aid now a' dup r Hok H) as
    (input & hash & _ & _ & [ (_ & -> & _)|(_ & Hkey & w & n & entity & expiresAt & Hw & _ & _ & _ & Hn & _ & _ & _ & -> & _)]); [done|].
  by apply (granted_ok a (grantRow input hash gid now)).
Qed.

(** What a revocation that is answered did: replayed, or took back what was left. *)
Lemma revoke_spec a rawInput now a' dup r : account_ok a ->
  revoke rawInput now (Some a) = Ok (a', (dup, r)) ->
  exists input row, let requestHash := operatorGrantRevokeRequestHash localeCompare sha256Hex input in
    normalizeOperatorGrantRevokeInput rawInput = Ok input /\ uuidOf (ri_grantId input) = Some (gr_id row) /\ row ∈ ac_grants a /\
    (forall r, r ∈ ac_grants a -> rv_idempotency_key <$> gr_revocation r = Some (ri_idempotencyKey input) -> gr_id r = gr_id row) /\
    ((dup = true /\ a' = a /\ rv_idempotency_key <$> gr_revocation row = Some (ri_idempotencyKey input) /\
        rv_request_hash <$> gr_revocation row = Some requestHash /\ requireOperatorGrant now (gr_id row) a = Ok r) \/
     (dup = false /\ exists w al g, let expired := expiredAt now al in w ∈ ac_wallets a /\ grantOf (w_store w) al g /\
        og_id g = gr_id row /\ og_revoked_at g = None /\
        a' = revokedAccount a input requestHash expired (gr_id row) (al_id al) now (takenBack expired al) /\
        requireOperatorGrant now (gr_id row) a' = Ok r)).
Proof.
  intros Hok H. unfold revokeOperatorGrant in H. apply bind_Ok in H as (input & Hin & H). cbv zeta in H.
  destruct (uuidOf (ri_grantId input)) as [gid|] eqn:Eu; [|done].
  destruct (List.find _ (ac_grants a)) as [row|] eqn:Er in H; [|done]. apply find_some_in in Er as [Hrow Eid%Z.eqb_eq]. subst gid.
  apply bind_Ok in H as (u & Hu & H). exists input, row. cbv zeta. split; [done|]. split; [done|]. split; [done|].
  assert (Hholder : forall r, r ∈ ac_grants a -> rv_idempotency_key <$> gr_revocation r = Some (ri_idempotencyKey input) -> gr_id r = gr_id row).
  { intros x Hx Ex. destruct (List.find _ (ac_grants a)) as [y|] eqn:Ef in Hu; [done|].
    pose proof (find_none _ _ Ef x (proj1 (list_elem_of_In _ _) Hx)) as Hn. cbn in Hn. rewrite (bool_decide_eq_true_2 _ Ex) in Hn. cbn in Hn.
    by apply negb_false_iff, Z.eqb_eq in Hn. }
  split; [done|]. destruct (row_grant a Hok row Hrow) as (w & al & g & Hw & Hl & Hid). destruct (findStored_grant a Hok w al g Hw Hl) as [Est Eal].
  unfold revokedColumns in H. rewrite <- Hid, Est, Eal in H. cbn [mbind option_bind] in H.
  destruct (og_revoked_at g) as [t|] eqn:Et.
  - left. cbn [mbind option_bind] in H. apply bind_Ok in H as (u1 & H1 & H). apply bind_Ok in H as (u2 & H2 & H). apply bind_Ok in H as (rec & Hrec & H).
    injection H as <- <- <-. apply throwWhen_Ok, negb_false_iff, bool_decide_eq_true in H1, H2. by rewrite <- Hid.
  - right. cbn [mbind option_bind] in H. pose proof (ao_scales _ Hok w Hw) as Hs.
    pose proof (inv_allocs _ _ (ao_wallets _ Hok w Hw)) as Hall. rewrite Forall_forall in Hall. pose proof Hl as (Hal & _).
    destruct (alloc_ok_nonneg al (Hall al Hal)) as (_ & Hr0 & _). set (expired := expiredAt now al) in *.
    assert (Htaken : 0 <= takenBack expired al) by (unfold takenBack, revokeUnits; destruct expired; cbn; lia).
    assert (Eafter : u_reversed (al_units (if expired then al else revokeAlloc now al)) = u_reversed (al_units al) + takenBack expired al).
    { unfold takenBack. destruct expired; cbn; lia. }
    rewrite Eafter, !(allocation_units w _ (walletScale w)) in H by (done || lia). cbn [mbind result_bind] in H.
    rewrite <- Z.mul_sub_distr_r, Z.add_simpl_l in H. unfold allocationScale in H. fold (walletScale w) in H.
    rewrite rescaled_units in H by lia. cbn [mbind result_bind] in H. apply bind_Ok in H as (rec & Hrec & H). injection H as <- <- <-.
    split; [done|]. exists w, al, g. cbv zeta. fold expired. do 4 (split; [done|]).
    assert (Ea : revokedAccount a input (operatorGrantRevokeRequestHash localeCompare sha256Hex input) expired (og_id g) (al_id al) now (takenBack expired al)
      = set_grants (updateWallets (markRevoked (og_id g) now (takenBack expired al))
          (if expired then a else updateWallets (updateAlloc (al_id al) (revokeAlloc now)) a))
          (map (fun row => if gr_id row =? og_id g then revokeRow input (operatorGrantRevokeRequestHash localeCompare sha256Hex input) row else row) (ac_grants a))).
    { unfold revokedAccount, updateWallets, revokedStore, set_grants, set_wallets. destruct expired; cbn; [done|]. by rewrite map_map. }
    rewrite <- Hid, Ea. split; [|by destruct expired]. by destruct expired.
Qed.

Lemma revoke_ok a rawInput now a' out : account_ok a -> revoke rawInput now (Some a) = Ok (a', out) -> account_ok a'.
Proof.
  intros Hok H. destruct out as [dup r]. destruct (revoke_spec a rawInput now a' dup r Hok H) as
    (input & row & _ & _ & Hrow & Hkey & [ (_ & -> & _)|(_ & w & al & g & Hw & Hl & Hid & Hnone & -> & _)]); [done|].
  by apply (revokedAccount_ok a input _ row w al g now).
Qed.

Abbreviation debitHash := (administrativeDebitRequestHash localeCompare sha256Hex).

(** A debit under a new key, by what its lines can take. *)
Lemma debit_fresh a rawInput input did now : account_ok a -> normalizeAdministrativeDebitInput rawInput = Ok input ->
  di_idempotencyKey input ∉ map db_idempotency_key (ac_debits a) -> did ∉ map db_id (ac_debits a) ->
  (exists amounts r, let a' := debitedAccount a (debitRow input (debitHash input) did now) (di_allocations input) amounts in
    Forall2 (takesFrom a now) (di_allocations input) amounts /\ account_ok a' /\ requireDebit did a' = Ok r /\
    debit rawInput did now (Some a) = Ok (a', (false, r))) \/
  (exists e, debit rawInput did now (Some a) = Err e /\ debit_refused e /\
    forall amounts, ~ Forall2 (takesFrom a now) (di_allocations input) amounts).
Proof.
  intros Hok Hin Hkey Hdid. destruct (normalized_debit rawInput input Hin) as (Hlines & Hnd & _).
  unfold debitAllocations. rewrite Hin. cbn [mbind result_bind]. cbv zeta.
  destruct (List.find _ (ac_debits a)) as [row|] eqn:E.
  { apply find_some_in in E as [Hrow Ek%bool_decide_eq_true]. exfalso. apply Hkey. rewrite <- Ek. by apply list_elem_of_fmap_2. }
  pose proof (check_lines a now (di_allocations input) (di_allocations input) Hok (fun _ H => H) Hlines) as H.
  destruct (mapM _ (di_allocations input)) as [out|e] eqn:Em; cbn [mbind result_bind].
  - left. destruct H as [-> [amounts Ht] ]. exists amounts. cbv zeta. set (row := debitRow input (debitHash input) did now).
    assert (Hok' : account_ok (debitedAccount a row (di_allocations input) amounts)) by (by apply (debitedAccount_ok a now)).
    assert (Hrow : row ∈ ac_debits (debitedAccount a row (di_allocations input) amounts)) by (cbn; apply elem_of_app; right; constructor).
    destruct (debit_record _ row Hok' Hrow) as (r & Hr & _). exists r. do 3 (split; [done|]). rewrite map_map.
    change (map (fun x => {| dl_debit_id := did; dl_allocation_id := parseDigits (fst (li_allocationId x, li_quantity x)); dl_quantity := snd (li_allocationId x, li_quantity x) |}) (di_allocations input))
      with (map (debitLine (db_id row)) (di_allocations input)).
    rewrite (debits_apply a now (di_allocations input) amounts Hok Hlines Hnd Ht) by done. cbn [mbind result_bind].
    change (updateWallets (debitedStore amounts) _) with (debitedAccount a row (di_allocations input) amounts).
    change did with (db_id row) at 1. rewrite Hr. done.
  - right. destruct H as [He Hno]. eauto.
Qed.

Lemma debit_spec a rawInput did now a' dup r : account_ok a -> did ∉ map db_id (ac_debits a) ->
  debit rawInput did now (Some a) = Ok (a', (dup, r)) ->
  exists input, normalizeAdministrativeDebitInput rawInput = Ok input /\
  ((dup = true /\ a' = a /\ exists row, row ∈ ac_debits a /\ db_idempotency_key row = di_idempotencyKey input /\
      db_request_hash row = debitHash input /\ requireDebit (db_id row) a = Ok r) \/
   (dup = false /\ di_idempotencyKey input ∉ map db_idempotency_key (ac_debits a) /\ account_ok a' /\ requireDebit did a' = Ok r /\
      exists amounts, Forall2 (takesFrom a now) (di_allocations input) amounts /\
        a' = debitedAccount a (debitRow input (debitHash input) did now) (di_allocations input) amounts)).
Proof.
  intros Hok Hdid H. destruct (normalizeAdministrativeDebitInput rawInput) as [input|e] eqn:Hin; [|unfold debitAllocations in H; by rewrite Hin in H].
  exists input. split; [done|]. destruct (decide (di_idempotencyKey input ∈ map db_idempotency_key (ac_debits a))) as [Hk|Hk].
  - left. apply list_elem_of_fmap in Hk as (row & Ek & Hrow). unfold debitAllocations in H. rewrite Hin in H. cbn [mbind result_bind] in H. cbv zeta in H.
    rewrite (find_the _ (ac_debits a) row Hrow) in H.
    + apply bind_Ok in H as (u & Hu & H). apply throwWhen_Ok, negb_false_iff, bool_decide_eq_true in Hu.
      apply bind_Ok in H as (x & Hx & H). injection H as <- <- <-. split; [done|]. split; [done|]. by exists row.
    + by apply bool_decide_eq_true.
    + intros y Hy Ey%bool_decide_eq_true. eapply NoDup_key_inj; [apply (ao_debitKeys _ Hok)|done|done|congruence].
  - right. destruct (debit_fresh a rawInput input did now Hok Hin Hk Hdid) as [(amounts & r' & Ht & Hok' & Hr & E)|(e & E & _)]; rewrite E in H; [|done].
    injection H as <- <- <-. eauto 9.
Qed.

(** ** Histories of an account *)

Inductive adjusts : Account -> Account -> Prop :=
  | adj_use a w rate s' : w ∈ ac_wallets a -> step (w_feature w) rate (w_store w) s' -> adjusts a (useWallet a w s')
  | adj_grant a input gid aid now a' out : gid ∉ map gr_id (ac_grants a) -> aid ∉ allocIds a ->
      grantBalance input gid aid now a = Ok (a', out) -> adjusts a a'
  | adj_revoke a input now a' out : revoke input now (Some a) = Ok (a', out) -> adjusts a a'
  | adj_debit a input did now a' out : did ∉ map db_id (ac_debits a) -> debit input did now (Some a) = Ok (a', out) -> adjusts a a'.

Lemma adjusts_ok a a' : account_ok a -> adjusts a a' -> account_ok a'.
Proof.
  intros Hok H. destruct H as [a w rate s' Hw Hs|a input gid aid now a' out Hg Ha H|a input now a' out H|a input did now a' [dup r] Hd H].
  - by eapply use_account_ok.
  - by eapply grant_ok.
  - by eapply revoke_ok.
  - destruct (debit_spec a input did now a' dup r Hok Hd H) as (i & _ & [ (_ & -> & _)|(_ & _ & ? & _)]); done.
Qed.

Lemma adjusted_ok a a' : account_ok a -> rtc adjusts a a' -> account_ok a'.
Proof. intros Hok H. induction H; eauto using adjusts_ok. Qed.
End Operations.

(** An account nothing was spent from or adjusted: granted allocations in features of the
    project. *)
Record unadjusted (a : Account) : Prop := {
  un_ids : NoDup (allocIds a);
  un_features : NoDup (map featureId (ac_wallets a));
  un_wallets : forall w, w ∈ ac_wallets a -> 0 <= walletScale w <= 9 /\ unspent (w_store w) /\ s_grants (w_store w) = [] /\
    forall al, al ∈ s_allocs (w_store w) -> al_operator al = false /\ al_operator_grant_id al = None;
  un_tables : ac_grants a = [] /\ ac_debits a = [] /\ ac_lines a = [] }.

Lemma grants_ok_none d s : NoDup (map al_id (s_allocs s)) -> s_grants s = [] ->
  (forall al, al ∈ s_allocs s -> al_operator al = false /\ al_operator_grant_id al = None) -> grants_ok d s.
Proof.
  intros Hnd Hg Hal. assert (Hno : forall al g, ~ grantOf s al g).
  { intros al g (_ & Hin & _). rewrite Hg in Hin. by apply elem_of_nil in Hin. }
  constructor; [constructor; [exact Hnd| |]| | | | | | |].
  - intros x y gid Hx _ E. destruct (Hal x Hx) as [_ E']. congruence.
  - intros x g H. by destruct (Hno x g).
  - intros x Hx. destruct (Hal x Hx) as [-> ->]. by split; [|intros [? ?] ].
  - intros x gid Hx E. destruct (Hal x Hx) as [_ E']. congruence.
  - rewrite Hg. constructor.
  - rewrite Hg. by intros g ?%elem_of_nil.
  - rewrite Hg. by intros g ?%elem_of_nil.
  - intros x g H. by destruct (Hno x g).
  - intros x g H. by destruct (Hno x g).
Qed.

Lemma unadjusted_ok a : unadjusted a -> account_ok a.
Proof.
  intros [Hids Hf Hw (Hg & Hd & Hl)].
  assert (Hst : storedIds a = []).
  { apply elem_of_nil_inv. intros x (w & Hin & Hx)%concat_in. unfold walletGrants in Hx. destruct (Hw w Hin) as (_ & _ & E & _).
    rewrite E in Hx. by apply elem_of_nil in Hx. }
  constructor; rewrite ?Hst, ?Hg, ?Hd, ?Hl; try done; try apply NoDup_nil_2.
  - intros w Hin. by destruct (Hw w Hin).
  - intros w Hin. destruct (Hw w Hin) as (_ & Hu & _). by apply (unspent_inv (w_feature w)).
  - intros w Hin. destruct (Hw w Hin) as (_ & (_ & _ & Hnd & _) & Hgr & Hal). by apply grants_ok_none.
  - by intros row w g ?%elem_of_nil.
  - by intros r1 r2 key ?%elem_of_nil.
  - by intros line ?%elem_of_nil.
Qed.

(** ** What histories keep *)

(** The allocation and the settled columns of a grant of the account. *)
Definition grantAt (a : Account) (gid : Z) (al : Alloc) (g : OperatorGrant) : Prop :=
  exists w, w ∈ ac_wallets a /\ grantOf (w_store w) al g /\ og_id g = gid.

(** A later state of a grant's rows. *)
Record follows (al : Alloc) (g : OperatorGrant) (al' : Alloc) (g' : OperatorGrant) : Prop := {
  fo_id : al_id al' = al_id al;
  fo_quantity : u_quantity (al_units al') = u_quantity (al_units al);
  fo_expires : al_expires_at al' = al_expires_at al;
  fo_reversed : forall t, al_reversed_at al = Some t -> al_reversed_at al' = Some t;
  fo_revoked : forall t, og_revoked_at g = Some t -> og_revoked_at g' = Some t;
  fo_taken : u_reversed (al_units al) <= u_reversed (al_units al') }.

Lemma follows_refl al g : follows al g al g.
Proof. by constructor. Qed.

Lemma follows_trans al1 g1 al2 g2 al3 g3 : follows al1 g1 al2 g2 -> follows al2 g2 al3 g3 -> follows al1 g1 al3 g3.
Proof. intros [] []. constructor; try congruence; try lia; auto. Qed.

(** A later row of [operator_grants]: its revocation is written once. *)
Definition rowFollows (r r' : GrantRow) : Prop :=
  gr_id r' = gr_id r /\ gr_idempotency_key r' = gr_idempotency_key r /\ gr_request_hash r' = gr_request_hash r /\
  gr_actor r' = gr_actor r /\ gr_reason r' = gr_reason r /\ gr_created_at r' = gr_created_at r /\
  (forall rv, gr_revocation r = Some rv -> gr_revocation r' = Some rv).

Lemma grantAt_unique a gid al g al' g' : account_ok a -> grantAt a gid al g -> grantAt a gid al' g' -> al' = al /\ g' = g.
Proof.
  intros Hok (w & Hw & Hl & <-) (v & Hv & Hl' & Hid). destruct (findStored_grant a Hok w al g Hw Hl) as [E1 E2].
  destruct (findStored_grant a Hok v al' g' Hv Hl') as [E1' E2']. rewrite Hid in *. rewrite E1 in E1'. rewrite E2 in E2'.
  injection E1' as <- <-. by injection E2' as <-.
Qed.

Lemma grantAt_row a gid al g : account_ok a -> grantAt a gid al g -> exists row, row ∈ ac_grants a /\ gr_id row = gid.
Proof.
  intros Hok (w & Hw & (_ & Hg & _) & <-). assert (Hin : og_id g ∈ storedIds a) by (by eapply stored_in).
  apply (ao_rows _ Hok) in Hin as (row & -> & Hrow)%list_elem_of_fmap. by exists row.
Qed.

Lemma use_follows a w rate s' gid al g : account_ok a -> w ∈ ac_wallets a -> step (w_feature w) rate (w_store w) s' ->
  grantAt a gid al g -> exists al' g', grantAt (useWallet a w s') gid al' g' /\ follows al g al' g'.
Proof.
  intros Hok Hw Hstep (v & Hv & Hl & Hid).
  destruct (step_advances _ _ _ _ (ao_wallets _ Hok w Hw) (go_paired _ _ (ao_grants _ Hok w Hw)) Hstep) as [Hs _].
  destruct (putStore_cases a w v s' Hok Hw Hv) as [ [-> E]|[_ E] ].
  - destruct Hs as (F & G & Ea & Eg & HF & HG & Hup & Hd). exists (F al), (G g). pose proof Hl as (Hal & Hg & _).
    pose proof (HF al Hal) as (H1 & _ & _ & H4 & H5 & H6 & _). destruct (HG g Hg) as [Hgid Hgr]. specialize (Hd al g Hl). destruct (Hup g Hg) as [Hle _].
    split; [|constructor; try congruence; lia]. exists (set_store w s'). split; [|split; [|congruence] ].
    + unfold useWallet. cbn. rewrite <- E. by apply list_elem_of_fmap_2.
    + by apply (grantOf_forward (w_store w) s' F G).
  - exists al, g. split; [|apply follows_refl]. exists v. split; [|done]. unfold useWallet. cbn. rewrite <- E. by apply list_elem_of_fmap_2.
Qed.

Lemma granted_follows a row w nal gid al g : grantAt a gid al g -> grantAt (granted a row w nal) gid al g.
Proof.
  intros (v & Hv & (Hal & Hg & Hid) & E). exists (insertGrant (featureId w) nal (gr_id row) v). split; [by apply list_elem_of_fmap_2|].
  split; [|done]. unfold insertGrant. destruct (_ =? _); [|done]. unfold grantOf. cbn. rewrite !elem_of_app. auto.
Qed.

Lemma debited_follows a row lines amounts gid al g : grantAt a gid al g -> (0 <= amountFor amounts (al_id al)) ->
  grantAt (debitedAccount a row lines amounts) gid (debitedAlloc amounts al) g /\ follows al g (debitedAlloc amounts al) g.
Proof.
  intros (v & Hv & (Hal & Hg & Hid) & E) H0. split; [|constructor; try done; cbn; lia].
  exists (set_store v (debitedStore amounts (w_store v))). split; [cbn; by apply (list_elem_of_fmap_2 (fun w => set_store w (debitedStore amounts (w_store w))))|].
  split; [|done]. split; [cbn; by apply list_elem_of_fmap_2|]. by split.
Qed.

(** The rows of a grant after some grant of the account was revoked. *)
Lemma revoked_rows a input hash gid0 expired aid now n w al g : w ∈ ac_wallets a -> grantOf (w_store w) al g ->
  let w' := set_store w (revokedStore expired gid0 aid now n (w_store w)) in
  w' ∈ ac_wallets (revokedAccount a input hash expired gid0 aid now n) /\
  grantOf (w_store w') (revokedAlloc expired aid now al)
    (if og_id g =? gid0 then {| og_id := og_id g; og_revoked_quantity := n; og_revoked_at := Some now |} else g).
Proof.
  intros Hw (Hal & Hg & Hid) w'. split; [cbn; by apply (list_elem_of_fmap_2 (fun w => set_store w (revokedStore expired gid0 aid now n (w_store w))))|].
  split; [|split].
  - unfold w'. cbn [w_store set_store]. rewrite revokedStore_allocs. by apply list_elem_of_fmap_2.
  - unfold w'. cbn [w_store set_store revokedStore markRevoked s_grants].
    apply (list_elem_of_fmap_2 (fun y => if og_id y =? gid0 then {| og_id := og_id y; og_revoked_quantity := n; og_revoked_at := Some now |} else y)).
    by destruct expired.
  - transitivity (al_operator_grant_id al); [unfold revokedAlloc; destruct expired; [done|]; by destruct (_ =? _)|].
    rewrite Hid. by destruct (_ =? _).
Qed.

Lemma revoked_follows a input hash row w al0 g0 now gid al g : account_ok a -> w ∈ ac_wallets a -> grantOf (w_store w) al0 g0 ->
  og_id g0 = gr_id row -> og_revoked_at g0 = None -> grantAt a gid al g ->
  let expired := expiredAt now al0 in
  let a' := revokedAccount a input hash expired (gr_id row) (al_id al0) now (takenBack expired al0) in
  exists al' g', grantAt a' gid al' g' /\ follows al g al' g'.
Proof.
  intros Hok Hw Hl0 Hid0 Hnone (v & Hv & Hl & Hid) expired a'.
  destruct (revoked_rows a input hash (gr_id row) expired (al_id al0) now (takenBack expired al0) v al g Hv Hl) as [Hv' Hl'].
  eexists _, _. split; [exists (set_store v (revokedStore expired (gr_id row) (al_id al0) now (takenBack expired al0) (w_store v)));
    split; [exact Hv'|split; [exact Hl'|by destruct (_ =? _)] ]|].
  assert (Hx : revokedAlloc expired (al_id al0) now al = al \/ revokedAlloc expired (al_id al0) now al = revokeAlloc now al).
  { unfold revokedAlloc. destruct expired; [by left|]. destruct (al_id al =? al_id al0); [by right|by left]. }
  constructor; try (destruct Hx as [->| ->]; try done; cbn; lia).
  - intros t Ht. destruct Hx as [->| ->]; [done|]. cbn. by rewrite Ht.
  - intros t Ht. destruct (Z.eqb_spec (og_id g) (gr_id row)) as [E|]; [|done].
    destruct (stored_unique a Hok v w g g0 Hv Hw (proj1 (proj2 Hl)) (proj1 (proj2 Hl0)) ltac:(congruence)) as [_ ->]. congruence.
Qed.

Section History.
Context (localeCompare : text -> text -> comparison) (sha256Hex : text -> text) (catalog : Catalog) (uuidOf : text -> option Z).
Abbreviation adjusts := (adjusts localeCompare sha256Hex catalog uuidOf).

Lemma adjusts_follows a a' gid al g : account_ok a -> adjusts a a' -> grantAt a gid al g ->
  exists al' g', grantAt a' gid al' g' /\ follows al g al' g'.
Proof.
  intros Hok H Hat. destruct H as [a w rate s' Hw Hs|a input gid' aid now a' [dup r] Hg Ha H|a input now a' [dup r] H|a input did now a' [dup r] Hd H].
  - by apply (use_follows a w rate s').
  - destruct (grant_spec _ _ _ a input gid' aid now a' dup r Hok H) as
      (i & h & _ & _ & [ (_ & -> & _)|(_ & _ & w & n & en & ex & _ & _ & _ & _ & _ & _ & _ & _ & -> & _)]);
      exists al, g; (split; [|apply follows_refl]); [done|]. by apply granted_follows.
  - destruct (revoke_spec _ _ _ a input now a' dup r Hok H) as
      (i & row & _ & _ & _ & _ & [ (_ & -> & _)|(_ & w & al0 & g0 & Hw & Hl & Hid & Hnone & -> & _)]).
    + exists al, g. split; [done|apply follows_refl].
    + by eapply revoked_follows.
  - destruct (debit_spec _ _ a input did now a' dup r Hok Hd H) as (i & _ & [ (_ & -> & _)|(_ & _ & _ & _ & amounts & Ht & ->)]).
    + exists al, g. split; [done|apply follows_refl].
    + exists (debitedAlloc amounts al), g. apply debited_follows; [done|]. apply amountFor_nonneg, Forall_forall. intros p Hp.
      destruct (Forall2_elem_r _ _ _ _ Ht Hp) as (line & _ & w & x & _ & _ & _ & _ & _ & _ & Hpos & _). lia.
Qed.

Lemma adjusts_rows a a' : account_ok a -> adjusts a a' ->
  (forall r, r ∈ ac_grants a -> exists r', r' ∈ ac_grants a' /\ rowFollows r r') /\ (forall d, d ∈ ac_debits a -> d ∈ ac_debits a').
Proof.
  intros Hok H. assert (Hsame : forall b, ac_grants b = ac_grants a -> forall r, r ∈ ac_grants a -> exists r', r' ∈ ac_grants b /\ rowFollows r r').
  { intros b -> r Hr. by exists r. }
  destruct H as [a w rate s' Hw Hs|a input gid aid now a' [dup r] Hg Ha H|a input now a' [dup r] H|a input did now a' [dup r] Hd H].
  - split; [by apply Hsame|done].
  - destruct (grant_spec _ _ _ a input gid aid now a' dup r Hok H) as
      (i & h & _ & _ & [ (_ & -> & _)|(_ & _ & w & n & en & ex & _ & _ & _ & _ & _ & _ & _ & _ & -> & _)]); (split; [|done]); [by apply Hsame|].
    intros x Hx. exists x. split; [cbn; apply elem_of_app; by left|done].
  - destruct (revoke_spec _ _ _ a input now a' dup r Hok H) as
      (i & row & _ & _ & Hrow & _ & [ (_ & -> & _)|(_ & w & al0 & g0 & Hw & Hl & Hid & Hnone & -> & _)]); (split; [|done]); [by apply Hsame|].
    intros x Hx. exists (if gr_id x =? gr_id row then revokeRow i (operatorGrantRevokeRequestHash localeCompare sha256Hex i) x else x).
    split; [cbn; by apply (list_elem_of_fmap_2 (fun row0 => if gr_id row0 =? gr_id row then revokeRow i (operatorGrantRevokeRequestHash localeCompare sha256Hex i) row0 else row0))|].
    destruct (Z.eqb_spec (gr_id x) (gr_id row)) as [E|]; [|done]. do 6 (split; [done|]). intros rv Hrv.
    destruct (proj1 (ao_revoked _ Hok x w g0 Hx Hw (proj1 (proj2 Hl)) ltac:(congruence)) ltac:(eauto)) as [t Et]. congruence.
  - destruct (debit_spec _ _ a input did now a' dup r Hok Hd H) as (i & _ & [ (_ & -> & _)|(_ & _ & _ & _ & amounts & Ht & ->)]);
      (split; [by apply Hsame|]); [done|]. intros d Hdin. cbn. apply elem_of_app. by left.
Qed.

Lemma history_follows a a' gid al g : account_ok a -> rtc adjusts a a' -> grantAt a gid al g ->
  exists al' g', grantAt a' gid al' g' /\ follows al g al' g'.
Proof.
  intros Hok H. revert al g Hok. induction H as [a|a b c Hstep _ IH]; intros al g Hok Hat; [exists al, g; split; [done|apply follows_refl]|].
  destruct (adjusts_follows a b gid al g Hok Hstep Hat) as (al1 & g1 & Hat1 & Hf1).
  destruct (IH al1 g1 (adjusts_ok _ _ _ _ _ _ Hok Hstep) Hat1) as (al2 & g2 & Hat2 & Hf2). exists al2, g2. split; [done|]. by eapply follows_trans.
Qed.

Lemma history_rows a a' : account_ok a -> rtc adjusts a a' ->
  (forall r, r ∈ ac_grants a -> exists r', r' ∈ ac_grants a' /\ rowFollows r r') /\ (forall d, d ∈ ac_debits a -> d ∈ ac_debits a').
Proof.
  intros Hok H. induction H as [a|a b c Hstep _ IH]; [split; [intros r Hr; by exists r|done]|].
  destruct (adjusts_rows a b Hok Hstep) as [Hr Hd]. destruct (IH (adjusts_ok _ _ _ _ _ _ Hok Hstep)) as [Hr' Hd']. split; [|auto].
  intros r Hin. destruct (Hr r Hin) as (r1 & Hin1 & H1 & H2 & H3 & H4 & H5 & H6 & H7). destruct (Hr' r1 Hin1) as (r2 & Hin2 & G1 & G2 & G3 & G4 & G5 & G6 & G7).
  exists r2. split; [done|]. repeat split; try congruence. auto.
Qed.

(** The record of a grant at any moment is that of its rows. *)
Lemma record_at a now gid al g : account_ok a -> grantAt a gid al g -> exists row w, row ∈ ac_grants a /\ gr_id row = gid /\ w ∈ ac_wallets a /\
  grantOf (w_store w) al g /\ requireOperatorGrant now gid a = Ok (recordOf a now row w al g).
Proof.
  intros Hok Hat. destruct (grantAt_row a gid al g Hok Hat) as (row & Hrow & <-). destruct Hat as (w & Hw & Hl & Hid).
  exists row, w. do 4 (split; [done|]). destruct (require_record a now row Hok Hrow) as (v & al' & g' & Hv & Hl' & Hid' & ->).
  destruct (grantAt_unique a (gr_id row) al g al' g' Hok) as [-> ->]; [by exists w|by exists v|].
  destruct (stored_unique a Hok v w g g Hv Hw (proj1 (proj2 Hl')) (proj1 (proj2 Hl)) eq_refl) as [-> _]. done.
Qed.
End History.

(** ** The ledger of operator grants *)

Lemma zero_text s : 0 <= s <= 9 -> unitsToDecimal 0 s = js "0".
Proof. intros Hs. rewrite <- (unitsToDecimal_rescale 0 0 s) at 1 by lia. by rewrite Z.mul_0_l. Qed.

(** C22: whatever wallet transactions, grants, revocations and debits an account goes through,
    the numbers of every operator grant add up: what is reversed of its allocation is
    exactly what the recorded debits took plus what its revocation reports, reversed,
    consumed and held quantity together never exceed the quantity granted, they make all
    of it once the grant was revoked in time, and the record the API returns shows these
    very numbers. *)
Theorem operator_grant_adds_up localeCompare sha256Hex catalog uuidOf a0 a now row :
  unadjusted a0 -> rtc (adjusts localeCompare sha256Hex catalog uuidOf) a0 a -> row ∈ ac_grants a ->
  exists w al g, w ∈ ac_wallets a /\ al ∈ s_allocs (w_store w) /\ g ∈ s_grants (w_store w) /\
    al_operator_grant_id al = Some (gr_id row) /\ og_id g = gr_id row /\ let u := al_units al in
    requireOperatorGrant now (gr_id row) a = Ok (recordOf a now row w al g) /\
    u_reversed u = debited (walletScale w) (ac_lines a) (al_id al) + og_revoked_quantity g /\
    0 <= u_consumed u /\ 0 <= u_held u /\ u_reversed u + u_consumed u + u_held u <= u_quantity u /\
    (isReversed al = true -> is_Some (og_revoked_at g) /\ u_reversed u + u_consumed u + u_held u = u_quantity u).
Proof.
  intros Hun H Hrow. pose proof (adjusted_ok _ _ _ _ a0 a (unadjusted_ok a0 Hun) H) as Hok.
  destruct (require_record a now row Hok Hrow) as (w & al & g & Hw & Hl & Hid & Hrec). exists w, al, g.
  pose proof Hl as (Hal & Hg & Hgid). do 3 (split; [done|]). split; [congruence|]. split; [done|]. cbv zeta. split; [done|].
  pose proof (ao_grants _ Hok w Hw) as Hgo. split; [by apply (go_ledger _ _ Hgo)|].
  pose proof (inv_allocs _ _ (ao_wallets _ Hok w Hw)) as Hall. rewrite Forall_forall in Hall. destruct (Hall al Hal) as [(_ & Hc & Hh & _) _].
  pose proof (go_free _ _ Hgo al g Hl) as [Hf Hr]. unfold u_free in *. split; [done|]. split; [done|]. split; [lia|].
  intros Hrev. specialize (Hr Hrev). split; [|lia]. apply (pr_revoked _ (go_paired _ _ Hgo) al g Hl). by rewrite (grantOf_operator _ _ _ _ Hgo Hl).
Qed.

(** What a revocation does at once. *)
Lemma revocation_effect localeCompare sha256Hex uuidOf a1 a2 input now r : account_ok a1 ->
  revokeOperatorGrant localeCompare sha256Hex uuidOf input now (Some a1) = Ok (a2, (false, r)) ->
  exists gid r1 rv al g al2 g2, uuidOf (ri_grantId input) = Some gid /\ requireOperatorGrant now gid a1 = Ok r1 /\
    rec_status r1 <> grant_revoked /\ rec_revocation r = Some rv /\ rr_revokedQuantity rv = rec_availableQuantity r1 /\
    rec_consumedQuantity r = rec_consumedQuantity r1 /\ rec_heldQuantity r = rec_heldQuantity r1 /\
    grantAt a1 gid al g /\ grantAt a2 gid al2 g2 /\ og_revoked_at g2 = Some now /\
    u_consumed (al_units al2) = u_consumed (al_units al) /\ u_held (al_units al2) = u_held (al_units al) /\
    (expiredAt now al = false -> al_reversed_at al2 = Some now).
Proof.
  intros Hok1 Hrev. assert (Hok2 : account_ok a2) by (by eapply revoke_ok).
  destruct (revoke_spec _ _ _ a1 input now a2 false r Hok1 Hrev) as (i & row & Hi & Hu & Hrow & _ & [ (? & _)|(_ & w & al & g & Hw & Hl & Hid & Hnone & Ea2 & Hr)]); [done|].
  assert (Ei : ri_grantId i = ri_grantId input).
  { unfold normalizeOperatorGrantRevokeInput in Hi. apply bind_Ok in Hi as (rs & _ & Hi). by injection Hi as <-. }
  rewrite Ei in Hu. set (expired := expiredAt now al) in *. set (n := takenBack expired al) in *.
  set (w2 := set_store w (revokedStore expired (gr_id row) (al_id al) now n (w_store w))).
  destruct (revoked_rows a1 i (operatorGrantRevokeRequestHash localeCompare sha256Hex i) (gr_id row) expired (al_id al) now n w al g Hw Hl) as [Hw2 Hl2].
  rewrite <- Ea2, Hid, Z.eqb_refl in *. fold w2 in Hw2, Hl2. set (al2 := revokedAlloc expired (al_id al) now al) in *.
  set (g2 := {| og_id := gr_id row; og_revoked_quantity := n; og_revoked_at := Some now |}) in *.
  assert (Hat1 : grantAt a1 (gr_id row) al g) by (by exists w). assert (Hat2 : grantAt a2 (gr_id row) al2 g2) by (by exists w2).
  destruct (record_at a1 now _ _ _ Hok1 Hat1) as (row1 & v1 & _ & _ & Hv1 & Hlv1 & Hr1).
  destruct (stored_unique a1 Hok1 v1 w g g Hv1 Hw (proj1 (proj2 Hlv1)) (proj1 (proj2 Hl)) eq_refl) as [-> _].
  destruct (record_at a2 now _ _ _ Hok2 Hat2) as (row2 & v2 & Hrow2 & Erow2 & Hv2 & Hlv2 & Hr2).
  destruct (stored_unique a2 Hok2 v2 w2 g2 g2 Hv2 Hw2 (proj1 (proj2 Hlv2)) (proj1 (proj2 Hl2)) eq_refl) as [-> _].
  rewrite Hr2 in Hr. injection Hr as <-.
  destruct (proj2 (ao_revoked _ Hok2 row2 w2 g2 Hrow2 Hw2 (proj1 (proj2 Hl2)) (eq_sym Erow2)) ltac:(by eexists)) as [rvc Ervc].
  pose proof (ao_grants _ Hok1 w Hw) as Hgo1. pose proof (go_free _ _ Hgo1 al g Hl) as [Hf1 _].
  assert (Hnr : isReversed al = false).
  { apply not_true_is_false. intros E. destruct (pr_revoked _ (go_paired _ _ Hgo1) al g Hl) as [? ?]; [|congruence]. by rewrite (grantOf_operator _ _ _ _ Hgo1 Hl). }
  assert (Hu2 : u_consumed (al_units al2) = u_consumed (al_units al) /\ u_held (al_units al2) = u_held (al_units al)).
  { unfold al2, revokedAlloc. destruct expired; [done|]. by destruct (_ =? _). }
  exists (gr_id row), (recordOf a1 now row1 w al g). eexists _, al, g, al2, g2. do 2 (split; [done|]).
  cbn [rec_status rec_revocation rec_availableQuantity rec_consumedQuantity rec_heldQuantity recordOf].
  rewrite Hnone, Hnr. unfold revocationRecord. rewrite Ervc. change (og_revoked_at g2) with (Some now).
  split; [by destruct (expiredAt now al)|]. split; [reflexivity|]. cbn [rr_revokedQuantity orb]. change (walletScale w2) with (walletScale w).
  destruct Hu2 as [Hc2 Hh2]. rewrite Hc2, Hh2. split.
  { fold expired. f_equal. unfold g2, n, takenBack, revokeUnits, u_free in *. cbn. destruct expired; lia. }
  do 7 (split; [done|]). intros Eexp. change (expired = false) in Eexp.
  unfold al2, revokedAlloc. rewrite Eexp, Z.eqb_refl. unfold isReversed in Hnr. cbn. by destruct (al_reversed_at al).
Qed.

(** C23: a revocation takes back exactly what the grant had available and leaves what was
    consumed and held; from then on, through any history, the grant is revoked with
    nothing available, its allocation is spendable by no write (unless the grant had
    already expired), and what it has consumed and holds never grows. *)
Theorem revoked_grant_stays_closed localeCompare sha256Hex catalog uuidOf a0 a1 a2 a3 input now r now3 :
  unadjusted a0 -> rtc (adjusts localeCompare sha256Hex catalog uuidOf) a0 a1 ->
  revokeOperatorGrant localeCompare sha256Hex uuidOf input now (Some a1) = Ok (a2, (false, r)) ->
  rtc (adjusts localeCompare sha256Hex catalog uuidOf) a2 a3 ->
  exists gid r1 r3 rv al1 g1 al3 g3, uuidOf (ri_grantId input) = Some gid /\
    requireOperatorGrant now gid a1 = Ok r1 /\ requireOperatorGrant now3 gid a3 = Ok r3 /\
    rec_status r1 <> grant_revoked /\ rec_revocation r = Some rv /\ rr_revokedQuantity rv = rec_availableQuantity r1 /\
    rec_consumedQuantity r = rec_consumedQuantity r1 /\ rec_heldQuantity r = rec_heldQuantity r1 /\
    rec_status r3 = grant_revoked /\ rec_availableQuantity r3 = js "0" /\
    grantAt a1 gid al1 g1 /\ grantAt a3 gid al3 g3 /\
    (expiredAt now al1 = false -> (forall entity t, spendable entity t al3 = false) /\
      u_consumed (al_units al3) + u_held (al_units al3) <= u_consumed (al_units al1) + u_held (al_units al1)).
Proof.
  intros Hun H01 Hrev H23. pose proof (adjusted_ok _ _ _ _ a0 a1 (unadjusted_ok a0 Hun) H01) as Hok1.
  assert (Hok2 : account_ok a2) by (by eapply revoke_ok). pose proof (adjusted_ok _ _ _ _ a2 a3 Hok2 H23) as Hok3.
  destruct (revocation_effect localeCompare sha256Hex uuidOf a1 a2 input now r Hok1 Hrev) as
    (gid & r1 & rv & al1 & g1 & al2 & g2 & Hu & Hr1 & Hst & Hrv & Hq & Hc & Hh & Hat1 & Hat2 & Hrev2 & Hc2 & Hh2 & Hexp).
  destruct (history_follows localeCompare sha256Hex catalog uuidOf a2 a3 _ _ _ Hok2 H23 Hat2) as (al3 & g3 & Hat3 & Hf3).
  destruct (record_at a3 now3 _ _ _ Hok3 Hat3) as (row3 & w3 & Hrow3 & _ & Hw3 & Hl3 & Hr3).
  pose proof (fo_revoked _ _ _ _ Hf3 now Hrev2) as Hrev3.
  exists gid, r1, (recordOf a3 now3 row3 w3 al3 g3), rv, al1, g1, al3, g3. do 8 (split; [done|]).
  cbn [rec_status rec_availableQuantity recordOf]. rewrite Hrev3. split; [done|].
  split; [apply zero_text; by apply (ao_scales _ Hok3)|]. do 2 (split; [done|]). intros Eexp.
  pose proof (Hexp Eexp) as Er2. pose proof (fo_reversed _ _ _ _ Hf3 now Er2) as Er3. split.
  { intros entity t. unfold spendable, liveAt. by rewrite Er3, andb_false_r. }
  destruct Hat2 as (w2 & Hw2 & Hl2 & _). pose proof (go_free _ _ (ao_grants _ Hok2 w2 Hw2) al2 g2 Hl2) as [_ Hfree2].
  pose proof (go_free _ _ (ao_grants _ Hok3 w3 Hw3) al3 g3 Hl3) as [_ Hfree3]. unfold isReversed in Hfree2, Hfree3.
  rewrite Er2 in Hfree2. rewrite Er3 in Hfree3. specialize (Hfree2 eq_refl). specialize (Hfree3 eq_refl).
  pose proof (fo_quantity _ _ _ _ Hf3). pose proof (fo_taken _ _ _ _ Hf3). unfold u_free in *. lia.
Qed.

(** ** Debits are all or nothing *)

Lemma recorded_lines a row lines : account_ok a -> db_id row ∉ map db_id (ac_debits a) ->
  List.filter (fun l => dl_debit_id l =? db_id row) (ac_lines a ++ map (debitLine (db_id row)) lines) = map (debitLine (db_id row)) lines.
Proof.
  intros Hok Hid. rewrite List.filter_app, filter_none, filter_all; [done| |].
  - intros l (x & -> & _)%list_elem_of_fmap. apply Z.eqb_refl.
  - intros l Hl. apply Z.eqb_neq. intros E. destruct (ao_lines _ Hok l Hl) as [H _]. congruence.
Qed.

(** C24: a debit under a new key takes from every allocation it names or from none: when each
    line names an allocation of the account that is not reversed, has not expired, is no
    purchase or top-up of a provider and has the line's quantity available, each allocation
    loses exactly its own line and nothing else changes, and otherwise the debit is refused
    with a documented error and nothing is written; a guarded update never fails. *)
Theorem debit_all_or_none localeCompare sha256Hex catalog uuidOf a0 a rawInput input did now :
  unadjusted a0 -> rtc (adjusts localeCompare sha256Hex catalog uuidOf) a0 a ->
  normalizeAdministrativeDebitInput rawInput = Ok input ->
  di_idempotencyKey input ∉ map db_idempotency_key (ac_debits a) -> did ∉ map db_id (ac_debits a) ->
  (exists amounts a' r, Forall2 (takesFrom a now) (di_allocations input) amounts /\ NoDup (map fst amounts) /\
     debitAllocations localeCompare sha256Hex rawInput did now (Some a) = Ok (a', (false, r)) /\
     ac_wallets a' = map (fun w => set_store w (debitedStore amounts (w_store w))) (ac_wallets a) /\ ac_grants a' = ac_grants a /\
     map (fun l => (drl_allocationId l, drl_quantity l)) (adr_allocations r)
     ≡ₚ map (fun line => (parseDigits (li_allocationId line), li_quantity line)) (di_allocations input)) \/
  (exists e, debitAllocations localeCompare sha256Hex rawInput did now (Some a) = Err e /\ debit_refused e /\
     forall amounts, ~ Forall2 (takesFrom a now) (di_allocations input) amounts).
Proof.
  intros Hun H Hin Hkey Hdid. pose proof (adjusted_ok _ _ _ _ a0 a (unadjusted_ok a0 Hun) H) as Hok.
  destruct (debit_fresh localeCompare sha256Hex a rawInput input did now Hok Hin Hkey Hdid) as [(amounts & r & Ht & Hok' & Hr & E)|(e & E & He & Hno)]; [left|right; eauto].
  destruct (normalized_debit rawInput input Hin) as (Hlines & Hnd & _).
  set (row := debitRow input (administrativeDebitRequestHash localeCompare sha256Hex input) did now) in *.
  eexists amounts, _, r. split; [done|]. split; [by eapply takes_NoDup|]. split; [exact E|]. do 2 (split; [done|]).
  assert (Hrow : row ∈ ac_debits (debitedAccount a row (di_allocations input) amounts)) by (cbn; apply elem_of_app; right; constructor).
  destruct (debit_record _ row Hok' Hrow) as (r' & Hr' & _ & _ & _ & Hp). change (db_id row) with did in Hr'. rewrite Hr in Hr'. injection Hr' as <-.
  rewrite Hp. cbn [ac_lines debitedAccount updateWallets set_wallets add_debit]. rewrite recorded_lines by done. by rewrite map_map.
Qed.

Lemma mapM_perm {A B} (f : A -> result B) l1 l2 : l1 ≡ₚ l2 -> forall k1, mapM f l1 = Ok k1 -> exists k2, mapM f l2 = Ok k2 /\ k1 ≡ₚ k2.
Proof.
  induction 1 as [|x l1 l2 _ IH|x y l|l1 l2 l3 _ IH1 _ IH2]; intros k1 H.
  - eauto.
  - cbn in *. apply bind_Ok in H as (b & Hb & H). apply bind_Ok in H as (k & Hk & H). injection H as <-.
    destruct (IH k Hk) as (k2 & Hk2 & Hp). rewrite Hb. cbn. rewrite Hk2. cbn. eexists. split; [done|]. by rewrite Hp.
  - cbn in *. apply bind_Ok in H as (b & Hb & H). apply bind_Ok in H as (k & Hk & H). apply bind_Ok in Hk as (c & Hc & Hk).
    apply bind_Ok in Hk as (k' & Hk' & Hk). injection Hk as <-. injection H as <-. rewrite Hc. cbn. rewrite Hb. cbn. rewrite Hk'. cbn.
    eexists. split; [done|]. apply perm_swap.
  - destruct (IH1 k1 H) as (k2 & Hk2 & Hp). destruct (IH2 k2 Hk2) as (k3 & Hk3 & Hp'). exists k3. split; [done|]. by rewrite Hp.
Qed.

(** The lines of a debit written in another order make the same request. *)
Lemma permuted_debit l1 l2 reason actor key input :
  normalizeAdministrativeDebitInput {| di_allocations := l1; di_reason := reason; di_actor := actor; di_idempotencyKey := key |} = Ok input ->
  l1 ≡ₚ l2 ->
  normalizeAdministrativeDebitInput {| di_allocations := l2; di_reason := reason; di_actor := actor; di_idempotencyKey := key |} = Ok input.
Proof.
  intros H Hp. pose proof (normalized_debit _ _ H) as (_ & Hnd & Hs). unfold normalizeAdministrativeDebitInput in *. cbn [di_allocations di_reason di_actor di_idempotencyKey] in *.
  apply bind_Ok in H as (u & Hu & H). apply bind_Ok in H as (n1 & Hn1 & H). cbv zeta in H. apply bind_Ok in H as ([] & Hc & H). apply bind_Ok in H as (rs & Hrs & H).
  injection H as <-. cbn [di_allocations] in *. destruct (mapM_perm _ _ _ Hp n1 Hn1) as (n2 & Hn2 & Hp2).
  assert (E : sortBy lineLess n1 = sortBy lineLess n2).
  { apply (sorted_unique (inOrder lineLess)); [apply lines_sorted|apply lines_sorted|by rewrite !sortBy_perm|].
    intros x y Hx Hy Hxy Hyx. eapply NoDup_key_inj; [exact Hnd|done|done|]. by apply idLess_total. }
  apply throwWhen_Ok, orb_false_iff in Hu as [Hu1%bool_decide_eq_false Hu2].
  rewrite bool_decide_eq_false_2 by (intros ->; by apply Permutation_nil_r in Hp). rewrite <- (Permutation_length Hp), Hu2. cbn [orb throwWhen mbind result_bind].
  rewrite Hn2. cbn [mbind result_bind]. rewrite <- E, Hc. cbn [mbind result_bind]. by rewrite Hrs.
Qed.

(** ** An account in use

    Credits at scale 2: a plan's allowance of 5, a purchase of 10, then a goodwill grant of
    20.  A reservation of 18 holds 3 of the grant, a debit takes 4 of it back and the
    revocation the rest that is free; releasing the reservation frees the 3 to nobody. *)

Definition creditsFeature : FeatureRow :=
  {| f_id := 1; f_key := "credits"; f_unit := "credit"; credit_scale := 2; f_kind := fk_metered;
     f_meter_kind := Some mk_consumable; f_filter_dimensions := [] |}.
Definition creditsAlloc (id quantity : Z) (kind : string) (expires : option Z) : Alloc :=
  {| al_id := id; al_units := {| u_quantity := quantity; u_reversed := 0; u_consumed := 0; u_held := 0 |}; al_operator := false;
     al_operator_grant_id := None; al_reversed_at := None; al_expires_at := expires; al_created_at := 0; al_entity := None;
     al_source_kind := kind; al_source_key := "k" |}.
Definition creditsAccount : Account :=
  {| ac_billingAccountId := js "acct_1"; ac_entities := []; ac_purchases := [(1, 77)];
     ac_wallets := [ {| w_feature := creditsFeature; w_active := true;
       w_store := {| s_allocs := [creditsAlloc 1 1000 "purchase" None; creditsAlloc 2 500 "subscription" (Some 1000)];
                     s_reservations := []; s_holds := []; s_grants := [] |} |} ];
     ac_grants := []; ac_debits := []; ac_lines := [] |}.
Definition creditsCatalog : Catalog :=
  {| ct_rate_card_entries := [ {| rce_catalog_revision_id := 1; rce_meter_feature_id := 2; rce_wallet_feature_id := 1 |} ];
     ct_plan_items := []; ct_published_catalog_revision_id := Some 1 |}.

Definition goodwill : OperatorGrantInput :=
  {| gi_featureKey := js " credits "; gi_quantity := js "20.00"; gi_entityId := None; gi_expiresAt := None;
     gi_reason := js "Outage"; gi_actor := js "support"; gi_idempotencyKey := js "grant-1" |}.
Definition clawback : AdministrativeDebitInput :=
  {| di_allocations := [ {| li_allocationId := js "3"; li_quantity := js "4.0" |} ];
     di_reason := js "Abuse"; di_actor := js "support"; di_idempotencyKey := js "debit-1" |}.
Definition withdrawal : OperatorGrantRevokeInput :=
  {| ri_grantId := js "100"; ri_reason := js "Mistake"; ri_actor := js "support"; ri_idempotencyKey := js "revoke-1" |}.

(** Hashing keeps the text, and uuids are numbers. *)
Definition plainHash (t : text) : text := t.
Definition numericUuid (t : text) : option Z := Some (parseDigits t).
Abbreviation exampleAdjusts := (adjusts caselessCompare plainHash creditsCatalog numericUuid).

(** Fallbacks never used: the results below are [Ok]. *)
Definition accountOf {X} (r : result (Account * X)) : Account := match r with Ok (a, _) => a | Err _ => creditsAccount end.
Definition creditsWallet (a : Account) : FeatureWallet :=
  match ac_wallets a with w :: _ => w | [] => {| w_feature := creditsFeature; w_active := true; w_store := exampleStore |} end.

Definition grantedAccount : Account := accountOf (grantOperatorBalance caselessCompare plainHash creditsCatalog goodwill 100 3 5 creditsAccount).
Definition reservedStore : Store :=
  storeOf (reserveWallet creditsFeature (directRate creditsFeature) 7 None (js "18") (js "18") false 50 6 (w_store (creditsWallet grantedAccount))).
Definition reservedAccount : Account := useWallet grantedAccount (creditsWallet grantedAccount) reservedStore.
Definition clawedAccount : Account := accountOf (debitAllocations caselessCompare plainHash clawback 200 7 (Some reservedAccount)).
Definition withdrawnAccount : Account := accountOf (revokeOperatorGrant caselessCompare plainHash numericUuid withdrawal 8 (Some clawedAccount)).
Definition releasedStore : Store := storeOf (releaseWallet creditsFeature 7 9 (w_store (creditsWallet withdrawnAccount))).
Definition releasedAccount : Account := useWallet withdrawnAccount (creditsWallet withdrawnAccount) releasedStore.

Lemma accountOf_ok {X} (r : result (Account * X)) : is_ok r = true -> exists out, r = Ok (accountOf r, out).
Proof. destruct r as [ [a out]|e]; [by exists out|done]. Qed.
Lemma storeOf_ok r : is_ok r = true -> exists out, r = Ok (storeOf r, out).
Proof. destruct r as [ [s out]|e]; [by exists out|done]. Qed.

Lemma creditsAccount_unadjusted : unadjusted creditsAccount.
Proof.
  constructor.
  - apply (bool_decide_unpack _). vm_compute. exact I.
  - apply (bool_decide_unpack _). vm_compute. exact I.
  - intros w ->%list_elem_of_singleton. split; [cbn; lia|]. split; [|split; [done|] ].
    + split; [done|]. split; [done|]. split; [apply (bool_decide_unpack _); vm_compute; exact I|]. repeat constructor; cbn; lia.
    + intros al [->|[->|[]%elem_of_nil]%elem_of_cons]%elem_of_cons; done.
  - done.
Qed.

Lemma granted_step : exampleAdjusts creditsAccount grantedAccount.
Proof.
  destruct (accountOf_ok (grantOperatorBalance caselessCompare plainHash creditsCatalog goodwill 100 3 5 creditsAccount)) as [out E]; [vm_compute; reflexivity|].
  apply (adj_grant _ _ _ _ _ goodwill 100 3 5 _ out); [apply not_elem_of_nil| |exact E].
  apply (bool_decide_unpack _). vm_compute. exact I.
Qed.

Lemma reserved_step : exampleAdjusts grantedAccount reservedAccount.
Proof.
  destruct (storeOf_ok (reserveWallet creditsFeature (directRate creditsFeature) 7 None (js "18") (js "18") false 50 6 (w_store (creditsWallet grantedAccount))))
    as [out E]; [vm_compute; reflexivity|].
  apply (adj_use _ _ _ _ grantedAccount (creditsWallet grantedAccount) (directRate creditsFeature) reservedStore).
  - apply list_elem_of_In. vm_compute. left. reflexivity.
  - apply (step_reserve _ _ 7 None (js "18") (js "18") false 50 6 _ _ out); [|exact E]. apply (bool_decide_unpack _). vm_compute. exact I.
Qed.

Lemma clawed_step : exampleAdjusts reservedAccount clawedAccount.
Proof.
  destruct (accountOf_ok (debitAllocations caselessCompare plainHash clawback 200 7 (Some reservedAccount))) as [out E]; [vm_compute; reflexivity|].
  apply (adj_debit _ _ _ _ _ clawback 200 7 _ out); [apply (bool_decide_unpack _); vm_compute; exact I|exact E].
Qed.

Lemma withdrawn_step : exampleAdjusts clawedAccount withdrawnAccount.
Proof.
  destruct (accountOf_ok (revokeOperatorGrant caselessCompare plainHash numericUuid withdrawal 8 (Some clawedAccount))) as [out E]; [vm_compute; reflexivity|].
  exact (adj_revoke _ _ _ _ _ withdrawal 8 _ out E).
Qed.

Lemma released_step : exampleAdjusts withdrawnAccount releasedAccount.
Proof.
  destruct (storeOf_ok (releaseWallet creditsFeature 7 9 (w_store (creditsWallet withdrawnAccount)))) as [out E]; [vm_compute; reflexivity|].
  apply (adj_use _ _ _ _ withdrawnAccount (creditsWallet withdrawnAccount) (directRate creditsFeature) releasedStore).
  - apply list_elem_of_In. vm_compute. left. reflexivity.
  - exact (step_release _ _ 7 9 _ _ out E).
Qed.

Lemma clawed_reachable : rtc exampleAdjusts creditsAccount clawedAccount.
Proof. eapply rtc_l; [exact granted_step|]. eapply rtc_l; [exact reserved_step|]. apply rtc_once. exact clawed_step. Qed.
Lemma released_reachable : rtc exampleAdjusts creditsAccount releasedAccount.
Proof. transitivity clawedAccount; [exact clawed_reachable|]. eapply rtc_l; [exact withdrawn_step|]. apply rtc_once. exact released_step. Qed.

Definition exampleRow : GrantRow :=
  match ac_grants releasedAccount with row :: _ => row | [] => grantRow goodwill [] 0 0 end.

Lemma operator_grant_adds_up_witness : exists w al g, let u := al_units al in
  w ∈ ac_wallets releasedAccount /\ al_operator_grant_id al = Some 100 /\ og_id g = 100 /\
  u_reversed u = debited (walletScale w) (ac_lines releasedAccount) (al_id al) + og_revoked_quantity g.
Proof.
  assert (Hrow : exampleRow ∈ ac_grants releasedAccount) by (apply list_elem_of_In; vm_compute; left; reflexivity).
  destruct (operator_grant_adds_up caselessCompare plainHash creditsCatalog numericUuid creditsAccount releasedAccount 10 exampleRow
    creditsAccount_unadjusted released_reachable Hrow) as (w & al & g & Hw & _ & _ & Hgid & Hid & _ & Hled & _).
  exists w, al, g. split; [exact Hw|]. split; [exact Hgid|]. split; [exact Hid|exact Hled].
Defined.

(** The numbers of the story: 4 debited, 13 revoked and 3 freed to nobody. *)
Lemma exampleRow_record :
  (r ← requireOperatorGrant 10 100 releasedAccount; Ok (rec_status r, rec_reversedQuantity r, rec_availableQuantity r, rr_revokedQuantity <$> rec_revocation r))
  = Ok (grant_revoked, js "20", js "0", Some (js "16")).
Proof. vm_compute. reflexivity. Qed.

Definition noRecord : OperatorGrantRecord :=
  {| rec_id := 0; rec_billingAccountId := []; rec_featureKey := ""; rec_entityId := None; rec_allocationId := 0; rec_quantity := [];
     rec_expiresAt := None; rec_status := grant_active; rec_consumedQuantity := []; rec_heldQuantity := []; rec_reversedQuantity := [];
     rec_availableQuantity := []; rec_actor := []; rec_reason := []; rec_createdAt := 0; rec_revocation := None |}.
Definition withdrawalRecord : OperatorGrantRecord :=
  match revokeOperatorGrant caselessCompare plainHash numericUuid withdrawal 8 (Some clawedAccount) with
  | Ok (_, (_, r)) => r | Err _ => noRecord end.

Lemma revoked_grant_stays_closed_witness : exists gid r3, numericUuid (ri_grantId withdrawal) = Some gid /\
  requireOperatorGrant 60 gid releasedAccount = Ok r3 /\ rec_status r3 = grant_revoked /\ rec_availableQuantity r3 = js "0".
Proof.
  assert (E : revokeOperatorGrant caselessCompare plainHash numericUuid withdrawal 8 (Some clawedAccount)
    = Ok (withdrawnAccount, (false, withdrawalRecord))) by (vm_compute; reflexivity).
  destruct (revoked_grant_stays_closed caselessCompare plainHash creditsCatalog numericUuid creditsAccount clawedAccount withdrawnAccount
    releasedAccount withdrawal 8 withdrawalRecord 60 creditsAccount_unadjusted clawed_reachable E (rtc_once _ _ released_step))
    as (gid & r1 & r3 & rv & al1 & g1 & al3 & g3 & Hu & _ & Hr3 & _ & _ & _ & _ & _ & Hst & Hav & _).
  exists gid, r3. split; [exact Hu|]. split; [exact Hr3|]. split; [exact Hst|exact Hav].
Defined.

Definition exampleDebit : AdministrativeDebitInput :=
  match normalizeAdministrativeDebitInput clawback with Ok input => input | Err _ => clawback end.

Lemma reserved_reachable : rtc exampleAdjusts creditsAccount reservedAccount.
Proof. eapply rtc_l; [exact granted_step|]. apply rtc_once. exact reserved_step. Qed.

Lemma debit_all_or_none_witness : is_ok (debitAllocations caselessCompare plainHash clawback 200 7 (Some reservedAccount)) = true /\
  exists amounts, Forall2 (takesFrom reservedAccount 7) (di_allocations exampleDebit) amounts /\ NoDup (map fst amounts).
Proof.
  assert (E : normalizeAdministrativeDebitInput clawback = Ok exampleDebit) by (vm_compute; reflexivity).
  assert (Eok : is_ok (debitAllocations caselessCompare plainHash clawback 200 7 (Some reservedAccount)) = true) by (vm_compute; reflexivity).
  assert (Ek : ac_debits reservedAccount = []) by (vm_compute; reflexivity).
  split; [exact Eok|].
  destruct (debit_all_or_none caselessCompare plainHash creditsCatalog numericUuid creditsAccount reservedAccount clawback exampleDebit 200 7
    creditsAccount_unadjusted reserved_reachable E) as [(amounts & a' & r & Ht & Hnd & _)|(e & Ee & _)].
  - rewrite Ek. exact (not_elem_of_nil _).
  - rewrite Ek. exact (not_elem_of_nil _).
  - exists amounts. split; [exact Ht|exact Hnd].
  - rewrite Ee in Eok. discriminate Eok.
Defined.
