(* ===== verification/AdjustmentReplay.v ===== *)
(** * Replayed adjustments and the lists ([src/db/repository/balance-adjustments.ts])

    What a key answers when a grant, a revocation or a debit is sent again after any
    history, and that following the cursors of the two lists shows every row once, newest
    first. *)
From S2P Require Import Prelude Text Decimal Pricing JsDate Balances Wallet WalletStore Json Adjustments AdjustmentLedger.

#[local] Arguments js _ : simpl never.
#[local] Arguments decimalToUnits : simpl never.
#[local] Arguments unitsToDecimal : simpl never.

(** ** Sending a mutation again *)

(** The answer to a bound key: the current record of the first request for the same terms,
    and a conflict for others. *)
Definition keyAnswer {R} (first again : text) (operation : string) (a : Account) (r : R) : result (Account * (bool * R)) :=
  if bool_decide (first = again) then Ok (a, (true, r)) else Err (idempotencyConflict operation).

Section Replay.
Context (localeCompare : text -> text -> comparison) (sha256Hex : text -> text) (catalog : Catalog) (uuidOf : text -> option Z).
Abbreviation grantBalance := (grantOperatorBalance localeCompare sha256Hex catalog).
Abbreviation revoke := (revokeOperatorGrant localeCompare sha256Hex uuidOf).
Abbreviation debit := (debitAllocations localeCompare sha256Hex).
Abbreviation adjusts := (adjusts localeCompare sha256Hex catalog uuidOf).
Abbreviation grantHash := (operatorGrantRequestHash localeCompare sha256Hex).
Abbreviation revokeHash := (operatorGrantRevokeRequestHash localeCompare sha256Hex).
Abbreviation debitHash := (administrativeDebitRequestHash localeCompare sha256Hex).

(** A row with the key answers a grant, whatever else the request says. *)
Lemma grant_answered a row raw input requestHash gid aid now : account_ok a -> row ∈ ac_grants a ->
  normalizeOperatorGrantInput raw = Ok input -> grantHash input = Ok requestHash -> gr_idempotency_key row = gi_idempotencyKey input ->
  exists r, requireOperatorGrant now (gr_id row) a = Ok r /\ rec_id r = gr_id row /\ rec_actor r = gr_actor row /\
    grantBalance raw gid aid now a
    = if bool_decide (gr_request_hash row = requestHash) then Ok (a, (true, r)) else Err (idempotencyConflict "operator grant").
Proof.
  intros Hok Hrow Hin Hh Hkey. destruct (row_grant a Hok row Hrow) as (w & al & g & Hw & Hl & Hid).
  destruct (row_record a Hok now row w al g Hrow Hw Hl Hid) as (gr & Egr & Ehash & Erec).
  exists (recordOf a now row w al g). split.
  { unfold requireOperatorGrant. rewrite readGrant_find by done. by rewrite (find_by_id gr_id (ac_grants a) row (ao_rowIds _ Hok) Hrow), Egr. }
  do 2 (split; [done|]). unfold grantOperatorBalance. rewrite Hin. cbn [mbind result_bind]. rewrite Hh. cbn [mbind result_bind].
  rewrite readGrant_find by done. rewrite (find_the _ (ac_grants a) row Hrow), Egr, Ehash.
  - case_bool_decide; cbn [negb throwWhen mbind result_bind]; [by rewrite Erec|done].
  - by apply bool_decide_eq_true.
  - intros y Hy Ey%bool_decide_eq_true. eapply NoDup_key_inj; [apply (ao_keys _ Hok)|done|done|congruence].
Qed.

(** What an answered grant leaves is a row under its key and hash. *)
Lemma grant_leaves a1 a2 raw input requestHash gid aid now dup r : account_ok a1 -> gid ∉ map gr_id (ac_grants a1) -> aid ∉ allocIds a1 ->
  grantBalance raw gid aid now a1 = Ok (a2, (dup, r)) -> normalizeOperatorGrantInput raw = Ok input -> grantHash input = Ok requestHash ->
  account_ok a2 /\ exists row, row ∈ ac_grants a2 /\ gr_id row = rec_id r /\ gr_actor row = rec_actor r /\
    gr_idempotency_key row = gi_idempotencyKey input /\ gr_request_hash row = requestHash.
Proof.
  intros Hok Hgid Haid H Hin Hh. assert (Hok2 : account_ok a2) by (by eapply grant_ok). split; [done|].
  assert (Hrec : forall row, row ∈ ac_grants a2 -> requireOperatorGrant now (gr_id row) a2 = Ok r -> gr_id row = rec_id r /\ gr_actor row = rec_actor r).
  { intros row Hrow Hr. destruct (require_record a2 now row Hok2 Hrow) as (w & al & g & _ & _ & _ & E). rewrite Hr in E. injection E as ->. done. }
  destruct (grant_spec _ _ _ a1 raw gid aid now a2 dup r Hok H) as
    (i & h & Hi & Hh' & [ (_ & -> & row & Hrow & Hk & Hhash & Hr)|(_ & _ & w & n & en & ex & _ & _ & _ & _ & _ & _ & _ & _ & Ea2 & Hr)]);
    rewrite Hin in Hi; injection Hi as <-; rewrite Hh in Hh'; injection Hh' as <-.
  - exists row. destruct (Hrec row Hrow Hr). done.
  - exists (grantRow input requestHash gid now). assert (Hrow : grantRow input requestHash gid now ∈ ac_grants a2).
    { rewrite Ea2. cbn. apply elem_of_app. right. constructor. }
    destruct (Hrec _ Hrow Hr). done.
Qed.

(** The same for a revocation under the key that revoked the grant. *)
Lemma revoke_answered a row rv raw input now : account_ok a -> row ∈ ac_grants a -> gr_revocation row = Some rv ->
  normalizeOperatorGrantRevokeInput raw = Ok input -> uuidOf (ri_grantId input) = Some (gr_id row) -> rv_idempotency_key rv = ri_idempotencyKey input ->
  exists r, requireOperatorGrant now (gr_id row) a = Ok r /\ rec_id r = gr_id row /\
    revoke raw now (Some a) = if bool_decide (rv_request_hash rv = revokeHash input) then Ok (a, (true, r)) else Err (idempotencyConflict "revocation").
Proof.
  intros Hok Hrow Hrv Hin Hu Hkey. destruct (require_record a now row Hok Hrow) as (w & al & g & Hw & Hl & Hid & Hr).
  exists (recordOf a now row w al g). do 2 (split; [done|]). unfold revokeOperatorGrant. rewrite Hin. cbn [mbind result_bind]. rewrite Hu.
  rewrite (find_by_id gr_id (ac_grants a) row (ao_rowIds _ Hok) Hrow). cbv zeta.
  destruct (List.find _ (ac_grants a)) as [y|] eqn:Ef.
  { apply find_some_in in Ef as [Hy [Hk%bool_decide_eq_true Hne%negb_true_iff%Z.eqb_neq]%andb_prop]. exfalso. apply Hne.
    apply (ao_revocationKeys _ Hok y row (ri_idempotencyKey input) Hy Hrow Hk). rewrite Hrv. cbn. by rewrite Hkey. }
  destruct (findStored_grant a Hok w al g Hw Hl) as [Est _]. unfold revokedColumns. rewrite <- Hid, Est. cbn [mbind option_bind].
  destruct (proj1 (ao_revoked _ Hok row w g Hrow Hw (proj1 (proj2 Hl)) Hid) ltac:(eauto)) as [t Et]. rewrite Et, Hrv. cbn [throwWhen mbind result_bind option_bind fmap option_fmap option_map].
  rewrite Hkey, (bool_decide_eq_true_2 (Some (ri_idempotencyKey input) = Some (ri_idempotencyKey input))) by done. cbn [negb throwWhen mbind result_bind].
  rewrite (bool_decide_ext (Some (rv_request_hash rv) = Some (revokeHash input)) (rv_request_hash rv = revokeHash input)) by (split; congruence).
  rewrite Hid, Hr. by case_bool_decide.
Qed.

Lemma revoke_leaves a1 a2 raw input now dup r : account_ok a1 -> revoke raw now (Some a1) = Ok (a2, (dup, r)) ->
  normalizeOperatorGrantRevokeInput raw = Ok input ->
  account_ok a2 /\ exists row rv, row ∈ ac_grants a2 /\ gr_id row = rec_id r /\ gr_revocation row = Some rv /\
    uuidOf (ri_grantId input) = Some (gr_id row) /\ rv_idempotency_key rv = ri_idempotencyKey input /\ rv_request_hash rv = revokeHash input.
Proof.
  intros Hok H Hin. assert (Hok2 : account_ok a2) by (by eapply revoke_ok). split; [done|].
  assert (Hrec : forall row, row ∈ ac_grants a2 -> requireOperatorGrant now (gr_id row) a2 = Ok r -> gr_id row = rec_id r).
  { intros row Hrow Hr. destruct (require_record a2 now row Hok2 Hrow) as (w & al & g & _ & _ & _ & E). rewrite Hr in E. by injection E as ->. }
  destruct (revoke_spec _ _ _ a1 raw now a2 dup r Hok H) as
    (i & row & Hi & Hu & Hrow & _ & [ (_ & -> & Hk & Hh & Hr)|(_ & w & al & g & _ & _ & _ & _ & Ea2 & Hr)]); rewrite Hin in Hi; injection Hi as <-.
  - destruct (gr_revocation row) as [rv|] eqn:Erv; [|done]. exists row, rv. cbn in Hk, Hh. injection Hk as Hk. injection Hh as Hh. auto 7.
  - set (row' := revokeRow input (revokeHash input) row).
    assert (Hrow' : row' ∈ ac_grants a2).
    { rewrite Ea2. cbn. apply list_elem_of_fmap. exists row. split; [|done]. by rewrite Z.eqb_refl. }
    exists row', {| rv_actor := ri_actor input; rv_reason := ri_reason input; rv_idempotency_key := ri_idempotencyKey input; rv_request_hash := revokeHash input |}.
    split; [done|]. split; [by apply Hrec|done].
Qed.

(** And for a debit. *)
Lemma debit_answered a row raw input did now : account_ok a -> row ∈ ac_debits a -> normalizeAdministrativeDebitInput raw = Ok input ->
  db_idempotency_key row = di_idempotencyKey input ->
  exists r, requireDebit (db_id row) a = Ok r /\ adr_id r = db_id row /\
    debit raw did now (Some a) = if bool_decide (db_request_hash row = debitHash input) then Ok (a, (true, r)) else Err (idempotencyConflict "debit").
Proof.
  intros Hok Hrow Hin Hkey. destruct (debit_record a row Hok Hrow) as (r & Hr & Hid & _). exists r. do 2 (split; [done|]).
  unfold debitAllocations. rewrite Hin. cbn [mbind result_bind]. cbv zeta. rewrite (find_the _ (ac_debits a) row Hrow).
  - case_bool_decide; cbn [negb throwWhen mbind result_bind]; [by rewrite Hr|done].
  - by apply bool_decide_eq_true.
  - intros y Hy Ey%bool_decide_eq_true. eapply NoDup_key_inj; [apply (ao_debitKeys _ Hok)|done|done|congruence].
Qed.

Lemma debit_leaves a1 a2 raw input did now dup r : account_ok a1 -> did ∉ map db_id (ac_debits a1) ->
  debit raw did now (Some a1) = Ok (a2, (dup, r)) -> normalizeAdministrativeDebitInput raw = Ok input ->
  account_ok a2 /\ exists row, row ∈ ac_debits a2 /\ db_id row = adr_id r /\ db_idempotency_key row = di_idempotencyKey input /\
    db_request_hash row = debitHash input.
Proof.
  intros Hok Hdid H Hin. destruct (debit_spec _ _ a1 raw did now a2 dup r Hok Hdid H) as
    (i & Hi & [ (_ & -> & row & Hrow & Hk & Hh & Hr)|(_ & _ & Hok2 & Hr & amounts & Ht & Ea2)]); rewrite Hin in Hi; injection Hi as <-.
  - split; [done|]. exists row. destruct (debit_record a1 row Hok Hrow) as (r' & Hr' & Hid & _). rewrite Hr in Hr'. injection Hr' as <-. auto.
  - split; [done|]. set (row := debitRow input (debitHash input) did now) in *.
    assert (Hrow : row ∈ ac_debits a2) by (rewrite Ea2; cbn; apply elem_of_app; right; constructor).
    exists row. destruct (debit_record a2 row Hok2 Hrow) as (r' & Hr' & Hid & _). change (db_id row) with did in Hr'. rewrite Hr in Hr'. injection Hr' as <-. auto.
Qed.
End Replay.

(** C25: a key is bound to its first request.  Once a grant, a revocation or a debit was
    answered, and after any further history, sending the key again changes nothing: with
    the same terms it answers the same grant or debit as a duplicate, as its rows are now,
    whatever actor sends it, and with terms of another hash it is refused as a conflict. *)
Theorem adjustment_keys_replay localeCompare sha256Hex catalog uuidOf a0 a1 a2 a3 :
  unadjusted a0 -> rtc (adjusts localeCompare sha256Hex catalog uuidOf) a0 a1 ->
  rtc (adjusts localeCompare sha256Hex catalog uuidOf) a2 a3 ->
  (forall raw input h gid aid now dup r raw2 input2 h2 gid2 aid2 now2,
     gid ∉ map gr_id (ac_grants a1) -> aid ∉ allocIds a1 ->
     grantOperatorBalance localeCompare sha256Hex catalog raw gid aid now a1 = Ok (a2, (dup, r)) ->
     normalizeOperatorGrantInput raw = Ok input -> operatorGrantRequestHash localeCompare sha256Hex input = Ok h ->
     normalizeOperatorGrantInput raw2 = Ok input2 -> operatorGrantRequestHash localeCompare sha256Hex input2 = Ok h2 ->
     gi_idempotencyKey input2 = gi_idempotencyKey input ->
     exists r2, requireOperatorGrant now2 (rec_id r) a3 = Ok r2 /\ rec_id r2 = rec_id r /\ rec_actor r2 = rec_actor r /\
       grantOperatorBalance localeCompare sha256Hex catalog raw2 gid2 aid2 now2 a3
       = keyAnswer h h2 "operator grant" a3 r2) /\
  (forall raw input now dup r raw2 input2 now2,
     revokeOperatorGrant localeCompare sha256Hex uuidOf raw now (Some a1) = Ok (a2, (dup, r)) ->
     normalizeOperatorGrantRevokeInput raw = Ok input -> normalizeOperatorGrantRevokeInput raw2 = Ok input2 ->
     uuidOf (ri_grantId input2) = uuidOf (ri_grantId input) -> ri_idempotencyKey input2 = ri_idempotencyKey input ->
     exists r2, requireOperatorGrant now2 (rec_id r) a3 = Ok r2 /\ rec_id r2 = rec_id r /\
       revokeOperatorGrant localeCompare sha256Hex uuidOf raw2 now2 (Some a3)
       = keyAnswer (operatorGrantRevokeRequestHash localeCompare sha256Hex input) (operatorGrantRevokeRequestHash localeCompare sha256Hex input2) "revocation" a3 r2) /\
  (forall raw input did now dup r raw2 input2 did2 now2,
     did ∉ map db_id (ac_debits a1) -> debitAllocations localeCompare sha256Hex raw did now (Some a1) = Ok (a2, (dup, r)) ->
     normalizeAdministrativeDebitInput raw = Ok input -> normalizeAdministrativeDebitInput raw2 = Ok input2 ->
     di_idempotencyKey input2 = di_idempotencyKey input ->
     exists r2, requireDebit (adr_id r) a3 = Ok r2 /\ adr_id r2 = adr_id r /\
       debitAllocations localeCompare sha256Hex raw2 did2 now2 (Some a3)
       = keyAnswer (administrativeDebitRequestHash localeCompare sha256Hex input) (administrativeDebitRequestHash localeCompare sha256Hex input2) "debit" a3 r2).
Proof.
  intros Hun H01 H23. pose proof (adjusted_ok _ _ _ _ a0 a1 (unadjusted_ok a0 Hun) H01) as Hok1. split; [|split].
  - intros raw input h gid aid now dup r raw2 input2 h2 gid2 aid2 now2 Hgid Haid H Hin Hh Hin2 Hh2 Hkey.
    destruct (grant_leaves localeCompare sha256Hex catalog a1 a2 raw input h gid aid now dup r Hok1 Hgid Haid H Hin Hh) as (Hok2 & row & Hrow & Hid & Hact & Hk & Hhash).
    destruct (proj1 (history_rows _ _ _ _ a2 a3 Hok2 H23) row Hrow) as (row3 & Hrow3 & E1 & E2 & E3 & E4 & _).
    destruct (grant_answered localeCompare sha256Hex catalog a3 row3 raw2 input2 h2 gid2 aid2 now2 (adjusted_ok _ _ _ _ a2 a3 Hok2 H23) Hrow3 Hin2 Hh2 ltac:(congruence))
      as (r2 & Hr2 & Hid2 & Hact2 & E). exists r2. rewrite E1, Hid in Hr2. split; [done|]. split; [congruence|]. split; [congruence|]. unfold keyAnswer. by rewrite E, E3, Hhash.
  - intros raw input now dup r raw2 input2 now2 H Hin Hin2 Hu Hkey.
    destruct (revoke_leaves localeCompare sha256Hex uuidOf a1 a2 raw input now dup r Hok1 H Hin) as (Hok2 & row & rv & Hrow & Hid & Hrv & Huid & Hk & Hhash).
    destruct (proj1 (history_rows _ _ _ _ a2 a3 Hok2 H23) row Hrow) as (row3 & Hrow3 & E1 & _ & _ & _ & _ & _ & E6).
    destruct (revoke_answered localeCompare sha256Hex uuidOf a3 row3 rv raw2 input2 now2 (adjusted_ok _ _ _ _ a2 a3 Hok2 H23) Hrow3 (E6 rv Hrv) Hin2 ltac:(congruence) ltac:(congruence))
      as (r2 & Hr2 & Hid2 & E). exists r2. rewrite E1, Hid in Hr2. split; [done|]. split; [congruence|]. unfold keyAnswer. by rewrite E, Hhash.
  - intros raw input did now dup r raw2 input2 did2 now2 Hdid H Hin Hin2 Hkey.
    destruct (debit_leaves localeCompare sha256Hex a1 a2 raw input did now dup r Hok1 Hdid H Hin) as (Hok2 & row & Hrow & Hid & Hk & Hhash).
    pose proof (proj2 (history_rows _ _ _ _ a2 a3 Hok2 H23) row Hrow) as Hrow3.
    destruct (debit_answered localeCompare sha256Hex a3 row raw2 input2 did2 now2 (adjusted_ok _ _ _ _ a2 a3 Hok2 H23) Hrow3 Hin2 ltac:(congruence))
      as (r2 & Hr2 & Hid2 & E). exists r2. rewrite Hid in Hr2. split; [done|]. split; [congruence|]. unfold keyAnswer. by rewrite E, Hhash.
Qed.

(** ** Following the cursors of a list *)

(** Pages read one after the other, each from where the page before ended, while the state
    may move on between two pages. *)
Section Reads.
Context {State Item : Type} (listAt : Z -> State -> option (Z * Z) -> result (list Item * option (Z * Z))) (later : State -> State -> Prop).

Inductive reads : option (Z * Z) -> State -> list Item -> State -> Prop :=
  | reads_last cursor now s items : listAt now s cursor = Ok (items, None) -> reads cursor s items s
  | reads_more cursor now s items next s' rest s'' : listAt now s cursor = Ok (items, Some next) -> later s s' ->
      reads (Some next) s' rest s'' -> reads cursor s (items ++ rest) s''.
End Reads.

(** A reader that follows the cursors of a list that stands still, [fuel] pages at most. *)
Fixpoint readAll {Item} (listAt : option (Z * Z) -> result (list Item * option (Z * Z))) (fuel : nat) (cursor : option (Z * Z)) : result (list Item) :=
  match fuel with
  | O => Err (InternalError "out of fuel")
  | S fuel =>
      '(items, next) ← listAt cursor;
      match next with
      | None => Ok items
      | Some c => rest ← readAll listAt fuel (Some c); Ok (items ++ rest)
      end
  end.

Definition newer (p q : Z * Z) : Prop := positionBefore q p = true.
Definition below (cursor : option (Z * Z)) (p : Z * Z) : Prop := match cursor with Some c => newer c p | None => True end.

Lemma newer_spec p q : newer p q <-> fst q < fst p \/ (fst q = fst p /\ snd q < snd p).
Proof. unfold newer, positionBefore. rewrite orb_true_iff, andb_true_iff, !Z.ltb_lt, Z.eqb_eq. done. Qed.
Lemma newer_trans p q r : newer p q -> newer q r -> newer p r.
Proof. rewrite !newer_spec. lia. Qed.
Lemma newer_irrefl p : ~ newer p p.
Proof. rewrite newer_spec. lia. Qed.
Lemma newer_total p q : ~ newer p q -> p <> q -> newer q p.
Proof. rewrite !newer_spec. destruct p as [a b], q as [c d]. cbn. intros H Hne. destruct (decide (a = c)); [|lia]. assert (b <> d) by congruence. lia. Qed.

(** One page of rows with distinct positions. *)
Section Page.
Context {Row Item : Type} (position : Row -> Z * Z) (toItem : Row -> result Item) (itemAt : Item -> Z * Z).
Context (rows : list Row) (Hnd : NoDup (map position rows)).
Context (Hitems : forall r, r ∈ rows -> exists i, toItem r = Ok i /\ itemAt i = position r).

Definition newest (cursor : option (Z * Z)) : list (Z * Z) := map position (rowsAfter position cursor rows).

Lemma newest_in cursor p : p ∈ newest cursor <-> p ∈ map position rows /\ below cursor p.
Proof using.
  unfold newest, rowsAfter. rewrite !list_elem_of_fmap. setoid_rewrite sortBy_perm. setoid_rewrite list_elem_of_In. setoid_rewrite filter_In.
  unfold below, newer. split.
  - intros (r & -> & Hr & Hc). split; [eauto|]. by destruct cursor.
  - intros [(r & -> & Hr) Hc]. exists r. split; [done|]. split; [done|]. by destruct cursor.
Qed.

Lemma newest_sorted cursor : StronglySorted newer (newest cursor).
Proof using Hnd.
  assert (Hnd' : NoDup (newest cursor)).
  { unfold newest, rowsAfter. rewrite sortBy_perm. apply NoDup_ListNoDup. apply NoDup_ListNoDup in Hnd. clear - Hnd. induction rows as [|r l IH]; cbn; [constructor|].
    apply NoDup_cons_iff in Hnd as [Hin Hnd]. destruct (match cursor with Some c => _ | None => _ end); [|auto]. cbn. constructor; [|auto].
    intros (x & Hx & [Hxl _]%filter_In)%in_map_iff. apply Hin. rewrite <- Hx. by apply in_map. }
  assert (Hs : StronglySorted (inOrder (fun r s => positionBefore (position s) (position r))) (rowsAfter position cursor rows)).
  { apply sortBy_sorted; unfold inOrder.
    - intros x y H. apply not_true_iff_false. intros H'. apply (newer_irrefl (position x)). eapply newer_trans; [exact H|exact H'].
    - intros x y z Hxy Hyz. apply not_true_iff_false. intros H. apply not_true_iff_false in Hxy, Hyz. fold (newer (position z) (position x)) in H.
      change (~ newer (position y) (position x)) in Hxy. change (~ newer (position z) (position y)) in Hyz. rewrite newer_spec in *. lia. }
  unfold newest in *. revert Hnd'. induction Hs as [|x l Hl IH Hx]; intros Hn; cbn; constructor; apply NoDup_cons in Hn as [Hn1 Hn2]; [by apply IH|].
  apply Forall_forall. intros p Hp. apply newer_total.
  - apply list_elem_of_fmap in Hp as (y & -> & Hy). rewrite Forall_forall in Hx. specialize (Hx y Hy). unfold inOrder in Hx. unfold newer. congruence.
  - intros ->. done.
Qed.

(** What [listRows] answers: the newest rows below the cursor, and where they end. *)
Lemma list_page requested cursor : 0 < requested -> let limit := Z.to_nat (Z.min requested 100) in
  exists items next, listRows position toItem rows requested cursor = Ok (items, next) /\
    map itemAt items = take limit (newest cursor) /\
    match next with
    | None => take limit (newest cursor) = newest cursor
    | Some c => newest cursor !! (limit - 1)%nat = Some c
    end.
Proof.
  intros Hq limit. assert (Hlim : (0 < limit)%nat) by (unfold limit; lia).
  unfold listRows, requirePositiveLimit. rewrite (proj2 (Z.leb_gt requested 0)) by lia. cbn [throwWhen mbind result_bind]. fold limit.
  unfold page. rewrite take_take. replace (limit `min` (limit + 1))%nat with limit by lia. set (sorted := rowsAfter position cursor rows).
  assert (Hin : forall r, r ∈ take limit sorted -> r ∈ rows).
  { intros r Hr. apply elem_of_take in Hr as (i & Hi & _). apply list_elem_of_lookup_2 in Hi. unfold sorted, rowsAfter in Hi.
    rewrite sortBy_perm in Hi. by apply list_elem_of_In, filter_In in Hi as [Hi%list_elem_of_In _]. }
  assert (Hm : exists items, mapM toItem (take limit sorted) = Ok items /\ map itemAt items = map position (take limit sorted)).
  { clear - Hin Hitems. revert Hin. generalize (take limit sorted) as l. induction l as [|r l IH]; intros Hin; [by exists []|].
    destruct (Hitems r (Hin r (list_elem_of_here _ _))) as (i & Hi & Hp). destruct IH as (items & Hm & Hmap); [intros x Hx; apply Hin; by right|].
    exists (i :: items). cbn. rewrite Hi. cbn [mbind result_bind]. rewrite Hm. cbn. by rewrite Hp, Hmap. }
  destruct Hm as (items & -> & Hmap). cbn [mbind result_bind]. rewrite length_take, lookup_take.
  rewrite decide_True by lia. eexists items, _. split; [reflexivity|]. split; [rewrite Hmap; unfold newest; fold sorted; symmetry; apply firstn_map|].
  unfold newest. fold sorted. destruct (sorted !! (limit - 1)%nat) as [x|] eqn:E.
  - destruct (Nat.ltb_spec limit (Nat.min (limit + 1) (length sorted))).
    + change (map position sorted) with (position <$> sorted). by rewrite list_lookup_fmap, E.
    + apply take_ge. rewrite length_map. lia.
  - apply take_ge. rewrite length_map. apply lookup_ge_None in E. lia.
Qed.
End Page.

(** What a page at a cursor leaves: it is the newest of the positions below the cursor, and
    the next cursor, where there is one, is its last position. *)
Record page_of (positions : list (Z * Z)) (cursor : option (Z * Z)) (ps : list (Z * Z)) (next : option (Z * Z)) : Prop := {
  pg_sorted : StronglySorted newer ps;
  pg_in : forall p, p ∈ ps -> p ∈ positions /\ below cursor p;
  pg_rest : forall p, p ∈ positions -> below cursor p -> p ∈ ps \/ exists c, next = Some c /\ newer c p;
  pg_next : forall c, next = Some c -> c ∈ ps /\ forall p, p ∈ ps -> p = c \/ newer p c }.

Lemma sorted_app (l1 l2 : list (Z * Z)) : StronglySorted newer (l1 ++ l2) <->
  StronglySorted newer l1 /\ StronglySorted newer l2 /\ (forall p q, p ∈ l1 -> q ∈ l2 -> newer p q).
Proof.
  rewrite StronglySorted_app. split.
  - intros (H & H1 & H2). auto.
  - intros (H1 & H2 & H). auto.
Qed.

Lemma taken_page positions cursor limit sorted next : (0 < limit)%nat -> StronglySorted newer sorted ->
  (forall p, p ∈ sorted <-> p ∈ positions /\ below cursor p) ->
  match next with None => take limit sorted = sorted | Some c => sorted !! (limit - 1)%nat = Some c end ->
  page_of positions cursor (take limit sorted) next.
Proof.
  intros Hl Hs Hin Hnext. destruct next as [c|].
  - pose proof (take_drop_middle _ _ _ Hnext) as E. replace (S (limit - 1)) with limit in E by lia.
    assert (Et : take limit sorted = take (limit - 1) sorted ++ [c]).
    { replace limit with (S (limit - 1)) at 1 by lia. by apply take_S_r. }
    rewrite <- E in Hs. apply sorted_app in Hs as (H1 & H2 & H12). apply StronglySorted_inv in H2 as [_ Hc]. rewrite Forall_forall in Hc.
    constructor.
    + rewrite Et. apply sorted_app. split; [done|]. split; [repeat constructor|]. intros p q Hp ->%list_elem_of_singleton. apply H12; [done|constructor].
    + intros p Hp. apply Hin. apply elem_of_take in Hp as (i & Hi & _). by eapply list_elem_of_lookup_2.
    + intros p Hp Hb. assert (Hp' : p ∈ sorted) by (by apply Hin). rewrite <- E in Hp'. rewrite Et.
      apply elem_of_app in Hp' as [?|[->|?]%elem_of_cons]; [left; apply elem_of_app; by left|left; apply elem_of_app; right; constructor|right; eauto].
    + intros c' [= <-]. rewrite Et. split; [apply elem_of_app; right; constructor|].
      intros p [Hp| ->%list_elem_of_singleton]%elem_of_app; [right; apply H12; [done|constructor]|by left].
  - rewrite Hnext. constructor; [done|by intros p ?%Hin|intros p ? ?; left; by apply Hin|done].
Qed.

(** Reading on, page after page. *)
Section Following.
Context {State Item : Type} (listAt : Z -> State -> option (Z * Z) -> result (list Item * option (Z * Z))) (later : State -> State -> Prop).
Context (itemAt : Item -> Z * Z) (positions : State -> list (Z * Z)) (good : State -> Prop).
Context (Hpages : forall s now cursor, good s -> exists items next, listAt now s cursor = Ok (items, next) /\ page_of (positions s) cursor (map itemAt items) next).
Context (Hlater : forall s s', good s -> later s s' -> good s' /\ forall p, p ∈ positions s -> p ∈ positions s').
Context (Hrefl : forall s, later s s).

Lemma page_at now s cursor items next : good s -> listAt now s cursor = Ok (items, next) -> page_of (positions s) cursor (map itemAt items) next.
Proof using Hpages. intros Hs E. destruct (Hpages s now cursor Hs) as (i & n & E' & H). rewrite E in E'. by injection E' as -> ->. Qed.

Lemma reads_complete cursor s items s' : reads listAt later cursor s items s' -> good s ->
  StronglySorted newer (map itemAt items) /\
  (forall p, p ∈ map itemAt items -> below cursor p /\ p ∈ positions s') /\
  (forall p, p ∈ positions s -> p ∈ positions s' /\ (below cursor p -> p ∈ map itemAt items)).
Proof using Hpages Hlater.
  induction 1 as [cursor now s items E|cursor now s items next s' rest s'' E Hl _ IH]; intros Hs; pose proof (page_at _ _ _ _ _ Hs E) as [Hso Hin Hre Hne].
  - split; [done|]. split; [intros p Hp; destruct (Hin p Hp); done|]. intros p Hp. split; [done|]. intros Hb. by destruct (Hre p Hp Hb) as [|(c & [=] & _)].
  - destruct (Hlater s s' Hs Hl) as [Hs' Hmono]. destruct (IH Hs') as (I1 & I2 & I3). destruct (Hne next eq_refl) as [Hc Hge]. rewrite map_app.
    split; [|split].
    + apply sorted_app. do 2 (split; [done|]). intros p q Hp Hq. destruct (I2 q Hq) as [Hb _]. cbn in Hb.
      destruct (Hge p Hp) as [->|?]; [done|by eapply newer_trans].
    + intros p [Hp|Hp]%elem_of_app.
      * destruct (Hin p Hp) as [Hpos Hb]. split; [done|]. by apply I3, Hmono.
      * destruct (I2 p Hp) as [Hb Hpos]. split; [|done]. destruct (Hin next Hc) as [_ Hbc]. destruct cursor as [c|]; [|done]. cbn in *. by eapply newer_trans.
    + intros p Hp. split; [by apply I3, Hmono|]. intros Hb. apply elem_of_app. destruct (Hre p Hp Hb) as [|(c & [= <-] & Hn)]; [by left|right].
      by apply I3; [apply Hmono|].
Qed.

Definition belowb (cursor : option (Z * Z)) (p : Z * Z) : bool := match cursor with Some c => positionBefore p c | None => true end.
Lemma belowb_spec cursor p : belowb cursor p = true <-> below cursor p.
Proof. by destruct cursor. Qed.

(** Some of the positions a page covers are no longer below its end. *)
Lemma filter_shrinks (p q : Z * Z -> bool) l x : (forall y, q y = true -> p y = true) -> x ∈ l -> p x = true -> q x = false ->
  (length (List.filter q l) < length (List.filter p l))%nat.
Proof using.
  intros Hqp Hx Hpx Hqx. assert (Hle : forall l, (length (List.filter q l) <= length (List.filter p l))%nat).
  { induction l0 as [|y l' IH]; [done|]. cbn. destruct (q y) eqn:E; [rewrite (Hqp y E); cbn; lia|destruct (p y); cbn; lia]. }
  induction l as [|y l IH]; [by apply elem_of_nil in Hx|]. apply elem_of_cons in Hx as [<-|Hx]; cbn; [rewrite Hpx, Hqx; cbn; specialize (Hle l); lia|].
  specialize (IH Hx). destruct (q y) eqn:E; [rewrite (Hqp y E); cbn; lia|destruct (p y); cbn; lia].
Qed.

Lemma readAll_reads now s fuel cursor : good s -> (length (List.filter (belowb cursor) (positions s)) < fuel)%nat ->
  exists items, readAll (listAt now s) fuel cursor = Ok items /\ reads listAt later cursor s items s.
Proof using Hpages Hrefl.
  intros Hs. revert cursor. induction fuel as [|fuel IH]; intros cursor Hf; [lia|]. cbn.
  destruct (Hpages s now cursor Hs) as (items & next & E & [_ Hin _ Hne]). rewrite E. cbn [mbind result_bind]. destruct next as [c|].
  - destruct (Hne c eq_refl) as [Hc _]. destruct (Hin c Hc) as [Hpos Hb]. destruct (IH (Some c)) as (rest & Hr & Hreads).
    + enough (length (List.filter (belowb (Some c)) (positions s)) < length (List.filter (belowb cursor) (positions s)))%nat by lia.
      eapply filter_shrinks; [|exact Hpos|by apply belowb_spec|apply not_true_iff_false, newer_irrefl].
      intros y Hy. apply belowb_spec. destruct cursor as [c'|]; [|done]. cbn in *. eapply newer_trans; [exact Hb|exact Hy].
    + rewrite Hr. cbn. eexists. split; [done|]. by eapply reads_more.
  - eexists. split; [done|]. by eapply reads_last.
Qed.

Lemma readAll_complete now s fuel : good s -> NoDup (positions s) -> (length (positions s) < fuel)%nat ->
  exists items, readAll (listAt now s) fuel None = Ok items /\ StronglySorted newer (map itemAt items) /\ map itemAt items ≡ₚ positions s.
Proof using Hpages Hlater Hrefl.
  intros Hs Hnd Hf. destruct (readAll_reads now s fuel None Hs) as (items & E & Hr).
  { eapply Nat.le_lt_trans; [|exact Hf]. apply filter_length_le. }
  destruct (reads_complete None s items s Hr Hs) as (H1 & H2 & H3). exists items. split; [done|]. split; [done|].
  apply NoDup_Permutation; [|done|].
  - clear - H1. induction H1 as [|p l _ IH Hp]; constructor; [|done]. rewrite Forall_forall in Hp. intros Hin. by destruct (newer_irrefl p); apply Hp.
  - intros p. split; [intros Hp; by apply H2|intros Hp; by apply H3].
Qed.
End Following.

(** ** The two lists *)

Definition grantPosition (row : GrantRow) : Z * Z := (gr_created_at row, gr_id row).
Definition recordPosition (r : OperatorGrantRecord) : Z * Z := (rec_createdAt r, rec_id r).
Definition debitPosition (row : DebitRow) : Z * Z := (db_created_at row, db_id row).
Definition debitRecordPosition (r : AdministrativeDebitRecord) : Z * Z := (adr_createdAt r, adr_id r).
Definition grantPages (requested now : Z) (a : Account) := listOperatorGrants now a requested.
Definition debitPages (requested now : Z) (a : Account) := listAdministrativeDebits a requested.

(** A page of rows with distinct positions, each shown as an item. *)
Lemma list_page_of {Row Item} (position : Row -> Z * Z) (toItem : Row -> result Item) (itemAt : Item -> Z * Z) rows requested cursor :
  NoDup (map position rows) -> (forall r, r ∈ rows -> exists i, toItem r = Ok i /\ itemAt i = position r) -> 0 < requested ->
  exists items next, listRows position toItem rows requested cursor = Ok (items, next) /\ page_of (map position rows) cursor (map itemAt items) next.
Proof.
  intros Hnd Hitems Hq. destruct (list_page position toItem itemAt rows Hitems requested cursor Hq) as (items & next & E & Em & Hn).
  exists items, next. split; [done|]. rewrite Em. apply (taken_page _ _ _ (newest position rows cursor)); [lia|by apply newest_sorted|by apply newest_in|done].
Qed.

Lemma snd_NoDup {A} (f g : A -> Z) l : NoDup (map g l) -> NoDup (map (fun x => (f x, g x)) l).
Proof. intros H. apply (NoDup_fmap_1 snd). by rewrite <- list_fmap_compose. Qed.

Lemma grant_rows a now : account_ok a -> forall l, (forall row, row ∈ l -> row ∈ ac_grants a) ->
  map (fun r => (ogr_created_at r, ogr_id r)) (omap (operatorGrantRow now a) l) = map grantPosition l.
Proof.
  intros Hok. induction l as [|row l IH]; intros Hin; [done|].
  destruct (row_grant a Hok row (Hin row (list_elem_of_here _ _))) as (w & al & g & Hw & Hl & Hid).
  destruct (row_record a Hok now row w al g (Hin row (list_elem_of_here _ _)) Hw Hl Hid) as (r & Er & _ & Erec).
  cbn. rewrite Er. cbn. rewrite IH by (intros; apply Hin; by right). f_equal.
  unfold operatorGrantRow in Er. destruct (findAllocation _ _) as [ [w' al']|]; [|done]. cbn in Er. by injection Er as <-.
Qed.

Lemma grant_page requested a now cursor : account_ok a -> 0 < requested -> exists items next,
  grantPages requested now a cursor = Ok (items, next) /\ page_of (map grantPosition (ac_grants a)) cursor (map recordPosition items) next.
Proof.
  intros Hok Hq. rewrite <- (grant_rows a now Hok (ac_grants a)) by done. apply list_page_of; [|intros r Hr|done].
  - rewrite grant_rows by done. apply snd_NoDup, (ao_rowIds _ Hok).
  - apply list_elem_of_omap in Hr as (row & Hrow & Er). destruct (row_grant a Hok row Hrow) as (w & al & g & Hw & Hl & Hid).
    destruct (row_record a Hok now row w al g Hrow Hw Hl Hid) as (r' & Er' & _ & Erec). rewrite Er in Er'. injection Er' as <-.
    eexists. split; [exact Erec|]. unfold operatorGrantRow in Er. destruct (findAllocation _ _) as [ [w' al']|]; [|done]. cbn in Er. by injection Er as <-.
Qed.

Lemma debit_page requested a now cursor : account_ok a -> 0 < requested -> exists items next,
  debitPages requested now a cursor = Ok (items, next) /\ page_of (map debitPosition (ac_debits a)) cursor (map debitRecordPosition items) next.
Proof.
  intros Hok Hq. apply list_page_of; [apply snd_NoDup, (ao_debits _ Hok)| |done].
  intros row Hrow. destruct (debit_record a row Hok Hrow) as (r & Hr & _). exists r.
  unfold requireDebit in Hr. rewrite (find_by_id db_id (ac_debits a) row (ao_debits _ Hok) Hrow) in Hr. split; [done|].
  unfold toDebitRecord in Hr. apply bind_Ok in Hr as (lines & _ & Hr). by injection Hr as <-.
Qed.

Section Positions.
Context (localeCompare : text -> text -> comparison) (sha256Hex : text -> text) (catalog : Catalog) (uuidOf : text -> option Z).
Abbreviation adjusts := (adjusts localeCompare sha256Hex catalog uuidOf).

Lemma positions_stay a a' : account_ok a -> rtc adjusts a a' -> account_ok a' /\
  (forall p, p ∈ map grantPosition (ac_grants a) -> p ∈ map grantPosition (ac_grants a')) /\
  (forall p, p ∈ map debitPosition (ac_debits a) -> p ∈ map debitPosition (ac_debits a')).
Proof.
  intros Hok H. destruct (history_rows _ _ _ _ a a' Hok H) as [Hg Hd]. split; [by eapply adjusted_ok|]. split.
  - intros p (row & -> & Hrow)%list_elem_of_fmap. destruct (Hg row Hrow) as (row' & Hrow' & E1 & _ & _ & _ & _ & E2 & _).
    apply list_elem_of_fmap. exists row'. split; [unfold grantPosition; by rewrite E1, E2|done].
  - intros p (row & -> & Hrow)%list_elem_of_fmap. by apply (list_elem_of_fmap_2 debitPosition), Hd.
Qed.
End Positions.

(** C26: following the cursors of the grants or debits of an account shows every one.  While
    wallet use, grants, revocations and debits go on between the pages, the items of all
    pages come newest first, each once, each a row of the account, and none of the rows the
    account had when the reader began is missed; the clock may differ from page to page.
    On an account that stands still a reader ends after at most as many pages as there are
    rows, plus one, without an error, having read exactly the rows. *)
Theorem lists_page_through localeCompare sha256Hex catalog uuidOf a0 a requested :
  unadjusted a0 -> rtc (adjusts localeCompare sha256Hex catalog uuidOf) a0 a -> 0 < requested ->
  (forall items a', reads (grantPages requested) (rtc (adjusts localeCompare sha256Hex catalog uuidOf)) None a items a' ->
     StronglySorted newer (map recordPosition items) /\
     (forall p, p ∈ map recordPosition items -> p ∈ map grantPosition (ac_grants a')) /\
     (forall row, row ∈ ac_grants a -> grantPosition row ∈ map recordPosition items)) /\
  (forall items a', reads (debitPages requested) (rtc (adjusts localeCompare sha256Hex catalog uuidOf)) None a items a' ->
     StronglySorted newer (map debitRecordPosition items) /\
     (forall p, p ∈ map debitRecordPosition items -> p ∈ map debitPosition (ac_debits a')) /\
     (forall row, row ∈ ac_debits a -> debitPosition row ∈ map debitRecordPosition items)) /\
  (forall now fuel, (length (ac_grants a) < fuel)%nat -> exists items, readAll (listOperatorGrants now a requested) fuel None = Ok items /\
     StronglySorted newer (map recordPosition items) /\ map recordPosition items ≡ₚ map grantPosition (ac_grants a)) /\
  (forall fuel, (length (ac_debits a) < fuel)%nat -> exists items, readAll (listAdministrativeDebits a requested) fuel None = Ok items /\
     StronglySorted newer (map debitRecordPosition items) /\ map debitRecordPosition items ≡ₚ map debitPosition (ac_debits a)).
Proof.
  intros Hun H0 Hq. pose proof (adjusted_ok _ _ _ _ a0 a (unadjusted_ok a0 Hun) H0) as Hok. set (later := rtc _).
  assert (Hg : forall s s', account_ok s -> later s s' -> account_ok s' /\ forall p, p ∈ map grantPosition (ac_grants s) -> p ∈ map grantPosition (ac_grants s'))
    by (intros s s' Hs Hl; by destruct (positions_stay _ _ _ _ s s' Hs Hl) as (? & ? & ?)).
  assert (Hd : forall s s', account_ok s -> later s s' -> account_ok s' /\ forall p, p ∈ map debitPosition (ac_debits s) -> p ∈ map debitPosition (ac_debits s'))
    by (intros s s' Hs Hl; by destruct (positions_stay _ _ _ _ s s' Hs Hl) as (? & ? & ?)).
  assert (Hr : forall s, later s s) by (intros s; apply rtc_refl).
  split; [|split; [|split] ].
  - intros items a' H. destruct (reads_complete _ _ recordPosition (fun s => map grantPosition (ac_grants s)) account_ok
      (fun s now c Hs => grant_page requested s now c Hs Hq) Hg None a items a' H Hok) as (H1 & H2 & H3).
    split; [done|]. split; [intros p Hp; by apply H2|]. intros row Hrow. by apply H3; [apply list_elem_of_fmap_2|].
  - intros items a' H. destruct (reads_complete _ _ debitRecordPosition (fun s => map debitPosition (ac_debits s)) account_ok
      (fun s now c Hs => debit_page requested s now c Hs Hq) Hd None a items a' H Hok) as (H1 & H2 & H3).
    split; [done|]. split; [intros p Hp; by apply H2|]. intros row Hrow. by apply H3; [apply list_elem_of_fmap_2|].
  - intros now fuel Hf. apply (readAll_complete (grantPages requested) later recordPosition (fun s => map grantPosition (ac_grants s)) account_ok
      (fun s now c Hs => grant_page requested s now c Hs Hq) Hg Hr now a fuel Hok); [apply snd_NoDup, (ao_rowIds _ Hok)|by rewrite length_map].
  - intros fuel Hf. apply (readAll_complete (debitPages requested) later debitRecordPosition (fun s => map debitPosition (ac_debits s)) account_ok
      (fun s now c Hs => debit_page requested s now c Hs Hq) Hd Hr 0 a fuel Hok); [apply snd_NoDup, (ao_debits _ Hok)|by rewrite length_map].
Qed.

(** ** The account of [AdjustmentLedger] again *)

Lemma granted_released : rtc exampleAdjusts grantedAccount releasedAccount.
Proof.
  eapply rtc_l; [exact reserved_step|]. eapply rtc_l; [exact clawed_step|]. eapply rtc_l; [exact withdrawn_step|]. apply rtc_once. exact released_step.
Qed.

(** The goodwill grant sent again by someone else, and with another quantity. *)
Definition resent (quantity actor : text) : OperatorGrantInput :=
  {| gi_featureKey := js "credits"; gi_quantity := quantity; gi_entityId := None; gi_expiresAt := None;
     gi_reason := js "Outage "; gi_actor := actor; gi_idempotencyKey := js "grant-1" |}.
Definition normalGrant (raw : OperatorGrantInput) : OperatorGrantInput := match normalizeOperatorGrantInput raw with Ok i => i | Err _ => raw end.
Definition grantHashOf (raw : OperatorGrantInput) : text :=
  match operatorGrantRequestHash caselessCompare plainHash (normalGrant raw) with Ok h => h | Err _ => [] end.
Definition goodwillRecord : OperatorGrantRecord :=
  match grantOperatorBalance caselessCompare plainHash creditsCatalog goodwill 100 3 5 creditsAccount with Ok (_, (_, r)) => r | Err _ => noRecord end.

(** A second grant, after everything. *)
Definition apology : OperatorGrantInput :=
  {| gi_featureKey := js "credits"; gi_quantity := js "1"; gi_entityId := None; gi_expiresAt := None;
     gi_reason := js "Apology"; gi_actor := js "support"; gi_idempotencyKey := js "grant-2" |}.
Definition apologyAccount : Account := accountOf (grantOperatorBalance caselessCompare plainHash creditsCatalog apology 101 4 20 releasedAccount).

Lemma apology_reachable : rtc exampleAdjusts creditsAccount apologyAccount.
Proof.
  transitivity releasedAccount; [exact released_reachable|]. apply rtc_once.
  destruct (accountOf_ok (grantOperatorBalance caselessCompare plainHash creditsCatalog apology 101 4 20 releasedAccount)) as [out E]; [vm_compute; reflexivity|].
  apply (adj_grant _ _ _ _ _ apology 101 4 20 _ out); [| |exact E]; apply (bool_decide_unpack _); vm_compute; exact I.
Qed.

Lemma adjustment_keys_replay_witness :
  (exists r, grantOperatorBalance caselessCompare plainHash creditsCatalog (resent (js "20") (js "other")) 102 5 30 releasedAccount
     = Ok (releasedAccount, (true, r)) /\ rec_id r = 100 /\ rec_actor r = js "support") /\
  grantOperatorBalance caselessCompare plainHash creditsCatalog (resent (js "21") (js "support")) 102 5 30 releasedAccount
  = Err (idempotencyConflict "operator grant").
Proof.
  assert (E : grantOperatorBalance caselessCompare plainHash creditsCatalog goodwill 100 3 5 creditsAccount = Ok (grantedAccount, (false, goodwillRecord)))
    by (vm_compute; reflexivity).
  assert (Hin : normalizeOperatorGrantInput goodwill = Ok (normalGrant goodwill)) by (vm_compute; reflexivity).
  assert (Hh : operatorGrantRequestHash caselessCompare plainHash (normalGrant goodwill) = Ok (grantHashOf goodwill)) by (vm_compute; reflexivity).
  assert (Hfresh1 : 100 ∉ map gr_id (ac_grants creditsAccount)) by exact (not_elem_of_nil _).
  assert (Hfresh2 : 3 ∉ allocIds creditsAccount) by (apply (bool_decide_unpack _); vm_compute; exact I).
  destruct (adjustment_keys_replay caselessCompare plainHash creditsCatalog numericUuid creditsAccount creditsAccount grantedAccount releasedAccount
    creditsAccount_unadjusted (rtc_refl _ _) granted_released) as (Hreplay & _ & _).
  split.
  - destruct (Hreplay goodwill _ _ 100 3 5 false goodwillRecord (resent (js "20") (js "other")) (normalGrant (resent (js "20") (js "other")))
      (grantHashOf (resent (js "20") (js "other"))) 102 5 30 Hfresh1 Hfresh2 E Hin Hh) as (r & _ & Hid & Hactor & Er);
      [vm_compute; reflexivity|vm_compute; reflexivity|vm_compute; reflexivity|].
    exists r. rewrite Er. unfold keyAnswer. rewrite bool_decide_eq_true_2 by (vm_compute; reflexivity). split; [reflexivity|]. rewrite Hid, Hactor.
    split; vm_compute; reflexivity.
  - destruct (Hreplay goodwill _ _ 100 3 5 false goodwillRecord (resent (js "21") (js "support")) (normalGrant (resent (js "21") (js "support")))
      (grantHashOf (resent (js "21") (js "support"))) 102 5 30 Hfresh1 Hfresh2 E Hin Hh) as (r & _ & _ & _ & Er);
      [vm_compute; reflexivity|vm_compute; reflexivity|vm_compute; reflexivity|].
    rewrite Er. unfold keyAnswer. rewrite bool_decide_eq_false_2; [reflexivity|]. vm_compute. discriminate.
Defined.

Lemma lists_page_through_witness : exists items, readAll (listOperatorGrants 30 apologyAccount 1) 3 None = Ok items /\ map rec_id items = [101; 100].
Proof.
  assert (Hl : (length (ac_grants apologyAccount) < 3)%nat) by (vm_compute; lia).
  destruct (lists_page_through caselessCompare plainHash creditsCatalog numericUuid creditsAccount apologyAccount 1 creditsAccount_unadjusted
    apology_reachable eq_refl) as (_ & _ & Hg & _).
  destruct (Hg 30 3%nat Hl) as (items & E & Hs & Hp). exists items. split; [exact E|].
  assert (E' : (items ← readAll (listOperatorGrants 30 apologyAccount 1) 3 None; Ok (map rec_id items)) = Ok [101; 100]) by (vm_compute; reflexivity).
  rewrite E in E'. cbn [mbind result_bind] in E'. congruence.
Defined.
